(* ===== verification/_CoqProject ===== *)
-Q . S2P
Prelude.v
Bytes.v
Boot.v
Pmm.v
NetProto.v
NetDhcpDns.v
Net.v
Block.v
BlockCache.v
Partition.v
Vfs.v
Tmpfs.v
Storage.v
Scheduler.v
Input.v
Acpi.v
Paging.v
AcpiKernel.v
ByteMem.v
Heap.v
HeapList.v
HeapSpec.v
HeapSafe.v
HeapKernel.v
BootJosh.v
BootLimine.v
Memory.v
Spinlock.v
Entry.v
Interrupts.v
Cpu.v
Apic.v
Keyboard.v
Timer.v
Smp.v
Machine.v
Pci.v
E1000.v
E1000Init.v
E1000Run.v
Windows.v
Gfx.v
Shell.v
Desktop.v
