(* ===== verification/Prelude.v ===== *)
(** * JoshOS verification library

    JoshOS is an x86-64 kernel in C (kernel/src) and a Wayland compositor
    (compositor).  This library translates most of both into executable
    definitions and proves what makes each part correct.  A definition has the
    name of the C function or type it translates; a part of a function, mostly
    the body of a loop, has a name of its own.

    ** Conventions

    An unsigned integer is a [Z] with every reduction modulo its width written
    out ([u8] to [u64]).  A result [None] is undefined behaviour, an access
    outside an array, or a loop that ran out of fuel, so a theorem that a
    function gives [Some] says that it is defined and ends.  An array is a list
    read and written with [rd] and [wr]; an array with a live count is in places
    the list of its live entries, and then its file says so.  Loops with a
    counter recurse on the count.  The others take fuel: the remaining length for
    the ACPI, DHCP and DNS loops, which advance in every round, and one more than
    the number of headers that fit into the regions for the lists of the heap.
    The loop that polls the network card takes one round more than the card has
    frames to report; without such a bound on the card it need not end.
    The theorems about these functions show that the fuel is enough.

    Code that is not in the sources, or is only reached through a pointer, is a
    function on a state of its own, and what is relied on of it is a class:
    [BlockDevices], [FileSystem] (discharged by the memory file system),
    [HeapGrowth] (discharged by kernel_heap_grow), [PhysicalMemory] for the reader
    of the ACPI tables, [Contexts] for the file systems behind the mount table,
    [Hardware], [Controllers], [PciConfig] and [DmaMemory] for devices, and
    [Wlroots].  Nothing is assumed of the network card: it is any function from
    the accesses so far to an answer.  Concurrent code is a relation of atomic
    steps that interleave freely; acquire and release are the orders that justify
    this reading.

    ** Files

    Shared: Prelude (machine integers, arrays, [steps], tactics, hints), Bytes
    (byte buffers, codecs, C strings), ByteMem (memory of bytes), Memory
    (memory.c).

    Booting: Boot (boot.h), BootJosh (boot_josh.c, josh_boot_protocol.h) and
    BootLimine (boot_limine.c).  Each adapter stays inside what the loader left,
    succeeds exactly on usable data and gives the context that the frame
    allocator and paging need.

    Memory: Pmm (pmm.c), Paging (paging.c), Heap, HeapList, HeapSpec, HeapSafe
    (heap.c) and HeapKernel (heap_kernel.c).  Frames are never handed out twice;
    no page is writable and executable; paging_init gives every section exactly
    its permissions; the heap refines a map from pointers to bytes; and the three
    together keep the heap inside usable memory that is no page table.

    Processor and interrupts: Entry (the assembly stubs), Interrupts
    (interrupts.c, serial.c, gdt.c), Cpu (cpu.c, io.h), Apic (apic.c,
    apic_route.c), Spinlock (spinlock.h), Acpi (acpi.c), AcpiKernel
    (acpi_kernel.c), Smp (smp.c, smp_topology.c), Timer (timer.c, timer_math.c), Keyboard (keyboard.c,
    keyboard_decode.c), Input (input.c), Scheduler (scheduler.c,
    context_switch.S).  Machine puts the interrupt-driven devices together:
    timer_init, keyboard_init and smp_init over the tables of handlers, the
    controllers and the heap.  From the processor's entry to iretq the stubs
    restore what they interrupted, vectors reach their own handlers, routing
    touches one pin, discovery ends on any tables, locks exclude and give back the
    interrupt flag, the clock advances by its tick, what is typed on a US keyboard
    is read, and every ready thread runs.

    Storage: Block (block.c), BlockCache (block_cache.c), Partition
    (partition.c), Vfs (vfs.c), Tmpfs (tmpfs.c), Storage (storage_services.c).
    The cache stays coherent with the medium, scanning any disk is safe and fails
    with an I/O error only when the driver does, paths resolve to the longest
    mount, open files refine byte files with a position and permissions, and
    settings and device entries are read back.

    Network and bus: NetProto and NetDhcpDns (net_proto.c), Net (net.c), Pci
    (pci.c), E1000, E1000Init and E1000Run (e1000.c).  Packets that are built are
    parsed back, the checksum is the one of the standard, parsers end inside any
    packet, and the scan finds exactly the functions that answer.  The driver of
    the network card gives the card only frames it took for it, fills a
    descriptor before it announces it, hands on exactly the frames reported whole
    and free of errors, in order, and writes nothing else, whatever the card does.

    Screen and shell: Gfx (gfx.c, font.c), Shell (shell.c), Desktop (desktop.c and
    the two parts of main.c that start the shell and feed it).  Drawing paints
    exactly the visible pixels of each shape and no other word; the shell refines a
    terminal with a line editor, and the screen shows that terminal's picture.
    Screens have at most 2^30 pixels in a row and in a column; every framebuffer
    that the adapter of Josh's boot protocol accepts has.

    Compositor: Windows (window_model.c and the handlers of josh_compositor.c
    that change a view).  Over all histories windows keep an area; a drag never
    holds a freed view as long as events come in the order [orderly] describes,
    which the compositor itself does not enforce.

    ** What the theorems found

    Some theorems prove behaviour that the code does not mean to have: a failed
    read leaves a wrong sector in the cache, truncation keeps bytes, an oversized
    set loses the old value, a failed device mapping blocks later ones, a huge
    kmalloc takes frames, the exception report shows a wrong stack pointer,
    enabling a PCI device clears its errors, windows lose the geometry they
    should go back to, and a view can be freed while it is grabbed.

    ** Not modelled

    Of main.c, the order of the initialisations and the messages on the serial
    line; the initialisations are modelled with their components.  Discovery of
    the ACPI tables takes the reader as a function of address and length, so the
    paging state that the reader of acpi_kernel.c passes on between reads is not
    part of it.  The memory barriers of the card's driver are the order of its
    accesses.  A handler of an interrupt works on the state of its device and not
    on the table of handlers, and the receiver of a network frame on its own state
    and not on the device layer, as the handlers and receivers in the sources do.
    The stacks of threads are memories of 64-bit words.
    Programming the serial port, loading descriptor tables and segment registers, TLB
    invalidation, the reset through the keyboard controller, the reads of CR3 and
    of the time stamp counter and the waiting loop of smp_self_ipi_test are
    processor or device state outside the model.  Of the compositor, outputs,
    input devices, selections and the start-up only set up objects of wlroots;
    the rounding of pointer coordinates is left out. *)

From stdpp Require Import base numbers list gmap.
From Stdlib Require Import ZArith Lia.

#[local] Open Scope Z_scope.

(** ** Machine integers

    An unsigned C integer of width [w] is a [Z] in [0, 2^w); every operation
    that C reduces modulo [2^w] is written with the reduction. *)

Definition u8 (z : Z) : Z := z mod 2 ^ 8.
Definition u16 (z : Z) : Z := z mod 2 ^ 16.
Definition u32 (z : Z) : Z := z mod 2 ^ 32.
Definition u64 (z : Z) : Z := z mod 2 ^ 64.

Definition UINT16_MAX : Z := 65535.
Definition UINT32_MAX : Z := 4294967295.
Definition UINT64_MAX : Z := 18446744073709551615.
Definition SIZE_MAX : Z := UINT64_MAX.

(** Bitwise complement at a width, as C's [~] on an unsigned operand. *)
Definition not16 (z : Z) : Z := u16 (Z.lnot z).
Definition not32 (z : Z) : Z := u32 (Z.lnot z).
Definition not64 (z : Z) : Z := u64 (Z.lnot z).

(** The value of a signed [int] expression; overflow is undefined. *)
Definition int (v : Z) : option Z := if (- 2 ^ 31 <=? v) && (v <? 2 ^ 31) then Some v else None.

(** C's truth value of [z & mask]. *)
Definition bit_set (z mask : Z) : bool := negb (Z.land z mask =? 0).

Declare Scope c_scope.
Delimit Scope c_scope with C.

Notation "x +₆₄ y" := (u64 (x + y)) (at level 50, left associativity) : c_scope.
Notation "x -₆₄ y" := (u64 (x - y)) (at level 50, left associativity) : c_scope.
Notation "x *₆₄ y" := (u64 (x * y)) (at level 40, left associativity) : c_scope.
Notation "x +₃₂ y" := (u32 (x + y)) (at level 50, left associativity) : c_scope.
Notation "x -₃₂ y" := (u32 (x - y)) (at level 50, left associativity) : c_scope.
Notation "x *₃₂ y" := (u32 (x * y)) (at level 40, left associativity) : c_scope.

(** ** Arrays

    A C array or buffer is a list.  [rd] and [wr] are the element read and
    write of C; outside the array both are undefined behaviour, which the
    whole library represents by [None].  A function that stays within the
    bounds of its buffers therefore returns [Some]. *)

Definition rd {A} (l : list A) (i : Z) : option A :=
  if 0 <=? i then l !! Z.to_nat i else None.

Definition wr {A} (l : list A) (i : Z) (x : A) : option (list A) :=
  if (0 <=? i) && (i <? Z.of_nat (length l)) then Some (<[Z.to_nat i := x]> l)
  else None.

Notation "l .[ i ]" := (rd l i) (at level 1, left associativity, format "l .[ i ]") : c_scope.

(** The length of an array, as the [size_t] C computes with. *)
Definition zlen {A} (l : list A) : Z := Z.of_nat (length l).

(** A byte buffer holds values of an unsigned char. *)
Definition byte_ok (b : Z) : Prop := 0 <= b < 256.
Definition bytes_ok (l : list Z) : Prop := Forall byte_ok l.

#[export] Instance byte_ok_dec b : Decision (byte_ok b).
Proof. unfold byte_ok. apply _. Defined.

#[export] Instance bytes_ok_dec l : Decision (bytes_ok l).
Proof. unfold bytes_ok. apply _. Defined.

(** Reduction stops at the array operations and the machine integers. *)
#[global] Arguments rd {A} l i : simpl never.
#[global] Arguments wr {A} l i x : simpl never.
#[global] Arguments zlen {A} l : simpl never.
#[global] Arguments u8 z : simpl never.
#[global] Arguments u16 z : simpl never.
#[global] Arguments u32 z : simpl never.
#[global] Arguments u64 z : simpl never.

(** ** Finite sequences of steps *)

Section Steps.
Context {S : Type} (step : S -> S -> Prop).

(** Reflexive and transitive closure, growing at the end: rule induction
      over it proves invariants. *)
Inductive steps (s : S) : S -> Prop :=
| steps_refl : steps s s
| steps_snoc s1 s2 : steps s s1 -> step s1 s2 -> steps s s2.

Lemma steps_invariant (P : S -> Prop) s s' :
    P s -> (forall a b, P a -> step a b -> P b) -> steps s s' -> P s'.
Proof. intros H0 Hstep H. induction H; eauto. Qed.

Lemma steps_one s s' : step s s' -> steps s s'.
Proof. intros. eapply steps_snoc; [apply steps_refl | done]. Qed.

Lemma steps_trans s1 s2 s3 : steps s1 s2 -> steps s2 s3 -> steps s1 s3.
Proof. intros H1 H2. induction H2; [done |]. by eapply steps_snoc. Qed.
End Steps.

(** ** Tactics *)

(** Splits the boolean tests of a goal or hypothesis into propositions. *)
Ltac bool_cases :=
  repeat match goal with
  | H : _ && _ = true |- _ => apply andb_true_iff in H; destruct H
  | H : _ || _ = false |- _ => apply orb_false_iff in H; destruct H
  | H : negb _ = true |- _ => apply negb_true_iff in H
  | H : negb _ = false |- _ => apply negb_false_iff in H
  | H : (_ <=? _) = true |- _ => apply Z.leb_le in H
  | H : (_ <=? _) = false |- _ => apply Z.leb_gt in H
  | H : (_ <? _) = true |- _ => apply Z.ltb_lt in H
  | H : (_ <? _) = false |- _ => apply Z.ltb_ge in H
  | H : (_ =? _) = true |- _ => apply Z.eqb_eq in H
  | H : (_ =? _) = false |- _ => apply Z.eqb_neq in H
  end.

(** Case analysis on the condition of the first [if] of the goal. *)
Ltac if_case :=
  match goal with
  | |- context [if ?b then _ else _] =>
      lazymatch b with
      | context [if _ then _ else _] => fail
      | _ => let E := fresh "E" in destruct b eqn:E
      end
  end.

(** The same in a hypothesis. *)
Ltac if_case_in H :=
  match type of H with
  | context [if ?b then _ else _] =>
      lazymatch b with
      | context [if _ then _ else _] => fail
      | _ => let E := fresh "E" in destruct b eqn:E
      end
  end.

(** ** Lemmas on machine integers *)

Create HintDb cint.
Create Rewrite HintDb cint.

Lemma u8_range z : 0 <= u8 z < 256.
Proof. unfold u8. apply Z.mod_pos_bound. lia. Qed.
Lemma u16_range z : 0 <= u16 z < 65536.
Proof. unfold u16. apply Z.mod_pos_bound. lia. Qed.
Lemma u32_range z : 0 <= u32 z < 4294967296.
Proof. unfold u32. apply Z.mod_pos_bound. lia. Qed.
Lemma u64_range z : 0 <= u64 z < 18446744073709551616.
Proof. unfold u64. apply Z.mod_pos_bound. lia. Qed.

Lemma u8_small z : 0 <= z < 256 -> u8 z = z.
Proof. intros. unfold u8. apply Z.mod_small. lia. Qed.
Lemma u16_small z : 0 <= z < 65536 -> u16 z = z.
Proof. intros. unfold u16. apply Z.mod_small. lia. Qed.
Lemma u32_small z : 0 <= z < 4294967296 -> u32 z = z.
Proof. intros. unfold u32. apply Z.mod_small. lia. Qed.
Lemma u64_small z : 0 <= z < 18446744073709551616 -> u64 z = z.
Proof. intros. unfold u64. apply Z.mod_small. lia. Qed.

Lemma int_some v r : int v = Some r -> r = v /\ - 2 ^ 31 <= v < 2 ^ 31.
Proof. unfold int. destruct (_ && _) eqn:E; [| done]. apply andb_true_iff in E. intros [= ->]. lia. Qed.

Lemma int_in v : - 2 ^ 31 <= v < 2 ^ 31 -> int v = Some v.
Proof. intros. unfold int. replace ((- 2 ^ 31 <=? v) && (v <? 2 ^ 31)) with true; [done |]. symmetry. apply andb_true_iff. lia. Qed.

#[export] Hint Resolve u8_range u16_range u32_range u64_range : cint.
#[export] Hint Rewrite u8_small u16_small u32_small u64_small using lia : cint.

(** Removes every reduction whose operand is provably in range. *)
Ltac no_wrap :=
  repeat first [ rewrite u64_small by lia | rewrite u32_small by lia
               | rewrite u16_small by lia | rewrite u8_small by lia ].

(** Masking with a low mask is reduction modulo a power of two. *)
Lemma land_low_mask z k : 0 <= k -> Z.land z (2 ^ k - 1) = z mod 2 ^ k.
Proof.
  intros. rewrite <- Z.land_ones by done. f_equal.
  rewrite Z.ones_equiv. lia.
Qed.

(** Masking a 64-bit value with the complement of a low mask rounds it down. *)
Lemma land_not64_low_mask z k :
  0 <= z < 2 ^ 64 -> 0 <= k <= 64 ->
  Z.land z (not64 (2 ^ k - 1)) = z - z mod 2 ^ k.
Proof.
  intros Hz Hk.
  assert (Hn : Z.land z (not64 (2 ^ k - 1)) = Z.ldiff z (Z.ones k)).
  { apply Z.bits_inj'. intros n Hn.
    rewrite Z.land_spec, Z.ldiff_spec. unfold not64, u64.
    destruct (Z.ltb_spec n 64).
    - rewrite Z.mod_pow2_bits_low by lia. rewrite Z.lnot_spec by done.
      replace (2 ^ k - 1) with (Z.ones k) by (rewrite Z.ones_equiv; lia). done.
    - assert (Z.testbit z n = false) as ->; [| done].
      rewrite <- (Z.mod_small z (2 ^ 64)) by lia.
      apply Z.mod_pow2_bits_high. lia. }
  rewrite Hn. rewrite Z.ldiff_ones_r by lia.
  rewrite Z.shiftr_div_pow2, Z.shiftl_mul_pow2 by lia.
  pose proof (Z.div_mod z (2 ^ k)). lia.
Qed.

(** ** Lemmas on arrays *)

Lemma zlen_nonneg {A} (l : list A) : 0 <= zlen l.
Proof. unfold zlen. lia. Qed.

Lemma zlen_app {A} (l1 l2 : list A) : zlen (l1 ++ l2) = zlen l1 + zlen l2.
Proof. unfold zlen. rewrite length_app. lia. Qed.

Lemma rd_Some_lt {A} (l : list A) i x : rd l i = Some x -> 0 <= i < zlen l.
Proof.
  unfold rd, zlen. if_case; [| done]. intros H%lookup_lt_Some. bool_cases. lia.
Qed.

Lemma rd_in_range {A} (l : list A) i : 0 <= i < zlen l -> is_Some (rd l i).
Proof.
  unfold rd, zlen. intros. rewrite (proj2 (Z.leb_le 0 i)) by lia.
  apply lookup_lt_is_Some. lia.
Qed.

Lemma rd_lookup {A} (l : list A) i x :
  rd l i = Some x <-> 0 <= i /\ l !! Z.to_nat i = Some x.
Proof. unfold rd. if_case; bool_cases; intuition (try lia; try done). Qed.

Lemma rd_of_nat {A} (l : list A) (n : nat) : rd l (Z.of_nat n) = l !! n.
Proof.
  unfold rd. rewrite (proj2 (Z.leb_le _ _)) by lia. by rewrite Nat2Z.id.
Qed.

Lemma rd_out {A} (l : list A) i : i < 0 \/ zlen l <= i -> rd l i = None.
Proof.
  unfold rd, zlen. intros. if_case; [| done]. bool_cases.
  apply lookup_ge_None. lia.
Qed.

Lemma wr_in_range {A} (l : list A) i x :
  0 <= i < zlen l -> wr l i x = Some (<[Z.to_nat i := x]> l).
Proof.
  unfold wr, zlen. intros.
  rewrite (proj2 (Z.leb_le 0 i)), (proj2 (Z.ltb_lt i _)) by lia. done.
Qed.

Lemma wr_Some {A} (l l' : list A) i x :
  wr l i x = Some l' -> 0 <= i < zlen l /\ l' = <[Z.to_nat i := x]> l.
Proof. unfold wr, zlen. if_case; [| done]. bool_cases. by intros [= <-]. Qed.

Lemma zlen_insert {A} (l : list A) (n : nat) x : zlen (<[n := x]> l) = zlen l.
Proof. unfold zlen. by rewrite length_insert. Qed.

Lemma zlen_wr {A} (l l' : list A) i x : wr l i x = Some l' -> zlen l' = zlen l.
Proof. intros [_ ->]%wr_Some. apply zlen_insert. Qed.

Lemma rd_insert_eq {A} (l : list A) i x :
  0 <= i < zlen l -> rd (<[Z.to_nat i := x]> l) i = Some x.
Proof.
  intros H. rewrite rd_lookup. split; [lia |].
  apply list_lookup_insert_eq. unfold zlen in H. lia.
Qed.

Lemma rd_insert_ne {A} (l : list A) i j x :
  0 <= i -> i <> j -> rd (<[Z.to_nat i := x]> l) j = rd l j.
Proof.
  intros Hi Hne. unfold rd. if_case; [| done]. bool_cases.
  apply list_lookup_insert_ne. lia.
Qed.

Lemma rd_wr_eq {A} (l l' : list A) i x : wr l i x = Some l' -> rd l' i = Some x.
Proof. intros [? ->]%wr_Some. by apply rd_insert_eq. Qed.

Lemma rd_wr_ne {A} (l l' : list A) i j x :
  wr l i x = Some l' -> i <> j -> rd l' j = rd l j.
Proof. intros [? ->]%wr_Some ?. apply rd_insert_ne; lia. Qed.

#[export] Hint Resolve zlen_nonneg : cint.
#[export] Hint Rewrite @zlen_insert @zlen_app : cint.

Lemma elem_of_middle {A} (l1 l2 : list A) x : x ∈ l1 ++ x :: l2.
Proof. apply elem_of_app. right. apply elem_of_cons. by left. Qed.

Lemma seqZ_S i (n : nat) : seqZ i (Z.of_nat (S n)) = i :: seqZ (i + 1) (Z.of_nat n).
Proof. rewrite seqZ_cons by lia. unfold Z.succ. do 2 f_equal. lia. Qed.

(** An array whose first elements have been overwritten by [xs]. *)
Definition filled {A} (l xs : list A) : list A := xs ++ drop (length xs) l.

Lemma filled_nil {A} (l : list A) : filled l [] = l.
Proof. done. Qed.

Lemma zlen_filled {A} (l xs : list A) : zlen xs <= zlen l -> zlen (filled l xs) = zlen l.
Proof. unfold filled, zlen. intros. rewrite length_app, length_drop. lia. Qed.

Lemma take_filled {A} (l xs : list A) : take (length xs) (filled l xs) = xs.
Proof. unfold filled. by rewrite take_app_length. Qed.

Lemma wr_filled {A} (l xs : list A) x : zlen xs < zlen l -> wr (filled l xs) (zlen xs) x = Some (filled l (xs ++ [x])).
Proof.
  intros H. pose proof (zlen_filled l xs ltac:(lia)) as E. rewrite wr_in_range by (rewrite E; unfold zlen in *; lia). f_equal.
  unfold filled, zlen in *. rewrite Nat2Z.id, insert_app_r_alt, Nat.sub_diag by lia. destruct (drop (length xs) l) as [| y r] eqn:Ed.
  { apply (f_equal length) in Ed. rewrite length_drop in Ed. cbn in Ed. lia. }
  cbn. rewrite <- app_assoc, length_app. cbn. do 2 f_equal.
  rewrite <- drop_drop, Ed. done.
Qed.
