(* ===== verification/Bytes.v ===== *)
(** * Byte buffers

    Pointers, byte loops and integer codecs that the network, storage and
    firmware code share.

    A [const uint8_t *] is the list of the bytes from that address to the end
    of the object it points into, so [p + n] drops [n] bytes and [p[i]] is
    [rd p i].  A writable buffer is a list that the operations update by
    index.  A nullable pointer is an [option].  Reading or writing outside the
    object gives [None], as everywhere in the library. *)

From stdpp Require Import base numbers list.
From Stdlib Require Import ZArith Lia.
From Stdlib Require Strings.String Strings.Ascii.
From S2P Require Import Prelude.

#[local] Open Scope Z_scope.

(** ** Operations *)

(** The characters of a literal, without the terminating zero. *)
Definition chars (s : String.string) : list Z := (fun c => Z.of_N (Ascii.N_of_ascii c)) <$> String.list_ascii_of_string s.

(** [p + n]: defined up to one past the end. *)
Definition padd {A} (p : list A) (n : Z) : option (list A) :=
  if (0 <=? n) && (n <=? zlen p) then Some (drop (Z.to_nat n) p) else None.

(** The loop [while (length--) *destination++ = *source++]. *)
Fixpoint copy_loop (n : nat) (dst : list Z) (d : Z) (src : list Z) (s : Z) :
    option (list Z) :=
  match n with
  | O => Some dst
  | S n =>
      b ← rd src s;
      dst' ← wr dst d b;
      copy_loop n dst' (d + 1) src (s + 1)
  end.

(** The loop [while (length--) *destination++ = value]. *)
Fixpoint fill_loop (n : nat) (dst : list Z) (d : Z) (b : Z) : option (list Z) :=
  match n with
  | O => Some dst
  | S n => dst' ← wr dst d b; fill_loop n dst' (d + 1) b
  end.

(** [n] consecutive bytes at [o], and [dst] with the bytes at [d] replaced:
    what the loops above compute. *)
Definition slice {A} (l : list A) (o n : Z) : list A :=
  take (Z.to_nat n) (drop (Z.to_nat o) l).

Definition blit {A} (dst : list A) (d : Z) (bs : list A) : list A :=
  take (Z.to_nat d) dst ++ bs ++ drop (Z.to_nat d + length bs) dst.

#[global] Arguments slice {A} l o n : simpl never.
#[global] Arguments blit {A} dst d bs : simpl never.

(** Big-endian and little-endian values of byte lists. *)
Definition be_val (bs : list Z) : Z := foldl (fun v b => v * 256 + b) 0 bs.
Definition le_val (bs : list Z) : Z := foldr (fun b v => b + 256 * v) 0 bs.

(** Continues a computation whose current step has a known value. *)
Ltac obind := cbn [mbind option_bind].

(** ** Slices *)

Lemma zlen_cons {A} (x : A) l : zlen (x :: l) = 1 + zlen l.
Proof. unfold zlen. simpl. lia. Qed.

Lemma zlen_nil {A} : zlen (@nil A) = 0.
Proof. done. Qed.

Lemma zlen_snoc {A} (l : list A) x : zlen (l ++ [x]) = zlen l + 1.
Proof. unfold zlen. rewrite length_app. cbn [length]. lia. Qed.

Lemma zlen_length {A} (l : list A) (n : nat) : length l = n -> zlen l = Z.of_nat n.
Proof. intros <-. done. Qed.

Lemma zlen_slice {A} (l : list A) o n :
  0 <= o -> 0 <= n -> o + n <= zlen l -> zlen (slice l o n) = n.
Proof.
  unfold slice, zlen. intros. rewrite length_take, length_drop. lia.
Qed.

Lemma zlen_blit {A} (dst : list A) d bs :
  0 <= d -> d + zlen bs <= zlen dst -> zlen (blit dst d bs) = zlen dst.
Proof.
  unfold blit, zlen. intros. rewrite !length_app, length_take, length_drop. lia.
Qed.

Lemma rd_slice {A} (l : list A) o n i :
  0 <= o -> 0 <= i < n -> rd (slice l o n) i = rd l (o + i).
Proof.
  intros. unfold rd, slice.
  rewrite (proj2 (Z.leb_le 0 i)), (proj2 (Z.leb_le 0 (o + i))) by lia.
  rewrite lookup_take_lt by lia. rewrite lookup_drop. f_equal. lia.
Qed.

Lemma rd_app_l {A} (l1 l2 : list A) i : i < zlen l1 -> rd (l1 ++ l2) i = rd l1 i.
Proof.
  unfold rd, zlen. intros. if_case; [| done]. bool_cases.
  apply lookup_app_l. lia.
Qed.

Lemma rd_app_r {A} (l1 l2 : list A) i :
  zlen l1 <= i -> rd (l1 ++ l2) i = rd l2 (i - zlen l1).
Proof.
  unfold rd, zlen. intros.
  rewrite (proj2 (Z.leb_le 0 i)), (proj2 (Z.leb_le 0 (i - _))) by lia.
  rewrite lookup_app_r by lia. f_equal. lia.
Qed.

Lemma rd_blit_in {A} (dst : list A) d bs i :
  0 <= d -> d + zlen bs <= zlen dst -> d <= i < d + zlen bs ->
  rd (blit dst d bs) i = rd bs (i - d).
Proof.
  intros. unfold blit.
  assert (zlen (take (Z.to_nat d) dst) = d) as Hd.
  { revert H0. unfold zlen. rewrite length_take. lia. }
  rewrite rd_app_r by lia. rewrite Hd. apply rd_app_l. lia.
Qed.

Lemma rd_blit_out {A} (dst : list A) d bs i :
  0 <= d -> d + zlen bs <= zlen dst -> i < d \/ d + zlen bs <= i ->
  rd (blit dst d bs) i = rd dst i.
Proof.
  intros. unfold blit.
  assert (zlen (take (Z.to_nat d) dst) = d) as Hd.
  { revert H0. unfold zlen. rewrite length_take. lia. }
  destruct (Z.ltb_spec i d).
  - rewrite rd_app_l by lia. unfold rd. if_case; [| done]. bool_cases.
    apply lookup_take_lt. lia.
  - rewrite rd_app_r, rd_app_r by lia. rewrite Hd. unfold rd, zlen in *.
    rewrite (proj2 (Z.leb_le 0 i)), (proj2 (Z.leb_le 0 (i - _ - _))) by lia.
    rewrite lookup_drop. f_equal. lia.
Qed.

(** Two arrays of one length that agree at every index are equal. *)
Lemma rd_ext {A} (l1 l2 : list A) :
  zlen l1 = zlen l2 -> (forall i, 0 <= i < zlen l1 -> rd l1 i = rd l2 i) -> l1 = l2.
Proof.
  unfold zlen. intros Hl H. apply list_eq_same_length with (length l1); [lia | done |].
  intros i x y Hi Hx Hy. specialize (H (Z.of_nat i)). rewrite !rd_of_nat in H.
  rewrite H in Hx by lia. congruence.
Qed.

Lemma slice_blit_same {A} (dst : list A) d bs n :
  0 <= d -> n = zlen bs -> d + n <= zlen dst -> slice (blit dst d bs) d n = bs.
Proof.
  intros Hd -> H. pose proof (zlen_nonneg bs).
  apply rd_ext; [rewrite zlen_slice; rewrite ?zlen_blit; lia |].
  rewrite zlen_slice by (rewrite ?zlen_blit; lia). intros i Hi.
  rewrite rd_slice, rd_blit_in by lia. f_equal. lia.
Qed.

(** A slice strictly inside what was written. *)
Lemma slice_blit_sub {A} (dst : list A) d bs o n :
  0 <= d -> d + zlen bs <= zlen dst -> d <= o -> 0 <= n -> o + n <= d + zlen bs ->
  slice (blit dst d bs) o n = slice bs (o - d) n.
Proof.
  intros. apply rd_ext.
  - rewrite !zlen_slice; rewrite ?zlen_blit; lia.
  - rewrite zlen_slice by (rewrite ?zlen_blit; lia). intros i Hi.
    rewrite !rd_slice, rd_blit_in by lia. f_equal. lia.
Qed.

Lemma slice_blit_disjoint {A} (dst : list A) d bs o n :
  0 <= d -> d + zlen bs <= zlen dst -> 0 <= o -> 0 <= n -> o + n <= zlen dst ->
  o + n <= d \/ d + zlen bs <= o ->
  slice (blit dst d bs) o n = slice dst o n.
Proof.
  intros. apply rd_ext.
  - rewrite !zlen_slice; rewrite ?zlen_blit; lia.
  - rewrite zlen_slice by (rewrite ?zlen_blit; lia). intros i Hi.
    rewrite !rd_slice, rd_blit_out by lia. done.
Qed.

Lemma slice_slice {A} (l : list A) o n o' n' :
  0 <= o -> 0 <= o' -> 0 <= n' -> o' + n' <= n ->
  slice (slice l o n) o' n' = slice l (o + o') n'.
Proof.
  intros. unfold slice. rewrite skipn_firstn_comm, drop_drop, take_take.
  f_equal; [lia |]. f_equal. lia.
Qed.

Lemma slice_all {A} (l : list A) n : n = zlen l -> slice l 0 n = l.
Proof.
  intros ->. unfold slice, zlen. rewrite Nat2Z.id. simpl. apply take_ge. lia.
Qed.

Lemma slice_cat {A} (l : list A) o n m :
  0 <= o -> 0 <= n -> 0 <= m -> slice l o (n + m) = slice l o n ++ slice l (o + n) m.
Proof.
  intros. unfold slice. rewrite !Z2Nat.inj_add by lia.
  rewrite <- drop_drop. rewrite <- (take_drop (Z.to_nat n) (drop (Z.to_nat o) l)) at 1.
  destruct (decide (Z.to_nat n <= length (drop (Z.to_nat o) l))%nat).
  - rewrite take_app_ge by (rewrite length_take; lia).
    rewrite length_take. do 2 f_equal. lia.
  - rewrite (drop_ge (drop (Z.to_nat o) l)) by lia.
    rewrite app_nil_r, take_nil, app_nil_r, take_take. f_equal. lia.
Qed.

Lemma slice_app_l {A} (l1 l2 : list A) o n :
  0 <= o -> 0 <= n -> o + n <= zlen l1 -> slice (l1 ++ l2) o n = slice l1 o n.
Proof.
  intros. unfold slice, zlen in *. rewrite drop_app_le by lia.
  apply take_app_le. rewrite length_drop. lia.
Qed.

Lemma slice_app_r {A} (l1 l2 : list A) o n :
  zlen l1 <= o -> slice (l1 ++ l2) o n = slice l2 (o - zlen l1) n.
Proof.
  intros. unfold slice, zlen in *. rewrite drop_app_ge by lia.
  f_equal. f_equal. lia.
Qed.

Lemma blit_full {A} (dst : list A) bs : zlen dst = zlen bs -> blit dst 0 bs = bs.
Proof.
  unfold blit, zlen. intros. simpl. rewrite drop_ge by lia. by rewrite app_nil_r.
Qed.

Lemma bytes_ok_slice l o n : bytes_ok l -> bytes_ok (slice l o n).
Proof. intros. by apply Forall_take, Forall_drop. Qed.

Lemma bytes_ok_blit dst d bs : bytes_ok dst -> bytes_ok bs -> bytes_ok (blit dst d bs).
Proof.
  intros. apply Forall_app. split; [by apply Forall_take |].
  apply Forall_app. split; [done | by apply Forall_drop].
Qed.

Lemma bytes_ok_rd l i b : bytes_ok l -> rd l i = Some b -> byte_ok b.
Proof. intros H [_ Hi]%rd_lookup. by eapply Forall_lookup_1. Qed.

(** ** The loops *)

Lemma blit_nil {A} (p : list A) o : blit p o [] = p.
Proof. unfold blit. cbn. rewrite Nat.add_0_r. apply take_drop. Qed.

Lemma wr_blit {A} (dst : list A) d b :
  0 <= d < zlen dst -> wr dst d b = Some (blit dst d [b]).
Proof.
  intros. rewrite wr_in_range by done. f_equal.
  assert (zlen [b] = 1) as Hb by done.
  apply rd_ext; rewrite zlen_insert.
  - rewrite zlen_blit; lia.
  - intros i Hi. destruct (decide (i = d)) as [-> | Hne].
    + rewrite rd_insert_eq by done.
      rewrite rd_blit_in by lia. by rewrite Z.sub_diag.
    + rewrite rd_insert_ne by lia.
      rewrite rd_blit_out by lia. done.
Qed.

(** Consecutive writes are one write. *)
Lemma blit_blit {A} (dst : list A) d bs1 bs2 d' :
  0 <= d -> d' = d + zlen bs1 -> d' + zlen bs2 <= zlen dst ->
  blit (blit dst d bs1) d' bs2 = blit dst d (bs1 ++ bs2).
Proof.
  intros Hd -> H. pose proof (zlen_nonneg bs1). pose proof (zlen_nonneg bs2).
  assert (zlen (blit dst d bs1) = zlen dst) by (apply zlen_blit; lia).
  assert (zlen (bs1 ++ bs2) = zlen bs1 + zlen bs2) by apply zlen_app.
  assert (zlen (blit (blit dst d bs1) (d + zlen bs1) bs2) = zlen dst) as HL
    by (rewrite zlen_blit; lia).
  apply rd_ext; [rewrite HL, zlen_blit; lia |]. rewrite HL. intros i Hi.
  destruct (Z.ltb_spec i d); [by rewrite !rd_blit_out by lia |].
  destruct (Z.leb_spec (d + zlen bs1 + zlen bs2) i); [by rewrite !rd_blit_out by lia |].
  rewrite (rd_blit_in dst d (bs1 ++ bs2)) by lia.
  destruct (Z.ltb_spec i (d + zlen bs1)).
  - rewrite rd_blit_out, rd_blit_in by lia. by rewrite rd_app_l by lia.
  - rewrite rd_blit_in by lia. rewrite rd_app_r by lia. f_equal. lia.
Qed.

(** A later write that covers an earlier one. *)
Lemma blit_over {A} (dst : list A) d bs1 bs2 :
  0 <= d -> zlen bs1 = zlen bs2 -> d + zlen bs2 <= zlen dst ->
  blit (blit dst d bs1) d bs2 = blit dst d bs2.
Proof.
  intros Hd Hl H. pose proof (zlen_nonneg bs1).
  assert (zlen (blit dst d bs1) = zlen dst) by (apply zlen_blit; lia).
  apply rd_ext; rewrite !zlen_blit by lia; [done |]. intros i Hi.
  destruct (decide (d <= i < d + zlen bs2)).
  - by rewrite !rd_blit_in by lia.
  - by rewrite !rd_blit_out by lia.
Qed.

Lemma blit_cons {A} (dst : list A) d d' b bs :
  0 <= d -> d' = d + 1 -> d' + zlen bs <= zlen dst ->
  blit (blit dst d' bs) d [b] = blit dst d (b :: bs).
Proof.
  intros Hd -> Hl. pose proof (zlen_nonneg bs). pose proof (zlen_cons b bs).
  assert (zlen [b] = 1) as Hb by done.
  apply rd_ext; rewrite ?zlen_blit by (rewrite ?zlen_blit by lia; lia); [done |]. intros i Hi.
  destruct (Z.eq_dec i d) as [-> | Hne].
  - rewrite !rd_blit_in by (rewrite ?zlen_blit by lia; lia). by rewrite Z.sub_diag.
  - rewrite rd_blit_out by (rewrite ?zlen_blit by lia; lia).
    destruct (decide (d < i < d + 1 + zlen bs)) as [Hin | Hout].
    + rewrite !rd_blit_in by lia. change (b :: bs) with ([b] ++ bs). rewrite rd_app_r by lia.
      f_equal. lia.
    + by rewrite !rd_blit_out by lia.
Qed.

Lemma slice_blit_inner {A} (dst : list A) d bs n :
  0 <= d -> d + zlen bs <= n -> n <= zlen dst ->
  slice (blit dst d bs) 0 n = blit (slice dst 0 n) d bs.
Proof.
  intros Hd Hb Hn. pose proof (zlen_nonneg bs).
  apply rd_ext; rewrite ?zlen_blit, ?zlen_slice by (rewrite ?zlen_blit, ?zlen_slice by lia; lia); [done |].
  intros i Hi. rewrite rd_slice by lia. rewrite Z.add_0_l.
  destruct (decide (d <= i < d + zlen bs)).
  - by rewrite !rd_blit_in by (rewrite ?zlen_slice by lia; lia).
  - rewrite !rd_blit_out by (rewrite ?zlen_slice by lia; lia). by rewrite rd_slice by lia.
Qed.

Lemma copy_loop_spec n dst d src s :
  0 <= d -> 0 <= s -> d + Z.of_nat n <= zlen dst -> s + Z.of_nat n <= zlen src ->
  copy_loop n dst d src s = Some (blit dst d (slice src s (Z.of_nat n))).
Proof.
  revert dst d s. induction n as [| n IH]; intros dst d s Hd Hs Hld Hls.
  - simpl. f_equal. unfold blit, slice. simpl. rewrite Nat.add_0_r.
    by rewrite take_drop.
  - cbn [copy_loop]. destruct (rd_in_range src s) as [b Hb]; [lia |].
    rewrite Hb. cbn. rewrite wr_blit by lia. cbn.
    assert (zlen (blit dst d [b]) = zlen dst) as HL
      by (apply zlen_blit; rewrite ?zlen_cons, ?zlen_nil; lia).
    rewrite IH by lia. f_equal.
    rewrite blit_blit; rewrite ?zlen_cons, ?zlen_nil, ?zlen_slice; try lia.
    f_equal. rewrite (Nat2Z.inj_succ n), <- Z.add_1_l, slice_cat by lia.
    f_equal. apply rd_ext; [by rewrite zlen_slice by lia |].
    change (zlen [b]) with 1. intros i Hi. rewrite rd_slice by lia. replace i with 0 by lia.
    by rewrite Z.add_0_r.
Qed.

Lemma fill_loop_spec n dst d b :
  0 <= d -> d + Z.of_nat n <= zlen dst ->
  fill_loop n dst d b = Some (blit dst d (replicate n b)).
Proof.
  revert dst d. induction n as [| n IH]; intros dst d Hd Hl.
  - simpl. f_equal. unfold blit. simpl. rewrite Nat.add_0_r. by rewrite take_drop.
  - cbn [fill_loop]. rewrite wr_blit by lia. cbn.
    assert (zlen (blit dst d [b]) = zlen dst) as HL
      by (apply zlen_blit; rewrite ?zlen_cons, ?zlen_nil; lia).
    rewrite IH by lia. f_equal.
    rewrite blit_blit; [done | lia | rewrite zlen_cons, zlen_nil; lia |].
    unfold zlen in *. rewrite length_replicate. lia.
Qed.

Lemma padd_Some {A} (p : list A) n :
  0 <= n <= zlen p -> padd p n = Some (drop (Z.to_nat n) p).
Proof.
  intros. unfold padd.
  by rewrite (proj2 (Z.leb_le 0 n)), (proj2 (Z.leb_le n _)) by lia.
Qed.

Lemma zlen_drop {A} (p : list A) n :
  0 <= n <= zlen p -> zlen (drop (Z.to_nat n) p) = zlen p - n.
Proof. unfold zlen. intros. rewrite length_drop. lia. Qed.

Lemma slice_drop {A} (p : list A) n o m :
  0 <= n -> 0 <= o -> slice (drop (Z.to_nat n) p) o m = slice p (n + o) m.
Proof.
  intros. unfold slice. rewrite drop_drop. do 2 f_equal. lia.
Qed.

Lemma rd_drop {A} (p : list A) n i :
  0 <= n -> 0 <= i -> rd (drop (Z.to_nat n) p) i = rd p (n + i).
Proof.
  intros. unfold rd. rewrite (proj2 (Z.leb_le 0 i)), (proj2 (Z.leb_le 0 (n + i))) by lia.
  rewrite lookup_drop. f_equal. lia.
Qed.

(** A byte of the buffer is the one-byte slice at its index. *)
Lemma rd_of_slice {A} (l : list A) i x : 0 <= i -> slice l i 1 = [x] -> rd l i = Some x.
Proof.
  intros Hi H. replace i with (i + 0) by lia. rewrite <- (rd_slice l i 1) by lia.
  by rewrite H.
Qed.

(** ** Joining bytes *)

(** C's [(a << k) | b] for a [b] below [2^k]. *)
Lemma lor_shift_add a b k :
  0 <= k -> 0 <= b < 2 ^ k -> Z.lor (Z.shiftl a k) b = a * 2 ^ k + b.
Proof.
  intros Hk Hb. rewrite <- Z.shiftl_mul_pow2 by done. symmetry.
  apply Z.add_nocarry_lor. apply Z.bits_inj'; intros n Hn.
  rewrite Z.land_spec, Z.bits_0. destruct (Z.ltb_spec n k).
  - by rewrite Z.shiftl_spec_low by lia.
  - rewrite <- (Z.mod_small b (2 ^ k)) by lia.
    rewrite Z.mod_pow2_bits_high by lia. by rewrite andb_false_r.
Qed.

Definition be16 (v : Z) : list Z := [u8 (Z.shiftr v 8); u8 v].
Definition be32 (v : Z) : list Z :=
  [u8 (Z.shiftr v 24); u8 (Z.shiftr v 16); u8 (Z.shiftr v 8); u8 v].

Lemma zlen_be16 v : zlen (be16 v) = 2.
Proof. done. Qed.

Lemma zlen_be32 v : zlen (be32 v) = 4.
Proof. done. Qed.

Lemma bytes_ok_be16 v : bytes_ok (be16 v).
Proof. repeat constructor; apply u8_range. Qed.

Lemma bytes_ok_be32 v : bytes_ok (be32 v).
Proof. repeat constructor; apply u8_range. Qed.

Lemma be_val_be16 v : 0 <= v < 65536 -> be_val (be16 v) = v.
Proof.
  intros. unfold be_val, be16. cbn [foldl]. rewrite Z.shiftr_div_pow2 by lia.
  unfold u8. change (2 ^ 8) with 256. rewrite (Z.mod_small (v / 256)).
  - pose proof (Z.div_mod v 256). lia.
  - split; [apply Z.div_pos; lia | apply Z.div_lt_upper_bound; lia].
Qed.

Lemma be_val_be32 v : 0 <= v < 4294967296 -> be_val (be32 v) = v.
Proof.
  intros. unfold be_val, be32. cbn [foldl]. rewrite !Z.shiftr_div_pow2 by lia.
  unfold u8. change (2 ^ 24) with (256 * 256 * 256). change (2 ^ 16) with (256 * 256).
  change (2 ^ 8) with 256. rewrite <- !Z.div_div by lia.
  pose proof (Z.div_mod v 256). pose proof (Z.div_mod (v / 256) 256).
  pose proof (Z.div_mod (v / 256 / 256) 256).
  rewrite (Z.mod_small (v / 256 / 256 / 256)); [lia |].
  split; [repeat apply Z.div_pos; lia |]. repeat (apply Z.div_lt_upper_bound; [lia |]). lia.
Qed.

(** Two and four bytes of a buffer as variables. *)
Lemma slice_1 {A} (p : list A) o x : rd p o = Some x -> slice p o 1 = [x].
Proof.
  intros Hx. pose proof (rd_Some_lt _ _ _ Hx).
  apply rd_ext; [by rewrite zlen_slice by lia |]. rewrite zlen_slice by lia. intros i Hi.
  rewrite rd_slice by lia. by replace i with 0 by lia; rewrite Z.add_0_r, Hx.
Qed.

Lemma slice_2 {A} (p : list A) o :
  0 <= o -> o + 2 <= zlen p ->
  exists a b, rd p o = Some a /\ rd p (o + 1) = Some b /\ slice p o 2 = [a; b].
Proof.
  intros. destruct (rd_in_range p o) as [a Ha]; [lia |].
  destruct (rd_in_range p (o + 1)) as [b Hb]; [lia |].
  exists a, b. split_and!; [done | done |].
  apply rd_ext; [by rewrite zlen_slice by lia |].
  rewrite zlen_slice by lia. intros i Hi. rewrite rd_slice by lia.
  assert (i = 0 \/ i = 1) as [-> | ->] by lia; [| done]. by rewrite Z.add_0_r.
Qed.

Lemma slice_4 {A} (p : list A) o :
  0 <= o -> o + 4 <= zlen p ->
  exists a b c d, rd p o = Some a /\ rd p (o + 1) = Some b /\ rd p (o + 2) = Some c /\
    rd p (o + 3) = Some d /\ slice p o 4 = [a; b; c; d].
Proof.
  intros. destruct (slice_2 p o) as (a & b & Ha & Hb & Hab); [lia.. |].
  destruct (slice_2 p (o + 2)) as (c & d & Hc & Hd & Hcd); [lia.. |].
  replace (o + 2 + 1) with (o + 3) in Hd by lia.
  exists a, b, c, d. split_and!; [done.. |].
  change 4 with (2 + 2). rewrite slice_cat by lia. by rewrite Hab, Hcd.
Qed.
