(* ===== verification/Boot.v ===== *)
(** * Boot context (kernel/src/boot.h)

    The boot context every later component reads. *)

From stdpp Require Import base numbers list.
From Stdlib Require Import ZArith Lia.
From S2P Require Import Prelude.

#[local] Open Scope Z_scope.

(** ** boot.h *)

Definition BOOT_MEMORY_MAX_ENTRIES : Z := 128.
Definition BOOT_COMMAND_LINE_MAX : Z := 127.

Inductive boot_memory_type_t :=
| BOOT_MEMORY_RESERVED | BOOT_MEMORY_USABLE | BOOT_MEMORY_ACPI_RECLAIMABLE
| BOOT_MEMORY_ACPI_NVS | BOOT_MEMORY_BAD.

#[export] Instance boot_memory_type_eq_dec : EqDecision boot_memory_type_t.
Proof. solve_decision. Defined.

Record boot_memory_region_t := mk_region {
  base : Z;
  length_ : Z;
  type_ : boot_memory_type_t;
  flags_ : Z;
}.

Record boot_framebuffer_t := mk_framebuffer {
  address : Z;
  width : Z;
  height : Z;
  pitch : Z;
  bpp : Z;
  red_mask_size : Z;
  red_mask_shift : Z;
  green_mask_size : Z;
  green_mask_shift : Z;
  blue_mask_size : Z;
  blue_mask_shift : Z;
}.

Record boot_context_t := mk_boot_context {
  framebuffer : boot_framebuffer_t;
  memory_map : list boot_memory_region_t;
  memory_map_count : Z;
  usable_memory_mib : Z;
  physical_memory_offset : Z;
  physical_memory_limit : Z;
  framebuffer_phys_start : Z;
  framebuffer_phys_end : Z;
  kernel_phys_start : Z;
  kernel_phys_end : Z;
  kernel_virt_start : Z;
  kernel_virt_end : Z;
  rsdp_phys : Z;
  smbios_phys : Z;
  command_line : list Z;
}.

Inductive boot_status_t :=
| BOOT_OK | BOOT_UNSUPPORTED_PROTOCOL | BOOT_INVALID_BOOT_INFO
| BOOT_NO_MEMORY_MAP | BOOT_NO_FRAMEBUFFER | BOOT_UNSUPPORTED_FRAMEBUFFER
| BOOT_NO_PHYSICAL_MAP.

(** The entries of the memory map the kernel looks at: the first
    [memory_map_count] of the array. *)
Definition regions (boot : boot_context_t) : list boot_memory_region_t :=
  take (Z.to_nat (memory_map_count boot)) (memory_map boot).

(** The fields hold values of their C types. *)
Definition region_ok (r : boot_memory_region_t) : Prop :=
  0 <= base r < 2 ^ 64 /\ 0 <= length_ r < 2 ^ 64.

Definition boot_context_ok (boot : boot_context_t) : Prop :=
  zlen (memory_map boot) = BOOT_MEMORY_MAX_ENTRIES /\
  Forall region_ok (memory_map boot) /\
  0 <= memory_map_count boot < 2 ^ 32 /\
  0 <= physical_memory_offset boot < 2 ^ 64 /\
  0 <= physical_memory_limit boot < 2 ^ 64 /\
  0 <= framebuffer_phys_start boot < 2 ^ 64 /\
  0 <= framebuffer_phys_end boot < 2 ^ 64 /\
  0 <= kernel_phys_start boot < 2 ^ 64 /\
  0 <= kernel_phys_end boot < 2 ^ 64 /\
  0 <= kernel_virt_start boot < 2 ^ 64 /\
  0 <= kernel_virt_end boot < 2 ^ 64.

(** No region ends beyond the address space. *)
Definition regions_fit (boot : boot_context_t) : Prop := Forall (fun r => base r + length_ r < 2 ^ 64) (regions boot).
