(* ===== verification/Pmm.v ===== *)
(** * Physical page-frame allocator (kernel/src/pmm.c)

    The tables [free_ranges] and [managed_ranges] are arrays with a live
    count in C; here each is the list of its live entries, so that shifting
    entries up or down is inserting into or deleting from the list and the
    count is the length.  A loop over a table is a recursion that carries the
    entries already passed. *)

From stdpp Require Import base numbers list sets strings.
From Stdlib Require Import ZArith Lia.
From S2P Require Import Prelude Boot.

#[local] Open Scope Z_scope.
#[local] Open Scope c_scope.

(** ** Data *)

Definition PMM_PAGE_SIZE : Z := 4096.
Definition PMM_MIN_PHYSICAL : Z := 0x00100000.
Definition PMM_MAX_RANGES : Z := 4096.
Definition PMM_SELF_TEST_MAX : Z := 4096.
Definition PMM_INVALID_FRAME : Z := UINT64_MAX.

Inductive pmm_status_t :=
| PMM_OK | PMM_BAD_ARGUMENT | PMM_NO_MEMORY | PMM_RANGE_CAPACITY
| PMM_INVALID_FREE | PMM_DOUBLE_FREE.

Record pmm_range_t := mk_range { r_start : Z; r_end : Z }.

Record pmm_state := mk_pmm {
  free_ranges : list pmm_range_t;
  managed_ranges : list pmm_range_t;
  total_frames : Z;
  free_frames : Z;
  initialised : bool;
}.

Record pmm_stats_t := mk_pmm_stats {
  s_total_frames : Z;
  s_free_frames : Z;
  s_allocated_frames : Z;
  s_free_range_count : Z;
}.

(** ** Alignment *)

Definition align_down (value : Z) : Z := Z.land value (not64 (PMM_PAGE_SIZE - 1)).

Definition align_up (value : Z) : option Z :=
  let mask := PMM_PAGE_SIZE - 1 in
  if Z.land value mask =? 0 then Some value
  else
    let add := PMM_PAGE_SIZE - Z.land value mask in
    if UINT64_MAX - value <? add then None else Some (value +₆₄ add).

(** ** The free-range table *)

(** [while (pos < free_range_count && free_ranges[pos].start < start) pos++] *)
Fixpoint find_pos (l : list pmm_range_t) (start : Z) : nat :=
  match l with
  | [] => O
  | r :: l => if r_start r <? start then S (find_pos l start) else O
  end.

(** The second loop of [insert_free_range]: [cur] is [free_ranges[pos]] and
    [rest] are the entries after it; an entry that touches [cur] is merged
    into it and erased. *)
Fixpoint merge_following (cur : pmm_range_t) (rest : list pmm_range_t) :
    list pmm_range_t :=
  match rest with
  | [] => [cur]
  | n :: rest' =>
      if r_start n <=? r_end cur then
        merge_following
          (if r_end cur <? r_end n then mk_range (r_start cur) (r_end n) else cur)
          rest'
      else cur :: rest
  end.

Definition insert_free_range (l : list pmm_range_t) (start end_ : Z) :
    pmm_status_t * list pmm_range_t :=
  if end_ <=? start then (PMM_OK, l)
  else
    let pos := find_pos l start in
    if PMM_MAX_RANGES <=? zlen l then (PMM_RANGE_CAPACITY, l)
    else
      let new := mk_range start end_ in
      let before := take pos l in
      let after := drop pos l in
      match last before with
      | Some prev =>
          if r_start new <=? r_end prev then
            let prev' :=
              if r_end prev <? r_end new then mk_range (r_start prev) (r_end new)
              else prev in
            (PMM_OK, take (pos - 1) l ++ merge_following prev' after)
          else (PMM_OK, before ++ merge_following new after)
      | None => (PMM_OK, before ++ merge_following new after)
      end.

(** The loop of [remove_interval]; [done_] are the entries below index [i]. *)
Fixpoint remove_loop (done_ l : list pmm_range_t) (start end_ : Z) :
    pmm_status_t * list pmm_range_t :=
  match l with
  | [] => (PMM_OK, done_)
  | r :: l' =>
      if (end_ <=? r_start r) || (r_end r <=? start) then
        remove_loop (done_ ++ [r]) l' start end_
      else if (start <=? r_start r) && (r_end r <=? end_) then
        remove_loop done_ l' start end_
      else if start <=? r_start r then
        remove_loop
          (done_ ++ [mk_range (if end_ <? r_end r then end_ else r_end r) (r_end r)])
          l' start end_
      else if r_end r <=? end_ then
        remove_loop (done_ ++ [mk_range (r_start r) start]) l' start end_
      else if PMM_MAX_RANGES <=? zlen (done_ ++ l) then
        (PMM_RANGE_CAPACITY, done_ ++ l)
      else
        remove_loop (done_ ++ [mk_range (r_start r) start; mk_range end_ (r_end r)])
          l' start end_
  end.

Definition remove_interval (l : list pmm_range_t) (start end_ : Z) :
    pmm_status_t * list pmm_range_t :=
  if end_ <=? start then (PMM_OK, l) else remove_loop [] l start end_.

Definition contains_frame (frame : Z) (r : pmm_range_t) : bool :=
  (r_start r <=? frame) && (PMM_PAGE_SIZE <=? UINT64_MAX - frame) &&
  (frame +₆₄ PMM_PAGE_SIZE <=? r_end r).

Definition frame_is_managed (s : pmm_state) (frame : Z) : bool :=
  existsb (contains_frame frame) (managed_ranges s).

Definition frame_is_free (s : pmm_state) (frame : Z) : bool :=
  existsb (contains_frame frame) (free_ranges s).

(** ** pmm_init *)

(** The first loop: usable regions, clipped and page aligned, are added. *)
Fixpoint add_usable (limit : Z) (rs : list boot_memory_region_t)
    (l : list pmm_range_t) : pmm_status_t * list pmm_range_t :=
  match rs with
  | [] => (PMM_OK, l)
  | region :: rs =>
      if negb (bool_decide (type_ region = BOOT_MEMORY_USABLE)) ||
         (length_ region =? 0) then add_usable limit rs l
      else if UINT64_MAX - base region <? length_ region then (PMM_BAD_ARGUMENT, l)
      else
        let start := if base region <? PMM_MIN_PHYSICAL then PMM_MIN_PHYSICAL
                     else base region in
        let end_ := base region +₆₄ length_ region in
        let end_ := if limit <? end_ then limit else end_ in
        match align_up start with
        | None => add_usable limit rs l
        | Some start =>
            let end_ := align_down end_ in
            if end_ <=? start then add_usable limit rs l
            else
              match insert_free_range l start end_ with
              | (PMM_OK, l') => add_usable limit rs l'
              | (status, l') => (status, l')
              end
        end
  end.

(** The second loop: every other region is removed, rounded outwards. *)
Fixpoint remove_reserved (rs : list boot_memory_region_t)
    (l : list pmm_range_t) : pmm_status_t * list pmm_range_t :=
  match rs with
  | [] => (PMM_OK, l)
  | region :: rs =>
      if bool_decide (type_ region = BOOT_MEMORY_USABLE) || (length_ region =? 0)
      then remove_reserved rs l
      else if UINT64_MAX - base region <? length_ region then (PMM_BAD_ARGUMENT, l)
      else
        let start := align_down (base region) in
        let end_ := match align_up (base region +₆₄ length_ region) with
                    | Some e => e
                    | None => align_down UINT64_MAX
                    end in
        match remove_interval l start end_ with
        | (PMM_OK, l') => remove_reserved rs l'
        | (status, l') => (status, l')
        end
  end.

(** The two blocks that take out the kernel image and the framebuffer. *)
Definition remove_span (start end_ : Z) (l : list pmm_range_t) :
    pmm_status_t * list pmm_range_t :=
  if start <? end_ then
    match align_up end_ with
    | None => (PMM_BAD_ARGUMENT, l)
    | Some e => remove_interval l (align_down start) e
    end
  else (PMM_OK, l).

Definition count_frames (l : list pmm_range_t) : Z :=
  fold_left (fun acc r => acc +₆₄ (r_end r -₆₄ r_start r) / PMM_PAGE_SIZE) l 0.

Definition pmm_empty (l : list pmm_range_t) : pmm_state := mk_pmm l [] 0 0 false.

Definition pmm_init (boot : option boot_context_t) : pmm_status_t * pmm_state :=
  match boot with
  | None => (PMM_BAD_ARGUMENT, pmm_empty [])
  | Some boot =>
      if (memory_map_count boot =? 0) ||
         (BOOT_MEMORY_MAX_ENTRIES <? memory_map_count boot) ||
         (physical_memory_limit boot <=? PMM_MIN_PHYSICAL)
      then (PMM_BAD_ARGUMENT, pmm_empty [])
      else
        match add_usable (physical_memory_limit boot) (regions boot) [] with
        | (PMM_OK, l1) =>
            if zlen l1 =? 0 then (PMM_NO_MEMORY, pmm_empty l1)
            else
              match remove_reserved (regions boot) l1 with
              | (PMM_OK, l2) =>
                  match remove_span (kernel_phys_start boot) (kernel_phys_end boot) l2 with
                  | (PMM_OK, l3) =>
                      match remove_span (framebuffer_phys_start boot)
                              (framebuffer_phys_end boot) l3 with
                      | (PMM_OK, l4) =>
                          if zlen l4 =? 0 then (PMM_NO_MEMORY, pmm_empty l4)
                          else
                            let total := count_frames l4 in
                            (PMM_OK, mk_pmm l4 l4 total total true)
                      | (status, l4) => (status, pmm_empty l4)
                      end
                  | (status, l3) => (status, pmm_empty l3)
                  end
              | (status, l2) => (status, pmm_empty l2)
              end
        | (status, l1) => (status, pmm_empty l1)
        end
  end.

(** ** Allocation and release *)

(** The loop of [pmm_alloc_frames]: first fit. *)
Fixpoint alloc_loop (done_ l : list pmm_range_t) (bytes : Z) :
    option (Z * list pmm_range_t) :=
  match l with
  | [] => None
  | r :: l' =>
      let available := r_end r -₆₄ r_start r in
      if available <? bytes then alloc_loop (done_ ++ [r]) l' bytes
      else
        let frame := r_start r in
        let start' := r_start r +₆₄ bytes in
        if start' =? r_end r then Some (frame, done_ ++ l')
        else Some (frame, done_ ++ mk_range start' (r_end r) :: l')
  end.

Definition pmm_alloc_frames (s : pmm_state) (frame_count : Z) : Z * pmm_state :=
  if negb (initialised s) || (frame_count =? 0) || (free_frames s <? frame_count)
  then (PMM_INVALID_FRAME, s)
  else
    let bytes := frame_count *₆₄ PMM_PAGE_SIZE in
    match alloc_loop [] (free_ranges s) bytes with
    | None => (PMM_INVALID_FRAME, s)
    | Some (frame, l) =>
        (frame, mk_pmm l (managed_ranges s) (total_frames s)
                  (free_frames s -₆₄ frame_count) (initialised s))
    end.

Definition pmm_alloc_frame (s : pmm_state) : Z * pmm_state := pmm_alloc_frames s 1.

(** The loop that checks every frame of a release; [n] frames are left. *)
Fixpoint check_frames (s : pmm_state) (n : nat) (current : Z) : pmm_status_t :=
  match n with
  | O => PMM_OK
  | S n =>
      if negb (frame_is_managed s current) then PMM_INVALID_FREE
      else if frame_is_free s current then PMM_DOUBLE_FREE
      else check_frames s n (current +₆₄ PMM_PAGE_SIZE)
  end.

Definition pmm_free_frames (s : pmm_state) (frame frame_count : Z) :
    pmm_status_t * pmm_state :=
  if negb (initialised s) || (frame_count =? 0) ||
     negb (Z.land frame (PMM_PAGE_SIZE - 1) =? 0)
  then (PMM_INVALID_FREE, s)
  else
    let bytes := frame_count *₆₄ PMM_PAGE_SIZE in
    if UINT64_MAX - frame <? bytes then (PMM_INVALID_FREE, s)
    else
      let end_ := frame +₆₄ bytes in
      match check_frames s (Z.to_nat ((end_ - frame) / PMM_PAGE_SIZE)) frame with
      | PMM_OK =>
          match insert_free_range (free_ranges s) frame end_ with
          | (PMM_OK, l) =>
              (PMM_OK, mk_pmm l (managed_ranges s) (total_frames s)
                         (free_frames s +₆₄ frame_count) (initialised s))
          | (status, l) =>
              (status, mk_pmm l (managed_ranges s) (total_frames s)
                         (free_frames s) (initialised s))
          end
      | status => (status, s)
      end.

Definition pmm_free_frame (s : pmm_state) (frame : Z) : pmm_status_t * pmm_state :=
  pmm_free_frames s frame 1.

Definition pmm_stats (s : pmm_state) : pmm_stats_t :=
  mk_pmm_stats (total_frames s) (free_frames s)
    (total_frames s -₆₄ free_frames s) (zlen (free_ranges s)).

(** ** Self test *)

(** Allocates [n] single frames into the array [frames]. *)
Fixpoint self_test_alloc (s : pmm_state) (n : nat) (frames : list Z) :
    option (list Z) * pmm_state :=
  match n with
  | O => (Some frames, s)
  | S n =>
      let '(f, s) := pmm_alloc_frame s in
      if f =? PMM_INVALID_FRAME then (None, s)
      else self_test_alloc s n (frames ++ [f])
  end.

(** Frees a list of frames one by one, stopping at the first failure. *)
Fixpoint self_test_free (s : pmm_state) (frames : list Z) : bool * pmm_state :=
  match frames with
  | [] => (true, s)
  | f :: frames =>
      match pmm_free_frame s f with
      | (PMM_OK, s) => self_test_free s frames
      | (_, s) => (false, s)
      end
  end.

(** The entries at even and at odd indices. *)
Fixpoint evens {A} (l : list A) : list A :=
  match l with [] => [] | [x] => [x] | x :: _ :: l => x :: evens l end.
Definition odds {A} (l : list A) : list A := evens (tail l).

Definition pmm_self_test (s : pmm_state) (count : Z) : bool * pmm_state :=
  if negb (initialised s) || (count =? 0) || (PMM_SELF_TEST_MAX <? count) ||
     (free_frames s <? count)
  then (false, s)
  else
    let before := free_frames s in
    match self_test_alloc s (Z.to_nat count) [] with
    | (None, s) => (false, s)
    | (Some frames, s) =>
        match self_test_free s (evens frames) with
        | (false, s) => (false, s)
        | (true, s) =>
            match self_test_free s (odds frames) with
            | (false, s) => (false, s)
            | (true, s) => (free_frames s =? before, s)
            end
        end
    end.

Definition pmm_status_string (status : pmm_status_t) : string :=
  match status with
  | PMM_OK => "ok"
  | PMM_BAD_ARGUMENT => "bad argument"
  | PMM_NO_MEMORY => "no usable memory"
  | PMM_RANGE_CAPACITY => "range capacity exhausted"
  | PMM_INVALID_FREE => "invalid free"
  | PMM_DOUBLE_FREE => "double free"
  end.

(** ** Abstraction: the set of byte addresses a table covers *)

Definition in_range (a : Z) (r : pmm_range_t) : Prop := r_start r <= a < r_end r.
Definition covers (l : list pmm_range_t) (a : Z) : Prop := Exists (in_range a) l.

(** Entries are non-empty, increasing, and separated by a gap. *)
Fixpoint chain (lo : Z) (l : list pmm_range_t) : Prop :=
  match l with
  | [] => True
  | r :: l => lo < r_start r /\ r_start r < r_end r /\ chain (r_end r) l
  end.

(** An end point of a table entry: page aligned, above the first MiB, and
    such that the frame below it can be addressed. *)
Definition bound_ok (z : Z) : Prop :=
  z mod PMM_PAGE_SIZE = 0 /\ PMM_MIN_PHYSICAL <= z /\ z + PMM_PAGE_SIZE <= 2 ^ 64.
Definition range_ok (r : pmm_range_t) : Prop :=
  bound_ok (r_start r) /\ bound_ok (r_end r).

Fixpoint sum_bytes (l : list pmm_range_t) : Z :=
  match l with [] => 0 | r :: l => (r_end r - r_start r) + sum_bytes l end.

Definition table_ok (l : list pmm_range_t) : Prop :=
  chain 0 l /\ Forall range_ok l /\ zlen l <= PMM_MAX_RANGES.

(** The invariant of an initialised allocator. *)
Record pmm_inv (s : pmm_state) : Prop := {
  inv_free : table_ok (free_ranges s);
  inv_managed : table_ok (managed_ranges s);
  inv_subset : forall a, covers (free_ranges s) a -> covers (managed_ranges s) a;
  inv_free_frames : free_frames s * PMM_PAGE_SIZE = sum_bytes (free_ranges s);
  inv_total_frames : total_frames s * PMM_PAGE_SIZE = sum_bytes (managed_ranges s);
  inv_initialised : initialised s = true;
}.

(** ** Lemmas on tables *)

Lemma covers_nil a : covers [] a <-> False.
Proof. unfold covers. by rewrite Exists_nil. Qed.
Lemma covers_cons r l a : covers (r :: l) a <-> in_range a r \/ covers l a.
Proof. unfold covers. by rewrite Exists_cons. Qed.
Lemma covers_app l1 l2 a : covers (l1 ++ l2) a <-> covers l1 a \/ covers l2 a.
Proof. unfold covers. by rewrite Exists_app. Qed.

Create Rewrite HintDb pmm.
#[local] Hint Rewrite covers_nil covers_cons covers_app : pmm.

Lemma chain_weaken lo lo' l : chain lo l -> lo' <= lo -> chain lo' l.
Proof. destruct l; simpl; [done |]. intros (? & ? & ?) ?. split_and!; [lia | done..]. Qed.

Lemma chain_above lo l a : chain lo l -> covers l a -> lo < a.
Proof.
  revert lo. induction l as [| r l IH]; intros lo; simpl; autorewrite with pmm; [done |].
  intros (? & ? & Hc) [? | Ha]; [unfold in_range in *; lia |].
  specialize (IH _ Hc Ha). lia.
Qed.

Lemma chain_elem lo l r : chain lo l -> r ∈ l -> lo < r_start r < r_end r.
Proof.
  revert lo. induction l as [| x l IH]; intros lo; simpl.
  - by intros _ ?%not_elem_of_nil.
  - intros (? & ? & Hc) [-> | Hin]%elem_of_cons; [lia |].
    specialize (IH _ Hc Hin). lia.
Qed.

(** The end of the last entry, or [lo] for an empty table. *)
Fixpoint top (lo : Z) (l : list pmm_range_t) : Z :=
  match l with [] => lo | r :: l => top (r_end r) l end.

Lemma chain_app lo l1 l2 : chain lo (l1 ++ l2) <-> chain lo l1 /\ chain (top lo l1) l2.
Proof.
  revert lo. induction l1 as [| r l1 IH]; intros lo; simpl; [tauto |].
  rewrite IH. tauto.
Qed.

Lemma top_app lo l1 l2 : top lo (l1 ++ l2) = top (top lo l1) l2.
Proof. revert lo. induction l1; intros; simpl; auto. Qed.

Lemma top_ge lo l : chain lo l -> lo <= top lo l.
Proof.
  revert lo. induction l as [| r l IH]; intros lo; simpl; [lia |].
  intros (? & ? & Hc). specialize (IH _ Hc). lia.
Qed.

Lemma covers_below_top lo l a : chain lo l -> covers l a -> a < top lo l.
Proof.
  revert lo. induction l as [| r l IH]; intros lo; simpl; autorewrite with pmm; [done |].
  intros (? & ? & Hc) [Hr | ?]; [| eauto].
  pose proof (top_ge _ _ Hc). unfold in_range in Hr. lia.
Qed.

Lemma sum_bytes_app l1 l2 : sum_bytes (l1 ++ l2) = sum_bytes l1 + sum_bytes l2.
Proof. induction l1; simpl; lia. Qed.

Lemma sum_bytes_nonneg lo l : chain lo l -> 0 <= sum_bytes l.
Proof.
  revert lo. induction l as [| r l IH]; intros lo; simpl; [lia |].
  intros (? & ? & Hc). specialize (IH _ Hc). lia.
Qed.

Lemma sum_bytes_le_top lo l : chain lo l -> sum_bytes l <= top lo l - lo.
Proof.
  revert lo. induction l as [| r l IH]; intros lo; simpl; [lia |].
  intros (? & ? & Hc). specialize (IH _ Hc). lia.
Qed.

(** *** Merging *)

Lemma merge_following_spec cur rest lo P :
  r_start cur < r_end cur -> chain lo rest ->
  (forall r, r ∈ rest -> r_start cur <= r_start r) ->
  (P (r_end cur) /\ Forall (fun r => P (r_end r) /\ P (r_start r)) rest) ->
  exists e' rest',
    merge_following cur rest = mk_range (r_start cur) e' :: rest' /\
    r_end cur <= e' /\ chain e' rest' /\
    (forall a, covers (merge_following cur rest) a <-> covers (cur :: rest) a) /\
    (length rest' <= length rest)%nat /\
    P e' /\ Forall (fun r => P (r_end r) /\ P (r_start r)) rest' /\
    ((forall a, covers rest a -> ~ in_range a cur) ->
     sum_bytes (merge_following cur rest) = sum_bytes (cur :: rest)).
Proof.
  revert cur lo. induction rest as [| n rest IH]; intros cur lo Hne Hc Hs (HP & HF); simpl.
  { exists (r_end cur), []. destruct cur; simpl in *. split_and!; try done; lia. }
  destruct Hc as (Hlo & Hn & Hc). apply Forall_cons in HF as [[HPe HPs] HF].
  pose proof (Hs n ltac:(apply elem_of_cons; by left)) as Hsn.
  assert (Hrest : forall r, r ∈ rest -> r_end n < r_start r).
  { intros r Hr. by apply (chain_elem _ _ _ Hc Hr). }
  if_case; bool_cases.
  - set (cur' := if r_end cur <? r_end n then _ else cur).
    assert (Hcur' : r_start cur' = r_start cur /\
              r_end cur' = Z.max (r_end cur) (r_end n)).
    { unfold cur'. if_case; bool_cases; simpl; lia. }
    destruct Hcur' as [Hst Hen].
    destruct (IH cur' (r_end n)) as (e' & rest' & Heq & Hle & Hch & Hcov & Hlen & HPe' & HF' & Hsum).
    + lia.
    + done.
    + intros r Hr. specialize (Hrest r Hr). lia.
    + split; [| done]. rewrite Hen.
      destruct (Z.max_spec (r_end cur) (r_end n)) as [[_ ->] | [_ ->]]; done.
    + exists e', rest'. rewrite Heq, Hst. split_and!; try done; try lia.
      * intros a. rewrite <- Hst, <- Heq, Hcov. autorewrite with pmm.
        unfold in_range. rewrite Hst, Hen.
        split; [intros [? | ?] | intros [? | [? | ?]]]; try tauto; lia.
      * intros Hdis. rewrite <- Hst, <- Heq, Hsum.
        -- simpl. rewrite Hst, Hen.
           assert (r_end cur = r_start n); [| lia].
           destruct (Z.le_gt_cases (r_end cur) (r_start n)); [lia |].
           exfalso. apply (Hdis (r_start n)); [| unfold in_range; lia].
           autorewrite with pmm. left. unfold in_range. lia.
        -- intros a Ha Hr. unfold in_range in Hr. rewrite Hst, Hen in Hr.
           pose proof (chain_above _ _ _ Hc Ha).
           apply (Hdis a); [autorewrite with pmm; by right |].
           unfold in_range. lia.
  - exists (r_end cur), (n :: rest). destruct cur as [cs ce]. simpl in *.
    split_and!; try done; try lia.
    constructor; done.
Qed.

(** *** Inserting *)

Lemma find_pos_le l s : (find_pos l s <= length l)%nat.
Proof. induction l as [| r l IH]; simpl; [lia |]. if_case; lia. Qed.

Lemma find_pos_before l s r : r ∈ take (find_pos l s) l -> r_start r < s.
Proof.
  induction l as [| x l IH]; simpl.
  - by intros ?%not_elem_of_nil.
  - if_case; simpl; [| by intros ?%not_elem_of_nil].
    bool_cases. intros [-> | ?]%elem_of_cons; auto.
Qed.

Lemma find_pos_after lo l s r : chain lo l -> r ∈ drop (find_pos l s) l -> s <= r_start r.
Proof.
  revert lo. induction l as [| x l IH]; intros lo; simpl.
  - by intros _ ?%not_elem_of_nil.
  - intros (? & ? & Hc). if_case; simpl; bool_cases; [by eapply IH |].
    intros [-> | Hin]%elem_of_cons; [done |].
    pose proof (chain_elem _ _ _ Hc Hin). lia.
Qed.

(** The entries split at the insertion point, in the form the two cases of
    [insert_free_range] see them. *)
Lemma insert_point l s :
  let pos := find_pos l s in
  (take pos l = [] /\ last (take pos l) = None) \/
  (exists prev, last (take pos l) = Some prev /\
     take pos l = take (pos - 1) l ++ [prev]).
Proof.
  simpl. destruct (find_pos l s) as [| p] eqn:E; [by left |]. right.
  pose proof (find_pos_le l s). rewrite E in *.
  destruct (lookup_lt_is_Some_2 l p ltac:(lia)) as [prev Hp].
  exists prev. rewrite (take_S_r _ _ _ Hp). rewrite last_snoc.
  replace (S p - 1)%nat with p by lia. done.
Qed.

Lemma range_ok_forall l :
  Forall range_ok l <-> Forall (fun r => bound_ok (r_end r) /\ bound_ok (r_start r)) l.
Proof. unfold range_ok. split; intros H; (eapply Forall_impl; [exact H |]); simpl; tauto. Qed.

(** Both cases of [insert_free_range] replace a middle piece [mid] of the
    table (nothing, or the previous entry) by an entry [cur] that covers it
    and the new interval, and merge what follows. *)
Lemma insert_group before mid after cur s e :
  chain 0 (before ++ mid ++ after) -> Forall range_ok (before ++ mid ++ after) ->
  top 0 before < r_start cur -> r_start cur < r_end cur -> range_ok cur ->
  (forall r, r ∈ after -> r_start cur <= r_start r) ->
  zlen before + 1 + zlen after <= PMM_MAX_RANGES ->
  (forall a, in_range a cur <-> covers mid a \/ s <= a < e) ->
  ((forall a, s <= a < e -> ~ covers (before ++ mid ++ after) a) ->
   r_end cur - r_start cur = sum_bytes mid + (e - s)) ->
  let l' := before ++ merge_following cur after in
  table_ok l' /\
  (forall a, covers l' a <-> covers (before ++ mid ++ after) a \/ s <= a < e) /\
  ((forall a, s <= a < e -> ~ covers (before ++ mid ++ after) a) ->
   sum_bytes l' = sum_bytes (before ++ mid ++ after) + (e - s)).
Proof.
  intros Hc HF Htop Hcur [Fcs Fce] Hge Hlen Hcov Hsum. simpl. unfold table_ok.
  rewrite !chain_app in Hc. destruct Hc as (Hb & Hm & Ha).
  rewrite !Forall_app in HF. destruct HF as (Fb & Fm & Fa).
  destruct (merge_following_spec cur after _ bound_ok Hcur Ha Hge)
    as (e' & rest' & Heq & Hle & Hch & Hcov' & Hlen' & HPe & HF' & Hsum').
  { split; [done | by apply range_ok_forall]. }
  split_and!.
  - rewrite chain_app, Heq. simpl. split_and!; try done; lia.
  - rewrite Heq. apply Forall_app. split; [done |]. constructor; [done |].
    by apply range_ok_forall.
  - rewrite Heq. unfold zlen in *. rewrite length_app. simpl. lia.
  - intros a. rewrite !covers_app, Hcov', covers_cons, Hcov. tauto.
  - intros Hdis. rewrite !sum_bytes_app, Hsum'.
    + simpl. rewrite (Hsum Hdis). lia.
    + intros a Hca Hin. apply Hcov in Hin as [Hin | Hin].
      * pose proof (covers_below_top _ _ _ Hm Hin). pose proof (chain_above _ _ _ Ha Hca). lia.
      * apply (Hdis a Hin). rewrite !covers_app. tauto.
Qed.

(** How [insert_free_range] splits the table. *)
Lemma insert_free_range_cases l s e :
  chain 0 l -> s < e -> zlen l < PMM_MAX_RANGES ->
  exists before mid after cur,
    l = before ++ mid ++ after /\
    insert_free_range l s e = (PMM_OK, before ++ merge_following cur after) /\
    (forall r, r ∈ after -> s <= r_start r) /\
    ((mid = [] /\ cur = mk_range s e /\ (forall p, last before = Some p -> r_end p < s)) \/
     (exists prev, mid = [prev] /\ r_start prev < s <= r_end prev /\
        r_start cur = r_start prev /\ r_end cur = Z.max (r_end prev) e)).
Proof.
  intros Hc Hse Hcap. unfold insert_free_range.
  rewrite (proj2 (Z.leb_gt e s)), (proj2 (Z.leb_gt PMM_MAX_RANGES (zlen l))) by lia.
  pose proof (find_pos_before l s) as Hbefore.
  pose proof (fun r => find_pos_after 0 l s r Hc) as Hafter.
  pose proof (insert_point l s) as Hpoint. simpl in Hpoint.
  set (pos := find_pos l s) in *. simpl r_start. simpl r_end.
  destruct Hpoint as [[Ht Hl] | (prev & Hl & Ht)]; rewrite Hl.
  - exists (take pos l), [], (drop pos l), (mk_range s e).
    split_and!; try done; [by rewrite app_nil_l, take_drop |]. left. by rewrite Hl.
  - assert (r_start prev < s) by (apply Hbefore; rewrite Ht; apply elem_of_middle).
    if_case; bool_cases.
    + eexists (take (pos - 1) l), [prev], (drop pos l), _.
      split_and!; [by rewrite app_assoc, <- Ht, take_drop | done | done |].
      right. exists prev. if_case; bool_cases; simpl; split_and!; try done; lia.
    + exists (take pos l), [], (drop pos l), (mk_range s e).
      split_and!; try done; [by rewrite app_nil_l, take_drop |]. left. rewrite Hl.
      split_and!; try done. by intros ? [= ->].
Qed.

Lemma top_last lo l : top lo l = match last l with Some r => r_end r | None => lo end.
Proof.
  revert lo. induction l as [| r l IH]; intros lo; [done |]. simpl. rewrite IH.
  destruct l; [done |]. change (last (r :: p :: l)) with (last (p :: l)).
  by destruct (last (p :: l)) eqn:E; [| apply last_None in E].
Qed.

Lemma insert_free_range_spec l s e :
  chain 0 l -> Forall range_ok l -> s < e -> bound_ok s -> bound_ok e ->
  zlen l < PMM_MAX_RANGES ->
  exists l', insert_free_range l s e = (PMM_OK, l') /\ table_ok l' /\
    (forall a, covers l' a <-> covers l a \/ s <= a < e) /\
    ((forall a, s <= a < e -> ~ covers l a) -> sum_bytes l' = sum_bytes l + (e - s)).
Proof.
  intros Hc HF Hse Hs He Hcap.
  destruct (insert_free_range_cases l s e Hc Hse Hcap)
    as (before & mid & after & cur & -> & -> & Hge & Hcase).
  assert (Hs0 : 0 < s) by (destruct Hs as (_ & ? & _); unfold PMM_MIN_PHYSICAL in *; lia).
  eexists. split; [done |]. rewrite !zlen_app in Hcap.
  destruct Hcase as [(-> & -> & Hlast) | (prev & -> & Hps & Hcs & Hce)].
  - apply insert_group; try done; simpl.
    + rewrite top_last. destruct (last before); [by apply Hlast | lia].
    + unfold zlen in *. simpl in *. lia.
    + intros a. unfold in_range. autorewrite with pmm. simpl. tauto.
  - assert (Hc' := Hc). rewrite chain_app in Hc'. simpl in Hc'.
    destruct Hc' as (Hcb & Hp1 & Hp2 & Hca).
    assert (HFp : range_ok prev).
    { rewrite !Forall_app, Forall_singleton in HF. tauto. }
    apply insert_group; try done; try lia.
    + destruct HFp. split; [by rewrite Hcs |]. rewrite Hce.
      destruct (Z.max_spec (r_end prev) e) as [[_ ->] | [_ ->]]; done.
    + intros r Hr. specialize (Hge r Hr). lia.
    + change (zlen [prev]) with 1 in Hcap. lia.
    + intros a. unfold in_range. rewrite Hcs, Hce. autorewrite with pmm. unfold in_range. lia.
    + intros Hdis. simpl.
      assert (r_end prev = s); [| lia].
      destruct (Z.le_gt_cases (r_end prev) s); [lia |]. exfalso.
      apply (Hdis s ltac:(lia)). rewrite !covers_app. autorewrite with pmm.
      unfold in_range. lia.
Qed.

(** *** Removing *)

Lemma chain_replace lo l1 r l2 m :
  chain lo (l1 ++ r :: l2) ->
  (forall lo', lo' < r_start r -> chain lo' m /\ top lo' m <= r_end r) ->
  chain lo (l1 ++ m ++ l2).
Proof.
  rewrite !chain_app. simpl. intros (H1 & H2 & H3 & H4) Hm.
  destruct (Hm _ H2) as [Hm1 Hm2]. split_and!; [done | done |].
  eapply chain_weaken; done.
Qed.

(** The end points of the pieces that are left of an entry. *)
Lemma bound_ok_between z r :
  range_ok r -> z mod PMM_PAGE_SIZE = 0 -> r_start r <= z <= r_end r -> bound_ok z.
Proof. unfold range_ok, bound_ok. intros [(? & ? & ?) (? & ? & ?)] ? ?. split_and!; lia. Qed.

Lemma range_ok_mk s e : bound_ok s -> bound_ok e -> range_ok (mk_range s e).
Proof. done. Qed.

(** The pieces left of a single entry [r] when [s, e) is carved out of it. *)
Definition carve (r : pmm_range_t) (s e : Z) : list pmm_range_t :=
  if (e <=? r_start r) || (r_end r <=? s) then [r]
  else (if r_start r <? s then [mk_range (r_start r) s] else []) ++
       (if e <? r_end r then [mk_range e (r_end r)] else []).

(** One iteration of the loop: the entry is carved, unless that needs one
    entry more than the table has. *)
Lemma remove_loop_cons done_ r l s e :
  remove_loop done_ (r :: l) s e =
    if (length (carve r s e) =? 2)%nat && (PMM_MAX_RANGES <=? zlen (done_ ++ r :: l))
    then (PMM_RANGE_CAPACITY, done_ ++ r :: l)
    else remove_loop (done_ ++ carve r s e) l s e.
Proof.
  unfold carve. simpl.
  destruct (Z.leb_spec e (r_start r)), (Z.leb_spec (r_end r) s); simpl; try done.
  destruct (Z.leb_spec s (r_start r)), (Z.leb_spec (r_end r) e),
    (Z.ltb_spec (r_start r) s), (Z.ltb_spec e (r_end r)); simpl; try lia; try done.
  by rewrite app_nil_r.
Qed.

Lemma carve_chain r s e lo :
  s < e -> r_start r < r_end r -> lo < r_start r ->
  chain lo (carve r s e) /\ top lo (carve r s e) <= r_end r.
Proof.
  intros. unfold carve.
  destruct (Z.leb_spec e (r_start r)), (Z.leb_spec (r_end r) s),
    (Z.ltb_spec (r_start r) s), (Z.ltb_spec e (r_end r)); simpl; lia.
Qed.

Lemma carve_ok r s e :
  range_ok r -> s mod PMM_PAGE_SIZE = 0 -> e mod PMM_PAGE_SIZE = 0 ->
  Forall range_ok (carve r s e).
Proof.
  intros Hr Hs He. pose proof Hr as [Hr1 Hr2]. unfold carve.
  destruct (Z.leb_spec e (r_start r)), (Z.leb_spec (r_end r) s),
    (Z.ltb_spec (r_start r) s), (Z.ltb_spec e (r_end r)); simpl;
    repeat first [apply Forall_nil_2 | apply Forall_cons_2]; try done;
    apply range_ok_mk; try done; apply (bound_ok_between _ r); done || lia.
Qed.

Lemma carve_covers r s e a :
  s < e -> covers (carve r s e) a <-> in_range a r /\ ~ s <= a < e.
Proof.
  intros. unfold carve.
  destruct (Z.leb_spec e (r_start r)), (Z.leb_spec (r_end r) s),
    (Z.ltb_spec (r_start r) s), (Z.ltb_spec e (r_end r)); simpl;
    autorewrite with pmm; unfold in_range; simpl; lia.
Qed.

Lemma carve_length r s e : (length (carve r s e) <= 2)%nat.
Proof. unfold carve. repeat if_case; simpl; lia. Qed.

Lemma remove_loop_spec done_ l s e l' :
  s mod PMM_PAGE_SIZE = 0 -> e mod PMM_PAGE_SIZE = 0 -> s < e ->
  chain 0 (done_ ++ l) -> Forall range_ok (done_ ++ l) ->
  zlen (done_ ++ l) <= PMM_MAX_RANGES ->
  (forall a, covers done_ a -> ~ s <= a < e) ->
  remove_loop done_ l s e = (PMM_OK, l') ->
  table_ok l' /\ (forall a, covers l' a <-> covers (done_ ++ l) a /\ ~ s <= a < e).
Proof.
  intros Hs He Hse. revert done_.
  induction l as [| r l IH]; intros done_ Hc HF Hlen Hdone.
  { intros [= <-]. rewrite app_nil_r in *. split; [done |].
    intros a. specialize (Hdone a). tauto. }
  assert (Hr : r_start r < r_end r) by (eapply (chain_elem 0); [done | apply elem_of_middle]).
  rewrite remove_loop_cons. if_case; [done |]. intros Hrun.
  apply Forall_app in HF as HF'. destruct HF' as [HF1 [HFr HF2]%Forall_cons].
  destruct (IH (done_ ++ carve r s e)) as [Hok Hcov]; [| | | | done |].
  - rewrite <- app_assoc. eapply chain_replace; [done |]. intros. by apply carve_chain.
  - rewrite <- app_assoc, !Forall_app. auto using carve_ok.
  - pose proof (carve_length r s e). unfold zlen in *.
    rewrite !length_app in *. simpl in *.
    apply andb_false_iff in E as [E | E]; [apply Nat.eqb_neq in E |]; bool_cases; lia.
  - intros a. rewrite covers_app, carve_covers by done. specialize (Hdone a). tauto.
  - split; [done |]. intros a.
    rewrite Hcov, !covers_app, covers_cons, carve_covers by done. tauto.
Qed.

Lemma remove_interval_spec l s e l' :
  s mod PMM_PAGE_SIZE = 0 -> e mod PMM_PAGE_SIZE = 0 -> table_ok l ->
  remove_interval l s e = (PMM_OK, l') ->
  table_ok l' /\ (forall a, covers l' a <-> covers l a /\ ~ s <= a < e).
Proof.
  intros Hs He (Hc & HF & Hlen). unfold remove_interval. if_case; bool_cases.
  - intros [= <-]. split; [done |]. intros a. lia || (intuition lia).
  - intros Hrun. eapply (remove_loop_spec []); try done. intros a. by rewrite covers_nil.
Qed.

(** A table with a spare entry is always carved, and grows by at most one. *)
Lemma remove_loop_beyond done_ l s e :
  chain e l -> remove_loop done_ l s e = (PMM_OK, done_ ++ l).
Proof.
  revert done_. induction l as [| r l IH]; intros done_ Hc; simpl.
  - by rewrite app_nil_r.
  - destruct Hc as (? & ? & Hc). rewrite (proj2 (Z.leb_le e (r_start r))) by lia. simpl.
    rewrite IH by (eapply chain_weaken; [done | lia]). by rewrite <- app_assoc.
Qed.

Lemma remove_loop_total lo done_ l s e :
  s < e -> chain lo l -> zlen (done_ ++ l) < PMM_MAX_RANGES ->
  exists l', remove_loop done_ l s e = (PMM_OK, l') /\ zlen l' <= zlen (done_ ++ l) + 1.
Proof.
  intros Hse. revert done_ lo.
  induction l as [| r l IH]; intros done_ lo Hc Hlen.
  { exists done_. rewrite app_nil_r in *. split; [done | lia]. }
  destruct Hc as (? & ? & Hc). rewrite remove_loop_cons.
  rewrite (proj2 (Z.leb_gt PMM_MAX_RANGES (zlen (done_ ++ r :: l)))), andb_false_r by lia.
  pose proof (carve_length r s e) as Hcl. rewrite zlen_app in Hlen |- *.
  change (zlen (r :: l)) with (Z.of_nat (S (length l))) in *.
  destruct (decide (length (carve r s e) = 2%nat)) as [Htwo | Hone].
  - assert (e < r_end r).
    { unfold carve in Htwo. repeat if_case_in Htwo; simpl in Htwo; bool_cases; lia. }
    rewrite remove_loop_beyond by (eapply chain_weaken; [done | lia]).
    eexists. split; [done |]. unfold zlen. rewrite !length_app. lia.
  - destruct (IH (done_ ++ carve r s e) (r_end r) Hc) as (l' & -> & Hl');
      unfold zlen in *; rewrite !length_app in *; [lia |]. eexists. split; [done | lia].
Qed.

(** ** Alignment *)

Definition page_down (z : Z) : Z := z / PMM_PAGE_SIZE * PMM_PAGE_SIZE.
Definition page_up (z : Z) : Z := page_down (z + (PMM_PAGE_SIZE - 1)).

Lemma page_down_spec z :
  page_down z mod PMM_PAGE_SIZE = 0 /\ page_down z <= z < page_down z + PMM_PAGE_SIZE.
Proof.
  unfold page_down. split; [by apply Z.mod_mul |].
  pose proof (Z.div_mod z PMM_PAGE_SIZE). pose proof (Z.mod_pos_bound z PMM_PAGE_SIZE).
  unfold PMM_PAGE_SIZE in *. lia.
Qed.

Lemma page_unique z w :
  w mod PMM_PAGE_SIZE = 0 -> w <= z < w + PMM_PAGE_SIZE -> w = page_down z.
Proof.
  intros Hw ?. pose proof (page_down_spec z) as [Hd ?].
  unfold PMM_PAGE_SIZE in *.
  pose proof (Z.div_mod w 4096). pose proof (Z.div_mod (page_down z) 4096). lia.
Qed.

Lemma align_down_spec z : 0 <= z < 2 ^ 64 -> align_down z = page_down z.
Proof.
  intros. unfold align_down. change (PMM_PAGE_SIZE - 1) with (2 ^ 12 - 1).
  rewrite land_not64_low_mask by lia. unfold page_down.
  change PMM_PAGE_SIZE with (2 ^ 12). pose proof (Z.div_mod z (2 ^ 12)). lia.
Qed.

Lemma align_up_spec z : 0 <= z < 2 ^ 64 ->
  align_up z = if page_up z <? 2 ^ 64 then Some (page_up z) else None.
Proof.
  intros Hz. unfold align_up, page_up.
  change (Z.land z (PMM_PAGE_SIZE - 1)) with (Z.land z (2 ^ 12 - 1)).
  rewrite land_low_mask by lia. change PMM_PAGE_SIZE with 4096. change (2 ^ 12) with 4096.
  pose proof (Z.mod_pos_bound z 4096 ltac:(lia)). pose proof (Z.div_mod z 4096 ltac:(lia)).
  unfold UINT64_MAX.
  destruct (Z.eqb_spec (z mod 4096) 0) as [Hm | Hm].
  - rewrite <- (page_unique (z + (4096 - 1)) z) by (done || unfold PMM_PAGE_SIZE; lia).
    by rewrite (proj2 (Z.ltb_lt z (2 ^ 64))) by lia.
  - rewrite <- (page_unique (z + (4096 - 1)) (z + (4096 - z mod 4096)));
      [| unfold PMM_PAGE_SIZE; replace (z + (4096 - z mod 4096)) with ((z / 4096 + 1) * 4096) by lia;
         by apply Z.mod_mul | unfold PMM_PAGE_SIZE; lia].
    destruct (Z.ltb_spec (18446744073709551615 - z) (4096 - z mod 4096)),
      (Z.ltb_spec (z + (4096 - z mod 4096)) (2 ^ 64)); try lia; try done.
    rewrite u64_small by lia. done.
Qed.

Lemma page_bound_ok z :
  0 <= z < 2 ^ 64 -> PMM_MIN_PHYSICAL <= page_down z -> bound_ok (page_down z).
Proof.
  intros Hz Hmin. pose proof (page_down_spec z) as [? ?]. split_and!; try done.
  pose proof (Z.div_mod (page_down z) PMM_PAGE_SIZE). unfold PMM_PAGE_SIZE in *. lia.
Qed.

(** ** pmm_init *)

(** The bytes a usable region contributes, and those a span takes away. *)
Definition usable_at (limit : Z) (r : boot_memory_region_t) (a : Z) : Prop :=
  type_ r = BOOT_MEMORY_USABLE /\ length_ r <> 0 /\
  page_up (Z.max (base r) PMM_MIN_PHYSICAL) <= a
    < page_down (Z.min (base r + length_ r) limit).
Definition spans (start end_ a : Z) : Prop := page_down start <= a < page_up end_.
Definition reserved_at (r : boot_memory_region_t) (a : Z) : Prop :=
  type_ r <> BOOT_MEMORY_USABLE /\ length_ r <> 0 /\ spans (base r) (base r + length_ r) a.

Lemma insert_length l s e :
  chain 0 l -> s < e -> zlen l < PMM_MAX_RANGES -> Forall range_ok l ->
  bound_ok s -> bound_ok e ->
  zlen (snd (insert_free_range l s e)) <= zlen l + 1.
Proof.
  intros Hc Hse Hcap HF Hs He.
  destruct (insert_free_range_cases l s e Hc Hse Hcap)
    as (before & mid & after & cur & -> & -> & Hge & Hcase). simpl.
  assert (Hm : forall l c, (length (merge_following c l) <= S (length l))%nat).
  { clear. induction l as [| n l IH]; intros c; simpl; [lia |].
    if_case; simpl; [| lia]. specialize (IH (if r_end c <? r_end n
      then mk_range (r_start c) (r_end n) else c)). lia. }
  specialize (Hm after cur). rewrite !zlen_app. unfold zlen in *. lia.
Qed.

(** One iteration of the first loop, with the rounding in closed form. *)
Lemma add_usable_cons limit r rs l :
  0 <= limit < 2 ^ 64 -> region_ok r ->
  add_usable limit (r :: rs) l =
    if negb (bool_decide (type_ r = BOOT_MEMORY_USABLE)) || (length_ r =? 0)
    then add_usable limit rs l
    else if UINT64_MAX - base r <? length_ r then (PMM_BAD_ARGUMENT, l)
    else
      let s := page_up (Z.max (base r) PMM_MIN_PHYSICAL) in
      let e := page_down (Z.min (base r + length_ r) limit) in
      if e <=? s then add_usable limit rs l
      else match insert_free_range l s e with
           | (PMM_OK, l') => add_usable limit rs l'
           | (status, l') => (status, l')
           end.
Proof.
  intros Hlim [Hb Hl]. simpl. if_case; [done |]. if_case; [done |]. bool_cases.
  unfold UINT64_MAX in *. rewrite (u64_small (base r + length_ r)) by lia.
  replace (if base r <? PMM_MIN_PHYSICAL then _ else _)
    with (Z.max (base r) PMM_MIN_PHYSICAL) by (if_case; bool_cases; lia).
  replace (if limit <? _ then _ else _)
    with (Z.min (base r + length_ r) limit) by (if_case; bool_cases; lia).
  rewrite align_up_spec, align_down_spec by (unfold PMM_MIN_PHYSICAL; lia).
  destruct (Z.ltb_spec (page_up (Z.max (base r) PMM_MIN_PHYSICAL)) (2 ^ 64)); [done |].
  pose proof (page_down_spec (Z.min (base r + length_ r) limit)) as [_ ?].
  by rewrite (proj2 (Z.leb_le _ _)) by lia.
Qed.

(** The interval of a usable region has end points fit for the table. *)
Lemma usable_bounds limit r :
  let s := page_up (Z.max (base r) PMM_MIN_PHYSICAL) in
  let e := page_down (Z.min (base r + length_ r) limit) in
  0 <= limit < 2 ^ 64 -> region_ok r -> s < e -> bound_ok s /\ bound_ok e.
Proof.
  intros s e Hlim [Hb Hl] Hse.
  assert (Hmin : PMM_MIN_PHYSICAL <= s).
  { unfold s, page_up. pose proof (page_down_spec
      (Z.max (base r) PMM_MIN_PHYSICAL + (PMM_PAGE_SIZE - 1))).
    unfold PMM_PAGE_SIZE, PMM_MIN_PHYSICAL in *. lia. }
  assert (He : bound_ok e) by (apply page_bound_ok; fold e; lia).
  split; [| done]. destruct He as (? & ? & ?). split_and!; [apply page_down_spec | done | lia].
Qed.

Lemma add_usable_spec limit rs l l' :
  0 <= limit < 2 ^ 64 -> Forall region_ok rs -> table_ok l ->
  zlen l + zlen rs < PMM_MAX_RANGES ->
  add_usable limit rs l = (PMM_OK, l') ->
  table_ok l' /\ zlen l' <= zlen l + zlen rs /\
  (forall a, covers l' a <-> covers l a \/ Exists (fun r => usable_at limit r a) rs).
Proof.
  intros Hlim. revert l. induction rs as [| r rs IH]; intros l HF Hok Hlen.
  { intros [= <-]. split_and!; [done | unfold zlen; simpl; lia |].
    intros a. rewrite Exists_nil. tauto. }
  apply Forall_cons in HF as [Hr HF].
  assert (Hz : zlen (r :: rs) = 1 + zlen rs) by (unfold zlen; simpl; lia).
  rewrite Hz in *. pose proof (zlen_nonneg rs).
  rewrite add_usable_cons by done. if_case.
  { intros Hrun. destruct (IH l) as (? & Hle & Hcov); [done.. | lia | done |].
    split_and!; [done | lia |]. intros a. rewrite Hcov, Exists_cons. unfold usable_at at 2.
    apply orb_true_iff in E as [E%negb_true_iff%bool_decide_eq_false | E%Z.eqb_eq]; tauto. }
  apply orb_false_iff in E as [E1%negb_false_iff%bool_decide_eq_true E2%Z.eqb_neq].
  if_case; [done |]. cbv zeta. if_case; intros Hrun; bool_cases.
  { destruct (IH l) as (? & Hle & Hcov); [done.. | lia | done |].
    split_and!; [done | lia |]. intros a. rewrite Hcov, Exists_cons. unfold usable_at at 2.
    intuition lia. }
  destruct (usable_bounds limit r Hlim Hr ltac:(lia)) as [Hs He].
  pose proof Hok as (Hc & HFl & Hlen').
  pose proof (insert_length l _ _ Hc ltac:(eassumption) ltac:(lia) HFl Hs He) as Hl1.
  destruct (insert_free_range_spec l _ _ Hc HFl ltac:(eassumption) Hs He ltac:(lia))
    as (l1 & Hins & Hok1 & Hcov1 & _).
  rewrite Hins in Hrun, Hl1. simpl in Hl1.
  destruct (IH l1) as (? & Hle & Hcov); [done.. | lia | done |].
  split_and!; [done | lia |].
  intros a. rewrite Hcov, Hcov1, Exists_cons. unfold usable_at at 2. tauto.
Qed.

Lemma remove_interval_ok l s e :
  s mod PMM_PAGE_SIZE = 0 -> e mod PMM_PAGE_SIZE = 0 -> table_ok l ->
  zlen l < PMM_MAX_RANGES ->
  exists l', remove_interval l s e = (PMM_OK, l') /\ table_ok l' /\
    zlen l' <= zlen l + 1 /\ (forall a, covers l' a <-> covers l a /\ ~ s <= a < e).
Proof.
  intros Hs He Hok Hlen.
  assert (exists l', remove_interval l s e = (PMM_OK, l') /\ zlen l' <= zlen l + 1)
    as (l' & Hrun & Hl').
  { unfold remove_interval. if_case; bool_cases; [exists l; split; [done | lia] |].
    destruct Hok as (Hc & _ & _). by apply (remove_loop_total 0 []). }
  exists l'. destruct (remove_interval_spec l s e l' Hs He Hok Hrun). done.
Qed.

(** A region whose end is not a 64-bit address. *)
Definition overflows (r : boot_memory_region_t) : Prop :=
  length_ r <> 0 /\ UINT64_MAX - base r < length_ r.

Lemma covers_below_64 l a : table_ok l -> covers l a -> a + PMM_PAGE_SIZE < 2 ^ 64.
Proof.
  intros (_ & HF & _) Ha. apply Exists_exists in Ha as (r & Hr & Ha).
  rewrite Forall_forall in HF. destruct (HF r Hr) as [_ (_ & _ & ?)].
  unfold in_range in Ha. lia.
Qed.

(** One iteration of the second loop. *)
Lemma remove_reserved_cons r rs l :
  region_ok r -> table_ok l -> zlen l < PMM_MAX_RANGES ->
  if bool_decide (type_ r = BOOT_MEMORY_USABLE) || (length_ r =? 0)
  then remove_reserved (r :: rs) l = remove_reserved rs l
  else if UINT64_MAX - base r <? length_ r
  then remove_reserved (r :: rs) l = (PMM_BAD_ARGUMENT, l)
  else exists l', remove_reserved (r :: rs) l = remove_reserved rs l' /\ table_ok l' /\
    zlen l' <= zlen l + 1 /\
    (forall a, covers l' a <-> covers l a /\ ~ spans (base r) (base r + length_ r) a).
Proof.
  intros [Hb Hl] Hok Hlen. simpl. if_case; [done |]. if_case; [done |]. bool_cases.
  unfold UINT64_MAX in *. rewrite u64_small, align_up_spec, (align_down_spec (base r)) by lia.
  set (e := match _ with Some e => e | None => _ end).
  assert (He : e mod PMM_PAGE_SIZE = 0 /\
    forall a, a + PMM_PAGE_SIZE < 2 ^ 64 -> (a < e <-> a < page_up (base r + length_ r))).
  { unfold e. destruct (Z.ltb_spec (page_up (base r + length_ r)) (2 ^ 64)).
    - split; [apply page_down_spec | done].
    - split; [by vm_compute |]. intros a Ha.
      assert (align_down 18446744073709551615 = 2 ^ 64 - PMM_PAGE_SIZE) as -> by done.
      unfold PMM_PAGE_SIZE in *. lia. }
  destruct He as [He Hiff].
  destruct (remove_interval_ok l (page_down (base r)) e) as (l' & -> & Hok' & Hl' & Hcov);
    [apply page_down_spec | done.. |].
  exists l'. split_and!; try done. intros a. rewrite Hcov. unfold spans.
  split; intros [Hca Hn]; (split; [done |]);
    pose proof (covers_below_64 _ _ Hok Hca) as H64; specialize (Hiff a H64); tauto.
Qed.

Lemma remove_reserved_spec rs l :
  Forall region_ok rs -> table_ok l -> zlen l + zlen rs < PMM_MAX_RANGES ->
  (exists l', remove_reserved rs l = (PMM_OK, l') /\ table_ok l' /\
     zlen l' <= zlen l + zlen rs /\
     (forall a, covers l' a <-> covers l a /\ Forall (fun r => ~ reserved_at r a) rs)) \/
  (exists l', remove_reserved rs l = (PMM_BAD_ARGUMENT, l') /\ Exists overflows rs).
Proof.
  revert l. induction rs as [| r rs IH]; intros l HF Hok Hlen.
  { left. exists l. split_and!; try done; [unfold zlen; simpl; lia |].
    intros a. rewrite Forall_nil. tauto. }
  apply Forall_cons in HF as [Hr HF].
  assert (Hz : zlen (r :: rs) = 1 + zlen rs) by (unfold zlen; simpl; lia).
  rewrite Hz in *. pose proof (zlen_nonneg rs).
  pose proof (remove_reserved_cons r rs l Hr Hok ltac:(lia)) as Hstep.
  if_case_in Hstep; [| if_case_in Hstep].
  - rewrite Hstep. destruct (IH l HF Hok ltac:(lia)) as [(l' & -> & ? & ? & Hcov) | (l' & -> & ?)].
    + left. exists l'. split_and!; try done; [lia |].
      intros a. rewrite Hcov, Forall_cons. unfold reserved_at at 2.
      apply orb_true_iff in E as [E%bool_decide_eq_true | E%Z.eqb_eq]; tauto.
    + right. exists l'. split; [done |]. by right.
  - right. exists l. split; [done |]. left.
    apply orb_false_iff in E as [_ E%Z.eqb_neq]. apply Z.ltb_lt in E0. done.
  - destruct Hstep as (l1 & -> & Hok1 & Hl1 & Hcov1).
    destruct (IH l1 HF Hok1 ltac:(lia)) as [(l' & -> & ? & ? & Hcov) | (l' & -> & ?)].
    + left. exists l'. split_and!; try done; [lia |].
      intros a. rewrite Hcov, Hcov1, Forall_cons. unfold reserved_at at 2.
      apply orb_false_iff in E as [E%bool_decide_eq_false E'%Z.eqb_neq]. tauto.
    + right. exists l'. split; [done |]. by right.
Qed.

Lemma remove_span_spec s e l :
  0 <= s < 2 ^ 64 -> 0 <= e < 2 ^ 64 -> table_ok l -> zlen l < PMM_MAX_RANGES ->
  (exists l', remove_span s e l = (PMM_OK, l') /\ table_ok l' /\ zlen l' <= zlen l + 1 /\
     (forall a, covers l' a <-> covers l a /\ ~ (s < e /\ spans s e a))) \/
  (remove_span s e l = (PMM_BAD_ARGUMENT, l) /\ s < e /\ 2 ^ 64 <= page_up e).
Proof.
  intros Hs He Hok Hlen. unfold remove_span. if_case; bool_cases.
  - rewrite align_up_spec, align_down_spec by done. if_case; bool_cases; [| by right].
    left. destruct (remove_interval_ok l (page_down s) (page_up e))
      as (l' & -> & ? & ? & Hcov); [apply page_down_spec.. | done | done |].
    exists l'. split_and!; try done. intros a. rewrite Hcov. unfold spans. tauto.
  - left. exists l. split_and!; try done; [lia |]. intros a. intuition lia.
Qed.

Lemma add_usable_result limit rs l :
  0 <= limit < 2 ^ 64 -> Forall region_ok rs -> table_ok l ->
  zlen l + zlen rs < PMM_MAX_RANGES ->
  (exists l', add_usable limit rs l = (PMM_OK, l')) \/
  (exists l', add_usable limit rs l = (PMM_BAD_ARGUMENT, l') /\ Exists overflows rs).
Proof.
  intros Hlim. revert l. induction rs as [| r rs IH]; intros l HF Hok Hlen; [left; by eexists |].
  apply Forall_cons in HF as [Hr HF].
  assert (Hz : zlen (r :: rs) = 1 + zlen rs) by (unfold zlen; simpl; lia).
  rewrite Hz in *. pose proof (zlen_nonneg rs). rewrite add_usable_cons by done.
  assert (Hwrap : forall l1, table_ok l1 -> zlen l1 <= zlen l + 1 ->
    (exists l', add_usable limit rs l1 = (PMM_OK, l')) \/
    (exists l', add_usable limit rs l1 = (PMM_BAD_ARGUMENT, l') /\ Exists overflows (r :: rs))).
  { intros l1 Hok1 Hl1. destruct (IH l1 HF Hok1 ltac:(lia)) as [? | (l' & ? & ?)]; [by left |].
    right. exists l'. split; [done |]. by right. }
  if_case; [apply Hwrap; [done | lia] |].
  apply orb_false_iff in E as [_ E%Z.eqb_neq]. if_case.
  { right. exists l. split; [done |]. left. by apply Z.ltb_lt in E0. }
  cbv zeta. if_case; bool_cases; [apply Hwrap; [done | lia] |].
  destruct (usable_bounds limit r Hlim Hr ltac:(lia)) as [Hs He].
  pose proof Hok as (Hc & HFl & _).
  pose proof (insert_length l _ _ Hc ltac:(eassumption) ltac:(lia) HFl Hs He) as Hl1.
  destruct (insert_free_range_spec l _ _ Hc HFl ltac:(eassumption) Hs He ltac:(lia))
    as (l1 & Hins & Hok1 & _). rewrite Hins in Hl1 |- *. by apply Hwrap.
Qed.

Lemma count_frames_spec lo l acc :
  chain lo l -> Forall range_ok l -> 0 <= lo -> 0 <= acc ->
  acc * PMM_PAGE_SIZE <= lo ->
  fold_left (fun acc r => acc +₆₄ (r_end r -₆₄ r_start r) / PMM_PAGE_SIZE) l acc
    * PMM_PAGE_SIZE = acc * PMM_PAGE_SIZE + sum_bytes l.
Proof.
  revert lo acc. induction l as [| r l IH]; intros lo acc Hc HF Hlo Hacc Hle; simpl; [lia |].
  destruct Hc as (? & ? & Hc).
  apply Forall_cons in HF as [[(Hs & ? & ?) (He & ? & ?)] HF].
  rewrite (u64_small (r_end r - r_start r)) by (unfold PMM_PAGE_SIZE, PMM_MIN_PHYSICAL in *; lia).
  assert (Hd : (r_end r - r_start r) / PMM_PAGE_SIZE * PMM_PAGE_SIZE = r_end r - r_start r).
  { unfold PMM_PAGE_SIZE in *.
    pose proof (Z.div_mod (r_end r) 4096). pose proof (Z.div_mod (r_start r) 4096).
    replace (r_end r - r_start r) with ((r_end r / 4096 - r_start r / 4096) * 4096) by lia.
    by rewrite Z.div_mul. }
  unfold PMM_PAGE_SIZE in *.
  rewrite u64_small by lia. rewrite (IH (r_end r)); try done; try lia.
Qed.

Lemma count_frames_ok l : table_ok l -> count_frames l * PMM_PAGE_SIZE = sum_bytes l.
Proof. intros (Hc & HF & _). unfold count_frames. rewrite (count_frames_spec 0); done || lia. Qed.

(** The addresses that are free after [pmm_init]: whole pages of usable
    regions above the first MiB and below the reachable limit, outside every
    other region, the kernel image and the framebuffer. *)
Definition init_free (boot : boot_context_t) (a : Z) : Prop :=
  Exists (fun r => usable_at (physical_memory_limit boot) r a) (regions boot) /\
  Forall (fun r => ~ reserved_at r a) (regions boot) /\
  ~ (kernel_phys_start boot < kernel_phys_end boot /\
     spans (kernel_phys_start boot) (kernel_phys_end boot) a) /\
  ~ (framebuffer_phys_start boot < framebuffer_phys_end boot /\
     spans (framebuffer_phys_start boot) (framebuffer_phys_end boot) a).

(** The inputs [pmm_init] rejects. *)
Definition init_bad (boot : boot_context_t) : Prop :=
  memory_map_count boot = 0 \/ BOOT_MEMORY_MAX_ENTRIES < memory_map_count boot \/
  physical_memory_limit boot <= PMM_MIN_PHYSICAL \/
  Exists overflows (regions boot) \/
  2 ^ 64 <= page_up (kernel_phys_end boot) \/
  2 ^ 64 <= page_up (framebuffer_phys_end boot).

Lemma table_ok_nil : table_ok [].
Proof. by repeat split. Qed.

Lemma covers_zlen_0 l a : (zlen l =? 0) = true -> ~ covers l a.
Proof. destruct l; [intros _; rewrite covers_nil; tauto |]. intros H%Z.eqb_eq. unfold zlen in H. simpl in H. lia. Qed.

Lemma pmm_init_spec boot :
  boot_context_ok boot ->
  match pmm_init (Some boot) with
  | (PMM_OK, s) =>
      pmm_inv s /\ managed_ranges s = free_ranges s /\ free_frames s = total_frames s /\
      (forall a, covers (free_ranges s) a <-> init_free boot a)
  | (PMM_NO_MEMORY, s) => initialised s = false /\ (forall a, ~ init_free boot a)
  | (PMM_BAD_ARGUMENT, s) => initialised s = false /\ init_bad boot
  | _ => False
  end.
Proof.
  intros (Hmap & HFm & Hcnt & _ & Hlim & Hfs & Hfe & Hks & Hke & _). unfold pmm_init, init_bad.
  if_case.
  { split; [done |].
    apply orb_true_iff in E as [[E | E]%orb_true_iff | E]; bool_cases; tauto. }
  bool_cases.
  assert (HF : Forall region_ok (regions boot)) by (by apply Forall_take).
  assert (Hrs : zlen (regions boot) <= 128).
  { unfold zlen, regions. rewrite length_take. unfold BOOT_MEMORY_MAX_ENTRIES in *. lia. }
  assert (zlen (@nil pmm_range_t) = 0) as Hnil by done.
  pose proof (zlen_nonneg (regions boot)). unfold init_free.
  destruct (add_usable_result (physical_memory_limit boot) (regions boot) [])
    as [[l1 Hadd] | (l1 & -> & ?)]; [done.. | apply table_ok_nil | unfold PMM_MAX_RANGES; lia | | tauto].
  destruct (add_usable_spec (physical_memory_limit boot) (regions boot) [] l1)
    as (Hok1 & Hl1 & Hcov1); [done.. | apply table_ok_nil | unfold PMM_MAX_RANGES; lia | done |].
  rewrite Hadd. if_case.
  { split; [done |]. intros a (Hu & _). apply (covers_zlen_0 l1 a E). apply Hcov1. by right. }
  clear E. destruct (remove_reserved_spec (regions boot) l1)
    as [(l2 & -> & Hok2 & Hl2 & Hcov2) | (l2 & -> & ?)];
    [done.. | unfold PMM_MAX_RANGES; lia | | tauto].
  destruct (remove_span_spec (kernel_phys_start boot) (kernel_phys_end boot) l2)
    as [(l3 & -> & Hok3 & Hl3 & Hcov3) | (-> & ? & ?)];
    [done.. | unfold PMM_MAX_RANGES; lia | | tauto].
  destruct (remove_span_spec (framebuffer_phys_start boot) (framebuffer_phys_end boot) l3)
    as [(l4 & -> & Hok4 & Hl4 & Hcov4) | (-> & ? & ?)];
    [done.. | unfold PMM_MAX_RANGES; lia | | tauto].
  assert (Hfree : forall a, covers l4 a <-> _) by
    (intros a; rewrite Hcov4, Hcov3, Hcov2, Hcov1, covers_nil; reflexivity).
  if_case.
  { split; [done |]. intros a Ha. apply (covers_zlen_0 l4 a E). apply Hfree. tauto. }
  split_and!; try done; [| intros a; simpl; rewrite Hfree; tauto].
  split; try done; simpl; by apply count_frames_ok.
Qed.

(** ** Allocation *)

(** The bytes of a run of frames. *)
Definition in_run (frame count a : Z) : Prop :=
  frame <= a < frame + count * PMM_PAGE_SIZE.

Lemma chain_end_uncovered lo l r : chain lo l -> r ∈ l -> ~ covers l (r_end r).
Proof.
  revert lo. induction l as [| x l IH]; intros lo; simpl; [by intros _ ?%not_elem_of_nil |].
  intros (? & ? & Hc) Hin. rewrite covers_cons. intros [Hx | Hl].
  - apply elem_of_cons in Hin as [-> | Hin]; unfold in_range in Hx; [lia |].
    pose proof (chain_elem _ _ _ Hc Hin). lia.
  - apply elem_of_cons in Hin as [-> | Hin]; [| by apply (IH _ Hc)].
    pose proof (chain_above _ _ _ Hc Hl). lia.
Qed.

(** A covered run of bytes lies within one entry, because entries are
    separated by gaps. *)
Lemma chain_run lo l f n :
  chain lo l -> 0 < n -> (forall a, f <= a < f + n -> covers l a) ->
  exists r, r ∈ l /\ r_start r <= f /\ f + n <= r_end r.
Proof.
  intros Hc Hn Hrun. pose proof (Hrun f ltac:(lia)) as Hf.
  apply Exists_exists in Hf as (r & Hr & Hf). unfold in_range in Hf.
  exists r. split_and!; [done | lia |].
  destruct (Z.le_gt_cases (f + n) (r_end r)) as [? | Hgt]; [done |].
  exfalso. eapply chain_end_uncovered; [done.. |]. apply Hrun. lia.
Qed.

Lemma sum_bytes_elem lo l r : chain lo l -> r ∈ l -> r_end r - r_start r <= sum_bytes l.
Proof.
  revert lo. induction l as [| x l IH]; intros lo; simpl; [by intros _ ?%not_elem_of_nil |].
  intros (? & ? & Hc) [-> | Hin]%elem_of_cons.
  - pose proof (sum_bytes_nonneg _ _ Hc). lia.
  - specialize (IH _ Hc Hin). lia.
Qed.

(** Taking the first [bytes] bytes of an entry is carving them out. *)
Lemma alloc_loop_spec done_ l bytes :
  0 < bytes -> chain 0 (done_ ++ l) -> Forall range_ok (done_ ++ l) ->
  match alloc_loop done_ l bytes with
  | None => forall r, r ∈ l -> r_end r - r_start r < bytes
  | Some (f, l') => exists d r t,
      done_ ++ l = d ++ r :: t /\ f = r_start r /\ f + bytes <= r_end r /\
      l' = d ++ carve r f (f + bytes) ++ t
  end.
Proof.
  intros Hb. revert done_. induction l as [| r l IH]; intros done_ Hc HF; simpl.
  { by intros r ?%not_elem_of_nil. }
  assert (Hr : range_ok r /\ r_start r < r_end r).
  { split; [rewrite Forall_forall in HF; apply HF; apply elem_of_middle |].
    eapply (chain_elem 0); [done | apply elem_of_middle]. }
  destruct Hr as [[(? & ? & ?) (? & ? & ?)] Hlt].
  rewrite (u64_small (r_end r - r_start r))
    by (unfold PMM_PAGE_SIZE, PMM_MIN_PHYSICAL in *; lia).
  destruct (Z.ltb_spec (r_end r - r_start r) bytes).
  - specialize (IH (done_ ++ [r])). rewrite <- app_assoc in IH. specialize (IH Hc HF).
    destruct (alloc_loop (done_ ++ [r]) l bytes) as [[f l'] |]; [done |].
    intros x [-> | Hx]%elem_of_cons; auto.
  - rewrite u64_small by (unfold PMM_PAGE_SIZE, PMM_MIN_PHYSICAL in *; lia).
    unfold carve. destruct (Z.eqb_spec (r_start r + bytes) (r_end r)) as [Heq | Hne];
      exists done_, r, l; split_and!; try done; try lia;
      rewrite (proj2 (Z.leb_gt (r_start r + bytes) (r_start r))) by lia;
      rewrite (proj2 (Z.leb_gt (r_end r) (r_start r))) by lia;
      rewrite (proj2 (Z.ltb_ge (r_start r) (r_start r))) by lia; simpl.
    + by rewrite (proj2 (Z.ltb_ge (r_start r + bytes) (r_end r))) by lia.
    + by rewrite (proj2 (Z.ltb_lt (r_start r + bytes) (r_end r))) by lia.
Qed.

(** The effect of carving one entry out of a table. *)
Lemma carve_table d r t s e :
  s < e -> s mod PMM_PAGE_SIZE = 0 -> e mod PMM_PAGE_SIZE = 0 ->
  r_start r = s -> e <= r_end r -> table_ok (d ++ r :: t) ->
  let l' := d ++ carve r s e ++ t in
  table_ok l' /\ (forall a, covers l' a <-> covers (d ++ r :: t) a /\ ~ s <= a < e) /\
  sum_bytes l' = sum_bytes (d ++ r :: t) - (e - s).
Proof.
  intros Hse Hs He Hst Hen (Hc & HF & Hlen). simpl.
  assert (Hr : r_start r < r_end r) by (eapply (chain_elem 0); [done | apply elem_of_middle]).
  apply Forall_app in HF as HF'. destruct HF' as [HF1 [HFr HF2]%Forall_cons].
  split_and!.
  - split_and!.
    + eapply chain_replace; [done |]. intros. by apply carve_chain.
    + rewrite !Forall_app. auto using carve_ok.
    + assert (length (carve r s e) <= 1)%nat.
      { unfold carve. subst s. rewrite (proj2 (Z.ltb_ge (r_start r) (r_start r))) by lia.
        repeat if_case; simpl; lia. }
      unfold zlen in *. rewrite !length_app in *. simpl in *. lia.
  - intros a. rewrite !covers_app, covers_cons, carve_covers by done.
    rewrite !chain_app in Hc. simpl in Hc. destruct Hc as (Hc1 & ? & ? & Hc2).
    assert (covers d a -> a < r_start r).
    { intros Ha. pose proof (covers_below_top _ _ _ Hc1 Ha). lia. }
    assert (covers t a -> r_end r < a) by (by apply chain_above).
    unfold in_range. split; [| tauto]. intros [? | [? | ?]]; intuition lia.
  - rewrite !sum_bytes_app. simpl. unfold carve. subst s.
    destruct (Z.leb_spec e (r_start r)), (Z.leb_spec (r_end r) (r_start r)),
      (Z.ltb_spec (r_start r) (r_start r)), (Z.ltb_spec e (r_end r)); simpl; lia.
Qed.

(** The result of an allocation. *)
Definition alloc_post (s : pmm_state) (n f : Z) (s' : pmm_state) : Prop :=
  if f =? PMM_INVALID_FRAME then
    s' = s /\ (n = 0 \/ forall f', ~ (forall a, in_run f' n a -> covers (free_ranges s) a))
  else
    pmm_inv s' /\ f mod PMM_PAGE_SIZE = 0 /\ n <> 0 /\
    (forall a, in_run f n a -> covers (free_ranges s) a) /\
    (forall a, covers (free_ranges s') a <-> covers (free_ranges s) a /\ ~ in_run f n a) /\
    managed_ranges s' = managed_ranges s /\ total_frames s' = total_frames s /\
    free_frames s' = free_frames s - n.

Lemma free_frames_bounds s : pmm_inv s -> 0 <= free_frames s < 2 ^ 52.
Proof.
  intros [(Hc & HF & _) _ _ Hf _ _]. pose proof (sum_bytes_nonneg _ _ Hc).
  assert (sum_bytes (free_ranges s) < 2 ^ 64).
  { pose proof (sum_bytes_le_top _ _ Hc). rewrite top_last in *.
    destruct (last (free_ranges s)) as [r |] eqn:E; [| lia].
    rewrite Forall_forall in HF. apply last_Some_elem_of, HF in E.
    destruct E as [_ (_ & _ & ?)]. unfold PMM_PAGE_SIZE in *. lia. }
  unfold PMM_PAGE_SIZE in *. lia.
Qed.

Lemma alloc_frames_spec s n :
  pmm_inv s -> 0 <= n < 2 ^ 32 ->
  let '(f, s') := pmm_alloc_frames s n in alloc_post s n f s'.
Proof.
  intros Hinv Hn. pose proof (free_frames_bounds s Hinv) as Hff.
  pose proof Hinv as [Hok Hokm Hsub Hfree Htot Hinit].
  assert (Hno : (forall r, r ∈ free_ranges s -> r_end r - r_start r < n * PMM_PAGE_SIZE) ->
    n = 0 \/ forall f', ~ (forall a, in_run f' n a -> covers (free_ranges s) a)).
  { intros Hsmall. destruct (decide (n = 0)) as [| Hnz]; [by left | right]. intros f' Hrun.
    destruct Hok as (Hc & _ & _).
    destruct (chain_run _ _ f' (n * PMM_PAGE_SIZE) Hc) as (r & Hr & ? & ?); [| done |].
    - unfold PMM_PAGE_SIZE. lia.
    - specialize (Hsmall r Hr). lia. }
  unfold pmm_alloc_frames. rewrite Hinit. simpl. if_case.
  { unfold alloc_post. simpl. split; [done |]. apply orb_true_iff in E as [E | E]; bool_cases.
    - by left.
    - apply Hno. intros r Hr. destruct Hok as (Hc & _ & _).
      pose proof (sum_bytes_elem _ _ _ Hc Hr). unfold PMM_PAGE_SIZE in *. lia. }
  bool_cases. rewrite u64_small by (unfold PMM_PAGE_SIZE; lia).
  pose proof Hok as (Hc & HF & _).
  pose proof (alloc_loop_spec [] (free_ranges s) (n * PMM_PAGE_SIZE)) as Hspec.
  simpl in Hspec. specialize (Hspec ltac:(unfold PMM_PAGE_SIZE; lia) Hc HF).
  destruct (alloc_loop [] (free_ranges s) (n * PMM_PAGE_SIZE)) as [[f l'] |].
  2: { unfold alloc_post. simpl. auto. }
  destruct Hspec as (d & r & t & Heq & Hf & Hle & ->).
  assert (Hr : range_ok r) by (rewrite Forall_forall in HF; apply HF; rewrite Heq; apply elem_of_middle).
  destruct Hr as [(Hal & ? & ?) (? & ? & ?)].
  destruct (carve_table d r t f (f + n * PMM_PAGE_SIZE)) as (Hok' & Hcov & Hsum); try done.
  { unfold PMM_PAGE_SIZE. lia. }
  { by rewrite Hf. }
  { rewrite Hf, Z.mod_add by done. done. }
  { by rewrite <- Heq. }
  rewrite <- Heq in Hcov, Hsum. unfold alloc_post.
  rewrite (proj2 (Z.eqb_neq f PMM_INVALID_FRAME))
    by (unfold PMM_INVALID_FRAME, UINT64_MAX, PMM_PAGE_SIZE, PMM_MIN_PHYSICAL in *; lia).
  rewrite u64_small by lia.
  split_and!; try done; [| by rewrite Hf |].
  - split; try done; simpl.
    + intros a [Ha _]%Hcov. by apply Hsub.
    + lia.
  - intros a Ha. rewrite Heq, covers_app, covers_cons. right. left.
    unfold in_run in Ha. unfold in_range. lia.
Qed.

(** ** Release *)

Lemma aligned_add_page a b : 
  a mod PMM_PAGE_SIZE = 0 -> b mod PMM_PAGE_SIZE = 0 -> a < b -> a + PMM_PAGE_SIZE <= b.
Proof.
  unfold PMM_PAGE_SIZE. intros. pose proof (Z.div_mod a 4096). pose proof (Z.div_mod b 4096). lia.
Qed.

(** A page is in a table when its first byte is. *)
Lemma contains_frame_iff l f :
  table_ok l -> 0 <= f < 2 ^ 64 -> f mod PMM_PAGE_SIZE = 0 ->
  existsb (contains_frame f) l = true <-> covers l f.
Proof.
  intros (_ & HF & _) Hf Hal. rewrite existsb_exists. unfold covers.
  rewrite Exists_exists, Forall_forall in *.
  setoid_rewrite <- list_elem_of_In.
  split; intros (r & Hr & Hc); exists r; (split; [done |]); specialize (HF r Hr);
    destruct HF as [(? & ? & ?) (? & ? & ?)]; unfold contains_frame, in_range, UINT64_MAX in *.
  - bool_cases. rewrite u64_small in * by (unfold PMM_PAGE_SIZE in *; lia).
    unfold PMM_PAGE_SIZE in *. lia.
  - pose proof (aligned_add_page f (r_end r) Hal ltac:(done) ltac:(lia)).
    rewrite u64_small by (unfold PMM_PAGE_SIZE in *; lia).
    rewrite !andb_true_iff, !Z.leb_le. unfold PMM_PAGE_SIZE in *. lia.
Qed.

Lemma covers_page l f a :
  table_ok l -> f mod PMM_PAGE_SIZE = 0 -> f <= a < f + PMM_PAGE_SIZE ->
  covers l f <-> covers l a.
Proof.
  intros (_ & HF & _) Hal Ha. unfold covers. rewrite !Exists_exists.
  rewrite Forall_forall in HF.
  split; intros (r & Hr & Hc); exists r; (split; [done |]); specialize (HF r Hr);
    destruct HF as [(Hs & ? & ?) (He & ? & ?)]; unfold in_range in *.
  - pose proof (aligned_add_page f (r_end r) Hal He ltac:(lia)). lia.
  - destruct (Z.le_gt_cases (r_start r) f); [lia |].
    pose proof (aligned_add_page f (r_start r) Hal Hs ltac:(lia)). lia.
Qed.

Lemma in_run_page f n a :
  f mod PMM_PAGE_SIZE = 0 -> in_run f n a ->
  exists i, 0 <= i < n /\ f + i * PMM_PAGE_SIZE <= a < f + i * PMM_PAGE_SIZE + PMM_PAGE_SIZE.
Proof.
  unfold in_run, PMM_PAGE_SIZE. intros. exists ((a - f) / 4096).
  pose proof (Z.div_mod (a - f) 4096). pose proof (Z.mod_pos_bound (a - f) 4096). lia.
Qed.

(** What the checks of a release establish about the pages of the run. *)
Lemma check_frames_spec s n f :
  pmm_inv s -> 0 <= f -> f mod PMM_PAGE_SIZE = 0 ->
  f + Z.of_nat n * PMM_PAGE_SIZE < 2 ^ 64 ->
  match check_frames s n f with
  | PMM_OK => forall a, in_run f (Z.of_nat n) a ->
      covers (managed_ranges s) a /\ ~ covers (free_ranges s) a
  | PMM_INVALID_FREE => exists a, in_run f (Z.of_nat n) a /\ ~ covers (managed_ranges s) a
  | PMM_DOUBLE_FREE => exists a, in_run f (Z.of_nat n) a /\ covers (free_ranges s) a
  | _ => False
  end.
Proof.
  intros Hinv. pose proof Hinv as [Hok Hokm _ _ _ _]. revert f.
  induction n as [| n IH]; intros f Hf Hal Hend; simpl.
  { intros a. unfold in_run. lia. }
  assert (Hp : 0 < PMM_PAGE_SIZE) by (by unfold PMM_PAGE_SIZE).
  assert (Hfrun : in_run f (Z.of_nat (S n)) f) by (unfold in_run; lia).
  assert (Hf64 : 0 <= f < 2 ^ 64) by lia.
  pose proof (contains_frame_iff _ _ Hokm Hf64 Hal) as Hm.
  pose proof (contains_frame_iff _ _ Hok Hf64 Hal) as Hfr.
  unfold frame_is_managed, frame_is_free.
  destruct (existsb (contains_frame f) (managed_ranges s)); simpl.
  2: { exists f. split; [done |]. intros Hc%Hm. done. }
  destruct (existsb (contains_frame f) (free_ranges s)); simpl.
  { exists f. split; [done |]. by apply Hfr. }
  rewrite u64_small by lia.
  specialize (IH (f + PMM_PAGE_SIZE) ltac:(lia)).
  rewrite Zplus_mod, Hal, Z_mod_same_full in IH. specialize (IH eq_refl ltac:(lia)).
  assert (Hsub : forall a, in_run (f + PMM_PAGE_SIZE) (Z.of_nat n) a ->
    in_run f (Z.of_nat (S n)) a) by (intros a; unfold in_run; lia).
  destruct (check_frames s n (f + PMM_PAGE_SIZE)); try done.
  - intros a Ha. destruct (Z.lt_ge_cases a (f + PMM_PAGE_SIZE)) as [Hlt | Hge].
    + assert (f <= a < f + PMM_PAGE_SIZE) as Hpg by (unfold in_run in Ha; lia).
      rewrite <- (covers_page _ f a Hokm Hal Hpg), <- (covers_page _ f a Hok Hal Hpg).
      split; [by apply Hm |]. intros Hc%Hfr. done.
    + apply IH. unfold in_run in *. lia.
  - destruct IH as (a & ? & ?). eauto.
  - destruct IH as (a & ? & ?). eauto.
Qed.

(** The result of a release. *)
Definition free_post (s : pmm_state) (f n : Z) (status : pmm_status_t) (s' : pmm_state) : Prop :=
  match status with
  | PMM_OK =>
      pmm_inv s' /\ f mod PMM_PAGE_SIZE = 0 /\ n <> 0 /\
      (forall a, in_run f n a -> covers (managed_ranges s) a /\ ~ covers (free_ranges s) a) /\
      (forall a, covers (free_ranges s') a <-> covers (free_ranges s) a \/ in_run f n a) /\
      managed_ranges s' = managed_ranges s /\ total_frames s' = total_frames s /\
      free_frames s' = free_frames s + n
  | PMM_INVALID_FREE =>
      s' = s /\ (n = 0 \/ f mod PMM_PAGE_SIZE <> 0 \/ 2 ^ 64 <= f + n * PMM_PAGE_SIZE \/
                 exists a, in_run f n a /\ ~ covers (managed_ranges s) a)
  | PMM_DOUBLE_FREE => s' = s /\ exists a, in_run f n a /\ covers (free_ranges s) a
  | PMM_RANGE_CAPACITY => s' = s /\ zlen (free_ranges s) = PMM_MAX_RANGES
  | _ => False
  end.

Lemma run_bound_ok s f n :
  pmm_inv s -> f mod PMM_PAGE_SIZE = 0 -> 0 < n ->
  (forall a, in_run f n a -> covers (managed_ranges s) a) ->
  bound_ok f /\ bound_ok (f + n * PMM_PAGE_SIZE).
Proof.
  intros [_ (Hc & HF & _) _ _ _ _] Hal Hn Hrun.
  destruct (chain_run _ _ f (n * PMM_PAGE_SIZE) Hc) as (r & Hr & ? & ?);
    [unfold PMM_PAGE_SIZE; lia | done |].
  rewrite Forall_forall in HF. specialize (HF r Hr).
  split; apply (bound_ok_between _ r); try done; try (unfold PMM_PAGE_SIZE in *; lia).
  by rewrite Z.mod_add.
Qed.

Lemma free_frames_spec s f n :
  pmm_inv s -> 0 <= f < 2 ^ 64 -> 0 <= n < 2 ^ 32 ->
  let '(status, s') := pmm_free_frames s f n in free_post s f n status s'.
Proof.
  intros Hinv Hf Hn. pose proof (free_frames_bounds s Hinv) as Hff.
  pose proof Hinv as [Hok Hokm Hsub Hfree Htot Hinit].
  unfold pmm_free_frames. rewrite Hinit. simpl.
  change (Z.land f (PMM_PAGE_SIZE - 1)) with (Z.land f (2 ^ 12 - 1)).
  rewrite land_low_mask by lia. change (2 ^ 12) with PMM_PAGE_SIZE. if_case.
  { unfold free_post. split; [done |]. apply orb_true_iff in E as [E | E]; bool_cases; tauto. }
  bool_cases. rewrite (u64_small (n * PMM_PAGE_SIZE)) by (unfold PMM_PAGE_SIZE; lia).
  unfold UINT64_MAX. if_case; bool_cases.
  { unfold free_post. split; [done |]. right. right. left. lia. }
  rewrite u64_small by (unfold PMM_PAGE_SIZE in *; lia).
  replace ((f + n * PMM_PAGE_SIZE - f) / PMM_PAGE_SIZE) with n
    by (rewrite Z.add_simpl_l; by rewrite Z.div_mul).
  pose proof (check_frames_spec s (Z.to_nat n) f Hinv) as Hchk.
  rewrite Z2Nat.id in Hchk by lia.
  specialize (Hchk ltac:(lia) ltac:(done) ltac:(unfold PMM_PAGE_SIZE in *; lia)).
  destruct (check_frames s (Z.to_nat n) f) eqn:Echk; try done; [| split; [done | tauto] ..].
  destruct (run_bound_ok s f n Hinv) as [Hb1 Hb2]; [done | lia | by apply Hchk |].
  pose proof Hok as (Hc & HF & Hlen).
  assert (Hpos : f < f + n * PMM_PAGE_SIZE) by (unfold PMM_PAGE_SIZE; lia).
  destruct (Z.eq_dec (zlen (free_ranges s)) PMM_MAX_RANGES) as [Hfull | Hroom].
  { unfold insert_free_range.
    rewrite (proj2 (Z.leb_gt (f + n * PMM_PAGE_SIZE) f)), (proj2 (Z.leb_le PMM_MAX_RANGES _)) by lia.
    unfold free_post. split; [destruct s; simpl in *; congruence | done]. }
  destruct (insert_free_range_spec (free_ranges s) f (f + n * PMM_PAGE_SIZE))
    as (l' & -> & Hok' & Hcov & Hsum); [done.. | lia |].
  unfold free_post. rewrite u64_small by lia. split_and!; try done.
  split; try done; simpl.
  - intros a [Ha | Ha]%Hcov; [by apply Hsub | by apply Hchk].
  - rewrite Hsum; [lia |]. intros a Ha. by apply Hchk.
Qed.

(** ** Histories

    A history pairs the allocator with the runs its callers hold.  A caller
    releases a run it holds; any other release that the allocator rejects may
    happen as well. *)

Definition live_at (live : list (Z * Z)) (a : Z) : Prop :=
  Exists (fun x => in_run (fst x) (snd x) a) live.

Inductive pmm_step : pmm_state * list (Z * Z) -> pmm_state * list (Z * Z) -> Prop :=
| step_alloc s live n f s' :
    0 <= n < 2 ^ 32 -> pmm_alloc_frames s n = (f, s') ->
    pmm_step (s, live) (s', if f =? PMM_INVALID_FRAME then live else (f, n) :: live)
| step_free s l1 f n l2 s' :
    pmm_free_frames s f n = (PMM_OK, s') ->
    pmm_step (s, l1 ++ (f, n) :: l2) (s', l1 ++ l2)
| step_free_rejected s live f n status s' :
    0 <= f < 2 ^ 64 -> 0 <= n < 2 ^ 32 ->
    pmm_free_frames s f n = (status, s') -> status <> PMM_OK ->
    pmm_step (s, live) (s', live).

Fixpoint no_overlap (live : list (Z * Z)) : Prop :=
  match live with
  | [] => True
  | x :: live => (forall a, in_run (fst x) (snd x) a -> ~ live_at live a) /\ no_overlap live
  end.

Definition sum_frames (live : list (Z * Z)) : Z := foldr (fun x acc => snd x + acc) 0 live.

Definition history_inv (h : pmm_state * list (Z * Z)) : Prop :=
  let '(s, live) := h in
  pmm_inv s /\ no_overlap live /\
  Forall (fun x => 0 <= fst x < 2 ^ 64 /\ 0 < snd x < 2 ^ 32) live /\
  (forall a, covers (managed_ranges s) a <-> covers (free_ranges s) a \/ live_at live a) /\
  (forall a, covers (free_ranges s) a -> ~ live_at live a) /\
  free_frames s + sum_frames live = total_frames s.

Lemma live_at_app l1 l2 a : live_at (l1 ++ l2) a <-> live_at l1 a \/ live_at l2 a.
Proof. unfold live_at. by rewrite Exists_app. Qed.
Lemma live_at_cons x l a : live_at (x :: l) a <-> in_run (fst x) (snd x) a \/ live_at l a.
Proof. unfold live_at. by rewrite Exists_cons. Qed.

Lemma sum_frames_app l1 l2 : sum_frames (l1 ++ l2) = sum_frames l1 + sum_frames l2.
Proof. unfold sum_frames. induction l1; simpl; lia. Qed.

Lemma no_overlap_middle l1 x l2 :
  no_overlap (l1 ++ x :: l2) <->
  no_overlap (l1 ++ l2) /\ (forall a, in_run (fst x) (snd x) a -> ~ live_at (l1 ++ l2) a).
Proof.
  induction l1 as [| y l1 IH]; simpl; [tauto |]. rewrite IH.
  setoid_rewrite live_at_app. setoid_rewrite live_at_cons. setoid_rewrite live_at_app.
  firstorder.
Qed.

Lemma history_step h h' : history_inv h -> pmm_step h h' -> history_inv h'.
Proof.
  intros Hinv Hstep. destruct Hstep as [s live n f s' Hn Hrun | s l1 f n l2 s' Hrun
    | s live f n status s' Hf Hn Hrun Hrej];
    destruct Hinv as (Hs & Hov & Hrng & Hpart & Hdis & Hsum).
  - pose proof (alloc_frames_spec s n Hs Hn) as Hspec. rewrite Hrun in Hspec.
    unfold alloc_post in Hspec. if_case; [by destruct Hspec as [-> _] |].
    destruct Hspec as (Hs' & Hal & Hnz & Hin & Hcov & Hman & Htot & Hff).
    split_and!; try done.
    + split; [| done]. intros a Ha. by apply Hdis, Hin.
    + constructor; [| done]. simpl.
      pose proof (Hin f ltac:(unfold in_run, PMM_PAGE_SIZE; lia)) as Hcf.
      pose proof (covers_below_64 _ _ (inv_free _ Hs) Hcf).
      destruct (inv_free _ Hs) as (Hc & _). pose proof (chain_above _ _ _ Hc Hcf).
      unfold PMM_PAGE_SIZE in *. lia.
    + intros a. rewrite Hman, Hpart, Hcov, live_at_cons. simpl.
      destruct (decide (f <= a < f + n * PMM_PAGE_SIZE)) as [Hr | Hr]; [| unfold in_run; tauto].
      specialize (Hin a Hr). unfold in_run. tauto.
    + intros a [Ha Hr]%Hcov. rewrite live_at_cons. simpl. specialize (Hdis a Ha). tauto.
    + simpl. unfold sum_frames in *. simpl. lia.
  - apply Forall_app in Hrng as Hrng'. destruct Hrng' as [Hr1 [[Hf Hn] Hr2]%Forall_cons].
    pose proof (free_frames_spec s f n Hs Hf ltac:(simpl in Hn; lia)) as Hspec.
    rewrite Hrun in Hspec. destruct Hspec as (Hs' & Hal & Hnz & Hin & Hcov & Hman & Htot & Hff).
    apply no_overlap_middle in Hov as [Hov Hfresh]. split_and!; try done.
    + by apply Forall_app.
    + intros a. rewrite Hman, Hpart, Hcov, !live_at_app, live_at_cons. simpl. tauto.
    + intros a [Ha | Ha]%Hcov; [| by apply Hfresh].
      specialize (Hdis a Ha). rewrite live_at_app, live_at_cons in Hdis.
      rewrite live_at_app. tauto.
    + rewrite !sum_frames_app in *. unfold sum_frames in *. simpl in *. lia.
  - pose proof (free_frames_spec s f n Hs Hf Hn) as Hspec. rewrite Hrun in Hspec.
    destruct status; try done; destruct Hspec as [-> _]; done.
Qed.

(** C1. [pmm_init] never runs out of range-table entries.  When it succeeds,
    the allocator satisfies its invariant, every frame is free, and the free
    bytes are exactly the page-aligned parts of the usable regions from 1 MiB
    to the reachable limit that no reserved region, nor the kernel image, nor
    the framebuffer touches.  It reports no memory only when there is no such
    byte, and a bad argument only for an out-of-range map or limit or a
    region or span that ends past the 64-bit address space; after an error
    the allocator is left uninitialised. *)
Theorem pmm_init_correct boot :
  boot_context_ok boot ->
  match pmm_init (Some boot) with
  | (PMM_OK, s) =>
      pmm_inv s /\ managed_ranges s = free_ranges s /\ free_frames s = total_frames s /\
      (forall a, covers (free_ranges s) a <-> init_free boot a)
  | (PMM_NO_MEMORY, s) => initialised s = false /\ (forall a, ~ init_free boot a)
  | (PMM_BAD_ARGUMENT, s) => initialised s = false /\ init_bad boot
  | _ => False
  end.
Proof. exact (pmm_init_spec boot). Qed.

(** C2. Whatever sequence of allocations and releases follows [pmm_init], the
    runs that callers hold never overlap one another, the free and the held
    bytes partition the managed ones, and no frame is lost or counted twice:
    the free and the held frames add up to the total. *)
Theorem pmm_histories_safe boot s0 s live :
  boot_context_ok boot -> pmm_init (Some boot) = (PMM_OK, s0) ->
  steps pmm_step (s0, []) (s, live) ->
  pmm_inv s /\ no_overlap live /\
  (forall a, covers (managed_ranges s) a <-> covers (free_ranges s) a \/ live_at live a) /\
  (forall a, covers (free_ranges s) a -> ~ live_at live a) /\
  free_frames s + sum_frames live = total_frames s.
Proof.
  intros Hboot Hinit Hsteps.
  pose proof (pmm_init_spec boot Hboot) as Hspec. rewrite Hinit in Hspec.
  destruct Hspec as (Hinv & Hman & Hff & _).
  assert (history_inv (s, live)) as (? & ? & ? & ? & ? & ?); [| done].
  eapply steps_invariant; [| exact history_step | exact Hsteps].
  unfold history_inv, sum_frames, live_at. simpl. rewrite Hman. split_and!; try done.
  - intros a. rewrite Exists_nil. tauto.
  - intros a _. rewrite Exists_nil. tauto.
  - lia.
Qed.

(** An allocation of [n] frames succeeds exactly when [n] is not zero and
    some run of [n] frames is free.  It then returns a page-aligned run of
    free frames, which are free no longer while every other byte keeps its
    status; otherwise nothing changes. *)
Theorem pmm_alloc_frames_correct s n f s' :
  pmm_inv s -> 0 <= n < 2 ^ 32 -> pmm_alloc_frames s n = (f, s') ->
  if f =? PMM_INVALID_FRAME then
    s' = s /\ (n = 0 \/ forall f', ~ (forall a, in_run f' n a -> covers (free_ranges s) a))
  else
    pmm_inv s' /\ f mod PMM_PAGE_SIZE = 0 /\ n <> 0 /\
    (forall a, in_run f n a -> covers (free_ranges s) a) /\
    (forall a, covers (free_ranges s') a <-> covers (free_ranges s) a /\ ~ in_run f n a) /\
    managed_ranges s' = managed_ranges s /\ total_frames s' = total_frames s /\
    free_frames s' = free_frames s - n.
Proof.
  intros Hinv Hn Hrun. pose proof (alloc_frames_spec s n Hinv Hn) as H. by rewrite Hrun in H.
Qed.

(** A release succeeds only for a page-aligned run of managed frames none
    of which is free, and then frees exactly that run.  It reports a double
    free only when a byte of the run is already free, an invalid free only for
    an empty, misaligned, wrapping or partly unmanaged run, and exhausted
    capacity only when the range table is full; no failing release changes
    the allocator. *)
Theorem pmm_free_frames_correct s f n status s' :
  pmm_inv s -> 0 <= f < 2 ^ 64 -> 0 <= n < 2 ^ 32 ->
  pmm_free_frames s f n = (status, s') -> free_post s f n status s'.
Proof.
  intros Hinv Hf Hn Hrun. pose proof (free_frames_spec s f n Hinv Hf Hn) as H.
  by rewrite Hrun in H.
Qed.

(** Allocation followed by release of the same run: unless the range table
    is full, the release succeeds and the free bytes and the frame counts are
    those from before the allocation. *)
Theorem pmm_alloc_free_roundtrip s n f s1 :
  pmm_inv s -> 0 <= n < 2 ^ 32 -> pmm_alloc_frames s n = (f, s1) ->
  f <> PMM_INVALID_FRAME -> zlen (free_ranges s1) < PMM_MAX_RANGES ->
  exists s2, pmm_free_frames s1 f n = (PMM_OK, s2) /\
    (forall a, covers (free_ranges s2) a <-> covers (free_ranges s) a) /\
    free_frames s2 = free_frames s /\ total_frames s2 = total_frames s /\
    managed_ranges s2 = managed_ranges s.
Proof.
  intros Hinv Hn Hrun Hf Hroom. pose proof (alloc_frames_spec s n Hinv Hn) as Hspec.
  rewrite Hrun in Hspec. unfold alloc_post in Hspec.
  rewrite (proj2 (Z.eqb_neq _ _) Hf) in Hspec.
  destruct Hspec as (Hinv1 & Hal & Hnz & Hin & Hcov & Hman & Htot & Hff).
  pose proof (Hin f ltac:(unfold in_run, PMM_PAGE_SIZE; lia)) as Hcf.
  pose proof (covers_below_64 _ _ (inv_free _ Hinv) Hcf).
  assert (0 < f) by (eapply chain_above; [apply (inv_free _ Hinv) | done]).
  assert (Hlast : in_run f n (f + n * PMM_PAGE_SIZE - 1)) by (unfold in_run, PMM_PAGE_SIZE; lia).
  pose proof (covers_below_64 _ _ (inv_free _ Hinv) (Hin _ Hlast)).
  pose proof (free_frames_spec s1 f n Hinv1 ltac:(unfold PMM_PAGE_SIZE in *; lia) Hn) as Hfree.
  destruct (pmm_free_frames s1 f n) as [status s2]. destruct status; try done; simpl in Hfree.
  - destruct Hfree as (_ & _ & _ & _ & Hcov2 & Hman2 & Htot2 & Hff2).
    exists s2. split_and!; try done; try lia; [| congruence].
    intros a. rewrite Hcov2, Hcov. specialize (Hin a).
    destruct (decide (f <= a < f + n * PMM_PAGE_SIZE)); unfold in_run in *; tauto.
  - lia.
  - destruct Hfree as (_ & [? | [? | [? | (a & Ha & Hno)]]]); try done; [unfold PMM_PAGE_SIZE in *; lia |].
    exfalso. apply Hno. rewrite Hman. by apply (inv_subset _ Hinv), Hin.
  - destruct Hfree as (_ & a & Ha & Hc). apply Hcov in Hc. tauto.
Qed.

(** ** A concrete machine

    Sixteen usable pages from 1 MiB on, with the kernel image in the fifth,
    the framebuffer in the last two, and a reserved region in the first MiB. *)

Definition example_region (b len : Z) (t : boot_memory_type_t) : boot_memory_region_t :=
  mk_region b len t 0.

Definition example_boot : boot_context_t :=
  mk_boot_context (mk_framebuffer 0x10e000 1 1 4 32 8 16 8 8 8 0)
    ([example_region 0 0x9fc00 BOOT_MEMORY_USABLE;
      example_region 0x9fc00 0x60400 BOOT_MEMORY_RESERVED;
      example_region 0x100000 0x10000 BOOT_MEMORY_USABLE]
     ++ replicate 125 (example_region 0 0 BOOT_MEMORY_RESERVED))
    3 0 0 0x100000000 0x10e000 0x110000 0x104000 0x104800
    0xffffffff80000000 0xffffffff80000800 0 0 [].

Definition example_pmm : pmm_state := snd (pmm_init (Some example_boot)).

Lemma example_boot_ok : boot_context_ok example_boot.
Proof.
  split_and!; try (simpl; lia); [done |].
  apply Forall_app. split.
  - repeat (constructor; [unfold region_ok; simpl; lia |]). constructor.
  - apply Forall_replicate. unfold region_ok. simpl. lia.
Qed.

Lemma example_init : pmm_init (Some example_boot) = (PMM_OK, example_pmm).
Proof. vm_compute. reflexivity. Qed.

Lemma example_pmm_inv : pmm_inv example_pmm.
Proof.
  pose proof (pmm_init_spec example_boot example_boot_ok) as H.
  rewrite example_init in H. apply H.
Qed.

Lemma pmm_init_correct_witness :
  boot_context_ok example_boot /\
  pmm_init (Some example_boot) = (PMM_OK, example_pmm) /\
  free_frames example_pmm = 13 /\
  (forall a, covers (free_ranges example_pmm) a <-> init_free example_boot a).
Proof.
  pose proof (pmm_init_correct example_boot example_boot_ok) as H.
  rewrite example_init in H. split_and!;
    [exact example_boot_ok | exact example_init | vm_compute; reflexivity | apply H].
Defined.

Lemma pmm_histories_safe_witness :
  exists s, snd (pmm_alloc_frames example_pmm 2) = s /\
    free_frames s + sum_frames [(0x100000, 2)] = total_frames s.
Proof.
  exists (snd (pmm_alloc_frames example_pmm 2)). split; [reflexivity |].
  apply (pmm_histories_safe example_boot example_pmm _ [(0x100000, 2)]
           example_boot_ok example_init).
  apply steps_one.
  apply (step_alloc example_pmm [] 2 0x100000); [lia | vm_compute; reflexivity].
Defined.

Lemma pmm_alloc_frames_correct_witness :
  pmm_alloc_frames example_pmm 2 = (0x100000, snd (pmm_alloc_frames example_pmm 2)) /\
  free_frames (snd (pmm_alloc_frames example_pmm 2)) = free_frames example_pmm - 2.
Proof.
  assert (H : pmm_alloc_frames example_pmm 2 =
    (0x100000, snd (pmm_alloc_frames example_pmm 2))) by (vm_compute; reflexivity).
  split; [exact H |].
  apply (pmm_alloc_frames_correct example_pmm 2 0x100000 _ example_pmm_inv ltac:(lia) H).
Defined.

Lemma pmm_free_frames_correct_witness :
  fst (pmm_free_frames example_pmm 0x100000 1) = PMM_DOUBLE_FREE /\
  exists a, in_run 0x100000 1 a /\ covers (free_ranges example_pmm) a.
Proof.
  assert (H : pmm_free_frames example_pmm 0x100000 1 = (PMM_DOUBLE_FREE, example_pmm))
    by (vm_compute; reflexivity).
  split; [by rewrite H |].
  apply (pmm_free_frames_correct example_pmm 0x100000 1 PMM_DOUBLE_FREE example_pmm
           example_pmm_inv ltac:(lia) ltac:(lia) H).
Defined.

Lemma pmm_alloc_free_roundtrip_witness :
  exists s2, pmm_free_frames (snd (pmm_alloc_frames example_pmm 2)) 0x100000 2 = (PMM_OK, s2) /\
    free_frames s2 = free_frames example_pmm.
Proof.
  destruct (pmm_alloc_free_roundtrip example_pmm 2 0x100000
              (snd (pmm_alloc_frames example_pmm 2)) example_pmm_inv)
    as (s2 & H1 & _ & H2 & _);
    [lia | vm_compute; reflexivity | vm_compute; discriminate | vm_compute; reflexivity |].
  exists s2. split; [exact H1 | exact H2].
Defined.
