(* ===== verification/NetProto.v ===== *)
(** * Packet formats (kernel/src/net_proto.c, net_proto.h)

    The Internet checksum and the Ethernet, ARP, IPv4, ICMP, UDP and TCP
    parsers and builders.  DHCP and DNS are in NetDhcpDns.v.

    A parser takes the packet as a nullable pointer, the length the caller
    claims, and the structure it fills; it returns the status and the
    structure.  A builder takes the buffer it writes and its claimed capacity
    and returns the number of bytes and the new buffer.  [None] is an access
    outside a buffer. *)

From stdpp Require Import base numbers list strings.
From Stdlib Require Import ZArith Lia.
From S2P Require Import Prelude Bytes.

#[local] Open Scope Z_scope.

(** ** Data *)

Definition JOSH_NET_ETHERTYPE_IPV4 : Z := 2048.
Definition JOSH_NET_ETHERTYPE_ARP : Z := 2054.
Definition JOSH_NET_IP_ICMP : Z := 1.
Definition JOSH_NET_IP_TCP : Z := 6.
Definition JOSH_NET_IP_UDP : Z := 17.

Inductive josh_net_status_t :=
| JOSH_NET_OK | JOSH_NET_ERR_ARGUMENT | JOSH_NET_ERR_TRUNCATED
| JOSH_NET_ERR_MALFORMED | JOSH_NET_ERR_CHECKSUM | JOSH_NET_ERR_UNSUPPORTED
| JOSH_NET_ERR_BUFFER.

#[export] Instance josh_net_status_eq_dec : EqDecision josh_net_status_t.
Proof. solve_decision. Defined.

Record josh_eth_frame_t := mk_eth_frame {
  eth_destination : list Z;
  eth_source : list Z;
  eth_ethertype : Z;
  eth_payload : list Z;
  eth_payload_length : Z;
}.

Record josh_arp_packet_t := mk_arp_packet {
  arp_operation : Z;
  arp_sender_mac : list Z;
  arp_sender_ip : list Z;
  arp_target_mac : list Z;
  arp_target_ip : list Z;
}.

Record josh_ipv4_packet_t := mk_ipv4_packet {
  ip_dscp_ecn : Z;
  ip_identification : Z;
  ip_flags_fragment : Z;
  ip_ttl : Z;
  ip_protocol : Z;
  ip_source : list Z;
  ip_destination : list Z;
  ip_payload : list Z;
  ip_payload_length : Z;
  ip_header_length : Z;
}.

Record josh_udp_packet_t := mk_udp_packet {
  udp_source_port : Z;
  udp_destination_port : Z;
  udp_checksum : Z;
  udp_payload : list Z;
  udp_payload_length : Z;
}.

Record josh_tcp_segment_t := mk_tcp_segment {
  tcp_source_port : Z;
  tcp_destination_port : Z;
  tcp_sequence : Z;
  tcp_acknowledgement : Z;
  tcp_flags : Z;
  tcp_window : Z;
  tcp_checksum : Z;
  tcp_payload : list Z;
  tcp_payload_length : Z;
  tcp_header_length : Z;
}.

(** ** Byte access *)

Definition read_be16 (p : list Z) (o : Z) : option Z :=
  a ← rd p o;
  b ← rd p (o + 1);
  Some (u16 (Z.lor (Z.shiftl a 8) b)).

Definition read_be32 (p : list Z) (o : Z) : option Z :=
  a ← rd p o;
  b ← rd p (o + 1);
  c ← rd p (o + 2);
  d ← rd p (o + 3);
  Some (Z.lor (Z.lor (Z.lor (u32 (Z.shiftl a 24)) (u32 (Z.shiftl b 16)))
                     (u32 (Z.shiftl c 8))) d).

Definition write_be16 (p : list Z) (o value : Z) : option (list Z) :=
  p ← wr p o (u8 (Z.shiftr value 8));
  wr p (o + 1) (u8 value).

Definition write_be32 (p : list Z) (o value : Z) : option (list Z) :=
  p ← wr p o (u8 (Z.shiftr value 24));
  p ← wr p (o + 1) (u8 (Z.shiftr value 16));
  p ← wr p (o + 2) (u8 (Z.shiftr value 8));
  wr p (o + 3) (u8 value).

Definition copy_bytes (destination : list Z) (d : Z) (source : list Z) (s length : Z) :
    option (list Z) :=
  copy_loop (Z.to_nat length) destination d source s.

Definition zero_bytes (destination : list Z) (d length : Z) : option (list Z) :=
  fill_loop (Z.to_nat length) destination d 0.

(** ** Checksum *)

(** The summing loop of [checksum_add]: [n] bytes of [data] from [o]. *)
Fixpoint sum_loop (n : nat) (sum : Z) (data : list Z) (o : Z) : option Z :=
  match n with
  | O => Some sum
  | S O => b ← rd data o; Some (u32 (sum + u16 (Z.shiftl b 8)))
  | S (S n) => w ← read_be16 data o; sum_loop n (u32 (sum + w)) data (o + 2)
  end.

(** [while (sum >> 16) sum = (sum & 0xffffu) + (sum >> 16)]; [None] when the
    fuel does not suffice. *)
Fixpoint fold_loop (fuel : nat) (sum : Z) : option Z :=
  if Z.shiftr sum 16 =? 0 then Some sum
  else match fuel with
       | O => None
       | S fuel => fold_loop fuel (u32 (Z.land sum 65535 + Z.shiftr sum 16))
       end.

(** Two rounds are enough for any 32-bit sum ([fold_loop_spec]). *)
Definition fold_carries (sum : Z) : option Z := fold_loop 2 sum.

Definition checksum_add (sum : Z) (data : list Z) (length : Z) : option Z :=
  sum ← sum_loop (Z.to_nat length) sum data 0;
  fold_carries sum.

Definition checksum_finish (sum : Z) : option Z :=
  sum ← fold_carries sum;
  Some (u16 (not32 sum)).

(** The null pointer with length 0 is read nowhere; it is the empty list. *)
Definition josh_net_checksum (data : option (list Z)) (length : Z) : option Z :=
  match data with
  | None => if negb (length =? 0) then Some 0
            else sum ← checksum_add 0 [] length; checksum_finish sum
  | Some data => sum ← checksum_add 0 data length; checksum_finish sum
  end.

(** ** Ethernet *)

Definition josh_eth_parse (frame : option (list Z)) (length : Z)
    (out : option josh_eth_frame_t) :
    option (josh_net_status_t * option josh_eth_frame_t) :=
  match frame, out with
  | Some p, Some out =>
      if length <? 14 then Some (JOSH_NET_ERR_TRUNCATED, Some out)
      else
        destination ← copy_bytes (eth_destination out) 0 p 0 6;
        source ← copy_bytes (eth_source out) 0 p 6 6;
        ethertype ← read_be16 p 12;
        payload ← padd p 14;
        Some (JOSH_NET_OK,
              Some {| eth_destination := destination;
                      eth_source := source;
                      eth_ethertype := ethertype;
                      eth_payload := payload;
                      eth_payload_length := u64 (length - 14) |})
  | _, _ => Some (JOSH_NET_ERR_ARGUMENT, out)
  end.

(** [!payload && payload_length != 0]. *)
Definition payload_missing (payload : option (list Z)) (payload_length : Z) : bool :=
  match payload with None => negb (payload_length =? 0) | Some _ => false end.

(** [if (payload_length) copy_bytes(p + o, payload, payload_length)]. *)
Definition copy_payload (p : list Z) (o : Z) (payload : option (list Z))
    (payload_length : Z) : option (list Z) :=
  if payload_length =? 0 then Some p
  else payload ← payload; copy_bytes p o payload 0 payload_length.

Definition josh_eth_build (buffer : option (list Z)) (capacity : Z)
    (destination source : option (list Z)) (ethertype : Z)
    (payload : option (list Z)) (payload_length : Z) :
    option (Z * option (list Z)) :=
  match buffer, destination, source with
  | Some p, Some destination, Some source =>
      if payload_missing payload payload_length then Some (0, buffer)
      else if (capacity <? payload_length) || (u64 (capacity - payload_length) <? 14)
      then Some (0, buffer)
      else
        p ← copy_bytes p 0 destination 0 6;
        p ← copy_bytes p 6 source 0 6;
        p ← write_be16 p 12 ethertype;
        p ← copy_payload p 14 payload payload_length;
        Some (u64 (14 + payload_length), Some p)
  | _, _, _ => Some (0, buffer)
  end.

(** ** ARP *)

Definition josh_arp_parse (payload : option (list Z)) (length : Z)
    (out : option josh_arp_packet_t) :
    option (josh_net_status_t * option josh_arp_packet_t) :=
  match payload, out with
  | Some p, Some out =>
      if length <? 28 then Some (JOSH_NET_ERR_TRUNCATED, Some out)
      else
        hardware ← read_be16 p 0;
        protocol ← read_be16 p 2;
        hardware_size ← rd p 4;
        protocol_size ← rd p 5;
        if negb (hardware =? 1) || negb (protocol =? JOSH_NET_ETHERTYPE_IPV4)
           || negb (hardware_size =? 6) || negb (protocol_size =? 4)
        then Some (JOSH_NET_ERR_UNSUPPORTED, Some out)
        else
          operation ← read_be16 p 6;
          let out := {| arp_operation := operation;
                        arp_sender_mac := arp_sender_mac out;
                        arp_sender_ip := arp_sender_ip out;
                        arp_target_mac := arp_target_mac out;
                        arp_target_ip := arp_target_ip out |} in
          if negb (operation =? 1) && negb (operation =? 2)
          then Some (JOSH_NET_ERR_MALFORMED, Some out)
          else
            sender_mac ← copy_bytes (arp_sender_mac out) 0 p 8 6;
            sender_ip ← copy_bytes (arp_sender_ip out) 0 p 14 4;
            target_mac ← copy_bytes (arp_target_mac out) 0 p 18 6;
            target_ip ← copy_bytes (arp_target_ip out) 0 p 24 4;
            Some (JOSH_NET_OK,
                  Some {| arp_operation := operation;
                          arp_sender_mac := sender_mac;
                          arp_sender_ip := sender_ip;
                          arp_target_mac := target_mac;
                          arp_target_ip := target_ip |})
  | _, _ => Some (JOSH_NET_ERR_ARGUMENT, out)
  end.

Definition josh_arp_build_ethernet_ipv4 (buffer : option (list Z)) (capacity operation : Z)
    (sender_mac sender_ip target_mac target_ip : option (list Z)) :
    option (Z * option (list Z)) :=
  match buffer, sender_mac, sender_ip, target_mac, target_ip with
  | Some p, Some sender_mac, Some sender_ip, Some target_mac, Some target_ip =>
      if (capacity <? 28) || (negb (operation =? 1) && negb (operation =? 2))
      then Some (0, buffer)
      else
        p ← write_be16 p 0 1;
        p ← write_be16 p 2 JOSH_NET_ETHERTYPE_IPV4;
        p ← wr p 4 6;
        p ← wr p 5 4;
        p ← write_be16 p 6 operation;
        p ← copy_bytes p 8 sender_mac 0 6;
        p ← copy_bytes p 14 sender_ip 0 4;
        p ← copy_bytes p 18 target_mac 0 6;
        p ← copy_bytes p 24 target_ip 0 4;
        Some (28, Some p)
  | _, _, _, _, _ => Some (0, buffer)
  end.

(** ** IPv4 *)

Definition josh_ipv4_parse (packet : option (list Z)) (length : Z)
    (out : option josh_ipv4_packet_t) :
    option (josh_net_status_t * option josh_ipv4_packet_t) :=
  match packet, out with
  | Some p, Some out =>
      if length <? 20 then Some (JOSH_NET_ERR_TRUNCATED, Some out)
      else
        b0 ← rd p 0;
        let version := u8 (Z.shiftr b0 4) in
        let ihl := u8 (Z.land b0 15) in
        if negb (version =? 4) || (ihl <? 5)
        then Some (JOSH_NET_ERR_MALFORMED, Some out)
        else
          let header_length := u64 (ihl * 4) in
          if length <? header_length then Some (JOSH_NET_ERR_TRUNCATED, Some out)
          else
            total_length ← read_be16 p 2;
            if (total_length <? header_length) || (length <? total_length)
            then Some (JOSH_NET_ERR_TRUNCATED, Some out)
            else
              checksum ← josh_net_checksum (Some p) header_length;
              if negb (checksum =? 0) then Some (JOSH_NET_ERR_CHECKSUM, Some out)
              else
                dscp_ecn ← rd p 1;
                identification ← read_be16 p 4;
                flags_fragment ← read_be16 p 6;
                ttl ← rd p 8;
                protocol ← rd p 9;
                source ← copy_bytes (ip_source out) 0 p 12 4;
                destination ← copy_bytes (ip_destination out) 0 p 16 4;
                payload ← padd p header_length;
                Some (JOSH_NET_OK,
                      Some {| ip_dscp_ecn := dscp_ecn;
                              ip_identification := identification;
                              ip_flags_fragment := flags_fragment;
                              ip_ttl := ttl;
                              ip_protocol := protocol;
                              ip_source := source;
                              ip_destination := destination;
                              ip_payload := payload;
                              ip_payload_length := u64 (total_length - header_length);
                              ip_header_length := header_length |})
  | _, _ => Some (JOSH_NET_ERR_ARGUMENT, out)
  end.

Definition josh_ipv4_build (buffer : option (list Z)) (capacity protocol ttl identification : Z)
    (source destination : option (list Z)) (payload : option (list Z))
    (payload_length : Z) : option (Z * option (list Z)) :=
  match buffer, source, destination with
  | Some p, Some source, Some destination =>
      if payload_missing payload payload_length then Some (0, buffer)
      else if (65515 <? payload_length) || (capacity <? u64 (20 + payload_length))
      then Some (0, buffer)
      else
        p ← zero_bytes p 0 20;
        p ← wr p 0 69;
        p ← write_be16 p 2 (u16 (20 + payload_length));
        p ← write_be16 p 4 identification;
        p ← write_be16 p 6 16384;
        p ← wr p 8 ttl;
        p ← wr p 9 protocol;
        p ← copy_bytes p 12 source 0 4;
        p ← copy_bytes p 16 destination 0 4;
        checksum ← josh_net_checksum (Some p) 20;
        p ← write_be16 p 10 checksum;
        p ← copy_payload p 20 payload payload_length;
        Some (u64 (20 + payload_length), Some p)
  | _, _, _ => Some (0, buffer)
  end.

(** ** ICMP *)

(** [reply_length] is the caller's variable the length is stored to; the
    request and the reply are different buffers. *)
Definition josh_icmp_echo_reply (request : option (list Z)) (request_length : Z)
    (reply : option (list Z)) (capacity : Z) (reply_length : option Z) :
    option (josh_net_status_t * option (list Z) * option Z) :=
  match request, reply, reply_length with
  | Some src, Some dst, Some _ =>
      if request_length <? 8 then Some (JOSH_NET_ERR_TRUNCATED, reply, reply_length)
      else if capacity <? request_length then Some (JOSH_NET_ERR_BUFFER, reply, reply_length)
      else
        s0 ← rd src 0;
        s1 ← rd src 1;
        if negb (s0 =? 8) || negb (s1 =? 0)
        then Some (JOSH_NET_ERR_UNSUPPORTED, reply, reply_length)
        else
          checksum ← josh_net_checksum (Some src) request_length;
          if negb (checksum =? 0) then Some (JOSH_NET_ERR_CHECKSUM, reply, reply_length)
          else
            dst ← copy_bytes dst 0 src 0 request_length;
            dst ← wr dst 0 0;
            dst ← wr dst 2 0;
            dst ← wr dst 3 0;
            checksum ← josh_net_checksum (Some dst) request_length;
            dst ← write_be16 dst 2 checksum;
            Some (JOSH_NET_OK, Some dst, Some request_length)
  | _, _, _ => Some (JOSH_NET_ERR_ARGUMENT, reply, reply_length)
  end.

(** ** UDP and TCP *)

Definition transport_checksum_ipv4 (source_ip destination_ip : list Z) (protocol : Z)
    (segment : option (list Z)) (length : Z) : option Z :=
  sum ← checksum_add 0 source_ip 4;
  sum ← checksum_add sum destination_ip 4;
  sum ← checksum_add sum [0; protocol; u8 (Z.shiftr length 8); u8 length] 4;
  sum ← checksum_add sum (default [] segment) length;
  checksum_finish sum.

Definition josh_udp_parse (segment : option (list Z)) (length : Z)
    (out : option josh_udp_packet_t) :
    option (josh_net_status_t * option josh_udp_packet_t) :=
  match segment, out with
  | Some p, Some out =>
      if length <? 8 then Some (JOSH_NET_ERR_TRUNCATED, Some out)
      else
        encoded_length ← read_be16 p 4;
        if (encoded_length <? 8) || (length <? encoded_length)
        then Some (JOSH_NET_ERR_MALFORMED, Some out)
        else
          source_port ← read_be16 p 0;
          destination_port ← read_be16 p 2;
          checksum ← read_be16 p 6;
          payload ← padd p 8;
          Some (JOSH_NET_OK,
                Some {| udp_source_port := source_port;
                        udp_destination_port := destination_port;
                        udp_checksum := checksum;
                        udp_payload := payload;
                        udp_payload_length := u64 (encoded_length - 8) |})
  | _, _ => Some (JOSH_NET_ERR_ARGUMENT, out)
  end.

Definition josh_udp_checksum_ipv4 (source_ip destination_ip segment : option (list Z))
    (length : Z) : option Z :=
  match source_ip, destination_ip with
  | Some source_ip, Some destination_ip =>
      if payload_missing segment length || (65535 <? length) then Some 0
      else transport_checksum_ipv4 source_ip destination_ip JOSH_NET_IP_UDP segment length
  | _, _ => Some 0
  end.

Definition josh_udp_build_ipv4 (buffer : option (list Z)) (capacity : Z)
    (source_ip destination_ip : option (list Z)) (source_port destination_port : Z)
    (payload : option (list Z)) (payload_length : Z) : option (Z * option (list Z)) :=
  match buffer, source_ip, destination_ip with
  | Some p, Some _, Some _ =>
      if payload_missing payload payload_length then Some (0, buffer)
      else if (65527 <? payload_length) || (capacity <? u64 (8 + payload_length))
      then Some (0, buffer)
      else
        p ← write_be16 p 0 source_port;
        p ← write_be16 p 2 destination_port;
        p ← write_be16 p 4 (u16 (8 + payload_length));
        p ← write_be16 p 6 0;
        p ← copy_payload p 8 payload payload_length;
        checksum ← josh_udp_checksum_ipv4 source_ip destination_ip (Some p)
                     (u64 (8 + payload_length));
        let checksum := if checksum =? 0 then 65535 else checksum in
        p ← write_be16 p 6 checksum;
        Some (u64 (8 + payload_length), Some p)
  | _, _, _ => Some (0, buffer)
  end.

Definition josh_tcp_parse (segment : option (list Z)) (length : Z)
    (out : option josh_tcp_segment_t) :
    option (josh_net_status_t * option josh_tcp_segment_t) :=
  match segment, out with
  | Some p, Some out =>
      if length <? 20 then Some (JOSH_NET_ERR_TRUNCATED, Some out)
      else
        b12 ← rd p 12;
        let header_length := u64 (Z.shiftr b12 4 * 4) in
        if (header_length <? 20) || (length <? header_length)
        then Some (JOSH_NET_ERR_MALFORMED, Some out)
        else
          source_port ← read_be16 p 0;
          destination_port ← read_be16 p 2;
          sequence ← read_be32 p 4;
          acknowledgement ← read_be32 p 8;
          flags ← rd p 13;
          window ← read_be16 p 14;
          checksum ← read_be16 p 16;
          payload ← padd p header_length;
          Some (JOSH_NET_OK,
                Some {| tcp_source_port := source_port;
                        tcp_destination_port := destination_port;
                        tcp_sequence := sequence;
                        tcp_acknowledgement := acknowledgement;
                        tcp_flags := flags;
                        tcp_window := window;
                        tcp_checksum := checksum;
                        tcp_payload := payload;
                        tcp_payload_length := u64 (length - header_length);
                        tcp_header_length := header_length |})
  | _, _ => Some (JOSH_NET_ERR_ARGUMENT, out)
  end.

Definition josh_tcp_checksum_ipv4 (source_ip destination_ip segment : option (list Z))
    (length : Z) : option Z :=
  match source_ip, destination_ip with
  | Some source_ip, Some destination_ip =>
      if payload_missing segment length || (65535 <? length) then Some 0
      else transport_checksum_ipv4 source_ip destination_ip JOSH_NET_IP_TCP segment length
  | _, _ => Some 0
  end.

Definition josh_net_status_string (status : josh_net_status_t) : string :=
  match status with
  | JOSH_NET_OK => "ok"
  | JOSH_NET_ERR_ARGUMENT => "invalid argument"
  | JOSH_NET_ERR_TRUNCATED => "truncated packet"
  | JOSH_NET_ERR_MALFORMED => "malformed packet"
  | JOSH_NET_ERR_CHECKSUM => "checksum failure"
  | JOSH_NET_ERR_UNSUPPORTED => "unsupported packet"
  | JOSH_NET_ERR_BUFFER => "buffer too small"
  end.

(** ** Specification of the byte access *)

Lemma read_be16_spec p o :
  bytes_ok p -> 0 <= o -> o + 2 <= zlen p ->
  read_be16 p o = Some (be_val (slice p o 2)) /\ 0 <= be_val (slice p o 2) < 65536.
Proof.
  intros Hp Ho Hl. destruct (slice_2 p o) as (a & b & Ha & Hb & Hs); [lia.. |].
  pose proof (bytes_ok_rd _ _ _ Hp Ha). pose proof (bytes_ok_rd _ _ _ Hp Hb).
  unfold read_be16. rewrite Ha, Hb, Hs. cbn. unfold byte_ok in *.
  rewrite lor_shift_add by lia. rewrite u16_small by lia. split; [f_equal; lia | lia].
Qed.

Lemma read_be32_spec p o :
  bytes_ok p -> 0 <= o -> o + 4 <= zlen p ->
  read_be32 p o = Some (be_val (slice p o 4)) /\ 0 <= be_val (slice p o 4) < 4294967296.
Proof.
  intros Hp Ho Hl.
  destruct (slice_4 p o) as (a & b & c & d & Ha & Hb & Hc & Hd & Hs); [lia.. |].
  pose proof (bytes_ok_rd _ _ _ Hp Ha). pose proof (bytes_ok_rd _ _ _ Hp Hb).
  pose proof (bytes_ok_rd _ _ _ Hp Hc). pose proof (bytes_ok_rd _ _ _ Hp Hd).
  unfold read_be32. rewrite Ha, Hb, Hc, Hd, Hs. cbn -[Z.shiftl Z.lor].
  unfold byte_ok in *. rewrite !Z.shiftl_mul_pow2 by lia. no_wrap.
  rewrite <- (Z.shiftl_mul_pow2 a 24) by lia. rewrite lor_shift_add by lia.
  replace (a * 2 ^ 24 + b * 2 ^ 16) with (Z.shiftl (a * 256 + b) 16)
    by (rewrite Z.shiftl_mul_pow2 by lia; lia).
  rewrite lor_shift_add by lia.
  replace ((a * 256 + b) * 2 ^ 16 + c * 2 ^ 8) with (Z.shiftl ((a * 256 + b) * 256 + c) 8)
    by (rewrite Z.shiftl_mul_pow2 by lia; lia).
  rewrite lor_shift_add by lia. split; [f_equal; lia | lia].
Qed.

Lemma write_be16_spec p o v :
  0 <= o -> o + 2 <= zlen p -> write_be16 p o v = Some (blit p o (be16 v)).
Proof.
  intros. unfold write_be16. rewrite wr_blit by lia. cbn.
  rewrite wr_blit by (rewrite zlen_blit by (change (zlen [_]) with 1; lia); lia).
  by rewrite blit_blit by (change (zlen [_]) with 1; lia).
Qed.

Lemma write_be32_spec p o v :
  0 <= o -> o + 4 <= zlen p -> write_be32 p o v = Some (blit p o (be32 v)).
Proof.
  intros. unfold write_be32. rewrite wr_blit by lia. cbn -[Z.shiftr].
  rewrite wr_blit by (rewrite zlen_blit by (change (zlen [_]) with 1; lia); lia).
  rewrite blit_blit by (change (zlen [_]) with 1; lia). cbn -[Z.shiftr].
  rewrite wr_blit by (rewrite zlen_blit by (change (zlen [_;_]) with 2; lia); lia).
  rewrite blit_blit by (change (zlen [_;_]) with 2; change (zlen [_]) with 1; lia). cbn -[Z.shiftr].
  rewrite wr_blit by (rewrite zlen_blit by (change (zlen [_;_;_]) with 3; lia); lia).
  by rewrite blit_blit by (change (zlen [_;_;_]) with 3; change (zlen [_]) with 1; lia).
Qed.

Lemma copy_bytes_spec dst d src s n :
  0 <= d -> 0 <= s -> 0 <= n -> d + n <= zlen dst -> s + n <= zlen src ->
  copy_bytes dst d src s n = Some (blit dst d (slice src s n)).
Proof. intros. unfold copy_bytes. rewrite copy_loop_spec by lia. by rewrite Z2Nat.id. Qed.

(** Copying into a structure's array of exactly that size. *)
Lemma copy_array_spec dst src s n :
  0 <= s -> zlen dst = n -> s + n <= zlen src ->
  copy_bytes dst 0 src s n = Some (slice src s n).
Proof.
  intros Hs Hd Hl. pose proof (zlen_nonneg dst).
  rewrite copy_bytes_spec by lia. rewrite blit_full; [done |].
  rewrite zlen_slice; lia.
Qed.

Lemma zero_bytes_spec dst d n :
  0 <= d -> 0 <= n -> d + n <= zlen dst ->
  zero_bytes dst d n = Some (blit dst d (replicate (Z.to_nat n) 0)).
Proof. intros. apply fill_loop_spec; lia. Qed.

(** ** Specification of the checksum *)

(** The sum of the big-endian 16-bit words, an odd byte padded with zero. *)
Fixpoint sum16 (l : list Z) : Z :=
  match l with
  | [] => 0
  | [a] => a * 256
  | a :: b :: l => a * 256 + b + sum16 l
  end.

(** The ones' complement representative of a sum: 0 for 0, else the residue
    modulo 65535 in 1..65535. *)
Definition ones_sum (s : Z) : Z := if s =? 0 then 0 else (s - 1) mod 65535 + 1.

Lemma list_pair_ind {A} (P : list A -> Prop) :
  P [] -> (forall a, P [a]) -> (forall a b l, P l -> P (a :: b :: l)) -> forall l, P l.
Proof.
  intros H0 H1 H2. fix go 1. intros [| a [| b l]]; [done | done | apply H2, go].
Qed.

Lemma sum16_bounds l : bytes_ok l -> 0 <= sum16 l <= 65535 * ((zlen l + 1) / 2).
Proof.
  induction l as [| a | a b l IH] using list_pair_ind; intros Hl.
  - done.
  - apply Forall_cons in Hl as [Ha _]. unfold byte_ok in Ha.
    change (0 <= a * 256 <= 65535). lia.
  - apply Forall_cons in Hl as [Ha [Hb Hl]%Forall_cons]. specialize (IH Hl).
    unfold byte_ok in *. cbn [sum16]. rewrite !zlen_cons.
    replace (1 + (1 + zlen l) + 1) with (zlen l + 1 + 1 * 2) by lia.
    rewrite Z.div_add by lia. lia.
Qed.

Lemma sum16_app l1 l2 : zlen l1 mod 2 = 0 -> sum16 (l1 ++ l2) = sum16 l1 + sum16 l2.
Proof.
  induction l1 as [| a | a b l1 IH] using list_pair_ind; intros H; [done | done |].
  cbn [sum16 app]. rewrite IH; [lia |]. rewrite !zlen_cons in H.
  replace (1 + (1 + zlen l1)) with (zlen l1 + 1 * 2) in H by lia.
  by rewrite Z.mod_add in H by lia.
Qed.

Lemma sum_loop_spec n sum data o :
  bytes_ok data -> 0 <= o -> o + Z.of_nat n <= zlen data -> 0 <= sum ->
  sum + sum16 (slice data o (Z.of_nat n)) < 2 ^ 32 ->
  sum_loop n sum data o = Some (sum + sum16 (slice data o (Z.of_nat n))).
Proof.
  intros Hb. revert sum o. induction n as [n IH] using lt_wf_ind.
  intros sum o Ho Hl Hs Hlt. destruct n as [| [| n]].
  - cbn [sum_loop]. f_equal. change (sum16 (slice data o (Z.of_nat 0))) with 0. lia.
  - cbn [sum_loop]. destruct (rd_in_range data o) as [b Hrd]; [lia |].
    pose proof (bytes_ok_rd _ _ _ Hb Hrd). unfold byte_ok in *.
    assert (slice data o 1 = [b]) as Hsl.
    { apply rd_ext; [by rewrite zlen_slice by lia |]. rewrite zlen_slice by lia.
      intros i Hi. rewrite rd_slice by lia. replace i with 0 by lia.
      by rewrite Z.add_0_r. }
    change (Z.of_nat 1) with 1 in *. rewrite Hsl in *. rewrite Hrd. cbn in *.
    rewrite Z.shiftl_mul_pow2 by lia. rewrite u16_small, u32_small by lia. done.
  - destruct (read_be16_spec data o) as [Hr Hrb]; [done | lia.. |].
    cbn [sum_loop]. rewrite Hr. cbn [mbind option_bind].
    destruct (slice_2 data o) as (a & b & Ha & Hb' & Hab); [lia.. |].
    assert (slice data o (Z.of_nat (S (S n))) =
            [a; b] ++ slice data (o + 2) (Z.of_nat n)) as Hsp.
    { replace (Z.of_nat (S (S n))) with (2 + Z.of_nat n) by lia.
      rewrite slice_cat by lia. by rewrite Hab. }
    rewrite Hsp in *. rewrite sum16_app in * by done. rewrite Hab in *.
    assert (be_val [a; b] = sum16 [a; b]) as Hv by (cbn; lia).
    pose proof (sum16_bounds (slice data (o + 2) (Z.of_nat n)) (bytes_ok_slice _ _ _ Hb)).
    rewrite u32_small by lia. rewrite IH by lia. f_equal. lia.
Qed.

Lemma ones_sum_range s : 0 <= ones_sum s <= 65535.
Proof.
  unfold ones_sum. if_case; [lia |]. pose proof (Z.mod_pos_bound (s - 1) 65535). lia.
Qed.

Lemma ones_sum_small s : 0 <= s <= 65535 -> ones_sum s = s.
Proof.
  intros. unfold ones_sum. if_case; bool_cases; [lia |]. rewrite Z.mod_small; lia.
Qed.

Lemma ones_sum_zero s : 0 <= s -> ones_sum s = 0 <-> s = 0.
Proof.
  intros. unfold ones_sum. if_case; bool_cases; [lia |].
  pose proof (Z.mod_pos_bound (s - 1) 65535). lia.
Qed.

(** Two positive sums with one residue have one representative. *)
Lemma ones_sum_cong s t k :
  0 < s -> 0 < t -> s = t + k * 65535 -> ones_sum s = ones_sum t.
Proof.
  intros Hs Ht E. unfold ones_sum.
  rewrite (proj2 (Z.eqb_neq s 0)), (proj2 (Z.eqb_neq t 0)) by lia.
  replace (s - 1) with (t - 1 + k * 65535) by lia. by rewrite Z.mod_add.
Qed.

Lemma ones_sum_split s : 0 < s -> exists k, s = ones_sum s + k * 65535.
Proof.
  intros. exists ((s - 1) / 65535). unfold ones_sum.
  rewrite (proj2 (Z.eqb_neq s 0)) by lia. pose proof (Z.div_mod (s - 1) 65535). lia.
Qed.

Lemma ones_sum_add s t : 0 <= s -> 0 <= t -> ones_sum (ones_sum s + t) = ones_sum (s + t).
Proof.
  intros Hs Ht. destruct (Z.eq_dec s 0) as [-> | Hne]; [done |].
  destruct (ones_sum_split s) as [k Hk]; [lia |].
  pose proof (ones_sum_range s). pose proof (ones_sum_zero s Hs).
  apply ones_sum_cong with (- k); lia.
Qed.

Lemma ones_sum_full s : 0 <= s -> ones_sum s = 65535 <-> 0 < s /\ s mod 65535 = 0.
Proof.
  intros. unfold ones_sum. if_case; bool_cases; [lia |].
  split.
  - intros Hm. split; [lia |]. apply Z.mod_divide; [lia |].
    exists ((s - 1) / 65535 + 1). pose proof (Z.div_mod (s - 1) 65535). lia.
  - intros [_ [k ->]%Z.mod_divide]; [| lia].
    replace (k * 65535 - 1) with (65534 + (k - 1) * 65535) by lia.
    rewrite Z.mod_add by lia. done.
Qed.

(** One round of carry folding keeps the representative. *)
Lemma fold_round s :
  65536 <= s < 2 ^ 32 ->
  let s' := u32 (Z.land s 65535 + Z.shiftr s 16) in
  ones_sum s' = ones_sum s /\ 0 < s' <= 131070 /\ (s <= 131070 -> s' <= 65535).
Proof.
  intros Hs. cbn zeta.
  assert (Z.land s 65535 = s mod 65536) as -> by (apply (land_low_mask s 16); lia).
  rewrite Z.shiftr_div_pow2 by lia. change (2 ^ 16) with 65536. pose proof (Z.div_mod s 65536).
  pose proof (Z.mod_pos_bound s 65536).
  assert (1 <= s / 65536 < 65536) by
    (split; [apply Z.div_le_lower_bound | apply Z.div_lt_upper_bound]; lia).
  rewrite u32_small by lia. split_and!; [| lia | lia |].
  - apply ones_sum_cong with (- (s / 65536)); lia.
  - intros. assert (s / 65536 = 1); [| lia].
    assert (s / 65536 < 2) by (apply Z.div_lt_upper_bound; lia). lia.
Qed.

Lemma fold_loop_done fuel s : 0 <= s < 65536 -> fold_loop fuel s = Some s.
Proof.
  intros. destruct fuel; cbn [fold_loop];
    rewrite Z.shiftr_div_pow2, Z.div_small by lia; done.
Qed.

Lemma fold_loop_step fuel s :
  65536 <= s -> fold_loop (S fuel) s = fold_loop fuel (u32 (Z.land s 65535 + Z.shiftr s 16)).
Proof.
  intros. cbn [fold_loop]. rewrite (proj2 (Z.eqb_neq _ 0)); [done |].
  rewrite Z.shiftr_div_pow2 by lia.
  assert (1 <= s / 2 ^ 16) by (apply Z.div_le_lower_bound; lia). lia.
Qed.

(** The fuel of [fold_carries] is enough for every 32-bit sum. *)
Lemma fold_loop_spec s : 0 <= s < 2 ^ 32 -> fold_carries s = Some (ones_sum s).
Proof.
  intros Hs. unfold fold_carries.
  destruct (Z.ltb_spec s 65536).
  { rewrite fold_loop_done by lia. by rewrite ones_sum_small by lia. }
  destruct (fold_round s) as (E1 & B1 & _); [lia |]. cbn zeta in *.
  rewrite fold_loop_step by lia. revert E1 B1.
  generalize (u32 (Z.land s 65535 + Z.shiftr s 16)) as s1. intros s1 E1 B1.
  destruct (Z.ltb_spec s1 65536).
  { rewrite fold_loop_done by lia. rewrite <- E1. by rewrite ones_sum_small by lia. }
  destruct (fold_round s1) as (E2 & B2 & B2'); [lia |]. cbn zeta in *.
  rewrite fold_loop_step by lia. rewrite fold_loop_done by lia.
  rewrite <- E1, <- E2. by rewrite ones_sum_small by lia.
Qed.

Lemma checksum_add_spec sum data n :
  bytes_ok data -> 0 <= n <= zlen data -> n <= 131070 -> 0 <= sum <= 65535 ->
  checksum_add sum data n = Some (ones_sum (sum + sum16 (slice data 0 n))).
Proof.
  intros Hb Hn Hmax Hs. unfold checksum_add.
  pose proof (sum16_bounds (slice data 0 n) (bytes_ok_slice _ _ _ Hb)) as HB.
  rewrite zlen_slice in HB by lia.
  assert ((n + 1) / 2 < 65536) by (apply Z.div_lt_upper_bound; lia).
  rewrite sum_loop_spec; rewrite ?Z2Nat.id by lia; [| done | lia..].
  obind. rewrite fold_loop_spec; [done | lia].
Qed.

Lemma checksum_finish_spec s : 0 <= s <= 65535 -> checksum_finish s = Some (65535 - s).
Proof.
  intros. unfold checksum_finish. rewrite fold_loop_spec by lia. obind.
  rewrite ones_sum_small by lia. f_equal. unfold not32, u32, u16.
  assert (Z.lnot s mod 2 ^ 32 = 2 ^ 32 - 1 - s) as ->
    by (symmetry; apply Z.mod_unique with (-1); unfold Z.lnot; lia).
  symmetry. apply Z.mod_unique with 65535; lia.
Qed.

Lemma net_checksum_spec data n :
  bytes_ok data -> 0 <= n <= zlen data -> n <= 131070 ->
  josh_net_checksum (Some data) n = Some (65535 - ones_sum (sum16 (slice data 0 n))).
Proof.
  intros. unfold josh_net_checksum. rewrite checksum_add_spec by (done || lia). obind.
  rewrite checksum_finish_spec by apply ones_sum_range. done.
Qed.

(** ** Storing a checksum *)

Lemma even_slice_len {A} (l : list A) d :
  0 <= d <= zlen l -> d mod 2 = 0 -> zlen (slice l 0 d) mod 2 = 0.
Proof. intros. by rewrite zlen_slice by lia. Qed.

Lemma sum16_pair bs : zlen bs = 2 -> sum16 bs = be_val bs.
Proof.
  destruct bs as [| a [| b [|]]]; intros H; try (unfold zlen in H; cbn in H; lia).
  cbn. lia.
Qed.

(** The sum around one aligned word. *)
Lemma sum16_word data d n :
  0 <= d -> d mod 2 = 0 -> d + 2 <= n -> n <= zlen data ->
  sum16 (slice data 0 n) =
  sum16 (slice data 0 d) + be_val (slice data d 2) + sum16 (slice data (d + 2) (n - d - 2)).
Proof.
  intros. replace n with (d + (2 + (n - d - 2))) at 1 by lia.
  rewrite slice_cat by lia. rewrite sum16_app by (apply even_slice_len; [lia | done]).
  rewrite slice_cat by lia. rewrite sum16_app by (by rewrite zlen_slice by lia).
  rewrite (sum16_pair (slice data (0 + d) 2)) by (apply zlen_slice; lia).
  rewrite Z.add_0_l. lia.
Qed.

Lemma sum16_blit_word data d n bs :
  0 <= d -> d mod 2 = 0 -> d + 2 <= n -> n <= zlen data -> zlen bs = 2 ->
  sum16 (slice (blit data d bs) 0 n) =
  sum16 (slice data 0 n) - be_val (slice data d 2) + be_val bs.
Proof.
  intros. assert (zlen (blit data d bs) = zlen data) as HL by (apply zlen_blit; lia).
  rewrite (sum16_word (blit data d bs) d n), (sum16_word data d n) by lia.
  rewrite slice_blit_same by lia. rewrite !slice_blit_disjoint by lia. lia.
Qed.

(** Filling a zero word with the checksum makes the sum all ones. *)
Lemma checksum_stored data d n :
  bytes_ok data -> 0 <= d -> d mod 2 = 0 -> d + 2 <= n -> n <= zlen data ->
  be_val (slice data d 2) = 0 ->
  ones_sum (sum16 (slice (blit data d (be16 (65535 - ones_sum (sum16 (slice data 0 n))))) 0 n))
  = 65535.
Proof.
  intros Hb Hd He Hn Hl Hz. rewrite sum16_blit_word by (done || lia). rewrite Hz.
  pose proof (ones_sum_range (sum16 (slice data 0 n))) as HR.
  rewrite be_val_be16 by lia.
  pose proof (sum16_bounds (slice data 0 n) (bytes_ok_slice _ _ _ Hb)) as HS.
  revert HR HS. generalize (sum16 (slice data 0 n)) as s. intros s HR HS.
  pose proof (ones_sum_zero s ltac:(lia)). apply ones_sum_full; [lia |].
  destruct (Z.eq_dec s 0) as [-> | Hne]; [done |]. split; [lia |].
  destruct (ones_sum_split s) as [k Hk]; [lia |].
  replace (s - 0 + (65535 - ones_sum s)) with ((k + 1) * 65535) by lia.
  apply Z.mod_mul. lia.
Qed.

(** ** Specification of the parsers and builders *)

(** The arrays of the output structures have their declared sizes. *)
Definition eth_out_ok (o : josh_eth_frame_t) : Prop :=
  zlen (eth_destination o) = 6 /\ zlen (eth_source o) = 6.
Definition arp_out_ok (o : josh_arp_packet_t) : Prop :=
  zlen (arp_sender_mac o) = 6 /\ zlen (arp_sender_ip o) = 4 /\
  zlen (arp_target_mac o) = 6 /\ zlen (arp_target_ip o) = 4.
Definition ip_out_ok (o : josh_ipv4_packet_t) : Prop :=
  zlen (ip_source o) = 4 /\ zlen (ip_destination o) = 4.

(** A packet: bytes, with the length the caller claims inside it. *)
Definition packet_ok (p : list Z) (length : Z) : Prop :=
  bytes_ok p /\ 0 <= length <= zlen p /\ zlen p < 2 ^ 64.

(** A payload argument: the null pointer with length 0, or bytes. *)
Definition payload_ok (payload : option (list Z)) (n : Z) : Prop :=
  match payload with
  | None => n = 0
  | Some l => bytes_ok l /\ 0 <= n <= zlen l
  end.

(** A MAC or IP address argument. *)
Definition array_ok (l : list Z) (n : Z) : Prop := bytes_ok l /\ zlen l = n.

Definition payload_bytes (payload : option (list Z)) (n : Z) : list Z :=
  slice (default [] payload) 0 n.

Lemma payload_ok_missing payload n : payload_ok payload n -> payload_missing payload n = false.
Proof. destruct payload; [done |]. by intros ->. Qed.

Lemma zlen_payload_bytes payload n : payload_ok payload n -> zlen (payload_bytes payload n) = n.
Proof.
  unfold payload_bytes. destruct payload as [l |].
  - intros [_ ?]. apply (zlen_slice l); lia.
  - by intros ->.
Qed.

Lemma bytes_ok_payload payload n : payload_ok payload n -> bytes_ok (payload_bytes payload n).
Proof.
  unfold payload_bytes. destruct payload.
  - intros [? _]. by apply bytes_ok_slice.
  - intros _. apply bytes_ok_slice. constructor.
Qed.

Lemma payload_ok_nonneg payload n : payload_ok payload n -> 0 <= n.
Proof. destruct payload; [intros [_ ?]; lia | intros ->; lia]. Qed.

Lemma copy_payload_spec p o payload n :
  payload_ok payload n -> 0 <= o -> o + n <= zlen p ->
  copy_payload p o payload n = Some (blit p o (payload_bytes payload n)).
Proof.
  intros Hp Ho Hl. unfold copy_payload. if_case; bool_cases.
  - subst. change (payload_bytes payload 0) with (@nil Z). by rewrite blit_nil.
  - destruct payload as [l |]; [| done]. destruct Hp as [_ Hn]. obind.
    rewrite copy_bytes_spec by lia. done.
Qed.

(** Appending to the bytes already written at the start of a buffer. *)
Ltac solve_len :=
  rewrite ?zlen_app, ?zlen_cons, ?zlen_nil, ?zlen_be16, ?zlen_be32; try done; try lia.

Lemma blit_append {A} (buf pre bs : list A) o :
  o = zlen pre -> o + zlen bs <= zlen buf ->
  blit (blit buf 0 pre) o bs = blit buf 0 (pre ++ bs) /\ zlen (blit buf 0 pre) = zlen buf.
Proof.
  intros -> H. pose proof (zlen_nonneg bs). pose proof (zlen_nonneg pre).
  split; [apply blit_blit | apply zlen_blit]; lia.
Qed.

Lemma put8 (buf pre : list Z) o b :
  o = zlen pre -> o + 1 <= zlen buf ->
  wr (blit buf 0 pre) o b = Some (blit buf 0 (pre ++ [b])).
Proof.
  intros Ho H. destruct (blit_append buf pre [b] o) as [<- HL]; [done | done |].
  pose proof (zlen_nonneg pre). apply wr_blit. lia.
Qed.

Lemma put16 (buf pre : list Z) o v :
  o = zlen pre -> o + 2 <= zlen buf ->
  write_be16 (blit buf 0 pre) o v = Some (blit buf 0 (pre ++ be16 v)).
Proof.
  intros Ho H. destruct (blit_append buf pre (be16 v) o) as [<- HL]; [done | done |].
  pose proof (zlen_nonneg pre). apply write_be16_spec; lia.
Qed.

Lemma put_array (buf pre : list Z) o src n :
  o = zlen pre -> zlen src = n -> o + n <= zlen buf ->
  copy_bytes (blit buf 0 pre) o src 0 n = Some (blit buf 0 (pre ++ src)).
Proof.
  intros Ho Hs H. destruct (blit_append buf pre src o) as [<- HL]; [done | lia |].
  pose proof (zlen_nonneg pre). pose proof (zlen_nonneg src).
  rewrite copy_bytes_spec by lia. by rewrite slice_all.
Qed.

Lemma put_payload (buf pre : list Z) o payload n :
  o = zlen pre -> payload_ok payload n -> o + n <= zlen buf ->
  copy_payload (blit buf 0 pre) o payload n =
  Some (blit buf 0 (pre ++ payload_bytes payload n)).
Proof.
  intros Ho Hp H. pose proof (zlen_payload_bytes _ _ Hp).
  destruct (blit_append buf pre (payload_bytes payload n) o) as [<- HL]; [done | lia |].
  pose proof (zlen_nonneg pre). apply copy_payload_spec; [done | lia | lia].
Qed.

Ltac put :=
  first [ rewrite put8 by solve_len | rewrite put16 by solve_len
        | rewrite put_array by solve_len
        | rewrite put_payload by solve_len ]; obind.

(** A well-sized address is a literal list. *)
Lemma array_6 (l : list Z) : zlen l = 6 -> exists a b c d e f, l = [a; b; c; d; e; f].
Proof.
  destruct l as [| a [| b [| c [| d [| e [| f [|]]]]]]]; intros H; try (unfold zlen in H; cbn in H; lia).
  by eexists _, _, _, _, _, _.
Qed.

Lemma array_4 (l : list Z) : zlen l = 4 -> exists a b c d, l = [a; b; c; d].
Proof.
  destruct l as [| a [| b [| c [| d [|]]]]]; intros H; try (unfold zlen in H; cbn in H; lia).
  by eexists _, _, _, _.
Qed.

Lemma eth_parse_spec p n out :
  packet_ok p n -> eth_out_ok out ->
  josh_eth_parse (Some p) n (Some out) =
  if n <? 14 then Some (JOSH_NET_ERR_TRUNCATED, Some out)
  else Some (JOSH_NET_OK,
             Some (mk_eth_frame (slice p 0 6) (slice p 6 6) (be_val (slice p 12 2))
                     (drop 14 p) (n - 14))).
Proof.
  intros (Hb & Hn & Hmax) (Hd & Hs). unfold josh_eth_parse. if_case; [done |]. bool_cases.
  rewrite copy_array_spec by lia. obind. rewrite copy_array_spec by lia. obind.
  destruct (read_be16_spec p 12) as [-> _]; [done | lia.. |]. obind.
  rewrite padd_Some by lia. obind. by rewrite u64_small by lia.
Qed.

(** The bytes [josh_eth_build] produces. *)
Definition eth_bytes (destination source : list Z) (ethertype : Z) (payload : list Z) : list Z :=
  destination ++ source ++ be16 ethertype ++ payload.

Lemma eth_build_spec buf capacity dst src ethertype payload n :
  0 <= capacity <= zlen buf -> zlen buf < 2 ^ 64 -> zlen dst = 6 -> zlen src = 6 ->
  payload_ok payload n ->
  josh_eth_build (Some buf) capacity (Some dst) (Some src) ethertype payload n =
  if capacity <? 14 + n then Some (0, Some buf)
  else Some (14 + n, Some (blit buf 0 (eth_bytes dst src ethertype (payload_bytes payload n)))).
Proof.
  intros Hc Hmax Hd Hs Hp. unfold josh_eth_build. rewrite (payload_ok_missing _ _ Hp).
  pose proof (payload_ok_nonneg _ _ Hp). pose proof (zlen_payload_bytes _ _ Hp) as HP.
  destruct (Z.ltb_spec capacity (14 + n)).
  { destruct (Z.ltb_spec capacity n); [done |]. cbn [orb].
    rewrite u64_small by lia. by rewrite (proj2 (Z.ltb_lt _ _)) by lia. }
  rewrite (proj2 (Z.ltb_ge capacity n)) by lia. cbn [orb].
  rewrite u64_small by lia. rewrite (proj2 (Z.ltb_ge _ _)) by lia.
  rewrite <- (blit_nil buf 0) at 1. do 4 put.
  unfold eth_bytes. rewrite app_nil_l, <- !app_assoc. by rewrite u64_small by lia.
Qed.

(** ** What the parsers accept *)

Definition byte_at (p : list Z) (i : Z) : Z := default 0 (rd p i).
Definition word_at (p : list Z) (i : Z) : Z := be_val (slice p i 2).

Definition arp_supported (p : list Z) : Prop :=
  word_at p 0 = 1 /\ word_at p 2 = JOSH_NET_ETHERTYPE_IPV4 /\
  byte_at p 4 = 6 /\ byte_at p 5 = 4.

(** A complete IPv4 header with a correct checksum, and a total length
    between the header and the bytes received. *)
Definition ipv4_valid (p : list Z) (n : Z) : Prop :=
  20 <= n /\ byte_at p 0 / 16 = 4 /\ 5 <= byte_at p 0 mod 16 /\
  4 * (byte_at p 0 mod 16) <= word_at p 2 <= n /\
  ones_sum (sum16 (slice p 0 (4 * (byte_at p 0 mod 16)))) = 65535.

Definition udp_valid (p : list Z) (n : Z) : Prop := 8 <= n /\ 8 <= word_at p 4 <= n.

Definition tcp_valid (p : list Z) (n : Z) : Prop :=
  20 <= n /\ 20 <= 4 * (byte_at p 12 / 16) <= n.

Lemma byte_at_spec p i :
  bytes_ok p -> 0 <= i < zlen p -> rd p i = Some (byte_at p i) /\ 0 <= byte_at p i < 256.
Proof.
  intros Hb Hi. destruct (rd_in_range p i Hi) as [b E]. unfold byte_at. rewrite E.
  split; [done |]. by apply (bytes_ok_rd p i).
Qed.

Lemma word_at_spec p i :
  bytes_ok p -> 0 <= i -> i + 2 <= zlen p ->
  read_be16 p i = Some (word_at p i) /\ 0 <= word_at p i < 65536.
Proof. apply read_be16_spec. Qed.

(** Steps a parser over the next byte or word it reads. *)
Ltac parse_step :=
  let E := fresh "E" in
  let B := fresh "B" in
  lazymatch goal with
  | |- context [?e ≫= _] =>
      lazymatch e with
      | rd ?p ?i => destruct (byte_at_spec p i) as [E B]; [done | lia |]; rewrite E
      | read_be16 ?p ?i =>
          destruct (word_at_spec p i) as [E B]; [done | lia.. |]; rewrite E
      | read_be32 ?p ?i =>
          destruct (read_be32_spec p i) as [E B]; [done | lia.. |]; rewrite E
      | copy_bytes _ _ _ _ _ => rewrite copy_array_spec by lia
      | padd _ _ => rewrite padd_Some by lia
      end
  end; obind; try clear E.

(** Splits a guard that held. *)
Ltac or_true :=
  match goal with
  | H : _ || _ = true |- _ => apply orb_true_iff in H as [H | H]; bool_cases
  end.

Lemma arp_parse_spec p n out :
  packet_ok p n -> arp_out_ok out ->
  exists st out',
    josh_arp_parse (Some p) n (Some out) = Some (st, Some out') /\
    (st = JOSH_NET_OK <-> 28 <= n /\ arp_supported p /\ (word_at p 6 = 1 \/ word_at p 6 = 2)) /\
    (st = JOSH_NET_OK -> out' = mk_arp_packet (word_at p 6) (slice p 8 6) (slice p 14 4)
                                  (slice p 18 6) (slice p 24 4)).
Proof.
  intros (Hb & Hn & Hmax) (H1 & H2 & H3 & H4). unfold josh_arp_parse, arp_supported.
  if_case; bool_cases; [eexists _, _; split; [done |]; split; [| done]; split; [done | lia] |].
  do 4 parse_step. if_case.
  { eexists _, _; split; [done |]; split; [| done]; split; [done |].
    intros (_ & (A1 & A2 & A3 & A4) & _). by rewrite A1, A2, A3, A4 in E0. }
  bool_cases. parse_step. if_case; bool_cases.
  { eexists _, _; split; [done |]; split; [| done]; split; [done |]. lia. }
  cbn [arp_sender_mac arp_sender_ip arp_target_mac arp_target_ip]. do 4 parse_step.
  eexists _, _; split; [done |]; split; [| done]. split; [| done]. intros _.
  split_and!; try done. match goal with H : _ && _ = false |- _ => revert H end.
  intros [?|?]%andb_false_iff; bool_cases; tauto.
Qed.

Lemma udp_parse_spec p n out :
  packet_ok p n ->
  exists st out',
    josh_udp_parse (Some p) n (Some out) = Some (st, Some out') /\
    (st = JOSH_NET_OK <-> udp_valid p n) /\
    (st = JOSH_NET_OK -> out' = mk_udp_packet (word_at p 0) (word_at p 2) (word_at p 6)
                                  (drop 8 p) (word_at p 4 - 8)).
Proof.
  intros (Hb & Hn & Hmax). unfold josh_udp_parse, udp_valid.
  if_case; bool_cases; [eexists _, _; split; [done |]; split; [| done]; split; [done | lia] |].
  parse_step. if_case.
  { eexists _, _; split; [done |]; split; [| done]; split; [done |].
    or_true; lia. }
  bool_cases. do 4 parse_step. no_wrap.
  eexists _, _; split; [done |]; split; [split; [lia | done] | done].
Qed.

Lemma tcp_parse_spec p n out :
  packet_ok p n ->
  exists st out',
    josh_tcp_parse (Some p) n (Some out) = Some (st, Some out') /\
    (st = JOSH_NET_OK <-> tcp_valid p n) /\
    (st = JOSH_NET_OK ->
       let h := 4 * (byte_at p 12 / 16) in
       out' = mk_tcp_segment (word_at p 0) (word_at p 2) (be_val (slice p 4 4))
                (be_val (slice p 8 4)) (byte_at p 13) (word_at p 14) (word_at p 16)
                (drop (Z.to_nat h) p) (n - h) h).
Proof.
  intros (Hb & Hn & Hmax). unfold josh_tcp_parse, tcp_valid.
  if_case; bool_cases; [eexists _, _; split; [done |]; split; [| done]; split; [done | lia] |].
  parse_step. rewrite Z.shiftr_div_pow2 by lia. change (2 ^ 4) with 16.
  assert (0 <= byte_at p 12 / 16 < 16)
    by (split; [apply Z.div_pos | apply Z.div_lt_upper_bound]; lia).
  rewrite (u64_small (_ * 4)) by lia. rewrite (Z.mul_comm _ 4). if_case.
  { eexists _, _; split; [done |]; split; [| done]; split; [done |].
    or_true; lia. }
  bool_cases. do 8 parse_step. no_wrap.
  eexists _, _; split; [done |]; split; [split; [lia | done] | done].
Qed.

Lemma ipv4_parse_spec p n out :
  packet_ok p n -> ip_out_ok out ->
  exists st out',
    josh_ipv4_parse (Some p) n (Some out) = Some (st, Some out') /\
    (st = JOSH_NET_OK <-> ipv4_valid p n) /\ (st <> JOSH_NET_OK -> out' = out) /\
    (st = JOSH_NET_OK ->
       let h := 4 * (byte_at p 0 mod 16) in
       out' = mk_ipv4_packet (byte_at p 1) (word_at p 4) (word_at p 6) (byte_at p 8)
                (byte_at p 9) (slice p 12 4) (slice p 16 4)
                (drop (Z.to_nat h) p) (word_at p 2 - h) h).
Proof.
  intros (Hb & Hn & Hmax) (Hs & Hd). unfold josh_ipv4_parse, ipv4_valid.
  if_case; bool_cases; [eexists _, _; split; [done |]; split_and!; [split; [done | lia] | done | done] |].
  parse_step. rewrite Z.shiftr_div_pow2 by lia. change (2 ^ 4) with 16.
  change 15 with (2 ^ 4 - 1). rewrite land_low_mask by lia. change (2 ^ 4) with 16.
  assert (0 <= byte_at p 0 / 16 < 16)
    by (split; [apply Z.div_pos | apply Z.div_lt_upper_bound]; lia).
  pose proof (Z.mod_pos_bound (byte_at p 0) 16 ltac:(lia)).
  rewrite !(u8_small (_ / 16)), !(u8_small (_ mod 16)) by lia.
  rewrite (u64_small (_ * 4)) by lia. rewrite (Z.mul_comm _ 4). if_case.
  { eexists _, _; split; [done |]; split_and!; [split; [done |] | done | done].
    or_true; lia. }
  bool_cases. if_case; bool_cases.
  { pose proof (word_at_spec p 2 Hb) as [_ ?]; [lia.. |].
    eexists _, _; split; [done |]; split_and!; [split; [done | lia] | done | done]. }
  parse_step. if_case.
  { eexists _, _; split; [done |]; split_and!; [split; [done |] | done | done].
    or_true; lia. }
  bool_cases. rewrite net_checksum_spec by (done || lia). obind.
  pose proof (ones_sum_range (sum16 (slice p 0 (4 * (byte_at p 0 mod 16))))).
  if_case; bool_cases.
  { eexists _, _; split; [done |]; split_and!; [split; [done | lia] | done | done]. }
  do 8 parse_step. no_wrap.
  eexists _, _; split; [done |]; split_and!; [split; [lia | done] | done | done].
Qed.

(** ** What the builders write *)

Definition arp_bytes (operation : Z) (sender_mac sender_ip target_mac target_ip : list Z) :
    list Z :=
  be16 1 ++ be16 JOSH_NET_ETHERTYPE_IPV4 ++ [6; 4] ++ be16 operation ++
  sender_mac ++ sender_ip ++ target_mac ++ target_ip.

Lemma arp_build_spec buf capacity operation smac sip tmac tip :
  0 <= capacity <= zlen buf ->
  zlen smac = 6 -> zlen sip = 4 -> zlen tmac = 6 -> zlen tip = 4 ->
  josh_arp_build_ethernet_ipv4 (Some buf) capacity operation
    (Some smac) (Some sip) (Some tmac) (Some tip) =
  if (capacity <? 28) || (negb (operation =? 1) && negb (operation =? 2))
  then Some (0, Some buf)
  else Some (28, Some (blit buf 0 (arp_bytes operation smac sip tmac tip))).
Proof.
  intros. unfold josh_arp_build_ethernet_ipv4. if_case; [done |].
  apply orb_false_iff in E as [E _]. bool_cases.
  rewrite <- (blit_nil buf 0) at 1. do 9 put.
  unfold arp_bytes. rewrite app_nil_l, <- !app_assoc. done.
Qed.

(** Overwriting inside the bytes already written. *)
Lemma blit_patch (buf pre bs : list Z) o :
  0 <= o -> o + zlen bs <= zlen pre -> zlen pre <= zlen buf ->
  blit (blit buf 0 pre) o bs = blit buf 0 (blit pre o bs) /\ zlen (blit buf 0 pre) = zlen buf.
Proof.
  intros. pose proof (zlen_nonneg bs).
  assert (zlen (blit buf 0 pre) = zlen buf) as HL by (apply zlen_blit; lia).
  assert (zlen (blit pre o bs) = zlen pre) as HP by (apply zlen_blit; lia).
  split; [| done].
  apply rd_ext; rewrite ?zlen_blit by lia; [done |]. intros i Hi.
  destruct (decide (i < zlen pre)).
  - rewrite (rd_blit_in buf 0 (blit pre o bs)) by lia. rewrite Z.sub_0_r.
    destruct (decide (o <= i < o + zlen bs)).
    + by rewrite !rd_blit_in by lia.
    + rewrite (rd_blit_out (blit buf 0 pre)), (rd_blit_out pre), (rd_blit_in buf) by lia.
      by rewrite Z.sub_0_r.
  - by rewrite !rd_blit_out by lia.
Qed.

Lemma patch8 (buf pre : list Z) n o b :
  zlen pre = n -> 0 <= o -> o + 1 <= n -> n <= zlen buf ->
  wr (blit buf 0 pre) o b = Some (blit buf 0 (blit pre o [b])) /\ zlen (blit pre o [b]) = n.
Proof.
  intros <- ???. destruct (blit_patch buf pre [b] o) as [<- HL]; [done.. |].
  split; [apply wr_blit; lia | by apply zlen_blit].
Qed.

Lemma patch16 (buf pre : list Z) n o v :
  zlen pre = n -> 0 <= o -> o + 2 <= n -> n <= zlen buf ->
  write_be16 (blit buf 0 pre) o v = Some (blit buf 0 (blit pre o (be16 v))) /\
  zlen (blit pre o (be16 v)) = n.
Proof.
  intros <- ???. destruct (blit_patch buf pre (be16 v) o) as [<- HL]; [done.. |].
  split; [apply write_be16_spec; lia | by apply zlen_blit].
Qed.

Lemma patch_array (buf pre : list Z) n o src m :
  zlen pre = n -> 0 <= o -> zlen src = m -> o + m <= n -> n <= zlen buf ->
  copy_bytes (blit buf 0 pre) o src 0 m = Some (blit buf 0 (blit pre o src)) /\
  zlen (blit pre o src) = n.
Proof.
  intros <- Ho Hs Hl Hp. pose proof (zlen_nonneg src).
  destruct (blit_patch buf pre src o) as [<- HL]; [lia.. |].
  split; [| apply zlen_blit; lia]. rewrite copy_bytes_spec by lia. by rewrite slice_all.
Qed.

(** The next write inside the bytes whose length [HL] states. *)
Ltac patch HL :=
  let E := fresh "E" in
  let HL' := fresh HL in
  lazymatch type of HL with
  | zlen ?pre = _ =>
      lazymatch goal with
      | |- context [wr (blit ?buf 0 pre) ?o ?b] =>
          destruct (patch8 buf pre _ o b HL) as [E HL']; [lia.. |]
      | |- context [write_be16 (blit ?buf 0 pre) ?o ?v] =>
          destruct (patch16 buf pre _ o v HL) as [E HL']; [lia.. |]
      | |- context [copy_bytes (blit ?buf 0 pre) ?o ?src 0 ?m] =>
          destruct (patch_array buf pre _ o src m HL) as [E HL']; [lia.. |]
      end
  end; rewrite E; obind; clear E HL; rename HL' into HL.

Definition ip_header (total identification ttl protocol checksum : Z)
    (source destination : list Z) : list Z :=
  [69; 0] ++ be16 total ++ be16 identification ++ be16 16384 ++ [ttl; protocol] ++
  be16 checksum ++ source ++ destination.

Definition ip_checksum (total identification ttl protocol : Z) (source destination : list Z) : Z :=
  65535 - ones_sum (sum16 (ip_header total identification ttl protocol 0 source destination)).

Definition ip_bytes (identification ttl protocol : Z) (source destination payload : list Z) :
    list Z :=
  let total := 20 + zlen payload in
  ip_header total identification ttl protocol
    (ip_checksum total identification ttl protocol source destination)
    source destination ++ payload.

Lemma zlen_ip_header total id ttl protocol checksum s d :
  zlen s = 4 -> zlen d = 4 -> zlen (ip_header total id ttl protocol checksum s d) = 20.
Proof. intros. unfold ip_header. solve_len. Qed.

Lemma bytes_ok_ip_header total id ttl protocol checksum s d :
  byte_ok ttl -> byte_ok protocol -> bytes_ok s -> bytes_ok d ->
  bytes_ok (ip_header total id ttl protocol checksum s d).
Proof.
  intros. unfold ip_header, bytes_ok. rewrite !Forall_app, !Forall_cons, !Forall_nil.
  split_and!; try apply bytes_ok_be16; done.
Qed.

(** The header after the writes, before the checksum is stored. *)
Lemma ip_header_writes total id ttl protocol s d :
  zlen s = 4 -> zlen d = 4 ->
  blit (blit (blit (blit (blit (blit (blit (blit (replicate 20 0) 0 [69]) 2 (be16 total))
    4 (be16 id)) 6 (be16 16384)) 8 [ttl]) 9 [protocol]) 12 s) 16 d =
  ip_header total id ttl protocol 0 s d.
Proof.
  intros (s0 & s1 & s2 & s3 & ->)%array_4 (d0 & d1 & d2 & d3 & ->)%array_4. reflexivity.
Qed.

Lemma ip_header_checksum total id ttl protocol s d c :
  zlen s = 4 -> zlen d = 4 ->
  blit (ip_header total id ttl protocol 0 s d) 10 (be16 c) =
  ip_header total id ttl protocol c s d.
Proof.
  intros (s0 & s1 & s2 & s3 & ->)%array_4 (d0 & d1 & d2 & d3 & ->)%array_4. reflexivity.
Qed.

Lemma ipv4_build_spec buf capacity protocol ttl id s d payload n :
  bytes_ok buf -> 0 <= capacity <= zlen buf -> zlen buf < 2 ^ 64 ->
  byte_ok ttl -> byte_ok protocol -> array_ok s 4 -> array_ok d 4 -> payload_ok payload n ->
  josh_ipv4_build (Some buf) capacity protocol ttl id (Some s) (Some d) payload n =
  if (65515 <? n) || (capacity <? 20 + n) then Some (0, Some buf)
  else Some (20 + n, Some (blit buf 0 (ip_bytes id ttl protocol s d (payload_bytes payload n)))).
Proof.
  intros Hb Hc Hmax Httl Hpr [Hsb Hs] [Hdb Hd] Hp. unfold josh_ipv4_build.
  rewrite (payload_ok_missing _ _ Hp).
  pose proof (payload_ok_nonneg _ _ Hp). pose proof (zlen_payload_bytes _ _ Hp) as HP.
  destruct (Z.ltb_spec 65515 n); [done |]. rewrite (u64_small (20 + n)) by lia.
  if_case; [done |]. bool_cases. rewrite zero_bytes_spec by lia. obind.
  pose proof (ip_header_writes (20 + n) id ttl protocol s d Hs Hd) as HW.
  pose proof (ip_header_checksum (20 + n) id ttl protocol s d
                (ip_checksum (20 + n) id ttl protocol s d) Hs Hd) as HC.
  pose proof (bytes_ok_ip_header (20 + n) id ttl protocol 0 s d Httl Hpr Hsb Hdb) as HO.
  pose proof (zlen_ip_header (20 + n) id ttl protocol 0 s d Hs Hd) as HL.
  rewrite u16_small by lia. change (replicate (Z.to_nat 20) 0) with (replicate 20 0).
  assert (zlen (replicate 20 0) = 20) as HZ by reflexivity.
  do 8 patch HZ. rewrite HW in *. clear HZ. rewrite net_checksum_spec; [| | rewrite zlen_blit; lia | lia].
  2: { by apply bytes_ok_blit. }
  obind. rewrite slice_blit_same by lia. patch HL.
  unfold ip_checksum in HC. rewrite HC in *. rewrite put_payload; [obind | | done | lia].
  2: { by rewrite zlen_ip_header. }
  unfold ip_bytes, ip_checksum. cbn zeta. by rewrite HP.
Qed.

(** The bytes of a UDP segment with a given checksum field. *)
Definition udp_segment (source_port destination_port checksum : Z) (payload : list Z) : list Z :=
  be16 source_port ++ be16 destination_port ++ be16 (8 + zlen payload) ++ be16 checksum ++ payload.

(** The sum over the pseudo header and the segment. *)
Definition pseudo_sum (source_ip destination_ip : list Z) (protocol : Z) (segment : list Z) : Z :=
  sum16 source_ip + sum16 destination_ip + (protocol + zlen segment) + sum16 segment.

Lemma transport_checksum_spec s d protocol seg n :
  array_ok s 4 -> array_ok d 4 -> byte_ok protocol -> bytes_ok seg -> 0 <= n <= zlen seg ->
  n <= 65535 ->
  transport_checksum_ipv4 s d protocol (Some seg) n =
  Some (65535 - ones_sum (pseudo_sum s d protocol (slice seg 0 n))).
Proof.
  intros [Hsb Hs] [Hdb Hd] Hpr Hb Hn Hmax. unfold transport_checksum_ipv4.
  assert (bytes_ok [0; protocol; u8 (Z.shiftr n 8); u8 n]) as Hps.
  { repeat (apply Forall_cons; split); try apply u8_range; try done. }
  assert (sum16 [0; protocol; u8 (Z.shiftr n 8); u8 n] = protocol + n) as Hsum.
  { pose proof (be_val_be16 n ltac:(lia)) as E. unfold be_val, be16 in E. cbn [foldl] in E.
    cbn [sum16]. lia. }
  pose proof (sum16_bounds s Hsb). pose proof (sum16_bounds d Hdb).
  pose proof (sum16_bounds (slice seg 0 n) (bytes_ok_slice _ _ _ Hb)).
  unfold byte_ok in Hpr.
  rewrite checksum_add_spec by (done || lia). obind. rewrite slice_all by lia.
  rewrite checksum_add_spec by (done || lia || apply ones_sum_range). obind.
  rewrite slice_all by lia. rewrite ones_sum_add by lia.
  rewrite checksum_add_spec by (done || lia || apply ones_sum_range). obind.
  rewrite slice_all by done. rewrite Hsum. rewrite ones_sum_add by lia.
  change (default [] (Some seg)) with seg. rewrite checksum_add_spec by (done || lia || apply ones_sum_range). obind.
  rewrite ones_sum_add by lia. rewrite checksum_finish_spec by apply ones_sum_range.
  unfold pseudo_sum. rewrite zlen_slice by lia. do 3 f_equal.
Qed.

Definition udp_field (s d : list Z) (source_port destination_port : Z) (payload : list Z) : Z :=
  let c := 65535 - ones_sum (pseudo_sum s d JOSH_NET_IP_UDP
                               (udp_segment source_port destination_port 0 payload)) in
  if c =? 0 then 65535 else c.

Lemma udp_field_range s d sp dp pl : 1 <= udp_field s d sp dp pl <= 65535.
Proof.
  unfold udp_field. cbn zeta. match goal with |- context [ones_sum ?x] =>
    pose proof (ones_sum_range x) end. if_case; bool_cases; lia.
Qed.

Lemma zlen_udp_segment sp dp c pl : zlen (udp_segment sp dp c pl) = 8 + zlen pl.
Proof. unfold udp_segment. solve_len. Qed.

Lemma bytes_ok_udp_segment sp dp c pl : bytes_ok pl -> bytes_ok (udp_segment sp dp c pl).
Proof.
  intros. unfold udp_segment, bytes_ok. rewrite !Forall_app.
  split_and!; try apply bytes_ok_be16; done.
Qed.

Lemma udp_segment_patch sp dp c pl :
  blit (udp_segment sp dp 0 pl) 6 (be16 c) = udp_segment sp dp c pl.
Proof. reflexivity. Qed.

Lemma sum16_udp_segment sp dp c pl :
  0 <= c < 65536 -> sum16 (udp_segment sp dp c pl) = sum16 (udp_segment sp dp 0 pl) + c.
Proof.
  intros Hc. unfold udp_segment. rewrite !(sum16_app (be16 _)) by done.
  rewrite !(sum16_pair (be16 _)) by done. rewrite (be_val_be16 c), (be_val_be16 0) by lia. lia.
Qed.

(** Adding the complement, or all ones in place of zero, gives all ones. *)
Lemma ones_sum_complement t :
  0 < t ->
  ones_sum (t + (let c := 65535 - ones_sum t in if c =? 0 then 65535 else c)) = 65535.
Proof.
  intros Ht. pose proof (ones_sum_range t). destruct (ones_sum_split t Ht) as [k Hk].
  cbn zeta. if_case; bool_cases; (apply ones_sum_full; [lia |]; split; [lia |]).
  - replace (t + 65535) with ((k + 2) * 65535) by lia. apply Z.mod_mul. lia.
  - replace (t + (65535 - ones_sum t)) with ((k + 1) * 65535) by lia. apply Z.mod_mul. lia.
Qed.

(** The segment with its checksum stored verifies. *)
Lemma udp_verifies s d sp dp pl :
  bytes_ok s -> bytes_ok d -> bytes_ok pl ->
  ones_sum (pseudo_sum s d JOSH_NET_IP_UDP
              (udp_segment sp dp (udp_field s d sp dp pl) pl)) = 65535.
Proof.
  intros Hs Hd Hp. pose proof (udp_field_range s d sp dp pl) as HF.
  pose proof (sum16_bounds s Hs). pose proof (sum16_bounds d Hd).
  pose proof (sum16_bounds _ (bytes_ok_udp_segment sp dp 0 pl Hp)). pose proof (zlen_nonneg pl).
  assert (0 < pseudo_sum s d JOSH_NET_IP_UDP (udp_segment sp dp 0 pl)) as Hpos.
  { unfold pseudo_sum. rewrite zlen_udp_segment. change JOSH_NET_IP_UDP with 17. lia. }
  etransitivity; [| exact (ones_sum_complement _ Hpos)]. f_equal.
  change (pseudo_sum s d JOSH_NET_IP_UDP (udp_segment sp dp (udp_field s d sp dp pl) pl) =
          pseudo_sum s d JOSH_NET_IP_UDP (udp_segment sp dp 0 pl) + udp_field s d sp dp pl).
  unfold pseudo_sum. rewrite !zlen_udp_segment, sum16_udp_segment by lia. lia.
Qed.

Lemma udp_build_spec buf capacity s d sp dp payload n :
  bytes_ok buf -> 0 <= capacity <= zlen buf -> zlen buf < 2 ^ 64 ->
  array_ok s 4 -> array_ok d 4 -> payload_ok payload n ->
  josh_udp_build_ipv4 (Some buf) capacity (Some s) (Some d) sp dp payload n =
  if (65527 <? n) || (capacity <? 8 + n) then Some (0, Some buf)
  else let pl := payload_bytes payload n in
       Some (8 + n, Some (blit buf 0 (udp_segment sp dp (udp_field s d sp dp pl) pl))).
Proof.
  intros Hb Hc Hmax Hs Hd Hp. unfold josh_udp_build_ipv4.
  rewrite (payload_ok_missing _ _ Hp).
  pose proof (payload_ok_nonneg _ _ Hp). pose proof (zlen_payload_bytes _ _ Hp) as HP.
  pose proof (bytes_ok_payload _ _ Hp) as HO.
  destruct (Z.ltb_spec 65527 n); [done |]. rewrite !(u64_small (8 + n)) by lia.
  if_case; [done |]. bool_cases. rewrite u16_small by lia.
  rewrite <- (blit_nil buf 0) at 1. do 5 put. rewrite app_nil_l, <- !app_assoc.
  assert (be16 sp ++ be16 dp ++ be16 (8 + n) ++ be16 0 ++ payload_bytes payload n =
          udp_segment sp dp 0 (payload_bytes payload n)) as ->
    by (unfold udp_segment; by rewrite HP).
  pose proof (zlen_udp_segment sp dp 0 (payload_bytes payload n)) as HL. rewrite HP in HL.
  unfold josh_udp_checksum_ipv4. cbn [payload_missing orb].
  rewrite (proj2 (Z.ltb_ge 65535 (8 + n))) by lia.
  rewrite transport_checksum_spec; [| done | done | done | | rewrite zlen_blit; lia | lia].
  2: { apply bytes_ok_blit; [done |]. by apply bytes_ok_udp_segment. }
  obind. rewrite slice_blit_same by lia. fold (udp_field s d sp dp (payload_bytes payload n)).
  patch HL. by rewrite udp_segment_patch.
Qed.

(** The echo reply to a request: type 0, a new checksum, the rest copied. *)
Definition icmp_reply_bytes (request : list Z) : list Z :=
  let blank := [0; 0; 0; 0] ++ drop 4 request in
  [0; 0] ++ be16 (65535 - ones_sum (sum16 blank)) ++ drop 4 request.

Definition icmp_request_valid (request : list Z) (n : Z) : Prop :=
  8 <= n /\ byte_at request 0 = 8 /\ byte_at request 1 = 0 /\
  ones_sum (sum16 (slice request 0 n)) = 65535.

Lemma split_4 (l : list Z) :
  4 <= zlen l -> exists a b c d r, l = a :: b :: c :: d :: r.
Proof.
  destruct l as [| a [| b [| c [| d r]]]]; intros H; try (unfold zlen in H; cbn in H; lia).
  by eexists _, _, _, _, _.
Qed.

(** The bytes of the reply after the request is copied and patched. *)
Lemma icmp_patches req :
  4 <= zlen req -> byte_at req 1 = 0 ->
  blit (blit (blit req 0 [0]) 2 [0]) 3 [0] = [0; 0; 0; 0] ++ drop 4 req.
Proof.
  intros (a & b & c & d & r & ->)%split_4 E. change (b = 0) in E. by subst.
Qed.

Lemma icmp_echo_reply_spec src n dst capacity len :
  packet_ok src n -> n <= 131070 -> bytes_ok dst -> 0 <= capacity <= zlen dst ->
  exists st dst' len',
    josh_icmp_echo_reply (Some src) n (Some dst) capacity (Some len) =
      Some (st, Some dst', Some len') /\
    (st = JOSH_NET_OK <-> icmp_request_valid src n /\ n <= capacity) /\
    (st = JOSH_NET_OK ->
       len' = n /\ dst' = blit dst 0 (icmp_reply_bytes (slice src 0 n))) /\
    (st <> JOSH_NET_OK -> dst' = dst /\ len' = len).
Proof.
  intros (Hb & Hn & Hmax) Hlim Hdb Hc. unfold josh_icmp_echo_reply, icmp_request_valid.
  if_case; bool_cases; [eexists _, _, _; split; [done |]; split_and!; [split; [done | lia] | done..] |].
  if_case; bool_cases; [eexists _, _, _; split; [done |]; split_and!; [split; [done | lia] | done..] |].
  do 2 parse_step. if_case.
  { eexists _, _, _; split; [done |]; split_and!; [split; [done |] | done..].
    or_true; lia. }
  bool_cases. rewrite net_checksum_spec by (done || lia). obind.
  pose proof (ones_sum_range (sum16 (slice src 0 n))). if_case; bool_cases.
  { eexists _, _, _; split; [done |]; split_and!; [split; [done | lia] | done..]. }
  rewrite copy_bytes_spec by lia. obind.
  pose proof (bytes_ok_slice src 0 n Hb) as HRB.
  assert (byte_at (slice src 0 n) 1 = 0) as HR1.
  { unfold byte_at. rewrite rd_slice by lia. by rewrite Z.add_0_l. }
  assert (zlen (slice src 0 n) = n) as HRL by (apply zlen_slice; lia).
  set (req := slice src 0 n) in *. pose proof HRL as HRL'. do 3 patch HRL'. clear HRL'.
  rewrite icmp_patches by (done || lia).
  assert (bytes_ok ([0; 0; 0; 0] ++ drop 4 req)) as HBB.
  { apply Forall_app. split; [by repeat constructor | by apply Forall_drop]. }
  assert (zlen ([0; 0; 0; 0] ++ drop 4 req) = n) as HBL.
  { rewrite zlen_app. change (drop 4 req) with (drop (Z.to_nat 4) req).
    rewrite zlen_drop by lia. change (zlen [0; 0; 0; 0]) with 4. lia. }
  rewrite net_checksum_spec; [| by apply bytes_ok_blit | rewrite zlen_blit; lia | lia]. obind.
  rewrite slice_blit_same by lia. patch HBL.
  eexists _, _, _; split; [done |]; split_and!; [split; [lia | done] | done | done].
Qed.


(** ** Parsing what was built

    A built packet in its buffer is the packet's bytes followed by [rest],
    whatever the buffer held there. *)

Lemma blit_start {A} (buf bs : list A) : blit buf 0 bs = bs ++ drop (length bs) buf.
Proof. reflexivity. Qed.

Lemma eth_parse_bytes d s et pl rest n out :
  array_ok d 6 -> array_ok s 6 -> 0 <= et < 65536 -> eth_out_ok out ->
  packet_ok (eth_bytes d s et pl ++ rest) n -> 14 <= n ->
  josh_eth_parse (Some (eth_bytes d s et pl ++ rest)) n (Some out) =
  Some (JOSH_NET_OK, Some (mk_eth_frame d s et (pl ++ rest) (n - 14))).
Proof.
  intros [_ Hd] [_ Hs] Het Hout Hp Hn. rewrite eth_parse_spec by done.
  rewrite (proj2 (Z.ltb_ge n 14)) by lia.
  destruct (array_6 d Hd) as (d0 & d1 & d2 & d3 & d4 & d5 & ->).
  destruct (array_6 s Hs) as (s0 & s1 & s2 & s3 & s4 & s5 & ->).
  match goal with |- context [be_val ?x] => change (be_val x) with (be_val (be16 et)) end.
  by rewrite be_val_be16.
Qed.

Lemma arp_parse_bytes op smac sip tmac tip rest n out :
  op = 1 \/ op = 2 -> zlen smac = 6 -> zlen sip = 4 -> zlen tmac = 6 -> zlen tip = 4 ->
  arp_out_ok out -> packet_ok (arp_bytes op smac sip tmac tip ++ rest) n -> 28 <= n ->
  josh_arp_parse (Some (arp_bytes op smac sip tmac tip ++ rest)) n (Some out) =
  Some (JOSH_NET_OK, Some (mk_arp_packet op smac sip tmac tip)).
Proof.
  intros Hop H1 H2 H3 H4 Hout Hp Hn.
  destruct (arp_parse_spec _ n out Hp Hout) as (st & out' & -> & Hst & Hok).
  destruct (array_6 _ H1) as (a0 & a1 & a2 & a3 & a4 & a5 & ->).
  destruct (array_4 _ H2) as (b0 & b1 & b2 & b3 & ->).
  destruct (array_6 _ H3) as (c0 & c1 & c2 & c3 & c4 & c5 & ->).
  destruct (array_4 _ H4) as (e0 & e1 & e2 & e3 & ->).
  assert (word_at (arp_bytes op [a0; a1; a2; a3; a4; a5] [b0; b1; b2; b3]
                     [c0; c1; c2; c3; c4; c5] [e0; e1; e2; e3] ++ rest) 6 = op) as Hw.
  { change (be_val (be16 op) = op). apply be_val_be16. lia. }
  assert (st = JOSH_NET_OK) as -> by (apply Hst; rewrite Hw; split_and!; done).
  rewrite Hok by done. by rewrite Hw.
Qed.

Lemma ip_header_verifies total id ttl pr s d :
  byte_ok ttl -> byte_ok pr -> array_ok s 4 -> array_ok d 4 ->
  ones_sum (sum16 (ip_header total id ttl pr (ip_checksum total id ttl pr s d) s d)) = 65535.
Proof.
  intros Httl Hpr [Hsb Hs] [Hdb Hd].
  pose proof (bytes_ok_ip_header total id ttl pr 0 s d Httl Hpr Hsb Hdb) as HB.
  pose proof (zlen_ip_header total id ttl pr 0 s d Hs Hd) as HL.
  pose proof (checksum_stored _ 10 20 HB ltac:(lia) eq_refl ltac:(lia) ltac:(lia) eq_refl) as H.
  rewrite (slice_all (ip_header total id ttl pr 0 s d)) in H by lia.
  rewrite ip_header_checksum in H by done. fold (ip_checksum total id ttl pr s d) in H.
  by rewrite slice_all in H by (by rewrite zlen_ip_header).
Qed.

Lemma ipv4_parse_bytes id ttl pr s d pl rest n out :
  0 <= id < 65536 -> byte_ok ttl -> byte_ok pr -> array_ok s 4 -> array_ok d 4 ->
  zlen pl <= 65515 -> ip_out_ok out ->
  packet_ok (ip_bytes id ttl pr s d pl ++ rest) n -> 20 + zlen pl <= n ->
  josh_ipv4_parse (Some (ip_bytes id ttl pr s d pl ++ rest)) n (Some out) =
  Some (JOSH_NET_OK,
        Some (mk_ipv4_packet 0 id 16384 ttl pr s d (pl ++ rest) (zlen pl) 20)).
Proof.
  intros Hid Httl Hpr Hs Hd Hpl Hout Hp Hn. pose proof (zlen_nonneg pl).
  pose proof (ip_header_verifies (20 + zlen pl) id ttl pr s d Httl Hpr Hs Hd) as HV.
  destruct (ipv4_parse_spec _ n out Hp Hout) as (st & out' & -> & Hst & _ & Hok).
  destruct Hs as [_ (s0 & s1 & s2 & s3 & ->)%array_4].
  destruct Hd as [_ (d0 & d1 & d2 & d3 & ->)%array_4].
  unfold ip_bytes in *. cbn zeta in *. set (c := ip_checksum _ _ _ _ _ _) in *.
  set (p := (ip_header _ _ _ _ _ _ _ ++ pl) ++ rest) in *.
  assert (word_at p 2 = 20 + zlen pl) as Ht.
  { change (be_val (be16 (20 + zlen pl)) = 20 + zlen pl). apply be_val_be16. lia. }
  assert (word_at p 4 = id) as Hi by (by apply be_val_be16).
  assert (word_at p 6 = 16384) as Hf by reflexivity.
  assert (st = JOSH_NET_OK) as ->.
  { apply Hst. unfold ipv4_valid. change (byte_at p 0) with 69.
    change (4 * (69 mod 16)) with 20. rewrite Ht.
    split_and!; [lia | done | done | lia | lia | exact HV]. }
  rewrite Hok by done. cbn zeta. change (byte_at p 0) with 69. rewrite Ht, Hi, Hf.
  change (4 * (69 mod 16)) with 20. replace (20 + zlen pl - 20) with (zlen pl) by lia.
  reflexivity.
Qed.

Lemma udp_parse_bytes sp dp c pl rest n out :
  0 <= sp < 65536 -> 0 <= dp < 65536 -> 0 <= c < 65536 -> zlen pl <= 65527 ->
  packet_ok (udp_segment sp dp c pl ++ rest) n -> 8 + zlen pl <= n ->
  josh_udp_parse (Some (udp_segment sp dp c pl ++ rest)) n (Some out) =
  Some (JOSH_NET_OK, Some (mk_udp_packet sp dp c (pl ++ rest) (zlen pl))).
Proof.
  intros Hsp Hdp Hc Hpl Hp Hn. pose proof (zlen_nonneg pl).
  destruct (udp_parse_spec _ n out Hp) as (st & out' & -> & Hst & Hok).
  set (p := udp_segment sp dp c pl ++ rest) in *.
  assert (word_at p 0 = sp) as H0 by (by apply be_val_be16).
  assert (word_at p 2 = dp) as H2 by (by apply be_val_be16).
  assert (word_at p 4 = 8 + zlen pl) as H4 by (apply be_val_be16; lia).
  assert (word_at p 6 = c) as H6 by (by apply be_val_be16).
  assert (st = JOSH_NET_OK) as -> by (apply Hst; unfold udp_valid; rewrite H4; lia).
  rewrite Hok by done. rewrite H0, H2, H4, H6.
  replace (8 + zlen pl - 8) with (zlen pl) by lia. reflexivity.
Qed.

(** ** Carrying one layer in the next *)

Lemma zlen_eth_bytes d s et pl :
  zlen d = 6 -> zlen s = 6 -> zlen (eth_bytes d s et pl) = 14 + zlen pl.
Proof. intros. unfold eth_bytes. solve_len. Qed.

Lemma bytes_ok_eth_bytes d s et pl :
  bytes_ok d -> bytes_ok s -> bytes_ok pl -> bytes_ok (eth_bytes d s et pl).
Proof.
  intros. unfold eth_bytes, bytes_ok. rewrite !Forall_app.
  split_and!; try apply bytes_ok_be16; done.
Qed.

Lemma zlen_arp_bytes op smac sip tmac tip :
  zlen smac = 6 -> zlen sip = 4 -> zlen tmac = 6 -> zlen tip = 4 ->
  zlen (arp_bytes op smac sip tmac tip) = 28.
Proof. intros. unfold arp_bytes. solve_len. Qed.

Lemma bytes_ok_arp_bytes op smac sip tmac tip :
  bytes_ok smac -> bytes_ok sip -> bytes_ok tmac -> bytes_ok tip ->
  bytes_ok (arp_bytes op smac sip tmac tip).
Proof.
  intros. unfold arp_bytes, bytes_ok. rewrite !Forall_app.
  split_and!; try apply bytes_ok_be16; try done. by repeat constructor.
Qed.

Lemma zlen_ip_bytes id ttl pr s d pl :
  zlen s = 4 -> zlen d = 4 -> zlen (ip_bytes id ttl pr s d pl) = 20 + zlen pl.
Proof. intros. unfold ip_bytes. cbn zeta. by rewrite zlen_app, zlen_ip_header. Qed.

Lemma bytes_ok_ip_bytes id ttl pr s d pl :
  byte_ok ttl -> byte_ok pr -> bytes_ok s -> bytes_ok d -> bytes_ok pl ->
  bytes_ok (ip_bytes id ttl pr s d pl).
Proof. intros. apply Forall_app. split; [by apply bytes_ok_ip_header | done]. Qed.

(** A packet at the start of a buffer is the payload argument of the next layer. *)
Lemma payload_ok_start buf pkt :
  bytes_ok buf -> bytes_ok pkt -> zlen pkt <= zlen buf ->
  payload_ok (Some (blit buf 0 pkt)) (zlen pkt) /\
  payload_bytes (Some (blit buf 0 pkt)) (zlen pkt) = pkt.
Proof.
  intros. pose proof (zlen_nonneg pkt). split.
  - split; [by apply bytes_ok_blit | rewrite zlen_blit; lia].
  - by apply (slice_blit_same buf 0 pkt).
Qed.

Lemma packet_ok_start buf pkt :
  bytes_ok buf -> bytes_ok pkt -> zlen pkt <= zlen buf -> zlen buf < 2 ^ 64 ->
  packet_ok (pkt ++ drop (length pkt) buf) (zlen pkt).
Proof.
  intros. rewrite <- blit_start. pose proof (zlen_nonneg pkt).
  split; [by apply bytes_ok_blit |]. rewrite zlen_blit; lia.
Qed.

(** The rest of the buffer after [h] bytes of header. *)
Lemma packet_ok_inner buf hdr pkt n :
  packet_ok ((hdr ++ pkt) ++ drop n buf) (zlen (hdr ++ pkt)) ->
  packet_ok (pkt ++ drop n buf) (zlen pkt).
Proof.
  intros (Hb & Hn & Hmax). unfold bytes_ok in Hb. rewrite !Forall_app in Hb.
  rewrite !zlen_app in *. pose proof (zlen_nonneg hdr). pose proof (zlen_nonneg pkt).
  pose proof (zlen_nonneg (drop n buf)).
  split; [apply Forall_app; tauto |]. rewrite !zlen_app. lia.
Qed.

Lemma eth_carry fbuf fcap dst src et pbuf pkt eth :
  bytes_ok fbuf -> 0 <= fcap <= zlen fbuf -> zlen fbuf < 2 ^ 64 ->
  array_ok dst 6 -> array_ok src 6 -> 0 <= et < 65536 -> eth_out_ok eth ->
  bytes_ok pbuf -> bytes_ok pkt -> zlen pkt <= zlen pbuf -> 14 + zlen pkt <= fcap ->
  let frame := eth_bytes dst src et pkt in
  josh_eth_build (Some fbuf) fcap (Some dst) (Some src) et
    (Some (blit pbuf 0 pkt)) (zlen pkt) = Some (14 + zlen pkt, Some (blit fbuf 0 frame)) /\
  josh_eth_parse (Some (blit fbuf 0 frame)) (14 + zlen pkt) (Some eth) =
    Some (JOSH_NET_OK,
          Some (mk_eth_frame dst src et (pkt ++ drop (length frame) fbuf) (zlen pkt))) /\
  packet_ok (pkt ++ drop (length frame) fbuf) (zlen pkt).
Proof.
  intros Hfb Hfc Hmax Hd Hs Het Heo Hpb Hkb Hpl Hcap frame. pose proof (zlen_nonneg pkt).
  destruct (payload_ok_start pbuf pkt) as [Hpo Hpy]; [done.. |].
  assert (zlen frame = 14 + zlen pkt) as HFL by (destruct Hd, Hs; by apply zlen_eth_bytes).
  assert (bytes_ok frame) as HFB by (destruct Hd, Hs; by apply bytes_ok_eth_bytes).
  pose proof (packet_ok_start fbuf frame Hfb HFB ltac:(lia) Hmax) as HP. rewrite HFL in HP.
  split_and!.
  - rewrite eth_build_spec; [| done | done | by destruct Hd | by destruct Hs | done].
    rewrite (proj2 (Z.ltb_ge fcap _)) by lia. by rewrite Hpy.
  - rewrite blit_start. unfold frame at 1. rewrite eth_parse_bytes by (done || lia).
    by replace (14 + zlen pkt - 14) with (zlen pkt) by lia.
  - rewrite <- HFL in HP. unfold frame at 1 3, eth_bytes in HP.
    rewrite !app_assoc in HP. rewrite <- (app_assoc _ pkt) in HP.
    rewrite (app_assoc _ pkt) in HP. by apply packet_ok_inner in HP.
Qed.

Lemma ip_carry ibuf icap pr ttl id s d pbuf pkt :
  bytes_ok ibuf -> 0 <= icap <= zlen ibuf -> zlen ibuf < 2 ^ 64 ->
  byte_ok ttl -> byte_ok pr -> array_ok s 4 -> array_ok d 4 ->
  bytes_ok pbuf -> bytes_ok pkt -> zlen pkt <= zlen pbuf -> zlen pkt <= 65515 ->
  20 + zlen pkt <= icap ->
  josh_ipv4_build (Some ibuf) icap pr ttl id (Some s) (Some d)
    (Some (blit pbuf 0 pkt)) (zlen pkt)
  = Some (20 + zlen pkt, Some (blit ibuf 0 (ip_bytes id ttl pr s d pkt))).
Proof.
  intros Hib Hic Hmax Httl Hpr Hs Hd Hpb Hkb Hpl Hlim Hcap. pose proof (zlen_nonneg pkt).
  destruct (payload_ok_start pbuf pkt) as [Hpo Hpy]; [done.. |].
  rewrite ipv4_build_spec by done. rewrite (proj2 (Z.ltb_ge 65515 _)) by lia.
  rewrite (proj2 (Z.ltb_ge icap _)) by lia. cbn [orb]. by rewrite Hpy.
Qed.

Lemma icmp_reply_verifies src n :
  packet_ok src n -> n <= 131070 -> 8 <= n ->
  let r := icmp_reply_bytes (slice src 0 n) in
  zlen r = n /\ bytes_ok r /\ slice r 4 (n - 4) = slice src 4 (n - 4) /\
  ones_sum (sum16 r) = 65535.
Proof.
  intros (Hb & Hn & _) Hlim H8. unfold icmp_reply_bytes. cbn zeta.
  change (drop 4 (slice src 0 n)) with (drop (Z.to_nat 4) (slice src 0 n)).
  assert (zlen (drop (Z.to_nat 4) (slice src 0 n)) = n - 4) as HL
    by (rewrite zlen_drop; rewrite zlen_slice; lia).
  assert (bytes_ok (drop (Z.to_nat 4) (slice src 0 n))) as HB
    by (by apply Forall_drop, bytes_ok_slice).
  assert (slice (drop (Z.to_nat 4) (slice src 0 n)) 0 (n - 4) = slice src 4 (n - 4)) as HS
    by (rewrite slice_drop, slice_slice by lia; done).
  revert HL HB HS. generalize (drop (Z.to_nat 4) (slice src 0 n)) as tl. intros tl HL HB HS.
  assert (bytes_ok ([0; 0; 0; 0] ++ tl)) as HB0
    by (apply Forall_app; split; [by repeat constructor | done]).
  split_and!.
  - solve_len.
  - apply Forall_app. split; [by repeat constructor |]. apply Forall_app.
    split; [apply bytes_ok_be16 | done].
  - rewrite <- HS. change (slice tl 0 (n - 4) = slice tl 0 (n - 4)). done.
  - pose proof (zlen_nonneg tl).
    assert (zlen ([0; 0; 0; 0] ++ tl) = n) as HL0 by (rewrite zlen_app; change (zlen [0;0;0;0]) with 4; lia).
    pose proof (checksum_stored _ 2 n HB0 ltac:(lia) eq_refl ltac:(lia) ltac:(lia) eq_refl) as H0.
    rewrite (slice_all ([0; 0; 0; 0] ++ tl)) in H0 by lia.
    rewrite slice_all in H0; [exact H0 |]. rewrite zlen_blit; [lia | lia |].
    rewrite zlen_be16. lia.
Qed.

(** ** Theorems *)

(** C4. The Internet checksum of any buffer up to 131070 bytes is the ones'
    complement of the ones' complement sum of its big-endian words: the
    carry folding terminates and no 32-bit sum wraps.  Storing it in a zero
    word makes the checksum of the whole buffer 0.  After that the change of a
    single aligned word is noticed, with one exception, which is exact: a word
    0 changed to 65535, the other zero of ones' complement arithmetic, or a
    word 65535 changed to 0 while another word is not zero. *)
Theorem net_checksum_correct data n :
  packet_ok data n -> n <= 131070 ->
  exists c,
    josh_net_checksum (Some data) n = Some c /\ 0 <= c <= 65535 /\
    c = 65535 - ones_sum (sum16 (slice data 0 n)) /\
    (forall d, 0 <= d -> d mod 2 = 0 -> d + 2 <= n -> word_at data d = 0 ->
       let stored := blit data d (be16 c) in
       josh_net_checksum (Some stored) n = Some 0 /\
       forall e w, 0 <= e -> e mod 2 = 0 -> e + 2 <= n -> 0 <= w < 65536 -> w <> word_at stored e ->
         josh_net_checksum (Some (blit stored e (be16 w))) n = Some 0 <->
         word_at stored e = 0 /\ w = 65535 \/
         word_at stored e = 65535 /\ w = 0 /\ sum16 (slice stored 0 n) <> 65535).
Proof.
  intros (Hb & Hn & Hmax) Hlim. eexists. split; [by apply net_checksum_spec |].
  pose proof (ones_sum_range (sum16 (slice data 0 n))).
  split_and!; [lia | lia | done |]. intros d Hd He Hdn Hz. cbn zeta.
  pose proof (checksum_stored data d n Hb Hd He Hdn ltac:(lia) Hz) as HS.
  set (stored := blit data d _) in *.
  assert (bytes_ok stored) as HSB by (apply bytes_ok_blit; [done | apply bytes_ok_be16]).
  assert (zlen stored = zlen data) as HSL by (apply zlen_blit; rewrite ?zlen_be16; lia).
  split; [rewrite net_checksum_spec by (done || lia); by rewrite HS |].
  intros e w Hpe Hee Hen Hw Hne.
  assert (bytes_ok (blit stored e (be16 w))) by (apply bytes_ok_blit; [done | apply bytes_ok_be16]).
  rewrite net_checksum_spec; [| done | rewrite zlen_blit; rewrite ?zlen_be16; lia | lia].
  rewrite sum16_blit_word by (done || lia). rewrite be_val_be16 by lia.
  fold (word_at stored e).
  pose proof (sum16_bounds (slice stored 0 n) (bytes_ok_slice _ _ _ HSB)).
  apply ones_sum_full in HS as [Hpos [k Hk]%Z.mod_divide]; [| lia | lia].
  pose proof (sum16_bounds _ (bytes_ok_slice (blit stored e (be16 w)) 0 n ltac:(done))) as HP.
  rewrite sum16_blit_word, be_val_be16 in HP by (done || lia). fold (word_at stored e) in HP.
  destruct (word_at_spec stored e HSB ltac:(lia) ltac:(lia)) as [_ Hold].
  pose proof (ones_sum_full (sum16 (slice stored 0 n) - word_at stored e + w) ltac:(lia)) as HF. split.
  - intros [= E]. destruct (proj1 HF ltac:(lia)) as [_ [k' Hk']%Z.mod_divide]; [| lia]. lia.
  - intros Hcase. f_equal. enough (ones_sum (sum16 (slice stored 0 n) - word_at stored e + w) = 65535) by lia. apply HF.
    split; [lia |]. destruct Hcase as [[Eo ->] | (Eo & -> & _)]; rewrite Eo, Hk; apply Z.mod_divide; try done; [exists (k + 1) | exists (k - 1)]; lia.
Qed.

(** [josh_ipv4_parse] reads only the bytes it was given, accepts a packet
    exactly when its header is complete, has version 4, at least five words,
    a total length inside the received bytes and a correct header checksum,
    fills the structure from the header fields, and leaves the caller's
    structure alone when it rejects.  The payload it hands on lies inside the
    packet. *)
Theorem ipv4_parse_correct p n out :
  packet_ok p n -> ip_out_ok out ->
  exists st out',
    josh_ipv4_parse (Some p) n (Some out) = Some (st, Some out') /\
    (st = JOSH_NET_OK <-> ipv4_valid p n) /\
    (st <> JOSH_NET_OK -> out' = out) /\
    (st = JOSH_NET_OK ->
       let h := 4 * (byte_at p 0 mod 16) in
       out' = mk_ipv4_packet (byte_at p 1) (word_at p 4) (word_at p 6) (byte_at p 8)
                (byte_at p 9) (slice p 12 4) (slice p 16 4)
                (drop (Z.to_nat h) p) (word_at p 2 - h) h /\
       20 <= h <= 60 /\ 0 <= ip_payload_length out' /\
       h + ip_payload_length out' <= n).
Proof.
  intros Hp Ho. destruct (ipv4_parse_spec p n out Hp Ho) as (st & out' & E & Hst & Hbad & Hok).
  exists st, out'. split_and!; [done.. |]. intros Heq. cbn zeta. specialize (Hok Heq).
  cbn zeta in Hok. apply Hst in Heq as (_ & _ & H5 & Hlen & _).
  pose proof (Z.mod_pos_bound (byte_at p 0) 16 ltac:(lia)).
  rewrite Hok at 1. split; [done |]. rewrite Hok. cbn [ip_payload_length]. lia.
Qed.

(** The Ethernet, ARP, UDP and TCP parsers read only the bytes they were
    given and accept exactly the packets that are long enough and consistent:
    a supported ARP packet with operation 1 or 2, a UDP length field between
    8 and the received bytes, a TCP data offset between 20 and the received
    bytes; accepted packets are decoded field by field. *)
Theorem frame_parsers_correct p n eth arp udp tcp :
  packet_ok p n -> eth_out_ok eth -> arp_out_ok arp ->
  (josh_eth_parse (Some p) n (Some eth) =
   if n <? 14 then Some (JOSH_NET_ERR_TRUNCATED, Some eth)
   else Some (JOSH_NET_OK,
              Some (mk_eth_frame (slice p 0 6) (slice p 6 6) (word_at p 12)
                      (drop 14 p) (n - 14)))) /\
  (exists st out, josh_arp_parse (Some p) n (Some arp) = Some (st, Some out) /\
     (st = JOSH_NET_OK <->
        28 <= n /\ arp_supported p /\ (word_at p 6 = 1 \/ word_at p 6 = 2)) /\
     (st = JOSH_NET_OK ->
        out = mk_arp_packet (word_at p 6) (slice p 8 6) (slice p 14 4)
                (slice p 18 6) (slice p 24 4))) /\
  (exists st out, josh_udp_parse (Some p) n (Some udp) = Some (st, Some out) /\
     (st = JOSH_NET_OK <-> udp_valid p n) /\
     (st = JOSH_NET_OK ->
        out = mk_udp_packet (word_at p 0) (word_at p 2) (word_at p 6)
                (drop 8 p) (word_at p 4 - 8))) /\
  (exists st out, josh_tcp_parse (Some p) n (Some tcp) = Some (st, Some out) /\
     (st = JOSH_NET_OK <-> tcp_valid p n) /\
     (st = JOSH_NET_OK ->
        let h := 4 * (byte_at p 12 / 16) in
        out = mk_tcp_segment (word_at p 0) (word_at p 2) (be_val (slice p 4 4))
                (be_val (slice p 8 4)) (byte_at p 13) (word_at p 14) (word_at p 16)
                (drop (Z.to_nat h) p) (n - h) h)).
Proof.
  intros Hp He Ha. split_and!.
  - by apply eth_parse_spec.
  - by apply arp_parse_spec.
  - by apply udp_parse_spec.
  - by apply tcp_parse_spec.
Qed.

(** An ARP packet built into one buffer and framed into another comes back
    unchanged: the Ethernet parser returns the addresses and the ethertype,
    and the ARP parser, run on its payload, returns the operation and the four
    addresses.  Nothing behind the frame in either buffer is written. *)
Theorem arp_frame_roundtrip abuf acap fbuf fcap op smac sip tmac tip dst src eth arp :
  bytes_ok abuf -> bytes_ok fbuf ->
  0 <= acap <= zlen abuf -> 0 <= fcap <= zlen fbuf -> zlen fbuf < 2 ^ 64 ->
  op = 1 \/ op = 2 -> array_ok smac 6 -> array_ok sip 4 -> array_ok tmac 6 -> array_ok tip 4 ->
  array_ok dst 6 -> array_ok src 6 -> eth_out_ok eth -> arp_out_ok arp ->
  28 <= acap -> 42 <= fcap ->
  exists a f rest,
    josh_arp_build_ethernet_ipv4 (Some abuf) acap op (Some smac) (Some sip) (Some tmac) (Some tip)
      = Some (28, Some a) /\
    josh_eth_build (Some fbuf) fcap (Some dst) (Some src) JOSH_NET_ETHERTYPE_ARP (Some a) 28
      = Some (42, Some f) /\
    drop 28 a = drop 28 abuf /\ drop 42 f = drop 42 fbuf /\ zlen f = zlen fbuf /\
    josh_eth_parse (Some f) 42 (Some eth)
      = Some (JOSH_NET_OK, Some (mk_eth_frame dst src JOSH_NET_ETHERTYPE_ARP rest 28)) /\
    josh_arp_parse (Some rest) 28 (Some arp)
      = Some (JOSH_NET_OK, Some (mk_arp_packet op smac sip tmac tip)).
Proof.
  intros Hab Hfb Hac Hfc Hmax Hop [Hb1 H1] [Hb2 H2] [Hb3 H3] [Hb4 H4] Hd Hs Heo Hao Ha28 Hf42.
  set (pkt := arp_bytes op smac sip tmac tip).
  assert (zlen pkt = 28) as HL by (by apply zlen_arp_bytes).
  assert (bytes_ok pkt) as HB by (by apply bytes_ok_arp_bytes).
  destruct (eth_carry fbuf fcap dst src JOSH_NET_ETHERTYPE_ARP abuf pkt eth)
    as (Hbuild & Hparse & Hok); [done || lia .. |]. cbn zeta in *.
  set (frame := eth_bytes dst src JOSH_NET_ETHERTYPE_ARP pkt) in *.
  assert (length frame = 42%nat) as HF.
  { pose proof (zlen_eth_bytes dst src JOSH_NET_ETHERTYPE_ARP pkt (proj2 Hd) (proj2 Hs)) as E.
    fold frame in E. unfold zlen in *. lia. }
  rewrite HL in *. rewrite HF in *.
  exists (blit abuf 0 pkt), (blit fbuf 0 frame), (pkt ++ drop 42 fbuf). split_and!; try done.
  - rewrite arp_build_spec by done. rewrite (proj2 (Z.ltb_ge acap 28)) by lia.
    by destruct Hop as [-> | ->].
  - rewrite blit_start. unfold zlen in HL. replace (length pkt) with 28%nat by lia.
    apply drop_app_length'. lia.
  - rewrite blit_start, HF. by apply drop_app_length'.
  - apply zlen_blit; unfold zlen in *; lia.
  - by apply arp_parse_bytes.
Qed.

(** C3. A UDP datagram survives the whole stack.  Built into a UDP segment,
    put into an IPv4 packet and that into an Ethernet frame, it is accepted by
    the three parsers in turn, with the addresses, ports, protocol and
    identification that were given and the payload bytes unchanged, and the
    segment the receiver sees passes the UDP checksum. *)
Theorem udp_datagram_roundtrip ubuf ucap ibuf icap fbuf fcap s d sp dp id ttl dst src
    payload n eth ip udp :
  bytes_ok ubuf -> bytes_ok ibuf -> bytes_ok fbuf ->
  0 <= ucap <= zlen ubuf -> 0 <= icap <= zlen ibuf -> 0 <= fcap <= zlen fbuf ->
  zlen ubuf < 2 ^ 64 -> zlen ibuf < 2 ^ 64 -> zlen fbuf < 2 ^ 64 ->
  array_ok s 4 -> array_ok d 4 -> array_ok dst 6 -> array_ok src 6 ->
  0 <= sp < 65536 -> 0 <= dp < 65536 -> 0 <= id < 65536 -> byte_ok ttl ->
  payload_ok payload n -> n <= 65507 -> 8 + n <= ucap -> 28 + n <= icap -> 42 + n <= fcap ->
  eth_out_ok eth -> ip_out_ok ip ->
  exists u i f p1 p2 p3 c,
    josh_udp_build_ipv4 (Some ubuf) ucap (Some s) (Some d) sp dp payload n
      = Some (8 + n, Some u) /\
    josh_ipv4_build (Some ibuf) icap JOSH_NET_IP_UDP ttl id (Some s) (Some d) (Some u) (8 + n)
      = Some (28 + n, Some i) /\
    josh_eth_build (Some fbuf) fcap (Some dst) (Some src) JOSH_NET_ETHERTYPE_IPV4
      (Some i) (28 + n) = Some (42 + n, Some f) /\
    josh_eth_parse (Some f) (42 + n) (Some eth)
      = Some (JOSH_NET_OK, Some (mk_eth_frame dst src JOSH_NET_ETHERTYPE_IPV4 p1 (28 + n))) /\
    josh_ipv4_parse (Some p1) (28 + n) (Some ip)
      = Some (JOSH_NET_OK,
              Some (mk_ipv4_packet 0 id 16384 ttl JOSH_NET_IP_UDP s d p2 (8 + n) 20)) /\
    josh_udp_parse (Some p2) (8 + n) (Some udp)
      = Some (JOSH_NET_OK, Some (mk_udp_packet sp dp c p3 n)) /\
    c <> 0 /\ slice p3 0 n = payload_bytes payload n /\
    josh_udp_checksum_ipv4 (Some s) (Some d) (Some p2) (8 + n) = Some 0.
Proof.
  intros Hub Hib Hfb Huc Hic Hfc Hum Him Hfm Hs Hd Hdst Hsrc Hsp Hdp Hid Httl Hpo Hlim
    Hu8 Hi28 Hf42 Heo Hio.
  pose proof (zlen_payload_bytes _ _ Hpo) as HP. pose proof (bytes_ok_payload _ _ Hpo) as HPB.
  pose proof (payload_ok_nonneg _ _ Hpo). set (pl := payload_bytes payload n) in *.
  pose proof (udp_field_range s d sp dp pl) as Hc. set (c := udp_field s d sp dp pl) in *.
  set (seg := udp_segment sp dp c pl).
  assert (zlen seg = 8 + n) as HL1 by (unfold seg; rewrite zlen_udp_segment; lia).
  assert (bytes_ok seg) as HB1 by (by apply bytes_ok_udp_segment).
  set (pkt := ip_bytes id ttl JOSH_NET_IP_UDP s d seg).
  assert (zlen pkt = 28 + n) as HL2
    by (unfold pkt; rewrite zlen_ip_bytes by (apply Hs || apply Hd); lia).
  assert (bytes_ok pkt) as HB2 by (apply bytes_ok_ip_bytes; try done; apply Hs || apply Hd).
  destruct (eth_carry fbuf fcap dst src JOSH_NET_ETHERTYPE_IPV4 ibuf pkt eth)
    as (Hbuild & Hparse & Hok); [done || lia .. |]. cbn zeta in *.
  set (rest := drop _ fbuf) in *.
  assert (packet_ok (seg ++ rest) (8 + n)) as Hok2
    by (rewrite <- HL1; by apply packet_ok_inner in Hok).
  replace (14 + zlen pkt) with (42 + n) in * by lia. rewrite HL2 in *.
  eexists (blit ubuf 0 seg), (blit ibuf 0 pkt), _, (pkt ++ rest), (seg ++ rest), (pl ++ rest), c.
  split_and!; [| | exact Hbuild | exact Hparse | | | lia | |].
  - rewrite udp_build_spec by done. rewrite (proj2 (Z.ltb_ge 65527 _)) by lia.
    by rewrite (proj2 (Z.ltb_ge ucap _)) by lia.
  - rewrite <- HL1. rewrite ip_carry by (done || lia). by rewrite HL1, Z.add_assoc.
  - rewrite <- HL1. by apply ipv4_parse_bytes; try (done || lia); rewrite HL1, Z.add_assoc.
  - rewrite <- HP. apply udp_parse_bytes; try (done || lia). by rewrite HP.
  - rewrite slice_app_l by lia. by apply slice_all.
  - unfold josh_udp_checksum_ipv4. rewrite (proj2 (Z.ltb_ge 65535 _)) by lia.
    cbn [payload_missing orb]. destruct Hok2 as (Hb2 & Hn2 & _).
    rewrite transport_checksum_spec by (done || lia).
    rewrite slice_app_l, slice_all by lia. unfold seg, c.
    rewrite udp_verifies; [done | apply Hs | apply Hd | done].
Qed.

(** The echo responder.  For any request it answers exactly when the
    request is a valid echo request (type 8, code 0, correct checksum) that
    fits the reply buffer; the reply then has type 0, the request's
    identifier, sequence number and data, and a correct checksum.  On every
    other input it reports an error and writes nothing. *)
Theorem icmp_echo_reply_correct src n dst capacity len :
  packet_ok src n -> n <= 131070 -> bytes_ok dst -> 0 <= capacity <= zlen dst ->
  exists st dst' len',
    josh_icmp_echo_reply (Some src) n (Some dst) capacity (Some len) =
      Some (st, Some dst', Some len') /\
    (st = JOSH_NET_OK <-> icmp_request_valid src n /\ n <= capacity) /\
    (st = JOSH_NET_OK ->
       len' = n /\ byte_at dst' 0 = 0 /\ byte_at dst' 1 = 0 /\
       slice dst' 4 (n - 4) = slice src 4 (n - 4) /\
       josh_net_checksum (Some dst') n = Some 0 /\
       drop (Z.to_nat n) dst' = drop (Z.to_nat n) dst) /\
    (st <> JOSH_NET_OK -> dst' = dst /\ len' = len).
Proof.
  intros Hp Hlim Hdb Hc. pose proof Hp as (Hb & Hn & _).
  destruct (icmp_echo_reply_spec src n dst capacity len) as (st & dst' & len' & E & Hst & Hok & Hbad);
    [done.. |].
  exists st, dst', len'. split_and!; [done.. | | done]. intros Heq.
  destruct (Hok Heq) as [-> ->]. apply Hst in Heq as [(H8 & _) Hcap].
  destruct (icmp_reply_verifies src n) as (HL & HB & HS & HV); [done | done | lia |].
  set (r := icmp_reply_bytes (slice src 0 n)) in *.
  split_and!; try done.
  - rewrite slice_blit_sub by lia. by rewrite Z.sub_0_r.
  - rewrite net_checksum_spec; [| by apply bytes_ok_blit | rewrite zlen_blit; lia | lia].
    rewrite slice_blit_same by lia. by rewrite HV.
  - rewrite blit_start. rewrite drop_app_ge by (unfold zlen in HL; lia).
    rewrite drop_drop. f_equal. unfold zlen in HL. lia.
Qed.

(** ** A concrete exchange *)

Definition ex_mac : list Z := [2; 0; 0; 0; 0; 1].
Definition ex_ip : list Z := [10; 0; 2; 15].
Definition ex_gateway : list Z := [10; 0; 2; 2].
Definition ex_buffer : list Z := replicate 64 170.
Definition ex_eth_out : josh_eth_frame_t :=
  mk_eth_frame (replicate 6 0) (replicate 6 0) 0 [] 0.
Definition ex_arp_out : josh_arp_packet_t :=
  mk_arp_packet 0 (replicate 6 0) (replicate 4 0) (replicate 6 0) (replicate 4 0).
Definition ex_ip_out : josh_ipv4_packet_t :=
  mk_ipv4_packet 0 0 0 0 0 (replicate 4 0) (replicate 4 0) [] 0 0.
Definition ex_udp_out : josh_udp_packet_t := mk_udp_packet 0 0 0 [] 0.
Definition ex_tcp_out : josh_tcp_segment_t := mk_tcp_segment 0 0 0 0 0 0 0 [] 0 0.

(** An IPv4 header with a correct checksum and an echo request with one. *)
Definition ex_packet : list Z :=
  [69; 0; 0; 20; 0; 0; 64; 0; 64; 1; 34; 217; 10; 0; 2; 2; 10; 0; 2; 15].
Definition ex_echo : list Z := [8; 0; 247; 253; 0; 1; 0; 1].

Ltac concrete :=
  first [ done
        | apply (bool_decide_unpack _); vm_compute; exact I
        | unfold packet_ok, array_ok, payload_ok, bytes_ok, byte_ok, zlen; cbn;
          repeat split; repeat constructor; try lia; done ].

(** A header without its checksum: storing it makes it verify, and setting its
    first word, 0x4500, to 0x4600 does not go unnoticed. *)
Lemma net_checksum_correct_witness :
  let header := blit ex_packet 10 [0; 0] in
  exists c, josh_net_checksum (Some header) 20 = Some c /\
    josh_net_checksum (Some (blit header 10 (be16 c))) 20 = Some 0 /\
    josh_net_checksum (Some (blit (blit header 10 (be16 c)) 0 (be16 0x4600))) 20 <> Some 0.
Proof.
  intros header. destruct (net_checksum_correct header 20) as (c & E & B & _ & H); [concrete | lia |].
  destruct (H 10 ltac:(lia) eq_refl ltac:(lia) eq_refl) as [H0 H1]. exists c. split; [exact E |]. split; [exact H0 |].
  assert (c = 65535 - ones_sum (sum16 (slice header 0 20))) as Ec by (vm_compute in E; injection E as <-; vm_compute; reflexivity).
  assert (word_at (blit header 10 (be16 c)) 0 = 0x4500) as Ew by (rewrite Ec; vm_compute; reflexivity).
  intros E2. apply (H1 0 0x4600) in E2; [| lia | done | lia | lia | by rewrite Ew]. rewrite Ew in E2. lia.
Defined.

Lemma ipv4_parse_correct_witness :
  ipv4_valid ex_packet 20 /\
  exists out, josh_ipv4_parse (Some ex_packet) 20 (Some ex_ip_out) = Some (JOSH_NET_OK, Some out).
Proof.
  assert (ipv4_valid ex_packet 20) as Hv by (unfold ipv4_valid; vm_compute; repeat split; congruence).
  split; [exact Hv |].
  destruct (ipv4_parse_correct ex_packet 20 ex_ip_out) as (st & out & E & Hst & _);
    [concrete | done |].
  exists out. rewrite E. by rewrite (proj2 Hst Hv).
Defined.

Lemma frame_parsers_correct_witness :
  josh_eth_parse (Some ex_packet) 20 (Some ex_eth_out) =
  Some (JOSH_NET_OK, Some (mk_eth_frame [69; 0; 0; 20; 0; 0] [64; 0; 64; 1; 34; 217] 2560
                             [2; 2; 10; 0; 2; 15] 6)).
Proof.
  destruct (frame_parsers_correct ex_packet 20 ex_eth_out ex_arp_out ex_udp_out ex_tcp_out)
    as [E _]; [concrete | done | done |].
  exact E.
Defined.

Lemma arp_frame_roundtrip_witness :
  exists a f,
    josh_arp_build_ethernet_ipv4 (Some ex_buffer) 64 1 (Some ex_mac) (Some ex_ip)
      (Some ex_mac) (Some ex_gateway) = Some (28, Some a) /\
    josh_eth_build (Some ex_buffer) 64 (Some ex_mac) (Some ex_mac) JOSH_NET_ETHERTYPE_ARP
      (Some a) 28 = Some (42, Some f).
Proof.
  destruct (arp_frame_roundtrip ex_buffer 64 ex_buffer 64 1 ex_mac ex_ip ex_mac ex_gateway
              ex_mac ex_mac ex_eth_out ex_arp_out) as (a & f & rest & Ha & Hf & _);
    try concrete.
  by exists a, f.
Defined.

Lemma udp_datagram_roundtrip_witness :
  exists u, josh_udp_build_ipv4 (Some ex_buffer) 64 (Some ex_ip) (Some ex_gateway) 68 67
              (Some [1; 2; 3]) 3 = Some (11, Some u).
Proof.
  destruct (udp_datagram_roundtrip ex_buffer 64 ex_buffer 64 ex_buffer 64 ex_ip ex_gateway 68 67
              1 64 ex_mac ex_mac (Some [1; 2; 3]) 3 ex_eth_out ex_ip_out ex_udp_out)
    as (u & i & f & p1 & p2 & p3 & c & Hu & _); try concrete.
  by exists u.
Defined.

Lemma icmp_echo_reply_correct_witness :
  icmp_request_valid ex_echo 8 /\
  exists reply, josh_icmp_echo_reply (Some ex_echo) 8 (Some ex_buffer) 64 (Some 0) =
                Some (JOSH_NET_OK, Some reply, Some 8).
Proof.
  assert (icmp_request_valid ex_echo 8) as Hv
    by (unfold icmp_request_valid; vm_compute; repeat split; congruence).
  split; [exact Hv |].
  destruct (icmp_echo_reply_correct ex_echo 8 ex_buffer 64 0) as (st & r & len & E & Hst & Hok & _);
    [concrete | lia | concrete | concrete |].
  assert (st = JOSH_NET_OK) as -> by (apply Hst; split; [exact Hv | lia]).
  exists r. rewrite E. by destruct Hok as [-> _].
Defined.
