(* ===== verification/NetDhcpDns.v ===== *)
(** * DHCP and DNS messages (kernel/src/net_proto.c, second half)

    The DHCP message builders and reply parser and the DNS query builder and
    response parser, with the conventions of NetProto.v.  The loops that are
    not bounded by a counter take fuel; running out of it gives [None], like
    an access outside a buffer, so a theorem that a function returns [Some]
    covers both. *)

From stdpp Require Import base numbers list.
From Stdlib Require Import ZArith Lia.
From S2P Require Import Prelude Bytes NetProto.

#[local] Open Scope Z_scope.

(** ** DHCP *)

Record josh_dhcp_offer_t := mk_dhcp_offer {
  dhcp_message_type : Z;
  dhcp_offered_ip : list Z;
  dhcp_server_id : list Z;
  dhcp_subnet_mask : list Z;
  dhcp_router : list Z;
  dhcp_dns : list Z;
  dhcp_lease_seconds : Z;
}.

(** [p[offset++] = b]: the buffer and the offset after the write. *)
Definition put_byte (po : list Z * Z) (b : Z) : option (list Z * Z) :=
  p ← wr po.1 po.2 b; Some (p, po.2 + 1).

(** An address option: code, length 4 and the address. *)
Definition put_address_option (po : list Z * Z) (code : Z) (address : list Z) :
    option (list Z * Z) :=
  po ← put_byte po code;
  po ← put_byte po 4;
  p ← copy_bytes po.1 po.2 address 0 4;
  Some (p, po.2 + 4).

Definition dhcp_build_base (buffer : option (list Z)) (capacity xid : Z) (mac : option (list Z))
    (message_type : Z) (requested_ip server_id : option (list Z)) :
    option (Z * option (list Z)) :=
  match buffer, mac with
  | Some p, Some mac =>
      if capacity <? 256 then Some (0, buffer)
      else
        p ← zero_bytes p 0 240;
        p ← wr p 0 1;
        p ← wr p 1 1;
        p ← wr p 2 6;
        p ← write_be32 p 4 xid;
        p ← write_be16 p 10 32768;
        p ← copy_bytes p 28 mac 0 6;
        p ← write_be32 p 236 1669485411;
        po ← put_byte (p, 240) 53;
        po ← put_byte po 1;
        po ← put_byte po message_type;
        if bool_decide (is_Some requested_ip) && (capacity <? u64 (po.2 + 6))
        then Some (0, Some po.1)
        else
          po ← match requested_ip with
               | Some a => put_address_option po 50 a
               | None => Some po
               end;
          if bool_decide (is_Some server_id) && (capacity <? u64 (po.2 + 6))
          then Some (0, Some po.1)
          else
            po ← match server_id with
                 | Some a => put_address_option po 54 a
                 | None => Some po
                 end;
            if capacity <? u64 (po.2 + 8) then Some (0, Some po.1)
            else
              po ← put_byte po 55;
              po ← put_byte po 5;
              po ← put_byte po 1;
              po ← put_byte po 3;
              po ← put_byte po 6;
              po ← put_byte po 51;
              po ← put_byte po 54;
              po ← put_byte po 255;
              Some (po.2, Some po.1)
  | _, _ => Some (0, buffer)
  end.

Definition josh_dhcp_build_discover (buffer : option (list Z)) (capacity xid : Z)
    (mac : option (list Z)) : option (Z * option (list Z)) :=
  dhcp_build_base buffer capacity xid mac 1 None None.

Definition josh_dhcp_build_request (buffer : option (list Z)) (capacity xid : Z)
    (mac requested_ip server_id : option (list Z)) : option (Z * option (list Z)) :=
  match requested_ip, server_id with
  | Some _, Some _ => dhcp_build_base buffer capacity xid mac 3 requested_ip server_id
  | _, _ => Some (0, buffer)
  end.

(** The effect of one option on the structure: the chain of [if]s of the
    option loop; [value] points at the option's bytes. *)
Definition dhcp_option (out : josh_dhcp_offer_t) (code option_length : Z) (value : list Z) :
    option josh_dhcp_offer_t :=
  let '(mk_dhcp_offer mt ip sid mask router dns lease) := out in
  if (code =? 53) && (option_length =? 1) then
    b ← rd value 0; Some (mk_dhcp_offer b ip sid mask router dns lease)
  else if (code =? 54) && (option_length =? 4) then
    a ← copy_bytes sid 0 value 0 4; Some (mk_dhcp_offer mt ip a mask router dns lease)
  else if (code =? 1) && (option_length =? 4) then
    a ← copy_bytes mask 0 value 0 4; Some (mk_dhcp_offer mt ip sid a router dns lease)
  else if (code =? 3) && (4 <=? option_length) then
    a ← copy_bytes router 0 value 0 4; Some (mk_dhcp_offer mt ip sid mask a dns lease)
  else if (code =? 6) && (4 <=? option_length) then
    a ← copy_bytes dns 0 value 0 4; Some (mk_dhcp_offer mt ip sid mask router a lease)
  else if (code =? 51) && (option_length =? 4) then
    v ← read_be32 value 0; Some (mk_dhcp_offer mt ip sid mask router dns v)
  else Some out.

(** The option loop.  The status is [JOSH_NET_OK] when the loop ends normally. *)
Fixpoint dhcp_options_loop (fuel : nat) (p : list Z) (length offset : Z)
    (out : josh_dhcp_offer_t) : option (josh_net_status_t * josh_dhcp_offer_t) :=
  if length <=? offset then Some (JOSH_NET_OK, out)
  else match fuel with
       | O => None
       | S fuel =>
           code ← rd p offset;
           let offset := offset + 1 in
           if code =? 0 then dhcp_options_loop fuel p length offset out
           else if code =? 255 then Some (JOSH_NET_OK, out)
           else if length <=? offset then Some (JOSH_NET_ERR_TRUNCATED, out)
           else
             option_length ← rd p offset;
             let offset := offset + 1 in
             if u64 (length - offset) <? option_length
             then Some (JOSH_NET_ERR_TRUNCATED, out)
             else
               value ← padd p offset;
               out ← dhcp_option out code option_length value;
               dhcp_options_loop fuel p length (offset + option_length) out
       end.

(** Every round of the loop consumes a byte, so the length is enough fuel. *)
Definition josh_dhcp_parse_reply (packet : option (list Z)) (length expected_xid : Z)
    (out : option josh_dhcp_offer_t) :
    option (josh_net_status_t * option josh_dhcp_offer_t) :=
  match packet, out with
  | Some p, Some out =>
      if length <? 240 then Some (JOSH_NET_ERR_TRUNCATED, Some out)
      else
        p0 ← rd p 0;
        p1 ← rd p 1;
        p2 ← rd p 2;
        if negb (p0 =? 2) || negb (p1 =? 1) || negb (p2 =? 6)
        then Some (JOSH_NET_ERR_UNSUPPORTED, Some out)
        else
          xid ← read_be32 p 4;
          if negb (xid =? expected_xid) then Some (JOSH_NET_ERR_MALFORMED, Some out)
          else
            magic ← read_be32 p 236;
            if negb (magic =? 1669485411) then Some (JOSH_NET_ERR_MALFORMED, Some out)
            else
              let zero4 := replicate 4 0 in
              offered_ip ← copy_bytes zero4 0 p 16 4;
              let out := mk_dhcp_offer 0 offered_ip zero4 zero4 zero4 zero4 0 in
              so ← dhcp_options_loop (Z.to_nat length) p length 240 out;
              let '(status, out) := so in
              if bool_decide (status <> JOSH_NET_OK) then Some (status, Some out)
              else if negb (dhcp_message_type out =? 2) && negb (dhcp_message_type out =? 5)
              then Some (JOSH_NET_ERR_MALFORMED, Some out)
              else Some (JOSH_NET_OK, Some out)
  | _, _ => Some (JOSH_NET_ERR_ARGUMENT, out)
  end.

(** ** DNS *)

(** [while ( *end && *end != '.') ++end]: the length of the first label of the
    C string that starts at [s]. *)
Fixpoint label_length (s : list Z) : option Z :=
  match s with
  | [] => None
  | c :: s => if (c =? 0) || (c =? 46) then Some 0 else n ← label_length s; Some (n + 1)
  end.

(** The label loop; [label] points into the host name, [None] in the result
    pair is the early [return 0]. *)
Fixpoint dns_labels_loop (fuel : nat) (p : list Z) (capacity out : Z) (label : list Z) :
    option (list Z * option Z) :=
  match fuel with
  | O => None
  | S fuel =>
      n ← label_length label;
      if (n =? 0) || (63 <? n) || (capacity <? u64 (out + 1 + n + 5)) then Some (p, None)
      else
        p ← wr p out (u8 n);
        p ← copy_loop (Z.to_nat n) p (out + 1) label 0;
        let out := out + 1 + n in
        stop ← rd label n;
        if stop =? 0 then Some (p, Some out)
        else
          label ← padd label (n + 1);
          dns_labels_loop fuel p capacity out label
  end.

(** Every round consumes a byte of the host name. *)
Definition josh_dns_build_a_query (buffer : option (list Z)) (capacity transaction_id : Z)
    (hostname : option (list Z)) : option (Z * option (list Z)) :=
  match buffer, hostname with
  | Some p, Some hostname =>
      if capacity <? 17 then Some (0, buffer)
      else
        p ← zero_bytes p 0 12;
        p ← write_be16 p 0 transaction_id;
        p ← write_be16 p 2 256;
        p ← write_be16 p 4 1;
        r ← dns_labels_loop (S (length hostname)) p capacity 12 hostname;
        match r with
        | (p, None) => Some (0, Some p)
        | (p, Some out) =>
            p ← wr p out 0;
            let out := out + 1 in
            p ← write_be16 p out 1;
            p ← write_be16 p (out + 2) 1;
            Some (out + 4, Some p)
        end
  | _, _ => Some (0, buffer)
  end.

(** The name-skipping loop: [pos] and the label count; the second component of
    the result is the new [*offset] on success. *)
Fixpoint dns_skip_loop (fuel : nat) (p : list Z) (length pos labels : Z) :
    option (josh_net_status_t * option Z) :=
  if length <=? pos then Some (JOSH_NET_ERR_TRUNCATED, None)
  else match fuel with
       | O => None
       | S fuel =>
           size ← rd p pos;
           let pos := pos + 1 in
           if size =? 0 then Some (JOSH_NET_OK, Some pos)
           else if Z.land size 192 =? 192 then
             if length <=? pos then Some (JOSH_NET_ERR_TRUNCATED, None)
             else Some (JOSH_NET_OK, Some (pos + 1))
           else if negb (Z.land size 192 =? 0) || (63 <? size) || (u64 (length - pos) <? size)
           then Some (JOSH_NET_ERR_MALFORMED, None)
           else
             let pos := pos + size in
             let labels := labels + 1 in
             if 127 <? labels then Some (JOSH_NET_ERR_MALFORMED, None)
             else dns_skip_loop fuel p length pos labels
       end.

(** The loop ends after 128 labels at the latest. *)
Definition dns_skip_name (p : list Z) (length offset : Z) :
    option (josh_net_status_t * Z) :=
  r ← dns_skip_loop 128 p length offset 0;
  Some (r.1, default offset r.2).

(** The question loop: [n] questions left. *)
Fixpoint dns_questions_loop (n : nat) (p : list Z) (length offset : Z) :
    option (josh_net_status_t * Z) :=
  match n with
  | O => Some (JOSH_NET_OK, offset)
  | S n =>
      so ← dns_skip_name p length offset;
      let '(status, offset) := so in
      if bool_decide (status <> JOSH_NET_OK) then Some (status, offset)
      else if u64 (length - offset) <? 4 then Some (JOSH_NET_ERR_TRUNCATED, offset)
      else dns_questions_loop n p length (offset + 4)
  end.

(** The answer loop: the status, and the address bytes. *)
Fixpoint dns_answers_loop (n : nat) (p : list Z) (length offset : Z) (address : list Z) :
    option (josh_net_status_t * list Z) :=
  match n with
  | O => Some (JOSH_NET_ERR_UNSUPPORTED, address)
  | S n =>
      so ← dns_skip_name p length offset;
      let '(status, offset) := so in
      if bool_decide (status <> JOSH_NET_OK) then Some (status, address)
      else if u64 (length - offset) <? 10 then Some (JOSH_NET_ERR_TRUNCATED, address)
      else
        type ← read_be16 p offset;
        klass ← read_be16 p (offset + 2);
        rdlength ← read_be16 p (offset + 8);
        let offset := offset + 10 in
        if u64 (length - offset) <? rdlength then Some (JOSH_NET_ERR_TRUNCATED, address)
        else if (type =? 1) && (klass =? 1) && (rdlength =? 4) then
          address ← copy_bytes address 0 p offset 4;
          Some (JOSH_NET_OK, address)
        else dns_answers_loop n p length (offset + rdlength) address
  end.

Definition josh_dns_parse_a_response (packet : option (list Z)) (length transaction_id : Z)
    (address : option (list Z)) : option (josh_net_status_t * option (list Z)) :=
  match packet, address with
  | Some p, Some address =>
      if length <? 12 then Some (JOSH_NET_ERR_TRUNCATED, Some address)
      else
        id ← read_be16 p 0;
        if negb (id =? transaction_id) then Some (JOSH_NET_ERR_MALFORMED, Some address)
        else
          flags ← read_be16 p 2;
          if (Z.land flags 32768 =? 0) || negb (Z.land flags 15 =? 0)
          then Some (JOSH_NET_ERR_MALFORMED, Some address)
          else
            questions ← read_be16 p 4;
            answers ← read_be16 p 6;
            so ← dns_questions_loop (Z.to_nat questions) p length 12;
            let '(status, offset) := so in
            if bool_decide (status <> JOSH_NET_OK) then Some (status, Some address)
            else
              r ← dns_answers_loop (Z.to_nat answers) p length offset address;
              Some (r.1, Some r.2)
  | _, _ => Some (JOSH_NET_ERR_ARGUMENT, address)
  end.

(** ** DHCP options *)

Definition offer_ok (o : josh_dhcp_offer_t) : Prop :=
  zlen (dhcp_offered_ip o) = 4 /\ zlen (dhcp_server_id o) = 4 /\
  zlen (dhcp_subnet_mask o) = 4 /\ zlen (dhcp_router o) = 4 /\ zlen (dhcp_dns o) = 4.

(** What an option with the bytes [v] means (RFC 2132), as far as the client
    uses it. *)
Definition apply_option (o : josh_dhcp_offer_t) (code : Z) (v : list Z) : josh_dhcp_offer_t :=
  let '(mk_dhcp_offer mt ip sid mask router dns lease) := o in
  if (code =? 53) && (zlen v =? 1) then mk_dhcp_offer (be_val v) ip sid mask router dns lease
  else if (code =? 54) && (zlen v =? 4) then mk_dhcp_offer mt ip v mask router dns lease
  else if (code =? 1) && (zlen v =? 4) then mk_dhcp_offer mt ip sid v router dns lease
  else if (code =? 3) && (4 <=? zlen v) then mk_dhcp_offer mt ip sid mask (take 4 v) dns lease
  else if (code =? 6) && (4 <=? zlen v) then mk_dhcp_offer mt ip sid mask router (take 4 v) lease
  else if (code =? 51) && (zlen v =? 4)
       then mk_dhcp_offer mt ip sid mask router dns (be_val v)
  else o.

Lemma take_4_slice (l : list Z) n : 4 <= n -> take 4 (slice l 0 n) = slice l 0 4.
Proof. intros. unfold slice. rewrite take_take. f_equal. lia. Qed.

Lemma apply_option_ok o code v : offer_ok o -> offer_ok (apply_option o code v).
Proof.
  destruct o as [mt ip sid mask router dns lease]. unfold offer_ok, apply_option. cbn.
  intros (? & ? & ? & ? & ?).
  repeat (if_case; [bool_cases; cbn; split_and!; try done; unfold zlen in *;
                    rewrite length_take; lia |]).
  done.
Qed.

Lemma dhcp_option_spec out code n value :
  offer_ok out -> bytes_ok value -> 0 <= n <= zlen value ->
  dhcp_option out code n value = Some (apply_option out code (slice value 0 n)).
Proof.
  intros (H1 & H2 & H3 & H4 & H5) Hb Hn.
  destruct out as [mt ip sid mask router dns lease]. cbn in *.
  unfold dhcp_option, apply_option. rewrite (zlen_slice value 0 n) by lia.
  if_case; bool_cases; subst.
  { destruct (byte_at_spec value 0 Hb) as [E _]; [lia |]. rewrite E. obind. f_equal.
    f_equal. assert (slice value 0 1 = [byte_at value 0]) as ->; [| cbn; lia].
    apply rd_ext; [by rewrite zlen_slice by lia |]. rewrite zlen_slice by lia.
    intros i Hi. rewrite rd_slice by lia. by replace i with 0 by lia. }
  if_case; bool_cases; subst; [by rewrite copy_array_spec by lia |].
  if_case; bool_cases; subst; [by rewrite copy_array_spec by lia |].
  if_case; bool_cases; subst; [rewrite copy_array_spec by lia; by rewrite take_4_slice by lia |].
  if_case; bool_cases; subst; [rewrite copy_array_spec by lia; by rewrite take_4_slice by lia |].
  if_case; bool_cases; subst; [| done].
  destruct (read_be32_spec value 0 Hb) as [-> _]; [lia.. | done].
Qed.

(** The loop on arbitrary bytes: it terminates inside the packet. *)
Lemma dhcp_options_loop_total fuel p n offset out :
  packet_ok p n -> offer_ok out -> 0 <= offset -> n - offset <= Z.of_nat fuel ->
  exists st out', dhcp_options_loop fuel p n offset out = Some (st, out') /\ offer_ok out'.
Proof.
  intros Hp. pose proof Hp as (Hb & Hn & Hmax). revert offset out.
  induction fuel as [| fuel IH]; intros offset out Hout Ho Hf;
    (cbn [dhcp_options_loop]; if_case; bool_cases; [by eexists _, _ |]); [lia |].
  destruct (byte_at_spec p offset Hb) as [-> Hc]; [lia |]. obind. cbn zeta.
  if_case; [apply IH; [done | lia | lia] |]. if_case; [by eexists _, _ |].
  if_case; bool_cases; [by eexists _, _ |].
  destruct (byte_at_spec p (offset + 1) Hb) as [-> Hl]; [lia |]. obind. cbn zeta.
  rewrite u64_small by lia. if_case; bool_cases; [by eexists _, _ |].
  rewrite padd_Some by lia. obind.
  rewrite dhcp_option_spec; [| done | by apply Forall_drop | rewrite zlen_drop by lia; lia].
  obind. apply IH; [by apply apply_option_ok | lia | lia].
Qed.

(** ** Encoded options *)

Inductive dhcp_item := Pad | Opt (code : Z) (value : list Z).

Definition item_ok (i : dhcp_item) : Prop :=
  match i with
  | Pad => True
  | Opt code value => 0 < code < 255 /\ bytes_ok value /\ zlen value <= 255
  end.

Definition encode_item (i : dhcp_item) : list Z :=
  match i with Pad => [0] | Opt code value => code :: zlen value :: value end.

Definition apply_item (o : josh_dhcp_offer_t) (i : dhcp_item) : josh_dhcp_offer_t :=
  match i with Pad => o | Opt code value => apply_option o code value end.

Definition encode_items (its : list dhcp_item) : list Z := mjoin (encode_item <$> its).

Lemma encode_items_cons i its : encode_items (i :: its) = encode_item i ++ encode_items its.
Proof. done. Qed.

Lemma rd_at_length {A} (pre : list A) x l : rd (pre ++ x :: l) (zlen pre) = Some x.
Proof. rewrite rd_app_r by lia. by rewrite Z.sub_diag. Qed.

Lemma drop_zlen {A} (pre l : list A) : drop (Z.to_nat (zlen pre)) (pre ++ l) = l.
Proof. unfold zlen. rewrite Nat2Z.id. apply drop_app_length. Qed.

(** One step of the loop per encoded item. *)
Lemma dhcp_loop_item fuel pre i tail n out :
  item_ok i -> offer_ok out -> bytes_ok (encode_item i ++ tail) ->
  zlen pre + zlen (encode_item i) <= n ->
  zlen (pre ++ encode_item i ++ tail) < 2 ^ 64 -> n <= zlen (pre ++ encode_item i ++ tail) ->
  dhcp_options_loop (S fuel) (pre ++ encode_item i ++ tail) n (zlen pre) out =
  dhcp_options_loop fuel (pre ++ encode_item i ++ tail) n (zlen pre + zlen (encode_item i))
    (apply_item out i).
Proof.
  intros Hi Hout Hb Hn Hmax Hlen. pose proof (zlen_nonneg pre).
  destruct i as [| code value]; cbn [encode_item app apply_item] in *.
  - change (zlen [0]) with 1 in *. cbn [dhcp_options_loop].
    rewrite (proj2 (Z.leb_gt _ _)) by lia. rewrite rd_at_length. obind. done.
  - destruct Hi as (Hc & Hvb & Hvl). pose proof (zlen_nonneg value).
    rewrite !zlen_cons in *. cbn [dhcp_options_loop].
    rewrite (proj2 (Z.leb_gt n (zlen pre))) by lia. rewrite rd_at_length. obind. cbn zeta.
    rewrite (proj2 (Z.eqb_neq code 0)), (proj2 (Z.eqb_neq code 255)) by lia.
    rewrite (proj2 (Z.leb_gt n (zlen pre + 1))) by lia.
    assert (pre ++ code :: zlen value :: value ++ tail =
            (pre ++ [code]) ++ zlen value :: value ++ tail) as E1 by (by rewrite <- app_assoc).
    assert (zlen (pre ++ [code]) = zlen pre + 1) as HL1 by (by rewrite zlen_app).
    assert (zlen (pre ++ [code; zlen value]) = zlen pre + 2) as HL2 by (by rewrite zlen_app).
    rewrite E1, <- HL1, rd_at_length. obind. rewrite <- E1.
    replace (zlen (pre ++ [code]) + 1) with (zlen (pre ++ [code; zlen value])) by lia.
    rewrite u64_small by lia. rewrite (proj2 (Z.ltb_ge _ _)) by lia.
    assert (pre ++ code :: zlen value :: value ++ tail =
            (pre ++ [code; zlen value]) ++ value ++ tail) as E2 by (by rewrite <- app_assoc).
    assert (zlen (pre ++ code :: zlen value :: value ++ tail) =
            zlen pre + 2 + zlen value + zlen tail) as HLt
      by (rewrite zlen_app, !zlen_cons, zlen_app; lia).
    pose proof (zlen_nonneg tail). rewrite padd_Some by lia.
    rewrite E2 at 1. rewrite drop_zlen. obind.
    rewrite dhcp_option_spec; [| done | | rewrite zlen_app; lia].
    2: { by apply Forall_cons in Hb as [_ [_ Hb]%Forall_cons]. }
    obind. rewrite slice_app_l, slice_all by lia. f_equal. lia.
Qed.

Lemma dhcp_loop_items its : forall fuel pre tail n out,
  Forall item_ok its -> offer_ok out -> bytes_ok (encode_items its ++ tail) ->
  zlen pre + zlen (encode_items its) <= n ->
  n <= zlen (pre ++ encode_items its ++ tail) ->
  zlen (pre ++ encode_items its ++ tail) < 2 ^ 64 ->
  dhcp_options_loop (length its + fuel) (pre ++ encode_items its ++ tail) n (zlen pre) out =
  dhcp_options_loop fuel (pre ++ encode_items its ++ tail) n
    (zlen pre + zlen (encode_items its)) (foldl apply_item out its).
Proof.
  induction its as [| i its IH]; intros fuel pre tail n out Hok Hout Hb Hn Hlen Hmax.
  - change (zlen (encode_items [])) with 0. by rewrite Z.add_0_r.
  - apply Forall_cons in Hok as [Hi Hok]. rewrite encode_items_cons, <- app_assoc in *.
    rewrite zlen_app in Hn. pose proof (zlen_nonneg (encode_items its)).
    cbn [length Nat.add foldl]. rewrite dhcp_loop_item by (done || lia).
    specialize (IH fuel (pre ++ encode_item i) tail n (apply_item out i)).
    rewrite <- app_assoc, zlen_app in IH. rewrite IH; try done; try lia.
    + rewrite zlen_app. f_equal. lia.
    + destruct i; [done | by apply apply_option_ok].
    + unfold bytes_ok in Hb. rewrite Forall_app in Hb. tauto.
Qed.

(** ** What the DHCP builders write *)

Definition dhcp_magic : Z := 1669485411.

Definition dhcp_header (xid : Z) (mac : list Z) : list Z :=
  [1; 1; 6; 0] ++ be32 xid ++ [0; 0] ++ be16 32768 ++ replicate 16 0 ++ mac ++
  replicate 202 0 ++ be32 dhcp_magic.

Definition dhcp_request_list : dhcp_item := Opt 55 [1; 3; 6; 51; 54].

Lemma dhcp_header_writes xid mac :
  zlen mac = 6 ->
  blit (blit (blit (blit (blit (blit (blit (replicate 240 0) 0 [1]) 1 [1]) 2 [6])
    4 (be32 xid)) 10 (be16 32768)) 28 mac) 236 (be32 dhcp_magic) = dhcp_header xid mac.
Proof. intros (a & b & c & d & e & f & ->)%array_6. reflexivity. Qed.

Lemma patch32 (buf pre : list Z) n o v :
  zlen pre = n -> 0 <= o -> o + 4 <= n -> n <= zlen buf ->
  write_be32 (blit buf 0 pre) o v = Some (blit buf 0 (blit pre o (be32 v))) /\
  zlen (blit pre o (be32 v)) = n.
Proof.
  intros <- ???. destruct (blit_patch buf pre (be32 v) o) as [<- HL]; [done.. |].
  split; [apply write_be32_spec; lia | by apply zlen_blit].
Qed.

(** Appending one byte and one address option. *)
Lemma put_byte_spec (buf pre : list Z) o b :
  o = zlen pre -> o + 1 <= zlen buf ->
  put_byte (blit buf 0 pre, o) b = Some (blit buf 0 (pre ++ [b]), o + 1).
Proof. intros. unfold put_byte. cbn [fst snd]. by rewrite put8. Qed.

Lemma put_address_option_spec (buf pre : list Z) o code a :
  o = zlen pre -> zlen a = 4 -> o + 6 <= zlen buf ->
  put_address_option (blit buf 0 pre, o) code a =
  Some (blit buf 0 (pre ++ encode_item (Opt code a)), o + 6).
Proof.
  intros Ho Ha Hl. unfold put_address_option.
  rewrite put_byte_spec by lia. obind. rewrite put_byte_spec by (try lia; solve_len). obind.
  cbn [fst snd]. rewrite put_array by (try lia; solve_len). obind.
  cbn [encode_item]. rewrite Ha, <- !app_assoc. do 2 f_equal. lia.
Qed.

Definition dhcp_items (message_type : Z) (requested_ip server_id : option (list Z)) :
    list dhcp_item :=
  [Opt 53 [message_type]] ++ (Opt 50 <$> option_list requested_ip) ++
  (Opt 54 <$> option_list server_id) ++ [dhcp_request_list].

Definition dhcp_message (xid : Z) (mac : list Z) (message_type : Z)
    (requested_ip server_id : option (list Z)) : list Z :=
  dhcp_header xid mac ++ encode_items (dhcp_items message_type requested_ip server_id) ++ [255].

Lemma encode_items_single i : encode_items [i] = encode_item i.
Proof. unfold encode_items. cbn. apply app_nil_r. Qed.

Lemma zlen_dhcp_header xid mac : zlen mac = 6 -> zlen (dhcp_header xid mac) = 240.
Proof. intros (a & b & c & d & e & f & ->)%array_6. reflexivity. Qed.

(** An address option that may be absent. *)
Lemma put_optional (buf pre : list Z) o code addr :
  zlen pre = o -> (forall a, addr = Some a -> zlen a = 4) -> o + 6 <= zlen buf ->
  exists mid o', zlen mid = o' /\ o <= o' <= o + 6 /\
    match addr with
    | Some a => put_address_option (blit buf 0 pre, o) code a
    | None => Some (blit buf 0 pre, o)
    end = Some (blit buf 0 mid, o') /\
    mid = pre ++ encode_items (Opt code <$> option_list addr).
Proof.
  intros Hp Ha Hl. destruct addr as [a |].
  - rewrite put_address_option_spec by (try (by apply Ha); lia).
    eexists _, (o + 6). split_and!; [| lia | lia | done | by rewrite <- encode_items_single].
    rewrite zlen_app. cbn [encode_item]. rewrite !zlen_cons, (Ha a) by done. lia.
  - eexists _, o. split_and!; [done | lia | lia | done | by rewrite app_nil_r].
Qed.

(** The option part of the message, after the message type. *)
Lemma dhcp_options_written (buf hdr : list Z) capacity rip sid :
  zlen hdr = 243 -> 256 <= capacity <= zlen buf ->
  (forall a, rip = Some a -> zlen a = 4) -> (forall a, sid = Some a -> zlen a = 4) ->
  let msg := hdr ++ encode_items ((Opt 50 <$> option_list rip) ++
                                  (Opt 54 <$> option_list sid) ++ [dhcp_request_list]) ++ [255] in
  exists b,
    (if bool_decide (is_Some rip) && (capacity <? u64 (243 + 6))
     then Some (0, Some (blit buf 0 hdr))
     else
       po ← match rip with
            | Some a => put_address_option (blit buf 0 hdr, 243) 50 a
            | None => Some (blit buf 0 hdr, 243)
            end;
       if bool_decide (is_Some sid) && (capacity <? u64 (po.2 + 6))
       then Some (0, Some po.1)
       else
         po ← match sid with
              | Some a => put_address_option po 54 a
              | None => Some po
              end;
         if capacity <? u64 (po.2 + 8) then Some (0, Some po.1)
         else
           po ← put_byte po 55; po ← put_byte po 5; po ← put_byte po 1; po ← put_byte po 3;
           po ← put_byte po 6; po ← put_byte po 51; po ← put_byte po 54;
           po ← put_byte po 255;
           Some (po.2, Some po.1)) =
    Some (if capacity <? zlen msg then 0 else zlen msg, Some b) /\
    (zlen msg <= capacity -> b = blit buf 0 msg) /\ zlen b = zlen buf.
Proof.
  intros Hh Hc Hr Hs. cbn zeta.
  rewrite (proj2 (Z.ltb_ge capacity (u64 (243 + 6)))) by (rewrite u64_small; lia).
  rewrite andb_false_r.
  destruct (put_optional buf hdr 243 50 rip) as (mid & o & Hmid & Ho & -> & Em); [done || lia.. |].
  obind. cbn [fst snd].
  rewrite (proj2 (Z.ltb_ge capacity (u64 (o + 6)))) by (rewrite u64_small; lia).
  rewrite andb_false_r.
  destruct (put_optional buf mid o 54 sid) as (mid' & o' & Hmid' & Ho' & -> & Em'); [done || lia.. |].
  obind. cbn [fst snd].
  assert (hdr ++ encode_items ((Opt 50 <$> option_list rip) ++ (Opt 54 <$> option_list sid) ++
                               [dhcp_request_list]) ++ [255] =
          mid' ++ [55; 5; 1; 3; 6; 51; 54; 255]) as ->.
  { rewrite Em', Em. unfold encode_items. rewrite !fmap_app, !join_app, <- !app_assoc. done. }
  rewrite zlen_app, Hmid'. change (zlen [55; 5; 1; 3; 6; 51; 54; 255]) with 8.
  rewrite u64_small by lia. destruct (Z.ltb_spec capacity (o' + 8)).
  { eexists. split; [done |]. split; [lia | apply zlen_blit; lia]. }
  do 8 (rewrite put_byte_spec by (try lia; solve_len); obind).
  eexists. split; [cbn [fst snd]; do 2 f_equal; lia |].
  rewrite <- !app_assoc. cbn [app]. split; [done |].
  apply zlen_blit; [lia |]. rewrite zlen_app, Hmid'.
  change (zlen [55; 5; 1; 3; 6; 51; 54; 255]) with 8. lia.
Qed.

Lemma dhcp_build_base_spec buf capacity xid mac mt rip sid :
  256 <= capacity <= zlen buf -> zlen mac = 6 ->
  (forall a, rip = Some a -> zlen a = 4) -> (forall a, sid = Some a -> zlen a = 4) ->
  let msg := dhcp_message xid mac mt rip sid in
  exists b, dhcp_build_base (Some buf) capacity xid (Some mac) mt rip sid =
      Some (if capacity <? zlen msg then 0 else zlen msg, Some b) /\
    (zlen msg <= capacity -> b = blit buf 0 msg) /\ zlen b = zlen buf.
Proof.
  intros Hc Hm Hr Hs. cbn zeta. unfold dhcp_build_base.
  rewrite (proj2 (Z.ltb_ge capacity 256)) by lia.
  rewrite zero_bytes_spec by lia. obind. change (Z.to_nat 240) with 240%nat.
  assert (zlen (replicate 240 0) = 240) as HZ by reflexivity.
  do 3 patch HZ. destruct (patch32 buf _ _ 4 xid HZ) as [E HZ']; [lia.. |].
  rewrite E. obind. do 2 patch HZ'.
  destruct (patch32 buf _ _ 236 dhcp_magic HZ') as [E' _]; [lia.. |].
  fold dhcp_magic. rewrite E'. obind. rewrite dhcp_header_writes by done. clear E E' HZ HZ'.
  pose proof (zlen_dhcp_header xid mac Hm) as HL.
  do 3 (rewrite put_byte_spec by (try lia; solve_len); obind). cbn [fst snd].
  rewrite <- !app_assoc.
  destruct (dhcp_options_written buf (dhcp_header xid mac ++ [53] ++ [1] ++ [mt])
              capacity rip sid) as (b & E & Hb); [by rewrite zlen_app, HL | done.. |].
  exists b. unfold dhcp_message, dhcp_items. change (240 + 1 + 1 + 1) with 243.
  rewrite <- !app_assoc in *. done.
Qed.

Lemma encode_items_length its : (length its <= Z.to_nat (zlen (encode_items its)))%nat.
Proof.
  induction its as [| i its IH]; [cbn; lia |].
  rewrite encode_items_cons. unfold zlen in *. rewrite length_app. cbn [length].
  destruct i; cbn [encode_item length]; lia.
Qed.

(** ** Theorems on DHCP *)

(** The DHCP builders write a well-formed BOOTP request.  With room for the
    message they return its exact length and the buffer starts with the
    240-byte header (transaction id, broadcast flag, client MAC, magic cookie)
    followed by the encoded options (message type, for a request the requested
    address and the server id, the parameter list) and the end mark; with less
    room they return 0.  They never write outside the buffer. *)
Theorem dhcp_build_correct buf capacity xid mac ip sid :
  0 <= capacity <= zlen buf -> zlen mac = 6 -> zlen ip = 4 -> zlen sid = 4 ->
  let discover := dhcp_message xid mac 1 None None in
  let request := dhcp_message xid mac 3 (Some ip) (Some sid) in
  zlen discover = 251 /\ zlen request = 263 /\
  (exists b, josh_dhcp_build_discover (Some buf) capacity xid (Some mac) =
       Some (if capacity <? 256 then 0 else 251, Some b) /\
     (256 <= capacity -> b = blit buf 0 discover) /\ zlen b = zlen buf) /\
  (exists b, josh_dhcp_build_request (Some buf) capacity xid (Some mac) (Some ip) (Some sid) =
       Some (if capacity <? 263 then 0 else 263, Some b) /\
     (263 <= capacity -> b = blit buf 0 request) /\ zlen b = zlen buf).
Proof.
  intros Hc Hm Hi Hs. cbn zeta.
  destruct (array_4 ip Hi) as (i0 & i1 & i2 & i3 & ->).
  destruct (array_4 sid Hs) as (s0 & s1 & s2 & s3 & ->).
  pose proof (zlen_dhcp_header xid mac Hm) as HL.
  assert (zlen (dhcp_message xid mac 1 None None) = 251) as HD
    by (unfold dhcp_message; rewrite zlen_app, HL; done).
  assert (zlen (dhcp_message xid mac 3 (Some [i0; i1; i2; i3]) (Some [s0; s1; s2; s3])) = 263) as HR
    by (unfold dhcp_message; rewrite zlen_app, HL; done).
  split; [done |]. split; [done |].
  unfold josh_dhcp_build_discover, josh_dhcp_build_request.
  destruct (Z.ltb_spec capacity 256).
  { rewrite (proj2 (Z.ltb_lt capacity 263)) by lia. unfold dhcp_build_base.
    rewrite (proj2 (Z.ltb_lt capacity 256)) by lia.
    split; exists buf; (split; [done | split; [lia | done]]). }
  split.
  - destruct (dhcp_build_base_spec buf capacity xid mac 1 None None) as (b & E & Hb & HLb);
      [lia | done | done | done |]. exists b. rewrite E, HD in *.
    rewrite (proj2 (Z.ltb_ge capacity 251)) by lia. split; [done |]. split; [| done].
    intros _. apply Hb. lia.
  - destruct (dhcp_build_base_spec buf capacity xid mac 3 (Some [i0; i1; i2; i3])
                (Some [s0; s1; s2; s3])) as (b & E & Hb & HLb);
      [lia | done | by intros ? [= <-] | by intros ? [= <-] |].
    exists b. by rewrite E, HR in *.
Qed.

Definition zero_address : list Z := replicate 4 0.

(** A BOOTP reply header for transaction [xid]. *)
Definition dhcp_reply_header (hdr : list Z) (xid : Z) : Prop :=
  zlen hdr = 240 /\ bytes_ok hdr /\ byte_at hdr 0 = 2 /\ byte_at hdr 1 = 1 /\
  byte_at hdr 2 = 6 /\ be_val (slice hdr 4 4) = xid /\ be_val (slice hdr 236 4) = dhcp_magic.

Lemma byte_at_app_l l1 l2 i : 0 <= i < zlen l1 -> byte_at (l1 ++ l2) i = byte_at l1 i.
Proof. intros. unfold byte_at. by rewrite rd_app_l by lia. Qed.

(** The header checks pass on such a reply. *)
Lemma dhcp_reply_accepts hdr body n xid out :
  dhcp_reply_header hdr xid -> packet_ok (hdr ++ body) n -> 240 <= n ->
  josh_dhcp_parse_reply (Some (hdr ++ body)) n xid (Some out) =
  (so ← dhcp_options_loop (Z.to_nat n) (hdr ++ body) n 240
          (mk_dhcp_offer 0 (slice hdr 16 4) zero_address zero_address zero_address zero_address 0);
   let '(status, out) := so in
   if bool_decide (status <> JOSH_NET_OK) then Some (status, Some out)
   else if negb (dhcp_message_type out =? 2) && negb (dhcp_message_type out =? 5)
   then Some (JOSH_NET_ERR_MALFORMED, Some out)
   else Some (JOSH_NET_OK, Some out)).
Proof.
  intros (HL & Hhb & H0 & H1 & H2 & Hx & Hm) (Hb & Hn & Hmax) H240.
  unfold josh_dhcp_parse_reply. rewrite (proj2 (Z.ltb_ge n 240)) by lia.
  do 3 parse_step. rewrite !byte_at_app_l, H0, H1, H2 by lia. cbn [negb orb Z.eqb Pos.eqb].
  parse_step. rewrite slice_app_l, Hx, Z.eqb_refl by lia. cbn [negb].
  parse_step. rewrite slice_app_l, Hm by lia. change (dhcp_magic =? 1669485411) with true.
  cbn [negb]. cbn zeta.
  rewrite copy_array_spec by (done || lia). obind. by rewrite slice_app_l by lia.
Qed.

(** C5. A DHCP reply is decoded as RFC 2132 says.  For a reply with a valid
    header for our transaction, followed by any sequence of padding bytes and
    options, the end mark and arbitrary trailing bytes, the parser terminates
    and returns the structure obtained by applying the options in order, and
    accepts exactly when the message type is OFFER or ACK. *)
Theorem dhcp_parse_reply_correct hdr its junk n xid out :
  let packet := hdr ++ encode_items its ++ [255] ++ junk in
  dhcp_reply_header hdr xid -> Forall item_ok its -> bytes_ok junk ->
  bytes_ok (encode_items its) -> zlen packet < 2 ^ 64 ->
  zlen hdr + zlen (encode_items its) < n <= zlen packet ->
  let offer := foldl apply_item
                 (mk_dhcp_offer 0 (slice hdr 16 4) zero_address zero_address zero_address
                    zero_address 0) its in
  josh_dhcp_parse_reply (Some packet) n xid (Some out) =
  Some (if (dhcp_message_type offer =? 2) || (dhcp_message_type offer =? 5)
        then JOSH_NET_OK else JOSH_NET_ERR_MALFORMED, Some offer).
Proof.
  intros packet Hh Hits Hj Heb Hmax Hn offer. pose proof Hh as (HL & Hhb & _).
  pose proof (zlen_nonneg (encode_items its)).
  assert (packet_ok packet n) as Hp.
  { split; [| lia]. unfold packet, bytes_ok. rewrite !Forall_app. split_and!; try done.
    by repeat constructor. }
  unfold packet at 1. rewrite dhcp_reply_accepts; [| done | done | lia].
  assert (length its <= Z.to_nat (zlen (encode_items its)))%nat as Hlen by apply encode_items_length.
  replace (Z.to_nat n) with (length its + S (Z.to_nat n - length its - 1))%nat by lia.
  rewrite <- HL. rewrite dhcp_loop_items; try done; try lia; try (fold packet; lia).
  2: { unfold offer_ok. cbn. split_and!; try done. apply zlen_slice; lia. }
  2: { unfold bytes_ok. rewrite !Forall_app. split_and!; try done. by repeat constructor. }
  fold offer. cbn [dhcp_options_loop]. rewrite (proj2 (Z.leb_gt n _)) by lia.
  fold packet. assert (rd packet (zlen hdr + zlen (encode_items its)) = Some 255) as ->.
  { unfold packet. rewrite <- zlen_app, app_assoc. apply rd_at_length. }
  obind. change (255 =? 0) with false. change (255 =? 255) with true.
  obind. rewrite bool_decide_false by tauto.
  by destruct (dhcp_message_type offer =? 2), (dhcp_message_type offer =? 5).
Qed.

(** ** DNS names *)

(** A name as it appears in a message: labels, then the root or a pointer. *)
Inductive dns_end := Root | Pointer (hi lo : Z).

Definition encode_label (l : list Z) : list Z := zlen l :: l.
Definition encode_labels (ls : list (list Z)) : list Z := mjoin (encode_label <$> ls).
Definition encode_end (e : dns_end) : list Z :=
  match e with Root => [0] | Pointer hi lo => [hi; lo] end.
Definition encode_name (ls : list (list Z)) (e : dns_end) : list Z :=
  encode_labels ls ++ encode_end e.

Definition label_ok (l : list Z) : Prop := 1 <= zlen l <= 63.
Definition end_ok (e : dns_end) : Prop :=
  match e with Root => True | Pointer hi lo => 192 <= hi < 256 end.
Definition name_ok (ls : list (list Z)) (e : dns_end) : Prop :=
  Forall label_ok ls /\ zlen ls <= 127 /\ end_ok e.

(** The two top bits of a byte. *)
Lemma land_192_low z : 0 <= z < 64 -> Z.land z 192 = 0.
Proof.
  intros. apply Z.bits_inj'. intros n Hn. rewrite Z.land_spec, Z.bits_0.
  destruct (Z.ltb_spec n 6).
  - change 192 with (3 * 2 ^ 6). by rewrite Z.mul_pow2_bits_low, andb_false_r by lia.
  - rewrite <- (Z.mod_small z (2 ^ 6)) by lia. by rewrite Z.mod_pow2_bits_high by lia.
Qed.

Lemma land_192_high z : 192 <= z < 256 -> Z.land z 192 = 192.
Proof.
  intros. replace z with (192 + (z - 192)) by lia.
  rewrite (Z.add_nocarry_lor 192 (z - 192)).
  - rewrite Z.land_lor_distr_l. rewrite (land_192_low (z - 192)) by lia. done.
  - rewrite Z.land_comm. apply land_192_low. lia.
Qed.

(** On any bytes the skipping loop ends inside the message. *)
Lemma dns_skip_loop_total fuel p n pos labels :
  packet_ok p n -> 0 <= pos -> 0 <= labels -> 128 <= labels + Z.of_nat fuel ->
  labels <= 127 ->
  exists st off, dns_skip_loop fuel p n pos labels = Some (st, off) /\
    (st = JOSH_NET_OK <-> is_Some off) /\ (forall o, off = Some o -> pos < o <= n).
Proof.
  intros (Hb & Hn & Hmax). revert pos labels.
  induction fuel as [| fuel IH]; intros pos labels Hpos Hl Hf Hmx;
    (cbn [dns_skip_loop]; if_case; bool_cases;
     [eexists _, _; split; [done |]; split; [split; [done | by intros [? ?]] | done] |]); [lia |].
  destruct (byte_at_spec p pos Hb) as [-> Hs]; [lia |]. obind. cbn zeta.
  if_case; bool_cases.
  { eexists _, _; split; [done |]. split; [done | intros o [= <-]; lia]. }
  if_case; bool_cases.
  { if_case; bool_cases; eexists _, _; (split; [done |]).
    - split; [split; [done | by intros [? ?]] | done].
    - split; [done | intros o [= <-]; lia]. }
  if_case; [eexists _, _; split; [done |]; split; [split; [done | by intros [? ?]] | done] |].
  bool_cases. rewrite u64_small in * by lia.
  if_case; bool_cases;
    [eexists _, _; split; [done |]; split; [split; [done | by intros [? ?]] | done] |].
  destruct (IH (pos + 1 + byte_at p pos) (labels + 1)) as (st & off & -> & Hst & Ho); [lia.. |].
  eexists _, _; split; [done |]. split; [done |]. intros o Eo. specialize (Ho o Eo). lia.
Qed.

Lemma dns_skip_name_total p n offset :
  packet_ok p n -> 0 <= offset <= n ->
  exists st off, dns_skip_name p n offset = Some (st, off) /\ offset <= off <= n /\
    (st = JOSH_NET_OK -> offset < off).
Proof.
  intros Hp Ho. unfold dns_skip_name.
  destruct (dns_skip_loop_total 128 p n offset 0) as (st & off & -> & Hst & Hoff); [done | lia.. |].
  obind. eexists _, _; split; [done |]. cbn [fst snd]. destruct off as [o |]; cbn [default from_option id].
  - specialize (Hoff o eq_refl). lia.
  - split; [lia |]. intros [? ?]%Hst. done.
Qed.

Lemma dns_questions_total k p n offset :
  packet_ok p n -> 0 <= offset <= n ->
  exists st off, dns_questions_loop k p n offset = Some (st, off) /\ 0 <= off <= n.
Proof.
  intros Hp. pose proof Hp as (Hb & Hn & Hmax). revert offset.
  induction k as [| k IH]; intros offset Ho; cbn [dns_questions_loop]; [by eexists _, _ |].
  destruct (dns_skip_name_total p n offset Hp Ho) as (st & off & -> & Hoff & _). obind.
  if_case; [eexists _, _; split; [done | lia] |].
  rewrite u64_small by lia. if_case; bool_cases; [eexists _, _; split; [done | lia] |].
  apply IH. lia.
Qed.

Lemma dns_answers_total k p n offset address :
  packet_ok p n -> 0 <= offset <= n -> zlen address = 4 ->
  exists st a, dns_answers_loop k p n offset address = Some (st, a) /\ zlen a = 4.
Proof.
  intros Hp. pose proof Hp as (Hb & Hn & Hmax). revert offset.
  induction k as [| k IH]; intros offset Ho Ha; cbn [dns_answers_loop]; [by eexists _, _ |].
  destruct (dns_skip_name_total p n offset Hp Ho) as (st & off & -> & Hoff & _). obind.
  if_case; [by eexists _, _ |].
  rewrite u64_small by lia. if_case; bool_cases; [by eexists _, _ |].
  do 3 parse_step. cbn zeta. rewrite u64_small by lia.
  if_case; bool_cases; [by eexists _, _ |].
  if_case; bool_cases.
  - rewrite copy_array_spec by lia. obind. eexists _, _; split; [done |]. apply zlen_slice; lia.
  - apply IH; [lia | done].
Qed.

(** Names the skipping loop steps over. *)
Lemma encode_labels_cons l ls : encode_labels (l :: ls) = encode_label l ++ encode_labels ls.
Proof. done. Qed.

Lemma dns_skip_loop_name ls : forall fuel pre e tail n labels,
  Forall label_ok ls -> end_ok e -> zlen pre + zlen (encode_name ls e) <= n -> n < 2 ^ 64 ->
  0 <= labels -> labels + zlen ls <= 127 -> (length ls < fuel)%nat ->
  dns_skip_loop fuel (pre ++ encode_name ls e ++ tail) n (zlen pre) labels =
  Some (JOSH_NET_OK, Some (zlen pre + zlen (encode_name ls e))).
Proof.
  induction ls as [| l ls IH]; intros fuel pre e tail n labels Hls He Hn Hmax Hlb Hmx Hf;
    (destruct fuel as [| fuel]; [lia |]); pose proof (zlen_nonneg pre).
  - unfold encode_name in *. change (encode_labels []) with (@nil Z) in *. rewrite app_nil_l in *.
    cbn [dns_skip_loop]. destruct e as [| hi lo]; cbn [encode_end app] in *.
    + change (zlen [0]) with 1 in *. rewrite (proj2 (Z.leb_gt _ _)) by lia.
      rewrite rd_at_length. obind. done.
    + change (zlen [hi; lo]) with 2 in *. rewrite (proj2 (Z.leb_gt n (zlen pre))) by lia.
      rewrite rd_at_length. obind. cbn [end_ok] in He. cbn zeta.
      rewrite (proj2 (Z.eqb_neq hi 0)) by lia. rewrite land_192_high, Z.eqb_refl by lia.
      rewrite (proj2 (Z.leb_gt n _)) by lia. do 3 f_equal. lia.
  - apply Forall_cons in Hls as [Hl Hls]. unfold label_ok in Hl.
    unfold encode_name in *. rewrite encode_labels_cons in *. rewrite <- !app_assoc in *.
    rewrite (zlen_app (encode_label l)) in *. unfold encode_label in *. rewrite zlen_cons in *.
    pose proof (zlen_nonneg (encode_labels ls ++ encode_end e)).
    cbn [dns_skip_loop app]. rewrite (proj2 (Z.leb_gt n (zlen pre))) by lia.
    rewrite rd_at_length. obind. cbn zeta. rewrite (proj2 (Z.eqb_neq (zlen l) 0)) by lia.
    rewrite land_192_low by lia. cbn [Z.eqb negb orb].
    rewrite (proj2 (Z.ltb_ge 63 _)) by lia. rewrite u64_small by lia.
    rewrite (proj2 (Z.ltb_ge _ _)) by lia. cbn [orb]. rewrite zlen_cons in Hmx.
    pose proof (zlen_nonneg ls). rewrite (proj2 (Z.ltb_ge 127 _)) by lia.
    specialize (IH fuel (pre ++ zlen l :: l) e tail n (labels + 1)).
    rewrite zlen_app, zlen_cons, <- !app_assoc in IH. cbn [app length] in *.
    replace (zlen pre + 1 + zlen l) with (zlen pre + (1 + zlen l)) by lia.
    rewrite IH; [do 3 f_equal; lia | done | done | lia..].
Qed.

Lemma dns_skip_name_spec pre ls e tail n :
  name_ok ls e -> zlen pre + zlen (encode_name ls e) <= n -> n < 2 ^ 64 ->
  dns_skip_name (pre ++ encode_name ls e ++ tail) n (zlen pre) =
  Some (JOSH_NET_OK, zlen pre + zlen (encode_name ls e)).
Proof.
  intros (Hls & Hlen & He) Hn Hmax. unfold dns_skip_name.
  rewrite dns_skip_loop_name; [done | done | done | done | done | lia | lia |].
  unfold zlen in Hlen. lia.
Qed.

(** ** DNS queries *)

(** A host name with the given labels, as a C string; any C string is one. *)
Fixpoint dotted (ls : list (list Z)) : list Z :=
  match ls with
  | [] => []
  | [l] => l ++ [0]
  | l :: ls => l ++ 46 :: dotted ls
  end.

Definition chars_ok (l : list Z) : Prop := Forall (fun c => c <> 0 /\ c <> 46) l.

Definition dns_query_bytes (id : Z) (ls : list (list Z)) : list Z :=
  be16 id ++ be16 256 ++ be16 1 ++ replicate 6 0 ++ encode_name ls Root ++ be16 1 ++ be16 1.

Lemma label_length_spec l c r :
  chars_ok l -> c = 0 \/ c = 46 -> label_length (l ++ c :: r) = Some (zlen l).
Proof.
  intros Hl Hc. induction Hl as [| x l [Hx0 Hx46] Hl IH]; cbn [app label_length].
  - by destruct Hc as [-> | ->].
  - rewrite (proj2 (Z.eqb_neq x 0)), (proj2 (Z.eqb_neq x 46)) by done. cbn [orb].
    rewrite IH. obind. rewrite zlen_cons. f_equal. lia.
Qed.

(** One label: rejected, or copied and its terminator read. *)
Lemma dns_label_step fuel (buf pre : list Z) capacity l c r :
  chars_ok l -> c = 0 \/ c = 46 -> 0 <= capacity <= zlen buf -> zlen buf < 2 ^ 63 ->
  zlen pre <= zlen buf -> zlen l < 2 ^ 63 - 6 ->
  (~ (label_ok l /\ zlen pre + 1 + zlen l + 5 <= capacity) ->
   dns_labels_loop (S fuel) (blit buf 0 pre) capacity (zlen pre) (l ++ c :: r) =
   Some (blit buf 0 pre, None)) /\
  (label_ok l /\ zlen pre + 1 + zlen l + 5 <= capacity ->
   dns_labels_loop (S fuel) (blit buf 0 pre) capacity (zlen pre) (l ++ c :: r) =
   if c =? 0 then Some (blit buf 0 (pre ++ encode_label l), Some (zlen (pre ++ encode_label l)))
   else dns_labels_loop fuel (blit buf 0 (pre ++ encode_label l)) capacity
          (zlen (pre ++ encode_label l)) r).
Proof.
  intros Hl Hc Hcap Hmax Hpre Hll. pose proof (zlen_nonneg pre). pose proof (zlen_nonneg l).
  unfold label_ok. cbn [dns_labels_loop]. rewrite label_length_spec by done. obind.
  rewrite u64_small by lia. split.
  - intros Hbad. destruct (Z.eqb_spec (zlen l) 0); [done |].
    destruct (Z.ltb_spec 63 (zlen l)); [done |].
    destruct (Z.ltb_spec capacity (zlen pre + 1 + zlen l + 5)); [done | lia].
  - intros [Hlb Hfit]. rewrite (proj2 (Z.eqb_neq (zlen l) 0)), (proj2 (Z.ltb_ge 63 _)),
      (proj2 (Z.ltb_ge capacity _)) by lia. cbn [orb].
    rewrite u8_small by lia. rewrite put8 by lia. obind.
    assert (zlen (pre ++ [zlen l]) = zlen pre + 1) as HL1 by (by rewrite zlen_app).
    assert (zlen (pre ++ encode_label l) = zlen pre + 1 + zlen l) as HL2
      by (rewrite zlen_app; unfold encode_label; rewrite zlen_cons; lia).
    rewrite copy_loop_spec; rewrite ?Z2Nat.id by lia;
      [| lia | lia | rewrite zlen_blit; lia | rewrite zlen_app, zlen_cons; pose proof (zlen_nonneg r); lia].
    obind. rewrite slice_app_l, slice_all by lia.
    destruct (blit_append buf (pre ++ [zlen l]) l (zlen pre + 1)) as [-> _]; [lia.. |].
    rewrite <- app_assoc. change ([zlen l] ++ l) with (encode_label l).
    rewrite rd_at_length. obind. rewrite HL2. if_case; [done |].
    rewrite padd_Some by (rewrite zlen_app, zlen_cons; pose proof (zlen_nonneg r); lia).
    obind. f_equal. replace (zlen l + 1) with (zlen (l ++ [c])) by (rewrite zlen_app; done).
    assert (l ++ c :: r = (l ++ [c]) ++ r) as -> by (by rewrite <- app_assoc).
    apply drop_zlen.
Qed.

Lemma dns_labels_loop_spec ls : forall fuel (buf pre rest : list Z) capacity,
  ls <> [] -> Forall chars_ok ls -> 0 <= capacity <= zlen buf -> zlen buf < 2 ^ 63 ->
  zlen pre <= zlen buf -> zlen (dotted ls) < 2 ^ 63 - 6 -> (length ls <= fuel)%nat ->
  let fits := Forall label_ok ls /\ zlen pre + zlen (encode_labels ls) + 5 <= capacity in
  exists b r, dns_labels_loop fuel (blit buf 0 pre) capacity (zlen pre) (dotted ls ++ rest) =
      Some (b, r) /\ zlen b = zlen buf /\ (~ fits -> r = None) /\
    (fits -> b = blit buf 0 (pre ++ encode_labels ls) /\
             r = Some (zlen (pre ++ encode_labels ls))).
Proof.
  induction ls as [| l ls IH]; intros fuel buf pre rest capacity Hne Hch Hcap Hmax Hpre Hdl Hf; [done |].
  destruct fuel as [| fuel]; [cbn in Hf; lia |]. apply Forall_cons in Hch as [Hl Hch].
  pose proof (zlen_nonneg pre). pose proof (zlen_nonneg l). pose proof (zlen_nonneg (encode_labels ls)).
  cbn zeta. rewrite encode_labels_cons, zlen_app.
  pose proof (Forall_cons label_ok l ls) as HF. unfold label_ok at 2 in HF.
  assert (zlen (encode_label l) = 1 + zlen l) as HE by (unfold encode_label; by rewrite zlen_cons).
  assert (exists c r, dotted (l :: ls) ++ rest = l ++ c :: r /\ zlen l < 2 ^ 63 - 6 /\
    ((ls = [] /\ c = 0) \/ (ls <> [] /\ c = 46 /\ r = dotted ls ++ rest /\
       zlen (dotted ls) < 2 ^ 63 - 6))) as (c & r & Ed & Hll & Hc).
  { destruct ls as [| l' ls].
    - exists 0, rest. cbn [dotted] in *. rewrite <- app_assoc. rewrite zlen_app in Hdl.
      change (zlen [0]) with 1 in Hdl. split_and!; [done | lia | by left].
    - exists 46, (dotted (l' :: ls) ++ rest).
      change (dotted (l :: l' :: ls)) with (l ++ 46 :: dotted (l' :: ls)) in *.
      rewrite zlen_app, zlen_cons in Hdl. pose proof (zlen_nonneg (dotted (l' :: ls))).
      rewrite <- app_assoc. split_and!; [done | lia | right; split_and!; [done | done | done | lia]]. }
  rewrite Ed. destruct (dns_label_step fuel buf pre capacity l c r) as [Hbad Hgood];
    [done | destruct Hc as [[_ ->] | (_ & -> & _)]; tauto | done.. |].
  destruct (decide (1 <= zlen l <= 63 /\ zlen pre + 1 + zlen l + 5 <= capacity)) as [Hok | Hno].
  2: { rewrite Hbad by (unfold label_ok; tauto). eexists _, _. split; [done |].
       split; [apply zlen_blit; lia |]. split; [done |].
       intros [[? _]%HF ?]. destruct Hno. lia. }
  rewrite Hgood by (unfold label_ok; tauto). destruct Hc as [[-> ->] | (Hne' & -> & -> & Hdl')].
  - change (zlen (encode_labels [])) with 0.
    assert (encode_label l ++ encode_labels [] = encode_label l) as -> by apply app_nil_r.
    eexists _, _.
    split; [done |]. split; [apply zlen_blit; rewrite ?zlen_app; lia |].
    split; [| done]. intros []. split; [apply HF; split; [lia | constructor] | lia].
  - cbn [Z.eqb]. destruct (IH fuel buf (pre ++ encode_label l) rest capacity)
      as (b & r & E & HLb & Hno & Hyes); try done; [rewrite zlen_app; lia | cbn in Hf; lia |].
    cbn zeta in *. rewrite zlen_app, <- !app_assoc in *. exists b, r. rewrite E.
    split; [done |]. split; [done |]. split.
    + intros Hn. apply Hno. intros [? ?]. apply Hn. split; [apply HF; split; [lia | done] | lia].
    + intros [[? ?]%HF ?]. apply Hyes. split; [done | lia].
Qed.

(** ** DNS responses *)

Record dns_question := mk_question { q_labels : list (list Z); q_end : dns_end; q_info : list Z }.

Record dns_record := mk_record {
  rr_labels : list (list Z);
  rr_end : dns_end;
  rr_type : Z;
  rr_class : Z;
  rr_ttl : list Z;
  rr_data : list Z;
}.

Definition question_ok (q : dns_question) : Prop :=
  name_ok (q_labels q) (q_end q) /\ zlen (q_info q) = 4.

Definition record_ok (r : dns_record) : Prop :=
  name_ok (rr_labels r) (rr_end r) /\ 0 <= rr_type r < 65536 /\ 0 <= rr_class r < 65536 /\
  zlen (rr_ttl r) = 4 /\ zlen (rr_data r) < 65536.

Definition encode_question (q : dns_question) : list Z :=
  encode_name (q_labels q) (q_end q) ++ q_info q.

Definition encode_record (r : dns_record) : list Z :=
  encode_name (rr_labels r) (rr_end r) ++
  be16 (rr_type r) ++ be16 (rr_class r) ++ rr_ttl r ++ be16 (zlen (rr_data r)) ++ rr_data r.

Definition encode_questions (qs : list dns_question) : list Z := mjoin (encode_question <$> qs).
Definition encode_records (rs : list dns_record) : list Z := mjoin (encode_record <$> rs).

(** An Internet address record, and the first one of a list. *)
Definition is_a_record (r : dns_record) : bool :=
  (rr_type r =? 1) && (rr_class r =? 1) && (zlen (rr_data r) =? 4).

Fixpoint first_a (rs : list dns_record) : option (list Z) :=
  match rs with
  | [] => None
  | r :: rs => if is_a_record r then Some (rr_data r) else first_a rs
  end.

Lemma dns_questions_spec qs : forall pre tail n,
  Forall question_ok qs -> zlen pre + zlen (encode_questions qs) <= n -> n < 2 ^ 64 ->
  dns_questions_loop (length qs) (pre ++ encode_questions qs ++ tail) n (zlen pre) =
  Some (JOSH_NET_OK, zlen pre + zlen (encode_questions qs)).
Proof.
  induction qs as [| q qs IH]; intros pre tail n Hok Hn Hmax.
  - cbn [length dns_questions_loop]. change (zlen (encode_questions [])) with 0.
    by rewrite Z.add_0_r.
  - apply Forall_cons in Hok as [[Hq H4] Hok].
    change (encode_questions (q :: qs)) with (encode_question q ++ encode_questions qs) in *.
    unfold encode_question in *. rewrite <- !app_assoc in *. rewrite !zlen_app in Hn.
    pose proof (zlen_nonneg pre). pose proof (zlen_nonneg (encode_questions qs)).
    pose proof (zlen_nonneg (encode_name (q_labels q) (q_end q))).
    cbn [length dns_questions_loop]. rewrite dns_skip_name_spec by (done || lia). obind.
    rewrite bool_decide_false by tauto. rewrite u64_small by lia.
    rewrite (proj2 (Z.ltb_ge _ _)) by lia.
    specialize (IH (pre ++ encode_name (q_labels q) (q_end q) ++ q_info q) tail n Hok).
    rewrite <- !app_assoc, !zlen_app, H4 in IH. rewrite !zlen_app, H4.
    replace (zlen pre + zlen (encode_name (q_labels q) (q_end q)) + 4)
      with (zlen pre + (zlen (encode_name (q_labels q) (q_end q)) + 4)) by lia.
    rewrite IH by lia. do 2 f_equal. lia.
Qed.

Lemma dotted_length_le ls rest :
  ls <> [] -> (length ls <= S (length (dotted ls ++ rest)))%nat.
Proof.
  intros _. rewrite length_app. enough (length ls <= S (length (dotted ls)))%nat by lia.
  induction ls as [| l [| l' ls] IH]; [cbn; lia | cbn; lia |].
  change (dotted (l :: l' :: ls)) with (l ++ 46 :: dotted (l' :: ls)).
  rewrite length_app. cbn [length] in *. lia.
Qed.

(** A word and a run of bytes at a known place. *)
Lemma read_word_at p pre v tail o :
  p = pre ++ be16 v ++ tail -> o = zlen pre -> 0 <= v < 65536 -> bytes_ok p ->
  read_be16 p o = Some v.
Proof.
  intros -> -> Hv Hb. pose proof (zlen_nonneg pre). pose proof (zlen_nonneg tail).
  destruct (read_be16_spec (pre ++ be16 v ++ tail) (zlen pre)) as [-> _];
    [done | lia | rewrite !zlen_app, zlen_be16; lia |].
  rewrite slice_app_r by lia. rewrite Z.sub_diag. rewrite slice_app_l by (rewrite ?zlen_be16; lia).
  rewrite slice_all by done. by rewrite be_val_be16.
Qed.

Lemma slice_at {A} (p pre bs tail : list A) o n :
  p = pre ++ bs ++ tail -> o = zlen pre -> n = zlen bs -> slice p o n = bs.
Proof.
  intros -> -> ->. pose proof (zlen_nonneg bs). rewrite slice_app_r by lia.
  rewrite Z.sub_diag, slice_app_l by lia. by apply slice_all.
Qed.

(** The parts of an encoded record. *)
Lemma dns_record_parts pre r tail :
  record_ok r -> bytes_ok (pre ++ encode_record r ++ tail) ->
  let p := pre ++ encode_record r ++ tail in
  let o := zlen pre + zlen (encode_name (rr_labels r) (rr_end r)) in
  read_be16 p o = Some (rr_type r) /\ read_be16 p (o + 2) = Some (rr_class r) /\
  read_be16 p (o + 8) = Some (zlen (rr_data r)) /\
  slice p (o + 10) (zlen (rr_data r)) = rr_data r /\
  zlen (encode_record r) = zlen (encode_name (rr_labels r) (rr_end r)) + 10 + zlen (rr_data r) /\
  p = pre ++ encode_name (rr_labels r) (rr_end r) ++
      drop (length (encode_name (rr_labels r) (rr_end r))) (encode_record r) ++ tail.
Proof.
  intros (Hname & Hty & Hcl & Httl & Hdata) Hb p o. fold p in Hb.
  pose proof (zlen_nonneg (rr_data r)). unfold encode_record in *.
  set (name := encode_name (rr_labels r) (rr_end r)) in *. split_and!.
  - by eapply (read_word_at p (pre ++ name));
      [unfold p; by rewrite <- !app_assoc | rewrite !zlen_app; lia | done | done].
  - by eapply (read_word_at p (pre ++ name ++ be16 (rr_type r)));
      [unfold p; by rewrite <- !app_assoc | rewrite !zlen_app, zlen_be16; lia | done | done].
  - eapply (read_word_at p (pre ++ name ++ be16 (rr_type r) ++ be16 (rr_class r) ++ rr_ttl r));
      [unfold p; by rewrite <- !app_assoc | rewrite !zlen_app, !zlen_be16; lia | lia | done].
  - eapply (slice_at p (pre ++ name ++ be16 (rr_type r) ++ be16 (rr_class r) ++ rr_ttl r ++
                        be16 (zlen (rr_data r))));
      [unfold p; by rewrite <- !app_assoc | rewrite !zlen_app, !zlen_be16; lia | done].
  - rewrite !zlen_app, !zlen_be16. lia.
  - unfold p. rewrite drop_app_length. by rewrite <- !app_assoc.
Qed.

Lemma dns_record_step k pre r tail n address :
  record_ok r -> bytes_ok (pre ++ encode_record r ++ tail) -> zlen address = 4 ->
  zlen pre + zlen (encode_record r) <= n -> n < 2 ^ 64 ->
  dns_answers_loop (S k) (pre ++ encode_record r ++ tail) n (zlen pre) address =
  if is_a_record r then Some (JOSH_NET_OK, rr_data r)
  else dns_answers_loop k (pre ++ encode_record r ++ tail) n
         (zlen pre + zlen (encode_record r)) address.
Proof.
  intros Hr Hb Ha Hn Hmax. pose proof (zlen_nonneg pre). pose proof (zlen_nonneg (rr_data r)).
  pose proof (zlen_nonneg (encode_name (rr_labels r) (rr_end r))). pose proof (zlen_nonneg tail).
  destruct (dns_record_parts pre r tail Hr Hb) as (Ht & Hc & Hl & Hd & HL & Ep).
  assert (zlen (pre ++ encode_record r ++ tail) = zlen pre + zlen (encode_record r) + zlen tail)
    as HLp by (rewrite !zlen_app; lia).
  destruct Hr as (Hname & _ & _ & _ & Hlen). set (p := pre ++ encode_record r ++ tail) in *.
  cbn [dns_answers_loop]. rewrite Ep at 1. rewrite dns_skip_name_spec by (done || lia). obind.
  rewrite bool_decide_false by tauto. rewrite u64_small by lia.
  rewrite (proj2 (Z.ltb_ge _ 10)) by lia. rewrite Ht. obind. rewrite Hc. obind. rewrite Hl. obind.
  cbn zeta. rewrite u64_small by lia. rewrite (proj2 (Z.ltb_ge _ _)) by lia.
  unfold is_a_record. if_case; [| f_equal; lia]. bool_cases.
  rewrite copy_array_spec by lia. obind. rewrite <- Hd. do 3 f_equal. lia.
Qed.

Lemma dns_answers_spec rs : forall pre tail n address,
  Forall record_ok rs -> bytes_ok (pre ++ encode_records rs ++ tail) -> zlen address = 4 ->
  zlen pre + zlen (encode_records rs) <= n -> n < 2 ^ 64 ->
  dns_answers_loop (length rs) (pre ++ encode_records rs ++ tail) n (zlen pre) address =
  Some (match first_a rs with
        | Some a => (JOSH_NET_OK, a)
        | None => (JOSH_NET_ERR_UNSUPPORTED, address)
        end).
Proof.
  induction rs as [| r rs IH]; intros pre tail n address Hok Hb Ha Hn Hmax; [done |].
  apply Forall_cons in Hok as [Hr Hok].
  change (encode_records (r :: rs)) with (encode_record r ++ encode_records rs) in *.
  rewrite <- app_assoc in *. rewrite zlen_app in Hn.
  pose proof (zlen_nonneg (encode_records rs)).
  cbn [length first_a]. rewrite dns_record_step by (done || lia).
  destruct (is_a_record r); [done |]. rewrite <- zlen_app. rewrite app_assoc in *.
  apply IH; try done. rewrite zlen_app. lia.
Qed.

Definition dns_header (id flags questions answers : Z) (other : list Z) : list Z :=
  be16 id ++ be16 flags ++ be16 questions ++ be16 answers ++ other.

(** ** Theorems on DNS *)

(** The query builder.  A host name whose labels have 1 to 63 characters,
    with room for the message, becomes a query with the transaction id,
    recursion desired, one question with the encoded name, type A and class
    IN, and the exact length is returned; the response parser's name skipping
    steps over the encoded name.  Any other host name or capacity gives 0.
    Nothing outside the buffer is written. *)
Theorem dns_build_query_correct buf capacity id ls rest :
  let query := dns_query_bytes id ls in
  let fits := Forall label_ok ls /\ zlen query <= capacity in
  ls <> [] -> Forall chars_ok ls -> zlen (dotted ls) < 2 ^ 63 - 6 ->
  0 <= capacity <= zlen buf -> zlen buf < 2 ^ 63 ->
  exists len b,
    josh_dns_build_a_query (Some buf) capacity id (Some (dotted ls ++ rest)) =
      Some (len, Some b) /\ zlen b = zlen buf /\
    (~ fits -> len = 0) /\ (fits -> len = zlen query /\ b = blit buf 0 query) /\
    (fits -> zlen ls <= 127 ->
       dns_skip_name b len 12 = Some (JOSH_NET_OK, len - 4)).
Proof.
  intros query fits Hne Hch Hdl Hc Hmax. unfold josh_dns_build_a_query.
  assert (zlen query = 17 + zlen (encode_labels ls)) as HQ.
  { unfold query, dns_query_bytes, encode_name. rewrite !zlen_app, !zlen_be16.
    change (zlen (replicate 6 0)) with 6. change (zlen (encode_end Root)) with 1. lia. }
  pose proof (zlen_nonneg (encode_labels ls)). destruct (Z.ltb_spec capacity 17).
  { eexists _, _. split; [done |]. unfold fits. split_and!; [done | done | lia | lia]. }
  rewrite zero_bytes_spec by lia. obind. change (Z.to_nat 12) with 12%nat.
  assert (zlen (replicate 12 0) = 12) as HZ by reflexivity. do 3 patch HZ.
  set (hdr := blit (blit (blit (replicate 12 0) 0 _) 2 _) 4 _) in *.
  assert (hdr = be16 id ++ be16 256 ++ be16 1 ++ replicate 6 0) as Eh by reflexivity.
  clearbody hdr.
  destruct (dns_labels_loop_spec ls (S (length (dotted ls ++ rest))) buf hdr rest capacity)
    as (b & r & E & HLb & Hno & Hyes); try done; [lia | by apply dotted_length_le |].
  rewrite HZ in E. rewrite E. obind. cbn zeta in *. assert (fits <-> Forall label_ok ls /\
    zlen hdr + zlen (encode_labels ls) + 5 <= capacity) as HF
    by (unfold fits; rewrite HQ, HZ; split; intros [? ?]; split; (done || lia)).
  destruct r as [o |].
  2: { eexists _, _. split; [done |]. split; [done |]. split; [done |].
       split; intros ?%HF; by destruct (Hyes ltac:(done)) as [_ [=]]. }
  assert fits as Hfit.
  { destruct (decide (Forall label_ok ls /\ zlen hdr + zlen (encode_labels ls) + 5 <= capacity))
      as [? | Hn]; [by apply HF | by specialize (Hno Hn)]. }
  destruct (Hyes (proj1 HF Hfit)) as [-> [= ->]]. pose proof (proj1 HF Hfit) as [Hlab Hroom].
  rewrite put8 by (rewrite ?zlen_app; lia). obind.
  rewrite put16 by (rewrite ?zlen_app; change (zlen [0]) with 1; lia). obind.
  rewrite put16 by (rewrite ?zlen_app, ?zlen_be16; change (zlen [0]) with 1; lia). obind.
  assert ((((hdr ++ encode_labels ls) ++ [0]) ++ be16 1) ++ be16 1 = query) as ->.
  { rewrite Eh. unfold query, dns_query_bytes, encode_name. by rewrite <- !app_assoc. }
  assert (zlen (hdr ++ encode_labels ls) + 1 + 4 = zlen query) as -> by (rewrite zlen_app; lia).
  eexists _, _. split; [done |]. split; [apply zlen_blit; lia |].
  split; [done |]. split; [done |]. intros _ H127. rewrite blit_start.
  replace (zlen query - 4) with (zlen hdr + zlen (encode_name ls Root))
    by (unfold encode_name; rewrite zlen_app; change (zlen (encode_end Root)) with 1; lia).
  assert (query ++ drop (length query) buf =
    hdr ++ encode_name ls Root ++ be16 1 ++ be16 1 ++ drop (length query) buf) as ->.
  { rewrite Eh. unfold query at 1, dns_query_bytes. by rewrite <- !app_assoc. }
  rewrite <- HZ. apply dns_skip_name_spec; [done | | lia].
  unfold encode_name. rewrite zlen_app. change (zlen (encode_end Root)) with 1. lia.
Qed.

(** A DNS response with our transaction id, the response bit and no error
    code, any questions and any answer records, gives the address of the first
    answer that is an Internet address record, over whatever aliases precede
    it; without one it reports that the answer is unsupported and leaves the
    address alone. *)
Theorem dns_parse_response_correct id flags other qs rs tail n address :
  let packet := dns_header id flags (zlen qs) (zlen rs) other ++
                encode_questions qs ++ encode_records rs ++ tail in
  0 <= id < 65536 -> 0 <= flags < 65536 -> Z.land flags 32768 <> 0 -> Z.land flags 15 = 0 ->
  zlen qs < 65536 -> zlen rs < 65536 -> zlen other = 4 ->
  Forall question_ok qs -> Forall record_ok rs -> bytes_ok packet -> zlen address = 4 ->
  zlen packet < 2 ^ 64 -> zlen packet - zlen tail <= n <= zlen packet ->
  josh_dns_parse_a_response (Some packet) n id (Some address) =
  Some (match first_a rs with
        | Some a => (JOSH_NET_OK, Some a)
        | None => (JOSH_NET_ERR_UNSUPPORTED, Some address)
        end).
Proof.
  intros packet Hid Hfl Hresp Hrc Hq Hr Ho Hqs Hrs Hb Ha Hmax Hn.
  set (hdr := dns_header id flags (zlen qs) (zlen rs) other) in *.
  assert (zlen hdr = 12) as HH
    by (unfold hdr, dns_header; rewrite !zlen_app, !zlen_be16; lia).
  pose proof (zlen_nonneg qs). pose proof (zlen_nonneg rs).
  pose proof (zlen_nonneg (encode_questions qs)). pose proof (zlen_nonneg (encode_records rs)).
  assert (zlen packet = 12 + zlen (encode_questions qs) + zlen (encode_records rs) + zlen tail) as HL
    by (unfold packet; rewrite !zlen_app; lia).
  unfold josh_dns_parse_a_response. rewrite (proj2 (Z.ltb_ge n 12)) by lia.
  do 1 parse_step. change (word_at packet 0) with (be_val (be16 id)).
  rewrite be_val_be16, Z.eqb_refl by lia. cbn [negb].
  parse_step. change (word_at packet 2) with (be_val (be16 flags)). rewrite be_val_be16 by lia.
  rewrite (proj2 (Z.eqb_neq _ _) Hresp), Hrc. cbn [Z.eqb orb negb].
  do 2 parse_step. change (word_at packet 4) with (be_val (be16 (zlen qs))).
  change (word_at packet 6) with (be_val (be16 (zlen rs))). rewrite !be_val_be16 by lia.
  replace (Z.to_nat (zlen qs)) with (length qs) by (unfold zlen; lia).
  replace (Z.to_nat (zlen rs)) with (length rs) by (unfold zlen; lia).
  pose proof (dns_questions_spec qs hdr (encode_records rs ++ tail) n Hqs ltac:(lia) ltac:(lia)) as E1.
  rewrite HH in E1. fold packet in E1. rewrite E1. obind. rewrite bool_decide_false by tauto.
  assert (packet = (hdr ++ encode_questions qs) ++ encode_records rs ++ tail) as Ep
    by (unfold packet; by rewrite <- app_assoc).
  assert (zlen (hdr ++ encode_questions qs) = 12 + zlen (encode_questions qs)) as HL1
    by (rewrite zlen_app; lia).
  rewrite <- HL1, Ep. rewrite dns_answers_spec; [| done | by rewrite <- Ep | done | lia | lia].
  obind. by destruct (first_a rs).
Qed.

(** C6. On any bytes whatsoever, with any claimed length inside the buffer,
    the DHCP and DNS reply parsers terminate, read only inside the packet and
    keep the arrays of the caller's structures at their sizes. *)
Theorem reply_parsers_total p n xid offer id address :
  packet_ok p n -> offer_ok offer -> zlen address = 4 ->
  (exists st o, josh_dhcp_parse_reply (Some p) n xid (Some offer) = Some (st, Some o) /\
     offer_ok o /\
     (st = JOSH_NET_OK -> dhcp_message_type o = 2 \/ dhcp_message_type o = 5)) /\
  (exists st a, josh_dns_parse_a_response (Some p) n id (Some address) = Some (st, Some a) /\
     zlen a = 4).
Proof.
  intros Hp Ho Ha. pose proof Hp as (Hb & Hn & Hmax). split.
  - unfold josh_dhcp_parse_reply.
    if_case; bool_cases; [by eexists _, _ |]. do 3 parse_step. if_case; [by eexists _, _ |].
    parse_step. if_case; [by eexists _, _ |]. parse_step. if_case; [by eexists _, _ |].
    cbn zeta. rewrite copy_array_spec by (done || lia). obind.
    match goal with |- context [dhcp_options_loop ?f p n 240 ?o] =>
      destruct (dhcp_options_loop_total f p n 240 o) as (st & o' & -> & Ho'); try done; try lia end.
    { unfold offer_ok. cbn. split_and!; try done. apply zlen_slice; lia. }
    obind. case_bool_decide; [by eexists _, _ |].
    destruct (Z.eqb_spec (dhcp_message_type o') 2); [by eexists _, _; split_and!; [| | left] |].
    destruct (Z.eqb_spec (dhcp_message_type o') 5); [by eexists _, _; split_and!; [| | right] |].
    by eexists _, _.
  - unfold josh_dns_parse_a_response.
    if_case; bool_cases; [by eexists _, _ |]. parse_step. if_case; [by eexists _, _ |].
    parse_step. if_case; [by eexists _, _ |]. do 2 parse_step.
    destruct (dns_questions_total (Z.to_nat (word_at p 4)) p n 12) as (st & o & -> & Hoff);
      [done | lia |]. obind. if_case; [by eexists _, _ |].
    destruct (dns_answers_total (Z.to_nat (word_at p 6)) p n o address) as (st' & a & -> & Hla);
      [done.. |]. obind. by eexists _, _.
Qed.

(** ** Concrete messages *)

Definition ex_reply_header : list Z :=
  [2; 1; 6; 0] ++ be32 305419896 ++ replicate 8 0 ++ [10; 0; 2; 15] ++ replicate 216 0 ++
  be32 dhcp_magic.
Definition ex_options : list dhcp_item :=
  [Opt 53 [5]; Pad; Opt 54 [10; 0; 2; 2]; Opt 51 [0; 0; 14; 16]].
Definition ex_offer : josh_dhcp_offer_t :=
  mk_dhcp_offer 0 (replicate 4 0) (replicate 4 0) (replicate 4 0) (replicate 4 0) (replicate 4 0) 0.
Definition ex_host : list (list Z) := [[106; 111; 115; 104]; [111; 115]].
Definition ex_alias : dns_record := mk_record [] (Pointer 192 12) 5 1 [0; 0; 0; 60] [1; 97; 0].
Definition ex_answer : dns_record :=
  mk_record [] (Pointer 192 12) 1 1 [0; 0; 0; 60] [93; 184; 216; 34].
Definition ex_response : list Z :=
  dns_header 7 33152 1 2 [0; 0; 0; 0] ++
  encode_questions [mk_question ex_host Root [0; 1; 0; 1]] ++
  encode_records [ex_alias; ex_answer] ++ [].

Lemma dhcp_build_correct_witness :
  exists b, josh_dhcp_build_discover (Some (replicate 300 0)) 300 7 (Some ex_mac) =
            Some (251, Some b).
Proof.
  destruct (dhcp_build_correct (replicate 300 0) 300 7 ex_mac ex_ip ex_gateway)
    as (_ & _ & (b & E & _) & _); [by vm_compute | done.. |].
  by exists b.
Defined.

Lemma dhcp_parse_reply_correct_witness :
  josh_dhcp_parse_reply (Some (ex_reply_header ++ encode_items ex_options ++ [255] ++ [0; 0])) 259
    305419896 (Some ex_offer) =
  Some (JOSH_NET_OK,
        Some (mk_dhcp_offer 5 [10; 0; 2; 15] [10; 0; 2; 2] zero_address zero_address
                zero_address 3600)).
Proof.
  rewrite (dhcp_parse_reply_correct ex_reply_header ex_options [0; 0] 259 305419896 ex_offer).
  - reflexivity.
  - vm_compute. repeat split; try congruence. repeat constructor; congruence.
  - repeat constructor; try lia; done.
  - by apply (bool_decide_unpack _).
  - by apply (bool_decide_unpack _).
  - by vm_compute.
  - by vm_compute.
Defined.

Lemma dns_build_query_correct_witness :
  exists b, josh_dns_build_a_query (Some ex_buffer) 64 7 (Some (dotted ex_host ++ [])) =
            Some (25, Some b).
Proof.
  destruct (dns_build_query_correct ex_buffer 64 7 ex_host [])
    as (len & b & E & _ & _ & Hok & _); try (by vm_compute); try done.
  - repeat constructor; lia.
  - destruct Hok as [-> _]; [| by exists b].
    split; [| by vm_compute]. repeat constructor; by vm_compute.
Defined.

Lemma dns_parse_response_correct_witness :
  josh_dns_parse_a_response (Some ex_response) 56 7 (Some (replicate 4 0)) =
  Some (JOSH_NET_OK, Some [93; 184; 216; 34]).
Proof.
  apply (dns_parse_response_correct 7 33152 [0; 0; 0; 0] [mk_question ex_host Root [0; 1; 0; 1]]
           [ex_alias; ex_answer] [] 56 (replicate 4 0)); try (by vm_compute); try done.
  - repeat constructor; by vm_compute.
  - repeat constructor; by vm_compute.
  - by apply (bool_decide_unpack _).
Defined.

Lemma reply_parsers_total_witness :
  exists st o, josh_dhcp_parse_reply (Some ex_packet) 20 1 (Some ex_offer) = Some (st, Some o).
Proof.
  destruct (reply_parsers_total ex_packet 20 1 ex_offer 1 (replicate 4 0))
    as [(st & o & E & _) _]; [concrete | done | done |].
  by exists st, o.
Defined.
