(* ===== verification/Net.v ===== *)
(** * Network device layer (kernel/src/net.c, net.h)

    The table of network devices, sending and receiving with their counters,
    and the loopback device.

    Drivers and the upper receiver are code outside this component that is
    called through pointers.  They act on a world [W] that is a parameter; a
    driver's transmit function returns a status and the new world, a receiver
    the new world.  The loopback device's transmit function is part of the
    component and calls back into it, as in the source. *)

From stdpp Require Import base numbers list strings.
From Stdlib Require Import ZArith Lia.
From S2P Require Import Prelude Bytes.

#[local] Open Scope Z_scope.

Definition JOSH_NET_MAX_DEVICES : Z := 8.
Definition JOSH_NET_MAX_FRAME : Z := 1600.

Inductive net_status_t :=
| NET_OK | NET_BAD_ARGUMENT | NET_NO_CAPACITY | NET_NOT_FOUND
| NET_FRAME_TOO_LARGE | NET_DRIVER_ERROR.

#[export] Instance net_status_eq_dec : EqDecision net_status_t.
Proof. solve_decision. Defined.

Record net_stats_t := mk_net_stats {
  registered_devices : Z;
  transmitted_frames : Z;
  transmitted_bytes : Z;
  received_frames : Z;
  received_bytes : Z;
  dropped_frames : Z;
}.

Definition zero_stats : net_stats_t := mk_net_stats 0 0 0 0 0 0.

(** The byte loops of net.c. *)
Definition copy_bytes (destination : list Z) (source : list Z) (length : Z) : option (list Z) :=
  copy_loop (Z.to_nat length) destination 0 source 0.

Fixpoint bytes_equal (left right : list Z) (length : nat) : option bool :=
  match length with
  | O => Some true
  | S n =>
      a ← head left;
      b ← head right;
      if a =? b then bytes_equal (tail left) (tail right) n else Some false
  end.

Section Net.
Context {W : Type}.

(** [net_transmit_fn]: the loopback function of this file, or a driver's. *)
Inductive net_transmit_fn :=
| loopback_transmit_fn
| driver_transmit_fn (f : list Z -> Z -> W -> net_status_t * W).

(** [net_receive_fn] together with the context it was registered with. *)
Definition net_receive_fn := Z -> list Z -> Z -> W -> W.

(** [context] is whether the driver's context pointer is non-null. *)
Record net_device_config_t := mk_net_config {
  name : list Z;
  mac : list Z;
  mtu : Z;
  context : bool;
  transmit : option net_transmit_fn;
}.

Record net_device_slot_t := mk_slot {
  active : bool;
  config : net_device_config_t;
}.

Definition zero_config : net_device_config_t :=
  mk_net_config (replicate 16 0) (replicate 6 0) 0 false None.
Definition zero_slot : net_device_slot_t := mk_slot false zero_config.

(** The static variables of net.c, and the world outside. *)
Record net_state := mk_net {
  devices : list net_device_slot_t;
  upper_receiver : option net_receive_fn;
  stats : net_stats_t;
  loopback_device_id : Z;
  world : W;
}.

Definition set_stats (s : net_state) (st : net_stats_t) : net_state :=
  mk_net (devices s) (upper_receiver s) st (loopback_device_id s) (world s).
Definition set_world (s : net_state) (w : W) : net_state :=
  mk_net (devices s) (upper_receiver s) (stats s) (loopback_device_id s) w.

Definition count_dropped (st : net_stats_t) : net_stats_t :=
  mk_net_stats (registered_devices st) (transmitted_frames st) (transmitted_bytes st)
    (received_frames st) (received_bytes st) (u64 (dropped_frames st + 1)).
Definition count_transmitted (st : net_stats_t) (length : Z) : net_stats_t :=
  mk_net_stats (registered_devices st) (u64 (transmitted_frames st + 1))
    (u64 (transmitted_bytes st + length)) (received_frames st) (received_bytes st)
    (dropped_frames st).
Definition count_received (st : net_stats_t) (length : Z) : net_stats_t :=
  mk_net_stats (registered_devices st) (transmitted_frames st) (transmitted_bytes st)
    (u64 (received_frames st + 1)) (u64 (received_bytes st + length)) (dropped_frames st).
Definition count_registered (st : net_stats_t) : net_stats_t :=
  mk_net_stats (u32 (registered_devices st + 1)) (transmitted_frames st) (transmitted_bytes st)
    (received_frames st) (received_bytes st) (dropped_frames st).

Definition net_init (s : net_state) : net_state :=
  mk_net (replicate 8 zero_slot) None zero_stats (loopback_device_id s) (world s).

(** The search for a free slot; [done] are the slots already passed. *)
Fixpoint register_loop (done todo : list net_device_slot_t) (c : net_device_config_t) :
    option (option (list net_device_slot_t * Z)) :=
  match todo with
  | [] => Some None
  | d :: todo =>
      if active d then register_loop (done ++ [d]) todo c
      else
        name' ← wr (name c) 15 0;
        Some (Some (done ++ mk_slot true (mk_net_config name' (mac c) (mtu c) (context c)
                                            (transmit c)) :: todo, zlen done))
  end.

(** [device_id_out] is the caller's variable; [None] a null pointer. *)
Definition net_register_device (s : net_state) (config : option net_device_config_t)
    (device_id_out : option Z) : option (net_status_t * net_state * option Z) :=
  match config, device_id_out with
  | Some c, Some _ =>
      if bool_decide (transmit c = None) || (mtu c =? 0)
      then Some (NET_BAD_ARGUMENT, s, device_id_out)
      else
        r ← register_loop [] (devices s) c;
        match r with
        | Some (devices', i) =>
            Some (NET_OK, mk_net devices' (upper_receiver s) (count_registered (stats s))
                            (loopback_device_id s) (world s), Some i)
        | None => Some (NET_NO_CAPACITY, s, device_id_out)
        end
  | _, _ => Some (NET_BAD_ARGUMENT, s, device_id_out)
  end.

Definition net_receive (s : net_state) (device_id : Z) (frame : option (list Z)) (length : Z) :
    option (net_status_t * net_state) :=
  match frame with
  | None => Some (NET_BAD_ARGUMENT, s)
  | Some frame =>
      if length =? 0 then Some (NET_BAD_ARGUMENT, s)
      else if JOSH_NET_MAX_DEVICES <=? device_id then Some (NET_NOT_FOUND, s)
      else
        d ← rd (devices s) device_id;
        if negb (active d) then Some (NET_NOT_FOUND, s)
        else if (u32 (mtu (config d) + 14) <? length) || (JOSH_NET_MAX_FRAME <? length)
        then Some (NET_FRAME_TOO_LARGE, set_stats s (count_dropped (stats s)))
        else
          let s := set_stats s (count_received (stats s) length) in
          match upper_receiver s with
          | Some receiver =>
              Some (NET_OK, set_world s (receiver device_id frame length (world s)))
          | None => Some (NET_OK, s)
          end
  end.

(** [context] is the non-null [&loopback_context] for a registered loopback. *)
Definition loopback_transmit (s : net_state) (context : bool) (frame : list Z) (length : Z) :
    option (net_status_t * net_state) :=
  if negb context then Some (NET_BAD_ARGUMENT, s)
  else net_receive s (loopback_device_id s) (Some frame) length.

Definition net_send (s : net_state) (device_id : Z) (frame : option (list Z)) (length : Z) :
    option (net_status_t * net_state) :=
  match frame with
  | None => Some (NET_BAD_ARGUMENT, s)
  | Some frame =>
      if length =? 0 then Some (NET_BAD_ARGUMENT, s)
      else if JOSH_NET_MAX_DEVICES <=? device_id then Some (NET_NOT_FOUND, s)
      else
        d ← rd (devices s) device_id;
        if negb (active d) then Some (NET_NOT_FOUND, s)
        else if (u32 (mtu (config d) + 14) <? length) || (JOSH_NET_MAX_FRAME <? length)
        then Some (NET_FRAME_TOO_LARGE, set_stats s (count_dropped (stats s)))
        else
          t ← transmit (config d);
          r ← match t with
              | loopback_transmit_fn => loopback_transmit s (context (config d)) frame length
              | driver_transmit_fn f =>
                  let '(status, w) := f frame length (world s) in
                  Some (status, set_world s w)
              end;
          let '(status, s) := r in
          if bool_decide (status <> NET_OK)
          then Some (NET_DRIVER_ERROR, set_stats s (count_dropped (stats s)))
          else Some (NET_OK, set_stats s (count_transmitted (stats s) length))
  end.

Definition net_set_receiver (s : net_state) (receiver : option net_receive_fn) : net_state :=
  mk_net (devices s) receiver (stats s) (loopback_device_id s) (world s).

Definition net_stats (s : net_state) : net_stats_t := stats s.

(** The bytes of the string literal of the loopback name, with its NUL. *)
Definition loopback_name : list Z := [108; 111; 111; 112; 98; 97; 99; 107; 0].

Definition net_loopback_register (s : net_state) (device_id_out : option Z) :
    option (net_status_t * net_state * option Z) :=
  match device_id_out with
  | None => Some (NET_BAD_ARGUMENT, s, None)
  | Some _ =>
      name ← copy_bytes (replicate 16 0) loopback_name 9;
      mac ← wr (replicate 6 0) 0 2;
      mac ← wr mac 5 1;
      let c := mk_net_config name mac 1500 true (Some loopback_transmit_fn) in
      r ← net_register_device s (Some c) (Some 0);
      let '(status, s, id) := r in
      if bool_decide (status <> NET_OK) then Some (status, s, device_id_out)
      else
        id ← id;
        Some (NET_OK, mk_net (devices s) (upper_receiver s) (stats s) id (world s), Some id)
  end.
End Net.

Arguments net_transmit_fn : clear implicits.
Arguments net_receive_fn : clear implicits.
Arguments net_device_config_t : clear implicits.
Arguments net_device_slot_t : clear implicits.
Arguments net_state : clear implicits.

(** ** The self test *)

Record self_test_receive_t := mk_capture {
  seen : bool;
  cap_device_id : Z;
  cap_bytes : list Z;
  cap_length : Z;
}.

(** The receiver of the self test; the copy stays inside the 64 bytes. *)
Definition self_test_receiver (device_id : Z) (frame : list Z) (length : Z)
    (capture : self_test_receive_t) : self_test_receive_t :=
  if 64 <? length then capture
  else mk_capture true device_id
         (default (cap_bytes capture) (copy_bytes (cap_bytes capture) frame length)) length.

Definition self_test_frame : list Z :=
  [2; 0; 0; 0; 0; 1; 2; 0; 0; 0; 0; 1; 8; 0;
   69; 0; 0; 20; 0; 0; 0; 0; 64; 1; 0; 0; 127; 0; 0; 1; 127; 0; 0; 1].

Definition net_self_test (s : net_state self_test_receive_t) :
    option (bool * net_state self_test_receive_t) :=
  let s := net_init s in
  r ← net_loopback_register s (Some 0);
  let '(status, s, loopback) := r in
  if bool_decide (status <> NET_OK) then Some (false, s)
  else
    loopback ← loopback;
    let s := set_world s (mk_capture false 0 (replicate 64 0) 0) in
    let s := net_set_receiver s (Some self_test_receiver) in
    r ← net_send s loopback (Some self_test_frame) 34;
    let '(status, s) := r in
    if bool_decide (status <> NET_OK) then Some (false, s)
    else
      let capture := world s in
      if negb (seen capture) || negb (cap_device_id capture =? loopback)
         || negb (cap_length capture =? 34)
      then Some (false, s)
      else
        same ← bytes_equal (cap_bytes capture) self_test_frame 34;
        if negb same then Some (false, s)
        else
          let current := net_stats s in
          if negb (registered_devices current =? 1) || negb (transmitted_frames current =? 1)
             || negb (received_frames current =? 1) || negb (transmitted_bytes current =? 34)
             || negb (received_bytes current =? 34) || negb (dropped_frames current =? 0)
          then Some (false, s)
          else Some (true, net_set_receiver s None).

Definition net_status_string (status : net_status_t) : string :=
  match status with
  | NET_OK => "ok"
  | NET_BAD_ARGUMENT => "invalid argument"
  | NET_NO_CAPACITY => "device table full"
  | NET_NOT_FOUND => "network device not found"
  | NET_FRAME_TOO_LARGE => "frame too large"
  | NET_DRIVER_ERROR => "network driver error"
  end.

(** ** Invariant *)

Section NetProofs.
Context {W : Type}.
Implicit Types s : net_state W.

Definition count_active (ds : list (net_device_slot_t W)) : Z :=
  zlen (filter (fun d => active d = true) ds).

Definition config_ok (c : net_device_config_t W) : Prop :=
  zlen (name c) = 16 /\ zlen (mac c) = 6 /\ 0 <= mtu c < 65536.

(** What a registered device looks like. *)
Definition slot_ok (d : net_device_slot_t W) : Prop :=
  active d = true ->
  config_ok (config d) /\ 0 < mtu (config d) /\ is_Some (transmit (config d)) /\
  rd (name (config d)) 15 = Some 0.

Definition net_inv (s : net_state W) : Prop :=
  zlen (devices s) = JOSH_NET_MAX_DEVICES /\ Forall slot_ok (devices s) /\
  registered_devices (stats s) = count_active (devices s) /\ 0 <= loopback_device_id s.

Lemma count_active_app ds1 ds2 : count_active (ds1 ++ ds2) = count_active ds1 + count_active ds2.
Proof. unfold count_active. by rewrite filter_app, zlen_app. Qed.

Lemma count_active_cons d ds :
  count_active (d :: ds) = (if active d then 1 else 0) + count_active ds.
Proof.
  unfold count_active. rewrite filter_cons. case_decide as H; rewrite ?H, ?zlen_cons; [lia |].
  by destruct (active d).
Qed.

Lemma count_active_bounds ds : 0 <= count_active ds <= zlen ds.
Proof.
  induction ds as [| d ds IH]; [done |]. rewrite count_active_cons, zlen_cons.
  destruct (active d); lia.
Qed.

Lemma count_active_replicate n : count_active (replicate n zero_slot) = 0.
Proof. induction n as [| n IH]; [done |]. cbn [replicate]. by rewrite count_active_cons. Qed.

Lemma net_init_inv s : 0 <= loopback_device_id s -> net_inv (net_init s).
Proof.
  intros. split_and!; [done | | done | done].
  apply Forall_replicate. by intros [=].
Qed.

(** The slot search finds the first inactive slot. *)
Lemma register_loop_spec (pre todo : list (net_device_slot_t W)) c :
  zlen (name c) = 16 ->
  (Forall (fun d => active d = true) todo /\ register_loop pre todo c = Some None) \/
  exists busy d rest name',
    todo = busy ++ d :: rest /\ Forall (fun d => active d = true) busy /\ active d = false /\
    wr (name c) 15 0 = Some name' /\
    register_loop pre todo c =
      Some (Some (pre ++ busy ++ mk_slot true (mk_net_config name' (mac c) (mtu c) (context c)
                                                  (transmit c)) :: rest, zlen pre + zlen busy)).
Proof.
  intros Hn. revert pre. induction todo as [| d todo IH]; intros pre; [by left |].
  cbn [register_loop]. destruct (active d) eqn:Ed.
  - destruct (IH (pre ++ [d])) as [[Hall E] | (busy & d' & rest & nm & -> & Hb & Hd & Hw & E)].
    + left. split; [by constructor | done].
    + right. exists (d :: busy), d', rest, nm. rewrite E. rewrite <- !app_assoc, zlen_app.
      split_and!; try done; [by constructor |]. do 3 f_equal.
      change (zlen [d]) with 1. rewrite zlen_cons. lia.
  - right. assert (is_Some (wr (name c) 15 0)) as [nm Hw] by (rewrite wr_in_range by lia; eauto).
    exists [], d, todo, nm. rewrite Hw. obind. split_and!; try done.
    do 3 f_equal. rewrite zlen_nil. lia.
Qed.

(** Registration takes the first free slot, changes no other device, and fails
    only when every slot is taken. *)
Lemma net_register_spec s c o :
  net_inv s -> config_ok c ->
  exists st s' o', net_register_device s (Some c) (Some o) = Some (st, s', o') /\ net_inv s' /\
    (st = NET_BAD_ARGUMENT <-> transmit c = None \/ mtu c = 0) /\
    (st <> NET_OK -> s' = s /\ o' = Some o) /\
    (st <> NET_OK -> st <> NET_BAD_ARGUMENT ->
       st = NET_NO_CAPACITY /\ Forall (fun d => active d = true) (devices s)) /\
    (st = NET_OK -> exists i d, o' = Some i /\ 0 <= i < JOSH_NET_MAX_DEVICES /\
       rd (devices s) i = Some d /\ active d = false /\
       (forall j, j <> i -> rd (devices s') j = rd (devices s) j) /\
       (exists d', rd (devices s') i = Some d' /\ active d' = true /\
          transmit (config d') = transmit c /\ mtu (config d') = mtu c /\
          context (config d') = context c) /\
       upper_receiver s' = upper_receiver s /\ world s' = world s /\
       stats s' = count_registered (stats s) /\ loopback_device_id s' = loopback_device_id s).
Proof.
  intros (Hl & Hok & Hcnt & Hlb) (Hn & Hm & Hmtu). unfold net_register_device.
  destruct (bool_decide (transmit c = None) || (mtu c =? 0)) eqn:Eb.
  { eexists _, _, _. split; [done |]. split; [done |]. split_and!; try done. split; [| done].
    intros _. apply orb_true_iff in Eb as [Eb%bool_decide_eq_true | Eb%Z.eqb_eq]; tauto. }
  apply orb_false_iff in Eb as [Et%bool_decide_eq_false Em%Z.eqb_neq].
  destruct (register_loop_spec [] (devices s) c Hn)
    as [[Hall E] | (busy & d & rest & nm & Ed & Hb & Hd & Hw & E)]; rewrite E; obind.
  { eexists _, _, _. split; [done |]. split_and!; try done. split; [done | tauto]. }
  rewrite Ed in Hl, Hok, Hcnt. apply Forall_app in Hok as [Hok1 [Hokd Hok2]%Forall_cons].
  pose proof (count_active_bounds busy). pose proof (count_active_bounds rest).
  rewrite zlen_app, zlen_cons in Hl. unfold JOSH_NET_MAX_DEVICES in *.
  rewrite count_active_app, count_active_cons, Hd in Hcnt.
  pose proof (zlen_nonneg busy). pose proof (zlen_nonneg rest).
  rewrite app_nil_l. change (zlen (@nil (net_device_slot_t W))) with 0. rewrite Z.add_0_l.
  assert (rd nm 15 = Some 0) as Hnm by (by eapply rd_wr_eq).
  eexists _, _, _. split; [done |]. split_and!; try done.
  - split_and!; cbn; [by rewrite zlen_app, zlen_cons | | | done].
    + apply Forall_app. split; [done |]. apply Forall_cons. split; [| done].
      intros _. cbn. unfold config_ok. cbn. rewrite (zlen_wr _ _ _ _ Hw).
      split_and!; try done; try lia. by destruct (transmit c); [eexists | ].
    + rewrite count_active_app, count_active_cons, Hcnt. cbn. rewrite u32_small by lia. lia.
  - split; [done |]. tauto.
  - intros _. eexists (zlen busy), d. split_and!; try done; try lia.
    + rewrite Ed. by rewrite rd_app_r, Z.sub_diag by lia.
    + intros j Hj. cbn. rewrite Ed. destruct (Z.ltb_spec j (zlen busy)).
      * by rewrite !rd_app_l by lia.
      * rewrite !rd_app_r by lia. replace (j - zlen busy) with (1 + (j - zlen busy - 1)) by lia.
        unfold rd. destruct (Z.leb_spec 0 (1 + (j - zlen busy - 1))); [| done].
        rewrite Z2Nat.inj_add by lia. done.
    + eexists. cbn. rewrite rd_app_r, Z.sub_diag by lia. done.
Qed.

(** Whether the layer passes a frame of this length on a device. *)
Definition accepts (s : net_state W) (id length : Z) : Prop :=
  length <> 0 /\ id < JOSH_NET_MAX_DEVICES /\ length <= JOSH_NET_MAX_FRAME /\
  exists d, rd (devices s) id = Some d /\ active d = true /\ length <= mtu (config d) + 14.

(** What stays the same in every operation but registration. *)
Definition same_table (s s' : net_state W) : Prop :=
  devices s' = devices s /\ upper_receiver s' = upper_receiver s /\
  loopback_device_id s' = loopback_device_id s /\
  registered_devices (stats s') = registered_devices (stats s).

Lemma same_table_inv s s' : net_inv s -> same_table s s' -> net_inv s'.
Proof.
  intros (H1 & H2 & H3 & H4) (E1 & E2 & E3 & E4). unfold net_inv.
  by rewrite E1, E3, E4.
Qed.

Definition deliver (s : net_state W) (id : Z) (frame : list Z) (length : Z) : W :=
  match upper_receiver s with Some r => r id frame length (world s) | None => world s end.

Lemma device_lookup s id :
  net_inv s -> 0 <= id < JOSH_NET_MAX_DEVICES -> exists d, rd (devices s) id = Some d /\ slot_ok d.
Proof.
  intros (Hl & Hok & _) Hid. destruct (rd_in_range (devices s) id) as [d Hd]; [lia |].
  exists d. split; [done |]. apply rd_lookup in Hd as [_ Hd]. by eapply Forall_lookup_1.
Qed.

Lemma net_receive_spec s id frame length :
  net_inv s -> 0 <= id -> 0 <= length ->
  exists st s', net_receive s id (Some frame) length = Some (st, s') /\ same_table s s' /\
    (st = NET_OK <-> accepts s id length) /\
    (st = NET_OK -> stats s' = count_received (stats s) length /\
                    world s' = deliver s id frame length) /\
    (st <> NET_OK -> world s' = world s /\
       (st = NET_FRAME_TOO_LARGE /\ stats s' = count_dropped (stats s) \/ s' = s)).
Proof.
  intros Hinv Hid Hlen. unfold net_receive, accepts.
  destruct (Z.eqb_spec length 0).
  { eexists _, _; split; [done |]. split_and!; try done; [split; [done | tauto] | intros _; split; [done | by right]]. }
  destruct (Z.leb_spec JOSH_NET_MAX_DEVICES id).
  { eexists _, _; split; [done |]. split_and!; try done; [split; [done | lia] | intros _; split; [done | by right]]. }
  destruct (device_lookup s id Hinv) as (d & Hd & Hok); [lia |]. rewrite Hd. obind.
  destruct (active d) eqn:Ea; cbn [negb].
  2: { eexists _, _; split; [done |]. split_and!; try done; [split; [done |] | intros _; split; [done | by right]].
       intros (_ & _ & _ & ? & [= ->] & ? & _). congruence. }
  destruct (Hok Ea) as ((_ & _ & Hm) & _). rewrite u32_small by lia.
  if_case.
  { eexists _, _; split; [done |]. split_and!; try done; [split; [done |] | intros _; split; [done | by left]].
    intros (_ & _ & ? & ? & [= ->] & _ & ?). apply orb_true_iff in E as [?|?]; bool_cases; lia. }
  bool_cases. cbn [set_stats upper_receiver world].
  exists NET_OK. destruct (upper_receiver s) as [r |] eqn:Er; eexists; (split; [done |]);
    unfold deliver; rewrite ?Er;
    (split_and!; try done; [split; [| done]; intros _; split_and!; try done; eauto]).
Qed.

(** Sending on a driver's device, branch by branch. *)
Lemma net_send_driver s id frame length d f :
  net_inv s -> 0 <= id -> 0 <= length -> rd (devices s) id = Some d ->
  transmit (config d) = Some (driver_transmit_fn f) ->
  exists st s', net_send s id (Some frame) length = Some (st, s') /\ same_table s s' /\
    (~ accepts s id length -> st <> NET_OK /\ world s' = world s) /\
    (accepts s id length ->
       let r := f frame length (world s) in
       world s' = r.2 /\
       (r.1 = NET_OK -> st = NET_OK /\ stats s' = count_transmitted (stats s) length) /\
       (r.1 <> NET_OK -> st = NET_DRIVER_ERROR /\ stats s' = count_dropped (stats s))).
Proof.
  intros Hinv Hid Hlen Hd Ht. unfold net_send, accepts.
  destruct (Z.eqb_spec length 0); [by eexists _, _; split; [done |]; split_and!; [.. | tauto] |].
  destruct (Z.leb_spec JOSH_NET_MAX_DEVICES id);
    [by eexists _, _; split; [done |]; split_and!; [.. | lia] |].
  rewrite Hd. obind. destruct (active d) eqn:Ea; cbn [negb].
  2: { eexists _, _; split; [done |]. split_and!; try done.
       intros (_ & _ & _ & ? & [= ->] & ? & _). congruence. }
  destruct (device_lookup s id Hinv) as (d' & Hd' & Hok); [lia |]. rewrite Hd in Hd'.
  injection Hd' as <-. destruct (Hok Ea) as ((_ & _ & Hm) & _). rewrite u32_small by lia.
  if_case.
  { eexists _, _; split; [done |]. split_and!; try done.
    intros (_ & _ & ? & ? & [= ->] & _ & ?). apply orb_true_iff in E as [?|?]; bool_cases; lia. }
  bool_cases. rewrite Ht. obind. destruct (f frame length (world s)) as [st w] eqn:Ef. obind.
  case_bool_decide; eexists _, _; (split; [done |]); (split; [done |]);
    (split; [intros Hna; destruct Hna; split_and!; try done; eauto | intros _]);
    cbn [fst snd]; split_and!; try done; tauto.
Qed.

(** Sending on the loopback device hands the frame to the receive path. *)
Lemma net_send_loopback s id frame length d :
  net_inv s -> 0 <= id -> 0 <= length -> rd (devices s) id = Some d ->
  transmit (config d) = Some loopback_transmit_fn -> context (config d) = true ->
  exists st s', net_send s id (Some frame) length = Some (st, s') /\ same_table s s' /\
    (accepts s id length -> accepts s (loopback_device_id s) length ->
       st = NET_OK /\
       stats s' = count_transmitted (count_received (stats s) length) length /\
       world s' = deliver s (loopback_device_id s) frame length).
Proof.
  intros Hinv Hid Hlen Hd Ht Hc. unfold net_send, accepts at 1.
  destruct (Z.eqb_spec length 0); [by eexists _, _; split; [done |]; split; [| tauto] |].
  destruct (Z.leb_spec JOSH_NET_MAX_DEVICES id); [by eexists _, _; split; [done |]; split; [| lia] |].
  rewrite Hd. obind. destruct (active d) eqn:Ea; cbn [negb].
  2: { eexists _, _; split; [done |]. split; [done |].
       intros (_ & _ & _ & ? & [= ->] & ? & _). congruence. }
  destruct (device_lookup s id Hinv) as (d' & Hd' & Hok); [lia |]. rewrite Hd in Hd'.
  injection Hd' as <-. destruct (Hok Ea) as ((_ & _ & Hm) & _). rewrite u32_small by lia.
  if_case.
  { eexists _, _; split; [done |]. split; [done |].
    intros (_ & _ & ? & ? & [= ->] & _ & ?). apply orb_true_iff in E as [?|?]; bool_cases; lia. }
  rewrite Ht. obind. unfold loopback_transmit. rewrite Hc. cbn [negb].
  pose proof Hinv as (_ & _ & _ & Hlb).
  destruct (net_receive_spec s (loopback_device_id s) frame length) as
    (st & s1 & -> & Hs & Hst & Hyes & Hno); [done.. |]. obind. cbn [fst snd].
  destruct Hs as (T1 & T2 & T3 & T4).
  case_bool_decide; eexists _, _; (split; [done |]); (split; [by split_and! |]).
  - intros _ Ha%Hst. done.
  - intros _ Ha%Hst. destruct (Hyes Ha) as [E1 E2]. cbn. by rewrite E1, E2.
Qed.

(** ** Histories *)

(** One call of the interface.  Configurations passed by drivers carry their
    own transmit function; the loopback function is private to net.c. *)
Inductive net_step : net_state W -> net_state W -> Prop :=
| step_register s c o st s' o' :
    config_ok c -> transmit c <> Some loopback_transmit_fn ->
    net_register_device s (Some c) o = Some (st, s', o') -> net_step s s'
| step_loopback s o st s' o' :
    net_loopback_register s o = Some (st, s', o') -> net_step s s'
| step_send s id frame length st s' :
    0 <= id -> 0 <= length ->
    net_send s id (Some frame) length = Some (st, s') -> net_step s s'
| step_receive s id frame length st s' :
    0 <= id -> 0 <= length ->
    net_receive s id (Some frame) length = Some (st, s') -> net_step s s'
| step_set_receiver s r : net_step s (net_set_receiver s r).

(** Loopback devices are registered with the context pointer set. *)
Definition loopback_ok (d : net_device_slot_t W) : Prop :=
  active d = true -> transmit (config d) = Some loopback_transmit_fn -> context (config d) = true.

Definition net_good (s : net_state W) : Prop := net_inv s /\ Forall loopback_ok (devices s).

Lemma net_send_spec s id frame length :
  net_good s -> 0 <= id -> 0 <= length ->
  exists st s', net_send s id (Some frame) length = Some (st, s') /\ same_table s s'.
Proof.
  intros [Hinv Hlb] Hid Hlen.
  destruct (Z.ltb_spec id JOSH_NET_MAX_DEVICES).
  2: { unfold net_send. if_case; [by eexists _, _ |].
       rewrite (proj2 (Z.leb_le _ _)) by lia. by eexists _, _. }
  destruct (device_lookup s id Hinv) as (d & Hd & Hok); [lia |].
  destruct (active d) eqn:Ea.
  2: { unfold net_send. if_case; [by eexists _, _ |]. rewrite (proj2 (Z.leb_gt _ _)) by lia.
       rewrite Hd. obind. rewrite Ea. by eexists _, _. }
  destruct (Hok Ea) as (_ & _ & [t Ht] & _). destruct t as [| f].
  - assert (loopback_ok d) as Hl
      by (apply rd_lookup in Hd as [_ Hd]; by eapply Forall_lookup_1 in Hlb).
    destruct (net_send_loopback s id frame length d) as (st & s' & E & Hs & _); eauto.
  - destruct (net_send_driver s id frame length d f) as (st & s' & E & Hs & _); eauto.
Qed.

Lemma same_table_good s s' : net_good s -> same_table s s' -> net_good s'.
Proof.
  intros [Hi Hl] Hs. split; [by eapply same_table_inv |].
  destruct Hs as (-> & _). done.
Qed.

(** Registering a device that is not a broken loopback keeps the table good. *)
Lemma register_good s c o st s' o' :
  net_good s -> config_ok c ->
  (transmit c = Some loopback_transmit_fn -> context c = true) ->
  net_register_device s (Some c) o = Some (st, s', o') ->
  net_good s' /\ (forall i d, rd (devices s) i = Some d -> active d = true ->
                             rd (devices s') i = Some d).
Proof.
  intros [Hi Hl] Hc Hlc E. destruct o as [o |]; [| by injection E as <- <- <-].
  destruct (net_register_spec s c o Hi Hc) as (st1 & s1 & o1 & E1 & Hi' & _ & Hbad & _ & Hok).
  rewrite E1 in E. injection E as -> -> ->.
  destruct (decide (st = NET_OK)) as [-> | Hne]; [| by destruct (Hbad Hne) as [-> _]].
  destruct (Hok eq_refl) as (i & d & -> & Hri & Hd & Ha & Hother & (d' & Hd' & Ha' & Ht & _ & Hctx) & _).
  split; [split; [done |] |].
  - apply Forall_lookup_2. intros k e Hk. rewrite <- rd_of_nat in Hk.
    destruct (decide (Z.of_nat k = i)) as [Heq | Hn].
    + rewrite Heq, Hd' in Hk. injection Hk as <-. intros _. rewrite Ht, Hctx. done.
    + rewrite Hother, rd_of_nat in Hk by done. by eapply Forall_lookup_1 in Hl.
  - intros j e Hj Hae. rewrite Hother; [done |]. intros ->. congruence.
Qed.

Lemma loopback_register_spec s o :
  net_good s ->
  exists st s' o', net_loopback_register s (Some o) = Some (st, s', o') /\ net_good s' /\
    (st <> NET_OK -> s' = s) /\
    (forall i d, rd (devices s) i = Some d -> active d = true -> rd (devices s') i = Some d) /\
    (Exists (fun d => active d = false) (devices s) -> st = NET_OK) /\
    (st = NET_OK -> exists i d, o' = Some i /\ loopback_device_id s' = i /\
       0 <= i < JOSH_NET_MAX_DEVICES /\ rd (devices s') i = Some d /\ active d = true /\
       transmit (config d) = Some loopback_transmit_fn /\ context (config d) = true /\
       mtu (config d) = 1500 /\ stats s' = count_registered (stats s) /\
       upper_receiver s' = upper_receiver s /\ world s' = world s).
Proof.
  intros Hg. pose proof Hg as [Hi Hl]. unfold net_loopback_register.
  change (copy_bytes (replicate 16 0) loopback_name 9) with
    (Some [108; 111; 111; 112; 98; 97; 99; 107; 0; 0; 0; 0; 0; 0; 0; 0]). obind.
  change (wr (replicate 6 0) 0 2) with (Some [2; 0; 0; 0; 0; 0]). obind.
  change (wr [2; 0; 0; 0; 0; 0] 5 1) with (Some [2; 0; 0; 0; 0; 1]). obind.
  set (c := mk_net_config _ _ 1500 true _).
  assert (config_ok c) as Hc by (by split_and!).
  destruct (net_register_spec s c 0 Hi Hc) as (st & s1 & o1 & E & Hi1 & Hba & Hbad & Hcap & Hok).
  cbn zeta. destruct (register_good s c _ _ _ _ Hg Hc ltac:(done) E) as [Hg1 Hkeep].
  rewrite E. obind. case_bool_decide as Hst.
  { eexists _, _, _. split; [done |]. destruct (Hbad Hst) as [-> _]. split_and!; try done.
    intros (d & Hin & Hd)%Exists_exists. exfalso.
    destruct Hcap as [_ Hall]; [done | by intros [?|?]%Hba |].
    pose proof (proj1 (Forall_forall _ _) Hall d Hin). congruence. }
  destruct st; try done. destruct (Hok eq_refl) as (i & d & -> & Hri & Hd & Ha & _ & (d' & Hd' & Ha' & Ht & Hm & Hx) & Hu & Hw & Hs & _).
  obind. eexists _, _, _. split; [done |]. split_and!; try done.
  - destruct Hg1 as [_ Hl1]. split; [| done].
    destruct Hi1 as (? & ? & ? & ?). split_and!; try done; cbn; lia.
  - intros _. exists i, d'. by split_and!; try lia.
Qed.

Lemma step_good s s' :
  net_step s s' -> net_good s ->
  net_good s' /\ (forall i d, rd (devices s) i = Some d -> active d = true ->
                             rd (devices s') i = Some d).
Proof.
  intros Hstep Hg. destruct Hstep as
    [s c o st s' o' Hc Ht E | s o st s' o' E | s id fr len st s' Hid Hlen E
    | s id fr len st s' Hid Hlen E | s r].
  - eapply register_good; [done | done | by intros ?%Ht | done].
  - destruct o as [o |]; [| by injection E as <- <- <-].
    destruct (loopback_register_spec s o Hg) as (st1 & s1 & o1 & E1 & Hg1 & _ & Hk & _).
    rewrite E1 in E. by injection E as -> -> ->.
  - destruct (net_send_spec s id fr len Hg Hid Hlen) as (st1 & s1 & E1 & Hs).
    rewrite E1 in E. injection E as -> ->. split; [by eapply same_table_good |].
    by destruct Hs as (-> & _).
  - destruct (net_receive_spec s id fr len (proj1 Hg) Hid Hlen) as (st1 & s1 & E1 & Hs & _).
    rewrite E1 in E. injection E as -> ->. split; [by eapply same_table_good |].
    by destruct Hs as (-> & _).
  - done.
Qed.

(** C7. From initialisation on, whatever sequence of registrations, sends,
    receptions and receiver changes follows: every operation is defined (no
    null function pointer is called and no array is overrun), the counter of
    registered devices is the number of devices in the table, every registered
    device has a transmit function, an MTU and a terminated name, and a
    device once registered stays in its slot unchanged. *)
Theorem net_histories_safe s0 s s' :
  0 <= loopback_device_id s0 ->
  steps net_step (net_init s0) s -> steps net_step s s' ->
  (forall c o, config_ok c -> is_Some (net_register_device s (Some c) (Some o))) /\
  (forall o, is_Some (net_loopback_register s (Some o))) /\
  (forall id frame length, 0 <= id -> 0 <= length ->
     is_Some (net_send s id (Some frame) length) /\
     is_Some (net_receive s id (Some frame) length)) /\
  registered_devices (stats s) = count_active (devices s) /\
  zlen (devices s) = JOSH_NET_MAX_DEVICES /\ Forall slot_ok (devices s) /\
  (forall i d, rd (devices s) i = Some d -> active d = true -> rd (devices s') i = Some d).
Proof.
  intros H0 Hs Hs'.
  assert (net_good s) as Hg.
  { refine (steps_invariant net_step net_good _ _ _ (fun a b Ha Hab => proj1 (step_good a b Hab Ha)) Hs).
    split; [by apply net_init_inv | apply Forall_replicate; by intros [=]]. }
  pose proof Hg as [(Hl & Hok & Hcnt & Hlb) _]. split_and!; try done.
  - intros c o Hc. destruct (net_register_spec s c o (proj1 Hg) Hc) as (st & s1 & o1 & -> & _). done.
  - intros o. destruct (loopback_register_spec s o Hg) as (st & s1 & o1 & -> & _). done.
  - intros id fr len Hid Hlen.
    destruct (net_send_spec s id fr len Hg Hid Hlen) as (st & s1 & -> & _).
    destruct (net_receive_spec s id fr len (proj1 Hg) Hid Hlen) as (st2 & s2 & -> & _). done.
  - intros i d Hd Ha.
    pose (P := fun t => net_good t /\ rd (devices t) i = Some d).
    assert (P s') as [_ Hfin]; [| done].
    refine (steps_invariant net_step P _ _ (conj Hg Hd) _ Hs'). intros a b [Hga Hda] Hab.
    destruct (step_good a b Hab Hga) as [Hgb Hk]. split; [done | by apply Hk].
Qed.

(** The loopback device delivers.  Registered in any reachable table with a
    free slot, it gets a fresh id; a frame of up to 1514 bytes sent on that id
    is handed to the installed receiver exactly once, with that id, the same
    bytes and length, and is counted once as transmitted and once as
    received. *)
Theorem net_loopback_delivers s0 s o receiver frame length :
  0 <= loopback_device_id s0 -> steps net_step (net_init s0) s ->
  Exists (fun d => active d = false) (devices s) -> 0 < length <= 1514 ->
  exists s1 id, net_loopback_register s (Some o) = Some (NET_OK, s1, Some id) /\
    exists s2, net_send (net_set_receiver s1 (Some receiver)) id (Some frame) length =
                 Some (NET_OK, s2) /\
      world s2 = receiver id frame length (world s) /\
      stats s2 = count_transmitted
                   (count_received (count_registered (stats s)) length) length.
Proof.
  intros H0 Hs Hfree Hlen.
  assert (net_good s) as Hg.
  { refine (steps_invariant net_step net_good _ _ _ (fun a b Ha Hab => proj1 (step_good a b Hab Ha)) Hs).
    split; [by apply net_init_inv | apply Forall_replicate; by intros [=]]. }
  destruct (loopback_register_spec s o Hg) as (st & s1 & o1 & E & Hg1 & _ & _ & Hst & Hok).
  rewrite (Hst Hfree) in *. destruct (Hok eq_refl) as (id & d & -> & Hid & Hr & Hd & Ha & Ht & Hx & Hm & Hstats & Hu & Hw).
  exists s1, id. split; [done |].
  set (s2 := net_set_receiver s1 (Some receiver)).
  assert (net_good s2) as Hg2 by done.
  assert (accepts s2 id length) as Hacc.
  { unfold accepts, JOSH_NET_MAX_DEVICES, JOSH_NET_MAX_FRAME in *. split_and!; [lia.. |].
    exists d. split_and!; [done | done | lia]. }
  destruct (net_send_loopback s2 id frame length d) as (st2 & s3 & E2 & _ & Hdel);
    [apply Hg2 | lia | lia | done.. |].
  assert (loopback_device_id s2 = id) as Hid2 by done.
  destruct Hdel as (-> & Hs3 & Hw3); [done | by rewrite Hid2 |].
  exists s3. split; [done |]. rewrite Hw3, Hs3. cbn. by rewrite Hid, Hw, Hstats.
Qed.
End NetProofs.

(** The network self test passes from every state. *)
Theorem net_self_test_passes s :
  exists s', net_self_test s = Some (true, s') /\ upper_receiver s' = None.
Proof. eexists. split; vm_compute; reflexivity. Qed.

(** ** A concrete table *)

Definition ex_net : net_state (list (list Z)) :=
  net_init (mk_net [] None zero_stats 0 []).
Definition ex_log (id : Z) (frame : list Z) (length : Z) (log : list (list Z)) : list (list Z) :=
  frame :: log.

Lemma net_histories_safe_witness :
  is_Some (net_loopback_register ex_net (Some 0)).
Proof.
  destruct (net_histories_safe (mk_net [] None zero_stats 0 []) ex_net ex_net) as (_ & H & _);
    [done | apply steps_refl | apply steps_refl |].
  apply H.
Defined.

Lemma net_loopback_delivers_witness :
  exists s1 id s2, net_loopback_register ex_net (Some 0) = Some (NET_OK, s1, Some id) /\
    net_send (net_set_receiver s1 (Some ex_log)) id (Some [1; 2; 3]) 3 = Some (NET_OK, s2) /\
    world s2 = [[1; 2; 3]].
Proof.
  destruct (net_loopback_delivers (mk_net [] None zero_stats 0 []) ex_net 0 ex_log [1; 2; 3] 3)
    as (s1 & id & E & s2 & E2 & Hw & _); [done | apply steps_refl | by left | lia |].
  by exists s1, id, s2.
Defined.
