(* ===== verification/Block.v ===== *)
(** * Block devices (kernel/src/block.c, block.h)

    The registry of block devices and the checked read, write and flush entry
    points.  A device's driver functions are code outside this component; they
    act on a world [W] that is a parameter.  The registry array with its count
    is the list of its live prefix. *)

From stdpp Require Import base numbers list strings.
From Stdlib Require Import ZArith Lia.
From S2P Require Import Prelude Bytes.

#[local] Open Scope Z_scope.

Definition BLOCK_MAX_DEVICES : Z := 8.
Definition BLOCK_NAME_MAX : Z := 15.

Inductive block_status_t :=
| BLOCK_OK | BLOCK_BAD_ARGUMENT | BLOCK_OUT_OF_RANGE | BLOCK_IO_ERROR
| BLOCK_READ_ONLY | BLOCK_REGISTRY_FULL.

#[export] Instance block_status_eq_dec : EqDecision block_status_t.
Proof. solve_decision. Defined.

Section Block.
Context {W : Type}.

(** A driver call: the sectors, the caller's buffer, and the world; a read
    returns the buffer it filled. *)
Definition block_read_fn := Z -> Z -> list Z -> W -> block_status_t * list Z * W.
Definition block_write_fn := Z -> Z -> list Z -> W -> block_status_t * W.
Definition block_flush_fn := W -> block_status_t * W.

Record block_device_t := mk_block_device {
  dev_name : list Z;
  sector_size : Z;
  sector_count : Z;
  writable : bool;
  dev_read : option block_read_fn;
  dev_write : option block_write_fn;
  dev_flush : option block_flush_fn;
}.

(** The copying loop of [copy_name]: at most [n] more characters from [i]. *)
Fixpoint copy_name_loop (n : nat) (destination source : list Z) (i : Z) : option (list Z) :=
  match n with
  | O => wr destination i 0
  | S n =>
      c ← rd source i;
      if c =? 0 then wr destination i 0
      else
        destination ← wr destination i c;
        copy_name_loop n destination source (i + 1)
  end.

Definition copy_name (destination : list Z) (source : option (list Z)) : option (list Z) :=
  match source with
  | Some source => copy_name_loop (Z.to_nat BLOCK_NAME_MAX) destination source 0
  | None => wr destination 0 0
  end.

Definition request_in_range (device : option block_device_t) (lba count : Z) : bool :=
  match device with
  | None => false
  | Some device =>
      if count =? 0 then false
      else if sector_count device <=? lba then false
      else count <=? u64 (sector_count device - lba)
  end.

(** [device_count] is the length of the list. *)
Definition block_registry_reset (devices : list block_device_t) : list block_device_t := [].

Definition set_dev_name (d : block_device_t) (n : list Z) : block_device_t :=
  mk_block_device n (sector_size d) (sector_count d) (writable d) (dev_read d) (dev_write d)
    (dev_flush d).

Definition block_register (devices : list block_device_t) (device : option block_device_t)
    (index_out : option Z) : option (block_status_t * list block_device_t * option Z) :=
  match device with
  | None => Some (BLOCK_BAD_ARGUMENT, devices, index_out)
  | Some d =>
      if bool_decide (dev_read d = None) || (sector_size d =? 0) || (sector_count d =? 0)
      then Some (BLOCK_BAD_ARGUMENT, devices, index_out)
      else if writable d && bool_decide (dev_write d = None)
      then Some (BLOCK_BAD_ARGUMENT, devices, index_out)
      else if BLOCK_MAX_DEVICES <=? zlen devices
      then Some (BLOCK_REGISTRY_FULL, devices, index_out)
      else
        name ← copy_name (dev_name d) (Some (dev_name d));
        Some (BLOCK_OK, devices ++ [set_dev_name d name], (fun _ => zlen devices) <$> index_out)
  end.

Definition block_count (devices : list block_device_t) : Z := zlen devices.

Definition block_get (devices : list block_device_t) (index : Z) : option block_device_t :=
  if index <? zlen devices then rd devices index else None.

(** The buffer is the caller's; on a rejected request it is unchanged. *)
Definition block_read (device : option block_device_t) (lba count : Z)
    (buffer : option (list Z)) (w : W) : block_status_t * option (list Z) * W :=
  match buffer, device with
  | Some b, Some d =>
      match dev_read d with
      | Some read =>
          if negb (request_in_range device lba count) then (BLOCK_OUT_OF_RANGE, buffer, w)
          else let '(status, b, w) := read lba count b w in (status, Some b, w)
      | None => (BLOCK_BAD_ARGUMENT, buffer, w)
      end
  | _, _ => (BLOCK_BAD_ARGUMENT, buffer, w)
  end.

Definition block_write (device : option block_device_t) (lba count : Z)
    (buffer : option (list Z)) (w : W) : block_status_t * W :=
  match buffer, device with
  | Some b, Some d =>
      match dev_write d with
      | Some write =>
          if negb (writable d) then (BLOCK_READ_ONLY, w)
          else if negb (request_in_range device lba count) then (BLOCK_OUT_OF_RANGE, w)
          else write lba count b w
      | None => (BLOCK_READ_ONLY, w)
      end
  | _, _ => (BLOCK_BAD_ARGUMENT, w)
  end.

Definition block_flush (device : option block_device_t) (w : W) : block_status_t * W :=
  match device with
  | None => (BLOCK_BAD_ARGUMENT, w)
  | Some d =>
      match dev_flush d with
      | None => (BLOCK_OK, w)
      | Some flush => flush w
      end
  end.
End Block.

Arguments block_device_t : clear implicits.
Arguments block_read_fn : clear implicits.
Arguments block_write_fn : clear implicits.
Arguments block_flush_fn : clear implicits.

Definition block_status_string (status : block_status_t) : string :=
  match status with
  | BLOCK_OK => "ok"
  | BLOCK_BAD_ARGUMENT => "bad argument"
  | BLOCK_OUT_OF_RANGE => "out of range"
  | BLOCK_IO_ERROR => "I/O error"
  | BLOCK_READ_ONLY => "read only"
  | BLOCK_REGISTRY_FULL => "registry full"
  end.

(** ** What drivers promise

    The interface between the block layer and its drivers.  [devs] maps device
    pointers to the devices they point to, [medium w id l] is the content of
    sector [l] of device [id].  A read never changes a medium and fills exactly
    the bytes of the request when it succeeds; when it fails it may leave
    anything in the buffer.  A write that succeeds stores the bytes of the
    request; a write changes no sector outside the request. *)
Class BlockDevices (W : Type) (devs : Z -> option (block_device_t W)) := {
  medium : W -> Z -> Z -> list Z;
  medium_size id d w l : devs id = Some d -> zlen (medium w id l) = sector_size d;
  driver_read id d read lba b w st b' w' :
    devs id = Some d -> dev_read d = Some read -> 0 <= lba < sector_count d ->
    sector_size d <= zlen b -> read lba 1 b w = (st, b', w') ->
    zlen b' = zlen b /\ (forall i l, medium w' i l = medium w i l) /\
    (st = BLOCK_OK -> b' = blit b 0 (medium w id lba));
  driver_write id d write lba b w st w' :
    devs id = Some d -> dev_write d = Some write -> 0 <= lba < sector_count d ->
    sector_size d <= zlen b -> write lba 1 b w = (st, w') ->
    (forall i l, ~ (i = id /\ l = lba) -> medium w' i l = medium w i l) /\
    (st = BLOCK_OK -> medium w' id lba = slice b 0 (sector_size d));
}.

Section BlockProofs.
Context {W : Type}.
Implicit Types d : block_device_t W.

(** The range check is exact: no subtraction or addition in it wraps. *)
Lemma request_in_range_spec d lba count :
  0 <= sector_count d < 2 ^ 64 -> 0 <= lba < 2 ^ 64 -> 0 <= count < 2 ^ 32 ->
  request_in_range (Some d) lba count = true <-> 0 < count /\ lba + count <= sector_count d.
Proof.
  intros Hs Hl Hc. unfold request_in_range.
  destruct (Z.eqb_spec count 0); [split; [done | lia] |].
  destruct (Z.leb_spec (sector_count d) lba); [split; [done | lia] |].
  rewrite u64_small by lia. rewrite Z.leb_le. lia.
Qed.

(** The terminated copy of a name. *)
Lemma copy_name_loop_spec n destination source i :
  0 <= i -> i + Z.of_nat n < zlen destination -> i + Z.of_nat n <= zlen source ->
  exists r j, copy_name_loop n destination source i = Some r /\ zlen r = zlen destination /\
    i <= j <= i + Z.of_nat n /\ rd r j = Some 0 /\
    (forall k, k < i -> rd r k = rd destination k).
Proof.
  revert destination i. induction n as [| n IH]; intros destination i Hi Hd Hs; cbn [copy_name_loop].
  - destruct (wr destination i 0) as [r |] eqn:E; [| by rewrite wr_in_range in E by lia].
    exists r, i. split_and!; [done | by eapply zlen_wr | lia | lia | by eapply rd_wr_eq |].
    intros k Hk. eapply rd_wr_ne; [done | lia].
  - destruct (rd_in_range source i) as [c ->]; [lia |]. obind. if_case.
    + destruct (wr destination i 0) as [r |] eqn:Ew; [| by rewrite wr_in_range in Ew by lia].
      exists r, i. split_and!; [done | by eapply zlen_wr | lia | lia | by eapply rd_wr_eq |].
      intros k Hk. eapply rd_wr_ne; [done | lia].
    + destruct (wr destination i c) as [d1 |] eqn:Ew; [| by rewrite wr_in_range in Ew by lia].
      obind. pose proof (zlen_wr _ _ _ _ Ew) as HL.
      destruct (IH d1 (i + 1)) as (r & j & Er & Hl & Hj & H0 & Hk); [lia.. |].
      exists r, j. split_and!; [done | lia | lia | lia | done |].
      intros k Hlt. rewrite Hk by lia. eapply rd_wr_ne; [done | lia].
Qed.

(** What every registered device satisfies. *)
Definition device_ok d : Prop :=
  is_Some (dev_read d) /\ 0 < sector_size d < 2 ^ 32 /\ 0 < sector_count d < 2 ^ 64 /\
  (writable d = true -> is_Some (dev_write d)) /\
  zlen (dev_name d) = 16 /\ exists j, 0 <= j <= BLOCK_NAME_MAX /\ rd (dev_name d) j = Some 0.

Definition registry_ok (devices : list (block_device_t W)) : Prop :=
  zlen devices <= BLOCK_MAX_DEVICES /\ Forall device_ok devices.

(** One-sector requests through the checked entry points. *)
Lemma block_read_one {devs} `{BD : BlockDevices W devs} id d lba b w st b' w' :
  devs id = Some d -> device_ok d -> 0 <= lba < 2 ^ 64 -> sector_size d <= zlen b ->
  block_read (Some d) lba 1 (Some b) w = (st, Some b', w') ->
  zlen b' = zlen b /\ (forall i l, medium w' i l = medium w i l) /\
  (st = BLOCK_OK -> lba < sector_count d /\ b' = blit b 0 (medium w id lba)) /\
  (sector_count d <= lba -> st = BLOCK_OUT_OF_RANGE /\ b' = b).
Proof.
  intros Hid ([read Hr] & Hss & Hsc & _) Hl Hb. unfold block_read. rewrite Hr.
  pose proof (request_in_range_spec d lba 1 ltac:(lia) Hl ltac:(lia)) as Hrange.
  destruct (request_in_range (Some d) lba 1); cbn [negb].
  - destruct (read lba 1 b w) as [[st1 b1] w1] eqn:E. intros [= <- <- <-].
    destruct (proj1 Hrange eq_refl) as [_ Hlt].
    edestruct (driver_read id d) as (H1 & H2 & H3); [done | done | | done | done |]; [lia |].
    split_and!; try done; [intros ?; split; [lia | auto] | lia].
  - intros [= <- <- <-]. split_and!; try done.
Qed.

Lemma block_write_one {devs} `{BD : BlockDevices W devs} id d lba b w st w' :
  devs id = Some d -> device_ok d -> 0 <= lba < 2 ^ 64 -> sector_size d <= zlen b ->
  block_write (Some d) lba 1 (Some b) w = (st, w') ->
  (forall i l, ~ (i = id /\ l = lba) -> medium w' i l = medium w i l) /\
  (st = BLOCK_OK -> lba < sector_count d /\ medium w' id lba = slice b 0 (sector_size d)).
Proof.
  intros Hid (_ & Hss & Hsc & _) Hl Hb. unfold block_write.
  destruct (dev_write d) as [write |] eqn:Hw; [| by intros [= <- <-]].
  destruct (writable d); cbn [negb]; [| by intros [= <- <-]].
  pose proof (request_in_range_spec d lba 1 ltac:(lia) Hl ltac:(lia)) as Hrange.
  destruct (request_in_range (Some d) lba 1); cbn [negb]; [| by intros [= <- <-]].
  destruct (proj1 Hrange eq_refl) as [_ Hlt]. intros E.
  edestruct (driver_write id d) as (H1 & H2); [done | done | | done | done |]; [lia |].
  split; [done |]. intros Hst. split; [lia | auto].
Qed.

(** The registry.  Registration accepts exactly the complete devices while
    there is room, gives the new device the next index, terminates its name
    within the 16 bytes, and leaves the earlier devices where they were; so
    every device of the registry has a read function, a geometry, a write
    function if it is writable, and a terminated name. *)
Theorem block_register_correct devices d o :
  registry_ok devices -> zlen (dev_name d) = 16 ->
  0 <= sector_size d < 2 ^ 32 -> 0 <= sector_count d < 2 ^ 64 ->
  exists st devices' o', block_register devices (Some d) o = Some (st, devices', o') /\
    registry_ok devices' /\
    (st = BLOCK_OK <->
       is_Some (dev_read d) /\ sector_size d <> 0 /\ sector_count d <> 0 /\
       (writable d = true -> is_Some (dev_write d)) /\ zlen devices < BLOCK_MAX_DEVICES) /\
    (st <> BLOCK_OK -> devices' = devices /\ o' = o) /\
    (st = BLOCK_OK ->
       (forall i, i < zlen devices -> block_get devices' i = block_get devices i) /\
       (exists name, block_get devices' (zlen devices) = Some (set_dev_name d name)) /\
       block_count devices' = block_count devices + 1 /\
       (is_Some o -> o' = Some (zlen devices))).
Proof.
  intros [Hn Hok] Hname Hss Hsc. unfold block_register, BLOCK_MAX_DEVICES in *.
  destruct (dev_read d) as [r |] eqn:Er; cbn.
  2: { eexists _, _, _. split; [done |]. split_and!; try done. split; [done |]. intros ([] & _). done. }
  destruct (Z.eqb_spec (sector_size d) 0); cbn.
  { eexists _, _, _. split; [done |]. split_and!; try done. split; [done | tauto]. }
  destruct (Z.eqb_spec (sector_count d) 0); cbn.
  { eexists _, _, _. split; [done |]. split_and!; try done. split; [done | tauto]. }
  destruct (writable d && bool_decide (dev_write d = None)) eqn:Ew.
  { apply andb_true_iff in Ew as [Ew Hw%bool_decide_eq_true].
    eexists _, _, _. split; [done |]. split_and!; try done. split; [done |].
    rewrite Ew, Hw. intros (_ & _ & _ & Hx & _). by destruct (Hx eq_refl). }
  assert (writable d = true -> is_Some (dev_write d)) as Hw.
  { intros E. rewrite E in Ew. apply bool_decide_eq_false in Ew. by destruct (dev_write d). }
  destruct (Z.leb_spec 8 (zlen devices)).
  { eexists _, _, _. split; [done |]. split_and!; try done. split; [done | lia]. }
  destruct (copy_name_loop_spec 15 (dev_name d) (dev_name d) 0)
    as (nm & j & Enm & Hnl & Hj & H0 & _); [lia.. |].
  change (Z.to_nat BLOCK_NAME_MAX) with 15%nat. rewrite Enm. obind.
  eexists _, _, _. split; [done |]. split; [split |]; [| | split; [done |]; split; [done |]].
  - unfold BLOCK_MAX_DEVICES. rewrite zlen_app. change (zlen [_]) with 1. lia.
  - apply Forall_app. split; [done |]. apply Forall_cons. split; [| constructor].
    unfold device_ok, BLOCK_NAME_MAX. cbn. rewrite Er.
    split_and!; try done; try lia. exists j. split; [lia | done].
  - intros _. pose proof (zlen_nonneg devices). unfold block_get, block_count.
    assert (zlen (devices ++ [set_dev_name d nm]) = zlen devices + 1) as HL by (by rewrite zlen_app).
    rewrite HL. split_and!; [| | lia | by intros [? ->]].
    + intros i Hi. rewrite !(proj2 (Z.ltb_lt i _)) by lia. by rewrite rd_app_l by lia.
    + exists nm. rewrite (proj2 (Z.ltb_lt _ _)) by lia. by rewrite rd_app_r, Z.sub_diag by lia.
Qed.
End BlockProofs.

(** ** A concrete device *)

Definition ex_rom : block_device_t unit :=
  mk_block_device (replicate 16 77) 512 8 false
    (Some (fun lba count b w => (BLOCK_IO_ERROR, b, w))) None None.

Lemma block_register_correct_witness :
  exists devices, block_register [] (Some ex_rom) (Some 9) = Some (BLOCK_OK, devices, Some 0).
Proof.
  destruct (block_register_correct [] ex_rom (Some 9)) as (st & ds & o & E & _ & Hst & _ & Hok);
    [by split | done | by vm_compute | by vm_compute |].
  assert (st = BLOCK_OK) as ->
    by (apply Hst; split_and!; [by eexists | by vm_compute.. | done | by vm_compute]).
  destruct (Hok eq_refl) as (_ & _ & _ & Ho). rewrite (Ho ltac:(by eexists)) in E.
  by exists ds.
Defined.

(** A disk of sectors of [size] bytes with unreadable ones: reading one of
    those transfers garbage and reports an error.  It keeps the promises of
    drivers. *)
Record disk := mk_disk { disk_sectors : Z -> list Z; disk_unreadable : list Z }.

Definition disk_medium (size : Z) (w : disk) (id l : Z) : list Z :=
  if id =? 1 then take (Z.to_nat size) (disk_sectors w l ++ replicate (Z.to_nat size) 0) else [].

Definition disk_read (size : Z) : block_read_fn disk := fun lba count b w =>
  if bool_decide (lba ∈ disk_unreadable w)
  then (BLOCK_IO_ERROR, blit b 0 (replicate (Z.to_nat size) 222), w)
  else (BLOCK_OK, blit b 0 (disk_medium size w 1 lba), w).

Definition disk_write (size : Z) : block_write_fn disk := fun lba count b w =>
  (BLOCK_OK, mk_disk (fun l => if l =? lba then slice b 0 size else disk_sectors w l)
               (disk_unreadable w)).

Definition disk_device (size sectors : Z) : block_device_t disk :=
  mk_block_device (replicate 16 0) size sectors true (Some (disk_read size))
    (Some (disk_write size)) None.

Definition disk_devs (size sectors id : Z) : option (block_device_t disk) :=
  if id =? 1 then Some (disk_device size sectors) else None.

Lemma disk_medium_size size w l : 0 <= size -> zlen (disk_medium size w 1 l) = size.
Proof.
  intros. unfold disk_medium, zlen. cbn [Z.eqb Pos.eqb].
  rewrite length_take, length_app, length_replicate. lia.
Qed.

Lemma disk_devs_Some size sectors id d :
  disk_devs size sectors id = Some d -> id = 1 /\ d = disk_device size sectors.
Proof. unfold disk_devs. if_case; [| done]. bool_cases. by intros [= <-]. Qed.

Lemma disk_device_ok size sectors :
  0 < size < 2 ^ 32 -> 0 < sectors < 2 ^ 64 -> device_ok (disk_device size sectors).
Proof. intros. split_and!; cbn; try done; try lia. by exists 0. Qed.

Definition disk_devices size sectors : 0 < size -> BlockDevices disk (disk_devs size sectors).
Proof.
  intros Hsize. refine {| medium := disk_medium size |}.
  - intros id d w l [-> ->]%disk_devs_Some. apply (disk_medium_size size). lia.
  - intros id d read lba b w st b' w' [-> ->]%disk_devs_Some [= <-] _ Hb. cbn in Hb.
    unfold disk_read. case_bool_decide; intros [= <- <- <-]; (split; [| done]).
    + apply zlen_blit; [done |]. unfold zlen. rewrite length_replicate. unfold zlen in Hb. lia.
    + apply zlen_blit; rewrite ?disk_medium_size; lia.
  - intros id d write lba b w st w' [-> ->]%disk_devs_Some [= <-] _ Hb [= <- <-]. cbn in Hb. split.
    + intros i l Hn. unfold disk_medium. cbn. destruct (Z.eqb_spec i 1); [| done].
      destruct (Z.eqb_spec l lba); [by destruct Hn | done].
    + intros _. unfold disk_medium. cbn. rewrite Z.eqb_refl.
      pose proof (zlen_slice b 0 size ltac:(lia) ltac:(lia) ltac:(lia)) as HL. unfold zlen in HL.
      rewrite take_app_le by lia. apply take_ge. lia.
Defined.
