(* ===== verification/BlockCache.v ===== *)
(** * Block cache (kernel/src/block_cache.c, block_cache.h)

    A write-through cache of eight sectors, replaced in least-recently-used
    order.  A device pointer is a number, compared as the code compares
    pointers, together with the device it points to. *)

From stdpp Require Import base numbers list.
From Stdlib Require Import ZArith Lia.
From S2P Require Import Prelude Bytes Block.

#[local] Open Scope Z_scope.

Definition BLOCK_CACHE_ENTRIES : Z := 8.
Definition BLOCK_CACHE_MAX_SECTOR : Z := 4096.

Record block_cache_entry_t := mk_entry {
  valid : bool;
  ce_device : Z;
  ce_lba : Z;
  ce_age : Z;
  ce_data : list Z;
}.

Record block_cache_t := mk_cache {
  clock : Z;
  hits : Z;
  misses : Z;
  entries : list block_cache_entry_t;
}.

Definition set_valid (e : block_cache_entry_t) (v : bool) : block_cache_entry_t :=
  mk_entry v (ce_device e) (ce_lba e) (ce_age e) (ce_data e).
Definition set_age (e : block_cache_entry_t) (age : Z) : block_cache_entry_t :=
  mk_entry (valid e) (ce_device e) (ce_lba e) age (ce_data e).
Definition set_data (e : block_cache_entry_t) (data : list Z) : block_cache_entry_t :=
  mk_entry (valid e) (ce_device e) (ce_lba e) (ce_age e) data.

(** The counted copy loop. *)
Definition copy_bytes (destination source : list Z) (length : Z) : option (list Z) :=
  copy_loop (Z.to_nat length) destination 0 source 0.

Definition block_cache_init (cache : option block_cache_t) : option block_cache_t :=
  (fun c => mk_cache 0 0 0 ((fun e => set_valid e false) <$> entries c)) <$> cache.

(** The index of the first matching entry, or -1. *)
Fixpoint find_loop (es : list block_cache_entry_t) (device lba i : Z) : Z :=
  match es with
  | [] => -1
  | e :: es =>
      if valid e && (ce_device e =? device) && (ce_lba e =? lba) then i
      else find_loop es device lba (i + 1)
  end.

Definition find_entry (cache : block_cache_t) (device lba : Z) : Z :=
  find_loop (entries cache) device lba 0.

Fixpoint victim_loop (es : list block_cache_entry_t) (i victim oldest : Z) : Z :=
  match es with
  | [] => victim
  | e :: es =>
      if negb (valid e) then i
      else if ce_age e <? oldest then victim_loop es (i + 1) i (ce_age e)
      else victim_loop es (i + 1) victim oldest
  end.

Definition victim_entry (cache : block_cache_t) : Z :=
  victim_loop (entries cache) 0 0 UINT64_MAX.

(** [device->sector_size == 0 || device->sector_size > BLOCK_CACHE_MAX_SECTOR]. *)
Definition bad_sector_size {W} (d : block_device_t W) : bool :=
  (sector_size d =? 0) || (BLOCK_CACHE_MAX_SECTOR <? sector_size d).

Section BlockCache.
Context {W : Type}.

(** The cache, the device pointer and the caller's sector buffer may be null. *)
Definition block_cache_read (cache : option block_cache_t)
    (device : option (Z * block_device_t W)) (lba : Z) (sector_out : option (list Z)) (w : W) :
    option (block_status_t * option block_cache_t * option (list Z) * W) :=
  match cache, device, sector_out with
  | Some c, Some (dp, d), Some out =>
      if bad_sector_size d then Some (BLOCK_BAD_ARGUMENT, cache, sector_out, w)
      else
        let found := find_entry c dp lba in
        if 0 <=? found then
          e ← rd (entries c) found;
          let clock' := u64 (clock c + 1) in
          es ← wr (entries c) found (set_age e clock');
          out ← copy_bytes out (ce_data e) (sector_size d);
          Some (BLOCK_OK, Some (mk_cache clock' (u64 (hits c + 1)) (misses c) es), Some out, w)
        else
          let slot := victim_entry c in
          e ← rd (entries c) slot;
          let '(status, data, w) := block_read (Some d) lba 1 (Some (ce_data e)) w in
          data ← data;
          es ← wr (entries c) slot (set_data e data);
          if bool_decide (status <> BLOCK_OK)
          then Some (status, Some (mk_cache (clock c) (hits c) (misses c) es), sector_out, w)
          else
            let clock' := u64 (clock c + 1) in
            es ← wr es slot (mk_entry true dp lba clock' data);
            out ← copy_bytes out data (sector_size d);
            Some (BLOCK_OK, Some (mk_cache clock' (hits c) (u64 (misses c + 1)) es), Some out, w)
  | _, _, _ => Some (BLOCK_BAD_ARGUMENT, cache, sector_out, w)
  end.

Definition block_cache_write (cache : option block_cache_t)
    (device : option (Z * block_device_t W)) (lba : Z) (sector : option (list Z)) (w : W) :
    option (block_status_t * option block_cache_t * W) :=
  match cache, device, sector with
  | Some c, Some (dp, d), Some data =>
      if bad_sector_size d then Some (BLOCK_BAD_ARGUMENT, cache, w)
      else
        let '(status, w) := block_write (Some d) lba 1 sector w in
        if bool_decide (status <> BLOCK_OK) then Some (status, cache, w)
        else
          let found := find_entry c dp lba in
          let slot := if 0 <=? found then found else victim_entry c in
          e ← rd (entries c) slot;
          let clock' := u64 (clock c + 1) in
          stored ← copy_bytes (ce_data e) data (sector_size d);
          es ← wr (entries c) slot (mk_entry true dp lba clock' stored);
          Some (BLOCK_OK, Some (mk_cache clock' (hits c) (misses c) es), w)
  | _, _, _ => Some (BLOCK_BAD_ARGUMENT, cache, w)
  end.

Definition block_cache_flush (cache : option block_cache_t)
    (device : option (Z * block_device_t W)) (w : W) : block_status_t * W :=
  match cache, device with
  | Some _, Some (_, d) => block_flush (Some d) w
  | _, _ => (BLOCK_BAD_ARGUMENT, w)
  end.

(** A null device invalidates every entry. *)
Definition block_cache_invalidate (cache : option block_cache_t) (device : option Z) :
    option block_cache_t :=
  (fun c => mk_cache (clock c) (hits c) (misses c)
     ((fun e => if match device with None => true | Some dp => ce_device e =? dp end
                then set_valid e false else e) <$> entries c)) <$> cache.
End BlockCache.

(** ** Lookups *)

Definition key_matches (e : block_cache_entry_t) (device lba : Z) : Prop :=
  valid e = true /\ ce_device e = device /\ ce_lba e = lba.

Lemma find_loop_spec es device lba i :
  0 <= i ->
  (find_loop es device lba i = -1 /\ Forall (fun e => ~ key_matches e device lba) es) \/
  (exists e, i <= find_loop es device lba i /\
     rd es (find_loop es device lba i - i) = Some e /\ key_matches e device lba).
Proof.
  revert i. induction es as [| e es IH]; intros i Hi; cbn [find_loop]; [by left |].
  destruct (valid e && (ce_device e =? device) && (ce_lba e =? lba)) eqn:E.
  - right. exists e. bool_cases. split_and!; [lia | by rewrite Z.sub_diag | by split_and!].
  - destruct (IH (i + 1)) as [[-> Hall] | (f & Hge & Hf & Hk)]; [lia | left | right].
    + split; [done |]. constructor; [| done]. intros (Hv & Hd & Hl).
      rewrite Hv, Hd, Hl, !Z.eqb_refl in E. done.
    + exists f. split_and!; [lia | | done]. rewrite <- Hf.
      replace (find_loop es device lba (i + 1) - i)
        with (1 + (find_loop es device lba (i + 1) - (i + 1))) by lia.
      change (e :: es) with ([e] ++ es). rewrite rd_app_r by (change (zlen [e]) with 1; lia).
      f_equal. change (zlen [e]) with 1. lia.
Qed.

(** The victim is an unused entry, or one that no entry is older than. *)
Lemma victim_loop_spec es i victim oldest :
  0 <= i -> Forall (fun e => ce_age e <= UINT64_MAX) es ->
  let v := victim_loop es i victim oldest in
  (v = victim /\ Forall (fun e => valid e = true /\ oldest <= ce_age e) es) \/
  (exists e, i <= v < i + zlen es /\ rd es (v - i) = Some e /\
     (valid e = false \/
      (valid e = true /\ ce_age e < oldest /\
       Forall (fun f => valid f = true /\ ce_age e <= ce_age f) es))).
Proof.
  intros Hi Hages. cbn zeta. revert i victim oldest Hi.
  induction Hages as [| e es He Hages IH]; intros i victim oldest Hi; cbn [victim_loop]; [by left |].
  pose proof (zlen_nonneg es). rewrite zlen_cons.
  assert (forall v f, i + 1 <= v -> rd es (v - (i + 1)) = Some f -> rd (e :: es) (v - i) = Some f)
    as Hshift.
  { intros v f Hv Hf. change (e :: es) with ([e] ++ es).
    rewrite rd_app_r by (change (zlen [e]) with 1; lia). rewrite <- Hf. f_equal.
    change (zlen [e]) with 1. lia. }
  destruct (valid e) eqn:Ev; cbn [negb].
  2: { right. exists e. split; [lia |]. split; [by rewrite Z.sub_diag | by left]. }
  destruct (Z.ltb_spec (ce_age e) oldest).
  - right. destruct (IH (i + 1) i (ce_age e)) as [[-> Hall] | (f & Hr & Hf & Hc)]; [lia | |].
    + exists e. split; [lia |]. split; [by rewrite Z.sub_diag |]. right.
      split_and!; try done. constructor; [split; [done | lia] | done].
    + exists f. split; [lia |]. split; [apply Hshift; [lia | done] |].
      destruct Hc as [Hc | (Hv & Hlt & Hall)]; [by left | right].
      split_and!; [done | lia |]. constructor; [split; [done | lia] | done].
  - destruct (IH (i + 1) victim oldest) as [[-> Hall] | (f & Hr & Hf & Hc)]; [lia | left | right].
    + split; [done |]. constructor; [split; [done | lia] | done].
    + exists f. split; [lia |]. split; [apply Hshift; [lia | done] |].
      destruct Hc as [Hc | (Hv & Hlt & Hall)]; [by left | right].
      split_and!; [done | done |]. constructor; [split; [done | lia] | done].
Qed.

(** ** Invariant *)

Definition unique_keys (es : list block_cache_entry_t) : Prop :=
  forall i j e f, es !! i = Some e -> es !! j = Some f -> valid e = true -> valid f = true ->
    ce_device e = ce_device f -> ce_lba e = ce_lba f -> i = j.

Definition cache_ok (c : block_cache_t) : Prop :=
  zlen (entries c) = BLOCK_CACHE_ENTRIES /\
  Forall (fun e => zlen (ce_data e) = BLOCK_CACHE_MAX_SECTOR /\ ce_age e <= UINT64_MAX) (entries c) /\
  unique_keys (entries c).

Lemma unique_keys_insert es slot x :
  unique_keys es -> (slot < length es)%nat ->
  (forall j f, j <> slot -> es !! j = Some f -> ~ key_matches f (ce_device x) (ce_lba x)) ->
  unique_keys (<[slot := x]> es).
Proof.
  intros Hu Hs Hx i j e f Hi Hj Hve Hvf Hd Hl.
  apply list_lookup_insert_Some in Hi as [(<- & <- & _) | [Hni Hi]];
    apply list_lookup_insert_Some in Hj as [(Ej & <- & _) | [Hnj Hj]]; [done | | |].
  - destruct (Hx j f); [done | done | by split_and!].
  - destruct (Hx i e); [done | done | by split_and!].
  - by eapply Hu.
Qed.

Lemma victim_in_range c :
  cache_ok c ->
  exists e, 0 <= victim_entry c < BLOCK_CACHE_ENTRIES /\
    rd (entries c) (victim_entry c) = Some e /\ zlen (ce_data e) = BLOCK_CACHE_MAX_SECTOR /\
    (valid e = false \/ Forall (fun f => valid f = true /\ ce_age e <= ce_age f) (entries c)).
Proof.
  intros (Hl & Hok & _). unfold victim_entry.
  assert (Forall (fun e => ce_age e <= UINT64_MAX) (entries c)) as Hages
    by (eapply Forall_impl; [exact Hok |]; by intros ? [_ ?]).
  destruct (victim_loop_spec (entries c) 0 0 UINT64_MAX) as [[-> Hall] | (e & Hr & He & Hc)];
    [lia | done | |].
  - destruct (rd_in_range (entries c) 0) as [e He]; [by rewrite Hl |].
    exists e. split; [by vm_compute |]. split; [done |].
    apply rd_lookup in He as [_ He]. destruct (Forall_lookup_1 _ _ _ _ Hok He) as [Hd Ha].
    split; [done |]. right. eapply Forall_impl; [exact Hall |]. intros f [Hv Hge]. split; [done | lia].
  - exists e. rewrite Z.sub_0_r in He. split; [lia |]. split; [done |].
    apply rd_lookup in He as [_ He]. destruct (Forall_lookup_1 _ _ _ _ Hok He) as [Hd Ha].
    split; [done |]. destruct Hc as [? | (_ & _ & ?)]; [by left | by right].
Qed.

Section CacheProofs.
Context {W : Type} {devs : Z -> option (block_device_t W)} `{BD : BlockDevices W devs}.

(** A valid entry holds the sector it is labelled with. *)
Definition entry_coherent (w : W) (e : block_cache_entry_t) : Prop :=
  valid e = true ->
  exists d, devs (ce_device e) = Some d /\ sector_size d <= BLOCK_CACHE_MAX_SECTOR /\
    slice (ce_data e) 0 (sector_size d) = medium w (ce_device e) (ce_lba e).

Definition coherent (w : W) (c : block_cache_t) : Prop := Forall (entry_coherent w) (entries c).

Lemma entry_coherent_medium w w' e :
  (forall i l, medium w' i l = medium w i l) -> entry_coherent w e -> entry_coherent w' e.
Proof. intros Hm He Hv. destruct (He Hv) as (d & ? & ? & E). exists d. by rewrite Hm. Qed.

Lemma cache_update_ok c slot x clock' hits' misses' :
  cache_ok c -> 0 <= slot < BLOCK_CACHE_ENTRIES ->
  zlen (ce_data x) = BLOCK_CACHE_MAX_SECTOR -> ce_age x <= UINT64_MAX ->
  (forall j f, j <> Z.to_nat slot -> entries c !! j = Some f ->
     valid x = true -> ~ key_matches f (ce_device x) (ce_lba x)) ->
  cache_ok (mk_cache clock' hits' misses' (<[Z.to_nat slot := x]> (entries c))).
Proof.
  intros (Hl & Hok & Hu) Hs Hd Ha Hx. split_and!; cbn.
  - by rewrite zlen_insert.
  - by apply Forall_insert.
  - destruct (valid x) eqn:Ev.
    + apply unique_keys_insert; [done | unfold zlen, BLOCK_CACHE_ENTRIES in *; lia |].
      intros j f Hj Hf. by apply (Hx j).
    + intros i j e f Hi Hj Hve Hvf Hdv Hlb.
      apply list_lookup_insert_Some in Hi as [(_ & <- & _) | [_ Hi]]; [congruence |].
      apply list_lookup_insert_Some in Hj as [(_ & <- & _) | [_ Hj]]; [congruence |].
      by eapply Hu.
Qed.

(** A failed lookup or a found slot: no other entry has the key. *)
Lemma find_entry_spec c dp lba :
  cache_ok c ->
  (find_entry c dp lba = -1 /\ Forall (fun e => ~ key_matches e dp lba) (entries c)) \/
  (exists e, 0 <= find_entry c dp lba < BLOCK_CACHE_ENTRIES /\
     rd (entries c) (find_entry c dp lba) = Some e /\ key_matches e dp lba /\
     (forall j f, j <> Z.to_nat (find_entry c dp lba) -> entries c !! j = Some f ->
        ~ key_matches f dp lba)).
Proof.
  intros (Hl & Hok & Hu). unfold find_entry.
  destruct (find_loop_spec (entries c) dp lba 0) as [? | (e & Hge & He & Hk)]; [lia | by left | right].
  rewrite Z.sub_0_r in He. exists e. pose proof (rd_Some_lt _ _ _ He). split; [lia |].
  split; [done |]. split; [done |]. intros j f Hj Hf (Hv & Hd & Hlb). apply Hj.
  apply rd_lookup in He as [_ He]. destruct Hk as (Hv' & Hd' & Hlb').
  eapply (Hu j); eauto; congruence.
Qed.

(** What a request needs: a known device with a cacheable sector size. *)
Definition request_ok (dp : Z) (d : block_device_t W) (lba : Z) : Prop :=
  devs dp = Some d /\ device_ok d /\ sector_size d <= BLOCK_CACHE_MAX_SECTOR /\ 0 <= lba < 2 ^ 64.

Lemma request_sector_size dp d lba : request_ok dp d lba -> bad_sector_size d = false.
Proof.
  intros (_ & (_ & ? & _) & ? & _). unfold bad_sector_size.
  rewrite (proj2 (Z.eqb_neq _ _)), (proj2 (Z.ltb_ge _ _)) by lia. done.
Qed.

Lemma cache_copy_spec destination source n :
  0 <= n -> n <= zlen destination -> n <= zlen source ->
  copy_bytes destination source n = Some (blit destination 0 (slice source 0 n)).
Proof. intros. unfold copy_bytes. rewrite copy_loop_spec by lia. by rewrite Z2Nat.id. Qed.

Lemma u64_le_max z : u64 z <= UINT64_MAX.
Proof. pose proof (u64_range z). unfold UINT64_MAX. lia. Qed.

Lemma no_key_lookup es dp lba j f :
  Forall (fun e => ~ key_matches e dp lba) es -> es !! j = Some f -> ~ key_matches f dp lba.
Proof. intros H Hf. by apply (Forall_lookup_1 _ _ _ _ H Hf). Qed.

(** The search does not look at the age. *)
Lemma find_loop_age es dp lba i k e a :
  es !! k = Some e -> find_loop (<[k := set_age e a]> es) dp lba i = find_loop es dp lba i.
Proof.
  revert i k. induction es as [| f es IH]; intros i [| k] Hk; [done.. | |]; cbn in *.
  - by injection Hk as <-.
  - by rewrite IH.
Qed.

(** A hit: the data comes from the cache and the driver is not called. *)
Lemma cache_read_hit c dp d lba out w e :
  cache_ok c -> coherent w c -> request_ok dp d lba -> sector_size d <= zlen out ->
  rd (entries c) (find_entry c dp lba) = Some e -> key_matches e dp lba ->
  exists c', block_cache_read (Some c) (Some (dp, d)) lba (Some out) w =
      Some (BLOCK_OK, Some c', Some (blit out 0 (medium w dp lba)), w) /\
    cache_ok c' /\ coherent w c' /\ 0 <= find_entry c' dp lba.
Proof.
  intros Hok Hco Hreq Hout He (Hv & Hd & Hl). unfold block_cache_read.
  rewrite (request_sector_size _ _ _ Hreq). pose proof (rd_Some_lt _ _ _ He) as Hr.
  rewrite (proj2 (Z.leb_le 0 _)) by lia. rewrite He. obind. cbn zeta.
  rewrite wr_in_range by done. obind.
  pose proof Hok as (Hlen & Hall & Hu). apply rd_lookup in He as [_ He].
  destruct (Forall_lookup_1 _ _ _ _ Hall He) as [Hdata _].
  destruct (Forall_lookup_1 _ _ _ _ Hco He Hv) as (d' & Hd' & Hss & Hsl).
  destruct Hreq as (Hdp & (_ & Hsz & _) & Hmax & _). rewrite Hd, Hdp in Hd'. injection Hd' as <-.
  rewrite cache_copy_spec by lia. obind. rewrite Hsl, Hd, Hl.
  eexists. split; [done |]. split_and!.
  - apply cache_update_ok; [done | lia | done | apply u64_le_max |].
    intros j f Hj Hf _ (Hvf & Hdf & Hlf). apply Hj. cbn in *. by eapply Hu.
  - apply Forall_insert; [done |]. intros _. cbn. exists d. by rewrite Hd, Hl in *.
  - unfold find_entry at 1. cbn [entries]. rewrite find_loop_age by done.
    fold (find_entry c dp lba). lia.
Qed.

(** A miss: the driver fills the victim; on success the sector is handed out
    and cached, on failure only the victim's bytes may have changed. *)
Lemma cache_read_miss c dp d lba out w :
  cache_ok c -> coherent w c -> request_ok dp d lba -> sector_size d <= zlen out ->
  Forall (fun e => ~ key_matches e dp lba) (entries c) ->
  exists st c' out' w', block_cache_read (Some c) (Some (dp, d)) lba (Some out) w =
      Some (st, Some c', Some out', w') /\
    cache_ok c' /\ (forall i l, medium w' i l = medium w i l) /\
    (st = BLOCK_OK ->
       lba < sector_count d /\ out' = blit out 0 (medium w dp lba) /\ coherent w' c' /\
       misses c' = u64 (misses c + 1) /\ ~ Forall (fun e => ~ key_matches e dp lba) (entries c')) /\
    (st <> BLOCK_OK -> out' = out /\
       forall j e, j <> Z.to_nat (victim_entry c) -> entries c' !! j = Some e ->
                   entry_coherent w' e).
Proof.
  intros Hok Hco Hreq Hout Hnone. pose proof Hok as (Hlen & Hall & Hu).
  pose proof Hreq as (Hdp & Hdev & Hmax & Hlba). pose proof Hdev as (_ & Hsz & _).
  unfold block_cache_read. rewrite (request_sector_size _ _ _ Hreq).
  destruct (find_entry_spec c dp lba Hok) as [[-> _] | (e & _ & He & Hk & _)].
  2: { apply rd_lookup in He as [_ He]. by destruct (no_key_lookup _ _ _ _ _ Hnone He). }
  cbn [Z.leb Z.compare]. destruct (victim_in_range c Hok) as (e & Hr & He & Hdata & _).
  rewrite He. obind. cbn zeta.
  destruct (block_read (Some d) lba 1 (Some (ce_data e)) w) as [[st data] w'] eqn:Er.
  assert (exists b', data = Some b') as [b' ->].
  { unfold block_read in Er. destruct Hdev as ([rf Hrf] & _). rewrite Hrf in Er. destruct (negb _).
    - injection Er as <- <- <-. eauto.
    - destruct (rf lba 1 (ce_data e) w) as [[? ?] ?]. injection Er as <- <- <-. eauto. }
  destruct (block_read_one dp d lba (ce_data e) w st b' w' Hdp Hdev Hlba) as (HL & Hm & Hgood & _);
    [lia | done |].
  assert (Forall (entry_coherent w') (entries c)) as Hco'
    by (eapply Forall_impl; [exact Hco |]; intros; by eapply entry_coherent_medium).
  obind. rewrite wr_in_range by lia. obind. case_bool_decide as Hst.
  - eexists _, _, _, _. split; [done |]. split_and!; try done.
    + apply cache_update_ok; [done | lia | cbn; lia | cbn |].
      { apply rd_lookup in He as [_ He]. by destruct (Forall_lookup_1 _ _ _ _ Hall He). }
      intros j f Hj Hf Hv (Hvf & Hdf & Hlf). cbn in *. apply Hj.
      apply rd_lookup in He as [_ He]. by eapply Hu.
    + intros _. split; [done |]. intros j f Hj Hf. cbn in Hf.
      rewrite list_lookup_insert_ne in Hf by done. by apply (Forall_lookup_1 _ _ _ _ Hco' Hf).
  - subst st. destruct (Hgood eq_refl) as [Hlt ->].
    rewrite wr_in_range by (rewrite zlen_insert; lia). obind. rewrite list_insert_insert_eq.
    assert (slice (blit (ce_data e) 0 (medium w dp lba)) 0 (sector_size d) = medium w dp lba) as Hsl
      by (apply slice_blit_same; [lia | by rewrite (medium_size dp d) | lia]).
    rewrite cache_copy_spec by lia. obind. rewrite Hsl.
    eexists _, _, _, _. split; [done |]. split_and!; try done.
    + apply cache_update_ok; [done | lia | cbn; lia | apply u64_le_max |].
      intros j f _ Hf _. by eapply no_key_lookup.
    + intros _. split_and!; try done.
      * apply Forall_insert; [done |]. intros _. cbn. exists d. by rewrite Hm.
      * cbn [entries]. intros Hno.
        refine (no_key_lookup _ dp lba (Z.to_nat (victim_entry c)) _ Hno
                  (list_lookup_insert_eq _ _ _ _) _); [| by split_and!].
        unfold zlen, BLOCK_CACHE_ENTRIES in *. lia.
Qed.

(** The entry a write fills: the one that has the sector, else the victim. *)
Lemma write_slot c dp lba :
  cache_ok c ->
  let slot := if 0 <=? find_entry c dp lba then find_entry c dp lba else victim_entry c in
  exists e, 0 <= slot < BLOCK_CACHE_ENTRIES /\ rd (entries c) slot = Some e /\
    zlen (ce_data e) = BLOCK_CACHE_MAX_SECTOR /\
    (forall j f, j <> Z.to_nat slot -> entries c !! j = Some f -> ~ key_matches f dp lba).
Proof.
  intros Hok. cbn zeta. pose proof Hok as (_ & Hall & _).
  destruct (find_entry_spec c dp lba Hok) as [[-> Hno] | (e & Hr & He & Hk & Hoth)].
  - cbn [Z.leb Z.compare]. destruct (victim_in_range c Hok) as (e & Hr & He & Hd & _).
    exists e. split_and!; try done; try lia. intros j f _ Hf. by eapply no_key_lookup.
  - rewrite (proj2 (Z.leb_le 0 _)) by lia. exists e. split_and!; try done; try lia.
    apply rd_lookup in He as [_ He]. by destruct (Forall_lookup_1 _ _ _ _ Hall He).
Qed.

(** Reading through the cache.  With a coherent cache the read returns the
    sector the medium holds, keeps the cache coherent and the medium
    unchanged, and caches the sector; a cached sector is returned without
    calling the driver.  A failing driver gives its error and leaves the
    caller's buffer alone, and then every entry but the one chosen for
    replacement is still coherent. *)
Theorem block_cache_read_correct c dp d lba out w :
  cache_ok c -> coherent w c -> request_ok dp d lba -> sector_size d <= zlen out ->
  exists st c' out' w', block_cache_read (Some c) (Some (dp, d)) lba (Some out) w =
      Some (st, Some c', Some out', w') /\
    cache_ok c' /\ (forall i l, medium w' i l = medium w i l) /\
    (0 <= find_entry c dp lba -> st = BLOCK_OK /\ w' = w) /\
    (st = BLOCK_OK -> out' = blit out 0 (medium w dp lba) /\ coherent w' c' /\
                      0 <= find_entry c' dp lba) /\
    (st <> BLOCK_OK -> out' = out /\
       forall j e, j <> Z.to_nat (victim_entry c) -> entries c' !! j = Some e ->
                   entry_coherent w' e).
Proof.
  intros Hok Hco Hreq Hout.
  destruct (find_entry_spec c dp lba Hok) as [[Hf Hnone] | (e & Hr & He & Hk & _)].
  - destruct (cache_read_miss c dp d lba out w) as (st & c' & out' & w' & E & Hok' & Hm & Hgood & Hbad);
      [done.. |].
    exists st, c', out', w'. split_and!; try done; [lia |].
    intros Hst. destruct (Hgood Hst) as (_ & -> & Hco' & _ & Hin). split_and!; try done.
    destruct (find_entry_spec c' dp lba Hok') as [[_ ?] | (? & ? & _)]; [done | lia].
  - destruct (cache_read_hit c dp d lba out w e) as (c' & E & Hok' & Hco' & Hf'); [done.. |].
    exists BLOCK_OK, c', (blit out 0 (medium w dp lba)), w. split_and!; try done.
Qed.

(** C8. Writing through the cache.  A successful write puts exactly the
    caller's sector on the medium, changes no other sector, and leaves the
    cache coherent with the sector cached, so that reading it back through the
    cache returns the written bytes without calling the driver.  A refused or
    failed write leaves the cache as it was. *)
Theorem block_cache_write_correct c dp d lba sector out w :
  cache_ok c -> coherent w c -> request_ok dp d lba ->
  sector_size d <= zlen sector -> sector_size d <= zlen out ->
  exists st c' w', block_cache_write (Some c) (Some (dp, d)) lba (Some sector) w =
      Some (st, Some c', w') /\
    (st <> BLOCK_OK -> c' = c) /\
    (st = BLOCK_OK ->
       medium w' dp lba = slice sector 0 (sector_size d) /\
       (forall i l, ~ (i = dp /\ l = lba) -> medium w' i l = medium w i l) /\
       cache_ok c' /\ coherent w' c' /\
       exists c'', block_cache_read (Some c') (Some (dp, d)) lba (Some out) w' =
         Some (BLOCK_OK, Some c'', Some (blit out 0 (slice sector 0 (sector_size d))), w')).
Proof.
  intros Hok Hco Hreq Hsec Hout. pose proof Hreq as (Hdp & Hdev & Hmax & Hlba).
  pose proof Hdev as (_ & Hsz & _). pose proof Hok as (Hlen & Hall & Hu).
  unfold block_cache_write. rewrite (request_sector_size _ _ _ Hreq).
  destruct (block_write (Some d) lba 1 (Some sector) w) as [st w'] eqn:Ew.
  destruct (block_write_one dp d lba sector w st w' Hdp Hdev Hlba Hsec Ew) as [Hother Hput].
  case_bool_decide as Hst; [by eexists _, _, _ |]. subst st.
  destruct (Hput eq_refl) as [_ Hmed]. clear Hput. cbn zeta.
  destruct (write_slot c dp lba Hok) as (e & Hs & He & Hdata & Hnokey).
  set (slot := if 0 <=? find_entry c dp lba then _ else _) in *.
  rewrite He. obind. rewrite cache_copy_spec by lia. obind. rewrite wr_in_range by lia. obind.
  set (x := mk_entry true dp lba _ _). set (c' := mk_cache _ _ _ _).
  assert (slice (ce_data x) 0 (sector_size d) = slice sector 0 (sector_size d)) as Hsl.
  { cbn. apply slice_blit_same; rewrite ?zlen_slice; lia. }
  assert (cache_ok c') as Hok'.
  { apply cache_update_ok; [done | lia | | apply u64_le_max | by intros j f Hj Hf _; apply (Hnokey j)].
    cbn. rewrite zlen_blit; rewrite ?zlen_slice; lia. }
  assert (coherent w' c') as Hco'.
  { apply Forall_lookup_2. intros j f Hf.
    apply list_lookup_insert_Some in Hf as [(_ & <- & _) | [Hj Hf]].
    - intros _. exists d. cbn in *. by rewrite Hsl, Hmed.
    - intros Hv. destruct (Forall_lookup_1 _ _ _ _ Hco Hf Hv) as (d' & ? & ? & Hsf). exists d'.
      rewrite Hother; [done |]. intros [? ?]. by apply (Hnokey j f); [| | split_and!]. }
  eexists _, c', w'. split; [done |]. split; [by intros [] |]. intros _. split_and!; try done.
  destruct (find_entry_spec c' dp lba Hok') as [[_ Hno] | (f & Hr & Hf & Hk & _)].
  - exfalso. refine (no_key_lookup _ dp lba (Z.to_nat slot) x Hno _ _); [| by split_and!].
    apply list_lookup_insert_eq. unfold zlen, BLOCK_CACHE_ENTRIES in *. lia.
  - destruct (cache_read_hit c' dp d lba out w' f) as (c'' & E & _); [done.. |].
    exists c''. by rewrite E, Hmed.
Qed.
End CacheProofs.

(** ** A concrete disk of 4-byte sectors *)

Definition ex_device : block_device_t disk := disk_device 4 64.
Definition ex_devs : Z -> option (block_device_t disk) := disk_devs 4 64.

#[export] Instance ex_devices : BlockDevices disk ex_devs := disk_devices 4 64 eq_refl.

(** Eight cached sectors, and an unreadable one on the disk. *)
Definition ex_disk : disk := mk_disk (fun l => [l; l; l; l]) [40].
Definition ex_cache : block_cache_t :=
  mk_cache 8 0 8
    ((fun l => mk_entry true 1 l (l + 1) (blit (replicate 4096 0) 0 [l; l; l; l])) <$> seqZ 0 8).
Definition ex_sector : list Z := replicate 4 0.

Lemma ex_request_ok lba : 0 <= lba < 2 ^ 64 -> request_ok (devs := ex_devs) 1 ex_device lba.
Proof. intros. split_and!; try done; try lia. by apply disk_device_ok. Qed.

Lemma ex_cache_ok : cache_ok ex_cache.
Proof.
  split_and!; [done | |].
  - apply Forall_fmap, Forall_forall. intros l Hl%elem_of_seqZ. cbn. split; [| unfold UINT64_MAX; lia].
    rewrite zlen_blit; unfold zlen; rewrite ?length_replicate; done.
  - intros i j e f Hi Hj _ _ _ Hl. cbn [entries ex_cache] in *.
    rewrite list_lookup_fmap in Hi, Hj.
    apply fmap_Some in Hi as (li & Hi & ->), Hj as (lj & Hj & ->).
    apply lookup_seqZ in Hi as [-> _], Hj as [-> _]. cbn in Hl. lia.
Qed.

Lemma ex_cache_coherent : coherent ex_disk ex_cache.
Proof.
  apply Forall_fmap, Forall_forall. intros l Hl%elem_of_seqZ. intros _. exists ex_device. cbn.
  split_and!; [done | done |]. by apply slice_blit_same.
Qed.

(** A failed read damages the cache.  A miss reads the sector straight into
    the entry chosen for replacement, which stays valid under its old sector
    number; when the driver fails after transferring data, later reads of that
    old sector succeed from the cache with bytes the medium does not hold. *)
Theorem block_cache_failed_read_corrupts :
  exists c w c1 c2 out,
    cache_ok c /\ coherent w c /\
    block_cache_read (Some c) (Some (1, ex_device)) 40 (Some ex_sector) w =
      Some (BLOCK_IO_ERROR, Some c1, Some ex_sector, w) /\
    block_cache_read (Some c1) (Some (1, ex_device)) 0 (Some ex_sector) w =
      Some (BLOCK_OK, Some c2, Some out, w) /\
    out <> medium w 1 0.
Proof.
  exists ex_cache, ex_disk. eexists _, _, _.
  split; [apply ex_cache_ok |]. split; [apply ex_cache_coherent |].
  split; [vm_compute; reflexivity |]. split; [vm_compute; reflexivity |].
  vm_compute. congruence.
Qed.

Lemma block_cache_read_correct_witness :
  exists c' w', block_cache_read (Some ex_cache) (Some (1, ex_device)) 3 (Some ex_sector) ex_disk =
    Some (BLOCK_OK, Some c', Some [3; 3; 3; 3], w').
Proof.
  destruct (block_cache_read_correct ex_cache 1 ex_device 3 ex_sector ex_disk)
    as (st & c' & out & w' & E & _ & _ & Hhit & Hok & _);
    [apply ex_cache_ok | apply ex_cache_coherent | apply ex_request_ok; lia | done |].
  destruct Hhit as [-> ->]; [by vm_compute |]. destruct Hok as [-> _]; [done |].
  exists c', ex_disk. exact E.
Defined.

Lemma block_cache_write_correct_witness :
  exists st c' w', block_cache_write (Some ex_cache) (Some (1, ex_device)) 9
    (Some [7; 8; 9; 10]) ex_disk = Some (st, Some c', w').
Proof.
  destruct (block_cache_write_correct ex_cache 1 ex_device 9 [7; 8; 9; 10] ex_sector ex_disk)
    as (st & c' & w' & E & _);
    [apply ex_cache_ok | apply ex_cache_coherent | apply ex_request_ok; lia | done | done |].
  by exists st, c', w'.
Defined.
