(* ===== verification/Partition.v ===== *)
(** * Partition tables (kernel/src/partition.c, partition.h)

    Reading MBR and GPT partition tables from a block device whose content may
    be anything.  The two static buffers are a state that the functions pass
    along; the entry array of a table with its count is the list of the live
    entries, the rest of the array being zero. *)

From stdpp Require Import base numbers list strings.
From Stdlib Require Import ZArith Lia.
From S2P Require Import Prelude Bytes Block.

#[local] Open Scope Z_scope.

Definition PARTITION_MAX : Z := 16.
Definition PARTITION_MAX_SECTOR : Z := 4096.
Definition GPT_ENTRY_MAX_SIZE : Z := 512.
Definition GPT_ENTRY_MAX_COUNT : Z := 128.
Definition GPT_TABLE_MAX_BYTES : Z := GPT_ENTRY_MAX_SIZE * GPT_ENTRY_MAX_COUNT.

Inductive partition_scheme_t :=
| PARTITION_SCHEME_NONE | PARTITION_SCHEME_MBR | PARTITION_SCHEME_GPT.

Record partition_t := mk_partition {
  first_lba : Z;
  part_sectors : Z;
  mbr_type : Z;
  bootable : Z;
  type_guid : list Z;
  unique_guid : list Z;
}.

Record partition_table_t := mk_table {
  scheme : partition_scheme_t;
  part_entries : list partition_t;
}.

Inductive partition_status_t :=
| PARTITION_OK | PARTITION_BAD_ARGUMENT | PARTITION_IO_ERROR
| PARTITION_BAD_SIGNATURE | PARTITION_BAD_GPT | PARTITION_TOO_MANY.

#[export] Instance partition_status_eq_dec : EqDecision partition_status_t.
Proof. solve_decision. Defined.

(** The static buffers. *)
Record buffers := mk_buffers { sector_buffer : list Z; gpt_entries : list Z }.

Definition le16 (p : list Z) (o : Z) : option Z :=
  a ← rd p o; b ← rd p (o + 1); Some (Z.lor a (u16 (Z.shiftl b 8))).

Definition le32 (p : list Z) (o : Z) : option Z :=
  a ← rd p o; b ← rd p (o + 1); c ← rd p (o + 2); d ← rd p (o + 3);
  Some (Z.lor (Z.lor (Z.lor a (u32 (Z.shiftl b 8))) (u32 (Z.shiftl c 16))) (u32 (Z.shiftl d 24))).

Definition le64 (p : list Z) (o : Z) : option Z :=
  lo ← le32 p o; hi ← le32 p (o + 4); Some (Z.lor lo (u64 (Z.shiftl hi 32))).

(** [copy16] of the sixteen bytes at [o]. *)
Definition copy16 (destination : list Z) (source : list Z) (o : Z) : option (list Z) :=
  copy_loop 16 destination 0 source o.

(** The or of the [n] bytes from [o]. *)
Fixpoint guid_loop (n : nat) (guid : list Z) (o combined : Z) : option Z :=
  match n with
  | O => Some combined
  | S n => b ← rd guid o; guid_loop n guid (o + 1) (Z.lor combined b)
  end.

Definition guid_is_zero (guid : list Z) (o : Z) : option bool :=
  combined ← guid_loop 16 guid o 0; Some (combined =? 0).

(** One bit and one byte of the CRC register; [mask] is all ones when the low
    bit is set. *)
Definition crc_bit (crc : Z) : Z :=
  let mask := u32 (- Z.land crc 1) in
  Z.lxor (Z.shiftr crc 1) (Z.land 3988292384 mask).

Definition crc_byte (crc b : Z) : Z := Nat.iter 8 crc_bit (Z.lxor crc b).

Fixpoint crc_loop (n : nat) (crc : Z) (data : list Z) (o : Z) : option Z :=
  match n with
  | O => Some crc
  | S n => b ← rd data o; crc_loop n (crc_byte crc b) data (o + 1)
  end.

Definition crc32_update (crc : Z) (data : list Z) (length : Z) : option Z :=
  crc ← crc_loop (Z.to_nat length) (not32 crc) data 0; Some (not32 crc).

Definition gpt_signature : list Z := [69; 70; 73; 32; 80; 65; 82; 84].

Fixpoint signature_loop (signature : list Z) (buffer : list Z) (i : Z) : option bool :=
  match signature with
  | [] => Some true
  | c :: signature =>
      b ← rd buffer i;
      if negb (b =? c) then Some false else signature_loop signature buffer (i + 1)
  end.

Definition gpt_signature_valid (buffer : list Z) : option bool :=
  signature_loop gpt_signature buffer 0.

Definition zero_guid : list Z := replicate 16 0.

(** The header fields [validate_gpt_header] stores through its pointers. *)
Record gpt_header := mk_gpt_header {
  first_usable : Z;
  last_usable : Z;
  entries_lba : Z;
  entry_count : Z;
  entry_size : Z;
  entries_crc : Z;
}.

Section Partition.
Context {W : Type}.
Implicit Types device : block_device_t W.

Definition read_sector device (lba : Z) (buffer : list Z) (w : W) :
    option (partition_status_t * list Z * W) :=
  let '(status, buffer, w) := block_read (Some device) lba 1 (Some buffer) w in
  buffer ← buffer;
  Some (if bool_decide (status = BLOCK_OK) then PARTITION_OK else PARTITION_IO_ERROR, buffer, w).

(** [None] in the result is [PARTITION_BAD_GPT], the only error.  The local
    [header_copy] is read only where it was written. *)
Definition validate_gpt_header device (buffer : list Z) : option (option gpt_header) :=
  ok ← gpt_signature_valid buffer;
  if negb ok then Some None
  else
    header_size ← le32 buffer 12;
    stored_crc ← le32 buffer 16;
    if header_size <? 92 then Some None
    else if sector_size device <? header_size then Some None
    else if PARTITION_MAX_SECTOR <? header_size then Some None
    else
      copy ← copy_loop (Z.to_nat header_size) (replicate 4096 0) 0 buffer 0;
      copy ← wr copy 19 0;
      copy ← wr copy 18 0;
      copy ← wr copy 17 0;
      copy ← wr copy 16 0;
      crc ← crc32_update 0 copy header_size;
      if negb (crc =? stored_crc) then Some None
      else
        my_lba ← le64 buffer 24;
        if negb (my_lba =? 1) then Some None
        else
          first ← le64 buffer 40;
          last ← le64 buffer 48;
          lba ← le64 buffer 72;
          count ← le32 buffer 80;
          size ← le32 buffer 84;
          ecrc ← le32 buffer 88;
          if last <? first then Some None
          else if (count =? 0) || (GPT_ENTRY_MAX_COUNT <? count) then Some None
          else if (size <? 128) || (GPT_ENTRY_MAX_SIZE <? size) then Some None
          else if negb (Z.land size 7 =? 0) then Some None
          else Some (Some (mk_gpt_header first last lba count size ecrc)).

(** The sector loop of [load_gpt_entries]: [n] sectors left, [s] read. *)
Fixpoint load_loop (n : nat) device (lba : Z) (s copied table_bytes : Z) (bufs : buffers) (w : W) :
    option (partition_status_t * buffers * W) :=
  match n with
  | O => Some (PARTITION_OK, bufs, w)
  | S n =>
      r ← read_sector device (u64 (lba + s)) (sector_buffer bufs) w;
      let '(status, buffer, w) := r in
      if bool_decide (status <> PARTITION_OK)
      then Some (PARTITION_IO_ERROR, mk_buffers buffer (gpt_entries bufs), w)
      else
        let remaining := u32 (table_bytes - copied) in
        let take := if remaining <? sector_size device then remaining else sector_size device in
        es ← copy_loop (Z.to_nat take) (gpt_entries bufs) copied buffer 0;
        load_loop n device lba (s + 1) (u32 (copied + take)) table_bytes (mk_buffers buffer es) w
  end.

Definition load_gpt_entries device (h : gpt_header) (bufs : buffers) (w : W) :
    option (partition_status_t * buffers * W) :=
  let table_bytes64 := u64 (entry_count h * entry_size h) in
  if GPT_TABLE_MAX_BYTES <? table_bytes64 then Some (PARTITION_BAD_GPT, bufs, w)
  else
    let table_bytes := u32 table_bytes64 in
    let sectors := u32 (table_bytes + sector_size device - 1) / sector_size device in
    if sector_count device <=? entries_lba h then Some (PARTITION_BAD_GPT, bufs, w)
    else if sectors =? 0 then Some (PARTITION_BAD_GPT, bufs, w)
    else if u64 (sector_count device - entries_lba h) <? sectors
    then Some (PARTITION_BAD_GPT, bufs, w)
    else
      r ← load_loop (Z.to_nat sectors) device (entries_lba h) 0 0 table_bytes bufs w;
      let '(status, bufs, w) := r in
      if bool_decide (status <> PARTITION_OK) then Some (status, bufs, w)
      else
        crc ← crc32_update 0 (gpt_entries bufs) table_bytes;
        Some (if crc =? entries_crc h then PARTITION_OK else PARTITION_BAD_GPT, bufs, w).

(** The entry loop of [populate_gpt_table]: [n] entries left, from entry [i]. *)
Fixpoint populate_loop (n : nat) device (h : gpt_header) (entries : list Z) (i : Z)
    (table : list partition_t) : option (partition_status_t * list partition_t) :=
  match n with
  | O => Some (PARTITION_OK, table)
  | S n =>
      let o := u64 (i * entry_size h) in
      zero ← guid_is_zero entries o;
      if (zero : bool) then populate_loop n device h entries (i + 1) table
      else
        first ← le64 entries (o + 32);
        last ← le64 entries (o + 40);
        if last <? first then Some (PARTITION_BAD_GPT, table)
        else if (first <? first_usable h) || (last_usable h <? last)
        then Some (PARTITION_BAD_GPT, table)
        else if sector_count device <=? last then Some (PARTITION_BAD_GPT, table)
        else if PARTITION_MAX <=? zlen table then Some (PARTITION_TOO_MANY, table)
        else
          type ← copy16 zero_guid entries o;
          unique ← copy16 zero_guid entries (o + 16);
          populate_loop n device h entries (i + 1)
            (table ++ [mk_partition first (u64 (last - first + 1)) 0 0 type unique])
  end.

Definition populate_gpt_table device (h : gpt_header) (bufs : buffers) :
    option (partition_status_t * partition_table_t) :=
  r ← populate_loop (Z.to_nat (entry_count h)) device h (gpt_entries bufs) 0 [];
  Some (r.1, mk_table PARTITION_SCHEME_GPT r.2).

Definition parse_gpt device (table : partition_table_t) (bufs : buffers) (w : W) :
    option (partition_status_t * partition_table_t * buffers * W) :=
  r ← read_sector device 1 (sector_buffer bufs) w;
  let '(status, buffer, w) := r in
  let bufs := mk_buffers buffer (gpt_entries bufs) in
  if bool_decide (status <> PARTITION_OK) then Some (PARTITION_IO_ERROR, table, bufs, w)
  else
    header ← validate_gpt_header device buffer;
    match header with
    | None => Some (PARTITION_BAD_GPT, table, bufs, w)
    | Some h =>
        r ← load_gpt_entries device h bufs w;
        let '(status, bufs, w) := r in
        if bool_decide (status <> PARTITION_OK) then Some (status, table, bufs, w)
        else
          r ← populate_gpt_table device h bufs;
          Some (r.1, r.2, bufs, w)
    end.

(** The search for a protective entry: [n] entries left, from entry [i]. *)
Fixpoint protective_loop (n : nat) (buffer : list Z) (i : Z) (protective : bool) : option bool :=
  match n with
  | O => Some protective
  | S n =>
      type ← rd buffer (446 + i * 16 + 4);
      protective_loop n buffer (i + 1) (if type =? 238 then true else protective)
  end.

(** The loop over the four MBR entries. *)
Fixpoint mbr_loop (n : nat) device (buffer : list Z) (i : Z) (table : list partition_t) :
    option (partition_status_t * list partition_t) :=
  match n with
  | O => Some (PARTITION_OK, table)
  | S n =>
      let entry := 446 + i * 16 in
      type ← rd buffer (entry + 4);
      first ← le32 buffer (entry + 8);
      count ← le32 buffer (entry + 12);
      if (type =? 0) || (count =? 0) then mbr_loop n device buffer (i + 1) table
      else if (sector_count device <=? first) || (u64 (sector_count device - first) <? count)
      then Some (PARTITION_BAD_SIGNATURE, table)
      else if PARTITION_MAX <=? zlen table then Some (PARTITION_TOO_MANY, table)
      else
        flag ← rd buffer entry;
        mbr_loop n device buffer (i + 1)
          (table ++ [mk_partition first count type (if flag =? 128 then 1 else 0)
                       zero_guid zero_guid])
  end.

Definition partition_scan (device : option (block_device_t W)) (table : option partition_table_t)
    (bufs : buffers) (w : W) :
    option (partition_status_t * option partition_table_t * buffers * W) :=
  match device, table with
  | Some d, Some _ =>
      if (sector_size d <? 512) || (PARTITION_MAX_SECTOR <? sector_size d)
         || (sector_count d <? 2)
      then Some (PARTITION_BAD_ARGUMENT, table, bufs, w)
      else
        let table := mk_table PARTITION_SCHEME_NONE [] in
        r ← read_sector d 0 (sector_buffer bufs) w;
        let '(status, buffer, w) := r in
        let bufs := mk_buffers buffer (gpt_entries bufs) in
        if bool_decide (status <> PARTITION_OK) then Some (PARTITION_IO_ERROR, Some table, bufs, w)
        else
          signature ← le16 buffer 510;
          if negb (signature =? 43605) then Some (PARTITION_BAD_SIGNATURE, Some table, bufs, w)
          else
            protective ← protective_loop 4 buffer 0 false;
            if (protective : bool) then
              r ← parse_gpt d table bufs w;
              let '(status, table, bufs, w) := r in
              Some (status, Some table, bufs, w)
            else
              r ← mbr_loop 4 d buffer 0 [];
              Some (r.1, Some (mk_table PARTITION_SCHEME_MBR r.2), bufs, w)
  | _, _ => Some (PARTITION_BAD_ARGUMENT, table, bufs, w)
  end.
End Partition.

Definition partition_status_string (status : partition_status_t) : string :=
  match status with
  | PARTITION_OK => "ok"
  | PARTITION_BAD_ARGUMENT => "bad argument"
  | PARTITION_IO_ERROR => "I/O error"
  | PARTITION_BAD_SIGNATURE => "bad MBR signature"
  | PARTITION_BAD_GPT => "invalid GPT"
  | PARTITION_TOO_MANY => "too many partitions"
  end.

(** ** Specification *)

(** The CRC-32 of a byte string. *)
Definition crc32 (bs : list Z) : Z := not32 (foldl crc_byte (not32 0) bs).

Definition byte_at (s : list Z) (o : Z) : Z := default 0 (rd s o).

(** Entry [i] of the MBR in sector [s]; an entry is used when its type and its
    sector count are not zero. *)
Definition mbr_entry (s : list Z) (i : Z) : partition_t :=
  let o := 446 + i * 16 in
  mk_partition (le_val (slice s (o + 8) 4)) (le_val (slice s (o + 12) 4)) (byte_at s (o + 4))
    (if byte_at s o =? 128 then 1 else 0) zero_guid zero_guid.

Definition mbr_is_used (p : partition_t) : Prop := ~ (mbr_type p = 0 \/ part_sectors p = 0).

#[export] Instance mbr_is_used_dec p : Decision (mbr_is_used p).
Proof. unfold mbr_is_used. apply _. Defined.

Definition mbr_used (s : list Z) : list partition_t :=
  filter mbr_is_used (mbr_entry s <$> seqZ 0 4).

(** A partition that lies inside a device of [sectors] sectors. *)
Definition in_device (sectors : Z) (p : partition_t) : Prop :=
  0 <= first_lba p /\ 0 < part_sectors p /\ first_lba p + part_sectors p <= sectors.

(** The GPT header in sector [s], accepted with the fields [h]. *)
Definition gpt_header_in (s : list Z) (h : gpt_header) : Prop :=
  let size := le_val (slice s 12 4) in
  slice s 0 8 = gpt_signature /\ 92 <= size <= zlen s /\
  crc32 (blit (slice s 0 size) 16 [0; 0; 0; 0]) = le_val (slice s 16 4) /\
  le_val (slice s 24 8) = 1 /\
  h = mk_gpt_header (le_val (slice s 40 8)) (le_val (slice s 48 8)) (le_val (slice s 72 8))
        (le_val (slice s 80 4)) (le_val (slice s 84 4)) (le_val (slice s 88 4)) /\
  first_usable h <= last_usable h /\
  0 < entry_count h <= GPT_ENTRY_MAX_COUNT /\
  128 <= entry_size h <= GPT_ENTRY_MAX_SIZE /\ entry_size h mod 8 = 0.

(** Entry [i] of the entry table [t]. *)
Definition gpt_first (h : gpt_header) (t : list Z) (i : Z) : Z :=
  le_val (slice t (i * entry_size h + 32) 8).
Definition gpt_last (h : gpt_header) (t : list Z) (i : Z) : Z :=
  le_val (slice t (i * entry_size h + 40) 8).
Definition gpt_entry (h : gpt_header) (t : list Z) (i : Z) : partition_t :=
  mk_partition (gpt_first h t i) (gpt_last h t i - gpt_first h t i + 1) 0 0
    (slice t (i * entry_size h) 16) (slice t (i * entry_size h + 16) 16).

Definition gpt_used (h : gpt_header) (t : list Z) (i n : Z) : list Z :=
  filter (fun i => slice t (i * entry_size h) 16 <> zero_guid) (seqZ i n).

Definition gpt_entry_ok (sectors : Z) (h : gpt_header) (t : list Z) (i : Z) : Prop :=
  gpt_first h t i <= gpt_last h t i /\ first_usable h <= gpt_first h t i /\
  gpt_last h t i <= last_usable h /\ gpt_last h t i < sectors.

(** ** Little-endian fields *)

Lemma le_val_range bs : bytes_ok bs -> 0 <= le_val bs < 256 ^ zlen bs.
Proof.
  induction 1 as [| b bs Hb Hbs IH]; [done |]. change (le_val (b :: bs)) with (b + 256 * le_val bs).
  rewrite zlen_cons, Z.pow_add_r by (pose proof (zlen_nonneg bs); lia).
  unfold byte_ok in Hb. lia.
Qed.

Lemma le_val_slice_range p o n :
  0 <= o -> 0 <= n -> o + n <= zlen p -> bytes_ok p -> 0 <= le_val (slice p o n) < 256 ^ n.
Proof.
  intros. pose proof (le_val_range (slice p o n) ltac:(by apply bytes_ok_slice)) as H'.
  by rewrite zlen_slice in H' by lia.
Qed.

Lemma lor_add_low a b k : 0 <= k -> 0 <= a < 2 ^ k -> Z.lor a (Z.shiftl b k) = a + 2 ^ k * b.
Proof. intros. rewrite Z.lor_comm, lor_shift_add by lia. lia. Qed.

Lemma le16_spec p o :
  0 <= o -> o + 2 <= zlen p -> bytes_ok p -> le16 p o = Some (le_val (slice p o 2)).
Proof.
  intros Ho Hl Hp. destruct (slice_2 p o) as (a & b & Ea & Eb & Es); [lia.. |].
  pose proof (bytes_ok_rd _ _ _ Hp Ea) as Ha. pose proof (bytes_ok_rd _ _ _ Hp Eb) as Hb.
  unfold byte_ok in *. unfold le16. rewrite Ea, Eb, Es. obind.
  rewrite u16_small by (rewrite Z.shiftl_mul_pow2 by lia; lia).
  rewrite lor_add_low by lia. f_equal. cbn. lia.
Qed.

Lemma le32_spec p o :
  0 <= o -> o + 4 <= zlen p -> bytes_ok p -> le32 p o = Some (le_val (slice p o 4)).
Proof.
  intros Ho Hl Hp. destruct (slice_4 p o) as (a & b & c & d & Ea & Eb & Ec & Ed & Es); [lia.. |].
  pose proof (bytes_ok_rd _ _ _ Hp Ea) as Ha. pose proof (bytes_ok_rd _ _ _ Hp Eb) as Hb.
  pose proof (bytes_ok_rd _ _ _ Hp Ec) as Hc. pose proof (bytes_ok_rd _ _ _ Hp Ed) as Hd.
  unfold byte_ok in *. unfold le32. rewrite Ea, Eb, Ec, Ed, Es. obind.
  rewrite !u32_small by (rewrite Z.shiftl_mul_pow2 by lia; lia).
  rewrite (lor_add_low a b 8), (lor_add_low _ c 16), (lor_add_low _ d 24) by lia.
  f_equal. cbn. lia.
Qed.

Lemma le64_spec p o :
  0 <= o -> o + 8 <= zlen p -> bytes_ok p -> le64 p o = Some (le_val (slice p o 8)).
Proof.
  intros Ho Hl Hp. unfold le64. rewrite !le32_spec by (try done; lia). obind.
  pose proof (le_val_slice_range p o 4 ltac:(lia) ltac:(lia) ltac:(lia) Hp).
  pose proof (le_val_slice_range p (o + 4) 4 ltac:(lia) ltac:(lia) ltac:(lia) Hp).
  rewrite u64_small by (rewrite Z.shiftl_mul_pow2 by lia; lia).
  rewrite lor_add_low by lia. f_equal.
  change 8 with (4 + 4). rewrite slice_cat by lia.
  destruct (slice_4 p o) as (a & b & c & d & _ & _ & _ & _ & ->); [lia.. |].
  assert (forall l, le_val ([a; b; c; d] ++ l) = le_val [a; b; c; d] + 2 ^ 32 * le_val l) as ->; [| done].
  intros l. unfold le_val. rewrite foldr_app. cbn. lia.
Qed.

(** ** CRC-32 *)

#[global] Arguments crc_byte : simpl never.
#[global] Arguments crc_bit : simpl never.

Definition u32_ok (z : Z) : Prop := 0 <= z < 2 ^ 32.

Lemma crc_bit_cases c :
  0 <= c -> crc_bit c = if Z.odd c then Z.lxor (Z.shiftr c 1) 3988292384 else Z.shiftr c 1.
Proof.
  intros Hc. unfold crc_bit. pose proof (Z.land_ones c 1 ltac:(lia)) as Hl.
  change (Z.ones 1) with 1 in Hl. change (2 ^ 1) with 2 in Hl. rewrite Hl, Zmod_odd. by destruct (Z.odd c); [| rewrite Z.lxor_0_r].
Qed.

Lemma lxor_u32 a b : u32_ok a -> u32_ok b -> u32_ok (Z.lxor a b).
Proof.
  unfold u32_ok. intros Ha Hb.
  assert (Z.lxor a b = Z.lxor a b mod 2 ^ 32) as ->; [| apply Z.mod_pos_bound; lia].
  apply Z.bits_inj'. intros n Hn. destruct (Z.ltb_spec n 32).
  - by rewrite Z.mod_pow2_bits_low by lia.
  - rewrite Z.mod_pow2_bits_high by lia.
    rewrite <- (Z.mod_small a (2 ^ 32)), <- (Z.mod_small b (2 ^ 32)) by lia.
    by rewrite Z.lxor_spec, !Z.mod_pow2_bits_high by lia.
Qed.

Lemma lxor_inj_r a b c : Z.lxor a b = Z.lxor a c -> b = c.
Proof.
  intros H. apply (f_equal (Z.lxor a)) in H.
  by rewrite <- !Z.lxor_assoc, !Z.lxor_nilpotent, !Z.lxor_0_l in H.
Qed.

Lemma shiftr1_bound c : u32_ok c -> 0 <= Z.shiftr c 1 < 2 ^ 31.
Proof. unfold u32_ok. intros. rewrite Z.shiftr_div_pow2 by lia. split; [apply Z.div_pos; lia |]. apply Z.div_lt_upper_bound; lia. Qed.

Lemma crc_bit_u32 c : u32_ok c -> u32_ok (crc_bit c).
Proof.
  intros Hc. pose proof (shiftr1_bound c Hc). rewrite crc_bit_cases by apply Hc.
  destruct (Z.odd c); [apply lxor_u32 |]; unfold u32_ok; lia.
Qed.

(** The top bit of the next register tells the bit shifted out. *)
Lemma crc_bit_top c : u32_ok c -> Z.testbit (crc_bit c) 31 = Z.odd c.
Proof.
  intros Hc. pose proof (shiftr1_bound c Hc) as Hs. rewrite crc_bit_cases by apply Hc.
  assert (Z.testbit (Z.shiftr c 1) 31 = false) as Hb.
  { rewrite <- (Z.mod_small _ _ Hs). by apply Z.mod_pow2_bits_high. }
  destruct (Z.odd c); [| done]. by rewrite Z.lxor_spec, Hb.
Qed.

Lemma crc_bit_inj c c' : u32_ok c -> u32_ok c' -> crc_bit c = crc_bit c' -> c = c'.
Proof.
  intros Hc Hc' E. pose proof (crc_bit_top c Hc) as Ht. rewrite E, (crc_bit_top c' Hc') in Ht.
  rewrite !crc_bit_cases, <- Ht in E by (apply Hc || apply Hc').
  assert (Z.shiftr c 1 = Z.shiftr c' 1) as Es.
  { destruct (Z.odd c'); [| done]. rewrite !(Z.lxor_comm _ 3988292384) in E. by apply lxor_inj_r in E. }
  rewrite <- !Z.div2_spec in Es. rewrite (Z.div2_odd c), (Z.div2_odd c'). by rewrite Es, Ht.
Qed.

Lemma crc_bits_inj n c c' :
  u32_ok c -> u32_ok c' -> Nat.iter n crc_bit c = Nat.iter n crc_bit c' -> c = c'.
Proof.
  assert (forall n c, u32_ok c -> u32_ok (Nat.iter n crc_bit c)) as Hu.
  { intros m x Hx. induction m; [done |]. by apply crc_bit_u32. }
  intros Hc Hc'. induction n as [| n IH]; [done |]. intros E.
  apply IH, crc_bit_inj; [by apply Hu.. | exact E].
Qed.

Lemma byte_u32 b : byte_ok b -> u32_ok b.
Proof. unfold byte_ok, u32_ok. lia. Qed.

Lemma crc_byte_u32 c b : u32_ok c -> byte_ok b -> u32_ok (crc_byte c b).
Proof.
  intros Hc Hb%byte_u32. unfold crc_byte. generalize 8%nat. intros n.
  induction n; [by apply lxor_u32 | by apply crc_bit_u32].
Qed.

Lemma crc_byte_inj c c' b b' :
  u32_ok c -> u32_ok c' -> byte_ok b -> byte_ok b' -> crc_byte c b = crc_byte c' b' ->
  Z.lxor c b = Z.lxor c' b'.
Proof.
  unfold crc_byte. generalize 8%nat. intros n Hc Hc' Hb Hb' E.
  apply (crc_bits_inj n); [| | exact E];
    (apply lxor_u32; [done | by apply byte_u32]).
Qed.

Lemma crc_bytes_u32 bs c : u32_ok c -> bytes_ok bs -> u32_ok (foldl crc_byte c bs).
Proof.
  intros Hc Hbs. revert c Hc. induction Hbs as [| b bs Hb Hbs IH]; intros c Hc; [done |].
  by apply IH, crc_byte_u32.
Qed.

Lemma crc_bytes_inj bs c c' :
  u32_ok c -> u32_ok c' -> bytes_ok bs -> foldl crc_byte c bs = foldl crc_byte c' bs -> c = c'.
Proof.
  intros Hc Hc' Hbs. revert c c' Hc Hc'.
  induction Hbs as [| b bs Hb Hbs IH]; intros c c' Hc Hc' E; [done |].
  cbn [foldl] in E.
  apply IH in E; [| by apply crc_byte_u32..].
  apply crc_byte_inj in E; try done. rewrite !(Z.lxor_comm _ b) in E. by eapply lxor_inj_r.
Qed.

Lemma not32_u32 z : u32_ok z -> not32 z = 2 ^ 32 - 1 - z.
Proof.
  unfold not32, u32, u32_ok. intros. pose proof (Z.add_lnot_diag z). symmetry.
  apply (Z.mod_unique _ _ (-1)); lia.
Qed.

Lemma not32_not32 z : u32_ok z -> not32 (not32 z) = z.
Proof. intros H. pose proof H as H'. unfold u32_ok in H'. rewrite (not32_u32 z H), not32_u32; unfold u32_ok; lia. Qed.

Lemma crc_loop_spec n c data o :
  0 <= o -> o + Z.of_nat n <= zlen data ->
  crc_loop n c data o = Some (foldl crc_byte c (slice data o (Z.of_nat n))).
Proof.
  revert c o. induction n as [| n IH]; intros c o Ho Hl; [done |]. cbn [crc_loop].
  destruct (rd_in_range data o) as [b Eb]; [lia |]. rewrite Eb. obind. rewrite IH by lia.
  replace (Z.of_nat (S n)) with (1 + Z.of_nat n) by lia. rewrite slice_cat by lia.
  by rewrite (slice_1 _ _ _ Eb).
Qed.

Lemma crc32_update_spec c data n :
  0 <= n <= zlen data ->
  crc32_update c data n = Some (not32 (foldl crc_byte (not32 c) (slice data 0 n))).
Proof.
  intros. unfold crc32_update. rewrite crc_loop_spec by lia. by rewrite Z2Nat.id by lia.
Qed.

(** Two byte strings that differ in one byte have different CRCs. *)
Lemma crc_one_byte c l1 l2 a b :
  u32_ok c -> bytes_ok l1 -> bytes_ok l2 -> byte_ok a -> byte_ok b ->
  not32 (foldl crc_byte c (l1 ++ [a] ++ l2)) = not32 (foldl crc_byte c (l1 ++ [b] ++ l2)) -> a = b.
Proof.
  intros Hc H1 H2 Ha Hb. rewrite !foldl_app. cbn [foldl].
  pose proof (crc_bytes_u32 _ _ Hc H1) as Hp. generalize dependent (foldl crc_byte c l1).
  intros r Hr E. pose proof (crc_byte_u32 r a Hr Ha) as Hra. pose proof (crc_byte_u32 r b Hr Hb) as Hrb.
  apply (f_equal not32) in E. rewrite !not32_not32 in E by (by apply crc_bytes_u32).
  apply (crc_bytes_inj l2 _ _ Hra Hrb H2) in E.
  apply (crc_byte_inj r r a b Hr Hr Ha Hb) in E. by apply lxor_inj_r in E.
Qed.

(** The CRC of GPT headers and entry tables.  It is defined for every
    prefix of a buffer and is a 32-bit value; computing it in two steps is
    computing it over the whole; it distinguishes any two byte strings that
    differ in one byte; and it has the check value of CRC-32. *)
Theorem crc32_update_correct data n :
  bytes_ok data -> 0 <= n <= zlen data ->
  (exists c, crc32_update 0 data n = Some c /\ 0 <= c < 2 ^ 32 /\
     forall more m, bytes_ok more -> 0 <= m <= zlen more ->
       crc32_update c more m = crc32_update 0 (slice data 0 n ++ slice more 0 m) (n + m)) /\
  (forall i b, 0 <= i < n -> byte_ok b -> rd data i <> Some b ->
     crc32_update 0 (blit data i [b]) n <> crc32_update 0 data n) /\
  crc32_update 0 [49; 50; 51; 52; 53; 54; 55; 56; 57] 9 = Some 3421780262.
Proof.
  intros Hd Hn.
  assert (u32_ok (not32 0)) as H0 by done.
  pose proof (bytes_ok_slice data 0 n Hd) as Hds.
  pose proof (crc_bytes_u32 _ _ H0 Hds) as Hr.
  split; [| split; [| by vm_compute]].
  - rewrite crc32_update_spec by done. eexists. split; [done |].
    split; [rewrite not32_u32 by done; unfold u32_ok in Hr; lia |].
    intros more m Hm Hlen. rewrite !crc32_update_spec by (rewrite ?zlen_app, ?zlen_slice by lia; lia).
    rewrite not32_not32 by done. do 2 f_equal. rewrite <- foldl_app. f_equal. symmetry.
    apply slice_all. rewrite zlen_app, !zlen_slice by lia. done.
  - intros i b Hi Hb Hne. rewrite !crc32_update_spec by (rewrite ?zlen_blit; change (zlen [b]) with 1; lia).
    destruct (rd_in_range data i) as [a Ea]; [lia |]. intros [= E].
    pose proof (bytes_ok_rd _ _ _ Hd Ea) as Ha.
    replace n with (i + 1 + (n - i - 1)) in E by lia. rewrite !slice_cat, !Z.add_0_l in E by lia.
    assert (zlen [b] = 1) as Hb1 by done.
    rewrite (slice_blit_disjoint _ _ _ 0 i), (slice_blit_same data i [b] 1),
      (slice_blit_disjoint _ _ _ (i + 1)) in E by (rewrite ?Hb1; lia).
    rewrite (slice_1 _ _ _ Ea), <- !app_assoc in E. apply Hne. rewrite Ea. f_equal. symmetry.
    by eapply crc_one_byte; [exact H0 | | | exact Hb | exact Ha | exact E]; apply bytes_ok_slice.
Qed.

(** ** Master boot records *)

Section PartitionProofs.
Context {W : Type}.
Implicit Types d : block_device_t W.

Lemma byte_at_rd s o : 0 <= o < zlen s -> rd s o = Some (byte_at s o).
Proof. intros H. unfold byte_at. by destruct (rd_in_range s o H) as [x ->]. Qed.

Lemma protective_loop_spec s n i p :
  0 <= i -> i + Z.of_nat n <= 4 -> 512 <= zlen s ->
  exists r, protective_loop n s i p = Some r /\
    (r = true <-> p = true \/ exists e, e ∈ (mbr_entry s <$> seqZ i (Z.of_nat n)) /\ mbr_type e = 238).
Proof.
  revert i p. induction n as [| n IH]; intros i p Hi Hn Hl; cbn [protective_loop].
  - exists p. split; [done |]. split; [by left |]. intros [? | (e & He & _)]; [done |].
    by apply elem_of_nil in He.
  - rewrite byte_at_rd by lia. obind.
    destruct (IH (i + 1) (if byte_at s (446 + i * 16 + 4) =? 238 then true else p)) as (r & -> & Hr); [lia.. |].
    exists r. split; [done |]. rewrite Hr, seqZ_S, fmap_cons.
    destruct (Z.eqb_spec (byte_at s (446 + i * 16 + 4)) 238) as [E | E]; split.
    + intros _. right. exists (mbr_entry s i). split; [by left | done].
    + by left.
    + intros [? | (e & He & ?)]; [by left | right]. exists e. split; [by right | done].
    + intros [? | (e & He & Ht)]; [by left |].
      apply elem_of_cons in He as [-> | He]; [done |]. right. by exists e.
Qed.

(** The loop over the MBR entries collects the used entries as long as they
    lie inside the device. *)
Lemma mbr_loop_spec d s n i table :
  0 <= i -> i + Z.of_nat n <= 4 -> zlen table <= i -> 512 <= zlen s -> bytes_ok s ->
  0 < sector_count d < 2 ^ 64 ->
  let used := filter mbr_is_used (mbr_entry s <$> seqZ i (Z.of_nat n)) in
  exists st more, mbr_loop n d s i table = Some (st, table ++ more) /\
    zlen (table ++ more) <= 4 /\ Forall (in_device (sector_count d)) more /\
    (st = PARTITION_OK /\ more = used \/
     st = PARTITION_BAD_SIGNATURE /\ ~ Forall (in_device (sector_count d)) used).
Proof.
  revert i table. induction n as [| n IH]; intros i table Hi Hn Ht Hl Hs Hd; cbn [mbr_loop].
  { exists PARTITION_OK, []. rewrite app_nil_r. split_and!; [done | lia | constructor | by left]. }
  rewrite (byte_at_rd s (446 + i * 16 + 4)), !le32_spec by (try done; lia). obind.
  pose proof (le_val_slice_range s (446 + i * 16 + 8) 4 ltac:(lia) ltac:(lia) ltac:(lia) Hs) as Hf.
  pose proof (le_val_slice_range s (446 + i * 16 + 12) 4 ltac:(lia) ltac:(lia) ltac:(lia) Hs) as Hc.
  rewrite seqZ_S, fmap_cons, filter_cons.
  destruct ((byte_at s (446 + i * 16 + 4) =? 0) || (le_val (slice s (446 + i * 16 + 12) 4) =? 0)) eqn:Eu.
  { rewrite decide_False; [apply IH; lia || done |]. intros Hu. apply Hu.
    apply orb_true_iff in Eu as [E | E]; bool_cases; [by left | by right]. }
  bool_cases. rewrite decide_True by (intros [? | ?]; done).
  destruct (_ || _) eqn:Er in |- *.
  { exists PARTITION_BAD_SIGNATURE, []. rewrite app_nil_r. split_and!; [done | lia | constructor |].
    right. split; [done |]. intros [(H1 & H2 & H3) _]%Forall_cons. cbn in *.
    apply orb_true_iff in Er as [E | E]; bool_cases; [lia |]. rewrite u64_small in E by lia. lia. }
  bool_cases. rewrite u64_small in * by lia.
  rewrite (proj2 (Z.leb_gt PARTITION_MAX _)) by (unfold PARTITION_MAX; lia).
  rewrite byte_at_rd by lia. obind.
  destruct (IH (i + 1) (table ++ [mbr_entry s i])) as (st & more & E & Hlen & Hin & Hst);
    [lia | lia | rewrite zlen_app; change (zlen [_]) with 1; lia | done.. |].
  change (mk_partition _ _ _ _ _ _) with (mbr_entry s i). rewrite E, <- app_assoc.
  exists st, (mbr_entry s i :: more). rewrite <- app_assoc in Hlen.
  assert (in_device (sector_count d) (mbr_entry s i)) as Hd0 by (split_and!; cbn; lia).
  split_and!; [done | done | by constructor |].
  destruct Hst as [[-> ->] | [-> Hn']]; [by left | right]. split; [done |].
  by intros [_ ?]%Forall_cons.
Qed.

(** ** GUID partition tables *)

Lemma signature_loop_spec sig s i :
  0 <= i -> i + zlen sig <= zlen s ->
  signature_loop sig s i = Some (bool_decide (slice s i (zlen sig) = sig)).
Proof.
  revert i. induction sig as [| c sig IH]; intros i Hi Hl; cbn [signature_loop]; [done |].
  rewrite zlen_cons in *. pose proof (zlen_nonneg sig).
  destruct (rd_in_range s i) as [b Eb]; [lia |]. rewrite Eb. obind.
  rewrite slice_cat, (slice_1 _ _ _ Eb) by lia. cbn [app].
  destruct (Z.eqb_spec b c) as [-> | Hne]; cbn [negb].
  - rewrite IH by lia. f_equal. apply bool_decide_ext. split; [by intros -> | by intros [= ->]].
  - symmetry. f_equal. apply bool_decide_eq_false. by intros [= ->].
Qed.

(** The header copy with its checksum field cleared. *)
Lemma header_copy_spec s n :
  20 <= n <= 4096 -> n <= zlen s ->
  exists c, (copy ← copy_loop (Z.to_nat n) (replicate 4096 0) 0 s 0;
             copy ← wr copy 19 0; copy ← wr copy 18 0; copy ← wr copy 17 0; wr copy 16 0) = Some c /\
    zlen c = 4096 /\ slice c 0 n = blit (slice s 0 n) 16 [0; 0; 0; 0].
Proof.
  intros Hn Hs. assert (exists z : list Z, z = replicate 4096 0 /\ zlen z = 4096) as (z & <- & Hz).
  { eexists. split; [done |]. unfold zlen. rewrite length_replicate. done. }
  rewrite copy_loop_spec by lia. obind. rewrite Z2Nat.id by lia.
  assert (zlen (slice s 0 n) = n) as Hsl by (apply zlen_slice; lia).
  assert (zlen (blit z 0 (slice s 0 n)) = 4096) as Hb by (rewrite zlen_blit; lia).
  assert (slice (blit z 0 (slice s 0 n)) 0 n = slice s 0 n) as He by (apply slice_blit_same; lia).
  generalize dependent (blit z 0 (slice s 0 n)). intros c0 Hc0 He.
  rewrite wr_blit by lia. obind.
  assert (zlen [0] = 1) as H1 by done.
  rewrite wr_blit by (rewrite zlen_blit by lia; lia). obind.
  rewrite (blit_cons c0 18 19 0 [0]) by lia.
  assert (zlen [0; 0] = 2) as H2 by done. assert (zlen [0; 0; 0] = 3) as H3 by done.
  rewrite wr_blit by (rewrite zlen_blit by lia; lia). obind.
  rewrite (blit_cons c0 17 18 0 [0; 0]) by lia.
  rewrite wr_blit by (rewrite zlen_blit by lia; lia).
  rewrite (blit_cons c0 16 17 0 [0; 0; 0]) by lia.
  assert (zlen [0; 0; 0; 0] = 4) as H4 by done.
  eexists. split; [done |]. split; [rewrite zlen_blit; lia |].
  rewrite slice_blit_inner by lia. by rewrite He.
Qed.

(** A rejected header: it remains to refute the specification. *)
#[local] Ltac rejected := exists None; split; [done |]; intros ?; split; [done |].

(** The header check accepts exactly the headers of the specification. *)
Lemma validate_gpt_header_spec d s :
  zlen s = 4096 -> bytes_ok s -> 512 <= sector_size d <= 4096 ->
  exists r, validate_gpt_header d s = Some r /\
    forall h, r = Some h <-> gpt_header_in (slice s 0 (sector_size d)) h.
Proof.
  intros Hl Hs Hd. unfold validate_gpt_header, gpt_signature_valid, gpt_header_in.
  assert (forall o n, 0 <= o -> 0 <= n -> o + n <= sector_size d ->
    slice (slice s 0 (sector_size d)) o n = slice s o n) as Hm by (intros; by rewrite slice_slice by lia).
  rewrite zlen_slice, !(Hm _ 4), !(Hm _ 8) by lia.
  rewrite signature_loop_spec by (change (zlen gpt_signature) with 8; lia). obind.
  change (zlen gpt_signature) with 8.
  case_bool_decide as Hsig; cbn [negb]; [| rejected; tauto].
  rewrite !le32_spec by (try done; lia). obind.
  set (size := le_val (slice s 12 4)).
  destruct (Z.ltb_spec size 92); [rejected; lia |].
  destruct (Z.ltb_spec (sector_size d) size); [rejected; lia |].
  rewrite (proj2 (Z.ltb_ge PARTITION_MAX_SECTOR size)) by (unfold PARTITION_MAX_SECTOR; lia).
  destruct (header_copy_spec s size) as (c & Ec & Hc & Hsl); [lia | lia |].
  apply bind_Some in Ec as (c1 & -> & (c2 & E2 & (c3 & E3 & (c4 & E4 & E5)%bind_Some)%bind_Some)%bind_Some).
  obind. rewrite E2. obind. rewrite E3. obind. rewrite E4. obind. rewrite E5. obind.
  rewrite crc32_update_spec by lia. obind. rewrite Hsl. fold (crc32 (blit (slice s 0 size) 16 [0; 0; 0; 0])).
  rewrite (Hm 0 size) by lia.
  destruct (Z.eqb_spec (crc32 (blit (slice s 0 size) 16 [0; 0; 0; 0])) (le_val (slice s 16 4)));
    cbn [negb]; [| rejected; by intros (_ & _ & ? & _)].
  rewrite !le64_spec by (try done; lia). obind.
  destruct (Z.eqb_spec (le_val (slice s 24 8)) 1); cbn [negb];
    [| rejected; by intros (_ & _ & _ & ? & _)].
  destruct (Z.ltb_spec (le_val (slice s 48 8)) (le_val (slice s 40 8))).
  { rejected; intros (_ & _ & _ & _ & -> & ? & _). cbn in *. lia. }
  destruct (_ || _) eqn:Ecount.
  { rejected; intros (_ & _ & _ & _ & -> & _ & ? & _). cbn in *.
    apply orb_true_iff in Ecount as [E | E]; bool_cases; lia. }
  destruct (_ || _) eqn:Esize in |- *.
  { rejected; intros (_ & _ & _ & _ & -> & _ & _ & ? & _). cbn in *.
    apply orb_true_iff in Esize as [E | E]; bool_cases; lia. }
  change 7 with (2 ^ 3 - 1). rewrite land_low_mask by lia. change (2 ^ 3) with 8.
  destruct (Z.eqb_spec (le_val (slice s 84 4) mod 8) 0); cbn [negb].
  2: { rejected; by intros (_ & _ & _ & _ & -> & _ & _ & _ & ?). }
  eexists. split; [done |]. intros h. bool_cases.
  pose proof (le_val_slice_range s 80 4 ltac:(lia) ltac:(lia) ltac:(lia) Hs).
  split; [intros [= <-]; split_and!; cbn; done || lia | by intros (_ & _ & _ & _ & -> & _)].
Qed.

Lemma guid_is_zero_spec s o :
  0 <= o -> o + 16 <= zlen s -> guid_is_zero s o = Some (bool_decide (slice s o 16 = zero_guid)).
Proof.
  intros Ho Hl. unfold guid_is_zero, zero_guid. change 16 with (Z.of_nat 16) in *.
  assert (Hg : forall n o c, 0 <= o -> o + Z.of_nat n <= zlen s ->
    exists r, guid_loop n s o c = Some r /\
      (r = 0 <-> c = 0 /\ slice s o (Z.of_nat n) = replicate n 0)).
  { clear. induction n as [| n IH]; intros o c Ho Hl; cbn [guid_loop].
    - exists c. split; [done |]. cbn. tauto.
    - destruct (rd_in_range s o) as [b Eb]; [lia |]. rewrite Eb. obind.
      destruct (IH (o + 1) (Z.lor c b)) as (r & -> & Hr); [lia.. |]. exists r. split; [done |].
      rewrite Hr, Z.lor_eq_0_iff. replace (Z.of_nat (S n)) with (1 + Z.of_nat n) by lia.
      rewrite slice_cat, (slice_1 _ _ _ Eb) by lia. cbn. split.
      + by intros [[-> ->] ->].
      + intros [-> [= -> ?]]. done. }
  destruct (Hg 16%nat o 0) as (r & -> & Hr); [lia.. |]. obind. f_equal.
  destruct (Z.eqb_spec r 0) as [E | E]; symmetry.
  - apply bool_decide_eq_true. by apply Hr.
  - apply bool_decide_eq_false. intros ?. apply E, Hr. done.
Qed.

Lemma copy16_spec s o : 0 <= o -> o + 16 <= zlen s -> copy16 zero_guid s o = Some (slice s o 16).
Proof.
  intros. unfold copy16. rewrite copy_loop_spec by (change (zlen zero_guid) with 16; lia).
  f_equal. apply blit_full. rewrite zlen_slice by lia. done.
Qed.

(** What the entry loop has collected, and how it ends. *)
Definition populate_outcome d h T (st : partition_status_t) (before : list partition_t)
    (more : list partition_t) (used : list Z) : Prop :=
  zlen (before ++ more) <= PARTITION_MAX /\ Forall (in_device (sector_count d)) more /\
  (st = PARTITION_OK /\ more = gpt_entry h T <$> used /\
     Forall (gpt_entry_ok (sector_count d) h T) used \/
   st = PARTITION_BAD_GPT /\ ~ Forall (gpt_entry_ok (sector_count d) h T) used \/
   st = PARTITION_TOO_MANY /\ PARTITION_MAX < zlen before + zlen used).

Lemma populate_loop_spec d h T E n i table :
  zlen T <= zlen E ->
  (forall o n, 0 <= o -> 0 <= n -> o + n <= zlen T -> slice E o n = slice T o n) ->
  0 <= i -> (i + Z.of_nat n) * entry_size h <= zlen T -> zlen T < 2 ^ 64 -> 128 <= entry_size h ->
  zlen table <= PARTITION_MAX -> bytes_ok E -> 0 < sector_count d < 2 ^ 64 ->
  exists st more, populate_loop n d h E i table = Some (st, table ++ more) /\
    populate_outcome d h T st table more (gpt_used h T i (Z.of_nat n)).
Proof.
  revert i table. induction n as [| n IH]; intros i table HTE Hext Hi Hn HE Hs Ht Hb Hd; cbn [populate_loop].
  { exists PARTITION_OK, []. rewrite app_nil_r. split; [done |]. split; rewrite ?app_nil_r; [done |].
    split; [constructor | by left]. }
  assert (0 <= i * entry_size h /\ i * entry_size h + 128 <= zlen T) as Ho by nia.
  unfold gpt_used. rewrite seqZ_S, filter_cons. fold (gpt_used h T (i + 1) (Z.of_nat n)).
  rewrite u64_small by lia. rewrite guid_is_zero_spec, Hext by lia. obind.
  case_bool_decide as Hz.
  { rewrite decide_False by (by intros ?). apply IH; try done; lia. }
  rewrite decide_True by done. rewrite !le64_spec by (try done; lia). obind.
  rewrite !Hext by lia.
  fold (gpt_first h T i) (gpt_last h T i).
  pose proof (le_val_slice_range E (i * entry_size h + 32) 8 ltac:(lia) ltac:(lia) ltac:(lia) Hb) as Hf.
  rewrite Hext in Hf by lia. fold (gpt_first h T i) in Hf.
  assert (Hbad : ~ gpt_entry_ok (sector_count d) h T i ->
    populate_outcome d h T PARTITION_BAD_GPT table [] (i :: gpt_used h T (i + 1) (Z.of_nat n))).
  { intros Hno. split; rewrite ?app_nil_r; [done |]. split; [constructor |]. right. left.
    split; [done |]. by intros [? _]%Forall_cons. }
  destruct (Z.ltb_spec (gpt_last h T i) (gpt_first h T i)).
  { exists PARTITION_BAD_GPT, []. rewrite app_nil_r. split; [done |]. apply Hbad. intros (? & _). lia. }
  destruct (_ || _) eqn:Er.
  { exists PARTITION_BAD_GPT, []. rewrite app_nil_r. split; [done |]. apply Hbad. intros (_ & ? & ? & _).
    apply orb_true_iff in Er as [? | ?]; bool_cases; lia. }
  destruct (Z.leb_spec (sector_count d) (gpt_last h T i)).
  { exists PARTITION_BAD_GPT, []. rewrite app_nil_r. split; [done |]. apply Hbad. intros (_ & _ & _ & ?). lia. }
  bool_cases. assert (gpt_entry_ok (sector_count d) h T i) as Hok by (split_and!; lia).
  destruct (Z.leb_spec PARTITION_MAX (zlen table)).
  { exists PARTITION_TOO_MANY, []. rewrite app_nil_r. split; [done |]. split; rewrite ?app_nil_r; [done |].
    split; [constructor |]. right. right. split; [done |]. rewrite zlen_cons.
    pose proof (zlen_nonneg (gpt_used h T (i + 1) (Z.of_nat n))). lia. }
  rewrite !copy16_spec by lia. obind. rewrite !Hext by lia. rewrite u64_small by lia. fold (gpt_entry h T i).
  destruct (IH (i + 1) (table ++ [gpt_entry h T i])) as (st & more & -> & Hlen & Hin & Hst);
    [done | done | lia | lia | done | done | rewrite zlen_app; change (zlen [_]) with 1; lia | done | done |].
  exists st, (gpt_entry h T i :: more). rewrite <- !app_assoc in *. split; [done |]. split; [done |].
  assert (in_device (sector_count d) (gpt_entry h T i)) as Hd0 by (split_and!; cbn; lia).
  split; [by constructor |]. rewrite !zlen_cons. rewrite zlen_app in Hst. change (zlen [_]) with 1 in Hst.
  destruct Hst as [(-> & -> & ?) | [(-> & Hno) | (-> & ?)]].
  - left. split_and!; [done | done | by constructor].
  - right. left. split; [done |]. by intros [_ ?]%Forall_cons.
  - right. right. split; [done | lia].
Qed.
End PartitionProofs.

(** ** Scanning a device *)

Section ScanProofs.
Context {W : Type} {devs : Z -> option (block_device_t W)} `{BD : BlockDevices W devs}.
Context (id : Z) (d : block_device_t W) (Hid : devs id = Some d) (Hok : device_ok d).
Context (Hss : 512 <= sector_size d <= 4096).

(** The driver itself fails to read a sector of the device, on the media of [w]. *)
Definition read_failure (w : W) : Prop :=
  exists read lba b w1 st b' w2, dev_read d = Some read /\ 0 <= lba < sector_count d /\
    (forall i l, medium w1 i l = medium w i l) /\ read lba 1 b w1 = (st, b', w2) /\ st <> BLOCK_OK.

Lemma read_failure_same w w' : (forall i l, medium w' i l = medium w i l) -> read_failure w' -> read_failure w.
Proof.
  intros Hm (read & lba & b & w1 & st & b' & w2 & Hr & Hl & Hm1 & E & Hst).
  exists read, lba, b, w1, st, b', w2. do 2 (split; [done |]). split; [congruence | done].
Qed.

Lemma read_sector_spec lba b w :
  0 <= lba < sector_count d -> zlen b = 4096 ->
  exists st b' w', read_sector d lba b w = Some (st, b', w') /\ zlen b' = 4096 /\
    (forall i l, medium w' i l = medium w i l) /\
    (st = PARTITION_OK /\ b' = blit b 0 (medium w id lba) \/ st = PARTITION_IO_ERROR /\ read_failure w).
Proof.
  intros Hl Hb. pose proof Hok as ([read Hr] & _ & Hsc & _). unfold read_sector, block_read. rewrite Hr.
  rewrite (proj2 (request_in_range_spec d lba 1 ltac:(lia) ltac:(lia) ltac:(lia))) by lia. cbn [negb].
  destruct (read lba 1 b w) as [[st b'] w'] eqn:E.
  destruct (driver_read id d read lba b w st b' w' Hid Hr Hl ltac:(lia) E) as (H1 & H2 & H3).
  obind. eexists _, _, _. split; [done |]. split; [lia |]. split; [done |].
  case_bool_decide as Hst; [left; auto | right]. split; [done |]. by exists read, lba, b, w, st, b', w'.
Qed.

(** The bytes of [n] sectors from [lba]. *)
Definition sectors_at (w : W) (lba n : Z) : list Z := concat (medium w id <$> seqZ lba n).

Lemma sectors_at_S w lba n :
  sectors_at w lba (Z.of_nat (S n)) = medium w id lba ++ sectors_at w (lba + 1) (Z.of_nat n).
Proof. unfold sectors_at. by rewrite seqZ_S. Qed.

Lemma zlen_sectors_at w lba n : zlen (sectors_at w lba (Z.of_nat n)) = Z.of_nat n * sector_size d.
Proof.
  revert lba. induction n as [| n IH]; intros lba; [done |].
  rewrite sectors_at_S, zlen_app, IH, (medium_size id d), Nat2Z.inj_succ by done. lia.
Qed.

Lemma sectors_at_ext w w' lba n :
  (forall i l, medium w' i l = medium w i l) -> sectors_at w' lba n = sectors_at w lba n.
Proof. intros H. unfold sectors_at. f_equal. apply list_fmap_ext. intros ? l _. apply H. Qed.

Lemma load_loop_spec n lba k copied total bufs w :
  0 <= lba -> 0 <= k -> lba + k + Z.of_nat n <= sector_count d ->
  0 <= copied -> copied <= total -> total - copied <= Z.of_nat n * sector_size d ->
  total <= GPT_TABLE_MAX_BYTES -> zlen (sector_buffer bufs) = 4096 ->
  zlen (gpt_entries bufs) = GPT_TABLE_MAX_BYTES ->
  exists st b e w', load_loop n d lba k copied total bufs w = Some (st, mk_buffers b e, w') /\
    (forall i l, medium w' i l = medium w i l) /\ zlen b = 4096 /\ zlen e = GPT_TABLE_MAX_BYTES /\
    (st = PARTITION_OK /\
       e = blit (gpt_entries bufs) copied (slice (sectors_at w (lba + k) (Z.of_nat n)) 0 (total - copied)) \/
     st = PARTITION_IO_ERROR /\ read_failure w).
Proof.
  revert k copied bufs w. unfold GPT_TABLE_MAX_BYTES, GPT_ENTRY_MAX_SIZE, GPT_ENTRY_MAX_COUNT.
  induction n as [| n IH]; intros k copied [b e] w Hl Hk Hw Hc Hct Hn Ht Hb He;
    cbn [load_loop sector_buffer gpt_entries] in *; pose proof Hok as (_ & _ & Hsc & _).
  { exists PARTITION_OK, b, e, w. split_and!; try done. left. split; [done |].
    replace (total - copied) with 0 by lia. unfold blit. cbn. rewrite Nat.add_0_r. symmetry. apply take_drop. }
  rewrite u64_small by lia.
  destruct (read_sector_spec (lba + k) b w) as (st & b' & w' & -> & Hb' & Hm & Hst); [lia | done |].
  obind. destruct Hst as [[-> ->] | [-> Hf]].
  2: { eexists _, _, _, _. split; [done |]. split_and!; try done. by right. }
  cbn [bool_decide decide_rel partition_status_eq_dec].
  rewrite bool_decide_eq_false_2 by (by intros ?). rewrite (u32_small (total - copied)) by lia.
  set (take := if total - copied <? sector_size d then total - copied else sector_size d).
  assert (0 <= take <= sector_size d /\ take <= total - copied /\
    (take = sector_size d \/ take = total - copied)) as (Htk & Htc & Hex).
  { unfold take. destruct (Z.ltb_spec (total - copied) (sector_size d)); lia. }
  assert (zlen (medium w id (lba + k)) = sector_size d) as Hms by (by apply medium_size).
  rewrite Nat2Z.inj_succ in Hn. assert (0 <= Z.of_nat n * sector_size d) by nia.
  rewrite copy_loop_spec, Z2Nat.id by lia. obind.
  rewrite slice_blit_sub, Z.sub_diag by lia.
  assert (zlen (slice (medium w id (lba + k)) 0 take) = take) as Hsl by (apply zlen_slice; lia).
  assert (zlen (blit e copied (slice (medium w id (lba + k)) 0 take)) = 512 * 128) as He'
    by (rewrite zlen_blit; lia).
  destruct (IH (k + 1) (copied + take) (mk_buffers (blit b 0 (medium w id (lba + k)))
      (blit e copied (slice (medium w id (lba + k)) 0 take))) w')
    as (st & b2 & e2 & w2 & E & Hm2 & Hb2 & He2 & Hst); try done; try lia.
  { rewrite u32_small by lia. exists st, b2, e2, w2. split; [exact E |]. split; [congruence |].
    split; [done |]. split; [done |]. destruct Hst as [[-> ->] | [-> Hf]]; [left | right; split; [done | by eapply read_failure_same]].
    split; [done |]. cbn [gpt_entries]. rewrite (sectors_at_ext w w') by done.
    pose proof (zlen_sectors_at w (lba + (k + 1)) n) as Hz.
    rewrite blit_blit by (rewrite ?zlen_slice; lia). f_equal.
    rewrite sectors_at_S, Z.add_assoc in *.
    replace (total - copied) with (take + (total - (copied + take))) by lia.
    rewrite slice_cat by lia. rewrite slice_app_l by lia. f_equal.
    destruct Hex as [Hex | Hex].
    - rewrite slice_app_r by lia. f_equal. lia.
    - replace (total - (copied + take)) with 0 by lia. done. }
Qed.

(** The entry table the header describes. *)
Definition gpt_sectors (h : gpt_header) : Z :=
  (entry_count h * entry_size h + sector_size d - 1) / sector_size d.
Definition gpt_table (w : W) (h : gpt_header) : list Z :=
  slice (sectors_at w (entries_lba h) (gpt_sectors h)) 0 (entry_count h * entry_size h).
Definition gpt_table_ok (w : W) (h : gpt_header) : Prop :=
  entries_lba h + gpt_sectors h <= sector_count d /\ crc32 (gpt_table w h) = entries_crc h.

(** The bounds of an accepted header. *)
Definition header_bounds (h : gpt_header) : Prop :=
  0 < entry_count h <= 128 /\ 128 <= entry_size h <= 512 /\ 0 <= entries_lba h < 2 ^ 64.

Lemma header_in_bounds s h : 92 <= zlen s -> bytes_ok s -> gpt_header_in s h -> header_bounds h.
Proof.
  intros Hl Hb (_ & _ & _ & _ & -> & _ & Hc & Hs & _).
  pose proof (le_val_slice_range s 72 8 ltac:(lia) ltac:(lia) ltac:(lia) Hb).
  unfold GPT_ENTRY_MAX_COUNT, GPT_ENTRY_MAX_SIZE in *. split_and!; cbn in *; lia.
Qed.

Lemma gpt_sectors_bounds h :
  header_bounds h ->
  0 < entry_count h * entry_size h <= 65536 /\ 0 < gpt_sectors h <= 65536 /\
  entry_count h * entry_size h <= gpt_sectors h * sector_size d.
Proof.
  intros (Hc & Hs & _). assert (0 < entry_count h * entry_size h <= 65536) as Ht by nia.
  unfold gpt_sectors. set (t := entry_count h * entry_size h) in *.
  pose proof (Z.div_mod (t + sector_size d - 1) (sector_size d) ltac:(lia)) as Hd.
  pose proof (Z.mod_pos_bound (t + sector_size d - 1) (sector_size d) ltac:(lia)).
  split; [done |]. split; [| nia]. split; [apply Z.div_str_pos; lia |].
  apply Z.div_le_upper_bound; nia.
Qed.

Lemma zlen_gpt_table w h : header_bounds h -> zlen (gpt_table w h) = entry_count h * entry_size h.
Proof.
  intros Hh. pose proof (gpt_sectors_bounds h Hh). unfold gpt_table. apply zlen_slice; [lia.. |].
  rewrite <- (Z2Nat.id (gpt_sectors h)), zlen_sectors_at, Z2Nat.id by lia. lia.
Qed.

Lemma load_gpt_entries_spec h bufs w :
  header_bounds h -> zlen (sector_buffer bufs) = 4096 ->
  zlen (gpt_entries bufs) = GPT_TABLE_MAX_BYTES ->
  exists st b e w', load_gpt_entries d h bufs w = Some (st, mk_buffers b e, w') /\
    (forall i l, medium w' i l = medium w i l) /\ zlen b = 4096 /\ zlen e = GPT_TABLE_MAX_BYTES /\
    (st = PARTITION_OK /\ gpt_table_ok w h /\ e = blit (gpt_entries bufs) 0 (gpt_table w h) \/
     st = PARTITION_BAD_GPT /\ ~ gpt_table_ok w h \/ st = PARTITION_IO_ERROR /\ read_failure w).
Proof.
  intros Hh Hb He. pose proof (gpt_sectors_bounds h Hh) as (Ht & Hsec & Hfit).
  pose proof Hok as (_ & _ & Hsc & _). destruct Hh as (Hc & Hs & Hlba).
  unfold load_gpt_entries. change GPT_TABLE_MAX_BYTES with 65536 in *. rewrite !u64_small by lia.
  rewrite (proj2 (Z.ltb_ge 65536 _)) by lia.
  rewrite (u32_small (entry_count h * entry_size h)) by lia. rewrite (u32_small (_ + _ - 1)) by lia.
  fold (gpt_sectors h).
  assert (Hbad : ~ entries_lba h + gpt_sectors h <= sector_count d ->
    exists st b e w', Some (PARTITION_BAD_GPT, bufs, w) = Some (st, mk_buffers b e, w') /\
    (forall i l, medium w' i l = medium w i l) /\ zlen b = 4096 /\ zlen e = 65536 /\
    (st = PARTITION_OK /\ gpt_table_ok w h /\ e = blit (gpt_entries bufs) 0 (gpt_table w h) \/
     st = PARTITION_BAD_GPT /\ ~ gpt_table_ok w h \/ st = PARTITION_IO_ERROR /\ read_failure w)).
  { intros Hno. destruct bufs as [b e]. eexists _, _, _, _. split_and!; try done. right. left.
    split; [done |]. by intros [? _]. }
  destruct (Z.leb_spec (sector_count d) (entries_lba h)); [apply Hbad; lia |].
  rewrite (proj2 (Z.eqb_neq (gpt_sectors h) 0)) by lia. rewrite u64_small by lia.
  destruct (Z.ltb_spec (sector_count d - entries_lba h) (gpt_sectors h)); [apply Hbad; lia |].
  clear Hbad.
  destruct (load_loop_spec (Z.to_nat (gpt_sectors h)) (entries_lba h) 0 0
    (entry_count h * entry_size h) bufs w) as (st & b & e & w' & -> & Hm & Hb' & He' & Hst);
    rewrite ?Z2Nat.id by lia; try done; try (change GPT_TABLE_MAX_BYTES with 65536; lia).
  obind. destruct Hst as [[-> Ee] | [-> Hf]].
  2: { rewrite bool_decide_eq_true_2 by done. eexists _, _, _, _. split_and!; try done. by right; right. }
  rewrite bool_decide_eq_false_2 by (by intros ?). rewrite Z2Nat.id, Z.add_0_r, Z.sub_0_r in Ee by lia.
  fold (gpt_table w h) in Ee. cbn [gpt_entries]. change GPT_TABLE_MAX_BYTES with 65536 in He'.
  rewrite crc32_update_spec by lia. obind.
  pose proof (zlen_gpt_table w h ltac:(split_and!; lia)) as Hz.
  assert (slice e 0 (entry_count h * entry_size h) = gpt_table w h) as ->.
  { subst e. apply slice_blit_same; [lia | done |]. lia. }
  fold (crc32 (gpt_table w h)). eexists _, _, _, _. split; [done |]. split_and!; try done.
  unfold gpt_table_ok. destruct (Z.eqb_spec (crc32 (gpt_table w h)) (entries_crc h)).
  - left. split_and!; [done | lia | done | done].
  - right. left. split; [done |]. by intros [_ ?].
Qed.

(** The disk holds the GUID partition table [entries]. *)
Definition gpt_on_disk (w : W) (entries : list partition_t) : Prop :=
  exists h, gpt_header_in (medium w id 1) h /\ gpt_table_ok w h /\
    let t := gpt_table w h in
    let used := gpt_used h t 0 (entry_count h) in
    zlen used <= PARTITION_MAX /\ Forall (gpt_entry_ok (sector_count d) h t) used /\
    entries = gpt_entry h t <$> used.

(** The disk holds the partition table [t]. *)
Definition table_on_disk (w : W) (t : partition_table_t) : Prop :=
  let s := medium w id 0 in
  le_val (slice s 510 2) = 43605 /\
  (Forall (fun e => mbr_type e <> 238) (mbr_entry s <$> seqZ 0 4) /\
     scheme t = PARTITION_SCHEME_MBR /\ part_entries t = mbr_used s /\
     Forall (in_device (sector_count d)) (mbr_used s) \/
   Exists (fun e => mbr_type e = 238) (mbr_entry s <$> seqZ 0 4) /\
     scheme t = PARTITION_SCHEME_GPT /\ gpt_on_disk w (part_entries t)).

Definition buffers_ok (bufs : buffers) : Prop :=
  zlen (sector_buffer bufs) = PARTITION_MAX_SECTOR /\
  zlen (gpt_entries bufs) = GPT_TABLE_MAX_BYTES /\
  bytes_ok (sector_buffer bufs) /\ bytes_ok (gpt_entries bufs).

Definition entries_ok (entries : list partition_t) : Prop :=
  zlen entries <= PARTITION_MAX /\ Forall (in_device (sector_count d)) entries.

Context (w : W) (Hbytes : forall l, bytes_ok (medium w id l)).

Lemma sectors_at_bytes lba n : bytes_ok (sectors_at w lba n).
Proof. unfold sectors_at. apply Forall_concat, Forall_fmap, Forall_forall. intros l _. apply Hbytes. Qed.

Lemma parse_gpt_spec t0 bufs w0 :
  buffers_ok bufs -> entries_ok (part_entries t0) ->
  (forall i l, medium w0 i l = medium w i l) -> 2 <= sector_count d ->
  exists st t bufs' w', parse_gpt d t0 bufs w0 = Some (st, t, bufs', w') /\
    (forall i l, medium w' i l = medium w i l) /\ entries_ok (part_entries t) /\
    zlen (sector_buffer bufs') = PARTITION_MAX_SECTOR /\
    zlen (gpt_entries bufs') = GPT_TABLE_MAX_BYTES /\
    (st = PARTITION_OK -> scheme t = PARTITION_SCHEME_GPT /\ gpt_on_disk w (part_entries t)) /\
    (st = PARTITION_IO_ERROR -> read_failure w) /\
    (forall es, gpt_on_disk w es -> st = PARTITION_OK \/ st = PARTITION_IO_ERROR).
Proof.
  intros (Hb & He & Hbb & Heb) Ht0 Hm0 Hsc2. unfold PARTITION_MAX_SECTOR in *. unfold parse_gpt.
  destruct (read_sector_spec 1 (sector_buffer bufs) w0) as (st & b1 & w1 & -> & Hb1 & Hm1 & Hst); [lia | done |].
  obind. destruct Hst as [[-> ->] | [-> Hf]].
  2: { eexists _, _, _, _. split; [done |]. split_and!; try done; [congruence | intros _; by eapply read_failure_same | by right]. }
  rewrite bool_decide_eq_false_2 by (by intros ?). rewrite Hm0 in *.
  assert (zlen (medium w id 1) = sector_size d) as Hms by (by apply medium_size).
  assert (bytes_ok (blit (sector_buffer bufs) 0 (medium w id 1))) as Hbb1 by (by apply bytes_ok_blit).
  destruct (validate_gpt_header_spec d (blit (sector_buffer bufs) 0 (medium w id 1)))
    as (r & -> & Hr); [done.. |]. obind.
  rewrite slice_blit_same in Hr by lia.
  destruct r as [h |].
  2: { eexists _, _, _, _. split; [done |]. split_and!; try done; [congruence |].
       intros es (h & Hh & _). by apply Hr in Hh. }
  assert (gpt_header_in (medium w id 1) h) as Hh by (by apply Hr).
  assert (header_bounds h) as Hhb by (apply (header_in_bounds (medium w id 1)); [lia | apply Hbytes | done]).
  destruct (load_gpt_entries_spec h (mk_buffers (blit (sector_buffer bufs) 0 (medium w id 1))
    (gpt_entries bufs)) w1) as (st & b2 & e2 & w2 & -> & Hm2 & Hb2 & He2 & Hst); [done.. |]. obind.
  assert (gpt_table w1 h = gpt_table w h) as Ew
    by (unfold gpt_table; by rewrite (sectors_at_ext w w1) by congruence).
  unfold gpt_table_ok in Hst. rewrite Ew in Hst. assert (read_failure w1 -> read_failure w) as Hfw by (apply read_failure_same; congruence).
  assert (forall es, gpt_on_disk w es -> gpt_table_ok w h) as Honly.
  { intros es (h' & Hh' & Htab & _). apply Hr in Hh' as [= ->]. done. }
  destruct Hst as [(-> & Htab & ->) | [[-> Hno] | [-> Hf]]].
  2: { rewrite bool_decide_eq_true_2 by done. eexists _, _, _, _. split; [done |].
       split_and!; try done; [congruence |]. intros es Hes. destruct Hno. by eapply Honly. }
  2: { rewrite bool_decide_eq_true_2 by done. eexists _, _, _, _. split; [done |].
       split_and!; try done; [congruence | by auto | by right]. }
  rewrite bool_decide_eq_false_2 by (by intros ?). unfold populate_gpt_table. cbn [gpt_entries].
  pose proof (zlen_gpt_table w h Hhb) as Hz. pose proof (gpt_sectors_bounds h Hhb) as (Hz' & _).
  pose proof Hhb as (Hc & Hsz & _). pose proof Hok as (_ & _ & Hsc & _).
  change GPT_TABLE_MAX_BYTES with 65536 in *.
  destruct (populate_loop_spec d h (gpt_table w h) (blit (gpt_entries bufs) 0 (gpt_table w h))
    (Z.to_nat (entry_count h)) 0 []) as (st & more & -> & Hlen & Hin & Hst);
    rewrite ?Z2Nat.id by lia; try done; try lia.
  { rewrite zlen_blit; lia. }
  { intros o n Ho Hn Hon. rewrite slice_blit_sub by lia. by rewrite Z.sub_0_r. }
  { apply bytes_ok_blit; [done |]. apply bytes_ok_slice, sectors_at_bytes. }
  obind. rewrite Z2Nat.id in Hst by lia. cbn [app fst snd] in *.
  eexists _, _, _, _. split; [done |]. cbn [part_entries scheme sector_buffer gpt_entries].
  split; [congruence |]. split; [done |]. split; [done |]. split; [done |].
  destruct Hst as [(-> & -> & Hall) | [(-> & Hno) | (-> & Hmany)]].
  - split; [| split; [done | by left]]. intros _. split; [done |]. exists h. split_and!; try done; [apply Htab..|].
    unfold zlen in *. by rewrite length_fmap in Hlen.
  - do 2 (split; [done |]). intros es (h' & Hh' & _ & _ & Hall & _). apply Hr in Hh' as [= <-]. done.
  - do 2 (split; [done |]). intros es (h' & Hh' & _ & Hle & _). apply Hr in Hh' as [= <-].
    rewrite zlen_nil in Hmany. lia.
Qed.

Lemma scan_spec t0 bufs :
  2 <= sector_count d -> buffers_ok bufs ->
  exists st t bufs' w', partition_scan (Some d) (Some t0) bufs w = Some (st, Some t, bufs', w') /\
    (forall i l, medium w' i l = medium w i l) /\
    zlen (part_entries t) <= PARTITION_MAX /\
    Forall (in_device (sector_count d)) (part_entries t) /\
    zlen (sector_buffer bufs') = PARTITION_MAX_SECTOR /\
    zlen (gpt_entries bufs') = GPT_TABLE_MAX_BYTES /\
    (st = PARTITION_OK -> table_on_disk w t) /\
    (st = PARTITION_IO_ERROR -> read_failure w) /\
    (forall t', table_on_disk w t' -> st = PARTITION_OK \/ st = PARTITION_IO_ERROR).
Proof.
  intros Hsc (Hb & He & Hbb & Heb). unfold partition_scan.
  rewrite (proj2 (Z.ltb_ge (sector_size d) 512)), (proj2 (Z.ltb_ge PARTITION_MAX_SECTOR _)),
    (proj2 (Z.ltb_ge (sector_count d) 2)) by (unfold PARTITION_MAX_SECTOR; lia). cbn [orb].
  destruct (read_sector_spec 0 (sector_buffer bufs) w) as (st & b1 & w1 & -> & Hb1 & Hm1 & Hst); [lia | done |].
  obind. destruct Hst as [[-> ->] | [-> Hf]].
  2: { eexists _, _, _, _. split; [done |]. split_and!; try done. by right. }
  rewrite bool_decide_eq_false_2 by (by intros ?). unfold table_on_disk, PARTITION_MAX_SECTOR in *.
  assert (zlen (medium w id 0) = sector_size d) as Hms by (by apply medium_size).
  assert (bytes_ok (blit (sector_buffer bufs) 0 (medium w id 0))) as Hbb1 by (by apply bytes_ok_blit).
  assert (forall o n, 0 <= o -> 0 <= n -> o + n <= 512 ->
    slice (blit (sector_buffer bufs) 0 (medium w id 0)) o n = slice (medium w id 0) o n) as Hslice.
  { intros o n Ho Hn Hon. rewrite slice_blit_sub by lia. by rewrite Z.sub_0_r. }
  assert ((mbr_entry (blit (sector_buffer bufs) 0 (medium w id 0)) <$> seqZ 0 4) =
    (mbr_entry (medium w id 0) <$> seqZ 0 4)) as Hentries.
  { apply list_fmap_ext. intros j i Hi%lookup_seqZ. unfold mbr_entry, byte_at.
    rewrite !Hslice by lia. by rewrite !rd_blit_in, !Z.sub_0_r by lia. }
  rewrite le16_spec by (try done; lia). obind. rewrite Hslice by lia.
  destruct (Z.eqb_spec (le_val (slice (medium w id 0) 510 2)) 43605) as [Hsig | Hsig]; cbn [negb].
  2: { eexists _, _, _, _. split; [done |]. split_and!; try done. by intros t' [? _]. }
  destruct (protective_loop_spec (blit (sector_buffer bufs) 0 (medium w id 0)) 4 0 false)
    as (protective & -> & Hprot); [lia.. |]. obind. change (Z.of_nat 4) with 4 in Hprot.
  rewrite Hentries in Hprot. destruct protective.
  - assert (Exists (fun e => mbr_type e = 238) (mbr_entry (medium w id 0) <$> seqZ 0 4)) as Hex.
    { apply Exists_exists. destruct (proj1 Hprot eq_refl) as [? | (e & ? & ?)]; [done | by exists e]. }
    destruct (parse_gpt_spec (mk_table PARTITION_SCHEME_NONE [])
      (mk_buffers (blit (sector_buffer bufs) 0 (medium w id 0)) (gpt_entries bufs)) w1)
      as (st & t & bufs' & w' & -> & Hm & [Hlen Hin] & Hb' & He' & Hst & Hio & Hcomplete);
      [by split_and! | by split | done | done |]. obind.
    eexists _, _, _, _. split; [done |]. do 5 (split; [done |]). split; [| split; [done |]].
    + intros ?. split; [done |]. right. split; [done |]. by apply Hst.
    + intros t' [_ [(Hall & _) | (_ & _ & Hg)]]; [| by eapply Hcomplete].
      destruct (proj1 (Exists_exists _ _) Hex) as (e & Hel & Het).
      by destruct (proj1 (Forall_forall _ _) Hall e Hel).
  - assert (Forall (fun e => mbr_type e <> 238) (mbr_entry (medium w id 0) <$> seqZ 0 4)) as Hall.
    { apply Forall_forall. intros e He' Ht. discriminate (proj2 Hprot). right. by exists e. }
    destruct (mbr_loop_spec d (blit (sector_buffer bufs) 0 (medium w id 0)) 4 0 [])
      as (st & more & -> & Hlen & Hin & Hst); try done; try lia; [destruct Hok as (_ & _ & ? & _); lia |].
    obind. change (Z.of_nat 4) with 4 in Hst. rewrite Hentries in Hst. fold (mbr_used (medium w id 0)) in Hst.
    cbn [app fst snd] in *. eexists _, _, _, _. split; [done |].
    cbn [part_entries scheme sector_buffer gpt_entries]. split; [done |].
    split; [unfold PARTITION_MAX; lia |]. do 3 (split; [done |]).
    destruct Hst as [[-> ->] | [-> Hno]].
    + split; [| split; [done | by left]]. intros _. split; [done |]. by left.
    + do 2 (split; [done |]). intros t' [_ [(_ & _ & _ & ?) | (Hex & _)]]; [done |].
      destruct (proj1 (Exists_exists _ _) Hex) as (e & Hel & Het).
      by destruct (proj1 (Forall_forall _ _) Hall e Hel).
Qed.
End ScanProofs.

(** The devices [partition_scan] reads. *)
Definition supported {W} (d : block_device_t W) : Prop :=
  512 <= sector_size d <= PARTITION_MAX_SECTOR /\ 2 <= sector_count d.

(** C10. Scanning a registered device is safe whatever its sectors contain, and
    it reads partition tables correctly.  A device with fewer than two sectors or
    with sectors of fewer than 512 or more than 4096 bytes is refused and nothing
    is changed.  On any other the scan never reads or writes outside its buffers,
    leaves the media unchanged, and returns at most sixteen partitions, each of
    them inside the device, also when it reports an error.  It succeeds only with
    the partition table the disk holds (the used entries of the master boot
    record, or those of a GUID partition table whose header and entries have valid
    checksums); when the disk holds one it succeeds or reports an I/O error, and it
    reports an I/O error only when the driver has failed to read a sector of the
    device. *)
Theorem partition_scan_correct {W} {devs} `{BD : BlockDevices W devs} id (d : block_device_t W) (w : W) t0 bufs :
  devs id = Some d -> device_ok d -> (forall l, bytes_ok (medium w id l)) -> buffers_ok bufs ->
  (~ supported d -> partition_scan (Some d) (Some t0) bufs w = Some (PARTITION_BAD_ARGUMENT, Some t0, bufs, w)) /\
  (supported d ->
   exists st t bufs' w', partition_scan (Some d) (Some t0) bufs w = Some (st, Some t, bufs', w') /\
    (forall i l, medium w' i l = medium w i l) /\
    zlen (part_entries t) <= PARTITION_MAX /\
    Forall (in_device (sector_count d)) (part_entries t) /\
    zlen (sector_buffer bufs') = PARTITION_MAX_SECTOR /\
    zlen (gpt_entries bufs') = GPT_TABLE_MAX_BYTES /\
    (st = PARTITION_OK -> table_on_disk id d w t) /\
    (st = PARTITION_IO_ERROR -> read_failure d w) /\
    (forall t', table_on_disk id d w t' -> st = PARTITION_OK \/ st = PARTITION_IO_ERROR)).
Proof.
  intros Hid Hok Hbytes Hbufs. split.
  - intros Hno. unfold partition_scan. unfold supported, PARTITION_MAX_SECTOR in *.
    destruct (Z.ltb_spec (sector_size d) 512), (Z.ltb_spec 4096 (sector_size d)), (Z.ltb_spec (sector_count d) 2); cbn [orb]; first [done | lia].
  - intros [Hss Hsc]. by apply scan_spec.
Qed.

(** ** A concrete disk with a GUID partition table *)

Definition ex_mbr : list Z :=
  replicate 446 0 ++ [0; 0; 0; 0; 238; 0; 0; 0; 1; 0; 0; 0; 63; 0; 0; 0] ++ replicate 48 0 ++ [85; 170].
Definition ex_gpt_header : list Z :=
    [69; 70; 73; 32; 80; 65; 82; 84; 0; 0; 1; 0; 92; 0; 0; 0; 96; 170; 178; 143; 0; 0; 0; 0;
     1; 0; 0; 0; 0; 0; 0; 0; 0; 0; 0; 0; 0; 0; 0; 0; 34; 0; 0; 0; 0; 0; 0; 0; 60; 0; 0; 0; 0;
     0; 0; 0; 0; 0; 0; 0; 0; 0; 0; 0; 0; 0; 0; 0; 0; 0; 0; 0; 2; 0; 0; 0; 0; 0; 0; 0; 2; 0;
     0; 0; 128; 0; 0; 0; 101; 40; 76; 10].
Definition ex_gpt_entry : list Z :=
    [1; 2; 3; 4; 5; 6; 7; 8; 9; 10; 11; 12; 13; 14; 15; 16; 33; 34; 35; 36; 37; 38; 39; 40;
     41; 42; 43; 44; 45; 46; 47; 48; 40; 0; 0; 0; 0; 0; 0; 0; 55; 0; 0; 0; 0; 0; 0; 0].
Definition ex_gpt_sectors (l : Z) : list Z :=
  if l =? 0 then ex_mbr else if l =? 1 then ex_gpt_header
  else if l =? 2 then ex_gpt_entry else [].

Definition ex_gpt_disk : disk := mk_disk ex_gpt_sectors [].
Definition ex_buffers : buffers := mk_buffers (replicate 4096 0) (replicate (Z.to_nat GPT_TABLE_MAX_BYTES) 0).

Lemma ex_gpt_bytes l : bytes_ok (disk_medium 512 ex_gpt_disk 1 l).
Proof.
  unfold disk_medium. cbn [Z.eqb Pos.eqb]. apply Forall_take, Forall_app. split.
  - cbn [disk_sectors ex_gpt_disk]. unfold ex_gpt_sectors. repeat if_case.
    all: apply (bool_decide_unpack _); vm_compute; exact I.
  - by apply Forall_replicate.
Qed.

Lemma ex_buffers_ok : buffers_ok ex_buffers.
Proof.
  split_and!; cbn [sector_buffer gpt_entries ex_buffers]; [by vm_compute.. | |]; by apply Forall_replicate.
Qed.

Lemma crc32_update_correct_witness :
  crc32_update 0 (blit [1; 2; 3] 1 [7]) 3 <> crc32_update 0 [1; 2; 3] 3.
Proof.
  destruct (crc32_update_correct [1; 2; 3] 3) as (_ & H & _);
    [by apply (bool_decide_unpack _) | by vm_compute | by apply H].
Defined.

Lemma partition_scan_correct_witness :
  exists t bufs', partition_scan (Some (disk_device 512 64)) (Some (mk_table PARTITION_SCHEME_NONE []))
      ex_buffers ex_gpt_disk = Some (PARTITION_OK, Some t, bufs', ex_gpt_disk) /\
    table_on_disk (devs := disk_devs 512 64) (BD := disk_devices 512 64 eq_refl) 1 (disk_device 512 64)
      ex_gpt_disk t.
Proof.
  destruct (partition_scan_correct (devs := disk_devs 512 64) (BD := disk_devices 512 64 eq_refl) 1
    (disk_device 512 64) ex_gpt_disk (mk_table PARTITION_SCHEME_NONE []) ex_buffers eq_refl ltac:(by apply disk_device_ok)
    ex_gpt_bytes ex_buffers_ok) as [_ H].
  destruct H as (st & t & bufs' & w' & E & _ & _ & _ & _ & _ & Hst & _); [by vm_compute |].
  assert ((fun r => (r.1.1.1, r.2)) <$> partition_scan (Some (disk_device 512 64))
    (Some (mk_table PARTITION_SCHEME_NONE [])) ex_buffers ex_gpt_disk = Some (PARTITION_OK, ex_gpt_disk)) as Ec
    by (vm_compute; reflexivity).
  rewrite E in Ec. injection Ec as -> ->. exists t, bufs'. split; [exact E | by apply Hst].
Defined.
