(* ===== verification/Vfs.v ===== *)
(** * Virtual file system (kernel/src/vfs.c, vfs.h)

    The mount table, the longest-prefix resolution of paths and the table of
    open handles.  A C string is the character array from its pointer on; the
    empty array has no terminator, so reading it is undefined.  File systems
    are code behind function pointers: [C] is the type their [context]
    pointers point to and [W] the state they act on. *)

From stdpp Require Import base numbers list strings.
From Stdlib Require Import ZArith Lia.
From S2P Require Import Prelude Bytes.

#[local] Open Scope Z_scope.

Definition VFS_PATH_MAX : Z := 127.
Definition VFS_NAME_MAX : Z := 31.
Definition VFS_MAX_MOUNTS : Z := 8.
Definition VFS_MAX_HANDLES : Z := 16.

Definition VFS_PERM_READ : Z := 1.
Definition VFS_PERM_WRITE : Z := 2.
Definition VFS_OPEN_READ : Z := 1.
Definition VFS_OPEN_WRITE : Z := 2.
Definition VFS_OPEN_CREATE : Z := 4.
Definition VFS_OPEN_TRUNC : Z := 8.

Inductive vfs_status_t :=
| VFS_OK | VFS_BAD_ARGUMENT | VFS_NOT_FOUND | VFS_EXISTS | VFS_NOT_DIRECTORY | VFS_IS_DIRECTORY
| VFS_PERMISSION | VFS_NO_SPACE | VFS_BAD_HANDLE | VFS_IO_ERROR.

#[export] Instance vfs_status_eq_dec : EqDecision vfs_status_t.
Proof. solve_decision. Defined.

(** A zeroed node has neither of the two types. *)
Inductive vfs_node_type_t := VFS_NODE_NONE | VFS_NODE_FILE | VFS_NODE_DIRECTORY.

#[export] Instance vfs_node_type_eq_dec : EqDecision vfs_node_type_t.
Proof. solve_decision. Defined.

Record vfs_dirent_t := mk_dirent {
  de_name : list Z;
  de_type : vfs_node_type_t;
  de_permissions : Z;
  de_size : Z;
}.

(** The character [/]. *)
Abbreviation SLASH := 47.

(** [while (text[n]) n++] from the start of [text]. *)
Fixpoint string_loop (text : list Z) : option Z :=
  match text with
  | [] => None
  | c :: text => if c =? 0 then Some 0 else n ← string_loop text; Some (1 + n)
  end.

Definition string_length (text : option (list Z)) : option Z :=
  match text with
  | None => Some 0
  | Some text => string_loop text
  end.

(** [None] is the result 0. *)
Definition copy_path (destination source : list Z) : option (option (list Z)) :=
  n ← string_length (Some source);
  if (n =? 0) || (VFS_PATH_MAX <? n) then Some None
  else
    c ← rd source 0;
    if negb (c =? SLASH) then Some None
    else r ← copy_loop (Z.to_nat (n + 1)) destination 0 source 0; Some (Some r).

(** The comparison loop of [mount_matches]: [n] characters left from [i]. *)
Fixpoint matches_loop (n : nat) (mount_path path : list Z) (i : Z) : option bool :=
  match n with
  | O => Some true
  | S n =>
      a ← rd mount_path i;
      b ← rd path i;
      if negb (a =? b) then Some false else matches_loop n mount_path path (i + 1)
  end.

(** [path[0] == '/' && path[1] == '\0'] *)
Definition is_root (path : list Z) : option bool :=
  a ← rd path 0;
  if negb (a =? SLASH) then Some false else b ← rd path 1; Some (b =? 0).

Definition mount_matches (mount_path path : list Z) : option bool :=
  root ← is_root mount_path;
  if (root : bool) then c ← rd path 0; Some (c =? SLASH)
  else
    length ← string_length (Some mount_path);
    same ← matches_loop (Z.to_nat length) mount_path path 0;
    if negb same then Some false
    else c ← rd path length; Some ((c =? 0) || (c =? SLASH)).

Section Vfs.
Context {C W : Type}.

Record vfs_fs_ops_t := mk_ops {
  fs_mkdir : option (option C -> option (list Z) -> Z -> W -> option (vfs_status_t * W));
  fs_open : option (option C -> option (list Z) -> Z -> option Z -> W ->
              option (vfs_status_t * option Z * W));
  fs_close : option (option C -> Z -> W -> option (vfs_status_t * W));
  fs_read : option (option C -> Z -> option (list Z) -> Z -> option Z -> W ->
              option (vfs_status_t * option (list Z) * option Z * W));
  fs_write : option (option C -> Z -> option (list Z) -> Z -> option Z -> W ->
               option (vfs_status_t * option Z * W));
  fs_seek : option (option C -> Z -> Z -> W -> option (vfs_status_t * W));
  fs_list : option (option C -> option (list Z) -> Z -> option vfs_dirent_t -> W ->
              option (vfs_status_t * option vfs_dirent_t * W));
}.

Record mount_t := mk_mount {
  mount_used : bool;
  mount_path : list Z;
  mount_context : option C;
  mount_ops : option vfs_fs_ops_t;
}.

Record handle_t := mk_handle {
  handle_used : bool;
  mount_index : Z;
  backend_handle : Z;
}.

(** The static tables. *)
Record vfs_state := mk_vfs { mounts : list mount_t; handles : list handle_t }.

Definition set_mounts (v : vfs_state) ms : vfs_state := mk_vfs ms (handles v).
Definition set_handles (v : vfs_state) hs : vfs_state := mk_vfs (mounts v) hs.

(** The search loop of [resolve_mount] from mount [i]; [found] is -1 for none. *)
Fixpoint resolve_loop (ms : list mount_t) (path : list Z) (i found best : Z) : option (Z * Z) :=
  match ms with
  | [] => Some (found, best)
  | m :: ms =>
      if negb (mount_used m) then resolve_loop ms path (i + 1) found best
      else
        matches ← mount_matches (mount_path m) path;
        if negb matches then resolve_loop ms path (i + 1) found best
        else
          length ← string_length (Some (mount_path m));
          if (found <? 0) || (best <? length) then resolve_loop ms path (i + 1) i length
          else resolve_loop ms path (i + 1) found best
  end.

(** [None] in the result is 0; otherwise the mount and the relative path. *)
Definition resolve_mount (v : vfs_state) (path : list Z) : option (option (Z * list Z)) :=
  r ← resolve_loop (mounts v) path 0 (-1) 0;
  let '(found, best) := r in
  if found <? 0 then Some None
  else
    m ← rd (mounts v) found;
    root ← is_root (mount_path m);
    relative ← (if negb root then padd path best else Some path);
    c ← rd relative 0;
    Some (Some (found, if c =? 0 then [SLASH; 0] else relative)).

Definition vfs_init (v : vfs_state) : vfs_state :=
  mk_vfs ((fun m => mk_mount false (mount_path m) (mount_context m) (mount_ops m)) <$> mounts v)
    ((fun h => mk_handle false (mount_index h) (backend_handle h)) <$> handles v).

(** The slot loop of [vfs_mount]: the first free slot from [i]. *)
Fixpoint mount_loop (ms : list mount_t) (path : list Z) (context : option C)
    (ops : option vfs_fs_ops_t) : option (vfs_status_t * list mount_t) :=
  match ms with
  | [] => Some (VFS_NO_SPACE, [])
  | m :: ms =>
      if mount_used m then
        r ← mount_loop ms path context ops;
        Some (r.1, m :: r.2)
      else
        copy ← copy_path (mount_path m) path;
        match copy with
        | None => Some (VFS_BAD_ARGUMENT, m :: ms)
        | Some p => Some (VFS_OK, mk_mount true p context ops :: ms)
        end
  end.

Definition ops_complete (ops : vfs_fs_ops_t) : bool :=
  bool_decide (is_Some (fs_open ops)) && bool_decide (is_Some (fs_close ops)) &&
  bool_decide (is_Some (fs_read ops)) && bool_decide (is_Some (fs_write ops)) &&
  bool_decide (is_Some (fs_seek ops)) && bool_decide (is_Some (fs_mkdir ops)) &&
  bool_decide (is_Some (fs_list ops)).

Definition vfs_mount (v : vfs_state) (path : option (list Z)) (context : option C)
    (ops : option vfs_fs_ops_t) : option (vfs_status_t * vfs_state) :=
  match path, ops with
  | Some path, Some ops =>
      if negb (ops_complete ops) then Some (VFS_BAD_ARGUMENT, v)
      else
        r ← mount_loop (mounts v) path context (Some ops);
        Some (r.1, set_mounts v r.2)
  | _, _ => Some (VFS_BAD_ARGUMENT, v)
  end.

(** [mounts[i].ops], which the calls through it dereference. *)
Definition ops_of (v : vfs_state) (i : Z) : option (option C * vfs_fs_ops_t) :=
  m ← rd (mounts v) i; ops ← mount_ops m; Some (mount_context m, ops).

Definition vfs_mkdir (v : vfs_state) (path : option (list Z)) (permissions : Z) (w : W) :
    option (vfs_status_t * W) :=
  match path with
  | None => Some (VFS_NOT_FOUND, w)
  | Some path =>
      r ← resolve_mount v path;
      match r with
      | None => Some (VFS_NOT_FOUND, w)
      | Some (mount, relative) =>
          m ← ops_of v mount;
          mkdir ← fs_mkdir m.2;
          mkdir m.1 (Some relative) permissions w
      end
  end.

(** The first unused handle from [i], or [VFS_MAX_HANDLES]. *)
Fixpoint free_handle (hs : list handle_t) (i : Z) : Z :=
  match hs with
  | [] => VFS_MAX_HANDLES
  | h :: hs => if handle_used h then free_handle hs (i + 1) else i
  end.

Definition vfs_open (v : vfs_state) (path : option (list Z)) (flags : Z)
    (handle_out : option Z) (w : W) : option (vfs_status_t * option Z * vfs_state * W) :=
  match path, handle_out with
  | Some path, Some _ =>
      if Z.land flags (Z.lor VFS_OPEN_READ VFS_OPEN_WRITE) =? 0
      then Some (VFS_BAD_ARGUMENT, handle_out, v, w)
      else
        r ← resolve_mount v path;
        match r with
        | None => Some (VFS_NOT_FOUND, handle_out, v, w)
        | Some (mount, relative) =>
            let slot := free_handle (handles v) 0 in
            if slot =? VFS_MAX_HANDLES then Some (VFS_NO_SPACE, handle_out, v, w)
            else
              m ← ops_of v mount;
              open ← fs_open m.2;
              r ← open m.1 (Some relative) flags (Some 0) w;
              let '(status, backend, w) := r in
              if bool_decide (status <> VFS_OK) then Some (status, handle_out, v, w)
              else
                backend ← backend;
                hs ← wr (handles v) slot (mk_handle true mount backend);
                Some (VFS_OK, Some slot, set_handles v hs, w)
        end
  | _, _ => Some (VFS_BAD_ARGUMENT, handle_out, v, w)
  end.

(** [handle >= VFS_MAX_HANDLES || !handles[handle].used], then the handle. *)
Definition get_handle (v : vfs_state) (handle : Z) : option (option handle_t) :=
  if VFS_MAX_HANDLES <=? handle then Some None
  else h ← rd (handles v) handle; Some (if handle_used h then Some h else None).

Definition vfs_close (v : vfs_state) (handle : Z) (w : W) : option (vfs_status_t * vfs_state * W) :=
  h ← get_handle v handle;
  match h with
  | None => Some (VFS_BAD_HANDLE, v, w)
  | Some h =>
      m ← ops_of v (mount_index h);
      close ← fs_close m.2;
      r ← close m.1 (backend_handle h) w;
      let '(status, w) := r in
      hs ← wr (handles v) handle (mk_handle false (mount_index h) (backend_handle h));
      Some (status, set_handles v hs, w)
  end.

Definition vfs_read (v : vfs_state) (handle : Z) (buffer : option (list Z)) (length : Z)
    (read_out : option Z) (w : W) : option (vfs_status_t * option (list Z) * option Z * W) :=
  h ← get_handle v handle;
  match h with
  | None => Some (VFS_BAD_HANDLE, buffer, read_out, w)
  | Some h =>
      m ← ops_of v (mount_index h);
      read ← fs_read m.2;
      read m.1 (backend_handle h) buffer length read_out w
  end.

Definition vfs_write (v : vfs_state) (handle : Z) (buffer : option (list Z)) (length : Z)
    (written_out : option Z) (w : W) : option (vfs_status_t * option Z * W) :=
  h ← get_handle v handle;
  match h with
  | None => Some (VFS_BAD_HANDLE, written_out, w)
  | Some h =>
      m ← ops_of v (mount_index h);
      write ← fs_write m.2;
      write m.1 (backend_handle h) buffer length written_out w
  end.

Definition vfs_seek (v : vfs_state) (handle offset : Z) (w : W) : option (vfs_status_t * W) :=
  h ← get_handle v handle;
  match h with
  | None => Some (VFS_BAD_HANDLE, w)
  | Some h =>
      m ← ops_of v (mount_index h);
      seek ← fs_seek m.2;
      seek m.1 (backend_handle h) offset w
  end.

Definition vfs_list (v : vfs_state) (path : option (list Z)) (index : Z)
    (entry_out : option vfs_dirent_t) (w : W) : option (vfs_status_t * option vfs_dirent_t * W) :=
  match path, entry_out with
  | Some path, Some _ =>
      r ← resolve_mount v path;
      match r with
      | None => Some (VFS_NOT_FOUND, entry_out, w)
      | Some (mount, relative) =>
          m ← ops_of v mount;
          list ← fs_list m.2;
          list m.1 (Some relative) index entry_out w
      end
  | _, _ => Some (VFS_NOT_FOUND, entry_out, w)
  end.
End Vfs.

Arguments vfs_fs_ops_t : clear implicits.
Arguments mount_t : clear implicits.
Arguments vfs_state : clear implicits.

Definition vfs_status_string (status : vfs_status_t) : string :=
  match status with
  | VFS_OK => "ok"
  | VFS_BAD_ARGUMENT => "bad argument"
  | VFS_NOT_FOUND => "not found"
  | VFS_EXISTS => "exists"
  | VFS_NOT_DIRECTORY => "not a directory"
  | VFS_IS_DIRECTORY => "is a directory"
  | VFS_PERMISSION => "permission denied"
  | VFS_NO_SPACE => "no space"
  | VFS_BAD_HANDLE => "bad handle"
  | VFS_IO_ERROR => "I/O error"
  end.

(** ** Strings *)

(** The characters of the string at [p]. *)
Definition is_str (p s : list Z) : Prop :=
  Forall (fun c => c <> 0) s /\ exists rest, p = s ++ 0 :: rest.

Lemma is_str_nil p : is_str p [] <-> rd p 0 = Some 0.
Proof.
  split; [by intros [_ [rest ->]] |]. intros H. split; [done |].
  destruct p as [| c p]; [done |]. injection H as ->. by exists p.
Qed.

Lemma is_str_cons p c s : is_str p (c :: s) <-> exists q, p = c :: q /\ c <> 0 /\ is_str q s.
Proof.
  split.
  - intros [[Hc Hs]%Forall_cons [rest ->]]. exists (s ++ 0 :: rest).
    split; [done |]. split; [done |]. split; [done | by exists rest].
  - intros (q & -> & Hc & Hs & rest & ->). split; [by constructor |]. by exists rest.
Qed.

Lemma is_str_det p s s' : is_str p s -> is_str p s' -> s = s'.
Proof.
  revert p s'. induction s as [| c s IH]; intros p [| c' s'] H H'; [done | | |].
  - apply is_str_nil in H. apply is_str_cons in H' as (q & -> & Hc & _). injection H as ->. done.
  - apply is_str_nil in H'. apply is_str_cons in H as (q & -> & Hc & _). injection H' as ->. done.
  - apply is_str_cons in H as (q & -> & _ & Hq), H' as (q' & [= -> ->] & _ & Hq'). f_equal. by eapply IH.
Qed.

Lemma string_loop_spec p s : is_str p s -> string_loop p = Some (zlen s).
Proof.
  revert p. induction s as [| c s IH]; intros p H.
  - apply is_str_nil in H. destruct p as [| x p]; [done |]. injection H as ->. done.
  - apply is_str_cons in H as (q & -> & Hc & Hq). cbn [string_loop].
    rewrite (proj2 (Z.eqb_neq c 0)), (IH q) by done. obind. by rewrite zlen_cons.
Qed.

Lemma string_length_spec p s : is_str p s -> string_length (Some p) = Some (zlen s).
Proof. apply string_loop_spec. Qed.

Lemma zlen_is_str p s : is_str p s -> zlen s + 1 <= zlen p.
Proof. intros (_ & rest & ->). rewrite zlen_app, zlen_cons. pose proof (zlen_nonneg rest). lia. Qed.

Lemma is_str_rd p s i : is_str p s -> 0 <= i < zlen s -> rd p i = rd s i.
Proof. intros (_ & rest & ->) Hi. by rewrite rd_app_l by lia. Qed.

Lemma is_str_end p s : is_str p s -> rd p (zlen s) = Some 0.
Proof. intros (_ & rest & ->). rewrite rd_app_r, Z.sub_diag by lia. done. Qed.

Lemma is_str_drop p s1 s2 : is_str p (s1 ++ s2) -> is_str (drop (length s1) p) s2.
Proof.
  intros ([_ Hs]%Forall_app & rest & ->). split; [done |]. exists rest.
  by rewrite <- app_assoc, drop_app_length.
Qed.

Lemma is_str_cstr s : Forall (fun c => c <> 0) s -> is_str (s ++ [0]) s.
Proof. intros H. split; [done | by exists []]. Qed.

(** Reading the first two characters decides the root path. *)
Lemma is_root_spec p s : is_str p s -> s <> [] -> is_root p = Some (bool_decide (s = [SLASH])).
Proof.
  intros H Hs. destruct s as [| a [| b s]]; [done | |].
  - apply is_str_cons in H as (q & -> & Ha & Hq%is_str_nil). destruct q as [| x q]; [done |].
    injection Hq as ->. unfold is_root.
    change (rd (a :: 0 :: q) 0) with (Some a). change (rd (a :: 0 :: q) 1) with (Some 0). obind. destruct (Z.eqb_spec a 47) as [-> | Hne]; [done |].
    symmetry. f_equal. apply bool_decide_eq_false. by intros [= ->].
  - apply is_str_cons in H as (q & -> & Ha & (q' & -> & Hb & Hq)%is_str_cons). unfold is_root.
    change (rd (a :: b :: q') 0) with (Some a). change (rd (a :: b :: q') 1) with (Some b). obind.
    rewrite bool_decide_eq_false_2 by done. destruct (Z.eqb_spec a 47); [| done]. cbn.
    by rewrite (proj2 (Z.eqb_neq b 0)).
Qed.

(** ** Mount resolution *)

(** The path [s] is the mount point [m] or lies below it. *)
Definition under (m s : list Z) : Prop :=
  if decide (m = [SLASH]) then head s = Some SLASH
  else exists r, s = m ++ r /\ (r = [] \/ head r = Some SLASH).

(** What is left of [s] below the mount point [m]. *)
Definition relative_to (m s : list Z) : list Z :=
  if decide (m = [SLASH]) then s
  else match drop (length m) s with [] => [SLASH] | r => r end.

Lemma matches_loop_spec m s pm ps i :
  is_str pm m -> is_str ps s -> 0 <= i <= zlen m -> i <= zlen s ->
  exists b, matches_loop (Z.to_nat (zlen m - i)) pm ps i = Some b /\
    (b = true <-> drop (Z.to_nat i) m `prefix_of` drop (Z.to_nat i) s).
Proof.
  intros Hm Hs Hi His. remember (Z.to_nat (zlen m - i)) as n eqn:Hn. revert i Hn Hi His.
  induction n as [| n IH]; intros i Hn Hi His; cbn [matches_loop].
  { exists true. split; [done |]. split; [| done]. intros _.
    rewrite drop_ge by (unfold zlen in *; lia). apply prefix_nil. }
  destruct (rd_in_range m i) as [a Ea]; [lia |].
  rewrite (is_str_rd pm m i), Ea by (done || lia). obind.
  pose proof Ea as [_ Ea']%rd_lookup.
  destruct (Z.eq_dec i (zlen s)) as [Hz | Hz].
  - rewrite Hz, (is_str_end ps s) by done. obind.
    destruct Hm as [Hm _]. pose proof (Forall_lookup_1 _ _ _ _ Hm Ea') as Ha. cbn in Ha.
    rewrite (proj2 (Z.eqb_neq a 0)) by done. exists false. split; [done |]. split; [done |].
    intros [k Hk]. rewrite (drop_ge s) in Hk by (unfold zlen; lia).
    erewrite drop_S in Hk; [| rewrite Hz in Ea'; exact Ea']. done.
  - destruct (rd_in_range s i) as [b Eb]; [lia |].
    rewrite (is_str_rd ps s i), Eb by (done || lia). obind. pose proof Eb as [_ Eb']%rd_lookup.
    erewrite (drop_S m), (drop_S s) by done.
    destruct (Z.eqb_spec a b) as [<- | Hne]; cbn [negb].
    + destruct (IH (i + 1)) as (r & -> & Hr); [lia.. |]. exists r. split; [done |]. rewrite Hr.
      replace (Z.to_nat (i + 1)) with (S (Z.to_nat i)) by lia.
      split; [apply prefix_cons | apply prefix_cons_inv_2].
    + exists false. split; [done |]. split; [done |]. intros ?%prefix_cons_inv_1. done.
Qed.

Lemma mount_matches_spec m s pm ps :
  is_str pm m -> is_str ps s -> m <> [] ->
  exists b, mount_matches pm ps = Some b /\ (b = true <-> under m s).
Proof.
  intros Hm Hs Hne. unfold mount_matches, under. rewrite (is_root_spec pm m) by done. obind.
  case_bool_decide as Hroot; [rewrite decide_True by done | rewrite decide_False by done].
  { destruct s as [| c s].
    - apply is_str_nil in Hs. rewrite Hs. obind. by exists false.
    - apply is_str_cons in Hs as (q & -> & _ & _). change (rd (c :: q) 0) with (Some c). obind.
      eexists. split; [done |]. rewrite Z.eqb_eq. cbn. split; [by intros -> | by intros [= ->]]. }
  rewrite (string_length_spec pm m) by done. obind. pose proof (zlen_nonneg m). pose proof (zlen_nonneg s).
  destruct (matches_loop_spec m s pm ps 0 Hm Hs) as (b & Eb & Hb); [lia.. |].
  rewrite Z.sub_0_r in Eb. rewrite Eb. obind. cbn in Hb. rewrite !drop_0 in Hb.
  destruct b; cbn [negb].
  2: { exists false. split; [done |]. split; [done |]. intros (r & -> & _). apply Hb. by exists r. }
  destruct (proj1 Hb eq_refl) as [r ->].
  assert (rd ps (zlen m) = match r with [] => Some 0 | c :: _ => Some c end) as ->.
  { destruct Hs as (_ & rest & ->). rewrite <- app_assoc, rd_app_r, Z.sub_diag by lia. by destruct r. }
  destruct r as [| c r]; obind.
  - eexists. split; [done |]. split; [| done]. intros _. exists []. split; [done | by left].
  - assert (c <> 0) as Hc. { destruct Hs as [Hs _]. apply Forall_app in Hs as [_ [? _]%Forall_cons]. done. }
    rewrite (proj2 (Z.eqb_neq c 0)) by done. cbn [orb]. eexists. split; [done |]. rewrite Z.eqb_eq. split.
    + intros ->. exists (47 :: r). split; [done | by right].
    + intros (r' & E%app_inv_head & [-> | Hr']); [done |]. subst r'. by injection Hr'.
Qed.

Section VfsProofs.
Context {C W : Type}.
Implicit Types v : vfs_state C W.
Implicit Types m : mount_t C W.

(** A mount in use: an absolute path that fits and a complete set of operations. *)
Definition mount_ok m : Prop :=
  zlen (mount_path m) = VFS_PATH_MAX + 1 /\
  (mount_used m = true ->
   (exists s, is_str (mount_path m) s /\ head s = Some SLASH) /\
   exists ops, mount_ops m = Some ops /\ ops_complete ops = true).

(** The mount point [m] covers the path [s] at the string [mp]. *)
Definition covers m (mp s : list Z) : Prop :=
  mount_used m = true /\ is_str (mount_path m) mp /\ under mp s.

Lemma mount_ok_path m :
  mount_ok m -> mount_used m = true -> exists mp, is_str (mount_path m) mp /\ mp <> [].
Proof. intros [_ Hm] Hu. destruct (Hm Hu) as ((s & Hs & Hh) & _). exists s. split; [done |]. by intros ->. Qed.

(** The best mount among the first ones: none covers the path, or [found] is
    the first of the longest. *)
Definition best_of (ms : list (mount_t C W)) (s : list Z) (found best : Z) : Prop :=
  found = -1 /\ best = 0 /\ Forall (fun m => forall mp, ~ covers m mp s) ms \/
  exists m mp, rd ms found = Some m /\ covers m mp s /\ best = zlen mp /\
    forall j m' mp', rd ms j = Some m' -> covers m' mp' s ->
      zlen mp' <= zlen mp /\ (j < found -> zlen mp' < zlen mp).

Lemma best_of_skip ms m s found best :
  best_of ms s found best -> (forall mp, ~ covers m mp s) -> best_of (ms ++ [m]) s found best.
Proof.
  intros [(-> & -> & Hn) | (m0 & mp & Hf & Hc & -> & Hmax)] Hno.
  - left. split_and!; try done. apply Forall_app. split; [done | by constructor].
  - right. exists m0, mp. pose proof (rd_Some_lt _ _ _ Hf). rewrite rd_app_l by lia.
    split; [done |]. split; [done |]. split; [done |]. intros j m' mp' Hj Hc'.
    destruct (decide (j < zlen ms)); [rewrite rd_app_l in Hj by lia; by eapply Hmax |].
    pose proof (rd_Some_lt _ _ _ Hj) as Hlt. rewrite zlen_app in Hlt. change (zlen [m]) with 1 in Hlt.
    rewrite rd_app_r in Hj by lia. replace (j - zlen ms) with 0 in Hj by lia. injection Hj as ->.
    by destruct (Hno mp').
Qed.

Lemma best_of_snoc ms m s found best mp :
  best_of ms s found best -> covers m mp s ->
  if decide (found < 0 \/ best < zlen mp) then best_of (ms ++ [m]) s (zlen ms) (zlen mp)
  else best_of (ms ++ [m]) s found best.
Proof.
  intros Hb Hc.
  assert (forall mp', covers m mp' s -> mp' = mp) as Hdet.
  { intros mp' (_ & Hs' & _). destruct Hc as (_ & Hs & _). by eapply is_str_det. }
  assert (forall j m', rd (ms ++ [m]) j = Some m' -> rd ms j = Some m' \/ j = zlen ms /\ m' = m) as Hrd.
  { intros j m' Hj. pose proof (rd_Some_lt _ _ _ Hj) as Hlt. rewrite zlen_app in Hlt.
    change (zlen [m]) with 1 in Hlt. destruct (decide (j < zlen ms)).
    - left. by rewrite rd_app_l in Hj by lia.
    - right. rewrite rd_app_r in Hj by lia. replace (j - zlen ms) with 0 in Hj by lia.
      injection Hj as ->. split; [lia | done]. }
  destruct (decide _) as [Hd | Hd].
  - right. exists m, mp. rewrite rd_app_r, Z.sub_diag by lia. split; [done |]. split; [done |]. split; [done |].
    intros j m' mp' [Hj | [-> ->]]%Hrd Hc'; [| apply Hdet in Hc' as ->; lia].
    destruct Hb as [(-> & -> & Hn) | (m0 & mp0 & Hf & _ & -> & Hmax)].
    + apply rd_lookup in Hj as [_ Hj]. by destruct (Forall_lookup_1 _ _ _ _ Hn Hj mp').
    + pose proof (rd_Some_lt _ _ _ Hf). destruct (Hmax _ _ _ Hj Hc'). lia.
  - destruct Hb as [(-> & _) | (m0 & mp0 & Hf & Hc0 & -> & Hmax)]; [lia |].
    right. exists m0, mp0. pose proof (rd_Some_lt _ _ _ Hf). rewrite rd_app_l by lia.
    split; [done |]. split; [done |]. split; [done |].
    intros j m' mp' [Hj | [-> ->]]%Hrd Hc'; [by eapply Hmax |]. apply Hdet in Hc' as ->. lia.
Qed.

Lemma resolve_loop_spec p s ms : forall before found best,
  is_str p s -> Forall mount_ok ms -> best_of before s found best ->
  exists found' best', resolve_loop ms p (zlen before) found best = Some (found', best') /\
    best_of (before ++ ms) s found' best'.
Proof.
  induction ms as [| m ms IH]; intros before found best Hp Hms Hb; cbn [resolve_loop].
  { exists found, best. by rewrite app_nil_r. }
  apply Forall_cons in Hms as [Hm Hms].
  assert (forall f b, best_of (before ++ [m]) s f b ->
    exists found' best', resolve_loop ms p (zlen before + 1) f b = Some (found', best') /\
      best_of (before ++ m :: ms) s found' best') as Hnext.
  { intros f b Hfb. destruct (IH (before ++ [m]) f b Hp Hms Hfb) as (f' & b' & E & Hb').
    rewrite zlen_app in E. change (zlen [m]) with 1 in E. rewrite <- app_assoc in Hb'. by exists f', b'. }
  destruct (mount_used m) eqn:Hu; cbn [negb].
  2: { apply Hnext, best_of_skip; [done |]. intros mp (Hu' & _). congruence. }
  destruct (mount_ok_path m Hm Hu) as (mp & Hmp & Hne).
  destruct (mount_matches_spec mp s (mount_path m) p Hmp Hp Hne) as (b & -> & Hmatch). obind.
  destruct b; cbn [negb].
  2: { apply Hnext, best_of_skip; [done |]. intros mp' (_ & Hmp' & Hun).
       rewrite (is_str_det _ _ _ Hmp' Hmp) in Hun. by apply Hmatch in Hun. }
  rewrite (string_length_spec _ mp) by done. obind.
  assert (covers m mp s) as Hc by (split_and!; [done.. | by apply Hmatch]).
  pose proof (best_of_snoc before m s found best mp Hb Hc) as Hs. destruct (decide _) as [Hd | Hd].
  - rewrite (proj2 (orb_true_iff _ _)); [by apply Hnext |]. rewrite !Z.ltb_lt. lia.
  - rewrite (proj2 (orb_false_iff _ _)); [by apply Hnext |]. rewrite !Z.ltb_ge. lia.
Qed.

Lemma is_str_relative p s mp :
  is_str p s -> mp <> [] -> under mp s ->
  exists q, (if decide (mp = [SLASH]) then Some p else padd p (zlen mp)) = Some q /\
    exists c, rd q 0 = Some c /\ is_str (if c =? 0 then [SLASH; 0] else q) (relative_to mp s) /\
    head (relative_to mp s) = Some SLASH.
Proof.
  intros Hp Hne Hun. unfold under, relative_to in *. destruct (decide (mp = [SLASH])).
  - destruct s as [| c s]; [done |]. injection Hun as ->.
    apply is_str_cons in Hp as (q & -> & _ & Hq). eexists. split; [done |]. exists 47.
    split; [done |]. split; [| done]. apply is_str_cons. by exists q.
  - destruct Hun as (r & -> & Hr). pose proof (zlen_is_str _ _ Hp) as Hl. rewrite zlen_app in Hl.
    pose proof (zlen_nonneg r). pose proof (zlen_nonneg mp). rewrite padd_Some by lia. eexists. split; [done |].
    apply is_str_drop in Hp. unfold zlen. rewrite Nat2Z.id, drop_app_length. destruct r as [| c r].
    + exists 0. apply is_str_nil in Hp. split; [done |]. split; [| done]. by apply (is_str_cstr [47]), Forall_singleton.
    + destruct Hr as [? | [= ->]]; [done |]. pose proof Hp as (q & E & _ & _)%is_str_cons.
      rewrite E in *. exists 47. split; [done |]. by split.
Qed.

(** The outcome of mount resolution on the string [s]. *)
Definition resolved v (s : list Z) (r : option (Z * list Z)) : Prop :=
  match r with
  | None => Forall (fun m => forall mp, ~ covers m mp s) (mounts v)
  | Some (i, q) =>
      exists m mp, rd (mounts v) i = Some m /\ covers m mp s /\
        is_str q (relative_to mp s) /\ head (relative_to mp s) = Some SLASH /\
        forall j m' mp', rd (mounts v) j = Some m' -> covers m' mp' s ->
          zlen mp' <= zlen mp /\ (j < i -> zlen mp' < zlen mp)
  end.

Lemma resolve_mount_spec v p s :
  Forall mount_ok (mounts v) -> is_str p s -> exists r, resolve_mount v p = Some r /\ resolved v s r.
Proof.
  intros Hms Hp. unfold resolve_mount.
  destruct (resolve_loop_spec p s (mounts v) [] (-1) 0 Hp Hms) as (found & best & E & Hb); [by left |].
  change (zlen []) with 0 in E. rewrite E. obind. cbn [app] in Hb.
  destruct Hb as [(-> & -> & Hn) | (m & mp & Hf & Hc & -> & Hmax)]; [by exists None |].
  pose proof (rd_Some_lt _ _ _ Hf). rewrite (proj2 (Z.ltb_ge found 0)), Hf by lia. obind.
  destruct Hc as (Hu & Hmp & Hun). pose proof Hf as [_ Hl]%rd_lookup.
  destruct (mount_ok_path m (Forall_lookup_1 _ _ _ _ Hms Hl) Hu) as (mp' & Hmp' & Hne).
  rewrite (is_str_det _ _ _ Hmp' Hmp) in Hne. rewrite (is_root_spec _ mp) by done. obind.
  destruct (is_str_relative p s mp Hp Hne Hun) as (q & Eq & c & Ec & Hq & Hh).
  replace (if negb (bool_decide (mp = [47])) then padd p (zlen mp) else Some p) with (Some q)
    by (rewrite <- Eq; case_bool_decide; by destruct (decide _)).
  obind. rewrite Ec. obind. eexists. split; [done |]. exists m, mp. by split_and!.
Qed.

(** C11. Mount resolution.  For every absolute or other path it stays inside the
    path and mount strings, finds a mount exactly when one covers the path,
    chooses the longest mount point (the first one mounted among equals), and
    hands the file system the remainder of the path below it, an absolute path
    again. *)
Theorem resolve_mount_correct v p s :
  Forall mount_ok (mounts v) -> is_str p s ->
  exists r, resolve_mount v p = Some r /\
    match r with
    | None => Forall (fun m => forall mp, ~ covers m mp s) (mounts v)
    | Some (i, q) =>
        exists m mp, rd (mounts v) i = Some m /\ covers m mp s /\
          is_str q (relative_to mp s) /\ head (relative_to mp s) = Some SLASH /\
          forall j m' mp', rd (mounts v) j = Some m' -> covers m' mp' s ->
            zlen mp' <= zlen mp /\ (j < i -> zlen mp' < zlen mp)
    end.
Proof. apply resolve_mount_spec. Qed.

(** ** Handles *)

Definition handle_ok v (h : handle_t) : Prop :=
  handle_used h = true -> 0 <= backend_handle h /\
  exists m, rd (mounts v) (mount_index h) = Some m /\ mount_used m = true.

Definition vfs_ok v : Prop :=
  zlen (mounts v) = VFS_MAX_MOUNTS /\ Forall mount_ok (mounts v) /\
  zlen (handles v) = VFS_MAX_HANDLES /\ Forall (handle_ok v) (handles v).

Lemma free_handle_spec hs i :
  let r := free_handle hs i in
  r = VFS_MAX_HANDLES /\ Forall (fun h => handle_used h = true) hs \/
  exists h, rd hs (r - i) = Some h /\ handle_used h = false /\ i <= r < i + zlen hs.
Proof.
  revert i. induction hs as [| h hs IH]; intros i; cbn [free_handle]; [by left |].
  rewrite zlen_cons. pose proof (zlen_nonneg hs).
  destruct (handle_used h) eqn:Hu; cbn zeta.
  - destruct (IH (i + 1)) as [[-> Hall] | (h' & Hr & Hu' & Hlt)]; [left | right].
    + split; [done | by constructor].
    + exists h'. split; [| split; [done | lia]]. change (h :: hs) with ([h] ++ hs).
      rewrite rd_app_r; change (zlen [h]) with 1; [| lia]. rewrite <- Hr. f_equal. lia.
  - right. exists h. rewrite Z.sub_diag. split_and!; [done | done | lia | lia].
Qed.

Lemma ops_of_used v i m :
  Forall mount_ok (mounts v) -> rd (mounts v) i = Some m -> mount_used m = true ->
  exists ops, ops_of v i = Some (mount_context m, ops) /\ mount_ops m = Some ops /\ ops_complete ops = true.
Proof.
  intros Hms Hi Hu. pose proof Hi as [_ Hl]%rd_lookup. destruct (Forall_lookup_1 _ _ _ _ Hms Hl) as [_ Hm].
  destruct (Hm Hu) as (_ & ops & Ho & Hc). exists ops. unfold ops_of. rewrite Hi. obind. by rewrite Ho.
Qed.
End VfsProofs.

(** ** What file systems promise

    Every operation is defined on strings, open or stale handles and buffers
    that are as long as the caller says, and keeps the invariant of the file
    system's state; a successful open stores the backend's handle. *)
Class FileSystem {C W : Type} (ops : vfs_fs_ops_t C W) (Inv : W -> Prop) := {
  fs_complete : ops_complete ops = true;
  fs_mkdir_total f c p s perm w :
    fs_mkdir ops = Some f -> Inv w -> is_str p s ->
    exists st w', f (Some c) (Some p) perm w = Some (st, w') /\ Inv w';
  fs_open_total f c p s flags b w :
    fs_open ops = Some f -> Inv w -> is_str p s ->
    exists st b' w', f (Some c) (Some p) flags (Some b) w = Some (st, Some b', w') /\ Inv w' /\
      (st = VFS_OK -> 0 <= b');
  fs_close_total f c h w :
    fs_close ops = Some f -> Inv w -> 0 <= h ->
    exists st w', f (Some c) h w = Some (st, w') /\ Inv w';
  fs_read_total f c h b n r w :
    fs_read ops = Some f -> Inv w -> 0 <= h -> 0 <= n <= zlen b ->
    exists st b' r' w', f (Some c) h (Some b) n (Some r) w = Some (st, Some b', Some r', w') /\
      zlen b' = zlen b /\ Inv w';
  fs_write_total f c h b n r w :
    fs_write ops = Some f -> Inv w -> 0 <= h -> 0 <= n <= zlen b -> bytes_ok b ->
    exists st r' w', f (Some c) h (Some b) n (Some r) w = Some (st, Some r', w') /\ Inv w';
  fs_seek_total f c h o w :
    fs_seek ops = Some f -> Inv w -> 0 <= h -> 0 <= o ->
    exists st w', f (Some c) h o w = Some (st, w') /\ Inv w';
  fs_list_total f c p s i e w :
    fs_list ops = Some f -> Inv w -> is_str p s -> zlen (de_name e) = VFS_NAME_MAX + 1 ->
    exists st e' w', f (Some c) (Some p) i (Some e) w = Some (st, Some e', w') /\ Inv w';
}.

(** The calls of the interface, with the caller's buffers. *)
Inductive vfs_call (C : Type) :=
| CallMount (path : list Z) (context : C)
| CallMkdir (path : list Z) (permissions : Z)
| CallOpen (path : list Z) (flags : Z)
| CallClose (handle : Z)
| CallRead (handle : Z) (buffer : list Z) (length : Z)
| CallWrite (handle : Z) (buffer : list Z) (length : Z)
| CallSeek (handle offset : Z)
| CallList (path : list Z) (index : Z) (entry : vfs_dirent_t).
Arguments CallMount {C}. Arguments CallMkdir {C}. Arguments CallOpen {C}. Arguments CallClose {C}.
Arguments CallRead {C}. Arguments CallWrite {C}. Arguments CallSeek {C}. Arguments CallList {C}.

Definition call_ok {C} (c : vfs_call C) : Prop :=
  match c with
  | CallMount p _ | CallMkdir p _ | CallOpen p _ => exists s, is_str p s
  | CallClose h => 0 <= h
  | CallRead h b n => 0 <= h /\ 0 <= n <= zlen b
  | CallWrite h b n => 0 <= h /\ 0 <= n <= zlen b /\ bytes_ok b
  | CallSeek h o => 0 <= h /\ 0 <= o
  | CallList p _ e => (exists s, is_str p s) /\ zlen (de_name e) = VFS_NAME_MAX + 1
  end.

Section VfsHistories.
Context {C W : Type} (ops : vfs_fs_ops_t C W) (Inv : W -> Prop) `{FS : FileSystem C W ops Inv}.
Implicit Types v : vfs_state C W.

(** One call, keeping the resulting state. *)
Definition vfs_exec (c : vfs_call C) (s : vfs_state C W * W) : option (vfs_state C W * W) :=
  let '(v, w) := s in
  match c with
  | CallMount p ctx => r ← vfs_mount v (Some p) (Some ctx) (Some ops); Some (r.2, w)
  | CallMkdir p perm => r ← vfs_mkdir v (Some p) perm w; Some (v, r.2)
  | CallOpen p flags => r ← vfs_open v (Some p) flags (Some 0) w; Some (r.1.2, r.2)
  | CallClose h => r ← vfs_close v h w; Some (r.1.2, r.2)
  | CallRead h b n => r ← vfs_read v h (Some b) n (Some 0) w; Some (v, r.2)
  | CallWrite h b n => r ← vfs_write v h (Some b) n (Some 0) w; Some (v, r.2)
  | CallSeek h o => r ← vfs_seek v h o w; Some (v, r.2)
  | CallList p i e => r ← vfs_list v (Some p) i (Some e) w; Some (v, r.2)
  end.

Fixpoint vfs_run (cs : list (vfs_call C)) (s : vfs_state C W * W) : option (vfs_state C W * W) :=
  match cs with
  | [] => Some s
  | c :: cs => s ← vfs_exec c s; vfs_run cs s
  end.

(** Every mounted file system is one of [ops]. *)
Definition mounts_are v : Prop :=
  Forall (fun m => mount_used m = true -> mount_ops m = Some ops /\ is_Some (mount_context m)) (mounts v).

Definition vfs_inv v : Prop := vfs_ok v /\ mounts_are v.

(** The call changes no open handle but the one it closes. *)
Definition keeps_handles (c : vfs_call C) v v' : Prop :=
  forall h hd, 0 <= h -> get_handle v h = Some (Some hd) -> c <> CallClose h ->
    get_handle v' h = Some (Some hd).

Lemma resolve_ops v p s :
  vfs_inv v -> is_str p s ->
  resolve_mount v p = Some None \/
  exists i q s' c, resolve_mount v p = Some (Some (i, q)) /\ is_str q s' /\
    ops_of v i = Some (Some c, ops) /\ 0 <= i < VFS_MAX_MOUNTS /\
    exists m, rd (mounts v) i = Some m /\ mount_used m = true.
Proof.
  intros [(Hl & Hms & _) Hare] Hp.
  destruct (resolve_mount_spec v p s Hms Hp) as ([[i q] |] & -> & Hr); [right | by left].
  destruct Hr as (m & mp & Hi & (Hu & _) & Hq & _). pose proof (rd_Some_lt _ _ _ Hi).
  pose proof Hi as [_ Hlk]%rd_lookup. destruct (Forall_lookup_1 _ _ _ _ Hare Hlk Hu) as [Ho [ctx Hctx]].
  eexists i, q, _, ctx. split; [done |]. split; [done |].
  unfold ops_of. rewrite Hi. obind. rewrite Ho. obind. rewrite Hctx. split; [done |].
  split; [lia |]. by exists m.
Qed.

Lemma copy_path_spec dst p s :
  is_str p s -> zlen dst = VFS_PATH_MAX + 1 ->
  copy_path dst p = Some None /\ ~ (1 <= zlen s <= VFS_PATH_MAX /\ head s = Some SLASH) \/
  exists d, copy_path dst p = Some (Some d) /\ zlen d = VFS_PATH_MAX + 1 /\ is_str d s /\ head s = Some SLASH.
Proof.
  intros Hp Hd. unfold copy_path, VFS_PATH_MAX in *. rewrite (string_length_spec p s) by done. obind.
  destruct (_ || _) eqn:E.
  { left. split; [done |]. apply orb_true_iff in E as [E | E]; bool_cases; lia. }
  bool_cases. pose proof (zlen_nonneg s). destruct s as [| c s]; [by rewrite zlen_nil in * |].
  rewrite (is_str_rd p (c :: s) 0) by (done || lia). change (rd (c :: s) 0) with (Some c). obind.
  destruct (Z.eqb_spec c 47) as [-> | Hc]; cbn [negb]; [right | left; split; [done |]; intros [_ [= ?]]; done].
  pose proof (zlen_is_str p _ Hp) as Hl.
  rewrite copy_loop_spec, Z2Nat.id by lia. obind. eexists. split; [done |].
  rewrite zlen_blit by (rewrite ?zlen_slice; lia). split; [done |]. split; [| done].
  destruct Hp as (Hs & rest & ->). split; [done |]. generalize dependent (47 :: s). intros t Hs Ht _ _ _.
  exists (drop (Z.to_nat (zlen t + 1)) dst). unfold blit. rewrite take_0. cbn [app].
  rewrite slice_cat, slice_app_l, slice_all, slice_app_r, Z.sub_diag by lia.
  change (slice (0 :: rest) 0 1) with [0]. rewrite <- app_assoc. f_equal. cbn [app]. f_equal. f_equal.
  rewrite length_app. unfold zlen. cbn [length]. lia.
Qed.

Lemma mount_loop_spec ms p s ctx :
  is_str p s -> Forall mount_ok ms ->
  Forall (fun m => mount_used m = true -> mount_ops m = Some ops /\ is_Some (mount_context m)) ms ->
  exists st ms', mount_loop ms p (Some ctx) (Some ops) = Some (st, ms') /\ zlen ms' = zlen ms /\
    Forall mount_ok ms' /\
    Forall (fun m => mount_used m = true -> mount_ops m = Some ops /\ is_Some (mount_context m)) ms' /\
    (forall i m, ms !! i = Some m -> mount_used m = true -> ms' !! i = Some m).
Proof.
  intros Hp. induction ms as [| m ms IH]; intros Hms Hare; cbn [mount_loop].
  { by exists VFS_NO_SPACE, []. }
  apply Forall_cons in Hms as [Hm Hms], Hare as [Ha Hare].
  destruct (mount_used m) eqn:Hu.
  - destruct (IH Hms Hare) as (st & ms' & -> & Hl & Hok & Hr & Hk). obind. cbn [fst snd].
    eexists _, _. split; [done |]. rewrite !zlen_cons, Hl. split; [done |].
    split; [by constructor |]. split; [by constructor; [by intros _; apply Ha |] |]. intros [| i] m'; cbn; [done | apply Hk].
  - destruct (copy_path_spec (mount_path m) p s Hp) as [[-> _] | (d & -> & Hd & Hs & Hh)]; [apply Hm | |]; obind.
    + eexists _, _. split; [done |]. split; [done |]. split; [by constructor |]. split; [by constructor; [intros E; congruence |] |]. done.
    + eexists _, _. split; [done |]. rewrite !zlen_cons. split; [done |]. split.
      { constructor; [| done]. split; [done |]. intros _. split; [by exists s |]. exists ops.
        split; [done | apply fs_complete]. }
      split; [constructor; [| done]; intros _; split; [done | by eexists] |].
      intros [| i] m' Hi Hu'; cbn in *; [congruence | done].
Qed.

Lemma get_handle_spec v h :
  vfs_ok v -> 0 <= h ->
  get_handle v h = Some None \/
  exists hd, get_handle v h = Some (Some hd) /\ rd (handles v) h = Some hd /\ handle_used hd = true /\
    h < VFS_MAX_HANDLES.
Proof.
  intros (_ & _ & Hl & _) Hh. unfold get_handle. destruct (Z.leb_spec VFS_MAX_HANDLES h); [by left |].
  destruct (rd_in_range (handles v) h) as [hd ->]; [lia |]. obind.
  destruct (handle_used hd) eqn:Hu; [right | by left]. by exists hd.
Qed.

Lemma handle_ops v hd h :
  vfs_inv v -> rd (handles v) h = Some hd -> handle_used hd = true ->
  0 <= backend_handle hd /\ exists c, ops_of v (mount_index hd) = Some (Some c, ops).
Proof.
  intros [(_ & Hms & _ & Hhs) Hare] Hr Hu. apply rd_lookup in Hr as [_ Hr].
  destruct (Forall_lookup_1 _ _ _ _ Hhs Hr Hu) as (Hb & m & Hm & Hmu).
  split; [done |]. pose proof Hm as [_ Hlk]%rd_lookup. destruct (Forall_lookup_1 _ _ _ _ Hare Hlk Hmu) as [Ho [c Hc]].
  exists c. unfold ops_of. rewrite Hm. obind. rewrite Ho. obind. by rewrite Hc.
Qed.

Lemma set_handle_inv v h hd hs :
  vfs_inv v -> wr (handles v) h hd = Some hs -> handle_ok v hd -> vfs_inv (set_handles v hs).
Proof.
  intros [(Hl & Hms & Hlh & Hhs) Hare] Hw Hhd. split; [| done]. split; [done |]. split; [done |]. cbn.
  split; [by rewrite (zlen_wr _ _ _ _ Hw) |]. apply wr_Some in Hw as [_ ->].
  by apply Forall_insert.
Qed.

(** The handle table after an update at [h]. *)
Lemma get_handle_set v h hd hs h' :
  vfs_ok v -> wr (handles v) h hd = Some hs -> h <> h' ->
  get_handle (set_handles v hs) h' = get_handle v h'.
Proof. intros Hv Hw Hne. unfold get_handle. cbn. by rewrite (rd_wr_ne _ _ _ _ _ Hw Hne). Qed.

Lemma ops_complete_Some :
  exists a b c d e f g, fs_mkdir ops = Some a /\ fs_open ops = Some b /\ fs_close ops = Some c /\
    fs_read ops = Some d /\ fs_write ops = Some e /\ fs_seek ops = Some f /\ fs_list ops = Some g.
Proof.
  pose proof fs_complete as Hc. unfold ops_complete in Hc. rewrite !andb_true_iff, !bool_decide_eq_true in Hc.
  destruct Hc as [[[[[[[b Hb] [c Hcl]] [d Hd]] [e He]] [f Hf]] [a Ha]] [g Hg]].
  by exists a, b, c, d, e, f, g.
Qed.

(** What one call does to the tables and to the file systems. *)
Definition call_safe (c : vfs_call C) v (w : W) : Prop :=
  exists v' w', vfs_exec c (v, w) = Some (v', w') /\ vfs_inv v' /\ Inv w' /\ keeps_handles c v v'.

Lemma keeps_same c v v' : handles v' = handles v -> keeps_handles c v v'.
Proof. intros E h hd _ Hg _. unfold get_handle in *. by rewrite E. Qed.

Lemma same_tables_safe c v w w' :
  vfs_exec c (v, w) = Some (v, w') -> vfs_inv v -> Inv w' -> call_safe c v w.
Proof. intros E Hv Hw. exists v, w'. split; [done |]. split; [done |]. split; [done |]. by apply keeps_same. Qed.

Lemma exec_mount_safe p ctx v w :
  vfs_inv v -> Inv w -> (exists s, is_str p s) -> call_safe (CallMount p ctx) v w.
Proof.
  intros Hv Hw [s Hp]. pose proof Hv as [(Hl & Hms & Hlh & Hhs) Hare].
  unfold call_safe, vfs_exec, vfs_mount. rewrite fs_complete. cbn [negb].
  destruct (mount_loop_spec (mounts v) p s ctx Hp Hms Hare) as (st & ms' & -> & Hl' & Hms' & Hare' & Hk).
  obind. eexists _, _. split; [done |]. split; [| split; [done | by apply keeps_same]].
  split; [| done]. split; [cbn; lia |]. split; [done |]. split; [done |].
  eapply Forall_impl; [exact Hhs |]. intros hd Hhd Hu. destruct (Hhd Hu) as (Hb & m & Hm & Hmu).
  split; [done |]. exists m. split; [| done]. apply rd_lookup in Hm as [? Hm]. apply rd_lookup. split; [done |]. by apply Hk.
Qed.

Lemma exec_open_safe p flags v w :
  vfs_inv v -> Inv w -> (exists s, is_str p s) -> call_safe (CallOpen p flags) v w.
Proof.
  intros Hv Hw [s Hp]. unfold call_safe, vfs_exec, vfs_open.
  assert (keeps_handles (CallOpen p flags) v v) as Hk0 by (by apply keeps_same).
  destruct (_ =? 0); [by eexists _, _ |].
  destruct (resolve_ops v p s Hv Hp) as [-> | (i & q & s' & c & -> & Hq & Ho & Hi & Hm)];
    obind; [by eexists _, _ |].
  destruct (free_handle_spec (handles v) 0) as [[-> _] | (hd & Hr & Hu & Hlt)]; [by eexists _, _ |].
  pose proof Hv as [(_ & _ & Hlh & _) _]. rewrite (proj2 (Z.eqb_neq (free_handle _ _) _)) by lia.
  rewrite Ho. obind. destruct ops_complete_Some as (_ & open & _ & _ & _ & _ & _ & _ & Eo & _).
  cbn [fst snd]. rewrite Eo. obind.
  destruct (fs_open_total open c q s' flags 0 w Eo Hw Hq) as (st & b & w' & -> & Hw' & Hb). obind.
  case_bool_decide; [by eexists _, _ |].
  assert (st = VFS_OK) as -> by (by destruct (decide (st = VFS_OK))).
  set (slot := free_handle (handles v) 0) in *.
  destruct (wr (handles v) slot (mk_handle true i b)) as [hs |] eqn:Ew; [| rewrite wr_in_range in Ew by lia; done].
  obind. eexists _, _. split; [done |]. split; [eapply set_handle_inv; [done | exact Ew | intros _; split; [by apply Hb | done]] |].
  split; [done |]. intros h hd' Hh Hg _. cbn [fst snd]. rewrite (get_handle_set v slot (mk_handle true i b) hs h); [done | apply Hv | done |].
  intros <-. unfold get_handle in Hg. rewrite (proj2 (Z.leb_gt _ _)) in Hg by lia.
  rewrite Z.sub_0_r in Hr. rewrite Hr in Hg. cbn in Hg. by rewrite Hu in Hg.
Qed.

Lemma exec_close_safe h v w : vfs_inv v -> Inv w -> 0 <= h -> call_safe (CallClose h) v w.
Proof.
  intros Hv Hw Hh. unfold call_safe, vfs_exec, vfs_close.
  destruct (get_handle_spec v h) as [-> | (hd & -> & Hr & Hu & Hlt)]; [apply Hv | done | |]; obind.
  { eexists _, _. split; [done |]. split; [done |]. split; [done | by apply keeps_same]. }
  destruct (handle_ops v hd h Hv Hr Hu) as (Hb & c & ->). obind.
  destruct ops_complete_Some as (_ & _ & close & _ & _ & _ & _ & _ & _ & Ec & _). cbn [fst snd]. rewrite Ec. obind.
  destruct (fs_close_total close c (backend_handle hd) w Ec Hw Hb) as (st & w' & -> & Hw'). obind.
  destruct (wr (handles v) h _) as [hs |] eqn:Ew; [| rewrite wr_in_range in Ew; [done | by eapply rd_Some_lt]].
  obind. eexists _, _. split; [done |]. split; [eapply set_handle_inv; [done | exact Ew | done] |].
  split; [done |]. intros h' hd' Hh' Hg Hne. cbn [fst snd].
  erewrite (get_handle_set v h _ hs h'); [done | apply Hv | exact Ew | congruence].
Qed.

(** The calls that go straight to a file system leave the tables alone. *)
Lemma exec_path_safe c v w :
  match c with CallMkdir _ _ | CallList _ _ _ => True | _ => False end ->
  vfs_inv v -> Inv w -> call_ok c -> call_safe c v w.
Proof.
  intros Hc Hv Hw Hok.
  destruct ops_complete_Some as (mk & _ & _ & _ & _ & _ & li & Emk & _ & _ & _ & _ & _ & Eli).
  destruct c as [| p perm | | | | | | p i e]; try done; cbn [call_ok] in Hok.
  - destruct Hok as [s Hp].
    destruct (resolve_ops v p s Hv Hp) as [Er | (i & q & s' & c & Er & Hq & Ho & _)].
    + apply (same_tables_safe _ v w w); [| done..]. cbn. unfold vfs_mkdir. by rewrite Er.
    + destruct (fs_mkdir_total mk c q s' perm w Emk Hw Hq) as (st & w' & E & Hw').
      apply (same_tables_safe _ v w w'); [| done..]. cbn. unfold vfs_mkdir. rewrite Er. obind.
      rewrite Ho. obind. cbn [fst snd]. rewrite Emk. obind. by rewrite E.
  - destruct Hok as [[s Hp] He].
    destruct (resolve_ops v p s Hv Hp) as [Er | (j & q & s' & c & Er & Hq & Ho & _)].
    + apply (same_tables_safe _ v w w); [| done..]. cbn. unfold vfs_list. by rewrite Er.
    + destruct (fs_list_total li c q s' i e w Eli Hw Hq He) as (st & e' & w' & E & Hw').
      apply (same_tables_safe _ v w w'); [| done..]. cbn. unfold vfs_list. rewrite Er. obind.
      rewrite Ho. obind. cbn [fst snd]. rewrite Eli. obind. by rewrite E.
Qed.

Lemma exec_handle_safe c v w :
  match c with CallRead _ _ _ | CallWrite _ _ _ | CallSeek _ _ => True | _ => False end ->
  vfs_inv v -> Inv w -> call_ok c -> call_safe c v w.
Proof.
  intros Hc Hv Hw Hok.
  destruct ops_complete_Some as (_ & _ & _ & re & wri & se & _ & _ & _ & _ & Ere & Ewr & Ese & _).
  destruct c as [| | | | h b n | h b n | h o |]; try done; cbn [call_ok] in Hok.
  all: destruct Hok as [Hh Hok].
  all: destruct (get_handle_spec v h (proj1 Hv) Hh) as [Eg | (hd & Eg & Hr & Hu & _)].
  all: try (apply (same_tables_safe _ v w w); [| done..];
            cbn; unfold vfs_read, vfs_write, vfs_seek; by rewrite Eg).
  all: destruct (handle_ops v hd h Hv Hr Hu) as (Hb & c & Ho).
  - destruct (fs_read_total re c _ b n 0 w Ere Hw Hb Hok) as (st & b' & r' & w' & E & _ & Hw').
    apply (same_tables_safe _ v w w'); [| done..]. cbn. unfold vfs_read. rewrite Eg. obind.
    rewrite Ho. obind. cbn [fst snd]. rewrite Ere. obind. by rewrite E.
  - destruct Hok as [Hn Hby].
    destruct (fs_write_total wri c _ b n 0 w Ewr Hw Hb Hn Hby) as (st & r' & w' & E & Hw').
    apply (same_tables_safe _ v w w'); [| done..]. cbn. unfold vfs_write. rewrite Eg. obind.
    rewrite Ho. obind. cbn [fst snd]. rewrite Ewr. obind. by rewrite E.
  - destruct (fs_seek_total se c _ o w Ese Hw Hb Hok) as (st & w' & E & Hw').
    apply (same_tables_safe _ v w w'); [| done..]. cbn. unfold vfs_seek. rewrite Eg. obind.
    rewrite Ho. obind. cbn [fst snd]. rewrite Ese. obind. by rewrite E.
Qed.

Lemma exec_safe c v w : vfs_inv v -> Inv w -> call_ok c -> call_safe c v w.
Proof.
  intros Hv Hw Hok. destruct c.
  - by apply exec_mount_safe.
  - by apply exec_path_safe.
  - by apply exec_open_safe.
  - by apply exec_close_safe.
  - by apply exec_handle_safe.
  - by apply exec_handle_safe.
  - by apply exec_handle_safe.
  - by apply exec_path_safe.
Qed.

(** C12. Histories of the virtual file system.  Against any file system that
    keeps its promises, every sequence of calls is defined, with stale, closed
    and out-of-range handles and paths no mount covers included; it keeps the
    mount and handle tables well formed and the file systems' invariant; and a
    handle that is open stays bound to its mount and backend handle until it
    is closed. *)
Theorem vfs_histories_safe cs v w :
  vfs_inv v -> Inv w -> Forall call_ok cs ->
  exists v' w', vfs_run cs (v, w) = Some (v', w') /\ vfs_ok v' /\ Inv w' /\
    forall h hd, 0 <= h -> get_handle v h = Some (Some hd) -> CallClose h ∉ cs ->
      get_handle v' h = Some (Some hd).
Proof.
  revert v w. induction cs as [| c cs IH]; intros v w Hv Hw Hcs; cbn [vfs_run].
  { exists v, w. split; [done |]. split; [apply Hv | by split]. }
  apply Forall_cons in Hcs as [Hc Hcs].
  destruct (exec_safe c v w Hv Hw Hc) as (v1 & w1 & -> & Hv1 & Hw1 & Hk). obind.
  destruct (IH v1 w1 Hv1 Hw1 Hcs) as (v2 & w2 & -> & Hv2 & Hw2 & Hk2).
  exists v2, w2. split_and!; try done. intros h hd Hh Hg Hn. apply not_elem_of_cons in Hn as [Hn1 Hn2].
  apply Hk2; [done | | done]. apply Hk; [done.. |]. congruence.
Qed.
End VfsHistories.

(** Initialisation empties both tables, whatever they held. *)
Lemma vfs_init_inv {C W} (ops : vfs_fs_ops_t C W) (v : vfs_state C W) :
  zlen (mounts v) = VFS_MAX_MOUNTS -> zlen (handles v) = VFS_MAX_HANDLES ->
  Forall (fun m => zlen (mount_path m) = VFS_PATH_MAX + 1) (mounts v) ->
  vfs_inv ops (vfs_init v).
Proof.
  intros Hm Hh Hp. unfold vfs_inv, vfs_ok, mounts_are, vfs_init, zlen in *. cbn. rewrite !length_fmap.
  split_and!; try done; apply Forall_fmap.
  - eapply Forall_impl; [exact Hp |]. by intros m Hl.
  - apply Forall_true. by intros h.
  - apply Forall_true. by intros m.
Qed.
