(* ===== verification/Tmpfs.v ===== *)
(** * In-memory file system (kernel/src/tmpfs.c, tmpfs.h)

    A fixed table of nodes and of open files.  Node 0 is the root directory;
    every other node in use names its parent.  Files hold up to 2048 bytes. *)

From stdpp Require Import base numbers list strings.
From Stdlib Require Import ZArith Lia.
From S2P Require Import Prelude Bytes Vfs.

#[local] Open Scope Z_scope.

Definition TMPFS_MAX_NODES : Z := 32.
Definition TMPFS_MAX_OPEN : Z := 16.
Definition TMPFS_FILE_CAPACITY : Z := 2048.

Record tmpfs_node_t := mk_node {
  node_used : bool;
  parent : Z;
  node_type : vfs_node_type_t;
  permissions : Z;
  node_size : Z;
  node_name : list Z;
  node_data : list Z;
}.

Record tmpfs_open_t := mk_open {
  open_used : bool;
  open_node : Z;
  open_flags : Z;
  open_offset : Z;
}.

Record tmpfs_t := mk_tmpfs { nodes : list tmpfs_node_t; opens : list tmpfs_open_t }.

Definition set_nodes (fs : tmpfs_t) ns : tmpfs_t := mk_tmpfs ns (opens fs).
Definition set_opens (fs : tmpfs_t) os : tmpfs_t := mk_tmpfs (nodes fs) os.
Definition set_used (n : tmpfs_node_t) u : tmpfs_node_t :=
  mk_node u (parent n) (node_type n) (permissions n) (node_size n) (node_name n) (node_data n).
Definition set_size (n : tmpfs_node_t) s : tmpfs_node_t :=
  mk_node (node_used n) (parent n) (node_type n) (permissions n) s (node_name n) (node_data n).
Definition set_permissions (n : tmpfs_node_t) p : tmpfs_node_t :=
  mk_node (node_used n) (parent n) (node_type n) p (node_size n) (node_name n) (node_data n).
Definition set_data (n : tmpfs_node_t) d : tmpfs_node_t :=
  mk_node (node_used n) (parent n) (node_type n) (permissions n) (node_size n) (node_name n) d.

(** A node cleared by [zero_bytes], and a zeroed open file. *)
Definition zero_name : list Z := replicate (Z.to_nat (VFS_NAME_MAX + 1)) 0.
Definition zero_node : tmpfs_node_t :=
  mk_node false 0 VFS_NODE_NONE 0 0 zero_name (replicate (Z.to_nat TMPFS_FILE_CAPACITY) 0).
Definition zero_open : tmpfs_open_t := mk_open false 0 0 0.

(** The loop of [name_equal] over [n] characters from [i]; [b] is the name in
    the path from its first character on. *)
Fixpoint equal_loop (n : nat) (a b : list Z) (i : Z) : option bool :=
  match n with
  | O => Some true
  | S n =>
      x ← rd a i;
      y ← rd b i;
      if negb (x =? y) then Some false else equal_loop n a b (i + 1)
  end.

Definition name_equal (a b : list Z) (length : Z) : option bool :=
  same ← equal_loop (Z.to_nat length) a b 0;
  if negb same then Some false else c ← rd a length; Some (c =? 0).

(** [None] is the result 0. *)
Definition copy_name (destination : list Z) (source : option (list Z)) (length : Z) :
    option (option (list Z)) :=
  match source with
  | None => Some None
  | Some source =>
      if (length =? 0) || (VFS_NAME_MAX <? length) then Some None
      else
        destination ← copy_loop (Z.to_nat length) destination 0 source 0;
        destination ← wr destination length 0;
        Some (Some destination)
  end.

(** The loop of [child_named] from node [i]; the result is -1 for none. *)
Fixpoint child_loop (ns : list tmpfs_node_t) (i dir : Z) (name : list Z) (length : Z) : option Z :=
  match ns with
  | [] => Some (-1)
  | n :: ns =>
      if node_used n && (parent n =? dir) then
        same ← name_equal (node_name n) name length;
        if (same : bool) then Some i else child_loop ns (i + 1) dir name length
      else child_loop ns (i + 1) dir name length
  end.

Definition child_named (fs : tmpfs_t) (dir : Z) (name : list Z) (length : Z) : option Z :=
  child_loop (drop 1 (nodes fs)) 1 dir name length.

(** [while (path[pos] && path[pos] != '/') pos++]: the characters of [path] up
    to the first slash or the end. *)
Fixpoint component_length (path : list Z) : option Z :=
  match path with
  | [] => None
  | c :: path => if (c =? 0) || (c =? SLASH) then Some 0 else n ← component_length path; Some (1 + n)
  end.

(** The loop of [resolve_node] with [current], at the rest [path] of the path.
    Every iteration consumes at least one character, so the length of the
    array is enough fuel. *)
Fixpoint resolve_node_loop (fuel : nat) (fs : tmpfs_t) (path : list Z) (current : Z) : option Z :=
  match fuel with
  | O => None
  | S fuel =>
      c ← rd path 0;
      if c =? 0 then Some current
      else
        length ← component_length path;
        if (length =? 0) || (VFS_NAME_MAX <? length) then Some (-1)
        else
          child ← child_named fs current path length;
          if child <? 0 then Some (-1)
          else
            let current := u16 child in
            path ← padd path length;
            c ← rd path 0;
            if c =? SLASH then
              n ← rd (nodes fs) current;
              if bool_decide (node_type n <> VFS_NODE_DIRECTORY) then Some (-1)
              else
                path ← padd path 1;
                c ← rd path 0;
                if c =? 0 then Some (-1) else resolve_node_loop fuel fs path current
            else resolve_node_loop fuel fs path current
  end.

Definition resolve_node (fs : option tmpfs_t) (path : option (list Z)) : option Z :=
  match fs, path with
  | Some fs, Some path =>
      c ← rd path 0;
      if negb (c =? SLASH) then Some (-1)
      else
        c ← rd path 1;
        if c =? 0 then Some 0
        else
          path ← padd path 1;
          resolve_node_loop (length path) fs path 0
  | _, _ => Some (-1)
  end.

(** [while (slash > 0 && path[slash] != '/') slash--] *)
Fixpoint slash_loop (slash : nat) (path : list Z) : option Z :=
  match slash with
  | O => Some 0
  | S s =>
      c ← rd path (Z.of_nat slash);
      if c =? SLASH then Some (Z.of_nat slash) else slash_loop s path
  end.

(** The parent, the name and its length; [None] in the result is 0. *)
Definition resolve_parent (fs : option tmpfs_t) (path : option (list Z)) :
    option (option (Z * list Z * Z)) :=
  match fs, path with
  | Some fs, Some path =>
      root ← is_root path;
      c ← rd path 0;
      if negb (c =? SLASH) || root then Some None
      else
        length ← string_length (Some path);
        if length <? 2 then Some None
        else
          c ← rd path (length - 1);
          if c =? SLASH then Some None
          else
            slash ← slash_loop (Z.to_nat (length - 1)) path;
            let name_length := length - slash - 1 in
            if (name_length =? 0) || (VFS_NAME_MAX <? name_length) then Some None
            else
              dir ← (if slash =? 0 then Some (Some 0)
                     else if VFS_PATH_MAX <? slash then Some None
                     else
                       parent_path ← copy_loop (Z.to_nat slash)
                         (replicate (Z.to_nat (VFS_PATH_MAX + 1)) 0) 0 path 0;
                       parent_path ← wr parent_path slash 0;
                       dir ← resolve_node (Some fs) (Some parent_path);
                       if dir <? 0 then Some None
                       else
                         n ← rd (nodes fs) dir;
                         if bool_decide (node_type n <> VFS_NODE_DIRECTORY) then Some None
                         else Some (Some (u16 dir)));
              match dir with
              | None => Some None
              | Some dir => name ← padd path (slash + 1); Some (Some (dir, name, name_length))
              end
  | _, _ => Some None
  end.

(** The first unused node from [i]; -1 for none. *)
Fixpoint free_node (ns : list tmpfs_node_t) (i : Z) : Z :=
  match ns with
  | [] => -1
  | n :: ns => if node_used n then free_node ns (i + 1) else i
  end.

Definition allocate_node (fs : tmpfs_t) : Z := free_node (drop 1 (nodes fs)) 1.

Definition create_node (fs : tmpfs_t) (path : option (list Z)) (type : vfs_node_type_t) (perm : Z) :
    option (vfs_status_t * Z * tmpfs_t) :=
  r ← resolve_parent (Some fs) path;
  match r with
  | None => Some (VFS_BAD_ARGUMENT, -1, fs)
  | Some (dir, name, length) =>
      child ← child_named fs dir name length;
      if 0 <=? child then Some (VFS_EXISTS, -1, fs)
      else
        let slot := allocate_node fs in
        if slot <? 0 then Some (VFS_NO_SPACE, -1, fs)
        else
          copy ← copy_name zero_name (Some name) length;
          let node := mk_node true dir type (Z.land perm (Z.lor VFS_PERM_READ VFS_PERM_WRITE)) 0
                        zero_name (node_data zero_node) in
          match copy with
          | None =>
              ns ← wr (nodes fs) slot (set_used node false);
              Some (VFS_BAD_ARGUMENT, -1, set_nodes fs ns)
          | Some nm =>
              ns ← wr (nodes fs) slot
                (mk_node true dir type (permissions node) 0 nm (node_data node));
              Some (VFS_OK, slot, set_nodes fs ns)
          end
  end.

Definition op_mkdir (fs : option tmpfs_t) (path : option (list Z)) (perm : Z) :
    option (vfs_status_t * option tmpfs_t) :=
  match fs, path with
  | Some fs, Some _ =>
      r ← create_node fs path VFS_NODE_DIRECTORY perm;
      let '(status, _, fs) := r in
      Some (status, Some fs)
  | _, _ => Some (VFS_BAD_ARGUMENT, fs)
  end.

(** The first unused open file from [i], or [TMPFS_MAX_OPEN]. *)
Fixpoint free_open (os : list tmpfs_open_t) (i : Z) : Z :=
  match os with
  | [] => TMPFS_MAX_OPEN
  | o :: os => if open_used o then free_open os (i + 1) else i
  end.

(** The part of [op_open] after the node has been found. *)
Definition open_node_at (fs : tmpfs_t) (node_index flags : Z) (handle_out : Z) :
    option (vfs_status_t * Z * tmpfs_t) :=
  node ← rd (nodes fs) node_index;
  if bool_decide (node_type node <> VFS_NODE_FILE) then Some (VFS_IS_DIRECTORY, handle_out, fs)
  else if bit_set flags VFS_OPEN_READ && negb (bit_set (permissions node) VFS_PERM_READ)
  then Some (VFS_PERMISSION, handle_out, fs)
  else if bit_set flags VFS_OPEN_WRITE && negb (bit_set (permissions node) VFS_PERM_WRITE)
  then Some (VFS_PERMISSION, handle_out, fs)
  else
    let slot := free_open (opens fs) 0 in
    if slot =? TMPFS_MAX_OPEN then Some (VFS_NO_SPACE, handle_out, fs)
    else
      let node := if bit_set flags VFS_OPEN_TRUNC && bit_set flags VFS_OPEN_WRITE
                  then set_size node 0 else node in
      ns ← wr (nodes fs) node_index node;
      os ← wr (opens fs) slot (mk_open true (u16 node_index) flags 0);
      Some (VFS_OK, slot, mk_tmpfs ns os).

Definition op_open (fs : option tmpfs_t) (path : option (list Z)) (flags : Z)
    (handle_out : option Z) : option (vfs_status_t * option Z * option tmpfs_t) :=
  match fs, path, handle_out with
  | Some f, Some _, Some out =>
      node_index ← resolve_node fs path;
      r ← (if (node_index <? 0) && bit_set flags VFS_OPEN_CREATE
           then create_node f path VFS_NODE_FILE (Z.lor VFS_PERM_READ VFS_PERM_WRITE)
           else Some (VFS_OK, node_index, f));
      let '(status, node_index, f) := r in
      if bool_decide (status <> VFS_OK) then Some (status, handle_out, Some f)
      else if node_index <? 0 then Some (VFS_NOT_FOUND, handle_out, Some f)
      else
        r ← open_node_at f node_index flags out;
        let '(status, out, f) := r in
        Some (status, Some out, Some f)
  | _, _, _ => Some (VFS_BAD_ARGUMENT, handle_out, fs)
  end.

(** [handle >= TMPFS_MAX_OPEN || !fs->open[handle].used], then the open file. *)
Definition get_open (fs : tmpfs_t) (handle : Z) : option (option tmpfs_open_t) :=
  if TMPFS_MAX_OPEN <=? handle then Some None
  else o ← rd (opens fs) handle; Some (if open_used o then Some o else None).

Definition op_close (fs : option tmpfs_t) (handle : Z) : option (vfs_status_t * option tmpfs_t) :=
  match fs with
  | None => Some (VFS_BAD_HANDLE, fs)
  | Some f =>
      o ← get_open f handle;
      match o with
      | None => Some (VFS_BAD_HANDLE, fs)
      | Some o =>
          os ← wr (opens f) handle (mk_open false (open_node o) (open_flags o) (open_offset o));
          Some (VFS_OK, Some (set_opens f os))
      end
  end.

Definition op_read (fs : option tmpfs_t) (handle : Z) (buffer : option (list Z)) (length : Z)
    (read_out : option Z) : option (vfs_status_t * option (list Z) * option Z * option tmpfs_t) :=
  match fs, buffer, read_out with
  | Some f, Some b, Some _ =>
      o ← get_open f handle;
      match o with
      | None => Some (VFS_BAD_HANDLE, buffer, read_out, fs)
      | Some o =>
          if negb (bit_set (open_flags o) VFS_OPEN_READ)
          then Some (VFS_PERMISSION, buffer, read_out, fs)
          else
            node ← rd (nodes f) (open_node o);
            if node_size node <=? open_offset o then Some (VFS_OK, buffer, Some 0, fs)
            else
              let available := u64 (node_size node - open_offset o) in
              let take := if length <? available then length else available in
              b ← copy_loop (Z.to_nat take) b 0 (node_data node) (open_offset o);
              os ← wr (opens f) handle
                (mk_open true (open_node o) (open_flags o) (u64 (open_offset o + take)));
              Some (VFS_OK, Some b, Some take, Some (set_opens f os))
      end
  | _, _, _ => Some (VFS_BAD_HANDLE, buffer, read_out, fs)
  end.

Definition op_write (fs : option tmpfs_t) (handle : Z) (buffer : option (list Z)) (length : Z)
    (written_out : option Z) : option (vfs_status_t * option Z * option tmpfs_t) :=
  match fs, written_out with
  | Some f, Some _ =>
      if bool_decide (buffer = None) && negb (length =? 0) then Some (VFS_BAD_HANDLE, written_out, fs)
      else
        o ← get_open f handle;
        match o with
        | None => Some (VFS_BAD_HANDLE, written_out, fs)
        | Some o =>
            if negb (bit_set (open_flags o) VFS_OPEN_WRITE)
            then Some (VFS_PERMISSION, written_out, fs)
            else
              node ← rd (nodes f) (open_node o);
              if (TMPFS_FILE_CAPACITY <? open_offset o)
                 || (u64 (TMPFS_FILE_CAPACITY - open_offset o) <? length)
              then Some (VFS_NO_SPACE, written_out, fs)
              else
                data ← copy_loop (Z.to_nat length) (node_data node) (open_offset o)
                         (default [] buffer) 0;
                let offset := u64 (open_offset o + length) in
                let size := if node_size node <? offset then u32 offset else node_size node in
                ns ← wr (nodes f) (open_node o) (set_size (set_data node data) size);
                os ← wr (opens f) handle (mk_open true (open_node o) (open_flags o) offset);
                Some (VFS_OK, Some length, Some (mk_tmpfs ns os))
        end
  | _, _ => Some (VFS_BAD_HANDLE, written_out, fs)
  end.

Definition op_seek (fs : option tmpfs_t) (handle offset : Z) :
    option (vfs_status_t * option tmpfs_t) :=
  match fs with
  | None => Some (VFS_BAD_HANDLE, fs)
  | Some f =>
      o ← get_open f handle;
      match o with
      | None => Some (VFS_BAD_HANDLE, fs)
      | Some o =>
          if TMPFS_FILE_CAPACITY <? offset then Some (VFS_BAD_ARGUMENT, fs)
          else
            os ← wr (opens f) handle (mk_open true (open_node o) (open_flags o) offset);
            Some (VFS_OK, Some (set_opens f os))
      end
  end.

(** The search of [op_list] from node [i], having [seen] children before it. *)
Fixpoint list_loop (ns : list tmpfs_node_t) (dir seen index : Z) (entry_out : vfs_dirent_t) :
    option (vfs_status_t * vfs_dirent_t) :=
  match ns with
  | [] => Some (VFS_NOT_FOUND, entry_out)
  | n :: ns =>
      if negb (node_used n) || negb (parent n =? dir) then list_loop ns dir seen index entry_out
      else if negb (seen =? index) then list_loop ns dir (u32 (seen + 1)) index entry_out
      else
        length ← string_length (Some (node_name n));
        name ← copy_loop (Z.to_nat (length + 1)) zero_name 0 (node_name n) 0;
        Some (VFS_OK, mk_dirent name (node_type n) (permissions n) (node_size n))
  end.

Definition op_list (fs : option tmpfs_t) (path : option (list Z)) (index : Z)
    (entry_out : option vfs_dirent_t) :
    option (vfs_status_t * option vfs_dirent_t * option tmpfs_t) :=
  match fs, path, entry_out with
  | Some f, Some _, Some e =>
      dir ← resolve_node fs path;
      if dir <? 0 then Some (VFS_NOT_FOUND, entry_out, fs)
      else
        n ← rd (nodes f) dir;
        if bool_decide (node_type n <> VFS_NODE_DIRECTORY)
        then Some (VFS_NOT_DIRECTORY, entry_out, fs)
        else
          r ← list_loop (drop 1 (nodes f)) (u16 dir) 0 index e;
          Some (r.1, Some r.2, fs)
  | _, _, _ => Some (VFS_BAD_ARGUMENT, entry_out, fs)
  end.

(** [None] is a null pointer. *)
Definition tmpfs_init (filesystem : option tmpfs_t) : option tmpfs_t :=
  match filesystem with
  | None => None
  | Some _ =>
      Some (mk_tmpfs
        (mk_node true 0 VFS_NODE_DIRECTORY (Z.lor VFS_PERM_READ VFS_PERM_WRITE) 0 zero_name
           (node_data zero_node) :: replicate (Z.to_nat (TMPFS_MAX_NODES - 1)) zero_node)
        (replicate (Z.to_nat TMPFS_MAX_OPEN) zero_open))
  end.

Definition tmpfs_set_permissions (filesystem : option tmpfs_t) (path : option (list Z)) (perm : Z) :
    option (vfs_status_t * option tmpfs_t) :=
  match filesystem, path with
  | Some f, Some _ =>
      node ← resolve_node filesystem path;
      if node <? 0 then Some (VFS_NOT_FOUND, filesystem)
      else
        n ← rd (nodes f) node;
        ns ← wr (nodes f) node (set_permissions n (Z.land perm (Z.lor VFS_PERM_READ VFS_PERM_WRITE)));
        Some (VFS_OK, Some (set_nodes f ns))
  | _, _ => Some (VFS_BAD_ARGUMENT, filesystem)
  end.

#[global] Arguments op_mkdir : simpl never.
#[global] Arguments op_open : simpl never.
#[global] Arguments op_close : simpl never.
#[global] Arguments op_read : simpl never.
#[global] Arguments op_write : simpl never.
#[global] Arguments op_seek : simpl never.
#[global] Arguments op_list : simpl never.

(** The table of operations.  The context pointers select a file system of the
    state [W]. *)
Section Operations.
Context {C W : Type} (get : C -> W -> tmpfs_t) (set : C -> tmpfs_t -> W -> W).

Definition load (context : option C) (w : W) : option tmpfs_t := (fun c => get c w) <$> context.
Definition store (context : option C) (fs : option tmpfs_t) (w : W) : W :=
  match context, fs with Some c, Some f => set c f w | _, _ => w end.

Definition operations : vfs_fs_ops_t C W :=
  mk_ops
    (Some (fun c p perm w => r ← op_mkdir (load c w) p perm; Some (r.1, store c r.2 w)))
    (Some (fun c p flags out w =>
       r ← op_open (load c w) p flags out; Some (r.1.1, r.1.2, store c r.2 w)))
    (Some (fun c h w => r ← op_close (load c w) h; Some (r.1, store c r.2 w)))
    (Some (fun c h b n out w =>
       r ← op_read (load c w) h b n out; Some (r.1.1.1, r.1.1.2, r.1.2, store c r.2 w)))
    (Some (fun c h b n out w =>
       r ← op_write (load c w) h b n out; Some (r.1.1, r.1.2, store c r.2 w)))
    (Some (fun c h o w => r ← op_seek (load c w) h o; Some (r.1, store c r.2 w)))
    (Some (fun c p i e w => r ← op_list (load c w) p i e; Some (r.1.1, r.1.2, store c r.2 w))).

Definition tmpfs_ops : option (vfs_fs_ops_t C W) := Some operations.
End Operations.

(** ** Paths *)

(** The components of a path between its slashes. *)
Fixpoint split (s : list Z) : list (list Z) :=
  match s with
  | [] => [[]]
  | c :: s =>
      if c =? SLASH then [] :: split s
      else match split s with a :: r => (c :: a) :: r | [] => [[c]] end
  end.

Definition no_slash (s : list Z) : Prop := SLASH ∉ s.

(** Node [i] is the child [c] of the directory [dir]. *)
Definition is_child (ns : list tmpfs_node_t) (dir : Z) (c : list Z) (i : Z) : Prop :=
  1 <= i /\ exists n, rd ns i = Some n /\ node_used n = true /\ parent n = dir /\ is_str (node_name n) c.

Definition is_dir (ns : list tmpfs_node_t) (i : Z) : Prop :=
  exists n, rd ns i = Some n /\ node_used n = true /\ node_type n = VFS_NODE_DIRECTORY.

(** Walking the components from [dir] reaches [j]; every node that is not the
    last is a directory. *)
Inductive walks (ns : list tmpfs_node_t) : Z -> list (list Z) -> Z -> Prop :=
| walks_nil dir : walks ns dir [] dir
| walks_cons dir c cs i j :
    is_child ns dir c i -> (cs <> [] -> is_dir ns i) -> walks ns i cs j -> walks ns dir (c :: cs) j.

(** The absolute path [s] names the node [j]. *)
Definition names (ns : list tmpfs_node_t) (s : list Z) (j : Z) : Prop :=
  exists t, s = SLASH :: t /\ (t = [] /\ j = 0 \/ t <> [] /\ walks ns 0 (split t) j).

Lemma split_no_slash a : no_slash a -> split a = [a].
Proof.
  induction a as [| c a IH]; intros Ha; [done |]. apply not_elem_of_cons in Ha as [Hc Ha].
  cbn [split]. rewrite (proj2 (Z.eqb_neq c 47)) by done. by rewrite (IH Ha).
Qed.

Lemma split_slash a t : no_slash a -> split (a ++ SLASH :: t) = a :: split t.
Proof.
  induction a as [| c a IH]; intros Ha; [done |]. apply not_elem_of_cons in Ha as [Hc Ha].
  cbn [split app]. rewrite (proj2 (Z.eqb_neq c 47)) by done. by rewrite (IH Ha).
Qed.

Lemma split_not_nil s : split s <> [].
Proof. destruct s as [| c s]; cbn; [done |]. destruct (c =? 47); [done |]. by destruct (split s). Qed.

(** The first component of a path, and what follows it. *)
Lemma component_spec p s :
  is_str p s ->
  exists a r cs, component_length p = Some (zlen a) /\ no_slash a /\ s = a ++ r /\
    split s = a :: cs /\ (r = [] /\ cs = [] \/ exists t, r = SLASH :: t /\ cs = split t).
Proof.
  revert p. induction s as [| c s IH]; intros p Hp.
  - apply is_str_nil in Hp. destruct p as [| x p]; [done |]. injection Hp as ->.
    exists [], [], []. split; [done |]. split; [apply not_elem_of_nil |]. split; [done |]. split; [done | by left].
  - apply is_str_cons in Hp as (q & -> & Hc & Hq). cbn [component_length split].
    rewrite (proj2 (Z.eqb_neq c 0)) by done. cbn [orb].
    destruct (Z.eqb_spec c 47) as [-> | Hne].
    + exists [], (47 :: s), (split s). split; [done |]. split; [apply not_elem_of_nil |].
      split; [done |]. split; [done |]. right. by exists s.
    + destruct (IH q Hq) as (a & r & cs & -> & Ha & -> & -> & Hr). obind. exists (c :: a), r, cs.
      rewrite zlen_cons. split; [done |]. split; [by apply not_elem_of_cons |]. by split.
Qed.

(** ** Names *)

Lemma equal_loop_spec a b s c i n :
  is_str a s -> 0 <= i -> 0 <= n -> i + n <= zlen c -> no_slash c -> Forall (fun x => x <> 0) c ->
  (forall k, 0 <= k < zlen c -> rd b k = rd c k) -> i <= zlen s ->
  exists r, equal_loop (Z.to_nat n) a b i = Some r /\
    (r = true <-> slice c i n `prefix_of` drop (Z.to_nat i) s).
Proof.
  intros Ha Hi Hn Hc Hsl Hnz Hb. remember (Z.to_nat n) as m eqn:Hm. revert i n Hi Hn Hc Hm.
  induction m as [| m IH]; intros i n Hi Hn Hc Hm His; cbn [equal_loop].
  { exists true. split; [done |]. split; [| done]. intros _. replace n with 0 by lia. apply prefix_nil. }
  destruct (rd_in_range c i) as [y Ey]; [lia |]. rewrite (Hb i), Ey by lia. obind.
  assert (slice c i n = y :: slice c (i + 1) (n - 1)) as Hsc.
  { replace n with (1 + (n - 1)) at 1 by lia. rewrite slice_cat, (slice_1 _ _ _ Ey) by lia. done. }
  destruct (Z.eq_dec i (zlen s)) as [-> | Hne].
  - rewrite (is_str_end a s) by done. obind.
    pose proof Ey as [_ Ey']%rd_lookup. pose proof (Forall_lookup_1 _ _ _ _ Hnz Ey') as Hy. cbn in Hy.
    rewrite (proj2 (Z.eqb_neq 0 y)) by done. exists false. split; [done |]. split; [done |].
    rewrite Hsc, drop_ge by (unfold zlen; lia). by intros [k Hk].
  - destruct (rd_in_range s i) as [x Ex]; [lia |]. rewrite (is_str_rd a s i), Ex by (done || lia). obind.
    pose proof Ex as [_ Ex']%rd_lookup. rewrite Hsc. erewrite (drop_S s) by done.
    destruct (Z.eqb_spec x y) as [<- | Hxy]; cbn [negb].
    + destruct (IH (i + 1) (n - 1)) as (r & -> & Hr); [lia.. |]. exists r. split; [done |]. rewrite Hr.
      replace (Z.to_nat (i + 1)) with (S (Z.to_nat i)) by lia.
      split; [apply prefix_cons | apply prefix_cons_inv_2].
    + exists false. split; [done |]. split; [done |]. by intros ?%prefix_cons_inv_1.
Qed.

(** Comparing a stored name with the next component of a path. *)
Lemma name_equal_spec a b s c :
  is_str a s -> no_slash c -> Forall (fun x => x <> 0) c ->
  (forall k, 0 <= k < zlen c -> rd b k = rd c k) ->
  name_equal a b (zlen c) = Some (bool_decide (s = c)).
Proof.
  intros Ha Hsl Hnz Hb. unfold name_equal. pose proof (zlen_nonneg c). pose proof (zlen_nonneg s).
  destruct (equal_loop_spec a b s c 0 (zlen c) Ha) as (r & -> & Hr); [lia.. | done | done | done | lia |].
  obind. rewrite drop_0, slice_all in Hr by done. destruct r; cbn [negb].
  - destruct (proj1 Hr eq_refl) as [k ->].
    assert (rd a (zlen c) = match k with [] => Some 0 | x :: _ => Some x end) as ->.
    { destruct Ha as (_ & rest & ->). rewrite <- app_assoc, rd_app_r, Z.sub_diag by lia. by destruct k. }
    destruct k as [| x k]; obind.
    + by rewrite app_nil_r, bool_decide_eq_true_2.
    + destruct Ha as [[_ [Hx _]%Forall_cons]%Forall_app _]. rewrite (proj2 (Z.eqb_neq x 0)) by done.
      rewrite bool_decide_eq_false_2; [done |]. intros E%(f_equal length). rewrite length_app in E. cbn in E. lia.
  - rewrite bool_decide_eq_false_2; [done |]. intros ->. by discriminate (proj2 Hr).
Qed.

(** ** Invariant *)

Definition valid_name (c : list Z) : Prop :=
  1 <= zlen c <= VFS_NAME_MAX /\ no_slash c.

(** Node [i]: its buffers, and, when it is in use and not the root, a valid
    name and a parent that is an earlier directory. *)
Definition node_ok (ns : list tmpfs_node_t) (i : nat) (n : tmpfs_node_t) : Prop :=
  zlen (node_name n) = VFS_NAME_MAX + 1 /\
  zlen (node_data n) = TMPFS_FILE_CAPACITY /\ bytes_ok (node_data n) /\
  0 <= node_size n <= TMPFS_FILE_CAPACITY /\
  (exists s, is_str (node_name n) s) /\
  (node_used n = true -> i <> O ->
     (exists c, is_str (node_name n) c /\ valid_name c) /\
     node_type n <> VFS_NODE_NONE /\
     0 <= parent n < Z.of_nat i /\ is_dir ns (parent n)).

Definition open_ok (ns : list tmpfs_node_t) (o : tmpfs_open_t) : Prop :=
  open_used o = true ->
  0 <= open_offset o <= TMPFS_FILE_CAPACITY /\
  exists n, rd ns (open_node o) = Some n /\ node_used n = true /\ node_type n = VFS_NODE_FILE.

(** Two nodes never have the same parent and name. *)
Definition unique_names (ns : list tmpfs_node_t) : Prop :=
  forall dir c i j, is_child ns dir c i -> is_child ns dir c j -> i = j.

(** The nodes in use come first: nodes are never freed. *)
Definition used_first (ns : list tmpfs_node_t) : Prop :=
  forall (i j : nat) n m, ns !! i = Some n -> ns !! j = Some m -> (i <= j)%nat ->
    node_used m = true -> node_used n = true.

Definition root_ok (ns : list tmpfs_node_t) : Prop :=
  exists r, rd ns 0 = Some r /\ node_used r = true /\ node_type r = VFS_NODE_DIRECTORY.

Definition fs_ok (fs : tmpfs_t) : Prop :=
  zlen (nodes fs) = TMPFS_MAX_NODES /\ zlen (opens fs) = TMPFS_MAX_OPEN /\
  root_ok (nodes fs) /\ (forall i n, nodes fs !! i = Some n -> node_ok (nodes fs) i n) /\
  unique_names (nodes fs) /\ used_first (nodes fs) /\ Forall (open_ok (nodes fs)) (opens fs).

(** The lookup of a child: the part of the loop from node [i] on. *)
Lemma child_loop_spec ns0 rest i dir b c :
  1 <= i -> (forall k : nat, rest !! k = ns0 !! (Z.to_nat i + k)%nat) ->
  (forall k n, rest !! k = Some n -> exists s, is_str (node_name n) s) ->
  no_slash c -> Forall (fun x => x <> 0) c -> (forall k, 0 <= k < zlen c -> rd b k = rd c k) ->
  exists r, child_loop rest i dir b (zlen c) = Some r /\
    (r = -1 /\ (forall j, i <= j -> ~ is_child ns0 dir c j) \/
     i <= r < i + zlen rest /\ is_child ns0 dir c r).
Proof.
  intros Hi Hrest Hstr Hsl Hnz Hb. revert i Hi Hrest Hstr.
  induction rest as [| n rest IH]; intros i Hi Hrest Hstr; cbn [child_loop].
  { exists (-1). split; [done |]. left. split; [done |]. intros j Hj (_ & n & Hn & _).
    apply rd_lookup in Hn as [_ Hn]. specialize (Hrest (Z.to_nat (j - i))). rewrite lookup_nil in Hrest.
    replace (Z.to_nat i + Z.to_nat (j - i))%nat with (Z.to_nat j) in Hrest by lia. congruence. }
  assert (ns0 !! Z.to_nat i = Some n) as Hn.
  { specialize (Hrest O). by rewrite Nat.add_0_r in Hrest. }
  assert (rd ns0 i = Some n) as Hrd by (apply rd_lookup; split; [lia | done]).
  assert (Hskip : ~ is_child ns0 dir c i ->
    exists r, child_loop rest (i + 1) dir b (zlen c) = Some r /\
    (r = -1 /\ (forall j, i <= j -> ~ is_child ns0 dir c j) \/
     i <= r < i + zlen (n :: rest) /\ is_child ns0 dir c r)).
  { intros Hno. destruct (IH (i + 1)) as (r & E & Hr); [lia | | |].
    - intros k. specialize (Hrest (S k)). etrans; [exact Hrest |]. f_equal. lia.
    - intros k m Hk. by apply (Hstr (S k)).
    - exists r. split; [done |]. rewrite zlen_cons. destruct Hr as [[-> Hr] | [Hr Hc]]; [left | right; split; [lia | done]].
      split; [done |]. intros j Hj. destruct (decide (j = i)) as [-> | Hne]; [done | apply Hr; lia]. }
  destruct (node_used n && (parent n =? dir)) eqn:Eu.
  - bool_cases. destruct (Hstr O n eq_refl) as [s Hs].
    rewrite (name_equal_spec _ b s c) by done. obind. case_bool_decide as Hsc.
    + subst s. exists i. split; [done |]. right. rewrite zlen_cons. pose proof (zlen_nonneg rest).
      split; [lia |]. split; [done |]. by exists n.
    + apply Hskip. intros (_ & m & Hm & _ & _ & Hsm). rewrite Hrd in Hm. injection Hm as <-.
      apply Hsc. by eapply is_str_det.
  - apply Hskip. intros (_ & m & Hm & Hu & Hp & _). rewrite Hrd in Hm. injection Hm as <-.
    apply andb_false_iff in Eu as [E | E]; [congruence |]. bool_cases. done.
Qed.

Lemma child_named_spec fs dir b c :
  fs_ok fs -> no_slash c -> Forall (fun x => x <> 0) c ->
  (forall k, 0 <= k < zlen c -> rd b k = rd c k) ->
  exists r, child_named fs dir b (zlen c) = Some r /\
    (r = -1 /\ (forall j, ~ is_child (nodes fs) dir c j) \/
     1 <= r < TMPFS_MAX_NODES /\ is_child (nodes fs) dir c r).
Proof.
  intros (Hl & _ & _ & Hns & _) Hsl Hnz Hb. unfold child_named, TMPFS_MAX_NODES in *.
  destruct (child_loop_spec (nodes fs) (drop 1 (nodes fs)) 1 dir b c) as (r & -> & Hr); try done.
  - intros k. by rewrite lookup_drop.
  - intros k n. rewrite lookup_drop. intros Hk. by destruct (Hns _ _ Hk) as (_ & _ & _ & _ & ? & _).
  - exists r. split; [done |]. change 1%nat with (Z.to_nat 1) in Hr. rewrite zlen_drop in Hr by lia.
    destruct Hr as [[-> Hr] | [Hr Hc]]; [left | right; split; [lia | done]].
    split; [done |]. intros j Hj. apply (Hr j); [| done]. by destruct Hj.
Qed.

(** ** Path resolution *)

Lemma is_str_prefix_rd p a t k : is_str p (a ++ t) -> 0 <= k < zlen a -> rd p k = rd a k.
Proof.
  intros Hp Hk. rewrite (is_str_rd p (a ++ t)); [by rewrite rd_app_l by lia | done |].
  rewrite zlen_app. pose proof (zlen_nonneg t). lia.
Qed.

Lemma is_str_first p s : is_str p s -> s <> [] -> exists c, rd p 0 = Some c /\ c <> 0.
Proof. intros Hp Hs. destruct s as [| c s]; [done |]. apply is_str_cons in Hp as (q & -> & Hc & _). by exists c. Qed.

Lemma padd_str p a t : is_str p (a ++ t) -> exists q, padd p (zlen a) = Some q /\ is_str q t.
Proof.
  intros Hp. pose proof (zlen_is_str _ _ Hp) as Hl. rewrite zlen_app in Hl. pose proof (zlen_nonneg t).
  pose proof (zlen_nonneg a). rewrite padd_Some by lia. eexists. split; [done |].
  unfold zlen. rewrite Nat2Z.id. by eapply is_str_drop.
Qed.

Lemma walks_cons_inv ns dir c cs j :
  walks ns dir (c :: cs) j ->
  exists i, is_child ns dir c i /\ (cs <> [] -> is_dir ns i) /\ walks ns i cs j.
Proof. inversion 1; subst. by eexists. Qed.

(** A component that is no valid name is no child. *)
Lemma is_child_valid fs dir c i : fs_ok fs -> is_child (nodes fs) dir c i -> valid_name c.
Proof.
  intros (_ & _ & _ & Hns & _) (Hi & n & Hn & Hu & _ & Hs). apply rd_lookup in Hn as [_ Hn].
  destruct (Hns _ _ Hn) as (_ & _ & _ & _ & _ & Hv). destruct (Hv Hu) as ((c' & Hc' & Hval) & _); [lia |].
  by rewrite (is_str_det _ _ _ Hs Hc').
Qed.

Lemma is_child_used fs dir c i :
  fs_ok fs -> is_child (nodes fs) dir c i ->
  i < TMPFS_MAX_NODES /\ exists n, rd (nodes fs) i = Some n /\ node_used n = true.
Proof.
  intros (Hl & _) (_ & n & Hn & Hu & _). pose proof (rd_Some_lt _ _ _ Hn). split; [lia | by exists n].
Qed.

(** The outcome of a resolution: the node the components lead to, or -1. *)
Definition resolves (P : Z -> Prop) (r : Z) : Prop :=
  r = -1 /\ (forall j, ~ P j) \/ 0 <= r < TMPFS_MAX_NODES /\ P r.

Lemma resolve_none (P : Z -> Prop) (s : list Z) (cur : Z) :
  s <> [] -> (forall j, ~ P j) ->
  exists r, Some (-1) = Some r /\ (s = [] /\ r = cur \/ s <> [] /\ resolves P r).
Proof. intros Hs HP. exists (-1). split; [done |]. right. split; [done |]. by left. Qed.

Lemma resolve_node_loop_spec fs fuel p s cur :
  fs_ok fs -> is_str p s -> (length s < fuel)%nat -> 0 <= cur < TMPFS_MAX_NODES ->
  exists r, resolve_node_loop fuel fs p cur = Some r /\
    (s = [] /\ r = cur \/ s <> [] /\ resolves (walks (nodes fs) cur (split s)) r).
Proof.
  intros Hfs. revert p s cur. induction fuel as [| fuel IH]; intros p s cur Hp Hf Hcur; [lia |].
  cbn [resolve_node_loop]. destruct (decide (s = [])) as [-> | Hne].
  { apply is_str_nil in Hp as ->. obind. exists cur. split; [done | by left]. }
  destruct (is_str_first p s Hp Hne) as (c & -> & Hc). obind. rewrite (proj2 (Z.eqb_neq c 0)) by done.
  destruct (component_spec p s Hp) as (a & r & cs & -> & Ha & Es & Hsplit & Hr). rewrite Hsplit. obind.
  destruct (_ || _) eqn:El.
  { apply resolve_none; [done |]. intros j (i & Hi & _)%walks_cons_inv.
    apply (is_child_valid fs) in Hi as [Hlen _]; [| done].
    apply orb_true_iff in El as [E | E]; bool_cases; lia. }
  bool_cases. rewrite Es in Hp.
  assert (Forall (fun x => x <> 0) a) as Hnz by (destruct Hp as [[? _]%Forall_app _]; done).
  destruct (child_named_spec fs cur p a Hfs Ha Hnz) as (i & -> & Hi).
  { intros k Hk. by eapply is_str_prefix_rd. }
  obind. destruct Hi as [[-> Hno] | [Hi Hchild]].
  { apply resolve_none; [done |]. intros j (i & Hi & _)%walks_cons_inv. by eapply Hno. }
  unfold TMPFS_MAX_NODES in Hi. rewrite (proj2 (Z.ltb_ge i 0)), u16_small by lia.
  destruct (padd_str p a r Hp) as (q & -> & Hq). obind.
  assert (forall i', is_child (nodes fs) cur a i' -> i' = i) as Huniq.
  { destruct Hfs as (_ & _ & _ & _ & Hu & _). intros i' Hi'. by eapply Hu. }
  assert (length r < fuel)%nat as Hfr by (subst s; rewrite length_app in Hf; unfold zlen in *; lia).
  destruct Hr as [[-> ->] | (t & -> & ->)].
  - apply is_str_nil in Hq as Hq0. rewrite Hq0. obind.
    destruct (IH q [] i Hq Hfr) as (r' & -> & Hr'); [unfold TMPFS_MAX_NODES; lia |].
    exists r'. split; [done |]. right. split; [done |]. destruct Hr' as [[_ ->] | [? _]]; [| done].
    right. unfold TMPFS_MAX_NODES. split; [lia |]. eapply walks_cons; [done | done | constructor].
  - pose proof (is_str_first _ _ Hq ltac:(done)) as (c' & Ec & _).
    rewrite (is_str_rd _ _ 0 Hq) in Ec |- * by (rewrite zlen_cons; pose proof (zlen_nonneg t); lia).
    injection Ec as <-. change (rd (47 :: t) 0) with (Some 47). obind.
    destruct (is_child_used fs cur a i Hfs Hchild) as (_ & n & Hn & Hu). rewrite Hn. obind.
    case_bool_decide as Hd.
    { apply resolve_none; [done |]. intros j (i' & Hi' & Hdir & _)%walks_cons_inv.
      rewrite (Huniq i' Hi') in Hdir. destruct Hdir as (n' & Hn' & _ & Ht); [apply split_not_nil | congruence]. }
    destruct (padd_str q [47] t Hq) as (q2 & E2 & Hq2). change (zlen [47]) with 1 in E2. rewrite E2. obind.
    destruct (decide (t = [])) as [-> | Ht].
    { apply is_str_nil in Hq2 as ->. obind. apply resolve_none; [done |].
      intros j (i' & _ & _ & (i2 & Hi2 & _)%walks_cons_inv)%walks_cons_inv.
      apply (is_child_valid fs) in Hi2 as [[? _] _]; [| done]. by change (zlen []) with 0 in *. }
    destruct (is_str_first q2 t Hq2 Ht) as (c2 & -> & Hc2). obind. rewrite (proj2 (Z.eqb_neq c2 0)) by done.
    destruct (IH q2 t i Hq2) as (r' & -> & Hr'); [cbn in Hfr; lia | unfold TMPFS_MAX_NODES; lia |].
    exists r'. split; [done |]. right. split; [done |]. destruct Hr' as [[? _] | [_ Hr']]; [done |].
    destruct Hr' as [[-> Hno] | [Hrange Hw]]; [left | right].
    + split; [done |]. intros j (i' & Hi' & _ & Hw)%walks_cons_inv. rewrite (Huniq i' Hi') in Hw. by eapply Hno.
    + split; [done |]. eapply walks_cons; [done | | done]. intros _. exists n. split; [done |].
      split; [done |]. by destruct (node_type n).
Qed.

Lemma resolve_node_spec fs p s :
  fs_ok fs -> is_str p s ->
  exists r, resolve_node (Some fs) (Some p) = Some r /\ resolves (names (nodes fs) s) r.
Proof.
  intros Hfs Hp. unfold resolve_node.
  destruct s as [| c s].
  { apply is_str_nil in Hp as ->. obind. exists (-1). split; [done |]. left. split; [done |]. by intros j (t & [=] & _). }
  pose proof Hp as (q & -> & Hc & Hq)%is_str_cons. change (rd (c :: q) 0) with (Some c). obind.
  destruct (Z.eqb_spec c 47) as [-> | Hne]; cbn [negb].
  2: { exists (-1). split; [done |]. left. split; [done |]. by intros j (t & [= ->] & _). }
  change (rd (47 :: q) 1) with (rd q 0). destruct (decide (s = [])) as [-> | Hs].
  { apply is_str_nil in Hq as ->. obind. exists 0. split; [done |]. right. split; [done |]. exists []. by split; [| left]. }
  destruct (is_str_first q s Hq Hs) as (c & Ec & Hc'). rewrite Ec. obind.
  rewrite (proj2 (Z.eqb_neq c 0)) by done.
  destruct (padd_str (47 :: q) [47] s Hp) as (q' & E' & Hq'). change (zlen [47]) with 1 in E'. rewrite E'. obind.
  pose proof (zlen_is_str q' s Hq') as Hl.
  destruct (resolve_node_loop_spec fs (length q') q' s 0 Hfs Hq') as (r & -> & Hr);
    [unfold zlen in Hl; lia | done |].
  exists r. split; [done |]. destruct Hr as [[? _] | [_ Hr]]; [done |].
  destruct Hr as [[-> Hno] | [Hrange Hw]]; [left | right].
  - split; [done |]. intros j (t & [= <-] & [[? _] | [_ Hw]]); [done |]. by eapply Hno.
  - split; [done |]. exists s. split; [done | by right].
Qed.

Lemma walks_used fs dir cs j :
  fs_ok fs -> walks (nodes fs) dir cs j -> cs <> [] ->
  1 <= j < TMPFS_MAX_NODES /\ exists n, rd (nodes fs) j = Some n /\ node_used n = true.
Proof.
  intros Hfs. induction 1 as [| dir c cs i j Hi _ Hw IH]; intros Hne; [done |].
  destruct cs as [| c' cs]; [| by apply IH]. inversion Hw; subst.
  pose proof (is_child_used fs dir c j Hfs Hi). destruct Hi as [? _]. split; [lia | tauto].
Qed.

Lemma names_used fs s j :
  fs_ok fs -> names (nodes fs) s j ->
  0 <= j < TMPFS_MAX_NODES /\ exists n, rd (nodes fs) j = Some n /\ node_used n = true.
Proof.
  intros Hfs (t & -> & [[-> ->] | [Ht Hw]]).
  - destruct Hfs as (_ & _ & (r & Hr & Hu & _) & _). split; [done | by exists r].
  - destruct (walks_used fs 0 _ j Hfs Hw (split_not_nil t)) as [? ?]. split; [lia | done].
Qed.

(** A path names at most one node. *)
Lemma walks_det fs dir cs i j :
  fs_ok fs -> walks (nodes fs) dir cs i -> walks (nodes fs) dir cs j -> i = j.
Proof.
  intros Hfs Hi. revert j. induction Hi as [| dir c cs k i Hk _ _ IH]; intros j Hj; [by inversion Hj |].
  apply walks_cons_inv in Hj as (k' & Hk' & _ & Hj). pose proof Hfs as (_ & _ & _ & _ & Hu & _).
  rewrite (Hu _ _ _ _ Hk' Hk) in Hj. by apply IH.
Qed.

Lemma names_det fs s i j : fs_ok fs -> names (nodes fs) s i -> names (nodes fs) s j -> i = j.
Proof.
  intros Hfs (t & -> & [[-> ->] | [Ht Hi]]) (t' & [= <-] & [[? ->] | [Ht' Hj]]); try done.
  by eapply walks_det.
Qed.

(** The path [s] is the name [c] in the directory [dir]. *)
Definition parent_of (ns : list tmpfs_node_t) (s : list Z) (dir : Z) (c : list Z) : Prop :=
  exists pre, s = pre ++ SLASH :: c /\ valid_name c /\
    (pre = [] /\ dir = 0 \/
     pre <> [] /\ zlen pre <= VFS_PATH_MAX /\ names ns pre dir /\ is_dir ns dir).

Lemma last_slash_unique pre c pre' c' :
  no_slash c -> no_slash c' -> pre ++ SLASH :: c = pre' ++ SLASH :: c' -> pre = pre' /\ c = c'.
Proof.
  intros Hc Hc'. revert pre'. induction pre as [| x pre IH]; intros [| y pre']; cbn; intros E.
  - by injection E.
  - injection E as <- ->. destruct Hc. apply elem_of_app. right. by left.
  - injection E as -> <-. destruct Hc'. apply elem_of_app. right. by left.
  - injection E as -> E. by destruct (IH _ E) as [-> ->].
Qed.

Lemma slash_loop_spec p pre c k :
  is_str p (pre ++ SLASH :: c) -> no_slash c -> zlen pre <= Z.of_nat k <= zlen pre + zlen c ->
  slash_loop k p = Some (zlen pre).
Proof.
  intros Hp Hc. induction k as [| k IH]; intros Hk; cbn [slash_loop].
  { pose proof (zlen_nonneg pre). f_equal. lia. }
  pose proof (zlen_nonneg pre). pose proof (zlen_nonneg c).
  assert (zlen (pre ++ 47 :: c) = zlen pre + 1 + zlen c) as Hl by (rewrite zlen_app, zlen_cons; lia).
  rewrite (is_str_rd p _ _ Hp) by lia. rewrite rd_app_r by lia.
  destruct (Z.eq_dec (Z.of_nat (S k)) (zlen pre)) as [E | E].
  - rewrite E, Z.sub_diag. change (rd (47 :: c) 0) with (Some 47). obind. done.
  - change (47 :: c) with ([47] ++ c). rewrite rd_app_r by (change (zlen [47]) with 1; lia).
    change (zlen [47]) with 1. destruct (rd_in_range c (Z.of_nat (S k) - zlen pre - 1)) as [x Ex]; [lia |].
    rewrite Ex. obind. destruct (Z.eqb_spec x 47) as [-> |]; [| apply IH; lia].
    destruct Hc. apply rd_lookup in Ex as [_ Ex]. by eapply list_elem_of_lookup_2.
Qed.

Lemma copy_prefix_str p pre t :
  is_str p (pre ++ t) -> zlen pre <= VFS_PATH_MAX ->
  exists d d', copy_loop (Z.to_nat (zlen pre)) (replicate (Z.to_nat (VFS_PATH_MAX + 1)) 0) 0 p 0 = Some d /\
    wr d (zlen pre) 0 = Some d' /\ is_str d' pre.
Proof.
  intros Hp Hl. assert (exists z, z = replicate (Z.to_nat (VFS_PATH_MAX + 1)) 0 /\ zlen z = 128) as (z & <- & Hz)
    by (by eexists). unfold VFS_PATH_MAX in *.
  pose proof (zlen_is_str _ _ Hp) as Hlp. rewrite zlen_app in Hlp. pose proof (zlen_nonneg t).
  pose proof (zlen_nonneg pre). rewrite copy_loop_spec, Z2Nat.id by lia.
  assert (slice p 0 (zlen pre) = pre) as ->.
  { destruct Hp as (_ & rest & ->). rewrite <- app_assoc, slice_app_l, slice_all by lia. done. }
  exists (blit z 0 pre). rewrite wr_blit by (rewrite zlen_blit; lia). rewrite blit_blit by (change (zlen [0]) with 1; lia).
  eexists. split; [done |]. split; [done |]. split; [by destruct Hp as [[? _]%Forall_app _] |].
  unfold blit. rewrite take_0. cbn [app]. rewrite <- app_assoc. by eexists.
Qed.

(** The directory part of [resolve_parent]. *)
Lemma resolve_dir_spec fs p pre t :
  fs_ok fs -> is_str p (pre ++ t) ->
  let is_dir_of dir :=
    pre = [] /\ dir = 0 \/
    pre <> [] /\ zlen pre <= VFS_PATH_MAX /\ names (nodes fs) pre dir /\ is_dir (nodes fs) dir in
  exists r,
    (if zlen pre =? 0 then Some (Some 0)
     else if VFS_PATH_MAX <? zlen pre then Some None
     else
       parent_path ← copy_loop (Z.to_nat (zlen pre)) (replicate (Z.to_nat (VFS_PATH_MAX + 1)) 0) 0 p 0;
       parent_path ← wr parent_path (zlen pre) 0;
       dir ← resolve_node (Some fs) (Some parent_path);
       if dir <? 0 then Some None
       else
         n ← rd (nodes fs) dir;
         if bool_decide (node_type n <> VFS_NODE_DIRECTORY) then Some None
         else Some (Some (u16 dir))) = Some r /\
    match r with
    | None => forall dir, ~ is_dir_of dir
    | Some dir => 0 <= dir < TMPFS_MAX_NODES /\ is_dir_of dir
    end.
Proof.
  intros Hfs Hp is_dir_of. pose proof (zlen_nonneg pre).
  destruct (Z.eqb_spec (zlen pre) 0) as [Hz | Hz].
  { exists (Some 0). split; [done |]. split; [done |]. left. split; [| done]. by apply nil_length_inv; unfold zlen in Hz; lia. }
  assert (pre <> []) as Hne by (by intros ->).
  destruct (Z.ltb_spec VFS_PATH_MAX (zlen pre)).
  { exists None. split; [done |]. intros dir [[? _] | (_ & ? & _)]; [done | lia]. }
  destruct (copy_prefix_str p pre t Hp) as (d & d' & -> & E & Hd'); [lia |]. obind. rewrite E. obind.
  destruct (resolve_node_spec fs d' pre Hfs Hd') as (r & -> & Hr). obind.
  destruct Hr as [[-> Hno] | [Hr Hn]].
  { exists None. split; [done |]. intros dir [[? _] | (_ & _ & ? & _)]; [done |]. by eapply Hno. }
  unfold TMPFS_MAX_NODES in *. rewrite (proj2 (Z.ltb_ge r 0)) by lia.
  destruct (names_used fs pre r Hfs Hn) as (_ & n & Hrd & Hu). rewrite Hrd. obind.
  case_bool_decide as Ht.
  - exists None. split; [done |]. intros dir [[? _] | (_ & _ & Hn' & (n' & Hn2 & _ & Ht'))]; [done |].
    rewrite (names_det fs pre dir r Hfs Hn' Hn) in Hn2. congruence.
  - rewrite u16_small by lia. exists (Some r). split; [done |]. split; [done |]. right.
    split_and!; [done | lia | done |]. exists n. split; [done |]. split; [done |]. by destruct (node_type n).
Qed.

Lemma resolve_parent_spec fs p s :
  fs_ok fs -> is_str p s ->
  exists r, resolve_parent (Some fs) (Some p) = Some r /\
    match r with
    | None => forall dir c, ~ parent_of (nodes fs) s dir c
    | Some (dir, name, n) =>
        exists c, parent_of (nodes fs) s dir c /\ is_str name c /\ n = zlen c /\ 0 <= dir < TMPFS_MAX_NODES
    end.
Proof.
  intros Hfs Hp. unfold resolve_parent.
  assert (forall dir c, parent_of (nodes fs) s dir c -> head s = Some 47) as Hhead.
  { intros dir c (pre & -> & _ & [[-> _] | (_ & _ & (t & -> & _) & _)]); done. }
  destruct (decide (s = [])) as [-> | Hs].
  { apply is_str_nil in Hp as E. unfold is_root. rewrite E. obind. cbn.
    exists None. split; [done |]. intros dir c H. by apply Hhead in H. }
  rewrite (is_root_spec p s) by done. obind.
  destruct (is_str_first p s Hp Hs) as (x & Ex & Hx). rewrite Ex. obind.
  destruct (Z.eqb_spec x 47) as [-> | Hne]; cbn [negb orb].
  2: { exists None. split; [done |]. intros dir c H%Hhead. destruct s as [| y s]; [done |]. injection H as ->.
       apply is_str_cons in Hp as (q & -> & _). by injection Ex. }
  case_bool_decide as Hroot.
  { exists None. split; [done |]. intros dir c (pre & E & [Hlen _] & _). rewrite Hroot in E.
    destruct pre as [| y [| z pre]]; [| done..]. injection E as <-. change (zlen []) with 0 in Hlen. lia. }
  rewrite (string_length_spec p s) by done. obind.
  assert (47 ∈ s) as Hin.
  { destruct s as [| y s]; [done |]. apply is_str_cons in Hp as (q & -> & _). injection Ex as ->. by left. }
  apply list_elem_of_split_r in Hin as (pre & c & -> & Hc).
  pose proof (zlen_nonneg pre). pose proof (zlen_nonneg c).
  assert (zlen (pre ++ 47 :: c) = zlen pre + 1 + zlen c) as Hl by (rewrite zlen_app, zlen_cons; lia).
  assert (Hnone : zlen c = 0 \/ 31 < zlen c -> forall dir c0, ~ parent_of (nodes fs) (pre ++ 47 :: c) dir c0).
  { intros Hbad dir c0 (pre0 & E & [Hlen Hc0] & _). apply last_slash_unique in E as [_ <-]; [| done..].
    unfold VFS_NAME_MAX in Hlen. lia. }
  rewrite Hl. destruct (Z.ltb_spec (zlen pre + 1 + zlen c) 2).
  { exists None. split; [done |]. apply Hnone. destruct c as [| y c]; [by left |]. rewrite zlen_cons in *.
    pose proof (zlen_nonneg c). lia. }
  replace (zlen pre + 1 + zlen c - 1) with (zlen pre + zlen c) by lia.
  rewrite (is_str_rd p _ (zlen pre + zlen c) Hp), rd_app_r by lia.
  replace (zlen pre + zlen c - zlen pre) with (zlen c) by lia.
  destruct (rd_in_range (47 :: c) (zlen c)) as [y Ey]; [rewrite zlen_cons; lia |]. rewrite Ey. obind.
  destruct (Z.eqb_spec y 47) as [-> | Hy].
  { exists None. split; [done |]. apply Hnone. left. destruct (Z.eq_dec (zlen c) 0) as [| Hz]; [done |].
    change (47 :: c) with ([47] ++ c) in Ey. rewrite rd_app_r in Ey by (change (zlen [47]) with 1; lia).
    apply rd_lookup in Ey as [_ Ey]. destruct Hc. by eapply list_elem_of_lookup_2. }
  rewrite (slash_loop_spec p pre c) by (done || lia). obind.
  replace (zlen pre + 1 + zlen c - zlen pre - 1) with (zlen c) by lia.
  destruct (_ || _) eqn:El.
  { exists None. split; [done |]. apply Hnone. unfold VFS_NAME_MAX in El.
    apply orb_true_iff in El as [E | E]; bool_cases; lia. }
  bool_cases. assert (valid_name c) as Hval by (split; [lia | done]).
  destruct (padd_str p (pre ++ [47]) c) as (name & Ename & Hname); [by rewrite <- app_assoc |].
  rewrite zlen_app in Ename. change (zlen [47]) with 1 in Ename. rewrite Ename.
  destruct (resolve_dir_spec fs p pre (47 :: c) Hfs Hp) as (dir & -> & Hdir). obind. destruct dir as [dir |].
  - obind. eexists. split; [done |]. exists c. destruct Hdir as [Hrange Hdir]. split; [| done].
    exists pre. by split.
  - exists None. split; [done |]. intros dir c0 (pre0 & E & [_ Hc0] & Hpar).
    apply last_slash_unique in E as [<- <-]; [| done..]. by apply (Hdir dir).
Qed.

(** ** Creating nodes *)

Lemma copy_name_spec name c :
  is_str name c -> valid_name c ->
  exists nm, copy_name zero_name (Some name) (zlen c) = Some (Some nm) /\
    is_str nm c /\ zlen nm = VFS_NAME_MAX + 1.
Proof.
  intros Hn [Hl _]. unfold copy_name, VFS_NAME_MAX in *.
  rewrite (proj2 (Z.eqb_neq _ _)), (proj2 (Z.ltb_ge _ _)) by lia. cbn [orb].
  assert (zlen zero_name = 32) as Hz by done. pose proof (zlen_is_str _ _ Hn).
  rewrite copy_loop_spec, Z2Nat.id by lia. obind.
  assert (slice name 0 (zlen c) = c) as ->.
  { destruct Hn as (_ & rest & ->). by rewrite slice_app_l, slice_all by lia. }
  rewrite wr_blit by (rewrite zlen_blit; lia). obind. rewrite blit_blit by (change (zlen [0]) with 1; lia).
  eexists. split; [done |]. split; [| rewrite zlen_blit; rewrite ?zlen_app; change (zlen [0]) with 1; lia].
  split; [apply Hn |]. unfold blit. rewrite take_0. cbn [app]. rewrite <- app_assoc. by eexists.
Qed.

Lemma free_node_spec ns i :
  let r := free_node ns i in
  r = -1 /\ Forall (fun n => node_used n = true) ns \/
  i <= r < i + zlen ns /\ (exists n, rd ns (r - i) = Some n /\ node_used n = false) /\
  Forall (fun n => node_used n = true) (take (Z.to_nat (r - i)) ns).
Proof.
  revert i. induction ns as [| n ns IH]; intros i; cbn [free_node]; [by left |].
  rewrite zlen_cons. pose proof (zlen_nonneg ns). destruct (node_used n) eqn:Hu; cbn zeta.
  - destruct (IH (i + 1)) as [[-> Hall] | (Hr & (m & Hm & Hmu) & Hall)]; [left; split; [done | by constructor] | right].
    split; [lia |]. split.
    + exists m. split; [| done]. change (n :: ns) with ([n] ++ ns). rewrite rd_app_r; change (zlen [n]) with 1; [| lia].
      rewrite <- Hm. f_equal. lia.
    + replace (Z.to_nat (free_node ns (i + 1) - i)) with (S (Z.to_nat (free_node ns (i + 1) - (i + 1)))) by lia.
      cbn. by constructor.
  - right. rewrite Z.sub_diag. split; [lia |]. split; [by exists n | constructor].
Qed.

(** The node the allocator returns: the first free one. *)
Lemma allocate_node_spec fs :
  fs_ok fs ->
  allocate_node fs = -1 \/
  1 <= allocate_node fs < TMPFS_MAX_NODES /\
  (exists n, rd (nodes fs) (allocate_node fs) = Some n /\ node_used n = false) /\
  forall (i : nat) n, Z.of_nat i < allocate_node fs -> nodes fs !! i = Some n -> node_used n = true.
Proof.
  intros (Hl & _ & (r0 & Hr0 & Hu0 & _) & _). unfold allocate_node, TMPFS_MAX_NODES in *.
  destruct (free_node_spec (drop 1 (nodes fs)) 1) as [[-> _] | (Hr & (n & Hn & Hu) & Hall)]; [by left | right].
  set (r := free_node (drop 1 (nodes fs)) 1) in *.
  change 1%nat with (Z.to_nat 1) in Hr, Hn, Hall. rewrite zlen_drop in Hr by lia.
  rewrite rd_drop in Hn by lia. replace (1 + (r - 1)) with r in Hn by lia.
  split; [lia |]. split; [by exists n |]. intros i m Hi Hm. destruct i as [| i].
  - apply rd_lookup in Hr0 as [_ Hr0]. change (Z.to_nat 0) with O in Hr0. congruence.
  - apply (Forall_lookup_1 _ _ i m Hall). rewrite lookup_take_lt by lia. by rewrite lookup_drop.
Qed.

Section Created.
Context (fs : tmpfs_t) (Hfs : fs_ok fs) (slot : Z) (dir : Z) (c : list Z) (new : tmpfs_node_t).
Context (Hslot : 1 <= slot < TMPFS_MAX_NODES)
  (Hfree : exists n, rd (nodes fs) slot = Some n /\ node_used n = false)
  (Hfirst : forall (i : nat) n, Z.of_nat i < slot -> nodes fs !! i = Some n -> node_used n = true).
Context (Hdir : is_dir (nodes fs) dir) (Hval : valid_name c)
  (Hnew : forall j, ~ is_child (nodes fs) dir c j).
Context (Hu : node_used new = true) (Hpar : parent new = dir) (Hname : is_str (node_name new) c)
  (Hnl : zlen (node_name new) = VFS_NAME_MAX + 1) (Hdl : zlen (node_data new) = TMPFS_FILE_CAPACITY)
  (Hdb : bytes_ok (node_data new)) (Hsz : node_size new = 0) (Hty : node_type new <> VFS_NODE_NONE).

#[local] Abbreviation ns' := (<[Z.to_nat slot := new]> (nodes fs)).

Lemma rd_created j : rd ns' j = if decide (j = slot) then Some new else rd (nodes fs) j.
Proof.
  destruct Hfs as (Hl & _). unfold TMPFS_MAX_NODES in *. destruct (decide (j = slot)) as [-> | Hne].
  - apply rd_insert_eq. lia.
  - apply rd_insert_ne; lia.
Qed.

Lemma created_used j n : rd (nodes fs) j = Some n -> node_used n = true -> rd ns' j = Some n.
Proof.
  intros Hj Hju. rewrite rd_created. destruct (decide (j = slot)) as [-> |]; [| done].
  destruct Hfree as (m & Hm & Hmu). congruence.
Qed.

Lemma created_dir j : is_dir (nodes fs) j -> is_dir ns' j.
Proof. intros (n & Hn & Hnu & Ht). exists n. split; [by apply created_used | done]. Qed.

(** The children are the old ones and the new one. *)
Lemma created_child d x j :
  is_child ns' d x j <-> is_child (nodes fs) d x j \/ (j = slot /\ d = dir /\ x = c).
Proof.
  split.
  - intros (Hj & n & Hn & Hnu & Hp & Hs). rewrite rd_created in Hn. destruct (decide (j = slot)) as [-> |].
    + injection Hn as <-. right. split; [done |]. split; [congruence |]. by eapply is_str_det.
    + left. split; [done |]. by exists n.
  - intros [(Hj & n & Hn & Hnu & Hp & Hs) | (-> & -> & ->)].
    + split; [done |]. exists n. split; [by apply created_used | done].
    + split; [lia |]. exists new. rewrite rd_created, decide_True by done. done.
Qed.

Lemma created_walks d cs j : walks (nodes fs) d cs j -> walks ns' d cs j.
Proof.
  induction 1 as [| d x cs i j Hi Hd Hw IH]; [constructor |].
  eapply walks_cons; [apply created_child; by left | | done]. intros Hcs. by apply created_dir, Hd.
Qed.

Lemma created_names s j : names (nodes fs) s j -> names ns' s j.
Proof.
  intros (t & -> & Ht). exists t. split; [done |].
  destruct Ht as [? | [? Hw]]; [by left | right]. split; [done | by apply created_walks].
Qed.

Lemma created_ok : fs_ok (set_nodes fs ns').
Proof.
  pose proof Hfs as (Hl & Hlo & (r & Hr & Hru & Hrt) & Hns & Huniq & Hused & Hopen).
  unfold TMPFS_MAX_NODES in *. split; [cbn; by rewrite zlen_insert |]. split; [done |]. cbn.
  split; [exists r; split; [by apply created_used | done] |].
  assert (0 <= dir < slot) as Hds.
  { destruct Hdir as (n & Hn & Hnu & _), Hfree as (m & Hm & Hmu).
    apply rd_lookup in Hn as [Hd0 Hn], Hm as [_ Hm]. split; [done |].
    destruct (decide (dir < slot)); [done |]. rewrite (Hused _ _ _ _ Hm Hn) in Hmu; [done | lia | done]. }
  split; [| split; [| split]].
  - intros i n Hi. apply list_lookup_insert_Some in Hi as [(<- & <- & _) | [Hne Hi]].
    + unfold node_ok, TMPFS_FILE_CAPACITY in *. split_and!; try done; try lia; [by exists c |].
      intros _ _. split; [by exists c |]. split; [done |]. rewrite Hpar. split; [lia | by apply created_dir].
    + destruct (Hns i n Hi) as (H1 & H2 & H3 & H4 & H5 & H6). unfold node_ok. split_and!; try done; try apply H4.
      intros Hiu Hi0. destruct (H6 Hiu Hi0) as (Ha & Hb & Hc & Hd). split_and!; try done; try apply Hc.
      by apply created_dir.
  - intros d x i j Hi Hj. apply created_child in Hi as [Hi | (-> & -> & ->)], Hj as [Hj | (-> & E1 & E2)].
    + by eapply Huniq.
    + subst. by destruct (Hnew i).
    + by destruct (Hnew j).
    + done.
  - intros i j n m Hi Hj Hij Hmu.
    apply list_lookup_insert_Some in Hi as [(<- & <- & _) | [Hni Hi]]; [done |].
    apply list_lookup_insert_Some in Hj as [(<- & <- & _) | [Hnj Hj]]; [| by eapply Hused].
    apply (Hfirst i); [lia | done].
  - eapply Forall_impl; [exact Hopen |]. intros o Ho Hou. destruct (Ho Hou) as (Hoff & n & Hn & Hnu & Ht).
    split; [done |]. exists n. split; [by apply created_used | done].
Qed.
End Created.

Lemma split_snoc t c : no_slash c -> split (t ++ SLASH :: c) = split t ++ [c].
Proof.
  intros Hc. induction t as [| x t IH]; cbn [app split].
  - by rewrite (split_no_slash c Hc).
  - rewrite IH. destruct (x =? 47); [done |]. pose proof (split_not_nil t). by destruct (split t).
Qed.

Lemma walks_snoc ns d cs c i j :
  walks ns d cs i -> is_dir ns i -> is_child ns i c j -> walks ns d (cs ++ [c]) j.
Proof.
  induction 1 as [| d x cs k i Hk Hd Hw IH]; intros Hi Hc.
  - eapply walks_cons; [done | done | constructor].
  - eapply walks_cons; [done | | by apply IH]. intros _. destruct cs; [| by apply Hd].
    by inversion Hw; subst.
Qed.

(** A new child is found under its path, unless the path starts with a double
    slash (then resolution rejects it). *)
Lemma names_of_parent ns s dir c j :
  parent_of ns s dir c -> is_child ns dir c j -> names ns s j \/ s = SLASH :: SLASH :: c.
Proof.
  intros (pre & -> & [Hl Hc] & [[-> ->] | (_ & _ & (t & -> & Ht) & Hd)]) Hj.
  - left. exists c. split; [done |]. right. split; [intros ->; change (zlen []) with 0 in Hl; lia |]. rewrite split_no_slash by done.
    eapply walks_cons; [done | done | constructor].
  - destruct Ht as [[-> ->] | [Ht Hw]]; [by right | left].
    exists (t ++ 47 :: c). split; [done |]. right. split; [by destruct t |]. rewrite split_snoc by done.
    by eapply walks_snoc.
Qed.

Lemma parent_of_mono ns ns' s dir c :
  (forall t j, names ns t j -> names ns' t j) -> (forall j, is_dir ns j -> is_dir ns' j) ->
  parent_of ns s dir c -> parent_of ns' s dir c.
Proof.
  intros Hn Hd (pre & E & Hv & [? | (? & ? & ? & ?)]); exists pre; split_and!; try done; [by left | right].
  split_and!; auto.
Qed.

Lemma parent_is_dir fs s dir c : fs_ok fs -> parent_of (nodes fs) s dir c -> is_dir (nodes fs) dir.
Proof.
  intros (_ & _ & (r & Hr & Hu & Ht) & _) (pre & _ & _ & [[_ ->] | (_ & _ & _ & ?)]); [by exists r | done].
Qed.

Lemma parent_of_det fs s dir c dir' c' :
  fs_ok fs -> parent_of (nodes fs) s dir c -> parent_of (nodes fs) s dir' c' -> dir = dir' /\ c = c'.
Proof.
  intros Hfs (pre & -> & [_ Hc] & Hd) (pre' & E & [_ Hc'] & Hd').
  apply last_slash_unique in E as [<- <-]; [| done..]. split; [| done].
  destruct Hd as [[-> ->] | (Hne & _ & Hn & _)], Hd' as [[E' ->] | (Hne' & _ & Hn' & _)]; try done.
  by eapply names_det.
Qed.

(** The outcomes of [create_node]. *)
Definition created (fs fs' : tmpfs_t) (s : list Z) (dir : Z) (c : list Z) (type : vfs_node_type_t)
    (perm j : Z) : Prop :=
  1 <= j < TMPFS_MAX_NODES /\ opens fs' = opens fs /\
  (exists n, rd (nodes fs') j = Some n /\ node_used n = true /\ node_type n = type /\ node_size n = 0 /\
     permissions n = Z.land perm 3) /\
  (exists n, rd (nodes fs) j = Some n /\ node_used n = false) /\
  (forall i, i <> j -> rd (nodes fs') i = rd (nodes fs) i) /\
  (forall d x i, is_child (nodes fs') d x i <-> is_child (nodes fs) d x i \/ i = j /\ d = dir /\ x = c) /\
  (forall i, is_dir (nodes fs) i -> is_dir (nodes fs') i) /\
  (names (nodes fs') s j \/ s = SLASH :: SLASH :: c) /\
  (forall t i, names (nodes fs) t i -> names (nodes fs') t i).

Lemma create_node_spec fs p s type perm :
  fs_ok fs -> is_str p s -> type <> VFS_NODE_NONE ->
  exists st j fs', create_node fs (Some p) type perm = Some (st, j, fs') /\ fs_ok fs' /\
    (st = VFS_BAD_ARGUMENT /\ j = -1 /\ fs' = fs /\ (forall dir c, ~ parent_of (nodes fs) s dir c) \/
     exists dir c, parent_of (nodes fs) s dir c /\
       (st = VFS_EXISTS /\ j = -1 /\ fs' = fs /\ (exists i, is_child (nodes fs) dir c i) \/
        (forall i, ~ is_child (nodes fs) dir c i) /\
        (st = VFS_NO_SPACE /\ j = -1 /\ fs' = fs /\ allocate_node fs = -1 \/
         st = VFS_OK /\ created fs fs' s dir c type perm j))).
Proof.
  intros Hfs Hp Hty. unfold create_node.
  destruct (resolve_parent_spec fs p s Hfs Hp) as (r & -> & Hr). obind.
  destruct r as [[[dir name] n] |].
  2: { eexists _, _, _. split; [done |]. split; [done |]. by left. }
  destruct Hr as (c & Hpar & Hname & -> & Hdir). pose proof Hpar as (pre & _ & Hval & _).
  destruct (child_named_spec fs dir name c Hfs (proj2 Hval) (proj1 Hname)) as (i & -> & Hi).
  { intros k Hk. by apply is_str_rd. }
  obind. destruct Hi as [[-> Hno] | [Hi Hc]].
  2: { rewrite (proj2 (Z.leb_le 0 i)) by lia. eexists _, _, _. split; [done |]. split; [done |]. right.
       exists dir, c. split; [done |]. left. split_and!; try done. by exists i. }
  rewrite (proj2 (Z.leb_gt 0 (-1))) by lia.
  destruct (allocate_node_spec fs Hfs) as [Ea | (Hslot & Hfree & Hfirst)].
  { rewrite Ea. eexists _, _, _. split; [done |]. split; [done |]. right. exists dir, c. split; [done |].
    right. split; [done |]. by left. }
  set (slot := allocate_node fs) in *. rewrite (proj2 (Z.ltb_ge slot 0)) by lia.
  destruct (copy_name_spec name c Hname Hval) as (nm & -> & Hnm & Hnl). obind.
  pose proof Hfs as (Hl & _). rewrite wr_in_range by lia. obind.
  set (new := mk_node true dir type _ 0 nm _).
  assert (bytes_ok (node_data zero_node)) as Hdb by (by apply Forall_replicate).
  pose proof (parent_is_dir fs s dir c Hfs Hpar) as Hisdir.
  assert (Hrd : forall j, rd (<[Z.to_nat slot := new]> (nodes fs)) j =
    if decide (j = slot) then Some new else rd (nodes fs) j) by (intros j; by apply rd_created).
  assert (Hnames : forall t j, names (nodes fs) t j -> names (<[Z.to_nat slot := new]> (nodes fs)) t j).
  { intros t j Hj. by apply (created_names fs Hfs slot dir c new). }
  assert (Hch : forall d x i, is_child (<[Z.to_nat slot := new]> (nodes fs)) d x i <->
    is_child (nodes fs) d x i \/ i = slot /\ d = dir /\ x = c).
  { intros d x i. by apply (created_child fs Hfs slot dir c new). }
  assert (Hdirs : forall i, is_dir (nodes fs) i -> is_dir (<[Z.to_nat slot := new]> (nodes fs)) i).
  { intros i Hi. by apply (created_dir fs Hfs slot new). }
  assert (fs_ok (set_nodes fs (<[Z.to_nat slot := new]> (nodes fs)))) as Hok'.
  { by apply (created_ok fs Hfs slot dir c new). }
  eexists _, _, _. split; [done |]. split; [done |]. right. exists dir, c. split; [done |]. right.
  split; [done |]. right. split; [done |]. split; [done |]. split; [done |]. cbn [nodes set_nodes].
  split; [exists new; by rewrite Hrd, decide_True |]. split; [done |].
  split; [intros i Hne; by rewrite Hrd, decide_False |]. split; [done |]. split; [done |]. split; [| done].
  apply names_of_parent with dir; [by eapply parent_of_mono | apply Hch; by right].
Qed.

(** ** Updating a node in place *)

(** The part of a node that the tree structure depends on. *)
Definition same_shape (n n' : tmpfs_node_t) : Prop :=
  node_used n' = node_used n /\ parent n' = parent n /\ node_type n' = node_type n /\
  node_name n' = node_name n.

Lemma same_shape_refl n : same_shape n n.
Proof. by split_and!. Qed.

Section Updated.
Context (ns : list tmpfs_node_t) (i : nat) (n n' : tmpfs_node_t).
Context (Hn : ns !! i = Some n) (Hsame : same_shape n n').

#[local] Abbreviation ns' := (<[i := n']> ns).

Lemma updated_rd j m :
  rd ns' j = Some m -> exists m0, rd ns j = Some m0 /\ same_shape m0 m.
Proof.
  rewrite !rd_lookup. intros [Hj Hm]. apply list_lookup_insert_Some in Hm as [(E & <- & _) | [Hne Hm]].
  - exists n. split; [apply rd_lookup; by rewrite <- E | done].
  - exists m. split; [by apply rd_lookup | apply same_shape_refl].
Qed.

Lemma updated_rd' j m :
  rd ns j = Some m -> exists m', rd ns' j = Some m' /\ same_shape m m'.
Proof.
  intros [Hj Hm]%rd_lookup. destruct (decide (Z.to_nat j = i)) as [E | Hne].
  - exists n'. rewrite rd_lookup. subst i. assert (m = n) as -> by congruence. split; [| done]. split; [done |].
    apply list_lookup_insert_eq. by eapply lookup_lt_Some.
  - exists m. rewrite rd_lookup. split; [| apply same_shape_refl]. split; [done |]. by rewrite list_lookup_insert_ne.
Qed.

Lemma updated_child d c j : is_child ns' d c j <-> is_child ns d c j.
Proof.
  split; intros (Hj & m & Hm & Hu & Hp & Hs); split; try done.
  - apply updated_rd in Hm as (m0 & Hm & Hs1 & Hs2 & Hs3 & Hs4). exists m0. by rewrite <- Hs1, <- Hs2, <- Hs4.
  - apply updated_rd' in Hm as (m0 & Hm & Hs1 & Hs2 & Hs3 & Hs4). exists m0. by rewrite Hs1, Hs2, Hs4.
Qed.

Lemma updated_dir j : is_dir ns' j <-> is_dir ns j.
Proof.
  split; intros (m & Hm & Hu & Ht).
  - apply updated_rd in Hm as (m0 & Hm & Hs1 & Hs2 & Hs3 & Hs4). exists m0. by rewrite <- Hs1, <- Hs3.
  - apply updated_rd' in Hm as (m0 & Hm & Hs1 & Hs2 & Hs3 & Hs4). exists m0. by rewrite Hs1, Hs3.
Qed.

Lemma updated_walks d cs j : walks ns' d cs j <-> walks ns d cs j.
Proof.
  split; (induction 1 as [| d c cs k j Hk Hd Hw IH]; [constructor |];
    eapply walks_cons; [by apply updated_child | | done]; intros ?; by apply updated_dir, Hd).
Qed.

Lemma updated_names s j : names ns' s j <-> names ns s j.
Proof.
  split; intros (t & -> & Ht); exists t; (split; [done |]);
    (destruct Ht as [? | [? Hw]]; [by left | right; split; [done | by apply updated_walks]]).
Qed.
End Updated.

(** Two node tables with the same directories, names and types. *)
Definition same_tree (ns ns' : list tmpfs_node_t) : Prop :=
  (forall d c j, is_child ns' d c j <-> is_child ns d c j) /\
  (forall j, is_dir ns' j <-> is_dir ns j) /\
  (forall s j, names ns' s j <-> names ns s j).

Lemma same_tree_refl ns : same_tree ns ns.
Proof. by split_and!. Qed.

Lemma same_tree_trans ns1 ns2 ns3 : same_tree ns1 ns2 -> same_tree ns2 ns3 -> same_tree ns1 ns3.
Proof.
  intros (A1 & A2 & A3) (B1 & B2 & B3). split; [| split]; intros.
  - by rewrite B1, A1.
  - by rewrite B2, A2.
  - by rewrite B3, A3.
Qed.

Lemma updated_tree ns i n n' :
  ns !! i = Some n -> same_shape n n' -> same_tree ns (<[i := n']> ns).
Proof.
  intros Hn Hs. split; [| split].
  - intros d c j. by apply (updated_child ns i n n').
  - intros j. by apply (updated_dir ns i n n').
  - intros s j. by apply (updated_names ns i n n').
Qed.

Lemma updated_ok fs i n n' :
  fs_ok fs -> nodes fs !! i = Some n -> same_shape n n' ->
  zlen (node_data n') = TMPFS_FILE_CAPACITY -> bytes_ok (node_data n') ->
  0 <= node_size n' <= TMPFS_FILE_CAPACITY -> fs_ok (set_nodes fs (<[i := n']> (nodes fs))).
Proof.
  intros (Hl & Hlo & (r & Hr & Hru & Hrt) & Hns & Huniq & Hused & Hopen) Hn Hsame Hd Hb Hs.
  split; [cbn; by rewrite zlen_insert |]. split; [done |]. cbn.
  split; [| split; [| split; [| split]]].
  - apply (updated_rd' _ i n n' Hn Hsame) in Hr as (r' & Hr & H1 & _ & H3 & _).
    exists r'. by rewrite H1, H3.
  - intros j m Hj. unfold node_ok.
    destruct (decide (j = i)) as [-> | Hne].
    + rewrite list_lookup_insert_eq in Hj by (by eapply lookup_lt_Some). injection Hj as <-.
      pose proof Hsame as (E1 & E2 & E3 & E4). rewrite E1, E2, E3, E4.
      destruct (Hns i n Hn) as (H1 & _ & _ & _ & H5 & H6). split_and!; try done; try apply Hs.
      intros Hu Hi. destruct (H6 Hu Hi) as (Ha & Hb' & Hc & Hd'). split_and!; try done; try apply Hc.
      by apply (updated_dir _ i n n').
    + rewrite list_lookup_insert_ne in Hj by done. destruct (Hns j m Hj) as (H1 & H2 & H3 & H4 & H5 & H6).
      split_and!; try done; try apply H4. intros Hu Hi. destruct (H6 Hu Hi) as (Ha & Hb' & Hc & Hd').
      split_and!; try done; try apply Hc. by apply (updated_dir _ i n n').
  - intros d c j k Hj Hk. apply (updated_child (nodes fs) i n n') in Hj, Hk; try done. exact (Huniq d c j k Hj Hk).
  - intros j k a b Ha Hb' Hjk Hbu.
    assert (forall j m, <[i:=n']> (nodes fs) !! j = Some m ->
      exists m0, nodes fs !! j = Some m0 /\ node_used m0 = node_used m) as Hold.
    { intros j' m Hm. apply list_lookup_insert_Some in Hm as [(<- & <- & _) | [_ Hm]];
        [exists n | by exists m]. split; [done |]. symmetry. apply Hsame. }
    destruct (Hold _ _ Ha) as (a0 & Ha0 & <-), (Hold _ _ Hb') as (b0 & Hb0 & Hbu0).
    eapply Hused; [exact Ha0 | exact Hb0 | done | congruence].
  - eapply Forall_impl; [exact Hopen |]. intros o Ho Hou. destruct (Ho Hou) as (Hoff & m & Hm & Hmu & Ht).
    split; [done |]. apply (updated_rd' _ i n n' Hn Hsame) in Hm as (m' & Hm & H1 & _ & H3 & _).
    exists m'. by rewrite H1, H3.
Qed.

Lemma set_opens_ok fs h o os :
  fs_ok fs -> wr (opens fs) h o = Some os -> open_ok (nodes fs) o -> fs_ok (set_opens fs os).
Proof.
  intros (Hl & Hlo & Hr & Hns & Huniq & Hused & Hopen) Hw Ho.
  split; [done |]. split; [cbn; by rewrite (zlen_wr _ _ _ _ Hw) |]. do 4 (split; [done |]).
  apply wr_Some in Hw as [_ ->]. by apply Forall_insert.
Qed.

(** ** Open files *)

(** The bytes of file [j]. *)
Definition contents (ns : list tmpfs_node_t) (j : Z) (bs : list Z) : Prop :=
  exists n, rd ns j = Some n /\ bs = slice (node_data n) 0 (node_size n).

(** The open file [h]: its node, flags and offset. *)
Definition handle_at (fs : tmpfs_t) (h : Z) (o : tmpfs_open_t) : Prop :=
  0 <= h < TMPFS_MAX_OPEN /\ rd (opens fs) h = Some o /\ open_used o = true.

Lemma get_open_spec fs h :
  fs_ok fs -> 0 <= h ->
  get_open fs h = Some None /\ (forall o, ~ handle_at fs h o) \/
  exists o, get_open fs h = Some (Some o) /\ handle_at fs h o.
Proof.
  intros (_ & Hlo & _) Hh. unfold get_open, handle_at. destruct (Z.leb_spec TMPFS_MAX_OPEN h).
  { left. split; [done |]. intros o ([_ ?] & _). lia. }
  destruct (rd_in_range (opens fs) h) as [o ->]; [lia |]. obind.
  destruct (open_used o) eqn:Hu; [right; by exists o | left].
  split; [done |]. intros o' (_ & [= <-] & ?). congruence.
Qed.

Lemma handle_open_ok fs h o : fs_ok fs -> handle_at fs h o -> open_ok (nodes fs) o.
Proof.
  intros (_ & _ & _ & _ & _ & _ & Hopen) (_ & Ho & _). apply rd_lookup in Ho as [_ Ho].
  by apply (Forall_lookup_1 _ _ _ _ Hopen Ho).
Qed.

Lemma free_open_spec os i :
  let r := free_open os i in
  r = TMPFS_MAX_OPEN /\ Forall (fun o => open_used o = true) os \/
  i <= r < i + zlen os /\ exists o, rd os (r - i) = Some o /\ open_used o = false.
Proof.
  revert i. induction os as [| o os IH]; intros i; cbn [free_open]; [by left |].
  rewrite zlen_cons. pose proof (zlen_nonneg os). destruct (open_used o) eqn:Hu; cbn zeta.
  - destruct (IH (i + 1)) as [[-> Hall] | (Hr & m & Hm & Hmu)]; [left; split; [done | by constructor] | right].
    split; [lia |]. exists m. split; [| done]. change (o :: os) with ([o] ++ os).
    rewrite rd_app_r; change (zlen [o]) with 1; [| lia]. rewrite <- Hm. f_equal. lia.
  - right. rewrite Z.sub_diag. split; [lia |]. by exists o.
Qed.

(** Opening may truncate the file. *)
Definition opened_node (n : tmpfs_node_t) (flags : Z) : tmpfs_node_t :=
  if bit_set flags VFS_OPEN_TRUNC && bit_set flags VFS_OPEN_WRITE then set_size n 0 else n.

Definition may_open (n : tmpfs_node_t) (flags : Z) : Prop :=
  node_type n = VFS_NODE_FILE /\
  (bit_set flags VFS_OPEN_READ = true -> bit_set (permissions n) VFS_PERM_READ = true) /\
  (bit_set flags VFS_OPEN_WRITE = true -> bit_set (permissions n) VFS_PERM_WRITE = true).

(** A new open file [h] on node [j]; nothing else changed. *)
Definition opened (fs fs' : tmpfs_t) (j flags h : Z) : Prop :=
  exists n, rd (nodes fs) j = Some n /\ may_open n flags /\
    rd (nodes fs') j = Some (opened_node n flags) /\
    (forall i, i <> j -> rd (nodes fs') i = rd (nodes fs) i) /\
    same_tree (nodes fs) (nodes fs') /\
    (forall o, ~ handle_at fs h o) /\ handle_at fs' h (mk_open true j flags 0) /\
    (forall k, k <> h -> rd (opens fs') k = rd (opens fs) k).

Lemma andb_negb_false a b : a && negb b = false <-> (a = true -> b = true).
Proof. destruct a, b; cbn; intuition. Qed.

Lemma open_node_at_spec fs j n flags out :
  fs_ok fs -> rd (nodes fs) j = Some n -> node_used n = true -> j < TMPFS_MAX_NODES ->
  exists st h fs', open_node_at fs j flags out = Some (st, h, fs') /\ fs_ok fs' /\
    (st = VFS_OK /\ opened fs fs' j flags h \/
     st <> VFS_OK /\ fs' = fs /\ h = out /\
       (st = VFS_NO_SPACE /\ Forall (fun o => open_used o = true) (opens fs) \/ ~ may_open n flags)).
Proof.
  intros Hfs Hj Hu Hlt. unfold open_node_at. rewrite Hj. obind. unfold may_open, TMPFS_MAX_NODES in *.
  assert (0 <= j) as Hj0 by (by apply rd_lookup in Hj as [? _]).
  case_bool_decide as Ht.
  { eexists _, _, _. split; [done |]. split; [done |]. right. split_and!; try done. right. by intros (? & _). }
  destruct (bit_set flags VFS_OPEN_READ && _) eqn:Er.
  { eexists _, _, _. split; [done |]. split; [done |]. right. split_and!; try done. right. intros (_ & H & _).
    apply andb_negb_false in H. congruence. }
  destruct (bit_set flags VFS_OPEN_WRITE && _) eqn:Ew.
  { eexists _, _, _. split; [done |]. split; [done |]. right. split_and!; try done. right. intros (_ & _ & H).
    apply andb_negb_false in H. congruence. }
  rewrite andb_negb_false in Er, Ew. pose proof Hfs as (Hl & Hlo & _ & Hns & _).
  destruct (free_open_spec (opens fs) 0) as [[-> Hall] | (Hr & o & Ho & Hou)].
  { eexists _, _, _. split; [done |]. split; [done |]. right. split_and!; try done. by left. }
  set (h := free_open (opens fs) 0) in *. unfold TMPFS_MAX_OPEN in *.
  rewrite (proj2 (Z.eqb_neq h 16)) by lia. rewrite Z.sub_0_r in Ho. fold (opened_node n flags).
  rewrite (wr_in_range (nodes fs)) by (by eapply rd_Some_lt). obind.
  destruct (wr (opens fs) h (mk_open true (u16 j) flags 0)) as [os |] eqn:Ewr; [| rewrite wr_in_range in Ewr; [done | lia]].
  obind. rewrite u16_small in Ewr by lia. apply rd_lookup in Hj as [_ Hlk].
  assert (same_shape n (opened_node n flags)) as Hsame by (unfold opened_node; by destruct (_ && _)).
  destruct (Hns _ _ Hlk) as (_ & Hdl & Hdb & Hsz & _).
  assert (fs_ok (set_nodes fs (<[Z.to_nat j := opened_node n flags]> (nodes fs)))) as Hok1.
  { apply (updated_ok fs _ n); try done; unfold opened_node; destruct (_ && _); try done. }
  assert (rd (<[Z.to_nat j := opened_node n flags]> (nodes fs)) j = Some (opened_node n flags)) as Hrd
    by (apply rd_insert_eq; unfold TMPFS_MAX_NODES in *; lia).
  eexists _, _, _. split; [done |]. split.
  { apply (set_opens_ok _ h (mk_open true j flags 0) os Hok1 Ewr). intros _. split; [done |].
    exists (opened_node n flags). split; [done |]. destruct Hsame as (-> & _ & -> & _). split; [done |].
    by destruct (node_type n). }
  left. split; [done |]. exists n. split; [by apply rd_lookup |]. cbn [nodes opens].
  split; [split_and!; [by destruct (node_type n) | done | done] |]. split; [done |].
  split; [intros i Hi; apply rd_insert_ne; [done | congruence] |].
  split; [by eapply updated_tree |].
  split; [intros o' (_ & Ho' & ?); congruence |].
  split; [split; [unfold TMPFS_MAX_OPEN; lia |]; split; [by eapply rd_wr_eq | done] |].
  intros k Hk. by eapply rd_wr_ne.
Qed.

(** The outcomes of [op_open]: the path names a node, or it is created when
    the flags ask for it. *)
Lemma op_open_spec fs p s flags out :
  fs_ok fs -> is_str p s ->
  exists st h fs', op_open (Some fs) (Some p) flags (Some out) = Some (st, Some h, Some fs') /\
    fs_ok fs' /\
    ((exists j n, names (nodes fs) s j /\ rd (nodes fs) j = Some n /\
       (st = VFS_OK /\ opened fs fs' j flags h \/
        st <> VFS_OK /\ fs' = fs /\ h = out /\
          (st = VFS_NO_SPACE /\ Forall (fun o => open_used o = true) (opens fs) \/ ~ may_open n flags))) \/
     (forall j, ~ names (nodes fs) s j) /\
       (bit_set flags VFS_OPEN_CREATE = false /\ st = VFS_NOT_FOUND /\ fs' = fs /\ h = out \/
        bit_set flags VFS_OPEN_CREATE = true /\
          (st <> VFS_OK /\ fs' = fs /\ h = out /\
             (st = VFS_NO_SPACE \/ (forall dir c, ~ parent_of (nodes fs) s dir c) \/
              exists dir c i, parent_of (nodes fs) s dir c /\ is_child (nodes fs) dir c i) \/
           exists fs1 dir c j, parent_of (nodes fs) s dir c /\ (forall i, ~ is_child (nodes fs) dir c i) /\
             created fs fs1 s dir c VFS_NODE_FILE 3 j /\ fs_ok fs1 /\
             (st = VFS_OK /\ opened fs1 fs' j flags h \/
              st = VFS_NO_SPACE /\ fs' = fs1 /\ h = out /\ Forall (fun o => open_used o = true) (opens fs))))).
Proof.
  intros Hfs Hp. unfold op_open. destruct (resolve_node_spec fs p s Hfs Hp) as (r & -> & Hr). obind.
  destruct Hr as [[-> Hno] | [Hr Hn]].
  - change (-1 <? 0) with true. cbn [andb]. destruct (bit_set flags VFS_OPEN_CREATE) eqn:Ec.
    2: { obind. eexists _, _, _. split; [done |]. split; [done |]. right. split; [done |]. by left. }
    destruct (create_node_spec fs p s VFS_NODE_FILE (Z.lor VFS_PERM_READ VFS_PERM_WRITE) Hfs Hp)
      as (st & j & fs1 & -> & Hok & Hc); [done |]. obind.
    assert (Hfail : st <> VFS_OK -> fs1 = fs ->
      (if bool_decide (st <> VFS_OK) then Some (st, Some out, Some fs1)
       else if j <? 0 then Some (VFS_NOT_FOUND, Some out, Some fs1)
       else r ← open_node_at fs1 j flags out; let '(st, out, f) := r in Some (st, Some out, Some f))
      = Some (st, Some out, Some fs)).
    { intros Hst ->. by rewrite bool_decide_eq_true_2. }
    destruct Hc as [(-> & _ & -> & Hnp) | (dir & c & Hpar & Hc)];
      [| destruct Hc as [(-> & _ & -> & [i Hi]) | (Hnc & [(-> & _ & -> & _) | (-> & Hcr)])]].
    1-3: rewrite Hfail by done; eexists _, _, _; split; [done |]; split; [done |]; right; split; [done |]; right;
         split; [done |]; left; split_and!; try done.
    { by right; left. }
    { right. right. by exists dir, c, i. }
    { by left. }
    clear Hfail. rewrite bool_decide_eq_false_2 by (by intros ?).
    pose proof Hcr as (Hjr & Ho & (n & Hn & Hu & Ht & _ & Hperm) & _).
    rewrite (proj2 (Z.ltb_ge j 0)) by lia.
    destruct (open_node_at_spec fs1 j n flags out Hok Hn Hu) as (st & h & fs' & -> & Hok' & Hout); [lia |]. obind.
    eexists _, _, _. split; [done |]. split; [done |]. right. split; [done |]. right. split; [done |]. right.
    exists fs1, dir, c, j. split_and!; try done. destruct Hout as [Hout | (Hst & -> & -> & Hcase)]; [by left | right].
    rewrite <- Ho. destruct Hcase as [[-> ?] | Hno']; [done |]. destruct Hno'. unfold may_open. rewrite Hperm. done.
  - unfold TMPFS_MAX_NODES in Hr. rewrite (proj2 (Z.ltb_ge r 0)) by lia. cbn [andb]. obind.
    rewrite bool_decide_eq_false_2 by (by intros ?). rewrite (proj2 (Z.ltb_ge r 0)) by lia.
    destruct (names_used fs s r Hfs Hn) as (_ & n & Hrd & Hu).
    destruct (open_node_at_spec fs r n flags out Hfs Hrd Hu) as (st & h & fs' & -> & Hok' & Hout);
      [unfold TMPFS_MAX_NODES; lia |]. obind.
    eexists _, _, _. split; [done |]. split; [done |]. left. by exists r, n.
Qed.

Lemma op_close_spec fs h :
  fs_ok fs -> 0 <= h ->
  exists st fs', op_close (Some fs) h = Some (st, Some fs') /\ fs_ok fs' /\ nodes fs' = nodes fs /\
    ((forall o, ~ handle_at fs h o) /\ st = VFS_BAD_HANDLE /\ fs' = fs \/
     (exists o, handle_at fs h o) /\ st = VFS_OK /\ (forall o, ~ handle_at fs' h o) /\
       forall k, k <> h -> rd (opens fs') k = rd (opens fs) k).
Proof.
  intros Hfs Hh. unfold op_close.
  destruct (get_open_spec fs h Hfs Hh) as [[-> Hno] | (o & -> & Ho)]; obind.
  { eexists _, _. split; [done |]. split; [done |]. split; [done |]. by left. }
  pose proof Hfs as (_ & Hlo & _). pose proof Ho as (Hr & _ & _).
  destruct (wr (opens fs) h _) as [os |] eqn:Ew; [| rewrite wr_in_range in Ew; [done | lia]]. obind.
  eexists _, _. split; [done |]. split; [eapply set_opens_ok; [done | exact Ew | done] |]. split; [done |].
  right. split; [by exists o |]. split; [done |]. split.
  - intros o' (_ & Ho' & Hu). cbn in Ho'. rewrite (rd_wr_eq _ _ _ _ Ew) in Ho'. by injection Ho' as <-.
  - intros k Hk. by eapply rd_wr_ne.
Qed.

Lemma op_seek_spec fs h offset :
  fs_ok fs -> 0 <= h -> 0 <= offset ->
  exists st fs', op_seek (Some fs) h offset = Some (st, Some fs') /\ fs_ok fs' /\ nodes fs' = nodes fs /\
    (forall o, handle_at fs h o ->
       if offset <=? TMPFS_FILE_CAPACITY
       then st = VFS_OK /\ handle_at fs' h (mk_open true (open_node o) (open_flags o) offset)
       else st = VFS_BAD_ARGUMENT) /\
    (st <> VFS_OK -> fs' = fs) /\
    forall k, k <> h -> rd (opens fs') k = rd (opens fs) k.
Proof.
  intros Hfs Hh Hoff. unfold op_seek.
  destruct (get_open_spec fs h Hfs Hh) as [[-> Hno] | (o & -> & Ho)]; obind.
  { eexists _, _. split; [done |]. split_and!; try done. intros o Ho. by destruct (Hno o). }
  pose proof Hfs as (_ & Hlo & _). pose proof Ho as (Hr & Hrd & _).
  destruct (Z.ltb_spec TMPFS_FILE_CAPACITY offset).
  { eexists _, _. split; [done |]. split; [done |]. split; [done |]. split; [| done].
    intros ? _. by rewrite (proj2 (Z.leb_gt _ _)) by lia. }
  destruct (wr (opens fs) h _) as [os |] eqn:Ew; [| rewrite wr_in_range in Ew; [done | lia]]. obind.
  destruct (handle_open_ok fs h o Hfs Ho (proj2 (proj2 Ho))) as (_ & Hn).
  eexists _, _. split; [done |].
  split; [eapply set_opens_ok; [done | exact Ew | intros _; split; [cbn; lia | done]] |]. split; [done |].
  split; [| split; [done | intros k Hk; by eapply rd_wr_ne]].
  intros o' (_ & Ho' & _). rewrite Hrd in Ho'. injection Ho' as <-.
  rewrite (proj2 (Z.leb_le _ _)) by lia. split; [done |].
  split; [done |]. split; [by eapply rd_wr_eq | done].
Qed.

(** Reading returns the bytes from the offset on and advances it. *)
Lemma op_read_spec fs h b len r :
  fs_ok fs -> 0 <= h -> 0 <= len <= zlen b ->
  exists st b' r' fs', op_read (Some fs) h (Some b) len (Some r) = Some (st, Some b', Some r', Some fs') /\
    fs_ok fs' /\ nodes fs' = nodes fs /\ zlen b' = zlen b /\
    (forall o bs, handle_at fs h o -> bit_set (open_flags o) VFS_OPEN_READ = true ->
       contents (nodes fs) (open_node o) bs ->
       let got := slice bs (open_offset o) (Z.min len (Z.max 0 (zlen bs - open_offset o))) in
       st = VFS_OK /\ r' = zlen got /\ b' = blit b 0 got /\
       handle_at fs' h (mk_open true (open_node o) (open_flags o) (open_offset o + zlen got))) /\
    (st <> VFS_OK -> b' = b /\ fs' = fs) /\
    forall k, k <> h -> rd (opens fs') k = rd (opens fs) k.
Proof.
  intros Hfs Hh Hlen. unfold op_read.
  destruct (get_open_spec fs h Hfs Hh) as [[-> Hno] | (o & -> & Ho)]; obind.
  { eexists _, _, _, _. split; [done |]. split_and!; try done. intros o bs Ho. by destruct (Hno o). }
  pose proof Hfs as (Hl & Hlo & _ & Hns & _). pose proof Ho as (Hr & Hrd & Hou).
  destruct (bit_set (open_flags o) VFS_OPEN_READ) eqn:Ef; cbn [negb].
  2: { eexists _, _, _, _. split; [done |]. split_and!; try done. intros o' bs (_ & Ho' & _). congruence. }
  destruct (handle_open_ok fs h o Hfs Ho Hou) as (Hoff & n & Hn & Hnu & Ht). rewrite Hn. obind.
  pose proof Hn as [_ Hlk]%rd_lookup. destruct (Hns _ _ Hlk) as (_ & Hdl & Hdb & Hsz & _).
  unfold TMPFS_FILE_CAPACITY in *.
  assert (forall o' bs, handle_at fs h o' -> contents (nodes fs) (open_node o') bs ->
    o' = o /\ bs = slice (node_data n) 0 (node_size n) /\ zlen bs = node_size n) as Hdet.
  { intros o' bs (_ & Ho' & _) (n' & Hn' & ->). assert (o' = o) as -> by congruence.
    assert (n' = n) as -> by congruence. rewrite zlen_slice by lia. done. }
  destruct (Z.leb_spec (node_size n) (open_offset o)).
  { eexists _, _, _, _. split; [done |]. split; [done |]. split; [done |]. split; [done |]. split; [| done].
    intros o' bs Ho' _ Hbs. destruct (Hdet o' bs Ho' Hbs) as (-> & -> & Hz). cbn zeta. rewrite Hz.
    replace (Z.min len (Z.max 0 (node_size n - open_offset o))) with 0 by lia.
    change (slice _ _ 0) with (@nil Z). rewrite Z.add_0_r. split; [done |]. split; [done |].
    split; [by destruct b |]. by destruct o as [[] ? ? ?]. }
  rewrite u64_small by lia.
  set (take := if len <? node_size n - open_offset o then len else node_size n - open_offset o).
  assert (take = Z.min len (Z.max 0 (node_size n - open_offset o))) as Htk
    by (unfold take; destruct (Z.ltb_spec len (node_size n - open_offset o)); lia).
  assert (zlen (slice (node_data n) (open_offset o) take) = take) as Hsl by (apply zlen_slice; lia).
  rewrite copy_loop_spec, Z2Nat.id by lia. obind. rewrite u64_small by lia.
  destruct (wr (opens fs) h _) as [os |] eqn:Ew; [| rewrite wr_in_range in Ew; [done | lia]]. obind.
  eexists _, _, _, _. split; [done |].
  split; [eapply set_opens_ok; [done | exact Ew | intros _; split; [cbn; unfold TMPFS_FILE_CAPACITY; lia | by exists n]] |].
  split; [done |]. split; [rewrite zlen_blit; lia |].
  split; [| split; [done | intros k Hk; by eapply rd_wr_ne]].
  intros o' bs Ho' _ Hbs. destruct (Hdet o' bs Ho' Hbs) as (-> & -> & Hz). cbn zeta. rewrite Hz, <- Htk.
  rewrite slice_slice, Z.add_0_l, Hsl by lia.
  split; [done |]. split; [done |]. split; [done |]. split; [done |]. split; [by eapply rd_wr_eq | done].
Qed.

(** What a write at offset [o] makes of a file of size [size] in the buffer
    [data]: beyond the end of the file the buffer's old bytes fill the gap. *)
Definition written (data : list Z) (size o : Z) (bs : list Z) : list Z :=
  slice data 0 o ++ bs ++ slice data (o + zlen bs) (Z.max 0 (size - (o + zlen bs))).

Lemma written_spec data size o bs :
  0 <= o -> 0 <= size <= zlen data -> o + zlen bs <= zlen data ->
  slice (blit data o bs) 0 (Z.max size (o + zlen bs)) = written data size o bs.
Proof.
  intros Ho Hs Hb. pose proof (zlen_nonneg bs). unfold written.
  replace (Z.max size (o + zlen bs)) with (o + (zlen bs + Z.max 0 (size - (o + zlen bs)))) by lia.
  rewrite slice_cat, slice_cat, Z.add_0_l by lia.
  rewrite slice_blit_disjoint, slice_blit_same, slice_blit_disjoint by lia. done.
Qed.

Lemma op_write_spec fs h b len r :
  fs_ok fs -> 0 <= h -> 0 <= len <= zlen b -> bytes_ok b ->
  exists st r' fs', op_write (Some fs) h (Some b) len (Some r) = Some (st, Some r', Some fs') /\
    fs_ok fs' /\
    (forall o n, handle_at fs h o -> rd (nodes fs) (open_node o) = Some n ->
       if bit_set (open_flags o) VFS_OPEN_WRITE && (open_offset o + len <=? TMPFS_FILE_CAPACITY)
       then st = VFS_OK /\ r' = len /\
         handle_at fs' h (mk_open true (open_node o) (open_flags o) (open_offset o + len)) /\
         rd (nodes fs') (open_node o) =
           Some (set_size (set_data n (blit (node_data n) (open_offset o) (slice b 0 len)))
                  (Z.max (node_size n) (open_offset o + len))) /\
         contents (nodes fs') (open_node o) (written (node_data n) (node_size n) (open_offset o) (slice b 0 len)) /\
         (forall i, i <> open_node o -> rd (nodes fs') i = rd (nodes fs) i) /\
         same_tree (nodes fs) (nodes fs')
       else st = if bit_set (open_flags o) VFS_OPEN_WRITE then VFS_NO_SPACE else VFS_PERMISSION) /\
    (st <> VFS_OK -> fs' = fs) /\
    forall k, k <> h -> rd (opens fs') k = rd (opens fs) k.
Proof.
  intros Hfs Hh Hlen Hbb. unfold op_write. rewrite bool_decide_eq_false_2 by done. cbn [andb].
  destruct (get_open_spec fs h Hfs Hh) as [[-> Hno] | (o & -> & Ho)]; obind.
  { eexists _, _, _. split; [done |]. split_and!; try done. intros o n Ho. by destruct (Hno o). }
  pose proof Hfs as (Hl & Hlo & _ & Hns & _). pose proof Ho as (Hr & Hrd & Hou).
  destruct (bit_set (open_flags o) VFS_OPEN_WRITE) eqn:Ef; cbn [negb].
  2: { eexists _, _, _. split; [done |]. split_and!; try done. intros o' n (_ & Ho' & _) _.
       assert (o' = o) as -> by congruence. by rewrite Ef. }
  destruct (handle_open_ok fs h o Hfs Ho Hou) as (Hoff & n & Hn & Hnu & Ht). rewrite Hn. obind.
  pose proof Hn as [Hn0 Hlk]%rd_lookup. destruct (Hns _ _ Hlk) as (_ & Hdl & Hdb & Hsz & _).
  unfold TMPFS_FILE_CAPACITY in *. rewrite (proj2 (Z.ltb_ge 2048 (open_offset o))), u64_small by lia. cbn [orb].
  destruct (Z.ltb_spec (2048 - open_offset o) len).
  { eexists _, _, _. split; [done |]. split_and!; try done. intros o' n' (_ & Ho' & _) _.
    assert (o' = o) as -> by congruence. by rewrite Ef, (proj2 (Z.leb_gt _ _)) by lia. }
  assert (zlen (slice b 0 len) = len) as Hsl by (apply zlen_slice; lia). change (default [] (Some b)) with b.
  rewrite copy_loop_spec, Z2Nat.id by lia. obind. rewrite u64_small by lia.
  rewrite (u32_small (open_offset o + len)) by lia.
  replace (if node_size n <? open_offset o + len then open_offset o + len else node_size n)
    with (Z.max (node_size n) (open_offset o + len))
    by (destruct (Z.ltb_spec (node_size n) (open_offset o + len)); lia).
  set (data := blit (node_data n) (open_offset o) (slice b 0 len)).
  set (n' := set_size (set_data n data) (Z.max (node_size n) (open_offset o + len))).
  assert (zlen data = 2048) as Hdata by (unfold data; rewrite zlen_blit; lia).
  rewrite (wr_in_range (nodes fs)) by (by eapply rd_Some_lt). obind.
  destruct (wr (opens fs) h _) as [os |] eqn:Ew; [| rewrite wr_in_range in Ew; [done | lia]]. obind.
  assert (same_shape n n') as Hsame by done.
  assert (fs_ok (set_nodes fs (<[Z.to_nat (open_node o) := n']> (nodes fs)))) as Hok1.
  { apply (updated_ok fs _ n); try done; unfold TMPFS_FILE_CAPACITY; cbn; try lia.
    by apply bytes_ok_blit, bytes_ok_slice. }
  assert (rd (<[Z.to_nat (open_node o) := n']> (nodes fs)) (open_node o) = Some n') as Hrd'
    by (apply rd_insert_eq; by eapply rd_Some_lt).
  eexists _, _, _. split; [done |]. split.
  { apply (set_opens_ok _ h _ os Hok1 Ew). intros _. split; [cbn; unfold TMPFS_FILE_CAPACITY; lia |].
    exists n'. by split. }
  split; [| split; [done | intros k Hk; by eapply rd_wr_ne]].
  intros o' n0 (_ & Ho' & _) Hn0'. assert (o' = o) as -> by congruence. assert (n0 = n) as -> by congruence.
  rewrite Ef, (proj2 (Z.leb_le _ _)) by lia. cbn [andb]. split; [done |]. split; [done |].
  split; [split; [done |]; split; [by eapply rd_wr_eq | done] |]. split; [done |].
  split.
  { exists n'. split; [done |]. cbn. unfold data. rewrite <- written_spec, Hsl by lia. done. }
  split; [intros i Hi; apply rd_insert_ne; [done | congruence] |]. by eapply updated_tree.
Qed.

(** ** The remaining operations *)

Lemma list_loop_spec ns rest dir seen index e :
  (forall k n, rest !! k = Some n -> exists i, node_ok ns i n) ->
  exists st e', list_loop rest dir seen index e = Some (st, e').
Proof.
  revert seen. induction rest as [| n rest IH]; intros seen Hok; cbn [list_loop]; [by eexists _, _ |].
  assert (forall k m, rest !! k = Some m -> exists i, node_ok ns i m) as Hrest by (intros k; apply (Hok (S k))).
  destruct (_ || _); [by apply IH |]. destruct (negb _); [by apply IH |].
  destruct (Hok O n eq_refl) as (i & Hl & _ & _ & _ & [s Hs] & _).
  rewrite (string_length_spec _ s) by done. obind. pose proof (zlen_is_str _ _ Hs). pose proof (zlen_nonneg s).
  unfold VFS_NAME_MAX in Hl. assert (zlen zero_name = 32) as Hz by done.
  rewrite copy_loop_spec by lia. obind. by eexists _, _.
Qed.

Lemma op_list_spec fs p s index e :
  fs_ok fs -> is_str p s ->
  exists st e', op_list (Some fs) (Some p) index (Some e) = Some (st, Some e', Some fs).
Proof.
  intros Hfs Hp. unfold op_list. destruct (resolve_node_spec fs p s Hfs Hp) as (r & -> & Hr). obind.
  destruct Hr as [[-> _] | [Hr Hn]]; [by eexists _, _ |].
  rewrite (proj2 (Z.ltb_ge r 0)) by lia. destruct (names_used fs s r Hfs Hn) as (_ & n & -> & _). obind.
  case_bool_decide; [by eexists _, _ |].
  pose proof Hfs as (_ & _ & _ & Hns & _).
  destruct (list_loop_spec (nodes fs) (drop 1 (nodes fs)) (u16 r) 0 index e) as (st & e' & ->).
  { intros k m Hk. rewrite lookup_drop in Hk. eexists. by apply Hns. }
  obind. by eexists _, _.
Qed.

Lemma op_mkdir_spec fs p s perm :
  fs_ok fs -> is_str p s ->
  exists st fs', op_mkdir (Some fs) (Some p) perm = Some (st, Some fs') /\ fs_ok fs' /\
    (st <> VFS_OK -> fs' = fs) /\
    (st = VFS_OK -> exists dir c j, parent_of (nodes fs) s dir c /\
       (forall i, ~ is_child (nodes fs) dir c i) /\ created fs fs' s dir c VFS_NODE_DIRECTORY perm j).
Proof.
  intros Hfs Hp. unfold op_mkdir.
  destruct (create_node_spec fs p s VFS_NODE_DIRECTORY perm Hfs Hp) as (st & j & fs' & -> & Hok & Hc); [done |].
  obind. eexists _, _. split; [done |]. split; [done |].
  destruct Hc as [(-> & _ & -> & _) | (dir & c & Hpar & [(-> & _ & -> & _) | (Hno & [(-> & _ & -> & _) | (-> & Hcr)])])];
    (split; [done |]); intros ?; try done. by exists dir, c, j.
Qed.

Lemma tmpfs_set_permissions_spec fs p s perm :
  fs_ok fs -> is_str p s ->
  exists st fs', tmpfs_set_permissions (Some fs) (Some p) perm = Some (st, Some fs') /\ fs_ok fs' /\
    (st = VFS_OK <-> exists j, names (nodes fs) s j) /\
    (forall j n, names (nodes fs) s j -> rd (nodes fs) j = Some n ->
       rd (nodes fs') j = Some (set_permissions n (Z.land perm 3))) /\
    (forall t i, names (nodes fs') t i <-> names (nodes fs) t i).
Proof.
  intros Hfs Hp. unfold tmpfs_set_permissions.
  destruct (resolve_node_spec fs p s Hfs Hp) as (r & -> & Hr). obind.
  destruct Hr as [[-> Hno] | [Hr Hn]].
  { eexists _, _. split; [done |]. split; [done |]. split; [split; [done | by intros [j Hj]; destruct (Hno j)] |].
    split; [intros j n Hj; by destruct (Hno j) | done]. }
  rewrite (proj2 (Z.ltb_ge r 0)) by lia. destruct (names_used fs s r Hfs Hn) as (_ & n & Hrd & _). rewrite Hrd. obind.
  rewrite wr_in_range by (by eapply rd_Some_lt). obind. pose proof Hrd as [_ Hlk]%rd_lookup.
  pose proof Hfs as (_ & _ & _ & Hns & _). destruct (Hns _ _ Hlk) as (_ & Hdl & Hdb & Hsz & _).
  eexists _, _. split; [done |]. split; [by apply (updated_ok fs _ n) |]. split; [by split; [exists r |] |].
  split; [| intros t i; by apply (updated_names _ _ n)].
  intros j n' Hj Hn'. assert (j = r) as -> by (by eapply names_det). assert (n' = n) as -> by congruence.
  apply rd_insert_eq. by eapply rd_Some_lt.
Qed.

(** Initialisation, whatever the memory held. *)
Lemma tmpfs_init_ok fs : exists fs', tmpfs_init (Some fs) = Some fs' /\ fs_ok fs' /\
  (forall h o, ~ handle_at fs' h o) /\ (forall s j, names (nodes fs') s j -> s = [SLASH] /\ j = 0).
Proof.
  eexists. split; [done |]. set (ns := _ :: replicate _ zero_node). set (os := replicate _ zero_open).
  assert (forall (i : nat) n, ns !! i = Some n -> i = O \/ n = zero_node) as Hns.
  { intros [| i] n Hi; [by left | right]. cbn in Hi. by apply lookup_replicate in Hi as [-> _]. }
  assert (forall d c j, ~ is_child ns d c j) as Hnoc.
  { intros d c j (Hj & n & Hn & Hu & _). apply rd_lookup in Hn as [_ Hn]. destruct (Hns _ _ Hn) as [? | ->]; [lia | done]. }
  assert (bytes_ok (replicate (Z.to_nat TMPFS_FILE_CAPACITY) 0)) as Hb by (by apply Forall_replicate).
  split; [| split].
  - split; [done |]. split; [done |]. split; [by eexists |]. split; [| split; [| split]].
    + intros i n Hi. assert (is_str zero_name []) as Hz by (by apply is_str_nil).
      assert (n = zero_node \/ n = mk_node true 0 VFS_NODE_DIRECTORY 3 0 zero_name (node_data zero_node)) as Hn.
      { destruct i as [| i]; [right; by injection Hi | left]. cbn in Hi. by apply lookup_replicate in Hi as [-> _]. }
      unfold node_ok. destruct Hn as [-> | ->]; cbn [node_name node_data node_size node_used zero_node].
      * split_and!; try done. by exists [].
      * split_and!; try done; [by exists [] |]. intros _ Hi0. destruct (Hns i _ Hi) as [? | ?]; done.
    + intros d c i j Hi. by destruct (Hnoc d c i).
    + intros i j n m Hi Hj Hij Hu. destruct (Hns j m Hj) as [-> | ->]; [| done].
      assert (i = O) as -> by lia. congruence.
    + apply Forall_replicate. done.
  - intros h o (_ & Ho & Hu). apply rd_lookup in Ho as [_ Ho]. apply lookup_replicate in Ho as [-> _]. done.
  - intros s j (t & -> & [[-> ->] | [Ht Hw]]); [done |]. destruct (split t) as [| c cs] eqn:E; [by apply split_not_nil in E |].
    apply walks_cons_inv in Hw as (i & Hi & _). by destruct (Hnoc 0 c i).
Qed.

(** ** The file system behind the virtual file system *)

Section Instance.
Context {C W : Type} (get : C -> W -> tmpfs_t) (set : C -> tmpfs_t -> W -> W).

(** The contexts are separate file systems of the state. *)
Class Contexts := {
  get_set_eq c f w : get c (set c f w) = f;
  get_set_ne c c' f w : c <> c' -> get c' (set c f w) = get c' w;
}.
Context `{Hctx : Contexts} `{EqDecision C}.

Definition all_ok (w : W) : Prop := forall c, fs_ok (get c w).

Lemma set_ok c f w : all_ok w -> fs_ok f -> all_ok (set c f w).
Proof.
  intros Hw Hf c'. destruct (decide (c = c')) as [<- | Hne]; [by rewrite get_set_eq | by rewrite get_set_ne].
Qed.

#[export] Instance tmpfs_file_system : FileSystem (operations get set) all_ok.
Proof.
  split; [done |..]; intros f c.
  - intros p s perm w [= <-] Hw Hp. cbn.
    destruct (op_mkdir_spec (get c w) p s perm (Hw c) Hp) as (st & fs' & -> & Hok & _). obind.
    eexists _, _. split; [done | by apply set_ok].
  - intros p s flags b w [= <-] Hw Hp. cbn.
    destruct (op_open_spec (get c w) p s flags b (Hw c) Hp) as (st & h & fs' & -> & Hok & Hout). obind.
    eexists _, _, _. split; [done |]. split; [by apply set_ok |]. cbn. intros ->.
    assert (forall f1 f2 j, opened f1 f2 j flags h -> 0 <= h) as Hop
      by (by intros f1 f2 j (n & _ & _ & _ & _ & _ & _ & ([? _] & _) & _)).
    destruct Hout as [(j & n & _ & _ & [[_ Hop'] | [? _]]) | (_ & [(_ & ? & _) | (_ & [[? _] | Hcr])])]; try done.
    + by eapply Hop.
    + destruct Hcr as (fs1 & dir & x & j & _ & _ & _ & _ & [[_ Hop'] | [? _]]); [by eapply Hop | done].
  - intros h w [= <-] Hw Hh. cbn.
    destruct (op_close_spec (get c w) h (Hw c) Hh) as (st & fs' & -> & Hok & _). obind.
    eexists _, _. split; [done | by apply set_ok].
  - intros h b n r w [= <-] Hw Hh Hn. cbn.
    destruct (op_read_spec (get c w) h b n r (Hw c) Hh Hn) as (st & b' & r' & fs' & -> & Hok & _ & Hl & _). obind.
    eexists _, _, _, _. split; [done |]. split; [done | by apply set_ok].
  - intros h b n r w [= <-] Hw Hh Hn Hb. cbn.
    destruct (op_write_spec (get c w) h b n r (Hw c) Hh Hn Hb) as (st & r' & fs' & -> & Hok & _). obind.
    eexists _, _, _. split; [done | by apply set_ok].
  - intros h o w [= <-] Hw Hh Ho. cbn.
    destruct (op_seek_spec (get c w) h o (Hw c) Hh Ho) as (st & fs' & -> & Hok & _). obind.
    eexists _, _. split; [done | by apply set_ok].
  - intros p s i e w [= <-] Hw Hp He. cbn.
    destruct (op_list_spec (get c w) p s i e (Hw c) Hp) as (st & e' & ->). obind.
    eexists _, _, _. split; [done | by apply set_ok].
Qed.
End Instance.

(** Path resolution.  On every string the resolver stays inside the path and
    the node table and terminates; it returns the one node the components of
    the path lead to from the root, through directories only, or -1 when there
    is none. *)
Theorem tmpfs_resolve_correct fs p s :
  fs_ok fs -> is_str p s ->
  exists r, resolve_node (Some fs) (Some p) = Some r /\
    (forall j, names (nodes fs) s j <-> r = j /\ 0 <= j) /\ (r = -1 \/ 0 <= r < TMPFS_MAX_NODES).
Proof.
  intros Hfs Hp. destruct (resolve_node_spec fs p s Hfs Hp) as (r & -> & Hr). exists r. split; [done |].
  destruct Hr as [[-> Hno] | [Hr Hn]]; (split; [| tauto]); intros j; split.
  - intros Hj. by destruct (Hno j).
  - lia.
  - intros Hj. rewrite (names_det fs s j r Hfs Hj Hn). lia.
  - by intros [<- _].
Qed.

(** Opening.  A successful open returns a handle that was not in use, for
    the node the path names; a path that names nothing succeeds only when
    creation is asked for, and then a new empty file with the parent directory
    of the path exists under it.  The file is truncated exactly when the flags
    say so, every other node, path and handle is as before, and a failed open
    changes no file, path or handle that existed. *)
Theorem tmpfs_open_correct fs p s flags out :
  fs_ok fs -> is_str p s ->
  exists st h fs', op_open (Some fs) (Some p) flags (Some out) = Some (st, Some h, Some fs') /\
    fs_ok fs' /\
    (forall t i, names (nodes fs) t i -> names (nodes fs') t i) /\
    (forall k o, handle_at fs k o -> handle_at fs' k o) /\
    (st <> VFS_OK -> h = out /\ forall t i, names (nodes fs) t i -> rd (nodes fs') i = rd (nodes fs) i) /\
    (st = VFS_OK -> exists j n,
       rd (nodes fs') j = Some n /\ may_open n flags /\
       (forall o, ~ handle_at fs h o) /\ handle_at fs' h (mk_open true j flags 0) /\
       (forall t i, names (nodes fs) t i -> i <> j -> rd (nodes fs') i = rd (nodes fs) i) /\
       (names (nodes fs) s j /\ (exists n0, rd (nodes fs) j = Some n0 /\ n = opened_node n0 flags) \/
        (forall i, ~ names (nodes fs) s i) /\ bit_set flags VFS_OPEN_CREATE = true /\ node_size n = 0 /\
        exists dir c, parent_of (nodes fs) s dir c /\ is_child (nodes fs') dir c j /\
          (names (nodes fs') s j \/ s = SLASH :: SLASH :: c))).
Proof.
  intros Hfs Hp. destruct (op_open_spec fs p s flags out Hfs Hp) as (st & h & fs' & -> & Hok & Hout).
  eexists _, _, _. split; [done |]. split; [done |].
  assert (Hunused : forall fs1 dir c j t i, created fs fs1 s dir c VFS_NODE_FILE 3 j ->
    names (nodes fs) t i -> i <> j).
  { intros fs1 dir c j t i (_ & _ & _ & (n & Hn & Hu) & _) Ht <-.
    destruct (names_used fs t i Hfs Ht) as (_ & n' & Hn' & Hu'). congruence. }
  assert (Hsame : forall k o a b hh, (forall k, k <> hh -> rd (opens b) k = rd (opens a) k) ->
    (forall o, ~ handle_at a hh o) -> handle_at a k o -> handle_at b k o).
  { intros k o a b hh Heq Hno Hk. destruct (decide (k = hh)) as [-> |]; [by destruct (Hno o) |].
    destruct Hk as (? & Hk & ?). split; [done |]. by rewrite Heq. }
  assert (Hmay : forall n, may_open n flags -> may_open (opened_node n flags) flags)
    by (intros n; unfold opened_node; by destruct (_ && _)).
  destruct Hout as [(j & n & Hj & Hn & [[-> Hop] | (Hst & -> & -> & _)]) | (Hno & [(_ & -> & -> & ->) | (Hc & [(Hst & -> & -> & _) | Hcr])])].
  - destruct Hop as (n0 & Hn0 & Hm & Hn' & Hoth & (_ & _ & Hnm) & Hfresh & Hh & Hrest).
    split; [intros t i; apply Hnm |]. split; [intros k o Hk; by eapply Hsame |]. split; [done |].
    intros _. exists j, (opened_node n0 flags). split_and!; try done; [by apply Hmay.. | intros t i _ Hi; by apply Hoth |].
    left. split; [done |]. by exists n0.
  - by split_and!.
  - by split_and!.
  - by split_and!.
  - destruct Hcr as (fs1 & dir & c & j & Hpar & Hnc & Hcr & Hok1 & Hres).
    pose proof Hcr as (Hjr & Ho1 & (n1 & Hn1 & Hu1 & Ht1 & Hs1 & _) & _ & Hoth1 & Hch & _ & Hnm1 & Hmono).
    assert (is_child (nodes fs1) dir c j) as Hchj by (apply Hch; by right).
    destruct Hres as [[-> Hop] | (-> & -> & -> & _)].
    + destruct Hop as (n0 & Hn0 & Hm & Hn' & Hoth & (_ & _ & Hnm) & Hfresh & Hh & Hrest). assert (n0 = n1) as -> by congruence.
      rewrite Ho1 in Hrest.
      assert (forall o, ~ handle_at fs h o) as Hfresh' by (intros o; unfold handle_at in *; rewrite <- Ho1; apply Hfresh).
      split; [intros t i Hi; by apply Hnm, Hmono |].
      split; [intros k o Hk; by eapply Hsame |]. split; [done |].
      intros _. exists j, (opened_node n1 flags). split; [done |]. split; [by apply Hmay |]. split; [done |]. split; [done |].
      split; [intros t i _ Hi; rewrite Hoth, Hoth1 by done; done |]. right. split; [done |]. split; [done |].
      split; [unfold opened_node; by destruct (_ && _) |]. exists dir, c. split; [done |]. split.
      * destruct Hchj as (Hj1 & m & Hm' & Hmu & Hmp & Hms). split; [done |]. exists (opened_node n1 flags).
        assert (m = n1) as -> by congruence. unfold opened_node in *. by destruct (_ && _).
      * destruct Hnm1 as [Hnm1 | ->]; [left; by apply Hnm | by right].
    + split; [done |]. split; [intros k o Hk; unfold handle_at in *; by rewrite Ho1 |]. split; [| done].
      intros _. split; [done |]. intros t i Ht. apply Hoth1. by eapply Hunused.
Qed.

(** ** Files as byte arrays

    What an open file promises: a position in an array of at most 2048 bytes, to
    be read and written as it was opened for.  The array lies in a buffer of 2048
    bytes, whose rest matters only when a write starts beyond the end of the file:
    the gap then holds what the rest held. *)

Record afile := mk_afile { a_readable : bool; a_writable : bool; a_bytes : list Z; a_rest : list Z; a_pos : Z }.

Inductive file_op := FileRead (length : Z) | FileWrite (bytes : list Z) | FileSeek (offset : Z).

Definition file_op_ok (op : file_op) : Prop :=
  match op with
  | FileRead n => 0 <= n
  | FileWrite bs => bytes_ok bs
  | FileSeek o => 0 <= o
  end.

(** The array after a write at [pos], and the rest of the buffer. *)
Definition afile_write (bytes rest : list Z) (pos : Z) (bs : list Z) : list Z * list Z :=
  let e := pos + zlen bs in
  let bytes' :=
    if pos <=? zlen bytes then slice bytes 0 pos ++ bs ++ slice bytes e (Z.max 0 (zlen bytes - e))
    else bytes ++ slice rest 0 (pos - zlen bytes) ++ bs in
  (bytes', slice rest (zlen bytes' - zlen bytes) (zlen rest - (zlen bytes' - zlen bytes))).

(** The status and the bytes read. *)
Definition file_spec (op : file_op) (f : afile) : vfs_status_t * list Z * afile :=
  let at_ bytes rest pos := mk_afile (a_readable f) (a_writable f) bytes rest pos in
  match op with
  | FileRead n =>
      if negb (a_readable f) then (VFS_PERMISSION, [], f)
      else
        let got := slice (a_bytes f) (a_pos f) (Z.min n (Z.max 0 (zlen (a_bytes f) - a_pos f))) in
        (VFS_OK, got, at_ (a_bytes f) (a_rest f) (a_pos f + zlen got))
  | FileWrite bs =>
      if negb (a_writable f) then (VFS_PERMISSION, [], f)
      else if TMPFS_FILE_CAPACITY <? a_pos f + zlen bs then (VFS_NO_SPACE, [], f)
      else
        let '(bytes, rest) := afile_write (a_bytes f) (a_rest f) (a_pos f) bs in
        (VFS_OK, [], at_ bytes rest (a_pos f + zlen bs))
  | FileSeek o =>
      if TMPFS_FILE_CAPACITY <? o then (VFS_BAD_ARGUMENT, [], f)
      else (VFS_OK, [], at_ (a_bytes f) (a_rest f) o)
  end.

Fixpoint file_specs (ops : list file_op) (f : afile) : list (vfs_status_t * list Z) * afile :=
  match ops with
  | [] => ([], f)
  | op :: ops =>
      let '(st, got, f) := file_spec op f in
      let '(rs, f) := file_specs ops f in
      ((st, got) :: rs, f)
  end.

(** The same operations on a handle; a read is given a fresh buffer. *)
Definition file_run (op : file_op) (fs : tmpfs_t) (h : Z) : option (vfs_status_t * list Z * tmpfs_t) :=
  match op with
  | FileRead n =>
      r ← op_read (Some fs) h (Some (replicate (Z.to_nat n) 0)) n (Some 0);
      let '(st, b, out, f) := r in
      b ← b; out ← out; f ← f; Some (st, slice b 0 out, f)
  | FileWrite bs =>
      r ← op_write (Some fs) h (Some bs) (zlen bs) (Some 0);
      let '(st, _, f) := r in
      f ← f; Some (st, [], f)
  | FileSeek o => r ← op_seek (Some fs) h o; f ← r.2; Some (r.1, [], f)
  end.

Fixpoint file_runs (ops : list file_op) (fs : tmpfs_t) (h : Z) :
    option (list (vfs_status_t * list Z) * tmpfs_t) :=
  match ops with
  | [] => Some ([], fs)
  | op :: ops =>
      r ← file_run op fs h;
      let '(st, got, fs) := r in
      rs ← file_runs ops fs h;
      Some ((st, got) :: rs.1, rs.2)
  end.

(** Handle [h], open on node [j], is the abstract file. *)
Definition represents (fs : tmpfs_t) (h j : Z) (f : afile) : Prop :=
  fs_ok fs /\ exists flags n, handle_at fs h (mk_open true j flags (a_pos f)) /\
    a_readable f = bit_set flags VFS_OPEN_READ /\ a_writable f = bit_set flags VFS_OPEN_WRITE /\
    rd (nodes fs) j = Some n /\ node_data n = a_bytes f ++ a_rest f /\ node_size n = zlen (a_bytes f).

(** What an operation on [h] leaves alone. *)
Definition others_same (fs fs' : tmpfs_t) (h j : Z) : Prop :=
  (forall i, i <> j -> rd (nodes fs') i = rd (nodes fs) i) /\
  (forall k, k <> h -> rd (opens fs') k = rd (opens fs) k) /\
  same_tree (nodes fs) (nodes fs').

Lemma handle_det fs h o : fs_ok fs -> handle_at fs h o -> get_open fs h = Some (Some o).
Proof.
  intros Hfs Ho. destruct (get_open_spec fs h Hfs ltac:(destruct Ho; lia)) as [[_ Hno] | (o' & E & Ho')]; [by destruct (Hno o) |].
  destruct Ho as (_ & Ho & _), Ho' as (_ & Ho' & _). congruence.
Qed.

Lemma op_read_refused fs h o b n : fs_ok fs -> handle_at fs h o -> bit_set (open_flags o) VFS_OPEN_READ = false ->
  op_read (Some fs) h (Some b) n (Some 0) = Some (VFS_PERMISSION, Some b, Some 0, Some fs).
Proof. intros Hfs Ho Hf. unfold op_read. rewrite (handle_det fs h o Hfs Ho). obind. by rewrite Hf. Qed.

Lemma blit_file bytes rest pos bs : 0 <= pos -> pos + zlen bs <= zlen bytes + zlen rest ->
  let '(bytes', rest') := afile_write bytes rest pos bs in
  blit (bytes ++ rest) pos bs = bytes' ++ rest' /\ zlen bytes' = Z.max (zlen bytes) (pos + zlen bs).
Proof.
  intros Hp Hfit. unfold afile_write.
  assert (forall bytes' : list Z, zlen bytes' = Z.max (zlen bytes) (pos + zlen bs) ->
    slice rest (zlen bytes' - zlen bytes) (zlen rest - (zlen bytes' - zlen bytes)) = drop (Z.to_nat (pos + zlen bs) - length bytes) rest) as Hrest.
  { intros bytes' ->. unfold slice, zlen in *. replace (Z.to_nat (Z.max _ _ - _)) with (Z.to_nat (pos + Z.of_nat (length bs)) - length bytes)%nat by lia.
    apply take_ge. rewrite length_drop. lia. }
  unfold blit. rewrite take_app, drop_app. replace (Z.to_nat pos + length bs)%nat with (Z.to_nat (pos + zlen bs)) by (unfold zlen; lia).
  destruct (Z.leb_spec pos (zlen bytes)).
  - assert (slice bytes (pos + zlen bs) (Z.max 0 (zlen bytes - (pos + zlen bs))) = drop (Z.to_nat (pos + zlen bs)) bytes) as ->.
    { unfold slice, zlen in *. apply take_ge. rewrite length_drop. lia. }
    replace (Z.to_nat pos - length bytes)%nat with 0%nat by (unfold zlen in *; lia). cbn [take]. rewrite app_nil_r.
    assert (zlen (slice bytes 0 pos ++ bs ++ drop (Z.to_nat (pos + zlen bs)) bytes) = Z.max (zlen bytes) (pos + zlen bs)) as Hz.
    { unfold slice, zlen in *. rewrite !length_app, length_take, !length_drop. lia. }
    rewrite (Hrest _ Hz). split; [| done]. unfold slice. change (drop (Z.to_nat 0) bytes) with bytes. by rewrite <- !app_assoc.
  - rewrite take_ge, (drop_ge bytes) by (unfold zlen in *; lia).
    assert (zlen (bytes ++ slice rest 0 (pos - zlen bytes) ++ bs) = Z.max (zlen bytes) (pos + zlen bs)) as Hz.
    { unfold slice, zlen in *. rewrite !length_app, length_take, !length_drop. lia. }
    rewrite (Hrest _ Hz). split; [| done]. unfold slice. change (drop (Z.to_nat 0) rest) with rest.
    replace (Z.to_nat (pos - zlen bytes)) with (Z.to_nat pos - length bytes)%nat by (unfold zlen; lia). by rewrite <- !app_assoc.
Qed.

Lemma file_write_refines bs fs h j f :
  represents fs h j f -> bytes_ok bs -> let '(st, got, f') := file_spec (FileWrite bs) f in
  exists fs', file_run (FileWrite bs) fs h = Some (st, got, fs') /\ represents fs' h j f' /\ others_same fs fs' h j.
Proof.
  intros (Hfs & flags & n & Hh & Hr & Hw & Hn & Hd & Hz) Hbs. pose proof Hh as (Hrange & _).
  destruct (op_write_spec fs h bs (zlen bs) 0 Hfs) as (st' & r' & fs' & E & Hok & Hwrite & Hfail & Hoth);
    [lia | pose proof (zlen_nonneg bs); lia | done |].
  specialize (Hwrite _ n Hh Hn). cbn [open_offset open_flags open_node] in Hwrite. rewrite <- Hw in Hwrite.
  assert (st' <> VFS_OK -> represents fs' h j f /\ others_same fs fs' h j) as Hsame.
  { intros Hst. rewrite (Hfail Hst). split; [split; [done |]; by exists flags, n |]. split; [done |]. split; [done | apply same_tree_refl]. }
  cbn [file_spec]. unfold file_run. rewrite E. obind. destruct (a_writable f); cbn [negb andb] in *.
  2: { subst st'. exists fs'. split; [done |]. by apply Hsame. }
  destruct (Z.ltb_spec TMPFS_FILE_CAPACITY (a_pos f + zlen bs)).
  { rewrite (proj2 (Z.leb_gt _ _)) in Hwrite by lia. subst st'. exists fs'. split; [done |]. by apply Hsame. }
  rewrite (proj2 (Z.leb_le _ _)) in Hwrite by lia. destruct Hwrite as (-> & _ & Hh' & Hn' & _ & Hnodes & Hnames). rewrite slice_all in Hn' by done.
  pose proof Hfs as (_ & _ & _ & Hns & _). apply rd_lookup in Hn as [_ Hlk]. destruct (Hns _ _ Hlk) as (_ & Hdl & _).
  pose proof (handle_open_ok fs h _ Hfs Hh eq_refl) as ([Hp0 _] & _). cbn in Hp0. rewrite Hd in Hdl, Hn'. rewrite zlen_app in Hdl.
  pose proof (blit_file (a_bytes f) (a_rest f) (a_pos f) bs Hp0 ltac:(lia)) as Hb. destruct (afile_write _ _ _ _) as [bytes rest]. destruct Hb as [Hb Hz'].
  exists fs'. split; [done |]. split; [| by split].
  split; [done |]. exists flags. eexists. split; [exact Hh' |]. split; [done |]. split; [done |]. split; [exact Hn' |]. cbn. by rewrite Hb, Hz, Hz'.
Qed.

Lemma file_run_refines op fs h j f :
  represents fs h j f -> file_op_ok op -> let '(st, got, f') := file_spec op f in
  exists fs', file_run op fs h = Some (st, got, fs') /\ represents fs' h j f' /\ others_same fs fs' h j.
Proof.
  destruct op as [len | bs | o]; [| by apply file_write_refines |]; intros (Hfs & flags & n & Hh & Hr & Hw & Hn & Hd & Hz) Hop; pose proof Hh as (Hrange & _);
    cbn [file_op_ok file_spec file_run] in *.
  - assert (represents fs h j f) as Hrep by (split; [done |]; by exists flags, n).
    set (b := replicate (Z.to_nat len) 0). destruct (a_readable f) eqn:Er; cbn [negb].
    2: { rewrite (op_read_refused fs h _ b len Hfs Hh) by (symmetry; exact Hr). obind. exists fs. split; [done |].
         split; [done |]. split; [done |]. split; [done | apply same_tree_refl]. }
    assert (zlen b = len) as Hb by (unfold b, zlen; rewrite length_replicate; lia).
    assert (contents (nodes fs) j (a_bytes f)) as Hc by (exists n; split; [done |]; rewrite Hd, Hz, slice_app_l, slice_all; [done | done | lia | apply zlen_nonneg | lia]).
    destruct (op_read_spec fs h b len 0 Hfs) as (st & b' & r' & fs' & -> & Hok & Hns & Hl & Hread & _ & Hoth); [lia | lia |].
    obind. destruct (Hread _ _ Hh (eq_sym Hr) Hc) as (-> & -> & -> & Hh'). cbn [open_offset open_flags open_node] in *.
    set (got := slice (a_bytes f) (a_pos f) (Z.min len (Z.max 0 (zlen (a_bytes f) - a_pos f)))) in *.
    assert (zlen got <= len) as Hg by (unfold got, slice, zlen; rewrite length_take; lia).
    exists fs'. split; [do 3 f_equal; apply slice_blit_same; lia |]. split.
    + split; [done |]. exists flags, n. split; [done |]. split; [done |]. split; [done |]. by rewrite Hns.
    + split; [intros i _; by rewrite Hns |]. split; [done |]. rewrite Hns. apply same_tree_refl.
  - destruct (op_seek_spec fs h o Hfs) as (st' & fs' & -> & Hok & Hns & Hseek & Hfail & Hoth); [lia | done |].
    obind. specialize (Hseek _ Hh). cbn [open_offset open_flags open_node fst snd] in *.
    assert (others_same fs fs' h j) as Hsame.
    { split; [intros i _; by rewrite Hns |]. split; [done |]. rewrite Hns. apply same_tree_refl. }
    destruct (Z.ltb_spec TMPFS_FILE_CAPACITY o); exists fs'.
    + rewrite (proj2 (Z.leb_gt _ _)) in Hseek by lia. subst st'. split; [done |]. split; [| done].
      rewrite (Hfail ltac:(done)). split; [done |]. by exists flags, n.
    + rewrite (proj2 (Z.leb_le _ _)) in Hseek by lia. destruct Hseek as [-> Hh']. split; [done |]. split; [| done].
      split; [done |]. exists flags, n. split; [done |]. split; [done |]. split; [done |]. by rewrite Hns.
Qed.

(** C13. Open files refine byte arrays.  Any sequence of reads, writes and seeks
    on an open handle, whatever it was opened for, returns the statuses and the
    bytes the abstract file returns and leaves the handle representing the
    abstract file's final state; other files, paths and handles are untouched. *)
Theorem tmpfs_files_refine ops fs h j f :
  represents fs h j f -> Forall file_op_ok ops -> let '(rs, f') := file_specs ops f in
  exists fs', file_runs ops fs h = Some (rs, fs') /\ represents fs' h j f' /\ others_same fs fs' h j.
Proof.
  revert fs f. induction ops as [| op ops IH]; intros fs f Hrep Hops; cbn [file_specs file_runs] in *.
  { exists fs. split; [done |]. split; [done |]. split; [done |]. split; [done | apply same_tree_refl]. }
  apply Forall_cons in Hops as [Hop Hops]. pose proof (file_run_refines op fs h j f Hrep Hop) as H1.
  destruct (file_spec op f) as [[st got] f1]. destruct H1 as (fs1 & -> & Hrep1 & (A1 & A2 & A3)). obind.
  specialize (IH fs1 f1 Hrep1 Hops). destruct (file_specs ops f1) as [rs f2]. destruct IH as (fs2 & -> & Hrep2 & (B1 & B2 & B3)). obind.
  exists fs2. split; [done |]. split; [done |]. split_and!.
  - intros i Hi. by rewrite B1, A1.
  - intros k Hk. by rewrite B2, A2.
  - by eapply same_tree_trans.
Qed.

(** ** Concrete runs *)

Definition ex_fs : tmpfs_t := default (mk_tmpfs [] []) (tmpfs_init (Some (mk_tmpfs [] []))).

Lemma ex_fs_ok : fs_ok ex_fs.
Proof. destruct (tmpfs_init_ok (mk_tmpfs [] [])) as (fs & [= <-] & Hok & _). exact Hok. Qed.

(** The path /a, and /a opened for reading and writing after it has been
    created, filled and truncated. *)
Definition ex_path : list Z := [47; 97; 0].

Lemma ex_path_str : is_str ex_path [47; 97].
Proof. apply (is_str_cstr [47; 97]). by repeat constructor. Qed.

Definition reopened : option tmpfs_t :=
  r ← op_open (Some ex_fs) (Some ex_path) 7 (Some 0);
  r ← op_write r.2 0 (Some [7; 7; 7]) 3 (Some 0);
  r ← op_close r.2 0;
  r ← op_open r.2 (Some ex_path) 11 (Some 0);
  r.2.

(** The file is empty and its buffer is not. *)
Definition reopened_file : afile := mk_afile true true [] ([7; 7; 7] ++ replicate 2045 0) 0.

Lemma reopened_ok : exists fs, reopened = Some fs /\ represents fs 0 1 reopened_file.
Proof.
  unfold reopened.
  destruct (op_open_spec ex_fs ex_path [47; 97] 7 0 ex_fs_ok ex_path_str) as (st1 & h1 & fs1 & E1 & Hok1 & _).
  rewrite E1. obind. cbn [snd].
  destruct (op_write_spec fs1 0 [7; 7; 7] 3 0 Hok1) as (st2 & r2 & fs2 & E2 & Hok2 & _);
    [done | by vm_compute | by apply (bool_decide_unpack _) |]. rewrite E2. obind. cbn [snd].
  destruct (op_close_spec fs2 0 Hok2) as (st3 & fs3 & E3 & Hok3 & _); [done |]. rewrite E3. obind. cbn [snd].
  destruct (op_open_spec fs3 ex_path [47; 97] 11 0 Hok3 ex_path_str) as (st4 & h4 & fs4 & E4 & Hok4 & _).
  rewrite E4. obind. cbn [snd]. exists fs4. split; [done |].
  vm_compute in E1. injection E1 as <- <- <-. vm_compute in E2. injection E2 as <- <- <-.
  vm_compute in E3. injection E3 as <- <-. vm_compute in E4. injection E4 as <- <- <-.
  split; [done |]. eexists 11, _. split; [split; [done |]; split; done |]. split; [by vm_compute |]. split; [by vm_compute |]. split; [done |]. split; by vm_compute.
Qed.

(** Truncation does not clear a file.  A file that is empty again after
    truncation shows its old bytes once something is written beyond its end:
    the gap of such a write is filled with what the buffer still holds. *)
Theorem tmpfs_truncate_keeps_bytes :
  exists fs fs', represents fs 0 1 reopened_file /\
    file_runs [FileSeek 3; FileWrite [9]; FileSeek 0; FileRead 4] fs 0 =
      Some ([(VFS_OK, []); (VFS_OK, []); (VFS_OK, []); (VFS_OK, [7; 7; 7; 9])], fs').
Proof.
  destruct reopened_ok as (fs & E & Hrep). exists fs.
  vm_compute in E. injection E as <-. eexists. split; [done |]. vm_compute. reflexivity.
Qed.

(** A path that starts with two slashes can be created but not found: the
    first open creates the file, the second one reports that it exists, and a
    plain open does not find it. *)
Theorem tmpfs_double_slash :
  exists fs h, op_open (Some ex_fs) (Some [47; 47; 97; 0]) 7 (Some 0) = Some (VFS_OK, Some h, Some fs) /\
    op_open (Some fs) (Some [47; 47; 97; 0]) 7 (Some 0) = Some (VFS_EXISTS, Some 0, Some fs) /\
    op_open (Some fs) (Some [47; 47; 97; 0]) 3 (Some 0) = Some (VFS_NOT_FOUND, Some 0, Some fs).
Proof.
  eexists _, _. split; [vm_compute; reflexivity |]. split; vm_compute; reflexivity.
Qed.

Lemma tmpfs_resolve_correct_witness :
  exists r, resolve_node (Some ex_fs) (Some ex_path) = Some r /\ (r = -1 \/ 0 <= r < TMPFS_MAX_NODES).
Proof.
  destruct (tmpfs_resolve_correct ex_fs ex_path [47; 97] ex_fs_ok ex_path_str) as (r & E & _ & Hr). by exists r.
Defined.

Lemma tmpfs_open_correct_witness :
  exists h fs', op_open (Some ex_fs) (Some ex_path) 7 (Some 0) = Some (VFS_OK, Some h, Some fs') /\ fs_ok fs'.
Proof.
  destruct (tmpfs_open_correct ex_fs ex_path [47; 97] 7 0 ex_fs_ok ex_path_str) as (st & h & fs' & E & Hok & _).
  assert ((fun r => r.1.1) <$> op_open (Some ex_fs) (Some ex_path) 7 (Some 0) = Some VFS_OK) as Est by (vm_compute; reflexivity).
  rewrite E in Est. injection Est as ->. by exists h, fs'.
Defined.

Lemma tmpfs_files_refine_witness :
  exists fs fs', file_runs [FileWrite [1; 2]; FileSeek 1; FileRead 9; FileSeek 5; FileWrite [9]; FileSeek 2049; FileSeek 0; FileRead 9] fs 0 =
    Some ([(VFS_OK, []); (VFS_OK, []); (VFS_OK, [2]); (VFS_OK, []); (VFS_OK, []); (VFS_BAD_ARGUMENT, []); (VFS_OK, []); (VFS_OK, [1; 2; 7; 0; 0; 9])], fs').
Proof.
  destruct reopened_ok as (fs & _ & Hrep).
  set (ops := [FileWrite [1; 2]; FileSeek 1; FileRead 9; FileSeek 5; FileWrite [9]; FileSeek 2049; FileSeek 0; FileRead 9]).
  assert (Forall file_op_ok ops) as Hops by (repeat (apply Forall_cons_2; [first [by apply (bool_decide_unpack (bytes_ok _)) | done] |]); apply Forall_nil_2).
  assert (fst (file_specs ops reopened_file) =
    [(VFS_OK, []); (VFS_OK, []); (VFS_OK, [2]); (VFS_OK, []); (VFS_OK, []); (VFS_BAD_ARGUMENT, []); (VFS_OK, []); (VFS_OK, [1; 2; 7; 0; 0; 9])]) as Hs by (vm_compute; reflexivity).
  pose proof (tmpfs_files_refine ops fs 0 1 reopened_file Hrep Hops) as H.
  destruct (file_specs ops reopened_file) as [rs f']. cbn [fst] in Hs. subst rs. destruct H as (fs' & E & _). exists fs, fs'. exact E.
Defined.

(** Two file systems behind one table, for the virtual file system. *)
Definition ex_get (c : bool) (w : tmpfs_t * tmpfs_t) : tmpfs_t := if c then w.1 else w.2.
Definition ex_set (c : bool) (f : tmpfs_t) (w : tmpfs_t * tmpfs_t) : tmpfs_t * tmpfs_t :=
  if c then (f, w.2) else (w.1, f).

#[export] Instance ex_contexts : Contexts ex_get ex_set.
Proof. by split; intros [] *; try destruct c'. Qed.

Definition ex_vfs : vfs_state bool (tmpfs_t * tmpfs_t) :=
  vfs_init (mk_vfs (replicate 8 (mk_mount false (replicate 128 0) None None)) (replicate 16 (mk_handle false 0 0))).

Lemma ex_vfs_inv : vfs_inv (operations ex_get ex_set) ex_vfs.
Proof. apply vfs_init_inv; [done | done |]. by apply Forall_replicate. Qed.

Lemma vfs_histories_safe_witness :
  exists v w, vfs_run (operations ex_get ex_set)
    [CallMount [47; 0] true; CallOpen ex_path 7; CallWrite 0 [1; 2; 3] 3; CallSeek 99 0; CallClose 5]
    (ex_vfs, (ex_fs, ex_fs)) = Some (v, w) /\ vfs_ok v.
Proof.
  destruct (vfs_histories_safe (operations ex_get ex_set) (all_ok ex_get)
    [CallMount [47; 0] true; CallOpen ex_path 7; CallWrite 0 [1; 2; 3] 3; CallSeek 99 0; CallClose 5]
    ex_vfs (ex_fs, ex_fs)) as (v & w & E & Hv & _).
  - apply ex_vfs_inv.
  - intros []; apply ex_fs_ok.
  - apply Forall_cons. split; [exists [47]; apply (is_str_cstr [47]); by repeat constructor |].
    apply Forall_cons. split; [eexists; apply ex_path_str |].
    apply Forall_cons. split; [split_and!; try done; by apply (bool_decide_unpack (bytes_ok [1; 2; 3])) |].
    apply Forall_cons. split; [done |]. apply Forall_cons. by split.
  - by exists v, w.
Defined.

Lemma resolve_mount_correct_witness :
  exists r, resolve_mount ex_vfs ex_path = Some r.
Proof.
  destruct (resolve_mount_correct ex_vfs ex_path [47; 97]) as (r & E & _);
    [apply ex_vfs_inv | apply ex_path_str | by exists r].
Defined.
