(* ===== verification/Storage.v ===== *)
(** * Storage services (kernel/src/storage_services.c, storage_services.h)

    The log, settings and device services: two in-memory file systems, mounted
    at / and /var, behind the virtual file system. *)

From stdpp Require Import base numbers list strings.
From Stdlib Require Import ZArith Lia.
From S2P Require Import Prelude Bytes Vfs Tmpfs.

#[local] Open Scope Z_scope.

(** The static file systems, by name, and their state. *)
Inductive fs_id := ROOT_FS | VAR_FS.

#[export] Instance fs_id_eq_dec : EqDecision fs_id.
Proof. solve_decision. Defined.

Record filesystems := mk_filesystems { root_fs : tmpfs_t; var_fs : tmpfs_t }.

Definition fs_get (c : fs_id) (w : filesystems) : tmpfs_t :=
  match c with ROOT_FS => root_fs w | VAR_FS => var_fs w end.
Definition fs_set (c : fs_id) (f : tmpfs_t) (w : filesystems) : filesystems :=
  match c with ROOT_FS => mk_filesystems f (var_fs w) | VAR_FS => mk_filesystems (root_fs w) f end.

#[export] Instance fs_contexts : Contexts fs_get fs_set.
Proof. by split; intros [] *; try destruct c'. Qed.

Abbreviation tmpfs_operations := (operations fs_get fs_set).

(** The static variables. *)
Record storage := mk_storage {
  svfs : vfs_state fs_id filesystems;
  sfs : filesystems;
  log_offset : Z;
  initialised : bool;
}.

Definition set_state (s : storage) v w : storage := mk_storage v w (log_offset s) (initialised s).

(** The string literals. *)
Definition root_path : list Z := [47; 0].
Definition var_path : list Z := [47; 118; 97; 114; 0].
Definition settings_path : list Z := [47; 115; 101; 116; 116; 105; 110; 103; 115; 0].
Definition devices_path : list Z := [47; 100; 101; 118; 105; 99; 101; 115; 0].
Definition settings_prefix : list Z := [47; 115; 101; 116; 116; 105; 110; 103; 115; 47; 0].
Definition devices_prefix : list Z := [47; 100; 101; 118; 105; 99; 101; 115; 47; 0].
Definition log_path : list Z :=
  [47; 118; 97; 114; 47; 107; 101; 114; 110; 101; 108; 46; 108; 111; 103; 0].

Definition safe_char (c : Z) : bool :=
  ((97 <=? c) && (c <=? 122)) || ((65 <=? c) && (c <=? 90)) || ((48 <=? c) && (c <=? 57))
  || (c =? 45) || (c =? 95).

(** The loop of [safe_name] from character [i]. *)
Fixpoint safe_loop (name : list Z) (i : Z) : option bool :=
  match name with
  | [] => None
  | c :: name =>
      if c =? 0 then Some true
      else if negb (safe_char c) || (VFS_NAME_MAX <=? i) then Some false
      else safe_loop name (i + 1)
  end.

Definition safe_name (name : option (list Z)) : option bool :=
  match name with
  | None => Some false
  | Some name =>
      c ← rd name 0;
      if c =? 0 then Some false else safe_loop name 0
  end.

(** [None] is the result 0. *)
Definition make_path (path : list Z) (prefix : list Z) (name : option (list Z)) :
    option (option (list Z)) :=
  safe ← safe_name name;
  if negb safe then Some None
  else
    prefix_len ← string_length (Some prefix);
    name_len ← string_length name;
    if VFS_PATH_MAX <? u64 (prefix_len + name_len) then Some None
    else
      path ← copy_loop (Z.to_nat prefix_len) path 0 prefix 0;
      path ← copy_loop (Z.to_nat name_len) path prefix_len (default [] name) 0;
      path ← wr path (prefix_len + name_len) 0;
      Some (Some path).

Definition write_value (s : storage) (path value : option (list Z)) :
    option (vfs_status_t * storage) :=
  match path, value with
  | Some _, Some _ =>
      r ← vfs_open (svfs s) path (Z.lor (Z.lor VFS_OPEN_WRITE VFS_OPEN_CREATE) VFS_OPEN_TRUNC)
            (Some 0) (sfs s);
      let '(status, handle, v, w) := r in
      if bool_decide (status <> VFS_OK) then Some (status, set_state s v w)
      else
        handle ← handle;
        length ← string_length value;
        r ← vfs_write v handle value length (Some 0) w;
        let '(status, written, w) := r in
        r ← vfs_close v handle w;
        let '(close_status, v, w) := r in
        if bool_decide (status <> VFS_OK) then Some (status, set_state s v w)
        else if bool_decide (close_status <> VFS_OK) then Some (close_status, set_state s v w)
        else
          written ← written;
          Some (if written =? length then VFS_OK else VFS_IO_ERROR, set_state s v w)
  | _, _ => Some (VFS_BAD_ARGUMENT, s)
  end.

Definition read_value (s : storage) (path buffer : option (list Z)) (capacity : Z)
    (read_out : option Z) : option (vfs_status_t * option (list Z) * option Z * storage) :=
  match path, buffer, read_out with
  | Some _, Some _, Some _ =>
      r ← vfs_open (svfs s) path VFS_OPEN_READ (Some 0) (sfs s);
      let '(status, handle, v, w) := r in
      if bool_decide (status <> VFS_OK) then Some (status, buffer, read_out, set_state s v w)
      else
        handle ← handle;
        r ← vfs_read v handle buffer capacity read_out w;
        let '(status, buffer, read_out, w) := r in
        r ← vfs_close v handle w;
        let '(close_status, v, w) := r in
        Some (if bool_decide (status <> VFS_OK) then status else close_status,
              buffer, read_out, set_state s v w)
  | _, _, _ => Some (VFS_BAD_ARGUMENT, buffer, read_out, s)
  end.

(** A step of the initialisation: stop unless its status is [VFS_OK]. *)
Definition and_then (r : option (vfs_status_t * storage))
    (k : storage -> option (vfs_status_t * storage)) : option (vfs_status_t * storage) :=
  r ← r;
  if bool_decide (r.1 <> VFS_OK) then Some r else k r.2.

Definition mount_step (s : storage) (path : list Z) (c : fs_id) : option (vfs_status_t * storage) :=
  r ← vfs_mount (svfs s) (Some path) (Some c) (tmpfs_ops fs_get fs_set);
  Some (r.1, set_state s r.2 (sfs s)).

Definition mkdir_step (s : storage) (path : list Z) : option (vfs_status_t * storage) :=
  r ← vfs_mkdir (svfs s) (Some path) (Z.lor VFS_PERM_READ VFS_PERM_WRITE) (sfs s);
  Some (r.1, set_state s (svfs s) r.2).

Definition storage_services_init (s : storage) : option (vfs_status_t * storage) :=
  root ← tmpfs_init (Some (root_fs (sfs s)));
  var ← tmpfs_init (Some (var_fs (sfs s)));
  let s := mk_storage (vfs_init (svfs s)) (mk_filesystems root var) 0 (initialised s) in
  and_then (mount_step s root_path ROOT_FS) (fun s =>
  and_then (mkdir_step s var_path) (fun s =>
  and_then (mkdir_step s settings_path) (fun s =>
  and_then (mkdir_step s devices_path) (fun s =>
  and_then (mount_step s var_path VAR_FS) (fun s =>
  Some (VFS_OK, mk_storage (svfs s) (sfs s) (log_offset s) true)))))).

Definition log_service_append (s : storage) (text : option (list Z)) :
    option (vfs_status_t * storage) :=
  match text with
  | Some _ =>
      if negb (initialised s) then Some (VFS_BAD_ARGUMENT, s)
      else
        r ← vfs_open (svfs s) (Some log_path) (Z.lor VFS_OPEN_WRITE VFS_OPEN_CREATE) (Some 0) (sfs s);
        let '(status, handle, v, w) := r in
        if bool_decide (status <> VFS_OK) then Some (status, set_state s v w)
        else
          handle ← handle;
          r ← vfs_seek v handle (log_offset s) w;
          let '(status, w) := r in
          r ← (if bool_decide (status = VFS_OK) then
                 length ← string_length text;
                 r ← vfs_write v handle text length (Some 0) w;
                 let '(status, written, w) := r in
                 written ← written;
                 Some (status, w, if bool_decide (status = VFS_OK)
                                  then u64 (log_offset s + written) else log_offset s)
               else Some (status, w, log_offset s));
          let '(status, w, offset) := r in
          r ← vfs_close v handle w;
          let '(close_status, v, w) := r in
          Some (if bool_decide (status <> VFS_OK) then status else close_status,
                mk_storage v w offset (initialised s))
  | None => Some (VFS_BAD_ARGUMENT, s)
  end.

Definition log_service_read (s : storage) (buffer : option (list Z)) (capacity : Z)
    (read_out : option Z) : option (vfs_status_t * option (list Z) * option Z * storage) :=
  if negb (initialised s) then Some (VFS_BAD_ARGUMENT, buffer, read_out, s)
  else read_value s (Some log_path) buffer capacity read_out.

(** The local [path] array, whose content [make_path] overwrites. *)
Definition path_array : list Z := replicate (Z.to_nat (VFS_PATH_MAX + 1)) 0.

Definition settings_service_set (s : storage) (key value : option (list Z)) :
    option (vfs_status_t * storage) :=
  if negb (initialised s) then Some (VFS_BAD_ARGUMENT, s)
  else
    path ← make_path path_array settings_prefix key;
    match path with
    | None => Some (VFS_BAD_ARGUMENT, s)
    | Some _ => write_value s path value
    end.

Definition settings_service_get (s : storage) (key buffer : option (list Z)) (capacity : Z)
    (read_out : option Z) : option (vfs_status_t * option (list Z) * option Z * storage) :=
  if negb (initialised s) then Some (VFS_BAD_ARGUMENT, buffer, read_out, s)
  else
    path ← make_path path_array settings_prefix key;
    match path with
    | None => Some (VFS_BAD_ARGUMENT, buffer, read_out, s)
    | Some _ => read_value s path buffer capacity read_out
    end.

Definition device_service_publish (s : storage) (name value : option (list Z)) :
    option (vfs_status_t * storage) :=
  if negb (initialised s) then Some (VFS_BAD_ARGUMENT, s)
  else
    path ← make_path path_array devices_prefix name;
    match path with
    | None => Some (VFS_BAD_ARGUMENT, s)
    | Some _ => write_value s path value
    end.

Definition device_service_read (s : storage) (name buffer : option (list Z)) (capacity : Z)
    (read_out : option Z) : option (vfs_status_t * option (list Z) * option Z * storage) :=
  if negb (initialised s) then Some (VFS_BAD_ARGUMENT, buffer, read_out, s)
  else
    path ← make_path path_array devices_prefix name;
    match path with
    | None => Some (VFS_BAD_ARGUMENT, buffer, read_out, s)
    | Some _ => read_value s path buffer capacity read_out
    end.

(** ** Names of settings and devices *)

Definition safe_key (k : list Z) : Prop :=
  1 <= zlen k <= VFS_NAME_MAX /\ Forall (fun c => safe_char c = true) k.

Lemma safe_char_plain c : safe_char c = true -> c <> 0 /\ c <> SLASH /\ byte_ok c.
Proof.
  unfold safe_char, byte_ok. rewrite !orb_true_iff, !andb_true_iff, !Z.leb_le, !Z.eqb_eq. lia.
Qed.

Lemma safe_key_valid k : safe_key k -> valid_name k.
Proof.
  intros [Hl Hk]. split; [done |]. intros Hin. apply (proj1 (Forall_forall _ _) Hk) in Hin. by vm_compute in Hin.
Qed.

Lemma safe_loop_spec p k i :
  is_str p k -> 0 <= i ->
  exists b, safe_loop p i = Some b /\
    (b = true <-> Forall (fun c => safe_char c = true) k /\ (k = [] \/ i + zlen k <= VFS_NAME_MAX)).
Proof.
  revert p i. induction k as [| c k IH]; intros p i Hp Hi.
  - apply is_str_nil in Hp. destruct p as [| x p]; [done |]. injection Hp as ->.
    exists true. split; [done |]. split; [| done]. intros _. split; [constructor | by left].
  - apply is_str_cons in Hp as (q & -> & Hc & Hq). cbn [safe_loop].
    rewrite (proj2 (Z.eqb_neq c 0)) by done. pose proof (zlen_nonneg k). rewrite zlen_cons.
    destruct (negb (safe_char c) || (VFS_NAME_MAX <=? i)) eqn:E.
    + exists false. split; [done |]. split; [done |]. intros [[Hs _]%Forall_cons [? | ?]]; [done |].
      rewrite Hs in E. cbn in E. bool_cases. lia.
    + bool_cases. destruct (IH q (i + 1) Hq) as (b & -> & Hb); [lia |]. exists b. split; [done |]. rewrite Hb. split.
      * intros [Hk Hl]. split; [by constructor |]. right. destruct Hl as [-> | ?]; [rewrite zlen_nil |]; lia.
      * intros [[_ Hk]%Forall_cons [? | ?]]; [done |]. split; [done |]. right. lia.
Qed.

Lemma safe_name_spec p k :
  is_str p k -> exists b, safe_name (Some p) = Some b /\ (b = true <-> safe_key k).
Proof.
  intros Hp. unfold safe_name, safe_key. destruct (decide (k = [])) as [-> | Hk].
  - apply is_str_nil in Hp as ->. obind. exists false. split; [done |]. split; [done |].
    intros [[? _] _]. by change (zlen []) with 0 in *.
  - destruct (is_str_first p k Hp Hk) as (c & -> & Hc). obind. rewrite (proj2 (Z.eqb_neq c 0)) by done.
    destruct (safe_loop_spec p k 0 Hp) as (b & -> & Hb); [lia |]. exists b. split; [done |]. rewrite Hb.
    assert (1 <= zlen k) by (destruct k; [done | rewrite zlen_cons; pose proof (zlen_nonneg k); lia]).
    split; [intros [? [? | ?]] | intros [? ?]]; [done | split; [lia | done] | split; [done | right; lia]].
Qed.

Lemma make_path_spec prefix pre p k :
  is_str prefix pre -> zlen pre <= 16 -> is_str p k ->
  exists r, make_path path_array prefix (Some p) = Some r /\
    (r = None /\ ~ safe_key k \/ exists q, r = Some q /\ safe_key k /\ is_str q (pre ++ k)).
Proof.
  intros Hpre Hl Hp. unfold make_path.
  destruct (safe_name_spec p k Hp) as (b & -> & Hb). obind. destruct b; cbn [negb].
  2: { exists None. split; [done |]. left. split; [done |]. intros Hk. by apply Hb in Hk. }
  destruct (proj1 Hb eq_refl) as [Hkl Hks]. unfold VFS_NAME_MAX in Hkl.
  rewrite (string_length_spec prefix pre Hpre), (string_length_spec p k Hp). obind.
  pose proof (zlen_nonneg pre). pose proof (zlen_is_str _ _ Hpre). pose proof (zlen_is_str _ _ Hp).
  rewrite u64_small by lia. rewrite (proj2 (Z.ltb_ge VFS_PATH_MAX _)) by (unfold VFS_PATH_MAX; lia).
  assert (zlen path_array = 128) as Hz by done. change (default [] (Some p)) with p.
  assert (slice prefix 0 (zlen pre) = pre) as E1.
  { destruct Hpre as (_ & rest & ->). by rewrite slice_app_l, slice_all by lia. }
  assert (slice p 0 (zlen k) = k) as E2.
  { destruct Hp as (_ & rest & ->). by rewrite slice_app_l, slice_all by lia. }
  rewrite copy_loop_spec, Z2Nat.id, E1 by lia. obind.
  rewrite copy_loop_spec, Z2Nat.id, E2 by (rewrite ?zlen_blit; lia). obind.
  rewrite blit_blit by lia.
  rewrite wr_blit by (rewrite zlen_blit; rewrite ?zlen_app; lia). obind.
  rewrite blit_blit by (rewrite ?zlen_app; change (zlen [0]) with 1; lia).
  eexists. split; [done |]. right. eexists. split; [done |]. split; [by apply Hb |].
  split; [apply Forall_app; split; [apply Hpre | apply Hp] |].
  unfold blit. rewrite take_0. cbn [app]. rewrite <- app_assoc. by eexists.
Qed.

Lemma fs_set_set c (f g : tmpfs_t) w : fs_set c g (fs_set c f w) = fs_set c g w.
Proof. by destruct c. Qed.

(** ** One file at a time, through the virtual file system *)

Section OneFile.
Context (v : vfs_state fs_id filesystems) (w : filesystems) (p q : list Z) (i : Z) (c : fs_id).
Context (Hlh : zlen (handles v) = VFS_MAX_HANDLES)
  (Hfree : Forall (fun h => handle_used h = false) (handles v))
  (Hres : resolve_mount v p = Some (Some (i, q)))
  (Hops : ops_of v i = Some (Some c, tmpfs_operations)).

Lemma first_handle : exists h0 rest, handles v = h0 :: rest /\ handle_used h0 = false.
Proof.
  destruct (handles v) as [| h0 rest]; [done |]. apply Forall_cons in Hfree as [? _]. by exists h0, rest.
Qed.

(** The handle table while a file is open. *)
Definition open_vfs (b : Z) : vfs_state fs_id filesystems :=
  set_handles v (<[O := mk_handle true i b]> (handles v)).
Definition closed_vfs (b : Z) : vfs_state fs_id filesystems :=
  set_handles v (<[O := mk_handle false i b]> (handles v)).

Lemma vfs_open_at flags st b f :
  Z.land flags 3 <> 0 ->
  op_open (Some (fs_get c w)) (Some q) flags (Some 0) = Some (st, Some b, Some f) ->
  vfs_open v (Some p) flags (Some 0) w =
    if bool_decide (st = VFS_OK) then Some (VFS_OK, Some 0, open_vfs b, fs_set c f w)
    else Some (st, Some 0, v, fs_set c f w).
Proof.
  intros Hf Hop. unfold vfs_open. change (Z.lor VFS_OPEN_READ VFS_OPEN_WRITE) with 3.
  rewrite (proj2 (Z.eqb_neq _ 0)) by done. rewrite Hres. obind.
  destruct first_handle as (h0 & rest & Eh & Hh0). rewrite Eh. cbn [free_handle]. rewrite Hh0.
  change (0 =? VFS_MAX_HANDLES) with false. cbn iota. rewrite Hops. obind. cbn [fst snd operations fs_open].
  obind. cbn [load fmap option_fmap option_map]. rewrite Hop. obind. cbn [fst snd store].
  destruct (decide (st = VFS_OK)) as [-> | Hst].
  - rewrite bool_decide_eq_false_2, bool_decide_eq_true_2 by (done || by intros ?). obind.
    rewrite wr_in_range by (unfold zlen; cbn; lia). obind. unfold open_vfs. by rewrite Eh.
  - by rewrite bool_decide_eq_true_2, bool_decide_eq_false_2.
Qed.

Lemma get_handle_open b : get_handle (open_vfs b) 0 = Some (Some (mk_handle true i b)).
Proof. destruct first_handle as (h0 & rest & Eh & _). unfold get_handle, open_vfs. cbn. by rewrite Eh. Qed.

Lemma ops_of_open b : ops_of (open_vfs b) i = Some (Some c, tmpfs_operations).
Proof. exact Hops. Qed.

Lemma vfs_write_at b buf n st r f w1 :
  op_write (Some (fs_get c w1)) b (Some buf) n (Some 0) = Some (st, r, Some f) ->
  vfs_write (open_vfs b) 0 (Some buf) n (Some 0) w1 = Some (st, r, fs_set c f w1).
Proof.
  intros Hop. unfold vfs_write. rewrite get_handle_open. obind. cbn [mount_index]. rewrite ops_of_open. obind.
  cbn [fst snd operations fs_write]. obind. cbn [load fmap option_fmap option_map backend_handle]. by rewrite Hop.
Qed.

Lemma vfs_read_at b buf n r0 st buf' r f w1 :
  op_read (Some (fs_get c w1)) b (Some buf) n (Some r0) = Some (st, buf', r, Some f) ->
  vfs_read (open_vfs b) 0 (Some buf) n (Some r0) w1 = Some (st, buf', r, fs_set c f w1).
Proof.
  intros Hop. unfold vfs_read. rewrite get_handle_open. obind. cbn [mount_index]. rewrite ops_of_open. obind.
  cbn [fst snd operations fs_read]. obind. cbn [load fmap option_fmap option_map backend_handle]. by rewrite Hop.
Qed.

Lemma vfs_seek_at b o st f w1 :
  op_seek (Some (fs_get c w1)) b o = Some (st, Some f) ->
  vfs_seek (open_vfs b) 0 o w1 = Some (st, fs_set c f w1).
Proof.
  intros Hop. unfold vfs_seek. rewrite get_handle_open. obind. cbn [mount_index]. rewrite ops_of_open. obind.
  cbn [fst snd operations fs_seek]. obind. cbn [load fmap option_fmap option_map backend_handle]. by rewrite Hop.
Qed.

Lemma vfs_close_at b st f w1 :
  op_close (Some (fs_get c w1)) b = Some (st, Some f) ->
  vfs_close (open_vfs b) 0 w1 = Some (st, closed_vfs b, fs_set c f w1).
Proof.
  intros Hop. unfold vfs_close. rewrite get_handle_open. obind. cbn [mount_index]. rewrite ops_of_open. obind.
  cbn [fst snd operations fs_close]. obind. cbn [load fmap option_fmap option_map backend_handle].
  rewrite Hop. obind. destruct first_handle as (h0 & rest & Eh & _).
  unfold open_vfs, closed_vfs. cbn [handles set_handles]. rewrite Eh. cbn [insert list_insert].
  rewrite wr_in_range by (unfold zlen; cbn; lia). obind. done.
Qed.
End OneFile.

(** ** Values in a file system *)

Definition plain_file (ns : list tmpfs_node_t) (j : Z) : Prop :=
  exists n, rd ns j = Some n /\ node_type n = VFS_NODE_FILE /\ permissions n = 3.

Definition no_handles (fs : tmpfs_t) : Prop := forall h o, ~ handle_at fs h o.

(** The file [c] of the directory [dir] holds [bs]. *)
Definition value_at (ns : list tmpfs_node_t) (dir : Z) (c bs : list Z) : Prop :=
  exists j, is_child ns dir c j /\ contents ns j bs.

(** The path [s] stands for the plain file [c] of the directory [dir], which
    may not exist yet. *)
Definition file_slot (fs : tmpfs_t) (s : list Z) (dir : Z) (c : list Z) : Prop :=
  parent_of (nodes fs) s dir c /\ s <> SLASH :: SLASH :: c /\
  (forall j, names (nodes fs) s j <-> is_child (nodes fs) dir c j) /\
  (forall j, is_child (nodes fs) dir c j -> plain_file (nodes fs) j).

(** The change of one file: nothing but the file [c] of [dir] differs. *)
Definition only_file (fs fs' : tmpfs_t) (dir : Z) (c : list Z) : Prop :=
  (forall d x i, (d <> dir \/ x <> c) -> is_child (nodes fs') d x i <-> is_child (nodes fs) d x i) /\
  (forall d x i, (d <> dir \/ x <> c) -> is_child (nodes fs) d x i -> rd (nodes fs') i = rd (nodes fs) i) /\
  (forall i, is_dir (nodes fs) i -> is_dir (nodes fs') i).

Lemma only_file_trans fs1 fs2 fs3 dir c :
  only_file fs1 fs2 dir c -> only_file fs2 fs3 dir c -> only_file fs1 fs3 dir c.
Proof.
  intros (A1 & A2 & A3) (B1 & B2 & B3). split; [| split].
  - intros d x i Hne. by rewrite B1, A1.
  - intros d x i Hne Hc. rewrite (B2 d x i), (A2 d x i); try done. by apply A1.
  - auto.
Qed.

(** A child of one directory and name is no other one. *)
Lemma is_child_same ns d x d' x' i : is_child ns d x i -> is_child ns d' x' i -> d = d' /\ x = x'.
Proof.
  intros (_ & n & Hn & _ & Hp & Hs) (_ & n' & Hn' & _ & Hp' & Hs'). assert (n' = n) as -> by congruence.
  split; [congruence | by eapply is_str_det].
Qed.

Lemma only_file_same_tree fs fs' dir c j :
  is_child (nodes fs) dir c j -> same_tree (nodes fs) (nodes fs') ->
  (forall i, i <> j -> rd (nodes fs') i = rd (nodes fs) i) -> only_file fs fs' dir c.
Proof.
  intros Hj (T1 & T2 & _) Hrd. split; [intros d x i _; apply T1 |]. split; [| intros i; apply T2].
  intros d x i Hne Hi. apply Hrd. intros ->. destruct (is_child_same _ _ _ _ _ _ Hi Hj) as [-> ->].
  by destruct Hne.
Qed.

Lemma only_file_created fs fs' s dir c ty perm j :
  fs_ok fs -> created fs fs' s dir c ty perm j -> only_file fs fs' dir c.
Proof.
  intros Hfs (_ & _ & _ & (n & Hn & Hu) & Hrd & Hch & Hd & _). split; [| split; [| done]].
  - intros d x i Hne. rewrite Hch. split; [| by left]. intros [? | (_ & -> & ->)]; [done |]. by destruct Hne.
  - intros d x i Hne Hi. apply Hrd. intros ->. destruct Hi as (_ & m & Hm & Hmu & _). congruence.
Qed.

Lemma only_file_nodes fs fs' dir c : nodes fs' = nodes fs -> only_file fs fs' dir c.
Proof. intros E. unfold only_file. rewrite E. by split_and!. Qed.

Lemma only_file_values fs fs' dir c d x bs :
  only_file fs fs' dir c -> d <> dir \/ x <> c ->
  value_at (nodes fs') d x bs <-> value_at (nodes fs) d x bs.
Proof.
  intros (H1 & H2 & _) Hne. split; intros (j & Hj & n & Hn & ->).
  - apply H1 in Hj; [| done]. exists j. split; [done |]. exists n. by rewrite <- (H2 d x).
  - exists j. split; [by apply H1 |]. exists n. by rewrite (H2 d x).
Qed.

(** An open on such a path: the file exists, or it is created, or the table of
    nodes is full. *)
Lemma open_slot fs q s dir c flags :
  fs_ok fs -> no_handles fs -> is_str q s -> file_slot fs s dir c ->
  exists st h fs', op_open (Some fs) (Some q) flags (Some 0) = Some (st, Some h, Some fs') /\ fs_ok fs' /\
    ((forall j, ~ is_child (nodes fs) dir c j) /\ st <> VFS_OK /\ fs' = fs /\
       (bit_set flags VFS_OPEN_CREATE = false \/ st = VFS_NO_SPACE) \/
     st = VFS_OK /\ only_file fs fs' dir c /\
     exists j n, is_child (nodes fs') dir c j /\ rd (nodes fs') j = Some n /\
       node_type n = VFS_NODE_FILE /\ permissions n = 3 /\
       handle_at fs' h (mk_open true j flags 0) /\ (forall k o, k <> h -> ~ handle_at fs' k o) /\
       ((exists n0, is_child (nodes fs) dir c j /\ rd (nodes fs) j = Some n0 /\ n = opened_node n0 flags) \/
        (forall i, ~ is_child (nodes fs) dir c i) /\ bit_set flags VFS_OPEN_CREATE = true /\ node_size n = 0)).
Proof.
  intros Hfs Hnoh Hq (Hpar & Hnds & Hnames & Hplain).
  destruct (op_open_spec fs q s flags 0 Hfs Hq) as (st & h & fs' & -> & Hok & Hout).
  eexists _, _, _. split; [done |]. split; [done |].
  assert (~ Forall (fun o => open_used o = true) (opens fs)) as Hroom.
  { intros Hall. pose proof Hfs as (_ & Hlo & _). destruct (rd_in_range (opens fs) 0) as [o Ho]; [by rewrite Hlo |].
    pose proof Ho as [_ Hlk]%rd_lookup. apply (Hnoh 0 o). split; [done |]. split; [done |].
    by apply (Forall_lookup_1 _ _ _ _ Hall Hlk). }
  assert (Hopened : forall fs1 j n0, fs_ok fs1 -> is_child (nodes fs1) dir c j -> rd (nodes fs1) j = Some n0 ->
    node_type n0 = VFS_NODE_FILE -> permissions n0 = 3 -> opens fs1 = opens fs -> opened fs1 fs' j flags h ->
    only_file fs1 fs' dir c /\ is_child (nodes fs') dir c j /\ rd (nodes fs') j = Some (opened_node n0 flags) /\
    handle_at fs' h (mk_open true j flags 0) /\ (forall k o, k <> h -> ~ handle_at fs' k o)).
  { intros fs1 j n0 Hok1 Hc Hn0 _ _ Ho1 (n1 & Hn1 & _ & Hrd & Hoth & Htree & _ & Hh & Hrest).
    assert (n1 = n0) as -> by congruence.
    split; [by eapply only_file_same_tree |]. split; [by apply Htree |]. split; [done |]. split; [done |].
    intros k o Hk (Hr & Hko & Hu). rewrite Hrest, Ho1 in Hko by done. by apply (Hnoh k o). }
  assert (Hfields : forall n0, node_type n0 = VFS_NODE_FILE -> permissions n0 = 3 ->
    node_type (opened_node n0 flags) = VFS_NODE_FILE /\ permissions (opened_node n0 flags) = 3)
    by (intros n0; unfold opened_node; by destruct (_ && _)).
  destruct Hout as [(j & n0 & Hj & Hn0 & Hcase) | (Hno & Hcase)].
  - apply Hnames in Hj. destruct (Hplain j Hj) as (n1 & Hn1 & Ht & Hp). assert (n1 = n0) as -> by congruence.
    destruct Hcase as [[-> Hop] | (_ & _ & _ & [[_ ?] | Hno])]; [| done |].
    + right. split; [done |]. destruct (Hopened fs j n0 Hfs Hj Hn0 Ht Hp eq_refl Hop) as (H1 & H2 & H3 & H4 & H5).
      split; [done |]. exists j, (opened_node n0 flags). destruct (Hfields n0 Ht Hp). split_and!; try done.
      left. by exists n0.
    + destruct Hno. split; [done |]. rewrite Hp. done.
  - assert (forall j, ~ is_child (nodes fs) dir c j) as Hnoc by (intros j Hj; by apply (Hno j), Hnames).
    destruct Hcase as [(Hcr & -> & -> & ->) | (Hcr & Hcase)]; [left; by split_and!; try left |].
    destruct Hcase as [(Hst & -> & -> & Hwhy) | (fs1 & dir' & c' & j & Hpar' & Hnoc' & Hc1 & Hok1 & Hcase)].
    + left. split; [done |]. split; [done |]. split; [done |]. right.
      destruct Hwhy as [? | [Hnp | (dir' & c' & i & Hpar' & Hi)]]; [done | by destruct (Hnp dir c) |].
      destruct (parent_of_det fs s dir c dir' c' Hfs Hpar Hpar') as [-> ->]. by destruct (Hnoc i).
    + destruct (parent_of_det fs s dir c dir' c' Hfs Hpar Hpar') as [<- <-].
      destruct Hcase as [[-> Hop] | (_ & _ & _ & ?)]; [| done]. right. split; [done |].
      pose proof Hc1 as (_ & Ho1 & (n0 & Hn0 & _ & Ht & Hsz & Hp) & _ & _ & Hch & _).
      assert (is_child (nodes fs1) dir c j) as Hj by (apply Hch; by right).
      destruct (Hopened fs1 j n0 Hok1 Hj Hn0 Ht Hp Ho1 Hop) as (H1 & H2 & H3 & H4 & H5).
      split; [eapply only_file_trans; [by eapply only_file_created | done] |].
      exists j, (opened_node n0 flags). destruct (Hfields n0 Ht Hp). split_and!; try done.
      right. split; [done |]. split; [done |]. unfold opened_node. by destruct (_ && _).
Qed.

(** Paths of one and of two components. *)
Lemma names_one ns a j :
  no_slash a -> a <> [] -> names ns (SLASH :: a) j <-> is_child ns 0 a j.
Proof.
  intros Ha Hne. split.
  - intros (t & [= <-] & [[? _] | [_ Hw]]); [done |]. rewrite split_no_slash in Hw by done.
    apply walks_cons_inv in Hw as (i & Hi & _ & Hw). by inversion Hw; subst.
  - intros Hj. exists a. split; [done |]. right. split; [done |]. rewrite split_no_slash by done.
    eapply walks_cons; [done | done | constructor].
Qed.

Lemma names_two ns a k j :
  no_slash a -> no_slash k ->
  names ns (SLASH :: a ++ SLASH :: k) j <->
  exists d, is_child ns 0 a d /\ is_dir ns d /\ is_child ns d k j.
Proof.
  intros Ha Hk. split.
  - intros (t & [= <-] & [[? _] | [_ Hw]]); [by destruct a |].
    rewrite split_slash, split_no_slash in Hw by done.
    apply walks_cons_inv in Hw as (d & Hd & Hdir & Hw). exists d. split; [done |]. split; [by apply Hdir |].
    apply walks_cons_inv in Hw as (i & Hi & _ & Hw). by inversion Hw; subst.
  - intros (d & Hd & Hdir & Hj). eexists. split; [done |]. right. split; [by destruct a |].
    rewrite split_slash, split_no_slash by done. eapply walks_cons; [done | done |].
    eapply walks_cons; [done | done | constructor].
Qed.

(** A directory [a] of the root that holds plain files. *)
Definition dir_ok (ns : list tmpfs_node_t) (a : list Z) (d : Z) : Prop :=
  is_child ns 0 a d /\ is_dir ns d /\ forall k j, is_child ns d k j -> plain_file ns j.

Lemma slot_two fs a d k :
  fs_ok fs -> valid_name a -> valid_name k -> dir_ok (nodes fs) a d ->
  file_slot fs (SLASH :: a ++ SLASH :: k) d k.
Proof.
  intros Hfs [Hal Ha] Hk (Hd & Hdir & Hplain). unfold VFS_NAME_MAX in Hal.
  assert (a <> []) as Hne by (intros ->; change (zlen []) with 0 in Hal; lia).
  split; [| split; [| split]].
  - exists (47 :: a). split; [done |]. split; [done |]. right. split; [done |].
    split; [rewrite zlen_cons; unfold VFS_PATH_MAX; lia |]. split; [by apply names_one | done].
  - destruct a as [| x a]; [done |]. intros [= -> _]. by destruct Ha; left.
  - intros j. rewrite names_two by (done || apply Hk). split.
    + intros (d' & Hd' & _ & Hj). pose proof Hfs as (_ & _ & _ & _ & Hu & _).
      by rewrite (Hu _ _ _ _ Hd' Hd) in Hj.
    + intros Hj. by exists d.
  - intros j Hj. by eapply Hplain.
Qed.

Lemma slot_one fs c :
  valid_name c -> (forall j, is_child (nodes fs) 0 c j -> plain_file (nodes fs) j) ->
  file_slot fs (SLASH :: c) 0 c.
Proof.
  intros [Hcl Hc] Hplain. assert (c <> []) as Hne by (intros ->; change (zlen []) with 0 in Hcl; lia).
  split; [| split; [| split]].
  - exists []. split; [done |]. split; [done |]. by left.
  - intros [= E]. destruct c as [| x c]; [done |]. injection E as -> _. by destruct Hc; left.
  - intros j. by apply names_one.
  - done.
Qed.

(** ** Storing and loading a value *)

Lemma close_only fs h o :
  fs_ok fs -> handle_at fs h o -> (forall k o', k <> h -> ~ handle_at fs k o') ->
  exists fs', op_close (Some fs) h = Some (VFS_OK, Some fs') /\ fs_ok fs' /\ nodes fs' = nodes fs /\
    no_handles fs'.
Proof.
  intros Hfs Ho Hoth. pose proof Ho as ([Hh0 _] & _).
  destruct (op_close_spec fs h Hfs Hh0) as (st & fs' & E & Hok & Hn & Hcase).
  destruct Hcase as [(Hno & _) | (_ & -> & Hno & Hk)]; [by destruct (Hno o) |].
  exists fs'. split; [done |]. split; [done |]. split; [done |].
  intros h' o' (Hr & Ho' & Hu). destruct (decide (h' = h)) as [-> | Hne]; [by apply (Hno o') |].
  rewrite Hk in Ho' by done. by apply (Hoth h' o').
Qed.

Lemma store_slot fs q s dir c pv bs :
  fs_ok fs -> no_handles fs -> is_str q s -> file_slot fs s dir c -> is_str pv bs -> bytes_ok pv ->
  exists st h fs1, op_open (Some fs) (Some q) 14 (Some 0) = Some (st, Some h, Some fs1) /\
    ((st = VFS_NO_SPACE /\ fs1 = fs /\ forall j, ~ is_child (nodes fs) dir c j) \/
     st = VFS_OK /\ exists st2 r fs2 fs3,
       op_write (Some fs1) h (Some pv) (zlen bs) (Some 0) = Some (st2, Some r, Some fs2) /\
       op_close (Some fs2) h = Some (VFS_OK, Some fs3) /\
       fs_ok fs3 /\ no_handles fs3 /\ only_file fs fs3 dir c /\
       (forall j, is_child (nodes fs3) dir c j -> plain_file (nodes fs3) j) /\
       if zlen bs <=? TMPFS_FILE_CAPACITY
       then st2 = VFS_OK /\ r = zlen bs /\ value_at (nodes fs3) dir c bs
       else st2 = VFS_NO_SPACE /\ value_at (nodes fs3) dir c []).
Proof.
  intros Hfs Hnoh Hq Hslot Hpv Hb.
  destruct (open_slot fs q s dir c 14 Hfs Hnoh Hq Hslot) as (st & h & fs1 & -> & Hok1 & Hout).
  eexists _, _, _. split; [done |]. destruct Hout as [(Hno & _ & -> & [? | ->]) | (-> & Honly & j & n & Hj & Hn & Ht & Hp & Hh & Hoth & Hsz)];
    [done | by left | right]. split; [done |].
  assert (node_size n = 0) as Hsize.
  { destruct Hsz as [(n0 & _ & _ & ->) | (_ & _ & ?)]; done. }
  pose proof Hh as ([Hh0 _] & _). pose proof (zlen_is_str _ _ Hpv). pose proof (zlen_nonneg bs).
  destruct (op_write_spec fs1 h pv (zlen bs) 0 Hok1) as (st2 & r & fs2 & Ew & Hok2 & Hw & Hfail & Hrest); [lia | lia | done |].
  specialize (Hw _ n Hh Hn). cbn [open_flags open_offset open_node] in Hw. rewrite Hsize in Hw.
  change (bit_set 14 VFS_OPEN_WRITE) with true in Hw. cbn [andb] in Hw. rewrite Z.add_0_l in Hw.
  assert (forall k o, k <> h -> ~ handle_at fs2 k o) as Hoth2.
  { intros k o Hk (Hr & Ho & Hu). rewrite Hrest in Ho by done. by apply (Hoth k o). }
  destruct (Z.leb_spec (zlen bs) TMPFS_FILE_CAPACITY).
  - destruct Hw as (-> & -> & Hh' & Hnode & Hcont & Hnodes & Htree). cbn [open_node] in *.
    destruct (close_only fs2 h _ Hok2 Hh' Hoth2) as (fs3 & Ec & Hok3 & Hn3 & Hnh3).
    eexists _, _, _, _. split; [exact Ew |]. split; [exact Ec |].
    assert (is_child (nodes fs2) dir c j) as Hj2 by (by apply Htree).
    split; [done |]. split; [done |]. split.
    { eapply only_file_trans; [exact Honly |]. eapply only_file_trans; [by eapply only_file_same_tree |].
      by apply only_file_nodes. }
    rewrite Hn3. split.
    { intros j' Hj'. pose proof Hok2 as (_ & _ & _ & _ & Hu & _). rewrite (Hu _ _ _ _ Hj' Hj2).
      eexists. split; [exact Hnode |]. by split. }
    split; [done |]. split; [done |]. exists j. split; [done |].
    assert (slice pv 0 (zlen bs) = bs) as Epv.
    { destruct Hpv as (_ & rest & ->). by rewrite slice_app_l, slice_all by lia. }
    rewrite Epv in Hcont. unfold written in Hcont. rewrite Z.max_l in Hcont by lia.
    change (slice (node_data n) 0 0) with (@nil Z) in Hcont. change (slice (node_data n) (0 + zlen bs) 0) with (@nil Z) in Hcont.
    by rewrite app_nil_r in Hcont.
  - rewrite (Hfail ltac:(by rewrite Hw)) in *. subst st2.
    destruct (close_only fs1 h _ Hok1 Hh Hoth) as (fs3 & Ec & Hok3 & Hn3 & Hnh3). eexists _, _, _, _. split; [exact Ew |]. split; [exact Ec |]. split; [done |]. split; [done |].
    split; [eapply only_file_trans; [exact Honly | by apply only_file_nodes] |]. rewrite Hn3. split.
    { intros j' Hj'. pose proof Hok1 as (_ & _ & _ & _ & Hu & _). rewrite (Hu _ _ _ _ Hj' Hj). by exists n. }
    split; [done |]. exists j. split; [done |]. exists n. split; [done |]. by rewrite Hsize.
Qed.

(** Reading the file of a slot leaves the file system as it was. *)
Lemma load_slot fs q s dir c buf cap r0 :
  fs_ok fs -> no_handles fs -> is_str q s -> file_slot fs s dir c -> 0 <= cap <= zlen buf ->
  exists st h fs1, op_open (Some fs) (Some q) 1 (Some 0) = Some (st, Some h, Some fs1) /\
    ((forall j, ~ is_child (nodes fs) dir c j) /\ st <> VFS_OK /\ fs1 = fs \/
     st = VFS_OK /\ exists bs fs2 fs3, value_at (nodes fs) dir c bs /\
       op_read (Some fs1) h (Some buf) cap (Some r0) =
         Some (VFS_OK, Some (blit buf 0 (slice bs 0 (Z.min cap (zlen bs)))), Some (Z.min cap (zlen bs)), Some fs2) /\
       op_close (Some fs2) h = Some (VFS_OK, Some fs3) /\
       fs_ok fs3 /\ no_handles fs3 /\ only_file fs fs3 dir c /\
       (forall j, is_child (nodes fs3) dir c j <-> is_child (nodes fs) dir c j) /\
       (forall j, is_child (nodes fs) dir c j -> rd (nodes fs3) j = rd (nodes fs) j)).
Proof.
  intros Hfs Hnoh Hq Hslot Hcap.
  destruct (open_slot fs q s dir c 1 Hfs Hnoh Hq Hslot) as (st & h & fs1 & -> & Hok1 & Hout).
  eexists _, _, _. split; [done |]. destruct Hout as [(Hno & Hst & -> & _) | (-> & Honly & j & n & Hj & Hn & Ht & Hp & Hh & Hoth & Hsz)];
    [by left | right]. split; [done |].
  destruct Hsz as [(n0 & Hj0 & Hn0 & En) | (_ & ? & _)]; [| done].
  change (opened_node n0 1) with n0 in En. subst n0.
  pose proof Hh as ([Hh0 _] & _). pose proof Hfs as (_ & _ & _ & Hns & Hu & _).
  pose proof Hn0 as [_ Hlk]%rd_lookup. destruct (Hns _ _ Hlk) as (_ & Hdl & _ & Hsz & _).
  set (bs := slice (node_data n) 0 (node_size n)).
  assert (contents (nodes fs1) j bs) as Hc by (by exists n).
  destruct (op_read_spec fs1 h buf cap r0 Hok1 Hh0 Hcap) as (st & b' & r' & fs2 & Er & Hok2 & Hn2 & Hl & Hread & _ & Hrest).
  destruct (Hread _ bs Hh eq_refl Hc) as (-> & -> & -> & Hh2). cbn [open_offset] in *.
  pose proof (zlen_nonneg bs). rewrite Z.sub_0_r, Z.max_r in * by lia.
  assert (zlen (slice bs 0 (Z.min cap (zlen bs))) = Z.min cap (zlen bs)) as Hz by (apply zlen_slice; lia).
  rewrite Hz in *.
  destruct (close_only fs2 h _ Hok2 Hh2) as (fs3 & Ec & Hok3 & Hn3 & Hnh3).
  { intros k o Hk (Hr & Ho & Hou). rewrite Hrest in Ho by done. by apply (Hoth k o). }
  exists bs, fs2, fs3. split; [exists j; split; [done | by exists n] |]. split; [exact Er |]. split; [exact Ec |].
  split; [done |]. split; [done |].
  split; [eapply only_file_trans; [exact Honly | apply only_file_nodes; congruence] |].
  rewrite Hn3, Hn2. pose proof Hok1 as (_ & _ & _ & _ & Hu1 & _). split.
  - intros i. split; intros Hi; [by rewrite (Hu1 _ _ _ _ Hi Hj) | by rewrite (Hu _ _ _ _ Hi Hj0)].
  - intros i Hi. rewrite (Hu _ _ _ _ Hi Hj0). congruence.
Qed.

(** Appending at the end of the file of a slot, or creating it. *)
Lemma append_slot fs q s dir c pv bs L :
  fs_ok fs -> no_handles fs -> is_str q s -> file_slot fs s dir c -> is_str pv bs -> bytes_ok pv ->
  (value_at (nodes fs) dir c L \/ L = [] /\ forall j, ~ is_child (nodes fs) dir c j) ->
  exists st h fs1, op_open (Some fs) (Some q) 6 (Some 0) = Some (st, Some h, Some fs1) /\
    ((st = VFS_NO_SPACE /\ fs1 = fs /\ forall j, ~ is_child (nodes fs) dir c j) \/
     st = VFS_OK /\ exists fs2 st3 r fs3 fs4,
       op_seek (Some fs1) h (zlen L) = Some (VFS_OK, Some fs2) /\
       op_write (Some fs2) h (Some pv) (zlen bs) (Some 0) = Some (st3, Some r, Some fs3) /\
       op_close (Some fs3) h = Some (VFS_OK, Some fs4) /\
       fs_ok fs4 /\ no_handles fs4 /\ only_file fs fs4 dir c /\
       (forall j, is_child (nodes fs4) dir c j -> plain_file (nodes fs4) j) /\
       if zlen L + zlen bs <=? TMPFS_FILE_CAPACITY
       then st3 = VFS_OK /\ r = zlen bs /\ value_at (nodes fs4) dir c (L ++ bs)
       else st3 = VFS_NO_SPACE /\ value_at (nodes fs4) dir c L).
Proof.
  intros Hfs Hnoh Hq Hslot Hpv Hb HL.
  destruct (open_slot fs q s dir c 6 Hfs Hnoh Hq Hslot) as (st & h & fs1 & -> & Hok1 & Hout).
  eexists _, _, _. split; [done |]. destruct Hout as [(Hno & _ & -> & [? | ->]) | (-> & Honly & j & n & Hj & Hn & Ht & Hp & Hh & Hoth & Hsz)];
    [done | by left | right]. split; [done |].
  pose proof Hok1 as (_ & _ & _ & Hns & Hu & _). pose proof Hn as [_ Hlk]%rd_lookup.
  destruct (Hns _ _ Hlk) as (_ & Hdl & _ & Hsize & _). unfold TMPFS_FILE_CAPACITY in Hdl, Hsize.
  assert (L = slice (node_data n) 0 (node_size n)) as EL.
  { destruct Hsz as [(n0 & Hj0 & Hn0 & ->) | (Hno & _ & ->)].
    - destruct HL as [(i & Hi & m & Hm & ->) | [-> Hno]]; [| by destruct (Hno j)].
      pose proof Hfs as (_ & _ & _ & _ & Hu0 & _). rewrite (Hu0 _ _ _ _ Hi Hj0) in Hm.
      assert (m = n0) as -> by congruence. done.
    - destruct HL as [(i & Hi & _) | [-> _]]; [by destruct (Hno i) | done]. }
  assert (zlen L = node_size n) as HzL by (rewrite EL; apply zlen_slice; lia).
  pose proof Hh as ([Hh0 _] & _). pose proof (zlen_is_str _ _ Hpv). pose proof (zlen_nonneg bs).
  destruct (op_seek_spec fs1 h (zlen L) Hok1 Hh0) as (st2 & fs2 & Es & Hok2 & Hn2 & Hseek & _ & Hrest2); [lia |].
  specialize (Hseek _ Hh). rewrite (proj2 (Z.leb_le _ _)) in Hseek by (unfold TMPFS_FILE_CAPACITY; lia).
  destruct Hseek as [-> Hh2]. cbn [open_node open_flags] in Hh2.
  destruct (op_write_spec fs2 h pv (zlen bs) 0 Hok2) as (st3 & r & fs3 & Ew & Hok3 & Hw & Hfail & Hrest3); [lia | lia | done |].
  rewrite <- Hn2 in Hn. specialize (Hw _ n Hh2 Hn). cbn [open_flags open_offset open_node] in Hw.
  change (bit_set 6 VFS_OPEN_WRITE) with true in Hw. cbn [andb] in Hw.
  assert (forall k o, k <> h -> ~ handle_at fs2 k o) as Hoth2.
  { intros k o Hk (Hr & Ho & Hou). rewrite Hrest2 in Ho by done. by apply (Hoth k o). }
  assert (is_child (nodes fs2) dir c j) as Hj2 by (by rewrite Hn2).
  assert (only_file fs fs2 dir c) as Honly2 by (eapply only_file_trans; [exact Honly | by apply only_file_nodes]).
  destruct (Z.leb_spec (zlen L + zlen bs) TMPFS_FILE_CAPACITY).
  - destruct Hw as (-> & -> & Hh3 & Hnode & Hcont & Hnodes & Htree). cbn [open_node] in *.
    destruct (close_only fs3 h _ Hok3 Hh3) as (fs4 & Ec & Hok4 & Hn4 & Hnh4).
    { intros k o Hk (Hr & Ho & Hou). rewrite Hrest3 in Ho by done. by apply (Hoth2 k o). }
    eexists _, _, _, _, _. split; [exact Es |]. split; [exact Ew |]. split; [exact Ec |].
    assert (is_child (nodes fs3) dir c j) as Hj3 by (by apply Htree).
    split; [done |]. split; [done |]. split.
    { eapply only_file_trans; [exact Honly2 |]. eapply only_file_trans; [by eapply only_file_same_tree |].
      by apply only_file_nodes. }
    rewrite Hn4. split.
    { intros j' Hj'. pose proof Hok3 as (_ & _ & _ & _ & Hu3 & _). rewrite (Hu3 _ _ _ _ Hj' Hj3).
      eexists. split; [exact Hnode |]. by split. }
    split; [done |]. split; [done |]. exists j. split; [done |].
    assert (slice pv 0 (zlen bs) = bs) as Epv.
    { destruct Hpv as (_ & rest & ->). by rewrite slice_app_l, slice_all by lia. }
    rewrite Epv in Hcont. unfold written in Hcont. rewrite Z.max_l, HzL, <- EL in Hcont by lia.
    change (slice (node_data n) (node_size n + zlen bs) 0) with (@nil Z) in Hcont.
    by rewrite app_nil_r in Hcont.
  - rewrite (Hfail ltac:(by rewrite Hw)) in *. subst st3.
    destruct (close_only fs2 h _ Hok2 Hh2 Hoth2) as (fs4 & Ec & Hok4 & Hn4 & Hnh4).
    eexists _, _, _, _, _. split; [exact Es |]. split; [exact Ew |]. split; [exact Ec |]. split; [done |]. split; [done |].
    split; [eapply only_file_trans; [exact Honly2 | by apply only_file_nodes] |]. rewrite Hn4. split.
    { intros j' Hj'. pose proof Hok2 as (_ & _ & _ & _ & Hu2 & _). rewrite (Hu2 _ _ _ _ Hj' Hj2). by exists n. }
    split; [done |]. exists j. split; [done |]. exists n. by split.
Qed.

(** ** The services *)

Definition var_name : list Z := [118; 97; 114].
Definition settings_name : list Z := [115; 101; 116; 116; 105; 110; 103; 115].
Definition devices_name : list Z := [100; 101; 118; 105; 99; 101; 115].
Definition log_name : list Z := [107; 101; 114; 110; 101; 108; 46; 108; 111; 103].

Lemma literal_str s : bool_decide (Forall (fun c => c <> 0) s) = true -> is_str (s ++ [0]) s.
Proof. intros H. apply is_str_cstr. by apply bool_decide_eq_true in H. Qed.

(** The mount table: / and /var. *)
Definition mounts_ok (v : vfs_state fs_id filesystems) : Prop :=
  vfs_inv tmpfs_operations v /\
  exists m0 m1 rest, mounts v = m0 :: m1 :: rest /\
    mount_used m0 = true /\ is_str (mount_path m0) [SLASH] /\ mount_context m0 = Some ROOT_FS /\
    mount_used m1 = true /\ is_str (mount_path m1) (SLASH :: var_name) /\ mount_context m1 = Some VAR_FS /\
    Forall (fun m => mount_used m = false) rest.

(** The log holds [L]. *)
Definition log_is (s : storage) (L : list Z) : Prop :=
  let ns := nodes (var_fs (sfs s)) in
  log_offset s = zlen L /\
  (value_at ns 0 log_name L \/ L = [] /\ forall j, ~ is_child ns 0 log_name j).

(** The services between calls: mounted, no file open, the two service
    directories present, and the log offset at the end of the log. *)
Definition storage_ok (s : storage) (ds dd : Z) (L : list Z) : Prop :=
  initialised s = true /\ mounts_ok (svfs s) /\
  Forall (fun h => handle_used h = false) (handles (svfs s)) /\
  (forall c, fs_ok (fs_get c (sfs s)) /\ no_handles (fs_get c (sfs s))) /\
  dir_ok (nodes (root_fs (sfs s))) settings_name ds /\
  dir_ok (nodes (root_fs (sfs s))) devices_name dd /\
  (forall j, is_child (nodes (var_fs (sfs s))) 0 log_name j -> plain_file (nodes (var_fs (sfs s))) j) /\
  log_is s L.

Lemma under_root s : under [SLASH] s <-> head s = Some SLASH.
Proof. done. Qed.

Lemma resolve_root v p s :
  mounts_ok v -> is_str p s -> head s = Some SLASH -> ~ under (SLASH :: var_name) s ->
  exists q, resolve_mount v p = Some (Some (0, q)) /\ is_str q s /\
    ops_of v 0 = Some (Some ROOT_FS, tmpfs_operations).
Proof.
  intros [[(Hl & Hms & _) Hare] (m0 & m1 & rest & Em & Hu0 & Hp0 & Hc0 & Hu1 & Hp1 & Hc1 & Hrest)] Hp Hh Hnv.
  destruct (resolve_mount_spec v p s Hms Hp) as (r & -> & Hr).
  unfold mounts_are in Hare. rewrite Em in Hare. apply Forall_cons in Hare as [Ha0 _]. destruct (Ha0 Hu0) as [Ho0 _].
  destruct r as [[i q] |].
  2: { cbn in Hr. rewrite Em in Hr. apply Forall_cons in Hr as [Hr _]. by destruct (Hr [47]). }
  destruct Hr as (m & mp & Hi & (Hu & Hmp & Hun) & Hq & _). rewrite Em in Hi. pose proof Hi as [Hi0 Hlk]%rd_lookup.
  destruct (Z.to_nat i) as [| [| k]] eqn:Ek.
  - assert (i = 0) as -> by lia. injection Hlk as <-. rewrite (is_str_det _ _ _ Hmp Hp0) in Hq.
    exists q. split; [done |]. split; [done |]. unfold ops_of. rewrite Em. change (rd (m0 :: m1 :: rest) 0) with (Some m0).
    obind. rewrite Ho0. obind. by rewrite Hc0.
  - injection Hlk as <-. rewrite (is_str_det _ _ _ Hmp Hp1) in Hun. done.
  - cbn in Hlk. pose proof (Forall_lookup_1 _ _ _ _ Hrest Hlk) as Hx. cbn in Hx. congruence.
Qed.

Lemma resolve_log v :
  mounts_ok v ->
  exists q, resolve_mount v log_path = Some (Some (1, q)) /\ is_str q (SLASH :: log_name) /\
    ops_of v 1 = Some (Some VAR_FS, tmpfs_operations).
Proof.
  intros [[(Hl & Hms & _) Hare] (m0 & m1 & rest & Em & Hu0 & Hp0 & Hc0 & Hu1 & Hp1 & Hc1 & Hrest)].
  set (s := 47 :: var_name ++ 47 :: log_name). assert (is_str log_path s) as Hp by (by apply (literal_str s)).
  assert (under (47 :: var_name) s) as Hun1 by (exists (47 :: log_name); split; [done | by right]).
  destruct (resolve_mount_spec v log_path s Hms Hp) as (r & -> & Hr).
  unfold mounts_are in Hare. rewrite Em in Hare. apply Forall_cons in Hare as [_ [Ha1 _]%Forall_cons]. destruct (Ha1 Hu1) as [Ho1 _].
  destruct r as [[i q] |].
  2: { cbn in Hr. rewrite Em in Hr. apply Forall_cons in Hr as [_ [Hr _]%Forall_cons]. by destruct (Hr (47 :: var_name)). }
  destruct Hr as (m & mp & Hi & (Hu & Hmp & Hun) & Hq & _ & Hmax). rewrite Em in Hi. pose proof Hi as [Hi0 Hlk]%rd_lookup.
  destruct (Z.to_nat i) as [| [| k]] eqn:Ek.
  - injection Hlk as <-. destruct (Hmax 1 m1 (47 :: var_name)) as [Hle _]; [by rewrite Em | done |].
    rewrite (is_str_det _ _ _ Hmp Hp0) in Hle. done.
  - assert (i = 1) as -> by lia. injection Hlk as <-. rewrite (is_str_det _ _ _ Hmp Hp1) in Hq.
    exists q. split; [done |]. split; [exact Hq |]. unfold ops_of. rewrite Em.
    change (rd (m0 :: m1 :: rest) 1) with (Some m1). obind. rewrite Ho1. obind. by rewrite Hc1.
  - cbn in Hlk. pose proof (Forall_lookup_1 _ _ _ _ Hrest Hlk) as Hx. cbn in Hx. congruence.
Qed.

(** The tables after a file has been opened and closed again. *)
Lemma closed_mounts_ok v i b :
  mounts_ok v -> mounts_ok (closed_vfs v i b).
Proof.
  intros [[(Hl & Hms & Hlh & Hhs) Hare] Hm]. split; [| done]. split; [| done]. split; [done |]. split; [done |].
  unfold closed_vfs. cbn. split; [by rewrite zlen_insert |]. by apply Forall_insert.
Qed.

Lemma closed_handles v i b :
  Forall (fun h => handle_used h = false) (handles v) ->
  Forall (fun h => handle_used h = false) (handles (closed_vfs v i b)).
Proof. intros H. by apply Forall_insert. Qed.

(** A service directory stays one when a file of it or of the other directory
    changes. *)
Lemma dir_ok_only_file fs fs' dir c a d :
  dir <> 0 -> only_file fs fs' dir c -> dir_ok (nodes fs) a d ->
  (forall j, is_child (nodes fs') dir c j -> plain_file (nodes fs') j) -> dir_ok (nodes fs') a d.
Proof.
  intros Hd0 (H1 & H2 & H3) (Hd & Hdir & Hplain) Hnew. split; [apply H1; [by left | done] |].
  split; [by apply H3 |]. intros k j Hj. destruct (decide (d = dir /\ k = c)) as [[-> ->] | Hne]; [by apply Hnew |].
  assert (d <> dir \/ k <> c) as Hne' by (destruct (decide (d = dir)); [right; tauto | by left]).
  pose proof Hj as Hj'. apply H1 in Hj'; [| done]. destruct (Hplain k j Hj') as (n & Hn & ?). exists n. by rewrite (H2 d k).
Qed.

(** The two services that keep values under keys. *)
Inductive keyed := Settings | Devices.

#[export] Instance keyed_eq_dec : EqDecision keyed.
Proof. solve_decision. Defined.

Definition keyed_set (svc : keyed) :=
  match svc with Settings => settings_service_set | Devices => device_service_publish end.
Definition keyed_get (svc : keyed) :=
  match svc with Settings => settings_service_get | Devices => device_service_read end.
Definition keyed_name (svc : keyed) : list Z :=
  match svc with Settings => settings_name | Devices => devices_name end.
Definition keyed_dir (svc : keyed) (ds dd : Z) : Z :=
  match svc with Settings => ds | Devices => dd end.
Definition keyed_prefix (svc : keyed) : list Z :=
  match svc with Settings => settings_prefix | Devices => devices_prefix end.

(** The value of key [k] of a service. *)
Definition value_of (s : storage) (ds dd : Z) (svc : keyed) (k bs : list Z) : Prop :=
  value_at (nodes (root_fs (sfs s))) (keyed_dir svc ds dd) k bs.

Definition keyed_path (svc : keyed) (k : list Z) : list Z := SLASH :: keyed_name svc ++ SLASH :: k.

Lemma keyed_prefix_str svc : is_str (keyed_prefix svc) (SLASH :: keyed_name svc ++ [SLASH]).
Proof.
  destruct svc; [by apply (literal_str (SLASH :: settings_name ++ [SLASH])) |
                 by apply (literal_str (SLASH :: devices_name ++ [SLASH]))].
Qed.

Lemma keyed_make_path svc pk k :
  is_str pk k ->
  exists r, make_path path_array (keyed_prefix svc) (Some pk) = Some r /\
    (r = None /\ ~ safe_key k \/ exists q, r = Some q /\ safe_key k /\ is_str q (keyed_path svc k)).
Proof.
  intros Hk. destruct (make_path_spec (keyed_prefix svc) (47 :: keyed_name svc ++ [47]) pk k) as (r & E & Hr);
    [apply keyed_prefix_str | by destruct svc | done |].
  exists r. split; [done |]. destruct Hr as [? | (q & ? & ? & Hq)]; [by left | right]. exists q. split_and!; try done.
  unfold keyed_path. cbn [app] in Hq. by rewrite <- app_assoc in Hq.
Qed.

Lemma keyed_dir_ok s ds dd L svc :
  storage_ok s ds dd L -> dir_ok (nodes (root_fs (sfs s))) (keyed_name svc) (keyed_dir svc ds dd).
Proof. intros (_ & _ & _ & _ & Hs & Hd & _). by destruct svc. Qed.

Lemma keyed_dir_ne s ds dd L svc svc' :
  storage_ok s ds dd L -> svc <> svc' -> keyed_dir svc ds dd <> keyed_dir svc' ds dd.
Proof.
  intros (_ & _ & _ & _ & (Hs & _) & (Hd & _) & _) Hne E.
  destruct svc, svc'; try done; cbn in E; subst; destruct (is_child_same _ _ _ _ _ _ Hs Hd); done.
Qed.

Lemma keyed_slot s ds dd L svc k :
  storage_ok s ds dd L -> safe_key k ->
  file_slot (root_fs (sfs s)) (keyed_path svc k) (keyed_dir svc ds dd) k.
Proof.
  intros Hok Hk. apply slot_two; [apply (proj1 (proj2 (proj2 (proj2 Hok))) ROOT_FS) | | by apply safe_key_valid | by eapply keyed_dir_ok].
  by destruct svc; (split; [done |]); apply (bool_decide_unpack (no_slash _)).
Qed.

Lemma keyed_resolve s ds dd L svc k p :
  storage_ok s ds dd L -> is_str p (keyed_path svc k) ->
  exists q, resolve_mount (svfs s) p = Some (Some (0, q)) /\ is_str q (keyed_path svc k) /\
    ops_of (svfs s) 0 = Some (Some ROOT_FS, tmpfs_operations).
Proof.
  intros (_ & Hm & _) Hp. eapply resolve_root; [done | done | done |].
  intros (r & E & _). by destruct svc.
Qed.

(** The invariant after the root file system changed in one file of a service. *)
Lemma storage_ok_root s ds dd L svc k fs' b i :
  storage_ok s ds dd L -> fs_ok fs' -> no_handles fs' ->
  only_file (root_fs (sfs s)) fs' (keyed_dir svc ds dd) k ->
  (forall j, is_child (nodes fs') (keyed_dir svc ds dd) k j -> plain_file (nodes fs') j) ->
  storage_ok (set_state s (closed_vfs (svfs s) i b) (fs_set ROOT_FS fs' (sfs s))) ds dd L.
Proof.
  intros Hok Hfs' Hnh' Honly Hplain. pose proof Hok as (Hi & Hm & Hh & Hfs & Hds & Hdd & Hlog & HL).
  assert (keyed_dir svc ds dd <> 0) as Hne.
  { destruct (keyed_dir_ok s ds dd L svc Hok) as ((? & _) & _). lia. }
  split; [done |]. split; [by apply closed_mounts_ok |]. split; [by apply closed_handles |].
  split; [intros []; [done | apply (Hfs VAR_FS)] |].
  split; [by eapply dir_ok_only_file |]. split; [by eapply dir_ok_only_file |]. by split.
Qed.

Lemma keyed_set_spec s ds dd L svc pk k pv bs :
  storage_ok s ds dd L -> is_str pk k -> safe_key k -> is_str pv bs -> bytes_ok pv ->
  exists st s', keyed_set svc s (Some pk) (Some pv) = Some (st, s') /\ storage_ok s' ds dd L /\
    sfs s' = fs_set ROOT_FS (root_fs (sfs s')) (sfs s) /\
    ((st = VFS_NO_SPACE /\ sfs s' = sfs s /\ (forall v, ~ value_of s ds dd svc k v)) \/
     only_file (root_fs (sfs s)) (root_fs (sfs s')) (keyed_dir svc ds dd) k /\
     if zlen bs <=? TMPFS_FILE_CAPACITY then st = VFS_OK /\ value_of s' ds dd svc k bs
     else st = VFS_NO_SPACE /\ value_of s' ds dd svc k []).
Proof.
  intros Hok Hpk Hk Hpv Hb. pose proof Hok as (Hi & Hm & Hh & Hfs & _).
  destruct (keyed_make_path svc pk k Hpk) as (r & Er & [[_ ?] | (p & -> & _ & Hp)]); [done |].
  assert (keyed_set svc s (Some pk) (Some pv) = write_value s (Some p) (Some pv)) as ->.
  { destruct svc; cbn [keyed_set keyed_prefix] in *;
      unfold settings_service_set, device_service_publish; rewrite Hi; cbn [negb]; by rewrite Er. }
  destruct (keyed_resolve s ds dd L svc k p Hok Hp) as (q & Hres & Hq & Hops).
  pose proof Hm as [[(_ & _ & Hlh & _) _] _]. destruct (Hfs ROOT_FS) as [Hfok Hnh]. cbn [fs_get] in *.
  destruct (store_slot (root_fs (sfs s)) q _ _ k pv bs Hfok Hnh Hq (keyed_slot s ds dd L svc k Hok Hk) Hpv Hb)
    as (st & h & fs1 & Eo & Hcase).
  unfold write_value. change (Z.lor (Z.lor VFS_OPEN_WRITE VFS_OPEN_CREATE) VFS_OPEN_TRUNC) with 14.
  erewrite (vfs_open_at (svfs s) (sfs s) p q 0 ROOT_FS Hlh Hh Hres Hops); [| done | exact Eo].
  destruct Hcase as [(-> & -> & Hno) | (-> & st2 & r & fs2 & fs3 & Ew & Ec & Hok3 & Hnh3 & Honly & Hplain & Hval)].
  { rewrite bool_decide_eq_false_2 by done. obind. rewrite bool_decide_eq_true_2 by done.
    eexists _, _. split; [done |]. assert (fs_set ROOT_FS (root_fs (sfs s)) (sfs s) = sfs s) as E by (by destruct (sfs s)).
    unfold set_state. rewrite E. cbn [sfs]. split; [destruct s; exact Hok |]. split; [done |]. left. split; [done |]. split; [done |].
    intros v (j & Hj & _). by apply (Hno j). }
  rewrite bool_decide_eq_true_2 by done. obind. rewrite bool_decide_eq_false_2 by (by intros ?). obind.
  rewrite (string_length_spec pv bs Hpv). obind.
  erewrite (vfs_write_at (svfs s) 0 ROOT_FS Hlh Hh Hops); [| exact Ew]. obind.
  erewrite (vfs_close_at (svfs s) 0 ROOT_FS Hlh Hh Hops); [| exact Ec]. obind.
  rewrite !fs_set_set.
  assert (storage_ok (set_state s (closed_vfs (svfs s) 0 h) (fs_set ROOT_FS fs3 (sfs s))) ds dd L) as Hok'
    by (by eapply storage_ok_root).
  destruct (Z.leb_spec (zlen bs) TMPFS_FILE_CAPACITY).
  - destruct Hval as (-> & -> & Hval). rewrite bool_decide_eq_false_2 by (by intros ?). rewrite Z.eqb_refl.
    eexists _, _. split; [done |]. split; [done |]. split; [done |]. by right.
  - destruct Hval as (-> & Hval). rewrite bool_decide_eq_true_2 by done.
    eexists _, _. split; [done |]. split; [done |]. split; [done |]. by right.
Qed.

(** Reading through the services leaves every value as it was. *)
Definition same_values (s s' : storage) (ds dd : Z) : Prop :=
  forall svc k v, value_of s' ds dd svc k v <-> value_of s ds dd svc k v.

Lemma only_file_same_values s s' ds dd L svc k :
  storage_ok s ds dd L -> only_file (root_fs (sfs s)) (root_fs (sfs s')) (keyed_dir svc ds dd) k ->
  (forall v, value_of s' ds dd svc k v <-> value_of s ds dd svc k v) -> same_values s s' ds dd.
Proof.
  intros Hok Honly Hk svc' k' v. destruct (decide (keyed_dir svc' ds dd = keyed_dir svc ds dd /\ k' = k)) as [[E ->] | Hne].
  - unfold value_of in *. rewrite E. apply Hk.
  - apply (only_file_values _ _ _ _ _ _ _ Honly). destruct (decide (keyed_dir svc' ds dd = keyed_dir svc ds dd)); [right; tauto | by left].
Qed.

Lemma keyed_get_spec s ds dd L svc pk k buf cap r0 :
  storage_ok s ds dd L -> is_str pk k -> safe_key k -> 0 <= cap <= zlen buf ->
  exists st b r s', keyed_get svc s (Some pk) (Some buf) cap (Some r0) = Some (st, Some b, Some r, s') /\
    storage_ok s' ds dd L /\ same_values s s' ds dd /\
    ((st <> VFS_OK /\ b = buf /\ r = r0 /\ (forall v, ~ value_of s ds dd svc k v)) \/
     st = VFS_OK /\ exists v, value_of s ds dd svc k v /\
       r = Z.min cap (zlen v) /\ b = blit buf 0 (slice v 0 (Z.min cap (zlen v)))).
Proof.
  intros Hok Hpk Hk Hcap. pose proof Hok as (Hi & Hm & Hh & Hfs & _).
  destruct (keyed_make_path svc pk k Hpk) as (r & Er & [[_ ?] | (p & -> & _ & Hp)]); [done |].
  assert (keyed_get svc s (Some pk) (Some buf) cap (Some r0) = read_value s (Some p) (Some buf) cap (Some r0)) as ->.
  { destruct svc; cbn [keyed_get keyed_prefix] in *;
      unfold settings_service_get, device_service_read; rewrite Hi; cbn [negb]; by rewrite Er. }
  destruct (keyed_resolve s ds dd L svc k p Hok Hp) as (q & Hres & Hq & Hops).
  pose proof Hm as [[(_ & _ & Hlh & _) _] _]. destruct (Hfs ROOT_FS) as [Hfok Hnh]. cbn [fs_get] in *.
  destruct (load_slot (root_fs (sfs s)) q _ _ k buf cap r0 Hfok Hnh Hq (keyed_slot s ds dd L svc k Hok Hk) Hcap)
    as (st & h & fs1 & Eo & Hcase).
  unfold read_value. change VFS_OPEN_READ with 1.
  erewrite (vfs_open_at (svfs s) (sfs s) p q 0 ROOT_FS Hlh Hh Hres Hops); [| done | exact Eo].
  destruct Hcase as [(Hno & Hst & ->) | (-> & bs & fs2 & fs3 & Hval & Ew & Ec & Hok3 & Hnh3 & Honly & Hch & Hrd)].
  { rewrite bool_decide_eq_false_2 by done. obind. rewrite bool_decide_eq_true_2 by done.
    eexists _, _, _, _. split; [done |]. assert (fs_set ROOT_FS (root_fs (sfs s)) (sfs s) = sfs s) as E by (by destruct (sfs s)).
    unfold set_state. rewrite E. split; [destruct s; exact Hok |]. split; [done |]. left. split_and!; try done.
    intros v (j & Hj & _). by apply (Hno j). }
  rewrite bool_decide_eq_true_2 by done. obind. rewrite bool_decide_eq_false_2 by (by intros ?). obind.
  erewrite (vfs_read_at (svfs s) 0 ROOT_FS Hlh Hh Hops); [| exact Ew]. obind.
  erewrite (vfs_close_at (svfs s) 0 ROOT_FS Hlh Hh Hops); [| exact Ec]. obind.
  rewrite bool_decide_eq_false_2 by (by intros ?). rewrite !fs_set_set.
  eexists _, _, _, _. split; [done |].
  assert (forall j, is_child (nodes fs3) (keyed_dir svc ds dd) k j -> plain_file (nodes fs3) j) as Hplain.
  { intros j Hj. apply Hch in Hj. destruct (keyed_dir_ok s ds dd L svc Hok) as (_ & _ & Hpl).
    destruct (Hpl k j Hj) as (n & Hn & ?). exists n. by rewrite Hrd. }
  split; [by eapply storage_ok_root |]. split; [| right; split; [done |]; by exists bs].
  eapply only_file_same_values; [done | exact Honly |]. intros v. unfold value_of. cbn.
  split; intros (j & Hj & n & Hn & ->).
  - apply Hch in Hj. exists j. split; [done |]. exists n. by rewrite <- Hrd.
  - exists j. split; [by apply Hch |]. exists n. by rewrite Hrd.
Qed.

(** C9. Settings and device entries.  With the services initialised, setting a
    safe key to a value of at most 2048 bytes either reports that the node
    table is full, for a key without a value and changing nothing, or succeeds;
    then reading the key returns the value, up to the caller's buffer, and
    every other key of both services, and the log, are unchanged.  A key that
    is not safe is rejected without effect. *)
Theorem keyed_services_correct svc s ds dd L pk k pv v buf cap r0 :
  storage_ok s ds dd L -> is_str pk k -> is_str pv v -> bytes_ok pv -> zlen v <= TMPFS_FILE_CAPACITY ->
  0 <= cap <= zlen buf ->
  exists st s', keyed_set svc s (Some pk) (Some pv) = Some (st, s') /\ storage_ok s' ds dd L /\
    (~ safe_key k -> st = VFS_BAD_ARGUMENT /\ s' = s) /\
    (safe_key k ->
       st = VFS_NO_SPACE /\ same_values s s' ds dd /\ (forall u, ~ value_of s ds dd svc k u) \/
       st = VFS_OK /\
       (forall svc' k' u, svc' <> svc \/ k' <> k -> value_of s' ds dd svc' k' u <-> value_of s ds dd svc' k' u) /\
       exists s2, keyed_get svc s' (Some pk) (Some buf) cap (Some r0) =
           Some (VFS_OK, Some (blit buf 0 (slice v 0 (Z.min cap (zlen v)))), Some (Z.min cap (zlen v)), s2) /\
         storage_ok s2 ds dd L /\ same_values s' s2 ds dd).
Proof.
  intros Hok Hpk Hpv Hb Hv Hcap. destruct (keyed_make_path svc pk k Hpk) as (r & Er & Hr).
  destruct Hr as [[-> Hns] | (p & _ & Hk & _)].
  { exists VFS_BAD_ARGUMENT, s. split; [| by split].
    pose proof Hok as (Hi & _). destruct svc; cbn [keyed_set keyed_prefix] in *;
      unfold settings_service_set, device_service_publish; rewrite Hi; cbn [negb]; by rewrite Er. }
  destruct (keyed_set_spec s ds dd L svc pk k pv v Hok Hpk Hk Hpv Hb) as (st & s' & -> & Hok' & _ & Hcase).
  eexists _, _. split; [done |]. split; [done |]. split; [done |]. intros _.
  destruct Hcase as [(-> & E & Hno) | (Honly & Hval)].
  { left. split; [done |]. split; [| done]. intros svc' k' u. unfold value_of. by rewrite E. }
  rewrite (proj2 (Z.leb_le _ _)) in Hval by done. destruct Hval as [-> Hval]. right. split; [done |]. split.
  { intros svc' k' u Hne. apply (only_file_values _ _ _ _ _ _ _ Honly).
    destruct (decide (svc' = svc)) as [-> | Hs]; [destruct Hne; [done | by right] | left]. by eapply keyed_dir_ne. }
  destruct (keyed_get_spec s' ds dd L svc pk k buf cap r0 Hok' Hpk Hk Hcap) as (st2 & b & r2 & s2 & -> & Hok2 & Hsame & Hget).
  exists s2. split; [| done]. destruct Hget as [(_ & _ & _ & Hno) | (-> & u & (j & Hj & Hu) & -> & ->)]; [by destruct (Hno v) |].
  assert (u = v) as ->; [| done]. destruct Hval as (j' & Hj' & Hv').
  destruct Hok' as (_ & _ & _ & Hfs & _). destruct (Hfs ROOT_FS) as [(_ & _ & _ & _ & Hun & _) _].
  rewrite (Hun _ _ _ _ Hj Hj') in Hu. destruct Hu as (n & Hn & ->), Hv' as (n' & Hn' & ->). congruence.
Qed.

(** ** The log *)

Lemma log_name_valid : valid_name log_name.
Proof. split; [done |]. by apply (bool_decide_unpack (no_slash log_name)). Qed.

Lemma log_slot s ds dd L : storage_ok s ds dd L -> file_slot (var_fs (sfs s)) (SLASH :: log_name) 0 log_name.
Proof. intros (_ & _ & _ & _ & _ & _ & Hpl & _). by apply slot_one; [apply log_name_valid |]. Qed.

(** The invariant after the log file changed. *)
Lemma storage_ok_var s ds dd L L' fs' b i flag :
  flag = true -> storage_ok s ds dd L -> fs_ok fs' -> no_handles fs' ->
  (forall j, is_child (nodes fs') 0 log_name j -> plain_file (nodes fs') j) ->
  (value_at (nodes fs') 0 log_name L' \/ L' = [] /\ forall j, ~ is_child (nodes fs') 0 log_name j) ->
  storage_ok (mk_storage (closed_vfs (svfs s) i b) (fs_set VAR_FS fs' (sfs s)) (zlen L') flag) ds dd L'.
Proof.
  intros Hflag (Hi & Hm & Hh & Hfs & Hds & Hdd & _ & _) Hfs' Hnh' Hplain Hval.
  split; [done |]. split; [by apply closed_mounts_ok |]. split; [by apply closed_handles |].
  split; [intros []; [apply (Hfs ROOT_FS) | done] |]. split; [done |]. split; [done |]. by split.
Qed.

Lemma log_append_spec s ds dd L pv t :
  storage_ok s ds dd L -> is_str pv t -> bytes_ok pv ->
  exists st s', log_service_append s (Some pv) = Some (st, s') /\ root_fs (sfs s') = root_fs (sfs s) /\
    (st = VFS_OK /\ zlen L + zlen t <= TMPFS_FILE_CAPACITY /\ storage_ok s' ds dd (L ++ t) /\
       value_at (nodes (var_fs (sfs s'))) 0 log_name (L ++ t) \/
     st = VFS_NO_SPACE /\ storage_ok s' ds dd L /\ (L <> [] -> TMPFS_FILE_CAPACITY < zlen L + zlen t)).
Proof.
  intros Hok Hpv Hb. pose proof Hok as (Hi & Hm & Hh & Hfs & _ & _ & _ & (Hoff & HL)).
  destruct (resolve_log (svfs s) Hm) as (q & Hres & Hq & Hops).
  pose proof Hm as [[(_ & _ & Hlh & _) _] _]. destruct (Hfs VAR_FS) as [Hfok Hnh]. cbn [fs_get] in *.
  destruct (append_slot (var_fs (sfs s)) q _ _ _ pv t L Hfok Hnh Hq (log_slot s ds dd L Hok) Hpv Hb HL)
    as (st & h & fs1 & Eo & Hcase).
  unfold log_service_append. rewrite Hi. cbn [negb]. change (Z.lor VFS_OPEN_WRITE VFS_OPEN_CREATE) with 6.
  erewrite (vfs_open_at (svfs s) (sfs s) log_path q 1 VAR_FS Hlh Hh Hres Hops); [| done | exact Eo].
  destruct Hcase as [(-> & -> & Hno) | (-> & fs2 & st3 & r & fs3 & fs4 & Es & Ew & Ec & Hok4 & Hnh4 & Honly & Hplain & Hval)].
  { rewrite bool_decide_eq_false_2 by done. obind. rewrite bool_decide_eq_true_2 by done.
    eexists _, _. split; [done |]. assert (fs_set VAR_FS (var_fs (sfs s)) (sfs s) = sfs s) as E by (by destruct (sfs s)).
    unfold set_state. rewrite E. split; [done |]. right. split; [done |]. split; [destruct s; exact Hok |].
    intros HL0. destruct HL as [(j & Hj & _) | [? _]]; [by destruct (Hno j) | done]. }
  rewrite bool_decide_eq_true_2 by done. obind. rewrite bool_decide_eq_false_2 by (by intros ?). obind. rewrite Hoff.
  erewrite (vfs_seek_at (svfs s) 1 VAR_FS Hlh Hh Hops); [| exact Es]. obind. rewrite bool_decide_eq_true_2 by done.
  rewrite (string_length_spec pv t Hpv). obind.
  erewrite (vfs_write_at (svfs s) 1 VAR_FS Hlh Hh Hops); [| exact Ew]. obind.
  erewrite (vfs_close_at (svfs s) 1 VAR_FS Hlh Hh Hops); [| exact Ec]. obind. rewrite !fs_set_set.
  pose proof (zlen_nonneg L). pose proof (zlen_nonneg t). unfold TMPFS_FILE_CAPACITY in *.
  destruct (Z.leb_spec (zlen L + zlen t) 2048).
  - destruct Hval as (-> & -> & Hval). rewrite bool_decide_eq_false_2, bool_decide_eq_true_2 by (done || by intros ?).
    rewrite u64_small, <- zlen_app by lia. eexists _, _. split; [done |]. split; [done |]. left. split; [done |]. split; [rewrite zlen_app; lia |].
    split; [| done]. eapply storage_ok_var; try done. by left.
  - destruct Hval as (-> & Hval). rewrite bool_decide_eq_true_2, bool_decide_eq_false_2 by done.
    eexists _, _. split; [done |]. split; [done |]. right. split; [done |]. split; [| lia].
    eapply storage_ok_var; try done. by left.
Qed.

Lemma log_read_spec s ds dd L buf cap r0 :
  storage_ok s ds dd L -> value_at (nodes (var_fs (sfs s))) 0 log_name L -> 0 <= cap <= zlen buf ->
  exists s', log_service_read s (Some buf) cap (Some r0) =
    Some (VFS_OK, Some (blit buf 0 (slice L 0 (Z.min cap (zlen L)))), Some (Z.min cap (zlen L)), s') /\
    storage_ok s' ds dd L.
Proof.
  intros Hok HL Hcap. pose proof Hok as (Hi & Hm & Hh & Hfs & _ & _ & Hpl & (Hoff & _)).
  destruct (resolve_log (svfs s) Hm) as (q & Hres & Hq & Hops).
  pose proof Hm as [[(_ & _ & Hlh & _) _] _]. destruct (Hfs VAR_FS) as [Hfok Hnh]. cbn [fs_get] in *.
  destruct (load_slot (var_fs (sfs s)) q _ _ _ buf cap r0 Hfok Hnh Hq (log_slot s ds dd L Hok) Hcap)
    as (st & h & fs1 & Eo & Hcase).
  unfold log_service_read, read_value. rewrite Hi. cbn [negb]. change VFS_OPEN_READ with 1.
  erewrite (vfs_open_at (svfs s) (sfs s) log_path q 1 VAR_FS Hlh Hh Hres Hops); [| done | exact Eo].
  destruct Hcase as [(Hno & _) | (-> & bs & fs2 & fs3 & Hval & Ew & Ec & Hok3 & Hnh3 & Honly & Hch & Hrd)].
  { destruct HL as (j & Hj & _). by destruct (Hno j). }
  assert (bs = L) as ->.
  { destruct Hval as (j & Hj & n & Hn & ->), HL as (j' & Hj' & n' & Hn' & ->).
    pose proof Hfok as (_ & _ & _ & _ & Hu & _). rewrite (Hu _ _ _ _ Hj Hj') in Hn. congruence. }
  rewrite bool_decide_eq_true_2 by done. obind. rewrite bool_decide_eq_false_2 by (by intros ?). obind.
  erewrite (vfs_read_at (svfs s) 1 VAR_FS Hlh Hh Hops); [| exact Ew]. obind.
  erewrite (vfs_close_at (svfs s) 1 VAR_FS Hlh Hh Hops); [| exact Ec]. obind.
  rewrite bool_decide_eq_false_2 by (by intros ?). rewrite !fs_set_set. eexists. split; [done |].
  unfold set_state. rewrite Hoff. eapply storage_ok_var; try done.
  - intros j Hj. apply Hch in Hj. destruct (Hpl j Hj) as (n & Hn & ?). exists n. by rewrite Hrd.
  - left. destruct HL as (j & Hj & n & Hn & ->). exists j. split; [by apply Hch |]. exists n. by rewrite Hrd.
Qed.

(** The log.  Appending a text that fits adds it at the end of the log; one
    that does not fit is refused and leaves the log as it was; settings and
    device entries are untouched; and reading returns the log from its start,
    up to the caller's buffer. *)
Theorem log_service_correct s ds dd L pv t buf cap r0 :
  storage_ok s ds dd L -> is_str pv t -> bytes_ok pv -> 0 <= cap <= zlen buf ->
  exists st s', log_service_append s (Some pv) = Some (st, s') /\ same_values s s' ds dd /\
    (st = VFS_OK /\ zlen L + zlen t <= TMPFS_FILE_CAPACITY /\ storage_ok s' ds dd (L ++ t) /\
       (exists s2, log_service_read s' (Some buf) cap (Some r0) =
          Some (VFS_OK, Some (blit buf 0 (slice (L ++ t) 0 (Z.min cap (zlen (L ++ t))))),
                Some (Z.min cap (zlen (L ++ t))), s2) /\ storage_ok s2 ds dd (L ++ t)) \/
     st = VFS_NO_SPACE /\ storage_ok s' ds dd L /\ (L <> [] -> TMPFS_FILE_CAPACITY < zlen L + zlen t)).
Proof.
  intros Hok Hpv Hb Hcap. destruct (log_append_spec s ds dd L pv t Hok Hpv Hb) as (st & s' & -> & Hroot & Hcase).
  eexists _, _. split; [done |]. split; [intros svc k v; unfold value_of; by rewrite Hroot |].
  destruct Hcase as [(-> & Hfit & Hok' & Hval) | ?]; [left | by right].
  split; [done |]. split; [done |]. split; [done |]. by apply log_read_spec.
Qed.

(** ** Initialisation *)

Lemma no_children_check ns d :
  forallb (fun n => negb (node_used n && (parent n =? d))) (drop 1 ns) = true ->
  forall k j, ~ is_child ns d k j.
Proof.
  intros H k j (Hj & n & Hn & Hu & Hp & _). apply rd_lookup in Hn as [_ Hn].
  rewrite forallb_forall in H. specialize (H n). rewrite Hu, Hp, Z.eqb_refl in H. cbn in H.
  discriminate H. apply list_elem_of_In, (list_elem_of_lookup_2 _ (Z.to_nat j - 1)).
  rewrite lookup_drop. replace (1 + (Z.to_nat j - 1))%nat with (Z.to_nat j) by lia. done.
Qed.

Lemma no_handles_check fs : forallb (fun o => negb (open_used o)) (opens fs) = true -> no_handles fs.
Proof.
  intros H h o (_ & Ho & Hu). apply rd_lookup in Ho as [_ Ho]. rewrite forallb_forall in H. specialize (H o).
  rewrite Hu in H. discriminate H. by apply list_elem_of_In, (list_elem_of_lookup_2 _ (Z.to_nat h)).
Qed.

Definition init_root : option tmpfs_t :=
  r ← op_mkdir (Some ex_fs) (Some var_path) 3;
  r ← op_mkdir r.2 (Some settings_path) 3;
  r ← op_mkdir r.2 (Some devices_path) 3;
  r.2.

(** The three directories of the root file system. *)
Lemma init_root_spec :
  exists f1 f2 f3, op_mkdir (Some ex_fs) (Some var_path) 3 = Some (VFS_OK, Some f1) /\
    op_mkdir (Some f1) (Some settings_path) 3 = Some (VFS_OK, Some f2) /\
    op_mkdir (Some f2) (Some devices_path) 3 = Some (VFS_OK, Some f3) /\
    fs_ok f3 /\ no_handles f3 /\
    (is_child (nodes f3) 0 settings_name 2 /\ is_dir (nodes f3) 2 /\ forall k j, ~ is_child (nodes f3) 2 k j) /\
    (is_child (nodes f3) 0 devices_name 3 /\ is_dir (nodes f3) 3 /\ forall k j, ~ is_child (nodes f3) 3 k j).
Proof.
  assert (is_str var_path (47 :: var_name)) as H1 by (by apply (literal_str (47 :: var_name))).
  assert (is_str settings_path (47 :: settings_name)) as H2 by (by apply (literal_str (47 :: settings_name))).
  assert (is_str devices_path (47 :: devices_name)) as H3 by (by apply (literal_str (47 :: devices_name))).
  destruct (op_mkdir_spec ex_fs var_path _ 3 ex_fs_ok H1) as (st1 & f1 & E1 & Hok1 & _).
  destruct (op_mkdir_spec f1 settings_path _ 3 Hok1 H2) as (st2 & f2 & E2 & Hok2 & _).
  destruct (op_mkdir_spec f2 devices_path _ 3 Hok2 H3) as (st3 & f3 & E3 & Hok3 & _).
  exists f1, f2, f3.
  assert (let check f := forallb (fun n => negb (node_used n && (parent n =? 2))) (drop 1 (nodes f)) &&
      forallb (fun n => negb (node_used n && (parent n =? 3))) (drop 1 (nodes f)) &&
      forallb (fun o => negb (open_used o)) (opens f) in
    let node f j := (fun n => (node_used n, parent n, node_type n, node_name n)) <$> rd (nodes f) j in
    (r1 ← op_mkdir (Some ex_fs) (Some var_path) 3;
     r2 ← op_mkdir r1.2 (Some settings_path) 3;
     r3 ← op_mkdir r2.2 (Some devices_path) 3;
     f ← r3.2; Some (r1.1, r2.1, r3.1, check f, node f 2, node f 3)) =
    Some (VFS_OK, VFS_OK, VFS_OK, true,
      Some (true, 0, VFS_NODE_DIRECTORY, settings_name ++ replicate 24 0),
      Some (true, 0, VFS_NODE_DIRECTORY, devices_name ++ replicate 25 0))) as Hc by (vm_compute; reflexivity).
  cbn zeta in Hc. rewrite E1 in Hc. cbn [mbind option_bind fst snd] in Hc. rewrite E2 in Hc.
  cbn [mbind option_bind fst snd] in Hc. rewrite E3 in Hc. cbn [mbind option_bind fst snd] in Hc.
  injection Hc as -> -> -> Hchk Hn2 Hn3. rewrite !andb_true_iff in Hchk. destruct Hchk as [[C2 C3] Co].
  apply fmap_Some in Hn2 as (n2 & Hn2 & [= Hu2 Hp2 Ht2 Hs2]), Hn3 as (n3 & Hn3 & [= Hu3 Hp3 Ht3 Hs3]).
  assert (Hlit : forall a z : list Z, bool_decide (Forall (fun c => c <> 0) a) = true -> is_str (a ++ 0 :: z) a).
  { intros a z H. split; [by apply bool_decide_eq_true in H | by exists z]. }
  split; [exact E1 |]. split; [exact E2 |]. split; [exact E3 |]. split; [done |].
  split; [by apply no_handles_check |]. split; (split; [| split; [| by apply no_children_check]]).
  - split; [done |]. exists n2. split_and!; try done. rewrite <- Hs2. by apply (Hlit settings_name (replicate 23 0)).
  - by exists n2.
  - split; [done |]. exists n3. split_and!; try done. rewrite <- Hs3. by apply (Hlit devices_name (replicate 24 0)).
  - by exists n3.
Qed.

Lemma resolve_unused (ms : list (mount_t fs_id filesystems)) p i f b :
  Forall (fun m => mount_used m = false) ms -> resolve_loop ms p i f b = Some (f, b).
Proof. intros H. revert i. induction H as [| m ms Hm _ IH]; intros i; cbn [resolve_loop]; [done |]. rewrite Hm. apply IH. Qed.

(** With the root alone mounted, every absolute path resolves to itself. *)
Lemma resolve_single (v : vfs_state fs_id filesystems) m0 rest p s :
  mounts v = m0 :: rest -> mount_used m0 = true -> is_str (mount_path m0) [SLASH] ->
  Forall (fun m => mount_used m = false) rest -> is_str p (SLASH :: s) ->
  resolve_mount v p = Some (Some (0, p)).
Proof.
  intros Em Hu Hm Hrest Hp. unfold resolve_mount. rewrite Em. cbn [resolve_loop]. rewrite Hu. cbn [negb].
  destruct (mount_matches_spec [47] (47 :: s) (mount_path m0) p Hm Hp) as (b & -> & Hb); [done |]. obind.
  rewrite (proj2 Hb) by done. cbn [negb]. rewrite (string_length_spec _ [47] Hm). obind.
  change ((-1 <? 0) || _) with true. cbn iota. rewrite resolve_unused by done. obind.
  change (0 <? 0) with false. cbn iota. change (rd (m0 :: rest) 0) with (Some m0). obind.
  rewrite (is_root_spec (mount_path m0) [47] Hm) by done. obind. rewrite bool_decide_eq_true_2 by done. cbn [negb]. obind.
  pose proof Hp as (q & -> & _)%is_str_cons. done.
Qed.

(** Mounting in the first free slot. *)
Lemma mount_first (before ms : list (mount_t fs_id filesystems)) m path s c :
  Forall (fun m => mount_used m = true) before -> mount_used m = false ->
  zlen (mount_path m) = VFS_PATH_MAX + 1 -> is_str path s -> 1 <= zlen s <= VFS_PATH_MAX -> head s = Some SLASH ->
  exists d, mount_loop (before ++ m :: ms) path (Some c) (Some tmpfs_operations) =
      Some (VFS_OK, before ++ mk_mount true d (Some c) (Some tmpfs_operations) :: ms) /\ is_str d s.
Proof.
  intros Hbefore Hm Hl Hp Hs Hh. destruct (copy_path_spec (mount_path m) path s Hp Hl) as [[_ ?] | (d & E & _ & Hd & _)]; [by exfalso; auto |].
  exists d. split; [| done]. induction Hbefore as [| b before Hb _ IH]; cbn [app mount_loop].
  - rewrite Hm, E. done.
  - rewrite Hb, IH. done.
Qed.

Lemma mkdir_root (v : vfs_state fs_id filesystems) root var lo fl m0 rest p s f :
  mounts v = m0 :: rest -> mount_used m0 = true -> is_str (mount_path m0) [SLASH] ->
  mount_context m0 = Some ROOT_FS -> mount_ops m0 = Some tmpfs_operations ->
  Forall (fun m => mount_used m = false) rest -> is_str p (SLASH :: s) ->
  op_mkdir (Some root) (Some p) 3 = Some (VFS_OK, Some f) ->
  mkdir_step (mk_storage v (mk_filesystems root var) lo fl) p = Some (VFS_OK, mk_storage v (mk_filesystems f var) lo fl).
Proof.
  intros Em Hu Hm Hc Ho Hrest Hp Hop. unfold mkdir_step, vfs_mkdir. cbn [svfs sfs].
  rewrite (resolve_single v m0 rest p s) by done. obind. unfold ops_of. rewrite Em.
  change (rd (m0 :: rest) 0) with (Some m0). obind. rewrite Ho. obind. cbn [fst snd fs_mkdir operations]. obind.
  rewrite Hc. cbn [load fmap option_fmap option_map fs_get root_fs]. change (Z.lor VFS_PERM_READ VFS_PERM_WRITE) with 3.
  rewrite Hop. done.
Qed.

Lemma root_path_str : is_str root_path [SLASH].
Proof. by apply (literal_str [47]). Qed.

Lemma var_path_str : is_str var_path (SLASH :: var_name).
Proof. by apply (literal_str (47 :: var_name)). Qed.

Lemma settings_path_str : is_str settings_path (SLASH :: settings_name).
Proof. by apply (literal_str (47 :: settings_name)). Qed.

Lemma devices_path_str : is_str devices_path (SLASH :: devices_name).
Proof. by apply (literal_str (47 :: devices_name)). Qed.

(** A mount with the file systems' operations keeps the mount table's
    invariant. *)
Lemma mount_inv (v v' : vfs_state fs_id filesystems) p s c st :
  vfs_inv tmpfs_operations v -> is_str p s ->
  vfs_mount v (Some p) (Some c) (tmpfs_ops fs_get fs_set) = Some (st, v') -> vfs_inv tmpfs_operations v'.
Proof.
  intros Hv Hp E. pose (w := mk_filesystems ex_fs ex_fs).
  assert (all_ok fs_get w) as Hall by (intros []; apply ex_fs_ok).
  destruct (exec_mount_safe tmpfs_operations (all_ok fs_get) p c v w Hv Hall) as (v1 & w1 & X & Hinv & _); [by exists s |].
  unfold vfs_exec in X. unfold tmpfs_ops in E. rewrite E in X. by injection X as <- _.
Qed.

Lemma init_mounts v0 :
  vfs_inv tmpfs_operations v0 -> Forall (fun m => mount_used m = false) (mounts v0) ->
  exists m0 m1 rest v1 v2, vfs_mount v0 (Some root_path) (Some ROOT_FS) (tmpfs_ops fs_get fs_set) = Some (VFS_OK, v1) /\
    vfs_mount v1 (Some var_path) (Some VAR_FS) (tmpfs_ops fs_get fs_set) = Some (VFS_OK, v2) /\
    mounts v1 = m0 :: rest /\ mount_used m0 = true /\ is_str (mount_path m0) [SLASH] /\
    mount_context m0 = Some ROOT_FS /\ mount_ops m0 = Some tmpfs_operations /\
    Forall (fun m => mount_used m = false) rest /\
    mounts v2 = m0 :: m1 :: tail rest /\ mount_used m1 = true /\ is_str (mount_path m1) (SLASH :: var_name) /\
    mount_context m1 = Some VAR_FS /\ handles v2 = handles v0 /\ vfs_inv tmpfs_operations v2.
Proof.
  intros Hinv Hunused. pose proof Hinv as [(Hl0 & Hms0 & _) _].
  destruct (mounts v0) as [| a [| b rest]] eqn:Em0; [done | done |].
  apply Forall_cons in Hunused as [Ha Hbr], Hms0 as [[Hal _] [[Hbl _] _]%Forall_cons].
  pose proof Hbr as [Hb Hrest]%Forall_cons.
  destruct (mount_first [] (b :: rest) a root_path [47] ROOT_FS) as (d0 & M0 & Hd0); try done; [apply root_path_str |].
  cbn [app] in M0. set (m0 := mk_mount true d0 (Some ROOT_FS) (Some tmpfs_operations)) in *.
  destruct (mount_first [m0] rest b var_path (47 :: var_name) VAR_FS) as (d1 & M1 & Hd1); try done;
    [by constructor | apply var_path_str |].
  cbn [app] in M1. set (m1 := mk_mount true d1 (Some VAR_FS) (Some tmpfs_operations)) in *.
  assert (vfs_mount v0 (Some root_path) (Some ROOT_FS) (tmpfs_ops fs_get fs_set) =
    Some (VFS_OK, set_mounts v0 (m0 :: b :: rest))) as V0.
  { unfold vfs_mount, tmpfs_ops. rewrite fs_complete. cbn [negb]. rewrite Em0, M0. done. }
  assert (vfs_mount (set_mounts v0 (m0 :: b :: rest)) (Some var_path) (Some VAR_FS) (tmpfs_ops fs_get fs_set) =
    Some (VFS_OK, set_mounts v0 (m0 :: m1 :: rest))) as V1.
  { unfold vfs_mount, tmpfs_ops. rewrite fs_complete. cbn [negb mounts set_mounts]. rewrite M1. done. }
  exists m0, m1, (b :: rest), (set_mounts v0 (m0 :: b :: rest)), (set_mounts v0 (m0 :: m1 :: rest)).
  do 12 (split; [done |]). split; [done |].
  eapply mount_inv; [| apply var_path_str | exact V1]. eapply mount_inv; [exact Hinv | apply root_path_str | exact V0].
Qed.

Lemma and_then_ok s k : and_then (Some (VFS_OK, s)) k = k s.
Proof. done. Qed.

Lemma storage_init_spec s :
  zlen (mounts (svfs s)) = VFS_MAX_MOUNTS -> zlen (handles (svfs s)) = VFS_MAX_HANDLES ->
  Forall (fun m => zlen (mount_path m) = VFS_PATH_MAX + 1) (mounts (svfs s)) ->
  exists s' ds dd, storage_services_init s = Some (VFS_OK, s') /\ storage_ok s' ds dd [] /\
    forall svc k v, ~ value_of s' ds dd svc k v.
Proof.
  intros Hlm Hlh Hpaths.
  pose proof (vfs_init_inv tmpfs_operations (svfs s) Hlm Hlh Hpaths) as Hinv.
  assert (Forall (fun h => handle_used h = false) (handles (vfs_init (svfs s)))) as Hfree
    by (apply Forall_fmap, Forall_true; done).
  destruct (init_mounts (vfs_init (svfs s)) Hinv) as (m0 & m1 & rest & v1 & v2 & V0 & V1 & Em1 & Hu0 & Hp0 & Hc0 & Ho0 &
    Hrest & Em2 & Hu1 & Hp1 & Hc1 & Hh2 & Hinv2); [apply Forall_fmap, Forall_true; done |].
  unfold storage_services_init.
  change (tmpfs_init (Some (root_fs (sfs s)))) with (Some ex_fs).
  change (tmpfs_init (Some (var_fs (sfs s)))) with (Some ex_fs). obind.
  destruct init_root_spec as (f1 & f2 & f3 & E1 & E2 & E3 & Hok3 & Hnh3 & (Hs & Hsd & Hsn) & (Hd & Hdd & Hdn)).
  unfold mount_step at 1. cbn [svfs sfs]. rewrite V0. unfold set_state. obind. cbn [fst snd sfs log_offset initialised].
  rewrite and_then_ok, (mkdir_root v1 _ _ _ _ m0 rest _ _ f1 Em1 Hu0 Hp0 Hc0 Ho0 Hrest var_path_str E1).
  rewrite and_then_ok, (mkdir_root v1 _ _ _ _ m0 rest _ _ f2 Em1 Hu0 Hp0 Hc0 Ho0 Hrest settings_path_str E2).
  rewrite and_then_ok, (mkdir_root v1 _ _ _ _ m0 rest _ _ f3 Em1 Hu0 Hp0 Hc0 Ho0 Hrest devices_path_str E3).
  rewrite and_then_ok. unfold mount_step. cbn [svfs sfs]. rewrite V1. unfold set_state. obind. cbn [fst snd sfs log_offset].
  rewrite and_then_ok. cbn [svfs sfs log_offset].
  assert (forall d k j, ~ is_child (nodes ex_fs) d k j) as Hnone.
  { intros d k j (Hj & n & Hn & Hu & _). apply rd_lookup in Hn as [_ Hn].
    destruct (Z.to_nat j) as [| i] eqn:Ei; [lia |]. cbn in Hn. apply lookup_replicate in Hn as [-> _]. done. }
  eexists _, 2, 3. split; [done |]. split.
  - split; [done |]. split; [| split; [by cbn [svfs]; rewrite Hh2 | split; [| split; [| split; [| split]]]]].
    + split; [done |]. exists m0, m1, (tail rest). split_and!; try done. by destruct Hrest.
    + intros []; cbn [sfs fs_get root_fs var_fs]; [done |]. split; [apply ex_fs_ok | by apply no_handles_check].
    + split; [done |]. split; [done |]. intros k j Hj. by destruct (Hsn k j).
    + split; [done |]. split; [done |]. intros k j Hj. by destruct (Hdn k j).
    + intros j Hj. by destruct (Hnone _ _ _ Hj).
    + split; [done |]. right. split; [done |]. intros j. apply Hnone.
  - intros [] k v (j & Hj & _); [by destruct (Hsn k j) | by destruct (Hdn k j)].
Qed.

(** Initialisation.  From any contents of the static tables the services
    initialise successfully, and then hold an empty log and no setting or
    device entry, ready for every later call. *)
Theorem storage_init_correct s :
  zlen (mounts (svfs s)) = VFS_MAX_MOUNTS -> zlen (handles (svfs s)) = VFS_MAX_HANDLES ->
  Forall (fun m => zlen (mount_path m) = VFS_PATH_MAX + 1) (mounts (svfs s)) ->
  exists s' ds dd, storage_services_init s = Some (VFS_OK, s') /\ storage_ok s' ds dd [] /\
    forall svc k v, ~ value_of s' ds dd svc k v.
Proof. apply storage_init_spec. Qed.

(** ** A run of the services *)

Definition ex_storage : storage :=
  mk_storage (mk_vfs (replicate 8 (mk_mount false (replicate 128 0) None None)) (replicate 16 (mk_handle false 0 0)))
    (mk_filesystems (mk_tmpfs [] []) (mk_tmpfs [] [])) 0 false.

Lemma storage_init_correct_witness :
  exists s' ds dd, storage_services_init ex_storage = Some (VFS_OK, s') /\ storage_ok s' ds dd [].
Proof.
  destruct (storage_init_correct ex_storage) as (s' & ds & dd & E & Hok & _); [done | done | by apply Forall_replicate |].
  exists s', ds, dd. split; [exact E | exact Hok].
Defined.

(** The key "a-1" is set to "xy" and read back. *)
Lemma keyed_services_correct_witness :
  exists s s' s2, storage_services_init ex_storage = Some (VFS_OK, s) /\
    keyed_set Settings s (Some [97; 45; 49; 0]) (Some [120; 121; 0]) = Some (VFS_OK, s') /\
    keyed_get Settings s' (Some [97; 45; 49; 0]) (Some [0; 0; 0; 0]) 4 (Some 0) = Some (VFS_OK, Some [120; 121; 0; 0], Some 2, s2).
Proof.
  destruct (storage_init_spec ex_storage) as (s & ds & dd & E & Hok & _); [done | done | by apply Forall_replicate |].
  destruct (keyed_services_correct Settings s ds dd [] [97; 45; 49; 0] [97; 45; 49] [120; 121; 0] [120; 121]
    [0; 0; 0; 0] 4 0 Hok) as (st & s' & Es & _ & _ & H).
  - by apply (literal_str [97; 45; 49]).
  - by apply (literal_str [120; 121]).
  - by apply (bool_decide_unpack (bytes_ok [120; 121; 0])).
  - change (2 <= 2048). lia.
  - change (0 <= 4 <= 4). lia.
  - assert (fst <$> (r ← storage_services_init ex_storage; keyed_set Settings r.2 (Some [97; 45; 49; 0]) (Some [120; 121; 0])) = Some VFS_OK) as Hst
      by (vm_compute; reflexivity).
    rewrite E in Hst. cbn [mbind option_bind snd] in Hst. rewrite Es in Hst. cbn in Hst. injection Hst as ->.
    destruct H as [(Hno & _) | (_ & _ & s2 & Eg & _)]; [by apply (bool_decide_unpack _); vm_compute | discriminate Hno |].
    exists s, s', s2. split; [exact E |]. split; [exact Es | exact Eg].
Defined.

Lemma log_service_correct_witness :
  exists s st s', storage_services_init ex_storage = Some (VFS_OK, s) /\
    log_service_append s (Some [104; 105; 10; 0]) = Some (st, s').
Proof.
  destruct (storage_init_spec ex_storage) as (s & ds & dd & E & Hok & _); [done | done | by apply Forall_replicate |].
  destruct (log_service_correct s ds dd [] [104; 105; 10; 0] [104; 105; 10] [0; 0; 0; 0] 4 0 Hok) as (st & s' & Es & _).
  - by apply (literal_str [104; 105; 10]).
  - by apply (bool_decide_unpack (bytes_ok [104; 105; 10; 0])).
  - change (0 <= 4 <= 4). lia.
  - exists s, st, s'. split; [exact E | exact Es].
Defined.

(** A setting that is refused for its size is lost.  The service truncates
    the file before it writes: setting an existing key to a value longer than
    the file capacity reports no space, and the old value is gone. *)
Theorem oversized_set_erases :
  (r0 ← storage_services_init ex_storage;
   r1 ← settings_service_set r0.2 (Some [97; 0]) (Some [120; 121; 0]);
   g1 ← settings_service_get r1.2 (Some [97; 0]) (Some [0; 0]) 2 (Some 0);
   let '(st1, b1, n1, s1) := g1 in
   r2 ← settings_service_set s1 (Some [97; 0]) (Some (replicate 2049 65 ++ [0]));
   g2 ← settings_service_get r2.2 (Some [97; 0]) (Some [0; 0]) 2 (Some 7);
   let '(st2, b2, n2, _) := g2 in
   Some ([r0.1; r1.1; st1; r2.1; st2], b1, n1, b2, n2)) =
  Some ([VFS_OK; VFS_OK; VFS_OK; VFS_NO_SPACE; VFS_OK], Some [120; 121], Some 2, Some [0; 0], Some 0).
Proof. vm_compute. reflexivity. Qed.
