(* ===== verification/Scheduler.v ===== *)
(** * The cooperative kernel scheduler: kernel/src/scheduler.c, context_switch.S

    The bootstrap thread and sixteen kernel threads share one processor; a
    thread runs until it yields or its entry function returns.  A pointer to a
    thread is its slot number, as [thread_for_slot] numbers them: 0 is the
    bootstrap thread, [i + 1] is [threads[i]].  Memory is a map from addresses
    to 64-bit words; where the linker places the threads' stacks and the
    trampoline is a parameter. *)

From stdpp Require Import base numbers list.
From Stdlib Require Import ZArith Lia.
From S2P Require Import Prelude Bytes.

#[local] Open Scope Z_scope.

Definition SCHEDULER_MAX_THREADS : Z := 16.
Definition KERNEL_THREAD_STACK_SIZE : Z := 16384.
Definition SCHEDULER_BOOTSTRAP_ID : Z := 1.

Inductive thread_state_t := THREAD_UNUSED | THREAD_READY | THREAD_RUNNING | THREAD_DEAD.

#[export] Instance thread_state_eq_dec : EqDecision thread_state_t.
Proof. solve_decision. Defined.

(** Function and data pointers are addresses, 0 the null pointer. *)
Record thread_t := mk_thread {
  saved_rsp : Z;
  id : Z;
  state : thread_state_t;
  switches : Z;
  entry : Z;
  argument : Z
}.

Record thread_info_t := mk_info { info_id : Z; info_state : thread_state_t; info_switches : Z }.

Record sched := mk_sched {
  threads : list thread_t;
  bootstrap_thread : thread_t;
  current : option Z;
  next_id : Z;
  scan_cursor : Z
}.

Definition set_state (t : thread_t) st : thread_t :=
  mk_thread (saved_rsp t) (id t) st (switches t) (entry t) (argument t).
Definition set_saved_rsp (t : thread_t) r : thread_t :=
  mk_thread r (id t) (state t) (switches t) (entry t) (argument t).
Definition set_current (s : sched) c : sched :=
  mk_sched (threads s) (bootstrap_thread s) c (next_id s) (scan_cursor s).
Definition set_cursor (s : sched) c : sched :=
  mk_sched (threads s) (bootstrap_thread s) (current s) (next_id s) c.

(** Reading and writing the thread a pointer points to. *)
Definition thread_at (s : sched) (p : Z) : option thread_t :=
  if p =? 0 then Some (bootstrap_thread s) else rd (threads s) (p - 1).

Definition put_thread (s : sched) (p : Z) (t : thread_t) : option sched :=
  if p =? 0 then Some (mk_sched (threads s) t (current s) (next_id s) (scan_cursor s))
  else ts ← wr (threads s) (p - 1) t;
       Some (mk_sched ts (bootstrap_thread s) (current s) (next_id s) (scan_cursor s)).

(** ** Lookup *)

Fixpoint find_loop (ts : list thread_t) (i tid : Z) : option Z :=
  match ts with
  | [] => None
  | t :: ts =>
      if negb (bool_decide (state t = THREAD_UNUSED)) && (id t =? tid) then Some (i + 1)
      else find_loop ts (i + 1) tid
  end.

Definition find_thread_by_id (s : sched) (tid : Z) : option Z :=
  if tid =? SCHEDULER_BOOTSTRAP_ID then Some 0 else find_loop (threads s) 0 tid.

Definition thread_for_slot (slot : Z) : option Z :=
  if slot =? 0 then Some 0
  else if slot <=? SCHEDULER_MAX_THREADS then Some (slot - 1 + 1)
  else None.

Definition slot_count : Z := SCHEDULER_MAX_THREADS + 1.

(** [n] more offsets of the scan are left. *)
Fixpoint runnable_loop (n : nat) (s : sched) (offset : Z) : option (option Z * sched) :=
  match n with
  | O => Some (None, s)
  | S n =>
      let slot := u32 (scan_cursor s + offset) mod slot_count in
      match thread_for_slot slot with
      | Some candidate =>
          t ← thread_at s candidate;
          if bool_decide (state t = THREAD_READY)
          then Some (Some candidate, set_cursor s (u32 (slot + 1) mod slot_count))
          else runnable_loop n s (offset + 1)
      | None => runnable_loop n s (offset + 1)
      end
  end.

Definition next_runnable (s : sched) : option (option Z * sched) :=
  runnable_loop (Z.to_nat slot_count) s 0.

Definition scheduler_init (s : sched) : sched :=
  mk_sched (map (fun _ => mk_thread 0 0 THREAD_UNUSED 0 0 0) (threads s))
    (mk_thread 0 SCHEDULER_BOOTSTRAP_ID THREAD_RUNNING 0 0 0)
    (Some 0) (SCHEDULER_BOOTSTRAP_ID + 1) 1.

(** ** The processor *)

(** The registers [context_switch] saves, the stack pointer and the address
    of the next instruction. *)
Record cpu := mk_cpu { rbx : Z; rbp : Z; r12 : Z; r13 : Z; r14 : Z; r15 : Z; rsp : Z; rip : Z }.

Definition memory := Z -> Z.

Definition store (m : memory) (a v : Z) : memory := fun b => if b =? a then v else m b.

(** pushq: the new stack pointer and memory. *)
Definition push (v : Z) (sm : Z * memory) : Z * memory :=
  let sp := u64 (sm.1 - 8) in (sp, store sm.2 sp v).

(** context_switch, called with the return address on top of the stack: the
    value stored through [old_rsp], the memory and the registers after [ret]. *)
Definition context_switch (m : memory) (c : cpu) (new_rsp : Z) : Z * memory * cpu :=
  let '(sp, m) := push (r15 c) (push (r14 c) (push (r13 c) (push (r12 c)
                    (push (rbp c) (push (rbx c) (rsp c, m)))))) in
  let at_ k := u64 (new_rsp + 8 * k) in
  (sp, m, mk_cpu (m (at_ 5)) (m (at_ 4)) (m (at_ 3)) (m (at_ 2)) (m (at_ 1)) (m (at_ 0)) (at_ 7) (m (at_ 6))).

Section Layout.
Context (stack_address : Z -> Z) (thread_trampoline_address : Z).

Definition prepare_initial_stack (p : Z) (m : memory) : Z * memory :=
  let top := u64 (stack_address p + KERNEL_THREAD_STACK_SIZE) in
  let top := Z.land top (not64 15) in
  let top := u64 (top - 8) in
  push 0 (push 0 (push 0 (push 0 (push 0 (push 0 (push thread_trampoline_address (top, m))))))).

(** ** Creating and yielding *)

Fixpoint create_loop (ts : list thread_t) (i : Z) : option Z :=
  match ts with
  | [] => None
  | t :: ts =>
      if negb (bool_decide (state t = THREAD_UNUSED)) && negb (bool_decide (state t = THREAD_DEAD))
      then create_loop ts (i + 1) else Some i
  end.

(** Result: C's return value, the id written through [thread_id_out] (if that
    is not null), and the state and memory after the call. *)
Definition scheduler_create_kernel_thread (s : sched) (m : memory) (f arg : Z)
    (thread_id_out : option Z) : option (bool * option Z * sched * memory) :=
  if f =? 0 then Some (false, thread_id_out, s, m)
  else match create_loop (threads s) 0 with
  | None => Some (false, thread_id_out, s, m)
  | Some i =>
      let '(sp, m) := prepare_initial_stack (i + 1) m in
      s' ← put_thread s (i + 1) (mk_thread sp (next_id s) THREAD_READY 0 f arg);
      Some (true, (fun _ => next_id s) <$> thread_id_out,
            mk_sched (threads s') (bootstrap_thread s') (current s') (u64 (next_id s + 1)) (scan_cursor s'), m)
  end.
End Layout.

(** scheduler_yield up to the context switch: the new state and, when a
    switch is to happen, the previous and the next thread. *)
Definition yield_select (s : sched) : option (sched * option (Z * Z)) :=
  match current s with
  | None => Some (s, None)
  | Some previous =>
      t ← thread_at s previous;
      s ← (if bool_decide (state t = THREAD_RUNNING) then put_thread s previous (set_state t THREAD_READY) else Some s);
      r ← next_runnable s;
      let '(next, s) := r in
      match next with
      | None =>
          t ← thread_at s previous;
          s ← put_thread s previous (set_state t THREAD_RUNNING); Some (s, None)
      | Some next =>
          if next =? previous then
            t ← thread_at s previous;
            s ← put_thread s previous (set_state t THREAD_RUNNING); Some (s, None)
          else
            t ← thread_at s next;
            s ← put_thread s next (mk_thread (saved_rsp t) (id t) THREAD_RUNNING (u64 (switches t + 1)) (entry t) (argument t));
            Some (set_current s (Some next), Some (previous, next))
      end
  end.

(** The whole function; [c] is the processor at the call of [context_switch].
    After a switch the processor continues in the next thread. *)
Definition scheduler_yield (s : sched) (m : memory) (c : cpu) : option (sched * memory * cpu) :=
  r ← yield_select s;
  match r with
  | (s, None) => Some (s, m, c)
  | (s, Some (previous, next)) =>
      t ← thread_at s next;
      let '(sp, m, c) := context_switch m c (saved_rsp t) in
      p ← thread_at s previous;
      s ← put_thread s previous (set_saved_rsp p sp);
      Some (s, m, c)
  end.

(** The trampoline: the entry function and argument of the new thread, [None]
    for a thread it halts on; and what it does when the entry returns. *)
Definition thread_trampoline_start (s : sched) : option (option (Z * Z)) :=
  match current s with
  | None => Some None
  | Some p => t ← thread_at s p; Some (if entry t =? 0 then None else Some (entry t, argument t))
  end.

Definition thread_trampoline_exit (s : sched) : option (sched * option (Z * Z)) :=
  p ← current s; t ← thread_at s p;
  s ← put_thread s p (set_state t THREAD_DEAD);
  yield_select s.

(** ** Queries *)

Definition scheduler_current_thread_id (s : sched) : option Z :=
  match current s with
  | None => Some 0
  | Some p => t ← thread_at s p; Some (id t)
  end.

Definition is_live (t : thread_t) : bool :=
  bool_decide (state t = THREAD_READY) || bool_decide (state t = THREAD_RUNNING).

Definition scheduler_live_thread_count (s : sched) : Z :=
  foldl (fun count t => if is_live t then u32 (count + 1) else count)
    (if bool_decide (state (bootstrap_thread s) = THREAD_DEAD) then 0 else 1) (threads s).

Definition scheduler_thread_info (s : sched) (tid : Z) (info_out : option thread_info_t) :
    option (bool * option thread_info_t) :=
  match info_out with
  | None => Some (false, None)
  | Some _ =>
      match find_thread_by_id s tid with
      | None => Some (false, info_out)
      | Some p => t ← thread_at s p; Some (true, Some (mk_info (id t) (state t) (switches t)))
      end
  end.

(** ** The self test

    A worker's loop variable lives on its stack; it is kept beside the worker.
    Between two context switches a worker stores one marker and yields, or
    leaves its loop and returns to the trampoline. *)

Record scheduler_test_worker_t := mk_worker { marker : Z; iterations : Z; observed : list Z }.

Definition worker_resume (w : scheduler_test_worker_t * Z) :
    option (scheduler_test_worker_t * Z * bool) :=
  let '(w, i) := w in
  if i <? iterations w then
    o ← wr (observed w) i (u32 (marker w + i));
    Some (mk_worker (marker w) (iterations w) o, u32 (i + 1), false)
  else Some (w, i, true).

Record test_state := mk_test {
  test_sched : sched;
  test_a : scheduler_test_worker_t * Z;
  test_b : scheduler_test_worker_t * Z
}.

Section SelfTest.
Context (stack_address : Z -> Z) (thread_trampoline_address worker_address a_address b_address : Z).

(** The threads other than the bootstrap thread run until it is current
    again.  [None] when another thread than the two workers is scheduled,
    whose code the test does not know. *)
Fixpoint run_others (fuel : nat) (x : test_state) : option test_state :=
  match fuel with
  | O => None
  | S fuel =>
      p ← current (test_sched x);
      if p =? 0 then Some x
      else
        t ← thread_at (test_sched x) p;
        if negb (entry t =? worker_address) then None
        else if argument t =? a_address then
          r ← worker_resume (test_a x);
          let '(w, i, returned) := r in
          y ← (if returned : bool then thread_trampoline_exit (test_sched x) else yield_select (test_sched x));
          run_others fuel (mk_test y.1 (w, i) (test_b x))
        else if argument t =? b_address then
          r ← worker_resume (test_b x);
          let '(w, i, returned) := r in
          y ← (if returned : bool then thread_trampoline_exit (test_sched x) else yield_select (test_sched x));
          run_others fuel (mk_test y.1 (test_a x) (w, i))
        else None
  end.

(** A yield of the bootstrap thread, up to its return. *)
Definition bootstrap_yield (x : test_state) : option test_state :=
  y ← yield_select (test_sched x);
  run_others 64 (mk_test y.1 (test_a x) (test_b x)).

(** The states of the two workers; [None] when a lookup fails. *)
Definition worker_infos (x : test_state) (a_id b_id : Z) : option (option (thread_info_t * thread_info_t)) :=
  ra ← scheduler_thread_info (test_sched x) a_id (Some (mk_info 0 THREAD_UNUSED 0));
  rb ← scheduler_thread_info (test_sched x) b_id (Some (mk_info 0 THREAD_UNUSED 0));
  Some (match ra, rb with
        | (true, Some a), (true, Some b) => Some (a, b)
        | _, _ => None
        end).

Definition is_dead (i : thread_info_t) : bool := bool_decide (info_state i = THREAD_DEAD).

(** The guarded loop; [false] for its early return of 0. *)
Fixpoint guard_loop (guard : nat) (x : test_state) (a_id b_id : Z) : option (bool * test_state) :=
  match guard with
  | O => Some (true, x)
  | S guard =>
      i ← worker_infos x a_id b_id;
      match i with
      | None => Some (false, x)
      | Some (a, b) =>
          if is_dead a && is_dead b then Some (true, x)
          else x ← bootstrap_yield x; guard_loop guard x a_id b_id
      end
  end.

Definition observed_ok (w : scheduler_test_worker_t) (base : Z) : option bool :=
  foldl (fun acc i => r ← acc; o ← rd (observed w) i; Some (r && (o =? u32 (base + i)))) (Some true) [0; 1; 2; 3].

Definition scheduler_self_test (s : sched) (m : memory) : option (bool * sched * memory) :=
  let a := mk_worker 256 4 (replicate 8 0) in
  let b := mk_worker 512 4 (replicate 8 0) in
  r ← scheduler_create_kernel_thread stack_address thread_trampoline_address s m worker_address a_address (Some 0);
  let '(ok, a_id, s, m) := r in
  if negb ok then Some (false, s, m) else
  r ← scheduler_create_kernel_thread stack_address thread_trampoline_address s m worker_address b_address (Some 0);
  let '(ok, b_id, s, m) := r in
  if negb ok then Some (false, s, m) else
  a_id ← a_id; b_id ← b_id;
  x ← bootstrap_yield (mk_test s (a, 0) (b, 0));
  i ← worker_infos x a_id b_id;
  match i with
  | None => Some (false, test_sched x, m)
  | Some (fa, fb) =>
      if is_dead fa && is_dead fb then Some (false, test_sched x, m) else
      cur ← scheduler_current_thread_id (test_sched x);
      if negb (cur =? SCHEDULER_BOOTSTRAP_ID) then Some (false, test_sched x, m) else
      y ← guard_loop 32 x a_id b_id;
      match y with
      | (false, x) => Some (false, test_sched x, m)
      | (true, x) =>
          i ← worker_infos x a_id b_id;
          match i with
          | None => Some (false, test_sched x, m)
          | Some (ia, ib) =>
              cur ← scheduler_current_thread_id (test_sched x);
              oa ← observed_ok (test_a x).1 256; ob ← observed_ok (test_b x).1 512;
              Some (is_dead ia && is_dead ib &&
                negb ((info_switches ia <? iterations (test_a x).1) || (info_switches ib <? iterations (test_b x).1)) &&
                (cur =? SCHEDULER_BOOTSTRAP_ID) && oa && ob, test_sched x, m)
          end
      end
  end.
End SelfTest.

(** ** The thread table as one list of slots *)

Definition all_threads (s : sched) : list thread_t := bootstrap_thread s :: threads s.

Lemma thread_at_rd s p : thread_at s p = rd (all_threads s) p.
Proof.
  unfold thread_at, all_threads. destruct (Z.eqb_spec p 0) as [-> | Hp]; [done |].
  unfold rd. destruct (Z.leb_spec 0 (p - 1)), (Z.leb_spec 0 p); try lia; [| done].
  by replace (Z.to_nat p) with (S (Z.to_nat (p - 1))) by lia.
Qed.

Lemma put_thread_spec s p t :
  zlen (all_threads s) = slot_count -> 0 <= p < slot_count ->
  exists s', put_thread s p t = Some s' /\ all_threads s' = <[Z.to_nat p := t]> (all_threads s) /\
    current s' = current s /\ next_id s' = next_id s /\ scan_cursor s' = scan_cursor s.
Proof.
  intros Hl Hp. unfold all_threads in *. rewrite zlen_cons in Hl. unfold put_thread.
  destruct (Z.eqb_spec p 0) as [-> | Hne]; [by eexists |].
  rewrite wr_in_range by lia. obind. eexists. split; [done |]. split; [| done]. cbn [bootstrap_thread threads].
  by replace (Z.to_nat p) with (S (Z.to_nat (p - 1))) by lia.
Qed.

Lemma rd_insert_inv {A} (l : list A) p q x u :
  0 <= p < zlen l -> rd (<[Z.to_nat p := x]> l) q = Some u -> q = p /\ u = x \/ q <> p /\ rd l q = Some u.
Proof.
  intros Hp Hq. destruct (decide (q = p)) as [-> | Hne].
  - rewrite rd_insert_eq in Hq by done. injection Hq as <-. by left.
  - rewrite rd_insert_ne in Hq by (pose proof (rd_Some_lt _ _ _ Hq); lia). by right.
Qed.

Definition slot_at (s : sched) (k : Z) : Z := (scan_cursor s + k) mod slot_count.

Definition is_ready (s : sched) (p : Z) : Prop :=
  exists t, rd (all_threads s) p = Some t /\ state t = THREAD_READY.

Lemma slot_at_range s k : 0 <= slot_at s k < slot_count.
Proof. by apply Z.mod_pos_bound. Qed.

Lemma runnable_loop_spec n s k :
  zlen (all_threads s) = slot_count -> 0 <= scan_cursor s < slot_count -> 0 <= k -> k + Z.of_nat n <= slot_count ->
  (forall j, 0 <= j < k -> ~ is_ready s (slot_at s j)) ->
  (exists j, 0 <= j < k + Z.of_nat n /\ is_ready s (slot_at s j) /\ (forall i, 0 <= i < j -> ~ is_ready s (slot_at s i)) /\
     runnable_loop n s k = Some (Some (slot_at s j), set_cursor s ((slot_at s j + 1) mod slot_count))) \/
  (forall j, 0 <= j < k + Z.of_nat n -> ~ is_ready s (slot_at s j)) /\ runnable_loop n s k = Some (None, s).
Proof.
  intros Hl Hc Hk Hn. change slot_count with 17 in *. revert k Hk Hn. induction n as [| n IH]; intros k Hk Hn Hno.
  { right. split; [| done]. intros j Hj. apply Hno. lia. }
  cbn [runnable_loop]. rewrite (u32_small (scan_cursor s + k)) by lia.
  change ((scan_cursor s + k) mod slot_count) with (slot_at s k). pose proof (slot_at_range s k) as Hr.
  change slot_count with 17 in Hr.
  assert (thread_for_slot (slot_at s k) = Some (slot_at s k)) as ->.
  { unfold thread_for_slot. change SCHEDULER_MAX_THREADS with 16. destruct (Z.eqb_spec (slot_at s k) 0) as [-> | _]; [done |].
    rewrite (proj2 (Z.leb_le _ _)) by lia. f_equal. lia. }
  rewrite thread_at_rd. destruct (rd_in_range (all_threads s) (slot_at s k)) as [t Ht]; [lia |]. rewrite Ht. obind.
  case_bool_decide as Hst.
  - left. exists k. split; [lia |]. split; [by exists t |]. split; [done |]. rewrite u32_small by lia. done.
  - destruct (IH (k + 1)) as [(j & Hj & H) | [H ->]]; [lia | lia | | |].
    + intros j Hj Hrdy. destruct (decide (j = k)) as [-> | Hne]; [| by apply (Hno j); [lia |]].
      destruct Hrdy as (u & Hu & ?). congruence.
    + left. exists j. split; [lia |]. done.
    + right. split; [| done]. intros j Hj. apply H. lia.
Qed.

(** The first ready thread from the cursor is chosen. *)
Definition chosen (s : sched) (p : Z) : Prop :=
  exists j, 0 <= j < slot_count /\ p = slot_at s j /\ is_ready s p /\ forall i, 0 <= i < j -> ~ is_ready s (slot_at s i).

Lemma slot_at_complete s p : 0 <= p < slot_count -> exists j, 0 <= j < slot_count /\ p = slot_at s j.
Proof.
  intros Hp. exists ((p - scan_cursor s) mod slot_count). split; [by apply Z.mod_pos_bound |].
  unfold slot_at. rewrite Zplus_mod_idemp_r. rewrite Z.mod_small; lia || (f_equal; lia).
Qed.

Lemma next_runnable_spec s :
  zlen (all_threads s) = slot_count -> 0 <= scan_cursor s < slot_count ->
  (exists p, chosen s p /\ next_runnable s = Some (Some p, set_cursor s ((p + 1) mod slot_count))) \/
  (forall p, ~ is_ready s p) /\ next_runnable s = Some (None, s).
Proof.
  intros Hl Hc. unfold next_runnable.
  destruct (runnable_loop_spec (Z.to_nat slot_count) s 0) as [(j & Hj & H1 & H2 & ->) | [H ->]]; try (done || lia).
  - left. exists (slot_at s j). split; [| done]. by exists j.
  - right. split; [| done]. intros p Hp. pose proof Hp as (t & Ht%rd_Some_lt & _). rewrite Hl in Ht.
    destruct (slot_at_complete s p Ht) as (j & Hj & ->). by apply (H j).
Qed.

(** ** The invariant *)

(** The slots [ts] when the thread of slot [c], and no other, is running. *)
Record threads_ok (ts : list thread_t) (nid : Z) (c : option Z) : Prop := {
  ok_length : zlen ts = slot_count;
  ok_running : forall p t, rd ts p = Some t -> state t = THREAD_RUNNING <-> c = Some p;
  ok_bootstrap : exists b, rd ts 0 = Some b /\ id b = SCHEDULER_BOOTSTRAP_ID /\
    (state b = THREAD_READY \/ state b = THREAD_RUNNING);
  ok_ids : forall p t, 1 <= p -> rd ts p = Some t -> state t <> THREAD_UNUSED -> 2 <= id t < nid;
  ok_unique : forall p q t u, 1 <= p -> 1 <= q -> rd ts p = Some t -> rd ts q = Some u ->
    state t <> THREAD_UNUSED -> state u <> THREAD_UNUSED -> id t = id u -> p = q
}.

Definition sched_ok (s : sched) : Prop :=
  threads_ok (all_threads s) (next_id s) (current s) /\ (exists c, current s = Some c /\ 0 <= c < slot_count) /\
  0 <= scan_cursor s < slot_count.

(** A thread changes its state, keeping its id. *)
Lemma threads_ok_update ts nid c c' p t t' :
  threads_ok ts nid c -> rd ts p = Some t -> id t' = id t -> state t <> THREAD_UNUSED ->
  c = Some p \/ c = None -> (state t' = THREAD_RUNNING <-> c' = Some p) -> c' = Some p \/ c' = None ->
  (p = 0 -> state t' = THREAD_READY \/ state t' = THREAD_RUNNING) ->
  threads_ok (<[Z.to_nat p := t']> ts) nid c'.
Proof.
  intros [Hl Hr Hb Hi Hu] Ht Hid Hst Hc Hrun Hc' H0. pose proof (rd_Some_lt _ _ _ Ht) as Hp.
  pose proof (fun q u => rd_insert_inv ts p q t' u Hp) as Hrd.
  split.
  - by rewrite zlen_insert.
  - intros q u Hq. destruct (Hrd q u Hq) as [[-> ->] | [Hne Hq']]; [done |].
    pose proof (Hr q u Hq') as E. rewrite E. clear - Hc Hc' Hne. destruct Hc as [-> | ->], Hc' as [-> | ->]; split; congruence.
  - destruct Hb as (b & Hb & Hbi & Hbs). destruct (decide (p = 0)) as [-> | Hne].
    + exists t'. rewrite rd_insert_eq by done. split; [done |]. split; [| by apply H0]. congruence.
    + exists b. by rewrite rd_insert_ne by lia.
  - intros q u H1 Hq Hs. destruct (Hrd q u Hq) as [[-> ->] | [Hne Hq']]; [| by apply (Hi q)].
    rewrite Hid. by apply (Hi p).
  - intros q1 q2 u1 u2 H1 H2 Hq1 Hq2 Hs1 Hs2 E.
    destruct (Hrd _ _ Hq1) as [[-> ->] | [Hne1 Hq1']], (Hrd _ _ Hq2) as [[-> ->] | [Hne2 Hq2']]; try done.
    + apply (Hu p q2 t u2); congruence.
    + apply (Hu q1 p u1 t); congruence.
    + by apply (Hu q1 q2 u1 u2).
Qed.

(** A thread that no one runs on: between giving up the processor and taking
    it again no thread is running. *)
Definition idle (s : sched) : Prop :=
  threads_ok (all_threads s) (next_id s) None /\ 0 <= scan_cursor s < slot_count.

(** [s'] is [s] with the thread [p] taking the processor. *)
Definition resumed (s s' : sched) (p : Z) : Prop :=
  exists t t', rd (all_threads s) p = Some t /\ all_threads s' = <[Z.to_nat p := t']> (all_threads s) /\
    id t' = id t /\ saved_rsp t' = saved_rsp t /\ entry t' = entry t /\ argument t' = argument t /\
    state t' = THREAD_RUNNING /\ current s' = Some p /\ next_id s' = next_id s /\
    scan_cursor s' = (p + 1) mod slot_count.

Lemma resumed_ok s s' p : idle s -> is_ready s p -> resumed s s' p -> sched_ok s'.
Proof.
  intros [Hok Hc] (u & Hu & Hst) (t & t' & Ht & E & Hid & _ & _ & _ & Hst' & Hcur & Hn & Hcu).
  assert (u = t) as -> by congruence. split; [| split].
  - rewrite E, Hcur, Hn. eapply threads_ok_update; try done; [congruence | by right | by left | by right].
  - exists p. split; [done |]. rewrite <- (ok_length _ _ _ Hok). by eapply rd_Some_lt.
  - rewrite Hcu. by apply Z.mod_pos_bound.
Qed.

(** The part of a yield after the current thread has given up the processor. *)
Lemma yield_tail s c :
  idle s -> current s = Some c -> 0 <= c < slot_count ->
  exists p s' sw, chosen s p /\ resumed s s' p /\ sw = (if p =? c then None else Some (c, p)) /\
    (r ← next_runnable s;
     let '(next, s) := r in
     match next with
     | None => t ← thread_at s c; s ← put_thread s c (set_state t THREAD_RUNNING); Some (s, None)
     | Some next =>
         if next =? c then t ← thread_at s c; s ← put_thread s c (set_state t THREAD_RUNNING); Some (s, None)
         else t ← thread_at s next;
           s ← put_thread s next (mk_thread (saved_rsp t) (id t) THREAD_RUNNING (u64 (switches t + 1)) (entry t) (argument t));
           Some (set_current s (Some next), Some (c, next))
     end) = Some (s', sw).
Proof.
  intros [Hok Hcur] Hc Hcr. pose proof (ok_length _ _ _ Hok) as Hl.
  destruct (next_runnable_spec s Hl Hcur) as [(p & Hch & ->) | [Hno _]].
  2: { destruct (ok_bootstrap _ _ _ Hok) as (b & Hb & _ & [Hs | Hs]); [destruct (Hno 0); by exists b |].
       by apply (ok_running _ _ _ Hok 0 b Hb) in Hs. }
  obind. pose proof Hch as (j & Hj & Ep & (t & Ht & Hst) & _). pose proof (rd_Some_lt _ _ _ Ht) as Hpr. rewrite Hl in Hpr.
  set (s1 := set_cursor s _). assert (all_threads s1 = all_threads s) as Ea by done.
  assert (thread_at s1 p = Some t) as Et by (by rewrite thread_at_rd).
  destruct (Z.eqb_spec p c) as [-> | Hne].
  - rewrite Et. obind. destruct (put_thread_spec s1 c (set_state t THREAD_RUNNING)) as (s' & -> & E & E1 & E2 & E3); [done | done |].
    obind. eexists c, s', _. split; [done |]. split; [| by rewrite Z.eqb_refl]. eexists t, _. split; [done |].
    split; [by rewrite E, Ea |]. repeat (split; [done |]). rewrite E1, E2, E3. done.
  - rewrite Et. obind.
    destruct (put_thread_spec s1 p (mk_thread (saved_rsp t) (id t) THREAD_RUNNING (u64 (switches t + 1)) (entry t) (argument t)))
      as (s' & -> & E & E1 & E2 & E3); [done | done |].
    obind. eexists p, _, _. split; [done |]. split; [| by rewrite (proj2 (Z.eqb_neq p c))]. eexists t, _. split; [done |].
    split; [exact E |]. repeat (split; [done |]). cbn. by rewrite ?E2, ?E3.
Qed.

(** What changes when the current thread [c] gives up the processor. *)
Definition released (s s1 : sched) (c : Z) (st : thread_state_t) : Prop :=
  exists t, rd (all_threads s) c = Some t /\ all_threads s1 = <[Z.to_nat c := set_state t st]> (all_threads s) /\
    current s1 = Some c /\ next_id s1 = next_id s /\ scan_cursor s1 = scan_cursor s.

Lemma released_idle s s1 c st :
  sched_ok s -> current s = Some c -> released s s1 c st -> st <> THREAD_RUNNING ->
  (c = 0 -> st = THREAD_READY) -> idle s1.
Proof.
  intros (Hok & _ & Hcur) Hc (t & Ht & E & _ & En & Ecur) Hne H0. split; [| by rewrite Ecur].
  rewrite E, En. rewrite Hc in Hok. eapply threads_ok_update; try done.
  - intros Hs. assert (state t = THREAD_RUNNING) by (by apply (ok_running _ _ _ Hok c t Ht)). congruence.
  - by left.
  - by right.
  - intros Hz. left. by apply H0.
Qed.

(** A yield or an exit: the current thread becomes [st] and the first ready
    thread from the cursor continues. *)
Lemma switch_spec s c st :
  sched_ok s -> current s = Some c ->
  st = THREAD_READY \/ st = THREAD_DEAD /\ c <> 0 ->
  exists s1 p s' sw, released s s1 c st /\ idle s1 /\ chosen s1 p /\ resumed s1 s' p /\ sched_ok s' /\
    sw = (if p =? c then None else Some (c, p)) /\
    match st with THREAD_READY => yield_select s | _ => thread_trampoline_exit s end = Some (s', sw).
Proof.
  intros Hok Hc Hst. pose proof Hok as (Hth & (c' & Hc' & Hcr) & Hcur). pose proof (ok_length _ _ _ Hth) as Hl.
  assert (c' = c) as -> by congruence. destruct (rd_in_range (all_threads s) c) as [t Ht]; [lia |].
  assert (state t = THREAD_RUNNING) as Hrun by (by apply (ok_running _ _ _ Hth c t Ht)).
  destruct (put_thread_spec s c (set_state t st) Hl Hcr) as (s1 & Hput & E & E1 & E2 & E3).
  assert (released s s1 c st) as Hrel by (exists t; split_and!; congruence).
  assert (idle s1) as Hidle by (apply (released_idle s s1 c st); [done | done | done | |]; by destruct Hst as [-> | [-> ?]]).
  destruct (yield_tail s1 c Hidle) as (p & s' & sw & Hch & Hres & Hsw & Hy); [congruence | done |].
  exists s1, p, s', sw. do 4 (split; [done |]). split; [| split; [done |]].
  { eapply resumed_ok; [done | | done]. by destruct Hch as (j & _ & _ & ? & _). }
  destruct Hst as [-> | [-> _]].
  - unfold yield_select. rewrite Hc, thread_at_rd, Ht. obind. rewrite bool_decide_eq_true_2 by done. rewrite Hput. exact Hy.
  - unfold thread_trampoline_exit. rewrite Hc. obind. rewrite thread_at_rd, Ht. obind. rewrite Hput. obind.
    unfold yield_select. rewrite E1, Hc, thread_at_rd, E. rewrite rd_insert_eq by (rewrite Hl; done). obind.
    rewrite bool_decide_eq_false_2 by done. exact Hy.
Qed.

(** ** Creation *)

Lemma create_loop_spec ts i :
  match create_loop ts i with
  | None => Forall (fun t => state t = THREAD_READY \/ state t = THREAD_RUNNING) ts
  | Some k => exists n t, k = i + Z.of_nat n /\ ts !! n = Some t /\ (state t = THREAD_UNUSED \/ state t = THREAD_DEAD) /\
      Forall (fun t => state t = THREAD_READY \/ state t = THREAD_RUNNING) (take n ts)
  end.
Proof.
  revert i. induction ts as [| t ts IH]; intros i; cbn [create_loop]; [done |].
  destruct (state t) eqn:Hs; cbn.
  1, 4: exists 0%nat, t; split_and!; [lia | done | by auto | done].
  all: specialize (IH (i + 1)); destruct (create_loop ts (i + 1)) as [k |].
  1, 3: destruct IH as (n & u & -> & Hu & Hus & Hf); exists (S n), u; split_and!; [lia | done | done |]; cbn; constructor; [by auto | done].
  all: constructor; [by auto | done].
Qed.

Section Histories.
Context (stack_address : Z -> Z) (thread_trampoline_address : Z).
#[local] Abbreviation create := (scheduler_create_kernel_thread stack_address thread_trampoline_address).

(** The new thread takes the first slot [p] whose thread is not live. *)
Definition created (s s' : sched) (m m' : memory) (p f arg : Z) : Prop :=
  exists old, 1 <= p < slot_count /\ rd (all_threads s) p = Some old /\
    (state old = THREAD_UNUSED \/ state old = THREAD_DEAD) /\
    (forall q u, 1 <= q < p -> rd (all_threads s) q = Some u -> state u = THREAD_READY \/ state u = THREAD_RUNNING) /\
    prepare_initial_stack stack_address thread_trampoline_address p m =
      (fst (prepare_initial_stack stack_address thread_trampoline_address p m), m') /\
    all_threads s' = <[Z.to_nat p := mk_thread (fst (prepare_initial_stack stack_address thread_trampoline_address p m))
      (next_id s) THREAD_READY 0 f arg]> (all_threads s) /\
    current s' = current s /\ scan_cursor s' = scan_cursor s /\ next_id s' = u64 (next_id s + 1).

Lemma create_spec s m f arg out :
  zlen (all_threads s) = slot_count -> exists ok o s' m', create s m f arg out = Some (ok, o, s', m') /\
    if ok then f <> 0 /\ o = (fun _ => next_id s) <$> out /\ exists p, created s s' m m' p f arg
    else o = out /\ s' = s /\ m' = m /\
      (f = 0 \/ Forall (fun t => state t = THREAD_READY \/ state t = THREAD_RUNNING) (threads s)).
Proof.
  intros Hl. unfold scheduler_create_kernel_thread. destruct (Z.eqb_spec f 0) as [-> | Hf].
  { eexists false, _, _, _. split; [done |]. by auto. }
  pose proof (create_loop_spec (threads s) 0) as Hloop. destruct (create_loop (threads s) 0) as [i |].
  2: { eexists false, _, _, _. split; [done |]. by auto. }
  destruct Hloop as (n & t & -> & Hn & Hst & Hf'). pose proof (lookup_lt_Some _ _ _ Hn) as Hlt.
  destruct (prepare_initial_stack _ _ (0 + Z.of_nat n + 1) m) as [sp m'] eqn:Ep.
  assert (Z.of_nat n + 1 < slot_count) as Hr.
  { unfold all_threads in Hl. rewrite zlen_cons in Hl. unfold zlen in Hl. lia. }
  destruct (put_thread_spec s (0 + Z.of_nat n + 1) (mk_thread sp (next_id s) THREAD_READY 0 f arg))
    as (s' & -> & E & E1 & E2 & E3); [done | lia |].
  obind. eexists true, _, _, _. split; [done |]. split; [done |]. split; [done |].
  exists (0 + Z.of_nat n + 1), t. split; [lia |]. split_and!; try done.
  - unfold all_threads. rewrite (rd_app_r [bootstrap_thread s] (threads s)) by (change (zlen [_]) with 1; lia).
    change (zlen [_]) with 1. replace (0 + Z.of_nat n + 1 - 1) with (Z.of_nat n) by lia. by rewrite rd_of_nat.
  - intros q u Hq Hu. unfold all_threads in Hu.
    rewrite (rd_app_r [bootstrap_thread s] (threads s)) in Hu by (change (zlen [_]) with 1; lia). change (zlen [_]) with 1 in Hu.
    apply rd_lookup in Hu as [_ Hu]. rewrite Forall_forall in Hf'. apply Hf'.
    apply (list_elem_of_lookup_2 _ (Z.to_nat (q - 1))). rewrite lookup_take. case_decide; [done | lia].
  - by rewrite Ep.
  - by rewrite Ep.
Qed.

Lemma thread_created_ok s s' m m' p f arg :
  sched_ok s -> 2 <= next_id s < UINT64_MAX -> created s s' m m' p f arg -> sched_ok s'.
Proof.
  intros ([Hl Hr Hb Hi Hu] & Hc & Hcur) Hid (old & Hp & Hold & Hst & _ & _ & E & E1 & E2 & E3).
  assert (current s <> Some p) as Hnc.
  { intros Hcp. apply (Hr p old Hold) in Hcp. destruct Hst; congruence. }
  rewrite u64_small in E3 by (unfold UINT64_MAX in Hid; lia).
  split; [| rewrite E1, E2; done]. rewrite E, E1, E3.
  set (t' := mk_thread _ _ THREAD_READY _ _ _).
  pose proof (fun q u => rd_insert_inv (all_threads s) p q t' u ltac:(lia)) as Hrd.
  split.
  - by rewrite zlen_insert.
  - intros q u Hq. destruct (Hrd q u Hq) as [[-> ->] | [Hne Hq']]; [by split | by apply Hr].
  - destruct Hb as (b & Hb & ?). exists b. by rewrite rd_insert_ne by lia.
  - intros q u H1 Hq Hs. destruct (Hrd q u Hq) as [[-> ->] | [Hne Hq']]; [cbn; lia |]. specialize (Hi q u H1 Hq' Hs). lia.
  - intros q1 q2 u1 u2 H1 H2 Hq1 Hq2 Hs1 Hs2 Eid.
    destruct (Hrd _ _ Hq1) as [[-> ->] | [Hne1 Hq1']], (Hrd _ _ Hq2) as [[-> ->] | [Hne2 Hq2']]; try done.
    + specialize (Hi q2 u2 H2 Hq2' Hs2). cbn in Eid. lia.
    + specialize (Hi q1 u1 H1 Hq1' Hs1). cbn in Eid. lia.
    + by apply (Hu q1 q2 u1 u2).
Qed.

(** ** Histories

    The events of the running thread: it creates a thread, yields, or, when it
    is not the bootstrap thread, returns from its entry function. *)
Inductive event := Create (f arg : Z) | Yield | Exit.

Inductive sched_step : sched * memory -> event -> sched * memory -> Prop :=
| step_create s m f arg ok o s' m' :
    create s m f arg (Some 0) = Some (ok, o, s', m') -> sched_step (s, m) (Create f arg) (s', m')
| step_yield s m s' sw : yield_select s = Some (s', sw) -> sched_step (s, m) Yield (s', m)
| step_exit s m s' sw :
    current s <> Some 0 -> thread_trampoline_exit s = Some (s', sw) -> sched_step (s, m) Exit (s', m).

Inductive sched_run (x : sched * memory) : list event -> sched * memory -> Prop :=
| run_nil : sched_run x [] x
| run_cons e es y z : sched_step x e y -> sched_run y es z -> sched_run x (e :: es) z.

Lemma init_ok s : zlen (threads s) = SCHEDULER_MAX_THREADS -> sched_ok (scheduler_init s) /\ next_id (scheduler_init s) = 2.
Proof.
  intros Hl. split; [| done]. split; [| split; [by exists 0 | done]].
  assert (forall p t, 1 <= p -> rd (all_threads (scheduler_init s)) p = Some t -> t = mk_thread 0 0 THREAD_UNUSED 0 0 0) as Hall.
  { intros p t Hp Ht. apply rd_lookup in Ht as [_ Ht]. unfold all_threads in Ht.
    replace (Z.to_nat p) with (S (Z.to_nat (p - 1))) in Ht by lia. cbn in Ht.
    apply (list_lookup_fmap_Some_1 (fun _ => mk_thread 0 0 THREAD_UNUSED 0 0 0)) in Ht. by destruct Ht as (? & -> & _). }
  split.
  - unfold all_threads, zlen in *. cbn [scheduler_init bootstrap_thread threads length]. rewrite length_map.
    change SCHEDULER_MAX_THREADS with 16 in Hl. change slot_count with 17. lia.
  - intros p t Ht. destruct (decide (p = 0)) as [-> | Hne]; [injection Ht as <-; done |].
    pose proof (rd_Some_lt _ _ _ Ht). rewrite (Hall p t) by (lia || done). split; [done |]. intros [= ?]. lia.
  - eexists. split; [done |]. by auto.
  - intros p t Hp Ht. by rewrite (Hall p t Hp Ht).
  - intros p q t u Hp _ Ht _. by rewrite (Hall p t Hp Ht).
Qed.

Lemma step_ok s m e s' m' :
  sched_ok s -> 2 <= next_id s < UINT64_MAX -> sched_step (s, m) e (s', m') ->
  sched_ok s' /\ next_id s <= next_id s' <= next_id s + 1.
Proof.
  intros Hok Hid Hstep. pose proof Hok as (Hth & (c & Hc & _) & _). inversion Hstep as [? ? ? ? ok o ? ? Hcr | ? ? ? sw Hy | ? ? ? sw Hne Hy]; subst.
  - destruct (create_spec s m f arg (Some 0) (ok_length _ _ _ Hth)) as (ok' & o' & s1 & m1 & E & Hcase).
    rewrite Hcr in E. injection E as <- <- <- <-. destruct ok; [| destruct Hcase as (_ & -> & _); split; [done | lia]].
    destruct Hcase as (_ & _ & p & Hcreated). split; [by eapply thread_created_ok |].
    destruct Hcreated as (_ & _ & _ & _ & _ & _ & _ & _ & _ & ->). rewrite u64_small by (unfold UINT64_MAX in Hid; lia). lia.
  - destruct (switch_spec s c THREAD_READY Hok Hc) as (s1 & p & s2 & sw2 & (_ & _ & _ & _ & En & _) & _ & _ & Hres & Hok' & _ & E); [by left |].
    rewrite Hy in E. injection E as <- _. split; [done |]. destruct Hres as (_ & _ & _ & _ & _ & _ & _ & _ & _ & _ & E' & _).
    rewrite E', En. lia.
  - destruct (switch_spec s c THREAD_DEAD Hok Hc) as (s1 & p & s2 & sw2 & (_ & _ & _ & _ & En & _) & _ & _ & Hres & Hok' & _ & E);
      [right; split; [done |]; congruence |].
    rewrite Hy in E. injection E as <- _. split; [done |]. destruct Hres as (_ & _ & _ & _ & _ & _ & _ & _ & _ & _ & E' & _).
    rewrite E', En. lia.
Qed.

Lemma run_ok x es y :
  sched_run x es y -> sched_ok x.1 -> 2 <= next_id x.1 -> next_id x.1 + zlen es <= UINT64_MAX ->
  sched_ok y.1 /\ next_id x.1 <= next_id y.1 <= next_id x.1 + zlen es.
Proof.
  induction 1 as [x | [s m] e es [s1 m1] z Hstep _ IH]; cbn [fst] in *; intros Hok H2 Hlen.
  - change (zlen []) with 0. split; [done | lia].
  - rewrite zlen_cons in Hlen. pose proof (zlen_nonneg es).
    destruct (step_ok s m e s1 m1 Hok) as [Hok1 Hid]; [lia | done |].
    destruct IH as [Hok2 Hid2]; [done | lia | lia |]. split; [done |]. rewrite zlen_cons. lia.
Qed.

Lemma find_thread_loop_spec ts i tid :
  match find_loop ts i tid with
  | Some k => exists n t, k = i + Z.of_nat n + 1 /\ ts !! n = Some t /\ state t <> THREAD_UNUSED /\ id t = tid
  | None => Forall (fun t => state t <> THREAD_UNUSED -> id t <> tid) ts
  end.
Proof.
  revert i. induction ts as [| t ts IH]; intros i; cbn [find_loop]; [done |].
  case_bool_decide as Hs; cbn [negb andb]; [| destruct (Z.eqb_spec (id t) tid) as [Hid | Hid]].
  2: { exists 0%nat, t. split_and!; [lia | done | done | done]. }
  all: specialize (IH (i + 1)); destruct (find_loop ts (i + 1) tid) as [k |]; [| by constructor].
  all: destruct IH as (n & u & -> & Hu & Hus & Hi); exists (S n), u; split_and!; [lia | done | done | done].
Qed.

Lemma ids_unique ts nid c p q t u :
  threads_ok ts nid c -> rd ts p = Some t -> rd ts q = Some u -> state t <> THREAD_UNUSED -> state u <> THREAD_UNUSED ->
  id t = id u -> p = q.
Proof.
  intros [_ _ (b & Hb & Hbi & _) Hi Hu] Hp Hq Hs1 Hs2 E. unfold SCHEDULER_BOOTSTRAP_ID in Hbi.
  pose proof (rd_Some_lt _ _ _ Hp). pose proof (rd_Some_lt _ _ _ Hq).
  destruct (decide (p = 0)) as [-> | Hp0], (decide (q = 0)) as [-> | Hq0]; [done | | | eapply Hu; eauto; lia].
  - specialize (Hi q u). assert (t = b) as -> by congruence. lia || (destruct Hi; [lia | done | done | lia]).
  - specialize (Hi p t). assert (u = b) as -> by congruence. lia || (destruct Hi; [lia | done | done | lia]).
Qed.

Lemma thread_info_spec s p t i :
  sched_ok s -> thread_at s p = Some t -> state t <> THREAD_UNUSED ->
  scheduler_thread_info s (id t) (Some i) = Some (true, Some (mk_info (id t) (state t) (switches t))).
Proof.
  intros (Hok & _) Ht Hst. rewrite thread_at_rd in Ht. unfold scheduler_thread_info.
  assert (find_thread_by_id s (id t) = Some p) as ->; [| by rewrite thread_at_rd, Ht].
  pose proof Hok as [Hl _ (b & Hb & Hbi & _) Hi _]. unfold find_thread_by_id, SCHEDULER_BOOTSTRAP_ID in *.
  destruct (decide (p = 0)) as [-> | Hp]; [rewrite Hb in Ht; injection Ht as <-; by rewrite Hbi |].
  pose proof (rd_Some_lt _ _ _ Ht) as Hr. assert (2 <= id t) by (apply (Hi p); lia || done).
  rewrite (proj2 (Z.eqb_neq _ _)) by lia. pose proof (find_thread_loop_spec (threads s) 0 (id t)) as Hf.
  pose proof Ht as Ht'. unfold all_threads in Ht'.
  rewrite (rd_app_r [bootstrap_thread s] (threads s)) in Ht' by (change (zlen [_]) with 1; lia). change (zlen [_]) with 1 in Ht'.
  destruct (find_loop (threads s) 0 (id t)) as [k |].
  - destruct Hf as (n & u & -> & Hu & Hus & Hid). f_equal.
    apply (ids_unique (all_threads s) (next_id s) (current s) _ _ u t Hok); try done.
    unfold all_threads. rewrite (rd_app_r [bootstrap_thread s] (threads s)) by (change (zlen [_]) with 1; lia).
    change (zlen [_]) with 1. replace (0 + Z.of_nat n + 1 - 1) with (Z.of_nat n) by lia. by rewrite rd_of_nat.
  - apply rd_lookup in Ht' as [_ Ht']. rewrite Forall_forall in Hf. by destruct (Hf t (list_elem_of_lookup_2 _ _ _ Ht') Hst).
Qed.

Lemma live_count_loop ts k :
  0 <= k -> k + zlen ts < 2 ^ 32 ->
  foldl (fun count t => if is_live t then u32 (count + 1) else count) k ts = k + Z.of_nat (length (filter (fun t => is_live t = true) ts)).
Proof.
  revert k. induction ts as [| t ts IH]; intros k Hk Hl; cbn [foldl]; [cbn; lia |]. rewrite zlen_cons in Hl. pose proof (zlen_nonneg ts).
  rewrite filter_cons. destruct (is_live t).
  - rewrite u32_small by lia. rewrite IH by lia. rewrite decide_True by done. cbn [length]. lia.
  - rewrite IH by lia. by rewrite decide_False.
Qed.

Lemma live_count_spec s :
  sched_ok s -> scheduler_live_thread_count s = Z.of_nat (length (filter (fun t => is_live t = true) (all_threads s))).
Proof.
  intros (Hok & _). pose proof (ok_length _ _ _ Hok) as Hl. destruct (ok_bootstrap _ _ _ Hok) as (b & [= Hb] & _ & Hs).
  unfold all_threads in *. rewrite zlen_cons in Hl. change slot_count with 17 in Hl. unfold scheduler_live_thread_count.
  rewrite bool_decide_eq_false_2 by (rewrite Hb; destruct Hs; congruence).
  rewrite live_count_loop by lia. rewrite filter_cons, decide_True; [cbn [length]; lia |].
  unfold is_live. rewrite Hb. by destruct Hs as [-> | ->].
Qed.

(** C15. Scheduler invariant.  In every history that starts with
    [scheduler_init]: exactly one thread is running and it is the current one,
    the bootstrap thread never dies, no two threads share an id, every yield,
    exit and creation is defined, a thread is found by its id, and the live
    count is the number of ready and running threads. *)
Theorem scheduler_histories_safe s0 m0 es s m :
  zlen (threads s0) = SCHEDULER_MAX_THREADS -> zlen es <= UINT64_MAX - 2 ->
  sched_run (scheduler_init s0, m0) es (s, m) ->
  (exists c t, current s = Some c /\ thread_at s c = Some t /\ state t = THREAD_RUNNING /\
     forall p u, thread_at s p = Some u -> state u = THREAD_RUNNING -> p = c) /\
  (state (bootstrap_thread s) = THREAD_READY \/ state (bootstrap_thread s) = THREAD_RUNNING) /\
  (forall p q t u, thread_at s p = Some t -> thread_at s q = Some u ->
     state t <> THREAD_UNUSED -> state u <> THREAD_UNUSED -> id t = id u -> p = q) /\
  is_Some (yield_select s) /\ (current s <> Some 0 -> is_Some (thread_trampoline_exit s)) /\
  (forall f arg o, is_Some (create s m f arg o)) /\
  (forall p t i, thread_at s p = Some t -> state t <> THREAD_UNUSED ->
     scheduler_thread_info s (id t) (Some i) = Some (true, Some (mk_info (id t) (state t) (switches t)))) /\
  scheduler_live_thread_count s = Z.of_nat (length (filter (fun t => is_live t = true) (all_threads s))).
Proof.
  intros Hl Hes Hrun. destruct (init_ok s0 Hl) as [Hok0 Hn0].
  destruct (run_ok _ _ _ Hrun Hok0) as [Hok _]; cbn [fst] in *; [lia | lia |].
  pose proof Hok as (Hth & (c & Hc & Hcr) & Hcur). pose proof Hth as [Hlen Hr (b & [= Hb] & _ & Hbs) _ _].
  destruct (rd_in_range (all_threads s) c) as [t Ht]; [lia |]. split_and!.
  - exists c, t. split; [done |]. rewrite thread_at_rd. split; [done |]. split; [by apply (Hr c t Ht) |].
    intros p u Hu Hs. rewrite thread_at_rd in Hu. apply (Hr p u Hu) in Hs. congruence.
  - by rewrite Hb.
  - intros p q u v. rewrite !thread_at_rd. by apply (ids_unique _ _ _ _ _ _ _ Hth).
  - destruct (switch_spec s c THREAD_READY Hok Hc) as (? & ? & ? & ? & _ & _ & _ & _ & _ & _ & E); [by left | by eexists].
  - intros Hne. destruct (switch_spec s c THREAD_DEAD Hok Hc) as (? & ? & ? & ? & _ & _ & _ & _ & _ & _ & E); [| by eexists].
    right. split; [done |]. congruence.
  - intros f arg o. destruct (create_spec s m f arg o Hlen) as (? & ? & ? & ? & E & _). by eexists.
  - intros p u i. by apply thread_info_spec.
  - by apply live_count_spec.
Qed.

(** ** Fairness *)

(** How many slots the scan passes before it reaches [p]. *)
Definition distance (s : sched) (p : Z) : Z := (p - scan_cursor s) mod slot_count.

(** The number of times the running thread gives up the processor. *)
Fixpoint switch_count (es : list event) : Z :=
  match es with
  | [] => 0
  | Create _ _ :: es => switch_count es
  | _ :: es => 1 + switch_count es
  end.

Lemma distance_slot s p : 0 <= p < slot_count -> slot_at s (distance s p) = p.
Proof.
  intros Hp. unfold slot_at, distance. rewrite Zplus_mod_idemp_r.
  replace (scan_cursor s + (p - scan_cursor s)) with p by lia. by apply Z.mod_small.
Qed.

Lemma distance_after s s' j p :
  0 <= j < distance s p -> scan_cursor s' = (slot_at s j + 1) mod slot_count -> distance s' p = distance s p - j - 1.
Proof.
  intros Hj E. unfold distance at 1. rewrite E. unfold slot_at, distance in *. change slot_count with 17 in *.
  rewrite Zplus_mod_idemp_l, Zminus_mod_idemp_r. 
  replace (p - (scan_cursor s + j + 1)) with (p - scan_cursor s - (j + 1)) by lia.
  rewrite <- Zminus_mod_idemp_l. pose proof (Z.mod_pos_bound (p - scan_cursor s) 17). rewrite Z.mod_small; lia.
Qed.

(** A ready thread is chosen, or waits with a smaller distance. *)
Lemma switch_waiting s s1 s' c st p q t :
  sched_ok s -> current s = Some c -> released s s1 c st -> chosen s1 q -> resumed s1 s' q ->
  rd (all_threads s) p = Some t -> state t = THREAD_READY ->
  current s' = Some p /\ (exists t', rd (all_threads s') p = Some t' /\ id t' = id t) \/
  rd (all_threads s') p = Some t /\ distance s' p < distance s p.
Proof.
  intros Hok Hc (tc & Htc & E & _ & _ & Ecur) (j & Hj & -> & Hrq & Hmin) (tq & tq' & Htq & Eq & Hid & _ & _ & _ & _ & Hcur & _ & Hcu) Hp Hst.
  pose proof Hok as (Hth & _ & _). pose proof (ok_length _ _ _ Hth) as Hl. pose proof (rd_Some_lt _ _ _ Hp) as Hpr. rewrite Hl in Hpr.
  assert (p <> c) as Hpc.
  { intros ->. assert (state t = THREAD_RUNNING) by (by apply (ok_running _ _ _ Hth c t Hp)). congruence. }
  assert (rd (all_threads s1) p = Some t) as Hp1.
  { rewrite E, rd_insert_ne by (pose proof (rd_Some_lt _ _ _ Htc); lia). done. }
  assert (0 <= distance s1 p < slot_count) as Hd by (by apply Z.mod_pos_bound).
  assert (distance s1 p = distance s p) as Ed by (unfold distance; by rewrite Ecur).
  destruct (decide (slot_at s1 j = p)) as [<- | Hne].
  - left. split; [done |]. exists tq'. rewrite Eq, rd_insert_eq by (pose proof (rd_Some_lt _ _ _ Htq); lia).
    split; [done |]. congruence.
  - right. split.
    + rewrite Eq, rd_insert_ne by (pose proof (rd_Some_lt _ _ _ Htq); lia). done.
    + assert (j < distance s1 p) as Hlt.
      { destruct (Z.lt_trichotomy j (distance s1 p)) as [? | [-> | Hgt]]; [done | by rewrite distance_slot in Hne by done |].
        exfalso. apply (Hmin (distance s1 p)); [lia |]. rewrite distance_slot by done. by exists t. }
      rewrite (distance_after s1 s' j p) by (done || lia). lia.
Qed.

Lemma step_waiting s m e s' m' p t :
  sched_ok s -> sched_step (s, m) e (s', m') -> rd (all_threads s) p = Some t -> state t = THREAD_READY ->
  current s' = Some p /\ (exists t', rd (all_threads s') p = Some t' /\ id t' = id t) /\ switch_count [e] = 1 \/
  rd (all_threads s') p = Some t /\ distance s' p + switch_count [e] <= distance s p.
Proof.
  intros Hok Hstep Hp Hst. pose proof Hok as (Hth & (c & Hc & _) & _).
  assert (forall st, st = THREAD_READY \/ st = THREAD_DEAD /\ c <> 0 ->
    forall s2 sw, match st with THREAD_READY => yield_select s | _ => thread_trampoline_exit s end = Some (s2, sw) ->
    current s2 = Some p /\ (exists t', rd (all_threads s2) p = Some t' /\ id t' = id t) \/
    rd (all_threads s2) p = Some t /\ distance s2 p < distance s p) as Hsw.
  { intros st Hcase s2 sw Hs2. destruct (switch_spec s c st Hok Hc Hcase) as (s1 & q & s3 & sw3 & Hrel & _ & Hch & Hres & _ & _ & E).
    rewrite Hs2 in E. injection E as <- _. by eapply switch_waiting. }
  inversion Hstep as [? ? ? ? ok o ? ? Hcr | ? ? ? sw Hy | ? ? ? sw Hne Hy]; subst; cbn [switch_count].
  - right. destruct (create_spec s m f arg (Some 0) (ok_length _ _ _ Hth)) as (ok' & o' & s1 & m1 & E & Hcase).
    rewrite Hcr in E. injection E as <- <- <- <-. destruct ok; [| destruct Hcase as (_ & -> & _); split; [done | lia]].
    destruct Hcase as (_ & _ & q & old & Hq & Hold & Hos & _ & _ & Ea & _ & Ecur & _).
    split; [| unfold distance; rewrite Ecur; lia].
    assert (q <> p) by (intros ->; destruct Hos; congruence).
    rewrite Ea, rd_insert_ne by (pose proof (rd_Some_lt _ _ _ Hp); lia). done.
  - destruct (Hsw THREAD_READY (or_introl eq_refl) _ _ Hy) as [[? ?] | [? ?]]; [left | right]; split; try done; lia.
  - destruct (Hsw THREAD_DEAD) with (2 := Hy) as [[? ?] | [? ?]]; [right; split; congruence | left | right]; split; try done; lia.
Qed.

Lemma run_reaches x es y p t :
  sched_run x es y -> sched_ok x.1 -> 2 <= next_id x.1 -> next_id x.1 + zlen es <= UINT64_MAX ->
  rd (all_threads x.1) p = Some t -> state t = THREAD_READY -> distance x.1 p < switch_count es ->
  exists es1 es2 z t', es = es1 ++ es2 /\ sched_run x es1 z /\ sched_run z es2 y /\ current z.1 = Some p /\
    rd (all_threads z.1) p = Some t' /\ id t' = id t /\ switch_count es1 <= distance x.1 p + 1.
Proof.
  induction 1 as [x | [s m] e es [s1 m1] y Hstep Hrun IH]; cbn [fst] in *; intros Hok H2 Hlen Hp Hst Hd.
  { assert (0 <= distance x.1 p) by (by apply Z.mod_pos_bound). cbn [switch_count] in Hd. lia. }
  rewrite zlen_cons in Hlen. pose proof (zlen_nonneg es).
  destruct (step_ok s m e s1 m1 Hok) as [Hok1 Hid1]; [lia | done |].
  assert (switch_count (e :: es) = switch_count [e] + switch_count es) as Ecount by (destruct e; cbn; lia).
  destruct (step_waiting s m e s1 m1 p t Hok Hstep Hp Hst) as [(Hcur & (t' & Ht' & Hid') & Hone) | [Hp1 Hd1]].
  - assert (0 <= distance s p) by (by apply Z.mod_pos_bound).
    exists [e], es, (s1, m1), t'. split; [done |]. split; [by eapply run_cons; [| apply run_nil] |]. split_and!; try done. lia.
  - destruct IH as (es1 & es2 & z & t' & -> & Hr1 & Hr2 & Hz & Ht' & Hid' & Hc'); [done | lia | lia | done | done | lia |].
    exists (e :: es1), es2, z, t'. split; [done |]. split; [by eapply run_cons |]. split_and!; try done.
    destruct e; cbn [switch_count] in *; lia.
Qed.

(** C14. Fairness.  A thread that is ready at any point of a history runs after
    the processor has been given up at most seventeen times, whatever threads
    are created, exit and yield in between. *)
Theorem scheduler_fair s0 m0 es0 s m es s' m' p t :
  zlen (threads s0) = SCHEDULER_MAX_THREADS -> zlen es0 + zlen es <= UINT64_MAX - 2 ->
  sched_run (scheduler_init s0, m0) es0 (s, m) -> sched_run (s, m) es (s', m') ->
  thread_at s p = Some t -> state t = THREAD_READY -> slot_count <= switch_count es ->
  exists es1 es2 s1 m1 t1, es = es1 ++ es2 /\ sched_run (s, m) es1 (s1, m1) /\ sched_run (s1, m1) es2 (s', m') /\
    switch_count es1 <= slot_count /\ current s1 = Some p /\ thread_at s1 p = Some t1 /\ id t1 = id t.
Proof.
  intros Hl Hes Hrun0 Hrun Ht Hst Hcount. destruct (init_ok s0 Hl) as [Hok0 Hn0]. pose proof (zlen_nonneg es).
  destruct (run_ok _ _ _ Hrun0 Hok0) as [Hok Hid]; cbn [fst] in *; [lia | lia |]. rewrite Hn0 in Hid.
  assert (0 <= distance s p < slot_count) as Hd by (by apply Z.mod_pos_bound). rewrite thread_at_rd in Ht.
  destruct (run_reaches _ _ _ p t Hrun Hok) as (es1 & es2 & [s1 m1] & t1 & E & Hr1 & Hr2 & Hc1 & Ht1 & Hid1 & Hc); cbn [fst] in *;
    [lia | lia | done | done | lia |].
  exists es1, es2, s1, m1, t1. rewrite thread_at_rd. split_and!; try done. lia.
Qed.
End Histories.

(** ** Context switches *)

(** The seven words [context_switch] restores, from the lowest address. *)
Definition frame (c : cpu) (return_address : Z) : list Z :=
  [r15 c; r14 c; r13 c; r12 c; rbp c; rbx c; return_address].

(** The words [ws] are in memory at [a]. *)
Definition words_at (m : memory) (a : Z) (ws : list Z) : Prop :=
  forall k, 0 <= k < zlen ws -> rd ws k = Some (m (a + 8 * k)).

Lemma words_at_cons m a w ws : m a = w -> words_at m (a + 8) ws -> words_at m a (w :: ws).
Proof.
  intros Ha Hws k Hk. destruct (decide (k = 0)) as [-> | Hne].
  - rewrite Z.mul_0_r, Z.add_0_r, Ha. done.
  - rewrite zlen_cons in Hk. change (w :: ws) with ([w] ++ ws). rewrite rd_app_r by (change (zlen [w]) with 1; lia).
    change (zlen [w]) with 1. rewrite Hws by lia. do 2 f_equal. lia.
Qed.

Lemma push_spec v sp m : 8 <= sp < 2 ^ 64 -> push v (sp, m) = (sp - 8, store m (sp - 8) v).
Proof. intros H. unfold push. cbn [fst snd]. by rewrite u64_small by lia. Qed.

Lemma store_eq m a b v : b = a -> store m a v b = v.
Proof. intros ->. unfold store. by rewrite Z.eqb_refl. Qed.

Lemma store_ne m a b v : b <> a -> store m a v b = m b.
Proof. intros H. unfold store. by rewrite (proj2 (Z.eqb_neq b a)). Qed.

(** Leaves a memory whose words are known as the values written. *)
Ltac read_stores := repeat first [rewrite store_eq by lia | rewrite store_ne by lia].

Lemma context_switch_spec m c new_rsp :
  48 <= rsp c < 2 ^ 64 - 8 ->
  exists m' c', context_switch m c new_rsp = (rsp c - 48, m', c') /\
    words_at m' (rsp c - 48) (frame c (m (rsp c))) /\
    (forall a, a < rsp c - 48 \/ rsp c <= a -> m' a = m a) /\
    (forall ws, 0 <= new_rsp < 2 ^ 64 - 56 -> words_at m' new_rsp ws -> forall d ret, ws = frame d ret ->
       c' = mk_cpu (rbx d) (rbp d) (r12 d) (r13 d) (r14 d) (r15 d) (new_rsp + 56) ret).
Proof.
  intros Hsp. unfold context_switch. rewrite !push_spec by lia.
  eexists _, _. split; [f_equal; f_equal; lia |]. split; [| split].
  - unfold frame. do 6 (apply words_at_cons; [read_stores; done |]). apply words_at_cons; [read_stores; f_equal; lia |].
    intros k Hk. change (zlen []) with 0 in Hk. lia.
  - intros a Ha. by read_stores.
  - intros ws Hn Hws d ret ->. set (m' := store _ _ _) in *. rewrite !u64_small by lia.
    assert (forall k, 0 <= k < 7 -> rd (frame d ret) k = Some (m' (new_rsp + 8 * k))) as Hk by (intros k Hk; by apply Hws).
    pose proof (Hk 0 ltac:(lia)) as [= <-]. pose proof (Hk 1 ltac:(lia)) as [= <-]. pose proof (Hk 2 ltac:(lia)) as [= <-].
    pose proof (Hk 3 ltac:(lia)) as [= <-]. pose proof (Hk 4 ltac:(lia)) as [= <-]. pose proof (Hk 5 ltac:(lia)) as [= <-].
    pose proof (Hk 6 ltac:(lia)) as [= <-]. f_equal.
Qed.

(** The thread [p] is suspended: its saved frame restores the registers of
    [d], and the processor then continues at [ret] with the stack as it was
    before the call. *)
Definition suspended (s : sched) (m : memory) (p : Z) (d : cpu) (ret : Z) : Prop :=
  exists t, thread_at s p = Some t /\ saved_rsp t = rsp d - 48 /\ words_at m (rsp d - 48) (frame d ret).

Definition resume (d : cpu) (ret : Z) : cpu :=
  mk_cpu (rbx d) (rbp d) (r12 d) (r13 d) (r14 d) (r15 d) (rsp d + 8) ret.

(** The words a switch away from [c] pushes do not overlap the frame of [d]. *)
Definition apart (c d : cpu) : Prop := rsp c <= rsp d - 48 \/ rsp d + 8 <= rsp c - 48.

Lemma words_at_agree m m' a ws :
  (forall b, a <= b < a + 8 * zlen ws -> m' b = m b) -> words_at m a ws -> words_at m' a ws.
Proof. intros Heq Hws k Hk. rewrite Heq by lia. by apply Hws. Qed.

(** Giving up and taking the processor changes no saved stack pointer. *)
Lemma switch_keeps_rsp s s1 s' c st p q t :
  sched_ok s -> released s s1 c st -> resumed s1 s' p -> rd (all_threads s) q = Some t ->
  exists t', rd (all_threads s') q = Some t' /\ saved_rsp t' = saved_rsp t.
Proof.
  intros _ (tc & Htc & E & _) (tp & tp' & Htp & E' & _ & Hr & _) Hq.
  assert (exists t1, rd (all_threads s1) q = Some t1 /\ saved_rsp t1 = saved_rsp t) as (t1 & Ht1 & <-).
  { rewrite E. destruct (decide (q = c)) as [-> | Hne].
    - rewrite rd_insert_eq by (by eapply rd_Some_lt). eexists. split; [done |]. assert (tc = t) as -> by congruence. done.
    - rewrite rd_insert_ne by (pose proof (rd_Some_lt _ _ _ Htc); pose proof (rd_Some_lt _ _ _ Hq); lia). by exists t. }
  rewrite E'. destruct (decide (q = p)) as [-> | Hne].
  - rewrite rd_insert_eq by (by eapply rd_Some_lt). eexists. split; [done |]. congruence.
  - rewrite rd_insert_ne by (pose proof (rd_Some_lt _ _ _ Htp); pose proof (rd_Some_lt _ _ _ Ht1); lia). by exists t1.
Qed.

Lemma yield_switches s m c a b s0 d ret :
  sched_ok s -> 48 <= rsp c < 2 ^ 64 - 8 -> yield_select s = Some (s0, Some (a, b)) ->
  suspended s m b d ret -> 48 <= rsp d < 2 ^ 64 - 8 -> apart c d ->
  exists s' m', scheduler_yield s m c = Some (s', m', resume d ret) /\ suspended s' m' a c (m (rsp c)) /\
    (forall q e r, q <> a -> suspended s m q e r -> apart c e -> suspended s' m' q e r).
Proof.
  intros Hok Hc Hy (tb & Htb & Hrb & Hwb) Hd Hap. pose proof Hok as (_ & (cur & Hcur & _) & _).
  destruct (switch_spec s cur THREAD_READY Hok Hcur) as (s1 & p & s2 & sw & Hrel & _ & _ & Hres & Hok' & Hsw & E); [by left |].
  rewrite Hy in E. injection E as <- <-. destruct (Z.eqb_spec p cur) as [| Hne]; [done |]. injection Hsw as -> ->.
  unfold scheduler_yield. rewrite Hy. obind. rewrite thread_at_rd in Htb.
  destruct (switch_keeps_rsp s s1 s0 cur THREAD_READY p p tb Hok Hrel Hres Htb) as (tb' & Htb' & Erb).
  rewrite (thread_at_rd s0 p), Htb'. obind. rewrite Erb, Hrb.
  destruct (context_switch_spec m c (rsp d - 48) Hc) as (m' & c' & -> & Hfr & Hkeep & Hnew).
  assert (c' = resume d ret) as ->.
  { rewrite (Hnew (frame d ret)) with (d := d) (ret := ret); [unfold resume; f_equal; lia | lia | | done].
    eapply words_at_agree; [| exact Hwb]. intros x Hx. change (zlen (frame d ret)) with 7 in Hx. apply Hkeep. unfold apart in Hap. lia. }
  pose proof Hok' as (Hth' & _ & _). pose proof (ok_length _ _ _ Hth') as Hl'.
  assert (exists ta, rd (all_threads s0) cur = Some ta /\ 0 <= cur < slot_count) as (ta & Hta & Hcr).
  { pose proof Hrel as (tc & Htc & _). destruct (switch_keeps_rsp s s1 s0 cur THREAD_READY p cur tc Hok Hrel Hres Htc) as (ta & Hta & _).
    exists ta. split; [done |]. rewrite <- Hl'. by eapply rd_Some_lt. }
  rewrite thread_at_rd, Hta. obind.
  destruct (put_thread_spec s0 cur (set_saved_rsp ta (rsp c - 48)) Hl' Hcr) as (s' & -> & E' & _). obind.
  exists s', m'. split; [done |]. split.
  - eexists. rewrite thread_at_rd, E', rd_insert_eq by lia. done.
  - intros q e r Hq (tq & Htq & Hrq & Hwq) Hape. rewrite thread_at_rd in Htq.
    destruct (switch_keeps_rsp s s1 s0 cur THREAD_READY p q tq Hok Hrel Hres Htq) as (tq' & Htq' & Erq).
    exists tq'. rewrite thread_at_rd, E', rd_insert_ne by (pose proof (rd_Some_lt _ _ _ Htq'); lia).
    split; [done |]. split; [congruence |].
    eapply words_at_agree; [| exact Hwq]. intros x Hx. change (zlen (frame e r)) with 7 in Hx. apply Hkeep. unfold apart in Hape. lia.
Qed.

(** The registers of a thread that has not run yet. *)
Definition fresh_cpu (stack : Z) : cpu := mk_cpu 0 0 0 0 0 0 (stack + KERNEL_THREAD_STACK_SIZE - 16) 0.

Lemma prepare_spec stack_address tramp p m :
  stack_address p mod 16 = 0 -> 0 <= stack_address p < 2 ^ 64 - KERNEL_THREAD_STACK_SIZE ->
  exists m', prepare_initial_stack stack_address tramp p m = (rsp (fresh_cpu (stack_address p)) - 48, m') /\
    words_at m' (rsp (fresh_cpu (stack_address p)) - 48) (frame (fresh_cpu (stack_address p)) tramp) /\
    (forall a, a < stack_address p \/ stack_address p + KERNEL_THREAD_STACK_SIZE <= a -> m' a = m a).
Proof.
  intros Hal Hr. unfold prepare_initial_stack, fresh_cpu. cbn [rsp]. unfold KERNEL_THREAD_STACK_SIZE in *.
  rewrite (u64_small (_ + 16384)) by lia. change 15 with (2 ^ 4 - 1). rewrite land_not64_low_mask by lia.
  change (2 ^ 4) with 16. assert ((stack_address p + 16384) mod 16 = 0) as -> by (rewrite Z.add_mod, Hal by lia; done).
  rewrite Z.sub_0_r, (u64_small (_ - 8)) by lia. rewrite !push_spec by lia.
  eexists. split; [f_equal; lia |]. split.
  - unfold frame. cbn [r15 r14 r13 r12 rbp rbx]. do 7 (apply words_at_cons; [by read_stores |]).
    intros k Hk. change (zlen []) with 0 in Hk. lia.
  - intros a Ha. by read_stores.
Qed.

(** C16. Thread contexts.  A yield that switches from [a] to [b] continues [b]
    exactly where its frame says, with its callee-saved registers and stack
    pointer, and leaves [a] suspended with its own, so that a later switch back
    continues [a]; other suspended threads stay as they are.  A created thread
    is suspended at the trampoline, on its own stack, with the stack pointer
    the calling convention asks for at function entry. *)
Theorem thread_contexts_correct stack_address tramp s m :
  sched_ok s -> (forall p, stack_address p mod 16 = 0 /\ 0 <= stack_address p < 2 ^ 64 - KERNEL_THREAD_STACK_SIZE) ->
  (forall c a b s0 d ret, 48 <= rsp c < 2 ^ 64 - 8 -> yield_select s = Some (s0, Some (a, b)) ->
     suspended s m b d ret -> 48 <= rsp d < 2 ^ 64 - 8 -> apart c d ->
     exists s' m', scheduler_yield s m c = Some (s', m', resume d ret) /\ suspended s' m' a c (m (rsp c)) /\
       forall q e r, q <> a -> suspended s m q e r -> apart c e -> suspended s' m' q e r) /\
  (forall f arg o o' s' m', scheduler_create_kernel_thread stack_address tramp s m f arg o = Some (true, o', s', m') ->
     exists p, 1 <= p < slot_count /\ ~ is_ready s p /\ current s <> Some p /\ is_ready s' p /\
       suspended s' m' p (fresh_cpu (stack_address p)) tramp /\
       (rsp (fresh_cpu (stack_address p)) + 8) mod 16 = 8 /\
       (forall a, a < stack_address p \/ stack_address p + KERNEL_THREAD_STACK_SIZE <= a -> m' a = m a)).
Proof.
  intros Hok Hstack. split; [intros; by eapply yield_switches |].
  intros f arg o o' s' m' Hcr. pose proof Hok as (Hth & _ & _).
  destruct (create_spec stack_address tramp s m f arg o (ok_length _ _ _ Hth)) as (ok & o2 & s2 & m2 & E & Hcase).
  rewrite Hcr in E. injection E as <- <- <- <-. destruct Hcase as (_ & _ & p & old & Hp & Hold & Hos & _ & Em & Ea & _ & _ & _).
  destruct (Hstack p) as [Hal Hrange]. destruct (prepare_spec stack_address tramp p m Hal Hrange) as (m3 & Eprep & Hw & Hkeep).
  rewrite Eprep in Em, Ea. cbn [fst] in *. injection Em as <-. exists p.
  assert (zlen (all_threads s) = slot_count) as Hl by apply (ok_length _ _ _ Hth).
  split; [done |]. split; [intros (u & Hu & ?); destruct Hos; congruence |]. split.
  { intros Hc. apply (ok_running _ _ _ Hth p old Hold) in Hc. destruct Hos; congruence. }
  split; [eexists; rewrite Ea, rd_insert_eq by lia; done |]. split; [eexists; rewrite thread_at_rd, Ea, rd_insert_eq by lia; done |].
  split; [| done]. unfold fresh_cpu, KERNEL_THREAD_STACK_SIZE. cbn [rsp].
  replace (stack_address p + 16384 - 16 + 8) with (stack_address p + 8 + 1023 * 16) by lia.
  rewrite Z_mod_plus_full, Z.add_mod, Hal by lia. done.
Qed.

(** ** The self test *)

Definition ex_sched : sched := mk_sched (replicate 16 (mk_thread 0 0 THREAD_UNUSED 0 0 0)) (mk_thread 0 0 THREAD_UNUSED 0 0 0) None 0 0.

(** The stacks of the sixteen threads, one after the other. *)
Definition ex_stack (p : Z) : Z := 1048576 + 16384 * (p mod 32).

Definition ex_memory : memory := fun _ => 0.

Definition ex_history : list event := [Create 4096 7; Yield; Exit].

Lemma ex_history_run : exists s m, sched_run ex_stack 8192 (scheduler_init ex_sched, ex_memory) ex_history (s, m).
Proof.
  eexists _, _. eapply run_cons; [eapply step_create; vm_compute; reflexivity |].
  eapply run_cons; [eapply step_yield; vm_compute; reflexivity |].
  eapply run_cons; [eapply step_exit; [done | vm_compute; reflexivity] | apply run_nil].
Qed.

Lemma ex_yields : exists s m s' m' t,
  sched_run ex_stack 8192 (scheduler_init ex_sched, ex_memory) [Create 4096 7] (s, m) /\
  sched_run ex_stack 8192 (s, m) (replicate 17 Yield) (s', m') /\ thread_at s 1 = Some t /\ state t = THREAD_READY.
Proof.
  eexists _, _, _, _, _. split; [eapply run_cons; [eapply step_create; vm_compute; reflexivity | apply run_nil] |].
  split; [| done]. cbn [replicate]. do 17 (eapply run_cons; [eapply step_yield; vm_compute; reflexivity |]). apply run_nil.
Qed.

Lemma scheduler_histories_safe_witness :
  exists s m, sched_run ex_stack 8192 (scheduler_init ex_sched, ex_memory) ex_history (s, m) /\ is_Some (yield_select s).
Proof.
  destruct ex_history_run as (s & m & Hrun). exists s, m. split; [exact Hrun |].
  apply (scheduler_histories_safe ex_stack 8192 ex_sched ex_memory ex_history s m eq_refl ltac:(done) Hrun).
Defined.

Lemma scheduler_fair_witness :
  exists s m es s' m' s1, sched_run ex_stack 8192 (s, m) es (s', m') /\ switch_count es = slot_count /\ current s1 = Some 1.
Proof.
  destruct ex_yields as (s & m & s' & m' & t & Hrun0 & Hrun & Ht & Hst).
  destruct (scheduler_fair ex_stack 8192 ex_sched ex_memory [Create 4096 7] s m (replicate 17 Yield) s' m' 1 t
    eq_refl ltac:(done) Hrun0 Hrun Ht Hst ltac:(done)) as (es1 & es2 & s1 & m1 & t1 & _ & _ & _ & _ & Hc & _).
  exists s, m, (replicate 17 Yield), s', m', s1. split; [exact Hrun | split; [done | exact Hc]].
Defined.

Lemma ex_stack_ok p : ex_stack p mod 16 = 0 /\ 0 <= ex_stack p < 2 ^ 64 - KERNEL_THREAD_STACK_SIZE.
Proof.
  unfold ex_stack, KERNEL_THREAD_STACK_SIZE. pose proof (Z.mod_pos_bound p 32). split; [| lia].
  replace (1048576 + 16384 * (p mod 32)) with ((65536 + 1024 * (p mod 32)) * 16) by lia. apply Z_mod_mult.
Qed.

Lemma thread_contexts_correct_witness :
  exists p o s' m', scheduler_create_kernel_thread ex_stack 8192 (scheduler_init ex_sched) ex_memory 4096 7 (Some 0) =
      Some (true, o, s', m') /\ suspended s' m' p (fresh_cpu (ex_stack p)) 8192.
Proof.
  destruct (init_ok ex_sched eq_refl) as [Hok _].
  destruct (thread_contexts_correct ex_stack 8192 (scheduler_init ex_sched) ex_memory Hok ex_stack_ok) as [_ Hcreate].
  destruct (create_spec ex_stack 8192 (scheduler_init ex_sched) ex_memory 4096 7 (Some 0) eq_refl) as (ok & o & s' & m' & E & Hcase).
  destruct ok.
  - destruct (Hcreate _ _ _ _ _ _ E) as (p & _ & _ & _ & _ & Hsus & _). exists p, o, s', m'. split; [exact E | exact Hsus].
  - exfalso. destruct Hcase as (_ & _ & _ & [? | Hf]); [done |]. apply Forall_cons in Hf as [[Hs | Hs] _]; discriminate Hs.
Defined.

(** Evaluates a closed part of the goal. *)
Ltac eval_in_goal e := let v := eval vm_compute in e in change e with v; cbn iota.

(** The self test passes after initialisation, wherever the stacks and the
    trampoline are. *)
Theorem scheduler_self_test_passes stack_address tramp s m :
  zlen (threads s) = SCHEDULER_MAX_THREADS ->
  exists s' m', scheduler_self_test stack_address tramp 4096 8192 8448 (scheduler_init s) m = Some (true, s', m') /\
    scheduler_live_thread_count s' = 1.
Proof.
  intros Hl. assert (map (fun _ : thread_t => mk_thread 0 0 THREAD_UNUSED 0 0 0) (threads s) =
    replicate 16 (mk_thread 0 0 THREAD_UNUSED 0 0 0)) as E.
  { unfold zlen in Hl. change SCHEDULER_MAX_THREADS with 16 in Hl. assert (length (threads s) = 16%nat) as Hn by lia.
    rewrite <- Hn. clear. by induction (threads s) as [| t ts IH]; [| cbn; rewrite IH]. }
  unfold scheduler_init. rewrite E. unfold scheduler_self_test, scheduler_create_kernel_thread.
  generalize (prepare_initial_stack stack_address tramp). intros prep. clear.
  set (b := 4096 =? 0). vm_compute in b. subst b. cbn iota.
  match goal with |- context [create_loop ?ts 0] => eval_in_goal (create_loop ts 0) end.
  match goal with |- context [prep ?p m] => destruct (prep p m) as [sp1 m1] end.
  match goal with |- context [put_thread ?s ?p ?t] => eval_in_goal (put_thread s p t) end. obind. cbn iota. cbn [negb].
  match goal with |- context [create_loop ?ts 0] => eval_in_goal (create_loop ts 0) end.
  match goal with |- context [prep ?p m1] => destruct (prep p m1) as [sp2 m2] end.
  eexists _, _. split; [vm_compute; reflexivity | vm_compute; reflexivity].
Qed.
