(* ===== verification/Input.v ===== *)
(** * The input queue: kernel/src/input.c and input.h

    A ring of 128 events with one producer, the interrupt handlers, and one
    consumer.  The functions are modelled as they run alone; then every atomic
    access becomes a step, and the producer and the consumer interleave
    freely.  The acquire and release orders of the code are those under which
    the accesses of the other side are seen in program order, which is what an
    interleaving of the steps expresses. *)

From stdpp Require Import base numbers list.
From Stdlib Require Import ZArith Lia.
From S2P Require Import Prelude Bytes.

#[local] Open Scope Z_scope.

Inductive input_event_type_t := INPUT_EVENT_NONE | INPUT_EVENT_KEY | INPUT_EVENT_POINTER.

#[export] Instance input_event_type_eq_dec : EqDecision input_event_type_t.
Proof. solve_decision. Defined.

Definition INPUT_MOD_SHIFT : Z := 1.
Definition INPUT_MOD_CTRL : Z := 2.
Definition INPUT_MOD_ALT : Z := 4.

Record input_event_t := mk_event {
  type : input_event_type_t;
  code : Z;
  modifiers : Z;
  value_x : Z;
  value_y : Z;
  pressed : Z;
  character : Z
}.

Definition INPUT_QUEUE_CAPACITY : Z := 128.
Definition INPUT_QUEUE_MASK : Z := INPUT_QUEUE_CAPACITY - 1.

Record input_state := mk_input {
  queue : list input_event_t;
  head : Z;
  tail : Z;
  dropped : Z
}.

Definition set_queue (s : input_state) q : input_state := mk_input q (head s) (tail s) (dropped s).
Definition set_head (s : input_state) h : input_state := mk_input (queue s) h (tail s) (dropped s).
Definition set_tail (s : input_state) t : input_state := mk_input (queue s) (head s) t (dropped s).
Definition set_dropped (s : input_state) d : input_state := mk_input (queue s) (head s) (tail s) d.

Definition input_reset (s : input_state) : input_state := mk_input (queue s) 0 0 0.

Definition input_push_isr (s : input_state) (event : option input_event_t) : option (bool * input_state) :=
  match event with
  | None => Some (false, s)
  | Some event =>
      if bool_decide (type event = INPUT_EVENT_NONE) then Some (false, s)
      else
        let current_head := head s in
        let next := Z.land (u32 (current_head + 1)) INPUT_QUEUE_MASK in
        let current_tail := tail s in
        if next =? current_tail then Some (false, set_dropped s (u64 (dropped s + 1)))
        else
          q ← wr (queue s) current_head event;
          Some (true, set_head (set_queue s q) next)
  end.

(** Result: C's return value and the object [event] points to. *)
Definition input_pop (s : input_state) (event : option input_event_t) :
    option (bool * option input_event_t * input_state) :=
  match event with
  | None => Some (false, None, s)
  | Some _ =>
      let current_tail := tail s in
      let current_head := head s in
      if current_tail =? current_head then Some (false, event, s)
      else
        e ← rd (queue s) current_tail;
        Some (true, Some e, set_tail s (Z.land (u32 (current_tail + 1)) INPUT_QUEUE_MASK))
  end.

Definition input_dropped_events (s : input_state) : Z := dropped s.

(** ** The accesses one by one *)

(** Where the producer is inside [input_push_isr]. *)
Inductive producer :=
| PIdle
| PHead (e : input_event_t) (h : Z)
| PFull
| PRoom (e : input_event_t) (h : Z)
| PWritten (e : input_event_t) (h : Z).

(** Where the consumer is inside [input_pop]. *)
Inductive consumer :=
| CIdle
| CTail (t : Z)
| CSome (t : Z)
| CRead (t : Z) (e : input_event_t).

(** The queue, the two sides, and the events pushed and popped so far. *)
Record world := mk_world {
  ring : input_state;
  prod : producer;
  cons : consumer;
  pushed : list input_event_t;
  popped : list input_event_t
}.

Definition next_index (i : Z) : Z := Z.land (u32 (i + 1)) INPUT_QUEUE_MASK.

Inductive input_step : world -> world -> Prop :=
| p_load_head e s c ps qs : type e <> INPUT_EVENT_NONE ->
    input_step (mk_world s PIdle c ps qs) (mk_world s (PHead e (head s)) c ps qs)
| p_load_tail_full e h s c ps qs : next_index h = tail s ->
    input_step (mk_world s (PHead e h) c ps qs) (mk_world s PFull c ps qs)
| p_drop s c ps qs :
    input_step (mk_world s PFull c ps qs) (mk_world (set_dropped s (u64 (dropped s + 1))) PIdle c ps qs)
| p_load_tail_room e h s c ps qs : next_index h <> tail s ->
    input_step (mk_world s (PHead e h) c ps qs) (mk_world s (PRoom e h) c ps qs)
| p_write e h s c ps qs q : wr (queue s) h e = Some q ->
    input_step (mk_world s (PRoom e h) c ps qs) (mk_world (set_queue s q) (PWritten e h) c ps qs)
| p_publish e h s c ps qs :
    input_step (mk_world s (PWritten e h) c ps qs) (mk_world (set_head s (next_index h)) PIdle c (ps ++ [e]) qs)
| c_load_tail s p ps qs :
    input_step (mk_world s p CIdle ps qs) (mk_world s p (CTail (tail s)) ps qs)
| c_empty t s p ps qs : t = head s ->
    input_step (mk_world s p (CTail t) ps qs) (mk_world s p CIdle ps qs)
| c_nonempty t s p ps qs : t <> head s ->
    input_step (mk_world s p (CTail t) ps qs) (mk_world s p (CSome t) ps qs)
| c_read t s p ps qs e : rd (queue s) t = Some e ->
    input_step (mk_world s p (CSome t) ps qs) (mk_world s p (CRead t e) ps qs)
| c_publish t e s p ps qs :
    input_step (mk_world s p (CRead t e) ps qs) (mk_world (set_tail s (next_index t)) p CIdle ps (qs ++ [e])).

(** ** The contents of the ring *)

Definition index (i : Z) : Z := i mod INPUT_QUEUE_CAPACITY.

(** The ring holds the events [L], oldest first. *)
Definition holds (s : input_state) (L : list input_event_t) : Prop :=
  zlen (queue s) = INPUT_QUEUE_CAPACITY /\ 0 <= tail s < INPUT_QUEUE_CAPACITY /\
  zlen L <= INPUT_QUEUE_MASK /\ head s = index (tail s + zlen L) /\
  forall k, 0 <= k < zlen L -> rd (queue s) (index (tail s + k)) = rd L k.

Lemma next_index_spec i : 0 <= i < INPUT_QUEUE_CAPACITY -> next_index i = index (i + 1).
Proof.
  unfold next_index, index, INPUT_QUEUE_MASK, INPUT_QUEUE_CAPACITY. intros Hi. rewrite u32_small by lia.
  change (128 - 1) with (2 ^ 7 - 1). by rewrite land_low_mask.
Qed.

Lemma index_range i : 0 <= index i < INPUT_QUEUE_CAPACITY.
Proof. by apply Z.mod_pos_bound. Qed.

Lemma index_index i j : index (index i + j) = index (i + j).
Proof. unfold index. by rewrite Zplus_mod_idemp_l. Qed.

Lemma index_small i : 0 <= i < INPUT_QUEUE_CAPACITY -> index i = i.
Proof. apply Z.mod_small. Qed.

(** Two offsets less than the capacity apart name different slots. *)
Lemma index_ne t i j : 0 <= i < j -> j - i < INPUT_QUEUE_CAPACITY -> index (t + i) <> index (t + j).
Proof.
  unfold index, INPUT_QUEUE_CAPACITY. intros Hij Hd E.
  pose proof (Z.div_mod (t + i) 128). pose proof (Z.div_mod (t + j) 128). lia.
Qed.

Lemma holds_head_range s L : holds s L -> 0 <= head s < INPUT_QUEUE_CAPACITY.
Proof. intros (_ & _ & _ & -> & _). apply index_range. Qed.

(** The ring is empty, or full, exactly when the indices say so. *)
Lemma holds_empty s L : holds s L -> (tail s = head s <-> L = []).
Proof.
  intros (_ & Ht & Hl & -> & _). unfold INPUT_QUEUE_MASK in Hl. split; [| intros ->].
  - intros E. destruct L as [| e L]; [done |]. exfalso. rewrite zlen_cons in *. pose proof (zlen_nonneg L).
    apply (index_ne (tail s) 0 (1 + zlen L)); [lia | lia |]. by rewrite Z.add_0_r, index_small.
  - change (zlen []) with 0. by rewrite Z.add_0_r, index_small.
Qed.

Lemma holds_full s L : holds s L -> (next_index (head s) = tail s <-> zlen L = INPUT_QUEUE_MASK).
Proof.
  intros H. pose proof (holds_head_range _ _ H) as Hh. rewrite next_index_spec by done.
  destruct H as (_ & Ht & Hl & -> & _). rewrite index_index. unfold INPUT_QUEUE_MASK in *. pose proof (zlen_nonneg L). split.
  - intros E. destruct (decide (zlen L = INPUT_QUEUE_CAPACITY - 1)) as [| Hne]; [done |]. exfalso.
    apply (index_ne (tail s) 0 (zlen L + 1)); [lia | lia |].
    rewrite Z.add_0_r, index_small by done. by rewrite Z.add_assoc.
  - intros ->. unfold index. replace (tail s + (INPUT_QUEUE_CAPACITY - 1) + 1) with (tail s + 1 * INPUT_QUEUE_CAPACITY) by lia.
    rewrite Z_mod_plus_full. by apply Z.mod_small.
Qed.

(** Writing the slot at the head does not disturb the contents. *)
Lemma holds_write s L e :
  holds s L -> zlen L < INPUT_QUEUE_MASK ->
  exists q, wr (queue s) (head s) e = Some q /\ holds (set_queue s q) L /\ rd q (head s) = Some e.
Proof.
  intros H Hroom. pose proof (holds_head_range _ _ H) as Hh. destruct H as (Hq & Ht & Hl & Ehead & Hk).
  rewrite wr_in_range by lia. eexists. split; [done |]. split; [| by rewrite rd_insert_eq by lia].
  split; [by cbn; rewrite zlen_insert |]. split; [done |]. split; [done |]. split; [done |].
  intros k Hkr. cbn [queue tail set_queue]. pose proof (index_range (tail s + k)).
  assert (index (tail s + k) <> head s).
  { rewrite Ehead. unfold INPUT_QUEUE_MASK in *. apply index_ne; lia. }
  rewrite rd_insert_ne by lia. by apply Hk.
Qed.

Lemma holds_publish s L e :
  holds s L -> zlen L < INPUT_QUEUE_MASK -> rd (queue s) (head s) = Some e ->
  holds (set_head s (next_index (head s))) (L ++ [e]).
Proof.
  intros H Hroom He. pose proof (holds_head_range _ _ H) as Hh. rewrite next_index_spec by done.
  destruct H as (Hq & Ht & Hl & Ehead & Hk). pose proof (zlen_nonneg L).
  split; [done |]. split; [done |]. rewrite zlen_app. change (zlen [e]) with 1. split; [lia |]. cbn [head tail queue set_head].
  split; [by rewrite Ehead, index_index, Z.add_assoc |]. intros k Hkr.
  destruct (decide (k = zlen L)) as [-> | Hne].
  - rewrite <- Ehead, He, rd_app_r by lia. by rewrite Z.sub_diag.
  - rewrite rd_app_l by lia. apply Hk. lia.
Qed.

Lemma holds_pop s L e :
  holds s (e :: L) -> rd (queue s) (tail s) = Some e /\ holds (set_tail s (next_index (tail s))) L.
Proof.
  intros (Hq & Ht & Hl & Ehead & Hk). rewrite zlen_cons in *. pose proof (zlen_nonneg L). split.
  - specialize (Hk 0). rewrite Z.add_0_r, index_small in Hk by done. rewrite Hk by lia. done.
  - rewrite next_index_spec by done. split; [done |]. split; [apply index_range |]. split; [lia |].
    cbn [head tail queue set_tail]. rewrite index_index, Ehead. split; [f_equal; lia |].
    intros k Hkr. rewrite index_index. specialize (Hk (1 + k)).
    replace (tail s + 1 + k) with (tail s + (1 + k)) by lia. rewrite Hk by lia.
    change (e :: L) with ([e] ++ L). rewrite rd_app_r by (change (zlen [e]) with 1; lia). f_equal. change (zlen [e]) with 1. lia.
Qed.

(** The queue, run alone, is a bounded first-in first-out queue: a push
    appends the event or, with 127 events waiting, drops it and counts it; a
    pop returns the oldest event, and fails exactly on the empty queue. *)
Theorem input_queue_refines s L e buf :
  holds s L -> type e <> INPUT_EVENT_NONE ->
  (exists ok s', input_push_isr s (Some e) = Some (ok, s') /\
     (zlen L < INPUT_QUEUE_MASK -> ok = true /\ holds s' (L ++ [e]) /\ dropped s' = dropped s) /\
     (zlen L = INPUT_QUEUE_MASK -> ok = false /\ holds s' L /\ dropped s' = u64 (dropped s + 1))) /\
  match L with
  | [] => input_pop s (Some buf) = Some (false, Some buf, s)
  | e0 :: L0 => exists s', input_pop s (Some buf) = Some (true, Some e0, s') /\ holds s' L0 /\ dropped s' = dropped s
  end.
Proof.
  intros H He. split.
  - unfold input_push_isr. rewrite bool_decide_eq_false_2 by done. fold (next_index (head s)).
    pose proof (holds_full _ _ H) as Hfull. destruct (Z.eqb_spec (next_index (head s)) (tail s)) as [E | E].
    + eexists _, _. split; [done |]. apply Hfull in E. split; [lia |]. done.
    + assert (zlen L < INPUT_QUEUE_MASK) as Hroom.
      { destruct H as (_ & _ & Hl & _). apply Z.le_lteq in Hl as [? | ?]; [done |]. by destruct E; apply Hfull. }
      destruct (holds_write s L e H Hroom) as (q & -> & H' & Hq). obind. eexists _, _. split; [done |].
      split; [| lia]. intros _. split; [done |]. split; [| done].
      apply (holds_publish (set_queue s q) L e H' Hroom Hq).
  - unfold input_pop. pose proof (holds_empty _ _ H) as Hempty. destruct L as [| e0 L0].
    + rewrite (proj2 (Z.eqb_eq _ _)); [done | by apply Hempty].
    + rewrite (proj2 (Z.eqb_neq _ _)) by (by intros ?%Hempty). destruct (holds_pop _ _ _ H) as [-> H']. obind.
      eexists. split; [done |]. done.
Qed.

(** ** Producer and consumer together *)

Definition producer_ok (s : input_state) (L : list input_event_t) (p : producer) : Prop :=
  match p with
  | PIdle | PFull => True
  | PHead e h => h = head s
  | PRoom e h => h = head s /\ zlen L < INPUT_QUEUE_MASK
  | PWritten e h => h = head s /\ zlen L < INPUT_QUEUE_MASK /\ rd (queue s) h = Some e
  end.

Definition consumer_ok (s : input_state) (L : list input_event_t) (c : consumer) : Prop :=
  match c with
  | CIdle => True
  | CTail t => t = tail s
  | CSome t => t = tail s /\ L <> []
  | CRead t e => t = tail s /\ exists L', L = e :: L'
  end.

(** The events pushed are the events popped followed by those in the ring. *)
Definition world_ok (w : world) : Prop :=
  exists L, holds (ring w) L /\ pushed w = popped w ++ L /\
    producer_ok (ring w) L (prod w) /\ consumer_ok (ring w) L (cons w).

Lemma step_world_ok w w' : world_ok w -> input_step w w' -> world_ok w'.
Proof.
  intros (L & H & Hps & Hp & Hc) Hstep. destruct Hstep; cbn [ring prod cons pushed popped] in *.
  - by exists L.
  - by exists L.
  - exists L. split; [done |]. split; [done |]. by split.
  - exists L. cbn [producer_ok] in Hp. subst h. split; [done |]. split; [done |]. split; [| done]. split; [done |].
    apply Z.le_neq. split; [by destruct H as (_ & _ & ? & _) |]. by intros E%(holds_full _ _ H).
  - destruct Hp as [-> Hroom]. destruct (holds_write s L e H Hroom) as (q' & E & H' & Hq).
    assert (q' = q) as -> by congruence. exists L. split; [done |]. split; [done |]. by split.
  - destruct Hp as (-> & Hroom & He). exists (L ++ [e]). split; [by apply holds_publish |].
    split; [by rewrite Hps, <- app_assoc |]. split; [done |]. destruct c as [| t | t | t e']; cbn in *; [done | done | |].
    + destruct Hc as [-> Hne]. split; [done |]. by destruct L.
    + destruct Hc as (-> & L' & ->). split; [done |]. by exists (L' ++ [e]).
  - by exists L.
  - by exists L.
  - exists L. cbn [consumer_ok] in Hc. subst t. split; [done |]. split; [done |]. split; [done |]. split; [done |].
    by intros E%(holds_empty _ _ H).
  - exists L. destruct Hc as [-> Hne]. split; [done |]. split; [done |]. split; [done |]. split; [done |].
    destruct L as [| e0 L']; [done |]. destruct (holds_pop _ _ _ H) as [E _]. exists L'. congruence.
  - destruct Hc as (-> & L' & ->). destruct (holds_pop _ _ _ H) as [_ H']. exists L'. split; [done |].
    split; [cbn [pushed popped]; by rewrite <- app_assoc |]. split; [| done].
    destruct p; cbn in *; rewrite ?zlen_cons in Hp; try done; [destruct Hp; split; [done | lia] | destruct Hp as (-> & ? & ?); split_and!; [done | lia | done]].
Qed.

Definition start (s : input_state) : world := mk_world (input_reset s) PIdle CIdle [] [].

Lemma start_ok s : zlen (queue s) = INPUT_QUEUE_CAPACITY -> world_ok (start s).
Proof.
  intros Hq. exists []. split; [| done]. split; [done |]. split; [done |]. split; [done |]. split; [done |].
  intros k Hk. change (zlen []) with 0 in Hk. lia.
Qed.

(** C17. Producer and consumer may interleave at every access.  After a reset,
    whatever the order of the steps, the events popped are a prefix of the
    events pushed, in order and without loss or duplication; at most 127 wait;
    no access leaves the ring; and the consumer never reads the slot the
    producer is about to write. *)
Theorem input_interleavings_fifo s w :
  zlen (queue s) = INPUT_QUEUE_CAPACITY -> steps input_step (start s) w ->
  (exists L, pushed w = popped w ++ L /\ zlen L <= INPUT_QUEUE_MASK) /\
  (forall e h, prod w = PRoom e h -> is_Some (wr (queue (ring w)) h e) /\ forall t, cons w = CSome t -> t <> h) /\
  (forall t, cons w = CSome t -> is_Some (rd (queue (ring w)) t)).
Proof.
  intros Hq Hsteps. assert (world_ok w) as (L & H & Hps & Hp & Hc).
  { eapply steps_invariant; [by apply start_ok | | exact Hsteps]. intros a b. apply step_world_ok. }
  pose proof (holds_head_range _ _ H) as Hh. pose proof H as (Hlen & Ht & Hl & _ & _). split_and!.
  - exists L. by split.
  - intros e h E. rewrite E in Hp. destruct Hp as [-> Hroom]. split.
    + by destruct (holds_write _ _ e H Hroom) as (q & -> & _).
    + intros t Et. rewrite Et in Hc. destruct Hc as [-> Hne]. by intros E'%(holds_empty _ _ H).
  - intros t Et. rewrite Et in Hc. destruct Hc as [-> _]. apply rd_in_range. lia.
Qed.

(** A call that is not interrupted is a run of its steps. *)
Lemma push_is_steps s e c ps qs s' :
  type e <> INPUT_EVENT_NONE -> input_push_isr s (Some e) = Some (true, s') ->
  steps input_step (mk_world s PIdle c ps qs) (mk_world s' PIdle c (ps ++ [e]) qs).
Proof.
  intros He. unfold input_push_isr. rewrite bool_decide_eq_false_2 by done. fold (next_index (head s)).
  destruct (Z.eqb_spec (next_index (head s)) (tail s)) as [| Hne]; [done |].
  destruct (wr (queue s) (head s) e) as [q |] eqn:Hq; [| done]. intros [= <-].
  eapply steps_snoc; [| apply (p_publish e (head s) (set_queue s q))].
  eapply steps_snoc; [| by apply p_write]. eapply steps_snoc; [| by apply p_load_tail_room].
  apply steps_one. by apply p_load_head.
Qed.

Lemma pop_is_steps s p ps qs buf e s' :
  input_pop s (Some buf) = Some (true, Some e, s') ->
  steps input_step (mk_world s p CIdle ps qs) (mk_world s' p CIdle ps (qs ++ [e])).
Proof.
  unfold input_pop. destruct (Z.eqb_spec (tail s) (head s)) as [| Hne]; [done |].
  destruct (rd (queue s) (tail s)) as [e' |] eqn:Hq; [| done]. intros [= <- <-].
  eapply steps_snoc; [| apply c_publish]. eapply steps_snoc; [| by apply c_read].
  eapply steps_snoc; [| by apply c_nonempty]. apply steps_one. apply c_load_tail.
Qed.

(** ** Examples *)

Definition ex_event (n : Z) : input_event_t := mk_event INPUT_EVENT_KEY n 0 0 0 1 0.
Definition ex_input : input_state := mk_input (replicate 128 (ex_event 0)) 5 9 3.

Lemma input_queue_refines_witness :
  exists ok s', input_push_isr (input_reset ex_input) (Some (ex_event 7)) = Some (ok, s') /\ holds s' [ex_event 7].
Proof.
  destruct (start_ok ex_input eq_refl) as (L & H & E & _). cbn [start ring pushed popped app] in *.
  destruct (input_queue_refines (input_reset ex_input) L (ex_event 7) (ex_event 0) H ltac:(done)) as [(ok & s' & Ep & Hroom & _) _].
  rewrite <- E in Hroom. destruct (Hroom ltac:(done)) as (_ & H' & _). exists ok, s'. split; [exact Ep | exact H'].
Defined.

Lemma input_interleavings_fifo_witness :
  exists w, steps input_step (start ex_input) w /\ popped w = [ex_event 7] /\
    exists L, pushed w = popped w ++ L.
Proof.
  pose (s0 := input_reset ex_input).
  pose (s1 := mk_input (<[0%nat := ex_event 7]> (queue s0)) 1 0 0).
  pose (w := mk_world (set_tail s1 1) (PHead (ex_event 8) 1) CIdle [ex_event 7] [ex_event 7]).
  assert (steps input_step (start ex_input) w) as Hsteps.
  { eapply steps_snoc; [| apply (c_publish 0 (ex_event 7) s1 (PHead (ex_event 8) 1) [ex_event 7] [])]. eapply steps_snoc; [| by apply c_read].
    eapply steps_snoc; [| by apply (p_load_head (ex_event 8) s1)]. eapply steps_snoc; [| by apply c_nonempty].
    eapply steps_snoc; [| apply (c_load_tail s1)].
    apply (push_is_steps s0 (ex_event 7) CIdle [] []); [done | reflexivity]. }
  exists w. split; [exact Hsteps |]. split; [reflexivity |].
  destruct (input_interleavings_fifo ex_input w eq_refl Hsteps) as [(L & E & _) _]. exists L. exact E.
Defined.
