(* ===== verification/Acpi.v ===== *)
(** * Platform discovery from the ACPI tables: kernel/src/acpi.c and acpi.h

    The root pointer leads to the root table, the root table to the MADT, and
    the MADT lists processors, I/O APICs and interrupt overrides.  Physical
    memory is read through a function of the caller, [acpi_reader_fn]: given an
    address and a length it fails, or yields the bytes it stored.  What a
    failed read may have stored is never looked at. *)

From stdpp Require Import base numbers list strings.
From Stdlib Require Import ZArith Lia.
From S2P Require Import Prelude Bytes Partition.

#[local] Open Scope Z_scope.

Definition ACPI_MAX_CPUS : Z := 64.
Definition ACPI_MAX_IOAPICS : Z := 8.
Definition ACPI_MAX_ISO : Z := 16.
Definition ACPI_SDT_HEADER_SIZE : Z := 36.
Definition ACPI_MADT_HEADER_SIZE : Z := 44.
Definition ACPI_MAX_TABLE_BYTES : Z := 1024 * 1024.

Inductive acpi_status_t :=
| ACPI_OK | ACPI_BAD_ARGUMENT | ACPI_READ_ERROR | ACPI_BAD_SIGNATURE | ACPI_BAD_CHECKSUM
| ACPI_BAD_LENGTH | ACPI_NOT_FOUND | ACPI_TOO_MANY_ENTRIES.

#[export] Instance acpi_status_eq_dec : EqDecision acpi_status_t.
Proof. solve_decision. Defined.

Record acpi_cpu_info_t := mk_cpu_info { acpi_processor_id : Z; apic_id : Z; cpu_flags : Z; x2apic : Z }.

Record acpi_ioapic_info_t := mk_ioapic_info { ioapic_id : Z; physical_address : Z; gsi_base : Z }.

Record acpi_irq_override_t := mk_override { source_irq : Z; gsi : Z; irq_flags : Z }.

Record acpi_platform_info_t := mk_platform {
  local_apic_address : Z;
  madt_flags : Z;
  cpus : list acpi_cpu_info_t;
  cpu_count : Z;
  ioapics : list acpi_ioapic_info_t;
  ioapic_count : Z;
  overrides : list acpi_irq_override_t;
  override_count : Z
}.

Definition acpi_reader_fn : Type := Z -> Z -> option (list Z).

(** ** Reading *)

Definition read_le16 (p : list Z) (o : Z) : option Z :=
  a ← rd p o; b ← rd p (o + 1); Some (Z.lor a (u16 (Z.shiftl b 8))).

Definition read_le32 (p : list Z) (o : Z) : option Z :=
  a ← rd p o; b ← rd p (o + 1); c ← rd p (o + 2); d ← rd p (o + 3);
  Some (Z.lor (Z.lor (Z.lor a (u32 (Z.shiftl b 8))) (u32 (Z.shiftl c 16))) (u32 (Z.shiftl d 24))).

Definition read_le64 (p : list Z) (o : Z) : option Z :=
  lo ← read_le32 p o; hi ← read_le32 p (o + 4); Some (Z.lor lo (u64 (Z.shiftl hi 32))).

Fixpoint bytes_equal (left_ right_ : list Z) (i : Z) : option bool :=
  match right_ with
  | [] => Some true
  | c :: right_ => b ← rd left_ i; if negb (b =? c) then Some false else bytes_equal left_ right_ (i + 1)
  end.

Section Discovery.
Context (reader : acpi_reader_fn).

(** The bytes read into a destination of the caller; [None] for the return
    value 0. *)
Definition read_exact (physical length : Z) : option (list Z) :=
  if negb (length =? 0) && (u64 (UINT64_MAX - physical) <? u64 (length - 1)) then None
  else reader physical length.

Fixpoint sum_loop (n : nat) (buffer : list Z) (i sum : Z) : option Z :=
  match n with
  | O => Some sum
  | S n => b ← rd buffer i; sum_loop n buffer (i + 1) (u8 (sum + b))
  end.

(** The chunks of a region; every chunk has at least one byte, so [length]
    iterations are enough. *)
Fixpoint checksum_loop (fuel : nat) (physical offset length sum : Z) : option acpi_status_t :=
  if offset <? length then
    match fuel with
    | O => None
    | S fuel =>
        let remaining := length - offset in
        let chunk := if remaining <? 256 then remaining else 256 in
        match read_exact (u64 (physical + offset)) chunk with
        | None => Some ACPI_READ_ERROR
        | Some buffer =>
            sum ← sum_loop (Z.to_nat chunk) buffer 0 sum;
            checksum_loop fuel physical (u32 (offset + chunk)) length sum
        end
    end
  else Some (if sum =? 0 then ACPI_OK else ACPI_BAD_CHECKSUM).

Definition checksum_region (physical length : Z) : option acpi_status_t :=
  checksum_loop (Z.to_nat length) physical 0 length 0.

(** The status and, unless the read failed, the header. *)
Definition read_sdt_header (physical : Z) : option (acpi_status_t * list Z) :=
  match read_exact physical ACPI_SDT_HEADER_SIZE with
  | None => Some (ACPI_READ_ERROR, [])
  | Some header =>
      length ← read_le32 header 4;
      if (length <? ACPI_SDT_HEADER_SIZE) || (ACPI_MAX_TABLE_BYTES <? length) then Some (ACPI_BAD_LENGTH, header)
      else status ← checksum_region physical length; Some (status, header)
  end.
End Discovery.

(** ** The MADT *)

Definition append_cpu (info : acpi_platform_info_t) (processor_id id flags x2 : Z) :
    option (acpi_status_t * acpi_platform_info_t) :=
  if Z.land flags 3 =? 0 then Some (ACPI_OK, info)
  else if ACPI_MAX_CPUS <=? cpu_count info then Some (ACPI_TOO_MANY_ENTRIES, info)
  else
    cs ← wr (cpus info) (cpu_count info) (mk_cpu_info processor_id id flags x2);
    Some (ACPI_OK, mk_platform (local_apic_address info) (madt_flags info) cs (u32 (cpu_count info + 1))
                     (ioapics info) (ioapic_count info) (overrides info) (override_count info)).

Definition set_local_apic (info : acpi_platform_info_t) (a : Z) : acpi_platform_info_t :=
  mk_platform a (madt_flags info) (cpus info) (cpu_count info) (ioapics info) (ioapic_count info)
    (overrides info) (override_count info).

Definition set_madt_flags (info : acpi_platform_info_t) (f : Z) : acpi_platform_info_t :=
  mk_platform (local_apic_address info) f (cpus info) (cpu_count info) (ioapics info) (ioapic_count info)
    (overrides info) (override_count info).

Definition parse_madt_entry (type : Z) (entry : list Z) (entry_length : Z) (info : acpi_platform_info_t) :
    option (acpi_status_t * acpi_platform_info_t) :=
  if (type =? 0) && (8 <=? entry_length) then
    pid ← rd entry 2; aid ← rd entry 3; flags ← read_le32 entry 4; append_cpu info pid aid flags 0
  else if (type =? 1) && (12 <=? entry_length) then
    if ACPI_MAX_IOAPICS <=? ioapic_count info then Some (ACPI_TOO_MANY_ENTRIES, info)
    else
      i ← rd entry 2; a ← read_le32 entry 4; g ← read_le32 entry 8;
      ios ← wr (ioapics info) (ioapic_count info) (mk_ioapic_info i a g);
      Some (ACPI_OK, mk_platform (local_apic_address info) (madt_flags info) (cpus info) (cpu_count info)
                       ios (u32 (ioapic_count info + 1)) (overrides info) (override_count info))
  else if (type =? 2) && (10 <=? entry_length) then
    bus ← rd entry 2;
    if negb (bus =? 0) then Some (ACPI_OK, info)
    else if ACPI_MAX_ISO <=? override_count info then Some (ACPI_TOO_MANY_ENTRIES, info)
    else
      src ← rd entry 3; g ← read_le32 entry 4; f ← read_le16 entry 8;
      os ← wr (overrides info) (override_count info) (mk_override src g f);
      Some (ACPI_OK, mk_platform (local_apic_address info) (madt_flags info) (cpus info) (cpu_count info)
                       (ioapics info) (ioapic_count info) os (u32 (override_count info + 1)))
  else if (type =? 5) && (12 <=? entry_length) then
    a ← read_le64 entry 4; Some (ACPI_OK, set_local_apic info a)
  else if (type =? 9) && (16 <=? entry_length) then
    pid ← read_le32 entry 12; aid ← read_le32 entry 4; flags ← read_le32 entry 8; append_cpu info pid aid flags 1
  else Some (ACPI_OK, info).

Definition APIC_SIGNATURE : list Z := [65; 80; 73; 67].
Definition XSDT_SIGNATURE : list Z := [88; 83; 68; 84].
Definition RSDT_SIGNATURE : list Z := [82; 83; 68; 84].
Definition RSDP_SIGNATURE : list Z := [82; 83; 68; 32; 80; 84; 82; 32].

Section Tables.
Context (reader : acpi_reader_fn).

(** An entry has at least two bytes, so [length] iterations are enough. *)
Fixpoint madt_loop (fuel : nat) (physical offset length : Z) (info : acpi_platform_info_t) :
    option (acpi_status_t * acpi_platform_info_t) :=
  if offset <? length then
    match fuel with
    | O => None
    | S fuel =>
        match read_exact reader (u64 (physical + offset)) 2 with
        | None => Some (ACPI_READ_ERROR, info)
        | Some entry_header =>
            type ← rd entry_header 0;
            entry_length ← rd entry_header 1;
            if (entry_length <? 2) || (length - offset <? entry_length) then Some (ACPI_BAD_LENGTH, info)
            else if 32 <? entry_length then madt_loop fuel physical (u32 (offset + entry_length)) length info
            else
              match read_exact reader (u64 (physical + offset)) entry_length with
              | None => Some (ACPI_READ_ERROR, info)
              | Some entry =>
                  r ← parse_madt_entry type entry entry_length info;
                  let '(status, info) := r in
                  if bool_decide (status <> ACPI_OK) then Some (status, info)
                  else madt_loop fuel physical (u32 (offset + entry_length)) length info
              end
        end
    end
  else Some (ACPI_OK, info).

Definition parse_madt (physical : Z) (info : acpi_platform_info_t) : option (acpi_status_t * acpi_platform_info_t) :=
  match read_exact reader physical ACPI_MADT_HEADER_SIZE with
  | None => Some (ACPI_READ_ERROR, info)
  | Some header =>
      eq ← bytes_equal header APIC_SIGNATURE 0;
      if negb eq then Some (ACPI_BAD_SIGNATURE, info)
      else
        length ← read_le32 header 4;
        if (length <? ACPI_MADT_HEADER_SIZE) || (ACPI_MAX_TABLE_BYTES <? length) then Some (ACPI_BAD_LENGTH, info)
        else
          status ← checksum_region reader physical length;
          if bool_decide (status <> ACPI_OK) then Some (status, info)
          else
            a ← read_le32 header 36; f ← read_le32 header 40;
            madt_loop (Z.to_nat length) physical ACPI_MADT_HEADER_SIZE length (set_madt_flags (set_local_apic info a) f)
  end.

(** [n] entries of the root table are left, [i] is the next. *)
Fixpoint root_loop (n : nat) (root_physical entry_size i : Z) (info : acpi_platform_info_t) :
    option (acpi_status_t * acpi_platform_info_t) :=
  match n with
  | O => Some (ACPI_NOT_FOUND, info)
  | S n =>
      let address_position := u64 (u64 (root_physical + ACPI_SDT_HEADER_SIZE) + u64 (i * entry_size)) in
      match read_exact reader address_position entry_size with
      | None => Some (ACPI_READ_ERROR, info)
      | Some bs =>
          let address_bytes := blit (replicate 8 0) 0 bs in
          table_physical ← (if entry_size =? 8 then read_le64 address_bytes 0 else read_le32 address_bytes 0);
          if table_physical =? 0 then root_loop n root_physical entry_size (i + 1) info
          else
            match read_exact reader table_physical ACPI_SDT_HEADER_SIZE with
            | None => Some (ACPI_READ_ERROR, info)
            | Some table_header =>
                eq ← bytes_equal table_header APIC_SIGNATURE 0;
                if negb eq then root_loop n root_physical entry_size (i + 1) info
                else parse_madt table_physical info
            end
      end
  end.

Definition find_madt_in_root (root_physical entry_size : Z) (expected_signature : list Z)
    (info : acpi_platform_info_t) : option (acpi_status_t * acpi_platform_info_t) :=
  r ← read_sdt_header reader root_physical;
  let '(status, header) := r in
  if bool_decide (status <> ACPI_OK) then Some (status, info)
  else
    eq ← bytes_equal header expected_signature 0;
    if negb eq then Some (ACPI_BAD_SIGNATURE, info)
    else
      length ← read_le32 header 4;
      let payload := u32 (length - ACPI_SDT_HEADER_SIZE) in
      if (entry_size =? 0) || negb (payload mod entry_size =? 0) then Some (ACPI_BAD_LENGTH, info)
      else root_loop (Z.to_nat (payload / entry_size)) root_physical entry_size 0 info.

Definition zero_platform : acpi_platform_info_t :=
  mk_platform 0 0 (replicate 64 (mk_cpu_info 0 0 0 0)) 0 (replicate 8 (mk_ioapic_info 0 0 0)) 0
    (replicate 16 (mk_override 0 0 0)) 0.
End Tables.

Definition acpi_discover (rsdp_physical : Z) (reader : option acpi_reader_fn) (info : option acpi_platform_info_t) :
    option (acpi_status_t * option acpi_platform_info_t) :=
  if rsdp_physical =? 0 then Some (ACPI_BAD_ARGUMENT, info)
  else match reader, info with
  | Some reader, Some _ =>
      let info := zero_platform in
      let found r := r ← r; Some (r.1, Some r.2) in
      match read_exact reader rsdp_physical 20 with
      | None => Some (ACPI_READ_ERROR, Some info)
      | Some rsdp =>
          eq ← bytes_equal rsdp RSDP_SIGNATURE 0;
          if negb eq then Some (ACPI_BAD_SIGNATURE, Some info)
          else
            status ← checksum_region reader rsdp_physical 20;
            if bool_decide (status <> ACPI_OK) then Some (status, Some info)
            else
              revision ← rd rsdp 15;
              if 2 <=? revision then
                match read_exact reader rsdp_physical 36 with
                | None => Some (ACPI_READ_ERROR, Some info)
                | Some rsdp =>
                    length ← read_le32 rsdp 20;
                    if (length <? 36) || (4096 <? length) then Some (ACPI_BAD_LENGTH, Some info)
                    else
                      status ← checksum_region reader rsdp_physical length;
                      if bool_decide (status <> ACPI_OK) then Some (status, Some info)
                      else
                        xsdt ← read_le64 rsdp 24;
                        if negb (xsdt =? 0) then found (find_madt_in_root reader xsdt 8 XSDT_SIGNATURE info)
                        else
                          rsdt ← read_le32 rsdp 16;
                          if rsdt =? 0 then Some (ACPI_NOT_FOUND, Some info)
                          else found (find_madt_in_root reader rsdt 4 RSDT_SIGNATURE info)
                end
              else
                rsdt ← read_le32 rsdp 16;
                if rsdt =? 0 then Some (ACPI_NOT_FOUND, Some info)
                else found (find_madt_in_root reader rsdt 4 RSDT_SIGNATURE info)
      end
  | _, _ => Some (ACPI_BAD_ARGUMENT, info)
  end.

(** ** Interrupt overrides *)

(** [n] overrides are left, [i] is the next. *)
Fixpoint resolve_loop (n : nat) (os : list acpi_irq_override_t) (i irq : Z) : option (Z * Z) :=
  match n with
  | O => Some (irq, 0)
  | S n =>
      o ← rd os i;
      if negb (source_irq o =? irq) then resolve_loop n os (i + 1) irq else Some (gsi o, irq_flags o)
  end.

(** Result: C's return value and the objects the two pointers point to. *)
Definition acpi_resolve_isa_irq (info : option acpi_platform_info_t) (irq : Z) (gsi_out flags_out : option Z) :
    option (bool * option Z * option Z) :=
  match info, gsi_out, flags_out with
  | Some info, Some _, Some _ =>
      r ← resolve_loop (Z.to_nat (override_count info)) (overrides info) 0 irq;
      Some (true, Some r.1, Some r.2)
  | _, _, _ => Some (false, gsi_out, flags_out)
  end.

Definition acpi_status_string (status : acpi_status_t) : string :=
  match status with
  | ACPI_OK => "ok"
  | ACPI_BAD_ARGUMENT => "bad argument"
  | ACPI_READ_ERROR => "physical read failed"
  | ACPI_BAD_SIGNATURE => "bad ACPI signature"
  | ACPI_BAD_CHECKSUM => "bad ACPI checksum"
  | ACPI_BAD_LENGTH => "bad ACPI table length"
  | ACPI_NOT_FOUND => "required ACPI table not found"
  | ACPI_TOO_MANY_ENTRIES => "ACPI topology exceeds kernel limit"
  end.

(** ** Physical memory *)

(** The bytes of memory at [a]. *)
Definition region (phys : Z -> Z) (a n : Z) : list Z := phys <$> seqZ a n.

(** A reader delivers the bytes of memory or fails. *)
Class PhysicalMemory (phys : Z -> Z) (reader : acpi_reader_fn) := {
  phys_byte : forall a, byte_ok (phys a);
  reader_reads : forall a n bs, 0 <= n -> reader a n = Some bs -> bs = region phys a n
}.

Lemma zlen_region phys a n : 0 <= n -> zlen (region phys a n) = n.
Proof. intros Hn. unfold zlen, region. rewrite length_fmap, length_seqZ. lia. Qed.

Lemma rd_region phys a n i : 0 <= i < n -> rd (region phys a n) i = Some (phys (a + i)).
Proof.
  intros Hi. unfold rd, region. rewrite (proj2 (Z.leb_le _ _)) by lia. rewrite list_lookup_fmap.
  rewrite (proj2 (lookup_seqZ a n (Z.to_nat i) (a + i))) by lia. done.
Qed.

Lemma slice_region phys a n o k :
  0 <= o -> 0 <= k -> o + k <= n -> slice (region phys a n) o k = region phys (a + o) k.
Proof.
  intros Ho Hk Hn. apply rd_ext; [by rewrite zlen_slice, zlen_region by (rewrite ?zlen_region; lia) |].
  intros i Hi. rewrite zlen_slice in Hi by (rewrite ?zlen_region; lia).
  rewrite rd_slice by (rewrite ?zlen_region; lia). rewrite !rd_region by lia. do 2 f_equal. lia.
Qed.

Lemma region_app phys a n m : 0 <= n -> 0 <= m -> region phys a (n + m) = region phys a n ++ region phys (a + n) m.
Proof. intros Hn Hm. unfold region. by rewrite seqZ_app, fmap_app by lia. Qed.

Section Reading.
Context (phys : Z -> Z) (reader : acpi_reader_fn) `{!PhysicalMemory phys reader}.

Lemma bytes_ok_region a n : bytes_ok (region phys a n).
Proof. apply Forall_fmap, Forall_true. intros x. apply phys_byte. Qed.

Lemma read_exact_spec a n :
  0 <= n -> read_exact reader a n = None \/ read_exact reader a n = Some (region phys a n).
Proof.
  intros Hn. unfold read_exact. destruct (_ && _); [by left |].
  destruct (reader a n) as [bs |] eqn:E; [right | by left]. f_equal. by apply reader_reads.
Qed.

Lemma read_le16_region a n o : 0 <= o -> o + 2 <= n -> read_le16 (region phys a n) o = Some (le_val (region phys (a + o) 2)).
Proof.
  intros Ho Hn. rewrite <- (slice_region phys a n) by lia.
  apply le16_spec; [done | rewrite zlen_region; lia | apply bytes_ok_region].
Qed.

Lemma read_le32_region a n o : 0 <= o -> o + 4 <= n -> read_le32 (region phys a n) o = Some (le_val (region phys (a + o) 4)).
Proof.
  intros Ho Hn. rewrite <- (slice_region phys a n) by lia.
  apply le32_spec; [done | rewrite zlen_region; lia | apply bytes_ok_region].
Qed.

Lemma read_le64_region a n o : 0 <= o -> o + 8 <= n -> read_le64 (region phys a n) o = Some (le_val (region phys (a + o) 8)).
Proof.
  intros Ho Hn. rewrite <- (slice_region phys a n) by lia.
  apply le64_spec; [done | rewrite zlen_region; lia | apply bytes_ok_region].
Qed.

Definition byte_sum (bs : list Z) : Z := foldr Z.add 0 bs.

Lemma byte_sum_app l1 l2 : byte_sum (l1 ++ l2) = byte_sum l1 + byte_sum l2.
Proof. unfold byte_sum. induction l1 as [| b l1 IH]; cbn [app foldr]; [done |]. rewrite IH. lia. Qed.

Lemma region_S a (n : nat) : region phys a (Z.of_nat (S n)) = phys a :: region phys (a + 1) (Z.of_nat n).
Proof. unfold region. by rewrite seqZ_S. Qed.

Lemma acpi_sum_loop_spec n a m i sum :
  0 <= i -> i + Z.of_nat n <= m -> 0 <= sum < 256 ->
  sum_loop n (region phys a m) i sum = Some (u8 (sum + byte_sum (region phys (a + i) (Z.of_nat n)))).
Proof.
  revert i sum. induction n as [| n IH]; intros i sum Hi Hn Hs; cbn [sum_loop].
  - change (region phys (a + i) (Z.of_nat 0)) with (@nil Z). cbn. by rewrite Z.add_0_r, u8_small.
  - rewrite rd_region by lia. obind. rewrite IH by (try lia; apply u8_range).
    f_equal. rewrite region_S. cbn [byte_sum foldr]. rewrite Z.add_assoc. unfold u8. rewrite Zplus_mod_idemp_l.
    f_equal. unfold byte_sum. lia.
Qed.

(** What a checksum over [n] bytes at [a] says. *)
Definition sum_status (sum : Z) : acpi_status_t := if u8 sum =? 0 then ACPI_OK else ACPI_BAD_CHECKSUM.

(** A read below [limit] fails. *)
Definition read_fails (limit : Z) : Prop :=
  exists a n, 0 <= a /\ 0 <= n /\ a + n <= limit /\ read_exact reader a n = None.

Lemma checksum_loop_spec fuel physical offset length sum :
  0 <= physical -> 0 <= offset <= length -> length < 2 ^ 32 -> length - offset <= Z.of_nat fuel -> 0 <= sum < 256 ->
  exists st, checksum_loop reader fuel physical offset length sum = Some st /\
    (physical + length <= 2 ^ 64 -> st = ACPI_READ_ERROR /\ read_fails (physical + length) \/
       st = sum_status (sum + byte_sum (region phys (physical + offset) (length - offset)))).
Proof.
  revert offset sum. induction fuel as [| fuel IH]; intros offset sum Hp Ho Hl Hf Hs; cbn [checksum_loop].
  - rewrite (proj2 (Z.ltb_ge _ _)) by lia. eexists. split; [done |]. intros _. right.
    replace (length - offset) with 0 by lia. change (region phys (physical + offset) 0) with (@nil Z).
    unfold sum_status. cbn. by rewrite Z.add_0_r, u8_small.
  - destruct (Z.ltb_spec offset length) as [Hlt | Hge].
    2: { eexists. split; [done |]. intros _. right.
         replace (length - offset) with 0 by lia. change (region phys (physical + offset) 0) with (@nil Z).
         unfold sum_status. cbn. by rewrite Z.add_0_r, u8_small. }
    set (chunk := if length - offset <? 256 then length - offset else 256).
    assert (1 <= chunk <= length - offset) as Hc by (unfold chunk; destruct (Z.ltb_spec (length - offset) 256); lia).
    destruct (read_exact_spec (u64 (physical + offset)) chunk) as [E | E]; [lia | |]; rewrite E.
    { eexists. split; [done |]. intros Hw. left. split; [done |]. exists (physical + offset), chunk.
      rewrite u64_small in E by lia. split_and!; (done || lia). }
    rewrite acpi_sum_loop_spec by (rewrite ?Z2Nat.id; lia). obind. rewrite Z2Nat.id, Z.add_0_r, (u32_small (offset + chunk)) by lia.
    destruct (IH (offset + chunk) (u8 (sum + byte_sum (region phys (u64 (physical + offset)) chunk)))) as (st & -> & Hst);
      [lia | lia | lia | lia | apply u8_range |].
    eexists. split; [done |]. intros Hw. destruct (Hst Hw) as [Hfail | ->]; [by left | right].
    rewrite u64_small by lia. replace (length - offset) with (chunk + (length - (offset + chunk))) by lia.
    rewrite region_app, byte_sum_app by lia. replace (physical + offset + chunk) with (physical + (offset + chunk)) by lia.
    unfold sum_status, u8. rewrite Zplus_mod_idemp_l. by rewrite (Z.add_assoc sum).
Qed.

Lemma checksum_region_spec physical length :
  0 <= physical -> 0 <= length < 2 ^ 32 ->
  exists st, checksum_region reader physical length = Some st /\
    (physical + length <= 2 ^ 64 -> st = ACPI_READ_ERROR /\ read_fails (physical + length) \/
       st = sum_status (byte_sum (region phys physical length))).
Proof.
  intros Hp Hl. destruct (checksum_loop_spec (Z.to_nat length) physical 0 length 0) as (st & E & H); try lia.
  exists st. split; [done |]. intros Hw. rewrite Z.add_0_r, Z.sub_0_r in H. by apply H.
Qed.

Lemma bytes_equal_spec sig a n i :
  0 <= i -> i + zlen sig <= n ->
  bytes_equal (region phys a n) sig i = Some (bool_decide (region phys (a + i) (zlen sig) = sig)).
Proof.
  revert i. induction sig as [| c sig IH]; intros i Hi Hn; cbn [bytes_equal]; [done |].
  rewrite zlen_cons in Hn. pose proof (zlen_nonneg sig). rewrite rd_region by lia. obind.
  replace (zlen (c :: sig)) with (Z.of_nat (S (length sig))) by (unfold zlen; cbn [length]; lia). rewrite region_S.
  change (Z.of_nat (length sig)) with (zlen sig). destruct (Z.eqb_spec (phys (a + i)) c) as [-> | Hne]; cbn [negb].
  - rewrite IH by lia. rewrite <- Z.add_assoc. f_equal. apply bool_decide_ext. split; [by intros -> | by intros [= ->]].
  - by rewrite bool_decide_eq_false_2 by (intros [= ? _]; done).
Qed.

(** ** The parsers stay in bounds *)

Definition info_ok (info : acpi_platform_info_t) : Prop :=
  (zlen (cpus info) = ACPI_MAX_CPUS /\ 0 <= cpu_count info <= ACPI_MAX_CPUS) /\
  (zlen (ioapics info) = ACPI_MAX_IOAPICS /\ 0 <= ioapic_count info <= ACPI_MAX_IOAPICS) /\
  (zlen (overrides info) = ACPI_MAX_ISO /\ 0 <= override_count info <= ACPI_MAX_ISO).

(** A call that yields a status and keeps the table in shape. *)
Definition safe (r : option (acpi_status_t * acpi_platform_info_t)) : Prop :=
  exists st info, r = Some (st, info) /\ info_ok info.

Lemma safe_Some st info : info_ok info -> safe (Some (st, info)).
Proof. intros H. by exists st, info. Qed.

Lemma append_cpu_safe info pid aid flags x : info_ok info -> safe (append_cpu info pid aid flags x).
Proof.
  intros Hok. pose proof Hok as ((Hl & Hc) & Hio & Hov). unfold append_cpu. if_case; [by apply safe_Some |].
  if_case; [by apply safe_Some |]. bool_cases. rewrite wr_in_range by lia. obind. apply safe_Some.
  split; [| by split]. cbn. rewrite zlen_insert. change ACPI_MAX_CPUS with 64 in *. rewrite u32_small by lia. lia.
Qed.

Lemma parse_madt_entry_safe type a len info :
  info_ok info -> 0 <= len -> safe (parse_madt_entry type (region phys a len) len info).
Proof.
  intros Hok Hlen. pose proof Hok as (Hcpu & (Hl & Hc) & (Hlo & Hco)). unfold parse_madt_entry.
  change ACPI_MAX_IOAPICS with 8 in *. change ACPI_MAX_ISO with 16 in *.
  if_case; [bool_cases; rewrite !rd_region, read_le32_region by lia; by apply append_cpu_safe |].
  if_case.
  { bool_cases. if_case; [by apply safe_Some |]. bool_cases. rewrite rd_region, !read_le32_region by lia. obind.
    rewrite wr_in_range by lia. obind. apply safe_Some. split; [done |]. split; [| done]. cbn. rewrite zlen_insert, u32_small by lia.
    change ACPI_MAX_IOAPICS with 8. lia. }
  if_case.
  { bool_cases. rewrite (rd_region phys a len 2) by lia. obind. if_case; [by apply safe_Some |].
    if_case; [by apply safe_Some |]. bool_cases. rewrite rd_region, read_le32_region, read_le16_region by lia. obind.
    rewrite wr_in_range by lia. obind. apply safe_Some. split; [done |]. split; [done |]. cbn. rewrite zlen_insert, u32_small by lia.
    change ACPI_MAX_ISO with 16. lia. }
  if_case; [bool_cases; rewrite read_le64_region by lia; by apply safe_Some |].
  if_case; [bool_cases; rewrite !read_le32_region by lia; by apply append_cpu_safe |].
  by apply safe_Some.
Qed.

Lemma madt_loop_safe fuel physical offset length info :
  info_ok info -> 0 <= offset <= length -> length < 2 ^ 32 -> length - offset <= Z.of_nat fuel ->
  safe (madt_loop reader fuel physical offset length info).
Proof.
  revert offset info. induction fuel as [| fuel IH]; intros offset info Hok Ho Hl Hf; cbn [madt_loop];
    (destruct (Z.ltb_spec offset length) as [Hlt | _]; [| by apply safe_Some]); [lia |].
  destruct (read_exact_spec (u64 (physical + offset)) 2) as [-> | ->]; [lia | by apply safe_Some |].
  rewrite !rd_region by lia. obind. if_case; [by apply safe_Some |]. apply orb_false_iff in E as [E1 E2]. bool_cases.
  set (len := phys (u64 (physical + offset) + 1)) in *.
  assert (safe (madt_loop reader fuel physical (u32 (offset + len)) length info)) as Hskip.
  { rewrite u32_small by lia. apply IH; [done | lia | done | lia]. }
  if_case; [done |]. destruct (read_exact_spec (u64 (physical + offset)) len) as [-> | ->]; [lia | by apply safe_Some |].
  destruct (parse_madt_entry_safe (phys (u64 (physical + offset) + 0)) (u64 (physical + offset)) len info Hok) as (st & info' & -> & Hok');
    [lia |]. obind. case_bool_decide; [by apply safe_Some |]. rewrite u32_small by lia. apply IH; [done | lia | done | lia].
Qed.

Lemma parse_madt_safe physical info : 0 <= physical -> info_ok info -> safe (parse_madt reader physical info).
Proof.
  intros Hp Hok. unfold parse_madt. change ACPI_MADT_HEADER_SIZE with 44 in *.
  destruct (read_exact_spec physical 44) as [-> | ->]; [lia | by apply safe_Some |].
  rewrite bytes_equal_spec by (done || cbn; lia). obind. case_bool_decide; cbn [negb]; [| by apply safe_Some].
  rewrite (read_le32_region physical 44 4) by lia. obind. if_case; [by apply safe_Some |]. apply orb_false_iff in E as [E1 E2]. bool_cases.
  unfold ACPI_MAX_TABLE_BYTES in *.
  destruct (checksum_region_spec physical (le_val (region phys (physical + 4) 4))) as (st & -> & _); [lia | lia |].
  obind. case_bool_decide; [by apply safe_Some |]. rewrite !read_le32_region by lia. obind.
  apply madt_loop_safe; [done | lia | lia | lia].
Qed.

(** The address an entry of a root table holds. *)
Lemma root_entry_spec a entry_size :
  entry_size = 4 \/ entry_size = 8 ->
  (if entry_size =? 8 then read_le64 (blit (replicate 8 0) 0 (region phys a entry_size)) 0
   else read_le32 (blit (replicate 8 0) 0 (region phys a entry_size)) 0) = Some (le_val (region phys a entry_size)).
Proof.
  assert (bytes_ok (replicate 8 0)) as Hz by (by apply Forall_replicate).
  intros [-> | ->]; cbn [Z.eqb Pos.eqb].
  - unfold read_le32. fold (le32 (blit (replicate 8 0) 0 (region phys a 4)) 0).
    rewrite le32_spec; [| done | rewrite zlen_blit by (rewrite ?zlen_region; done || lia); done |
      apply bytes_ok_blit; [done | apply bytes_ok_region]].
    rewrite slice_blit_same by (rewrite ?zlen_region; done || lia). done.
  - rewrite blit_full by (by rewrite zlen_region). rewrite read_le64_region by lia. by rewrite Z.add_0_r.
Qed.

Lemma le_val_nonneg bs : bytes_ok bs -> 0 <= le_val bs.
Proof. intros H. by apply le_val_range. Qed.

Lemma root_loop_safe n root entry_size i info :
  entry_size = 4 \/ entry_size = 8 -> info_ok info -> safe (root_loop reader n root entry_size i info).
Proof.
  intros Hsize Hok. revert i. induction n as [| n IH]; intros i; cbn [root_loop]; [by apply safe_Some |].
  set (pos := u64 (u64 (root + ACPI_SDT_HEADER_SIZE) + u64 (i * entry_size))).
  destruct (read_exact_spec pos entry_size) as [-> | ->]; [lia | by apply safe_Some |].
  rewrite root_entry_spec by done. obind. if_case; [apply IH |].
  pose proof (le_val_nonneg _ (bytes_ok_region pos entry_size)).
  destruct (read_exact_spec (le_val (region phys pos entry_size)) ACPI_SDT_HEADER_SIZE) as [-> | ->]; [done | by apply safe_Some |].
  rewrite bytes_equal_spec by (done || cbn; lia). obind. case_bool_decide; cbn [negb]; [| apply IH].
  by apply parse_madt_safe.
Qed.

Lemma read_sdt_header_spec physical :
  0 <= physical -> exists st header, read_sdt_header reader physical = Some (st, header) /\
    (st = ACPI_OK -> header = region phys physical 36 /\
       36 <= le_val (region phys (physical + 4) 4) <= ACPI_MAX_TABLE_BYTES).
Proof.
  intros Hp. unfold read_sdt_header. change ACPI_SDT_HEADER_SIZE with 36.
  destruct (read_exact_spec physical 36) as [-> | ->]; [lia | by eexists _, _ |].
  rewrite read_le32_region by lia. obind. if_case; [by eexists _, _ |]. apply orb_false_iff in E as [E1 E2]. bool_cases.
  unfold ACPI_MAX_TABLE_BYTES in *.
  destruct (checksum_region_spec physical (le_val (region phys (physical + 4) 4))) as (st & -> & _); [lia | lia |].
  obind. eexists _, _. split; [done |]. intros _. split; [done | lia].
Qed.

Lemma find_madt_safe root entry_size sig info :
  entry_size = 4 \/ entry_size = 8 -> zlen sig = 4 -> 0 <= root -> info_ok info ->
  safe (find_madt_in_root reader root entry_size sig info).
Proof.
  intros Hsize Hsig Hr Hok. unfold find_madt_in_root.
  destruct (read_sdt_header_spec root Hr) as (st & header & -> & Hst). obind.
  case_bool_decide as Hs; [by apply safe_Some |]. destruct Hst as [-> _]; [by destruct (decide (st = ACPI_OK)) |].
  rewrite bytes_equal_spec by (done || lia). obind. case_bool_decide; cbn [negb]; [| by apply safe_Some].
  rewrite read_le32_region by lia. obind. if_case; [by apply safe_Some |]. by apply root_loop_safe.
Qed.

Lemma zero_platform_ok : info_ok zero_platform.
Proof. done. Qed.

Lemma discover_safe rsdp info :
  0 <= rsdp -> exists st info', acpi_discover rsdp (Some reader) (Some info) = Some (st, Some info') /\
    (rsdp <> 0 -> info_ok info').
Proof.
  intros Hr. unfold acpi_discover. destruct (Z.eqb_spec rsdp 0) as [-> | Hne]; [by eexists _, _ |].
  pose proof zero_platform_ok as Hok.
  destruct (read_exact_spec rsdp 20) as [-> | ->]; [lia | by eexists _, _ |].
  rewrite bytes_equal_spec by (done || cbn; lia). obind. case_bool_decide; cbn [negb]; [| by eexists _, _].
  destruct (checksum_region_spec rsdp 20) as (st & -> & _); [lia | lia |]. obind. case_bool_decide; [by eexists _, _ |].
  rewrite rd_region by lia. obind. 
  assert (forall p n s, n = 4 \/ n = 8 -> zlen s = 4 -> 0 <= p -> exists st info', (r ← find_madt_in_root reader p n s zero_platform; Some (r.1, Some r.2)) = Some (st, Some info') /\ (rsdp <> 0 -> info_ok info')) as Hfind.
  { intros p n s Hn Hs Hp. destruct (find_madt_safe p n s zero_platform Hn Hs Hp Hok) as (st' & info' & -> & Hok'). by eexists _, _. }
  if_case.
  - destruct (read_exact_spec rsdp 36) as [-> | ->]; [lia | by eexists _, _ |].
    rewrite (read_le32_region rsdp 36 20) by lia. obind. if_case; [by eexists _, _ |]. apply orb_false_iff in E0 as [E1 E2]. bool_cases.
    destruct (checksum_region_spec rsdp (le_val (region phys (rsdp + 20) 4))) as (st' & -> & _); [lia | lia |].
    obind. case_bool_decide; [by eexists _, _ |]. rewrite read_le64_region, (read_le32_region rsdp 36 16) by lia. obind. if_case.
    + apply Hfind; [by right | done | apply le_val_nonneg, bytes_ok_region].
    + if_case; [by eexists _, _ |]. apply Hfind; [by left | done | apply le_val_nonneg, bytes_ok_region].
  - rewrite (read_le32_region rsdp 20 16) by lia. obind. if_case; [by eexists _, _ |].
    apply Hfind; [by left | done | apply le_val_nonneg, bytes_ok_region].
Qed.
End Reading.

(** ** What the tables mean *)

(** [v] as [n] bytes, least significant first. *)
Fixpoint le_bytes (n : nat) (v : Z) : list Z :=
  match n with
  | O => []
  | S n => v mod 256 :: le_bytes n (v / 256)
  end.

(** The entries of a MADT. *)
Inductive madt_entry :=
| LocalApic (processor_id apic_id flags : Z)
| IoApic (id address gsi : Z)
| IrqOverride (bus source gsi flags : Z)
| ApicAddress (address : Z)
| LocalX2Apic (processor_id apic_id flags : Z)
| OtherEntry (type : Z) (body : list Z).

Definition encode_entry (e : madt_entry) : list Z :=
  match e with
  | LocalApic p a f => [0; 8; p; a] ++ le_bytes 4 f
  | IoApic i a g => [1; 12; i; 0] ++ le_bytes 4 a ++ le_bytes 4 g
  | IrqOverride b s g f => [2; 10; b; s] ++ le_bytes 4 g ++ le_bytes 2 f
  | ApicAddress a => [5; 12; 0; 0] ++ le_bytes 8 a
  | LocalX2Apic p a f => [9; 16; 0; 0] ++ le_bytes 4 a ++ le_bytes 4 f ++ le_bytes 4 p
  | OtherEntry t body => [t; 2 + zlen body] ++ body
  end.

Definition u32_ok (v : Z) : Prop := 0 <= v < 2 ^ 32.

(** The fields fit their width; other entries have a type of their own. *)
Definition entry_ok (e : madt_entry) : Prop :=
  match e with
  | LocalApic p a f => u32_ok f
  | IoApic i a g => u32_ok a /\ u32_ok g
  | IrqOverride b s g f => u32_ok g /\ 0 <= f < 2 ^ 16
  | ApicAddress a => 0 <= a < 2 ^ 64
  | LocalX2Apic p a f => u32_ok p /\ u32_ok a /\ u32_ok f
  | OtherEntry t body => t <> 0 /\ t <> 1 /\ t <> 2 /\ t <> 5 /\ t <> 9
  end.

(** A processor counts when it is enabled or can be enabled. *)
Definition usable_cpu (p a f x : Z) : list acpi_cpu_info_t :=
  if Z.land f 3 =? 0 then [] else [mk_cpu_info p a f x].

Definition entry_cpus (e : madt_entry) : list acpi_cpu_info_t :=
  match e with
  | LocalApic p a f => usable_cpu p a f 0
  | LocalX2Apic p a f => usable_cpu p a f 1
  | _ => []
  end.

Definition entry_ioapics (e : madt_entry) : list acpi_ioapic_info_t :=
  match e with IoApic i a g => [mk_ioapic_info i a g] | _ => [] end.

(** Only overrides of the ISA bus count. *)
Definition entry_overrides (e : madt_entry) : list acpi_irq_override_t :=
  match e with IrqOverride b s g f => if b =? 0 then [mk_override s g f] else [] | _ => [] end.

Definition entry_address (a : Z) (e : madt_entry) : Z :=
  match e with ApicAddress a' => a' | _ => a end.

(** The table [info] lists exactly these. *)
Definition lists (info : acpi_platform_info_t) (address flags : Z) (cs : list acpi_cpu_info_t)
    (ios : list acpi_ioapic_info_t) (os : list acpi_irq_override_t) : Prop :=
  info_ok info /\ local_apic_address info = address /\ madt_flags info = flags /\
  take (Z.to_nat (cpu_count info)) (cpus info) = cs /\
  take (Z.to_nat (ioapic_count info)) (ioapics info) = ios /\
  take (Z.to_nat (override_count info)) (overrides info) = os.

Lemma zlen_le_bytes n v : zlen (le_bytes n v) = Z.of_nat n.
Proof. revert v. induction n as [| n IH]; intros v; cbn [le_bytes]; [done |]. rewrite zlen_cons, IH. lia. Qed.

Lemma le_val_le_bytes n v : 0 <= v < 256 ^ Z.of_nat n -> le_val (le_bytes n v) = v.
Proof.
  revert v. induction n as [| n IH]; intros v Hv; cbn [le_bytes]; [cbn in *; lia |].
  change (le_val (v mod 256 :: le_bytes n (v / 256))) with (v mod 256 + 256 * le_val (le_bytes n (v / 256))).
  rewrite Nat2Z.inj_succ, Z.pow_succ_r in Hv by lia.
  rewrite IH; [pose proof (Z.div_mod v 256); lia |]. split; [by apply Z.div_pos; lia | apply Z.div_lt_upper_bound; lia].
Qed.

(** Appending to an array with a counter. *)
Lemma take_append {A} (l : list A) (k : Z) (x : A) :
  0 <= k < zlen l -> take (Z.to_nat (k + 1)) (<[Z.to_nat k := x]> l) = take (Z.to_nat k) l ++ [x].
Proof.
  intros Hk. unfold zlen in Hk. replace (Z.to_nat (k + 1)) with (S (Z.to_nat k)) by lia.
  rewrite (take_S_r _ _ x) by (apply list_lookup_insert_eq; lia). by rewrite take_insert_ge by lia.
Qed.

Lemma zlen_take_counter {A} (l : list A) k : 0 <= k <= zlen l -> zlen (take (Z.to_nat k) l) = k.
Proof. unfold zlen. intros Hk. rewrite length_take. lia. Qed.

Lemma append_cpu_lists info a fl cs ios os p i f x :
  lists info a fl cs ios os -> zlen (cs ++ usable_cpu p i f x) <= ACPI_MAX_CPUS ->
  exists info', append_cpu info p i f x = Some (ACPI_OK, info') /\ lists info' a fl (cs ++ usable_cpu p i f x) ios os.
Proof.
  intros (Hok & Ha & Hf & Hc & Hio & Hov) Hlim. pose proof Hok as ((Hl & Hcc) & Hio' & Hov'). unfold append_cpu, usable_cpu in *.
  destruct (Z.land f 3 =? 0); [exists info; by rewrite app_nil_r |].
  rewrite zlen_app in Hlim. change (zlen [_]) with 1 in Hlim. rewrite <- Hc, zlen_take_counter in Hlim by lia.
  change ACPI_MAX_CPUS with 64 in *. rewrite (proj2 (Z.leb_gt _ _)) by lia. rewrite wr_in_range by lia. obind.
  eexists. split; [done |]. rewrite u32_small by lia. split.
  - split; [| done]. cbn. rewrite zlen_insert. change ACPI_MAX_CPUS with 64. lia.
  - split_and!; try done. cbn. rewrite take_append by lia. by rewrite Hc.
Qed.

Lemma read16_at l o v :
  bytes_ok l -> slice l o 2 = le_bytes 2 v -> 0 <= v < 2 ^ 16 -> 0 <= o -> o + 2 <= zlen l -> read_le16 l o = Some v.
Proof. intros Hb Hs Hv Ho Hl. unfold read_le16. fold (le16 l o). rewrite le16_spec, Hs by done. by rewrite le_val_le_bytes. Qed.

Lemma read32_at l o v :
  bytes_ok l -> slice l o 4 = le_bytes 4 v -> u32_ok v -> 0 <= o -> o + 4 <= zlen l -> read_le32 l o = Some v.
Proof. intros Hb Hs Hv Ho Hl. unfold read_le32. fold (le32 l o). rewrite le32_spec, Hs by done. by rewrite le_val_le_bytes. Qed.

Lemma read64_at l o v :
  bytes_ok l -> slice l o 8 = le_bytes 8 v -> 0 <= v < 2 ^ 64 -> 0 <= o -> o + 8 <= zlen l -> read_le64 l o = Some v.
Proof. intros Hb Hs Hv Ho Hl. unfold read_le64, read_le32. fold (le32 l o) (le32 l (o + 4)) (le64 l o). rewrite le64_spec, Hs by done. by rewrite le_val_le_bytes. Qed.

Definition entry_type (e : madt_entry) : Z :=
  match e with
  | LocalApic _ _ _ => 0 | IoApic _ _ _ => 1 | IrqOverride _ _ _ _ => 2 | ApicAddress _ => 5 | LocalX2Apic _ _ _ => 9
  | OtherEntry t _ => t
  end.

Lemma encode_entry_header e :
  rd (encode_entry e) 0 = Some (entry_type e) /\ rd (encode_entry e) 1 = Some (zlen (encode_entry e)).
Proof.
  destruct e; cbn [encode_entry]; try done. split; [done |]. by rewrite zlen_app.
Qed.

(** One entry of the table adds what it stands for. *)
Lemma parse_entry_lists e info a fl cs ios os :
  entry_ok e -> bytes_ok (encode_entry e) -> lists info a fl cs ios os ->
  zlen (cs ++ entry_cpus e) <= ACPI_MAX_CPUS -> zlen (ios ++ entry_ioapics e) <= ACPI_MAX_IOAPICS ->
  zlen (os ++ entry_overrides e) <= ACPI_MAX_ISO ->
  exists info', parse_madt_entry (entry_type e) (encode_entry e) (zlen (encode_entry e)) info = Some (ACPI_OK, info') /\
    lists info' (entry_address a e) fl (cs ++ entry_cpus e) (ios ++ entry_ioapics e) (os ++ entry_overrides e).
Proof.
  intros Hok Hb Hlists Hlc Hli Hlo. pose proof Hlists as (Hinfo & Ha & Hf & Hc & Hio & Hov).
  pose proof Hinfo as (Hcpu & (Hil & Hic) & (Hol & Hoc)). unfold parse_madt_entry.
  destruct e as [p i f | i ad g | b s g f | ad | p i f | t body];
    cbn [entry_cpus entry_ioapics entry_overrides entry_address entry_ok entry_type] in *; rewrite ?app_nil_r in *.
  - change ((0 =? 0) && _) with true. cbn iota. rewrite (read32_at _ 4 f) by done.
    by apply (append_cpu_lists info a fl cs ios os p i f 0).
  - destruct Hok as [Hoa Hog]. change ((1 =? 0) && _) with false. change ((1 =? 1) && _) with true. cbn iota.
    rewrite zlen_app in Hli. change (zlen [_]) with 1 in Hli. rewrite <- Hio, zlen_take_counter in Hli by (rewrite Hil; done).
    change ACPI_MAX_IOAPICS with 8 in *. rewrite (proj2 (Z.leb_gt _ _)) by lia.
    change (rd (encode_entry (IoApic i ad g)) 2) with (Some i). rewrite (read32_at _ 4 ad), (read32_at _ 8 g) by done. obind.
    rewrite wr_in_range by lia. obind. eexists. split; [done |]. rewrite u32_small by lia.
    split; [split; [done |]; split; [| done]; cbn; rewrite zlen_insert; change ACPI_MAX_IOAPICS with 8; lia |].
    split_and!; try done. cbn. rewrite take_append by lia. by rewrite Hio.
  - destruct Hok as [Hog Hof]. change ((2 =? 0) && _) with false. change ((2 =? 1) && _) with false.
    change ((2 =? 2) && _) with true. cbn iota. change (rd (encode_entry (IrqOverride b s g f)) 2) with (Some b). obind.
    destruct (b =? 0); cbn [negb]; [| exists info; by rewrite app_nil_r].
    rewrite zlen_app in Hlo. change (zlen [_]) with 1 in Hlo. rewrite <- Hov, zlen_take_counter in Hlo by (rewrite Hol; done).
    change ACPI_MAX_ISO with 16 in *. rewrite (proj2 (Z.leb_gt _ _)) by lia.
    change (rd (encode_entry (IrqOverride b s g f)) 3) with (Some s). rewrite (read32_at _ 4 g), (read16_at _ 8 f) by done. obind.
    rewrite wr_in_range by lia. obind. eexists. split; [done |]. rewrite u32_small by lia.
    split; [split; [done |]; split; [done |]; cbn; rewrite zlen_insert; change ACPI_MAX_ISO with 16; lia |].
    split_and!; try done. cbn. rewrite take_append by lia. by rewrite Hov.
  - change ((5 =? 0) && _) with false. change ((5 =? 1) && _) with false. change ((5 =? 2) && _) with false.
    change ((5 =? 5) && _) with true. cbn iota. rewrite (read64_at _ 4 ad) by done. obind. eexists. split; [done |]. by split_and!.
  - destruct Hok as (Hop & Hoa & Hof). change ((9 =? 0) && _) with false. change ((9 =? 1) && _) with false. change ((9 =? 2) && _) with false.
    change ((9 =? 5) && _) with false. change ((9 =? 9) && _) with true. cbn iota.
    rewrite (read32_at _ 12 p), (read32_at _ 4 i), (read32_at _ 8 f) by done. obind.
    by apply (append_cpu_lists info a fl cs ios os p i f 1).
  - destruct Hok as (H0 & H1 & H2 & H5 & H9). apply Z.eqb_neq in H0 as ->, H1 as ->, H2 as ->, H5 as ->, H9 as ->. cbn [andb].
    by exists info.
Qed.

Definition encode_entries (es : list madt_entry) : list Z := mjoin (encode_entry <$> es).

Section Meaning.
Context (phys : Z -> Z) (reader : acpi_reader_fn) `{!PhysicalMemory phys reader}.
Context (complete : forall a n, 0 <= a -> 0 <= n -> a + n <= 2 ^ 64 -> reader a n = Some (region phys a n)).

Lemma read_complete a n : 0 <= a -> 0 <= n -> a + n <= 2 ^ 64 -> read_exact reader a n = Some (region phys a n).
Proof.
  intros Ha Hn Hw. unfold read_exact. rewrite complete by done.
  destruct (Z.eqb_spec n 0) as [-> | Hne]; cbn [negb andb]; [done |].
  rewrite (proj2 (Z.ltb_ge _ _)); [done |]. unfold UINT64_MAX. rewrite !u64_small by lia. lia.
Qed.

Lemma checksum_complete a n :
  0 <= a -> 0 <= n < 2 ^ 32 -> a + n <= 2 ^ 64 -> byte_sum (region phys a n) mod 256 = 0 ->
  checksum_region reader a n = Some ACPI_OK.
Proof.
  intros Ha Hn Hw Hsum. destruct (checksum_region_spec phys reader a n Ha Hn) as (st & -> & Hst).
  destruct (Hst Hw) as [(_ & b & k & Hb & Hk & Hbk & E) | ->].
  - by rewrite read_complete in E by lia.
  - unfold sum_status, u8. change (2 ^ 8) with 256. by rewrite Hsum.
Qed.

Lemma encode_entry_length e : 2 <= zlen (encode_entry e).
Proof.
  destruct e as [| | | | | t body]; try done. cbn [encode_entry]. rewrite zlen_app.
  change (zlen [t; 2 + zlen body]) with 2. pose proof (zlen_nonneg body). lia.
Qed.

(** The entries of the table, one after the other. *)
Lemma madt_loop_lists es fuel physical offset length info a fl cs ios os :
  0 <= physical -> 0 <= offset -> offset + zlen (encode_entries es) = length -> length < 2 ^ 32 ->
  physical + length <= 2 ^ 64 -> length - offset <= Z.of_nat fuel ->
  region phys (physical + offset) (zlen (encode_entries es)) = encode_entries es ->
  Forall entry_ok es -> lists info a fl cs ios os ->
  zlen (cs ++ (es ≫= entry_cpus)) <= ACPI_MAX_CPUS -> zlen (ios ++ (es ≫= entry_ioapics)) <= ACPI_MAX_IOAPICS ->
  zlen (os ++ (es ≫= entry_overrides)) <= ACPI_MAX_ISO ->
  exists info', madt_loop reader fuel physical offset length info = Some (ACPI_OK, info') /\
    lists info' (foldl entry_address a es) fl (cs ++ (es ≫= entry_cpus)) (ios ++ (es ≫= entry_ioapics))
      (os ++ (es ≫= entry_overrides)).
Proof.
  intros Hp. revert fuel offset info a cs ios os.
  induction es as [| e es IH]; intros fuel offset info a cs ios os Ho Hlen Hl Hw Hf Hmem Hes Hlists Hlc Hli Hlo.
  { change (zlen (encode_entries [])) with 0 in Hlen. cbn [mbind list_bind foldl]. rewrite !app_nil_r. exists info. split; [| done].
    assert ((offset <? length) = false) as E by (apply Z.ltb_ge; lia). destruct fuel; cbn [madt_loop]; by rewrite E. }
  change (encode_entries (e :: es)) with (encode_entry e ++ encode_entries es) in Hlen, Hmem. rewrite zlen_app in Hlen, Hmem.
  pose proof (encode_entry_length e) as He2. pose proof (zlen_nonneg (encode_entries es)) as Hn.
  apply Forall_cons in Hes as [Hok Hes]. destruct fuel as [| fuel]; [lia |]. cbn [madt_loop].
  rewrite (proj2 (Z.ltb_lt _ _)) by lia. rewrite (u64_small (physical + offset)) by lia.
  rewrite region_app in Hmem by lia. apply app_inj_1 in Hmem as [Hme Hmes];
    [| pose proof (zlen_region phys (physical + offset) (zlen (encode_entry e))); unfold zlen in *; lia].
  assert (bytes_ok (encode_entry e)) as Hb by (rewrite <- Hme; apply (bytes_ok_region phys reader)).
  destruct (encode_entry_header e) as [Ht Hlb]. rewrite <- Hme in Ht, Hlb at 1. rewrite rd_region in Ht, Hlb by lia.
  injection Ht as Ht. injection Hlb as Hlb.
  rewrite read_complete by lia. rewrite !rd_region by lia. obind. rewrite Ht, Hlb.
  rewrite (proj2 (Z.ltb_ge _ _)) by lia. rewrite (proj2 (Z.ltb_ge (length - offset) _)) by lia. cbn [orb].
  rewrite (u32_small (offset + _)) by lia. cbn [mbind list_bind foldl] in *. rewrite !app_assoc in *.
  destruct (Z.ltb_spec 32 (zlen (encode_entry e))) as [Hbig | Hsmall].
  - assert (exists t body, e = OtherEntry t body) as (t & body & ->) by (destruct e; try (by cbn in Hbig); by eexists _, _).
    cbn [entry_cpus entry_ioapics entry_overrides entry_address] in *. rewrite !app_nil_r in *.
    apply IH; try done; try lia. by rewrite Z.add_assoc.
  - rewrite read_complete, Hme by lia.
    destruct (parse_entry_lists e info a fl cs ios os Hok Hb Hlists) as (info' & -> & Hlists');
      [rewrite zlen_app in Hlc; pose proof (zlen_nonneg (es ≫= entry_cpus)); lia |
       rewrite zlen_app in Hli; pose proof (zlen_nonneg (es ≫= entry_ioapics)); lia |
       rewrite zlen_app in Hlo; pose proof (zlen_nonneg (es ≫= entry_overrides)); lia |].
    obind. rewrite bool_decide_eq_false_2 by tauto. apply IH; try done; try lia. by rewrite Z.add_assoc.
Qed.

(** The 32-bit word [v] is in memory at [a]. *)
Definition word32_at (a v : Z) : Prop := region phys a 4 = le_bytes 4 v /\ u32_ok v.

(** A table of [length] bytes with its signature, length field and checksum. *)
Definition table_at (a : Z) (sig : list Z) (length : Z) : Prop :=
  0 < a /\ a + length <= 2 ^ 64 /\ length <= ACPI_MAX_TABLE_BYTES /\
  region phys a (zlen sig) = sig /\ word32_at (a + 4) length /\ byte_sum (region phys a length) mod 256 = 0.

(** A MADT with the entries [es]. *)
Definition madt_at (a address flags : Z) (es : list madt_entry) : Prop :=
  table_at a APIC_SIGNATURE (44 + zlen (encode_entries es)) /\ word32_at (a + 36) address /\ word32_at (a + 40) flags /\
  region phys (a + 44) (zlen (encode_entries es)) = encode_entries es /\ Forall entry_ok es.

(** A root table whose entries of [size] bytes point to the tables [ts]. *)
Definition root_at (a : Z) (sig : list Z) (size : Z) (ts : list Z) : Prop :=
  table_at a sig (36 + size * zlen ts) /\
  forall i t, ts !! i = Some t ->
    region phys (a + 36 + size * Z.of_nat i) size = le_bytes (Z.to_nat size) t /\ 0 <= t < 256 ^ size.

(** The root pointer leads to the root table [root]: the RSDT in the first
    revision, the XSDT later. *)
Definition rsdp_at (a root : Z) (sig : list Z) (size : Z) : Prop :=
  0 < a /\ a + 36 <= 2 ^ 64 /\ region phys a 8 = RSDP_SIGNATURE /\ byte_sum (region phys a 20) mod 256 = 0 /\ 0 < root /\
  (phys (a + 15) < 2 /\ sig = RSDT_SIGNATURE /\ size = 4 /\ word32_at (a + 16) root \/
   2 <= phys (a + 15) /\ sig = XSDT_SIGNATURE /\ size = 8 /\ region phys (a + 24) 8 = le_bytes 8 root /\ root < 2 ^ 64 /\
     exists length, word32_at (a + 20) length /\ 36 <= length <= 4096 /\ a + length <= 2 ^ 64 /\
       byte_sum (region phys a length) mod 256 = 0).

(** A table that is not the MADT. *)
Definition other_table (t : Z) : Prop := t = 0 \/ t + 36 <= 2 ^ 64 /\ region phys t 4 <> APIC_SIGNATURE.

Lemma read_word32 a n o v : 0 <= o -> o + 4 <= n -> word32_at (a + o) v -> read_le32 (region phys a n) o = Some v.
Proof. intros Ho Hn [E Hv]. rewrite (read_le32_region phys reader) by done. rewrite E. by rewrite le_val_le_bytes. Qed.

Lemma parse_madt_lists a address flags es info :
  madt_at a address flags es -> lists info 0 0 [] [] [] ->
  zlen (es ≫= entry_cpus) <= ACPI_MAX_CPUS -> zlen (es ≫= entry_ioapics) <= ACPI_MAX_IOAPICS ->
  zlen (es ≫= entry_overrides) <= ACPI_MAX_ISO ->
  exists info', parse_madt reader a info = Some (ACPI_OK, info') /\
    lists info' (foldl entry_address address es) flags (es ≫= entry_cpus) (es ≫= entry_ioapics) (es ≫= entry_overrides).
Proof.
  intros ((Ha & Hw & Hmax & Hsig & Hlen & Hsum) & Haddr & Hfl & Hmem & Hes) Hlists Hlc Hli Hlo.
  pose proof (zlen_nonneg (encode_entries es)) as Hn. unfold ACPI_MAX_TABLE_BYTES in Hmax.
  unfold parse_madt. change ACPI_MADT_HEADER_SIZE with 44. rewrite read_complete by lia.
  rewrite (bytes_equal_spec phys) by (done || cbn; lia). obind. rewrite Z.add_0_r, bool_decide_eq_true_2 by done. cbn [negb].
  rewrite (read_word32 a 44 4 (44 + zlen (encode_entries es))) by (done || lia). obind.
  unfold ACPI_MAX_TABLE_BYTES. rewrite (proj2 (Z.ltb_ge _ _)), (proj2 (Z.ltb_ge (1024 * 1024) _)) by lia. cbn [orb].
  rewrite checksum_complete by (done || lia). obind. rewrite bool_decide_eq_false_2 by tauto.
  rewrite (read_word32 a 44 36 address), (read_word32 a 44 40 flags) by (done || lia). obind.
  apply (madt_loop_lists es) with (cs := []) (ios := []) (os := []); try done; try lia.
  destruct Hlists as (Hok & _ & _ & Hcs). split; [exact Hok |]. split; [done |]. split; [done |]. exact Hcs.
Qed.

Lemma root_loop_finds ts1 m ts2 n root size i info address flags es :
  size = 4 \/ size = 8 -> 0 <= i -> 0 < root -> root + 36 + size * (i + zlen (ts1 ++ m :: ts2)) <= 2 ^ 64 ->
  (forall k t, (ts1 ++ m :: ts2) !! k = Some t ->
     region phys (root + 36 + size * (i + Z.of_nat k)) size = le_bytes (Z.to_nat size) t /\ 0 <= t < 256 ^ size) ->
  Forall other_table ts1 -> madt_at m address flags es -> n = length (ts1 ++ m :: ts2) ->
  root_loop reader n root size i info = parse_madt reader m info.
Proof.
  intros Hsize. revert n i. induction ts1 as [| t ts1 IH]; intros n i Hi Hr Hw Hts Hother Hm ->; cbn [app length root_loop].
  all: destruct (Hts 0%nat _ eq_refl) as [Hmem Ht]; rewrite Z.add_0_r in Hmem.
  all: cbn [app] in Hw; rewrite zlen_cons in Hw; pose proof (zlen_nonneg ts2).
  all: try pose proof (zlen_nonneg (ts1 ++ m :: ts2)).
  all: assert (0 <= size * i /\ root + 36 + size * i + size <= 2 ^ 64 /\ 4 <= size) as (Hsi & Hend & Hs4)
    by (destruct Hsize as [-> | ->]; lia).
  all: assert (u64 (u64 (root + ACPI_SDT_HEADER_SIZE) + u64 (i * size)) = root + 36 + size * i) as ->
    by (change ACPI_SDT_HEADER_SIZE with 36; rewrite (u64_small (root + 36)), (u64_small (i * size)), u64_small by lia; lia).
  - rewrite read_complete by lia. rewrite (root_entry_spec phys reader) by done. rewrite Hmem. obind.
    rewrite le_val_le_bytes by (rewrite Z2Nat.id; [done | lia]).
    pose proof Hm as ((Hm0 & Hmw & _ & Hsig & _) & _). pose proof (zlen_nonneg (encode_entries es)).
    rewrite (proj2 (Z.eqb_neq _ _)) by lia. change ACPI_SDT_HEADER_SIZE with 36. rewrite read_complete by lia.
    rewrite (bytes_equal_spec phys) by (done || cbn; lia). obind. by rewrite Z.add_0_r, bool_decide_eq_true_2 by done.
  - rewrite read_complete by lia. rewrite (root_entry_spec phys reader) by done.
    rewrite Hmem. obind. rewrite le_val_le_bytes by (rewrite Z2Nat.id; [done | lia]). apply Forall_cons in Hother as [Hot Hother].
    assert (root_loop reader (length (ts1 ++ m :: ts2)) root size (i + 1) info = parse_madt reader m info) as Hrest.
    { apply IH; try done; try lia. intros k t' Hk. destruct (Hts (S k) t' Hk) as [E Ht']. split; [| done].
      rewrite <- E. f_equal. lia. }
    destruct Hot as [-> | [Htw Hns]]; [done |]. destruct (Z.eqb_spec t 0); [done |].
    change ACPI_SDT_HEADER_SIZE with 36. rewrite read_complete by lia.
    rewrite (bytes_equal_spec phys) by (done || cbn; lia). obind. by rewrite Z.add_0_r, bool_decide_eq_false_2 by done.
Qed.

Lemma find_madt_finds root sig size ts1 m ts2 info address flags es :
  size = 4 \/ size = 8 -> zlen sig = 4 -> root_at root sig size (ts1 ++ m :: ts2) -> Forall other_table ts1 ->
  madt_at m address flags es ->
  find_madt_in_root reader root size sig info = parse_madt reader m info.
Proof.
  intros Hsize Hsig4 ((Hr & Hw & Hmax & Hsig & Hlen & Hsum) & Hts) Hother Hm. unfold ACPI_MAX_TABLE_BYTES in Hmax.
  set (ts := ts1 ++ m :: ts2) in *. pose proof (zlen_nonneg ts) as Hn.
  assert (0 <= size * zlen ts) as Hp by (destruct Hsize as [-> | ->]; lia).
  unfold find_madt_in_root, read_sdt_header. change ACPI_SDT_HEADER_SIZE with 36. rewrite read_complete by lia.
  rewrite (read_word32 root 36 4 (36 + size * zlen ts)) by (done || lia). obind.
  unfold ACPI_MAX_TABLE_BYTES. rewrite (proj2 (Z.ltb_ge _ _)), (proj2 (Z.ltb_ge (1024 * 1024) _)) by lia. cbn [orb].
  rewrite checksum_complete by (done || lia). obind. rewrite bool_decide_eq_false_2 by tauto.
  rewrite (bytes_equal_spec phys) by (done || lia). obind. rewrite Z.add_0_r, bool_decide_eq_true_2 by done. cbn [negb].
  rewrite (read_word32 root 36 4 (36 + size * zlen ts)) by (done || lia). obind.
  rewrite u32_small by lia. replace (36 + size * zlen ts - 36) with (zlen ts * size) by lia.
  rewrite Z_mod_mult, Z_div_mult_full by lia. rewrite (proj2 (Z.eqb_neq _ _)) by lia. cbn [orb negb Z.eqb].
  apply (root_loop_finds ts1 m ts2) with (address := address) (flags := flags) (es := es); try done; try lia.
  - fold ts. rewrite Z.add_0_l. lia.
  - unfold ts, zlen. lia.
Qed.

Lemma discover_lists rsdp root sig size ts1 m ts2 address flags es info :
  rsdp_at rsdp root sig size -> root_at root sig size (ts1 ++ m :: ts2) -> Forall other_table ts1 ->
  madt_at m address flags es ->
  zlen (es ≫= entry_cpus) <= ACPI_MAX_CPUS -> zlen (es ≫= entry_ioapics) <= ACPI_MAX_IOAPICS ->
  zlen (es ≫= entry_overrides) <= ACPI_MAX_ISO ->
  exists info', acpi_discover rsdp (Some reader) (Some info) = Some (ACPI_OK, Some info') /\
    lists info' (foldl entry_address address es) flags (es ≫= entry_cpus) (es ≫= entry_ioapics) (es ≫= entry_overrides).
Proof.
  intros (Hr & Hw & Hsig & Hsum & Hroot & Hrev) Hrootat Hother Hm Hlc Hli Hlo.
  assert (lists zero_platform 0 0 [] [] []) as Hz by (by split; [apply zero_platform_ok |]).
  destruct (parse_madt_lists m address flags es zero_platform Hm Hz Hlc Hli Hlo) as (info' & Eparse & Hlists).
  unfold acpi_discover. rewrite (proj2 (Z.eqb_neq _ _)) by lia. rewrite read_complete by lia.
  rewrite (bytes_equal_spec phys) by (done || cbn; lia). obind.
  rewrite Z.add_0_r, bool_decide_eq_true_2 by done. cbn [negb].
  rewrite checksum_complete by (done || lia). obind. rewrite bool_decide_eq_false_2 by tauto.
  rewrite (rd_region phys rsdp 20 15) by lia. obind. exists info'. split; [| done].
  destruct Hrev as [(Hrev & -> & -> & Hword) | (Hrev & -> & -> & Hx & Hx64 & len & Hlen & Hlen2 & Hlenw & Hsum2)].
  - rewrite (proj2 (Z.leb_gt _ _)) by lia. rewrite (read_word32 rsdp 20 16 root) by (done || lia). obind.
    rewrite (proj2 (Z.eqb_neq _ _)) by lia.
    rewrite (find_madt_finds root _ 4 ts1 m ts2 _ address flags es), Eparse by (done || by left). done.
  - rewrite (proj2 (Z.leb_le _ _)) by lia. rewrite read_complete by lia.
    rewrite (read_word32 rsdp 36 20 len) by (done || lia). obind.
    rewrite (proj2 (Z.ltb_ge _ _)), (proj2 (Z.ltb_ge 4096 _)) by lia. cbn [orb].
    rewrite checksum_complete by (done || lia). obind. rewrite bool_decide_eq_false_2 by tauto.
    rewrite (read_le64_region phys reader), Hx by lia. rewrite le_val_le_bytes by (split; [lia | done]). obind.
    rewrite (proj2 (Z.eqb_neq _ _)) by lia. cbn [negb].
    rewrite (find_madt_finds root _ 8 ts1 m ts2 _ address flags es), Eparse by (done || by right). done.
Qed.
End Meaning.

(** Discovery is total.  Whatever the tables hold and wherever the reader
    fails, discovery terminates without reading outside its buffers or writing
    outside the arrays of the platform table, whose counters stay within their
    bounds. *)
Theorem acpi_discover_total phys reader rsdp info :
  PhysicalMemory phys reader -> 0 <= rsdp ->
  exists st info', acpi_discover rsdp (Some reader) (Some info) = Some (st, Some info') /\
    (rsdp <> 0 -> info_ok info').
Proof. intros H Hr. by apply (discover_safe phys reader). Qed.

(** C20. Discovery reads the tables as specified.  When memory holds a root
    pointer of either revision, the root table it names, and, as the first
    table with the right signature, a MADT, discovery succeeds with exactly the
    usable processors, the I/O APICs and the ISA overrides of the MADT, in
    order, and with the last local APIC address given. *)
Theorem acpi_discover_correct phys reader rsdp root sig size ts1 m ts2 address flags es info :
  PhysicalMemory phys reader ->
  (forall a n, 0 <= a -> 0 <= n -> a + n <= 2 ^ 64 -> reader a n = Some (region phys a n)) ->
  rsdp_at phys rsdp root sig size -> root_at phys root sig size (ts1 ++ m :: ts2) ->
  Forall (other_table phys) ts1 -> madt_at phys m address flags es ->
  zlen (es ≫= entry_cpus) <= ACPI_MAX_CPUS -> zlen (es ≫= entry_ioapics) <= ACPI_MAX_IOAPICS ->
  zlen (es ≫= entry_overrides) <= ACPI_MAX_ISO ->
  exists info', acpi_discover rsdp (Some reader) (Some info) = Some (ACPI_OK, Some info') /\
    lists info' (foldl entry_address address es) flags (es ≫= entry_cpus) (es ≫= entry_ioapics) (es ≫= entry_overrides).
Proof. intros. by eapply (discover_lists phys reader). Qed.

(** An interrupt of the ISA bus goes where the first override for it says,
    with its flags, and otherwise to the interrupt of the same number. *)
Theorem acpi_resolve_correct info a f cs ios os irq g0 f0 :
  lists info a f cs ios os ->
  acpi_resolve_isa_irq (Some info) irq (Some g0) (Some f0) =
    Some (true, Some (match filter (fun o => source_irq o = irq) os with o :: _ => gsi o | [] => irq end),
                Some (match filter (fun o => source_irq o = irq) os with o :: _ => irq_flags o | [] => 0 end)).
Proof.
  intros ((_ & _ & Hl & Hc) & _ & _ & _ & _ & Hos). unfold acpi_resolve_isa_irq.
  assert (forall n i, 0 <= i -> i + Z.of_nat n <= zlen (overrides info) ->
    resolve_loop n (overrides info) i irq =
      Some (match filter (fun o => source_irq o = irq) (take n (drop (Z.to_nat i) (overrides info))) with
            | o :: _ => (gsi o, irq_flags o) | [] => (irq, 0) end)) as Hloop.
  { induction n as [| n IH]; intros i Hi Hn; cbn [resolve_loop]; [done |].
    destruct (rd_in_range (overrides info) i) as [o Ho]; [lia |]. rewrite Ho. obind. apply rd_lookup in Ho as [_ Ho].
    rewrite (drop_S _ o) by done. cbn [take]. rewrite filter_cons. destruct (Z.eqb_spec (source_irq o) irq) as [E | E]; cbn [negb].
    - by rewrite decide_True.
    - rewrite decide_False by done. rewrite IH by lia. by replace (Z.to_nat (i + 1)) with (S (Z.to_nat i)) by lia. }
  rewrite Hloop by lia. rewrite drop_0, Hos. obind. by destruct (filter _ os).
Qed.

(** ** An example machine *)

Definition with_checksum (bs : list Z) (i : nat) : list Z := <[i := (- byte_sum bs) mod 256]> bs.

Definition ex_entries : list madt_entry :=
  [LocalApic 0 0 1; LocalApic 1 1 0; LocalX2Apic 2 300 1; IoApic 0 4273995776 0; IrqOverride 0 0 2 0; OtherEntry 4 [255; 0; 0; 1]].

Definition ex_madt : list Z :=
  with_checksum (APIC_SIGNATURE ++ le_bytes 4 (44 + zlen (encode_entries ex_entries)) ++ replicate 28 0 ++
    le_bytes 4 4276092928 ++ le_bytes 4 1 ++ encode_entries ex_entries) 9.

Definition ex_xsdt : list Z :=
  with_checksum (XSDT_SIGNATURE ++ le_bytes 4 52 ++ replicate 28 0 ++ le_bytes 8 16384 ++ le_bytes 8 12288) 9.

Definition ex_rsdp : list Z :=
  let first := with_checksum (RSDP_SIGNATURE ++ [0; 0; 0; 0; 0; 0; 0; 2] ++ le_bytes 4 0) 8 in
  with_checksum (first ++ le_bytes 4 36 ++ le_bytes 8 8192 ++ [0; 0; 0; 0]) 32.

Definition ex_phys (a : Z) : Z :=
  default 0 (if a <? 8192 then rd ex_rsdp (a - 4096) else if a <? 12288 then rd ex_xsdt (a - 8192) else rd ex_madt (a - 12288)).

Definition ex_reader : acpi_reader_fn := fun a n => Some (region ex_phys a n).

(** Decides a closed arithmetic fact about the example. *)
Ltac ex_check := vm_compute; first [reflexivity | intros H; discriminate H].

Lemma ex_bytes : bytes_ok ex_rsdp /\ bytes_ok ex_xsdt /\ bytes_ok ex_madt.
Proof. split; [| split]; apply (bool_decide_unpack (bytes_ok _)); vm_compute; exact I. Qed.

#[export] Instance ex_memory_ok : PhysicalMemory ex_phys ex_reader.
Proof.
  split; [| by intros a n bs _ [= <-]]. intros a. destruct ex_bytes as (H1 & H2 & H3). unfold ex_phys.
  destruct (a <? 8192); [| destruct (a <? 12288)].
  - destruct (rd ex_rsdp (a - 4096)) as [b |] eqn:E; [exact (bytes_ok_rd _ _ _ H1 E) | by split].
  - destruct (rd ex_xsdt (a - 8192)) as [b |] eqn:E; [exact (bytes_ok_rd _ _ _ H2 E) | by split].
  - destruct (rd ex_madt (a - 12288)) as [b |] eqn:E; [exact (bytes_ok_rd _ _ _ H3 E) | by split].
Qed.

Lemma ex_rsdp_at : rsdp_at ex_phys 4096 8192 XSDT_SIGNATURE 8.
Proof.
  unfold rsdp_at. split; [ex_check |]. split; [ex_check |]. split; [ex_check |]. split; [ex_check |]. split; [ex_check |].
  right. split; [ex_check |]. split; [reflexivity |]. split; [reflexivity |]. split; [ex_check |]. split; [ex_check |].
  exists 36. split; [split; [ex_check | split; ex_check] |]. split; [split; ex_check |]. split; ex_check.
Qed.

Lemma ex_root_at : root_at ex_phys 8192 XSDT_SIGNATURE 8 [16384; 12288].
Proof.
  split.
  - unfold table_at. split; [ex_check |]. split; [ex_check |]. split; [ex_check |]. split; [ex_check |].
    split; [split; [ex_check | split; ex_check] |]. ex_check.
  - intros [| [| i]] t Ht; [injection Ht as <- | injection Ht as <- | destruct i; discriminate Ht];
      (split; [ex_check | split; ex_check]).
Qed.

Lemma ex_madt_at : madt_at ex_phys 12288 4276092928 1 ex_entries.
Proof.
  split; [| split; [split; [ex_check | split; ex_check] | split; [split; [ex_check | split; ex_check] | split; [ex_check |]]]].
  - unfold table_at. split; [ex_check |]. split; [ex_check |]. split; [ex_check |]. split; [ex_check |].
    split; [split; [ex_check | split; ex_check] |]. ex_check.
  - unfold ex_entries. repeat constructor; ex_check.
Qed.

Lemma acpi_discover_total_witness :
  exists st info, acpi_discover 4096 (Some ex_reader) (Some zero_platform) = Some (st, Some info) /\ info_ok info.
Proof.
  destruct (acpi_discover_total ex_phys ex_reader 4096 zero_platform ex_memory_ok ltac:(lia)) as (st & info & E & Hok).
  exists st, info. split; [exact E | apply Hok; lia].
Defined.

Lemma acpi_discover_correct_witness :
  exists info, acpi_discover 4096 (Some ex_reader) (Some zero_platform) = Some (ACPI_OK, Some info) /\
    take (Z.to_nat (cpu_count info)) (cpus info) = [mk_cpu_info 0 0 1 0; mk_cpu_info 2 300 1 1].
Proof.
  destruct (acpi_discover_correct ex_phys ex_reader 4096 8192 XSDT_SIGNATURE 8 [16384] 12288 [] 4276092928 1 ex_entries
    zero_platform ex_memory_ok (fun a n _ _ _ => eq_refl) ex_rsdp_at ex_root_at) as (info & E & _ & _ & _ & Hc & _).
  - constructor; [right; split; [ex_check | vm_compute; discriminate] | constructor].
  - exact ex_madt_at.
  - ex_check.
  - ex_check.
  - ex_check.
  - exists info. split; [exact E | exact Hc].
Defined.

Lemma acpi_resolve_correct_witness :
  exists info, acpi_resolve_isa_irq (Some info) 0 (Some 7) (Some 7) = Some (true, Some 2, Some 5).
Proof.
  pose (info := mk_platform 1 1 (replicate 64 (mk_cpu_info 0 0 0 0)) 0 (replicate 8 (mk_ioapic_info 0 0 0)) 0
    (mk_override 9 9 13 :: mk_override 0 2 5 :: replicate 14 (mk_override 0 0 0)) 2).
  exists info. apply (acpi_resolve_correct info 1 1 [] [] [mk_override 9 9 13; mk_override 0 2 5] 0 7 7).
  split; [repeat split; ex_check | by repeat split].
Defined.
