(* ===== verification/Paging.v ===== *)
(** * Kernel page tables: kernel/src/paging.c and paging.h

    Physical memory is a map from addresses to 64-bit words.  The kernel
    reaches the frame at physical address [p] through the boot loader's mapping
    at [physical_memory_offset + p], so a pointer into a page table is modelled
    by the physical address it stands for.  Operations run in a monad over
    memory and the frame allocator of [Pmm], and fail with a status.  The
    addresses of the kernel's sections are the linker's, a parameter. *)

From stdpp Require Import base numbers list gmap strings.
From Stdlib Require Import ZArith Lia.
From S2P Require Import Prelude Boot Pmm.

#[local] Open Scope Z_scope.

Definition PAGE_SIZE : Z := 0x1000.
Definition HUGE_PAGE_SIZE : Z := 0x200000.
Definition PAGE_MASK : Z := 0x000ffffffffff000.
Definition PAGE_PRESENT : Z := 0x001.
Definition PAGE_RW : Z := 0x002.
Definition PAGE_PWT : Z := 0x008.
Definition PAGE_PCD : Z := 0x010.
Definition PAGE_PS : Z := 0x080.
Definition PAGE_NX : Z := 2 ^ 63.
Definition DIRECT_MAP_MAX : Z := 0x10000000000.
Definition MMIO_BASE : Z := 0xffffc00000000000.
Definition MMIO_LIMIT : Z := 0xffffc00040000000.
Definition TEMP_MAP_BASE : Z := 0xffffd00000000000.

Inductive paging_status_t :=
| PAGING_OK | PAGING_BAD_ARGUMENT | PAGING_NO_MEMORY | PAGING_UNSUPPORTED_LAYOUT
| PAGING_MAPPING_CONFLICT | PAGING_WINDOW_EXHAUSTED.

Record paging_mapping_t := mk_mapping {
  physical_address : Z;
  present : bool;
  writable : bool;
  executable : bool;
  huge : bool;
  cache_disabled : bool
}.

(** The section boundaries of the kernel image. *)
Record layout := mk_layout {
  text_start : Z; text_end : Z;
  rodata_start : Z; rodata_end : Z;
  data_start : Z; data_end : Z;
  guard_low_start : Z;
  stack_start : Z; stack_end : Z;
  guard_high_start : Z
}.

(** ** Memory and the frame allocator *)

Definition memory := gmap Z Z.

(** The words that are not listed are 0. *)
Definition load (m : memory) (a : Z) : Z := default 0 ((m : gmap Z Z) !! a).
Coercion load : memory >-> Funclass.
#[global] Arguments load m a : simpl never.

Record world := mk_world { mem : memory; frames : pmm_state }.

Definition store (m : memory) (a v : Z) : memory := <[a := v]> (m : gmap Z Z).
#[global] Arguments store m a v : simpl never.

(** A call returns a value, or a status other than success. *)
Definition paging (A : Type) : Type := world -> (paging_status_t + A) * world.

#[export] Instance paging_ret : MRet paging := fun A a w => (inr a, w).
#[export] Instance paging_bind : MBind paging := fun A B k e w =>
  match e w with (inl st, w) => (inl st, w) | (inr a, w) => k a w end.

Definition fail {A} (st : paging_status_t) : paging A := fun w => (inl st, w).

(** [table[index]], and the assignment to it. *)
Definition read (table index : Z) : paging Z := fun w => (inr (mem w (table + 8 * index)), w).
Definition write (table index v : Z) : paging unit :=
  fun w => (inr tt, mk_world (store (mem w) (table + 8 * index) v) (frames w)).

(** The loop clears the 512 words of a page. *)
Fixpoint zero_loop (n : nat) (page i : Z) (m : memory) : memory :=
  match n with
  | O => m
  | S n => zero_loop n page (i + 1) (store m (page + 8 * i) 0)
  end.

Definition zero_page (page : Z) : paging unit :=
  fun w => (inr tt, mk_world (zero_loop (Z.to_nat (PAGE_SIZE / 8)) page 0 (mem w)) (frames w)).

Definition align_down (value alignment : Z) : Z := Z.land value (not64 (u64 (alignment - 1))).

Definition align_up (value alignment : Z) : option Z :=
  if (alignment =? 0) || negb (Z.land alignment (u64 (alignment - 1)) =? 0) then None
  else
    let mask := u64 (alignment - 1) in
    if Z.land value mask =? 0 then Some value
    else
      let add := u64 (alignment - Z.land value mask) in
      if UINT64_MAX - value <? add then None else Some (u64 (value + add)).

(** The pointer is null when the sum wraps, and when it is 0. *)
Definition phys_ptr (boot : boot_context_t) (phys : Z) : option Z :=
  if UINT64_MAX - physical_memory_offset boot <? phys then None
  else if u64 (physical_memory_offset boot + phys) =? 0 then None
  else Some phys.

(** The pointer to a table, or the failure all callers report. *)
Definition table_ptr (boot : boot_context_t) (phys : Z) : paging Z :=
  match phys_ptr boot phys with Some p => mret p | None => fail PAGING_UNSUPPORTED_LAYOUT end.

Definition alloc_table (boot : boot_context_t) : paging Z := fun w =>
  let '(phys, f) := pmm_alloc_frame (frames w) in
  let w := mk_world (mem w) f in
  if phys =? UINT64_MAX then (inl PAGING_NO_MEMORY, w)
  else (pointer ← table_ptr boot phys; _ ← zero_page pointer; mret phys) w.

Definition ensure_table (boot : boot_context_t) (table_phys index : Z) : paging Z :=
  table ← table_ptr boot table_phys;
  entry ← read table index;
  if bit_set entry PAGE_PRESENT then
    if bit_set entry PAGE_PS then fail PAGING_MAPPING_CONFLICT else mret (Z.land entry PAGE_MASK)
  else
    next_phys ← alloc_table boot;
    _ ← write table index (Z.lor (Z.lor next_phys PAGE_PRESENT) PAGE_RW);
    mret next_phys.

(** The index of [virt] in the table of the level that starts at bit [shift]. *)
Definition table_index (virt shift : Z) : Z := Z.land (Z.shiftr virt shift) 0x1ff.

(** One level of the walk: with [create] a missing table is made, without it
    the walk fails. *)
Definition next_table (boot : boot_context_t) (table index : Z) (create : bool) : paging Z :=
  if create then ensure_table boot table index
  else
    entry ← read table index;
    if negb (bit_set entry PAGE_PRESENT) || bit_set entry PAGE_PS then fail PAGING_MAPPING_CONFLICT
    else mret (Z.land entry PAGE_MASK).

(** The physical address of the page-table entry. *)
Definition pte_for_virtual (boot : boot_context_t) (root_phys virt : Z) (create : bool) : paging Z :=
  pml4 ← table_ptr boot root_phys;
  pdpt_phys ← next_table boot pml4 (table_index virt 39) create;
  pdpt ← table_ptr boot pdpt_phys;
  pd_phys ← next_table boot pdpt (table_index virt 30) create;
  pd ← table_ptr boot pd_phys;
  entry ← read pd (table_index virt 21);
  if bit_set entry PAGE_PS then fail PAGING_MAPPING_CONFLICT
  else
    pt_phys ← next_table boot pd (table_index virt 21) create;
    pt ← table_ptr boot pt_phys;
    mret (pt + 8 * table_index virt 12).

Definition map_2m_flags (boot : boot_context_t) (root_phys virt phys flags : Z) : paging unit :=
  if negb (Z.land virt (HUGE_PAGE_SIZE - 1) =? 0) || negb (Z.land phys (HUGE_PAGE_SIZE - 1) =? 0)
  then fail PAGING_UNSUPPORTED_LAYOUT
  else
    pdpt_phys ← ensure_table boot root_phys (table_index virt 39);
    pd_phys ← ensure_table boot pdpt_phys (table_index virt 30);
    pd ← table_ptr boot pd_phys;
    let index := table_index virt 21 in
    let wanted := Z.lor (Z.lor (Z.lor phys PAGE_PRESENT) PAGE_PS) flags in
    entry ← read pd index;
    if bit_set entry PAGE_PRESENT && negb (entry =? wanted) then fail PAGING_MAPPING_CONFLICT
    else write pd index wanted.

Definition map_4k_flags (boot : boot_context_t) (root_phys virt phys flags : Z) (replace : bool) : paging unit :=
  if negb (Z.land virt (PAGE_SIZE - 1) =? 0) || negb (Z.land phys (PAGE_SIZE - 1) =? 0)
  then fail PAGING_UNSUPPORTED_LAYOUT
  else
    pte ← pte_for_virtual boot root_phys virt true;
    let wanted := Z.lor (Z.lor phys PAGE_PRESENT) flags in
    entry ← read pte 0;
    if bit_set entry PAGE_PRESENT && negb (entry =? wanted) && negb replace then fail PAGING_MAPPING_CONFLICT
    else write pte 0 wanted.

(** ** The layout of the kernel *)

Definition ranges_overlap (a_start a_end b_start b_end : Z) : bool := (a_start <? b_end) && (b_start <? a_end).

Definition kernel_phys_for_virtual (boot : boot_context_t) (virt : Z) : option Z :=
  if (virt <? kernel_virt_start boot) || (kernel_virt_end boot <=? virt) then None
  else
    let offset := u64 (virt - kernel_virt_start boot) in
    if UINT64_MAX - kernel_phys_start boot <? offset then None else Some (u64 (kernel_phys_start boot + offset)).

Definition kernel_section_phys_range (boot : boot_context_t) (start_virt end_virt : Z) : option (Z * Z) :=
  if end_virt <=? start_virt then None
  else
    start ← kernel_phys_for_virtual boot start_virt;
    last_phys ← kernel_phys_for_virtual boot (u64 (end_virt - 1));
    if last_phys =? UINT64_MAX then None else Some (start, u64 (last_phys + 1)).

(** The page lies in the frames of the section. *)
Definition page_in_section (boot : boot_context_t) (start_virt end_virt phys : Z) : bool :=
  match kernel_section_phys_range boot start_virt end_virt with
  | Some (start, end_) =>
      (align_down start PAGE_SIZE <=? phys) && (phys <? align_down (u64 (u64 (end_ + PAGE_SIZE) - 1)) PAGE_SIZE)
  | None => false
  end.

Definition direct_flags_for_page (lay : layout) (boot : boot_context_t) (phys : Z) : Z :=
  let flags := Z.lor PAGE_RW PAGE_NX in
  let flags := if page_in_section boot (text_start lay) (text_end lay) phys then PAGE_NX else flags in
  let flags := if page_in_section boot (rodata_start lay) (rodata_end lay) phys then PAGE_NX else flags in
  let page_end := u64 (phys + PAGE_SIZE) in
  if ranges_overlap phys page_end (framebuffer_phys_start boot) (framebuffer_phys_end boot)
  then Z.lor (Z.lor (Z.lor PAGE_RW PAGE_NX) PAGE_PCD) PAGE_PWT else flags.

Definition chunk_needs_4k_mapping (boot : boot_context_t) (phys : Z) : bool :=
  let end_ := u64 (phys + HUGE_PAGE_SIZE) in
  ranges_overlap phys end_ (kernel_phys_start boot) (kernel_phys_end boot) ||
  ranges_overlap phys end_ (framebuffer_phys_start boot) (framebuffer_phys_end boot).

(** The pages of one 2 MiB chunk; [n] are left. *)
Fixpoint direct_pages (n : nat) (lay : layout) (boot : boot_context_t) (root_phys phys offset limit : Z) : paging unit :=
  match n with
  | O => mret tt
  | S n =>
      let page_phys := u64 (phys + offset) in
      if limit <=? page_phys then mret tt
      else
        _ ← map_4k_flags boot root_phys (u64 (physical_memory_offset boot + page_phys)) page_phys
              (direct_flags_for_page lay boot page_phys) false;
        direct_pages n lay boot root_phys phys (u64 (offset + PAGE_SIZE)) limit
  end.

(** The chunks below [limit]; [n] of them, rounded up, are left. *)
Fixpoint direct_loop (n : nat) (lay : layout) (boot : boot_context_t) (root_phys phys limit : Z) : paging unit :=
  match n with
  | O => mret tt
  | S n =>
      if phys <? limit then
        let virt := u64 (physical_memory_offset boot + phys) in
        _ ← (if negb (chunk_needs_4k_mapping boot phys)
             then map_2m_flags boot root_phys virt phys (Z.lor PAGE_RW PAGE_NX)
             else direct_pages (Z.to_nat (HUGE_PAGE_SIZE / PAGE_SIZE)) lay boot root_phys phys 0 limit);
        direct_loop n lay boot root_phys (u64 (phys + HUGE_PAGE_SIZE)) limit
      else mret tt
  end.

Definition map_direct_range (lay : layout) (boot : boot_context_t) (root_phys limit : Z) : paging unit :=
  direct_loop (Z.to_nat ((limit + (HUGE_PAGE_SIZE - 1)) / HUGE_PAGE_SIZE)) lay boot root_phys 0 limit.

(** The pages of a kernel section; [n] are left. *)
Fixpoint kernel_pages (n : nat) (boot : boot_context_t) (root_phys virt page_end flags : Z) : paging unit :=
  match n with
  | O => mret tt
  | S n =>
      if virt <? page_end then
        match kernel_phys_for_virtual boot virt with
        | None => fail PAGING_UNSUPPORTED_LAYOUT
        | Some phys =>
            _ ← map_4k_flags boot root_phys virt (align_down phys PAGE_SIZE) flags false;
            kernel_pages n boot root_phys (u64 (virt + PAGE_SIZE)) page_end flags
        end
      else mret tt
  end.

Definition map_kernel_virtual_range (boot : boot_context_t) (root_phys start_virt end_virt flags : Z) : paging unit :=
  if end_virt <=? start_virt then mret tt
  else
    let page_start := align_down start_virt PAGE_SIZE in
    match align_up end_virt PAGE_SIZE with
    | None => fail PAGING_UNSUPPORTED_LAYOUT
    | Some page_end =>
        kernel_pages (Z.to_nat ((page_end - page_start) / PAGE_SIZE)) boot root_phys page_start page_end flags
    end.

(** The end of the highest usable region so far. *)
Definition region_limit (limit : Z) (region : boot_memory_region_t) : Z :=
  if negb (bool_decide (type_ region = BOOT_MEMORY_USABLE)) || (length_ region =? 0) ||
     (UINT64_MAX - base region <? length_ region) then limit
  else let end_ := u64 (base region + length_ region) in if limit <? end_ then end_ else limit.

Definition physical_map_limit (boot : boot_context_t) : option Z :=
  let limit := foldl region_limit 0 (regions boot) in
  let limit := if limit <? framebuffer_phys_end boot then framebuffer_phys_end boot else limit in
  let limit := if limit <? kernel_phys_end boot then kernel_phys_end boot else limit in
  if (limit =? 0) || (DIRECT_MAP_MAX <? limit) then None else align_up limit HUGE_PAGE_SIZE.

(** ** The kernel address space *)

Record paging_state := mk_paging {
  active_boot : option boot_context_t;
  kernel_root : Z;
  direct_limit : Z;
  mmio_next : Z;
  temp_mapped : bool
}.

(** The tables of a new address space; the root. *)
Definition build_tables (lay : layout) (boot : boot_context_t) (limit : Z) : paging Z :=
  root_phys ← alloc_table boot;
  _ ← map_direct_range lay boot root_phys limit;
  _ ← map_kernel_virtual_range boot root_phys (kernel_virt_start boot) (text_start lay) PAGE_NX;
  _ ← map_kernel_virtual_range boot root_phys (text_start lay) (text_end lay) 0;
  _ ← map_kernel_virtual_range boot root_phys (rodata_start lay) (rodata_end lay) PAGE_NX;
  _ ← map_kernel_virtual_range boot root_phys (data_start lay) (data_end lay) (Z.lor PAGE_RW PAGE_NX);
  _ ← map_kernel_virtual_range boot root_phys (stack_start lay) (stack_end lay) (Z.lor PAGE_RW PAGE_NX);
  mret root_phys.

(** Result: the status, the root written through [root_phys_out], the state
    and the world. *)
Definition paging_init (lay : layout) (boot : option boot_context_t) (root_phys_out : option Z) (s : paging_state)
    (w : world) : paging_status_t * option Z * paging_state * world :=
  match boot, root_phys_out with
  | Some boot, Some _ =>
      if (kernel_phys_end boot <=? kernel_phys_start boot) || (kernel_virt_end boot <=? kernel_virt_start boot)
      then (PAGING_BAD_ARGUMENT, root_phys_out, s, w)
      else if negb (Z.land (physical_memory_offset boot) (HUGE_PAGE_SIZE - 1) =? 0)
      then (PAGING_UNSUPPORTED_LAYOUT, root_phys_out, s, w)
      else match physical_map_limit boot with
      | None => (PAGING_UNSUPPORTED_LAYOUT, root_phys_out, s, w)
      | Some new_direct_limit =>
          if UINT64_MAX - physical_memory_offset boot <? u64 (new_direct_limit - 1)
          then (PAGING_UNSUPPORTED_LAYOUT, root_phys_out, s, w)
          else match build_tables lay boot new_direct_limit w with
          | (inl status, w) => (status, root_phys_out, s, w)
          | (inr root_phys, w) =>
              (PAGING_OK, Some root_phys, mk_paging (Some boot) root_phys new_direct_limit MMIO_BASE false, w)
          end
      end
  | _, _ => (PAGING_BAD_ARGUMENT, root_phys_out, s, w)
  end.

Definition paging_current_root (s : paging_state) : Z := kernel_root s.

Definition paging_kernel_address_space (s : paging_state) : option Z :=
  if kernel_root s =? 0 then None else Some (kernel_root s).

Definition absent : paging_mapping_t := mk_mapping 0 false false false false false.

(** The mapping a present leaf entry describes. *)
Definition leaf_mapping (entry virt size : Z) (is_huge : bool) : paging_mapping_t :=
  mk_mapping (u64 (Z.land entry PAGE_MASK + Z.land virt (size - 1))) true (bit_set entry PAGE_RW)
    (negb (bit_set entry PAGE_NX)) is_huge (bit_set entry PAGE_PCD).

(** [None] for the return value 0. *)
Definition query_root (boot : option boot_context_t) (root_phys virt : Z) (m : memory) : option paging_mapping_t :=
  match boot with
  | None => None
  | Some boot =>
      if root_phys =? 0 then None
      else
        pml4 ← phys_ptr boot root_phys;
        let e1 := m (pml4 + 8 * table_index virt 39) in
        if negb (bit_set e1 PAGE_PRESENT) then Some absent
        else
          pdpt ← phys_ptr boot (Z.land e1 PAGE_MASK);
          let e2 := m (pdpt + 8 * table_index virt 30) in
          if negb (bit_set e2 PAGE_PRESENT) then Some absent
          else
            pd ← phys_ptr boot (Z.land e2 PAGE_MASK);
            let e3 := m (pd + 8 * table_index virt 21) in
            if negb (bit_set e3 PAGE_PRESENT) then Some absent
            else if bit_set e3 PAGE_PS then Some (leaf_mapping e3 virt HUGE_PAGE_SIZE true)
            else
              pt ← phys_ptr boot (Z.land e3 PAGE_MASK);
              let e4 := m (pt + 8 * table_index virt 12) in
              if negb (bit_set e4 PAGE_PRESENT) then Some absent
              else Some (leaf_mapping e4 virt PAGE_SIZE false)
  end.

Definition paging_query (s : paging_state) (virtual_address : Z) (m : memory) : option paging_mapping_t :=
  query_root (active_boot s) (kernel_root s) virtual_address m.

Definition paging_verify_kernel_layout (lay : layout) (s : paging_state) (m : memory) : bool :=
  match active_boot s with
  | None => false
  | Some boot =>
      if kernel_root s =? 0 then false
      else match paging_query s (text_start lay) m, paging_query s (rodata_start lay) m,
                 paging_query s (data_start lay) m, paging_query s (stack_start lay) m,
                 paging_query s (guard_low_start lay) m, paging_query s (guard_high_start lay) m,
                 paging_query s (address (framebuffer boot)) m with
      | Some text, Some rodata, Some data, Some stack, Some guard_low, Some guard_high, Some fb =>
          present text && negb (writable text) && executable text &&
          present rodata && negb (writable rodata) && negb (executable rodata) &&
          present data && writable data && negb (executable data) &&
          present stack && writable stack && negb (executable stack) &&
          negb (present guard_low) && negb (present guard_high) &&
          present fb && writable fb && negb (executable fb)
      | _, _, _, _, _, _, _ => false
      end
  end.

(** Virtual addresses stand for the pointers returned, [None] for null. *)
Definition paging_direct_pointer (s : paging_state) (physical_address : Z) : option Z :=
  match active_boot s with
  | None => None
  | Some boot =>
      if (direct_limit s <=? physical_address) || (UINT64_MAX - physical_memory_offset boot <? physical_address)
      then None else Some (u64 (physical_memory_offset boot + physical_address))
  end.

(** The pages of a device window; [n] are left. *)
Fixpoint mmio_pages (n : nat) (boot : boot_context_t) (root_phys virt_page phys_page done_ : Z) : paging unit :=
  match n with
  | O => mret tt
  | S n =>
      _ ← map_4k_flags boot root_phys (u64 (virt_page + done_)) (u64 (phys_page + done_))
            (Z.lor (Z.lor (Z.lor PAGE_RW PAGE_NX) PAGE_PCD) PAGE_PWT) false;
      mmio_pages n boot root_phys virt_page phys_page (u64 (done_ + PAGE_SIZE))
  end.

Definition paging_map_mmio (s : paging_state) (physical_address size : Z) (w : world) :
    option Z * paging_state * world :=
  match active_boot s with
  | None => (None, s, w)
  | Some boot =>
      if (kernel_root s =? 0) || (size =? 0) then (None, s, w)
      else
        let phys_page := align_down physical_address PAGE_SIZE in
        let offset := u64 (physical_address - phys_page) in
        if UINT64_MAX - offset <? size then (None, s, w)
        else match align_up (u64 (offset + size)) PAGE_SIZE with
        | None => (None, s, w)
        | Some span =>
            if (UINT64_MAX - mmio_next s <? span) || (MMIO_LIMIT <? u64 (mmio_next s + span)) then (None, s, w)
            else
              let virt_page := mmio_next s in
              match mmio_pages (Z.to_nat (span / PAGE_SIZE)) boot (kernel_root s) virt_page phys_page 0 w with
              | (inl _, w) => (None, s, w)
              | (inr _, w) =>
                  (Some (u64 (virt_page + offset)),
                   mk_paging (active_boot s) (kernel_root s) (direct_limit s) (u64 (mmio_next s + span)) (temp_mapped s), w)
              end
        end
  end.

Definition set_temp_mapped (s : paging_state) b : paging_state :=
  mk_paging (active_boot s) (kernel_root s) (direct_limit s) (mmio_next s) b.

Definition paging_temp_map (s : paging_state) (physical_address : Z) (w : world) : option Z * paging_state * world :=
  match active_boot s with
  | None => (None, s, w)
  | Some boot =>
      if kernel_root s =? 0 then (None, s, w)
      else
        let phys_page := align_down physical_address PAGE_SIZE in
        let offset := u64 (physical_address - phys_page) in
        match map_4k_flags boot (kernel_root s) TEMP_MAP_BASE phys_page (Z.lor (Z.lor PAGE_RW PAGE_NX) PAGE_PCD) true w with
        | (inl _, w) => (None, s, w)
        | (inr _, w) => (Some (u64 (TEMP_MAP_BASE + offset)), set_temp_mapped s true, w)
        end
  end.

Definition paging_temp_unmap (s : paging_state) (w : world) : paging_state * world :=
  match active_boot s with
  | None => (s, w)
  | Some boot =>
      if (kernel_root s =? 0) || negb (temp_mapped s) then (s, w)
      else
        let w := match pte_for_virtual boot (kernel_root s) TEMP_MAP_BASE false w with
                 | (inr pte, w) => (write pte 0 0 w).2
                 | (inl _, w) => w
                 end in
        (set_temp_mapped s false, w)
  end.

Definition paging_status_string (status : paging_status_t) : string :=
  match status with
  | PAGING_OK => "ok"
  | PAGING_BAD_ARGUMENT => "bad argument"
  | PAGING_NO_MEMORY => "no memory for page tables"
  | PAGING_UNSUPPORTED_LAYOUT => "unsupported physical/virtual layout"
  | PAGING_MAPPING_CONFLICT => "page-table mapping conflict"
  | PAGING_WINDOW_EXHAUSTED => "virtual mapping window exhausted"
  end.

Lemma store_spec (m : memory) a v b : store m a v b = if b =? a then v else m b.
Proof.
  unfold store, load. destruct (Z.eqb_spec b a) as [-> | Hne]; [by rewrite lookup_insert_eq | by rewrite lookup_insert_ne].
Qed.

(** ** Bits of table entries *)

Lemma bit_set_pow z k : 0 <= k -> bit_set z (2 ^ k) = Z.testbit z k.
Proof.
  intros Hk. unfold bit_set. destruct (Z.testbit z k) eqn:E.
  - destruct (Z.eqb_spec (Z.land z (2 ^ k)) 0) as [H0 | _]; [| done].
    assert (Z.testbit (Z.land z (2 ^ k)) k = true) as Hb by (by rewrite Z.land_spec, E, Z.pow2_bits_true).
    by rewrite H0, Z.bits_0 in Hb.
  - replace (Z.land z (2 ^ k)) with 0; [done |]. symmetry. apply Z.bits_inj'. intros n Hn.
    rewrite Z.land_spec, Z.bits_0, Z.pow2_bits_eqb by done. destruct (Z.eqb_spec k n) as [<- | _]; [by rewrite E | by rewrite andb_false_r].
Qed.

Lemma present_bit z : bit_set z PAGE_PRESENT = Z.testbit z 0.
Proof. by apply (bit_set_pow z 0). Qed.
Lemma rw_bit z : bit_set z PAGE_RW = Z.testbit z 1.
Proof. by apply (bit_set_pow z 1). Qed.
Lemma pcd_bit z : bit_set z PAGE_PCD = Z.testbit z 4.
Proof. by apply (bit_set_pow z 4). Qed.
Lemma ps_bit z : bit_set z PAGE_PS = Z.testbit z 7.
Proof. by apply (bit_set_pow z 7). Qed.
Lemma nx_bit z : bit_set z PAGE_NX = Z.testbit z 63.
Proof. by apply (bit_set_pow z 63). Qed.

(** A physical page an entry can hold. *)
Definition page_ok (phys : Z) : Prop := phys mod PAGE_SIZE = 0 /\ 0 <= phys < 2 ^ 52.

(** The bits an entry has besides its page. *)
Definition attributes (fl : Z) : Prop := forall n, Z.testbit fl n = true -> n < 12 \/ 52 <= n.

Lemma page_bits phys n : page_ok phys -> Z.testbit phys n = true -> 12 <= n < 52.
Proof.
  intros [Hal Hr] Hb. destruct (decide (n < 0)); [by rewrite Z.testbit_neg_r in Hb by done |]. split.
  - destruct (decide (12 <= n)); [done |]. exfalso. unfold PAGE_SIZE in Hal.
    assert (Z.testbit (phys mod 2 ^ 12) n = true) as Hm by (by rewrite Z.mod_pow2_bits_low by lia).
    change (2 ^ 12) with 0x1000 in Hm. by rewrite Hal, Z.bits_0 in Hm.
  - destruct (decide (n < 52)); [done |]. exfalso. rewrite <- (Z.mod_small phys (2 ^ 52)), Z.mod_pow2_bits_high in Hb by lia. done.
Qed.

Lemma mask_bits n : 0 <= n -> Z.testbit PAGE_MASK n = (12 <=? n) && (n <? 52).
Proof.
  intros Hn. change PAGE_MASK with (Z.shiftl (Z.ones 40) 12). rewrite Z.shiftl_spec by done.
  destruct (Z.leb_spec 12 n), (Z.ltb_spec n 52); cbn [andb].
  - apply Z.ones_spec_low. lia.
  - apply Z.ones_spec_high. lia.
  - apply Z.testbit_neg_r. lia.
  - lia.
Qed.

Lemma entry_page phys fl : page_ok phys -> attributes fl -> Z.land (Z.lor phys fl) PAGE_MASK = phys.
Proof.
  intros Hp Hf. apply Z.bits_inj'. intros n Hn. rewrite Z.land_spec, Z.lor_spec, mask_bits by done.
  destruct (Z.testbit phys n) eqn:E.
  - pose proof (page_bits phys n Hp E). cbn [orb]. rewrite (proj2 (Z.leb_le _ _)), (proj2 (Z.ltb_lt _ _)) by lia. done.
  - cbn [orb]. destruct (Z.testbit fl n) eqn:F; [| done]. destruct (Hf n F).
    + by rewrite (proj2 (Z.leb_gt _ _)) by lia.
    + rewrite (proj2 (Z.ltb_ge _ _)) by lia. by rewrite andb_false_r.
Qed.

(** A bit outside the page field comes from the attributes. *)
Lemma entry_bit phys fl n : page_ok phys -> n < 12 \/ 52 <= n -> Z.testbit (Z.lor phys fl) n = Z.testbit fl n.
Proof.
  intros Hp Hn. rewrite Z.lor_spec. destruct (Z.testbit phys n) eqn:E; [| done]. pose proof (page_bits phys n Hp E). lia.
Qed.

(** ** Allocating tables *)

Lemma zero_loop_in n page i m j :
  i <= j < i + Z.of_nat n -> zero_loop n page i m (page + 8 * j) = 0.
Proof.
  revert i m. induction n as [| n IH]; intros i m Hj; cbn [zero_loop]; [lia |].
  destruct (decide (j = i)) as [-> | Hne]; [| apply IH; lia]. clear IH Hj.
  assert (forall n k (m' : memory), i < k -> m' (page + 8 * i) = 0 -> zero_loop n page k m' (page + 8 * i) = 0) as H.
  { clear. induction n as [| n IH]; intros k m' Hk Hm; cbn [zero_loop]; [done |]. apply IH; [lia |].
    rewrite store_spec. destruct (Z.eqb_spec (page + 8 * i) (page + 8 * k)); [lia | done]. }
  apply H; [lia |]. rewrite store_spec. by rewrite Z.eqb_refl.
Qed.

Lemma zero_loop_out n page i m a :
  a < page + 8 * i \/ page + 8 * (i + Z.of_nat n) <= a -> zero_loop n page i m a = m a.
Proof.
  revert i m. induction n as [| n IH]; intros i m Ha; cbn [zero_loop]; [done |]. rewrite IH by lia.
  rewrite store_spec. destruct (Z.eqb_spec a (page + 8 * i)); [lia | done].
Qed.

(** A frame that can hold a table. *)
Definition frame_ok (boot : boot_context_t) (f : Z) : Prop :=
  page_ok f /\ 0 < f /\ physical_memory_offset boot + f + PAGE_SIZE <= 2 ^ 64.

(** The frames of the allocator can hold tables. *)
Definition free_ok (boot : boot_context_t) (w : world) : Prop :=
  pmm_inv (frames w) /\ forall a, covers (managed_ranges (frames w)) a -> a < 2 ^ 52 /\ physical_memory_offset boot + a < 2 ^ 64.

Lemma phys_ptr_frame boot f : 0 <= physical_memory_offset boot -> frame_ok boot f -> phys_ptr boot f = Some f.
Proof.
  intros Ho (_ & Hf & Hw). unfold phys_ptr, PAGE_SIZE, UINT64_MAX in *.
  rewrite (proj2 (Z.ltb_ge _ _)) by lia. rewrite u64_small by lia. by rewrite (proj2 (Z.eqb_neq _ _)) by lia.
Qed.

Section Tables.
Context (boot : boot_context_t) (Hoff : 0 <= physical_memory_offset boot).

Lemma table_ptr_frame f w : frame_ok boot f -> table_ptr boot f w = (inr f, w).
Proof. intros Hf. unfold table_ptr. by rewrite phys_ptr_frame. Qed.

Lemma alloc_table_spec w :
  free_ok boot w ->
  (alloc_table boot w = (inl PAGING_NO_MEMORY, w)) \/
  exists f w', alloc_table boot w = (inr f, w') /\ frame_ok boot f /\ free_ok boot w' /\
    (forall a, f <= a < f + PAGE_SIZE -> covers (free_ranges (frames w)) a) /\
    (forall a, covers (free_ranges (frames w')) a <-> covers (free_ranges (frames w)) a /\ ~ f <= a < f + PAGE_SIZE) /\
    (forall i, 0 <= i < 512 -> mem w' (f + 8 * i) = 0) /\
    (forall a, a < f \/ f + PAGE_SIZE <= a -> mem w' a = mem w a).
Proof.
  intros [Hinv Hfree]. unfold alloc_table, pmm_alloc_frame. pose proof (alloc_frames_spec (frames w) 1 Hinv ltac:(lia)) as Hspec.
  destruct (pmm_alloc_frames (frames w) 1) as [f s']. unfold alloc_post in Hspec. change PMM_INVALID_FRAME with UINT64_MAX in Hspec.
  destruct (Z.eqb_spec f UINT64_MAX) as [-> | Hne].
  { left. destruct Hspec as [-> _]. by destruct w. }
  right. destruct Hspec as (Hinv' & Hal & _ & Hrun & Hcov & Hman & _). unfold in_run in *. change PMM_PAGE_SIZE with PAGE_SIZE in *.
  rewrite Z.mul_1_l in *. change PAGE_SIZE with 0x1000 in *.
  destruct (Hfree (f + 4095)) as [H1 H2]; [apply (inv_subset _ Hinv), Hrun; lia |].
  assert (0 < f) as Hpos.
  { assert (covers (free_ranges (frames w)) f) as Hc by (apply Hrun; lia). destruct (inv_free _ Hinv) as [Hch _].
    by apply (chain_above _ _ _ Hch). }
  assert (frame_ok boot f) as Hf by (split; [split; [done | lia] | change PAGE_SIZE with 0x1000; lia]).
  exists f, (mk_world (zero_loop 512 f 0 (mem w)) s'). split.
  { unfold mbind, paging_bind, table_ptr. rewrite phys_ptr_frame by done. done. }
  split; [done |]. split; [| split; [done | split; [done |]]].
  - split; [done |]. cbn [frames]. by rewrite Hman.
  - split; cbn [mem].
    + intros i Hi. apply (zero_loop_in 512 f 0). lia.
    + intros a Ha. change PAGE_SIZE with 0x1000 in Ha. apply zero_loop_out. lia.
Qed.

(** ** The tree of tables *)

(** An entry that points to the table [f]. *)
Definition points_to (e f : Z) : Prop :=
  bit_set e PAGE_PRESENT = true /\ bit_set e PAGE_PS = false /\ Z.land e PAGE_MASK = f.

(** [T] gives the frame of every table by the indices that lead to it.  No two
    tables share a frame, none is free memory, and the entries of the upper
    levels are exactly the edges of the tree, or large pages in the third. *)
Record space_ok (root : Z) (w : world) (T : gmap (list Z) Z) : Prop := {
  sp_root : T !! [] = Some root;
  sp_frame : forall p f, T !! p = Some f -> frame_ok boot f;
  sp_used : forall p f a, T !! p = Some f -> f <= a < f + PAGE_SIZE -> ~ covers (free_ranges (frames w)) a;
  sp_inj : forall p q f, T !! p = Some f -> T !! q = Some f -> p = q;
  sp_edge : forall p i f, T !! (p ++ [i]) = Some f ->
    (length p < 3)%nat /\ 0 <= i < 512 /\ exists g, T !! p = Some g /\ points_to (mem w (g + 8 * i)) f;
  sp_entry : forall p f i, T !! p = Some f -> (length p < 3)%nat -> 0 <= i < 512 ->
    bit_set (mem w (f + 8 * i)) PAGE_PRESENT = true ->
    T !! (p ++ [i]) = Some (Z.land (mem w (f + 8 * i)) PAGE_MASK) /\ bit_set (mem w (f + 8 * i)) PAGE_PS = false \/
    length p = 2%nat /\ bit_set (mem w (f + 8 * i)) PAGE_PS = true;
  sp_free : free_ok boot w
}.

(** The leaf entry that translates [v], and whether it is a large page. *)
Definition leaf (m : memory) (root v : Z) : option (Z * bool) :=
  let e1 := m (root + 8 * table_index v 39) in
  if negb (bit_set e1 PAGE_PRESENT) then None else
  let e2 := m (Z.land e1 PAGE_MASK + 8 * table_index v 30) in
  if negb (bit_set e2 PAGE_PRESENT) then None else
  let e3 := m (Z.land e2 PAGE_MASK + 8 * table_index v 21) in
  if negb (bit_set e3 PAGE_PRESENT) then None else
  if bit_set e3 PAGE_PS then Some (e3, true) else
  let e4 := m (Z.land e3 PAGE_MASK + 8 * table_index v 12) in
  if negb (bit_set e4 PAGE_PRESENT) then None else Some (e4, false).

Lemma table_index_range v s : 0 <= table_index v s < 512.
Proof.
  unfold table_index. change 0x1ff with (2 ^ 9 - 1). rewrite land_low_mask by lia. by apply Z.mod_pos_bound.
Qed.

(** The leaf, read off the tree. *)
Definition tree_leaf (m : memory) (T : gmap (list Z) Z) (v : Z) : option (Z * bool) :=
  match T !! [table_index v 39; table_index v 30; table_index v 21] with
  | Some pt =>
      let e := m (pt + 8 * table_index v 12) in
      if bit_set e PAGE_PRESENT then Some (e, false) else None
  | None =>
      match T !! [table_index v 39; table_index v 30] with
      | Some pd =>
          let e := m (pd + 8 * table_index v 21) in
          if bit_set e PAGE_PRESENT && bit_set e PAGE_PS then Some (e, true) else None
      | None => None
      end
  end.

Lemma leaf_tree root w T v : space_ok root w T -> leaf (mem w) root v = tree_leaf (mem w) T v.
Proof.
  intros H. unfold leaf, tree_leaf.
  set (i4 := table_index v 39). set (i3 := table_index v 30). set (i2 := table_index v 21).
  pose proof (table_index_range v 39) as H4. pose proof (table_index_range v 30) as H3. pose proof (table_index_range v 21) as H2.
  pose proof (sp_root _ _ _ H) as Hroot.
  destruct (bit_set (mem w (root + 8 * i4)) PAGE_PRESENT) eqn:P1; cbn [negb].
  2: { assert (T !! [i4] = None) as N1.
       { destruct (T !! [i4]) as [f |] eqn:E; [| done]. destruct (sp_edge _ _ _ H [] i4 f E) as (_ & _ & g & Hg & Hp & _). congruence. }
       assert (T !! [i4; i3] = None) as N2.
       { destruct (T !! [i4; i3]) as [f |] eqn:E; [| done]. destruct (sp_edge _ _ _ H [i4] i3 f E) as (_ & _ & g & Hg & _). congruence. }
       destruct (T !! [i4; i3; i2]) as [f |] eqn:E; [| by rewrite N2].
       destruct (sp_edge _ _ _ H [i4; i3] i2 f E) as (_ & _ & g & Hg & _). congruence. }
  destruct (sp_entry _ _ _ H [] root i4 Hroot ltac:(cbn; lia) H4 P1) as [[E1 _] | [? _]]; [| done]. cbn [app] in E1.
  set (f1 := Z.land (mem w (root + 8 * i4)) PAGE_MASK) in *.
  destruct (bit_set (mem w (f1 + 8 * i3)) PAGE_PRESENT) eqn:P2; cbn [negb].
  2: { assert (T !! [i4; i3] = None) as N2.
       { destruct (T !! [i4; i3]) as [f |] eqn:E; [| done].
         destruct (sp_edge _ _ _ H [i4] i3 f E) as (_ & _ & g & Hg & Hp & _). assert (g = f1) as -> by congruence. congruence. }
       destruct (T !! [i4; i3; i2]) as [f |] eqn:E; [| by rewrite N2].
       destruct (sp_edge _ _ _ H [i4; i3] i2 f E) as (_ & _ & g & Hg & _). congruence. }
  destruct (sp_entry _ _ _ H [i4] f1 i3 E1 ltac:(cbn; lia) H3 P2) as [[E2 _] | [? _]]; [| done]. cbn [app] in E2.
  set (f2 := Z.land (mem w (f1 + 8 * i3)) PAGE_MASK) in *. rewrite E2.
  destruct (bit_set (mem w (f2 + 8 * i2)) PAGE_PRESENT) eqn:P3; cbn [negb andb].
  2: { destruct (T !! [i4; i3; i2]) as [f |] eqn:E; [| done].
       destruct (sp_edge _ _ _ H [i4; i3] i2 f E) as (_ & _ & g & Hg & Hp & _). assert (g = f2) as -> by congruence. congruence. }
  destruct (sp_entry _ _ _ H [i4; i3] f2 i2 E2 ltac:(cbn; lia) H2 P3) as [[E3 S3] | [_ S3]]; cbn [app] in *; rewrite S3.
  - rewrite E3. cbv zeta. match goal with |- context [bit_set ?e PAGE_PRESENT] => by destruct (bit_set e PAGE_PRESENT) end.
  - destruct (T !! [i4; i3; i2]) as [f |] eqn:E; [| done].
    destruct (sp_edge _ _ _ H [i4; i3] i2 f E) as (_ & _ & g & Hg & _ & Hs & _). assert (g = f2) as -> by congruence. congruence.
Qed.

(** What a query answers, from the leaf. *)
Lemma query_leaf root w T v :
  space_ok root w T ->
  query_root (Some boot) root v (mem w) =
    Some (match leaf (mem w) root v with
          | None => absent
          | Some (e, h) => leaf_mapping e v (if h : bool then HUGE_PAGE_SIZE else PAGE_SIZE) h
          end).
Proof.
  intros H. unfold query_root, leaf. pose proof (sp_root _ _ _ H) as Hroot. pose proof (sp_frame _ _ _ H _ _ Hroot) as Hf.
  rewrite (proj2 (Z.eqb_neq _ _)) by (destruct Hf; lia). rewrite phys_ptr_frame by done. cbn [mbind option_bind].
  pose proof (table_index_range v 39) as H4. pose proof (table_index_range v 30) as H3. pose proof (table_index_range v 21) as H2.
  destruct (bit_set (mem w (root + 8 * table_index v 39)) PAGE_PRESENT) eqn:P1; cbn [negb]; [| done].
  destruct (sp_entry _ _ _ H [] root _ Hroot ltac:(cbn; lia) H4 P1) as [[E1 _] | [? _]]; [| done].
  rewrite phys_ptr_frame by (done || by apply (sp_frame _ _ _ H _ _ E1)). cbn [mbind option_bind].
  destruct (bit_set (mem w (Z.land (mem w (root + 8 * table_index v 39)) PAGE_MASK + 8 * table_index v 30)) PAGE_PRESENT) eqn:P2;
    cbn [negb]; [| done].
  destruct (sp_entry _ _ _ H _ _ _ E1 ltac:(cbn; lia) H3 P2) as [[E2 _] | [? _]]; [| done].
  rewrite phys_ptr_frame by (done || by apply (sp_frame _ _ _ H _ _ E2)). cbn [mbind option_bind].
  match goal with |- context [negb (bit_set ?e3 PAGE_PRESENT)] => destruct (bit_set e3 PAGE_PRESENT) eqn:P3 end; cbn [negb]; [| done].
  destruct (sp_entry _ _ _ H _ _ _ E2 ltac:(cbn; lia) H2 P3) as [[E3 S3] | [_ S3]]; rewrite S3; [| done].
  rewrite phys_ptr_frame by (done || by apply (sp_frame _ _ _ H _ _ E3)). cbn [mbind option_bind].
  cbv zeta. match goal with |- context [negb (bit_set ?e PAGE_PRESENT)] => by destruct (bit_set e PAGE_PRESENT) end.
Qed.

Lemma frame_words f g i j :
  page_ok f -> page_ok g -> 0 <= i < 512 -> 0 <= j < 512 -> f + 8 * i = g + 8 * j -> f = g /\ i = j.
Proof.
  intros [Hf _] [Hg _] Hi Hj E. unfold PAGE_SIZE in *. pose proof (Z.div_mod f 0x1000). pose proof (Z.div_mod g 0x1000). lia.
Qed.

Lemma frames_apart f g a : page_ok f -> page_ok g -> f <> g -> f <= a < f + PAGE_SIZE -> a < g \/ g + PAGE_SIZE <= a.
Proof.
  intros [Hf _] [Hg _] Hne Ha. unfold PAGE_SIZE in *. pose proof (Z.div_mod f 0x1000). pose proof (Z.div_mod g 0x1000). lia.
Qed.

Lemma table_word f i : 0 <= i < 512 -> f <= f + 8 * i < f + PAGE_SIZE.
Proof. unfold PAGE_SIZE. lia. Qed.

Lemma bit_set_0 k : bit_set 0 k = false.
Proof. done. Qed.

(** The entry made for a new table. *)
Lemma table_entry_points g : page_ok g -> points_to (Z.lor (Z.lor g PAGE_PRESENT) PAGE_RW) g.
Proof.
  intros Hg. rewrite <- Z.lor_assoc. change (Z.lor PAGE_PRESENT PAGE_RW) with 3.
  assert (attributes 3) as Ha.
  { intros n Hn. destruct (decide (n < 12)); [by left |]. exfalso.
    rewrite <- (Z.mod_small 3 (2 ^ 12)), Z.mod_pow2_bits_high in Hn by lia. done. }
  split; [by rewrite present_bit, entry_bit by (done || lia) |]. split; [by rewrite ps_bit, entry_bit by (done || lia) |].
  by apply entry_page.
Qed.

(** Adding the table [g] to the tree, below [f] at [i]. *)
Section Grow.
Context (root : Z) (w w' : world) (T : gmap (list Z) Z) (p : list Z) (f i g : Z).
Context (H : space_ok root w T) (Hp : T !! p = Some f) (Hlen : (length p < 3)%nat) (Hi : 0 <= i < 512).
Context (Habs : bit_set (mem w (f + 8 * i)) PAGE_PRESENT = false).
Context (Hg : frame_ok boot g) (Hfree' : free_ok boot w').
Context (Hgfree : forall a, g <= a < g + PAGE_SIZE -> covers (free_ranges (frames w)) a).
Context (Hfree : forall a, covers (free_ranges (frames w')) a <-> covers (free_ranges (frames w)) a /\ ~ g <= a < g + PAGE_SIZE).
Context (Hzero : forall j, 0 <= j < 512 -> mem w' (g + 8 * j) = 0).
Context (Hkeep : forall a, a < g \/ g + PAGE_SIZE <= a -> mem w' a = mem w a).
#[local] Abbreviation e := (Z.lor (Z.lor g PAGE_PRESENT) PAGE_RW).
#[local] Abbreviation w2 := (mk_world (store (mem w') (f + 8 * i) e) (frames w')).
#[local] Abbreviation T2 := (<[p ++ [i] := g]> T).

Lemma grow_none : T !! (p ++ [i]) = None.
Proof.
  destruct (T !! (p ++ [i])) as [h |] eqn:E; [| done].
  destruct (sp_edge _ _ _ H p i h E) as (_ & _ & f' & Hf' & Hpr & _). assert (f' = f) as -> by congruence. congruence.
Qed.

Lemma grow_fresh q h : T !! q = Some h -> h <> g.
Proof.
  intros Hq ->. apply (sp_used _ _ _ H q g g Hq); [unfold PAGE_SIZE; lia |]. apply Hgfree. unfold PAGE_SIZE. lia.
Qed.

(** The words of the old tables keep their values, but for the new entry. *)
Lemma grow_word q h j :
  T !! q = Some h -> 0 <= j < 512 -> q <> p \/ j <> i -> mem w2 (h + 8 * j) = mem w (h + 8 * j).
Proof.
  intros Hq Hj Hne. pose proof (sp_frame _ _ _ H _ _ Hq) as [Hh _]. pose proof (sp_frame _ _ _ H _ _ Hp) as [Hf _].
  cbn [mem]. rewrite store_spec. destruct (Z.eqb_spec (h + 8 * j) (f + 8 * i)) as [E | _].
  - destruct (frame_words h f j i Hh Hf Hj Hi E) as [-> ->]. pose proof (sp_inj _ _ _ H _ _ _ Hq Hp). destruct Hne; done.
  - apply Hkeep. apply (frames_apart h); [done | by destruct Hg | by eapply grow_fresh | by apply table_word].
Qed.

Lemma grow_new j : 0 <= j < 512 -> mem w2 (g + 8 * j) = 0.
Proof.
  intros Hj. cbn [mem]. rewrite store_spec. destruct (Z.eqb_spec (g + 8 * j) (f + 8 * i)) as [E | _]; [| by apply Hzero].
  pose proof (sp_frame _ _ _ H _ _ Hp) as [Hf _]. destruct Hg as [Hg' _].
  destruct (frame_words g f j i Hg' Hf Hj Hi E) as [E' _]. by destruct (grow_fresh p f Hp).
Qed.

Lemma grow_lookup q h : T2 !! q = Some h -> q = p ++ [i] /\ h = g \/ q <> p ++ [i] /\ T !! q = Some h.
Proof. rewrite lookup_insert_Some. intros [[<- <-] | [Hne Hq]]; [by left | right]. split; [by intros -> | done]. Qed.

Lemma snoc_ne q j : q ++ [j] <> p ++ [i] -> q <> p \/ j <> i.
Proof.
  intros Hne. destruct (decide (q = p)) as [-> | ?]; [right | by left]. by intros ->.
Qed.

Lemma grow_ok : space_ok root w2 T2.
Proof.
  split.
  - rewrite lookup_insert_ne; [apply (sp_root _ _ _ H) |]. by destruct p.
  - intros q h [[_ ->] | [_ Hq]]%grow_lookup; [done | by apply (sp_frame _ _ _ H q)].
  - intros q h a [[_ ->] | [_ Hq]]%grow_lookup Ha; cbn [frames]; rewrite Hfree; [tauto |].
    intros [Hc _]. by apply (sp_used _ _ _ H q h a Hq Ha).
  - intros q1 q2 h [[-> ->] | [_ H1]]%grow_lookup [[-> E] | [_ H2]]%grow_lookup; [done | | |].
    + by destruct (grow_fresh q2 g H2).
    + subst h. by destruct (grow_fresh q1 g H1).
    + by apply (sp_inj _ _ _ H q1 q2 h).
  - intros q j h [[E ->] | [Hne Hq]]%grow_lookup.
    + apply app_inj_tail in E as [-> ->]. split; [done |]. split; [done |]. exists f. split.
      * rewrite lookup_insert_ne; [done |]. intros E%(f_equal length). rewrite length_app in E. cbn in E. lia.
      * cbn [mem]. rewrite store_spec. rewrite Z.eqb_refl. apply table_entry_points. by destruct Hg.
    + destruct (sp_edge _ _ _ H q j h Hq) as (Hl & Hj & h' & Hh' & Hpt). split; [done |]. split; [done |]. exists h'. split.
      * rewrite lookup_insert_ne; [done |]. intros <-. by rewrite grow_none in Hh'.
      * by rewrite (grow_word q h' j Hh' Hj (snoc_ne q j Hne)).
  - intros q h j [[-> ->] | [Hne Hq]]%grow_lookup Hl Hj; [by rewrite grow_new, bit_set_0 |].
    destruct (decide (q ++ [j] = p ++ [i])) as [E | Hn2].
    + apply app_inj_tail in E as [-> ->]. assert (h = f) as -> by congruence. intros _. left.
      cbn [mem]. rewrite store_spec. rewrite Z.eqb_refl. destruct (table_entry_points g) as (_ & Hs & ->); [by destruct Hg |].
      by rewrite lookup_insert_eq.
    + rewrite (grow_word q h j Hq Hj (snoc_ne q j Hn2)). rewrite lookup_insert_ne by done. by apply (sp_entry _ _ _ H).
  - split; [apply Hfree' |]. apply Hfree'.
Qed.

(** No translation changes. *)
Lemma grow_leaf v : leaf (mem w2) root v = leaf (mem w) root v.
Proof.
  rewrite (leaf_tree root w2 T2 v grow_ok), (leaf_tree root w T v H). unfold tree_leaf.
  pose proof (table_index_range v 21) as H2. pose proof (table_index_range v 12) as H1.
  set (i4 := table_index v 39). set (i3 := table_index v 30). set (i2 := table_index v 21) in *. set (i1 := table_index v 12) in *.
  destruct (decide ([i4; i3; i2] = p ++ [i])) as [E | Hne3].
  - rewrite E, lookup_insert_eq, grow_none. cbv zeta. rewrite grow_new, bit_set_0 by done.
    assert (p = [i4; i3] /\ i = i2) as [Hp2 Hi2] by (change [i4; i3; i2] with ([i4; i3] ++ [i2]) in E; by apply app_inj_tail in E as [<- <-]).
    rewrite <- Hp2, Hp, <- Hi2. by rewrite Habs.
  - rewrite (lookup_insert_ne _ _ [i4; i3; i2]) by done. destruct (T !! [i4; i3; i2]) as [pt |] eqn:E3.
    + rewrite (grow_word _ _ _ E3 H1); [done |]. left. intros E. rewrite <- E in Hlen. cbn in Hlen. lia.
    + destruct (decide ([i4; i3] = p ++ [i])) as [E | Hne2].
      * rewrite E, lookup_insert_eq, grow_none. cbv zeta. by rewrite grow_new, bit_set_0.
      * rewrite lookup_insert_ne by done. destruct (T !! [i4; i3]) as [pd |] eqn:E2; [| done].
        rewrite (grow_word _ _ _ E2 H2); [done |]. apply (snoc_ne [i4; i3] i2). exact Hne3.
Qed.
End Grow.

(** ** Walking the tree *)

(** Every address translates as before. *)
Definition same_leaves (root : Z) (w w' : world) : Prop := forall v, leaf (mem w') root v = leaf (mem w) root v.

Lemma ensure_table_spec root w T p f i :
  space_ok root w T -> T !! p = Some f -> (length p < 3)%nat -> 0 <= i < 512 ->
  exists r w' T', ensure_table boot f i w = (r, w') /\ space_ok root w' T' /\ T ⊆ T' /\ same_leaves root w w' /\
    match r with inr g => T' !! (p ++ [i]) = Some g | inl _ => True end.
Proof.
  intros H Hp Hlen Hi. unfold ensure_table, mbind, paging_bind.
  rewrite table_ptr_frame by (by apply (sp_frame _ _ _ H p)). unfold read at 1.
  destruct (bit_set (mem w (f + 8 * i)) PAGE_PRESENT) eqn:Hpr.
  - destruct (sp_entry _ _ _ H p f i Hp Hlen Hi Hpr) as [[E ->] | [_ ->]]; by eexists _, w, T.
  - destruct (alloc_table_spec w (sp_free _ _ _ H)) as [-> | (g & w' & -> & Hg & Hfree' & Hgf & Hfr & Hz & Hk)]; [by eexists _, w, T |].
    eexists _, _, (<[p ++ [i] := g]> T). split; [done |]. split; [by apply (grow_ok root w w' T p f i g) |].
    split; [apply insert_subseteq; by apply (grow_none root w T p f i) |].
    split; [intros v; by apply (grow_leaf root w w' T p f i g) |]. by rewrite lookup_insert_eq.
Qed.

Lemma next_table_spec root w T p f i create :
  space_ok root w T -> T !! p = Some f -> (length p < 3)%nat -> 0 <= i < 512 ->
  exists r w' T', next_table boot f i create w = (r, w') /\ space_ok root w' T' /\ T ⊆ T' /\ same_leaves root w w' /\
    (create = false -> w' = w /\ T' = T) /\
    match r with inr g => T' !! (p ++ [i]) = Some g | inl _ => True end.
Proof.
  intros H Hp Hlen Hi. unfold next_table. destruct create.
  { destruct (ensure_table_spec root w T p f i H Hp Hlen Hi) as (r & w' & T' & ? & ? & ? & ? & ?). by exists r, w', T'. }
  unfold mbind, paging_bind, read. destruct (bit_set (mem w (f + 8 * i)) PAGE_PRESENT) eqn:Hpr; cbn [negb orb]; [| by eexists _, w, T].
  destruct (sp_entry _ _ _ H p f i Hp Hlen Hi Hpr) as [[E ->] | [_ ->]]; by eexists _, w, T.
Qed.

Lemma same_leaves_trans root w1 w2 w3 : same_leaves root w1 w2 -> same_leaves root w2 w3 -> same_leaves root w1 w3.
Proof. intros H1 H2 v. by rewrite H2, H1. Qed.

Definition path (v : Z) : list Z := [table_index v 39; table_index v 30; table_index v 21].

Lemma pte_spec root w T virt create :
  space_ok root w T ->
  exists r w' T', pte_for_virtual boot root virt create w = (r, w') /\ space_ok root w' T' /\ T ⊆ T' /\ same_leaves root w w' /\
    (create = false -> w' = w /\ T' = T) /\
    match r with inr pte => exists pt, T' !! path virt = Some pt /\ pte = pt + 8 * table_index virt 12 | inl _ => True end.
Proof.
  intros H. unfold pte_for_virtual, mbind, paging_bind.
  rewrite table_ptr_frame by (by apply (sp_frame _ _ _ H _ _ (sp_root _ _ _ H))).
  destruct (next_table_spec root w T [] root (table_index virt 39) create H (sp_root _ _ _ H) ltac:(cbn; lia) (table_index_range _ _))
    as ([st | f1] & w1 & T1 & -> & S1 & I1 & L1 & C1 & R1); [by exists (inl st), w1, T1 |]. cbn [app] in R1.
  rewrite table_ptr_frame by (by apply (sp_frame _ _ _ S1 _ _ R1)).
  destruct (next_table_spec root w1 T1 [table_index virt 39] f1 (table_index virt 30) create S1 R1 ltac:(cbn; lia) (table_index_range _ _))
    as (r2 & w2 & T2 & -> & S2 & I2 & L2 & C2 & R2).
  assert (same_leaves root w w2) as L12 by (by eapply same_leaves_trans).
  assert (create = false -> w2 = w /\ T2 = T) as C12.
  { intros Hc. destruct (C1 Hc) as [-> ->], (C2 Hc) as [-> ->]. done. }
  assert (T ⊆ T2) as I12 by (by etrans).
  destruct r2 as [st | f2]; [by exists (inl st), w2, T2 |]. cbn [app] in R2.
  rewrite table_ptr_frame by (by apply (sp_frame _ _ _ S2 _ _ R2)). unfold read at 1.
  destruct (bit_set _ PAGE_PS); [by exists (inl PAGING_MAPPING_CONFLICT), w2, T2 |].
  destruct (next_table_spec root w2 T2 [table_index virt 39; table_index virt 30] f2 (table_index virt 21) create S2 R2 ltac:(cbn; lia) (table_index_range _ _))
    as (r3 & w3 & T3 & -> & S3 & I3 & L3 & C3 & R3).
  assert (same_leaves root w w3) as L13 by (by eapply same_leaves_trans).
  assert (create = false -> w3 = w /\ T3 = T) as C13.
  { intros Hc. destruct (C12 Hc) as [-> ->], (C3 Hc) as [-> ->]. done. }
  assert (T ⊆ T3) as I13 by (by etrans).
  destruct r3 as [st | f3]; [by exists (inl st), w3, T3 |]. cbn [app] in R3.
  rewrite table_ptr_frame by (by apply (sp_frame _ _ _ S3 _ _ R3)).
  eexists _, w3, T3. split; [done |]. do 4 (split; [done |]). by exists f3.
Qed.

Definition set_word (w : world) (a x : Z) : world := mk_world (store (mem w) a x) (frames w).

(** Another table's words, or another word of this table. *)
Lemma set_word_other root w T p f i x q h j :
  space_ok root w T -> T !! p = Some f -> 0 <= i < 512 -> T !! q = Some h -> 0 <= j < 512 -> q <> p \/ j <> i ->
  mem (set_word w (f + 8 * i) x) (h + 8 * j) = mem w (h + 8 * j).
Proof.
  intros H Hp Hi Hq Hj Hne. pose proof (sp_frame _ _ _ H _ _ Hq) as [Hh _]. pose proof (sp_frame _ _ _ H _ _ Hp) as [Hf _].
  cbn [set_word mem]. rewrite store_spec. destruct (Z.eqb_spec (h + 8 * j) (f + 8 * i)) as [E | _]; [| done].
  destruct (frame_words h f j i Hh Hf Hj Hi E) as [-> ->]. pose proof (sp_inj _ _ _ H _ _ _ Hq Hp). destruct Hne; done.
Qed.

Lemma set_word_same w a x : mem (set_word w a x) a = x.
Proof. cbn. rewrite store_spec. by rewrite Z.eqb_refl. Qed.

(** Writing an entry that keeps the tree: of a page table, or a large page
    where there is no table. *)
Lemma set_word_ok root w T p f i x :
  space_ok root w T -> T !! p = Some f -> 0 <= i < 512 ->
  length p = 3%nat \/ length p = 2%nat /\ T !! (p ++ [i]) = None /\ bit_set x PAGE_PS = true ->
  space_ok root (set_word w (f + 8 * i) x) T.
Proof.
  intros H Hp Hi Hcase. split; try apply H.
  - intros q j h Hq. destruct (sp_edge _ _ _ H q j h Hq) as (Hl & Hj & g & Hg & Hpt). split; [done |]. split; [done |].
    exists g. split; [done |]. rewrite (set_word_other root w T p f i x q g j); try done.
    destruct (decide (q = p)) as [-> | ?]; [right | by left]. intros ->. destruct Hcase as [E | (_ & E & _)]; [lia | congruence].
  - intros q h j Hq Hl Hj. destruct (decide (q = p /\ j = i)) as [[-> ->] | Hne].
    + assert (h = f) as -> by congruence. rewrite set_word_same. intros _. destruct Hcase as [E | (E & _ & Hs)]; [lia | by right].
    + rewrite (set_word_other root w T p f i x q h j); try done; [by apply (sp_entry _ _ _ H) |].
      destruct (decide (q = p)) as [-> | ?]; [right | by left]. intros ->. by apply Hne.
Qed.

(** Two addresses of one page. *)
Definition same_page (v v' : Z) : Prop := path v = path v' /\ table_index v 12 = table_index v' 12.

#[local] Instance same_page_dec v v' : Decision (same_page v v').
Proof. unfold same_page. apply _. Defined.

Lemma set_pte_leaf root w T virt pt x v :
  space_ok root w T -> T !! path virt = Some pt ->
  leaf (mem (set_word w (pt + 8 * table_index virt 12) x)) root v =
    if decide (same_page v virt) then (if bit_set x PAGE_PRESENT then Some (x, false) else None)
    else leaf (mem w) root v.
Proof.
  intros H Hpt. pose proof (table_index_range virt 12) as Hi.
  rewrite (leaf_tree root _ T) by (apply set_word_ok with (p := path virt); [done | done | done | by left]).
  rewrite (leaf_tree root w T) by done. unfold tree_leaf. fold (path v).
  destruct (decide (same_page v virt)) as [[E Ei] | Hd].
  - rewrite E, Hpt. cbv zeta. by rewrite Ei, set_word_same.
  - destruct (T !! path v) as [pt' |] eqn:Ev.
    + rewrite (set_word_other root w T (path virt) pt _ x (path v) pt'); try done; [apply table_index_range |].
      destruct (decide (path v = path virt)) as [E | ?]; [right | by left]. intros Ei. by apply Hd.
    + destruct (T !! [table_index v 39; table_index v 30]) as [pd |] eqn:Epd; [| done].
      by rewrite (set_word_other root w T (path virt) pt _ x [table_index v 39; table_index v 30] pd); try done; [apply table_index_range | left].
Qed.

Lemma set_pde_leaf root w T virt pd x v :
  space_ok root w T -> T !! [table_index virt 39; table_index virt 30] = Some pd -> T !! path virt = None ->
  bit_set x PAGE_PRESENT = true -> bit_set x PAGE_PS = true ->
  leaf (mem (set_word w (pd + 8 * table_index virt 21) x)) root v =
    if decide (path v = path virt) then Some (x, true) else leaf (mem w) root v.
Proof.
  intros H Hpd Hnone Hpr Hps. pose proof (table_index_range virt 21) as Hi.
  rewrite (leaf_tree root _ T) by (apply set_word_ok with (p := [table_index virt 39; table_index virt 30]); [done | done | done | by right]).
  rewrite (leaf_tree root w T) by done. unfold tree_leaf. fold (path v).
  destruct (decide (path v = path virt)) as [E | Hne].
  - rewrite E, Hnone. unfold path in E. injection E as -> -> ->. rewrite Hpd. cbv zeta. by rewrite set_word_same, Hpr, Hps.
  - destruct (T !! path v) as [pt' |] eqn:Ev.
    + by rewrite (set_word_other root w T [table_index virt 39; table_index virt 30] pd _ x (path v) pt'); try done;
        [apply table_index_range | left].
    + destruct (T !! [table_index v 39; table_index v 30]) as [pd' |] eqn:Epd; [| done].
      rewrite (set_word_other root w T [table_index virt 39; table_index virt 30] pd _ x [table_index v 39; table_index v 30] pd');
        try done; [apply table_index_range |].
      destruct (decide ([table_index v 39; table_index v 30] = [table_index virt 39; table_index virt 30])) as [E | ?]; [right | by left].
      intros E2. apply Hne. unfold path. injection E as -> ->. by rewrite E2.
Qed.

(** ** Mapping *)

Definition space (root : Z) (w : world) : Prop := exists T, space_ok root w T.

(** Flags are a choice of writable, write-through, uncached and no-execute. *)
Definition flags_ok (flags : Z) : Prop := forall n, Z.testbit flags n = true -> n = 1 \/ n = 3 \/ n = 4 \/ n = 63.

Definition entry_4k (phys flags : Z) : Z := Z.lor (Z.lor phys PAGE_PRESENT) flags.
Definition entry_2m (phys flags : Z) : Z := Z.lor (Z.lor (Z.lor phys PAGE_PRESENT) PAGE_PS) flags.

Lemma entry_4k_present phys flags : bit_set (entry_4k phys flags) PAGE_PRESENT = true.
Proof. rewrite present_bit. unfold entry_4k. rewrite !Z.lor_spec. change (Z.testbit PAGE_PRESENT 0) with true. by rewrite orb_true_r. Qed.

Lemma entry_2m_present phys flags : bit_set (entry_2m phys flags) PAGE_PRESENT = true /\ bit_set (entry_2m phys flags) PAGE_PS = true.
Proof.
  rewrite present_bit, ps_bit. unfold entry_2m. rewrite !Z.lor_spec. change (Z.testbit PAGE_PRESENT 0) with true.
  change (Z.testbit PAGE_PS 7) with true. by rewrite !orb_true_r.
Qed.

Lemma map_4k_spec root w virt phys flags replace :
  space root w ->
  exists r w', map_4k_flags boot root virt phys flags replace w = (r, w') /\ space root w' /\
    match r with
    | inl _ => same_leaves root w w'
    | inr _ => Z.land virt (PAGE_SIZE - 1) = 0 /\ Z.land phys (PAGE_SIZE - 1) = 0 /\
        (forall v, leaf (mem w') root v = if decide (same_page v virt) then Some (entry_4k phys flags, false) else leaf (mem w) root v) /\
        (replace = false -> leaf (mem w) root virt = None \/ leaf (mem w) root virt = Some (entry_4k phys flags, false))
    end.
Proof.
  intros [T H]. unfold map_4k_flags. if_case; [by eexists _, w; split; [| split; [exists T |]] |].
  apply orb_false_iff in E as [E1 E2]. bool_cases. unfold mbind, paging_bind.
  destruct (pte_spec root w T virt true H) as (r & w1 & T1 & -> & S1 & _ & L1 & _ & R1).
  destruct r as [st | pte]; [by eexists _, w1; split; [| split; [exists T1 |]] |]. destruct R1 as (pt & Hpt & ->).
  unfold read at 1. rewrite Z.mul_0_r, Z.add_0_r. fold (entry_4k phys flags).
  set (e0 := mem w1 (pt + 8 * table_index virt 12)).
  assert (leaf (mem w) root virt = if bit_set e0 PAGE_PRESENT then Some (e0, false) else None) as Hleaf.
  { rewrite <- (L1 virt), (leaf_tree root w1 T1) by done. unfold tree_leaf. fold (path virt). by rewrite Hpt. }
  destruct (bit_set e0 PAGE_PRESENT && negb (e0 =? entry_4k phys flags) && negb replace) eqn:Ec;
    [by eexists _, w1; split; [| split; [exists T1 |]] |].
  eexists _, _. unfold write. rewrite Z.mul_0_r, Z.add_0_r. split; [done |].
  fold (set_word w1 (pt + 8 * table_index virt 12) (entry_4k phys flags)). split.
  { exists T1. apply set_word_ok with (p := path virt); [done | done | apply table_index_range | by left]. }
  split; [done |]. split; [done |]. split.
  - intros v. rewrite (set_pte_leaf root w1 T1) by done. rewrite entry_4k_present. by rewrite (L1 v).
  - intros ->. rewrite Hleaf. destruct (bit_set e0 PAGE_PRESENT); [right | by left]. cbn [andb negb] in Ec.
    rewrite andb_true_r in Ec. bool_cases. congruence.
Qed.

Lemma map_2m_spec root w virt phys flags :
  space root w ->
  exists r w', map_2m_flags boot root virt phys flags w = (r, w') /\ space root w' /\
    match r with
    | inl _ => same_leaves root w w'
    | inr _ => Z.land virt (HUGE_PAGE_SIZE - 1) = 0 /\ Z.land phys (HUGE_PAGE_SIZE - 1) = 0 /\
        (forall v, leaf (mem w') root v = if decide (path v = path virt) then Some (entry_2m phys flags, true) else leaf (mem w) root v) /\
        forall v, path v = path virt -> leaf (mem w) root v = None \/ leaf (mem w) root v = Some (entry_2m phys flags, true)
    end.
Proof.
  intros [T H]. unfold map_2m_flags. if_case; [by eexists _, w; split; [| split; [exists T |]] |].
  apply orb_false_iff in E as [E1 E2]. bool_cases. unfold mbind, paging_bind.
  destruct (ensure_table_spec root w T [] root (table_index virt 39) H (sp_root _ _ _ H) ltac:(cbn; lia) (table_index_range _ _))
    as ([st | f1] & w1 & T1 & -> & S1 & _ & L1 & R1); [by eexists _, w1; split; [| split; [exists T1 |]] |]. cbn [app] in R1.
  destruct (ensure_table_spec root w1 T1 [table_index virt 39] f1 (table_index virt 30) S1 R1 ltac:(cbn; lia) (table_index_range _ _))
    as (r2 & w2 & T2 & -> & S2 & _ & L2 & R2).
  assert (same_leaves root w w2) as L by (by eapply same_leaves_trans).
  destruct r2 as [st | f2]; [by eexists _, w2; split; [| split; [exists T2 |]] |]. cbn [app] in R2.
  rewrite table_ptr_frame by (by apply (sp_frame _ _ _ S2 _ _ R2)). unfold read at 1. fold (entry_2m phys flags).
  set (e0 := mem w2 (f2 + 8 * table_index virt 21)). destruct (entry_2m_present phys flags) as [Hpr Hps].
  destruct (bit_set e0 PAGE_PRESENT && negb (e0 =? entry_2m phys flags)) eqn:Ec;
    [by eexists _, w2; split; [| split; [exists T2 |]] |].
  assert (T2 !! path virt = None) as Hnone.
  { destruct (T2 !! path virt) as [h |] eqn:Ep; [| done].
    destruct (sp_edge _ _ _ S2 [table_index virt 39; table_index virt 30] (table_index virt 21) h Ep) as (_ & _ & g & Hg & Hgp & Hgs & _).
    assert (g = f2) as -> by congruence. fold e0 in Hgp, Hgs. rewrite Hgp in Ec. cbn [andb] in Ec. bool_cases. congruence. }
  eexists _, _. unfold write. split; [done |].
  fold (set_word w2 (f2 + 8 * table_index virt 21) (entry_2m phys flags)). split.
  { exists T2. apply set_word_ok with (p := [table_index virt 39; table_index virt 30]); [done | done | apply table_index_range | by right]. }
  split; [done |]. split; [done |]. split.
  - intros v. rewrite (set_pde_leaf root w2 T2) by done. by rewrite (L v).
  - intros v Ev. rewrite <- (L v), (leaf_tree root w2 T2) by done. unfold tree_leaf. fold (path v).
    rewrite Ev, Hnone. unfold path in Ev. injection Ev as -> -> ->. rewrite R2. fold e0. cbv zeta.
    destruct (bit_set e0 PAGE_PRESENT); cbn [andb] in *; [right | by left]. bool_cases. by rewrite Ec, Hps.
Qed.

(** ** Pages by number *)

(** The number of the page of [v]; the tables ignore the bits above 48. *)
Definition vpage (v : Z) : Z := v / PAGE_SIZE mod 2 ^ 36.

Lemma table_index_div v s : 0 <= s -> table_index v s = v / 2 ^ s mod 512.
Proof. intros Hs. unfold table_index. change 0x1ff with (2 ^ 9 - 1). rewrite land_low_mask by lia. by rewrite Z.shiftr_div_pow2. Qed.

Lemma path_vpage v v' : path v = path v' <-> vpage v / 512 = vpage v' / 512.
Proof.
  unfold path, vpage, PAGE_SIZE. rewrite !table_index_div by lia. split; [intros [= H4 H3 H2] | intros H; f_equal; [| f_equal; [| f_equal]]];
    revert H || revert H4 H3 H2; Z.to_euclidean_division_equations; lia.
Qed.

Lemma same_page_vpage v v' : same_page v v' <-> vpage v = vpage v'.
Proof.
  unfold same_page. rewrite path_vpage. unfold vpage, PAGE_SIZE. rewrite !table_index_div by lia.
  split; [intros [H H1] | intros H; split]; Z.to_euclidean_division_equations; lia.
Qed.

(** ** Sets of mappings *)

(** Which leaf each virtual page shall have; the leaf says whether the page is
    a large one. *)
Definition requests := Z -> Z * bool -> Prop.

Definition on_page (x : Z * bool) (v virt : Z) : Prop := if x.2 then path v = path virt else same_page v virt.

(** Requested leaves were added; none was changed. *)
Record grows (root : Z) (R : requests) (w w' : world) : Prop := {
  grows_space : space root w';
  grows_keep : forall v x, leaf (mem w) root v = Some x -> leaf (mem w') root v = Some x;
  grows_only : forall v, leaf (mem w') root v = leaf (mem w) root v \/
    exists virt x, R virt x /\ on_page x v virt /\ leaf (mem w') root v = Some x
}.

(** Every requested leaf is there. *)
Definition fulfils (root : Z) (R : requests) (w : world) : Prop :=
  forall virt x v, R virt x -> on_page x v virt -> leaf (mem w) root v = Some x.

(** What an operation that maps [R] does, whether or not it succeeds. *)
Definition mapper (root : Z) (R : requests) (c : paging unit) : Prop :=
  forall w, space root w -> exists r w', c w = (r, w') /\ grows root R w w' /\ (r = inr tt -> fulfils root R w').

Lemma grows_refl root R w : space root w -> grows root R w w.
Proof. intros H. split; [done | done |]. intros v. by left. Qed.

Lemma grows_same root R w w' : space root w' -> same_leaves root w w' -> grows root R w w'.
Proof. intros H L. split; [done | |]; intros v; [intros x; by rewrite (L v) |]. left. apply L. Qed.

Lemma grows_trans root R w1 w2 w3 : grows root R w1 w2 -> grows root R w2 w3 -> grows root R w1 w3.
Proof.
  intros H1 H2. split; [apply H2 | |].
  - intros v x Hx. by apply (grows_keep _ _ _ _ H2), (grows_keep _ _ _ _ H1).
  - intros v. destruct (grows_only _ _ _ _ H2 v) as [E2 | ?]; [| by right].
    destruct (grows_only _ _ _ _ H1 v) as [E1 | (virt & x & HR & Hv & Hx)]; [left; congruence | right].
    exists virt, x. split; [done |]. split; [done |]. congruence.
Qed.

Lemma grows_weaken root (R R' : requests) w w' : (forall virt x, R virt x -> R' virt x) -> grows root R w w' -> grows root R' w w'.
Proof.
  intros HR H. split; [apply H | apply H |]. intros v.
  destruct (grows_only _ _ _ _ H v) as [? | (virt & x & Hr & ? & ?)]; [by left | right]. exists virt, x. eauto.
Qed.

Lemma grows_fulfils root R R' w w' : grows root R' w w' -> fulfils root R w -> fulfils root R w'.
Proof. intros H Hf virt x v HR Hv. apply (grows_keep _ _ _ _ H). by apply (Hf virt x). Qed.

Lemma mapper_equiv root (R R' : requests) c : (forall virt x, R virt x <-> R' virt x) -> mapper root R c -> mapper root R' c.
Proof.
  intros E H w Hw. destruct (H w Hw) as (r & w' & -> & Hg & Hf). exists r, w'. split; [done |]. split.
  - eapply grows_weaken; [| done]. intros ??. apply E.
  - intros Hr virt x v HR. apply E in HR. by apply (Hf Hr virt x).
Qed.

Lemma mapper_none root (R : requests) : (forall virt x, ~ R virt x) -> mapper root R (mret tt).
Proof. intros H w Hw. exists (inr tt), w. split; [done |]. split; [by apply grows_refl |]. intros _ virt x v HR. by destruct (H virt x). Qed.

Lemma mapper_fail root R st : mapper root R (fail st).
Proof. intros w Hw. exists (inl st), w. split; [done |]. split; [by apply grows_refl | done]. Qed.

(** One operation after the other. *)
Lemma mapper_seq root (R1 R2 R : requests) c1 c2 :
  mapper root R1 c1 -> mapper root R2 c2 -> (forall virt x, R virt x <-> R1 virt x \/ R2 virt x) ->
  mapper root R (_ ← c1; c2).
Proof.
  intros H1 H2 HR w Hw. unfold mbind, paging_bind. destruct (H1 w Hw) as (r1 & w1 & -> & G1 & F1).
  assert (grows root R w w1) as G1' by (apply (grows_weaken _ R1); [intros; apply HR; by left | done]).
  destruct r1 as [st | []]; [by exists (inl st), w1 |].
  destruct (H2 w1 (grows_space _ _ _ _ G1)) as (r2 & w2 & -> & G2 & F2). exists r2, w2. split; [done |]. split.
  - apply (grows_trans _ _ _ w1); [done |]. apply (grows_weaken _ R2); [intros; apply HR; by right | done].
  - intros Hr virt x v [Hx | Hx]%HR Hv; [| by apply (F2 Hr virt x)].
    by apply (grows_fulfils _ R1 R2 w1 w2 G2 (F1 eq_refl) virt x).
Qed.

Lemma map_4k_mapper root virt phys flags :
  mapper root (fun a x => a = virt /\ x = (entry_4k phys flags, false)) (map_4k_flags boot root virt phys flags false).
Proof.
  intros w Hw. destruct (map_4k_spec root w virt phys flags false Hw) as (r & w' & -> & Hs & Hr). exists r, w'. split; [done |].
  destruct r as [st | []]; [split; [by apply grows_same | done] |]. destruct Hr as (_ & _ & L & Hold). split; [split; [done | |] |].
  - intros v x Hx. rewrite L. destruct (decide _) as [[E1 E2] | _]; [| done].
    assert (leaf (mem w) root v = leaf (mem w) root virt) as E.
    { unfold leaf. unfold path in E1. injection E1 as -> -> ->. by rewrite E2. }
    destruct (Hold eq_refl); congruence.
  - intros v. rewrite L. destruct (decide _) as [E | _]; [right | by left]. eexists virt, (_, _). done.
  - intros _ a x v [-> ->] Hv. rewrite L. by rewrite decide_True.
Qed.

Lemma map_2m_mapper root virt phys flags :
  mapper root (fun a x => a = virt /\ x = (entry_2m phys flags, true)) (map_2m_flags boot root virt phys flags).
Proof.
  intros w Hw. destruct (map_2m_spec root w virt phys flags Hw) as (r & w' & -> & Hs & Hr). exists r, w'. split; [done |].
  destruct r as [st | []]; [split; [by apply grows_same | done] |]. destruct Hr as (_ & _ & L & Hold). split; [split; [done | |] |].
  - intros v x Hx. rewrite L. destruct (decide _) as [E | _]; [| done]. destruct (Hold v E); congruence.
  - intros v. rewrite L. destruct (decide _) as [E | _]; [right | by left]. eexists virt, (_, _). done.
  - intros _ a x v [-> ->] Hv. rewrite L. by rewrite decide_True.
Qed.

(** ** The kernel's ranges *)

Lemma align_down_page v : 0 <= v < 2 ^ 64 -> align_down v PAGE_SIZE = v - v mod PAGE_SIZE.
Proof.
  intros Hv. unfold align_down, PAGE_SIZE. rewrite u64_small by lia. change (0x1000 - 1) with (2 ^ 12 - 1). change 0x1000 with (2 ^ 12).
  by rewrite land_not64_low_mask by lia.
Qed.

Lemma align_up_pow v k z :
  0 <= v < 2 ^ 64 -> 0 <= k < 64 -> align_up v (2 ^ k) = Some z -> v <= z < v + 2 ^ k /\ z mod 2 ^ k = 0 /\ z < 2 ^ 64.
Proof.
  intros Hv Hk. unfold align_up. assert (0 < 2 ^ k < 2 ^ 64) as Hp by (split; [apply Z.pow_pos_nonneg; lia | apply Z.pow_lt_mono_r; lia]).
  if_case; [done |]. rewrite (u64_small (2 ^ k - 1)) by lia. rewrite land_low_mask by lia.
  pose proof (Z.mod_pos_bound v (2 ^ k)). destruct (Z.eqb_spec (v mod 2 ^ k) 0); [intros [= <-]; lia |].
  rewrite (u64_small (2 ^ k - v mod 2 ^ k)) by lia. if_case; [done |]. bool_cases. unfold UINT64_MAX in *. rewrite u64_small by lia.
  intros [= <-]. split; [lia |]. split; [| lia]. pose proof (Z.div_mod v (2 ^ k)).
  replace (v + (2 ^ k - v mod 2 ^ k)) with ((v / 2 ^ k + 1) * 2 ^ k) by lia. apply Z.mod_mul. lia.
Qed.

(** The direct map: a large page for a chunk that has neither the kernel's
    image nor the framebuffer, small ones for the others. *)
Definition chunk_of (p : Z) : Z := p - p mod HUGE_PAGE_SIZE.
Definition direct_small (lay : layout) (p virt : Z) (x : Z * bool) : Prop :=
  p mod PAGE_SIZE = 0 /\ virt = physical_memory_offset boot + p /\ x = (entry_4k p (direct_flags_for_page lay boot p), false).
Definition direct_large (p virt : Z) (x : Z * bool) : Prop :=
  p mod HUGE_PAGE_SIZE = 0 /\ virt = physical_memory_offset boot + p /\ x = (entry_2m p (Z.lor PAGE_RW PAGE_NX), true).
Definition direct_requests (lay : layout) (lo hi : Z) : requests := fun virt x =>
  exists p, lo <= p < hi /\
    if chunk_needs_4k_mapping boot (chunk_of p) then direct_small lay p virt x else direct_large p virt x.

Definition kernel_requests (start end_ flags : Z) : requests := fun virt x =>
  start <= virt < end_ /\ virt mod PAGE_SIZE = 0 /\
  exists phys, kernel_phys_for_virtual boot virt = Some phys /\ x = (entry_4k (align_down phys PAGE_SIZE) flags, false).

Lemma direct_pages_mapper n root lay phys offset limit :
  0 <= phys -> 0 <= offset -> (phys + offset) mod PAGE_SIZE = 0 -> phys + offset + PAGE_SIZE * Z.of_nat n <= limit ->
  limit <= 2 ^ 63 -> physical_memory_offset boot + limit <= 2 ^ 64 ->
  mapper root (fun virt x => exists p, phys + offset <= p < phys + offset + PAGE_SIZE * Z.of_nat n /\ direct_small lay p virt x)
    (direct_pages n lay boot root phys offset limit).
Proof.
  intros Hp. revert offset. induction n as [| n IH]; intros offset Ho Hal Hlim Hl Hw; cbn [direct_pages].
  { apply mapper_none. intros virt x (p & Hr & _). lia. }
  unfold PAGE_SIZE in *. no_wrap. rewrite (proj2 (Z.leb_gt _ _)) by lia.
  eapply mapper_seq; [apply map_4k_mapper | apply IH; [lia | | lia | lia | lia] |].
  - rewrite <- (Z.mod_add _ (-1)) by lia. rewrite <- Hal. f_equal. lia.
  - intros virt x. split.
    + intros (p & Hr & Hsm). destruct (decide (p = phys + offset)) as [-> | Hne].
      * left. by destruct Hsm as (_ & -> & ->).
      * right. exists p. split; [| done]. destruct Hsm as [Hmod _]. unfold PAGE_SIZE in Hmod.
        Z.to_euclidean_division_equations. lia.
    + intros [[-> ->] | (p & Hr & Hsm)]; [exists (phys + offset) | exists p]; (split; [lia |]); [| done].
      done.
Qed.

Lemma chunk_of_in phys p : phys mod HUGE_PAGE_SIZE = 0 -> phys <= p < phys + HUGE_PAGE_SIZE -> chunk_of p = phys.
Proof. unfold chunk_of, HUGE_PAGE_SIZE. intros. Z.to_euclidean_division_equations. lia. Qed.

Lemma direct_chunk_mapper root lay phys limit :
  0 <= phys -> phys mod HUGE_PAGE_SIZE = 0 -> phys + HUGE_PAGE_SIZE <= limit ->
  limit <= 2 ^ 63 -> physical_memory_offset boot + limit <= 2 ^ 64 ->
  mapper root (direct_requests lay phys (phys + HUGE_PAGE_SIZE))
    (if negb (chunk_needs_4k_mapping boot phys)
     then map_2m_flags boot root (u64 (physical_memory_offset boot + phys)) phys (Z.lor PAGE_RW PAGE_NX)
     else direct_pages (Z.to_nat (HUGE_PAGE_SIZE / PAGE_SIZE)) lay boot root phys 0 limit).
Proof.
  intros Hp Hal Hlim Hl Hw. unfold HUGE_PAGE_SIZE in Hlim. rewrite u64_small by lia.
  assert (forall p, phys <= p < phys + HUGE_PAGE_SIZE -> chunk_of p = phys) as Hc by (intros; by apply chunk_of_in).
  change (Z.to_nat (HUGE_PAGE_SIZE / PAGE_SIZE)) with 512%nat.
  destruct (chunk_needs_4k_mapping boot phys) eqn:E; cbn [negb].
  - eapply mapper_equiv; [| apply direct_pages_mapper; [done | done | | | done | done]].
    + intros virt x. split; intros (p & Hr & Hx); exists p; (split; [revert Hr; unfold PAGE_SIZE, HUGE_PAGE_SIZE; lia |]).
      * rewrite Hc by (revert Hr; unfold PAGE_SIZE, HUGE_PAGE_SIZE; lia). by rewrite E.
      * rewrite Hc in Hx by done. by rewrite E in Hx.
    + revert Hal. unfold HUGE_PAGE_SIZE, PAGE_SIZE. intros. Z.to_euclidean_division_equations. lia.
    + unfold PAGE_SIZE, HUGE_PAGE_SIZE. lia.
  - eapply mapper_equiv; [| apply map_2m_mapper]. intros virt x. split.
    + intros [-> ->]. exists phys. split; [unfold HUGE_PAGE_SIZE; lia |]. rewrite Hc by (unfold HUGE_PAGE_SIZE; lia). by rewrite E.
    + intros (p & Hr & Hx). rewrite Hc in Hx by done. rewrite E in Hx. destruct Hx as (Hm & -> & ->).
      assert (p = phys) as -> by (pose proof (Hc p Hr) as Hq; unfold chunk_of in Hq; lia). done.
Qed.

Lemma direct_loop_mapper n root lay phys limit :
  0 <= phys -> phys mod HUGE_PAGE_SIZE = 0 -> phys + HUGE_PAGE_SIZE * Z.of_nat n = limit ->
  limit <= 2 ^ 63 -> physical_memory_offset boot + limit <= 2 ^ 64 ->
  mapper root (direct_requests lay phys limit) (direct_loop n lay boot root phys limit).
Proof.
  revert phys. induction n as [| n IH]; intros phys Hp Hal Hlim Hl Hw; cbn [direct_loop].
  { apply mapper_none. intros virt x (p & Hr & _). lia. }
  assert (0 < HUGE_PAGE_SIZE < 2 ^ 62) as Hh by (unfold HUGE_PAGE_SIZE; lia). rewrite (proj2 (Z.ltb_lt _ _)) by lia.
  rewrite (u64_small (phys + _)) by lia. eapply mapper_seq; [apply direct_chunk_mapper; lia || done | apply IH; try done; try lia |].
  - rewrite <- Hal. rewrite <- (Z.mul_1_l HUGE_PAGE_SIZE) at 1. apply Z.mod_add. lia.
  - intros virt x. split.
    + intros (p & Hr & Hx). destruct (decide (p < phys + HUGE_PAGE_SIZE)); [left | right]; exists p; (split; [lia | done]).
    + intros [(p & Hr & Hx) | (p & Hr & Hx)]; exists p; (split; [lia | done]).
Qed.

Lemma map_direct_range_mapper root lay limit :
  0 <= limit <= 2 ^ 63 -> limit mod HUGE_PAGE_SIZE = 0 -> physical_memory_offset boot + limit <= 2 ^ 64 ->
  mapper root (direct_requests lay 0 limit) (map_direct_range lay boot root limit).
Proof.
  intros Hl Hal Hw. apply direct_loop_mapper; [done | done | | lia | done].
  revert Hal. unfold HUGE_PAGE_SIZE. intros. Z.to_euclidean_division_equations. lia.
Qed.

Lemma kernel_pages_mapper n root virt page_end flags :
  0 <= virt -> virt mod PAGE_SIZE = 0 -> virt + PAGE_SIZE * Z.of_nat n = page_end -> page_end < 2 ^ 64 ->
  mapper root (kernel_requests virt page_end flags) (kernel_pages n boot root virt page_end flags).
Proof.
  revert virt. induction n as [| n IH]; intros virt Hv Hal Hn Hw; cbn [kernel_pages].
  { apply mapper_none. intros a x (Hr & _). lia. }
  unfold PAGE_SIZE in Hn. rewrite (proj2 (Z.ltb_lt _ _)) by lia.
  destruct (kernel_phys_for_virtual boot virt) as [phys |] eqn:E; [| apply mapper_fail].
  rewrite (u64_small (virt + PAGE_SIZE)) by (unfold PAGE_SIZE; lia).
  eapply mapper_seq; [apply map_4k_mapper | apply IH; [unfold PAGE_SIZE; lia | | unfold PAGE_SIZE; lia | done] |].
  - rewrite <- Hal. rewrite <- (Z.mul_1_l PAGE_SIZE) at 1. apply Z.mod_add. by unfold PAGE_SIZE.
  - intros a x. unfold kernel_requests. split.
    + intros (Hr & Ha & Hx). destruct (decide (a = virt)) as [-> | Hne].
      * left. destruct Hx as (ph & Hph & ->). split; [done |]. congruence.
      * right. split; [| done]. revert Ha Hal. unfold PAGE_SIZE. intros. Z.to_euclidean_division_equations. lia.
    + intros [[-> ->] | (Hr & Hx)]; [| unfold PAGE_SIZE in Hr; split; [lia | done]]. split; [lia |]. split; [done |]. by exists phys.
Qed.

(** The pages that hold [start, end_). *)
Definition page_floor (v : Z) : Z := v - v mod PAGE_SIZE.
Definition page_ceil (v : Z) : Z := page_floor (v + (PAGE_SIZE - 1)).

Definition range_requests (start end_ flags : Z) : requests := fun virt x =>
  start < end_ /\ kernel_requests (page_floor start) (page_ceil end_) flags virt x.

Lemma align_up_page v z : 0 <= v < 2 ^ 64 -> align_up v PAGE_SIZE = Some z -> z = page_ceil v /\ z < 2 ^ 64.
Proof.
  intros Hv Hz. apply (align_up_pow v 12) in Hz as (Hr & Hm & Hw); [| done | done]. split; [| done].
  revert Hr Hm. unfold page_ceil, page_floor, PAGE_SIZE. intros. Z.to_euclidean_division_equations. lia.
Qed.

Lemma map_kernel_range_mapper root start end_ flags :
  0 <= start < 2 ^ 64 -> 0 <= end_ < 2 ^ 64 ->
  mapper root (range_requests start end_ flags) (map_kernel_virtual_range boot root start end_ flags).
Proof.
  intros Hs He. unfold map_kernel_virtual_range. if_case; bool_cases.
  { apply mapper_none. intros virt x [? _]. lia. }
  rewrite align_down_page by done. destruct (align_up end_ PAGE_SIZE) as [pe |] eqn:Eu; [| apply mapper_fail].
  apply align_up_page in Eu as [-> Hw]; [| done]. fold (page_floor start).
  eapply mapper_equiv; [| apply kernel_pages_mapper; [| | | done]].
  - intros virt x. unfold range_requests. tauto.
  - unfold page_floor, PAGE_SIZE. Z.to_euclidean_division_equations. lia.
  - unfold page_floor, PAGE_SIZE. Z.to_euclidean_division_equations. lia.
  - revert E. unfold page_ceil, page_floor, PAGE_SIZE. intros. Z.to_euclidean_division_equations. lia.
Qed.

(** ** A new address space *)

Definition layout_ok (lay : layout) : Prop :=
  Forall (fun a => 0 <= a < 2 ^ 64) [text_start lay; text_end lay; rodata_start lay; rodata_end lay;
    data_start lay; data_end lay; guard_low_start lay; stack_start lay; stack_end lay; guard_high_start lay].

(** The kernel's sections, with the attributes of their pages. *)
Definition sections (lay : layout) : list (Z * Z * Z) :=
  [(kernel_virt_start boot, text_start lay, PAGE_NX); (text_start lay, text_end lay, 0);
   (rodata_start lay, rodata_end lay, PAGE_NX); (data_start lay, data_end lay, Z.lor PAGE_RW PAGE_NX);
   (stack_start lay, stack_end lay, Z.lor PAGE_RW PAGE_NX)].

Definition init_requests (lay : layout) (limit : Z) : requests := fun virt x =>
  direct_requests lay 0 limit virt x \/ Exists (fun '(start, end_, flags) => range_requests start end_ flags virt x) (sections lay).

Lemma new_root w f w' :
  alloc_table boot w = (inr f, w') -> free_ok boot w -> space f w' /\ forall v, leaf (mem w') f v = None.
Proof.
  intros Ha Hw. destruct (alloc_table_spec w Hw) as [E | (g & w2 & E & Hg & Hfree & _ & Hfr & Hz & _)]; rewrite E in Ha; [done |].
  injection Ha as <- <-. split.
  - exists {[ [] := g ]}. split.
    + by rewrite lookup_singleton_eq.
    + by intros p h [<- <-]%lookup_singleton_Some.
    + intros p h a [<- <-]%lookup_singleton_Some Ha Hc%Hfr. by destruct Hc.
    + by intros p q h [<- <-]%lookup_singleton_Some [<- _]%lookup_singleton_Some.
    + intros p i h [E2 _]%lookup_singleton_Some. by destruct p.
    + intros p h i [<- <-]%lookup_singleton_Some _ Hi. by rewrite Hz.
    + done.
  - intros v. unfold leaf. by rewrite (Hz _ (table_index_range v 39)).
Qed.

(** The leaves are exactly the requested ones. *)
Record built (root : Z) (R : requests) (w : world) : Prop := {
  built_space : space root w;
  built_all : fulfils root R w;
  built_only : forall v x, leaf (mem w) root v = Some x -> exists virt, R virt x /\ on_page x v virt
}.

Lemma built_step root (R R1 : requests) c w w' :
  built root R w -> mapper root R1 c -> c w = (inr tt, w') -> built root (fun virt x => R virt x \/ R1 virt x) w'.
Proof.
  intros H Hm Hc. destruct (Hm w (built_space _ _ _ H)) as (r & w2 & E & G & F). rewrite E in Hc. injection Hc as -> ->.
  split; [apply G | |].
  - intros virt x v [HR | HR] Hv; [| by apply (F eq_refl virt x)]. by apply (grows_fulfils _ R R1 _ _ G (built_all _ _ _ H) virt x).
  - intros v x Hx. destruct (grows_only _ _ _ _ G v) as [E2 | (virt & y & HR & Hv & Hy)].
    + rewrite Hx in E2. symmetry in E2. destruct (built_only _ _ _ H v x E2) as (virt & HR & Hv). exists virt. by split; [left |].
    + assert (y = x) as -> by congruence. exists virt. by split; [right |].
Qed.

Lemma built_equiv root (R R' : requests) w : (forall virt x, R virt x <-> R' virt x) -> built root R w -> built root R' w.
Proof.
  intros E H. split; [apply H | |].
  - intros virt x v HR%E. by apply (built_all _ _ _ H).
  - intros v x Hx. destruct (built_only _ _ _ H v x Hx) as (virt & HR%E & Hv). by exists virt.
Qed.

Lemma build_tables_spec lay limit w root w' :
  layout_ok lay -> 0 <= kernel_virt_start boot < 2 ^ 64 -> free_ok boot w ->
  0 <= limit <= 2 ^ 63 -> limit mod HUGE_PAGE_SIZE = 0 -> physical_memory_offset boot + limit <= 2 ^ 64 ->
  build_tables lay boot limit w = (inr root, w') -> built root (init_requests lay limit) w'.
Proof.
  intros Hlay Hkv Hfree Hl Hal Hw Hb. unfold build_tables, mbind, paging_bind in Hb.
  destruct (alloc_table boot w) as [[st | root0] w0] eqn:Ea; [done |]. destruct (new_root w root0 w0 Ea Hfree) as [Hs Hnone].
  repeat (apply Forall_cons in Hlay as [? Hlay]).
  assert (built root0 (fun _ _ => False) w0) as B0 by (split; [done | by intros ? ? ? [] |]; intros v x; by rewrite Hnone).
  pose proof (map_direct_range_mapper root0 lay limit Hl Hal Hw) as M0.
  destruct (map_direct_range lay boot root0 limit w0) as [[st | []] w1] eqn:E0; [done |]. pose proof (built_step _ _ _ _ _ _ B0 M0 E0) as B1.
  clear B0 M0 E0.
  do 5 lazymatch type of Hb with
  | context [map_kernel_virtual_range boot root0 ?s ?e ?fl ?wi] =>
      let E := fresh "E" in let B := fresh "B" in let M := fresh "M" in
      pose proof (map_kernel_range_mapper root0 s e fl ltac:(done) ltac:(done)) as M;
      destruct (map_kernel_virtual_range boot root0 s e fl wi) as [[? | []] ?] eqn:E; [done |];
      lazymatch goal with B0 : built root0 _ wi |- _ => pose proof (built_step _ _ _ _ _ _ B0 M E) as B; clear B0 M E end
  end.
  injection Hb as <- <-. eapply built_equiv; [| done]. intros virt x. unfold init_requests, sections. cbn beta.
  rewrite !Exists_cons, Exists_nil. tauto.
Qed.

(** ** What queries answer *)

Lemma query_space root w v :
  space root w ->
  query_root (Some boot) root v (mem w) =
    Some (match leaf (mem w) root v with
          | None => absent
          | Some (e, h) => leaf_mapping e v (if h : bool then HUGE_PAGE_SIZE else PAGE_SIZE) h
          end).
Proof. intros [T H]. by apply (query_leaf root w T). Qed.

Lemma flags_attributes flags : flags_ok flags -> attributes (Z.lor PAGE_PRESENT flags) /\ attributes (Z.lor (Z.lor PAGE_PRESENT PAGE_PS) flags).
Proof.
  assert (forall c n, 0 <= c < 2 ^ 12 -> Z.testbit c n = true -> n < 12) as Hc.
  { intros c n Hc Hn. destruct (decide (n < 12)); [done |]. rewrite <- (Z.mod_small c (2 ^ 12)), Z.mod_pow2_bits_high in Hn by lia. done. }
  intros H. split; intros n; rewrite Z.lor_spec; intros [Hn | Hn%H]%orb_true_iff; try lia; left.
  - by apply (Hc PAGE_PRESENT).
  - by apply (Hc (Z.lor PAGE_PRESENT PAGE_PS)).
Qed.

Lemma mapping_4k p flags v :
  page_ok p -> flags_ok flags ->
  leaf_mapping (entry_4k p flags) v PAGE_SIZE false =
    mk_mapping (p + v mod PAGE_SIZE) true (Z.testbit flags 1) (negb (Z.testbit flags 63)) false (Z.testbit flags 4).
Proof.
  intros Hp Hf. unfold leaf_mapping, entry_4k. rewrite <- Z.lor_assoc. rewrite entry_page by (done || by apply flags_attributes).
  rewrite rw_bit, nx_bit, pcd_bit, (entry_bit p _ 1), (entry_bit p _ 63), (entry_bit p _ 4) by (done || lia). rewrite !Z.lor_spec.
  change (Z.testbit PAGE_PRESENT 1) with false. change (Z.testbit PAGE_PRESENT 63) with false. change (Z.testbit PAGE_PRESENT 4) with false.
  cbn [orb]. f_equal. change PAGE_SIZE with (2 ^ 12). rewrite land_low_mask by lia. pose proof (Z.mod_pos_bound v (2 ^ 12)).
  destruct Hp as [_ Hp]. apply u64_small. lia.
Qed.

Lemma mapping_2m p flags v :
  p mod HUGE_PAGE_SIZE = 0 -> 0 <= p < 2 ^ 52 -> flags_ok flags ->
  leaf_mapping (entry_2m p flags) v HUGE_PAGE_SIZE true =
    mk_mapping (p + v mod HUGE_PAGE_SIZE) true (Z.testbit flags 1) (negb (Z.testbit flags 63)) true (Z.testbit flags 4).
Proof.
  intros Hm Hp Hf. assert (page_ok p) as Hok.
  { split; [| done]. revert Hm. unfold HUGE_PAGE_SIZE, PAGE_SIZE. intros. Z.to_euclidean_division_equations. lia. }
  unfold leaf_mapping, entry_2m. rewrite <- !Z.lor_assoc, (Z.lor_assoc PAGE_PRESENT).
  rewrite entry_page by (done || by apply flags_attributes). rewrite rw_bit, nx_bit, pcd_bit, (entry_bit p _ 1), (entry_bit p _ 63), (entry_bit p _ 4) by (done || lia).
  rewrite !(Z.lor_spec (Z.lor PAGE_PRESENT PAGE_PS) flags).
  change (Z.testbit (Z.lor PAGE_PRESENT PAGE_PS) 1) with false. change (Z.testbit (Z.lor PAGE_PRESENT PAGE_PS) 63) with false.
  change (Z.testbit (Z.lor PAGE_PRESENT PAGE_PS) 4) with false. cbn [orb]. f_equal.
  change HUGE_PAGE_SIZE with (2 ^ 21). rewrite land_low_mask by lia. pose proof (Z.mod_pos_bound v (2 ^ 21)). apply u64_small. lia.
Qed.

(** The flags the code uses. *)
Definition kernel_flags : list Z :=
  [0; PAGE_NX; Z.lor PAGE_RW PAGE_NX; Z.lor (Z.lor PAGE_RW PAGE_NX) PAGE_PCD; Z.lor (Z.lor (Z.lor PAGE_RW PAGE_NX) PAGE_PCD) PAGE_PWT].

Lemma testbit_flag k n : 0 <= k -> Z.testbit (2 ^ k) n = true -> n = k.
Proof.
  intros Hk Hn. destruct (decide (n < 0)); [by rewrite Z.testbit_neg_r in Hn |].
  rewrite Z.pow2_bits_eqb in Hn by done. by apply Z.eqb_eq in Hn.
Qed.

Lemma kernel_flags_ok flags : flags ∈ kernel_flags -> flags_ok flags /\ (Z.testbit flags 1 = true -> Z.testbit flags 63 = true).
Proof.
  intros H. split.
  - intros n Hn. unfold kernel_flags in H. repeat (apply elem_of_cons in H as [-> | H]); try (by apply elem_of_nil in H);
      rewrite ?Z.lor_spec, ?orb_true_iff, ?Z.bits_0 in Hn; [done | ..]; intuition;
      repeat match goal with
      | H : Z.testbit PAGE_RW n = true |- _ => apply (testbit_flag 1) in H; [| done]
      | H : Z.testbit PAGE_NX n = true |- _ => apply (testbit_flag 63) in H; [| done]
      | H : Z.testbit PAGE_PCD n = true |- _ => apply (testbit_flag 4) in H; [| done]
      | H : Z.testbit PAGE_PWT n = true |- _ => apply (testbit_flag 3) in H; [| done]
      end; lia.
  - unfold kernel_flags in H. repeat (apply elem_of_cons in H as [-> | H]); try (by apply elem_of_nil in H); done.
Qed.

Lemma direct_flags_kernel lay p : direct_flags_for_page lay boot p ∈ kernel_flags.
Proof. unfold direct_flags_for_page, kernel_flags. repeat case_match; repeat (first [left | right]). Qed.

(** ** Initialisation *)

(** A failure is reported as one. *)
Record honest {A} (c : paging A) : Prop := mk_honest { honest_run : forall w st w', c w = (inl st, w') -> st <> PAGING_OK }.

Lemma honest_bind {A B} (c : paging A) (k : A -> paging B) : honest c -> (forall a, honest (k a)) -> honest (c ≫= k).
Proof.
  intros [Hc] Hk. split. intros w st w'. unfold mbind, paging_bind. destruct (c w) as [[st0 | a] w0] eqn:E; [| by apply Hk].
  intros [= <- <-]. by apply (Hc _ _ _ E).
Qed.

Lemma honest_inr {A} (c : paging A) : (forall w, exists a w', c w = (inr a, w')) -> honest c.
Proof. intros H. split. intros w st w' E. destruct (H w) as (a & w2 & E2). congruence. Qed.

Lemma honest_fail {A} st : st <> PAGING_OK -> honest (A := A) (fail st).
Proof. intros H. split. by intros w st' w' [= <- _]. Qed.

Ltac honest :=
  repeat first
    [ progress intros
    | done
    | apply honest_bind
    | apply honest_fail
    | apply honest_inr; by eexists _, _
    | match goal with |- honest (match ?x with _ => _ end) => destruct x end ].

Lemma table_ptr_honest phys : honest (table_ptr boot phys).
Proof. unfold table_ptr. honest. Qed.

Lemma alloc_table_honest : honest (alloc_table boot).
Proof.
  split. intros w st w'. unfold alloc_table. destruct (pmm_alloc_frame (frames w)) as [phys f]. if_case; [by intros [= <- _] |].
  eapply honest_bind; [apply table_ptr_honest |]. honest.
Qed.

Lemma map_honest root virt phys flags replace :
  honest (map_4k_flags boot root virt phys flags replace) /\ honest (map_2m_flags boot root virt phys flags).
Proof.
  split; unfold map_4k_flags, map_2m_flags, pte_for_virtual, next_table, ensure_table; honest;
    apply table_ptr_honest || apply alloc_table_honest.
Qed.

Lemma direct_loop_honest n lay root phys limit : honest (direct_loop n lay boot root phys limit).
Proof.
  assert (forall n offset phys, honest (direct_pages n lay boot root phys offset limit)) as Hp.
  { clear n phys. intros n. induction n as [| n IH]; cbn [direct_pages]; honest; apply map_honest || apply IH. }
  revert phys. induction n as [| n IH]; cbn [direct_loop]; honest; first [by apply (map_honest _ _ _ _ false) | apply Hp | apply IH].
Qed.

Lemma kernel_range_honest root start end_ flags : honest (map_kernel_virtual_range boot root start end_ flags).
Proof.
  assert (forall n virt page_end, honest (kernel_pages n boot root virt page_end flags)) as Hp.
  { intros n. induction n as [| n IH]; cbn [kernel_pages]; honest; apply map_honest || apply IH. }
  unfold map_kernel_virtual_range. honest.
Qed.

Lemma build_tables_honest lay limit : honest (build_tables lay boot limit).
Proof. unfold build_tables. honest; apply alloc_table_honest || apply direct_loop_honest || apply kernel_range_honest. Qed.

Definition usable_end (r : boot_memory_region_t) (e : Z) : Prop :=
  type_ r = BOOT_MEMORY_USABLE /\ 0 < length_ r /\ e = base r + length_ r /\ e < 2 ^ 64.

Lemma region_limit_spec acc r :
  region_ok r -> acc <= region_limit acc r /\ forall e, usable_end r e -> e <= region_limit acc r.
Proof.
  intros [Hb Hl]. unfold region_limit, UINT64_MAX. split.
  - repeat case_match; bool_cases; lia.
  - intros e (Ht & Hp & -> & Hw). rewrite bool_decide_true by done. cbn [negb orb]. rewrite (proj2 (Z.eqb_neq _ _)) by lia.
    rewrite (proj2 (Z.ltb_ge _ _)) by lia. cbn [orb]. rewrite u64_small by lia. if_case; bool_cases; lia.
Qed.

Lemma region_limits rs acc :
  Forall region_ok rs -> acc <= foldl region_limit acc rs /\ forall r e, r ∈ rs -> usable_end r e -> e <= foldl region_limit acc rs.
Proof.
  revert acc. induction rs as [| r rs IH]; intros acc Hok; cbn [foldl]; [split; [lia |]; by intros ? ? ?%elem_of_nil |].
  apply Forall_cons in Hok as [Hr Hok]. destruct (IH (region_limit acc r) Hok) as [Hge Hin], (region_limit_spec acc r Hr) as [Hle He].
  split; [lia |]. intros r' e [-> | Hr']%elem_of_cons Hu; [specialize (He e Hu); lia | by apply (Hin r')].
Qed.

(** The direct map reaches the end of every usable region, of the framebuffer
    and of the kernel. *)
Lemma physical_map_limit_spec limit :
  boot_context_ok boot -> physical_map_limit boot = Some limit ->
  0 < limit <= DIRECT_MAP_MAX /\ limit mod HUGE_PAGE_SIZE = 0 /\ framebuffer_phys_end boot <= limit /\ kernel_phys_end boot <= limit /\
  forall r e, r ∈ regions boot -> usable_end r e -> e <= limit.
Proof.
  intros (_ & Hreg & _ & _ & _ & _ & Hfb & _ & Hke & _) H.
  destruct (region_limits (regions boot) 0) as [Hge Hin]; [by apply Forall_take |].
  unfold physical_map_limit in H. set (l0 := foldl region_limit 0 (regions boot)) in *. revert H.
  set (l1 := if l0 <? framebuffer_phys_end boot then framebuffer_phys_end boot else l0).
  set (l2 := if l1 <? kernel_phys_end boot then kernel_phys_end boot else l1).
  assert (l0 <= l1 /\ framebuffer_phys_end boot <= l1) as [? ?] by (unfold l1; if_case; bool_cases; lia).
  assert (l1 <= l2 /\ kernel_phys_end boot <= l2) as [? ?] by (unfold l2; if_case; bool_cases; lia).
  if_case; [done |]. bool_cases. unfold DIRECT_MAP_MAX in *. intros Hup. apply (align_up_pow l2 21) in Hup as (Hr & Hm & _); [| lia | lia].
  change (2 ^ 21) with HUGE_PAGE_SIZE in *. split; [revert Hr Hm; unfold HUGE_PAGE_SIZE; intros; Z.to_euclidean_division_equations; lia |].
  split; [done |]. split; [lia |]. split; [lia |]. intros r e Hr' He. specialize (Hin r e Hr' He). lia.
Qed.

Lemma paging_init_spec lay out s w out' s' w' :
  boot_context_ok boot -> layout_ok lay -> free_ok boot w ->
  paging_init lay (Some boot) (Some out) s w = (PAGING_OK, out', s', w') ->
  exists root limit, out' = Some root /\ s' = mk_paging (Some boot) root limit MMIO_BASE false /\
    physical_map_limit boot = Some limit /\ physical_memory_offset boot + limit <= 2 ^ 64 /\
    physical_memory_offset boot mod HUGE_PAGE_SIZE = 0 /\ built root (init_requests lay limit) w'.
Proof.
  intros Hb Hlay Hw. unfold paging_init. if_case; [done |]. if_case; [done |].
  destruct (physical_map_limit boot) as [limit |] eqn:El; [| done]. if_case; [done |].
  destruct (physical_map_limit_spec limit Hb El) as (Hlim & Hal & _). unfold DIRECT_MAP_MAX in Hlim.
  bool_cases. unfold UINT64_MAX in *. rewrite u64_small in * by lia.
  destruct (build_tables lay boot limit w) as [[st | root] w2] eqn:Et.
  { intros [= -> _ _ _]. by destruct (honest_run _ (build_tables_honest lay limit) _ _ _ Et). }
  intros [= <- <- <-]. exists root, limit. do 3 (split; [done |]). split; [lia |]. split.
  { change HUGE_PAGE_SIZE with (2 ^ 21) in *. by rewrite land_low_mask in * by lia. }
  eapply build_tables_spec; try done; [apply Hb | lia | lia].
Qed.

(** Addresses of the direct map. *)
Lemma direct_pages_of a p v :
  physical_memory_offset boot mod HUGE_PAGE_SIZE = 0 -> v = physical_memory_offset boot + a ->
  (p = page_floor a -> same_page v (physical_memory_offset boot + p)) /\
  (p = chunk_of a -> path v = path (physical_memory_offset boot + p)).
Proof.
  rewrite same_page_vpage, path_vpage. unfold vpage, page_floor, chunk_of, HUGE_PAGE_SIZE, PAGE_SIZE. intros.
  split; intros; subst; Z.to_euclidean_division_equations; lia.
Qed.

Definition direct_mapping (lay : layout) (a : Z) : paging_mapping_t :=
  if chunk_needs_4k_mapping boot (chunk_of a)
  then let flags := direct_flags_for_page lay boot (page_floor a) in mk_mapping a true (Z.testbit flags 1) false false (Z.testbit flags 4)
  else mk_mapping a true true false true false.

Lemma direct_flags_nx lay p : Z.testbit (direct_flags_for_page lay boot p) 63 = true.
Proof. unfold direct_flags_for_page. by repeat case_match. Qed.

Lemma page_floor_facts a : 0 <= a -> 0 <= page_floor a <= a /\ page_floor a mod PAGE_SIZE = 0 /\ page_floor a + a mod PAGE_SIZE = a /\ chunk_of (page_floor a) = chunk_of a.
Proof. unfold page_floor, chunk_of, HUGE_PAGE_SIZE, PAGE_SIZE. intros. Z.to_euclidean_division_equations. lia. Qed.

Lemma chunk_of_facts a : 0 <= a -> 0 <= chunk_of a <= a /\ chunk_of a mod HUGE_PAGE_SIZE = 0 /\ chunk_of a + a mod HUGE_PAGE_SIZE = a /\ chunk_of (chunk_of a) = chunk_of a.
Proof. unfold chunk_of, HUGE_PAGE_SIZE. intros. Z.to_euclidean_division_equations. lia. Qed.

Lemma offset_mod off a : off mod HUGE_PAGE_SIZE = 0 -> (off + a) mod PAGE_SIZE = a mod PAGE_SIZE /\ (off + a) mod HUGE_PAGE_SIZE = a mod HUGE_PAGE_SIZE.
Proof.
  intros Hal. apply Z.div_exact in Hal; [| done]. rewrite Hal, Z.add_comm. split.
  - change HUGE_PAGE_SIZE with (512 * PAGE_SIZE). replace (512 * PAGE_SIZE * (off / (512 * PAGE_SIZE))) with (512 * (off / (512 * PAGE_SIZE)) * PAGE_SIZE) by lia.
    by apply Z.mod_add.
  - rewrite Z.mul_comm. by apply Z.mod_add.
Qed.

Lemma direct_query root lay limit w a :
  built root (init_requests lay limit) w -> physical_memory_offset boot mod HUGE_PAGE_SIZE = 0 -> 0 <= a < limit -> limit <= DIRECT_MAP_MAX ->
  query_root (Some boot) root (physical_memory_offset boot + a) (mem w) = Some (direct_mapping lay a).
Proof.
  intros B Hal Ha Hl. rewrite query_space by apply B. unfold DIRECT_MAP_MAX, direct_mapping in *.
  destruct (direct_pages_of a (page_floor a) _ Hal eq_refl) as [Hsm _]. destruct (direct_pages_of a (chunk_of a) _ Hal eq_refl) as [_ Hlg].
  specialize (Hsm eq_refl). specialize (Hlg eq_refl).
  destruct (page_floor_facts a) as (Hf1 & Hf2 & Hf3 & Hf4); [lia |]. destruct (chunk_of_facts a) as (Hc1 & Hc2 & Hc3 & Hc4); [lia |].
  destruct (chunk_needs_4k_mapping boot (chunk_of a)) eqn:E.
  - rewrite (built_all _ _ _ B (physical_memory_offset boot + page_floor a) (entry_4k (page_floor a) (direct_flags_for_page lay boot (page_floor a)), false)).
    + destruct (kernel_flags_ok _ (direct_flags_kernel lay (page_floor a))) as [Hfl _].
      rewrite mapping_4k by (done || (split; [done | lia])). rewrite direct_flags_nx. cbn [negb]. f_equal. f_equal.
      rewrite (proj1 (offset_mod _ a Hal)). lia.
    + left. exists (page_floor a). split; [lia |]. rewrite Hf4, E. done.
    + done.
  - rewrite (built_all _ _ _ B (physical_memory_offset boot + chunk_of a) (entry_2m (chunk_of a) (Z.lor PAGE_RW PAGE_NX), true)).
    + rewrite mapping_2m; [| done | lia | apply kernel_flags_ok; unfold kernel_flags; do 2 right; left]. f_equal. f_equal.
      rewrite (proj2 (offset_mod _ a Hal)). lia.
    + left. exists (chunk_of a). split; [lia |]. rewrite Hc4, E. done.
    + done.
Qed.

(** The boot loader placed the image in whole pages and in one piece. *)
Record image_ok (lay : layout) : Prop := {
  image_size : kernel_virt_end boot - kernel_virt_start boot = kernel_phys_end boot - kernel_phys_start boot;
  image_phys : kernel_phys_start boot mod PAGE_SIZE = 0;
  image_virt : kernel_virt_start boot mod PAGE_SIZE = 0;
  image_virt_end : kernel_virt_end boot mod PAGE_SIZE = 0;
  image_sections : forall start end_ flags, (start, end_, flags) ∈ sections lay -> kernel_virt_start boot <= start /\ end_ <= kernel_virt_end boot
}.

Definition kernel_phys (v : Z) : Z := kernel_phys_start boot + (v - kernel_virt_start boot).

Lemma kernel_phys_some v :
  boot_context_ok boot -> kernel_virt_end boot - kernel_virt_start boot = kernel_phys_end boot - kernel_phys_start boot ->
  kernel_virt_start boot <= v < kernel_virt_end boot -> kernel_phys_for_virtual boot v = Some (kernel_phys v).
Proof.
  intros (_ & _ & _ & _ & _ & _ & _ & H1 & H2 & H3 & H4) Hs Hv. unfold kernel_phys_for_virtual, kernel_phys, UINT64_MAX.
  rewrite (proj2 (Z.ltb_ge _ _)), (proj2 (Z.leb_gt _ _)) by lia. cbn [orb]. rewrite (u64_small (v - _)) by lia.
  rewrite (proj2 (Z.ltb_ge _ _)) by lia. by rewrite u64_small by lia.
Qed.

Lemma page_floor_div v : page_floor v = PAGE_SIZE * (v / PAGE_SIZE).
Proof. unfold page_floor, PAGE_SIZE. pose proof (Z.div_mod v 0x1000). lia. Qed.

Lemma same_page_floor v : same_page v (page_floor v).
Proof. rewrite same_page_vpage, page_floor_div. unfold vpage. by rewrite Z.mul_comm, Z.div_mul. Qed.

Lemma section_query root lay limit w start end_ flags v :
  boot_context_ok boot -> image_ok lay -> built root (init_requests lay limit) w -> kernel_phys_end boot <= DIRECT_MAP_MAX ->
  (start, end_, flags) ∈ sections lay -> start < end_ -> page_floor start <= v < page_ceil end_ ->
  query_root (Some boot) root v (mem w) =
    Some (mk_mapping (kernel_phys v) true (Z.testbit flags 1) (negb (Z.testbit flags 63)) false (Z.testbit flags 4)).
Proof.
  intros Hb Hi B Hk Hsec Hne Hv. rewrite query_space by apply B. destruct (image_sections _ Hi _ _ _ Hsec) as [Hlo Hhi].
  pose proof Hb as (_ & _ & _ & _ & _ & _ & _ & Hps & _ & Hvs & _). unfold DIRECT_MAP_MAX in Hk.
  pose proof (image_size _ Hi). pose proof (image_phys _ Hi) as Hp. pose proof (image_virt _ Hi) as Hvi. pose proof (image_virt_end _ Hi) as Hve.
  assert (kernel_virt_start boot <= page_floor v /\ v < kernel_virt_end boot /\ page_floor start <= page_floor v /\
    page_floor v mod PAGE_SIZE = 0 /\ kernel_phys (page_floor v) mod PAGE_SIZE = 0 /\ 0 <= v mod PAGE_SIZE /\ page_floor v + v mod PAGE_SIZE = v) as (G1 & G2 & G3 & G4 & G5 & G6 & G7).
  { apply Z.div_exact in Hp, Hvi, Hve; [| done ..]. unfold kernel_phys. revert Hv Hp Hvi Hve. unfold page_ceil. rewrite !page_floor_div.
    unfold PAGE_SIZE. change (0x1000 - 1) with 0xfff. generalize (kernel_phys_start boot / 0x1000) (kernel_virt_start boot / 0x1000) (kernel_virt_end boot / 0x1000).
    intros c a b Hv Hp Hvi Hve. rewrite Hp, Hvi, Hve in *. pose proof (Z.div_mod v 0x1000). pose proof (Z.mod_pos_bound v 0x1000).
    pose proof (Z.div_mod start 0x1000). pose proof (Z.mod_pos_bound start 0x1000).
    pose proof (Z.div_mod (end_ + 0xfff) 0x1000). pose proof (Z.mod_pos_bound (end_ + 0xfff) 0x1000).
    assert ((0x1000 * c + (0x1000 * (v / 0x1000) - 0x1000 * a)) mod 0x1000 = 0) as Hm.
    { replace (0x1000 * c + (0x1000 * (v / 0x1000) - 0x1000 * a)) with ((c + v / 0x1000 - a) * 0x1000) by lia. by apply Z.mod_mul. }
    rewrite Hm. rewrite (Z.mul_comm 0x1000 (v / 0x1000)), Z.mod_mul by done. lia. }
  assert (align_down (kernel_phys (page_floor v)) PAGE_SIZE = kernel_phys (page_floor v)) as Had.
  { rewrite align_down_page, G5 by (unfold kernel_phys; lia). lia. }
  rewrite (built_all _ _ _ B (page_floor v) (entry_4k (kernel_phys (page_floor v)) flags, false)).
  - rewrite mapping_4k; [| split; [done | unfold kernel_phys; lia] |].
    + f_equal. f_equal. unfold kernel_phys. lia.
    + apply kernel_flags_ok. unfold sections in Hsec. unfold kernel_flags.
      repeat (apply elem_of_cons in Hsec as [[= -> -> ->] | Hsec]); try (by apply elem_of_nil in Hsec); repeat first [left | right].
  - right. apply Exists_exists. exists (start, end_, flags). split; [done |]. split; [done |]. split; [lia |]. split; [done |].
    exists (kernel_phys (page_floor v)). rewrite Had. split; [| done]. apply kernel_phys_some; [done | done | lia].
  - apply same_page_floor.
Qed.

Lemma page_floor_mono a b : a <= b -> page_floor a <= page_floor b.
Proof. intros. rewrite !page_floor_div. apply Z.mul_le_mono_nonneg_l; [done |]. by apply Z.div_le_mono. Qed.

Lemma page_ceil_ge a : a <= page_ceil a.
Proof. unfold page_ceil, page_floor, PAGE_SIZE. pose proof (Z.mod_pos_bound (a + (0x1000 - 1)) 0x1000). lia. Qed.

Lemma section_phys_range start end_ :
  boot_context_ok boot -> kernel_virt_end boot - kernel_virt_start boot = kernel_phys_end boot - kernel_phys_start boot ->
  kernel_virt_start boot <= start -> start < end_ <= kernel_virt_end boot -> kernel_phys_end boot <= DIRECT_MAP_MAX ->
  kernel_section_phys_range boot start end_ = Some (kernel_phys start, kernel_phys end_).
Proof.
  intros Hb Hsz Hs He Hk. pose proof Hb as (_ & _ & _ & _ & _ & _ & _ & Hps & _ & Hvs & Hve). unfold DIRECT_MAP_MAX in Hk.
  unfold kernel_section_phys_range. rewrite (proj2 (Z.leb_gt _ _)) by lia. rewrite u64_small by lia.
  rewrite (kernel_phys_some start), (kernel_phys_some (end_ - 1)) by (done || lia). cbn [mbind option_bind]. unfold kernel_phys, UINT64_MAX.
  rewrite (proj2 (Z.eqb_neq _ _)) by lia. rewrite u64_small by lia. f_equal. f_equal. lia.
Qed.

(** The frames of [.text] and [.rodata] have no writable alias in the direct
    map, unless the framebuffer lies in them. *)
Lemma read_only_alias lay start end_ v :
  boot_context_ok boot -> image_ok lay -> kernel_phys_end boot <= DIRECT_MAP_MAX ->
  (start = text_start lay /\ end_ = text_end lay \/ start = rodata_start lay /\ end_ = rodata_end lay) -> start <= v < end_ ->
  ranges_overlap (page_floor (kernel_phys v)) (page_floor (kernel_phys v) + PAGE_SIZE) (framebuffer_phys_start boot) (framebuffer_phys_end boot) = false ->
  writable (direct_mapping lay (kernel_phys v)) = false.
Proof.
  intros Hb Hi Hk Hsec Hv Hfb. pose proof Hb as (_ & _ & _ & _ & _ & _ & _ & Hps & _ & Hvs & Hve). pose proof (image_size _ Hi) as Hsz.
  assert (kernel_virt_start boot <= start /\ end_ <= kernel_virt_end boot) as [Hlo Hhi].
  { destruct Hsec as [[-> ->] | [-> ->]]; eapply (image_sections _ Hi); unfold sections; [right; left | do 2 right; left]. }
  assert (kernel_phys_start boot <= kernel_phys v < kernel_phys_end boot) as Hin by (unfold kernel_phys; lia). unfold DIRECT_MAP_MAX in Hk.
  destruct (page_floor_facts (kernel_phys v)) as (Hf1 & _ & Hf3 & _); [lia |]. destruct (chunk_of_facts (kernel_phys v)) as (Hc1 & _ & Hc3 & _); [lia |].
  pose proof (Z.mod_pos_bound (kernel_phys v) HUGE_PAGE_SIZE). pose proof (Z.mod_pos_bound (kernel_phys v) PAGE_SIZE). unfold PAGE_SIZE, HUGE_PAGE_SIZE in *.
  assert (chunk_needs_4k_mapping boot (chunk_of (kernel_phys v)) = true) as Hch.
  { unfold chunk_needs_4k_mapping, HUGE_PAGE_SIZE. rewrite u64_small by lia. unfold ranges_overlap at 1.
    rewrite (proj2 (Z.ltb_lt _ _)), (proj2 (Z.ltb_lt _ _)) by lia. done. }
  assert (page_in_section boot start end_ (page_floor (kernel_phys v)) = true) as Hpis.
  { unfold page_in_section. rewrite section_phys_range by (done || (unfold DIRECT_MAP_MAX; lia)). unfold kernel_phys in *.
    rewrite (u64_small (_ + PAGE_SIZE)), (u64_small (_ + PAGE_SIZE - 1)) by (unfold PAGE_SIZE; lia).
    assert (0 <= kernel_phys_start boot + (end_ - kernel_virt_start boot) + PAGE_SIZE - 1 < 2 ^ 64) by (unfold PAGE_SIZE; lia).
    rewrite !align_down_page by lia. apply andb_true_iff. split; [apply Z.leb_le; apply page_floor_mono; lia | apply Z.ltb_lt].
    match goal with |- _ < ?x - _ => replace x with (kernel_phys_start boot + (end_ - kernel_virt_start boot) + (PAGE_SIZE - 1)) by (unfold PAGE_SIZE; lia) end.
    pose proof (page_ceil_ge (kernel_phys_start boot + (end_ - kernel_virt_start boot))) as Hc. unfold page_ceil in Hc.
    fold (page_floor (kernel_phys_start boot + (end_ - kernel_virt_start boot) + (PAGE_SIZE - 1))). lia. }
  unfold direct_mapping. rewrite Hch. cbn [writable]. unfold direct_flags_for_page. unfold PAGE_SIZE at 1. rewrite u64_small by lia.
  rewrite Hfb. destruct Hsec as [[-> ->] | [-> ->]]; rewrite Hpis; [| done]. by case_match.
Qed.

Lemma page_in_chunk v virt :
  virt mod HUGE_PAGE_SIZE = 0 -> path v = path virt -> exists v', virt <= v' < virt + HUGE_PAGE_SIZE /\ vpage v' = vpage v.
Proof.
  rewrite path_vpage. intros Hal E. exists (virt + PAGE_SIZE * (vpage v mod 512)). pose proof (Z.mod_pos_bound (vpage v) 512).
  split; [unfold HUGE_PAGE_SIZE, PAGE_SIZE; lia |]. unfold vpage at 1. rewrite Z.mul_comm, Z.div_add by done.
  apply Z.div_exact in Hal; [| done]. revert E. unfold vpage at 2. rewrite Hal. generalize (virt / HUGE_PAGE_SIZE). intros k.
  change HUGE_PAGE_SIZE with (512 * PAGE_SIZE). replace (512 * PAGE_SIZE * k) with (512 * k * PAGE_SIZE) by lia. rewrite !Z.div_mul by done.
  assert (0 <= vpage v < 2 ^ 36) by (by apply Z.mod_pos_bound). generalize dependent (vpage v). intros.
  Z.to_euclidean_division_equations. lia.
Qed.

(** Every present page is one of the requested. *)
Lemma present_requested root lay limit w v m :
  built root (init_requests lay limit) w -> physical_memory_offset boot mod HUGE_PAGE_SIZE = 0 -> limit mod HUGE_PAGE_SIZE = 0 ->
  query_root (Some boot) root v (mem w) = Some m -> present m = true ->
  exists v', vpage v' = vpage v /\
    (physical_memory_offset boot <= v' < physical_memory_offset boot + limit \/
     Exists (fun '(start, end_, _) => page_floor start <= v' < page_ceil end_) (sections lay)).
Proof.
  intros B Hal Hlim. rewrite query_space by apply B. destruct (leaf (mem w) root v) as [[e h] |] eqn:El; [| by intros [= <-]]. intros _ _.
  destruct (built_only _ _ _ B v _ El) as (virt & [(p & Hp & Hx) | Hx] & Hv).
  - destruct (chunk_needs_4k_mapping boot (chunk_of p)).
    + destruct Hx as (_ & -> & [= -> ->]). unfold on_page in Hv. cbn [snd] in Hv. apply same_page_vpage in Hv.
      exists (physical_memory_offset boot + p). split; [done |]. left. lia.
    + destruct Hx as (Hm & -> & [= -> ->]). unfold on_page in Hv. cbn [snd] in Hv. apply page_in_chunk in Hv as (v' & Hr & Ev).
      2: by rewrite (proj2 (offset_mod _ p Hal)).
      exists v'. split; [done |]. left. enough (p + HUGE_PAGE_SIZE <= limit) by lia.
      apply Z.div_exact in Hm, Hlim; [| done ..]. unfold HUGE_PAGE_SIZE in *. lia.
  - apply Exists_exists in Hx as ([[start end_] flags] & Hin & _ & Hr & _ & phys & _ & [= -> ->]).
    unfold on_page in Hv. cbn [snd] in Hv. apply same_page_vpage in Hv. exists virt. split; [done |]. right.
    apply Exists_exists. by exists (start, end_, flags).
Qed.

(** ** Device windows and the temporary page *)

Record running (s : paging_state) (w : world) : Prop := {
  run_boot : active_boot s = Some boot;
  run_space : space (kernel_root s) w;
  run_mmio : MMIO_BASE <= mmio_next s <= MMIO_LIMIT /\ mmio_next s mod PAGE_SIZE = 0;
  run_temp : temp_mapped s = true -> exists e, leaf (mem w) (kernel_root s) TEMP_MAP_BASE = Some (e, false)
}.

Lemma space_root root w : space root w -> root <> 0.
Proof. intros [T H]. pose proof (sp_frame _ _ _ H _ _ (sp_root _ _ _ H)) as (_ & ? & _). lia. Qed.

Definition mmio_flags : Z := Z.lor (Z.lor (Z.lor PAGE_RW PAGE_NX) PAGE_PCD) PAGE_PWT.

Definition mmio_requests (virt phys lo hi : Z) : requests := fun a x =>
  exists d, lo <= d < hi /\ d mod PAGE_SIZE = 0 /\ a = virt + d /\ x = (entry_4k (u64 (phys + d)) mmio_flags, false).

Lemma mmio_pages_mapper n root virt phys d :
  0 <= d -> d mod PAGE_SIZE = 0 -> 0 <= virt -> virt + d + PAGE_SIZE * Z.of_nat n < 2 ^ 64 ->
  mapper root (mmio_requests virt phys d (d + PAGE_SIZE * Z.of_nat n)) (mmio_pages n boot root virt phys d).
Proof.
  revert d. induction n as [| n IH]; intros d Hd Hal Hv Hw; cbn [mmio_pages].
  { apply mapper_none. intros a x (e & He & _). lia. }
  unfold PAGE_SIZE in Hw. rewrite (u64_small (virt + d)), (u64_small (d + PAGE_SIZE)) by (unfold PAGE_SIZE; lia).
  assert ((d + PAGE_SIZE) mod PAGE_SIZE = 0) as Hal' by (rewrite <- Hal, <- (Z.mul_1_l PAGE_SIZE) at 1; by apply Z.mod_add).
  eapply mapper_seq; [apply map_4k_mapper | apply IH; [unfold PAGE_SIZE; lia | done | done | unfold PAGE_SIZE; lia] |].
  intros a x. unfold mmio_requests. split.
  - intros (e & He & Hm & -> & ->). destruct (decide (e = d)) as [-> | Hne]; [by left | right]. exists e. split; [| done].
    apply Z.div_exact in Hal, Hm; [| done ..]. unfold PAGE_SIZE in *. lia.
  - intros [[-> ->] | (e & He & Hx)]; [exists d | exists e]; (split; [unfold PAGE_SIZE in *; lia | done]).
Qed.

(** The bytes a window of [size] bytes at [phys] takes. *)
Definition mmio_span (phys size : Z) : Z := page_ceil (phys mod PAGE_SIZE + size).

Definition mmio_post (s : paging_state) (phys size : Z) (w : world) (result : option Z * paging_state * world) : Prop :=
  let '(p, s', w') := result in
  let R := mmio_requests (mmio_next s) (page_floor phys) 0 (mmio_span phys size) in
  grows (kernel_root s) R w w' /\
  match p with
  | None => s' = s
  | Some p =>
      p = mmio_next s + phys mod PAGE_SIZE /\ 0 < size /\ mmio_next s + mmio_span phys size <= MMIO_LIMIT /\
      s' = mk_paging (Some boot) (kernel_root s) (direct_limit s) (mmio_next s + mmio_span phys size) (temp_mapped s) /\
      fulfils (kernel_root s) R w'
  end.

Lemma map_mmio_spec s w phys size :
  running s w -> 0 <= phys < 2 ^ 64 -> 0 <= size < 2 ^ 64 -> mmio_post s phys size w (paging_map_mmio s phys size w).
Proof.
  intros Hr Hp Hz. pose proof (run_space _ _ Hr) as Hs.
  assert (mmio_post s phys size w (None, s, w)) as Hnone by (by split; [apply grows_refl |]).
  unfold paging_map_mmio. rewrite (run_boot _ _ Hr). rewrite (proj2 (Z.eqb_neq _ _)) by (by eapply space_root). cbn [orb].
  if_case; [done |]. rewrite align_down_page by done. fold (page_floor phys).
  replace (phys - page_floor phys) with (phys mod PAGE_SIZE) by (unfold page_floor; lia).
  pose proof (Z.mod_pos_bound phys PAGE_SIZE ltac:(done)) as Hm. unfold PAGE_SIZE in Hm. rewrite (u64_small (phys mod PAGE_SIZE)) by (unfold PAGE_SIZE; lia).
  if_case; [done |]. bool_cases. unfold UINT64_MAX in *. rewrite (u64_small (phys mod PAGE_SIZE + size)) by (unfold PAGE_SIZE in *; lia).
  destruct (align_up _ _) as [span |] eqn:Eu; [| done].
  apply align_up_page in Eu as [-> Hw]; [| unfold PAGE_SIZE in *; lia]. fold (mmio_span phys size) in *.
  destruct (run_mmio _ _ Hr) as [Hn Hna]. unfold MMIO_BASE, MMIO_LIMIT in *. if_case; [done |]. bool_cases.
  pose proof (page_ceil_ge (phys mod PAGE_SIZE + size)) as Hge. fold (mmio_span phys size) in Hge. change PAGE_SIZE with 4096 in Hge.
  rewrite (u64_small (mmio_next s + mmio_span phys size)) in * by lia. rewrite (u64_small (mmio_next s + phys mod PAGE_SIZE)) by (unfold PAGE_SIZE; lia).
  assert (mmio_span phys size = 0 + PAGE_SIZE * Z.of_nat (Z.to_nat (mmio_span phys size / PAGE_SIZE))) as Hspan.
  { rewrite Z2Nat.id by (apply Z.div_pos; [lia | done]). unfold mmio_span, page_ceil. rewrite page_floor_div, (Z.mul_comm PAGE_SIZE), Z.div_mul by done. lia. }
  destruct (mmio_pages_mapper (Z.to_nat (mmio_span phys size / PAGE_SIZE)) (kernel_root s) (mmio_next s) (page_floor phys) 0) with (w := w)
    as (r & w' & -> & G & F); [done | done | lia | lia | done |]. rewrite <- Hspan in G, F.
  destruct r as [st | []]; [done |]. split; [done |]. split; [done |]. split; [lia |]. split; [unfold MMIO_LIMIT; lia |].
  split; [done |]. by apply F.
Qed.

Definition temp_flags : Z := Z.lor (Z.lor PAGE_RW PAGE_NX) PAGE_PCD.

(** The leaves, with that of the temporary page replaced. *)
Definition temp_leaves (root : Z) (x : option (Z * bool)) (w w' : world) : Prop :=
  forall v, leaf (mem w') root v = if decide (same_page v TEMP_MAP_BASE) then x else leaf (mem w) root v.

Lemma temp_map_spec s w phys :
  running s w -> 0 <= phys < 2 ^ 64 ->
  exists p s' w', paging_temp_map s phys w = (p, s', w') /\ space (kernel_root s) w' /\
    match p with
    | None => s' = s /\ same_leaves (kernel_root s) w w'
    | Some p => p = TEMP_MAP_BASE + phys mod PAGE_SIZE /\ s' = set_temp_mapped s true /\
        temp_leaves (kernel_root s) (Some (entry_4k (page_floor phys) temp_flags, false)) w w'
    end.
Proof.
  intros Hr Hp. unfold paging_temp_map. rewrite (run_boot _ _ Hr). pose proof (run_space _ _ Hr) as Hs.
  rewrite (proj2 (Z.eqb_neq _ _)) by (by eapply space_root). rewrite align_down_page by done. fold (page_floor phys).
  replace (phys - page_floor phys) with (phys mod PAGE_SIZE) by (unfold page_floor; lia).
  assert (0 <= phys mod PAGE_SIZE < 4096) as Hm by (by apply Z.mod_pos_bound).
  rewrite (u64_small (phys mod PAGE_SIZE)), (u64_small (TEMP_MAP_BASE + _)) by (unfold TEMP_MAP_BASE; lia).
  destruct (map_4k_spec (kernel_root s) w TEMP_MAP_BASE (page_floor phys) temp_flags true Hs) as (r & w' & E & Hs' & Hr').
  unfold temp_flags in E. rewrite E. destruct r as [st | u]; [by exists None, s, w' |].
  eexists _, _, w'. split; [done |]. split; [done |]. split; [done |]. split; [done |]. intros v. apply Hr'.
Qed.

Lemma leaf_path root w T v e : space_ok root w T -> leaf (mem w) root v = Some (e, false) -> exists pt, T !! path v = Some pt.
Proof.
  intros H. rewrite (leaf_tree root w T) by done. unfold tree_leaf. fold (path v). destruct (T !! path v) as [pt |]; [by exists pt |].
  repeat case_match; naive_solver.
Qed.

Lemma next_table_found root w T p f i g :
  space_ok root w T -> T !! p = Some f -> T !! (p ++ [i]) = Some g -> next_table boot f i false w = (inr g, w) /\ bit_set (mem w (f + 8 * i)) PAGE_PS = false.
Proof.
  intros H Hp Hg. destruct (sp_edge _ _ _ H p i g Hg) as (_ & _ & f' & Hf' & H1 & H2 & H3). assert (f' = f) as -> by congruence.
  split; [| done]. unfold next_table, mbind, paging_bind, read. rewrite H1, H2. cbn [negb orb]. by rewrite H3.
Qed.

Lemma pte_found root w T virt pt :
  space_ok root w T -> T !! path virt = Some pt -> pte_for_virtual boot root virt false w = (inr (pt + 8 * table_index virt 12), w).
Proof.
  intros H Hpt. unfold path in Hpt.
  destruct (sp_edge _ _ _ H [table_index virt 39; table_index virt 30] _ pt Hpt) as (_ & _ & f2 & H2 & _).
  destruct (sp_edge _ _ _ H [table_index virt 39] _ f2 H2) as (_ & _ & f1 & H1 & _).
  pose proof (sp_root _ _ _ H) as H0.
  destruct (next_table_found root w T [] root _ f1 H H0 H1) as [E1 _].
  destruct (next_table_found root w T [table_index virt 39] f1 _ f2 H H1 H2) as [E2 _].
  destruct (next_table_found root w T [table_index virt 39; table_index virt 30] f2 _ pt H H2 Hpt) as [E3 Hps].
  unfold pte_for_virtual, mbind, paging_bind. rewrite table_ptr_frame by (by apply (sp_frame _ _ _ H _ _ H0)). rewrite E1.
  rewrite table_ptr_frame by (by apply (sp_frame _ _ _ H _ _ H1)). rewrite E2. rewrite table_ptr_frame by (by apply (sp_frame _ _ _ H _ _ H2)).
  unfold read at 1. rewrite Hps, E3. by rewrite table_ptr_frame by (by apply (sp_frame _ _ _ H _ _ Hpt)).
Qed.

Lemma write_word a x w : (write a 0 x w).2 = set_word w a x.
Proof. unfold write. cbn [snd]. by rewrite Z.mul_0_r, Z.add_0_r. Qed.

Lemma temp_unmap_spec s w :
  running s w ->
  exists w', paging_temp_unmap s w = (set_temp_mapped s false, w') /\ space (kernel_root s) w' /\
    if temp_mapped s then temp_leaves (kernel_root s) None w w' else w' = w.
Proof.
  intros Hr. unfold paging_temp_unmap. pose proof (run_boot _ _ Hr) as Hb. rewrite Hb. destruct (run_space _ _ Hr) as [T H].
  rewrite (proj2 (Z.eqb_neq _ _)) by (eapply space_root; by exists T). cbn [orb]. destruct (temp_mapped s) eqn:Et; cbn [negb].
  - destruct (run_temp _ _ Hr Et) as [e He]. destruct (leaf_path _ w T _ e H He) as [pt Hpt].
    rewrite (pte_found _ w T _ pt H Hpt). eexists. split; [done |]. rewrite write_word. split.
    { exists T. apply set_word_ok with (p := path TEMP_MAP_BASE); [done | done | apply table_index_range | by left]. }
    intros v. by rewrite (set_pte_leaf _ w T).
  - exists w. split; [| split; [by exists T | done]]. unfold set_temp_mapped. destruct s; cbn in *. congruence.
Qed.

(** ** Writable or executable *)

Definition wx_entry (e : Z) : Prop := Z.testbit e 1 = true -> Z.testbit e 63 = true.
Definition wx (root : Z) (w : world) : Prop := forall v e h, leaf (mem w) root v = Some (e, h) -> wx_entry e.

Lemma aligned_bit p n : p mod PAGE_SIZE = 0 -> 0 <= n < 12 -> Z.testbit p n = false.
Proof. intros Hp Hn. rewrite <- (Z.mod_pow2_bits_low p 12 n) by lia. change (2 ^ 12) with PAGE_SIZE. by rewrite Hp, Z.bits_0. Qed.

Lemma entry_wx p flags : p mod PAGE_SIZE = 0 -> flags ∈ kernel_flags -> wx_entry (entry_4k p flags) /\ wx_entry (entry_2m p flags).
Proof.
  intros Hp [_ Hf]%kernel_flags_ok. unfold wx_entry, entry_4k, entry_2m. rewrite !Z.lor_spec, (aligned_bit p 1) by (done || lia).
  change (Z.testbit PAGE_PRESENT 1) with false. change (Z.testbit PAGE_PS 1) with false. cbn [orb].
  split; intros H%Hf; rewrite H; by rewrite orb_true_r.
Qed.

Lemma grows_wx root (R : requests) w w' : grows root R w w' -> (forall virt x, R virt x -> wx_entry x.1) -> wx root w -> wx root w'.
Proof.
  intros G HR Hw v e h He. destruct (grows_only _ _ _ _ G v) as [E | (virt & x & Hx & _ & E)].
  - apply (Hw v e h). congruence.
  - specialize (HR virt x Hx). assert (x = (e, h)) as -> by congruence. done.
Qed.

Lemma page_floor_mod v : page_floor v mod PAGE_SIZE = 0.
Proof. rewrite page_floor_div, Z.mul_comm. by apply Z.mod_mul. Qed.

Lemma init_requests_wx lay limit virt x :
  boot_context_ok boot -> init_requests lay limit virt x -> wx_entry x.1.
Proof.
  intros Hb [(p & Hp & Hx) | Hx].
  - case_match; destruct Hx as (Hm & _ & ->); cbn [fst].
    + by apply entry_wx; [| apply direct_flags_kernel].
    + apply entry_wx; [| unfold kernel_flags; do 2 right; left]. apply Z.div_exact in Hm; [| done]. rewrite Hm.
      change HUGE_PAGE_SIZE with (512 * PAGE_SIZE). rewrite <- Z.mul_assoc, (Z.mul_comm PAGE_SIZE), Z.mul_assoc. by apply Z.mod_mul.
  - apply Exists_exists in Hx as ([[start end_] flags] & Hin & _ & _ & _ & phys & Hph & ->). cbn [fst]. apply entry_wx.
    + rewrite align_down_page; [apply page_floor_mod |]. unfold kernel_phys_for_virtual in Hph. repeat case_match; simplify_eq. apply u64_range.
    + unfold sections in Hin. unfold kernel_flags.
      repeat (apply elem_of_cons in Hin as [[= -> -> ->] | Hin]); try (by apply elem_of_nil in Hin); repeat first [left | right].
Qed.

Lemma mmio_requests_wx virt phys lo hi a x : phys mod PAGE_SIZE = 0 -> mmio_requests virt phys lo hi a x -> wx_entry x.1.
Proof.
  intros Hp (d & _ & Hd & _ & ->). cbn [fst]. apply entry_wx; [| unfold kernel_flags; do 4 right; left].
  unfold u64. change (2 ^ 64) with (PAGE_SIZE * 2 ^ 52). rewrite Z.rem_mul_r by done.
  rewrite (Z.mul_comm PAGE_SIZE), Z.mod_add by done. rewrite Z.mod_mod by done. rewrite Zplus_mod, Hp, Hd. done.
Qed.

(** Changes elsewhere leave the address space alone. *)
Lemma space_frame root w w' T :
  space_ok root w T -> (forall p f i, T !! p = Some f -> 0 <= i < 512 -> mem w' (f + 8 * i) = mem w (f + 8 * i)) -> free_ok boot w' ->
  (forall p f a, T !! p = Some f -> f <= a < f + PAGE_SIZE -> ~ covers (free_ranges (frames w')) a) ->
  space_ok root w' T /\ same_leaves root w w'.
Proof.
  intros H Hm Hf Hu. assert (space_ok root w' T) as H'.
  { split; try apply H; [done | | | done].
    - intros p i f Hp. destruct (sp_edge _ _ _ H p i f Hp) as (Hl & Hi & g & Hg & Hpt). split; [done |]. split; [done |].
      exists g. split; [done |]. by rewrite (Hm p).
    - intros p f i Hp Hl Hi. rewrite (Hm p) by done. by apply (sp_entry _ _ _ H). }
  split; [done |]. intros v. rewrite (leaf_tree root w' T), (leaf_tree root w T) by done. unfold tree_leaf. fold (path v).
  destruct (T !! path v) as [pt |] eqn:E1; [by rewrite (Hm _ _ _ E1 (table_index_range v 12)) |].
  destruct (T !! [_; _]) as [pd |] eqn:E2; [| done]. by rewrite (Hm _ _ _ E2 (table_index_range v 21)).
Qed.

(** ** Histories *)

(** The word at [a], or the frames of a run, belong to no table. *)
Definition outside_tables (s : paging_state) (w : world) (lo hi : Z) : Prop :=
  exists T, space_ok (kernel_root s) w T /\ forall p f, T !! p = Some f -> hi <= f \/ f + PAGE_SIZE <= lo.

(** Calls of the paging interface, and what the rest of the kernel does with
    frames and memory that are not tables. *)
Inductive paging_step : paging_state * world -> paging_state * world -> Prop :=
| step_mmio s w phys size p s' w' :
    0 <= phys < 2 ^ 64 -> 0 <= size < 2 ^ 64 -> paging_map_mmio s phys size w = (p, s', w') -> paging_step (s, w) (s', w')
| step_temp_map s w phys p s' w' :
    0 <= phys < 2 ^ 64 -> paging_temp_map s phys w = (p, s', w') -> paging_step (s, w) (s', w')
| step_temp_unmap s w s' w' : paging_temp_unmap s w = (s', w') -> paging_step (s, w) (s', w')
| step_alloc s w n f fs : 0 <= n < 2 ^ 32 -> pmm_alloc_frames (frames w) n = (f, fs) -> paging_step (s, w) (s, mk_world (mem w) fs)
| step_free s w f n st fs :
    0 <= f < 2 ^ 64 -> 0 <= n < 2 ^ 32 -> outside_tables s w f (f + n * PMM_PAGE_SIZE) ->
    pmm_free_frames (frames w) f n = (st, fs) -> paging_step (s, w) (s, mk_world (mem w) fs)
| step_store s w a x : outside_tables s w a (a + 1) -> paging_step (s, w) (s, set_word w a x).

(** Holds throughout: [w0] is the world the history starts in. *)
Record history_ok (root : Z) (w0 : world) (sw : paging_state * world) : Prop := {
  hist_running : running sw.1 sw.2;
  hist_root : kernel_root sw.1 = root;
  hist_wx : wx root sw.2;
  hist_keep : forall v x, ~ same_page v TEMP_MAP_BASE -> leaf (mem w0) root v = Some x -> leaf (mem sw.2) root v = Some x
}.

Lemma history_frame root w0 s w w' T :
  history_ok root w0 (s, w) -> space_ok root w T ->
  (forall p f i, T !! p = Some f -> 0 <= i < 512 -> mem w' (f + 8 * i) = mem w (f + 8 * i)) -> free_ok boot w' ->
  (forall p f a, T !! p = Some f -> f <= a < f + PAGE_SIZE -> ~ covers (free_ranges (frames w')) a) ->
  history_ok root w0 (s, w').
Proof.
  intros [Hr Hroot Hwx Hk] HT Hm Hf Hu. cbn [fst snd] in *. destruct (space_frame root w w' T HT Hm Hf Hu) as [H' L].
  split; cbn [fst snd]; [| done | |].
  - split; [apply Hr | rewrite Hroot; by exists T | apply Hr |]. intros Ht. destruct (run_temp _ _ Hr Ht) as [e He]. exists e.
    rewrite Hroot in *. by rewrite (L TEMP_MAP_BASE).
  - intros v e h. rewrite (L v). apply Hwx.
  - intros v x Hv Hx. rewrite (L v). by apply Hk.
Qed.

Lemma mmio_running s w phys size p s' w' :
  running s w -> 0 <= phys < 2 ^ 64 -> 0 <= size < 2 ^ 64 -> paging_map_mmio s phys size w = (p, s', w') ->
  running s' w' /\ kernel_root s' = kernel_root s.
Proof.
  intros Hr Hp Hz E. pose proof (map_mmio_spec s w phys size Hr Hp Hz) as Hpost. rewrite E in Hpost.
  destruct Hpost as [G Hpost]. destruct (run_mmio _ _ Hr) as [Hn Hna].
  assert (kernel_root s' = kernel_root s /\ active_boot s' = Some boot /\ temp_mapped s' = temp_mapped s /\
    MMIO_BASE <= mmio_next s' <= MMIO_LIMIT /\ mmio_next s' mod PAGE_SIZE = 0) as (Hroot' & Hb' & Ht' & Hn' & Hna').
  { destruct p as [p |]; [| subst s'; by rewrite (run_boot _ _ Hr)]. destruct Hpost as (_ & Hsz & Hlim & -> & _). cbn.
    pose proof (page_ceil_ge (phys mod PAGE_SIZE + size)) as Hge. fold (mmio_span phys size) in Hge.
    pose proof (Z.mod_pos_bound phys PAGE_SIZE ltac:(done)). do 3 (split; [done |]). split; [lia |].
    rewrite Zplus_mod, Hna. unfold mmio_span, page_ceil. by rewrite page_floor_mod. }
  split; [| done]. split; [done | rewrite Hroot'; apply G | done |]. rewrite Ht', Hroot'. intros Ht. destruct (run_temp _ _ Hr Ht) as [e He].
  exists e. by apply (grows_keep _ _ _ _ G).
Qed.

Lemma history_mmio root w0 s w phys size p s' w' :
  history_ok root w0 (s, w) -> 0 <= phys < 2 ^ 64 -> 0 <= size < 2 ^ 64 -> paging_map_mmio s phys size w = (p, s', w') ->
  history_ok root w0 (s', w').
Proof.
  intros [Hr Hroot Hwx Hk] Hp Hz E. cbn [fst snd] in *. destruct (mmio_running s w phys size p s' w' Hr Hp Hz E) as [Hr' Hroot'].
  pose proof (map_mmio_spec s w phys size Hr Hp Hz) as Hpost. rewrite E in Hpost. destruct Hpost as [G _]. rewrite Hroot in *.
  split; cbn [fst snd]; [done | done | |].
  - eapply grows_wx; [done | | done]. intros a x. apply mmio_requests_wx, page_floor_mod.
  - intros v x Hv Hx. by apply (grows_keep _ _ _ _ G), Hk.
Qed.

Lemma temp_page_leaf root x w w' : temp_leaves root x w w' -> leaf (mem w') root TEMP_MAP_BASE = x.
Proof. intros L. rewrite (L TEMP_MAP_BASE). by rewrite decide_True. Qed.

Lemma temp_history root w0 s w b x w' :
  history_ok root w0 (s, w) -> space root w' -> temp_leaves root x w w' ->
  (match x with Some (e, h) => wx_entry e /\ h = false | None => b = false end) ->
  history_ok root w0 (set_temp_mapped s b, w').
Proof.
  intros [Hr Hroot Hwx Hk] Hs L Hx. cbn [fst snd] in *. split; cbn [fst snd]; [| done | |].
  - split; [apply Hr | cbn; by rewrite Hroot | apply Hr |]. cbn. rewrite Hroot. intros ->. rewrite (temp_page_leaf _ _ _ _ L).
    destruct x as [[e h] |]; [| done]. destruct Hx as [_ ->]. by exists e.
  - intros v e h. rewrite (L v). case_decide; [| apply Hwx]. intros ->. apply Hx.
  - intros v y Hv Hy. rewrite (L v). rewrite decide_False by done. by apply Hk.
Qed.

Lemma temp_unmap_history root w0 s w s' w' :
  history_ok root w0 (s, w) -> paging_temp_unmap s w = (s', w') -> history_ok root w0 (s', w').
Proof.
  intros H E. pose proof (hist_running _ _ _ H) as Hr. cbn in Hr. destruct (temp_unmap_spec s w Hr) as (w2 & E2 & Hs & Hl).
  rewrite E2 in E. injection E as <- <-. rewrite (hist_root _ _ _ H : kernel_root s = root) in *. destruct (temp_mapped s) eqn:Et.
  - by apply (temp_history root w0 s w false None).
  - subst w2. replace (set_temp_mapped s false) with s; [done |]. destruct s; cbn in *. by subst.
Qed.

Lemma temp_map_history root w0 s w phys p s' w' :
  history_ok root w0 (s, w) -> 0 <= phys < 2 ^ 64 -> paging_temp_map s phys w = (p, s', w') -> history_ok root w0 (s', w').
Proof.
  intros H Hp E. pose proof (hist_running _ _ _ H) as Hr. cbn in Hr. destruct (temp_map_spec s w phys Hr Hp) as (q & s2 & w2 & E2 & Hs & Hl).
  rewrite E2 in E. injection E as -> -> ->. rewrite (hist_root _ _ _ H : kernel_root s = root) in *. destruct p as [p |].
  - destruct Hl as (_ & -> & L). eapply temp_history; [done | done | done |]. split; [| done].
    apply entry_wx; [apply page_floor_mod | unfold kernel_flags; do 3 right; left].
  - destruct Hl as [-> L]. destruct H as [_ Hroot Hwx Hk]. cbn [fst snd] in *. split; cbn [fst snd]; [| done | |].
    + split; [apply Hr | by rewrite Hroot | apply Hr |]. intros Ht. destruct (run_temp _ _ Hr Ht) as [e He]. exists e.
      rewrite Hroot in *. by rewrite (L TEMP_MAP_BASE).
    + intros v e h. rewrite (L v). apply Hwx.
    + intros v x Hv Hx. rewrite (L v). by apply Hk.
Qed.

Lemma paging_history_step root w0 sw sw' : history_ok root w0 sw -> paging_step sw sw' -> history_ok root w0 sw'.
Proof.
  intros H Hstep. destruct Hstep as [s w phys size p s' w' Hp Hz E | s w phys p s' w' Hp E | s w s' w' E | s w n f fs Hn E
    | s w f n st fs Hf Hn (T & HT & Hout) E | s w a x (T & HT & Hout)].
  - by apply (history_mmio root w0 s w phys size p).
  - by apply (temp_map_history root w0 s w phys p).
  - by apply (temp_unmap_history root w0 s w).
  - pose proof (run_space _ _ (hist_running _ _ _ H)) as [T HT]. cbn [fst snd] in HT. rewrite (hist_root _ _ _ H : kernel_root s = root) in HT.
    destruct (sp_free _ _ _ HT) as [Hinv Hman]. pose proof (alloc_frames_spec (frames w) n Hinv Hn) as Hpost. rewrite E in Hpost. unfold alloc_post in Hpost.
    destruct (f =? PMM_INVALID_FRAME). { destruct Hpost as [-> _]. by destruct w. }
    destruct Hpost as (Hinv' & _ & _ & _ & Hcov & Hmr & _). apply (history_frame root w0 s w _ T); [done | done | done | |].
    + split; [done |]. cbn. by rewrite Hmr.
    + cbn. intros p g a Hg Ha [Hc _]%Hcov. by apply (sp_used _ _ _ HT p g a Hg Ha).
  - rewrite (hist_root _ _ _ H : kernel_root s = root) in HT. destruct (sp_free _ _ _ HT) as [Hinv Hman].
    pose proof (free_frames_spec (frames w) f n Hinv Hf Hn) as Hpost. rewrite E in Hpost.
    destruct st; cbn in Hpost; try (by destruct Hpost); try (destruct Hpost as [-> _]; by destruct w).
    destruct Hpost as (Hinv' & _ & _ & _ & Hcov & Hmr & _). apply (history_frame root w0 s w _ T); [done | done | done | |].
    + split; [done |]. cbn. by rewrite Hmr.
    + cbn. intros p g a Hg Ha [Hc | Hc]%Hcov; [by apply (sp_used _ _ _ HT p g a Hg Ha) |]. unfold in_run in Hc. destruct (Hout p g Hg); lia.
  - rewrite (hist_root _ _ _ H : kernel_root s = root) in HT. apply (history_frame root w0 s w _ T); [done | done | | apply HT | apply HT].
    intros p g i Hg Hi. cbn. rewrite store_spec. rewrite (proj2 (Z.eqb_neq _ _)); [done |]. pose proof (table_word g i Hi). destruct (Hout p g Hg); lia.
Qed.

End Tables.

(** ** Properties *)

Definition framebuffer_in_page (boot : boot_context_t) (a : Z) : bool :=
  ranges_overlap (page_floor a) (page_floor a + PAGE_SIZE) (framebuffer_phys_start boot) (framebuffer_phys_end boot).

Lemma direct_pointer_iff boot root limit :
  0 <= physical_memory_offset boot -> physical_memory_offset boot + limit <= 2 ^ 64 ->
  forall a p, 0 <= a -> paging_direct_pointer (mk_paging (Some boot) root limit MMIO_BASE false) a = Some p <->
    a < limit /\ p = physical_memory_offset boot + a.
Proof.
  intros Hoff Hw a p Ha. unfold paging_direct_pointer. cbn. unfold UINT64_MAX in *. destruct (decide (a < limit)).
  - rewrite (proj2 (Z.leb_gt _ _)), (proj2 (Z.ltb_ge _ _)), u64_small by lia. cbn. split; [by intros [= <-] | by intros [_ ->]].
  - rewrite (proj2 (Z.leb_le _ _)) by lia. cbn. split; [done | lia].
Qed.

Lemma section_cached boot lay start end_ flags : (start, end_, flags) ∈ sections boot lay -> Z.testbit flags 4 = false.
Proof. unfold sections. intros Hin. by repeat (apply elem_of_cons in Hin as [[= -> -> ->] | Hin]); try (by apply elem_of_nil in Hin). Qed.

(** C18. A successful [paging_init] builds the address space the kernel's layout
    asks for.  Every direct pointer translates to the physical address it was
    made from, never executable, and the frames of [.text] and [.rodata] have
    no writable alias there; all usable memory has direct pointers.  Every page
    of a kernel section translates to its place in the image with exactly the
    section's permissions.  Nothing else is mapped. *)
Theorem paging_init_correct lay boot out s w out' s' w' :
  boot_context_ok boot -> layout_ok lay -> image_ok boot lay -> free_ok boot w ->
  paging_init lay (Some boot) (Some out) s w = (PAGING_OK, out', s', w') ->
  out' = Some (paging_current_root s') /\
  (forall a p, 0 <= a -> paging_direct_pointer s' a = Some p ->
     exists m, paging_query s' p (mem w') = Some m /\ present m = true /\ Paging.physical_address m = a /\ executable m = false) /\
  (forall r e a, r ∈ regions boot -> usable_end r e -> base r <= a < e -> is_Some (paging_direct_pointer s' a)) /\
  (forall v p, text_start lay <= v < text_end lay \/ rodata_start lay <= v < rodata_end lay ->
     framebuffer_in_page boot (kernel_phys boot v) = false -> paging_direct_pointer s' (kernel_phys boot v) = Some p ->
     exists m, paging_query s' p (mem w') = Some m /\ writable m = false) /\
  (forall start end_ flags v, (start, end_, flags) ∈ sections boot lay -> start < end_ -> page_floor start <= v < page_ceil end_ ->
     paging_query s' v (mem w') =
       Some (mk_mapping (kernel_phys boot v) true (bit_set flags PAGE_RW) (negb (bit_set flags PAGE_NX)) false false)) /\
  (forall v m, paging_query s' v (mem w') = Some m -> present m = true ->
     exists v', vpage v' = vpage v /\
       ((exists a, 0 <= a /\ paging_direct_pointer s' a = Some v') \/
        Exists (fun '(start, end_, _) => page_floor start <= v' < page_ceil end_) (sections boot lay))).
Proof.
  intros Hb Hlay Hi Hf E. assert (0 <= physical_memory_offset boot < 2 ^ 64) as Hoff by apply Hb.
  destruct (paging_init_spec boot (proj1 Hoff) lay out s w out' s' w' Hb Hlay Hf E) as (root & limit & -> & -> & Hlim & Hw & Hal & B).
  destruct (physical_map_limit_spec boot limit Hb Hlim) as (Hl & Hlm & Hfb & Hk & Hus). unfold paging_query, paging_current_root. cbn [kernel_root active_boot].
  pose proof (direct_pointer_iff boot root limit (proj1 Hoff) Hw) as Hdp.
  assert (forall a, 0 <= a < limit -> query_root (Some boot) root (physical_memory_offset boot + a) (mem w') = Some (direct_mapping boot lay a)) as Hq.
  { intros a Ha. apply (direct_query boot (proj1 Hoff) root lay limit); done || lia. }
  split; [done |]. split; [| split; [| split; [| split]]].
  - intros a p Ha [Hal' ->]%Hdp; [| done]. exists (direct_mapping boot lay a). split; [by apply Hq |].
    unfold direct_mapping. by case_match.
  - intros r e a Hr He Ha. specialize (Hus r e Hr He). assert (0 <= base r).
    { destruct Hb as (_ & Hreg & _). rewrite Forall_forall in Hreg. apply Hreg. unfold regions in Hr. by eapply elem_of_subseteq; [apply subseteq_take |]. }
    eexists. apply Hdp; [lia |]. split; [lia | done].
  - intros v p Hv Hnf Hp. assert (0 <= kernel_phys boot v) as H0.
    { destruct Hb as (_ & _ & _ & _ & _ & _ & _ & Hps & _ & Hvs & _). unfold kernel_phys.
      destruct (image_sections _ _ Hi (text_start lay) (text_end lay) 0) as [? _]; [unfold sections; right; left |].
      destruct (image_sections _ _ Hi (rodata_start lay) (rodata_end lay) PAGE_NX) as [? _]; [unfold sections; do 2 right; left |]. lia. }
    apply Hdp in Hp as [Hlt ->]; [| done]. exists (direct_mapping boot lay (kernel_phys boot v)). split; [by apply Hq |].
    destruct Hv as [Hv | Hv]; (eapply read_only_alias; [done | done | lia | | done | done]); [by left | by right].
  - intros start end_ flags v Hsec Hne Hv. rewrite rw_bit, nx_bit.
    rewrite (section_query boot (proj1 Hoff) root lay limit w' start end_ flags v) by (done || lia). do 2 f_equal. by apply section_cached in Hsec.
  - intros v m Hm Hpr. destruct (present_requested boot (proj1 Hoff) root lay limit w' v m B Hal Hlm Hm Hpr) as (v' & Ev & Hv').
    exists v'. split; [done |]. destruct Hv' as [Hv' | ?]; [left | by right]. exists (v' - physical_memory_offset boot).
    split; [lia |]. apply Hdp; lia.
Qed.

Lemma aligned_add a x : a mod PAGE_SIZE = 0 -> (a + x) mod PAGE_SIZE = x mod PAGE_SIZE.
Proof. intros Ha. apply Z.div_exact in Ha; [| done]. rewrite Ha, Z.add_comm, Z.mul_comm. by apply Z.mod_add. Qed.

Lemma page_floor_add a x : a mod PAGE_SIZE = 0 -> page_floor (a + x) = a + page_floor x.
Proof. intros Ha. unfold page_floor. rewrite aligned_add by done. lia. Qed.

Lemma init_running lay boot out s w out' s' w' :
  boot_context_ok boot -> layout_ok lay -> free_ok boot w ->
  paging_init lay (Some boot) (Some out) s w = (PAGING_OK, out', s', w') ->
  running boot s' w' /\ history_ok boot (kernel_root s') w' (s', w').
Proof.
  intros Hb Hlay Hf E. assert (0 <= physical_memory_offset boot) as Hoff by apply Hb.
  destruct (paging_init_spec boot Hoff lay out s w out' s' w' Hb Hlay Hf E) as (root & limit & -> & -> & Hlim & Hw & Hal & B).
  assert (running boot (mk_paging (Some boot) root limit MMIO_BASE false) w') as Hr by (split; [done | apply B | done | done]).
  split; [done |]. split; cbn [fst snd kernel_root]; [done | done | | done].
  intros v e h Hl. destruct (built_only _ _ _ _ B v _ Hl) as (virt & HR & _). by apply (init_requests_wx boot lay limit virt (e, h)).
Qed.

Lemma running_query boot s w v :
  0 <= physical_memory_offset boot -> running boot s w ->
  paging_query s v (mem w) =
    Some (match leaf (mem w) (kernel_root s) v with
          | None => absent
          | Some (e, h) => leaf_mapping e v (if h : bool then HUGE_PAGE_SIZE else PAGE_SIZE) h
          end).
Proof. intros Hoff Hr. unfold paging_query. rewrite (run_boot _ _ _ Hr). apply query_space; [done | apply Hr]. Qed.

(** A leaf that is kept answers queries as before. *)
Lemma kept_query boot s w s' w' v m :
  0 <= physical_memory_offset boot -> running boot s w -> running boot s' w' -> kernel_root s' = kernel_root s ->
  (forall x, leaf (mem w) (kernel_root s) v = Some x -> leaf (mem w') (kernel_root s) v = Some x) ->
  paging_query s v (mem w) = Some m -> present m = true -> paging_query s' v (mem w') = Some m.
Proof.
  intros Hoff Hr Hr' Hroot Hk. rewrite !(running_query boot) by done. rewrite Hroot.
  destruct (leaf (mem w) (kernel_root s) v) as [[e h] |]; [| by intros [= <-]]. by rewrite (Hk _ eq_refl).
Qed.

(** C19. After a successful [paging_init], whatever device windows are mapped and
    temporary pages mapped and unmapped, and whatever the rest of the kernel
    does with frames and memory outside the tables: no address is both writable
    and executable, and every translation made by [paging_init] stays, except
    that of the temporary page. *)
Theorem paging_histories_safe lay boot out s w out' s0 w0 s' w' :
  boot_context_ok boot -> layout_ok lay -> free_ok boot w ->
  paging_init lay (Some boot) (Some out) s w = (PAGING_OK, out', s0, w0) ->
  steps (paging_step boot) (s0, w0) (s', w') ->
  (forall v, exists m, paging_query s' v (mem w') = Some m /\ (writable m = true -> executable m = false)) /\
  (forall v m, vpage v <> vpage TEMP_MAP_BASE -> paging_query s0 v (mem w0) = Some m -> present m = true ->
     paging_query s' v (mem w') = Some m).
Proof.
  intros Hb Hlay Hf E Hsteps. assert (0 <= physical_memory_offset boot) as Hoff by apply Hb.
  destruct (init_running lay boot out s w out' s0 w0 Hb Hlay Hf E) as [Hr0 H0].
  assert (history_ok boot (kernel_root s0) w0 (s', w')) as [Hr Hroot Hwx Hk].
  { eapply (steps_invariant _ (history_ok boot (kernel_root s0) w0)); [exact H0 | | exact Hsteps].
    intros sw sw' H Hs. by apply (paging_history_step boot Hoff _ _ sw). }
  cbn [fst snd] in *. split.
  - intros v. rewrite (running_query boot) by done. eexists. split; [done |]. rewrite Hroot.
    destruct (leaf (mem w') (kernel_root s0) v) as [[e h] |] eqn:El; [| done]. unfold leaf_mapping. cbn. rewrite rw_bit, nx_bit.
    intros H1. by rewrite (Hwx v e h El H1).
  - intros v m Hv. apply (kept_query boot); try done. intros x. apply Hk. by rewrite same_page_vpage.
Qed.

(** [paging_map_mmio]: a window it returns lies in the part of the MMIO
    region not handed out before, every byte of it translates to the device's
    bytes, writable, not executable and uncached, and whatever was mapped
    stays mapped; a call that returns null leaves the state as it was. *)
Theorem paging_map_mmio_correct boot s w phys size p s' w' :
  0 <= physical_memory_offset boot -> running boot s w -> 0 <= phys -> 0 <= size -> phys + size <= 2 ^ 52 ->
  paging_map_mmio s phys size w = (p, s', w') ->
  match p with
  | Some p =>
      (forall i, 0 <= i < size -> paging_query s' (p + i) (mem w') = Some (mk_mapping (phys + i) true true false false true)) /\
      mmio_next s <= p /\ p + size <= mmio_next s' <= MMIO_LIMIT
  | None => s' = s
  end /\
  running boot s' w' /\
  (forall v m, paging_query s v (mem w) = Some m -> present m = true -> paging_query s' v (mem w') = Some m).
Proof.
  intros Hoff Hr Hp Hz Hps E. pose proof (map_mmio_spec boot Hoff s w phys size Hr ltac:(lia) ltac:(lia)) as Hpost. rewrite E in Hpost.
  destruct Hpost as [G Hpost].
  destruct (mmio_running boot Hoff s w phys size p s' w' Hr ltac:(lia) ltac:(lia) E) as [Hr' Hroot].
  split; [| split; [done |]].
  2: { intros v m. apply (kept_query boot); try done. apply G. }
  destruct p as [p |]; [| done]. destruct Hpost as (-> & Hpos & Hlim & Hs' & F).
  pose proof (Z.mod_pos_bound phys PAGE_SIZE ltac:(done)) as Hm. destruct (run_mmio _ _ _ Hr) as [Hn Hna].
  pose proof (page_ceil_ge (phys mod PAGE_SIZE + size)) as Hge. fold (mmio_span phys size) in Hge.
  split; [| split; [lia | rewrite Hs'; cbn; lia]].
  intros i Hi. set (d := page_floor (phys mod PAGE_SIZE + i)). rewrite (running_query boot) by done. rewrite Hroot.
  assert (0 <= d <= phys mod PAGE_SIZE + i) as Hd by (apply page_floor_facts; lia).
  assert (mmio_next s + phys mod PAGE_SIZE + i = mmio_next s + (phys mod PAGE_SIZE + i)) as -> by lia.
  assert (page_floor phys + d + (mmio_next s + (phys mod PAGE_SIZE + i)) mod PAGE_SIZE = phys + i) as Haddr.
  { rewrite aligned_add by done. unfold d, page_floor. lia. }
  assert (same_page (mmio_next s + (phys mod PAGE_SIZE + i)) (mmio_next s + d)) as Hsp.
  { unfold d. rewrite <- page_floor_add by done. apply same_page_floor. }
  rewrite (F (mmio_next s + d) (entry_4k (u64 (page_floor phys + d)) mmio_flags, false) _).
  - destruct (page_floor_facts phys Hp) as (Hf & Hfm & Hfa & _). rewrite u64_small by lia.
    rewrite mapping_4k; [by rewrite Haddr | | apply kernel_flags_ok; unfold kernel_flags; do 4 right; left].
    split; [| lia]. rewrite aligned_add by done. apply page_floor_mod.
  - exists d. split; [lia |]. split; [apply page_floor_mod | done].
  - exact Hsp.
Qed.

Lemma temp_roundtrip_spec boot s w phys p s1 w1 s2 w2 :
  0 <= physical_memory_offset boot -> running boot s w -> 0 <= phys < 2 ^ 52 ->
  paging_temp_map s phys w = (Some p, s1, w1) -> paging_temp_unmap s1 w1 = (s2, w2) ->
  p = TEMP_MAP_BASE + phys mod PAGE_SIZE /\
  (forall i, 0 <= i < PAGE_SIZE ->
     paging_query s1 (TEMP_MAP_BASE + i) (mem w1) = Some (mk_mapping (page_floor phys + i) true true false false true) /\
     paging_query s2 (TEMP_MAP_BASE + i) (mem w2) = Some absent) /\
  (forall v, vpage v <> vpage TEMP_MAP_BASE ->
     paging_query s1 v (mem w1) = paging_query s v (mem w) /\ paging_query s2 v (mem w2) = paging_query s v (mem w)) /\
  s2 = set_temp_mapped s false /\ running boot s2 w2.
Proof.
  intros Hoff Hr Hp E1 E2. destruct (temp_map_spec boot Hoff s w phys Hr ltac:(lia)) as (q & s1' & w1' & E1' & Hs1 & Hq).
  rewrite E1' in E1. injection E1 as -> -> ->. destruct Hq as (-> & -> & L1).
  assert (running boot (set_temp_mapped s true) w1) as Hr1.
  { split; [apply Hr | done | apply Hr |]. intros _. cbn. rewrite (temp_page_leaf _ _ _ _ L1). by eexists. }
  destruct (temp_unmap_spec boot Hoff _ w1 Hr1) as (w2' & E2' & Hs2 & L2). rewrite E2' in E2. injection E2 as <- <-. cbn in L2.
  assert (running boot (set_temp_mapped (set_temp_mapped s true) false) w2') as Hr2 by (by split; [apply Hr | | apply Hr |]).
  split; [done |]. split; [| split; [| done]].
  - intros i Hi. rewrite !(running_query boot) by done. cbn [kernel_root set_temp_mapped].
    assert (same_page (TEMP_MAP_BASE + i) TEMP_MAP_BASE) as Hsp.
    { rewrite same_page_vpage. unfold vpage. change TEMP_MAP_BASE with (0xffffd00000000 * PAGE_SIZE). rewrite Z.add_comm, Z.div_add by done.
      rewrite (Z.div_small i) by done. by rewrite Z.div_mul. }
    assert ((TEMP_MAP_BASE + i) mod PAGE_SIZE = i) as Hmod.
    { change TEMP_MAP_BASE with (0xffffd00000000 * PAGE_SIZE). rewrite Z.add_comm, Z.mod_add by done. by apply Z.mod_small. }
    destruct (page_floor_facts phys) as (Hf & Hfm & _); [lia |].
    rewrite (L1 (TEMP_MAP_BASE + i)), (L2 (TEMP_MAP_BASE + i)), !decide_True by done.
    rewrite mapping_4k; [by rewrite Hmod | split; [done | lia] | apply kernel_flags_ok; unfold kernel_flags; do 3 right; left].
  - intros v Hv. rewrite <- same_page_vpage in Hv. rewrite !(running_query boot) by done. cbn [kernel_root set_temp_mapped].
    by rewrite (L2 v), decide_False, (L1 v), decide_False by done.
Qed.

(** A temporary mapping: the page at [TEMP_MAP_BASE] translates to the
    requested frame, writable, not executable and uncached, until
    [paging_temp_unmap] makes it absent again; every other address translates
    as before throughout. *)
Theorem paging_temp_roundtrip boot s w phys p s1 w1 s2 w2 :
  0 <= physical_memory_offset boot -> running boot s w -> 0 <= phys < 2 ^ 52 ->
  paging_temp_map s phys w = (Some p, s1, w1) -> paging_temp_unmap s1 w1 = (s2, w2) ->
  p = TEMP_MAP_BASE + phys mod PAGE_SIZE /\
  (forall i, 0 <= i < PAGE_SIZE ->
     paging_query s1 (TEMP_MAP_BASE + i) (mem w1) = Some (mk_mapping (page_floor phys + i) true true false false true) /\
     paging_query s2 (TEMP_MAP_BASE + i) (mem w2) = Some absent) /\
  (forall v, vpage v <> vpage TEMP_MAP_BASE ->
     paging_query s1 v (mem w1) = paging_query s v (mem w) /\ paging_query s2 v (mem w2) = paging_query s v (mem w)) /\
  s2 = set_temp_mapped s false /\ running boot s2 w2.
Proof. exact (temp_roundtrip_spec boot s w phys p s1 w1 s2 w2). Qed.

(** A window cannot be mapped while another frame's page is left over at the
    start of the unused part of the MMIO region.  A call that runs out of table
    frames after its first pages leaves such pages behind (its state is
    unchanged, its pages stay mapped), so from then on every call for a device
    elsewhere fails, also when memory is available again. *)
Theorem mmio_leftover_blocks boot s w phys size m :
  0 <= physical_memory_offset boot -> running boot s w -> 0 <= phys < 2 ^ 52 -> 0 <= size < 2 ^ 64 ->
  paging_query s (mmio_next s) (mem w) = Some m -> present m = true -> Paging.physical_address m <> page_floor phys ->
  (paging_map_mmio s phys size w).1 = (None, s).
Proof.
  intros Hoff Hr Hp Hz Hq Hpr Hne. pose proof (map_mmio_spec boot Hoff s w phys size Hr ltac:(lia) Hz) as Hpost.
  destruct (paging_map_mmio s phys size w) as [[[p |] s'] w']; destruct Hpost as [G Hpost]; [exfalso | by subst].
  destruct Hpost as (-> & Hpos & Hlim & Hs' & F). rewrite (running_query boot) in Hq by done.
  destruct (leaf (mem w) (kernel_root s) (mmio_next s)) as [x |] eqn:El; [| by injection Hq as <-].
  destruct (page_floor_facts phys) as (Hf & Hfm & _); [lia |]. pose proof (Z.mod_pos_bound phys PAGE_SIZE ltac:(done)) as Hm.
  assert (x = (entry_4k (u64 (page_floor phys + 0)) mmio_flags, false)) as ->.
  { apply (grows_keep _ _ _ _ _ G) in El. rewrite (F (mmio_next s) (entry_4k (u64 (page_floor phys + 0)) mmio_flags, false)) in El; [congruence | |].
    - exists 0. pose proof (page_ceil_ge (phys mod PAGE_SIZE + size)). unfold mmio_span. rewrite Z.add_0_r. split; [lia | done].
    - done. }
  rewrite Z.add_0_r, u64_small in Hq by lia.
  rewrite mapping_4k in Hq; [| split; [done | lia] | apply kernel_flags_ok; unfold kernel_flags; do 4 right; left].
  injection Hq as <-. apply Hne. cbn. rewrite (proj2 (run_mmio _ _ _ Hr)). lia.
Qed.

(** ** The self-check *)

Definition high (v : Z) : Prop := 2 ^ 64 - 2 ^ 47 <= v < 2 ^ 64.

Lemma vpage_high v v' : high v -> high v' -> vpage v = vpage v' -> page_floor v = page_floor v'.
Proof. unfold high, vpage. rewrite !page_floor_div. unfold PAGE_SIZE. intros. Z.to_euclidean_division_equations. lia. Qed.

Lemma page_bounds start end_ v v' :
  page_floor v = page_floor v' -> page_floor start <= v < page_ceil end_ -> page_floor start <= v' < page_ceil end_.
Proof.
  intros E [H1 H2]. unfold page_ceil in *. rewrite !page_floor_div in *.
  pose proof (Z.div_mod v PAGE_SIZE ltac:(done)). pose proof (Z.mod_pos_bound v PAGE_SIZE ltac:(done)).
  pose proof (Z.div_mod v' PAGE_SIZE ltac:(done)). pose proof (Z.mod_pos_bound v' PAGE_SIZE ltac:(done)). unfold PAGE_SIZE in *. lia.
Qed.

(** The linker's and the boot loader's choices the self-check relies on: every
    checked section has a byte, the guard pages lie in the image and in no
    section, the direct map ends below the image, and the framebuffer pointer
    is the direct pointer of the framebuffer. *)
Record checkable (boot : boot_context_t) (lay : layout) : Prop := {
  check_sections : text_start lay < text_end lay /\ rodata_start lay < rodata_end lay /\ data_start lay < data_end lay /\
    stack_start lay < stack_end lay;
  check_guards : forall g, g = guard_low_start lay \/ g = guard_high_start lay ->
    kernel_virt_start boot <= g < 2 ^ 64 /\
    forall start end_ flags, (start, end_, flags) ∈ sections boot lay -> ~ page_floor start <= g < page_ceil end_;
  check_high : high (physical_memory_offset boot) /\ physical_memory_offset boot + DIRECT_MAP_MAX <= kernel_virt_start boot;
  check_framebuffer : framebuffer_phys_start boot < framebuffer_phys_end boot /\
    address (framebuffer boot) = physical_memory_offset boot + framebuffer_phys_start boot
}.

Lemma framebuffer_mapping boot lay :
  boot_context_ok boot -> framebuffer_phys_start boot < framebuffer_phys_end boot <= DIRECT_MAP_MAX ->
  writable (direct_mapping boot lay (framebuffer_phys_start boot)) = true /\ executable (direct_mapping boot lay (framebuffer_phys_start boot)) = false /\
  present (direct_mapping boot lay (framebuffer_phys_start boot)) = true.
Proof.
  intros Hb [Hlt Hle]. assert (0 <= framebuffer_phys_start boot) as H0 by apply Hb. unfold DIRECT_MAP_MAX in Hle.
  unfold direct_mapping. case_match; [| done]. split; [| done]. cbn. unfold direct_flags_for_page.
  destruct (page_floor_facts (framebuffer_phys_start boot) H0) as (Hf & _ & Hfa & _).
  pose proof (Z.mod_pos_bound (framebuffer_phys_start boot) PAGE_SIZE ltac:(done)) as Hm. unfold PAGE_SIZE in Hm, Hfa.
  unfold ranges_overlap. rewrite u64_small by (unfold PAGE_SIZE; lia). unfold PAGE_SIZE.
  rewrite (proj2 (Z.ltb_lt _ _)), (proj2 (Z.ltb_lt _ _)) by lia. done.
Qed.

Lemma guard_absent boot lay root limit w g m :
  boot_context_ok boot -> image_ok boot lay -> checkable boot lay -> built boot root (init_requests boot lay limit) w ->
  physical_memory_offset boot mod HUGE_PAGE_SIZE = 0 -> limit mod HUGE_PAGE_SIZE = 0 -> limit <= DIRECT_MAP_MAX ->
  g = guard_low_start lay \/ g = guard_high_start lay -> query_root (Some boot) root g (mem w) = Some m -> present m = false.
Proof.
  intros Hb Hi Hc B Hal Hlm Hl Hg Hq. assert (0 <= physical_memory_offset boot) as Hoff by apply Hb.
  destruct (present m) eqn:Hpr; [exfalso | done]. destruct (check_guards _ _ Hc g Hg) as [Hgr Hout].
  destruct (check_high _ _ Hc) as [Hhi Hbelow]. pose proof Hb as (_ & _ & _ & _ & _ & _ & _ & _ & _ & Hvs & Hve). unfold high, DIRECT_MAP_MAX in *.
  destruct (present_requested boot Hoff root lay limit w g m B Hal Hlm Hq Hpr) as (v' & Ev & [Hv' | Hv']).
  - apply vpage_high in Ev; [| unfold high; lia | unfold high; lia].
    assert (page_floor (kernel_virt_start boot) <= page_floor g) as Hle by (apply page_floor_mono; lia).
    assert (0 <= v') as Hv0 by lia. destruct (page_floor_facts v' Hv0) as (Hf & _).
    unfold page_floor at 1 in Hle. rewrite (image_virt _ _ Hi) in Hle. lia.
  - apply Exists_exists in Hv' as ([[start end_] flags] & Hin & Hv'). destruct (image_sections _ _ Hi _ _ _ Hin) as [Hlo Hend].
    assert (kernel_virt_start boot <= v' < 2 ^ 64) as Hv.
    { pose proof (page_floor_mono _ _ Hlo) as H1. unfold page_floor at 1 in H1. rewrite (image_virt _ _ Hi) in H1.
      assert (page_ceil end_ <= page_ceil (kernel_virt_end boot)) as H2 by (apply page_floor_mono; lia).
      unfold page_ceil in H2 at 2. rewrite page_floor_add in H2 by apply Hi. change (page_floor (PAGE_SIZE - 1)) with 0 in H2. lia. }
    apply vpage_high in Ev; [| unfold high; lia | unfold high; lia]. apply (Hout start end_ flags Hin). by apply (page_bounds _ _ v').
Qed.

(** After a successful [paging_init] the kernel's own check of its layout,
    [paging_verify_kernel_layout], passes. *)
Theorem paging_init_verified lay boot out s w out' s' w' :
  boot_context_ok boot -> layout_ok lay -> image_ok boot lay -> checkable boot lay -> free_ok boot w ->
  paging_init lay (Some boot) (Some out) s w = (PAGING_OK, out', s', w') ->
  paging_verify_kernel_layout lay s' (mem w') = true.
Proof.
  intros Hb Hlay Hi Hc Hf E. assert (0 <= physical_memory_offset boot) as Hoff by apply Hb.
  destruct (paging_init_spec boot Hoff lay out s w out' s' w' Hb Hlay Hf E) as (root & limit & -> & -> & Hlim & Hw & Hal & B).
  destruct (physical_map_limit_spec boot limit Hb Hlim) as (Hl & Hlm & Hfb & Hk & _).
  unfold paging_verify_kernel_layout, paging_query. cbn [active_boot kernel_root].
  pose proof (space_root boot root w' (built_space _ _ _ _ B)) as Hroot. rewrite (proj2 (Z.eqb_neq _ _)) by done.
  assert (forall start end_ flags, (start, end_, flags) ∈ sections boot lay -> start < end_ ->
    query_root (Some boot) root start (mem w') =
      Some (mk_mapping (kernel_phys boot start) true (Z.testbit flags 1) (negb (Z.testbit flags 63)) false (Z.testbit flags 4))) as Hsec.
  { intros start end_ flags Hin Hlt. apply (section_query boot Hoff root lay limit w' start end_ flags); try done; [lia |].
    pose proof (page_ceil_ge end_). pose proof (Z.mod_pos_bound start PAGE_SIZE ltac:(done)). unfold page_floor. lia. }
  destruct (check_sections _ _ Hc) as (Ht & Hro & Hda & Hst).
  rewrite (Hsec (text_start lay) (text_end lay) 0), (Hsec (rodata_start lay) (rodata_end lay) PAGE_NX),
    (Hsec (data_start lay) (data_end lay) (Z.lor PAGE_RW PAGE_NX)), (Hsec (stack_start lay) (stack_end lay) (Z.lor PAGE_RW PAGE_NX));
    try done; try (unfold sections; repeat first [left | right]).
  destruct (query_root (Some boot) root (guard_low_start lay) (mem w')) as [ml |] eqn:El; [| by rewrite query_space in El by (done || apply B)].
  destruct (query_root (Some boot) root (guard_high_start lay) (mem w')) as [mh |] eqn:Eh; [| by rewrite query_space in Eh by (done || apply B)].
  rewrite (guard_absent boot lay root limit w' _ ml Hb Hi Hc B Hal Hlm (proj2 Hl) (or_introl eq_refl) El),
    (guard_absent boot lay root limit w' _ mh Hb Hi Hc B Hal Hlm (proj2 Hl) (or_intror eq_refl) Eh).
  destruct (check_framebuffer _ _ Hc) as [Hfbs ->]. assert (0 <= framebuffer_phys_start boot) as H0 by apply Hb.
  rewrite (direct_query boot Hoff root lay limit) by (done || lia).
  destruct (framebuffer_mapping boot lay Hb) as (F1 & F2 & F3); [lia |]. by rewrite F1, F2, F3.
Qed.

(** ** A concrete machine

    Eighteen usable pages from 1 MiB on, with the image (text, read-only data,
    data, guard, stack, guard) from the fifth to the tenth and the framebuffer
    in the last two. *)

Definition example_paging_boot : boot_context_t :=
  mk_boot_context (mk_framebuffer 0xffff800000110000 1 1 4 32 8 16 8 8 8 0)
    ([example_region 0 0x9fc00 BOOT_MEMORY_USABLE;
      example_region 0x9fc00 0x60400 BOOT_MEMORY_RESERVED;
      example_region 0x100000 0x12000 BOOT_MEMORY_USABLE]
     ++ replicate 125 (example_region 0 0 BOOT_MEMORY_RESERVED))
    3 0 0xffff800000000000 0x100000000 0x110000 0x112000 0x104000 0x10a000
    0xffffffff80000000 0xffffffff80006000 0 0 [].

Definition example_layout : layout :=
  mk_layout 0xffffffff80000000 0xffffffff80001000 0xffffffff80001000 0xffffffff80002000
    0xffffffff80002000 0xffffffff80003000 0xffffffff80003000 0xffffffff80004000 0xffffffff80005000 0xffffffff80005000.

Definition example_paging_world : world := mk_world (∅ : gmap Z Z) (snd (pmm_init (Some example_paging_boot))).

Definition example_unset : paging_state := mk_paging None 0 0 0 false.

Definition example_paging_result := paging_init example_layout (Some example_paging_boot) (Some 0) example_unset example_paging_world.

Definition example_paging : paging_state := mk_paging (Some example_paging_boot) 0x100000 0x200000 MMIO_BASE false.

Lemma example_paging_init :
  paging_init example_layout (Some example_paging_boot) (Some 0) example_unset example_paging_world =
    (PAGING_OK, Some 0x100000, example_paging, example_paging_result.2).
Proof.
  assert (example_paging_result.1 = (PAGING_OK, Some 0x100000, example_paging)) as H by (vm_compute; reflexivity).
  rewrite <- H. apply surjective_pairing.
Qed.

Lemma example_paging_boot_ok : boot_context_ok example_paging_boot.
Proof.
  split_and!; try (simpl; lia); [done |].
  apply Forall_app. split.
  - repeat (constructor; [unfold region_ok; simpl; lia |]). constructor.
  - apply Forall_replicate. unfold region_ok. simpl. lia.
Qed.

Lemma example_free_ok : free_ok example_paging_boot example_paging_world.
Proof.
  split.
  - pose proof (pmm_init_spec example_paging_boot example_paging_boot_ok) as H. unfold example_paging_world. cbn [frames].
    assert (pmm_init (Some example_paging_boot) = (PMM_OK, snd (pmm_init (Some example_paging_boot)))) as E by (vm_compute; reflexivity).
    rewrite E in H. apply H.
  - intros a. replace (managed_ranges (frames example_paging_world)) with [mk_range 0x100000 0x104000; mk_range 0x10a000 0x110000] by (vm_compute; reflexivity).
    unfold covers, in_range. rewrite !Exists_cons, Exists_nil. cbn. lia.
Qed.

Lemma example_layout_ok : layout_ok example_layout.
Proof. unfold layout_ok, example_layout. repeat constructor; cbn; lia. Qed.

Lemma example_image_ok : image_ok example_paging_boot example_layout.
Proof.
  split; [reflexivity | reflexivity | reflexivity | reflexivity |]. intros start end_ flags Hin. unfold sections in Hin.
  repeat (apply elem_of_cons in Hin as [[= -> -> ->] | Hin]); try (by apply elem_of_nil in Hin); cbn; lia.
Qed.

Lemma example_checkable : checkable example_paging_boot example_layout.
Proof.
  split.
  - cbn. lia.
  - intros g Hg. split; [destruct Hg as [-> | ->]; cbn; lia |]. intros start end_ flags Hin. unfold sections in Hin.
    assert (g = 0xffffffff80003000 \/ g = 0xffffffff80005000) as Hg' by exact Hg. clear Hg.
    repeat (apply elem_of_cons in Hin as [[= -> -> ->] | Hin]); try (by apply elem_of_nil in Hin);
      destruct Hg' as [-> | ->]; eapply bool_decide_unpack; vm_compute; exact I.
  - unfold high. cbn. unfold DIRECT_MAP_MAX. lia.
  - cbn. lia.
Qed.

Lemma example_running : running example_paging_boot example_paging example_paging_result.2.
Proof. by destruct (init_running _ _ _ _ _ _ _ _ example_paging_boot_ok example_layout_ok example_free_ok example_paging_init). Qed.

Lemma paging_init_correct_witness :
  paging_query example_paging 0xffffffff80002010 (mem example_paging_result.2) = Some (mk_mapping 0x106010 true true false false false).
Proof.
  destruct (paging_init_correct example_layout example_paging_boot 0 example_unset example_paging_world (Some 0x100000) example_paging
    example_paging_result.2 example_paging_boot_ok example_layout_ok example_image_ok example_free_ok example_paging_init) as (_ & _ & _ & _ & H & _).
  rewrite (H 0xffffffff80002000 0xffffffff80003000 (Z.lor PAGE_RW PAGE_NX)); [reflexivity | | lia | vm_compute; split; [intros [=] | reflexivity]].
  unfold sections. do 3 right. left.
Defined.

Lemma paging_init_verified_witness : paging_verify_kernel_layout example_layout example_paging (mem example_paging_result.2) = true.
Proof.
  exact (paging_init_verified example_layout example_paging_boot 0 example_unset example_paging_world (Some 0x100000) example_paging
    example_paging_result.2 example_paging_boot_ok example_layout_ok example_image_ok example_checkable example_free_ok example_paging_init).
Defined.

Definition booted : world := example_paging_result.2.

(** A device window of three bytes, then a temporary page. *)
Lemma paging_histories_safe_witness :
  let '(_, s1, w1) := paging_map_mmio example_paging 0xfee00020 3 booted in
  let '(_, s2, w2) := paging_temp_map s1 0xe0000 w1 in
  exists m, paging_query s2 0xffffc00000000021 (mem w2) = Some m /\ (writable m = true -> executable m = false).
Proof.
  destruct (paging_map_mmio example_paging 0xfee00020 3 booted) as [[p1 s1] w1] eqn:E1.
  destruct (paging_temp_map s1 0xe0000 w1) as [[p2 s2] w2] eqn:E2.
  destruct (paging_histories_safe example_layout example_paging_boot 0 example_unset example_paging_world (Some 0x100000) example_paging
    booted s2 w2 example_paging_boot_ok example_layout_ok example_free_ok example_paging_init) as [H _].
  - eapply steps_snoc; [eapply steps_one, (step_mmio _ _ _ 0xfee00020 3 p1 s1 w1); [lia | lia | exact E1] |].
    eapply (step_temp_map _ _ _ 0xe0000 p2 s2 w2); [lia | exact E2].
  - exact (H 0xffffc00000000021).
Defined.

Lemma paging_map_mmio_correct_witness :
  let '(_, s1, w1) := paging_map_mmio example_paging 0xfee00020 3 booted in
  paging_query s1 0xffffc00000000022 (mem w1) = Some (mk_mapping 0xfee00022 true true false false true).
Proof.
  assert ((paging_map_mmio example_paging 0xfee00020 3 booted).1.1 = Some 0xffffc00000000020) as Hp by (vm_compute; reflexivity).
  destruct (paging_map_mmio example_paging 0xfee00020 3 booted) as [[p s1] w1] eqn:E. cbn [fst] in Hp. subst p.
  destruct (paging_map_mmio_correct example_paging_boot example_paging booted 0xfee00020 3 (Some 0xffffc00000000020) s1 w1
    ltac:(cbn; lia) example_running ltac:(lia) ltac:(lia) ltac:(lia) E) as [[H _] _].
  exact (H 2 ltac:(lia)).
Defined.

Lemma paging_temp_roundtrip_witness :
  let '(_, s1, w1) := paging_temp_map example_paging 0xe0010 booted in
  let '(s2, w2) := paging_temp_unmap s1 w1 in
  paging_query s1 0xffffd00000000010 (mem w1) = Some (mk_mapping 0xe0010 true true false false true) /\
  paging_query s2 0xffffd00000000010 (mem w2) = Some absent.
Proof.
  assert ((paging_temp_map example_paging 0xe0010 booted).1.1 = Some 0xffffd00000000010) as Hp by (vm_compute; reflexivity).
  destruct (paging_temp_map example_paging 0xe0010 booted) as [[p s1] w1] eqn:E1. cbn [fst] in Hp. subst p.
  destruct (paging_temp_unmap s1 w1) as [s2 w2] eqn:E2.
  destruct (paging_temp_roundtrip example_paging_boot example_paging booted 0xe0010 0xffffd00000000010 s1 w1 s2 w2
    ltac:(cbn; lia) example_running ltac:(lia) E1 E2) as (_ & H & _).
  exact (H 0x10 ltac:(unfold PAGE_SIZE; lia)).
Defined.

(** A window of 513 pages needs a second page table, for which there is no
    frame left; it fails, and so does the next device's window. *)
Lemma mmio_leftover_blocks_witness :
  let '(p, s1, w1) := paging_map_mmio example_paging 0xf0000000 0x201000 booted in
  p = None /\ s1 = example_paging /\ (paging_map_mmio s1 0xfee00000 0x1000 w1).1 = (None, s1).
Proof.
  assert ((paging_map_mmio example_paging 0xf0000000 0x201000 booted).1 = (None, example_paging)) as Hp by (vm_compute; reflexivity).
  assert (paging_query example_paging 0xffffc00000000000 (mem (paging_map_mmio example_paging 0xf0000000 0x201000 booted).2) =
    Some (mk_mapping 0xf0000000 true true false false true)) as Hq by (vm_compute; reflexivity).
  destruct (paging_map_mmio example_paging 0xf0000000 0x201000 booted) as [[p s1] w1] eqn:E. cbn [fst snd] in Hp, Hq. injection Hp as -> ->.
  destruct (mmio_running example_paging_boot ltac:(cbn; lia) example_paging booted 0xf0000000 0x201000 None example_paging w1
    example_running ltac:(lia) ltac:(lia) E) as [Hr _].
  split; [reflexivity |]. split; [reflexivity |].
  apply (mmio_leftover_blocks example_paging_boot example_paging w1 0xfee00000 0x1000 (mk_mapping 0xf0000000 true true false false true)
    ltac:(cbn; lia) Hr ltac:(lia) ltac:(lia)); [exact Hq | reflexivity | vm_compute; intros [=]].
Defined.
