(* ===== verification/AcpiKernel.v ===== *)
(** * Reading physical memory for ACPI (kernel/src/acpi_kernel.c)

    The reader that the kernel gives to discovery copies physical memory page
    by page through the temporary mapping.  [phys] is the contents of physical
    memory; a read at a virtual address goes through the page tables of
    [Paging], and one at an address that is not mapped is undefined. *)

From stdpp Require Import base numbers list.
From Stdlib Require Import ZArith Lia.
From S2P Require Import Prelude Bytes Boot Pmm Paging Acpi.

#[local] Open Scope Z_scope.

Section Reader.
Context (phys : Z -> Z).

Definition virtual_byte (s : paging_state) (w : world) (v : Z) : option Z :=
  match paging_query s v (mem w) with
  | Some m => if present m then Some (phys (Paging.physical_address m)) else None
  | None => None
  end.

(** [for (i = 0; i < chunk; ++i) out[i] = source[i]] *)
Fixpoint copy_chunk (n : nat) (s : paging_state) (w : world) (source : Z) : option (list Z) :=
  match n with
  | O => Some []
  | S n => b ← virtual_byte s w source; l ← copy_chunk n s w (source + 1); Some (b :: l)
  end.

(** The bytes stored at [destination], or none for the return value 0.  Every
    round takes at least one byte, so that [length] rounds are enough. *)
Fixpoint read_loop (fuel : nat) (physical length : Z) (out : list Z) (s : paging_state) (w : world) :
    option (option (list Z) * paging_state * world) :=
  if length =? 0 then Some (Some out, s, w)
  else match fuel with
  | O => None
  | S fuel =>
      let page_offset := Z.land physical (PAGE_SIZE - 1) in
      let chunk := u64 (PAGE_SIZE - page_offset) in
      let chunk := if length <? chunk then length else chunk in
      match paging_temp_map s physical w with
      | (None, s, w) => Some (None, s, w)
      | (Some source, s, w) =>
          bytes ← copy_chunk (Z.to_nat chunk) s w source;
          let '(s, w) := paging_temp_unmap s w in
          if u64 (UINT64_MAX - physical) <? chunk then Some (None, s, w)
          else read_loop fuel (u64 (physical + chunk)) (u64 (length - chunk)) (out ++ bytes) s w
      end
  end.

Definition kernel_acpi_read (physical length : Z) (s : paging_state) (w : world) : option (option (list Z) * paging_state * world) :=
  read_loop (Z.to_nat length) physical length [] s w.
End Reader.

(** [reader] is [kernel_acpi_read] as discovery sees it. *)
Definition acpi_kernel_discover (reader : acpi_reader_fn) (boot : option boot_context_t) (info : option acpi_platform_info_t) :
    option (acpi_status_t * option acpi_platform_info_t) :=
  match boot, info with
  | Some b, Some _ => if rsdp_phys b =? 0 then Some (ACPI_BAD_ARGUMENT, info) else acpi_discover (rsdp_phys b) (Some reader) info
  | _, _ => Some (ACPI_BAD_ARGUMENT, info)
  end.

(** ** What it reads *)

Section Proofs.
Context (phys : Z -> Z) (boot : boot_context_t) (Hoff : 0 <= physical_memory_offset boot).

(** Everything but the temporary page is translated as before. *)
Definition undisturbed (s : paging_state) (w : world) (s' : paging_state) (w' : world) : Prop :=
  running boot s' w' /\ forall v, vpage v <> vpage TEMP_MAP_BASE -> paging_query s' v (mem w') = paging_query s v (mem w).

Lemma copy_chunk_spec n s w v a :
  (forall i, 0 <= i < Z.of_nat n -> virtual_byte phys s w (v + i) = Some (phys (a + i))) ->
  copy_chunk phys n s w v = Some (region phys a (Z.of_nat n)).
Proof.
  revert v a. induction n as [| n IH]; intros v a H; cbn [copy_chunk]; [done |].
  pose proof (H 0 ltac:(lia)) as H0. rewrite !Z.add_0_r in H0. rewrite H0. cbn. rewrite (IH (v + 1) (a + 1)).
  - cbn. unfold region. rewrite (seqZ_cons a) by lia. replace (Z.pred (Z.of_nat (S n))) with (Z.of_nat n) by lia. rewrite fmap_cons. done.
  - intros i Hi. rewrite <- !Z.add_assoc. apply H. lia.
Qed.

(** One page: mapped, copied, and unmapped again. *)
Lemma temp_page s w a p s1 w1 n :
  running boot s w -> 0 <= a < 2 ^ 52 -> 0 <= n -> a mod PAGE_SIZE + n <= PAGE_SIZE -> paging_temp_map s a w = (Some p, s1, w1) ->
  copy_chunk phys (Z.to_nat n) s1 w1 p = Some (region phys a n) /\
  exists w2, paging_temp_unmap s1 w1 = (set_temp_mapped s false, w2) /\ undisturbed s w (set_temp_mapped s false) w2.
Proof.
  intros Hr Ha Hn Hf E. destruct (paging_temp_unmap s1 w1) as [s2 w2] eqn:E2.
  destruct (temp_roundtrip_spec boot s w a p s1 w1 s2 w2 Hoff Hr Ha E E2) as (-> & Hq & Hv & -> & Hr2).
  split; [| exists w2; split; [done |]; split; [done | intros v Hne; by apply Hv]].
  replace n with (Z.of_nat (Z.to_nat n)) at 2 by lia. apply copy_chunk_spec. intros i Hi. pose proof (Z.mod_pos_bound a PAGE_SIZE ltac:(done)).
  unfold virtual_byte. rewrite <- Z.add_assoc. destruct (Hq (a mod PAGE_SIZE + i) ltac:(lia)) as [-> _]. cbn. do 2 f_equal. unfold page_floor. lia.
Qed.

Lemma undisturbed_trans s w s1 w1 s2 w2 : undisturbed s w s1 w1 -> undisturbed s1 w1 s2 w2 -> undisturbed s w s2 w2.
Proof. intros [_ H1] [Hr H2]. split; [done |]. intros v Hv. by rewrite H2, H1. Qed.

Lemma same_leaves_undisturbed s w w' : running boot s w -> space boot (kernel_root s) w' -> same_leaves (kernel_root s) w w' -> undisturbed s w s w'.
Proof.
  intros Hr Hs Hl. assert (running boot s w') as Hr'.
  { split; [apply Hr | done | apply Hr |]. intros Ht. rewrite (Hl TEMP_MAP_BASE). by apply Hr. }
  split; [done |]. intros v _. rewrite !(running_query boot) by done. by rewrite Hl.
Qed.

(** The result of a read: the bytes of memory, unless some page on the way
    could not be mapped. *)
Definition read_post (s : paging_state) (w : world) (a n : Z) (out : list Z) (r : option (list Z)) (s' : paging_state) (w' : world) : Prop :=
  undisturbed s w s' w' /\
  match r with
  | Some bs => bs = out ++ region phys a n
  | None => exists b s1 w1, a <= b < a + n /\ undisturbed s w s1 w1 /\ fst (fst (paging_temp_map s1 b w1)) = None
  end.

Lemma read_loop_spec fuel a n out s w :
  running boot s w -> 0 <= a -> 0 <= n -> a + n <= 2 ^ 52 -> n <= Z.of_nat fuel ->
  exists r s' w', read_loop phys fuel a n out s w = Some (r, s', w') /\ read_post s w a n out r s' w'.
Proof.
  revert a n out s w. induction fuel as [| fuel IH]; intros a n out s w Hr Ha Hn Hb Hf.
  { assert (n = 0) as -> by lia. cbn. eexists _, s, w. split; [done |]. split; [done |]. by rewrite app_nil_r. }
  cbn [read_loop]. destruct (Z.eqb_spec n 0) as [-> | Hne].
  { eexists _, s, w. split; [done |]. split; [done |]. by rewrite app_nil_r. }
  assert (Z.land a (PAGE_SIZE - 1) = a mod PAGE_SIZE) as ->.
  { change (PAGE_SIZE - 1) with (Z.ones 12). by rewrite Z.land_ones by lia. }
  assert (PAGE_SIZE = 4096) as Ep by done. pose proof (Z.mod_pos_bound a PAGE_SIZE ltac:(done)) as Hm. set (o := a mod PAGE_SIZE) in *.
  rewrite (u64_small (PAGE_SIZE - o)) by lia. set (c := if n <? PAGE_SIZE - o then n else PAGE_SIZE - o).
  assert (0 < c <= n /\ o + c <= PAGE_SIZE) as [Hc Hcp] by (unfold c; destruct (Z.ltb_spec n (PAGE_SIZE - o)); lia).
  destruct (temp_map_spec boot Hoff s w a Hr ltac:(lia)) as (p & s1 & w1 & E & Hs1 & Hp). rewrite E. destruct p as [p |].
  2: { destruct Hp as [-> Hsame]. eexists _, s, w1. split; [done |]. split; [by apply same_leaves_undisturbed |]. exists a, s, w. rewrite E. split; [lia | done]. }
  destruct (temp_page s w a p s1 w1 c Hr ltac:(lia) ltac:(lia) Hcp E) as (-> & w2 & -> & Hu). cbn [mbind option_bind].
  unfold UINT64_MAX. rewrite !u64_small by lia. rewrite (proj2 (Z.ltb_ge _ _)) by lia.
  destruct (IH (a + c) (n - c) (out ++ region phys a c) (set_temp_mapped s false) w2 (proj1 Hu)) as (r & s' & w' & Er & Hu' & Hpost); [lia.. |].
  exists r, s', w'. split; [exact Er |]. split; [by eapply undisturbed_trans |]. destruct r as [bs |].
  - rewrite Hpost, <- app_assoc, <- region_app by lia. do 2 f_equal. lia.
  - destruct Hpost as (b & s3 & w3 & Hb3 & Hu3 & Ht). exists b, s3, w3. split; [lia |]. split; [by eapply undisturbed_trans | done].
Qed.
End Proofs.

(** The kernel's reader never reads an address that is not mapped.  It
    delivers exactly the bytes of physical memory, across pages, and fails only
    when a page on the way cannot be mapped; every other address is translated
    as before. *)
Theorem kernel_acpi_read_correct phys boot s w a n :
  0 <= physical_memory_offset boot -> running boot s w -> 0 <= a -> 0 <= n -> a + n <= 2 ^ 52 ->
  exists r s' w', kernel_acpi_read phys a n s w = Some (r, s', w') /\ read_post phys boot s w a n [] r s' w'.
Proof. intros Hoff Hr Ha Hn Hb. apply read_loop_spec; [done.. | lia]. Qed.

(** Three bytes across a page boundary. *)
Lemma kernel_acpi_read_correct_witness :
  exists s' w', kernel_acpi_read (fun a => a mod 256) 0x106ffe 3 example_paging booted = Some (Some [254; 255; 0], s', w') /\
    read_post (fun a => a mod 256) example_paging_boot example_paging booted 0x106ffe 3 [] (Some [254; 255; 0]) s' w'.
Proof.
  destruct (kernel_acpi_read_correct (fun a => a mod 256) example_paging_boot example_paging booted 0x106ffe 3 ltac:(done) example_running ltac:(lia) ltac:(lia) ltac:(lia))
    as (r & s' & w' & E & H).
  assert ((fun x => x.1.1) <$> kernel_acpi_read (fun a => a mod 256) 0x106ffe 3 example_paging booted = Some (Some [254; 255; 0])) as Hr by (vm_compute; reflexivity).
  rewrite E in Hr. injection Hr as ->. exists s', w'. exact (conj E H).
Defined.
