(* ===== verification/ByteMem.v ===== *)
(** * Memory of bytes

    Memory as the heap, the boot protocol and the memory functions see it: a map
    from addresses to bytes, with the little-endian accesses of 32 and 64 bits
    that the compiler makes for the fields of a struct.  Bytes that were never written read as 0. *)

From stdpp Require Import base numbers list gmap.
From Stdlib Require Import ZArith Lia.
From S2P Require Import Prelude.

#[local] Open Scope Z_scope.

Definition bytemem := gmap Z Z.

Definition peek (m : bytemem) (a : Z) : Z := u8 (default 0 ((m : gmap Z Z) !! a)).
Definition poke (m : bytemem) (a v : Z) : bytemem := <[a := v]> (m : gmap Z Z).

(** An access of [n] bytes. *)
Fixpoint ld (n : nat) (m : bytemem) (a : Z) : Z :=
  match n with O => 0 | S n => peek m a + 256 * ld n m (a + 1) end.

Fixpoint st (n : nat) (m : bytemem) (a v : Z) : bytemem :=
  match n with O => m | S n => st n (poke m a (u8 v)) (a + 1) (v / 256) end.

(** [n] bytes from [a] on set to [v]. *)
Fixpoint fill (n : nat) (m : bytemem) (a v : Z) : bytemem :=
  match n with O => m | S n => fill n (poke m a v) (a + 1) v end.

#[global] Arguments peek m a : simpl never.
#[global] Arguments poke m a v : simpl never.
#[global] Arguments ld n m a : simpl never.
#[global] Arguments st n m a v : simpl never.

Create HintDb bytemem.

(** ** Reading what was written *)

Lemma peek_range m a : 0 <= peek m a < 256.
Proof. apply u8_range. Qed.

Lemma peek_poke m a v b : peek (poke m a v) b = if b =? a then u8 v else peek m b.
Proof.
  unfold peek, poke. destruct (Z.eqb_spec b a) as [-> | Hne]; [by rewrite lookup_insert_eq | by rewrite lookup_insert_ne].
Qed.

Lemma ld_S n m a : ld (S n) m a = peek m a + 256 * ld n m (a + 1).
Proof. done. Qed.

Lemma st_S n m a v : st (S n) m a v = st n (poke m a (u8 v)) (a + 1) (v / 256).
Proof. done. Qed.

Lemma ld_range n m a : 0 <= ld n m a < 256 ^ Z.of_nat n.
Proof.
  revert a. induction n as [| n IH]; intros a; [change (0 <= 0 < 1); lia |]. rewrite ld_S, Nat2Z.inj_succ, Z.pow_succ_r by lia.
  pose proof (peek_range m a). specialize (IH (a + 1)). nia.
Qed.

(** The bytes of [lo, hi) are the same. *)
Definition agree (lo hi : Z) (m m' : bytemem) : Prop := forall a, lo <= a < hi -> peek m' a = peek m a.

Lemma agree_refl lo hi m : agree lo hi m m.
Proof. done. Qed.

Lemma agree_trans lo hi m1 m2 m3 : agree lo hi m1 m2 -> agree lo hi m2 m3 -> agree lo hi m1 m3.
Proof. intros H1 H2 a Ha. by rewrite H2, H1. Qed.

Lemma agree_sub lo hi lo' hi' m m' : agree lo hi m m' -> lo <= lo' -> hi' <= hi -> agree lo' hi' m m'.
Proof. intros H ?? a Ha. apply H. lia. Qed.

Lemma ld_agree n m m' a : agree a (a + Z.of_nat n) m m' -> ld n m' a = ld n m a.
Proof.
  revert a. induction n as [| n IH]; intros a H; [done |]. rewrite !ld_S, H by lia. rewrite IH; [done |].
  eapply agree_sub; [done | lia | lia].
Qed.

Lemma st_agree n m a v lo hi : a + Z.of_nat n <= lo \/ hi <= a -> agree lo hi m (st n m a v).
Proof.
  revert m a v. induction n as [| n IH]; intros m a v H; [done |]. rewrite st_S.
  intros b Hb. rewrite IH by lia. rewrite peek_poke. destruct (Z.eqb_spec b a); [lia | done].
Qed.

Lemma fill_agree n m a v lo hi : a + Z.of_nat n <= lo \/ hi <= a -> agree lo hi m (fill n m a v).
Proof.
  revert m a. induction n as [| n IH]; intros m a H; cbn [fill]; [done |].
  intros b Hb. rewrite IH by lia. rewrite peek_poke. destruct (Z.eqb_spec b a); [lia | done].
Qed.

Lemma fill_in n m a v b : a <= b < a + Z.of_nat n -> peek (fill n m a v) b = u8 v.
Proof.
  revert m a. induction n as [| n IH]; intros m a H; cbn [fill]; [lia |]. destruct (decide (b = a)) as [-> | Hne]; [| apply IH; lia].
  rewrite (fill_agree n _ (a + 1) v a (a + 1)) by lia. by rewrite peek_poke, Z.eqb_refl.
Qed.

Lemma ld_st_same n m a v : 0 <= v < 256 ^ Z.of_nat n -> ld n (st n m a v) a = v.
Proof.
  revert m a v. induction n as [| n IH]; intros m a v Hv; [change (0 <= v < 1) in Hv; change (0 = v); lia |]. rewrite ld_S, st_S.
  rewrite Nat2Z.inj_succ, Z.pow_succ_r in Hv by lia. rewrite IH by (split; [apply Z.div_pos; lia | apply Z.div_lt_upper_bound; lia]).
  rewrite (st_agree n _ (a + 1) (v / 256) a (a + 1)) by lia. rewrite peek_poke, Z.eqb_refl.
  unfold u8. change (2 ^ 8) with 256. rewrite Z.mod_mod by done. pose proof (Z.div_mod v 256). lia.
Qed.

Lemma ld_st_other n k m a v b : a + Z.of_nat n <= b \/ b + Z.of_nat k <= a -> ld k (st n m a v) b = ld k m b.
Proof. intros H. apply ld_agree, st_agree. lia. Qed.

Lemma ld_fill_other n k m a v b : a + Z.of_nat n <= b \/ b + Z.of_nat k <= a -> ld k (fill n m a v) b = ld k m b.
Proof. intros H. apply ld_agree, fill_agree. lia. Qed.
