(* ===== verification/Heap.v ===== *)
(** * The kernel heap: kernel/src/heap.c and heap.h

    Blocks lie in memory with a header before the payload, linked in both
    directions in the order of their addresses.  Memory is the byte memory of
    [ByteMem]; a pointer is its address, the null pointer 0.  More memory comes
    from a callback, a function on a state of its own.  A loop over the list has
    as fuel one more than the number of headers that fit into the regions;
    without fuel the result is [None], which the theorems exclude. *)

From stdpp Require Import base numbers list gmap strings.
From Stdlib Require Import ZArith Lia.
From S2P Require Import Prelude ByteMem.

#[local] Open Scope Z_scope.

Definition HEAP_ALIGNMENT : Z := 16.
Definition HEAP_CANARY_BYTES : Z := 8.
Definition HEAP_MIN_SPLIT : Z := 32.
Definition HEAP_ALLOC_MAGIC : Z := 0x4a4f5348414c4c43.
Definition HEAP_FREE_MAGIC : Z := 0x4a4f534846524545.
Definition HEAP_CANARY_SEED : Z := 0xd19f4e7a63b285c1.

Inductive heap_status_t :=
| HEAP_OK | HEAP_BAD_ARGUMENT | HEAP_NOT_INITIALISED | HEAP_OUT_OF_MEMORY
| HEAP_INVALID_POINTER | HEAP_DOUBLE_FREE | HEAP_CORRUPT.

(** ** The header, [heap_block_t] *)

Definition sizeof_block : Z := 48.

Definition magic (m : bytemem) (block : Z) : Z := ld 8 m block.
Definition capacity (m : bytemem) (block : Z) : Z := ld 8 m (block + 8).
Definition requested (m : bytemem) (block : Z) : Z := ld 8 m (block + 16).
Definition next (m : bytemem) (block : Z) : Z := ld 8 m (block + 24).
Definition prev (m : bytemem) (block : Z) : Z := ld 8 m (block + 32).
Definition is_free (m : bytemem) (block : Z) : Z := ld 4 m (block + 40).

Definition set_magic (m : bytemem) (block v : Z) : bytemem := st 8 m block v.
Definition set_capacity (m : bytemem) (block v : Z) : bytemem := st 8 m (block + 8) v.
Definition set_requested (m : bytemem) (block v : Z) : bytemem := st 8 m (block + 16) v.
Definition set_next (m : bytemem) (block v : Z) : bytemem := st 8 m (block + 24) v.
Definition set_prev (m : bytemem) (block v : Z) : bytemem := st 8 m (block + 32) v.
Definition set_is_free (m : bytemem) (block v : Z) : bytemem := st 4 m (block + 40) v.
Definition set_reserved (m : bytemem) (block v : Z) : bytemem := st 4 m (block + 44) v.

(** ** Arithmetic and bytes *)

Definition align_up_ptr (value alignment : Z) : Z :=
  let mask := u64 (alignment - 1) in Z.land (u64 (value + mask)) (not64 mask).

Definition align_up_size (value alignment : Z) : option Z :=
  if (alignment =? 0) || negb (Z.land alignment (u64 (alignment - 1)) =? 0) then None
  else
    let mask := u64 (alignment - 1) in
    if Z.land value mask =? 0 then Some value
    else
      let add := u64 (alignment - Z.land value mask) in
      if SIZE_MAX - value <? add then None else Some (u64 (value + add)).

Definition payload (block : Z) : Z := u64 (block + sizeof_block).

Definition block_canary (m : bytemem) (block : Z) : Z :=
  Z.lxor (Z.lxor HEAP_CANARY_SEED block) (requested m block).

(** [n] iterations are left. *)
Fixpoint write_loop (n : nat) (i : Z) (m : bytemem) (destination value : Z) : bytemem :=
  match n with
  | O => m
  | S n => write_loop n (i + 1) (poke m (destination + i) (u8 (Z.shiftr value (i * 8)))) destination value
  end.

Definition write_u64 (m : bytemem) (destination value : Z) : bytemem := write_loop 8 0 m destination value.

Fixpoint read_loop (n : nat) (i : Z) (m : bytemem) (source value : Z) : Z :=
  match n with
  | O => value
  | S n => read_loop n (i + 1) m source (Z.lor value (Z.shiftl (peek m (source + i)) (i * 8)))
  end.

Definition read_u64 (m : bytemem) (source : Z) : Z := read_loop 8 0 m source 0.

Definition fill_bytes (m : bytemem) (destination length value : Z) : bytemem := fill (Z.to_nat length) m destination value.

(** ** The list of blocks *)

Definition blocks_adjacent (m : bytemem) (left right : Z) : bool :=
  u64 (left + sizeof_block + capacity m left) =? right.

Definition merge_with_next (m : bytemem) (block : Z) : bytemem :=
  let next_block := if block =? 0 then 0 else next m block in
  if (block =? 0) || (next_block =? 0) || (is_free m block =? 0) || (is_free m next_block =? 0) ||
     negb (blocks_adjacent m block next_block) then m
  else
    let m := set_capacity m block (u64 (capacity m block + u64 (sizeof_block + capacity m next_block))) in
    let m := set_next m block (next m next_block) in
    let m := if next m block =? 0 then m else set_prev m (next m block) block in
    let m := set_magic m block HEAP_FREE_MAGIC in
    set_requested m block 0.

(** The last block before [block] and the first not before it. *)
Fixpoint insert_loop (n : nat) (m : bytemem) (current previous block : Z) : option (Z * Z) :=
  match n with
  | O => None
  | S n =>
      if negb (current =? 0) && (current <? block) then insert_loop n m (next m current) current block
      else Some (previous, current)
  end.

(** The memory and the first block afterwards. *)
Definition insert_region (fuel : nat) (m : bytemem) (blocks block : Z) : option (bytemem * Z) :=
  if blocks =? 0 then Some (m, block)
  else
    '(previous, current) ← insert_loop fuel m blocks 0 block;
    let m := set_prev m block previous in
    let m := set_next m block current in
    let '(m, blocks) := if previous =? 0 then (m, block) else (set_next m previous block, blocks) in
    let m := if current =? 0 then m else set_prev m current block in
    let '(m, block) :=
      if prev m block =? 0 then (m, block)
      else
        let m := merge_with_next m (prev m block) in
        (m, if next m (prev m block) =? block then block else prev m block) in
    Some (merge_with_next m block, blocks).

Fixpoint find_loop (n : nat) (m : bytemem) (block capacity_needed : Z) : option Z :=
  match n with
  | O => None
  | S n =>
      if block =? 0 then Some 0
      else if negb (is_free m block =? 0) && (capacity_needed <=? capacity m block) then Some block
      else find_loop n m (next m block) capacity_needed
  end.

Definition split_block (m : bytemem) (block used_capacity : Z) : bytemem :=
  if (block =? 0) || (capacity m block <=? used_capacity) then m
  else
    let remaining := u64 (capacity m block - used_capacity) in
    if remaining <? sizeof_block + HEAP_MIN_SPLIT then m
    else
      let tail := u64 (payload block + used_capacity) in
      let m := set_magic m tail HEAP_FREE_MAGIC in
      let m := set_capacity m tail (u64 (remaining - sizeof_block)) in
      let m := set_requested m tail 0 in
      let m := set_is_free m tail 1 in
      let m := set_reserved m tail 0 in
      let m := set_prev m tail block in
      let m := set_next m tail (next m block) in
      let m := if next m tail =? 0 then m else set_prev m (next m tail) tail in
      let m := set_next m block tail in
      set_capacity m block used_capacity.

(** ** The heap *)

(** Given the least number of bytes, a region with its size, or null. *)
Definition heap_grow_fn (G : Type) : Type := Z -> G -> option (Z * Z) * G.

Record heap_state (G : Type) := mk_heap {
  blocks : Z;
  grow_callback : option (heap_grow_fn G);
  total_region_bytes : Z;
  allocated_payload_bytes : Z;
  active_allocations : Z;
  total_allocations : Z;
  allocation_failures : Z;
  region_count : Z;
  initialised : bool
}.
#[global] Arguments mk_heap {G}.
#[global] Arguments blocks {G}.
#[global] Arguments grow_callback {G}.
#[global] Arguments total_region_bytes {G}.
#[global] Arguments allocated_payload_bytes {G}.
#[global] Arguments active_allocations {G}.
#[global] Arguments total_allocations {G}.
#[global] Arguments allocation_failures {G}.
#[global] Arguments region_count {G}.
#[global] Arguments initialised {G}.

(** The heap, memory, and the state of the callback. *)
Record kworld (G : Type) := mk_kworld { heap : heap_state G; mem : bytemem; source : G }.
#[global] Arguments mk_kworld {G}.
#[global] Arguments heap {G}.
#[global] Arguments mem {G}.
#[global] Arguments source {G}.

Section Operations.
Context {G : Type}.

Implicit Types w : kworld G.
Implicit Types h : heap_state G.

Definition set_mem w m : kworld G := mk_kworld (heap w) m (source w).

Definition heap_fuel h : nat := S (Z.to_nat (total_region_bytes h / sizeof_block)).

(** A region added to the books. *)
Definition count_region h (first bytes : Z) : heap_state G :=
  mk_heap first (grow_callback h) (u64 (total_region_bytes h + bytes)) (allocated_payload_bytes h)
    (active_allocations h) (total_allocations h) (allocation_failures h) (u32 (region_count h + 1)) (initialised h).

Definition add_region w (memory bytes : Z) : option (bool * kworld G) :=
  if (memory =? 0) || (bytes <=? sizeof_block + HEAP_MIN_SPLIT) then Some (false, w)
  else
    let raw := memory in
    let aligned := align_up_ptr raw HEAP_ALIGNMENT in
    let skipped := u64 (aligned - raw) in
    if bytes <=? skipped then Some (false, w)
    else
      let bytes := u64 (bytes - skipped) in
      let bytes := Z.land bytes (not64 (HEAP_ALIGNMENT - 1)) in
      if bytes <=? sizeof_block + HEAP_MIN_SPLIT then Some (false, w)
      else
        let block := aligned in
        let m := set_magic (mem w) block HEAP_FREE_MAGIC in
        let m := set_capacity m block (u64 (bytes - sizeof_block)) in
        let m := set_requested m block 0 in
        let m := set_next m block 0 in
        let m := set_prev m block 0 in
        let m := set_is_free m block 1 in
        let m := set_reserved m block 0 in
        '(m, first) ← insert_region (heap_fuel (heap w)) m (blocks (heap w)) block;
        Some (true, mk_kworld (count_region (heap w) first bytes) m (source w)).

Definition grow_heap w (minimum_payload : Z) : option (bool * kworld G) :=
  match grow_callback (heap w) with
  | None => Some (false, w)
  | Some grow =>
      if SIZE_MAX - minimum_payload <? sizeof_block + HEAP_CANARY_BYTES then Some (false, w)
      else
        let needed := u64 (u64 (sizeof_block + minimum_payload) + HEAP_CANARY_BYTES) in
        let '(region, g) := grow needed (source w) in
        let w := mk_kworld (heap w) (mem w) g in
        match region with
        | Some (memory, actual) => if memory =? 0 then Some (false, w) else add_region w memory actual
        | None => Some (false, w)
        end
  end.

Definition find_block w (capacity_needed : Z) : option Z :=
  find_loop (heap_fuel (heap w)) (mem w) (blocks (heap w)) capacity_needed.

Definition heap_init (grow : option (heap_grow_fn G)) w : heap_status_t * kworld G :=
  match grow with
  | None => (HEAP_BAD_ARGUMENT, w)
  | Some _ => (HEAP_OK, mk_kworld (mk_heap 0 grow 0 0 0 0 0 0 true) (mem w) (source w))
  end.

Definition allocation_failed w : kworld G :=
  let h := heap w in
  mk_kworld (mk_heap (blocks h) (grow_callback h) (total_region_bytes h) (allocated_payload_bytes h) (active_allocations h)
    (total_allocations h) (u64 (allocation_failures h + 1)) (region_count h) (initialised h)) (mem w) (source w).

(** The block is handed out for [size] bytes. *)
Definition take_block w (block size capacity_needed : Z) : Z * kworld G :=
  let h := heap w in
  let m := split_block (mem w) block capacity_needed in
  let m := set_magic m block HEAP_ALLOC_MAGIC in
  let m := set_requested m block size in
  let m := set_is_free m block 0 in
  let result := payload block in
  let m := fill_bytes m result (capacity m block) 0xcd in
  let m := write_u64 m (u64 (result + size)) (block_canary m block) in
  (result, mk_kworld (mk_heap (blocks h) (grow_callback h) (total_region_bytes h) (u64 (allocated_payload_bytes h + size))
    (u64 (active_allocations h + 1)) (u64 (total_allocations h + 1)) (allocation_failures h) (region_count h) (initialised h)) m (source w)).

Definition kmalloc w (size : Z) : option (Z * kworld G) :=
  if negb (initialised (heap w)) || (size =? 0) then Some (0, allocation_failed w)
  else if SIZE_MAX - size <? HEAP_CANARY_BYTES then Some (0, allocation_failed w)
  else match align_up_size (u64 (size + HEAP_CANARY_BYTES)) HEAP_ALIGNMENT with
  | None => Some (0, allocation_failed w)
  | Some capacity_needed =>
      block ← find_block w capacity_needed;
      if block =? 0 then
        '(grown, w) ← grow_heap w capacity_needed;
        if negb grown then Some (0, allocation_failed w)
        else
          block ← find_block w capacity_needed;
          if block =? 0 then Some (0, allocation_failed w) else Some (take_block w block size capacity_needed)
      else Some (take_block w block size capacity_needed)
  end.

Definition kzalloc w (size : Z) : option (Z * kworld G) :=
  '(memory, w) ← kmalloc w size;
  if memory =? 0 then Some (0, w) else Some (memory, set_mem w (fill_bytes (mem w) memory size 0)).

Definition kfree w (pointer : Z) : heap_status_t * kworld G :=
  if negb (initialised (heap w)) then (HEAP_NOT_INITIALISED, w)
  else if pointer =? 0 then (HEAP_OK, w)
  else if negb (Z.land pointer (HEAP_ALIGNMENT - 1) =? 0) then (HEAP_INVALID_POINTER, w)
  else
    let m := mem w in
    let block := u64 (pointer - sizeof_block) in
    if (magic m block =? HEAP_FREE_MAGIC) && negb (is_free m block =? 0) then (HEAP_DOUBLE_FREE, w)
    else if negb (magic m block =? HEAP_ALLOC_MAGIC) || negb (is_free m block =? 0) || (requested m block =? 0) ||
            (capacity m block <? u64 (requested m block + HEAP_CANARY_BYTES)) then (HEAP_INVALID_POINTER, w)
    else if negb (read_u64 m (u64 (payload block + requested m block)) =? block_canary m block) then (HEAP_CORRUPT, w)
    else
      let h := heap w in
      let h := mk_heap (blocks h) (grow_callback h) (total_region_bytes h) (u64 (allocated_payload_bytes h - requested m block))
                 (u64 (active_allocations h - 1)) (total_allocations h) (allocation_failures h) (region_count h) (initialised h) in
      let m := fill_bytes m (payload block) (capacity m block) 0xdd in
      let m := set_magic m block HEAP_FREE_MAGIC in
      let m := set_requested m block 0 in
      let m := set_is_free m block 1 in
      let '(m, block) :=
        if negb (prev m block =? 0) && negb (is_free m (prev m block) =? 0) && blocks_adjacent m (prev m block) block
        then (merge_with_next m (prev m block), prev m block) else (m, block) in
      (HEAP_OK, mk_kworld h (merge_with_next m block) (source w)).

(** ** Statistics and the self test *)

Record heap_stats_t := mk_heap_stats {
  st_total_region_bytes : Z;
  st_free_payload_bytes : Z;
  st_allocated_payload_bytes : Z;
  st_active_allocations : Z;
  st_total_allocations : Z;
  st_allocation_failures : Z;
  st_region_count : Z
}.

Fixpoint stats_loop (n : nat) (m : bytemem) (block free_bytes : Z) : option Z :=
  match n with
  | O => None
  | S n =>
      if block =? 0 then Some free_bytes
      else stats_loop n m (next m block) (if is_free m block =? 0 then free_bytes else u64 (free_bytes + capacity m block))
  end.

Definition heap_stats w : option heap_stats_t :=
  let h := heap w in
  free_bytes ← stats_loop (heap_fuel h) (mem w) (blocks h) 0;
  Some (mk_heap_stats (total_region_bytes h) free_bytes (allocated_payload_bytes h) (active_allocations h)
    (total_allocations h) (allocation_failures h) (region_count h)).

(** [for (i = 0; i < size; ++i) p[i] = f(i)], with [n] iterations left. *)
Fixpoint write_each (n : nat) (i : Z) (m : bytemem) (p : Z) (f : Z -> Z) : bytemem :=
  match n with O => m | S n => write_each n (i + 1) (poke m (p + i) (u8 (f i))) p f end.

Fixpoint all_zero (n : nat) (m : bytemem) (p : Z) : bool :=
  match n with O => true | S n => (peek m p =? 0) && all_zero n m (p + 1) end.

Definition heap_self_test w : option (bool * kworld G) :=
  before ← heap_stats w;
  '(small, w) ← kmalloc w 37;
  '(zeroed, w) ← kzalloc w 257;
  '(large, w) ← kmalloc w 8193;
  if (small =? 0) || (zeroed =? 0) || (large =? 0) then Some (false, w)
  else
    let w := set_mem w (write_each (Z.to_nat 37) 0 (mem w) small (fun i => Z.lxor i 0x5a)) in
    if negb (all_zero (Z.to_nat 257) (mem w) zeroed) then Some (false, w)
    else
      let w := set_mem w (write_each (Z.to_nat 8193) 0 (mem w) large (fun i => Z.land i 0xff)) in
      let '(s1, w) := kfree w zeroed in
      match s1 with
      | HEAP_OK =>
          let '(s2, w) := kfree w small in
          match s2 with
          | HEAP_OK =>
              let '(s3, w) := kfree w large in
              match s3 with
              | HEAP_OK =>
                  after ← heap_stats w;
                  Some ((st_active_allocations after =? st_active_allocations before) &&
                        (st_allocated_payload_bytes after =? st_allocated_payload_bytes before), w)
              | _ => Some (false, w)
              end
          | _ => Some (false, w)
          end
      | _ => Some (false, w)
      end.

End Operations.

Definition heap_status_string (status : heap_status_t) : string :=
  match status with
  | HEAP_OK => "ok"
  | HEAP_BAD_ARGUMENT => "bad argument"
  | HEAP_NOT_INITIALISED => "heap not initialised"
  | HEAP_OUT_OF_MEMORY => "out of memory"
  | HEAP_INVALID_POINTER => "invalid pointer"
  | HEAP_DOUBLE_FREE => "double free"
  | HEAP_CORRUPT => "heap canary corrupt"
  end.
