(* ===== verification/HeapList.v ===== *)
(** * The list of heap blocks (kernel/src/heap.c)

    What the functions on block headers do to the list that lies in memory:
    merging, splitting, inserting and searching, in terms of a plain list of
    blocks. *)

From stdpp Require Import base numbers list gmap.
From Stdlib Require Import ZArith Lia.
From S2P Require Import Prelude ByteMem Heap.

#[local] Open Scope Z_scope.

(** ** Blocks *)

Record blk := mk_blk { addr : Z; cap : Z; req : Z; free : bool }.

(** The end of the payload, and of the block. *)
Definition data (b : blk) : Z := addr b + sizeof_block.
Definition stop (b : blk) : Z := addr b + sizeof_block + cap b.

Definition blk_magic (b : blk) : Z := if free b then HEAP_FREE_MAGIC else HEAP_ALLOC_MAGIC.

(** The header of [b], with its links. *)
Record hdr (m : bytemem) (p n : Z) (b : blk) : Prop := {
  hdr_magic : magic m (addr b) = blk_magic b;
  hdr_capacity : capacity m (addr b) = cap b;
  hdr_requested : requested m (addr b) = req b;
  hdr_next : next m (addr b) = n;
  hdr_prev : prev m (addr b) = p;
  hdr_free : is_free m (addr b) = if free b then 1 else 0
}.

Definition first (n : Z) (bs : list blk) : Z := match bs with [] => n | b :: _ => addr b end.
Definition final (p : Z) (bs : list blk) : Z := match last bs with Some b => addr b | None => p end.

(** The segment [bs] lies linked in memory, after the block [p] and before [n]. *)
Fixpoint dll (m : bytemem) (p : Z) (bs : list blk) (n : Z) : Prop :=
  match bs with
  | [] => True
  | b :: bs => hdr m p (first n bs) b /\ dll m (addr b) bs n
  end.

(** In the order of the addresses, apart, aligned, inside [lo, hi]. *)
Fixpoint laid (lo : Z) (bs : list blk) (hi : Z) : Prop :=
  match bs with
  | [] => lo <= hi
  | b :: bs => lo <= addr b /\ addr b mod 16 = 0 /\ cap b mod 16 = 0 /\ 16 <= cap b /\ 0 <= req b < 2 ^ 64 /\ laid (stop b) bs hi
  end.

Lemma laid_bounds lo bs hi : laid lo bs hi -> lo <= hi.
Proof. revert lo. induction bs as [| b bs IH]; intros lo; [done |]. intros (? & ? & ? & ? & ? & H%IH). unfold stop, sizeof_block in *. lia. Qed.

Lemma laid_app lo l r hi : laid lo (l ++ r) hi <-> exists mid, laid lo l mid /\ laid mid r hi.
Proof.
  revert lo. induction l as [| b l IH]; intros lo; cbn [app laid].
  - split; [intros H; exists lo; split; [lia | done] |]. intros (mid & ? & H). destruct r as [| c r]; cbn [laid] in *; [lia |].
    destruct H as (? & H). split; [lia | done].
  - split.
    + intros (? & ? & ? & ? & ? & (mid & ? & ?)%IH). by exists mid.
    + intros (mid & (? & ? & ? & ? & ? & ?) & ?). do 5 (split; [done |]). apply IH. by exists mid.
Qed.

Lemma laid_weaken lo bs hi lo' hi' : laid lo bs hi -> lo' <= lo -> hi <= hi' -> laid lo' bs hi'.
Proof.
  revert lo lo'. induction bs as [| b bs IH]; intros lo lo'; cbn [laid]; [lia |].
  intros (? & ? & ? & ? & ? & H) ??. do 5 (split; [done || lia |]). by apply (IH (stop b)).
Qed.

Lemma laid_elem lo bs hi b : laid lo bs hi -> b ∈ bs -> lo <= addr b /\ stop b <= hi /\ 16 <= cap b /\ 0 <= req b < 2 ^ 64 /\ addr b mod 16 = 0 /\ cap b mod 16 = 0.
Proof.
  revert lo. induction bs as [| c bs IH]; intros lo; [by intros _ ?%elem_of_nil |]. intros (? & ? & ? & ? & ? & H) [-> | Hb]%elem_of_cons.
  - pose proof (laid_bounds _ _ _ H). lia.
  - destruct (IH _ H Hb) as (? & ? & ?). unfold stop, sizeof_block in *. lia.
Qed.

(** ** Headers and writes *)

(** Solves the field reads of a header after writes to fields. *)
Ltac field_reads :=
  unfold magic, capacity, requested, next, prev, is_free, set_magic, set_capacity, set_requested, set_next, set_prev, set_is_free, set_reserved;
  repeat first
    [ rewrite ld_st_same by (change (256 ^ Z.of_nat 8) with (2 ^ 64); change (256 ^ Z.of_nat 4) with (2 ^ 32); lia)
    | rewrite ld_st_other by lia ].

Lemma hdr_agree m m' p n b : agree (addr b) (addr b + sizeof_block) m m' -> hdr m p n b -> hdr m' p n b.
Proof.
  intros A []. assert (forall k off, 0 <= off -> off + Z.of_nat k <= sizeof_block -> ld k m' (addr b + off) = ld k m (addr b + off)) as E.
  { intros k off ??. apply ld_agree. eapply agree_sub; [done | lia | lia]. }
  unfold sizeof_block in E. split; unfold magic, capacity, requested, next, prev, is_free in *; rewrite ?E by lia; try done.
  rewrite <- (Z.add_0_r (addr b)), E, Z.add_0_r by lia. done.
Qed.

Lemma dll_agree m m' p bs n lo hi : laid lo bs hi -> agree lo hi m m' -> dll m p bs n -> dll m' p bs n.
Proof.
  revert p lo. induction bs as [| b bs IH]; intros p lo; [done |]. intros (? & ? & ? & ? & ? & H) A [Hh Hd].
  pose proof (laid_bounds _ _ _ H). unfold stop, sizeof_block in *. split.
  - eapply hdr_agree; [| done]. unfold sizeof_block. eapply agree_sub; [done | lia | lia].
  - eapply (IH _ (addr b + 48 + cap b)); [done | | done]. eapply agree_sub; [done | lia | lia].
Qed.

Lemma dll_app m p l r n : dll m p (l ++ r) n <-> dll m p l (first n r) /\ dll m (final p l) r n.
Proof.
  revert p. induction l as [| b l IH]; intros p; cbn [app dll]; [unfold final; cbn; tauto |].
  rewrite IH. assert (final (addr b) l = final p (b :: l)) as -> by (unfold final; rewrite last_cons; by destruct (last l)).
  assert (first n (l ++ r) = first (first n r) l) as -> by (by destruct l). tauto.
Qed.

Lemma final_snoc p l c : final p (l ++ [c]) = addr c.
Proof. unfold final. by rewrite last_snoc. Qed.

Lemma hdr_set_next m p n n' b : hdr m p n b -> 0 <= n' < 2 ^ 64 -> hdr (set_next m (addr b) n') p n' b.
Proof. intros [] ?. split; revert hdr_magic0 hdr_capacity0 hdr_requested0 hdr_prev0 hdr_free0; field_reads; intros; done. Qed.

Lemma hdr_set_prev m p p' n b : hdr m p n b -> 0 <= p' < 2 ^ 64 -> hdr (set_prev m (addr b) p') p' n b.
Proof. intros [] ?. split; revert hdr_magic0 hdr_capacity0 hdr_requested0 hdr_next0 hdr_free0; field_reads; intros; done. Qed.

Lemma dll_set_last m p l c n n' lo hi :
  dll m p (l ++ [c]) n -> laid lo (l ++ [c]) hi -> 0 <= n' < 2 ^ 64 -> dll (set_next m (addr c) n') p (l ++ [c]) n'.
Proof.
  intros [Hl [Hc _]]%dll_app (mid & Ll & Lc)%laid_app Hn. apply dll_app. split; [| split; [by apply (hdr_set_next m _ n) | done]].
  eapply (dll_agree m); [done | | done]. apply st_agree. destruct Lc as (? & _). lia.
Qed.

Lemma dll_set_first m p p' c r n lo hi :
  dll m p (c :: r) n -> laid lo (c :: r) hi -> 0 <= p' < 2 ^ 64 -> dll (set_prev m (addr c) p') p' (c :: r) n.
Proof.
  intros [Hc Hr] (? & ? & ? & ? & ? & Lr) Hp. split; [by apply (hdr_set_prev m p) |].
  eapply (dll_agree m); [done | | done]. apply st_agree. unfold stop, sizeof_block. lia.
Qed.

(** Membership in a list that is written out. *)
Ltac in_list := rewrite ?elem_of_app, ?elem_of_cons; tauto.

(** ** Data kept *)

(** The payloads of the allocated blocks are as before. *)
Definition keeps (bs : list blk) (m m' : bytemem) : Prop :=
  forall c, c ∈ bs -> free c = false -> agree (data c) (stop c) m m'.

Lemma keeps_refl bs m : keeps bs m m.
Proof. done. Qed.

Lemma keeps_trans bs m1 m2 m3 : keeps bs m1 m2 -> keeps bs m2 m3 -> keeps bs m1 m3.
Proof. intros H1 H2 c Hc Hf. eapply agree_trans; eauto. Qed.

Lemma laid_apart lo bs hi c d : laid lo bs hi -> c ∈ bs -> d ∈ bs -> c = d \/ stop c <= addr d \/ stop d <= addr c.
Proof.
  revert lo. induction bs as [| b bs IH]; intros lo; [by intros _ ?%elem_of_nil |]. intros (? & ? & ? & ? & ? & H) [-> | Hc]%elem_of_cons [-> | Hd]%elem_of_cons.
  - by left.
  - right. left. by apply (laid_elem _ _ _ _ H).
  - right. right. by apply (laid_elem _ _ _ _ H).
  - by apply (IH (stop b)).
Qed.

(** A write to a header keeps the data. *)
Lemma header_write_keeps lo bs hi d m n off v :
  laid lo bs hi -> d ∈ bs -> 0 <= off -> off + Z.of_nat n <= 48 -> keeps bs m (st n m (addr d + off) v).
Proof.
  intros L Hd ?? c Hc _. apply st_agree. destruct (laid_elem _ _ _ _ L Hc) as (_ & _ & ? & _), (laid_elem _ _ _ _ L Hd) as (_ & _ & ? & _).
  unfold data, sizeof_block in *. destruct (laid_apart lo bs hi c d L Hc Hd) as [-> | [? | ?]]; unfold stop, sizeof_block in *; lia.
Qed.

Lemma magic_write_keeps lo bs hi d m v : laid lo bs hi -> d ∈ bs -> keeps bs m (st 8 m (addr d) v).
Proof. intros L Hd. rewrite <- (Z.add_0_r (addr d)). by apply (header_write_keeps lo bs hi). Qed.

(** Proves [keeps] through a sequence of header writes of blocks of the list. *)
Ltac header_writes L :=
  unfold set_magic, set_capacity, set_requested, set_next, set_prev, set_is_free;
  repeat (eapply keeps_trans;
    [| first [eapply (header_write_keeps _ _ _ _ _ _ _ _ L); [in_list | lia | lia] | eapply (magic_write_keeps _ _ _ _ _ _ L); in_list]]);
  apply keeps_refl.

(** Proves [agree] through a sequence of writes outside the range. *)
Ltac writes_outside :=
  unfold set_magic, set_capacity, set_requested, set_next, set_prev, set_is_free, set_reserved;
  repeat (eapply agree_trans; [| apply st_agree; lia]); apply agree_refl.

Lemma mod16_add a b : a mod 16 = 0 -> b mod 16 = 0 -> (a + b) mod 16 = 0.
Proof. intros Ha Hb. by rewrite Zplus_mod, Ha, Hb. Qed.

(** ** Merging *)

Definition join (b c : blk) : blk := mk_blk (addr b) (cap b + sizeof_block + cap c) 0 true.
Definition mergeable (b c : blk) : bool := free b && free c && (stop b =? addr c).

Definition merge1 (b : blk) (r : list blk) : list blk :=
  match r with
  | c :: r' => if mergeable b c then join b c :: r' else b :: r
  | [] => [b]
  end.

Lemma mergeable_iff b c : mergeable b c = true <-> free b = true /\ free c = true /\ stop b = addr c.
Proof. unfold mergeable. rewrite !andb_true_iff, Z.eqb_eq. tauto. Qed.

(** The whole list lies in memory below [hi]. *)
Record linked (m : bytemem) (bs : list blk) (hi : Z) : Prop := {
  linked_dll : dll m 0 bs 0;
  linked_laid : laid 1 bs hi;
  linked_hi : hi < 2 ^ 64
}.

Lemma linked_middle m l b r hi :
  linked m (l ++ b :: r) hi ->
  dll m 0 l (addr b) /\ hdr m (final 0 l) (first 0 r) b /\ dll m (addr b) r 0 /\
  laid 1 l (addr b) /\ 1 <= addr b /\ stop b <= hi /\ 16 <= cap b /\ 0 <= req b < 2 ^ 64 /\ addr b mod 16 = 0 /\ cap b mod 16 = 0 /\
  laid (stop b) r hi /\ hi < 2 ^ 64.
Proof.
  intros [D L Hhi]. apply dll_app in D as [Dl [Hb Dr]]. pose proof L as (mid & Ll & Hmid & Ha & Hc & H16 & Hreq & Lr)%laid_app.
  pose proof (laid_bounds _ _ _ Ll). pose proof (laid_bounds _ _ _ Lr).
  split; [done |]. split; [done |]. split; [done |]. split; [by eapply laid_weaken |]. split_and!; try done; lia.
Qed.

Lemma merge_adjacent m l b r hi x :
  linked m (l ++ b :: r) hi -> blocks_adjacent m (addr b) x = (stop b =? x).
Proof.
  intros (_ & Hb & _ & _ & ? & ? & ? & _ & _ & _ & _ & ?)%linked_middle. unfold blocks_adjacent. rewrite (hdr_capacity _ _ _ _ Hb).
  unfold stop, sizeof_block in *. by rewrite u64_small by lia.
Qed.

Lemma linked_elem m bs hi b : linked m bs hi -> b ∈ bs -> 1 <= addr b /\ stop b <= hi /\ 16 <= cap b /\ 0 <= req b < 2 ^ 64.
Proof. intros [_ L _] Hb. destruct (laid_elem _ _ _ b L Hb) as (? & ? & ? & ? & _). done. Qed.

Lemma merge_none m l b r hi :
  linked m (l ++ b :: r) hi -> (forall c r', r = c :: r' -> mergeable b c = false) -> merge_with_next m (addr b) = m.
Proof.
  intros H Hno. pose proof (linked_middle _ _ _ _ _ H) as (_ & Hb & Hr & _ & ? & _).
  unfold merge_with_next. rewrite (proj2 (Z.eqb_neq (addr b) 0)) by lia. rewrite (hdr_next _ _ _ _ Hb), (hdr_free _ _ _ _ Hb). cbn [orb].
  destruct r as [| c r']; [done |]. cbn [first]. destruct Hr as [Hc _]. rewrite (hdr_free _ _ _ _ Hc), (merge_adjacent _ _ _ _ _ _ H).
  specialize (Hno c r' eq_refl). unfold mergeable in Hno. destruct (linked_elem _ _ _ c H) as (? & _); [in_list |].
  rewrite (proj2 (Z.eqb_neq (addr c) 0)) by lia. destruct (free b), (free c), (stop b =? addr c); done.
Qed.

Lemma merge_some m l b c r hi :
  linked m (l ++ b :: c :: r) hi -> mergeable b c = true ->
  linked (merge_with_next m (addr b)) (l ++ join b c :: r) hi /\ keeps (l ++ b :: c :: r) m (merge_with_next m (addr b)) /\
  agree (data b) (stop c) m (merge_with_next m (addr b)).
Proof.
  intros H (Fb & Fc & Est)%mergeable_iff. pose proof (merge_adjacent _ _ _ _ _ (addr c) H) as Hadj.
  pose proof (linked_middle _ _ _ _ _ H) as (Dl & Hb & [Hc Dr] & Ll & ? & ? & ? & _ & Hal & Hcap & (_ & Hac & Hcc & ? & _ & Lr) & Hhi).
  pose proof (laid_bounds _ _ _ Lr). cbn [first] in *. unfold stop, sizeof_block in *.
  assert (0 <= first 0 r < 2 ^ 64) as Hfr.
  { destruct r as [| d r]; cbn; [lia |]. destruct (linked_elem _ _ _ d H) as (? & ? & ? & _); [in_list |]. unfold stop, sizeof_block in *. lia. }
  set (m1 := set_next (set_capacity m (addr b) (cap b + 48 + cap c)) (addr b) (first 0 r)).
  set (m2 := if r is d :: _ then set_prev m1 (addr d) (addr b) else m1).
  assert (merge_with_next m (addr b) = set_requested (set_magic m2 (addr b) HEAP_FREE_MAGIC) (addr b) 0) as ->.
  { unfold merge_with_next. rewrite (proj2 (Z.eqb_neq (addr b) 0)) by lia. rewrite (hdr_next _ _ _ _ Hb).
    rewrite (hdr_free _ _ _ _ Hb), (hdr_free _ _ _ _ Hc), (hdr_capacity _ _ _ _ Hb), (hdr_capacity _ _ _ _ Hc), Hadj.
    rewrite Fb, Fc, (proj2 (Z.eqb_neq (addr c) 0)) by lia. unfold stop, sizeof_block. rewrite (proj2 (Z.eqb_eq _ _) Est). cbn [Z.eqb Pos.eqb orb negb].
    rewrite (u64_small (48 + cap c)), (u64_small (cap b + (48 + cap c))), Z.add_assoc by lia.
    assert (next (set_capacity m (addr b) (cap b + 48 + cap c)) (addr c) = first 0 r) as ->.
    { rewrite <- (hdr_next _ _ _ _ Hc). field_reads. done. }
    fold m1. assert (next m1 (addr b) = first 0 r) as -> by (unfold m1; field_reads; done).
    unfold m2. destruct r as [| d r]; [done |]. cbn [first]. destruct (linked_elem _ _ _ d H) as (? & _); [in_list |].
    by rewrite (proj2 (Z.eqb_neq (addr d) 0)) by lia. }
  assert (forall lo' hi', hi' <= addr b \/ addr b + 48 <= lo' -> agree lo' hi' m m1 /\
    agree lo' hi' m2 (set_requested (set_magic m2 (addr b) HEAP_FREE_MAGIC) (addr b) 0)) as Hout by (intros lo' hi' ?; split; writes_outside).
  assert (forall d r', r = d :: r' -> addr c + 48 + cap c <= addr d) as Hd by (intros d r' ->; by destruct Lr).
  split; [split; [apply dll_app; split; [| split] | | done] |].
  - eapply dll_agree; [exact Ll | | exact Dl]. destruct (Hout 1 (addr b)) as [A1 A2]; [by left |].
    eapply agree_trans; [exact A1 |]. eapply agree_trans; [| exact A2]. unfold m2. destruct r as [| d r]; [apply agree_refl |].
    specialize (Hd d r eq_refl). apply st_agree. lia.
  - pose proof (hdr_prev _ _ _ _ Hb) as Hbp. pose proof (hdr_free _ _ _ _ Hb) as Hbf. rewrite Fb in Hbf. cbn [addr join].
    unfold m2, m1, HEAP_FREE_MAGIC. clear Hout. destruct r as [| d r]; [| specialize (Hd d r eq_refl)]; cbn [first] in *;
      (split; cbn [addr cap req free join blk_magic first]; revert Hbp Hbf; field_reads; intros; done).
  - destruct r as [| d r]; [done |]. destruct (Hout (addr c + 48 + cap c) hi) as [A1 A2]; [right; lia |].
    eapply dll_agree; [exact Lr | exact A2 |]. eapply (dll_set_first m1 (addr c)); [| exact Lr | cbn; lia].
    eapply dll_agree; [exact Lr | exact A1 | exact Dr].
  - apply laid_app. exists (addr b). split; [done |]. cbn [laid]. unfold join, stop, sizeof_block. cbn [addr cap req].
    replace (addr b + 48 + (cap b + 48 + cap c)) with (addr c + 48 + cap c) by lia. split; [lia |]. split; [done |].
    split; [by apply mod16_add; [apply mod16_add |] |]. split; [lia |]. split; [lia | done].
  - pose proof (linked_laid _ _ _ H) as L. unfold m2, m1. split; [destruct r as [| d r]; header_writes L |].
    unfold data, sizeof_block. destruct r as [| d r]; [| specialize (Hd d r eq_refl)]; writes_outside.
Qed.

Lemma merge_linked m l b r hi :
  linked m (l ++ b :: r) hi ->
  linked (merge_with_next m (addr b)) (l ++ merge1 b r) hi /\ keeps (l ++ b :: r) m (merge_with_next m (addr b)) /\
  agree (data b) (stop b) m (merge_with_next m (addr b)).
Proof.
  intros H. destruct r as [| c r]; cbn [merge1].
  - rewrite (merge_none m l b [] hi H) by done. done.
  - destruct (mergeable b c) eqn:E.
    + destruct (merge_some m l b c r hi H E) as (? & ? & A). split; [done |]. split; [done |]. eapply agree_sub; [exact A | lia |].
      apply mergeable_iff in E as (_ & _ & ->). destruct (linked_elem _ _ _ c H) as (_ & _ & ? & _); [in_list |]. unfold stop, sizeof_block. lia.
    + rewrite (merge_none m l b (c :: r) hi H); [done |]. by intros ? ? [= -> ->].
Qed.

(** A free block merged with the one before and the one after. *)
Definition coalesce (l : list blk) (b : blk) (r : list blk) : list blk :=
  match reverse l with
  | c :: rl => if mergeable c b then reverse rl ++ merge1 (join c b) r else l ++ merge1 b r
  | [] => merge1 b r
  end.

Lemma coalesce_nil b r : coalesce [] b r = merge1 b r.
Proof. done. Qed.

Lemma coalesce_snoc l c b r :
  coalesce (l ++ [c]) b r = if mergeable c b then l ++ merge1 (join c b) r else (l ++ [c]) ++ merge1 b r.
Proof. unfold coalesce. by rewrite reverse_snoc, reverse_involutive. Qed.

(** ** What merging leaves as it is *)

Definition allocated (bs : list blk) : list blk := filter (fun b => free b = false) bs.
Definition extent (bs : list blk) : Z := foldr (fun b n => sizeof_block + cap b + n) 0 bs.
Definition covered (bs : list blk) (a : Z) : Prop := Exists (fun b => addr b <= a < stop b) bs.

(** No two neighbours could be merged. *)
Fixpoint merged (bs : list blk) : Prop :=
  match bs with
  | b :: (c :: _) as r => mergeable b c = false /\ merged r
  | _ => True
  end.

Lemma allocated_app l r : allocated (l ++ r) = allocated l ++ allocated r.
Proof. apply filter_app. Qed.

Lemma elem_of_allocated c bs : c ∈ allocated bs <-> c ∈ bs /\ free c = false.
Proof. unfold allocated. rewrite list_elem_of_filter. tauto. Qed.

Lemma allocated_free b r : free b = true -> allocated (b :: r) = allocated r.
Proof. intros E. unfold allocated. rewrite filter_cons_False; [done |]. by rewrite E. Qed.

Lemma extent_app l r : extent (l ++ r) = extent l + extent r.
Proof. unfold extent. induction l as [| b l IH]; [done |]. cbn [app foldr]. rewrite IH. lia. Qed.

Lemma covered_app l r a : covered (l ++ r) a <-> covered l a \/ covered r a.
Proof. apply Exists_app. Qed.

Lemma merge1_same b r : free b = true ->
  allocated (merge1 b r) = allocated r /\ extent (merge1 b r) = extent (b :: r) /\ forall a, covered (merge1 b r) a -> covered (b :: r) a.
Proof.
  intros Fb. destruct r as [| c r]; cbn [merge1]; [by rewrite (allocated_free b) |]. destruct (mergeable b c) eqn:E; [| by rewrite (allocated_free b)].
  apply mergeable_iff in E as (_ & Fc & Est). rewrite (allocated_free (join b c)), (allocated_free c) by done.
  split; [done |]. split; [cbn; lia |]. intros a. unfold covered. rewrite !Exists_cons. unfold join, stop, sizeof_block in *. cbn [addr cap].
  intros [? | ?]; [| tauto]. destruct (decide (a < addr b + 48 + cap b)); [left | right; left]; lia.
Qed.

Lemma coalesce_same l b r : free b = true ->
  allocated (coalesce l b r) = allocated l ++ allocated r /\ extent (coalesce l b r) = extent (l ++ b :: r) /\
  forall a, covered (coalesce l b r) a -> covered (l ++ b :: r) a.
Proof.
  intros Fb. destruct l as [| c l _] using rev_ind.
  - rewrite coalesce_nil. cbn [app]. by apply merge1_same.
  - rewrite coalesce_snoc. destruct (mergeable c b) eqn:E.
    + apply mergeable_iff in E as (Fc & _ & Est). destruct (merge1_same (join c b) r eq_refl) as (A & X & C).
      rewrite !allocated_app, A, (allocated_free c []), app_nil_r by done. split; [done |]. split.
      * rewrite !extent_app, X. cbn. lia.
      * intros a. rewrite !covered_app. intros [? | Hc%C]; [tauto |]. revert Hc. unfold covered. rewrite !Exists_cons, Exists_nil.
        unfold join, stop, sizeof_block in *. cbn [addr cap]. intros [? | ?]; [| tauto].
        destruct (decide (a < addr c + 48 + cap c)); [left; right; left | right; left]; lia.
    + destruct (merge1_same b r Fb) as (A & X & C). rewrite !allocated_app, A, !extent_app, X. split; [done |]. split; [done |].
      intros a. rewrite !(covered_app (l ++ [c])). intros [? | ?%C]; tauto.
Qed.

Lemma merged_app_cons l b r : merged (l ++ b :: r) <-> merged (l ++ [b]) /\ merged (b :: r).
Proof.
  induction l as [| c l IH]; [cbn [app]; cbn [merged]; tauto |]. destruct l as [| d l]; cbn [app merged] in *; [tauto |]. rewrite IH. tauto.
Qed.

(** A free block with the place of [b] in the middle of a merged list. *)
Lemma merge1_merged b r : merged r -> merged (merge1 b r).
Proof.
  destruct r as [| c r]; [done |]. cbn [merge1]. intros Hr. destruct (mergeable b c) eqn:E; [| done].
  apply mergeable_iff in E as (_ & Fc & Est). destruct r as [| d r]; [done |]. destruct Hr as [Hcd Hr]. split; [| done].
  revert Hcd. unfold mergeable, join, stop, sizeof_block in *. cbn [free addr cap]. rewrite Fc. cbn [andb].
  by replace (addr b + 48 + (cap b + 48 + cap c)) with (addr c + 48 + cap c) by lia.
Qed.

Lemma first_merge1 b r : exists b' r', merge1 b r = b' :: r' /\ addr b' = addr b /\ (free b = true -> free b' = true) /\ (free b = false -> b' = b).
Proof.
  destruct r as [| c r]; cbn [merge1]; [by exists b, [] |]. destruct (mergeable b c) eqn:E; [| by exists b, (c :: r)].
  exists (join b c), r. apply mergeable_iff in E as (Fb & _). split; [done |]. split; [done |]. split; [done |]. congruence.
Qed.

Lemma merged_snoc_ext l b b' : addr b' = addr b -> free b' = free b -> merged (l ++ [b]) -> merged (l ++ [b']).
Proof.
  intros Ea Ef. induction l as [| c l IH]; [done |]. destruct l as [| d l]; cbn [app merged] in *; [| tauto].
  unfold mergeable. by rewrite Ea, Ef.
Qed.

Lemma coalesce_merged l b r : free b = true -> merged l -> merged r -> merged (coalesce l b r).
Proof.
  intros Fb Hl Hr. destruct l as [| c l _] using rev_ind; [rewrite coalesce_nil; by apply merge1_merged |].
  rewrite coalesce_snoc. destruct (mergeable c b) eqn:E.
  - pose proof (merge1_merged (join c b) r Hr) as Hm. destruct (first_merge1 (join c b) r) as (b' & r' & Eq & Ea & Ef & _). rewrite Eq in *.
    apply merged_app_cons. split; [| done]. apply (merged_snoc_ext l c); [done | | done].
    apply mergeable_iff in E as (-> & _). by apply Ef.
  - pose proof (merge1_merged b r Hr) as Hm. destruct (first_merge1 b r) as (b' & r' & Eq & Ea & Ef & _). rewrite Eq in *.
    rewrite <- app_assoc. cbn [app]. apply merged_app_cons. split; [done |]. split; [| done].
    revert E. unfold mergeable. by rewrite Ea, (Ef Fb), Fb.
Qed.

(** ** Merging in memory *)

(** With the block before it, when [kfree] finds that one free and adjacent. *)
Definition merge_back (m : bytemem) (block : Z) : bytemem * Z :=
  if negb (prev m block =? 0) && negb (is_free m (prev m block) =? 0) && blocks_adjacent m (prev m block) block
  then (merge_with_next m (prev m block), prev m block) else (m, block).

(** With the block before it, as [insert_region] does. *)
Definition merge_before (m : bytemem) (block : Z) : bytemem * Z :=
  if prev m block =? 0 then (m, block)
  else
    let m := merge_with_next m (prev m block) in
    (m, if next m (prev m block) =? block then block else prev m block).

(** In both cases the list is afterwards [bs'], and what is to be merged next
    is at [x]. *)
Definition back_merged (l : list blk) (b : blk) (r : list blk) : list blk * blk :=
  match reverse l with
  | c :: rl => if mergeable c b then (reverse rl, join c b) else (l, b)
  | [] => (l, b)
  end.

Lemma coalesce_back l b r : coalesce l b r = (back_merged l b r).1 ++ merge1 (back_merged l b r).2 r.
Proof. unfold coalesce, back_merged. destruct l as [| c l _] using rev_ind; [done |]. rewrite reverse_snoc. by destruct (mergeable c b). Qed.

Lemma merge_back_linked m l b r hi :
  linked m (l ++ b :: r) hi -> free b = true ->
  let '(l', b') := back_merged l b r in
  (merge_back m (addr b)).2 = addr b' /\ linked (merge_back m (addr b)).1 (l' ++ b' :: r) hi /\ keeps (l ++ b :: r) m (merge_back m (addr b)).1 /\
  merge_before m (addr b) = merge_back m (addr b) /\ allocated (l' ++ b' :: r) = allocated (l ++ b :: r) /\
  (b' = b \/ agree (addr b) (stop b) m (merge_back m (addr b)).1 /\ data b' <= addr b /\ stop b' = stop b).
Proof.
  intros H Fb. pose proof (linked_middle _ _ _ _ _ H) as (Dl & Hb & _ & _ & ? & _). unfold merge_back, merge_before, back_merged.
  destruct l as [| c l _] using rev_ind.
  { rewrite (hdr_prev _ _ _ _ Hb). cbn. do 5 (split; [done |]). by left. }
  rewrite reverse_snoc. rewrite (hdr_prev _ _ _ _ Hb), final_snoc.
  rewrite <- app_assoc in H. cbn [app] in H. pose proof (linked_middle _ _ _ _ _ H) as (_ & Hc & _ & _ & ? & _).
  rewrite (proj2 (Z.eqb_neq (addr c) 0)) by lia. rewrite (hdr_free _ _ _ _ Hc), (merge_adjacent _ _ _ _ _ (addr b) H). cbn [negb andb].
  destruct (mergeable c b) eqn:E.
  - destruct (merge_some m l c b r hi H E) as (H' & K & A). apply mergeable_iff in E as (Fc & _ & Est). rewrite Fc, (proj2 (Z.eqb_eq _ _) Est). cbn [negb andb Z.eqb].
    rewrite reverse_involutive. split; [done |]. split; [done |]. split; [by rewrite <- app_assoc |].
    split; [| split; [rewrite <- app_assoc, !allocated_app; cbn [app]; by rewrite !allocated_free by done |]].
    2: { destruct (linked_elem _ _ _ c H) as (_ & _ & ? & _); [in_list |]. right. unfold join, data, stop, sizeof_block in *. cbn [addr cap].
         split; [eapply agree_sub; [exact A | lia | lia] | lia]. }
    assert (prev (merge_with_next m (addr c)) (addr b) = addr c) as Hp.
    { trans (prev m (addr b)); [apply ld_agree | by rewrite (hdr_prev _ _ _ _ Hb), final_snoc].
      destruct (linked_elem _ _ _ b H) as (? & ? & ? & _); [in_list |]. eapply agree_sub; [exact A | | unfold stop, sizeof_block; lia].
      destruct (linked_elem _ _ _ c H) as (_ & _ & ? & _); [in_list |]. unfold data, stop, sizeof_block in *. lia. }
    rewrite Hp. pose proof (linked_middle _ _ _ _ _ H') as (_ & Hj & _ & _ & _ & _ & _ & _ & _ & _ & Lr & _).
    rewrite (hdr_next _ _ _ _ Hj : next _ (addr c) = _). assert (first 0 r <> addr b) as Hne.
    { destruct r as [| d r]; cbn; [lia |]. destruct Lr as (? & _). unfold join, stop, sizeof_block in *. cbn [addr cap] in *.
      destruct (linked_elem _ _ _ b H) as (? & ? & ? & _); [in_list |]. destruct (linked_elem _ _ _ c H) as (? & ? & ? & _); [in_list |]. lia. }
    by rewrite (proj2 (Z.eqb_neq _ _) Hne).
  - assert (merge_with_next m (addr c) = m) as Em by (apply (merge_none m l c (b :: r) hi H); by intros ? ? [= -> ->]).
    rewrite Em, (hdr_prev _ _ _ _ Hb), final_snoc, (hdr_next _ _ _ _ Hc). cbn [first]. rewrite Z.eqb_refl.
    assert (negb ((if free c then 1 else 0) =? 0) && (stop c =? addr b) = false) as ->.
    { unfold mergeable in E. rewrite Fb in E. by destruct (free c). }
    rewrite <- app_assoc. do 5 (split; [done |]). by left.
Qed.

Lemma coalesce_linked m l b r hi :
  linked m (l ++ b :: r) hi -> free b = true ->
  let '(m1, x) := merge_back m (addr b) in
  linked (merge_with_next m1 x) (coalesce l b r) hi /\ keeps (l ++ b :: r) m (merge_with_next m1 x) /\ merge_before m (addr b) = (m1, x) /\
  magic (merge_with_next m1 x) (addr b) = HEAP_FREE_MAGIC /\ is_free (merge_with_next m1 x) (addr b) = 1.
Proof.
  intros H Fb. pose proof (merge_back_linked m l b r hi H Fb) as Hmb. rewrite coalesce_back. destruct (back_merged l b r) as [l' b'].
  destruct Hmb as (Ex & H' & K & Eb & Ea & Hst). rewrite Eb. destruct (merge_back m (addr b)) as [m1 x]. cbn [fst snd] in *. subst x.
  destruct (merge_linked m1 l' b' r hi H') as (H'' & K' & A'). split; [done |]. split; [| split; [done |]].
  - eapply keeps_trans; [done |]. intros c Hc Fc. apply K'; [| done].
    assert (c ∈ allocated (l ++ b :: r)) as Hin by (by apply elem_of_allocated). rewrite <- Ea in Hin. by apply elem_of_allocated in Hin as [? _].
  - pose proof (linked_middle _ _ _ _ _ H) as (_ & Hb & _ & _ & ? & ? & ? & _). destruct Hst as [-> | (A & Hd & Hs)].
    + destruct (first_merge1 b r) as (b2 & r2 & E2 & Ea2 & Ef2 & _). rewrite E2 in H''.
      pose proof (linked_middle _ _ _ _ _ H'') as (_ & Hb2 & _).
      pose proof (hdr_magic _ _ _ _ Hb2) as E1. pose proof (hdr_free _ _ _ _ Hb2) as E3. unfold blk_magic in E1. rewrite (Ef2 Fb), Ea2 in E1, E3. done.
    + assert (agree (addr b) (stop b) m (merge_with_next m1 (addr b'))) as A2.
      { eapply agree_trans; [exact A |]. eapply agree_sub; [exact A' | lia | lia]. }
      unfold stop, sizeof_block in *. pose proof (hdr_magic _ _ _ _ Hb) as E1. pose proof (hdr_free _ _ _ _ Hb) as E2. unfold blk_magic in E1. rewrite Fb in E1, E2.
      split; [rewrite <- E1 | rewrite <- E2]; apply ld_agree; (eapply agree_sub; [exact A2 | lia | lia]).
Qed.

(** ** Splitting *)

Definition tail_of (b : blk) (n : Z) : blk := mk_blk (addr b + sizeof_block + n) (cap b - n - sizeof_block) 0 true.
Definition shrink (b : blk) (n : Z) : blk := mk_blk (addr b) n (req b) (free b).
Definition split1 (b : blk) (n : Z) : list blk :=
  if cap b - n <? sizeof_block + HEAP_MIN_SPLIT then [b] else [shrink b n; tail_of b n].

(** A write inside a free block keeps the data. *)
Lemma free_write_keeps lo bs hi d m m' :
  laid lo bs hi -> d ∈ bs -> free d = true -> (forall lo' hi', hi' <= addr d \/ stop d <= lo' -> agree lo' hi' m m') -> keeps bs m m'.
Proof.
  intros L Hd Fd A c Hc Fc. apply A. destruct (laid_elem _ _ _ _ L Hc) as (_ & _ & ? & _), (laid_elem _ _ _ _ L Hd) as (_ & _ & ? & _).
  destruct (laid_apart lo bs hi c d L Hc Hd) as [-> | [? | ?]]; [congruence | |]; unfold data, stop, sizeof_block in *; lia.
Qed.

Lemma split_linked m l b r hi n :
  linked m (l ++ b :: r) hi -> free b = true -> n mod 16 = 0 -> 16 <= n <= cap b ->
  linked (split_block m (addr b) n) (l ++ split1 b n ++ r) hi /\ keeps (l ++ b :: r) m (split_block m (addr b) n).
Proof.
  intros H Fb Hn Hle. pose proof (linked_middle _ _ _ _ _ H) as (Dl & Hb & Dr & Ll & ? & ? & ? & ? & Hal & Hcap & Lr & Hhi).
  unfold split_block, split1, stop, HEAP_MIN_SPLIT, payload, sizeof_block in *. rewrite (proj2 (Z.eqb_neq (addr b) 0)) by lia.
  rewrite (hdr_capacity _ _ _ _ Hb). cbn [orb]. if_case; bool_cases; [assert ((cap b - n <? 48 + 32) = true) as -> by (apply Z.ltb_lt; lia); done |].
  rewrite (u64_small (cap b - n)) by lia. if_case; bool_cases; [done |].
  rewrite (u64_small (addr b + 48)), (u64_small (addr b + 48 + n)), (u64_small (cap b - n - 48)) by lia.
  assert (0 <= first 0 r < 2 ^ 64) as Hfr.
  { destruct r as [| d r]; cbn; [lia |]. destruct (linked_elem _ _ _ d H) as (? & ? & ? & _); [in_list |]. unfold stop, sizeof_block in *. lia. }
  set (t := addr b + 48 + n).
  set (m1 := set_prev (set_reserved (set_is_free (set_requested (set_capacity (set_magic m t HEAP_FREE_MAGIC) t (cap b - n - 48)) t 0) t 1) t 0) t (addr b)).
  assert (next m1 (addr b) = first 0 r) as -> by (rewrite <- (hdr_next _ _ _ _ Hb); unfold m1, t; field_reads; done).
  set (m2 := set_next m1 t (first 0 r)). assert (next m2 t = first 0 r) as -> by (unfold m2; field_reads; done).
  set (m3 := if first 0 r =? 0 then m2 else set_prev m2 (first 0 r) t).
  assert (m3 = if r is d :: _ then set_prev m2 (addr d) t else m2) as Em3.
  { unfold m3. destruct r as [| d r]; [done |]. cbn [first]. destruct (linked_elem _ _ _ d H) as (? & _); [in_list |]. by rewrite (proj2 (Z.eqb_neq (addr d) 0)) by lia. }
  assert (forall d r', r = d :: r' -> addr b + 48 + cap b <= addr d < hi) as Hd.
  { intros d r' ->. destruct (linked_elem _ _ _ d H) as (? & ? & ? & _); [in_list |]. destruct Lr. unfold stop, sizeof_block in *. lia. }
  assert (forall lo' hi', hi' <= addr b \/ addr b + 48 + cap b <= lo' -> agree lo' hi' m m2) as A2 by (intros lo' hi' ?; unfold m2, m1, t; writes_outside).
  assert (forall lo' hi', hi' <= addr b \/ addr b + 48 <= lo' -> agree lo' hi' m3 (set_capacity (set_next m3 (addr b) t) (addr b) n)) as A4
    by (intros lo' hi' ?; writes_outside).
  split; [split; [apply dll_app; split; [| split; [| split]] | | done] |].
  - eapply dll_agree; [exact Ll | | exact Dl]. eapply agree_trans; [apply A2; by left |]. eapply agree_trans; [| apply A4; by left].
    rewrite Em3. destruct r as [| d r]; [apply agree_refl |]. specialize (Hd d r eq_refl). apply st_agree. lia.
  - pose proof (hdr_prev _ _ _ _ Hb) as Hbp. pose proof (hdr_free _ _ _ _ Hb) as Hbf. pose proof (hdr_magic _ _ _ _ Hb) as Hbm.
    pose proof (hdr_requested _ _ _ _ Hb) as Hbr. rewrite Em3. unfold m2, m1, t in *. clear A2 A4 Em3 m3 m2 m1. cbn [app].
    destruct r as [| d r]; [| specialize (Hd d r eq_refl)]; cbn [first] in *;
      (split; cbn [addr cap req free shrink]; revert Hbp Hbf Hbm Hbr; unfold tail_of, blk_magic; cbn [addr free shrink]; unfold sizeof_block; field_reads; intros; done).
  - rewrite Em3. unfold m2, m1 in *. clear A2 A4 Em3 m3 m2 m1. assert (addr (tail_of b n) = t) as Et by done.
    destruct r as [| d r]; [| specialize (Hd d r eq_refl)]; cbn [first] in *;
      (split; rewrite Et; unfold blk_magic, tail_of, HEAP_FREE_MAGIC, sizeof_block in *; cbn [addr cap req free shrink]; unfold t; field_reads; done).
  - destruct r as [| d r]; [done |]. eapply dll_agree; [exact Lr | apply A4; right; lia |]. rewrite Em3.
    eapply (dll_set_first m2 (addr b)); [| exact Lr | unfold t, tail_of, sizeof_block; cbn [addr]; lia]. eapply dll_agree; [exact Lr | apply A2; right; lia | exact Dr].
  - apply laid_app. exists (addr b). split; [done |]. cbn [app laid]. unfold shrink, tail_of, stop, sizeof_block. cbn [addr cap req].
    replace (addr b + 48 + n + 48 + (cap b - n - 48)) with (addr b + 48 + cap b) by lia.
    split; [lia |]. split; [done |]. split; [done |]. split; [lia |]. split; [lia |]. split; [lia |].
    split; [by apply mod16_add; [apply mod16_add |] |]. split; [| split; [lia | split; [lia | done]]].
    replace (cap b - n - 48) with (cap b + (-1) * n + (-3) * 16) by lia. rewrite Z.mod_add by done. apply mod16_add; [done |].
    by rewrite Z.mul_mod, Hn.
  - apply (keeps_trans _ _ m3).
    + apply (keeps_trans _ _ m2).
      * eapply free_write_keeps; [apply H | | exact Fb | exact A2]. in_list.
      * rewrite Em3. pose proof (linked_laid _ _ _ H) as L. destruct r as [| d r]; [apply keeps_refl |]. unfold set_prev.
        eapply (header_write_keeps _ _ _ d); [exact L | in_list | lia | lia].
    + pose proof (linked_laid _ _ _ H) as L. header_writes L.
Qed.

(** ** Searching *)

Definition fits (n : Z) (b : blk) : Prop := free b = true /\ n <= cap b.

Lemma heap_find_spec fuel m p bs n hi lo :
  dll m p bs 0 -> laid lo bs hi -> 1 <= lo -> (length bs < fuel)%nat ->
  (exists l b r, bs = l ++ b :: r /\ fits n b /\ Forall (fun c => ~ fits n c) l /\ find_loop fuel m (first 0 bs) n = Some (addr b)) \/
  (Forall (fun c => ~ fits n c) bs /\ find_loop fuel m (first 0 bs) n = Some 0).
Proof.
  revert p bs lo. induction fuel as [| fuel IH]; intros p bs lo; [lia |]. destruct bs as [| b bs]; [by right |].
  intros [Hb D] (? & ? & ? & ? & ? & L) Hlo Hlen. cbn [first find_loop length] in *. rewrite (proj2 (Z.eqb_neq (addr b) 0)) by lia.
  rewrite (hdr_free _ _ _ _ Hb), (hdr_capacity _ _ _ _ Hb), (hdr_next _ _ _ _ Hb).
  assert (negb ((if free b then 1 else 0) =? 0) && (n <=? cap b) = bool_decide (fits n b)) as ->.
  { unfold fits. destruct (free b), (Z.leb_spec n (cap b)); cbn; symmetry; [apply bool_decide_eq_true | apply bool_decide_eq_false ..]; intuition (congruence || lia). }
  destruct (bool_decide (fits n b)) eqn:E.
  - apply bool_decide_eq_true in E. left. by exists [], b, bs.
  - apply bool_decide_eq_false in E. destruct (IH (addr b) bs (stop b)) as [(l & c & r & -> & Hf & Hl & Hfind) | [Hall Hfind]]; try done;
      [unfold stop, sizeof_block; lia | lia | |].
    + left. exists (b :: l), c, r. split; [done |]. split; [done |]. split; [by constructor | done].
    + right. split; [by constructor | done].
Qed.

Lemma insert_loop_spec fuel m p bs x hi lo :
  dll m p bs 0 -> laid lo bs hi -> 1 <= lo -> (length bs < fuel)%nat ->
  exists l r, bs = l ++ r /\ Forall (fun c => addr c < x) l /\ (forall c r', r = c :: r' -> x <= addr c) /\
    insert_loop fuel m (first 0 bs) p x = Some (final p l, first 0 r).
Proof.
  revert p bs lo. induction fuel as [| fuel IH]; intros p bs lo; [lia |]. destruct bs as [| b bs]; [by exists [], [] |].
  intros [Hb D] (? & ? & ? & ? & ? & L) Hlo Hlen. cbn [first insert_loop length] in *. rewrite (proj2 (Z.eqb_neq (addr b) 0)) by lia. cbn [negb andb].
  destruct (Z.ltb_spec (addr b) x) as [Hlt | Hge].
  - rewrite (hdr_next _ _ _ _ Hb). destruct (IH (addr b) bs (stop b)) as (l & r & -> & Hl & Hr & E); [done | done | unfold stop, sizeof_block; lia | lia |].
    exists (b :: l), r. split; [done |]. split; [by constructor |]. split; [done |]. rewrite E. unfold final. rewrite last_cons. by destruct (last l).
  - exists [], (b :: bs). split; [done |]. split; [done |]. split; [by intros ? ? [= -> ->] | done].
Qed.

Lemma first_coalesce l b r : first 0 (coalesce l b r) = first 0 (l ++ b :: r).
Proof.
  destruct l as [| c l _] using rev_ind.
  - rewrite coalesce_nil. destruct (first_merge1 b r) as (b' & r' & -> & Ea & _). done.
  - rewrite coalesce_snoc. destruct (mergeable c b).
    + destruct (first_merge1 (join c b) r) as (b' & r' & -> & Ea & _). destruct l; [done | done].
    + destruct (first_merge1 b r) as (b' & r' & -> & Ea & _). by destruct l.
Qed.

(** The new block [b] has its own place between the others. *)
Definition apart (b : blk) (bs : list blk) : Prop := Forall (fun c => stop c <= addr b \/ stop b <= addr c) bs.

Lemma laid_insert lo l b r hi :
  laid lo (l ++ r) hi -> apart b (l ++ r) -> Forall (fun c => addr c < addr b) l -> (forall c r', r = c :: r' -> addr b <= addr c) ->
  lo <= addr b -> addr b mod 16 = 0 -> cap b mod 16 = 0 -> 16 <= cap b -> 0 <= req b < 2 ^ 64 -> stop b <= hi -> laid lo (l ++ b :: r) hi.
Proof.
  revert lo. induction l as [| c l IH]; intros lo; cbn [app laid].
  - intros L Ha _ Hr ? ? ? ? ? ?. do 5 (split; [done |]). destruct r as [| c r]; [done |]. cbn [laid] in *.
    destruct L as (? & ? & ? & ? & ? & L). split; [| done]. apply Forall_cons in Ha as [Ha _]. specialize (Hr c r eq_refl).
    unfold stop, sizeof_block in *. lia.
  - intros (? & ? & ? & ? & ? & L) [Ha Ha']%Forall_cons [Hc Hl]%Forall_cons Hr ? ? ? ? ? ?. do 5 (split; [done |]).
    apply IH; try done. unfold stop, sizeof_block in *. lia.
Qed.

Definition link_next (m : bytemem) (p x : Z) : bytemem := if p =? 0 then m else set_next m p x.
Definition link_prev (m : bytemem) (n x : Z) : bytemem := if n =? 0 then m else set_prev m n x.

Lemma link_insert m l b r hi :
  linked m (l ++ r) hi -> hdr m 0 0 b -> laid 1 (l ++ b :: r) hi ->
  let m2 := set_next (set_prev m (addr b) (final 0 l)) (addr b) (first 0 r) in
  let m4 := link_prev (link_next m2 (final 0 l) (addr b)) (first 0 r) (addr b) in
  linked m4 (l ++ b :: r) hi /\ keeps (l ++ r) m m4.
Proof.
  intros H Hb L m2 m4. pose proof (linked_hi _ _ _ H) as Hhi. pose proof (linked_dll _ _ _ H) as [Dl Dr]%dll_app.
  pose proof L as (mid & Ll & Hmid & _ & _ & Hcap & _ & Lr)%laid_app. pose proof (laid_bounds _ _ _ Ll). pose proof (laid_bounds _ _ _ Lr).
  unfold stop, sizeof_block in *.
  assert (0 <= final 0 l < 2 ^ 64 /\ (l <> [] -> 1 <= final 0 l /\ final 0 l + 48 <= mid)) as [Hfl Hfl'].
  { destruct l as [| c l _] using rev_ind; [by unfold final |]. rewrite final_snoc.
    destruct (laid_elem _ _ _ c Ll) as (? & ? & ? & _); [in_list |]. unfold stop, sizeof_block in *. lia. }
  assert (0 <= first 0 r < 2 ^ 64 /\ (r <> [] -> addr b + 48 + cap b <= first 0 r)) as [Hfr Hfr'].
  { destruct r as [| d r]; [done |]. cbn. destruct (laid_elem _ _ _ d Lr) as (? & ? & ? & _); [in_list |]. unfold stop, sizeof_block in *. lia. }
  assert (forall lo' hi', hi' <= addr b \/ addr b + 48 <= lo' -> agree lo' hi' m m2) as A2 by (intros lo' hi' ?; unfold m2; writes_outside).
  assert (l = [] /\ link_next m2 (final 0 l) (addr b) = m2 \/ l <> [] /\ link_next m2 (final 0 l) (addr b) = set_next m2 (final 0 l) (addr b)) as E3.
  { unfold link_next. destruct l as [| c l _] using rev_ind; [by left | right]. split; [by destruct l |].
    destruct Hfl' as [? _]; [by destruct l |]. by rewrite (proj2 (Z.eqb_neq _ _)) by lia. }
  unfold m4. set (m3 := link_next m2 (final 0 l) (addr b)) in *.
  assert (r = [] /\ link_prev m3 (first 0 r) (addr b) = m3 \/ r <> [] /\ link_prev m3 (first 0 r) (addr b) = set_prev m3 (first 0 r) (addr b)) as E4.
  { unfold link_prev. destruct r as [| d r]; [by left | right]. split; [done |]. specialize (Hfr' ltac:(done)). by rewrite (proj2 (Z.eqb_neq _ _)) by lia. }
  assert (forall lo' hi', mid <= lo' -> agree lo' hi' m2 m3) as A3.
  { intros lo' hi' ?. destruct E3 as [[_ ->] | [Hne ->]]; [apply agree_refl |]. destruct (Hfl' Hne). apply st_agree. lia. }
  assert (forall lo' hi', hi' <= addr b + 48 + cap b -> agree lo' hi' m3 (link_prev m3 (first 0 r) (addr b))) as A4.
  { intros lo' hi' ?. destruct E4 as [[_ ->] | [Hne ->]]; [apply agree_refl |]. specialize (Hfr' Hne). apply st_agree. lia. }
  split; [split; [apply dll_app; split; [| split] | exact L | exact Hhi] |].
  - eapply dll_agree; [exact Ll | apply A4; lia |]. cbn [first]. destruct l as [| c l _] using rev_ind; [done |].
    destruct E3 as [[? _] | [_ ->]]; [by destruct l |]. rewrite final_snoc. eapply dll_set_last; [| exact Ll | lia].
    eapply dll_agree; [exact Ll | apply A2; left; lia | exact Dl].
  - eapply hdr_agree; [eapply agree_trans; [apply A3 | apply A4]; unfold sizeof_block; lia |].
    unfold m2. apply (hdr_set_next _ _ 0); [by apply (hdr_set_prev _ 0) | done].
  - destruct r as [| d r]; [done |]. destruct E4 as [[? _] | [_ ->]]; [done |]. cbn [first].
    eapply (dll_set_first m3 (final 0 l)); [| exact Lr | lia]. eapply dll_agree; [exact Lr | apply A3; lia |].
    eapply dll_agree; [exact Lr | apply A2; right; lia | exact Dr].
  - pose proof (linked_laid _ _ _ H) as L0. eapply keeps_trans; [eapply keeps_trans |].
    + intros c Hc Fc. apply A2. destruct (laid_elem _ _ _ c L) as (? & ? & ? & _); [apply elem_of_app; apply elem_of_app in Hc as [? | ?]; [by left | right; by right] |].
      destruct (laid_elem _ _ _ b L) as (? & ? & ? & _); [in_list |]. unfold data, stop, sizeof_block in *.
      apply elem_of_app in Hc as [Hc | Hc]; [left | right]; [destruct (laid_elem _ _ _ c Ll Hc) as (? & ? & _) | destruct (laid_elem _ _ _ c Lr Hc) as (? & ? & _)];
        unfold stop, sizeof_block in *; lia.
    + destruct E3 as [[_ ->] | [Hne ->]]; [apply keeps_refl |]. destruct l as [| c l _] using rev_ind; [done |]. rewrite final_snoc.
      unfold set_next. eapply (header_write_keeps _ _ _ c); [exact L0 | in_list | lia | lia].
    + destruct E4 as [[_ ->] | [Hne ->]]; [apply keeps_refl |]. destruct r as [| d r]; [done |]. cbn [first].
      unfold set_prev. eapply (header_write_keeps _ _ _ d); [exact L0 | in_list | lia | lia].
Qed.

Lemma insert_region_linked fuel m bs b hi :
  linked m bs hi -> hdr m 0 0 b -> free b = true -> apart b bs -> 1 <= addr b -> addr b mod 16 = 0 -> cap b mod 16 = 0 -> 16 <= cap b ->
  0 <= req b < 2 ^ 64 -> stop b <= hi -> (length bs < fuel)%nat ->
  exists l r m', bs = l ++ r /\ insert_region fuel m (first 0 bs) (addr b) = Some (m', first 0 (coalesce l b r)) /\
    linked m' (coalesce l b r) hi /\ keeps bs m m'.
Proof.
  intros H Hb Fb Hap Ha Hal Hcap H16 Hreq Hst Hf. pose proof (linked_hi _ _ _ H) as Hhi. unfold insert_region.
  destruct (decide (bs = [])) as [-> | Hne].
  { exists [], [], m. do 2 (split; [done |]). split; [| done]. split; [done | by apply (laid_insert 1 [] b [] hi); [cbn; unfold stop, sizeof_block in *; lia | ..] | done]. }
  destruct (insert_loop_spec fuel m 0 bs (addr b) hi 1) as (l & r & E & Hl & Hr & Eloop); [apply H | apply H | lia | done |].
  assert ((first 0 bs =? 0) = false) as ->.
  { destruct bs as [| c bs]; [done |]. apply Z.eqb_neq. cbn. destruct (linked_elem _ _ _ c H) as (? & _); [in_list | lia]. }
  rewrite Eloop. cbn [mbind option_bind]. rewrite E in H, Hap.
  pose proof (laid_insert 1 l b r hi (linked_laid _ _ _ H) Hap Hl Hr Ha Hal Hcap H16 Hreq Hst) as L.
  destruct (link_insert m l b r hi H Hb L) as [H4 K4]. cbv zeta in H4, K4.
  set (m2 := set_next (set_prev m (addr b) (final 0 l)) (addr b) (first 0 r)) in *.
  set (m4 := link_prev (link_next m2 (final 0 l) (addr b)) (first 0 r) (addr b)) in *.
  pose proof (coalesce_linked m4 l b r hi H4 Fb) as Hc. destruct (merge_back m4 (addr b)) as [m5 x] eqn:Emb. destruct Hc as (H5 & K5 & Ebf & _).
  exists l, r, (merge_with_next m5 x). split; [done |]. split; [| split; [done |]].
  - rewrite first_coalesce. unfold merge_before in Ebf. fold m2.
    assert ((if final 0 l =? 0 then (m2, addr b) else (set_next m2 (final 0 l) (addr b), first 0 bs)) = (link_next m2 (final 0 l) (addr b), first 0 (l ++ b :: r))) as ->.
    { unfold link_next. destruct l as [| c l']; [done |]. rewrite (proj2 (Z.eqb_neq (final 0 (c :: l')) 0)); [by rewrite E |].
      destruct (last_is_Some (c :: l')) as [_ Hl']. destruct Hl' as [y Hy]; [done |]. unfold final. rewrite Hy. apply last_Some_elem_of in Hy.
      destruct (linked_elem _ _ _ y H) as (? & _); [by apply elem_of_app; left | lia]. }
    fold (link_prev (link_next m2 (final 0 l) (addr b)) (first 0 r) (addr b)). fold m4. by rewrite Ebf.
  - rewrite E. eapply keeps_trans; [exact K4 |]. intros c Hc Fc. apply K5; [| done]. apply elem_of_app in Hc. in_list.
Qed.
