(* ===== verification/HeapSpec.v ===== *)
(** * What the kernel heap guarantees (kernel/src/heap.c)

    The invariant of the heap, the behaviour of [kmalloc], [kzalloc] and
    [kfree], and histories of calls against an abstract allocator. *)

From stdpp Require Import base numbers list gmap.
From Stdlib Require Import ZArith Lia.
From S2P Require Import Prelude Bytes ByteMem Heap HeapList.

#[local] Open Scope Z_scope.

(** ** Canaries *)

Lemma write_loop_st n i m d v : 0 <= i -> 0 <= v -> write_loop n i m d v = st n m (d + i) (v / 256 ^ i).
Proof.
  revert i m. induction n as [| n IH]; intros i m Hi Hv; [done |]. cbn [write_loop]. rewrite IH, st_S by lia.
  rewrite Z.shiftr_div_pow2 by lia. change 256 with (2 ^ 8). rewrite <- !Z.pow_mul_r by lia.
  rewrite Z.div_div by (try apply Z.pow_nonzero; try apply Z.pow_pos_nonneg; lia). rewrite <- Z.pow_add_r by lia.
  replace (8 * i + 8) with (8 * (i + 1)) by lia. replace (i * 8) with (8 * i) by lia. by rewrite Z.add_assoc.
Qed.

Lemma write_u64_st m d v : 0 <= v -> write_u64 m d v = st 8 m d v.
Proof. intros Hv. unfold write_u64. rewrite write_loop_st by lia. by rewrite Z.add_0_r, Z.pow_0_r, Z.div_1_r. Qed.

Lemma read_loop_ld n i m s v : 0 <= i -> 0 <= v < 256 ^ i -> read_loop n i m s v = v + 256 ^ i * ld n m (s + i).
Proof.
  revert i v. induction n as [| n IH]; intros i v Hi Hv; cbn [read_loop]; [change (ld 0 m (s + i)) with 0; lia |].
  pose proof (peek_range m (s + i)). assert (256 ^ i = 2 ^ (i * 8)) as E by (change 256 with (2 ^ 8); rewrite <- Z.pow_mul_r by lia; f_equal; lia).
  rewrite Z.lor_comm, lor_shift_add by lia. rewrite <- E, IH; [| lia |].
  - rewrite ld_S, Z.add_assoc, Z.pow_add_r by lia. lia.
  - rewrite Z.pow_add_r by lia. nia.
Qed.

Lemma read_u64_ld m s : read_u64 m s = ld 8 m s.
Proof. unfold read_u64. rewrite read_loop_ld by lia. by rewrite Z.pow_0_r, Z.mul_1_l, Z.add_0_r. Qed.

Definition canary (b : blk) : Z := Z.lxor (Z.lxor HEAP_CANARY_SEED (addr b)) (req b).

Lemma lxor_range a b : 0 <= a < 2 ^ 64 -> 0 <= b < 2 ^ 64 -> 0 <= Z.lxor a b < 2 ^ 64.
Proof.
  intros Ha Hb. replace (Z.lxor a b) with (Z.lxor a b mod 2 ^ 64); [by apply Z.mod_pos_bound |]. apply Z.bits_inj'. intros n Hn.
  destruct (Z.ltb_spec n 64); [by apply Z.mod_pow2_bits_low |]. rewrite Z.mod_pow2_bits_high, Z.lxor_spec by lia.
  rewrite <- (Z.mod_small a (2 ^ 64)), <- (Z.mod_small b (2 ^ 64)) by done. by rewrite !Z.mod_pow2_bits_high by lia.
Qed.

Lemma canary_range b : 0 <= addr b < 2 ^ 64 -> 0 <= req b < 2 ^ 64 -> 0 <= canary b < 2 ^ 64.
Proof. intros. apply lxor_range; [apply lxor_range | done]; [unfold HEAP_CANARY_SEED; lia | done]. Qed.

(** ** The invariant *)

(** What a source of regions promises: the regions it hands out lie in the
    address space and do not overlap. *)
Class HeapGrowth {G : Type} (grow : heap_grow_fn G) := {
  grow_ok : G -> list (Z * Z) -> Prop;
  grow_law g owned n r g' :
    grow_ok g owned -> 0 <= n < 2 ^ 64 -> grow n g = (r, g') ->
    match r with
    | None => grow_ok g' owned
    | Some (p, k) => grow_ok g' ((p, k) :: owned) /\ 0 < p /\ 0 <= k /\ p + k < 2 ^ 64 /\
        forall q j, (q, j) ∈ owned -> p + k <= q \/ q + j <= p
    end
}.

Definition TOP : Z := 2 ^ 64 - 1.

Definition blk_ok (b : blk) : Prop := if free b then req b = 0 else 0 < req b /\ req b + HEAP_CANARY_BYTES <= cap b.
Definition sum_req (bs : list blk) : Z := foldr (fun b n => req b + n) 0 bs.
Definition in_regions (owned : list (Z * Z)) (a : Z) : Prop := Exists (fun '(p, k) => p <= a < p + k) owned.

Section Spec.
Context {G : Type} (grow : heap_grow_fn G) `{!HeapGrowth grow}.

Record heap_inv (w : kworld G) (bs : list blk) (owned : list (Z * Z)) : Prop := {
  inv_linked : linked (mem w) bs TOP;
  inv_first : blocks (heap w) = first 0 bs;
  inv_merged : merged bs;
  inv_blocks : Forall blk_ok bs;
  inv_bytes : total_region_bytes (heap w) = extent bs;
  inv_payload : allocated_payload_bytes (heap w) = sum_req (allocated bs);
  inv_active : active_allocations (heap w) = zlen (allocated bs);
  inv_ready : initialised (heap w) = true /\ grow_callback (heap w) = Some grow;
  inv_regions : forall a, covered bs a -> in_regions owned a;
  inv_source : grow_ok (source w) owned
}.

Lemma laid_extent lo bs hi : laid lo bs hi -> extent bs <= hi - lo /\ 64 * zlen bs <= extent bs.
Proof.
  revert lo. induction bs as [| b bs IH]; intros lo; [cbn; intros; unfold zlen; cbn; lia |].
  intros (? & ? & ? & ? & ? & L). destruct (IH _ L). rewrite zlen_cons. unfold extent in *. cbn [foldr]. unfold stop, sizeof_block in *. lia.
Qed.

Lemma inv_fuel w bs owned : heap_inv w bs owned -> (length bs < heap_fuel (heap w))%nat /\ 0 <= extent bs < 2 ^ 64.
Proof.
  intros H. destruct (laid_extent _ _ _ (linked_laid _ _ _ (inv_linked _ _ _ H))) as [E1 E2]. unfold TOP in E1. unfold heap_fuel. rewrite (inv_bytes _ _ _ H).
  unfold zlen, sizeof_block in *. split; [| lia]. enough (Z.of_nat (length bs) <= extent bs / 48) by lia. apply Z.div_le_lower_bound; lia.
Qed.

(** ** Growing *)

Lemma merged_app bs l r : merged bs -> bs = l ++ r -> merged l /\ merged r.
Proof.
  intros H ->. induction l as [| b l IH]; [done |]. destruct l as [| c l]; cbn [app merged] in *; [by destruct r; [| destruct H] |].
  destruct H as [? H]. destruct (IH H). done.
Qed.

Lemma merge1_ok b r : free b = true -> blk_ok b -> Forall blk_ok r -> Forall blk_ok (merge1 b r).
Proof.
  intros Fb Hb Hr. destruct r as [| c r]; cbn [merge1]; [by constructor |]. apply Forall_cons in Hr as [Hc Hr].
  destruct (mergeable b c); repeat constructor; done.
Qed.

Lemma coalesce_ok l b r : free b = true -> blk_ok b -> Forall blk_ok (l ++ r) -> Forall blk_ok (coalesce l b r).
Proof.
  intros Fb Hb [Hl Hr]%Forall_app. destruct l as [| c l _] using rev_ind; [rewrite coalesce_nil; by apply merge1_ok |]. rewrite coalesce_snoc.
  destruct (mergeable c b); apply Forall_app; (split; [| by apply merge1_ok]); [by apply Forall_app in Hl as [? _] | done].
Qed.


Lemma merge1_fits b r n : fits n b -> Forall (fun c => 0 <= cap c) r -> Exists (fits n) (merge1 b r).
Proof.
  intros [Fb Hn] Hr. destruct r as [| c r]; cbn [merge1]; [by left |]. destruct (mergeable b c); left; [| done].
  apply Forall_cons in Hr as [Hc _]. split; [done |]. cbn. unfold sizeof_block. lia.
Qed.

Lemma coalesce_fits l b r n : fits n b -> Forall (fun c => 0 <= cap c) (l ++ r) -> Exists (fits n) (coalesce l b r).
Proof.
  intros Hf [Hl Hr]%Forall_app. destruct l as [| c l _] using rev_ind; [rewrite coalesce_nil; by apply merge1_fits |]. rewrite coalesce_snoc.
  destruct (mergeable c b); apply Exists_app; right; (apply merge1_fits; [| done]); [| done]. apply Forall_app in Hl as [_ [Hc _]%Forall_cons].
  destruct Hf. split; [done |]. cbn. unfold sizeof_block. lia.
Qed.

Lemma align_up_16 p : 0 <= p -> p + 15 < 2 ^ 64 -> exists q, align_up_ptr p HEAP_ALIGNMENT = q /\ p <= q < p + 16 /\ q mod 16 = 0 /\ (p mod 16 = 0 -> q = p).
Proof.
  intros Hp Hw. exists (p + 15 - (p + 15) mod 16). unfold align_up_ptr, HEAP_ALIGNMENT. rewrite (u64_small (16 - 1)), (u64_small (p + (16 - 1))) by lia.
  change (16 - 1) with (2 ^ 4 - 1). rewrite land_not64_low_mask by lia. change (2 ^ 4 - 1) with 15. change (2 ^ 4) with 16.
  split; [done |]. pose proof (Z.mod_pos_bound (p + 15) 16 ltac:(done)). split; [lia |]. pose proof (Z.div_mod (p + 15) 16 ltac:(done)).
  split; [replace (p + 15 - (p + 15) mod 16) with ((p + 15) / 16 * 16) by lia; by apply Z.mod_mul |].
  intros Hm. pose proof (Z.div_mod p 16 ltac:(done)). Z.to_euclidean_division_equations. lia.
Qed.

(** The header [add_region] writes. *)
Lemma new_header m q c :
  0 <= c < 2 ^ 64 ->
  hdr (set_reserved (set_is_free (set_prev (set_next (set_requested (set_capacity (set_magic m q HEAP_FREE_MAGIC) q c) q 0) q 0) q 0) q 1) q 0) 0 0
    (mk_blk q c 0 true).
Proof. intros Hc. unfold HEAP_FREE_MAGIC. split; cbn [addr cap req free]; unfold blk_magic, HEAP_FREE_MAGIC; cbn [free]; field_reads; done. Qed.

Lemma dll_agree_apart m m' p bs n lo hi b :
  laid lo bs hi -> apart b bs -> (forall lo' hi', hi' <= addr b \/ stop b <= lo' -> agree lo' hi' m m') -> dll m p bs n -> dll m' p bs n.
Proof.
  intros L Hap A. revert p lo L Hap. induction bs as [| c bs IH]; intros p lo; [done |].
  intros (? & ? & ? & ? & ? & L) [Hc Hap]%Forall_cons [Hh Hd]. split; [| by apply (IH _ (stop c))].
  eapply hdr_agree; [| done]. apply A. unfold stop, sizeof_block in *. lia.
Qed.

(** After a region of [k] bytes at [p] was offered to the heap. *)
Definition region_post (w : kworld G) (bs : list blk) (owned : list (Z * Z)) (p k : Z) (result : option (bool * kworld G)) : Prop :=
  exists added w' bs', result = Some (added, w') /\ heap_inv w' bs' ((p, k) :: owned) /\ allocated bs' = allocated bs /\ keeps bs (mem w) (mem w') /\
    forall n, p mod 16 = 0 -> sizeof_block + n + HEAP_CANARY_BYTES <= k -> 96 < k -> n mod 16 = 0 -> added = true /\ Exists (fits n) bs'.

Lemma inv_more_regions w bs owned g p k :
  heap_inv w bs owned -> grow_ok g ((p, k) :: owned) -> heap_inv (mk_kworld (heap w) (mem w) g) bs ((p, k) :: owned).
Proof. intros H Hg. split; try apply H; [| done]. intros a Ha. apply Exists_cons_tl. by apply (inv_regions _ _ _ H). Qed.

Lemma apart_regions bs b owned p k :
  (forall a, covered bs a -> in_regions owned a) -> (forall q j, (q, j) ∈ owned -> p + k <= q \/ q + j <= p) ->
  p <= addr b -> stop b <= p + k -> 16 <= cap b -> Forall (fun c => 16 <= cap c) bs -> apart b bs.
Proof.
  intros Hc Hdis H1 H2 Hb Hcap. apply Forall_forall. intros c Hin. rewrite Forall_forall in Hcap. specialize (Hcap c Hin).
  destruct (decide (stop c <= addr b)); [by left |]. destruct (decide (stop b <= addr c)); [by right |]. exfalso.
  assert (covered bs (Z.max (addr c) (addr b))) as Hcov.
  { apply Exists_exists. exists c. split; [done |]. unfold stop, sizeof_block in *. lia. }
  apply Hc, Exists_exists in Hcov as ([q j] & Hqj & Hr). destruct (Hdis q j Hqj); unfold stop, sizeof_block in *; lia.
Qed.

Lemma add_region_spec w bs owned g p k :
  heap_inv w bs owned -> grow_ok g ((p, k) :: owned) -> 0 < p -> 0 <= k -> p + k < 2 ^ 64 -> (forall q j, (q, j) ∈ owned -> p + k <= q \/ q + j <= p) ->
  region_post w bs owned p k (add_region (mk_kworld (heap w) (mem w) g) p k).
Proof.
  intros H Hg Hp Hk Hw Hdis. assert ((p mod 16 = 0 -> k <= 96) -> region_post w bs owned p k (Some (false, mk_kworld (heap w) (mem w) g))) as Hno.
  { intros Hle. exists false, (mk_kworld (heap w) (mem w) g), bs. split; [done |]. split; [by apply inv_more_regions |]. split; [done |]. split; [done |]. intros n Hp16 _ Hk96 _. specialize (Hle Hp16). lia. }
  unfold add_region, sizeof_block, HEAP_MIN_SPLIT. rewrite (proj2 (Z.eqb_neq p 0)) by lia. cbn [orb].
  if_case; bool_cases; [apply Hno; lia |]. destruct (align_up_16 p) as (q & -> & Hq & Hqm & Hqp); [lia | lia |].
  rewrite (u64_small (q - p)) by lia. rewrite (proj2 (Z.leb_gt _ _)) by lia. rewrite (u64_small (k - (q - p))) by lia.
  change (HEAP_ALIGNMENT - 1) with (2 ^ 4 - 1). rewrite land_not64_low_mask by lia. change (2 ^ 4) with 16.
  set (n1 := k - (q - p)) in *. pose proof (Z.mod_pos_bound n1 16 ltac:(done)) as Hm. if_case; bool_cases; [apply Hno; intros Hp16; specialize (Hqp Hp16); lia |].
  cbn [heap mem source]. set (sz := n1 - n1 mod 16) in *. rewrite (u64_small (sz - 48)) by lia.
  assert (sz mod 16 = 0) as Hsz.
  { unfold sz. rewrite Zminus_mod, Z.mod_mod, Z.sub_diag by done. done. }
  set (nb := mk_blk q (sz - 48) 0 true).
  pose proof (new_header (mem w) q (sz - 48) ltac:(lia)) as Hhdr. set (m := set_reserved _ _ _) in *.
  pose proof (linked_laid _ _ _ (inv_linked _ _ _ H)) as L.
  assert (Forall (fun c => 16 <= cap c) bs) as Hcaps by (apply Forall_forall; intros c Hc; by apply (laid_elem _ _ _ c L Hc)).
  assert (apart nb bs) as Hap by (apply (apart_regions bs nb owned p k (inv_regions _ _ _ H) Hdis); unfold stop, nb, sizeof_block; cbn [addr cap]; [lia | lia | lia | done]).
  assert (linked m bs TOP) as Hlm.
  { split; [| exact L | done]. eapply (dll_agree_apart (mem w)); [exact L | exact Hap | | apply (inv_linked _ _ _ H)].
    intros lo' hi' Hr. unfold m. unfold stop, nb, sizeof_block in Hr. cbn [addr cap] in Hr. writes_outside. }
  assert (keeps bs (mem w) m) as Km.
  { intros c Hc Fc. unfold apart in Hap. rewrite Forall_forall in Hap. specialize (Hap c Hc). rewrite Forall_forall in Hcaps. specialize (Hcaps c Hc).
    unfold m. unfold nb, data, stop, sizeof_block in *. cbn [addr cap] in Hap. writes_outside. }
  destruct (inv_fuel _ _ _ H) as [Hfuel Hext].
  destruct (insert_region_linked (heap_fuel (heap w)) m bs nb TOP Hlm Hhdr) as (l & r & m' & Ebs & Eins & Hl & K); try done; try (unfold nb, stop, TOP, sizeof_block; cbn [addr cap]; lia).
  { unfold nb. cbn [cap]. replace (sz - 48) with (sz + (-3) * 16) by lia. by rewrite Z.mod_add. }
  rewrite (inv_first _ _ _ H). change q with (addr nb). rewrite Eins. cbn [mbind option_bind].
  destruct (coalesce_same l nb r eq_refl) as (Ea & Ex & Ec). rewrite <- allocated_app, <- Ebs in Ea.
  eexists true, _, (coalesce l nb r). split; [done |]. split; [| split; [done | split]].
  - assert (extent bs + sz = extent (coalesce l nb r)) as Hsum.
    { rewrite Ex, Ebs, !extent_app. change (extent (nb :: r)) with (48 + (sz - 48) + extent r). lia. }
    assert (extent (coalesce l nb r) < 2 ^ 64) by (destruct (laid_extent _ _ _ (linked_laid _ _ _ Hl)); unfold TOP in *; lia).
    split; cbn; try apply H; rewrite ?Ea.
    + done.
    + done.
    + destruct (merged_app bs l r (inv_merged _ _ _ H) Ebs) as [M1 M2]. by apply coalesce_merged.
    + pose proof (inv_blocks _ _ _ H) as Hok. rewrite Ebs in Hok. by apply coalesce_ok.
    + rewrite (inv_bytes _ _ _ H), u64_small by lia. done.
    + apply H.
    + apply H.
    + intros a Ha%Ec. rewrite covered_app in Ha. destruct Ha as [Ha | Ha]; [| apply Exists_cons in Ha as [Ha | Ha]].
      * apply Exists_cons_tl, (inv_regions _ _ _ H). rewrite Ebs, covered_app. by left.
      * apply Exists_cons_hd. unfold nb, stop, sizeof_block in Ha. cbn [addr cap] in Ha. lia.
      * apply Exists_cons_tl, (inv_regions _ _ _ H). rewrite Ebs, covered_app. by right.
    + done.
  - by apply (keeps_trans _ _ m).
  - intros n Hp16 Hn Hk96 Hn16. split; [done |]. apply coalesce_fits; [| rewrite <- Ebs; eapply Forall_impl; [exact Hcaps | cbn; intros; lia]].
    split; [done |]. unfold nb. cbn [cap]. specialize (Hqp Hp16). unfold sizeof_block, HEAP_CANARY_BYTES in Hn.
    unfold sz, n1 in *. clear - Hn Hqp Hn16. subst q. Z.to_euclidean_division_equations. lia.
Qed.

(** ** Changing one block *)

Lemma relabel_linked m l b r hi sz fr :
  linked m (l ++ b :: r) hi -> 0 <= sz < 2 ^ 64 ->
  let nb := mk_blk (addr b) (cap b) sz fr in
  let m' := set_is_free (set_requested (set_magic m (addr b) (blk_magic nb)) (addr b) sz) (addr b) (if fr then 1 else 0) in
  linked m' (l ++ nb :: r) hi /\ forall lo' hi', hi' <= addr b \/ data b <= lo' -> agree lo' hi' m m'.
Proof.
  intros H Hsz nb m'. pose proof (linked_middle _ _ _ _ _ H) as (Dl & Hb & Dr & Ll & ? & ? & ? & ? & ? & ? & Lr & Hhi).
  assert (forall lo' hi', hi' <= addr b \/ data b <= lo' -> agree lo' hi' m m') as A by (intros lo' hi' ?; unfold m', data, sizeof_block in *; writes_outside).
  split; [| done]. split; [apply dll_app; split; [| split] | | done].
  - eapply dll_agree; [exact Ll | | exact Dl]. apply A. by left.
  - pose proof (hdr_next _ _ _ _ Hb) as Hn. pose proof (hdr_prev _ _ _ _ Hb) as Hp. pose proof (hdr_capacity _ _ _ _ Hb) as Hc.
    assert (0 <= blk_magic nb < 2 ^ 64) by (unfold nb, blk_magic, HEAP_FREE_MAGIC, HEAP_ALLOC_MAGIC; destruct fr; cbn; lia).
    unfold m', nb in *. split; cbn [addr cap req free]; revert Hn Hp Hc; field_reads; intros; try done; destruct fr; field_reads; done.
  - eapply dll_agree; [exact Lr | | exact Dr]. apply A. right. unfold data, stop, sizeof_block. lia.
  - apply laid_app. exists (addr b). split; [exact Ll |]. cbn [laid]. do 5 (split; [done || lia |]). exact Lr.
Qed.

(** Bytes of a payload do not matter to the list. *)
Lemma payload_linked m m' l b r hi :
  linked m (l ++ b :: r) hi -> (forall lo' hi', hi' <= data b \/ stop b <= lo' -> agree lo' hi' m m') -> linked m' (l ++ b :: r) hi.
Proof.
  intros H A. pose proof (linked_middle _ _ _ _ _ H) as (Dl & Hb & Dr & Ll & ? & ? & ? & ? & ? & ? & Lr & Hhi).
  unfold data, stop, sizeof_block in *. split; [apply dll_app; split; [| split] | apply H | done].
  - eapply dll_agree; [exact Ll | | exact Dl]. apply A. lia.
  - eapply hdr_agree; [| exact Hb]. unfold sizeof_block. apply A. lia.
  - eapply dll_agree; [exact Lr | | exact Dr]. apply A. lia.
Qed.

(** Writes inside a block keep the data of the others. *)
Lemma block_keeps m m' l b r hi :
  linked m (l ++ b :: r) hi -> (forall lo' hi', hi' <= addr b \/ stop b <= lo' -> agree lo' hi' m m') -> keeps (l ++ r) m m'.
Proof.
  intros H A c Hc Fc. pose proof (linked_middle _ _ _ _ _ H) as (_ & _ & _ & Ll & _ & _ & _ & _ & _ & _ & Lr & _). apply A.
  apply elem_of_app in Hc as [Hc | Hc]; [left | right].
  - destruct (laid_elem _ _ _ c Ll Hc) as (_ & ? & _). lia.
  - destruct (laid_elem _ _ _ c Lr Hc) as (? & _). unfold data, sizeof_block. lia.
Qed.

Lemma keeps_app l r m m' : keeps (l ++ r) m m' <-> keeps l m m' /\ keeps r m m'.
Proof.
  split.
  - intros H. split; intros c Hc; apply H, elem_of_app; [by left | by right].
  - intros [H1 H2] c [Hc | Hc]%elem_of_app; [by apply H1 | by apply H2].
Qed.

Lemma sum_req_app l r : sum_req (l ++ r) = sum_req l + sum_req r.
Proof. unfold sum_req. induction l as [| b l IH]; [done |]. cbn [app foldr]. rewrite IH. lia. Qed.

Lemma sum_req_bound lo bs hi : laid lo bs hi -> Forall blk_ok bs -> 0 <= sum_req (allocated bs) <= extent bs /\ zlen (allocated bs) <= zlen bs.
Proof.
  revert lo. induction bs as [| b bs IH]; intros lo; [done |]. intros (? & ? & ? & ? & ? & L) [Hb Hbs]%Forall_cons. destruct (IH _ L Hbs) as [? ?].
  unfold allocated in *. rewrite filter_cons, zlen_cons. unfold extent in *. cbn [foldr]. unfold sizeof_block in *.
  case_decide as Hf; [| lia]. unfold blk_ok in Hb. rewrite Hf in Hb. cbn [sum_req foldr]. fold (sum_req (filter (fun b => free b = false) bs)).
  rewrite zlen_cons. unfold HEAP_CANARY_BYTES in *. lia.
Qed.

(** ** Allocation *)

(** A block for [size] bytes at [p] was added to the allocated ones. *)
Definition taken (m m' : bytemem) (bs bs' : list blk) (p size : Z) : Prop :=
  exists nb, data nb = p /\ req nb = size /\ free nb = false /\ allocated bs' ≡ₚ nb :: allocated bs /\ keeps bs m m' /\
    ld 8 m' (p + size) = canary nb /\ forall i, 0 <= i < size -> peek m' (p + i) = 0xcd.

(** The list with the block split and taken. *)
Lemma split1_shape b n : free b = true -> 0 <= n <= cap b ->
  exists b1 rest, split1 b n = b1 :: rest /\ addr b1 = addr b /\ n <= cap b1 /\ free b1 = true /\ Forall (fun c => free c = true /\ req c = 0) rest /\
    extent (b1 :: rest) = extent [b] /\ (forall a, covered (b1 :: rest) a -> covered [b] a) /\
    forall r, merged (b :: r) -> merged (rest ++ r).
Proof.
  intros Fb Hn. unfold split1. destruct (Z.ltb_spec (cap b - n) (sizeof_block + HEAP_MIN_SPLIT)) as [Hlt | Hge].
  - exists b, []. do 2 (split; [done |]). split; [lia |]. do 4 (split; [done |]). intros r. cbn [app]. destruct r; [done | by intros [_ ?]].
  - exists (shrink b n), [tail_of b n]. split; [done |]. split; [done |]. split; [cbn; lia |]. split; [done |]. split; [by repeat constructor |].
    unfold sizeof_block, HEAP_MIN_SPLIT in *. split; [unfold extent; cbn; unfold sizeof_block; lia |]. split.
    + intros a. unfold covered. rewrite !Exists_cons, !Exists_nil. unfold shrink, tail_of, stop, sizeof_block. cbn [addr cap]. intros [? | [? | []]]; left; lia.
    + intros r. destruct r as [| c r]; [done |]. intros [Hbc Hr]. split; [| done]. revert Hbc. unfold mergeable. rewrite Fb.
      unfold tail_of, stop, sizeof_block. cbn [addr cap free]. by replace (addr b + 48 + n + 48 + (cap b - n - 48)) with (addr b + 48 + cap b) by lia.
Qed.

Lemma merged_busy l nb r : free nb = false -> merged l -> merged r -> merged (l ++ nb :: r).
Proof.
  intros Fn Hl Hr. apply merged_app_cons. split.
  - clear Hr. induction l as [| c l IH]; [done |]. destruct l as [| d l]; cbn [app merged] in *; [| destruct Hl; split; [done | by apply IH]].
    split; [| done]. unfold mergeable. rewrite Fn. by rewrite andb_false_r.
  - destruct r as [| c r]; [done |]. split; [| done]. unfold mergeable. by rewrite Fn.
Qed.

Lemma all_free_allocated rest : Forall (fun c => free c = true /\ req c = 0) rest -> allocated rest = [] /\ Forall blk_ok rest.
Proof.
  induction 1 as [| c rest [Fc Hc] _ [IH1 IH2]]; [done |]. rewrite (allocated_free c) by done. split; [done |]. constructor; [| done].
  unfold blk_ok. by rewrite Fc.
Qed.

(** Memory after the block at [addr b] was taken. *)
Lemma take_memory m l b r n size :
  linked m (l ++ b :: r) TOP -> fits n b -> n mod 16 = 0 -> 16 <= n -> 0 < size -> size + 8 <= n ->
  exists nb rest m1, split1 b n = mk_blk (addr nb) (cap nb) (req b) (free b) :: rest /\ addr nb = addr b /\ req nb = size /\ free nb = false /\ n <= cap nb /\
    m1 = set_is_free (set_requested (set_magic (split_block m (addr b) n) (addr b) HEAP_ALLOC_MAGIC) (addr b) size) (addr b) 0 /\
    capacity m1 (addr b) = cap nb /\
    let m2 := fill_bytes m1 (data nb) (cap nb) 0xcd in
    block_canary m2 (addr b) = canary nb /\
    linked (st 8 m2 (data nb + size) (canary nb)) (l ++ nb :: rest ++ r) TOP /\
    keeps (l ++ b :: r) m (st 8 m2 (data nb + size) (canary nb)) /\
    ld 8 (st 8 m2 (data nb + size) (canary nb)) (data nb + size) = canary nb /\
    forall i, 0 <= i < size -> peek (st 8 m2 (data nb + size) (canary nb)) (data nb + i) = 0xcd.
Proof.
  intros H [Fb Hn] Hm16 H16 Hsz Hle. destruct (split_linked m l b r TOP n H Fb Hm16 ltac:(lia)) as [Hs Ks].
  assert (exists c1 rest, split1 b n = mk_blk (addr b) c1 (req b) (free b) :: rest /\ n <= c1) as (c1 & rest & E1 & Hc1).
  { unfold split1. case_match; [exists (cap b), []; by destruct b | eexists _, _; split; [done | lia]]. }
  set (b1 := mk_blk (addr b) c1 (req b) (free b)) in *. rewrite E1 in Hs. cbn [app] in Hs.
  destruct (linked_elem _ _ _ b1 Hs) as (Ha & Hst & _); [in_list |]. unfold stop, sizeof_block, TOP in Hst. cbn [addr cap b1] in Ha, Hst.
  destruct (relabel_linked _ l b1 (rest ++ r) TOP size false Hs ltac:(lia)) as [Hr Ar].
  set (nb := mk_blk (addr b1) (cap b1) size false) in *. set (m1 := set_is_free _ _ _) in *.
  pose proof (linked_middle _ _ _ _ _ Hr) as (_ & Hh & _).
  exists nb, rest, m1. split; [by rewrite E1 |]. do 3 (split; [done |]). split; [cbn; lia |]. split; [done |].
  split; [apply (hdr_capacity _ _ _ _ Hh) |]. intros m2.
  assert (forall lo' hi', hi' <= data nb \/ stop nb <= lo' -> agree lo' hi' m1 m2) as A2.
  { intros lo' hi' Ho. unfold m2, fill_bytes. apply fill_agree. unfold nb, data, stop, sizeof_block in *. cbn [addr cap b1] in *. lia. }
  assert (0 <= canary nb < 2 ^ 64) as Hcan by (apply canary_range; cbn; lia).
  assert (forall lo' hi', hi' <= data nb \/ stop nb <= lo' -> agree lo' hi' m2 (st 8 m2 (data nb + size) (canary nb))) as A3.
  { intros lo' hi' Ho. apply st_agree. unfold nb, data, stop, sizeof_block in *. cbn [addr cap b1] in *. lia. }
  split.
  { unfold block_canary, canary. f_equal. rewrite <- (hdr_requested _ _ _ _ Hh). unfold requested. apply ld_agree, A2. left. unfold nb, data, sizeof_block. cbn. lia. }
  split; [eapply payload_linked; [exact Hr |]; intros lo' hi' Ho; eapply agree_trans; [by apply A2 | by apply A3] |]. split.
  - assert (keeps (l ++ rest ++ r) (split_block m (addr b) n) (st 8 m2 (data nb + size) (canary nb))) as K.
    { eapply block_keeps; [exact Hs |]. intros lo' hi' Ho. unfold stop, sizeof_block in Ho. cbn [addr cap b1] in Ho.
      eapply agree_trans; [apply Ar; unfold data, sizeof_block; cbn; lia |].
      eapply agree_trans; [apply A2 | apply A3]; unfold nb, data, stop, sizeof_block; cbn [addr cap b1]; lia. }
    intros c Hc Fc. eapply agree_trans; [by apply Ks |]. apply K; [| done]. rewrite !elem_of_app, ?elem_of_cons in *. destruct Hc as [? | [-> | ?]]; [tauto | congruence | tauto].
  - split; [by apply ld_st_same |]. intros i Hi. rewrite (st_agree 8 m2 _ _ (data nb) (data nb + size)) by lia.
    unfold m2, fill_bytes. by rewrite fill_in by (unfold nb, b1; cbn [cap]; lia).
Qed.

Lemma take_block_spec w l b r owned n size :
  heap_inv w (l ++ b :: r) owned -> fits n b -> n mod 16 = 0 -> 16 <= n -> 0 < size -> size + 8 <= n ->
  exists p w' bs', take_block w (addr b) size n = (p, w') /\ heap_inv w' bs' owned /\ taken (mem w) (mem w') (l ++ b :: r) bs' p size.
Proof.
  intros H Hf Hm H16 Hsz Hle. destruct (take_memory (mem w) l b r n size (inv_linked _ _ _ H) Hf Hm H16 Hsz Hle)
    as (nb & rest & m1 & E1 & Ea & Er & Fnb & Hcap & Em1 & Ecap & Hcan & HL & K & Hld & Hbytes).
  destruct Hf as [Fb Hn]. destruct (split1_shape b n Fb ltac:(lia)) as (b1 & rest' & E2 & Ea1 & Hc1 & Fb1 & Hrest & Hext & Hcov & Hmer).
  rewrite E1 in E2. injection E2 as <- <-. destruct (all_free_allocated rest Hrest) as [Halr Hokr].
  destruct (linked_elem _ _ _ nb HL) as (Hn1 & Hn2 & _); [in_list |]. unfold stop, sizeof_block, TOP in Hn2.
  assert (payload (addr b) = data nb) as Hpay by (unfold payload, data, sizeof_block; rewrite <- Ea, u64_small by lia; done).
  assert (allocated (l ++ nb :: rest ++ r) = allocated l ++ nb :: allocated r) as Hal.
  { rewrite allocated_app. unfold allocated at 2. rewrite filter_cons_True by done. fold (allocated (rest ++ r)). by rewrite allocated_app, Halr. }
  assert (allocated (l ++ b :: r) = allocated l ++ allocated r) as Hal0 by (by rewrite allocated_app, (allocated_free b)).
  unfold take_block. cbv zeta. rewrite <- Em1, Ecap, Hpay, Hcan, (u64_small (data nb + size)) by (unfold data, sizeof_block; lia).
  rewrite write_u64_st by (apply canary_range; lia). set (m3 := st 8 _ _ _) in *.
  pose proof (inv_blocks _ _ _ H) as Hok. apply Forall_app in Hok as [Hokl [_ Hokr']%Forall_cons].
  assert (Forall blk_ok (l ++ nb :: rest ++ r)) as Hok'.
  { apply Forall_app. split; [done |]. constructor; [unfold blk_ok, HEAP_CANARY_BYTES; rewrite Fnb, Er; lia |]. by apply Forall_app. }
  destruct (sum_req_bound _ _ _ (linked_laid _ _ _ HL) Hok') as [Hs1 Hs2]. destruct (laid_extent _ _ _ (linked_laid _ _ _ HL)) as [Hx1 Hx2].
  unfold TOP in Hx1. rewrite Hal, sum_req_app in Hs1. change (sum_req (nb :: allocated r)) with (req nb + sum_req (allocated r)) in Hs1.
  rewrite Hal, zlen_app, zlen_cons in Hs2. eexists _, _, (l ++ nb :: rest ++ r). split; [done |]. split; [split; cbn [heap mem source blocks] |].
  - exact HL.
  - rewrite (inv_first _ _ _ H). destruct l; cbn; [by rewrite Ea | done].
  - pose proof (inv_merged _ _ _ H) as [M1 M2]%merged_app_cons. apply merged_busy; [done | | by apply Hmer].
    by destruct (merged_app _ l [b] M1 eq_refl).
  - exact Hok'.
  - cbn. rewrite (inv_bytes _ _ _ H), !extent_app. change (nb :: rest ++ r) with ([nb] ++ rest ++ r). change (b :: r) with ([b] ++ r).
    rewrite !extent_app. rewrite <- Hext. change (mk_blk (addr nb) (cap nb) (req b) (free b) :: rest) with ([mk_blk (addr nb) (cap nb) (req b) (free b)] ++ rest).
    rewrite extent_app. unfold extent. cbn. lia.
  - cbn. rewrite (inv_payload _ _ _ H), Hal0, Hal, !sum_req_app. change (sum_req (nb :: allocated r)) with (req nb + sum_req (allocated r)).
    rewrite u64_small by lia. lia.
  - cbn. rewrite (inv_active _ _ _ H), Hal0, Hal, !zlen_app, zlen_cons. pose proof (zlen_nonneg (allocated l)). pose proof (zlen_nonneg (allocated r)).
    rewrite u64_small by lia. lia.
  - apply H.
  - intros a Ha. apply (inv_regions _ _ _ H). rewrite covered_app in *. destruct Ha as [? | Ha]; [by left | right].
    change (nb :: rest ++ r) with ((nb :: rest) ++ r) in Ha. rewrite covered_app in Ha. change (b :: r) with ([b] ++ r). rewrite covered_app.
    destruct Ha as [Ha | ?]; [left | by right]. apply Hcov. unfold covered in *. rewrite Exists_cons in *. unfold stop in *. cbn [addr cap]. done.
  - apply H.
  - exists nb. split; [done |]. split; [done |]. split; [done |]. split; [| done]. rewrite Hal, Hal0. by rewrite Permutation_middle.
Qed.

(** ** kmalloc *)

Lemma keeps_allocated bs bs' m m' : allocated bs' = allocated bs -> keeps bs m m' -> keeps bs' m m'.
Proof.
  intros E K c Hc Fc. apply K; [| done]. assert (c ∈ allocated bs') as Hin by (by apply elem_of_allocated). rewrite E in Hin. by apply elem_of_allocated in Hin as [? _].
Qed.

Lemma failed_inv w bs owned : heap_inv w bs owned -> heap_inv (allocation_failed w) bs owned.
Proof. intros []. by split. Qed.

Lemma need_spec size :
  0 < size -> size + 8 < 2 ^ 64 ->
  match align_up_size (u64 (size + HEAP_CANARY_BYTES)) HEAP_ALIGNMENT with
  | None => 2 ^ 64 - 24 < size
  | Some n => n mod 16 = 0 /\ size + 8 <= n < size + 24 /\ n < 2 ^ 64 /\ 16 <= n
  end.
Proof.
  intros Hs Hw. unfold align_up_size, HEAP_CANARY_BYTES, HEAP_ALIGNMENT, SIZE_MAX, UINT64_MAX. rewrite (u64_small (size + 8)) by lia.
  change ((16 =? 0) || negb (Z.land 16 (u64 (16 - 1)) =? 0)) with false. cbv iota zeta. change (u64 (16 - 1)) with (2 ^ 4 - 1). rewrite land_low_mask by lia.
  change (2 ^ 4) with 16. pose proof (Z.mod_pos_bound (size + 8) 16 ltac:(done)) as Hm. destruct (Z.eqb_spec ((size + 8) mod 16) 0) as [E | E].
  - split; [done |]. split; [lia |]. split; [lia |]. pose proof (Z.div_mod (size + 8) 16 ltac:(done)). lia.
  - rewrite (u64_small (16 - _)) by lia. if_case; bool_cases; [lia |]. rewrite u64_small by lia.
    pose proof (Z.div_mod (size + 8) 16 ltac:(done)). split; [| lia].
    replace (size + 8 + (16 - (size + 8) mod 16)) with (((size + 8) / 16 + 1) * 16) by lia. by apply Z.mod_mul.
Qed.

(** What the source must offer for [n] more bytes. *)
Definition offers (w : kworld G) (n : Z) : Prop :=
  exists p k g', grow (sizeof_block + n + HEAP_CANARY_BYTES) (source w) = (Some (p, k), g') /\
    p mod 16 = 0 /\ sizeof_block + n + HEAP_CANARY_BYTES <= k /\ 96 < k.

Lemma grow_heap_spec w bs owned n :
  heap_inv w bs owned -> 0 <= n < 2 ^ 64 ->
  exists added w' bs' owned', grow_heap w n = Some (added, w') /\ heap_inv w' bs' owned' /\ owned ⊆ owned' /\
    allocated bs' = allocated bs /\ keeps bs (mem w) (mem w') /\
    (n + 56 < 2 ^ 64 -> n mod 16 = 0 -> offers w n -> added = true /\ Exists (fits n) bs').
Proof.
  intros H Hn. destruct (inv_ready _ _ _ H) as [_ Hg]. unfold grow_heap. rewrite Hg. unfold SIZE_MAX, UINT64_MAX, sizeof_block, HEAP_CANARY_BYTES. if_case; bool_cases.
  { exists false, w, bs, owned. split; [done |]. split; [done |]. split; [done |]. split; [done |]. split; [done |]. lia. }
  rewrite (u64_small (48 + n)), (u64_small (48 + n + 8)) by lia. destruct (grow (48 + n + 8) (source w)) as [region g] eqn:Eg.
  pose proof (grow_law _ _ (48 + n + 8) _ _ (inv_source _ _ _ H) ltac:(lia) Eg) as Hlaw. destruct region as [[p k] |].
  - destruct Hlaw as (Hok & Hp & Hk & Hw & Hdis). rewrite (proj2 (Z.eqb_neq p 0)) by lia.
    destruct (add_region_spec w bs owned g p k H Hok Hp Hk Hw Hdis) as (added & w' & bs' & E' & H' & Hal & K & Hbig).
    exists added, w', bs', ((p, k) :: owned). split; [done |]. split; [done |]. split; [intros ? ?; by right |]. split; [done |]. split; [done |].
    intros _ Hn16 (p' & k' & g' & Eg' & Hp16 & Hle & H96). unfold sizeof_block, HEAP_CANARY_BYTES in *. rewrite Eg in Eg'. injection Eg' as <- <- <-. by apply Hbig.
  - exists false, (mk_kworld (heap w) (mem w) g), bs, owned. split; [done |]. split; [split; try apply H; done |]. split; [done |]. split; [done |]. split; [done |].
    intros _ _ (p' & k' & g' & Eg' & _). unfold sizeof_block, HEAP_CANARY_BYTES in *. congruence.
Qed.

(** The results of [kmalloc]. *)
Definition malloc_post (w : kworld G) (bs : list blk) (owned : list (Z * Z)) (size : Z) (p : Z) (w' : kworld G) : Prop :=
  exists bs' owned', heap_inv w' bs' owned' /\ owned ⊆ owned' /\
    ((p = 0 /\ allocated bs' = allocated bs /\ keeps bs (mem w) (mem w') /\
      (size = 0 \/ 2 ^ 64 - 24 < size \/
       exists n, n mod 16 = 0 /\ size + 8 <= n < size + 24 /\ Forall (fun b => ~ fits n b) bs /\ (n + 56 < 2 ^ 64 -> ~ offers w n))) \/
     (p <> 0 /\ taken (mem w) (mem w') bs bs' p size)).

Lemma taken_nonzero w bs owned m bs0 p size : heap_inv w bs owned -> taken m (mem w) bs0 bs p size -> p <> 0.
Proof.
  intros H (nb & <- & _ & _ & Hal & _). assert (nb ∈ bs) as Hin by (apply elem_of_allocated; rewrite Hal; left).
  destruct (linked_elem _ _ _ nb (inv_linked _ _ _ H) Hin) as (? & _). unfold data, sizeof_block. lia.
Qed.

Lemma find_block_spec w bs owned n :
  heap_inv w bs owned ->
  (exists l b r, bs = l ++ b :: r /\ fits n b /\ find_block w n = Some (addr b) /\ addr b <> 0) \/
  (Forall (fun b => ~ fits n b) bs /\ find_block w n = Some 0).
Proof.
  intros H. unfold find_block. rewrite (inv_first _ _ _ H). destruct (inv_linked _ _ _ H) as [D L _].
  destruct (heap_find_spec (heap_fuel (heap w)) (mem w) 0 bs n TOP 1 D L ltac:(lia)) as [(l & b & r & -> & Hf & _ & E) | ?];
    [by apply (inv_fuel _ _ _ H) | left | by right].
  exists l, b, r. split; [done |]. split; [done |]. split; [done |]. destruct (laid_elem _ _ _ b L) as (? & _); [in_list | lia].
Qed.

Lemma take_post w l b r owned n size :
  heap_inv w (l ++ b :: r) owned -> fits n b -> n mod 16 = 0 -> 16 <= n -> 0 < size -> size + 8 <= n ->
  exists p w' bs', take_block w (addr b) size n = (p, w') /\ heap_inv w' bs' owned /\ p <> 0 /\ taken (mem w) (mem w') (l ++ b :: r) bs' p size.
Proof.
  intros H Hf Hn Hn16 Hs Hsn. destruct (take_block_spec w l b r owned n size H Hf Hn Hn16 Hs Hsn) as (p & w' & bs' & E & H' & T).
  exists p, w', bs'. split; [done |]. split; [done |]. split; [by eapply taken_nonzero | done].
Qed.

Lemma kmalloc_spec w bs owned size :
  heap_inv w bs owned -> 0 <= size < 2 ^ 64 -> exists p w', kmalloc w size = Some (p, w') /\ malloc_post w bs owned size p w'.
Proof.
  intros H Hsz. assert (size = 0 \/ 2 ^ 64 - 24 < size -> malloc_post w bs owned size 0 (allocation_failed w)) as Hfail.
  { intros Hre. exists bs, owned. split; [by apply failed_inv |]. split; [done |]. left. split; [done |]. split; [done |]. split; [done |]. tauto. }
  unfold kmalloc. destruct (inv_ready _ _ _ H) as [Hi _]. rewrite Hi. cbn [negb orb].
  destruct (Z.eqb_spec size 0) as [E0 | E0]; [eexists _, _; split; [done |]; apply Hfail; by left |].
  unfold SIZE_MAX, UINT64_MAX, HEAP_CANARY_BYTES. if_case; bool_cases.
  { eexists _, _. split; [done |]. apply Hfail. lia. }
  pose proof (need_spec size ltac:(lia) ltac:(lia)) as Hneed. unfold HEAP_CANARY_BYTES in Hneed.
  destruct (align_up_size (u64 (size + 8)) HEAP_ALIGNMENT) as [n |]; [| eexists _, _; split; [done |]; apply Hfail; by right].
  destruct Hneed as (Hn & Hns & Hn64 & Hn16). destruct (find_block_spec w bs owned n H) as [(l & b & r & -> & Hf & -> & Hb) | [Hno ->]]; cbn [mbind option_bind].
  { rewrite (proj2 (Z.eqb_neq _ _) Hb). destruct (take_post w l b r owned n size H Hf Hn Hn16 ltac:(lia) ltac:(lia)) as (p & w2 & bs2 & -> & H2 & Hp).
    exists p, w2. split; [done |]. exists bs2, owned. split; [done |]. split; [done |]. by right. }
  change (0 =? 0) with true. cbv iota. destruct (grow_heap_spec w bs owned n H ltac:(lia)) as (added & w1 & bs1 & owned1 & -> & H1 & Ho & Hal & K & Hgrown). cbn [mbind option_bind].
  assert ((n + 56 < 2 ^ 64 -> offers w n -> False) -> malloc_post w bs owned size 0 (allocation_failed w1)) as Hfail1.
  { intros Hre. exists bs1, owned1. split; [by apply failed_inv |]. split; [done |]. left. split; [done |]. split; [done |]. split; [done |].
    right. right. exists n. split; [done |]. split; [lia |]. split; [done |]. exact Hre. }
  destruct added; cbn [negb]; [| eexists _, _; split; [done |]; apply Hfail1; intros Hn56 Ho'; by destruct (Hgrown Hn56 Hn Ho')].
  destruct (find_block_spec w1 bs1 owned1 n H1) as [(l & b & r & E1 & Hf & -> & Hb) | [Hno1 ->]]; cbn [mbind option_bind].
  - rewrite (proj2 (Z.eqb_neq _ _) Hb). subst bs1. destruct (take_post w1 l b r owned1 n size H1 Hf Hn Hn16 ltac:(lia) ltac:(lia)) as (p & w2 & bs2 & -> & H2 & Hp & T).
    exists p, w2. split; [done |]. exists bs2, owned1. split; [done |]. split; [done |]. right. split; [done |].
    destruct T as (nb & ? & ? & ? & Hal2 & K2 & ?). exists nb. rewrite Hal in Hal2. do 4 (split; [done |]). split; [| done].
    eapply keeps_trans; [done |]. by eapply keeps_allocated; [symmetry |].
  - change (0 =? 0) with true. cbv iota. eexists _, _. split; [done |]. apply Hfail1. intros Hn56 Ho'. destruct (Hgrown Hn56 Hn Ho') as [_ Hex].
    apply Exists_exists in Hex as (x & Hx & ?). rewrite Forall_forall in Hno1. by apply (Hno1 x).
Qed.

(** ** kfree *)

Definition freed (b : blk) : blk := mk_blk (addr b) (cap b) 0 true.

(** The pointer of a block leads back to its header. *)
Lemma pointer_block w l b r owned :
  heap_inv w (l ++ b :: r) owned -> data b <> 0 /\ Z.land (data b) (HEAP_ALIGNMENT - 1) = 0 /\ u64 (data b - sizeof_block) = addr b /\ payload (addr b) = data b.
Proof.
  intros H. pose proof (linked_middle _ _ _ _ _ (inv_linked _ _ _ H)) as (_ & _ & _ & _ & ? & Hst & ? & _ & Ha & _).
  unfold payload, data, stop, sizeof_block, TOP in *. split; [lia |]. split.
  - change (HEAP_ALIGNMENT - 1) with (2 ^ 4 - 1). rewrite land_low_mask by lia. change (2 ^ 4) with 16. by rewrite Zplus_mod, Ha.
  - rewrite !u64_small by lia. split; [lia | done].
Qed.

Lemma kfree_not_live (w : kworld G) p :
  initialised (heap w) = true -> p <> 0 -> Z.land p (HEAP_ALIGNMENT - 1) = 0 ->
  magic (mem w) (u64 (p - sizeof_block)) = HEAP_FREE_MAGIC -> is_free (mem w) (u64 (p - sizeof_block)) = 1 ->
  kfree w p = (HEAP_DOUBLE_FREE, w).
Proof. intros Hi Hp Ha Hm Hf. unfold kfree. rewrite Hi, (proj2 (Z.eqb_neq p 0)), Ha, Hm, Hf by done. done. Qed.

(** The memory of a freed block. *)
Lemma free_memory m l b r :
  linked m (l ++ b :: r) TOP ->
  let m1 := fill_bytes m (data b) (cap b) 0xdd in
  let m2 := set_is_free (set_requested (set_magic m1 (addr b) HEAP_FREE_MAGIC) (addr b) 0) (addr b) 1 in
  let '(m3, x) := merge_back m2 (addr b) in
  linked (merge_with_next m3 x) (coalesce l (freed b) r) TOP /\ keeps (l ++ r) m (merge_with_next m3 x) /\
  magic (merge_with_next m3 x) (addr b) = HEAP_FREE_MAGIC /\ is_free (merge_with_next m3 x) (addr b) = 1.
Proof.
  intros H m1 m2. destruct (linked_elem _ _ _ b H) as (Ha & Hst & Hc & _); [in_list |].
  assert (forall lo' hi', hi' <= data b \/ stop b <= lo' -> agree lo' hi' m m1) as A1.
  { intros lo' hi' Ho. unfold m1, fill_bytes. apply fill_agree. unfold data, stop, sizeof_block in *. lia. }
  pose proof (payload_linked _ _ _ _ _ _ H A1) as H1.
  destruct (relabel_linked m1 l b r TOP 0 true H1 ltac:(lia)) as [H2 A2].
  pose proof (coalesce_linked m2 l (freed b) r TOP H2 eq_refl) as H3. change (addr (freed b)) with (addr b) in H3.
  destruct (merge_back m2 (addr b)) as [m3 x]. destruct H3 as (H3 & K3 & _ & ? & ?). split; [done |]. split; [| done].
  assert (keeps (l ++ r) m m2) as K2.
  { eapply block_keeps; [exact H |]. intros lo' hi' Ho. unfold stop, data, sizeof_block in *. eapply agree_trans; [apply A1; lia | apply A2; lia]. }
  apply (keeps_trans _ _ m2); [done |]. intros c Hin Fc. apply K3; [| done]. rewrite !elem_of_app, ?elem_of_cons in *. tauto.
Qed.

(** What [kfree] leaves of the world when it frees [b]. *)
Definition released (w : kworld G) (b : blk) : kworld G :=
  let h := heap w in
  let m := fill_bytes (mem w) (data b) (cap b) 0xdd in
  let m := set_is_free (set_requested (set_magic m (addr b) HEAP_FREE_MAGIC) (addr b) 0) (addr b) 1 in
  let '(m, x) := merge_back m (addr b) in
  mk_kworld (mk_heap (blocks h) (grow_callback h) (total_region_bytes h) (u64 (allocated_payload_bytes h - req b))
    (u64 (active_allocations h - 1)) (total_allocations h) (allocation_failures h) (region_count h) (initialised h)) (merge_with_next m x) (source w).

Lemma kfree_block w l b r owned :
  heap_inv w (l ++ b :: r) owned -> free b = false ->
  kfree w (data b) = if ld 8 (mem w) (data b + req b) =? canary b then (HEAP_OK, released w b) else (HEAP_CORRUPT, w).
Proof.
  intros H Fb. destruct (pointer_block _ _ _ _ _ H) as (H0 & H16 & Eb & Ep). pose proof (linked_middle _ _ _ _ _ (inv_linked _ _ _ H)) as (_ & Hb & _ & _ & ? & Hst & ? & ? & _).
  pose proof (inv_blocks _ _ _ H) as Hok. rewrite Forall_app, Forall_cons in Hok. destruct Hok as (_ & Hbk & _). unfold blk_ok in Hbk. rewrite Fb in Hbk. destruct Hbk as [Hreq Hfit].
  unfold kfree. destruct (inv_ready _ _ _ H) as [Hi _]. rewrite Hi. cbn [negb]. rewrite (proj2 (Z.eqb_neq _ 0)), H16 by done. change (negb (0 =? 0)) with false. cbv iota zeta.
  rewrite Eb, Ep, (hdr_magic _ _ _ _ Hb), (hdr_requested _ _ _ _ Hb), (hdr_capacity _ _ _ _ Hb), (hdr_free _ _ _ _ Hb). unfold blk_magic. rewrite Fb.
  change ((HEAP_ALLOC_MAGIC =? HEAP_FREE_MAGIC) && negb (0 =? 0)) with false. cbv iota. rewrite (proj2 (Z.eqb_neq (req b) 0)) by lia.
  unfold data, stop, TOP, sizeof_block, HEAP_CANARY_BYTES in *. rewrite (u64_small (req b + 8)) by lia. rewrite (proj2 (Z.ltb_ge _ _) Hfit).
  change (negb (HEAP_ALLOC_MAGIC =? HEAP_ALLOC_MAGIC) || negb (0 =? 0) || false || false) with false. cbv iota. rewrite read_u64_ld, u64_small by lia.
  unfold block_canary. rewrite (hdr_requested _ _ _ _ Hb). fold (canary b). destruct (_ =? canary b); [| done]. cbn [negb].
  unfold released, merge_back, data, sizeof_block. rewrite Hi. by destruct (negb _ && _ && _).
Qed.

(** [kfree] of a live block whose canary is intact. *)
Lemma kfree_live w l b r owned :
  heap_inv w (l ++ b :: r) owned -> free b = false ->
  heap_inv (released w b) (coalesce l (freed b) r) owned /\ keeps (l ++ r) (mem w) (mem (released w b)) /\
  magic (mem (released w b)) (addr b) = HEAP_FREE_MAGIC /\ is_free (mem (released w b)) (addr b) = 1.
Proof.
  intros H Fb. pose proof (free_memory _ _ _ _ (inv_linked _ _ _ H)) as Hm. cbv zeta in Hm. unfold released. destruct (merge_back _ _) as [m3 x].
  destruct Hm as (Hl & K & Hs1 & Hs2). split; [| done].
  destruct (coalesce_same l (freed b) r eq_refl) as (Ea & Ex & Ec). destruct (sum_req_bound _ _ _ (linked_laid _ _ _ (inv_linked _ _ _ H)) (inv_blocks _ _ _ H)) as [Hsum Hlen].
  destruct (inv_fuel _ _ _ H) as [_ Hext]. destruct (laid_extent _ _ _ (linked_laid _ _ _ (inv_linked _ _ _ H))) as [_ Hcount].
  pose proof (inv_blocks _ _ _ H) as Hok. rewrite Forall_app, Forall_cons in Hok. destruct Hok as (Hokl & Hokb & Hokr).
  assert (allocated (b :: r) = b :: allocated r) as Eal by (unfold allocated; by rewrite filter_cons_True).
  assert (sum_req (allocated (l ++ b :: r)) = sum_req (allocated l ++ allocated r) + req b) as Es.
  { rewrite allocated_app, Eal, !sum_req_app. cbn. fold (sum_req (allocated r)). lia. }
  assert (zlen (allocated (l ++ b :: r)) = zlen (allocated l ++ allocated r) + 1) as En by (rewrite allocated_app, Eal, !zlen_app, zlen_cons; lia).
  assert (Forall blk_ok (coalesce l (freed b) r)) as Hok' by (apply coalesce_ok; [done | done |]; by apply Forall_app).
  destruct (sum_req_bound _ _ _ (linked_laid _ _ _ Hl) Hok') as [Hsum' _]. rewrite Ea, Ex in Hsum'.
  split; cbn; rewrite ?Ea.
  - done.
  - rewrite (inv_first _ _ _ H). rewrite first_coalesce. by destruct l.
  - destruct (merged_app _ l (b :: r) (inv_merged _ _ _ H) eq_refl) as [M1 M2]. apply coalesce_merged; [done | done |]. by apply (merged_app _ [b] r M2).
  - done.
  - rewrite Ex, (inv_bytes _ _ _ H), !extent_app. done.
  - rewrite (inv_payload _ _ _ H), Es. replace (_ + req b - req b) with (sum_req (allocated l ++ allocated r)) by lia. apply u64_small. unfold blk_ok in Hokb. rewrite Fb in Hokb. lia.
  - rewrite (inv_active _ _ _ H), En. replace (_ + 1 - 1) with (zlen (allocated l ++ allocated r)) by lia. apply u64_small. pose proof (zlen_nonneg (allocated l ++ allocated r)). lia.
  - apply H.
  - intros a Ha%Ec. apply (inv_regions _ _ _ H). revert Ha. unfold covered. rewrite !Exists_app, !Exists_cons. done.
  - apply H.
Qed.

End Spec.
