(* ===== verification/HeapSafe.v ===== *)
(** * The kernel heap against an abstract allocator (kernel/src/heap.c)

    Clients of the heap see a finite map from the pointers they hold to the
    bytes they own there.  The theorems follow that map through arbitrary
    histories of [kmalloc], [kzalloc], [kfree] and writes of the clients. *)

From stdpp Require Import base numbers list gmap.
From Stdlib Require Import ZArith Lia.
From S2P Require Import Prelude Bytes ByteMem Heap HeapList HeapSpec.

#[local] Open Scope Z_scope.

(** ** What clients see *)

Definition bytes_at (m : bytemem) (p n : Z) : list Z := (fun i => peek m (p + Z.of_nat i)) <$> seq 0 (Z.to_nat n).
Definition contents (m : bytemem) (b : blk) : Z * list Z := (data b, bytes_at m (data b) (req b)).
Definition heap_view (m : bytemem) (bs : list blk) : gmap Z (list Z) := list_to_map (contents m <$> allocated bs).

(** The canaries of the allocated blocks are in place. *)
Definition intact (m : bytemem) (bs : list blk) : Prop :=
  forall b, b ∈ bs -> free b = false -> ld 8 m (data b + req b) = canary b.

Lemma bytes_at_length m p n : length (bytes_at m p n) = Z.to_nat n.
Proof. unfold bytes_at. by rewrite length_fmap, length_seq. Qed.

Lemma bytes_at_lookup m p n i : bytes_at m p n !! i = if decide (i < Z.to_nat n)%nat then Some (peek m (p + Z.of_nat i)) else None.
Proof.
  unfold bytes_at. rewrite list_lookup_fmap. case_decide; [by rewrite lookup_seq_lt | by rewrite lookup_seq_ge by lia].
Qed.

Lemma bytes_at_agree m m' p n : agree p (p + n) m m' -> bytes_at m' p n = bytes_at m p n.
Proof.
  intros A. apply list_eq. intros i. rewrite !bytes_at_lookup. case_decide; [| done]. f_equal. apply A. lia.
Qed.

Lemma bytes_at_replicate m p n v : (forall i, 0 <= i < n -> peek m (p + i) = v) -> bytes_at m p n = replicate (Z.to_nat n) v.
Proof.
  intros H. apply list_eq. intros i. rewrite bytes_at_lookup. case_decide; [rewrite lookup_replicate_2 by done; f_equal; apply H; lia |].
  symmetry. apply lookup_replicate_None. lia.
Qed.

Lemma bytes_at_poke m p n i x : (i < Z.to_nat n)%nat -> bytes_at (poke m (p + Z.of_nat i) x) p n = <[i := u8 x]> (bytes_at m p n).
Proof.
  intros Hi. apply list_eq. intros j. rewrite bytes_at_lookup. destruct (decide (j = i)) as [-> | Hne].
  - rewrite decide_True by done. rewrite list_lookup_insert_eq by (by rewrite bytes_at_length). by rewrite peek_poke, Z.eqb_refl.
  - rewrite list_lookup_insert_ne by done. rewrite bytes_at_lookup. case_decide; [| done]. rewrite peek_poke. by rewrite (proj2 (Z.eqb_neq _ _)) by lia.
Qed.

(** ** The view *)

Lemma laid_keys m lo bs hi : laid lo bs hi -> NoDup (contents m <$> allocated bs).*1.
Proof.
  rewrite <- list_fmap_compose. revert lo. induction bs as [| b bs IH]; intros lo; [constructor |]. intros (? & ? & ? & ? & ? & L).
  unfold allocated. rewrite filter_cons. case_decide; [| by eapply IH]. cbn. constructor; [| by eapply IH].
  intros (c & Ec & Hc)%list_elem_of_fmap. apply elem_of_allocated in Hc as [Hc _]. destruct (laid_elem _ _ _ c L Hc) as (? & _).
  cbn in Ec. unfold stop, data, sizeof_block in *. lia.
Qed.

Lemma contents_agree m m' (bs : list blk) : (forall c, c ∈ bs -> agree (data c) (data c + req c) m m') -> contents m' <$> bs = contents m <$> bs.
Proof.
  intros H. apply List.map_ext_in. intros c Hc%list_elem_of_In. unfold contents. f_equal. by apply bytes_at_agree, H.
Qed.

Lemma view_cons m lo bs hi b rest :
  laid lo bs hi -> allocated bs ≡ₚ b :: rest ->
  heap_view m bs = <[data b := bytes_at m (data b) (req b)]> (list_to_map (contents m <$> rest)) /\
  (list_to_map (contents m <$> rest) : gmap Z (list Z)) !! data b = None.
Proof.
  intros L Hp. pose proof (laid_keys m _ _ _ L) as Hnd. unfold heap_view. rewrite (list_to_map_proper _ (contents m <$> (b :: rest)));
    [| done | by rewrite Hp]. split; [done |]. rewrite Hp in Hnd. cbn in Hnd. apply NoDup_cons in Hnd as [Hni _]. by apply not_elem_of_list_to_map_1.
Qed.

Lemma view_lookup m lo bs hi p v :
  laid lo bs hi -> heap_view m bs !! p = Some v <-> exists b, b ∈ bs /\ free b = false /\ data b = p /\ v = bytes_at m p (req b).
Proof.
  intros L. unfold heap_view. rewrite <- elem_of_list_to_map by (by eapply laid_keys). rewrite list_elem_of_fmap. split.
  - intros (b & Eb & Hb%elem_of_allocated). unfold contents in Eb. injection Eb as -> ->. exists b. tauto.
  - intros (b & Hb & Fb & <- & ->). exists b. split; [done |]. by apply elem_of_allocated.
Qed.

Section Safe.
Context {G : Type} (grow : heap_grow_fn G) `{!HeapGrowth grow}.

(** The heap implements the clients' map. *)
Definition heap_refines (w : kworld G) (live : gmap Z (list Z)) : Prop :=
  exists bs owned, heap_inv grow w bs owned /\ intact (mem w) bs /\ live = heap_view (mem w) bs.

Lemma inv_laid w bs owned : heap_inv grow w bs owned -> laid 1 bs TOP.
Proof. intros H. apply (inv_linked _ _ _ _ H). Qed.

(** An allocated block has room for its bytes and its canary. *)
Lemma inv_room w bs owned b : heap_inv grow w bs owned -> b ∈ bs -> free b = false ->
  0 < req b /\ data b + req b + 8 <= stop b /\ 48 < data b /\ stop b < 2 ^ 64 /\ data b mod 16 = 0.
Proof.
  intros H Hb Fb. pose proof (inv_blocks _ _ _ _ H) as Hok. rewrite Forall_forall in Hok. specialize (Hok b Hb). unfold blk_ok in Hok. rewrite Fb in Hok.
  destruct (laid_elem _ _ _ b (inv_laid _ _ _ H) Hb) as (? & ? & ? & ? & Ha & _). unfold data, stop, TOP, sizeof_block, HEAP_CANARY_BYTES in *.
  split; [lia |]. split; [lia |]. split; [lia |]. split; [lia |]. by rewrite Zplus_mod, Ha.
Qed.

(** Blocks whose data was kept. *)
Lemma kept_blocks w bs owned cs m' :
  heap_inv grow w bs owned -> intact (mem w) bs -> keeps cs (mem w) m' -> (forall c, c ∈ cs -> c ∈ bs /\ free c = false) ->
  contents m' <$> cs = contents (mem w) <$> cs /\ forall c, c ∈ cs -> ld 8 m' (data c + req c) = canary c.
Proof.
  intros H Hi K Hsub. split.
  - apply contents_agree. intros c Hc. destruct (Hsub c Hc) as [Hcb Fc]. destruct (inv_room _ _ _ _ H Hcb Fc) as (? & ? & _). eapply agree_sub; [by apply K | lia | lia].
  - intros c Hc. destruct (Hsub c Hc) as [Hcb Fc]. rewrite <- (Hi c Hcb Fc). destruct (inv_room _ _ _ _ H Hcb Fc) as (? & ? & _).
    apply ld_agree. eapply agree_sub; [by apply K | lia | lia].
Qed.

Lemma keeps_sub bs cs m m' : keeps bs m m' -> (forall c, c ∈ cs -> c ∈ bs) -> keeps cs m m'.
Proof. intros K Hsub c Hc Fc. by apply K; [apply Hsub |]. Qed.

(** The allocated blocks of [bs'] are [nb] and those of [bs]. *)
Lemma refines_taken w w' bs bs' owned owned' p size :
  heap_inv grow w bs owned -> intact (mem w) bs -> heap_inv grow w' bs' owned' -> taken (mem w) (mem w') bs bs' p size ->
  heap_view (mem w') bs' = <[p := replicate (Z.to_nat size) 0xcd]> (heap_view (mem w) bs) /\ heap_view (mem w) bs !! p = None /\ intact (mem w') bs'.
Proof.
  intros H Hi H' (nb & <- & <- & Fn & Hal & K & Hcan & Hbytes).
  destruct (kept_blocks w bs owned (allocated bs) (mem w') H Hi) as [Ec Hk].
  { eapply keeps_sub; [done |]. by intros c [? _]%elem_of_allocated. }
  { by intros c ?%elem_of_allocated. }
  destruct (view_cons (mem w') _ _ _ nb _ (inv_laid _ _ _ H') Hal) as [Ev Hn]. rewrite Ec in Ev, Hn. rewrite Ev, (bytes_at_replicate _ _ _ 0xcd) by done.
  split; [done |]. split; [done |]. intros c Hc Fc. assert (c ∈ allocated bs') as Hin by (by apply elem_of_allocated).
  rewrite Hal, elem_of_cons in Hin. destruct Hin as [-> | Hin]; [done | by apply Hk].
Qed.

Lemma refines_same w (w' : kworld G) bs bs' owned :
  heap_inv grow w bs owned -> intact (mem w) bs -> allocated bs' = allocated bs -> keeps bs (mem w) (mem w') ->
  heap_view (mem w') bs' = heap_view (mem w) bs /\ intact (mem w') bs'.
Proof.
  intros H Hi Hal K. destruct (kept_blocks w bs owned (allocated bs) (mem w') H Hi) as [Ec Hk].
  { eapply keeps_sub; [done |]. by intros c [? _]%elem_of_allocated. }
  { by intros c ?%elem_of_allocated. }
  unfold heap_view. rewrite Hal, Ec. split; [done |]. intros c Hc Fc. apply Hk. rewrite <- Hal. by apply elem_of_allocated.
Qed.

Lemma kmalloc_refines w live size :
  heap_refines w live -> 0 <= size < 2 ^ 64 ->
  exists p w', kmalloc w size = Some (p, w') /\
    (p = 0 /\ heap_refines w' live \/ p <> 0 /\ 0 < size /\ live !! p = None /\ heap_refines w' (<[p := replicate (Z.to_nat size) 0xcd]> live)).
Proof.
  intros (bs & owned & H & Hi & ->) Hs. destruct (kmalloc_spec grow w bs owned size H Hs) as (p & w' & E & bs' & owned' & H' & _ & [(-> & Hal & K & _) | [Hp T]]).
  - exists 0, w'. split; [done |]. left. split; [done |]. exists bs', owned'. destruct (refines_same w w' bs bs' owned H Hi Hal K) as [<- ?]. done.
  - exists p, w'. split; [done |]. right. split; [done |]. destruct (refines_taken _ _ _ _ _ _ _ _ H Hi H' T) as (<- & ? & ?). split; [| split; [done |]].
    + destruct T as (nb & _ & <- & Fn & Hal & _). apply (inv_room _ _ _ nb H'); [| done]. apply elem_of_allocated. rewrite Hal. left.
    + by exists bs', owned'.
Qed.

Lemma allocated_middle l b r : free b = false -> allocated (l ++ b :: r) ≡ₚ b :: (allocated l ++ allocated r).
Proof. intros Fb. rewrite allocated_app. unfold allocated at 2. rewrite filter_cons_True by done. by rewrite Permutation_middle. Qed.

(** A client writes inside its own bytes. *)
Lemma write_refines w live p v m' :
  heap_refines w live -> live !! p = Some v -> (forall lo hi, hi <= p \/ p + zlen v <= lo -> agree lo hi (mem w) m') ->
  heap_refines (set_mem w m') (<[p := bytes_at m' p (zlen v)]> live).
Proof.
  intros (bs & owned & H & Hi & ->) Hlk A. apply (view_lookup _ _ _ _ _ _ (inv_laid _ _ _ H)) in Hlk as (b & Hb & Fb & <- & ->).
  destruct (inv_room _ _ _ b H Hb Fb) as (Hr & Hroom & _). assert (zlen (bytes_at (mem w) (data b) (req b)) = req b) as El by (unfold zlen; rewrite bytes_at_length; lia).
  rewrite El in *. apply list_elem_of_split in Hb as (l & r & ->).
  assert (heap_inv grow (set_mem w m') (l ++ b :: r) owned) as H'.
  { destruct H. split; try done. cbn. eapply payload_linked; [done |]. intros lo' hi' Ho. apply A. lia. }
  pose proof (allocated_middle l b r Fb) as Hal.
  destruct (view_cons (mem w) _ _ _ b _ (inv_laid _ _ _ H) Hal) as [Ev _]. destruct (view_cons m' _ _ _ b _ (inv_laid _ _ _ H) Hal) as [Ev' _].
  destruct (kept_blocks w _ _ (allocated l ++ allocated r) m' H Hi) as [Ec Hk].
  { intros c Hc Fc. eapply (block_keeps (mem w) m' l b r); [apply H | | | done].
    - intros lo' hi' Ho. apply A. unfold data, sizeof_block in *. lia.
    - rewrite elem_of_app, !elem_of_allocated in Hc. apply elem_of_app. tauto. }
  { intros c Hc. rewrite elem_of_app, !elem_of_allocated in Hc. rewrite elem_of_app, elem_of_cons. tauto. }
  exists (l ++ b :: r), owned. split; [done |]. split.
  - intros c Hc Fc. cbn [mem set_mem]. assert (c ∈ allocated (l ++ b :: r)) as Hin by (by apply elem_of_allocated).
    rewrite Hal, elem_of_cons in Hin. destruct Hin as [-> | Hin]; [| by apply Hk]. rewrite <- (Hi b Hc Fc). apply ld_agree, A. lia.
  - cbn [mem set_mem]. by rewrite Ev', Ev, Ec, insert_insert_eq.
Qed.

Lemma kzalloc_refines w live size :
  heap_refines w live -> 0 <= size < 2 ^ 64 ->
  exists p w', kzalloc w size = Some (p, w') /\
    (p = 0 /\ heap_refines w' live \/ p <> 0 /\ 0 < size /\ live !! p = None /\ heap_refines w' (<[p := replicate (Z.to_nat size) 0]> live)).
Proof.
  intros H Hs. unfold kzalloc. destruct (kmalloc_refines w live size H Hs) as (p & w' & -> & [(-> & H') | (Hp & Hs0 & Hn & H')]); cbn [mbind option_bind].
  - exists 0, w'. split; [done |]. by left.
  - rewrite (proj2 (Z.eqb_neq p 0) Hp). eexists p, _. split; [done |]. right. do 3 (split; [done |]).
    assert (zlen (replicate (Z.to_nat size) 0xcd) = size) as El by (unfold zlen; rewrite length_replicate; lia).
    pose proof (write_refines w' _ p _ (fill_bytes (mem w') p size 0) H' (lookup_insert_eq _ _ _)) as Hw. rewrite El in Hw.
    rewrite (bytes_at_replicate _ _ _ 0), insert_insert_eq in Hw; [apply Hw | intros i Hi; unfold fill_bytes; rewrite fill_in by lia; done].
    intros lo hi Ho. apply fill_agree. lia.
Qed.

(** [kfree] of what a client holds. *)
Lemma kfree_refines w live p v :
  heap_refines w live -> live !! p = Some v ->
  exists w', kfree w p = (HEAP_OK, w') /\ heap_refines w' (delete p live) /\ kfree w' p = (HEAP_DOUBLE_FREE, w').
Proof.
  intros (bs & owned & H & Hi & ->) Hlk. apply (view_lookup _ _ _ _ _ _ (inv_laid _ _ _ H)) in Hlk as (b & Hb & Fb & <- & ->).
  pose proof (Hi b Hb Fb) as Hcan. apply list_elem_of_split in Hb as (l & r & ->). exists (released w b).
  split; [by rewrite (kfree_block grow w l b r owned H Fb), Hcan, Z.eqb_refl |].
  destruct (kfree_live grow w l b r owned H Fb) as (H' & K & Hm & Hf). split.
  - exists (coalesce l (freed b) r), owned. split; [done |].
    pose proof (allocated_middle l b r Fb) as Hal.
    destruct (coalesce_same l (freed b) r eq_refl) as (Ea & _ & _).
    destruct (kept_blocks w _ _ (allocated l ++ allocated r) (mem (released w b)) H Hi) as [Ec Hk].
    { rewrite <- allocated_app. eapply keeps_sub; [done |]. by intros c [? _]%elem_of_allocated. }
    { intros c Hc. rewrite elem_of_app, !elem_of_allocated in Hc. rewrite elem_of_app, elem_of_cons. tauto. }
    split; [intros c Hc Fc; apply Hk; rewrite <- Ea; by apply elem_of_allocated |].
    destruct (view_cons (mem w) _ _ _ b _ (inv_laid _ _ _ H) Hal) as [Ev Hn]. rewrite Ev, delete_insert_id by done. unfold heap_view. by rewrite Ea, Ec.
  - destruct (pointer_block grow _ _ _ _ _ H) as (H0 & H16 & Eb & _). apply kfree_not_live; rewrite ?Eb; try done. apply (inv_ready _ _ _ _ H').
Qed.

(** ** Rejected frees *)

Lemma kfree_rejected (w : kworld G) p s w' : kfree w p = (s, w') -> s <> HEAP_OK -> w' = w.
Proof.
  unfold kfree. cbv zeta. intros E Hs. repeat (case_match; [congruence |]). case_match; congruence.
Qed.

Lemma refines_ready w live : heap_refines w live -> initialised (heap w) = true.
Proof. intros (bs & owned & H & _). apply (inv_ready _ _ _ _ H). Qed.

Lemma kfree_misaligned w live p : heap_refines w live -> 0 <= p -> p mod 16 <> 0 -> kfree w p = (HEAP_INVALID_POINTER, w).
Proof.
  intros H Hp Hm. unfold kfree. rewrite (refines_ready _ _ H). cbn [negb]. rewrite (proj2 (Z.eqb_neq p 0)) by (intros ->; by apply Hm).
  change (HEAP_ALIGNMENT - 1) with (2 ^ 4 - 1). rewrite land_low_mask by lia. change (2 ^ 4) with 16. by rewrite (proj2 (Z.eqb_neq _ 0) Hm).
Qed.

(** A client that wrote past its bytes into the canary is found out. *)
Lemma kfree_overrun w live p v m' :
  heap_refines w live -> live !! p = Some v -> (forall lo hi, hi <= p \/ p + zlen v + 8 <= lo -> agree lo hi (mem w) m') ->
  ld 8 m' (p + zlen v) <> ld 8 (mem w) (p + zlen v) -> kfree (set_mem w m') p = (HEAP_CORRUPT, set_mem w m').
Proof.
  intros (bs & owned & H & Hi & ->) Hlk A Hne. apply (view_lookup _ _ _ _ _ _ (inv_laid _ _ _ H)) in Hlk as (b & Hb & Fb & <- & ->).
  destruct (inv_room _ _ _ b H Hb Fb) as (Hr & Hroom & _). assert (zlen (bytes_at (mem w) (data b) (req b)) = req b) as El by (unfold zlen; rewrite bytes_at_length; lia).
  rewrite El in *. pose proof (Hi b Hb Fb) as Hcan. apply list_elem_of_split in Hb as (l & r & ->).
  assert (heap_inv grow (set_mem w m') (l ++ b :: r) owned) as H'.
  { destruct H. split; try done. cbn. eapply payload_linked; [done |]. intros lo' hi' Ho. apply A. lia. }
  rewrite (kfree_block grow _ l b r owned H' Fb). cbn [mem set_mem]. by rewrite (proj2 (Z.eqb_neq _ _)) by congruence.
Qed.

(** ** Statistics *)

Definition free_payload (bs : list blk) : Z := foldr (fun b n => (if free b then cap b else 0) + n) 0 bs.

Lemma stats_loop_spec fuel m p bs hi lo acc :
  dll m p bs 0 -> laid lo bs hi -> 1 <= lo -> (length bs < fuel)%nat -> 0 <= acc -> acc + (hi - lo) < 2 ^ 64 ->
  stats_loop fuel m (first 0 bs) acc = Some (acc + free_payload bs).
Proof.
  revert p bs lo acc. induction fuel as [| fuel IH]; intros p bs lo acc; [lia |]. destruct bs as [| b bs]; [cbn; intros; f_equal; lia |].
  intros [Hb D] (? & ? & ? & ? & ? & L) Hlo Hlen Hacc Hsum. cbn [first stats_loop length] in *. rewrite (proj2 (Z.eqb_neq (addr b) 0)) by lia.
  rewrite (hdr_free _ _ _ _ Hb), (hdr_capacity _ _ _ _ Hb), (hdr_next _ _ _ _ Hb). pose proof (laid_bounds _ _ _ L). unfold stop, sizeof_block in *.
  cbn [free_payload foldr]. fold (free_payload bs). destruct (free b); cbn -[stats_loop].
  - rewrite u64_small by lia. rewrite (IH (addr b) bs (addr b + 48 + cap b)); try done; [f_equal |..]; lia.
  - rewrite (IH (addr b) bs (addr b + 48 + cap b)); try done; [f_equal |..]; lia.
Qed.

Definition sum_lengths (live : gmap Z (list Z)) : Z := foldr (fun e n => zlen (snd e) + n) 0 (map_to_list live).

Lemma foldr_perm_sum (l l' : list (Z * list Z)) :
  l ≡ₚ l' -> foldr (fun e n => zlen (snd e) + n) 0 l = foldr (fun e n => zlen (snd e) + n) 0 l'.
Proof. induction 1 as [| e l l' _ IH | e f l | l l' l'' _ IH1 _ IH2]; cbn; [done | by rewrite IH | lia | by rewrite IH1]. Qed.

Lemma heap_stats_refines w live :
  heap_refines w live -> exists st, heap_stats w = Some st /\ st_active_allocations st = Z.of_nat (size live) /\ st_allocated_payload_bytes st = sum_lengths live.
Proof.
  intros (bs & owned & H & Hi & ->). unfold heap_stats. destruct (inv_linked _ _ _ _ H) as [D L _]. rewrite (inv_first _ _ _ _ H).
  rewrite (stats_loop_spec _ _ 0 bs TOP 1); [| done | done | lia | by apply (inv_fuel _ _ _ _ H) | lia | unfold TOP; lia]. cbn [mbind option_bind].
  eexists. split; [done |]. cbn [st_active_allocations st_allocated_payload_bytes]. pose proof (laid_keys (mem w) _ _ _ L) as Hnd. split.
  - rewrite (inv_active _ _ _ _ H). unfold heap_view, zlen. by rewrite map_size_list_to_map, length_fmap.
  - rewrite (inv_payload _ _ _ _ H). unfold sum_lengths, heap_view. rewrite (foldr_perm_sum _ (contents (mem w) <$> allocated bs)) by (by apply map_to_list_to_map).
    assert (Forall (fun b => 0 <= req b) (allocated bs)) as Hr.
    { apply Forall_forall. intros c [Hc _]%elem_of_allocated. by apply (laid_elem _ _ _ c L Hc). }
    clear - Hr. induction Hr as [| b cs Hb _ IH]; [done |]. cbn. rewrite <- IH. unfold zlen at 1. rewrite bytes_at_length. fold (sum_req cs). lia.
Qed.

(** ** Histories *)

(** One step of the kernel: a call of the heap, or a client writing one of its
    own bytes.  Frees may be of any pointer; those that are not rejected are of
    pointers a client holds. *)
Inductive heap_step : kworld G * gmap Z (list Z) -> kworld G * gmap Z (list Z) -> Prop :=
| step_kmalloc w live size p w' :
    0 <= size < 2 ^ 64 -> kmalloc w size = Some (p, w') ->
    heap_step (w, live) (w', if p =? 0 then live else <[p := replicate (Z.to_nat size) 0xcd]> live)
| step_kzalloc w live size p w' :
    0 <= size < 2 ^ 64 -> kzalloc w size = Some (p, w') ->
    heap_step (w, live) (w', if p =? 0 then live else <[p := replicate (Z.to_nat size) 0]> live)
| step_kfree w live p v s w' : live !! p = Some v -> kfree w p = (s, w') -> heap_step (w, live) (w', delete p live)
| step_kfree_rejected w live p s w' : kfree w p = (s, w') -> s <> HEAP_OK -> heap_step (w, live) (w', live)
| step_write w live p v i x :
    live !! p = Some v -> (i < length v)%nat -> heap_step (w, live) (set_mem w (poke (mem w) (p + Z.of_nat i) x), <[p := <[i := u8 x]> v]> live).

Lemma view_bytes w live p v : heap_refines w live -> live !! p = Some v -> v = bytes_at (mem w) p (zlen v).
Proof.
  intros (bs & owned & H & Hi & ->) (b & Hb & Fb & <- & ->)%(view_lookup _ _ _ _ _ _ (inv_laid _ _ _ H)).
  destruct (inv_room _ _ _ b H Hb Fb) as (Hr & _). f_equal. unfold zlen. rewrite bytes_at_length. lia.
Qed.

Lemma heap_step_refines w live w' live' : heap_refines w live -> heap_step (w, live) (w', live') -> heap_refines w' live'.
Proof.
  intros H Hst. inversion Hst as [? ? n p ? Hn E | ? ? n p ? Hn E | ? ? p v s ? Hp E | ? ? p s ? E Hs | ? ? p v i x Hp Hi]; subst.
  - destruct (kmalloc_refines w live n H Hn) as (p' & w1 & E1 & Hr). rewrite E1 in E. injection E as -> ->.
    destruct Hr as [(-> & ?) | (Hne & _ & _ & ?)]; [done | by rewrite (proj2 (Z.eqb_neq _ _) Hne)].
  - destruct (kzalloc_refines w live n H Hn) as (p' & w1 & E1 & Hr). rewrite E1 in E. injection E as -> ->.
    destruct Hr as [(-> & ?) | (Hne & _ & _ & ?)]; [done | by rewrite (proj2 (Z.eqb_neq _ _) Hne)].
  - destruct (kfree_refines w live p v H Hp) as (w1 & E1 & Hr & _). rewrite E1 in E. by injection E as <- <-.
  - by rewrite (kfree_rejected _ _ _ _ E Hs).
  - pose proof (view_bytes _ _ _ _ H Hp) as Hv. pose proof (write_refines w live p v (poke (mem w) (p + Z.of_nat i) x) H Hp) as Hw.
    rewrite bytes_at_poke, <- Hv in Hw by (unfold zlen; lia). apply Hw. intros lo hi Ho a Ha. rewrite peek_poke. unfold zlen in Ho. by rewrite (proj2 (Z.eqb_neq _ _)) by lia.
Qed.

Lemma heap_init_refines (w0 w : kworld G) : grow_ok (source w0) [] -> heap_init (Some grow) w0 = (HEAP_OK, w) -> heap_refines w ∅.
Proof.
  intros Hg [= <-]. exists [], []. split; [| split; [by intros b ?%elem_of_nil | done]].
  split; try done. intros a Ha. by apply Exists_nil in Ha.
Qed.

Lemma history_refines w0 w1 w live :
  grow_ok (source w0) [] -> heap_init (Some grow) w0 = (HEAP_OK, w1) -> steps heap_step (w1, ∅) (w, live) -> heap_refines w live.
Proof.
  intros Hg Hi Hs. apply (steps_invariant heap_step (fun s => heap_refines (fst s) (snd s)) (w1, ∅) (w, live)); [by eapply heap_init_refines | | done].
  intros [a la] [b lb] Ha Hab. by eapply heap_step_refines.
Qed.

(** The bytes clients hold lie in regions of the source. *)
Lemma refines_regions w live :
  heap_refines w live -> exists owned, grow_ok (source w) owned /\ forall p v a, live !! p = Some v -> p <= a < p + zlen v -> in_regions owned a.
Proof.
  intros (bs & owned & H & _ & ->). exists owned. split; [apply H |]. intros p v a Hlk Ha. apply (view_lookup _ _ _ _ _ _ (inv_laid _ _ _ H)) in Hlk as (b & Hb & Fb & <- & ->).
  destruct (inv_room _ _ _ b H Hb Fb) as (? & ? & _). unfold zlen in Ha. rewrite bytes_at_length in Ha. apply (inv_regions _ _ _ _ H).
  apply Exists_exists. exists b. split; [done |]. unfold data, sizeof_block in *. lia.
Qed.

(** The pointers in a heap are aligned and hold their bytes; two of them are
    separated by at least the header and the canary of a block. *)
Lemma refines_layout w live :
  heap_refines w live ->
  (forall p v, live !! p = Some v ->
    p mod 16 = 0 /\ 0 < p /\ v <> [] /\ p + zlen v < 2 ^ 64 /\ forall i x, v !! i = Some x -> peek (mem w) (p + Z.of_nat i) = x) /\
  (forall p q v u, p <> q -> live !! p = Some v -> live !! q = Some u -> p + zlen v + 56 <= q \/ q + zlen u + 56 <= p).
Proof.
  intros (bs & owned & H & _ & ->). pose proof (fun p v => proj1 (view_lookup (mem w) _ _ _ p v (inv_laid _ _ _ H))) as Hlk.
  assert (forall b, b ∈ bs -> free b = false -> zlen (bytes_at (mem w) (data b) (req b)) = req b) as Hlen.
  { intros b Hb Fb. destruct (inv_room _ _ _ b H Hb Fb) as (? & _). unfold zlen. rewrite bytes_at_length. lia. }
  split.
  - intros p v (b & Hb & Fb & <- & ->)%Hlk. destruct (inv_room _ _ _ b H Hb Fb) as (? & ? & ? & ? & ?). rewrite Hlen by done.
    split; [done |]. split; [lia |]. split; [intros E; apply (f_equal length) in E; rewrite bytes_at_length in E; cbn in E; lia |]. split; [lia |].
    intros i x. rewrite bytes_at_lookup. case_decide; [by intros [= ->] | done].
  - intros p q v u Hne (b & Hb & Fb & <- & ->)%Hlk (c & Hc & Fc & <- & ->)%Hlk. rewrite !Hlen by done.
    destruct (inv_room _ _ _ b H Hb Fb) as (? & ? & _). destruct (inv_room _ _ _ c H Hc Fc) as (? & ? & _).
    destruct (laid_apart _ _ _ _ _ (inv_laid _ _ _ H) Hb Hc) as [-> | [? | ?]]; [done | |]; unfold data, sizeof_block in *; lia.
Qed.

(** C21. After any history of allocations, frees and client writes: the pointers
    handed out are aligned to 16 bytes, their bytes hold what the clients last
    wrote there, lie in regions the source gave to the heap, and are separated
    by at least the header and the canary of a block. *)
Theorem heap_histories_safe w0 w1 w live :
  grow_ok (source w0) [] -> heap_init (Some grow) w0 = (HEAP_OK, w1) -> steps heap_step (w1, ∅) (w, live) ->
  (forall p v, live !! p = Some v ->
    p mod 16 = 0 /\ 0 < p /\ v <> [] /\ p + zlen v < 2 ^ 64 /\ forall i x, v !! i = Some x -> peek (mem w) (p + Z.of_nat i) = x) /\
  (forall p q v u, p <> q -> live !! p = Some v -> live !! q = Some u -> p + zlen v + 56 <= q \/ q + zlen u + 56 <= p) /\
  exists owned, grow_ok (source w) owned /\ forall p v a, live !! p = Some v -> p <= a < p + zlen v -> in_regions owned a.
Proof.
  intros Hg Hi Hs. pose proof (history_refines _ _ _ _ Hg Hi Hs) as Href. destruct (refines_layout _ _ Href) as [H1 H2]. split; [exact H1 |]. split; [exact H2 |].
  exact (refines_regions _ _ Href).
Qed.

(** [kmalloc] always returns.  It fails only for a size of zero, for a size
    that does not fit in the address space with its canary, or when no free
    block is large enough and the source offers no region; otherwise the new
    block is filled with 0xcd, closed by its canary, and no other allocation
    changes. *)
Theorem kmalloc_correct w bs owned size :
  heap_inv grow w bs owned -> 0 <= size < 2 ^ 64 ->
  exists p w' bs' owned', kmalloc w size = Some (p, w') /\ heap_inv grow w' bs' owned' /\ keeps bs (mem w) (mem w') /\
    (p <> 0 -> taken (mem w) (mem w') bs bs' p size) /\
    (p = 0 -> allocated bs' = allocated bs) /\
    (0 < size -> size + 80 < 2 ^ 64 -> Exists (fits (size + 23)) bs \/ (forall n, size + 8 <= n < size + 24 -> offers grow w n) -> p <> 0).
Proof.
  intros H Hs. destruct (kmalloc_spec grow w bs owned size H Hs) as (p & w' & E & bs' & owned' & H' & _ & Hp). exists p, w', bs', owned'. split; [done |]. split; [done |].
  destruct Hp as [(-> & Hal & K & Hwhy) | [Hp T]].
  - split; [done |]. split; [done |]. split; [done |]. intros Hs0 Hs80 Hcan. destruct Hwhy as [? | [? | (n & Hn & Hns & Hno & Hoff)]]; [lia | lia |].
    destruct Hcan as [(b & Hb & Fb & Hcap)%Exists_exists | Ho]; [| by specialize (Hoff ltac:(lia)); specialize (Ho n Hns)].
    rewrite Forall_forall in Hno. exfalso. apply (Hno b Hb). split; [done | lia].
  - split; [by destruct T as (nb & _ & _ & _ & _ & ? & _) |]. done.
Qed.

(** [kfree] returns what a client holds to the heap and leaves every other
    allocation as it was; a second free of the pointer is reported; a free that
    is rejected changes nothing; misaligned pointers are rejected; and a client
    that overran its bytes is reported. *)
Theorem kfree_correct w live :
  heap_refines w live ->
  (forall p v, live !! p = Some v -> exists w', kfree w p = (HEAP_OK, w') /\ heap_refines w' (delete p live) /\ kfree w' p = (HEAP_DOUBLE_FREE, w')) /\
  (forall p s w', kfree w p = (s, w') -> s <> HEAP_OK -> w' = w) /\
  (forall p, 0 <= p -> p mod 16 <> 0 -> kfree w p = (HEAP_INVALID_POINTER, w)) /\
  (forall p v m', live !! p = Some v -> (forall lo hi, hi <= p \/ p + zlen v + 8 <= lo -> agree lo hi (mem w) m') ->
    ld 8 m' (p + zlen v) <> ld 8 (mem w) (p + zlen v) -> kfree (set_mem w m') p = (HEAP_CORRUPT, set_mem w m')).
Proof.
  intros H. split; [intros p v Hp; by eapply kfree_refines |]. split; [apply kfree_rejected |]. split; [intros p Hp Hm; by eapply kfree_misaligned |].
  intros p v m' Hp A Hne. by eapply kfree_overrun.
Qed.

(** ** The self test *)

Lemma write_each_agree n i m p f lo hi : hi <= p + i \/ p + i + Z.of_nat n <= lo -> agree lo hi m (write_each n i m p f).
Proof.
  revert i m. induction n as [| n IH]; intros i m H; cbn [write_each]; [done |].
  intros a Ha. rewrite IH by lia. rewrite peek_poke. by rewrite (proj2 (Z.eqb_neq _ _)) by lia.
Qed.

Lemma all_zero_bytes n m p : (forall i, 0 <= i < Z.of_nat n -> peek m (p + i) = 0) -> all_zero n m p = true.
Proof.
  revert p. induction n as [| n IH]; intros p H; [done |]. cbn [all_zero]. rewrite <- (Z.add_0_r p), (H 0) by lia. rewrite Z.add_0_r. cbn.
  apply IH. intros i Hi. rewrite <- Z.add_assoc. apply H. lia.
Qed.

Lemma view_zeros w live p n : heap_refines w live -> live !! p = Some (replicate n 0) -> all_zero n (mem w) p = true.
Proof.
  intros H Hp. pose proof (view_bytes _ _ _ _ H Hp) as Hv. apply all_zero_bytes. intros i Hi.
  assert (bytes_at (mem w) p (zlen (replicate n 0)) !! Z.to_nat i = Some 0) as Hl by (rewrite <- Hv; apply lookup_replicate_2; lia).
  rewrite bytes_at_lookup in Hl. case_decide; [| done]. injection Hl as Hl. by replace (Z.of_nat (Z.to_nat i)) with i in Hl by lia.
Qed.

(** Writes of a client over all of its bytes. *)
Lemma write_each_refines w live p v f :
  heap_refines w live -> live !! p = Some v -> exists v', heap_refines (set_mem w (write_each (length v) 0 (mem w) p f)) (<[p := v']> live).
Proof.
  intros H Hp. eexists. apply write_refines with (v := v); [done | done |]. intros lo hi Ho. apply write_each_agree. unfold zlen in Ho. lia.
Qed.

(** The end of the self test: the three allocations are freed. *)
Lemma free_three w live before a b c va vb vc :
  heap_refines w (<[c := vc]> (<[a := va]> (<[b := vb]> live))) -> a <> b -> a <> c -> b <> c -> live !! a = None -> live !! b = None -> live !! c = None ->
  st_active_allocations before = Z.of_nat (size live) -> st_allocated_payload_bytes before = sum_lengths live ->
  exists w1 w2 w3 st, kfree w b = (HEAP_OK, w1) /\ kfree w1 a = (HEAP_OK, w2) /\ kfree w2 c = (HEAP_OK, w3) /\ heap_stats w3 = Some st /\
    (st_active_allocations st =? st_active_allocations before) && (st_allocated_payload_bytes st =? st_allocated_payload_bytes before) = true /\
    heap_refines w3 live.
Proof.
  intros H Hab Hac Hbc Ha Hb Hc Hn Hl.
  destruct (kfree_refines w _ b vb H) as (w1 & E1 & H1 & _). { by rewrite lookup_insert_ne, lookup_insert_ne, lookup_insert_eq. }
  rewrite delete_insert_ne, delete_insert_ne, delete_insert_id in H1 by done.
  destruct (kfree_refines w1 _ a va H1) as (w2 & E2 & H2 & _). { by rewrite lookup_insert_ne, lookup_insert_eq. }
  rewrite delete_insert_ne, delete_insert_id in H2 by done.
  destruct (kfree_refines w2 _ c vc H2) as (w3 & E3 & H3 & _). { by rewrite lookup_insert_eq. }
  rewrite delete_insert_id in H3 by done. destruct (heap_stats_refines w3 live H3) as (st & E4 & En & El).
  exists w1, w2, w3, st. do 4 (split; [done |]). split; [| done]. by rewrite En, El, Hn, Hl, !Z.eqb_refl.
Qed.

(** The self test always returns; it succeeds exactly when its three
    allocations do, and then leaves the clients' allocations as they were. *)
Theorem heap_self_test_correct w live a w1 b w2 c w3 :
  heap_refines w live -> kmalloc w 37 = Some (a, w1) -> kzalloc w1 257 = Some (b, w2) -> kmalloc w2 8193 = Some (c, w3) ->
  exists ok w', heap_self_test w = Some (ok, w') /\ (ok = true <-> a <> 0 /\ b <> 0 /\ c <> 0) /\ (ok = true -> heap_refines w' live).
Proof.
  intros H Ea Eb Ec. destruct (heap_stats_refines w live H) as (before & Est & Hn & Hl). unfold heap_self_test. rewrite Est, Ea. cbn [mbind option_bind]. rewrite Eb. cbn [mbind option_bind]. rewrite Ec. cbn [mbind option_bind].
  destruct ((a =? 0) || (b =? 0) || (c =? 0)) eqn:Ez.
  { eexists false, _. split; [done |]. split; [split; [done |] | done]. intros (?%Z.eqb_neq & ?%Z.eqb_neq & ?%Z.eqb_neq). exfalso. rewrite !orb_true_iff in Ez. intuition congruence. }
  rewrite !orb_false_iff, !Z.eqb_neq in Ez. destruct Ez as [[Ha Hb] Hc].
  destruct (kmalloc_refines w live 37 H ltac:(lia)) as (? & ? & E & Hr); rewrite Ea in E; injection E as <- <-; destruct Hr as [[? _] | (_ & _ & Na & H1)]; [done |].
  destruct (kzalloc_refines w1 _ 257 H1 ltac:(lia)) as (? & ? & E & Hr); rewrite Eb in E; injection E as <- <-; destruct Hr as [[? _] | (_ & _ & Nb & H2)]; [done |].
  destruct (kmalloc_refines w2 _ 8193 H2 ltac:(lia)) as (? & ? & E & Hr); rewrite Ec in E; injection E as <- <-; destruct Hr as [[? _] | (_ & _ & Nc & H3)]; [done |].
  set (va := replicate (Z.to_nat 37) 205) in *. set (vc := replicate (Z.to_nat 8193) 205) in *. set (vb := replicate (Z.to_nat 257) 0) in *.
  rewrite lookup_insert_None in Nb. destruct Nb as [Nb Hab]. rewrite !lookup_insert_None in Nc. destruct Nc as [[Nc Hac] Hbc].
  destruct (write_each_refines w3 _ a va (fun i => Z.lxor i 0x5a) H3) as (va' & H4).
  { rewrite lookup_insert_ne, lookup_insert_ne, lookup_insert_eq by done. done. }
  change (length va) with (Z.to_nat 37) in H4. set (w4 := set_mem w3 _) in *.
  rewrite (view_zeros w4 _ b (Z.to_nat 257) H4) by (rewrite lookup_insert_ne, lookup_insert_ne, lookup_insert_eq by done; done). cbn [negb].
  destruct (write_each_refines w4 _ c vc (fun i => Z.land i 0xff) H4) as (vc' & H5).
  { rewrite lookup_insert_ne, lookup_insert_eq by done. done. }
  unfold vc in H5. rewrite length_replicate in H5. set (w5 := set_mem w4 _) in *.
  rewrite (insert_insert_ne _ a c), insert_insert_eq, (insert_insert_ne _ a b), insert_insert_eq in H5 by done.
  rewrite (insert_insert_ne _ b a) in H5 by done.
  destruct (free_three w5 live before a b c va' vb vc' H5) as (w6 & w7 & w8 & st & E6 & E7 & E8 & E9 & Eq & H8); try done.
  rewrite E6. cbn iota beta. rewrite E7. cbn iota beta. rewrite E8. cbn iota beta. rewrite E9. cbn [mbind option_bind]. rewrite Eq.
  exists true, w8. split; [done |]. split; [by split | done].
Qed.

End Safe.

(** ** A concrete source

    Regions are cut, in multiples of 64 KiB, from the addresses up to 1 GiB. *)

Definition bump (n : Z) (g : Z) : option (Z * Z) * Z :=
  let k := (n + 65535) / 65536 * 65536 in if g + k <=? 2 ^ 30 then (Some (g, k), g + k) else (None, g).

#[export] Instance bump_growth : HeapGrowth bump.
Proof.
  refine {| grow_ok := fun g owned => 0 < g /\ forall q j, (q, j) ∈ owned -> 0 <= j /\ q + j <= g |}.
  intros g owned n r g' [Hg Ho] Hn. unfold bump. assert (0 <= (n + 65535) / 65536 * 65536) as Hk by (apply Z.mul_nonneg_nonneg; [apply Z.div_pos |]; lia).
  set (k := (n + 65535) / 65536 * 65536) in *. destruct (Z.leb_spec (g + k) (2 ^ 30)); intros [= <- <-]; [| done].
  split; [split; [lia |]; intros q j [[= -> ->] | Hq]%elem_of_cons; [lia | specialize (Ho q j Hq); lia] |].
  do 3 (split; [lia |]). intros q j Hq. specialize (Ho q j Hq). lia.
Defined.

Definition example_start : kworld Z := mk_kworld (mk_heap 0 None 0 0 0 0 0 0 false) (∅ : gmap Z Z) 65536.
Definition example_heap : kworld Z := snd (heap_init (Some bump) example_start).

Lemma example_source : grow_ok (source example_start) [].
Proof. split; [done |]. by intros q j ?%elem_of_nil. Qed.

Lemma example_refines : heap_refines bump example_heap ∅.
Proof. exact (heap_init_refines bump example_start _ example_source eq_refl). Qed.

(** Two allocations and a write; the byte written is read back. *)
Lemma heap_histories_safe_witness :
  exists w1 w2, kmalloc example_heap 37 = Some (65584, w1) /\ kzalloc w1 100 = Some (65680, w2) /\
    peek (mem (set_mem w2 (poke (mem w2) (65584 + 3) 7))) 65587 = 7 /\ 65584 + 37 + 56 <= 65680.
Proof.
  assert (fst <$> kmalloc example_heap 37 = Some 65584) as P1 by (vm_compute; reflexivity).
  assert (fst <$> ('(_, w) ← kmalloc example_heap 37; kzalloc w 100) = Some 65680) as P2 by (vm_compute; reflexivity).
  destruct (kmalloc example_heap 37) as [[p w1] |] eqn:E1; [| discriminate]. injection P1 as ->. cbn [mbind option_bind] in P2.
  destruct (kzalloc w1 100) as [[q w2] |] eqn:E2; [| discriminate]. injection P2 as ->. exists w1, w2. split; [done |]. split; [exact E2 |].
  destruct (heap_histories_safe bump example_start example_heap (set_mem w2 (poke (mem w2) (65584 + 3) 7))
    (<[65584 := <[3%nat := u8 7]> (replicate (Z.to_nat 37) 0xcd)]> (<[65680 := replicate (Z.to_nat 100) 0]> (<[65584 := replicate (Z.to_nat 37) 0xcd]> ∅)))
    example_source eq_refl) as (H1 & H2 & _).
  - eapply steps_snoc; [eapply steps_snoc; [eapply steps_one; exact (step_kmalloc _ _ 37 _ _ ltac:(lia) E1) | exact (step_kzalloc _ _ 100 _ _ ltac:(lia) E2)] |].
    apply (step_write w2 _ 65584 (replicate (Z.to_nat 37) 0xcd) 3 7); [reflexivity | rewrite length_replicate; lia].
  - split; [exact (proj2 (proj2 (proj2 (proj2 (H1 65584 _ (lookup_insert_eq _ _ _))))) 3%nat 7 eq_refl) |].
    destruct (H2 65584 65680 _ _ ltac:(lia) (lookup_insert_eq _ _ _) eq_refl) as [H | H]; cbn in H; lia.
Defined.

Lemma example_inv : heap_inv bump example_heap [] [].
Proof. split; try done; [intros a Ha; by apply Exists_nil in Ha | exact example_source]. Qed.

Lemma kmalloc_correct_witness : exists p w', kmalloc example_heap 37 = Some (p, w') /\ p <> 0.
Proof.
  destruct (kmalloc_correct bump example_heap [] [] 37 example_inv ltac:(lia)) as (p & w' & bs' & owned' & E & _ & _ & _ & _ & H).
  exists p, w'. split; [exact E |]. apply H; [lia | lia |]. right. intros n Hn. exists 65536, 65536, 131072.
  unfold bump, sizeof_block, HEAP_CANARY_BYTES. cbn [source example_heap heap_init snd example_start].
  replace ((48 + n + 8 + 65535) / 65536) with 1 by (apply (Z.div_unique _ _ 1 (48 + n + 8 - 1)); lia). split; [done |]. split; [done |]. lia.
Defined.

Lemma kfree_correct_witness : exists w w', kmalloc example_heap 37 = Some (65584, w) /\ kfree w 65584 = (HEAP_OK, w') /\ kfree w' 65584 = (HEAP_DOUBLE_FREE, w').
Proof.
  assert (fst <$> kmalloc example_heap 37 = Some 65584) as P1 by (vm_compute; reflexivity).
  destruct (kmalloc_refines bump example_heap ∅ 37 example_refines ltac:(lia)) as (p & w & E & Hr). rewrite E in P1. injection P1 as ->.
  destruct Hr as [[H _] | (_ & _ & _ & Hr)]; [discriminate H |]. exists w. destruct (kfree_correct bump w _ Hr) as [H _].
  destruct (H 65584 _ (lookup_insert_eq _ _ _)) as (w' & E1 & _ & E2). exists w'. split; [exact E | split; [exact E1 | exact E2]].
Defined.

Lemma heap_self_test_correct_witness : exists w', heap_self_test example_heap = Some (true, w') /\ heap_refines bump w' ∅.
Proof.
  assert (fst <$> kmalloc example_heap 37 = Some 65584) as P1 by (vm_compute; reflexivity).
  assert (fst <$> ('(_, w) ← kmalloc example_heap 37; kzalloc w 257) = Some 65680) as P2 by (vm_compute; reflexivity).
  assert (fst <$> ('(_, w) ← kmalloc example_heap 37; '(_, w) ← kzalloc w 257; kmalloc w 8193) = Some 66000) as P3 by (vm_compute; reflexivity).
  destruct (kmalloc example_heap 37) as [[p w1] |] eqn:E1; [| discriminate]. injection P1 as ->. cbn [mbind option_bind] in P2, P3.
  destruct (kzalloc w1 257) as [[q w2] |] eqn:E2; [| discriminate]. injection P2 as ->. cbn [mbind option_bind] in P3.
  destruct (kmalloc w2 8193) as [[r w3] |] eqn:E3; [| discriminate]. injection P3 as ->.
  destruct (heap_self_test_correct bump example_heap ∅ _ _ _ _ _ _ example_refines E1 E2 E3) as (ok & w' & E & Hok & Hr).
  assert (ok = true) as -> by (apply Hok; repeat split; discriminate). exists w'. split; [exact E | by apply Hr].
Defined.
