(* ===== verification/HeapKernel.v ===== *)
(** * The heap's memory (kernel/src/heap_kernel.c)

    [kernel_heap_grow] takes page frames for the heap and hands out their
    direct pointers.  It keeps the promise the heap relies on, so that the
    guarantees of the heap hold for the kernel once memory is set up. *)

From stdpp Require Import base numbers list gmap.
From Stdlib Require Import ZArith Lia.
From S2P Require Import Prelude Bytes Boot Pmm Paging ByteMem Heap HeapList HeapSpec HeapSafe.

#[local] Open Scope Z_scope.

Definition KHEAP_MIN_GROW_PAGES : Z := 16.

(** The state of the source is the frame allocator's; the paging state is not
    changed. *)
Definition kernel_heap_grow (paging : paging_state) : heap_grow_fn pmm_state := fun minimum_bytes s =>
  if minimum_bytes =? 0 then (None, s)
  else
    let pages := u64 (u64 (minimum_bytes + PMM_PAGE_SIZE) - 1) / PMM_PAGE_SIZE in
    let pages := if pages <? KHEAP_MIN_GROW_PAGES then KHEAP_MIN_GROW_PAGES else pages in
    if UINT32_MAX <? pages then (None, s)
    else
      let '(physical, s) := pmm_alloc_frames s pages in
      if physical =? UINT64_MAX then (None, s)
      else match paging_direct_pointer paging physical with
      | None => (None, snd (pmm_free_frames s physical pages))
      | Some virtual_address => (Some (virtual_address, u64 (pages * PMM_PAGE_SIZE)), s)
      end.

Definition heap_kernel_init (paging : paging_state) (boot : option boot_context_t) (w : kworld pmm_state) :
    heap_status_t * kworld pmm_state :=
  match boot, paging_kernel_address_space paging with
  | Some _, Some _ => heap_init (Some (kernel_heap_grow paging)) w
  | _, _ => (HEAP_BAD_ARGUMENT, w)
  end.

(** ** The source of regions *)

Definition phys_offset (s : paging_state) : Z := match active_boot s with Some boot => physical_memory_offset boot | None => 0 end.

Section Source.
Context (s : paging_state) (pool : Z -> Prop).

(** The frames of the pool have direct pointers; the free frames belong to it;
    the regions handed out are made of frames of the pool that are not free. *)
Record kernel_source (f : pmm_state) (owned : list (Z * Z)) : Prop := {
  src_inv : pmm_inv f;
  src_active : is_Some (active_boot s);
  src_offset : 0 <= phys_offset s /\ phys_offset s mod 4096 = 0 /\ phys_offset s + direct_limit s < 2 ^ 64 /\ direct_limit s <= DIRECT_MAP_MAX;
  src_pool : (forall a, covers (free_ranges f) a -> pool a) /\ forall a, pool a -> 0 < a < direct_limit s;
  src_owned : forall p k, (p, k) ∈ owned -> 0 < k /\ forall a, p <= phys_offset s + a < p + k -> pool a /\ ~ covers (free_ranges f) a
}.

Lemma direct_pointer_pool f owned a :
  kernel_source f owned -> 0 <= a < direct_limit s -> paging_direct_pointer s a = Some (phys_offset s + a).
Proof.
  intros H Ha. destruct (src_offset _ _ H) as (H0 & _ & Hw & _). destruct (src_active _ _ H) as [boot Eb]. unfold paging_direct_pointer, phys_offset, UINT64_MAX in *. rewrite Eb in *.
  rewrite (proj2 (Z.leb_gt _ _)), (proj2 (Z.ltb_ge _ _)) by lia. cbn [orb]. by rewrite u64_small by lia.
Qed.

(** The pages taken for a request. *)
Definition grow_pages (n : Z) : Z :=
  Z.max KHEAP_MIN_GROW_PAGES (if n + 4095 <? 2 ^ 64 then (n + 4095) / 4096 else (n + 4095 - 2 ^ 64) / 4096).

Lemma grow_pages_eq n : 0 < n < 2 ^ 64 ->
  (let pages := u64 (u64 (n + PMM_PAGE_SIZE) - 1) / PMM_PAGE_SIZE in if pages <? KHEAP_MIN_GROW_PAGES then KHEAP_MIN_GROW_PAGES else pages) = grow_pages n.
Proof.
  intros Hn. unfold grow_pages, KHEAP_MIN_GROW_PAGES, PMM_PAGE_SIZE. cbv zeta.
  assert (u64 (u64 (n + 4096) - 1) = if n + 4095 <? 2 ^ 64 then n + 4095 else n + 4095 - 2 ^ 64) as ->.
  { unfold u64. rewrite Zminus_mod_idemp_l. replace (n + 4096 - 1) with (n + 4095) by lia. destruct (Z.ltb_spec (n + 4095) (2 ^ 64)); [by apply Z.mod_small; lia |].
    rewrite <- (Z.mod_add _ (-1)) by done. apply Z.mod_small. lia. }
  destruct (n + 4095 <? 2 ^ 64); if_case; bool_cases; lia.
Qed.

Lemma kernel_grow_spec f owned n :
  kernel_source f owned -> 0 <= n < 2 ^ 64 ->
  (kernel_heap_grow s n f = (None, f) /\
    (n = 0 \/ 2 ^ 32 <= grow_pages n \/ forall f', ~ (forall a, in_run f' (grow_pages n) a -> covers (free_ranges f) a))) \/
  exists p f', kernel_heap_grow s n f = (Some (phys_offset s + p, grow_pages n * 4096), f') /\ 0 < n /\ 16 <= grow_pages n < 2 ^ 32 /\
    0 < p /\ p + grow_pages n * 4096 <= direct_limit s /\ alloc_post f (grow_pages n) p f' /\ p <> PMM_INVALID_FRAME.
Proof.
  intros H Hn. unfold kernel_heap_grow. destruct (Z.eqb_spec n 0) as [-> | Hn0]; [left; split; [done | by left] |].
  pose proof (grow_pages_eq n ltac:(lia)) as Eg. cbv zeta in Eg |- *. rewrite Eg. clear Eg. set (k := grow_pages n) in *.
  assert (16 <= k) as Hk by (unfold k, grow_pages, KHEAP_MIN_GROW_PAGES; lia). unfold UINT32_MAX. destruct (Z.ltb_spec 4294967295 k) as [Hbig | Hsmall]; [left; split; [done | right; left; lia] |].
  pose proof (alloc_frames_spec f k (src_inv _ _ H) ltac:(lia)) as Hal. destruct (pmm_alloc_frames f k) as [p f'] eqn:Ea. pose proof Hal as Hal'. unfold alloc_post in Hal.
  change UINT64_MAX with PMM_INVALID_FRAME. destruct (Z.eqb_spec p PMM_INVALID_FRAME) as [-> | Hp].
  { left. destruct Hal as [-> Hno]. split; [done |]. destruct Hno as [? | ?]; [lia | tauto]. }
  right. destruct Hal as (_ & _ & _ & Hrun & _). unfold in_run, PMM_PAGE_SIZE in Hrun.
  assert (forall a, p <= a < p + k * 4096 -> 0 < a < direct_limit s) as Hin.
  { intros a Ha%Hrun. destruct (src_pool _ _ H) as [Hfp Hlt]. by apply Hlt, Hfp. }
  pose proof (Hin p ltac:(lia)). pose proof (Hin (p + k * 4096 - 1) ltac:(lia)).
  rewrite (direct_pointer_pool f owned p H) by lia. exists p, f'. unfold PMM_PAGE_SIZE. rewrite u64_small by lia.
  do 5 (split; [done || lia |]). done.
Qed.

Lemma kernel_source_taken f owned k p f' :
  kernel_source f owned -> alloc_post f k p f' -> p <> PMM_INVALID_FRAME -> 0 < k ->
  kernel_source f' ((phys_offset s + p, k * 4096) :: owned).
Proof.
  intros H Hal Hp Hk. unfold alloc_post in Hal. rewrite (proj2 (Z.eqb_neq _ _) Hp) in Hal. destruct Hal as (Hinv & _ & _ & Hrun & Hcov & Hman & _).
  unfold in_run, PMM_PAGE_SIZE in *. split; [done | apply H | apply H | split; [by intros a [? _]%Hcov; apply (src_pool _ _ H) | apply H] |].
  intros q j [[= -> ->] | Hq]%elem_of_cons.
  - split; [lia |]. intros a Ha. assert (p <= a < p + k * 4096) as Ha' by lia. split; [by apply (src_pool _ _ H), Hrun |]. intros [_ Hn]%Hcov. done.
  - destruct (src_owned _ _ H q j Hq) as [Hj Hown]. split; [done |]. intros a Ha. destruct (Hown a Ha) as [? Hn]. split; [done |]. by intros [? _]%Hcov.
Qed.

Lemma kernel_regions_apart f owned k p q j :
  kernel_source f owned -> (forall a, p <= a < p + k -> covers (free_ranges f) a) -> 0 < k -> (q, j) ∈ owned ->
  phys_offset s + p + k <= q \/ q + j <= phys_offset s + p.
Proof.
  intros H Hrun Hk Hq. destruct (src_owned _ _ H q j Hq) as [Hj Hown].
  destruct (decide (phys_offset s + p + k <= q)); [by left |]. destruct (decide (q + j <= phys_offset s + p)); [by right |]. exfalso.
  destruct (Hown (Z.max (q - phys_offset s) p) ltac:(lia)) as [_ Hn]. apply Hn, Hrun. lia.
Qed.

(** The kernel's source keeps the promise the heap relies on. *)
#[local] Instance kernel_growth : HeapGrowth (kernel_heap_grow s).
Proof.
  refine {| grow_ok := kernel_source |}. intros f owned n r f' H Hn E.
  destruct (kernel_grow_spec f owned n H Hn) as [(E' & _) | (p & f1 & E' & Hn0 & Hk & Hp & Hpl & Hal & Hne)]; rewrite E' in E; injection E as <- <-; [done |].
  destruct (src_offset _ _ H) as (H0 & _ & Hw & _). split; [by apply (kernel_source_taken f); [| | | lia] |]. do 3 (split; [lia |]).
  intros q j Hq. rewrite <- Z.add_assoc. rewrite Z.add_assoc. apply (kernel_regions_apart f owned); [done | | lia | done].
  unfold alloc_post in Hal. rewrite (proj2 (Z.eqb_neq _ _) Hne) in Hal. destruct Hal as (_ & _ & _ & Hrun & _). apply Hrun.
Defined.

End Source.

(** ** After [pmm_init] and [paging_init] *)

(** Building page tables does not change which frames are managed. *)
Record thrifty {A} (c : paging A) : Prop := mk_thrifty { thrifty_run : forall w, managed_ranges (frames (snd (c w))) = managed_ranges (frames w) }.

Lemma thrifty_bind {A B} (c : paging A) (k : A -> paging B) : thrifty c -> (forall a, thrifty (k a)) -> thrifty (c ≫= k).
Proof.
  intros [Hc] Hk. split. intros w. unfold mbind, paging_bind. specialize (Hc w). destruct (c w) as [[st | a] w0]; [done |].
  rewrite (thrifty_run _ (Hk a)). done.
Qed.

Ltac thrifty :=
  repeat first
    [ progress intros
    | apply thrifty_bind
    | split; reflexivity
    | match goal with |- thrifty (match ?x with _ => _ end) => destruct x end ].

Lemma table_ptr_thrifty boot phys : thrifty (table_ptr boot phys).
Proof. unfold table_ptr. thrifty. Qed.

Lemma alloc_table_thrifty boot : thrifty (alloc_table boot).
Proof.
  split. intros w. unfold alloc_table, pmm_alloc_frame. destruct (pmm_alloc_frames (frames w) 1) as [phys f] eqn:E.
  assert (managed_ranges f = managed_ranges (frames w)) as Em.
  { revert E. unfold pmm_alloc_frames. repeat case_match; intros [= <- <-]; done. }
  if_case; [done |]. rewrite <- Em. change f with (frames (mk_world (Paging.mem w) f)) at 2.
  apply thrifty_run. thrifty. apply table_ptr_thrifty.
Qed.

Lemma map_thrifty boot root virt phys flags replace :
  thrifty (map_4k_flags boot root virt phys flags replace) /\ thrifty (map_2m_flags boot root virt phys flags).
Proof.
  split; unfold map_4k_flags, map_2m_flags, pte_for_virtual, next_table, ensure_table; thrifty;
    apply table_ptr_thrifty || apply alloc_table_thrifty.
Qed.

Lemma direct_loop_thrifty boot n lay root phys limit : thrifty (direct_loop n lay boot root phys limit).
Proof.
  assert (forall n offset phys, thrifty (direct_pages n lay boot root phys offset limit)) as Hp.
  { clear n phys. intros n. induction n as [| n IH]; cbn [direct_pages]; thrifty; apply map_thrifty || apply IH. }
  revert phys. induction n as [| n IH]; cbn [direct_loop]; thrifty; first [by apply (map_thrifty _ _ _ _ _ false) | apply Hp | apply IH].
Qed.

Lemma kernel_range_thrifty boot root start end_ flags : thrifty (map_kernel_virtual_range boot root start end_ flags).
Proof.
  assert (forall n virt page_end, thrifty (kernel_pages n boot root virt page_end flags)) as Hp.
  { intros n. induction n as [| n IH]; cbn [kernel_pages]; thrifty; apply map_thrifty || apply IH. }
  unfold map_kernel_virtual_range. thrifty; apply Hp.
Qed.

Lemma build_tables_thrifty boot lay limit : thrifty (build_tables lay boot limit).
Proof. unfold build_tables. thrifty; apply alloc_table_thrifty || apply direct_loop_thrifty || apply kernel_range_thrifty. Qed.

Lemma paging_init_managed lay boot out s w out' s' w' :
  paging_init lay (Some boot) (Some out) s w = (PAGING_OK, out', s', w') -> managed_ranges (frames w') = managed_ranges (frames w).
Proof.
  unfold paging_init. repeat (if_case; [done |]). destruct (physical_map_limit boot) as [limit |]; [| done].
  if_case; [done |]. pose proof (thrifty_run _ (build_tables_thrifty boot lay limit) w) as Hm.
  destruct (build_tables lay boot limit w) as [[st | root] w2]; intros [=]; by subst.
Qed.

Lemma paging_init_kernel lay boot out s w out' s' w' :
  paging_init lay (Some boot) (Some out) s w = (PAGING_OK, out', s', w') -> kernel_phys_start boot < kernel_phys_end boot.
Proof. unfold paging_init. if_case; [done |]. bool_cases. intros _. lia. Qed.

(** Frames outside the kernel image are writable through the direct map. *)
Lemma outside_sections boot lay start end_ flags a :
  boot_context_ok boot -> image_ok boot lay -> kernel_phys_end boot <= DIRECT_MAP_MAX -> (start, end_, flags) ∈ sections boot lay ->
  0 <= a -> ~ spans (kernel_phys_start boot) (kernel_phys_end boot) a -> page_in_section boot start end_ (page_floor a) = false.
Proof.
  intros Hb Hi Hk Hin Ha Hout. pose proof Hb as (_ & _ & _ & _ & _ & _ & _ & Hks & _ & Hvs & _). unfold page_in_section.
  destruct (Z.leb_spec end_ start) as [Hle | Hlt]; [unfold kernel_section_phys_range; by rewrite (proj2 (Z.leb_le _ _) Hle) |].
  destruct (image_sections _ _ Hi _ _ _ Hin) as [H1 H2]. pose proof (image_size _ _ Hi) as Hsz. rewrite section_phys_range by (done || lia).
  unfold DIRECT_MAP_MAX, kernel_phys in *. set (s := kernel_phys_start boot + (start - _)) in *. set (e := kernel_phys_start boot + (end_ - _)) in *.
  rewrite (u64_small (e + PAGE_SIZE)), (u64_small (e + PAGE_SIZE - 1)) by (unfold PAGE_SIZE; lia). rewrite !align_down_page by (unfold PAGE_SIZE; lia).
  fold (page_floor s). replace (e + PAGE_SIZE - 1) with (e + (PAGE_SIZE - 1)) by lia. fold (page_floor (e + (PAGE_SIZE - 1))).
  apply not_true_is_false. rewrite andb_true_iff, Z.leb_le, Z.ltb_lt. intros [Hlo Hhi]. apply Hout. unfold spans, page_up.
  assert (forall z, page_down z = page_floor z) as Epd by (intros z; rewrite page_floor_div; unfold page_down, PMM_PAGE_SIZE, PAGE_SIZE; lia). rewrite !Epd.
  pose proof (page_floor_mono (kernel_phys_start boot) s ltac:(lia)). pose proof (page_floor_mono (e + (PAGE_SIZE - 1)) (kernel_phys_end boot + (PMM_PAGE_SIZE - 1)) ltac:(unfold PMM_PAGE_SIZE, PAGE_SIZE; lia)).
  destruct (page_floor_facts a Ha) as ([_ Hfa] & _). split; [lia |].
  destruct (Z.le_gt_cases (page_floor (kernel_phys_end boot + (PMM_PAGE_SIZE - 1))) a) as [Hge | ?]; [| done].
  apply page_floor_mono in Hge. destruct (page_floor_facts (kernel_phys_end boot + (PMM_PAGE_SIZE - 1))) as (_ & Hm & _); [unfold PMM_PAGE_SIZE; lia |].
  unfold page_floor at 1 in Hge. rewrite Hm in Hge. lia.
Qed.

Lemma direct_writable boot lay a :
  boot_context_ok boot -> image_ok boot lay -> kernel_phys_end boot <= DIRECT_MAP_MAX -> 0 <= a ->
  ~ spans (kernel_phys_start boot) (kernel_phys_end boot) a -> writable (direct_mapping boot lay a) = true /\ executable (direct_mapping boot lay a) = false.
Proof.
  intros Hb Hi Hk Ha Hout. unfold direct_mapping. case_match; [| done]. split; [| done]. cbn [writable]. unfold direct_flags_for_page. case_match; [done |].
  rewrite (outside_sections boot lay (text_start lay) (text_end lay) 0), (outside_sections boot lay (rodata_start lay) (rodata_end lay) PAGE_NX);
    try done; unfold sections; [do 2 right; left | right; left].
Qed.

Lemma init_source lay boot out s w out' s' w' :
  boot_context_ok boot -> layout_ok lay -> regions_fit boot -> pmm_init (Some boot) = (PMM_OK, frames w) -> free_ok boot w ->
  paging_init lay (Some boot) (Some out) s w = (PAGING_OK, out', s', w') ->
  physical_memory_offset boot + direct_limit s' < 2 ^ 64 ->
  kernel_source s' (covers (free_ranges (frames w'))) (frames w') [] /\ (forall a, covers (free_ranges (frames w')) a -> init_free boot a).
Proof.
  intros Hb Hlay Hfit Hpmm Hf E Hw. assert (0 <= physical_memory_offset boot) as H0 by apply Hb. pose proof (pmm_init_spec boot Hb) as Hp. rewrite Hpmm in Hp. destruct Hp as (_ & Hmf & _ & Hfree). rewrite <- Hmf in Hfree.
  pose proof (paging_init_managed _ _ _ _ _ _ _ _ E) as Em. destruct (init_running _ _ _ _ _ _ _ _ Hb Hlay Hf E) as [Hr _].
  destruct (run_space _ _ _ Hr) as [T HT]. destruct (sp_free _ _ _ _ HT) as [Hinv _].
  assert (forall a, covers (free_ranges (frames w')) a -> init_free boot a) as Hsub by (intros a Ha; apply Hfree; rewrite <- Em; by apply (inv_subset _ Hinv)). split; [| done].
  destruct (paging_init_spec boot ltac:(lia) lay out s w out' s' w' Hb Hlay Hf E) as (root & limit & -> & -> & Hlim & _ & Hal & _). cbn [direct_limit] in *.
  destruct (physical_map_limit_spec boot limit Hb Hlim) as (Hl & _ & _ & _ & Hus).
  split; [done | done | | split; [done |] | by intros p k ?%elem_of_nil].
  - unfold phys_offset. cbn [active_boot direct_limit]. split; [done |]. split; [| lia]. unfold HUGE_PAGE_SIZE in Hal. Z.to_euclidean_division_equations. lia.
  - intros a Hc. split; [destruct (inv_free _ Hinv) as [Hch _]; by apply (chain_above _ _ _ Hch) |]. apply Hsub in Hc as [Hu _]. apply Exists_exists in Hu as (r & Hr' & Ht & Hlen & Ha). cbn [direct_limit].
    unfold regions_fit in Hfit. rewrite Forall_forall in Hfit. specialize (Hfit r Hr'). assert (0 <= length_ r).
    { destruct Hb as (_ & Hreg & _). rewrite Forall_forall in Hreg. apply Hreg. unfold regions in Hr'. by eapply elem_of_subseteq; [apply subseteq_take |]. }
    pose proof (Hus r (base r + length_ r) Hr' ltac:(unfold usable_end; split; [done |]; lia)).
    pose proof (page_down_spec (Z.min (base r + length_ r) (physical_memory_limit boot))). lia.
Qed.

(** C22. From boot to a running heap: once the frame allocator, the page tables and
    the heap are set up, every byte of every allocation, after any history of
    the heap, is the direct pointer of a physical byte that was usable memory
    outside the kernel image, that was free when the page tables had been
    built (so none of them is in it), that the frame allocator does not hand
    out again, and that is mapped writable and not executable. *)
Theorem kernel_heap_safe lay boot out s w out' s' w' kw0 kw1 kw live :
  boot_context_ok boot -> layout_ok lay -> image_ok boot lay -> regions_fit boot ->
  pmm_init (Some boot) = (PMM_OK, frames w) -> free_ok boot w ->
  paging_init lay (Some boot) (Some out) s w = (PAGING_OK, out', s', w') ->
  physical_memory_offset boot + direct_limit s' < 2 ^ 64 ->
  source kw0 = frames w' -> heap_kernel_init s' (Some boot) kw0 = (HEAP_OK, kw1) -> steps heap_step (kw1, ∅) (kw, live) ->
  forall p v a, live !! p = Some v -> p <= a < p + zlen v ->
  exists phys m, paging_direct_pointer s' phys = Some a /\ init_free boot phys /\
    covers (free_ranges (frames w')) phys /\ ~ covers (free_ranges (source kw)) phys /\
    paging_query s' a (Paging.mem w') = Some m /\ present m = true /\ writable m = true /\ executable m = false.
Proof.
  intros Hb Hlay Hi Hfit Hpmm Hf E Hw Hsrc Hinit Hsteps p v a Hlk Ha. assert (0 <= physical_memory_offset boot) as H0 by apply Hb.
  destruct (init_source _ _ _ _ _ _ _ _ Hb Hlay Hfit Hpmm Hf E Hw) as [Hks Hfree].
  set (pool := covers (free_ranges (frames w'))) in *. rewrite <- Hsrc in Hks.
  assert (heap_init (Some (kernel_heap_grow s')) kw0 = (HEAP_OK, kw1)) as Hinit' by (unfold heap_kernel_init in Hinit; by case_match).
  pose proof (history_refines _ (HeapGrowth0 := kernel_growth s' pool) _ _ _ _ Hks Hinit' Hsteps) as Href.
  apply refines_regions in Href as (owned & Hsrc' & Hreg). specialize (Hreg p v a Hlk Ha). cbn in Hsrc'.
  apply Exists_exists in Hreg as ([q j] & Hq & Hr). destruct (src_owned _ _ _ _ Hsrc' q j Hq) as [_ Hown].
  destruct (paging_init_spec boot ltac:(lia) lay out s w out' s' w' Hb Hlay Hf E) as (root & limit & -> & Es' & Hlim & _ & Hal & B).
  destruct (physical_map_limit_spec boot limit Hb Hlim) as (Hl & _ & _ & Hke & _). assert (phys_offset s' = physical_memory_offset boot) as Eo by (by rewrite Es').
  destruct (Hown (a - phys_offset s') ltac:(lia)) as [Hp Hn]. set (phys := a - phys_offset s') in *.
  assert (0 < phys < direct_limit s') as Hlt by (by apply (src_pool _ _ _ _ Hks)).
  exists phys, (direct_mapping boot lay phys). split; [rewrite (direct_pointer_pool s' pool _ _ phys Hks) by lia; f_equal; unfold phys; lia |].
  pose proof (Hfree phys Hp) as Hif. do 3 (split; [done |]).
  destruct (direct_writable boot lay phys Hb Hi) as [Hwr Hex]; [lia | lia | |].
  { destruct Hif as (_ & _ & Hk & _). intros Hsp. apply Hk. split; [by eapply paging_init_kernel | done]. }
  split; [| split; [unfold direct_mapping; by case_match | done]]. subst s'. unfold paging_query. cbn [active_boot kernel_root direct_limit] in *.
  rewrite <- (direct_query boot ltac:(lia) root lay limit w' phys B Hal ltac:(lia) ltac:(lia)). f_equal. unfold phys. lia.
Qed.

(** ** Requests near the end of the address space *)

Lemma add_region_source {G} (w : kworld G) p k added w' : add_region w p k = Some (added, w') -> source w' = source w.
Proof. unfold add_region. repeat (if_case; [by intros [= <- <-] |]). destruct (insert_region _ _ _ _) as [[? ?] |]; [by intros [= <- <-] | done]. Qed.

Lemma grow_heap_source {G} (w : kworld G) grow n added w' :
  grow_callback (heap w) = Some grow -> 0 <= n -> n + 56 < 2 ^ 64 -> grow_heap w n = Some (added, w') -> source w' = snd (grow (n + 56) (source w)).
Proof.
  intros Hg Hn Hw. unfold grow_heap. rewrite Hg. unfold SIZE_MAX, UINT64_MAX, sizeof_block, HEAP_CANARY_BYTES. rewrite (proj2 (Z.ltb_ge _ _)) by lia.
  rewrite (u64_small (48 + n)), (u64_small (48 + n + 8)) by lia. replace (48 + n + 8) with (n + 56) by lia.
  destruct (grow (n + 56) (source w)) as [[[p k] |] g]; [| by intros [= <- <-]]. if_case; [by intros [= <- <-] |]. by intros ->%add_region_source.
Qed.

Section Huge.
Context (s : paging_state) (pool : Z -> Prop).
#[local] Abbreviation kernel_heap_inv := (heap_inv (kernel_heap_grow s) (HeapGrowth0 := kernel_growth s pool)).

Lemma blocks_small kw bs owned b : kernel_heap_inv kw bs owned -> b ∈ bs -> cap b <= DIRECT_MAP_MAX.
Proof.
  intros H Hb. pose proof (inv_source _ _ _ _ H) as Hsrc. destruct (linked_elem _ _ _ b (inv_linked _ _ _ _ H) Hb) as (_ & _ & ? & _).
  assert (forall a, addr b <= a < stop b -> pool (a - phys_offset s)) as Hin.
  { intros a Ha. assert (covered bs a) as Hc by (apply Exists_exists; by exists b). apply (inv_regions _ _ _ _ H), Exists_exists in Hc as ([q j] & Hq & Hr).
    apply (src_owned _ _ _ _ Hsrc q j Hq). lia. }
  destruct (src_offset _ _ _ _ Hsrc) as (_ & _ & _ & Hl). destruct (src_pool _ _ _ _ Hsrc) as [_ Hpl]. unfold stop, sizeof_block in *.
  pose proof (Hpl _ (Hin (addr b) ltac:(lia))). pose proof (Hpl _ (Hin (addr b + 48 + cap b - 1) ltac:(lia))). lia.
Qed.

Lemma no_huge_block kw bs owned n : kernel_heap_inv kw bs owned -> DIRECT_MAP_MAX < n -> find_block kw n = Some 0.
Proof.
  intros H Hn. destruct (find_block_spec _ kw bs owned n H) as [(l & b & r & -> & [_ Hc] & _) | [_ ?]]; [| done].
  assert (b ∈ l ++ b :: r) as Hb by in_list. pose proof (blocks_small _ _ _ b H Hb). lia.
Qed.

Lemma huge_pages n : 2 ^ 64 - 4095 <= n < 2 ^ 64 -> grow_pages n = 16.
Proof.
  intros Hn. unfold grow_pages, KHEAP_MIN_GROW_PAGES. rewrite (proj2 (Z.ltb_ge _ _)) by lia. rewrite Z.div_small by lia. done.
Qed.

(** For a request that ends within a page of the end of the address space,
    the page count of [kernel_heap_grow] wraps around to the minimum: the
    request fails, as it must, but only after sixteen frames were moved from
    the frame allocator to the heap. *)
Theorem kmalloc_huge_takes_frames kw bs owned size f :
  kernel_heap_inv kw bs owned -> 2 ^ 64 - 4000 <= size <= 2 ^ 64 - 100 -> (forall a, in_run f 16 a -> covers (free_ranges (source kw)) a) ->
  exists kw', kmalloc kw size = Some (0, kw') /\ free_frames (source kw') = free_frames (source kw) - 16.
Proof.
  intros H Hs Hfree. unfold kmalloc. destruct (inv_ready _ _ _ _ H) as [-> Hg]. cbn [negb orb]. rewrite (proj2 (Z.eqb_neq size 0)) by lia.
  unfold SIZE_MAX, UINT64_MAX, HEAP_CANARY_BYTES. rewrite (proj2 (Z.ltb_ge _ _)) by lia.
  pose proof (need_spec size ltac:(lia) ltac:(lia)) as Hneed. unfold HEAP_CANARY_BYTES in Hneed.
  destruct (align_up_size (u64 (size + 8)) HEAP_ALIGNMENT) as [n |]; [| lia]. destruct Hneed as (_ & Hn & _).
  rewrite (no_huge_block kw bs owned n H) by (unfold DIRECT_MAP_MAX; lia). cbn [mbind option_bind]. change (0 =? 0) with true. cbv iota.
  destruct (grow_heap_spec _ kw bs owned n H ltac:(lia)) as (added & w1 & bs1 & owned1 & Eg & H1 & _). rewrite Eg. cbn [mbind option_bind].
  pose proof (grow_heap_source _ _ n _ _ Hg ltac:(lia) ltac:(lia) Eg) as Hsrc.
  assert (free_frames (source w1) = free_frames (source kw) - 16) as Hff.
  { rewrite Hsrc. destruct (kernel_grow_spec s pool _ _ (n + 56) (inv_source _ _ _ _ H) ltac:(lia)) as [(_ & Hno) | (p & f' & -> & _ & _ & _ & _ & Hal & Hne)];
      rewrite (huge_pages (n + 56)) in * by lia.
    - destruct Hno as [? | [? | Hno]]; [lia | lia | by destruct (Hno f)].
    - unfold alloc_post in Hal. rewrite (proj2 (Z.eqb_neq _ _) Hne) in Hal. apply Hal. }
  destruct added; cbn [negb].
  - rewrite (no_huge_block w1 bs1 owned1 n H1) by (unfold DIRECT_MAP_MAX; lia). cbn [mbind option_bind]. by eexists.
  - by eexists.
Qed.

End Huge.

(** ** A concrete machine

    The machine of the paging examples with a further 256 KiB of memory. *)

Definition roomy_boot : boot_context_t :=
  mk_boot_context (mk_framebuffer 0xffff800000110000 1 1 4 32 8 16 8 8 8 0)
    ([example_region 0 0x9fc00 BOOT_MEMORY_USABLE;
      example_region 0x9fc00 0x60400 BOOT_MEMORY_RESERVED;
      example_region 0x100000 0x12000 BOOT_MEMORY_USABLE;
      example_region 0x120000 0x40000 BOOT_MEMORY_USABLE]
     ++ replicate 124 (example_region 0 0 BOOT_MEMORY_RESERVED))
    4 0 0xffff800000000000 0x100000000 0x110000 0x112000 0x104000 0x10a000
    0xffffffff80000000 0xffffffff80006000 0 0 [].

Definition roomy_world : world := mk_world (∅ : gmap Z Z) (snd (pmm_init (Some roomy_boot))).
Definition roomy_result := paging_init example_layout (Some roomy_boot) (Some 0) example_unset roomy_world.
Definition roomy_paging : paging_state := mk_paging (Some roomy_boot) 0x100000 0x200000 MMIO_BASE false.

Lemma roomy_init :
  paging_init example_layout (Some roomy_boot) (Some 0) example_unset roomy_world = (PAGING_OK, Some 0x100000, roomy_paging, roomy_result.2).
Proof.
  assert (roomy_result.1 = (PAGING_OK, Some 0x100000, roomy_paging)) as H by (vm_compute; reflexivity).
  rewrite <- H. apply surjective_pairing.
Qed.

Lemma roomy_boot_ok : boot_context_ok roomy_boot.
Proof.
  split_and!; try (simpl; lia); [done |].
  apply Forall_app. split.
  - repeat (constructor; [unfold region_ok; simpl; lia |]). constructor.
  - apply Forall_replicate. unfold region_ok. simpl. lia.
Qed.

Lemma roomy_pmm : pmm_init (Some roomy_boot) = (PMM_OK, frames roomy_world).
Proof.
  assert (fst (pmm_init (Some roomy_boot)) = PMM_OK) as H by (vm_compute; reflexivity).
  unfold roomy_world. cbn [frames]. rewrite <- H. apply surjective_pairing.
Qed.

Lemma roomy_free_ok : free_ok roomy_boot roomy_world.
Proof.
  split.
  - pose proof (pmm_init_spec roomy_boot roomy_boot_ok) as H. rewrite roomy_pmm in H. apply H.
  - intros a. replace (managed_ranges (frames roomy_world)) with [mk_range 0x100000 0x104000; mk_range 0x10a000 0x110000; mk_range 0x120000 0x160000] by (vm_compute; reflexivity).
    unfold covers, in_range. rewrite !Exists_cons, Exists_nil. cbn. lia.
Qed.

Lemma roomy_image_ok : image_ok roomy_boot example_layout.
Proof.
  split; [reflexivity | reflexivity | reflexivity | reflexivity |]. intros start end_ flags Hin. unfold sections in Hin.
  repeat (apply elem_of_cons in Hin as [[= -> -> ->] | Hin]); try (by apply elem_of_nil in Hin); cbn; lia.
Qed.

Lemma roomy_regions_fit : regions_fit roomy_boot.
Proof. unfold regions_fit, regions. cbn. repeat constructor; cbn; lia. Qed.

Definition roomy_start : kworld pmm_state := mk_kworld (mk_heap 0 None 0 0 0 0 0 0 false) (∅ : gmap Z Z) (frames roomy_result.2).
Definition roomy_heap : kworld pmm_state := snd (heap_kernel_init roomy_paging (Some roomy_boot) roomy_start).

Lemma kernel_heap_safe_witness :
  exists w m, kmalloc roomy_heap 100 = Some (0xffff800000120030, w) /\ paging_query roomy_paging 0xffff800000120033 (Paging.mem roomy_result.2) = Some m /\
    writable m = true /\ executable m = false.
Proof.
  assert (fst <$> kmalloc roomy_heap 100 = Some 0xffff800000120030) as P by (vm_compute; reflexivity).
  destruct (kmalloc roomy_heap 100) as [[p w] |] eqn:E; [| discriminate]. injection P as ->.
  destruct (kernel_heap_safe example_layout roomy_boot 0 example_unset roomy_world (Some 0x100000) roomy_paging roomy_result.2 roomy_start roomy_heap w
    (<[0xffff800000120030 := replicate (Z.to_nat 100) 0xcd]> ∅) roomy_boot_ok example_layout_ok roomy_image_ok roomy_regions_fit roomy_pmm roomy_free_ok roomy_init
    ltac:(cbn; lia) eq_refl eq_refl) with (p := 0xffff800000120030) (v := replicate (Z.to_nat 100) 0xcd) (a := 0xffff800000120033)
    as (phys & m & _ & _ & _ & _ & Hq & _ & Hw & Hx).
  - apply steps_one. exact (step_kmalloc roomy_heap ∅ 100 _ _ ltac:(lia) E).
  - apply lookup_insert_eq.
  - unfold zlen. rewrite length_replicate. lia.
  - exists w, m. split; [reflexivity |]. split; [exact Hq |]. split; [exact Hw | exact Hx].
Defined.

Lemma roomy_source : kernel_source roomy_paging (covers (free_ranges (frames roomy_result.2))) (source roomy_heap) [].
Proof.
  change (source roomy_heap) with (frames roomy_result.2).
  exact (proj1 (init_source example_layout roomy_boot 0 example_unset roomy_world (Some 0x100000) roomy_paging roomy_result.2
    roomy_boot_ok example_layout_ok roomy_regions_fit roomy_pmm roomy_free_ok roomy_init ltac:(cbn; lia))).
Qed.

Lemma roomy_inv : heap_inv (kernel_heap_grow roomy_paging) (HeapGrowth0 := kernel_growth roomy_paging (covers (free_ranges (frames roomy_result.2)))) roomy_heap [] [].
Proof. split; [split; done | done | done | done | done | done | done | done | intros a Ha; by apply Exists_nil in Ha | exact roomy_source]. Qed.

Lemma roomy_frames a : in_run 0x120000 16 a -> covers (free_ranges (source roomy_heap)) a.
Proof.
  replace (free_ranges (source roomy_heap)) with [mk_range 0x10d000 0x110000; mk_range 0x120000 0x160000] by (vm_compute; reflexivity).
  unfold in_run, PMM_PAGE_SIZE, covers, in_range. rewrite !Exists_cons. cbn. lia.
Qed.

Lemma kmalloc_huge_takes_frames_witness :
  exists w, kmalloc roomy_heap (2 ^ 64 - 200) = Some (0, w) /\ free_frames (source w) = free_frames (source roomy_heap) - 16.
Proof.
  exact (kmalloc_huge_takes_frames roomy_paging _ roomy_heap [] [] (2 ^ 64 - 200) 0x120000 roomy_inv ltac:(lia) roomy_frames).
Defined.
