(* ===== verification/BootJosh.v ===== *)
(** * The boot protocol (kernel/src/boot.c, boot_josh.c, josh_boot_protocol.h)

    The loader leaves a [JoshBootInfo] in memory with the memory map and the
    command line it points to.  [boot_josh_context_init] checks all of it and
    fills the boot context; the checks are what the frame allocator, paging and
    the framebuffer rely on. *)

From stdpp Require Import base numbers list gmap.
From Stdlib Require Import ZArith Lia.
From S2P Require Import Prelude Bytes Boot ByteMem.

#[local] Open Scope Z_scope.

(** ** josh_boot_protocol.h *)

Definition JOSH_BOOT_INFO_MAGIC : Z := 0x30494248534f4a4a.
Definition JOSH_BOOT_ABI_MAJOR : Z := 0.
Definition JOSH_BOOT_ABI_MINOR : Z := 1.
Definition JOSH_LOADER_MAGIC1 : Z := 0x544f4f4248534f4a.
Definition JOSH_LOADER_MAGIC2 : Z := 0x0030564f544f5250.
Definition JOSH_BOOT_FLAG_MEMORY_MAP : Z := 1.
Definition JOSH_BOOT_FLAG_FRAMEBUFFER : Z := 2.
Definition JOSH_BOOT_FLAG_RSDP : Z := 4.
Definition JOSH_BOOT_FLAG_SMBIOS : Z := 8.
Definition JOSH_BOOT_FLAG_CMDLINE : Z := 16.
Definition JOSH_MEMORY_USABLE : Z := 1.
Definition JOSH_MEMORY_RESERVED : Z := 2.
Definition JOSH_MEMORY_ACPI_RECLAIMABLE : Z := 3.
Definition JOSH_MEMORY_ACPI_NVS : Z := 4.
Definition JOSH_MEMORY_BAD : Z := 5.
Definition JOSH_BOOT_MAX_MEMORY_ENTRIES : Z := 128.

Record JoshMemoryMapEntry := mk_entry {
  e_base : Z;
  e_length : Z;
  e_type : Z;
  e_flags : Z
}.
Definition sizeof_entry : Z := 24.

Record JoshFramebufferInfo := mk_fb_info {
  fb_address : Z;
  fb_width : Z;
  fb_height : Z;
  fb_pitch : Z;
  fb_bpp : Z;
  fb_red_mask_size : Z;
  fb_red_mask_shift : Z;
  fb_green_mask_size : Z;
  fb_green_mask_shift : Z;
  fb_blue_mask_size : Z;
  fb_blue_mask_shift : Z
}.

(** The fields the kernel reads. *)
Record JoshBootInfo := mk_info {
  magic : Z;
  abi_major : Z;
  abi_minor : Z;
  total_size : Z;
  flags : Z;
  memory_map_address : Z;
  memory_map_entries : Z;
  memory_map_entry_size : Z;
  info_framebuffer : JoshFramebufferInfo;
  info_kernel_phys_start : Z;
  info_kernel_phys_end : Z;
  info_kernel_virt_start : Z;
  info_kernel_virt_end : Z;
  info_rsdp_phys : Z;
  info_smbios_phys : Z;
  command_line_address : Z;
  command_line_length : Z;
  kernel_entry : Z
}.
Definition sizeof_info : Z := 224.

(** The packed structures in memory. *)
Definition entry_at (m : bytemem) (a : Z) : JoshMemoryMapEntry := mk_entry (ld 8 m a) (ld 8 m (a + 8)) (ld 4 m (a + 16)) (ld 4 m (a + 20)).

Definition framebuffer_at (m : bytemem) (a : Z) : JoshFramebufferInfo :=
  mk_fb_info (ld 8 m a) (ld 4 m (a + 8)) (ld 4 m (a + 12)) (ld 4 m (a + 16)) (ld 4 m (a + 20))
    (ld 4 m (a + 24)) (ld 4 m (a + 28)) (ld 4 m (a + 32)) (ld 4 m (a + 36)) (ld 4 m (a + 40)) (ld 4 m (a + 44)).

Definition info_at (m : bytemem) (a : Z) : JoshBootInfo :=
  mk_info (ld 8 m a) (ld 4 m (a + 8)) (ld 4 m (a + 12)) (ld 4 m (a + 16)) (ld 4 m (a + 20))
    (ld 8 m (a + 32)) (ld 4 m (a + 40)) (ld 4 m (a + 44)) (framebuffer_at m (a + 48))
    (ld 8 m (a + 96)) (ld 8 m (a + 104)) (ld 8 m (a + 112)) (ld 8 m (a + 120)) (ld 8 m (a + 128)) (ld 8 m (a + 136))
    (ld 8 m (a + 144)) (ld 4 m (a + 152)) (ld 8 m (a + 176)).

(** ** boot_josh.c *)

Definition FOUR_GIB : Z := 0x100000000.

Definition add_overflows_u64 (a b : Z) : bool := UINT64_MAX - a <? b.

Definition mask_valid (size shift : Z) : bool :=
  if (size =? 0) || (32 <? size) || (32 <=? shift) then false else u32 (size + shift) <=? 32.

Definition validate_framebuffer (fb : JoshFramebufferInfo) : boot_status_t :=
  if fb_address fb =? 0 then BOOT_NO_FRAMEBUFFER
  else if negb (fb_bpp fb =? 32) || (fb_width fb =? 0) || (fb_height fb =? 0) || (fb_pitch fb =? 0) then BOOT_UNSUPPORTED_FRAMEBUFFER
  else if (UINT32_MAX / 4 <? fb_width fb) || (fb_pitch fb <? u32 (fb_width fb * 4)) || negb (Z.land (fb_pitch fb) 3 =? 0)
  then BOOT_UNSUPPORTED_FRAMEBUFFER
  else
    let framebuffer_bytes := u64 (fb_pitch fb * fb_height fb) in
    if (FOUR_GIB <=? fb_address fb) || (u64 (FOUR_GIB - fb_address fb) <? framebuffer_bytes) then BOOT_UNSUPPORTED_FRAMEBUFFER
    else if negb (mask_valid (fb_red_mask_size fb) (fb_red_mask_shift fb)) ||
            negb (mask_valid (fb_green_mask_size fb) (fb_green_mask_shift fb)) ||
            negb (mask_valid (fb_blue_mask_size fb) (fb_blue_mask_shift fb)) then BOOT_UNSUPPORTED_FRAMEBUFFER
    else BOOT_OK.

Definition map_memory_type (type : Z) : boot_memory_type_t :=
  if type =? JOSH_MEMORY_USABLE then BOOT_MEMORY_USABLE
  else if type =? JOSH_MEMORY_ACPI_RECLAIMABLE then BOOT_MEMORY_ACPI_RECLAIMABLE
  else if type =? JOSH_MEMORY_ACPI_NVS then BOOT_MEMORY_ACPI_NVS
  else if type =? JOSH_MEMORY_BAD then BOOT_MEMORY_BAD
  else BOOT_MEMORY_RESERVED.

Definition set_memory_map (c : boot_context_t) (l : list boot_memory_region_t) (count : Z) : boot_context_t :=
  mk_boot_context (framebuffer c) l count (usable_memory_mib c) (physical_memory_offset c) (physical_memory_limit c)
    (framebuffer_phys_start c) (framebuffer_phys_end c) (kernel_phys_start c) (kernel_phys_end c) (kernel_virt_start c)
    (kernel_virt_end c) (rsdp_phys c) (smbios_phys c) (command_line c).

Definition set_command_line (c : boot_context_t) (l : list Z) : boot_context_t :=
  mk_boot_context (framebuffer c) (memory_map c) (memory_map_count c) (usable_memory_mib c) (physical_memory_offset c)
    (physical_memory_limit c) (framebuffer_phys_start c) (framebuffer_phys_end c) (kernel_phys_start c) (kernel_phys_end c)
    (kernel_virt_start c) (kernel_virt_end c) (rsdp_phys c) (smbios_phys c) l.

(** The entries from [i] on, of which [n] are left. *)
Fixpoint map_loop (n : nat) (i : Z) (m : bytemem) (info : JoshBootInfo) (c : boot_context_t) (usable_bytes : Z) :
    option (boot_status_t * boot_context_t * Z) :=
  match n with
  | O => Some (BOOT_OK, c, usable_bytes)
  | S n =>
      let entry := entry_at m (u64 (memory_map_address info + u64 (i * memory_map_entry_size info))) in
      if e_length entry =? 0 then map_loop n (i + 1) m info c usable_bytes
      else if add_overflows_u64 (e_base entry) (e_length entry) then Some (BOOT_INVALID_BOOT_INFO, c, usable_bytes)
      else if BOOT_MEMORY_MAX_ENTRIES <=? memory_map_count c then Some (BOOT_NO_MEMORY_MAP, c, usable_bytes)
      else
        let out := mk_region (e_base entry) (e_length entry) (map_memory_type (e_type entry)) (e_flags entry) in
        l ← wr (memory_map c) (memory_map_count c) out;
        let c := set_memory_map c l (u32 (memory_map_count c + 1)) in
        let usable_bytes :=
          if bool_decide (type_ out = BOOT_MEMORY_USABLE) then
            if add_overflows_u64 usable_bytes (length_ out) then UINT64_MAX else u64 (usable_bytes + length_ out)
          else usable_bytes in
        map_loop n (i + 1) m info c usable_bytes
  end.

Definition copy_memory_map (m : bytemem) (c : boot_context_t) (info : JoshBootInfo) (usable_bytes_out : Z) :
    option (boot_status_t * boot_context_t * Z) :=
  if (memory_map_address info =? 0) || (memory_map_entries info =? 0) ||
     (JOSH_BOOT_MAX_MEMORY_ENTRIES <? memory_map_entries info) || (BOOT_MEMORY_MAX_ENTRIES <? memory_map_entries info) ||
     (memory_map_entry_size info <? sizeof_entry) || (4096 <? memory_map_entry_size info)
  then Some (BOOT_NO_MEMORY_MAP, c, usable_bytes_out)
  else
    let c := set_memory_map c (memory_map c) 0 in
    '(status, c, usable_bytes) ← map_loop (Z.to_nat (memory_map_entries info)) 0 m info c 0;
    match status with
    | BOOT_OK => if memory_map_count c =? 0 then Some (BOOT_NO_MEMORY_MAP, c, usable_bytes_out) else Some (BOOT_OK, c, usable_bytes)
    | _ => Some (status, c, usable_bytes_out)
    end.

(** The characters from [i] on, of which [n] are left. *)
Fixpoint line_loop (n : nat) (i : Z) (m : bytemem) (source : Z) (line : list Z) : option (boot_status_t * list Z) :=
  match n with
  | O => Some (BOOT_OK, line)
  | S n =>
      let c := peek m (u64 (source + i)) in
      if (c <? 0x20) || (0x7e <? c) then Some (BOOT_INVALID_BOOT_INFO, line)
      else line ← wr line i c; line_loop n (i + 1) m source line
  end.

Definition copy_command_line (m : bytemem) (c : boot_context_t) (info : JoshBootInfo) : option (boot_status_t * boot_context_t) :=
  line ← wr (command_line c) 0 0;
  let c := set_command_line c line in
  if Z.land (flags info) JOSH_BOOT_FLAG_CMDLINE =? 0 then Some (BOOT_OK, c)
  else if (command_line_address info =? 0) || (command_line_length info =? 0) || (BOOT_COMMAND_LINE_MAX <? command_line_length info)
  then Some (BOOT_INVALID_BOOT_INFO, c)
  else
    '(status, line) ← line_loop (Z.to_nat (command_line_length info)) 0 m (command_line_address info) (command_line c);
    let c := set_command_line c line in
    match status with
    | BOOT_OK => line ← wr (command_line c) (command_line_length info) 0; Some (BOOT_OK, set_command_line c line)
    | _ => Some (status, c)
    end.

(** The context once every check has passed. *)
Definition josh_context (c : boot_context_t) (info : JoshBootInfo) (usable_bytes : Z) : boot_context_t :=
  let fb := info_framebuffer info in
  mk_boot_context
    (mk_framebuffer (fb_address fb) (fb_width fb) (fb_height fb) (fb_pitch fb) (u16 (fb_bpp fb))
      (u8 (fb_red_mask_size fb)) (u8 (fb_red_mask_shift fb)) (u8 (fb_green_mask_size fb)) (u8 (fb_green_mask_shift fb))
      (u8 (fb_blue_mask_size fb)) (u8 (fb_blue_mask_shift fb)))
    (memory_map c) (memory_map_count c) (usable_bytes / (1024 * 1024))
    0 FOUR_GIB (fb_address fb) (u64 (fb_address fb + u64 (fb_pitch fb * fb_height fb)))
    (info_kernel_phys_start info) (info_kernel_phys_end info) (info_kernel_virt_start info) (info_kernel_virt_end info)
    (if Z.land (flags info) JOSH_BOOT_FLAG_RSDP =? 0 then 0 else info_rsdp_phys info)
    (if Z.land (flags info) JOSH_BOOT_FLAG_SMBIOS =? 0 then 0 else info_smbios_phys info)
    (command_line c).

(** The information is at [info], null if 0; the context is never null. *)
Definition boot_josh_context_init (m : bytemem) (c : boot_context_t) (info : Z) : option (boot_status_t * boot_context_t) :=
  if info =? 0 then Some (BOOT_INVALID_BOOT_INFO, c)
  else
    let info := info_at m info in
    if negb (magic info =? JOSH_BOOT_INFO_MAGIC) || negb (abi_major info =? JOSH_BOOT_ABI_MAJOR) ||
       (abi_minor info <? JOSH_BOOT_ABI_MINOR) || (total_size info <? sizeof_info) then Some (BOOT_INVALID_BOOT_INFO, c)
    else
      let required := Z.lor JOSH_BOOT_FLAG_MEMORY_MAP JOSH_BOOT_FLAG_FRAMEBUFFER in
      if negb (Z.land (flags info) required =? required) then Some (BOOT_INVALID_BOOT_INFO, c)
      else if (info_kernel_phys_end info <=? info_kernel_phys_start info) ||
              (info_kernel_virt_end info <=? info_kernel_virt_start info) || (kernel_entry info =? 0)
      then Some (BOOT_INVALID_BOOT_INFO, c)
      else
        '(status, c, usable_bytes) ← copy_memory_map m c info 0;
        match status with
        | BOOT_OK =>
            match validate_framebuffer (info_framebuffer info) with
            | BOOT_OK =>
                if negb (Z.land (flags info) JOSH_BOOT_FLAG_RSDP =? 0) && (info_rsdp_phys info =? 0) then Some (BOOT_INVALID_BOOT_INFO, c)
                else if negb (Z.land (flags info) JOSH_BOOT_FLAG_SMBIOS =? 0) && (info_smbios_phys info =? 0) then Some (BOOT_INVALID_BOOT_INFO, c)
                else
                  '(status, c) ← copy_command_line m c info;
                  match status with
                  | BOOT_OK => Some (BOOT_OK, josh_context c info usable_bytes)
                  | _ => Some (status, c)
                  end
            | status => Some (status, c)
            end
        | _ => Some (status, c)
        end.

(** ** What the protocol data means *)

Definition entry_no (m : bytemem) (info : JoshBootInfo) (i : Z) : JoshMemoryMapEntry :=
  entry_at m (u64 (memory_map_address info + u64 (i * memory_map_entry_size info))).

Fixpoint raw_entries (n : nat) (i : Z) (m : bytemem) (info : JoshBootInfo) : list JoshMemoryMapEntry :=
  match n with O => [] | S n => entry_no m info i :: raw_entries n (i + 1) m info end.

(** Entries of no length are skipped. *)
Definition kept (es : list JoshMemoryMapEntry) : list JoshMemoryMapEntry := filter (fun e => e_length e <> 0) es.
Definition convert (e : JoshMemoryMapEntry) : boot_memory_region_t := mk_region (e_base e) (e_length e) (map_memory_type (e_type e)) (e_flags e).
Definition entry_fits (e : JoshMemoryMapEntry) : Prop := e_base e + e_length e < 2 ^ 64.

#[export] Instance entry_fits_dec e : Decision (entry_fits e).
Proof. unfold entry_fits. apply _. Defined.

Definition usable_sum (rs : list boot_memory_region_t) : Z :=
  foldr (fun r n => (if bool_decide (type_ r = BOOT_MEMORY_USABLE) then length_ r else 0) + n) 0 rs.

Lemma entry_range m a : 0 <= e_base (entry_at m a) < 2 ^ 64 /\ 0 <= e_length (entry_at m a) < 2 ^ 64.
Proof. split; apply (ld_range 8). Qed.

Lemma raw_range n i m info : Forall (fun e => 0 <= e_base e < 2 ^ 64 /\ 0 < e_length e < 2 ^ 64) (kept (raw_entries n i m info)).
Proof.
  revert i. induction n as [| n IH]; intros i; [constructor |]. cbn [raw_entries]. unfold kept. rewrite filter_cons. case_decide as Hl; [| apply IH].
  constructor; [| apply IH]. destruct (entry_range m (u64 (memory_map_address info + u64 (i * memory_map_entry_size info)))). unfold entry_no in *. lia.
Qed.

Lemma usable_nonneg n i m info : 0 <= usable_sum (convert <$> kept (raw_entries n i m info)).
Proof.
  induction (raw_range n i m info) as [| e es [_ He] _ IH]; [done |]. cbn [fmap list_fmap usable_sum foldr]. fold (usable_sum (convert <$> es)).
  change (length_ (convert e)) with (e_length e). case_match; lia.
Qed.

Lemma map_loop_spec n i m info c0 rs acc :
  zlen (memory_map c0) = 128 -> zlen rs + Z.of_nat n <= 128 -> 0 <= acc <= UINT64_MAX ->
  let es := kept (raw_entries n i m info) in
  let all := rs ++ (convert <$> es) in
  if decide (Forall entry_fits es) then
    map_loop n i m info (set_memory_map c0 (filled (memory_map c0) rs) (zlen rs)) acc =
      Some (BOOT_OK, set_memory_map c0 (filled (memory_map c0) all) (zlen all), Z.min UINT64_MAX (acc + usable_sum (convert <$> es)))
  else exists c' u, map_loop n i m info (set_memory_map c0 (filled (memory_map c0) rs) (zlen rs)) acc = Some (BOOT_INVALID_BOOT_INFO, c', u).
Proof.
  intros H128. revert i rs acc. induction n as [| n IH]; intros i rs acc Hn Hacc es all.
  { unfold all, es. cbn. rewrite app_nil_r. do 3 f_equal. lia. }
  unfold all, es. clear all es. cbn [raw_entries map_loop]. change (entry_at m _) with (entry_no m info i).
  destruct (entry_range m (u64 (memory_map_address info + u64 (i * memory_map_entry_size info)))) as [Hb Hl]. change (entry_at m _) with (entry_no m info i) in *.
  set (e := entry_no m info i) in *. unfold kept. rewrite filter_cons. destruct (Z.eqb_spec (e_length e) 0) as [E0 | E0].
  { rewrite (decide_False (P := e_length e <> 0)) by (intros Hc; by apply Hc). apply IH; lia. }
  rewrite (decide_True (P := e_length e <> 0)) by done. fold (kept (raw_entries n (i + 1) m info)). unfold add_overflows_u64, UINT64_MAX in *. destruct (Z.ltb_spec (18446744073709551615 - e_base e) (e_length e)) as [Hov | Hfit].
  { rewrite decide_False by (intros [? _]%Forall_cons; unfold entry_fits in *; lia). by eexists _, _. }
  cbn [memory_map_count set_memory_map memory_map]. pose proof (zlen_nonneg rs). unfold BOOT_MEMORY_MAX_ENTRIES. rewrite (proj2 (Z.leb_gt _ _)) by lia.
  fold (convert e). rewrite wr_filled by lia. cbn [mbind option_bind]. change (set_memory_map (set_memory_map c0 _ _) ?l ?k) with (set_memory_map c0 l k).
  rewrite u32_small by lia. replace (zlen rs + 1) with (zlen (rs ++ [convert e])) by (rewrite zlen_app; done).
  set (acc' := if bool_decide _ then _ else acc). assert (0 <= acc' <= 18446744073709551615 /\ acc' = Z.min 18446744073709551615 (acc + (if bool_decide (type_ (convert e) = BOOT_MEMORY_USABLE) then e_length e else 0))) as [Ha Ha'].
  { unfold acc'. change (length_ (convert e)) with (e_length e). repeat case_match; bool_cases; no_wrap; lia. }
  specialize (IH (i + 1) (rs ++ [convert e]) acc' ltac:(rewrite zlen_app; cbn; unfold zlen in *; cbn; lia) Ha).
  rewrite <- app_assoc in IH. cbn [app] in IH. cbv zeta in IH. rewrite fmap_cons.
  pose proof (usable_nonneg n (i + 1) m info) as Hu. destruct (decide (Forall entry_fits (kept (raw_entries n (i + 1) m info)))) as [Hf | Hf].
  - rewrite (decide_True (P := Forall entry_fits (e :: _))) by (constructor; [unfold entry_fits; lia | done]). rewrite IH. do 2 f_equal.
    cbn [usable_sum foldr]. fold (usable_sum (convert <$> kept (raw_entries n (i + 1) m info))). change (length_ (convert e)) with (e_length e). lia.
  - rewrite (decide_False (P := Forall entry_fits (e :: _))) by (by intros [_ ?]%Forall_cons). exact IH.
Qed.

(** ** The command line *)

Fixpoint raw_chars (n : nat) (i : Z) (m : bytemem) (source : Z) : list Z :=
  match n with O => [] | S n => peek m (u64 (source + i)) :: raw_chars n (i + 1) m source end.

Definition printable (c : Z) : Prop := 0x20 <= c <= 0x7e.

#[export] Instance printable_dec c : Decision (printable c).
Proof. unfold printable. apply _. Defined.

Lemma raw_chars_length n i m source : length (raw_chars n i m source) = n.
Proof. revert i. induction n as [| n IH]; intros i; [done |]. cbn. by rewrite IH. Qed.

Lemma line_loop_spec n m source l0 xs :
  zlen l0 = 128 -> zlen xs + Z.of_nat n <= 127 ->
  let cs := raw_chars n (zlen xs) m source in
  if decide (Forall printable cs) then line_loop n (zlen xs) m source (filled l0 xs) = Some (BOOT_OK, filled l0 (xs ++ cs))
  else exists l', line_loop n (zlen xs) m source (filled l0 xs) = Some (BOOT_INVALID_BOOT_INFO, l') /\ zlen l' = 128.
Proof.
  intros H128. revert xs. induction n as [| n IH]; intros xs Hn; cbn [raw_chars line_loop]; [by rewrite app_nil_r |].
  set (c := peek m _). pose proof (zlen_nonneg xs). destruct (decide (printable c)) as [Hc | Hc].
  - rewrite (proj2 (Z.ltb_ge _ _)), (proj2 (Z.ltb_ge _ _)) by (unfold printable in Hc; lia). cbn [orb]. rewrite wr_filled by lia. cbn [mbind option_bind].
    assert (zlen xs + 1 = zlen (xs ++ [c])) as E by (rewrite zlen_app; done). rewrite E. specialize (IH (xs ++ [c]) ltac:(lia)). cbv zeta in IH. rewrite <- app_assoc in IH. cbn [app] in IH.
    destruct (decide (Forall printable (raw_chars n (zlen (xs ++ [c])) m source))) as [Hf | Hf].
    + rewrite decide_True by (by constructor). exact IH.
    + rewrite decide_False by (by intros [_ ?]%Forall_cons). exact IH.
  - rewrite decide_False by (by intros [? _]%Forall_cons). exists (filled l0 xs). unfold printable in Hc.
    rewrite zlen_filled by lia. split; [| done].
    destruct (Z.ltb_spec c 0x20), (Z.ltb_spec 0x7e c); try done. lia.
Qed.

(** The text the loader passes, empty without the flag. *)
Definition has_flag (info : JoshBootInfo) (flag : Z) : Prop := Z.land (flags info) flag <> 0.

#[export] Instance has_flag_dec info flag : Decision (has_flag info flag).
Proof. unfold has_flag. apply _. Defined.

Definition line_text (m : bytemem) (info : JoshBootInfo) : list Z :=
  if decide (has_flag info JOSH_BOOT_FLAG_CMDLINE) then raw_chars (Z.to_nat (command_line_length info)) 0 m (command_line_address info) else [].

Record line_ok (m : bytemem) (info : JoshBootInfo) : Prop := {
  line_given : has_flag info JOSH_BOOT_FLAG_CMDLINE -> command_line_address info <> 0 /\ 0 < command_line_length info <= 127;
  line_printable : Forall printable (line_text m info)
}.

Lemma copy_command_line_spec m c info :
  zlen (command_line c) = 128 -> 0 <= command_line_length info ->
  exists st c', copy_command_line m c info = Some (st, c') /\ (st = BOOT_OK <-> line_ok m info) /\
    (exists l, c' = set_command_line c l /\ zlen l = 128 /\ (st = BOOT_OK -> exists rest, l = line_text m info ++ 0 :: rest)).
Proof.
  intros H128 Hlen. unfold copy_command_line. assert (wr (command_line c) 0 0 = Some (filled (command_line c) [0])) as ->.
  { pose proof (wr_filled (command_line c) [] 0) as Hw. rewrite filled_nil in Hw. apply Hw. by rewrite H128. }
  cbn [mbind option_bind]. assert (forall xs, zlen xs <= 128 -> zlen (filled (filled (command_line c) [0]) xs) = 128) as Hz.
  { intros xs Hx. rewrite !zlen_filled; rewrite ?zlen_filled; rewrite ?H128; done. }
  unfold line_text. destruct (decide (has_flag info JOSH_BOOT_FLAG_CMDLINE)) as [Hf | Hf]; unfold has_flag in Hf.
  2: { assert (Z.land (flags info) JOSH_BOOT_FLAG_CMDLINE = 0) as -> by lia. eexists _, _. split; [done |]. split.
    - split; [intros _ | done]. split; [intros Hc; unfold has_flag in Hc; lia |]. unfold line_text. rewrite decide_False by done. constructor.
    - exists (filled (command_line c) [0]). split; [done |]. split; [by apply (Hz []) |]. intros _. by eexists. }
  rewrite (proj2 (Z.eqb_neq _ 0) Hf). unfold BOOT_COMMAND_LINE_MAX. if_case; bool_cases.
  - eexists _, _. split; [done |]. split; [split; [done |] | exists (filled (command_line c) [0]); split; [done |]; split; [by apply (Hz []) | done]].
    intros [Hg _]. destruct (Hg Hf). rewrite !orb_true_iff, !Z.eqb_eq, Z.ltb_lt in E. lia.
  - cbn [command_line set_command_line].
    pose proof (line_loop_spec (Z.to_nat (command_line_length info)) m (command_line_address info) (filled (command_line c) [0]) [] ltac:(by apply (Hz [])) ltac:(unfold zlen; cbn; lia)) as Hl.
    cbv zeta in Hl. rewrite filled_nil in Hl. change (zlen []) with 0 in Hl. cbn [app] in Hl. set (cs := raw_chars _ _ _ _) in *.
    assert (length cs = Z.to_nat (command_line_length info)) as Hcs by apply raw_chars_length.
    destruct (decide (Forall printable cs)) as [Hp | Hp].
    + rewrite Hl. cbn [mbind option_bind command_line set_command_line]. replace (command_line_length info) with (zlen cs) by (unfold zlen; lia).
      rewrite wr_filled by (rewrite zlen_filled; rewrite H128; [unfold zlen; lia | done]). cbn [mbind option_bind]. eexists _, _. split; [done |]. split.
      * split; [intros _ | done]. split; [lia |]. unfold line_text. by rewrite decide_True.
      * eexists. split; [done |]. split; [apply Hz; rewrite zlen_app; unfold zlen; cbn; lia |]. intros _. unfold filled. rewrite <- app_assoc. by eexists.
    + destruct Hl as (l' & -> & Hl'). cbn [mbind option_bind]. eexists _, _. split; [done |]. split; [| by exists l'].
      split; [done |]. intros [_ Hc]. unfold line_text in Hc. by rewrite decide_True in Hc.
Qed.

(** ** The framebuffer *)

Definition mask_ok (size shift : Z) : Prop := 0 < size /\ shift < 32 /\ size + shift <= 32.

Record framebuffer_ok (fb : JoshFramebufferInfo) : Prop := {
  fbok_address : 0 < fb_address fb;
  fbok_depth : fb_bpp fb = 32;
  fbok_size : 0 < fb_width fb /\ 0 < fb_height fb;
  fbok_pitch : 4 * fb_width fb <= fb_pitch fb /\ fb_pitch fb mod 4 = 0;
  fbok_end : fb_address fb + fb_pitch fb * fb_height fb <= FOUR_GIB;
  fbok_red : mask_ok (fb_red_mask_size fb) (fb_red_mask_shift fb);
  fbok_green : mask_ok (fb_green_mask_size fb) (fb_green_mask_shift fb);
  fbok_blue : mask_ok (fb_blue_mask_size fb) (fb_blue_mask_shift fb)
}.

Lemma mask_valid_spec size shift : 0 <= size < 2 ^ 32 -> 0 <= shift < 2 ^ 32 -> mask_valid size shift = true <-> mask_ok size shift.
Proof.
  intros Hs Hh. unfold mask_valid, mask_ok. if_case; bool_cases.
  - rewrite !orb_true_iff, Z.eqb_eq, Z.ltb_lt, Z.leb_le in E. split; [done | lia].
  - rewrite u32_small, Z.leb_le by lia. lia.
Qed.

Lemma validate_framebuffer_spec m a : validate_framebuffer (framebuffer_at m a) = BOOT_OK <-> framebuffer_ok (framebuffer_at m a).
Proof.
  set (fb := framebuffer_at m a).
  assert (0 <= fb_address fb < 2 ^ 64) as Ha by apply (ld_range 8). assert (0 <= fb_width fb < 2 ^ 32) as Hw by apply (ld_range 4).
  assert (0 <= fb_height fb < 2 ^ 32) as Hh by apply (ld_range 4). assert (0 <= fb_pitch fb < 2 ^ 32) as Hp by apply (ld_range 4).
  pose proof (mask_valid_spec (fb_red_mask_size fb) (fb_red_mask_shift fb) (ld_range 4 _ _) (ld_range 4 _ _)) as Hr.
  pose proof (mask_valid_spec (fb_green_mask_size fb) (fb_green_mask_shift fb) (ld_range 4 _ _) (ld_range 4 _ _)) as Hg.
  pose proof (mask_valid_spec (fb_blue_mask_size fb) (fb_blue_mask_shift fb) (ld_range 4 _ _) (ld_range 4 _ _)) as Hb.
  assert (0 <= fb_pitch fb * fb_height fb < 2 ^ 64) as Hph by nia.
  unfold validate_framebuffer. destruct (Z.eqb_spec (fb_address fb) 0) as [E0 | E0]; [split; [done | intros []; lia] |].
  if_case; [rewrite !orb_true_iff, negb_true_iff, !Z.eqb_eq, Z.eqb_neq in E; split; [done | intros []; nia] | bool_cases].
  change (UINT32_MAX / 4) with 1073741823. change 3 with (2 ^ 2 - 1). rewrite land_low_mask by lia. change (2 ^ 2) with 4.
  if_case.
  { split; [done |]. intros []. rewrite !orb_true_iff, negb_true_iff, Z.eqb_neq, !Z.ltb_lt in E. destruct E as [[? | E] | ?]; [lia | | lia].
    rewrite u32_small in E by lia. lia. }
  bool_cases. rewrite u32_small in * by lia. unfold FOUR_GIB. rewrite (u64_small (fb_pitch fb * fb_height fb)) by lia.
  destruct (Z.leb_spec 4294967296 (fb_address fb)) as [? | Ha4]; [cbn [orb]; split; [done | intros []; unfold FOUR_GIB in *; lia] |].
  cbn [orb]. rewrite u64_small by lia. destruct (Z.ltb_spec (4294967296 - fb_address fb) (fb_pitch fb * fb_height fb)) as [? | He]; [split; [done | intros []; unfold FOUR_GIB in *; lia] |].
  destruct (mask_valid (fb_red_mask_size fb) _), (mask_valid (fb_green_mask_size fb) _), (mask_valid (fb_blue_mask_size fb) _); cbn [negb orb];
    (split; [try done; intros _ | intros []; intuition congruence]).
  split; try tauto; unfold FOUR_GIB; lia.
Qed.

(** ** The whole adapter *)

Definition info_entries (m : bytemem) (info : JoshBootInfo) : list JoshMemoryMapEntry :=
  kept (raw_entries (Z.to_nat (memory_map_entries info)) 0 m info).

Record map_ok (m : bytemem) (info : JoshBootInfo) : Prop := {
  map_address : memory_map_address info <> 0;
  map_entries : 0 < memory_map_entries info <= 128;
  map_entry_size : 24 <= memory_map_entry_size info <= 4096;
  map_fit : Forall entry_fits (info_entries m info);
  map_nonempty : info_entries m info <> []
}.

(** The information the protocol asks for. *)
Record info_ok (m : bytemem) (a : Z) : Prop := {
  ok_header : a <> 0 /\ magic (info_at m a) = JOSH_BOOT_INFO_MAGIC /\ abi_major (info_at m a) = 0 /\ 1 <= abi_minor (info_at m a) /\ 224 <= total_size (info_at m a);
  ok_flags : Z.land (flags (info_at m a)) 3 = 3;
  ok_kernel : info_kernel_phys_start (info_at m a) < info_kernel_phys_end (info_at m a) /\
    info_kernel_virt_start (info_at m a) < info_kernel_virt_end (info_at m a) /\ kernel_entry (info_at m a) <> 0;
  ok_map : map_ok m (info_at m a);
  ok_framebuffer : framebuffer_ok (info_framebuffer (info_at m a));
  ok_rsdp : has_flag (info_at m a) JOSH_BOOT_FLAG_RSDP -> info_rsdp_phys (info_at m a) <> 0;
  ok_smbios : has_flag (info_at m a) JOSH_BOOT_FLAG_SMBIOS -> info_smbios_phys (info_at m a) <> 0;
  ok_line : line_ok m (info_at m a)
}.

(** The arrays of the context have their sizes. *)
Record context_typed (c : boot_context_t) : Prop := {
  typed_map : zlen (memory_map c) = 128 /\ Forall region_ok (memory_map c);
  typed_line : zlen (command_line c) = 128
}.

Lemma raw_length n i m info : zlen (kept (raw_entries n i m info)) <= Z.of_nat n.
Proof.
  unfold kept, zlen. etransitivity; [apply Nat2Z.inj_le, length_filter |]. apply Nat2Z.inj_le. revert i. induction n as [| n IH]; intros i; [done |]. cbn.
  specialize (IH (i + 1)). lia.
Qed.

Lemma copy_memory_map_spec m c a :
  context_typed c -> let info := info_at m a in
  exists st c' u, copy_memory_map m c info 0 = Some (st, c', u) /\ (st = BOOT_OK <-> map_ok m info) /\
    (st = BOOT_OK -> let rs := convert <$> info_entries m info in
      c' = set_memory_map c (filled (memory_map c) rs) (zlen rs) /\ zlen rs <= 128 /\ u = Z.min UINT64_MAX (usable_sum rs)).
Proof.
  intros [[Hm _] _] info. unfold copy_memory_map, JOSH_BOOT_MAX_MEMORY_ENTRIES, BOOT_MEMORY_MAX_ENTRIES, sizeof_entry.
  assert (0 <= memory_map_entries info < 2 ^ 32) as Hn by apply (ld_range 4). if_case.
  { eexists _, _, _. split; [done |]. split; [split; [done |] | done]. intros []. rewrite !orb_true_iff, !Z.eqb_eq, !Z.ltb_lt in E. lia. }
  bool_cases. pose proof (map_loop_spec (Z.to_nat (memory_map_entries info)) 0 m info c [] 0 Hm) as Hl. cbn [app] in Hl. rewrite filled_nil in Hl. change (zlen []) with 0 in Hl.
  specialize (Hl ltac:(lia) ltac:(unfold UINT64_MAX; lia)). cbv zeta in Hl. fold (info_entries m info) in Hl.
  pose proof (raw_length (Z.to_nat (memory_map_entries info)) 0 m info) as Hrl. fold (info_entries m info) in Hrl. set (es := info_entries m info) in *.
  assert (zlen (convert <$> es) = zlen es) as El by (unfold zlen; by rewrite length_fmap).
  destruct (decide (Forall entry_fits es)) as [Hf | Hf].
  - rewrite Hl. cbn [mbind option_bind memory_map_count set_memory_map]. rewrite El. destruct (Z.eqb_spec (zlen es) 0) as [E0 | E0].
    + eexists _, _, _. split; [done |]. split; [split; [done |] | done]. intros Hok. exfalso. apply (map_nonempty _ _ Hok). apply length_zero_iff_nil. fold es. unfold zlen in E0. lia.
    + eexists _, _, _. split; [done |]. split; [split; [intros _ | done] |].
      * split; [done | lia | lia | done |]. intros Ee. apply E0. unfold es. by rewrite Ee.
      * intros _. split; [done |]. split; [lia | done].
  - destruct Hl as (c' & u & ->). cbn [mbind option_bind]. eexists _, _, _. split; [done |]. split; [split; [done |] | done]. by intros [].
Qed.

(** Entries copied from the protocol data are well typed and fit. *)
Lemma converted_ok m info : Forall entry_fits (info_entries m info) ->
  Forall region_ok (convert <$> info_entries m info) /\ Forall (fun r => base r + length_ r < 2 ^ 64) (convert <$> info_entries m info).
Proof.
  intros Hf. pose proof (raw_range (Z.to_nat (memory_map_entries info)) 0 m info) as Hr. fold (info_entries m info) in Hr.
  split; apply Forall_fmap; [eapply Forall_impl; [exact Hr |] | exact Hf]. intros e [? ?]. unfold region_ok. cbn. lia.
Qed.

Lemma forall_filled {A} (P : A -> Prop) l xs : Forall P l -> Forall P xs -> Forall P (filled l xs).
Proof. intros Hl Hx. apply Forall_app. split; [done |]. by apply Forall_drop. Qed.

(** The context after success, given what was copied. *)
Lemma josh_context_ok m c a line rest :
  context_typed c -> info_ok m a -> line = line_text m (info_at m a) ++ 0 :: rest ->
  let info := info_at m a in
  let rs := convert <$> info_entries m info in
  let c' := josh_context (set_command_line (set_memory_map c (filled (memory_map c) rs) (zlen rs)) line) info (Z.min UINT64_MAX (usable_sum rs)) in
  zlen rs <= 128 -> boot_context_ok c' /\ regions c' = rs /\ regions_fit c'.
Proof.
  intros [[Hm Hr] _] Hok _ info rs c' Hlen. destruct (converted_ok m info (map_fit _ _ (ok_map _ _ Hok))) as [Hc Hfit]. fold rs in Hc, Hfit.
  assert (regions c' = rs) as Er.
  { unfold regions, c', josh_context. cbn [memory_map memory_map_count set_command_line set_memory_map]. unfold zlen. rewrite Nat2Z.id. apply take_filled. }
  pose proof (zlen_nonneg rs).
  split; [| split; [done | unfold regions_fit; by rewrite Er]]. unfold boot_context_ok, c', josh_context, BOOT_MEMORY_MAX_ENTRIES, FOUR_GIB.
  cbn [memory_map memory_map_count set_command_line set_memory_map physical_memory_offset physical_memory_limit framebuffer_phys_start framebuffer_phys_end
    kernel_phys_start kernel_phys_end kernel_virt_start kernel_virt_end].
  split; [by rewrite zlen_filled, Hm by lia |]. split; [by apply forall_filled |]. split; [lia |]. split; [lia |]. split; [lia |]. split; [apply (ld_range 8) |].
  split; [apply u64_range |]. do 3 (split; [apply (ld_range 8) |]). apply (ld_range 8).
Qed.

Lemma boot_josh_spec m c a :
  context_typed c ->
  exists st c', boot_josh_context_init m c a = Some (st, c') /\ (st = BOOT_OK <-> info_ok m a) /\
    (st = BOOT_OK -> let info := info_at m a in
      boot_context_ok c' /\ regions_fit c' /\ regions c' = convert <$> info_entries m info /\
      kernel_phys_start c' < kernel_phys_end c' /\ kernel_virt_start c' < kernel_virt_end c' /\
      framebuffer_phys_start c' < framebuffer_phys_end c' <= physical_memory_limit c' /\
      usable_memory_mib c' = Z.min UINT64_MAX (usable_sum (regions c')) / 2 ^ 20 /\
      exists rest, command_line c' = line_text m info ++ 0 :: rest).
Proof.
  intros Hc. unfold boot_josh_context_init. destruct (Z.eqb_spec a 0) as [E0 | E0].
  { eexists _, _. split; [done |]. split; [split; [done | intros []; tauto] | done]. }
  set (info := info_at m a). unfold JOSH_BOOT_ABI_MAJOR, JOSH_BOOT_ABI_MINOR, sizeof_info. if_case.
  { eexists _, _. split; [done |]. split; [split; [done |] | done]. intros Hok. destruct (ok_header _ _ Hok) as (_ & H1 & H2 & H3 & H4). fold info in H1, H2, H3, H4.
    rewrite !orb_true_iff, !negb_true_iff, !Z.eqb_neq, !Z.ltb_lt in E. lia. }
  bool_cases. change (Z.lor JOSH_BOOT_FLAG_MEMORY_MAP JOSH_BOOT_FLAG_FRAMEBUFFER) with 3. destruct (Z.eqb_spec (Z.land (flags info) 3) 3) as [Hfl | Hfl]; cbn [negb].
  2: { eexists _, _. split; [done |]. split; [split; [done |] | done]. intros Hok. exfalso. apply Hfl, (ok_flags _ _ Hok). }
  if_case.
  { eexists _, _. split; [done |]. split; [split; [done |] | done]. intros Hok. destruct (ok_kernel _ _ Hok) as (K1 & K2 & K3). fold info in K1, K2, K3.
    rewrite !orb_true_iff, !Z.leb_le, Z.eqb_eq in E. lia. }
  bool_cases. destruct (copy_memory_map_spec m c a Hc) as (st & c1 & u & E1 & Hst & Hres). fold info in E1, Hst, Hres. rewrite E1. cbn [mbind option_bind].
  destruct st; try (eexists _, _; split; [done |]; split; [split; [done |]; intros Hok; pose proof (proj2 Hst (ok_map _ _ Hok)); done | done]).
  destruct (Hres eq_refl) as (-> & Hlen & ->). pose proof (validate_framebuffer_spec m (a + 48)) as Hv. change (framebuffer_at m (a + 48)) with (info_framebuffer info) in Hv.
  destruct (validate_framebuffer (info_framebuffer info)) eqn:Ef;
    try (eexists _, _; split; [done |]; split; [split; [done |]; intros Hok; pose proof (proj2 Hv (ok_framebuffer _ _ Hok)); done | done]).
  destruct (negb (Z.land (flags info) JOSH_BOOT_FLAG_RSDP =? 0) && (info_rsdp_phys info =? 0)) eqn:Er.
  { eexists _, _. split; [done |]. split; [split; [done |] | done]. intros Hok. bool_cases. by destruct (ok_rsdp _ _ Hok). }
  destruct (negb (Z.land (flags info) JOSH_BOOT_FLAG_SMBIOS =? 0) && (info_smbios_phys info =? 0)) eqn:Es.
  { eexists _, _. split; [done |]. split; [split; [done |] | done]. intros Hok. bool_cases. by destruct (ok_smbios _ _ Hok). }
  set (c2 := set_memory_map c _ _). destruct (copy_command_line_spec m c2 info (typed_line _ Hc)) as (st & c3 & E3 & Hst3 & line & -> & Hl128 & Hline); [apply (ld_range 4) |].
  rewrite E3. cbn [mbind option_bind].
  destruct st; try (eexists _, _; split; [done |]; split; [split; [done |]; intros Hok; pose proof (proj2 Hst3 (ok_line _ _ Hok)); done | done]).
  assert (info_ok m a) as Hok.
  { split; [done | done | fold info; lia | by apply Hst | by apply Hv | | | by apply Hst3]; intros Hfl' E'; unfold has_flag in Hfl'; fold info in Hfl', E'.
    - rewrite E', (proj2 (Z.eqb_neq _ 0) Hfl') in Er. done.
    - rewrite E', (proj2 (Z.eqb_neq _ 0) Hfl') in Es. done. }
  eexists _, _. split; [done |]. split; [done |]. intros _. destruct (Hline eq_refl) as [rest El].
  destruct (josh_context_ok m c a line rest Hc Hok El Hlen) as (B1 & B2 & B3). fold info c2 in B1, B2, B3. do 2 (split; [done |]). split; [done |].
  split; [change (info_kernel_phys_start info < info_kernel_phys_end info); lia |]. split; [change (info_kernel_virt_start info < info_kernel_virt_end info); lia |].
  split; [| split; [by rewrite B2 | by exists rest]].
  destruct (ok_framebuffer _ _ Hok) as [Ha _ Hs Hp He _ _ _]. fold info in Ha, Hs, Hp, He. unfold josh_context, FOUR_GIB in *. cbn [framebuffer_phys_start framebuffer_phys_end physical_memory_limit].
  assert (0 < fb_pitch (info_framebuffer info) * fb_height (info_framebuffer info)) by nia. rewrite !u64_small by (rewrite ?u64_small by lia; lia). lia.
Qed.

(** C23. The adapter never leaves its buffers.  It succeeds exactly on the data the
    protocol asks for, and then the context has the regions of the map in
    order, none wrapping around, satisfies what the frame allocator and paging
    require, has a framebuffer below the reachable limit, and holds the
    loader's command line, terminated. *)
Theorem boot_josh_correct m c a :
  context_typed c ->
  exists st c', boot_josh_context_init m c a = Some (st, c') /\ (st = BOOT_OK <-> info_ok m a) /\
    (st = BOOT_OK -> let info := info_at m a in
      boot_context_ok c' /\ regions_fit c' /\ regions c' = convert <$> info_entries m info /\
      kernel_phys_start c' < kernel_phys_end c' /\ kernel_virt_start c' < kernel_virt_end c' /\
      framebuffer_phys_start c' < framebuffer_phys_end c' <= physical_memory_limit c' /\
      usable_memory_mib c' = Z.min UINT64_MAX (usable_sum (regions c')) / 2 ^ 20 /\
      exists rest, command_line c' = line_text m info ++ 0 :: rest).
Proof. apply boot_josh_spec. Qed.

(** ** A concrete loader

    One usable region, an entry of no length and the command line [hi]. *)

Definition example_memory : bytemem :=
  let put n a v m := st n m a v in
  put 8%nat 0x1000 JOSH_BOOT_INFO_MAGIC (put 4%nat 0x100c 1 (put 4%nat 0x1010 224 (put 4%nat 0x1014 (1 + 2 + 16)
  (put 8%nat 0x1020 0x2000 (put 4%nat 0x1028 2 (put 4%nat 0x102c 24
  (put 8%nat 0x1030 0xe0000000 (put 4%nat 0x1038 640 (put 4%nat 0x103c 480 (put 4%nat 0x1040 2560 (put 4%nat 0x1044 32
  (put 4%nat 0x1048 8 (put 4%nat 0x104c 16 (put 4%nat 0x1050 8 (put 4%nat 0x1054 8 (put 4%nat 0x1058 8 (put 4%nat 0x105c 0
  (put 8%nat 0x1060 0x200000 (put 8%nat 0x1068 0x300000 (put 8%nat 0x1070 0x200000 (put 8%nat 0x1078 0x300000
  (put 8%nat 0x1090 0x3000 (put 4%nat 0x1098 2 (put 8%nat 0x10b0 0x200000
  (put 8%nat 0x2018 0x100000 (put 8%nat 0x2020 0x4000000 (put 4%nat 0x2028 1
  (put 2%nat 0x3000 0x6968 (∅ : gmap Z Z))))))))))))))))))))))))))))).

Definition blank_context : boot_context_t :=
  mk_boot_context (mk_framebuffer 0 0 0 0 0 0 0 0 0 0 0) (replicate 128 (mk_region 0 0 BOOT_MEMORY_RESERVED 0)) 0 0 0 0 0 0 0 0 0 0 0 0 (replicate 128 0).

Lemma blank_typed : context_typed blank_context.
Proof. split; [split; [done |] | done]. apply Forall_replicate. split; cbn; lia. Qed.

Lemma boot_josh_correct_witness :
  exists c, boot_josh_context_init example_memory blank_context 0x1000 = Some (BOOT_OK, c) /\ boot_context_ok c /\
    regions c = [mk_region 0x100000 0x4000000 BOOT_MEMORY_USABLE 0].
Proof.
  assert (fst <$> boot_josh_context_init example_memory blank_context 0x1000 = Some BOOT_OK) as Hst by (vm_compute; reflexivity).
  destruct (boot_josh_correct example_memory blank_context 0x1000 blank_typed) as (st & c & E & _ & H). rewrite E in Hst. injection Hst as ->.
  destruct (H eq_refl) as (Hok & _ & Hr & _). exists c. split; [exact E |]. split; [exact Hok |]. rewrite Hr. vm_compute. reflexivity.
Defined.
