(* ===== verification/BootLimine.v ===== *)
(** * Booting through Limine (kernel/src/boot_limine.c, boot.c)

    The responses of the Limine boot loader are records whose fields hold
    values of their C types; a pointer that may be null is an [option] or 0.
    The constants of limine.h and the linker's symbols are parameters. *)

From stdpp Require Import base numbers list gmap.
From Stdlib Require Import ZArith Lia.
From S2P Require Import Prelude Bytes Boot ByteMem BootJosh.

#[local] Open Scope Z_scope.

Definition BOOT_PHYSICAL_UNLIMITED : Z := UINT64_MAX.

(** ** The responses *)

Record limine_framebuffer := mk_limine_framebuffer {
  lf_address : Z;
  lf_width : Z;
  lf_height : Z;
  lf_pitch : Z;
  lf_bpp : Z;
  lf_memory_model : Z;
  lf_red_mask_size : Z;
  lf_red_mask_shift : Z;
  lf_green_mask_size : Z;
  lf_green_mask_shift : Z;
  lf_blue_mask_size : Z;
  lf_blue_mask_shift : Z
}.

Record limine_memmap_entry := mk_limine_entry { le_base : Z; le_length : Z; le_type : Z }.

Record framebuffer_response := mk_framebuffer_response { framebuffer_count : Z; framebuffers : list (option limine_framebuffer) }.
Record memmap_response := mk_memmap_response { entry_count : Z; entries : list (option limine_memmap_entry) }.
Record executable_response := mk_executable_response { physical_base : Z; virtual_base : Z }.
Record smbios_response := mk_smbios_response { entry_32 : Z; entry_64 : Z }.

Record limine := mk_limine {
  base_revision_supported : bool;
  framebuffer_request : option framebuffer_response;
  memmap_request : option memmap_response;
  hhdm_request : option Z;
  executable_address_request : option executable_response;
  rsdp_request : option Z;
  smbios_request : option smbios_response
}.

Section Limine.
Context (LIMINE_FRAMEBUFFER_RGB LIMINE_MEMMAP_USABLE LIMINE_MEMMAP_FRAMEBUFFER : Z) (kernel_start kernel_end : Z).

Definition limine_mask_valid (size shift : Z) : bool :=
  if (size =? 0) || (32 <? size) || (32 <=? shift) then false else size + shift <=? 32.

Definition framebuffer_valid (fb : option limine_framebuffer) : bool :=
  match fb with
  | None => false
  | Some fb =>
      if lf_address fb =? 0 then false
      else if negb (lf_memory_model fb =? LIMINE_FRAMEBUFFER_RGB) || negb (lf_bpp fb =? 32) then false
      else if (lf_width fb =? 0) || (lf_height fb =? 0) || (lf_pitch fb =? 0) then false
      else if UINT64_MAX / 4 <? lf_width fb then false
      else
        let minimum_pitch := u64 (lf_width fb * 4) in
        if (lf_pitch fb <? minimum_pitch) || negb (Z.land (lf_pitch fb) 3 =? 0) then false
        else if UINT64_MAX / lf_pitch fb <? lf_height fb then false
        else if negb (limine_mask_valid (lf_red_mask_size fb) (lf_red_mask_shift fb)) ||
                negb (limine_mask_valid (lf_green_mask_size fb) (lf_green_mask_shift fb)) ||
                negb (limine_mask_valid (lf_blue_mask_size fb) (lf_blue_mask_shift fb)) then false
        else true
  end.

Definition pointer_to_phys (pointer hhdm_offset : Z) : Z :=
  if pointer =? 0 then 0 else if pointer <? hhdm_offset then 0 else u64 (pointer - hhdm_offset).

(** The entries from [i] on, of which [n] are left; [None] for two matches. *)
Fixpoint find_loop (n : nat) (i : Z) (l : list (option limine_memmap_entry)) (bytes : Z) (found : option limine_memmap_entry) :
    option (option (option limine_memmap_entry)) :=
  match n with
  | O => Some (Some found)
  | S n =>
      entry ← rd l i;
      match entry with
      | None => find_loop n (i + 1) l bytes found
      | Some e =>
          if negb (le_type e =? LIMINE_MEMMAP_FRAMEBUFFER) || (le_length e <? bytes) || add_overflows_u64 (le_base e) bytes
          then find_loop n (i + 1) l bytes found
          else match found with
          | Some _ => Some None
          | None => find_loop n (i + 1) l bytes (Some e)
          end
      end
  end.

(** Result: the status and, on success, the start and the end. *)
Definition find_framebuffer_phys (response : option memmap_response) (fb : limine_framebuffer) : option (boot_status_t * Z * Z) :=
  match response with
  | None => Some (BOOT_NO_PHYSICAL_MAP, 0, 0)
  | Some r =>
      let bytes := u64 (lf_pitch fb * lf_height fb) in
      if bytes =? 0 then Some (BOOT_NO_PHYSICAL_MAP, 0, 0)
      else
        found ← find_loop (Z.to_nat (entry_count r)) 0 (entries r) bytes None;
        match found with
        | Some (Some e) => Some (BOOT_OK, le_base e, u64 (le_base e + bytes))
        | _ => Some (BOOT_NO_PHYSICAL_MAP, 0, 0)
        end
  end.

Fixpoint limine_map_loop (n : nat) (i : Z) (l : list (option limine_memmap_entry)) (c : boot_context_t) (usable_bytes : Z) :
    option (boot_status_t * boot_context_t * Z) :=
  match n with
  | O => Some (BOOT_OK, c, usable_bytes)
  | S n =>
      entry ← rd l i;
      match entry with
      | None => limine_map_loop n (i + 1) l c usable_bytes
      | Some e =>
          if le_length e =? 0 then limine_map_loop n (i + 1) l c usable_bytes
          else if add_overflows_u64 (le_base e) (le_length e) then Some (BOOT_INVALID_BOOT_INFO, c, usable_bytes)
          else
            let out := mk_region (le_base e) (le_length e)
              (if le_type e =? LIMINE_MEMMAP_USABLE then BOOT_MEMORY_USABLE else BOOT_MEMORY_RESERVED) 0 in
            map ← wr (memory_map c) (memory_map_count c) out;
            let c := set_memory_map c map (u32 (memory_map_count c + 1)) in
            let usable_bytes :=
              if bool_decide (type_ out = BOOT_MEMORY_USABLE) then
                if add_overflows_u64 usable_bytes (length_ out) then UINT64_MAX else u64 (usable_bytes + length_ out)
              else usable_bytes in
            limine_map_loop n (i + 1) l c usable_bytes
      end
  end.

(** The usable memory is returned in MiB. *)
Definition limine_copy_memory_map (response : option memmap_response) (c : boot_context_t) : option (boot_status_t * boot_context_t * Z) :=
  match response with
  | None => Some (BOOT_NO_MEMORY_MAP, c, usable_memory_mib c)
  | Some r =>
      if (entry_count r =? 0) || (BOOT_MEMORY_MAX_ENTRIES <? entry_count r) then Some (BOOT_NO_MEMORY_MAP, c, usable_memory_mib c)
      else
        '(status, c, usable_bytes) ← limine_map_loop (Z.to_nat (entry_count r)) 0 (entries r) (set_memory_map c (memory_map c) 0) 0;
        match status with
        | BOOT_OK =>
            if memory_map_count c =? 0 then Some (BOOT_NO_MEMORY_MAP, c, usable_memory_mib c)
            else Some (BOOT_OK, c, usable_bytes / (1024 * 1024))
        | _ => Some (status, c, usable_memory_mib c)
        end
  end.

(** The address is filled in later. *)
Definition set_framebuffer_info (c : boot_context_t) (fb : limine_framebuffer) : boot_context_t :=
  mk_boot_context
    (mk_framebuffer (address (framebuffer c)) (lf_width fb) (lf_height fb) (lf_pitch fb) (lf_bpp fb) (lf_red_mask_size fb) (lf_red_mask_shift fb)
      (lf_green_mask_size fb) (lf_green_mask_shift fb) (lf_blue_mask_size fb) (lf_blue_mask_shift fb))
    (memory_map c) (memory_map_count c) (usable_memory_mib c) (physical_memory_offset c) (physical_memory_limit c)
    (framebuffer_phys_start c) (framebuffer_phys_end c) (kernel_phys_start c) (kernel_phys_end c) (kernel_virt_start c)
    (kernel_virt_end c) (rsdp_phys c) (smbios_phys c) (command_line c).

Definition set_usable_mib (c : boot_context_t) (mib : Z) : boot_context_t :=
  mk_boot_context (framebuffer c) (memory_map c) (memory_map_count c) mib (physical_memory_offset c) (physical_memory_limit c)
    (framebuffer_phys_start c) (framebuffer_phys_end c) (kernel_phys_start c) (kernel_phys_end c) (kernel_virt_start c)
    (kernel_virt_end c) (rsdp_phys c) (smbios_phys c) (command_line c).

Definition set_framebuffer_place (c : boot_context_t) (address_ start end_ : Z) : boot_context_t :=
  let fb := framebuffer c in
  mk_boot_context
    (mk_framebuffer address_ (width fb) (height fb) (pitch fb) (bpp fb) (red_mask_size fb) (red_mask_shift fb)
      (green_mask_size fb) (green_mask_shift fb) (blue_mask_size fb) (blue_mask_shift fb))
    (memory_map c) (memory_map_count c) (usable_memory_mib c) (physical_memory_offset c) (physical_memory_limit c)
    start end_ (kernel_phys_start c) (kernel_phys_end c) (kernel_virt_start c) (kernel_virt_end c) (rsdp_phys c) (smbios_phys c) (command_line c).

Definition set_machine (c : boot_context_t) (offset : Z) (r : executable_response) (size rsdp smbios : Z) : boot_context_t :=
  mk_boot_context (framebuffer c) (memory_map c) (memory_map_count c) (usable_memory_mib c) offset BOOT_PHYSICAL_UNLIMITED
    (framebuffer_phys_start c) (framebuffer_phys_end c) (physical_base r) (u64 (physical_base r + size)) (virtual_base r)
    (u64 (virtual_base r + size)) rsdp smbios (command_line c).

(** From the memory map on. *)
Definition limine_finish (l : limine) (fb : limine_framebuffer) (offset : Z) (executable : executable_response) (c : boot_context_t) :
    option (boot_status_t * boot_context_t) :=
  '(status, c, mib) ← limine_copy_memory_map (memmap_request l) (set_framebuffer_info c fb);
  let c := set_usable_mib c mib in
  match status with
  | BOOT_OK =>
      '(status, start, end_) ← find_framebuffer_phys (memmap_request l) fb;
      match status with
      | BOOT_OK =>
          if add_overflows_u64 offset start
          then Some (BOOT_NO_PHYSICAL_MAP, set_framebuffer_place c (address (framebuffer c)) start end_)
          else
            let c := set_framebuffer_place c (u64 (offset + start)) start end_ in
            let kernel_size := u64 (kernel_end - kernel_start) in
            if (kernel_size =? 0) || add_overflows_u64 (physical_base executable) kernel_size ||
               add_overflows_u64 (virtual_base executable) kernel_size then Some (BOOT_INVALID_BOOT_INFO, c)
            else
              let rsdp := match rsdp_request l with Some a => pointer_to_phys a offset | None => 0 end in
              let smbios := match smbios_request l with
                            | Some r => pointer_to_phys (if entry_64 r =? 0 then entry_32 r else entry_64 r) offset
                            | None => 0
                            end in
              Some (BOOT_OK, set_machine c offset executable kernel_size rsdp smbios)
      | _ => Some (status, c)
      end
  | _ => Some (status, c)
  end.

Definition boot_limine_context_init (l : limine) (c : boot_context_t) : option (boot_status_t * boot_context_t) :=
  if negb (base_revision_supported l) then Some (BOOT_UNSUPPORTED_PROTOCOL, c)
  else match framebuffer_request l with
  | None => Some (BOOT_NO_FRAMEBUFFER, c)
  | Some fbs =>
      if framebuffer_count fbs <? 1 then Some (BOOT_NO_FRAMEBUFFER, c)
      else match hhdm_request l, executable_address_request l with
      | Some offset, Some executable =>
          pointer ← rd (framebuffers fbs) 0;
          match pointer with
          | Some fb => if negb (framebuffer_valid pointer) then Some (BOOT_UNSUPPORTED_FRAMEBUFFER, c) else limine_finish l fb offset executable c
          | None => Some (BOOT_UNSUPPORTED_FRAMEBUFFER, c)
          end
      | _, _ => Some (BOOT_NO_PHYSICAL_MAP, c)
      end
  end.

(** ** boot.c *)

Definition boot_context_init (m : bytemem) (l : limine) (c : boot_context_t) (loader_magic1 loader_magic2 loader_payload : Z) :
    option (boot_status_t * boot_context_t) :=
  if (loader_magic1 =? JOSH_LOADER_MAGIC1) && (loader_magic2 =? JOSH_LOADER_MAGIC2)
  then boot_josh_context_init m c loader_payload else boot_limine_context_init l c.

(** ** What the responses mean *)

Definition limine_regions (es : list (option limine_memmap_entry)) : list boot_memory_region_t :=
  omap (fun e => match e with
    | Some e => if le_length e =? 0 then None
        else Some (mk_region (le_base e) (le_length e) (if le_type e =? LIMINE_MEMMAP_USABLE then BOOT_MEMORY_USABLE else BOOT_MEMORY_RESERVED) 0)
    | None => None
    end) es.

Definition region_fits (r : boot_memory_region_t) : Prop := base r + length_ r < 2 ^ 64.

#[local] Instance region_fits_dec r : Decision (region_fits r).
Proof. unfold region_fits. apply _. Defined.

Definition entry_typed (e : option limine_memmap_entry) : Prop :=
  match e with Some e => 0 <= le_base e < 2 ^ 64 /\ 0 <= le_length e < 2 ^ 64 | None => True end.

(** The matches of the framebuffer's search. *)
Definition matches (bytes : Z) (e : option limine_memmap_entry) : option limine_memmap_entry :=
  match e with
  | Some e => if negb (le_type e =? LIMINE_MEMMAP_FRAMEBUFFER) || (le_length e <? bytes) || add_overflows_u64 (le_base e) bytes then None else Some e
  | None => None
  end.

Lemma framebuffer_loop_spec n i l bytes found :
  0 <= i -> i + Z.of_nat n <= zlen l ->
  find_loop n i l bytes found =
    Some (match found, omap (matches bytes) (take n (drop (Z.to_nat i) l)) with
          | f, [] => Some f
          | None, [e] => Some (Some e)
          | _, _ => None
          end).
Proof.
  revert i found. induction n as [| n IH]; intros i found Hi Hn; [by destruct found |]. cbn [find_loop].
  destruct (rd_in_range l i ltac:(lia)) as [e Ee]. rewrite Ee. cbn [mbind option_bind]. apply rd_lookup in Ee as [_ Ee].
  rewrite (drop_S l e) by done. cbn [take omap list_omap]. replace (S (Z.to_nat i)) with (Z.to_nat (i + 1)) by lia.
  destruct e as [e |]; cbn [matches]; [| rewrite IH by lia; done]. if_case; [rewrite IH by lia; done |].
  destruct found as [f |]; [done |]. rewrite IH by lia. by destruct (omap (matches bytes) _).
Qed.

Lemma usable_sum_nonneg rs : Forall region_ok rs -> 0 <= usable_sum rs.
Proof. induction 1 as [| r rs [_ Hr] _ IH]; [done |]. cbn [usable_sum foldr]. fold (usable_sum rs). case_match; lia. Qed.

Lemma limine_regions_ok es : Forall entry_typed es -> Forall region_ok (limine_regions es).
Proof.
  induction 1 as [| e es He _ IH]; [constructor |]. unfold limine_regions. cbn [omap list_omap]. fold (limine_regions es).
  destruct e as [e |]; [| done]. destruct (le_length e =? 0); [done |]. by constructor.
Qed.

Lemma limine_regions_length es : zlen (limine_regions es) <= zlen es.
Proof.
  induction es as [| e es IH]; [done |]. unfold limine_regions. cbn [omap list_omap]. fold (limine_regions es). rewrite zlen_cons.
  destruct e as [e |]; [| lia]. destruct (le_length e =? 0); [lia |]. rewrite zlen_cons. lia.
Qed.

Lemma limine_map_loop_spec n i l c0 rs acc :
  zlen (memory_map c0) = 128 -> Forall entry_typed l -> 0 <= i -> i + Z.of_nat n <= zlen l -> zlen rs + Z.of_nat n <= 128 -> 0 <= acc <= UINT64_MAX ->
  let new := limine_regions (take n (drop (Z.to_nat i) l)) in
  if decide (Forall region_fits new) then
    limine_map_loop n i l (set_memory_map c0 (filled (memory_map c0) rs) (zlen rs)) acc =
      Some (BOOT_OK, set_memory_map c0 (filled (memory_map c0) (rs ++ new)) (zlen (rs ++ new)), Z.min UINT64_MAX (acc + usable_sum new))
  else exists l' k u, limine_map_loop n i l (set_memory_map c0 (filled (memory_map c0) rs) (zlen rs)) acc = Some (BOOT_INVALID_BOOT_INFO, set_memory_map c0 l' k, u).
Proof.
  intros H128 Hty. revert i rs acc. induction n as [| n IH]; intros i rs acc Hi Hl Hn Hacc new.
  { assert (new = []) as -> by done. rewrite decide_True by constructor. rewrite app_nil_r. change (usable_sum []) with 0. cbn [limine_map_loop]. do 3 f_equal. lia. }
  unfold new. clear new. cbn [limine_map_loop]. destruct (rd_in_range l i ltac:(lia)) as [e Ee]. rewrite Ee. cbn [mbind option_bind]. apply rd_lookup in Ee as [_ Ee].
  assert (entry_typed e) as He by (rewrite Forall_forall in Hty; apply Hty; by eapply list_elem_of_lookup_2).
  rewrite (drop_S l e) by done. cbn [take]. unfold limine_regions. cbn [omap list_omap]. fold (limine_regions (take n (drop (S (Z.to_nat i)) l))).
  replace (S (Z.to_nat i)) with (Z.to_nat (i + 1)) by lia. destruct e as [e |]; [| apply IH; lia || done].
  destruct (Z.eqb_spec (le_length e) 0) as [E0 | E0]; [apply IH; lia || done |]. destruct He as [Hb Hle].
  unfold add_overflows_u64, UINT64_MAX in *. set (r := mk_region _ _ _ _) in *. destruct (Z.ltb_spec (18446744073709551615 - le_base e) (le_length e)) as [Hov | Hfit].
  { rewrite decide_False by (intros [Hf _]%Forall_cons; unfold region_fits in Hf; cbn in Hf; lia). by eexists _, _, _. }
  cbn [memory_map_count set_memory_map memory_map]. pose proof (zlen_nonneg rs). rewrite wr_filled by lia. cbn [mbind option_bind].
  change (set_memory_map (set_memory_map c0 _ _) ?l ?k) with (set_memory_map c0 l k).
  rewrite u32_small by lia. replace (zlen rs + 1) with (zlen (rs ++ [r])) by (rewrite zlen_app; done).
  set (acc' := if bool_decide _ then _ else acc).
  assert (0 <= acc' <= 18446744073709551615 /\ acc' = Z.min 18446744073709551615 (acc + (if bool_decide (type_ r = BOOT_MEMORY_USABLE) then le_length e else 0))) as [Ha Ha'].
  { unfold acc'. change (length_ r) with (le_length e). repeat case_match; bool_cases; no_wrap; lia. }
  specialize (IH (i + 1) (rs ++ [r]) acc' ltac:(lia) ltac:(lia) ltac:(rewrite zlen_app; unfold zlen in *; cbn; lia) Ha). cbv zeta in IH. rewrite <- app_assoc in IH. cbn [app] in IH.
  pose proof (usable_sum_nonneg _ (limine_regions_ok (take n (drop (Z.to_nat (i + 1)) l)) ltac:(by apply Forall_take, Forall_drop))) as Hu.
  set (rest := limine_regions (take n (drop (Z.to_nat (i + 1)) l))) in *. destruct (decide (Forall region_fits rest)) as [Hf | Hf].
  - rewrite decide_True by (constructor; [unfold region_fits; cbn; lia | done]). rewrite IH. do 2 f_equal.
    cbn [usable_sum foldr]. fold (usable_sum rest). change (length_ r) with (le_length e). lia.
  - rewrite decide_False by (by intros [_ ?]%Forall_cons). exact IH.
Qed.

Record lf_typed (fb : limine_framebuffer) : Prop := {
  lft_width : 0 <= lf_width fb < 2 ^ 64;
  lft_height : 0 <= lf_height fb < 2 ^ 64;
  lft_pitch : 0 <= lf_pitch fb < 2 ^ 64;
  lft_masks : Forall (fun v => 0 <= v < 256) [lf_red_mask_size fb; lf_red_mask_shift fb; lf_green_mask_size fb; lf_green_mask_shift fb; lf_blue_mask_size fb; lf_blue_mask_shift fb]
}.

Record lf_ok (fb : limine_framebuffer) : Prop := {
  lfok_address : lf_address fb <> 0;
  lfok_format : lf_memory_model fb = LIMINE_FRAMEBUFFER_RGB /\ lf_bpp fb = 32;
  lfok_size : 0 < lf_width fb /\ 0 < lf_height fb;
  lfok_pitch : 4 * lf_width fb <= lf_pitch fb /\ lf_pitch fb mod 4 = 0;
  lfok_bytes : lf_pitch fb * lf_height fb < 2 ^ 64;
  lfok_red : mask_ok (lf_red_mask_size fb) (lf_red_mask_shift fb);
  lfok_green : mask_ok (lf_green_mask_size fb) (lf_green_mask_shift fb);
  lfok_blue : mask_ok (lf_blue_mask_size fb) (lf_blue_mask_shift fb)
}.

Lemma limine_mask_spec size shift : 0 <= size -> 0 <= shift -> limine_mask_valid size shift = true <-> mask_ok size shift.
Proof.
  intros Hs Hh. unfold limine_mask_valid, mask_ok. if_case; bool_cases.
  - rewrite !orb_true_iff, Z.eqb_eq, Z.ltb_lt, Z.leb_le in E. split; [done | lia].
  - rewrite Z.leb_le. lia.
Qed.

Lemma framebuffer_valid_spec fb : lf_typed fb -> framebuffer_valid (Some fb) = true <-> lf_ok fb.
Proof.
  intros [Hw Hh Hp Hm]. repeat (apply Forall_cons in Hm as [? Hm]).
  pose proof (limine_mask_spec (lf_red_mask_size fb) (lf_red_mask_shift fb) ltac:(lia) ltac:(lia)) as Hr.
  pose proof (limine_mask_spec (lf_green_mask_size fb) (lf_green_mask_shift fb) ltac:(lia) ltac:(lia)) as Hg.
  pose proof (limine_mask_spec (lf_blue_mask_size fb) (lf_blue_mask_shift fb) ltac:(lia) ltac:(lia)) as Hb.
  unfold framebuffer_valid. destruct (Z.eqb_spec (lf_address fb) 0); [split; [done | by intros []] |].
  if_case; [rewrite !orb_true_iff, !negb_true_iff, !Z.eqb_neq in E; split; [done | intros [] ; tauto] |].
  bool_cases. if_case; [rewrite !orb_true_iff, !Z.eqb_eq in E; split; [done | intros []; lia] |]. bool_cases.
  change (UINT64_MAX / 4) with 4611686018427387903. destruct (Z.ltb_spec 4611686018427387903 (lf_width fb)); [split; [done | intros []; lia] |].
  rewrite u64_small by lia. change 3 with (2 ^ 2 - 1). rewrite land_low_mask by lia. change (2 ^ 2) with 4.
  if_case; [rewrite orb_true_iff, negb_true_iff, Z.eqb_neq, Z.ltb_lt in E; split; [done | intros []; lia] |]. bool_cases.
  assert (UINT64_MAX / lf_pitch fb < lf_height fb <-> 2 ^ 64 <= lf_pitch fb * lf_height fb) as Hdiv.
  { unfold UINT64_MAX. split; intros Hd.
    - pose proof (Z.mul_succ_div_gt 18446744073709551615 (lf_pitch fb) ltac:(lia)). nia.
    - apply Z.div_lt_upper_bound; lia. }
  destruct (Z.ltb_spec (UINT64_MAX / lf_pitch fb) (lf_height fb)) as [Hd | Hd]; [split; [done | intros []; lia] |].
  destruct (limine_mask_valid (lf_red_mask_size fb) _), (limine_mask_valid (lf_green_mask_size fb) _), (limine_mask_valid (lf_blue_mask_size fb) _); cbn [negb orb];
    (split; [try done; intros _ | intros []; intuition congruence]).
  split; try tauto; lia.
Qed.

Record limine_typed (l : limine) : Prop := {
  lt_framebuffers : forall r, framebuffer_request l = Some r -> 0 <= framebuffer_count r <= zlen (framebuffers r) /\
    Forall (fun p => match p with Some fb => lf_typed fb | None => True end) (framebuffers r);
  lt_memmap : forall r, memmap_request l = Some r -> 0 <= entry_count r <= zlen (entries r) /\ Forall entry_typed (entries r);
  lt_hhdm : forall o, hhdm_request l = Some o -> 0 <= o < 2 ^ 64;
  lt_executable : forall r, executable_address_request l = Some r -> 0 <= physical_base r < 2 ^ 64 /\ 0 <= virtual_base r < 2 ^ 64
}.

(** What the adapter needs: the responses it uses, with framebuffer [fb], map
    [mm], direct map [offset], image [x] and the place [e] of the framebuffer. *)
Record limine_ok (l : limine) (fb : limine_framebuffer) (mm : memmap_response) (offset : Z) (x : executable_response) (e : limine_memmap_entry) : Prop := {
  lok_revision : base_revision_supported l = true;
  lok_framebuffer : exists r, framebuffer_request l = Some r /\ 0 < framebuffer_count r /\ framebuffers r !! 0%nat = Some (Some fb);
  lok_fb : lf_ok fb;
  lok_memmap : memmap_request l = Some mm /\ 0 < entry_count mm <= 128;
  lok_regions : Forall region_fits (limine_regions (take (Z.to_nat (entry_count mm)) (entries mm))) /\ limine_regions (take (Z.to_nat (entry_count mm)) (entries mm)) <> [];
  lok_hhdm : hhdm_request l = Some offset;
  lok_place : omap (matches (lf_pitch fb * lf_height fb)) (take (Z.to_nat (entry_count mm)) (entries mm)) = [e];
  lok_mapped : offset + le_base e < 2 ^ 64;
  lok_executable : executable_address_request l = Some x;
  lok_kernel : u64 (kernel_end - kernel_start) <> 0 /\ physical_base x + u64 (kernel_end - kernel_start) < 2 ^ 64 /\ virtual_base x + u64 (kernel_end - kernel_start) < 2 ^ 64
}.

Lemma limine_copy_spec r c :
  context_typed c -> 0 <= entry_count r <= zlen (entries r) -> Forall entry_typed (entries r) ->
  let rs := limine_regions (take (Z.to_nat (entry_count r)) (entries r)) in
  exists st c' mib, limine_copy_memory_map (Some r) c = Some (st, c', mib) /\
    (st = BOOT_OK <-> 0 < entry_count r <= 128 /\ Forall region_fits rs /\ rs <> []) /\
    (st = BOOT_OK -> c' = set_memory_map c (filled (memory_map c) rs) (zlen rs) /\ zlen rs <= 128 /\ mib = Z.min UINT64_MAX (usable_sum rs) / 2 ^ 20).
Proof.
  intros [[Hm _] _] Hn Hty rs. unfold limine_copy_memory_map, BOOT_MEMORY_MAX_ENTRIES. if_case.
  { eexists _, _, _. split; [done |]. split; [split; [done |] | done]. rewrite orb_true_iff, Z.eqb_eq, Z.ltb_lt in E. lia. }
  bool_cases. pose proof (limine_map_loop_spec (Z.to_nat (entry_count r)) 0 (entries r) c [] 0 Hm Hty) as Hl. rewrite filled_nil in Hl. change (zlen []) with 0 in Hl.
  specialize (Hl ltac:(lia) ltac:(lia) ltac:(lia) ltac:(unfold UINT64_MAX; lia)). cbv zeta in Hl. cbn [app Z.to_nat] in Hl. rewrite drop_0 in Hl. fold rs in Hl.
  assert (zlen rs <= entry_count r) as Hrl.
  { pose proof (limine_regions_length (take (Z.to_nat (entry_count r)) (entries r))) as Hx. fold rs in Hx. unfold zlen in *. rewrite length_take in Hx. lia. }
  destruct (decide (Forall region_fits rs)) as [Hf | Hf].
  - rewrite Hl. cbn [mbind option_bind memory_map_count set_memory_map]. destruct (Z.eqb_spec (zlen rs) 0) as [E0 | E0].
    + eexists _, _, _. split; [done |]. split; [split; [done |] | done]. intros (_ & _ & Hne). exfalso. apply Hne. apply length_zero_iff_nil. unfold zlen in E0. lia.
    + eexists _, _, _. split; [done |]. split; [split; [intros _ | done] |].
      * split; [lia |]. split; [done |]. intros Ee. apply E0. by rewrite Ee.
      * intros _. split; [done |]. split; [lia | done].
  - destruct Hl as (l' & k & u & ->). cbn [mbind option_bind]. eexists _, _, _. split; [done |]. split; [split; [done |] | done]. by intros (_ & ? & _).
Qed.

Lemma find_framebuffer_spec r fb :
  lf_typed fb -> lf_ok fb -> 0 <= entry_count r <= zlen (entries r) -> Forall entry_typed (entries r) ->
  let found := omap (matches (lf_pitch fb * lf_height fb)) (take (Z.to_nat (entry_count r)) (entries r)) in
  find_framebuffer_phys (Some r) fb =
    Some (match found with [e] => (BOOT_OK, le_base e, u64 (le_base e + lf_pitch fb * lf_height fb)) | _ => (BOOT_NO_PHYSICAL_MAP, 0, 0) end).
Proof.
  intros Ht Hok Hn Hty found. destruct (lfok_size _ Hok). destruct (lfok_pitch _ Hok). pose proof (lfok_bytes _ Hok).
  assert (0 < lf_pitch fb * lf_height fb) by nia. unfold find_framebuffer_phys. rewrite (u64_small (lf_pitch fb * lf_height fb)) by lia.
  rewrite (proj2 (Z.eqb_neq _ 0)) by lia. rewrite framebuffer_loop_spec by lia. cbn [mbind option_bind Z.to_nat]. rewrite drop_0. fold found.
  destruct found as [| e [| e' rest]]; done.
Qed.

(** The place found lies in a framebuffer entry. *)
Lemma matches_in bytes es e : Forall entry_typed es -> omap (matches bytes) es = [e] ->
  Some e ∈ es /\ le_type e = LIMINE_MEMMAP_FRAMEBUFFER /\ bytes <= le_length e /\ 0 <= le_base e < 2 ^ 64 /\ le_base e + bytes < 2 ^ 64.
Proof.
  intros Hty E. assert (e ∈ omap (matches bytes) es) as Hin by (rewrite E; left). apply list_elem_of_omap in Hin as (p & Hp & Em).
  rewrite Forall_forall in Hty. specialize (Hty p Hp). destruct p as [e' |]; [| done]. cbn in Em. if_case_in Em; [done |]. injection Em as ->.
  unfold add_overflows_u64, UINT64_MAX in *. bool_cases. destruct Hty. split; [done |]. split; [done |]. lia.
Qed.

(** The context after success satisfies what the kernel requires. *)
Lemma limine_context_ok l c fb mm offset x e rsdp smbios mib :
  limine_typed l -> context_typed c -> limine_ok l fb mm offset x e ->
  let rs := limine_regions (take (Z.to_nat (entry_count mm)) (entries mm)) in
  let size := u64 (kernel_end - kernel_start) in
  let c1 := set_usable_mib (set_memory_map (set_framebuffer_info c fb) (filled (memory_map c) rs) (zlen rs)) mib in
  let c' := set_machine (set_framebuffer_place c1 (u64 (offset + le_base e)) (le_base e) (u64 (le_base e + lf_pitch fb * lf_height fb))) offset x size rsdp smbios in
  boot_context_ok c' /\ regions_fit c' /\ regions c' = rs /\ kernel_phys_start c' < kernel_phys_end c' /\ kernel_virt_start c' < kernel_virt_end c' /\
  framebuffer_phys_start c' = le_base e /\ framebuffer_phys_end c' = le_base e + lf_pitch fb * lf_height fb /\
  address (framebuffer c') = physical_memory_offset c' + framebuffer_phys_start c'.
Proof.
  intros Hl [[Hm Hr] _] Hok rs size c1 c'. destruct (lok_memmap _ _ _ _ _ _ Hok) as [Emm Hcount]. destruct (lt_memmap _ Hl _ Emm) as [Hn Hty].
  assert (Forall entry_typed (take (Z.to_nat (entry_count mm)) (entries mm))) as Hty' by (by apply Forall_take).
  destruct (matches_in _ _ e Hty' (lok_place _ _ _ _ _ _ Hok)) as (_ & _ & _ & Hb & He). destruct (lfok_size _ (lok_fb _ _ _ _ _ _ Hok)).
  destruct (lfok_pitch _ (lok_fb _ _ _ _ _ _ Hok)). assert (0 < lf_pitch fb * lf_height fb) by nia.
  pose proof (lt_hhdm _ Hl _ (lok_hhdm _ _ _ _ _ _ Hok)) as Ho. pose proof (lok_mapped _ _ _ _ _ _ Hok). destruct (lt_executable _ Hl _ (lok_executable _ _ _ _ _ _ Hok)) as [Hx1 Hx2].
  destruct (lok_kernel _ _ _ _ _ _ Hok) as (K1 & K2 & K3). fold size in K1, K2, K3. pose proof (u64_range (kernel_end - kernel_start)) as Hsz. fold size in Hsz.
  assert (zlen rs <= 128) as Hrl.
  { pose proof (limine_regions_length (take (Z.to_nat (entry_count mm)) (entries mm))) as H'. fold rs in H'. unfold zlen in *. rewrite length_take in H'. lia. }
  assert (regions c' = rs) as Er.
  { unfold regions, c', c1. cbn [memory_map memory_map_count set_machine set_framebuffer_place set_usable_mib set_memory_map]. unfold zlen. rewrite Nat2Z.id. apply take_filled. }
  pose proof (zlen_nonneg rs). rewrite Er. unfold regions_fit. rewrite Er.
  unfold boot_context_ok, c', c1, set_machine, BOOT_MEMORY_MAX_ENTRIES, BOOT_PHYSICAL_UNLIMITED, UINT64_MAX.
  cbn [memory_map memory_map_count set_framebuffer_place set_usable_mib set_memory_map set_framebuffer_info physical_memory_offset physical_memory_limit
    framebuffer_phys_start framebuffer_phys_end kernel_phys_start kernel_phys_end kernel_virt_start kernel_virt_end framebuffer address].
  rewrite !u64_small by lia. split; [| split; [apply Hok | split; [done | lia]]].
  split; [by rewrite zlen_filled, Hm by lia |]. split; [apply forall_filled; [done |]; by apply limine_regions_ok |]. lia.
Qed.

(** What success establishes for the rest of the kernel. *)
Definition limine_context (fb : limine_framebuffer) (mm : memmap_response) (e : limine_memmap_entry) (c' : boot_context_t) : Prop :=
  boot_context_ok c' /\ regions_fit c' /\ regions c' = limine_regions (take (Z.to_nat (entry_count mm)) (entries mm)) /\
  kernel_phys_start c' < kernel_phys_end c' /\ kernel_virt_start c' < kernel_virt_end c' /\
  framebuffer_phys_start c' = le_base e /\ framebuffer_phys_end c' = le_base e + lf_pitch fb * lf_height fb /\
  address (framebuffer c') = physical_memory_offset c' + framebuffer_phys_start c'.

Definition limine_post (l : limine) (result : option (boot_status_t * boot_context_t)) : Prop :=
  exists st c', result = Some (st, c') /\
    (forall fb mm offset x e, limine_ok l fb mm offset x e -> st = BOOT_OK) /\
    (st = BOOT_OK -> exists fb mm offset x e, limine_ok l fb mm offset x e /\ limine_context fb mm e c').

Lemma limine_reject l st c : st <> BOOT_OK -> (forall fb mm offset x e, ~ limine_ok l fb mm offset x e) -> limine_post l (Some (st, c)).
Proof. intros Hst Hno. exists st, c. split; [done |]. split; [| done]. intros fb mm offset x e Hok. by apply Hno in Hok. Qed.

Lemma limine_finish_spec l fb offset x c :
  limine_typed l -> context_typed c -> lf_typed fb -> lf_ok fb -> executable_address_request l = Some x -> hhdm_request l = Some offset ->
  base_revision_supported l = true -> (exists r, framebuffer_request l = Some r /\ 0 < framebuffer_count r /\ framebuffers r !! 0%nat = Some (Some fb)) ->
  (forall fb' mm o y e, limine_ok l fb' mm o y e -> fb' = fb /\ o = offset /\ y = x) -> limine_post l (limine_finish l fb offset x c).
Proof.
  intros Hl Hc Ht Hfb Ex Eh Hrev Hreq Hsame. unfold limine_finish.
  destruct (memmap_request l) as [mm |] eqn:Emm; [| apply limine_reject; [done |]; intros ? ? ? ? ? Hok; destruct (lok_memmap _ _ _ _ _ _ Hok); congruence].
  destruct (lt_memmap _ Hl _ Emm) as [Hn Hty]. pose proof (limine_copy_spec mm (set_framebuffer_info c fb)) as Hcopy.
  destruct Hcopy as (st & c1 & mib & E1 & Hst & Hres); [by split; apply Hc | done | done |]. rewrite E1. cbn [mbind option_bind].
  destruct st; try (apply limine_reject; [done |]; intros ? mm' ? ? ? Hok; destruct (lok_memmap _ _ _ _ _ _ Hok) as [E' ?]; rewrite Emm in E'; injection E' as <-;
    pose proof (lok_regions _ _ _ _ _ _ Hok); by assert (_ = BOOT_OK) by (apply Hst; tauto)).
  destruct (Hres eq_refl) as (-> & _ & ->). rewrite (find_framebuffer_spec mm fb Ht Hfb Hn Hty). cbn [mbind option_bind].
  assert (forall fb' mm' o y e, limine_ok l fb' mm' o y e -> omap (matches (lf_pitch fb * lf_height fb)) (take (Z.to_nat (entry_count mm)) (entries mm)) = [e]) as Hplace.
  { intros fb' mm' o y e Hok. destruct (lok_memmap _ _ _ _ _ _ Hok) as [E' _]. rewrite Emm in E'. injection E' as <-. destruct (Hsame _ _ _ _ _ Hok) as [<- _]. apply (lok_place _ _ _ _ _ _ Hok). }
  destruct (omap (matches _) _) as [| e [| e' es]] eqn:Eo; [apply limine_reject; [done |]; intros ? ? ? ? ? Hok; by apply Hplace in Hok | | apply limine_reject; [done |]; intros ? ? ? ? ? Hok; by apply Hplace in Hok].
  unfold add_overflows_u64, UINT64_MAX. destruct (Z.ltb_spec (18446744073709551615 - offset) (le_base e)) as [Hov | Hfit].
  { apply limine_reject; [done |]. intros ? ? ? ? ? Hok. pose proof (Hplace _ _ _ _ _ Hok) as [= <-]. destruct (Hsame _ _ _ _ _ Hok) as (_ & <- & _). pose proof (lok_mapped _ _ _ _ _ _ Hok). lia. }
  if_case.
  { apply limine_reject; [done |]. intros ? ? ? ? ? Hok. destruct (Hsame _ _ _ _ _ Hok) as (_ & _ & <-). destruct (lok_kernel _ _ _ _ _ _ Hok) as (? & ? & ?).
    rewrite !orb_true_iff, Z.eqb_eq, !Z.ltb_lt in E. lia. }
  bool_cases. assert (limine_ok l fb mm offset x e) as Hok.
  { destruct (proj1 Hst eq_refl) as (? & ? & ?). split; try done; [lia |]. split; [done |]. split; lia. }
  eexists _, _. split; [done |]. split; [done |]. intros _. exists fb, mm, offset, x, e. split; [done |]. by apply (limine_context_ok l c fb mm offset x e).
Qed.

Lemma boot_limine_spec l c : limine_typed l -> context_typed c -> limine_post l (boot_limine_context_init l c).
Proof.
  intros Hl Hc. unfold boot_limine_context_init. destruct (base_revision_supported l) eqn:Hrev; cbn [negb]; [| apply limine_reject; [done |]; intros ? ? ? ? ? []; congruence].
  destruct (framebuffer_request l) as [fbs |] eqn:Efb; [| apply limine_reject; [done |]; intros ? ? ? ? ? Hok; destruct (lok_framebuffer _ _ _ _ _ _ Hok) as (? & ? & _); congruence].
  destruct (lt_framebuffers _ Hl _ Efb) as [Hcnt Hfbt]. destruct (Z.ltb_spec (framebuffer_count fbs) 1) as [Hlt | Hge].
  { apply limine_reject; [done |]. intros ? ? ? ? ? Hok. destruct (lok_framebuffer _ _ _ _ _ _ Hok) as (? & E' & ? & _). rewrite Efb in E'. injection E' as <-. lia. }
  destruct (hhdm_request l) as [offset |] eqn:Eh; [| apply limine_reject; [done |]; intros ? ? ? ? ? []; congruence].
  destruct (executable_address_request l) as [x |] eqn:Ex; [| apply limine_reject; [done |]; intros ? ? ? ? ? []; congruence].
  destruct (rd_in_range (framebuffers fbs) 0 ltac:(lia)) as [p Ep]. rewrite Ep. cbn [mbind option_bind]. apply rd_lookup in Ep as [_ Ep]. change (Z.to_nat 0) with 0%nat in Ep.
  assert (forall fb mm o y e, limine_ok l fb mm o y e -> p = Some fb /\ o = offset /\ y = x) as Hsame.
  { intros fb mm o y e Hok. destruct (lok_framebuffer _ _ _ _ _ _ Hok) as (r & E' & _ & E''). rewrite Efb in E'. injection E' as <-. rewrite Ep in E''.
    pose proof (lok_hhdm _ _ _ _ _ _ Hok). pose proof (lok_executable _ _ _ _ _ _ Hok). split; [congruence |]. split; congruence. }
  destruct p as [fb |]; [| apply limine_reject; [done |]; intros ? ? ? ? ? Hok; by destruct (Hsame _ _ _ _ _ Hok)].
  assert (lf_typed fb) as Htfb by (rewrite Forall_forall in Hfbt; apply (Hfbt (Some fb)); by eapply list_elem_of_lookup_2).
  pose proof (framebuffer_valid_spec fb Htfb) as Hv. destruct (framebuffer_valid (Some fb)); cbn [negb].
  2: { apply limine_reject; [done |]. intros fb' ? ? ? ? Hok. destruct (Hsame _ _ _ _ _ Hok) as [[= <-] _]. pose proof (proj2 Hv (lok_fb _ _ _ _ _ _ Hok)). done. }
  apply limine_finish_spec; try done; [by apply Hv | exists fbs; split; [done |]; split; [lia | done] |].
  intros fb' mm o y e Hok. destruct (Hsame _ _ _ _ _ Hok) as ([= ->] & -> & ->). done.
Qed.

(** C24. The adapter stays inside the responses.  It succeeds exactly when they
    describe a usable machine with one place for the framebuffer, and then the
    context satisfies what the frame allocator and paging require. *)
Theorem boot_limine_correct l c : limine_typed l -> context_typed c -> limine_post l (boot_limine_context_init l c).
Proof. apply boot_limine_spec. Qed.

End Limine.

(** Whichever loader is used, a context that was accepted satisfies what the
    frame allocator, paging and the heap require of it. *)
Theorem boot_context_accepted rgb usable fbtype kstart kend m l c magic1 magic2 payload c' :
  limine_typed l -> context_typed c -> boot_context_init rgb usable fbtype kstart kend m l c magic1 magic2 payload = Some (BOOT_OK, c') ->
  boot_context_ok c' /\ regions_fit c' /\ kernel_phys_start c' < kernel_phys_end c' /\ kernel_virt_start c' < kernel_virt_end c' /\
  framebuffer_phys_start c' < framebuffer_phys_end c'.
Proof.
  intros Hl Hc. unfold boot_context_init. if_case.
  - destruct (boot_josh_spec m c payload Hc) as (st & c1 & -> & _ & H). intros [= -> ->]. destruct (H eq_refl) as (? & ? & _ & ? & ? & ? & _). tauto.
  - destruct (boot_limine_spec rgb usable fbtype kstart kend l c Hl Hc) as (st & c1 & -> & _ & H). intros [= -> ->].
    destruct (H eq_refl) as (fb & mm & offset & x & e & Hok & ? & ? & _ & ? & ? & -> & -> & _). do 4 (split; [done |]).
    destruct (lfok_size _ _ (lok_fb _ _ _ _ _ _ _ _ _ _ _ Hok)), (lfok_pitch _ _ (lok_fb _ _ _ _ _ _ _ _ _ _ _ Hok)). nia.
Qed.

(** ** A concrete machine *)

Definition example_limine : limine :=
  mk_limine true
    (Some (mk_framebuffer_response 1 [Some (mk_limine_framebuffer 0xffff8000e0000000 640 480 2560 32 1 8 16 8 8 8 0)]))
    (Some (mk_memmap_response 3 [Some (mk_limine_entry 0x100000 0x4000000 0); None; Some (mk_limine_entry 0xe0000000 0x200000 7)]))
    (Some 0xffff800000000000) (Some (mk_executable_response 0x200000 0xffffffff80000000)) (Some 0xffff8000000f0000) None.

Lemma example_limine_typed : limine_typed example_limine.
Proof.
  split; cbn.
  - intros r [= <-]. cbn. split; [done |]. repeat constructor; cbn; lia.
  - intros r [= <-]. cbn. split; [done |]. repeat constructor; cbn; lia.
  - intros o [= <-]. lia.
  - intros r [= <-]. cbn. lia.
Qed.

Lemma boot_limine_correct_witness :
  exists c, boot_limine_context_init 1 0 7 0xffffffff80000000 0xffffffff80100000 example_limine blank_context = Some (BOOT_OK, c) /\ boot_context_ok c.
Proof.
  assert (fst <$> boot_limine_context_init 1 0 7 0xffffffff80000000 0xffffffff80100000 example_limine blank_context = Some BOOT_OK) as Hst by (vm_compute; reflexivity).
  destruct (boot_limine_correct 1 0 7 0xffffffff80000000 0xffffffff80100000 example_limine blank_context example_limine_typed blank_typed) as (st & c & E & _ & H).
  rewrite E in Hst. injection Hst as ->. destruct (H eq_refl) as (fb & mm & o & x & e & _ & Hok & _). exists c. split; [exact E | exact Hok].
Defined.
