(* ===== verification/Memory.v ===== *)
(** * Memory functions (kernel/src/memory.c)

    The four functions the compiler may call, on a byte memory.  A size of
    more than the address space is not possible, so pointers do not wrap. *)

From stdpp Require Import base numbers list gmap.
From Stdlib Require Import ZArith Lia.
From S2P Require Import Prelude ByteMem.

#[local] Open Scope Z_scope.

(** [while (n--) *d++ = *s++] *)
Fixpoint copy_up (n : nat) (m : bytemem) (d s : Z) : bytemem :=
  match n with O => m | S n => copy_up n (poke m d (peek m s)) (d + 1) (s + 1) end.

(** [while (n--) *--d = *--s] *)
Fixpoint copy_down (n : nat) (m : bytemem) (d s : Z) : bytemem :=
  match n with O => m | S n => copy_down n (poke m (d - 1) (peek m (s - 1))) (d - 1) (s - 1) end.

Definition memcpy (m : bytemem) (dst src n : Z) : Z * bytemem := (dst, copy_up (Z.to_nat n) m dst src).

Definition memset (m : bytemem) (dst value n : Z) : Z * bytemem := (dst, fill (Z.to_nat n) m dst (u8 value)).

Definition memmove (m : bytemem) (dst src n : Z) : Z * bytemem :=
  if dst <? src then (dst, copy_up (Z.to_nat n) m dst src)
  else if src <? dst then (dst, copy_down (Z.to_nat n) m (dst + n) (src + n))
  else (dst, m).

Fixpoint compare_loop (n : nat) (m : bytemem) (x y : Z) : Z :=
  match n with
  | O => 0
  | S n => if negb (peek m x =? peek m y) then peek m x - peek m y else compare_loop n m (x + 1) (y + 1)
  end.

Definition memcmp (m : bytemem) (a b n : Z) : Z := compare_loop (Z.to_nat n) m a b.

(** ** What they do *)

(** The bytes of [src] as they were in [m] are at [dst] in [m'], and nothing
    else has changed. *)
Definition copied (m m' : bytemem) (dst src n : Z) : Prop :=
  forall a, peek m' a = if decide (dst <= a < dst + n) then peek m (src + (a - dst)) else peek m a.

Lemma u8_peek m a : u8 (peek m a) = peek m a.
Proof. apply u8_small. apply peek_range. Qed.

Lemma copy_up_spec n m d s : d <= s \/ s + Z.of_nat n <= d -> copied m (copy_up n m d s) d s (Z.of_nat n).
Proof.
  revert m d s. induction n as [| n IH]; intros m d s H a; cbn [copy_up]; [by rewrite decide_False by lia |].
  rewrite IH by lia. rewrite !peek_poke, u8_peek. repeat case_decide; try lia.
  - rewrite (proj2 (Z.eqb_neq _ _)) by lia. f_equal. lia.
  - assert (a = d) as -> by lia. rewrite Z.eqb_refl. f_equal. lia.
  - by rewrite (proj2 (Z.eqb_neq _ _)) by lia.
Qed.

Lemma copy_down_spec n m d s : s <= d -> copied m (copy_down n m (d + Z.of_nat n) (s + Z.of_nat n)) d s (Z.of_nat n).
Proof.
  revert m. induction n as [| n IH]; intros m H a; cbn [copy_down]; [by rewrite decide_False by lia |].
  replace (d + Z.of_nat (S n) - 1) with (d + Z.of_nat n) by lia. replace (s + Z.of_nat (S n) - 1) with (s + Z.of_nat n) by lia.
  rewrite IH by lia. rewrite !peek_poke, u8_peek. repeat case_decide; try lia.
  - rewrite (proj2 (Z.eqb_neq _ _)) by lia. done.
  - assert (a = d + Z.of_nat n) as -> by lia. rewrite Z.eqb_refl. f_equal. lia.
  - by rewrite (proj2 (Z.eqb_neq _ _)) by lia.
Qed.

Lemma compare_loop_spec n m x y :
  (compare_loop n m x y = 0 <-> forall i, 0 <= i < Z.of_nat n -> peek m (x + i) = peek m (y + i)) /\
  (compare_loop n m x y <> 0 -> exists k, 0 <= k < Z.of_nat n /\ (forall i, 0 <= i < k -> peek m (x + i) = peek m (y + i)) /\
    compare_loop n m x y = peek m (x + k) - peek m (y + k)).
Proof.
  revert x y. induction n as [| n IH]; intros x y; cbn [compare_loop]; [split; [split; [lia | done] | done] |].
  destruct (Z.eqb_spec (peek m x) (peek m y)) as [E | E]; cbn [negb].
  - destruct (IH (x + 1) (y + 1)) as [IH1 IH2]. split; [split |].
    + intros H i Hi. destruct (decide (i = 0)) as [-> | Hne]; [by rewrite !Z.add_0_r |]. replace (x + i) with (x + 1 + (i - 1)) by lia.
      replace (y + i) with (y + 1 + (i - 1)) by lia. apply IH1; [done | lia].
    + intros H. apply IH1. intros i Hi. rewrite <- !Z.add_assoc. apply H. lia.
    + intros H. destruct (IH2 H) as (k & Hk & Hb & ->). exists (k + 1). split; [lia |]. split; [| by rewrite !Z.add_assoc, (Z.add_comm (x + k)), (Z.add_comm (y + k)), !Z.add_assoc, (Z.add_comm 1 x), (Z.add_comm 1 y)].
      intros i Hi. destruct (decide (i = 0)) as [-> | Hne]; [by rewrite !Z.add_0_r |]. replace (x + i) with (x + 1 + (i - 1)) by lia.
      replace (y + i) with (y + 1 + (i - 1)) by lia. apply Hb. lia.
  - split; [split; [lia |] |].
    + intros H. specialize (H 0 ltac:(lia)). rewrite !Z.add_0_r in H. lia.
    + intros _. exists 0. split; [lia |]. rewrite !Z.add_0_r. split; [lia | done].
Qed.

(** [memmove] copies the source as it was, whether or not the two overlap, and
    [memcpy] when they do not; [memset] fills; nothing else changes.  [memcmp]
    is 0 exactly on equal bytes, and otherwise the difference of the first
    bytes that differ. *)
Theorem memory_functions_correct m dst src n value :
  0 <= n ->
  copied m (snd (memmove m dst src n)) dst src n /\
  (dst + n <= src \/ src + n <= dst -> copied m (snd (memcpy m dst src n)) dst src n) /\
  (forall a, peek (snd (memset m dst value n)) a = if decide (dst <= a < dst + n) then u8 value else peek m a) /\
  (memcmp m dst src n = 0 <-> forall i, 0 <= i < n -> peek m (dst + i) = peek m (src + i)) /\
  (memcmp m dst src n <> 0 -> exists k, 0 <= k < n /\ (forall i, 0 <= i < k -> peek m (dst + i) = peek m (src + i)) /\
    memcmp m dst src n = peek m (dst + k) - peek m (src + k)).
Proof.
  intros Hn. assert (n = Z.of_nat (Z.to_nat n)) as En by lia. split; [| split; [| split]].
  - unfold memmove. destruct (Z.ltb_spec dst src); [| destruct (Z.ltb_spec src dst)]; cbn [snd].
    + rewrite En at 2. apply copy_up_spec. lia.
    + rewrite En at 2 3 4. apply copy_down_spec. lia.
    + intros a. assert (dst = src) as -> by lia. case_decide; [f_equal; lia | done].
  - intros H. unfold memcpy. cbn [snd]. rewrite En at 2. apply copy_up_spec. lia.
  - intros a. unfold memset. cbn [snd]. case_decide.
    + rewrite fill_in by lia. apply u8_small, u8_range.
    + apply (fill_agree _ _ _ _ a (a + 1)); lia.
  - unfold memcmp. pose proof (compare_loop_spec (Z.to_nat n) m dst src) as H. by rewrite <- En in H.
Qed.

(** Two overlapping moves by one byte. *)
Lemma memory_functions_correct_witness :
  let m := poke (poke (poke (∅ : gmap Z Z) 10 1) 11 2) 12 3 in
  peek (snd (memmove m 11 10 3)) 13 = 3 /\ peek (snd (memmove m 9 10 3)) 9 = 1.
Proof.
  intros m. split.
  - destruct (memory_functions_correct m 11 10 3 0 ltac:(lia)) as [H _]. rewrite (H 13). vm_compute. reflexivity.
  - destruct (memory_functions_correct m 9 10 3 0 ltac:(lia)) as [H _]. rewrite (H 9). vm_compute. reflexivity.
Defined.
