(* ===== verification/Spinlock.v ===== *)
(** * Spin locks (kernel/src/spinlock.h)

    Any number of processors use one lock.  Every access to the lock's word and
    every instruction that changes the interrupt flag is a step; the steps of
    the processors interleave freely.  A processor enters with [spin_lock],
    [spin_try_lock] or [spin_lock_irqsave] and leaves with the matching
    unlock. *)

From stdpp Require Import base numbers list.
From Stdlib Require Import ZArith Lia.
From S2P Require Import Prelude.

#[local] Open Scope Z_scope.

(** ** The functions *)

Definition SPINLOCK_INIT : Z := 0.

(** [xchgl]: the old value, and the word afterwards. *)
Definition spin_exchange (word value : Z) : Z * Z := (word, value).

Definition spin_try_lock (word : Z) : bool * Z :=
  let '(old, word) := spin_exchange word 1 in if negb (old =? 0) then (false, word) else (true, word).

Definition spin_unlock (word : Z) : Z := 0.

(** Where [spin_lock] is: before the exchange, or in the inner loop. *)
Inductive lock_pc := PC_EXCHANGE | PC_WAIT.

(** One access of [spin_lock]: where it goes on, [None] once it has the lock. *)
Definition spin_lock_step (pc : lock_pc) (word : Z) : option lock_pc * Z :=
  match pc with
  | PC_EXCHANGE => let '(old, word) := spin_exchange word 1 in if negb (old =? 0) then (Some PC_WAIT, word) else (None, word)
  | PC_WAIT => if negb (word =? 0) then (Some PC_WAIT, word) else (Some PC_EXCHANGE, word)
  end.

(** [pushfq; popq; cli] of [spin_lock_irqsave]: the flags to restore, and the
    flags afterwards. *)
Definition FLAG_IF : Z := Z.shiftl 1 9.
Definition save_disable (rflags : Z) : Z * Z := (rflags, Z.ldiff rflags FLAG_IF).

(** The end of [spin_unlock_irqrestore], after the unlock. *)
Definition irq_restore (rflags flags : Z) : Z := if negb (Z.land flags FLAG_IF =? 0) then Z.lor rflags FLAG_IF else rflags.

(** ** The processors *)

(** What a processor does with the lock; the flags are those [spin_lock_irqsave]
    saved, [None] for the plain functions. *)
Inductive activity :=
| Outside
| Locking (pc : lock_pc) (saved : option Z)
| Critical (saved : option Z)
| Restoring (flags : Z).

(** [own]: the flags the processor last had by its own doing, outside of the
    functions of the lock and of what they protect.  No code reads it. *)
Record cpu := mk_cpu { doing : activity; rflags : Z; own : Z }.
Record machine := mk_machine { word : Z; cpus : list cpu }.

Definition set_cpu (s : machine) (i : nat) (c : cpu) (w : Z) : machine := mk_machine w (<[i := c]> (cpus s)).

(** After a step of [spin_lock]. *)
Definition after_lock (pc : option lock_pc) (saved : option Z) : activity :=
  match pc with Some pc => Locking pc saved | None => Critical saved end.

(** Outside, a processor sets its flags as it likes; inside, it may change any
    but the interrupt flag. *)
Definition enabled (f : Z) : bool := Z.testbit f 9.

Inductive spin_step (s : machine) : machine -> Prop :=
| step_flags i c f : cpus s !! i = Some c -> doing c = Outside -> spin_step s (set_cpu s i (mk_cpu Outside f f) (word s))
| step_lock i c : cpus s !! i = Some c -> doing c = Outside -> spin_step s (set_cpu s i (mk_cpu (Locking PC_EXCHANGE None) (rflags c) (own c)) (word s))
| step_irqsave i c : cpus s !! i = Some c -> doing c = Outside ->
    spin_step s (set_cpu s i (mk_cpu (Locking PC_EXCHANGE (Some (fst (save_disable (rflags c))))) (snd (save_disable (rflags c))) (own c)) (word s))
| step_try i c : cpus s !! i = Some c -> doing c = Outside ->
    spin_step s (set_cpu s i (mk_cpu (if fst (spin_try_lock (word s)) then Critical None else Outside) (rflags c) (own c)) (snd (spin_try_lock (word s))))
| step_locking i c pc saved : cpus s !! i = Some c -> doing c = Locking pc saved ->
    spin_step s (set_cpu s i (mk_cpu (after_lock (fst (spin_lock_step pc (word s))) saved) (rflags c) (own c)) (snd (spin_lock_step pc (word s))))
| step_inside i c saved f : cpus s !! i = Some c -> doing c = Critical saved -> enabled f = enabled (rflags c) ->
    spin_step s (set_cpu s i (mk_cpu (Critical saved) f (own c)) (word s))
| step_unlock i c saved : cpus s !! i = Some c -> doing c = Critical saved ->
    spin_step s (set_cpu s i (mk_cpu (match saved with Some f => Restoring f | None => Outside end) (rflags c) (own c)) (spin_unlock (word s)))
| step_restore i c f : cpus s !! i = Some c -> doing c = Restoring f -> spin_step s (set_cpu s i (mk_cpu Outside (irq_restore (rflags c) f) (own c)) (word s)).

(** ** The invariant *)

Definition critical (c : cpu) : Prop := match doing c with Critical _ => True | _ => False end.

#[export] Instance critical_dec c : Decision (critical c).
Proof. unfold critical. destruct (doing c); apply _. Defined.

(** With saved flags, interrupts are off and the saved flag is the processor's
    own; otherwise the flag in force is. *)
Definition cpu_ok (c : cpu) : Prop :=
  match doing c with
  | Locking _ (Some f) | Critical (Some f) | Restoring f => enabled (rflags c) = false /\ enabled f = enabled (own c)
  | _ => enabled (rflags c) = enabled (own c)
  end.

Record spin_inv (s : machine) : Prop := {
  inv_cpus : Forall cpu_ok (cpus s);
  inv_held : word s = 0 /\ Forall (fun c => ~ critical c) (cpus s) \/
             word s = 1 /\ exists i c, cpus s !! i = Some c /\ critical c /\ forall j d, cpus s !! j = Some d -> critical d -> j = i
}.

Lemma ldiff_if f : enabled (Z.ldiff f FLAG_IF) = false.
Proof. unfold enabled, FLAG_IF. rewrite Z.ldiff_spec, Z.shiftl_1_l, Z.pow2_bits_true by lia. by rewrite andb_false_r. Qed.

Lemma land_if f : (Z.land f FLAG_IF =? 0) = negb (enabled f).
Proof.
  unfold enabled, FLAG_IF. rewrite Z.shiftl_1_l. destruct (Z.testbit f 9) eqn:E; cbn.
  - apply Z.eqb_neq. intros H. apply (f_equal (fun z => Z.testbit z 9)) in H. rewrite Z.land_spec, E, Z.pow2_bits_true, Z.bits_0 in H by lia. done.
  - apply Z.eqb_eq. apply Z.bits_inj'. intros n Hn. rewrite Z.land_spec, Z.bits_0, Z.pow2_bits_eqb by lia. destruct (Z.eqb_spec 9 n) as [<- | ?]; [by rewrite E | by rewrite andb_false_r].
Qed.

(** The interrupt flag after a restore is the one that was saved. *)
Lemma restore_enabled r f : enabled r = false -> enabled (irq_restore r f) = enabled f.
Proof.
  intros Hr. unfold irq_restore. rewrite land_if, negb_involutive. destruct (enabled f) eqn:E; [| done].
  unfold enabled, FLAG_IF in *. rewrite Z.lor_spec, Hr, Z.shiftl_1_l, Z.pow2_bits_true by lia. done.
Qed.

(** A processor that was not and is not inside changes nothing. *)
Lemma held_same s i c d : cpus s !! i = Some c -> ~ critical c -> ~ critical d -> spin_inv s -> cpu_ok d -> spin_inv (set_cpu s i d (word s)).
Proof.
  intros Hi Hc Hd [Hok Hheld] Hdok. split; cbn [cpus set_cpu word]; [by apply Forall_insert |]. destruct Hheld as [[Hw Hno] | (Hw & j & e & Hj & He & Huniq)].
  - left. split; [done |]. by apply Forall_insert.
  - right. split; [done |]. exists j, e. assert (i <> j) as Hne by (intros ->; rewrite Hi in Hj; injection Hj as ->; done).
    split; [by rewrite list_lookup_insert_ne |]. split; [done |]. intros k g Hk Hg. destruct (decide (k = i)) as [-> | Hki].
    + rewrite list_lookup_insert_eq in Hk by (by eapply lookup_lt_Some). injection Hk as ->. done.
    + rewrite list_lookup_insert_ne in Hk by done. by eapply Huniq.
Qed.

(** The processor inside does its work. *)
Lemma held_inside s i c d : cpus s !! i = Some c -> critical c -> critical d -> spin_inv s -> cpu_ok d -> spin_inv (set_cpu s i d (word s)).
Proof.
  intros Hi Hc Hd [Hok Hheld] Hdok. split; cbn [cpus set_cpu word]; [by apply Forall_insert |].
  destruct Hheld as [[Hw Hno] | (Hw & j & e & Hj & He & Huniq)]; [rewrite Forall_lookup in Hno; by apply (Hno i c Hi) in Hc |].
  right. split; [done |]. exists i, d. split; [apply list_lookup_insert_eq; by eapply lookup_lt_Some |]. split; [done |].
  intros k g Hk Hg. destruct (decide (k = i)) as [| Hki]; [done |]. rewrite list_lookup_insert_ne in Hk by done.
  rewrite (Huniq k g Hk Hg). symmetry. by apply (Huniq i c).
Qed.

(** A processor enters when the word is 0. *)
Lemma held_enter s i c d : cpus s !! i = Some c -> word s = 0 -> critical d -> spin_inv s -> cpu_ok d -> spin_inv (set_cpu s i d 1).
Proof.
  intros Hi Hw Hd [Hok Hheld] Hdok. split; cbn [cpus set_cpu word]; [by apply Forall_insert |]. right. split; [done |]. exists i, d.
  split; [apply list_lookup_insert_eq; by eapply lookup_lt_Some |]. split; [done |]. intros k g Hk Hg. destruct Hheld as [[_ Hno] | (Hw1 & _)]; [| lia].
  destruct (decide (k = i)) as [| Hki]; [done |]. rewrite list_lookup_insert_ne in Hk by done. rewrite Forall_lookup in Hno. by apply Hno in Hk.
Qed.

(** The processor inside leaves. *)
Lemma held_leave s i c d : cpus s !! i = Some c -> critical c -> ~ critical d -> spin_inv s -> cpu_ok d -> spin_inv (set_cpu s i d 0).
Proof.
  intros Hi Hc Hd [Hok Hheld] Hdok. split; cbn [cpus set_cpu word]; [by apply Forall_insert |]. left. split; [done |]. apply Forall_lookup. intros k g Hk.
  destruct (decide (k = i)) as [-> | Hki]; [rewrite list_lookup_insert_eq in Hk by (by eapply lookup_lt_Some); by injection Hk as <- |].
  rewrite list_lookup_insert_ne in Hk by done. intros Hg. destruct Hheld as [[_ Hno] | (_ & j & e & Hj & He & Huniq)]; [rewrite Forall_lookup in Hno; by apply (Hno k g Hk) |].
  apply Hki. rewrite (Huniq k g Hk Hg). symmetry. by apply (Huniq i c).
Qed.

Lemma spin_step_inv s s' : spin_inv s -> spin_step s s' -> spin_inv s'.
Proof.
  intros H Hs. assert (word s = 0 \/ word s = 1) as Hw by (destruct (inv_held _ H) as [[? _] | [? _]]; tauto).
  assert (forall i c, cpus s !! i = Some c -> cpu_ok c) as Hok by (intros i c Hi; pose proof (inv_cpus _ H) as Hf; rewrite Forall_lookup in Hf; by eapply Hf).
  destruct Hs as [i c f Hi Hd | i c Hi Hd | i c Hi Hd | i c Hi Hd | i c pc saved Hi Hd | i c saved f Hi Hd Hf | i c saved Hi Hd | i c f Hi Hd];
    specialize (Hok i c Hi); unfold cpu_ok in Hok; rewrite Hd in Hok;
    (assert (critical c <-> match doing c with Critical _ => True | _ => False end) as Hcrit by done); rewrite Hd in Hcrit.
  - apply (held_same s i c); cbn; tauto.
  - apply (held_same s i c); cbn; tauto.
  - apply (held_same s i c); cbn; try tauto. split; [apply ldiff_if | exact Hok].
  - unfold spin_try_lock, spin_exchange. destruct Hw as [Hw | Hw]; rewrite Hw; cbn [negb Z.eqb fst snd].
    + by apply (held_enter s i c).
    + rewrite <- Hw. apply (held_same s i c); cbn; tauto.
  - destruct pc; unfold spin_lock_step, spin_exchange; destruct Hw as [Hw | Hw]; rewrite Hw; cbn [negb Z.eqb fst snd after_lock];
      [by apply (held_enter s i c) | | |]; rewrite <- Hw; apply (held_same s i c); cbn; tauto.
  - apply (held_inside s i c); [done | tauto | done | done |]. unfold cpu_ok. cbn [doing rflags own]. destruct saved; by rewrite Hf.
  - apply (held_leave s i c); [done | tauto | destruct saved; cbn; tauto | done | by destruct saved].
  - apply (held_same s i c); [done | tauto | by intros [] | done |]. destruct Hok as [Hoff Hf]. unfold cpu_ok. cbn [doing rflags own]. by rewrite restore_enabled.
Qed.

Definition spin_start (n : nat) (flags : nat -> Z) : machine := mk_machine SPINLOCK_INIT ((fun i => mk_cpu Outside (flags i) (flags i)) <$> seq 0 n).

Lemma start_inv n flags : spin_inv (spin_start n flags).
Proof.
  split; cbn [cpus spin_start word].
  - apply Forall_fmap, Forall_true. done.
  - left. split; [done |]. apply Forall_fmap, Forall_true. by intros i [].
Qed.

(** Two accesses give a waiting processor the lock nobody holds. *)
Lemma lock_progress s i c pc saved : spin_inv s -> cpus s !! i = Some c -> doing c = Locking pc saved -> Forall (fun d => ~ critical d) (cpus s) ->
  exists s', steps spin_step s s' /\ cpus s' !! i = Some (mk_cpu (Critical saved) (rflags c) (own c)).
Proof.
  intros H Hi Hd Hno. assert (word s = 0) as Hw.
  { destruct (inv_held _ H) as [[? _] | (_ & k & e & Hk & He & _)]; [done |]. rewrite Forall_lookup in Hno. by apply (Hno k e Hk) in He. }
  pose proof (lookup_lt_Some _ _ _ Hi) as Hlt.
  assert (forall t d, cpus t !! i = Some d -> word t = 0 -> doing d = Locking PC_EXCHANGE saved ->
            spin_step t (set_cpu t i (mk_cpu (Critical saved) (rflags d) (own d)) 1)) as Henter.
  { intros t d Ht Htw Htd. pose proof (step_locking t i d PC_EXCHANGE saved Ht Htd) as Hst. by rewrite Htw in Hst. }
  destruct pc.
  - exists (set_cpu s i (mk_cpu (Critical saved) (rflags c) (own c)) 1). split; [by apply steps_one, Henter |]. by apply list_lookup_insert_eq.
  - pose proof (step_locking s i c PC_WAIT saved Hi Hd) as Hst. unfold spin_lock_step in Hst. rewrite Hw in Hst. cbn [negb Z.eqb fst snd after_lock] in Hst.
    set (t := set_cpu s i _ _) in Hst. exists (set_cpu t i (mk_cpu (Critical saved) (rflags c) (own c)) 1). split.
    + eapply steps_snoc; [by apply steps_one |].
      apply (Henter t (mk_cpu (Locking PC_EXCHANGE saved) (rflags c) (own c))); [by apply list_lookup_insert_eq | done | done].
    + apply list_lookup_insert_eq. cbn. by rewrite length_insert.
Qed.

(** C25. However the processors interleave: at most one is inside; a processor
    inside with saved flags has interrupts off, and one inside without has them
    as it had set them itself; a processor outside, whether it never used the
    lock, failed to get it or has left it again, has the interrupt flag it last
    set itself; and while nobody is inside, a processor that waits for the lock
    can get it with two accesses. *)
Theorem spinlock_correct n flags s :
  steps spin_step (spin_start n flags) s ->
  (forall i j c d, cpus s !! i = Some c -> cpus s !! j = Some d -> critical c -> critical d -> i = j) /\
  (forall i c saved, cpus s !! i = Some c -> doing c = Critical saved ->
    enabled (rflags c) = match saved with Some _ => false | None => enabled (own c) end) /\
  (forall i c, cpus s !! i = Some c -> doing c = Outside -> enabled (rflags c) = enabled (own c)) /\
  (forall i c pc saved, cpus s !! i = Some c -> doing c = Locking pc saved -> Forall (fun d => ~ critical d) (cpus s) ->
    exists s', steps spin_step s s' /\ cpus s' !! i = Some (mk_cpu (Critical saved) (rflags c) (own c))).
Proof.
  intros Hs. assert (spin_inv s) as H by (apply (steps_invariant spin_step spin_inv (spin_start n flags) s (start_inv n flags)); [intros a b; apply spin_step_inv | done]).
  assert (forall i c, cpus s !! i = Some c -> cpu_ok c) as Hok by (intros i c Hi; pose proof (inv_cpus _ H) as Hf; rewrite Forall_lookup in Hf; by eapply Hf).
  split; [| split; [| split]].
  - intros i j c d Hi Hj Hc Hd. destruct (inv_held _ H) as [[_ Hno] | (_ & k & e & _ & _ & Huniq)]; [rewrite Forall_lookup in Hno; by apply (Hno i c Hi) in Hc |].
    by rewrite (Huniq i c Hi Hc), (Huniq j d Hj Hd).
  - intros i c saved Hi Hd. specialize (Hok i c Hi). unfold cpu_ok in Hok. rewrite Hd in Hok. by destruct saved; [destruct Hok |].
  - intros i c Hi Hd. specialize (Hok i c Hi). unfold cpu_ok in Hok. by rewrite Hd in Hok.
  - intros i c pc saved. by apply lock_progress.
Qed.

(** Two processors: the first has been inside with its interrupts off and has
    left again with them on, the second has begun to wait meanwhile. *)
Lemma spinlock_correct_witness :
  exists s, steps spin_step (spin_start 2 (fun _ => 0x202)) s /\ doing <$> (cpus s !! 1%nat) = Some (Locking PC_WAIT None) /\
    (exists c, cpus s !! 0%nat = Some c /\ doing c = Outside /\ enabled (rflags c) = enabled 0x202).
Proof.
  set (f := 0x202). set (waiting := fun pc => mk_cpu (Locking pc None) f f).
  assert (steps spin_step (spin_start 2 (fun _ => f)) (mk_machine 0 [mk_cpu Outside f f; waiting PC_WAIT])) as H.
  { set (m1 := mk_machine 0 [mk_cpu (Locking PC_EXCHANGE (Some f)) 2 f; mk_cpu Outside f f]).
    set (m2 := mk_machine 1 [mk_cpu (Critical (Some f)) 2 f; mk_cpu Outside f f]). set (m3 := mk_machine 1 [mk_cpu (Critical (Some f)) 2 f; waiting PC_EXCHANGE]).
    set (m4 := mk_machine 1 [mk_cpu (Critical (Some f)) 2 f; waiting PC_WAIT]). set (m5 := mk_machine 0 [mk_cpu (Restoring f) 2 f; waiting PC_WAIT]).
    apply (steps_snoc _ _ m5); [apply (steps_snoc _ _ m4); [apply (steps_snoc _ _ m3); [apply (steps_snoc _ _ m2); [apply (steps_snoc _ _ m1); [apply steps_one |] |] |] |] |].
    - exact (step_irqsave (spin_start 2 (fun _ => f)) 0 (mk_cpu Outside f f) eq_refl eq_refl).
    - exact (step_locking m1 0 (mk_cpu (Locking PC_EXCHANGE (Some f)) 2 f) PC_EXCHANGE (Some f) eq_refl eq_refl).
    - exact (step_lock m2 1 (mk_cpu Outside f f) eq_refl eq_refl).
    - exact (step_locking m3 1 (waiting PC_EXCHANGE) PC_EXCHANGE None eq_refl eq_refl).
    - exact (step_unlock m4 0 (mk_cpu (Critical (Some f)) 2 f) (Some f) eq_refl eq_refl).
    - exact (step_restore m5 0 (mk_cpu (Restoring f) 2 f) f eq_refl eq_refl). }
  eexists. split; [exact H |]. split; [reflexivity |]. destruct (spinlock_correct _ _ _ H) as (_ & _ & H3 & _).
  exists (mk_cpu Outside f f). split; [reflexivity |]. split; [reflexivity |]. exact (H3 0%nat _ eq_refl eq_refl).
Defined.
