(* ===== verification/Entry.v ===== *)
(** * Entering the kernel (kernel/src/exception_stubs.S, irq_stubs.S, interrupts.h)

    The assembly stubs on a machine of registers and a memory of 64-bit words.
    What the processor does when it takes an interrupt in the kernel, and what
    [iretq] does, is modelled as the processor's manual describes it.  For an
    exception what the processor pushed is left in the memory the theorem starts
    from.  [interrupt_dispatch] and [exception_dispatch] are called by the stubs;
    the call of the former is a parameter. *)

From stdpp Require Import base numbers list.
From Stdlib Require Import ZArith Lia.
From S2P Require Import Prelude.

#[local] Open Scope Z_scope.

Definition words := Z -> Z.
Definition put (m : words) (a v : Z) : words := fun b => if b =? a then v else m b.

Record registers := mk_registers {
  rax : Z; rbx : Z; rcx : Z; rdx : Z; rsi : Z; rdi : Z; rbp : Z;
  r8 : Z; r9 : Z; r10 : Z; r11 : Z; r12 : Z; r13 : Z; r14 : Z; r15 : Z;
  rsp : Z; rip : Z; cs : Z; eflags : Z; ss : Z
}.

Definition set_rsp (c : registers) (v : Z) : registers :=
  mk_registers (rax c) (rbx c) (rcx c) (rdx c) (rsi c) (rdi c) (rbp c) (r8 c) (r9 c) (r10 c) (r11 c) (r12 c) (r13 c) (r14 c) (r15 c) v (rip c) (cs c) (eflags c) (ss c).
Definition set_rdi (c : registers) (v : Z) : registers :=
  mk_registers (rax c) (rbx c) (rcx c) (rdx c) (rsi c) v (rbp c) (r8 c) (r9 c) (r10 c) (r11 c) (r12 c) (r13 c) (r14 c) (r15 c) (rsp c) (rip c) (cs c) (eflags c) (ss c).
Definition set_r12 (c : registers) (v : Z) : registers :=
  mk_registers (rax c) (rbx c) (rcx c) (rdx c) (rsi c) (rdi c) (rbp c) (r8 c) (r9 c) (r10 c) (r11 c) v (r13 c) (r14 c) (r15 c) (rsp c) (rip c) (cs c) (eflags c) (ss c).
Definition set_flow (c : registers) (sp ip code flags stack : Z) : registers :=
  mk_registers (rax c) (rbx c) (rcx c) (rdx c) (rsi c) (rdi c) (rbp c) (r8 c) (r9 c) (r10 c) (r11 c) (r12 c) (r13 c) (r14 c) (r15 c) sp ip code flags stack.

(** The bits of the flags that matter here: trap, interrupt, direction. *)
Definition TF : Z := 8.
Definition IF : Z := 9.
Definition DF : Z := 10.

Definition cld (c : registers) : registers := set_flow c (rsp c) (rip c) (cs c) (Z.clearbit (eflags c) DF) (ss c).

(** The general registers in the order of the frame. *)
Definition general (c : registers) : list Z :=
  [rax c; rbx c; rcx c; rdx c; rsi c; rdi c; rbp c; r8 c; r9 c; r10 c; r11 c; r12 c; r13 c; r14 c; r15 c].

Definition push (v : Z) (sm : Z * words) : Z * words := let sp := u64 (fst sm - 8) in (sp, put (snd sm) sp v).

(** ** exception_stubs.S *)

(** EXCEPTION_WITH_ERROR or EXCEPTION_NO_ERROR, by vector. *)
Definition stub_with_error : list bool :=
  [false; false; false; false; false; false; false; false; true; false; true; true; true; true; true; false;
   false; true; false; false; false; true; false; false; false; false; false; false; false; true; true; false].

(** The fifteen pushes of [exception_common_entry] and of IRQ_STUB. *)
Definition push_general (c : registers) (sm : Z * words) : Z * words :=
  push (rax c) (push (rbx c) (push (rcx c) (push (rdx c) (push (rsi c) (push (rdi c) (push (rbp c) (push (r8 c)
    (push (r9 c) (push (r10 c) (push (r11 c) (push (r12 c) (push (r13 c) (push (r14 c) (push (r15 c) sm)))))))))))))).

(** Registers and memory at the call of [exception_dispatch]. *)
Definition exception_common_entry (c : registers) (m : words) : registers * words :=
  let c := cld c in
  let '(sp, m) := push_general c (rsp c, m) in (set_rsp (set_rdi c sp) (Z.land sp (not64 15)), m).

Definition exception_stub (with_error : bool) (vector : Z) (c : registers) (m : words) : registers * words :=
  let '(sp, m) := if with_error then push vector (rsp c, m) else push vector (push 0 (rsp c, m)) in
  exception_common_entry (set_rsp c sp) m.

(** ** interrupts.h *)

Record exception_frame_t := mk_frame {
  f_general : list Z;
  f_vector : Z;
  f_error_code : Z;
  f_rip : Z;
  f_cs : Z;
  f_rflags : Z;
  f_stack_rsp : Z;
  f_stack_ss : Z
}.

Definition frame_at (m : words) (a : Z) : exception_frame_t :=
  mk_frame ((fun i => m (a + 8 * Z.of_nat i)) <$> seq 0 15)
    (m (a + 120)) (m (a + 128)) (m (a + 136)) (m (a + 144)) (m (a + 152)) (m (a + 160)) (m (a + 168)).

(** ** irq_stubs.S *)

(** What the processor does before the first instruction of the stub: the stack
    pointer is aligned, five words are pushed, and the gate gives the address and
    the code segment; an interrupt gate clears the trap and the interrupt flag. *)
Definition deliver (target selector : Z) (c : registers) (m : words) : registers * words :=
  let '(sp, m) := push (rip c) (push (cs c) (push (eflags c) (push (rsp c) (push (ss c) (Z.land (rsp c) (not64 15), m))))) in
  (set_flow c sp target selector (Z.clearbit (Z.clearbit (eflags c) TF) IF) (ss c), m).

(** The registers popped from the stack, in the order of the frame. *)
Definition pop_general (c : registers) (m : words) : registers :=
  let at_ i := m (u64 (rsp c + 8 * i)) in
  mk_registers (at_ 0) (at_ 1) (at_ 2) (at_ 3) (at_ 4) (at_ 5) (at_ 6) (at_ 7) (at_ 8) (at_ 9) (at_ 10) (at_ 11) (at_ 12) (at_ 13) (at_ 14)
    (u64 (rsp c + 120)) (rip c) (cs c) (eflags c) (ss c).

Definition iretq (c : registers) (m : words) : registers :=
  let at_ i := m (u64 (rsp c + 8 * i)) in set_flow c (at_ 3) (at_ 0) (at_ 1) (at_ 2) (at_ 4).

(** [call] is the call of [interrupt_dispatch] until it has returned. *)
Definition irq_stub (call : registers -> words -> registers * words) (vector : Z) (c : registers) (m : words) : registers * words :=
  let c := cld c in
  let '(sp, m) := push_general c (rsp c, m) in
  let c := set_r12 c sp in
  let c := set_rsp c (Z.land sp (not64 15)) in
  let '(c, m) := call (set_rdi c vector) m in
  let c := set_rsp c (r12 c) in
  (iretq (pop_general c m) m, m).

(** ** What the stubs guarantee *)

Lemma push_eq v sp m : 8 <= sp < 2 ^ 64 -> push v (sp, m) = (sp - 8, put m (sp - 8) v).
Proof. intros H. unfold push. cbn [fst snd]. by rewrite u64_small by lia. Qed.

Lemma put_same m a v b : b = a -> put m a v b = v.
Proof. intros ->. unfold put. by rewrite Z.eqb_refl. Qed.

Lemma put_other m a v b : b <> a -> put m a v b = m b.
Proof. intros H. unfold put. by rewrite (proj2 (Z.eqb_neq _ _) H). Qed.

Ltac read_words := repeat (first [rewrite put_same by lia | rewrite put_other by lia]).

Lemma push_general_spec c sp m :
  120 <= sp < 2 ^ 64 ->
  exists m', push_general c (sp, m) = (sp - 120, m') /\ (fun i => m' (sp - 120 + 8 * Z.of_nat i)) <$> seq 0 15 = general c /\
    (forall a, sp <= a -> m' a = m a) /\ (forall a, a < sp - 120 -> m' a = m a).
Proof.
  intros H. unfold push_general. rewrite !push_eq by lia. eexists. split; [f_equal; lia |]. split; [| split].
  - cbn [fmap list_fmap seq general]. repeat (apply (f_equal2 cons); [read_words; done |]). done.
  - intros a Ha. read_words. done.
  - intros a Ha. read_words. done.
Qed.

Lemma land_align sp : 0 <= sp < 2 ^ 64 -> Z.land sp (not64 15) mod 16 = 0 /\ sp - 16 < Z.land sp (not64 15) <= sp.
Proof.
  intros H. change 15 with (2 ^ 4 - 1). rewrite land_not64_low_mask by lia. change (2 ^ 4) with 16. pose proof (Z.mod_pos_bound sp 16 ltac:(done)).
  split; [| lia]. rewrite Zminus_mod, Z.mod_mod, Z.sub_diag by done. done.
Qed.

Lemma exception_stub_spec (vector : Z) (with_error : bool) c m :
  0 <= vector -> stub_with_error !! Z.to_nat vector = Some with_error -> 136 <= rsp c < 2 ^ 64 ->
  let base := if with_error then rsp c + 8 else rsp c in
  let '(c', m') := exception_stub with_error vector c m in
  frame_at m' (rdi c') = mk_frame (general c) vector (if with_error then m (rsp c) else 0) (m base) (m (base + 8)) (m (base + 16)) (m (base + 24)) (m (base + 32)) /\
  rdi c' = base - 136 /\ rsp c' mod 16 = 0 /\ rsp c' <= rdi c' /\ Z.testbit (eflags c') DF = false /\ (forall a, rsp c <= a -> m' a = m a).
Proof.
  intros Hv Hstub Hsp base. unfold exception_stub, exception_common_entry. rewrite !push_eq by lia. destruct with_error; cbn [rsp set_rsp cld set_flow].
  - destruct (push_general_spec (cld (set_rsp c (rsp c - 8))) (rsp c - 8) (put m (rsp c - 8) vector)) as (m' & -> & Hg & Hup & _); [lia |]. cbn [rdi rsp set_rsp set_rdi cld set_flow eflags].
    destruct (land_align (rsp c - 8 - 120) ltac:(lia)) as [Hal [_ Hle]]. split; [| split; [unfold base; lia | split; [done | split; [done | split; [apply Z.clearbit_eq |]]]]]; [| intros a Ha; rewrite Hup by lia; by read_words].
    unfold frame_at. rewrite Hg. rewrite !Hup by lia. read_words. unfold base. f_equal; first [done | f_equal; lia].
  - destruct (push_general_spec (cld (set_rsp c (rsp c - 8 - 8))) (rsp c - 8 - 8) (put (put m (rsp c - 8) 0) (rsp c - 8 - 8) vector)) as (m' & -> & Hg & Hup & _); [lia |]. cbn [rdi rsp set_rsp set_rdi cld set_flow eflags].
    destruct (land_align (rsp c - 8 - 8 - 120) ltac:(lia)) as [Hal [_ Hle]]. split; [| split; [unfold base; lia | split; [done | split; [done | split; [apply Z.clearbit_eq |]]]]]; [| intros a Ha; rewrite Hup by lia; by read_words].
    unfold frame_at. rewrite Hg. rewrite !Hup by lia. read_words. unfold base. f_equal; first [done | f_equal; lia].
Qed.

(** The stub of every exception builds the frame [exception_dispatch] reads:
    the registers as they were, the vector, the error code where the processor
    pushed one and 0 where it did not, and what the processor pushed; the stack
    is aligned for the call, the direction flag is clear and nothing above the
    processor's frame has changed. *)
Theorem exception_entry_correct (vector : Z) (with_error : bool) c m :
  0 <= vector -> stub_with_error !! Z.to_nat vector = Some with_error -> 136 <= rsp c < 2 ^ 64 ->
  let base := if with_error then rsp c + 8 else rsp c in
  let '(c', m') := exception_stub with_error vector c m in
  frame_at m' (rdi c') = mk_frame (general c) vector (if with_error then m (rsp c) else 0) (m base) (m (base + 8)) (m (base + 16)) (m (base + 24)) (m (base + 32)) /\
  rdi c' = base - 136 /\ rsp c' mod 16 = 0 /\ rsp c' <= rdi c' /\ Z.testbit (eflags c') DF = false /\ (forall a, rsp c <= a -> m' a = m a).
Proof. apply exception_stub_spec. Qed.

Definition some_registers : registers := mk_registers 1 2 3 4 5 6 7 8 9 10 11 12 13 14 15 0x9000 0x401000 8 0x602 16.

Lemma exception_entry_correct_witness :
  let '(c', m') := exception_stub true 14 some_registers (fun a => a) in
  frame_at m' (rdi c') = mk_frame (general some_registers) 14 0x9000 0x9008 0x9010 0x9018 0x9020 0x9028 /\
  rdi c' = 0x9008 - 136 /\ rsp c' mod 16 = 0 /\ rsp c' <= rdi c' /\ Z.testbit (eflags c') DF = false /\ (forall a, rsp some_registers <= a -> m' a = a).
Proof. apply (exception_entry_correct 14 true some_registers (fun a => a)); [lia | reflexivity | cbn; lia]. Defined.

(** The five words the processor pushes below [top]. *)
Lemma deliver_spec target selector c m : let top := Z.land (rsp c) (not64 15) in
  40 <= top < 2 ^ 64 ->
  exists m', deliver target selector c m = (set_flow c (top - 40) target selector (Z.clearbit (Z.clearbit (eflags c) TF) IF) (ss c), m') /\
    m' (top - 40) = rip c /\ m' (top - 32) = cs c /\ m' (top - 24) = eflags c /\ m' (top - 16) = rsp c /\ m' (top - 8) = ss c /\
    forall a, top <= a \/ a < top - 40 -> m' a = m a.
Proof.
  intros top Htop. unfold deliver. fold top. rewrite !push_eq by lia. eexists. split; [f_equal; f_equal; lia |].
  do 5 (split; [read_words; done |]). intros a Ha. read_words. done.
Qed.

(** What the stub relies on: [interrupt_dispatch] keeps the callee-saved
    registers, and it leaves alone the twenty words below [top] that the
    processor and the stub have saved. *)
Record convention (top : Z) (call : registers -> words -> registers * words) : Prop := {
  keeps_registers c m : let c' := fst (call c m) in
    rbx c' = rbx c /\ rbp c' = rbp c /\ r12 c' = r12 c /\ r13 c' = r13 c /\ r14 c' = r14 c /\ r15 c' = r15 c /\ rsp c' = rsp c;
  keeps_frame c m k : 1 <= k <= 20 -> snd (call c m) (top - 8 * k) = m (top - 8 * k)
}.

(** Popping what was pushed. *)
Lemma pop_general_spec c0 c m :
  0 <= rsp c < 2 ^ 64 - 120 -> (fun i => m (rsp c + 8 * Z.of_nat i)) <$> seq 0 15 = general c0 ->
  pop_general c m = set_flow c0 (rsp c + 120) (rip c) (cs c) (eflags c) (ss c).
Proof.
  intros Hsp Hg. assert (forall i, 0 <= i <= 15 -> u64 (rsp c + 8 * i) = rsp c + 8 * i) as Hu by (intros i Hi; apply u64_small; lia).
  cbn [fmap list_fmap seq general] in Hg. injection Hg as E0 E1 E2 E3 E4 E5 E6 E7 E8 E9 E10 E11 E12 E13 E14.
  unfold pop_general, set_flow. rewrite !Hu by lia. rewrite (u64_small (rsp c + 120)) by lia. f_equal; done.
Qed.

(** C26. An interrupt is invisible to the code it interrupts: after the processor
    has saved its frame, the stub has called the handler and [iretq] has run,
    every register is as it was, the instruction pointer, the flags, the segments
    and the stack pointer included, and memory is exactly what the handler left.
    The handler is called with the vector, an aligned stack, the direction flag
    clear and interrupts off, on a memory that differs from the interrupted one
    only in the twenty words saved below the stack pointer.  The handler may do
    anything but change the callee-saved registers or those twenty words. *)
Theorem irq_stub_transparent call vector target selector c m : let top := Z.land (rsp c) (not64 15) in
  convention top call -> 176 <= rsp c < 2 ^ 64 ->
  let '(c0, m0) := deliver target selector c m in
  exists c1 m1, irq_stub call vector c0 m0 = (c, snd (call c1 m1)) /\
    rdi c1 = vector /\ rsp c1 mod 16 = 0 /\ Z.testbit (eflags c1) DF = false /\ Z.testbit (eflags c1) IF = false /\
    forall a, top <= a \/ a < top - 160 -> m1 a = m a.
Proof.
  intros top [Hregs Hframe] Hsp. destruct (land_align (rsp c) ltac:(lia)) as [_ Htop]. fold top in Htop.
  destruct (deliver_spec target selector c m ltac:(lia)) as (m0 & -> & Eip & Ecs & Efl & Esp & Ess & Hout). fold top in Eip, Ecs, Efl, Esp, Ess, Hout |- *.
  unfold irq_stub. set (c0 := cld _). destruct (push_general_spec c0 (top - 40) m0 ltac:(lia)) as (m1 & E & Hg & Hup & Hdown).
  change (rsp c0) with (top - 40). rewrite E. set (c1 := set_rdi _ _). exists c1, m1. specialize (Hregs c1 m1). specialize (Hframe c1 m1).
  destruct (call c1 m1) as [c2 m2]. cbn [fst snd] in *. destruct Hregs as (_ & _ & H12 & _). change (r12 c1) with (top - 40 - 120) in H12. rewrite H12.
  assert (forall k, 1 <= k <= 20 -> m2 (u64 (top - 8 * k)) = m1 (top - 8 * k)) as Hm2 by (intros k Hk; rewrite u64_small by lia; by apply Hframe).
  split; [| split; [done |]; split; [apply land_align; lia |]; split; [apply Z.clearbit_eq |]; split; [| intros a Ha; destruct Ha; [rewrite Hup by lia | rewrite Hdown by lia]; apply Hout; lia]].
  - f_equal. rewrite (pop_general_spec c0); [| cbn; lia |].
    + unfold iretq. cbn [set_flow set_rsp rsp].
      assert (forall i, 0 <= i < 5 -> m2 (u64 (top - 40 - 120 + 120 + 8 * i)) = m0 (top - 40 + 8 * i)) as Hf.
      { intros i Hi. replace (top - 40 - 120 + 120 + 8 * i) with (top - 8 * (5 - i)) by lia. rewrite Hm2 by lia. rewrite Hup by lia. f_equal. lia. }
      rewrite !Hf by lia. rewrite !Z.add_0_r, Eip. replace (top - 40 + 8 * 1) with (top - 32) by lia. replace (top - 40 + 8 * 2) with (top - 24) by lia.
      replace (top - 40 + 8 * 3) with (top - 16) by lia. replace (top - 40 + 8 * 4) with (top - 8) by lia. rewrite Ecs, Efl, Esp, Ess. by destruct c.
    + rewrite <- Hg. apply list_fmap_ext. intros j i [-> Hj]%lookup_seq. cbn [rsp set_rsp]. replace (top - 40 - 120 + 8 * Z.of_nat (0 + j)) with (top - 8 * (20 - Z.of_nat j)) by lia.
      apply Hframe. lia.
  - cbn [c1 c0 cld eflags set_rdi set_rsp set_r12 set_flow]. rewrite Z.clearbit_neq by done. apply Z.clearbit_eq.
Qed.

(** A callee that uses every register it may and the stack below it, and counts
    in a word above the interrupted stack. *)
Definition counting (c : registers) (m : words) : registers * words :=
  (mk_registers 0 (rbx c) 0 0 0 0 (rbp c) 0 0 0 0 (r12 c) (r13 c) (r14 c) (r15 c) (rsp c) 0 (cs c) 0 (ss c), put (fun a => if a <? 0x8f60 then 0 else m a) 0xa000 (m 0xa000 + 1)).

Lemma counting_convention : convention 0x9000 counting.
Proof.
  split; [done |]. intros c m k Hk. cbn [counting snd]. rewrite put_other by lia. by rewrite (proj2 (Z.ltb_ge _ _)) by lia.
Qed.

(** The timer's interrupt; the interrupted code had interrupts on and the
    direction flag set. *)
Lemma irq_stub_transparent_witness :
  let '(c0, m0) := deliver 0x500000 8 (set_rsp some_registers 0x9008) (fun a => a) in
  exists m', irq_stub counting 32 c0 m0 = (set_rsp some_registers 0x9008, m') /\ m' 0xa000 = 0xa001 /\ m' 0x9010 = 0x9010.
Proof.
  destruct (irq_stub_transparent counting 32 0x500000 8 (set_rsp some_registers 0x9008) (fun a => a) counting_convention ltac:(cbn; lia)) as (c1 & m1 & E & _ & _ & _ & _ & Hm).
  eexists. split; [exact E |]. change (Z.land (rsp (set_rsp some_registers 0x9008)) (not64 15)) with 0x9000 in Hm. cbn [counting snd].
  split; [rewrite put_same by done; rewrite Hm by lia; reflexivity | rewrite put_other by done; cbn; apply Hm; lia].
Defined.
