(* ===== verification/Interrupts.v ===== *)
(** * Interrupts (kernel/src/interrupts.c, serial.c, gdt.c)

    The interrupt descriptor table, the table of handlers, dispatch, and the
    report of a fatal exception on the serial line.  [K] is the rest of the
    kernel, which handlers change; the processor's flags are part of the
    state.  What is sent on the serial line is a list of characters, each sent
    once the line is ready for it; a string is its characters without the
    terminating zero.  Loading the tables into the processor's registers is not
    modelled. *)

From stdpp Require Import base numbers list.
From Stdlib Require Import ZArith Lia String.
From S2P Require Import Prelude Bytes Spinlock Entry.

#[local] Open Scope Z_scope.

(** ** serial.c *)

Definition newline : Z := 10.

Definition serial_write (text : list Z) (out : list Z) : list Z :=
  out ++ foldr (fun c rest => if c =? newline then 13 :: c :: rest else c :: rest) [] text.

Definition digits : list Z := chars "0123456789ABCDEF".

(** The digits from [shift] down, of which [n] are left. *)
Fixpoint hex_loop (n : nat) (shift value : Z) (out : list Z) : option (list Z) :=
  match n with
  | O => Some out
  | S n => d ← rd digits (Z.land (Z.shiftr value shift) 0x0f); hex_loop n (shift - 4) value (out ++ [d])
  end.

Definition serial_write_hex64 (value : Z) (out : list Z) : option (list Z) := hex_loop 16 60 value (serial_write (chars "0x") out).

(** ** The descriptor tables *)

Definition IDT_ENTRIES : Z := 256.
Definition IDT_GATE_INTERRUPT : Z := 0x8e.

Record idt_entry_t := mk_gate {
  offset_low : Z;
  selector : Z;
  ist : Z;
  type_attr : Z;
  offset_mid : Z;
  offset_high : Z;
  gate_reserved : Z
}.

Definition make_gate (handler selector ist : Z) : idt_entry_t :=
  mk_gate (u16 (Z.land handler 0xffff)) selector (Z.land ist 7) IDT_GATE_INTERRUPT
    (u16 (Z.land (Z.shiftr handler 16) 0xffff)) (u32 (Z.land (Z.shiftr handler 32) 0xffffffff)) 0.

Definition idt_set_gate (idt : list idt_entry_t) (vector handler selector ist : Z) : option (list idt_entry_t) :=
  wr idt vector (make_gate handler selector ist).

(** The two words [build_tss_descriptor] puts into the global table. *)
Definition build_tss_descriptor (base limit : Z) : Z * Z :=
  let descriptor := 0 in
  let descriptor := Z.lor descriptor (Z.land limit 0xffff) in
  let descriptor := Z.lor descriptor (u64 (Z.shiftl (Z.land base 0xffff) 16)) in
  let descriptor := Z.lor descriptor (u64 (Z.shiftl (Z.land (Z.shiftr base 16) 0xff) 32)) in
  let descriptor := Z.lor descriptor (u64 (Z.shiftl 0x89 40)) in
  let descriptor := Z.lor descriptor (u64 (Z.shiftl (Z.land (Z.shiftr limit 16) 0x0f) 48)) in
  let descriptor := Z.lor descriptor (u64 (Z.shiftl (Z.land (Z.shiftr base 24) 0xff) 56)) in
  (descriptor, Z.shiftr base 32).

Definition GDT_DOUBLE_FAULT_IST_INDEX : Z := 1.
Definition DOUBLE_FAULT_STACK_SIZE : Z := 16384.
Definition sizeof_tss : Z := 104.

(** What [gdt_init] writes before it loads the registers: the five words of the
    table, the stack of IST 1 and the I/O map base.  [tss] and [stack] are the
    addresses of the task state segment and of [double_fault_stack]. *)
Definition gdt_tables (tss stack : Z) : list Z * Z * Z :=
  let ist1 := u64 (stack + DOUBLE_FAULT_STACK_SIZE) in
  let iomap_base := u16 sizeof_tss in
  let '(low, high) := build_tss_descriptor tss (u32 (sizeof_tss - 1)) in
  ([0; 0x00209a0000000000; 0x0000920000000000; low; high], ist1, iomap_base).

(** ** Handlers *)

Section Interrupts.
Context {K : Type} (apic_eoi : K -> K) (exception_stub_table : list Z) (irq_stub_32 irq_stub_33 irq_stub_254 irq_stub_255 : Z).

(** A handler is called with the vector and its context. *)
Definition interrupt_handler_t : Type := Z -> Z -> K -> K.

Record interrupts := mk_interrupts {
  idt : list idt_entry_t;
  handlers : list (option interrupt_handler_t);
  handler_contexts : list Z;
  unhandled_count : Z;
  rflags : Z
}.

Definition set_rflags (s : interrupts) f : interrupts := mk_interrupts (idt s) (handlers s) (handler_contexts s) (unhandled_count s) f.

Definition interrupts_save_disable (s : interrupts) : Z * interrupts := (rflags s, set_rflags s (Z.ldiff (rflags s) FLAG_IF)).
Definition interrupts_restore (s : interrupts) (flags : Z) : interrupts :=
  if negb (Z.land flags FLAG_IF =? 0) then set_rflags s (Z.lor (rflags s) FLAG_IF) else s.
Definition interrupts_enable (s : interrupts) : interrupts := set_rflags s (Z.lor (rflags s) FLAG_IF).
Definition interrupts_disable (s : interrupts) : interrupts := set_rflags s (Z.ldiff (rflags s) FLAG_IF).
Definition interrupts_are_enabled (s : interrupts) : bool := negb (Z.land (rflags s) FLAG_IF =? 0).

Definition interrupts_register_handler (s : interrupts) (vector : Z) (handler : option interrupt_handler_t) (context : Z) : option (bool * interrupts) :=
  match handler with
  | None => Some (false, s)
  | Some _ =>
      if vector <? 32 then Some (false, s)
      else
        let '(flags, s) := interrupts_save_disable s in
        hs ← wr (handlers s) vector handler;
        cs ← wr (handler_contexts s) vector context;
        Some (true, interrupts_restore (mk_interrupts (idt s) hs cs (unhandled_count s) (rflags s)) flags)
  end.

Definition interrupts_unhandled_count (s : interrupts) : Z := unhandled_count s.

Definition count_unhandled (s : interrupts) : interrupts :=
  mk_interrupts (idt s) (handlers s) (handler_contexts s) (u64 (unhandled_count s + 1)) (rflags s).

Definition interrupt_dispatch (s : interrupts) (vector : Z) (k : K) : option (interrupts * K) :=
  if IDT_ENTRIES <=? vector then Some (s, k)
  else
    handler ← rd (handlers s) vector;
    '(s, k) ← match handler with
              | Some h => context ← rd (handler_contexts s) vector; Some (s, h (u8 vector) context k)
              | None => Some (if negb (vector =? 255) then count_unhandled s else s, k)
              end;
    Some (s, if (32 <=? vector) && (vector <? 255) then apic_eoi k else k).

(** The gates of the exceptions from [vector] on; [n] are left. *)
Fixpoint gates_loop (n : nat) (vector selector : Z) (idt : list idt_entry_t) : option (list idt_entry_t) :=
  match n with
  | O => Some idt
  | S n =>
      stub ← rd exception_stub_table vector;
      idt ← idt_set_gate idt vector stub selector (if vector =? 8 then GDT_DOUBLE_FAULT_IST_INDEX else 0);
      gates_loop n (vector + 1) selector idt
  end.

(** [selector] is the code selector the processor runs with. *)
Definition interrupts_init (s : interrupts) (selector : Z) : option interrupts :=
  let s := interrupts_disable s in
  idt ← gates_loop 32 0 selector (idt s);
  idt ← idt_set_gate idt 32 irq_stub_32 selector 0;
  idt ← idt_set_gate idt 33 irq_stub_33 selector 0;
  idt ← idt_set_gate idt 254 irq_stub_254 selector 0;
  idt ← idt_set_gate idt 255 irq_stub_255 selector 0;
  Some (mk_interrupts idt (handlers s) (handler_contexts s) (unhandled_count s) (rflags s)).

End Interrupts.

(** ** Fatal exceptions *)

Definition exception_has_saved_stack (frame : exception_frame_t) : bool :=
  (f_vector frame =? 8) || negb (Z.land (f_cs frame) 3 =? 0).

(** [address] is the address of the frame. *)
Definition interrupted_rsp (address : Z) (frame : exception_frame_t) : Z :=
  if exception_has_saved_stack frame then f_stack_rsp frame else u64 (address + 160).

Definition serial_field (name : string) (value : Z) (out : list Z) : option (list Z) :=
  let out := serial_write (chars "=") (serial_write (chars name) out) in
  out ← serial_write_hex64 value out;
  Some (serial_write [newline] out).

Fixpoint serial_fields (fields : list (string * Z)) (out : list Z) : option (list Z) :=
  match fields with
  | [] => Some out
  | (name, value) :: fields => out ← serial_field name value out; serial_fields fields out
  end.

Definition general_names : list (string) := ["RAX"; "RBX"; "RCX"; "RDX"; "RSI"; "RDI"; "RBP"]%string.
Definition extended_names : list (string) := ["R8"; "R9"; "R10"; "R11"; "R12"; "R13"; "R14"; "R15"]%string.

(** The report; [cr2] is the processor's register. *)
Definition exception_dispatch (address : Z) (frame : exception_frame_t) (cr2 : Z) (out : list Z) : option (list Z) :=
  let out := serial_write (chars "JOSHOS_PANIC_EXCEPTION" ++ [newline]) out in
  out ← serial_fields [("VECTOR", f_vector frame); ("ERROR", f_error_code frame); ("RIP", f_rip frame); ("CS", f_cs frame); ("RFLAGS", f_rflags frame)]%string out;
  let out := serial_write (chars "JOSHOS_REGISTER_DUMP" ++ [newline]) out in
  out ← serial_fields (zip general_names (take 7 (f_general frame)) ++ [("RSP"%string, interrupted_rsp address frame)] ++
          zip extended_names (drop 7 (f_general frame))) out;
  out ← (if exception_has_saved_stack frame then serial_field "SS" (f_stack_ss frame) out else Some out);
  out ← (if f_vector frame =? 14 then serial_field "CR2" cr2 out else Some out);
  Some (serial_write (chars "JOSHOS_PANIC_HALT" ++ [newline]) out).

(** ** The tables *)

(** The [w] bits of [d] from bit [lo]. *)
Definition field (d lo w : Z) : Z := Z.land (Z.shiftr d lo) (Z.ones w).

Lemma field_spec d lo w n : 0 <= n -> 0 <= w -> 0 <= lo -> Z.testbit (field d lo w) n = (n <? w) && Z.testbit d (n + lo).
Proof.
  intros Hn Hw Hlo. unfold field. rewrite Z.land_spec, Z.shiftr_spec, Z.testbit_ones_nonneg by done. apply andb_comm.
Qed.

Lemma field_range d lo w : 0 <= w -> 0 <= field d lo w < 2 ^ w.
Proof. intros Hw. unfold field. rewrite Z.land_ones by done. apply Z.mod_pos_bound. by apply Z.pow_pos_nonneg. Qed.

(** Where the processor finds the entry point of a gate. *)
Definition gate_target (g : idt_entry_t) : Z := Z.lor (offset_low g) (Z.lor (Z.shiftl (offset_mid g) 16) (Z.shiftl (offset_high g) 32)).

Lemma testbit_high z n w : 0 <= z < 2 ^ w -> w <= n -> Z.testbit z n = false.
Proof.
  intros Hz Hn. destruct (decide (z = 0)) as [-> | Hz0]; [apply Z.bits_0 |]. apply Z.bits_above_log2; [lia |]. apply Z.log2_lt_pow2; [lia |].
  apply Z.lt_le_trans with (2 ^ w); [lia |]. apply Z.pow_le_mono_r; lia.
Qed.

Lemma make_gate_target handler selector ist : 0 <= handler < 2 ^ 64 -> gate_target (make_gate handler selector ist) = handler.
Proof.
  intros H. unfold gate_target, make_gate. cbn [offset_low offset_mid offset_high].
  pose proof (field_range handler 0 16 ltac:(done)). pose proof (field_range handler 16 16 ltac:(done)). pose proof (field_range handler 32 32 ltac:(done)).
  change (Z.land handler 0xffff) with (field handler 0 16). change (Z.land (Z.shiftr handler 16) 0xffff) with (field handler 16 16).
  change (Z.land (Z.shiftr handler 32) 0xffffffff) with (field handler 32 32). rewrite !u16_small, u32_small by lia.
  apply Z.bits_inj'. intros n Hn. rewrite !Z.lor_spec, !Z.shiftl_spec by done.
  destruct (decide (n < 16)).
  { rewrite !(Z.testbit_neg_r _ (n - _)) by lia. rewrite field_spec, Z.add_0_r, orb_false_r by lia. by rewrite (proj2 (Z.ltb_lt n 16)) by lia. }
  rewrite field_spec, (proj2 (Z.ltb_ge n 16)) by lia. cbn [andb orb]. destruct (decide (n < 32)).
  { rewrite (Z.testbit_neg_r _ (n - 32)) by lia. rewrite field_spec, (proj2 (Z.ltb_lt (n - 16) 16)), orb_false_r by lia. cbn [andb]. f_equal. lia. }
  rewrite !field_spec, (proj2 (Z.ltb_ge (n - 16) 16)) by lia. cbn [andb orb]. replace (n - 32 + 32) with n by lia.
  destruct (Z.ltb_spec (n - 32) 32); [done |]. symmetry. apply (testbit_high _ _ 64); lia.
Qed.

(** ** Handlers *)

Lemma idt_set_gate_spec idt0 vector handler selector ist :
  zlen idt0 = IDT_ENTRIES -> 0 <= vector < IDT_ENTRIES ->
  exists idt1, idt_set_gate idt0 vector handler selector ist = Some idt1 /\ zlen idt1 = IDT_ENTRIES /\
    forall v, rd idt1 v = if v =? vector then Some (make_gate handler selector ist) else rd idt0 v.
Proof.
  intros Hlen Hv. unfold idt_set_gate. destruct (wr idt0 vector (make_gate handler selector ist)) as [idt1 |] eqn:E; [| by rewrite wr_in_range in E by lia].
  exists idt1. split; [done |]. split; [by rewrite (zlen_wr _ _ _ _ E) |]. intros v. destruct (Z.eqb_spec v vector) as [-> | Hne]; [exact (rd_wr_eq _ _ _ _ E) |].
  by apply (rd_wr_ne _ _ _ _ _ E).
Qed.

Definition exception_ist (vector : Z) : Z := if vector =? 8 then GDT_DOUBLE_FAULT_IST_INDEX else 0.

Lemma gates_loop_spec table n vector selector idt0 :
  zlen idt0 = IDT_ENTRIES -> 0 <= vector -> vector + Z.of_nat n <= zlen table -> vector + Z.of_nat n <= IDT_ENTRIES ->
  exists idt1, gates_loop table n vector selector idt0 = Some idt1 /\ zlen idt1 = IDT_ENTRIES /\
    forall v, rd idt1 v = if (vector <=? v) && (v <? vector + Z.of_nat n)
                          then stub ← rd table v; Some (make_gate stub selector (exception_ist v)) else rd idt0 v.
Proof.
  revert vector idt0. induction n as [| n IH]; intros vector idt0 Hlen Hv Ht Hi.
  { exists idt0. split; [done |]. split; [done |]. intros v. destruct (Z.leb_spec vector v), (Z.ltb_spec v (vector + Z.of_nat 0)); cbn; done || lia. }
  cbn [gates_loop]. destruct (rd_in_range table vector) as [stub Hstub]; [lia |]. rewrite Hstub. cbn [mbind option_bind]. fold (exception_ist vector).
  destruct (idt_set_gate_spec idt0 vector stub selector (exception_ist vector)) as (idt1 & -> & Hlen1 & H1); [done | lia |]. cbn [mbind option_bind].
  destruct (IH (vector + 1) idt1) as (idt2 & -> & Hlen2 & H2); [done | lia.. |]. exists idt2. split; [done |]. split; [done |]. intros v.
  rewrite H2, H1. replace (vector + 1 + Z.of_nat n) with (vector + Z.of_nat (S n)) by lia.
  destruct (Z.eqb_spec v vector) as [-> | Hne].
  - rewrite (proj2 (Z.leb_gt (vector + 1) vector)), (proj2 (Z.leb_le vector vector)), (proj2 (Z.ltb_lt vector _)) by lia. cbn [andb]. by rewrite Hstub.
  - replace (vector + 1 <=? v) with (vector <=? v); [done |]. destruct (Z.leb_spec vector v), (Z.leb_spec (vector + 1) v); done || lia.
Qed.

Lemma ldiff_if_bit f : Z.testbit (Z.ldiff f FLAG_IF) 9 = false.
Proof. rewrite Z.ldiff_spec. by rewrite andb_false_r. Qed.

Lemma flag_if_bit f : negb (Z.land f FLAG_IF =? 0) = Z.testbit f 9.
Proof.
  change FLAG_IF with (2 ^ 9). destruct (Z.testbit f 9) eqn:E.
  - destruct (Z.eqb_spec (Z.land f (2 ^ 9)) 0) as [H |]; [| done]. apply (f_equal (fun z => Z.testbit z 9)) in H.
    rewrite Z.land_spec, E, Z.bits_0 in H. discriminate H.
  - replace (Z.land f (2 ^ 9)) with 0; [done |]. symmetry. apply Z.bits_inj'. intros n Hn. rewrite Z.land_spec, Z.bits_0, Z.pow2_bits_eqb by done.
    destruct (Z.eqb_spec 9 n) as [<- |]; [by rewrite E | apply andb_false_r].
Qed.

Lemma flag_if_restored f : (if Z.testbit f 9 then Z.lor (Z.ldiff f FLAG_IF) FLAG_IF else Z.ldiff f FLAG_IF) = f.
Proof.
  change FLAG_IF with (2 ^ 9). destruct (Z.testbit f 9) eqn:E; apply Z.bits_inj'; intros n Hn; rewrite ?Z.lor_spec, Z.ldiff_spec, Z.pow2_bits_eqb by done;
    destruct (Z.eqb_spec 9 n) as [<- |]; rewrite ?E; cbn; rewrite ?andb_true_r, ?orb_false_r; done.
Qed.

(** The entry point of each vector, [None] where no gate is installed. *)
Definition vector_stub (table : list Z) (i32 i33 i254 i255 v : Z) : option Z :=
  if v <? 32 then rd table v
  else if v =? 32 then Some i32 else if v =? 33 then Some i33 else if v =? 254 then Some i254 else if v =? 255 then Some i255 else None.

(** After [interrupts_init] interrupts are disabled and the gate of every
    exception and of the four interrupt vectors is a present interrupt gate whose
    entry point is exactly the stub of that vector, with the emergency stack for
    double faults and for nothing else; the other gates and the handlers are as
    they were. *)
Theorem interrupts_init_correct {K} (table : list Z) (i32 i33 i254 i255 sel : Z) (s : interrupts (K := K)) :
  zlen (idt s) = IDT_ENTRIES -> zlen table = 32 -> Forall (fun a => 0 <= a < 2 ^ 64) (i32 :: i33 :: i254 :: i255 :: table) ->
  exists s', interrupts_init table i32 i33 i254 i255 s sel = Some s' /\ interrupts_are_enabled s' = false /\
    handlers s' = handlers s /\ handler_contexts s' = handler_contexts s /\ zlen (idt s') = IDT_ENTRIES /\
    forall v, 0 <= v < IDT_ENTRIES ->
      match vector_stub table i32 i33 i254 i255 v with
      | Some a => exists g, rd (idt s') v = Some g /\ gate_target g = a /\ selector g = sel /\ type_attr g = 0x8e /\ ist g = (if v =? 8 then 1 else 0)
      | None => rd (idt s') v = rd (idt s) v
      end.
Proof.
  intros Hlen Ht Hall. unfold interrupts_init. cbn [interrupts_disable set_rflags idt handlers handler_contexts unhandled_count rflags].
  destruct (gates_loop_spec table 32 0 sel (idt s)) as (t0 & -> & L0 & R0); [done | lia | lia | done |]. cbn [mbind option_bind].
  destruct (idt_set_gate_spec t0 32 i32 sel 0) as (t1 & -> & L1 & R1); [done | done |]. cbn [mbind option_bind].
  destruct (idt_set_gate_spec t1 33 i33 sel 0) as (t2 & -> & L2 & R2); [done | done |]. cbn [mbind option_bind].
  destruct (idt_set_gate_spec t2 254 i254 sel 0) as (t3 & -> & L3 & R3); [done | done |]. cbn [mbind option_bind].
  destruct (idt_set_gate_spec t3 255 i255 sel 0) as (t4 & -> & L4 & R4); [done | done |]. cbn [mbind option_bind].
  eexists. split; [reflexivity |]. unfold interrupts_are_enabled. cbn [idt handlers handler_contexts rflags]. rewrite flag_if_bit. split; [apply ldiff_if_bit |].
  do 2 (split; [done |]). split; [done |]. intros v Hv. rewrite R4, R3, R2, R1, R0.
  assert (forall a k, a ∈ (i32 :: i33 :: i254 :: i255 :: table) -> exists g, Some (make_gate a sel k) = Some g /\ gate_target g = a /\ selector g = sel /\ type_attr g = 0x8e /\ ist g = Z.land k 7) as Hg.
  { intros a k Ha. eexists. split; [reflexivity |]. split; [| done]. apply make_gate_target. by apply (proj1 (Forall_forall _ _) Hall). }
  unfold vector_stub. destruct (Z.ltb_spec v 32).
  - rewrite !(proj2 (Z.eqb_neq v _)) by lia. rewrite (proj2 (Z.leb_le 0 v)), (proj2 (Z.ltb_lt v _)) by lia. cbn [andb].
    destruct (rd table v) as [a |] eqn:Ea; [| by destruct (rd_in_range table v) as [? ?]; [lia | congruence]]. cbn [mbind option_bind].
    destruct (Hg a (exception_ist v)) as (g & Eg & Hg1 & Hg2 & Hg3 & Hg4); [apply list_elem_of_lookup_2 with (Z.to_nat v + 4)%nat; apply rd_lookup in Ea as [_ Ea]; by rewrite Nat.add_comm |].
    exists g. do 4 (split; [done |]). rewrite Hg4. unfold exception_ist. by destruct (v =? 8).
  - rewrite (proj2 (Z.eqb_neq v 8)) by lia. rewrite (proj2 (Z.ltb_ge v (0 + Z.of_nat 32))), andb_false_r by lia.
    destruct (Z.eqb_spec v 255) as [-> |]; [apply (Hg _ 0); rewrite !elem_of_cons; tauto |]. destruct (Z.eqb_spec v 254) as [-> |]; [apply (Hg _ 0); rewrite !elem_of_cons; tauto |].
    destruct (Z.eqb_spec v 33) as [-> |]; [apply (Hg _ 0); rewrite !elem_of_cons; tauto |]. destruct (Z.eqb_spec v 32) as [-> |]; [apply (Hg _ 0); rewrite !elem_of_cons; tauto |]. done.
Qed.

Definition no_interrupts : interrupts (K := list Z) :=
  mk_interrupts (replicate 256 (mk_gate 0 0 0 0 0 0 0)) (replicate 256 None) (replicate 256 0) 0 0x202.

Definition some_stubs : list Z := (fun i => 0xffffffff80001000 + 16 * i) <$> seqZ 0 32.

Lemma interrupts_init_correct_witness :
  exists s', interrupts_init some_stubs 0xffffffff80002000 0xffffffff80002040 0xffffffff80002080 0xffffffff800020c0 no_interrupts 8 = Some s' /\
    exists g, rd (idt s') 14 = Some g /\ gate_target g = 0xffffffff800010e0.
Proof.
  destruct (interrupts_init_correct some_stubs 0xffffffff80002000 0xffffffff80002040 0xffffffff80002080 0xffffffff800020c0 8 no_interrupts) as (s' & E & _ & _ & _ & _ & H);
    [reflexivity | reflexivity | apply (bool_decide_unpack _); vm_compute; exact I |].
  exists s'. split; [exact E |]. destruct (H 14 ltac:(split; reflexivity || discriminate)) as (g & Hg & Ht & _). exists g. split; [exact Hg | exact Ht].
Defined.

(** Saving and restoring around an update leaves the flags alone. *)
Lemma restore_saved {K} i (hs : list (option (interrupt_handler_t (K := K)))) cs n f :
  interrupts_restore (mk_interrupts i hs cs n (Z.ldiff f FLAG_IF)) f = mk_interrupts i hs cs n f.
Proof.
  unfold interrupts_restore, set_rflags. rewrite flag_if_bit. cbn [idt handlers handler_contexts unhandled_count rflags].
  rewrite <- (flag_if_restored f) at 4. by destruct (Z.testbit f 9).
Qed.

(** Interrupt tables of the sizes the code declares. *)
Definition tables_ok {K} (s : interrupts (K := K)) : Prop :=
  zlen (idt s) = IDT_ENTRIES /\ zlen (handlers s) = IDT_ENTRIES /\ zlen (handler_contexts s) = IDT_ENTRIES.

(** What one interrupt does: the registered handler runs once, with its vector
    and context; one without a handler is counted, unless it is the spurious
    vector; the local APIC is told of every interrupt vector but the spurious one,
    after the handler, exactly once. *)
Definition delivered {K} (eoi : K -> K) (s : interrupts (K := K)) (v : Z) (k : K) (h : option interrupt_handler_t) (ctx : Z) : interrupts (K := K) * K :=
  (match h with Some _ => s | None => if v =? 255 then s else count_unhandled s end,
   let k' := match h with Some f => f v ctx k | None => k end in if (32 <=? v) && negb (v =? 255) then eoi k' else k').

Lemma interrupt_delivery_spec {K} (eoi : K -> K) (s : interrupts (K := K)) :
  tables_ok s ->
  (forall v k, 0 <= v -> exists r, interrupt_dispatch eoi s v k = Some r /\
     if v <? IDT_ENTRIES
     then exists h ctx, rd (handlers s) v = Some h /\ rd (handler_contexts s) v = Some ctx /\ r = delivered eoi s v k h ctx
     else r = (s, k)) /\
  (forall v h ctx, 0 <= v < 256 -> exists ok s', interrupts_register_handler s v h ctx = Some (ok, s') /\
     ok = (32 <=? v) && bool_decide (is_Some h) /\ (if ok then tables_ok s' /\ rflags s' = rflags s /\ idt s' = idt s /\ unhandled_count s' = unhandled_count s else s' = s) /\
     (ok = true -> rd (handlers s') v = Some h /\ rd (handler_contexts s') v = Some ctx) /\
     forall w, w <> v -> rd (handlers s') w = rd (handlers s) w /\ rd (handler_contexts s') w = rd (handler_contexts s) w).
Proof.
  intros (Hi & Hh & Hc). split.
  - intros v k Hv. unfold interrupt_dispatch. destruct (Z.leb_spec IDT_ENTRIES v).
    { rewrite (proj2 (Z.ltb_ge v IDT_ENTRIES)) by done. by eexists. }
    rewrite (proj2 (Z.ltb_lt v IDT_ENTRIES)) by done. destruct (rd_in_range (handlers s) v) as [h Eh]; [lia |]. destruct (rd_in_range (handler_contexts s) v) as [ctx Ec]; [lia |].
    rewrite Eh, Ec. cbn [mbind option_bind]. exists (delivered eoi s v k h ctx). split; [| by exists h, ctx]. unfold delivered.
    assert ((32 <=? v) && (v <? 255) = (32 <=? v) && negb (v =? 255)) as ->.
    { f_equal. unfold IDT_ENTRIES in *. destruct (Z.ltb_spec v 255), (Z.eqb_spec v 255); done || lia. }
    destruct h as [f |]; cbn [mbind option_bind]; [unfold IDT_ENTRIES in *; by rewrite u8_small by lia | by destruct (v =? 255)].
  - intros v h ctx Hv. destruct h as [f |]; [| exists false, s; split; [done |]; split; [by rewrite andb_comm |]; done].
    unfold interrupts_register_handler. destruct (Z.ltb_spec v 32); [exists false, s; split; [done |]; split; [by rewrite (proj2 (Z.leb_gt 32 v)) |]; done |].
    destruct (wr (handlers s) v (Some f)) as [hs |] eqn:Eh; [| by rewrite wr_in_range in Eh by (rewrite Hh; done)].
    destruct (wr (handler_contexts s) v ctx) as [cs |] eqn:Ec; [| by rewrite wr_in_range in Ec by (rewrite Hc; done)].
    cbn [interrupts_save_disable set_rflags handlers handler_contexts]. rewrite Eh, Ec. cbn [mbind option_bind idt unhandled_count rflags set_rflags].
    rewrite restore_saved. exists true. eexists. split; [reflexivity |]. split; [by rewrite (proj2 (Z.leb_le 32 v)) |]. split; [| split].
    + unfold tables_ok. cbn. by rewrite (zlen_wr _ _ _ _ Eh), (zlen_wr _ _ _ _ Ec).
    + intros _. split; [exact (rd_wr_eq _ _ _ _ Eh) | exact (rd_wr_eq _ _ _ _ Ec)].
    + intros w Hw. split; [by apply (rd_wr_ne _ _ _ _ _ Eh) | by apply (rd_wr_ne _ _ _ _ _ Ec)].
Qed.

(** C27. Dispatch delivers every vector of the table to its own handler and ignores
    numbers beyond it; registration accepts exactly interrupt vectors with a
    handler, replaces that vector's handler and no other, and returns with the
    interrupt flag as it found it. *)
Theorem interrupt_delivery_correct {K} (eoi : K -> K) (s : interrupts (K := K)) :
  tables_ok s ->
  (forall v k, 0 <= v -> exists r, interrupt_dispatch eoi s v k = Some r /\
     if v <? IDT_ENTRIES
     then exists h ctx, rd (handlers s) v = Some h /\ rd (handler_contexts s) v = Some ctx /\ r = delivered eoi s v k h ctx
     else r = (s, k)) /\
  (forall v h ctx, 0 <= v < 256 -> exists ok s', interrupts_register_handler s v h ctx = Some (ok, s') /\
     ok = (32 <=? v) && bool_decide (is_Some h) /\ (if ok then tables_ok s' /\ rflags s' = rflags s /\ idt s' = idt s /\ unhandled_count s' = unhandled_count s else s' = s) /\
     (ok = true -> rd (handlers s') v = Some h /\ rd (handler_contexts s') v = Some ctx) /\
     forall w, w <> v -> rd (handlers s') w = rd (handlers s) w /\ rd (handler_contexts s') w = rd (handler_contexts s) w).
Proof. apply interrupt_delivery_spec. Qed.

Lemma interrupt_delivery_correct_witness :
  exists s', interrupts_register_handler no_interrupts 33 (Some (fun v ctx k => k ++ [v; ctx])) 7 = Some (true, s') /\
    interrupt_dispatch (fun k => k ++ [0]) s' 33 [] = Some (s', [33; 7; 0]).
Proof.
  destruct (interrupt_delivery_correct (fun k => k ++ [0]) no_interrupts) as [_ H]; [done |].
  destruct (H 33 (Some (fun v ctx k => k ++ [v; ctx])) 7 ltac:(done)) as (ok & s' & E & Hok & Ht & Hself & _).
  change ok with ok in Hok. subst ok. destruct Ht as [Ht _]. destruct (Hself eq_refl) as [Hh Hc]. exists s'. split; [exact E |].
  destruct (interrupt_delivery_correct (fun k => k ++ [0]) s' Ht) as [Hd _]. destruct (Hd 33 [] ltac:(done)) as (r & Er & h & ctx & E1 & E2 & ->).
  rewrite Er. rewrite Hh in E1. rewrite Hc in E2. injection E1 as <-. injection E2 as <-. reflexivity.
Defined.

(** ** The report of an exception *)

Definition hex_digit (d : Z) : Z := if d <? 10 then 48 + d else 55 + d.

(** The last [n] hexadecimal digits of [v], most significant first. *)
Fixpoint hex_digits (n : nat) (v : Z) : list Z :=
  match n with O => [] | S n => hex_digits n (v / 16) ++ [hex_digit (v mod 16)] end.

Definition hex64 (v : Z) : list Z := chars "0x" ++ hex_digits 16 v.

(** The number hexadecimal digits denote. *)
Definition hex_value (ds : list Z) : Z := fold_left (fun a c => 16 * a + (if c <? 65 then c - 48 else c - 55)) ds 0.

Lemma hex_value_snoc ds c : hex_value (ds ++ [c]) = 16 * hex_value ds + (if c <? 65 then c - 48 else c - 55).
Proof. unfold hex_value. by rewrite fold_left_app. Qed.

Lemma hex_digits_value n v : 0 <= v < 16 ^ Z.of_nat n -> hex_value (hex_digits n v) = v.
Proof.
  revert v. induction n as [| n IH]; intros v Hv; [cbn in *; lia |]. cbn [hex_digits]. rewrite hex_value_snoc, IH.
  - pose proof (Z.div_mod v 16 ltac:(done)). pose proof (Z.mod_pos_bound v 16 ltac:(done)). unfold hex_digit.
    destruct (Z.ltb_spec (v mod 16) 10), (Z.ltb_spec (48 + v mod 16) 65), (Z.ltb_spec (55 + v mod 16) 65); lia.
  - rewrite Nat2Z.inj_succ, Z.pow_succ_r in Hv by lia. split; [apply Z.div_pos; lia |]. apply Z.div_lt_upper_bound; lia.
Qed.

Lemma digits_spec d : 0 <= d < 16 -> rd digits d = Some (hex_digit d).
Proof.
  intros H. assert (Forall (fun d => rd digits d = Some (hex_digit d)) (seqZ 0 16)) as Hall by (apply (bool_decide_unpack _); vm_compute; exact I).
  rewrite Forall_forall in Hall. apply Hall. apply elem_of_seqZ. lia.
Qed.

Lemma land_15 v : Z.land v 15 = v mod 16.
Proof. exact (Z.land_ones v 4 ltac:(done)). Qed.

Lemma hex_digits_snoc n v : hex_digits (S n) v = hex_digit (v / 16 ^ Z.of_nat n mod 16) :: hex_digits n v.
Proof.
  revert v. induction n as [| n IH]; intros v; [cbn; by rewrite Z.div_1_r |]. change (hex_digits (S (S n)) v) with (hex_digits (S n) (v / 16) ++ [hex_digit (v mod 16)]).
  rewrite IH. cbn [app hex_digits]. rewrite Z.div_div by lia. rewrite Nat2Z.inj_succ, Z.pow_succ_r by lia. done.
Qed.

Lemma hex_loop_spec n v out : 0 <= v -> hex_loop n (4 * (Z.of_nat n - 1)) v out = Some (out ++ hex_digits n v).
Proof.
  intros Hv. revert out. induction n as [| n IH]; intros out; [by rewrite app_nil_r |]. cbn [hex_loop].
  change 0x0f with 15. rewrite land_15, digits_spec by (apply Z.mod_pos_bound; done). cbn [mbind option_bind]. replace (4 * (Z.of_nat (S n) - 1) - 4) with (4 * (Z.of_nat n - 1)) by lia.
  rewrite IH, hex_digits_snoc, <- app_assoc. cbn [app]. rewrite Z.shiftr_div_pow2 by lia. replace (2 ^ (4 * (Z.of_nat (S n) - 1))) with (16 ^ Z.of_nat n); [done |].
  change 16 with (2 ^ 4). rewrite <- Z.pow_mul_r by lia. f_equal. lia.
Qed.

Lemma serial_write_hex64_spec v out : 0 <= v -> serial_write_hex64 v out = Some (out ++ hex64 v).
Proof. intros Hv. unfold serial_write_hex64. rewrite (hex_loop_spec 16 v) by done. unfold hex64. by rewrite app_assoc. Qed.

Definition end_line : list Z := [13; 10].
Definition report_line (f : string * Z) : list Z := chars (fst f) ++ chars "=" ++ hex64 (snd f) ++ end_line.

(** A text without line ends is sent as it is. *)
Lemma serial_write_plain text out : newline ∉ text -> serial_write text out = out ++ text.
Proof.
  intros H. unfold serial_write. f_equal. induction text as [| c text IH]; [done |]. apply not_elem_of_cons in H as [Hc H]. cbn.
  destruct (Z.eqb_spec c newline); [done |]. by rewrite IH.
Qed.

Definition plain_name (name : string) : Prop := newline ∉ chars name.
#[export] Instance plain_name_dec name : Decision (plain_name name).
Proof. unfold plain_name. apply _. Defined.

Lemma serial_field_spec name v out : plain_name name -> 0 <= v -> serial_field name v out = Some (out ++ report_line (name, v)).
Proof.
  intros Hn Hv. unfold serial_field. rewrite (serial_write_plain (chars name)) by done. rewrite (serial_write_plain (chars "=")) by (apply (bool_decide_unpack _); vm_compute; exact I).
  rewrite serial_write_hex64_spec by done. cbn [mbind option_bind]. unfold report_line, serial_write, end_line. cbn [fst snd foldr]. rewrite <- !app_assoc. done.
Qed.

Lemma serial_fields_spec fields out : Forall (fun f => plain_name (fst f) /\ 0 <= snd f) fields -> serial_fields fields out = Some (out ++ List.concat (report_line <$> fields)).
Proof.
  intros H. revert out. induction H as [| [name v] fields [Hn Hv] _ IH]; intros out; [cbn; by rewrite app_nil_r |]. cbn [serial_fields]. rewrite serial_field_spec by done. cbn [mbind option_bind].
  rewrite IH. cbn. by rewrite <- app_assoc.
Qed.

Definition word64 (v : Z) : Prop := 0 <= v < 2 ^ 64.

(** The lines of the report.  [base] is where the processor pushed the return
    address, [m] the memory and [c] the registers at that time. *)
Definition exception_lines (vector : Z) (with_error : bool) (c : registers) (m : words) (base : Z) : list (string * Z) :=
  [("VECTOR", vector); ("ERROR", if with_error then m (rsp c) else 0); ("RIP", m base); ("CS", m (base + 8)); ("RFLAGS", m (base + 16))]%string.

Definition saved_stack (vector cs : Z) : bool := (vector =? 8) || negb (cs mod 4 =? 0).

Definition register_lines (vector : Z) (c : registers) (m : words) (base cr2 : Z) : list (string * Z) :=
  [("RAX", rax c); ("RBX", rbx c); ("RCX", rcx c); ("RDX", rdx c); ("RSI", rsi c); ("RDI", rdi c); ("RBP", rbp c);
   ("RSP", if saved_stack vector (m (base + 8)) then m (base + 24) else base + 24);
   ("R8", r8 c); ("R9", r9 c); ("R10", r10 c); ("R11", r11 c); ("R12", r12 c); ("R13", r13 c); ("R14", r14 c); ("R15", r15 c)]%string ++
  (if saved_stack vector (m (base + 8)) then [("SS"%string, m (base + 32))] else []) ++
  (if vector =? 14 then [("CR2"%string, cr2)] else []).

Definition report (lines registers : list (string * Z)) : list Z :=
  chars "JOSHOS_PANIC_EXCEPTION" ++ end_line ++ List.concat (report_line <$> lines) ++
  chars "JOSHOS_REGISTER_DUMP" ++ end_line ++ List.concat (report_line <$> registers) ++ chars "JOSHOS_PANIC_HALT" ++ end_line.

Lemma saved_stack_frame frame : exception_has_saved_stack frame = saved_stack (f_vector frame) (f_cs frame).
Proof. unfold exception_has_saved_stack, saved_stack. change 3 with (Z.ones 2). by rewrite Z.land_ones. Qed.

Lemma serial_optional (b : bool) name v out :
  plain_name name -> 0 <= v -> (if b then serial_field name v out else Some out) = Some (out ++ List.concat (report_line <$> (if b then [(name, v)] else []))).
Proof. intros Hn Hv. destruct b; [rewrite serial_field_spec by done |]; cbn [fmap list_fmap List.concat]; by rewrite app_nil_r. Qed.

Lemma heading_line s out : plain_name s -> serial_write (chars s ++ [newline]) out = out ++ chars s ++ end_line.
Proof.
  intros H. unfold serial_write. f_equal. unfold plain_name in H. induction (chars s) as [| x l IH]; [done |]. apply not_elem_of_cons in H as [Hx H]. cbn.
  destruct (Z.eqb_spec x newline); [done |]. by rewrite IH.
Qed.

Lemma exception_dispatch_spec address frame cr2 out g0 g1 g2 g3 g4 g5 g6 g7 g8 g9 g10 g11 g12 g13 g14 :
  f_general frame = [g0; g1; g2; g3; g4; g5; g6; g7; g8; g9; g10; g11; g12; g13; g14] ->
  Forall word64 (f_general frame) -> Forall word64 [f_vector frame; f_error_code frame; f_rip frame; f_cs frame; f_rflags frame; f_stack_rsp frame; f_stack_ss frame; cr2] ->
  let saved := saved_stack (f_vector frame) (f_cs frame) in
  exception_dispatch address frame cr2 out = Some (out ++ report
    [("VECTOR", f_vector frame); ("ERROR", f_error_code frame); ("RIP", f_rip frame); ("CS", f_cs frame); ("RFLAGS", f_rflags frame)]%string
    ([("RAX", g0); ("RBX", g1); ("RCX", g2); ("RDX", g3); ("RSI", g4); ("RDI", g5); ("RBP", g6);
      ("RSP", if saved then f_stack_rsp frame else u64 (address + 160));
      ("R8", g7); ("R9", g8); ("R10", g9); ("R11", g10); ("R12", g11); ("R13", g12); ("R14", g13); ("R15", g14)]%string ++
     (if saved then [("SS"%string, f_stack_ss frame)] else []) ++ (if f_vector frame =? 14 then [("CR2"%string, cr2)] else []))).
Proof.
  intros Eg Hg Hf saved. rewrite Eg in Hg. pose proof (u64_range (address + 160)) as Hr. unfold exception_dispatch, interrupted_rsp. rewrite Eg, saved_stack_frame. fold saved.
  repeat (apply Forall_cons in Hg as [? Hg]). repeat (apply Forall_cons in Hf as [? Hf]). unfold word64 in *.
  assert (0 <= (if saved then f_stack_rsp frame else u64 (address + 160))) as Hrsp by (destruct saved; lia).
  rewrite heading_line by (apply (bool_decide_unpack _); vm_compute; exact I).
  rewrite serial_fields_spec by (repeat (apply Forall_cons; split; [split; [apply (bool_decide_unpack _); vm_compute; exact I | cbn [snd]; lia] |]); done).
  cbn [mbind option_bind]. rewrite heading_line by (apply (bool_decide_unpack _); vm_compute; exact I). cbn [zip zip_with take drop general_names extended_names app].
  rewrite serial_fields_spec by (repeat (apply Forall_cons; split; [split; [apply (bool_decide_unpack _); vm_compute; exact I | cbn [snd]; lia] |]); done).
  cbn [mbind option_bind]. rewrite serial_optional; [| apply (bool_decide_unpack _); vm_compute; exact I | lia]. cbn [mbind option_bind].
  rewrite serial_optional; [| apply (bool_decide_unpack _); vm_compute; exact I | lia]. cbn [mbind option_bind].
  rewrite heading_line by (apply (bool_decide_unpack _); vm_compute; exact I). unfold report. f_equal. rewrite <- !app_assoc.
  do 6 f_equal. rewrite (app_assoc (List.concat _)), (app_assoc (List.concat _ ++ _)). f_equal. rewrite <- !concat_app, <- !fmap_app, <- app_assoc. reflexivity.
Qed.

Lemma hex64_value v : word64 v -> hex_value (drop 2 (hex64 v)) = v.
Proof. intros H. change (drop 2 (hex64 v)) with (hex_digits 16 v). by apply hex_digits_value. Qed.

Lemma lines_read_back lines : Forall (fun f => word64 (snd f)) lines -> Forall (fun f : string * Z => hex_value (drop 2 (hex64 (snd f))) = snd f) lines.
Proof. intros H. apply (Forall_impl _ _ _ H). intros f. apply hex64_value. Qed.

Lemma report_values vector with_error c m base cr2 :
  word64 vector -> word64 base -> word64 (base + 24) -> Forall word64 (general c) -> (forall a, word64 (m a)) -> word64 cr2 ->
  Forall (fun f : string * Z => word64 (snd f)) (exception_lines vector with_error c m base ++ register_lines vector c m base cr2).
Proof.
  intros Hv Hb Hb24 Hg Hm Hcr. unfold general in Hg. repeat (apply Forall_cons in Hg as [? Hg]). assert (word64 0) by (unfold word64; lia).
  unfold exception_lines, register_lines. rewrite !Forall_app. split; [| split; [| split]].
  - repeat (apply Forall_cons_2; [cbn [snd]; first [done | by destruct with_error] |]). apply Forall_nil_2.
  - repeat (apply Forall_cons_2; [cbn [snd]; first [done | by destruct (saved_stack _ _)] |]). apply Forall_nil_2.
  - destruct (saved_stack _ _); repeat constructor; apply Hm.
  - destruct (vector =? 14); repeat constructor; apply Hcr.
Qed.

(** From the fault to the serial line: the stub of the exception and
    [exception_dispatch] report the vector, the error code, what the processor
    pushed and every general register as it was when the exception occurred, each
    as sixteen digits that read back as its value, and nothing else. *)
Theorem exception_report_correct (vector : Z) (with_error : bool) c m cr2 :
  0 <= vector -> stub_with_error !! Z.to_nat vector = Some with_error -> 136 <= rsp c < 2 ^ 64 - 64 ->
  Forall word64 (general c) -> (forall a, word64 (m a)) -> word64 cr2 ->
  let base := if with_error then rsp c + 8 else rsp c in
  let '(c', m') := exception_stub with_error vector c m in
  let lines := exception_lines vector with_error c m base in
  let registers := register_lines vector c m base cr2 in
  exception_dispatch (rdi c') (frame_at m' (rdi c')) cr2 [] = Some (report lines registers) /\
  Forall (fun f => hex_value (drop 2 (hex64 (snd f))) = snd f) (lines ++ registers).
Proof.
  intros Hv Hstub Hsp Hgen Hm Hcr base. pose proof (exception_stub_spec vector with_error c m Hv Hstub ltac:(lia)) as H. fold base in H.
  pose proof (lookup_lt_Some _ _ _ Hstub) as Hlt. cbn in Hlt. destruct (exception_stub with_error vector c m) as [c' m']. destruct H as (-> & Hrdi & _). cbn zeta.
  assert (rsp c <= base <= rsp c + 8) as Hbase by (unfold base; destruct with_error; lia). split.
  - rewrite (exception_dispatch_spec _ _ _ _ (rax c) (rbx c) (rcx c) (rdx c) (rsi c) (rdi c) (rbp c) (r8 c) (r9 c) (r10 c) (r11 c) (r12 c) (r13 c) (r14 c) (r15 c)); [| done | exact Hgen |].
    + cbn [f_vector f_error_code f_rip f_cs f_rflags f_stack_rsp f_stack_ss app]. rewrite u64_small by lia.
      replace (rdi c' + 160) with (base + 24) by lia. reflexivity.
    + cbn [f_vector f_error_code f_rip f_cs f_rflags f_stack_rsp f_stack_ss]. repeat (apply Forall_cons_2; [first [apply Hm | done | destruct with_error; [apply Hm | unfold word64; lia] | unfold word64; lia] |]).
      apply Forall_nil_2.
  - apply lines_read_back, report_values; try done; unfold word64; lia.
Qed.

(** A page fault in the kernel. *)
Definition fault_memory : words := fun a => if a =? 0x9000 then 2 else if a =? 0x9008 then 0xffffffff80012345 else if a =? 0x9010 then 8 else if a =? 0x9018 then 0x10202 else 0.

Lemma exception_report_correct_witness :
  let '(c', m') := exception_stub true 14 some_registers fault_memory in
  exists out, exception_dispatch (rdi c') (frame_at m' (rdi c')) 0xdeadbeef [] = Some out /\ take 22 out = chars "JOSHOS_PANIC_EXCEPTION".
Proof.
  assert (forall a, word64 (fault_memory a)) as Hm by (intros a; unfold fault_memory, word64; repeat case_match; lia).
  assert (Forall word64 (general some_registers)) as Hg by (repeat constructor; discriminate).
  pose proof (exception_report_correct 14 true some_registers fault_memory 0xdeadbeef ltac:(lia) eq_refl ltac:(cbn; lia) Hg Hm ltac:(unfold word64; lia)) as H.
  cbn zeta in H. destruct (exception_stub true 14 some_registers fault_memory) as [c' m']. destruct H as [H _]. eexists. split; [exact H | reflexivity].
Defined.

(** In 64-bit mode the processor aligns the stack to 16 bytes and pushes SS and
    RSP on every exception, before RFLAGS, CS and RIP and also when it does not
    change stacks or privilege.  For an exception in the kernel other than a double
    fault the report then never shows the interrupted stack pointer: it shows the
    address of the slot that holds it, 16 to 31 bytes below. *)
Theorem reported_rsp_wrong (vector : Z) (with_error : bool) c m old_rsp :
  0 <= vector -> stub_with_error !! Z.to_nat vector = Some with_error -> 136 <= rsp c < 2 ^ 64 - 64 ->
  let base := if with_error then rsp c + 8 else rsp c in
  base + 40 = old_rsp - old_rsp mod 16 -> m (base + 24) = old_rsp ->
  vector <> 8 -> m (base + 8) mod 4 = 0 ->
  let '(c', m') := exception_stub with_error vector c m in
  let frame := frame_at m' (rdi c') in
  f_stack_rsp frame = old_rsp /\ interrupted_rsp (rdi c') frame = old_rsp - old_rsp mod 16 - 16.
Proof.
  intros Hv Hstub Hsp base Hpush Hrsp H8 Hcs. pose proof (exception_stub_spec vector with_error c m Hv Hstub ltac:(lia)) as H. fold base in H.
  assert (rsp c <= base <= rsp c + 8) as Hbase by (unfold base; destruct with_error; lia).
  destruct (exception_stub with_error vector c m) as [c' m']. destruct H as (-> & Hrdi & _). cbn zeta. split; [exact Hrsp |].
  unfold interrupted_rsp. rewrite saved_stack_frame. unfold saved_stack. cbn [f_vector f_cs]. rewrite (proj2 (Z.eqb_neq vector 8) H8), Hcs. cbn [orb negb Z.eqb].
  rewrite u64_small; lia.
Qed.

Definition interrupted_memory : words := fun a => if a =? 0x9010 then 8 else if a =? 0x9020 then 0x9038 else 0.

Lemma reported_rsp_wrong_witness :
  let '(c', m') := exception_stub true 14 some_registers interrupted_memory in
  interrupted_rsp (rdi c') (frame_at m' (rdi c')) = 0x9020 /\ f_stack_rsp (frame_at m' (rdi c')) = 0x9038.
Proof.
  pose proof (reported_rsp_wrong 14 true some_registers interrupted_memory 0x9038 ltac:(lia) eq_refl ltac:(cbn; lia) eq_refl eq_refl ltac:(discriminate) eq_refl) as H.
  destruct (exception_stub true 14 some_registers interrupted_memory) as [c' m']. destruct H as [H1 H2]. split; [exact H2 | exact H1].
Defined.

(** ** The task state segment *)

Lemma shifted_field_u64 d lo w k : 0 <= w -> 0 <= k -> w + k <= 64 -> u64 (Z.shiftl (field d lo w) k) = Z.shiftl (field d lo w) k.
Proof.
  intros Hw Hk Hwk. apply u64_small. rewrite Z.shiftl_mul_pow2 by done. pose proof (field_range d lo w Hw). pose proof (Z.pow_pos_nonneg 2 k ltac:(done) Hk).
  assert (2 ^ w * 2 ^ k <= 2 ^ 64) by (rewrite <- Z.pow_add_r by done; apply Z.pow_le_mono_r; lia). change 18446744073709551616 with (2 ^ 64). nia.
Qed.

Lemma descriptor_fields base limit :
  fst (build_tss_descriptor base limit) =
    Z.lor (Z.lor (Z.lor (Z.lor (Z.lor (field limit 0 16) (Z.shiftl (field base 0 16) 16)) (Z.shiftl (field base 16 8) 32)) (Z.shiftl 0x89 40))
      (Z.shiftl (field limit 16 4) 48)) (Z.shiftl (field base 24 8) 56).
Proof.
  rewrite <- (shifted_field_u64 base 0 16 16), <- (shifted_field_u64 base 16 8 32), <- (shifted_field_u64 limit 16 4 48), <- (shifted_field_u64 base 24 8 56) by done. reflexivity.
Qed.

(** Bit [p] of a field of [w] bits stored at [k]. *)
Lemma stored_bit d lo w k p : 0 <= p -> 0 <= w -> 0 <= lo -> 0 <= k ->
  Z.testbit (Z.shiftl (field d lo w) k) p = (k <=? p) && (p <? k + w) && Z.testbit d (p - k + lo).
Proof.
  intros Hp Hw Hlo Hk. rewrite Z.shiftl_spec by done. destruct (Z.leb_spec k p); [| by rewrite Z.testbit_neg_r by lia]. rewrite field_spec by lia. cbn [andb]. f_equal.
  destruct (Z.ltb_spec (p - k) w), (Z.ltb_spec p (k + w)); done || lia.
Qed.

Ltac bit_ranges := repeat match goal with |- context [?a <=? ?b] => destruct (Z.leb_spec a b); try lia | |- context [?a <? ?b] => destruct (Z.ltb_spec a b); try lia end; cbn [andb orb]; rewrite ?orb_false_r.

Lemma descriptor_bit base limit p : 0 <= p < 64 ->
  Z.testbit (fst (build_tss_descriptor base limit)) p =
    (if p <? 16 then Z.testbit limit p else if p <? 40 then Z.testbit base (p - 16) else if p <? 48 then Z.testbit 0x89 (p - 40)
     else if p <? 52 then Z.testbit limit (p - 32) else if p <? 56 then false else Z.testbit base (p - 32)).
Proof.
  intros Hp. rewrite descriptor_fields, !Z.lor_spec, !stored_bit, field_spec by lia. rewrite Z.shiftl_spec by lia.
  assert (p < 40 \/ 48 <= p -> Z.testbit 0x89 (p - 40) = false) as Ht.
  { intros [H | H]; [by apply Z.testbit_neg_r; lia | by apply (testbit_high _ _ 8); lia]. }
  bit_ranges; rewrite ?Ht by lia; cbn [andb orb]; rewrite ?orb_false_r; done || (f_equal; lia).
Qed.

Lemma field_eq d lo w v : 0 <= lo -> 0 <= w -> 0 <= v < 2 ^ w -> (forall n, 0 <= n < w -> Z.testbit d (n + lo) = Z.testbit v n) -> field d lo w = v.
Proof.
  intros Hlo Hw Hv H. apply Z.bits_inj'. intros n Hn. rewrite field_spec by done. destruct (Z.ltb_spec n w); [by apply H |].
  symmetry. by apply (testbit_high v n w).
Qed.

(** The descriptor [gdt_init] builds is the descriptor of an available 64-bit
    task state segment that is present, with exactly the address and the last byte
    of the kernel's segment; its emergency stack pointer is the end of the double
    fault stack. *)
Theorem gdt_tables_correct tss stack :
  word64 tss -> 0 <= stack -> word64 (stack + DOUBLE_FAULT_STACK_SIZE) ->
  let '(gdt, ist1, iomap) := gdt_tables tss stack in
  exists low high, rd gdt 3 = Some low /\ rd gdt 4 = Some high /\
    Z.lor (field low 16 24) (Z.lor (Z.shiftl (field low 56 8) 24) (Z.shiftl high 32)) = tss /\
    Z.lor (field low 0 16) (Z.shiftl (field low 48 4) 16) = sizeof_tss - 1 /\ field low 40 8 = 0x89 /\ field low 52 4 = 0 /\
    ist1 = stack + DOUBLE_FAULT_STACK_SIZE /\ iomap = sizeof_tss.
Proof.
  intros Ht Hs Hst. unfold gdt_tables. assert (u32 (sizeof_tss - 1) = 103) as -> by done. destruct (build_tss_descriptor tss 103) as [low high] eqn:E.
  pose proof (fun p => descriptor_bit tss 103 p) as Hbit. rewrite E in Hbit. cbn [fst] in Hbit. assert (high = Z.shiftr tss 32) as -> by (by apply (f_equal snd) in E).
  eexists _, _. do 2 (split; [reflexivity |]). split; [| split; [| split; [| split; [| split]]]].
  - apply Z.bits_inj'. intros n Hn. rewrite !Z.lor_spec, !field_spec, stored_bit, Z.shiftl_spec by lia. destruct (Z.leb_spec 64 n).
    { rewrite (testbit_high tss n 64) by done. rewrite Z.shiftr_spec, (testbit_high tss (n - 32 + 32) 64) by (done || lia). bit_ranges; done. }
    destruct (Z.ltb_spec n 32); [rewrite (Z.testbit_neg_r _ (n - 32)) by lia | rewrite Z.shiftr_spec by lia]; rewrite ?Hbit by lia; bit_ranges; done || (f_equal; lia).
  - rewrite (field_eq low 0 16 103), (field_eq low 48 4 0); try done; intros n Hn; rewrite Hbit by lia; bit_ranges; [| f_equal; lia].
    rewrite Z.bits_0. apply (testbit_high _ _ 7); lia.
  - apply field_eq; try done. intros n Hn. rewrite Hbit by lia. bit_ranges. f_equal. lia.
  - apply field_eq; try done. intros n Hn. rewrite Hbit by lia. bit_ranges. by rewrite Z.bits_0.
  - apply u64_small. exact Hst.
  - done.
Qed.

Lemma gdt_tables_correct_witness :
  exists low high, gdt_tables 0xffffffff80203040 0xffffffff80300000 = ([0; 0x00209a0000000000; 0x0000920000000000; low; high], 0xffffffff80304000, 104) /\ field low 40 8 = 0x89.
Proof.
  pose proof (gdt_tables_correct 0xffffffff80203040 0xffffffff80300000 ltac:(split; discriminate || reflexivity) ltac:(discriminate) ltac:(split; discriminate || reflexivity)) as H.
  destruct (gdt_tables 0xffffffff80203040 0xffffffff80300000) as [[gdt ist1] iomap] eqn:E. destruct H as (low & high & Hl & Hh & _ & _ & Ht & _ & Hi & Hm). exists low, high. split; [| exact Ht].
  injection E as <- _ _. injection Hl as <-. injection Hh as <-. rewrite Hi, Hm. reflexivity.
Defined.
