(* ===== verification/Cpu.v ===== *)
(** * Processor and ports (kernel/src/cpu.c, cpu.h, io.h)

    What the drivers see of the hardware is an abstract state [D] with one
    operation per instruction: memory-mapped registers, input and output ports
    and model-specific registers.  Reading may change the state.  [cpuid] is a
    function, as the processor answers the same every time. *)

From stdpp Require Import base numbers list.
From Stdlib Require Import ZArith Lia.
From S2P Require Import Prelude.

#[local] Open Scope Z_scope.

(** ** The hardware *)

Class Hardware (D : Type) := {
  readl : Z -> D -> Z * D;
  writel : Z -> Z -> D -> D;
  inb : Z -> D -> Z * D;
  outb : Z -> Z -> D -> D;
  inl : Z -> D -> Z * D;
  outl : Z -> Z -> D -> D;
  rdmsr : Z -> D -> (Z * Z) * D;
  wrmsr : Z -> Z -> Z -> D -> D
}.

(** ** cpu.h *)

Record cpu_features_t := mk_features {
  max_basic_leaf : Z;
  max_extended_leaf : Z;
  initial_apic_id : Z;
  has_msr : bool;
  has_apic : bool;
  has_x2apic : bool;
  has_tsc : bool;
  has_pae : bool;
  has_nx : bool;
  has_invariant_tsc : bool;
  has_smep : bool;
  has_smap : bool
}.

Record cpu_cpuid_leaf_t := mk_leaf { eax : Z; ebx : Z; ecx : Z; edx : Z }.

(** ** cpu.c *)

Definition CPUID_FEAT_EDX_TSC : Z := Z.shiftl 1 4.
Definition CPUID_FEAT_EDX_MSR : Z := Z.shiftl 1 5.
Definition CPUID_FEAT_EDX_PAE : Z := Z.shiftl 1 6.
Definition CPUID_FEAT_EDX_APIC : Z := Z.shiftl 1 9.
Definition CPUID_FEAT_ECX_X2APIC : Z := Z.shiftl 1 21.
Definition CPUID_EXT_EDX_NX : Z := Z.shiftl 1 20.
Definition CPUID_7_EBX_SMEP : Z := Z.shiftl 1 7.
Definition CPUID_7_EBX_SMAP : Z := Z.shiftl 1 20.
Definition CPUID_EXT7_EDX_INVARIANT_TSC : Z := Z.shiftl 1 8.
Definition MSR_EFER : Z := 0xc0000080.
Definition EFER_NXE : Z := Z.shiftl 1 11.

Definition flag (v bit : Z) : bool := negb (Z.land v bit =? 0).

Definition cpu_features_decode (max_basic max_extended : Z) (leaf1 leaf7 ext1 ext7 : cpu_cpuid_leaf_t) : cpu_features_t := {|
  max_basic_leaf := max_basic;
  max_extended_leaf := max_extended;
  initial_apic_id := Z.shiftr (ebx leaf1) 24;
  has_tsc := flag (edx leaf1) CPUID_FEAT_EDX_TSC;
  has_msr := flag (edx leaf1) CPUID_FEAT_EDX_MSR;
  has_pae := flag (edx leaf1) CPUID_FEAT_EDX_PAE;
  has_apic := flag (edx leaf1) CPUID_FEAT_EDX_APIC;
  has_x2apic := flag (ecx leaf1) CPUID_FEAT_ECX_X2APIC;
  has_nx := (0x80000001 <=? max_extended) && flag (edx ext1) CPUID_EXT_EDX_NX;
  has_invariant_tsc := (0x80000007 <=? max_extended) && flag (edx ext7) CPUID_EXT7_EDX_INVARIANT_TSC;
  has_smep := (7 <=? max_basic) && flag (ebx leaf7) CPUID_7_EBX_SMEP;
  has_smap := (7 <=? max_basic) && flag (ebx leaf7) CPUID_7_EBX_SMAP
|}.

Definition no_leaf : cpu_cpuid_leaf_t := mk_leaf 0 0 0 0.

(** [cpuid leaf subleaf] is the instruction of [cpuid_count]. *)
Definition cpu_detect (cpuid : Z -> Z -> cpu_cpuid_leaf_t) : cpu_features_t :=
  let basic := cpuid 0 0 in
  let extended := cpuid 0x80000000 0 in
  let leaf1 := if 1 <=? eax basic then cpuid 1 0 else no_leaf in
  let leaf7 := if 7 <=? eax basic then cpuid 7 0 else no_leaf in
  let ext1 := if 0x80000001 <=? eax extended then cpuid 0x80000001 0 else no_leaf in
  let ext7 := if 0x80000007 <=? eax extended then cpuid 0x80000007 0 else no_leaf in
  cpu_features_decode (eax basic) (eax extended) leaf1 leaf7 ext1 ext7.

Definition cpu_required_features_present (features : option cpu_features_t) : bool :=
  match features with
  | None => false
  | Some f => (1 <=? max_basic_leaf f) && has_msr f && has_apic f && has_tsc f && has_pae f && has_nx f
  end.

Section Cpu.
Context {D : Type} `{!Hardware D}.

Definition cpu_read_msr (msr : Z) (d : D) : Z * D :=
  let '((low, high), d) := rdmsr msr d in (Z.lor (u64 (Z.shiftl high 32)) low, d).

Definition cpu_write_msr (msr value : Z) (d : D) : D := wrmsr msr (u32 value) (u32 (Z.shiftr value 32)) d.

Definition cpu_enable_nx (features : option cpu_features_t) (d : D) : bool * D :=
  match features with
  | None => (false, d)
  | Some f =>
      if negb (has_msr f) || negb (has_nx f) then (false, d)
      else
        let '(efer, d) := cpu_read_msr MSR_EFER d in
        let d := cpu_write_msr MSR_EFER (Z.lor efer EFER_NXE) d in
        let '(efer, d) := cpu_read_msr MSR_EFER d in
        (flag efer EFER_NXE, d)
  end.

End Cpu.

(** ** Detection *)

Lemma flag_bit v k : 0 <= k -> flag v (Z.shiftl 1 k) = Z.testbit v k.
Proof.
  intros Hk. unfold flag. rewrite Z.shiftl_1_l. destruct (Z.testbit v k) eqn:E.
  - destruct (Z.eqb_spec (Z.land v (2 ^ k)) 0) as [H |]; [| done]. apply (f_equal (fun z => Z.testbit z k)) in H.
    rewrite Z.land_spec, E, Z.bits_0, Z.pow2_bits_true in H by done. discriminate H.
  - replace (Z.land v (2 ^ k)) with 0; [done |]. symmetry. apply Z.bits_inj'. intros n Hn. rewrite Z.land_spec, Z.bits_0, Z.pow2_bits_eqb by done.
    destruct (Z.eqb_spec k n) as [<- |]; [by rewrite E | apply andb_false_r].
Qed.

(** The leaves a processor has, by the maxima it reports. *)
Definition has_leaf (cpuid : Z -> Z -> cpu_cpuid_leaf_t) (leaf : Z) : Prop :=
  leaf = 0 \/ leaf = 0x80000000 \/ (0 < leaf < 0x80000000 /\ leaf <= eax (cpuid 0 0)) \/ (0x80000000 < leaf /\ leaf <= eax (cpuid 0x80000000 0)).

(** Detection looks only at leaves the processor has: what it would answer for
    any other makes no difference.  The features the kernel needs are reported
    present exactly when the leaves that announce them exist and do. *)
Theorem cpu_detect_correct cpuid :
  (forall cpuid', (forall leaf, has_leaf cpuid leaf -> cpuid' leaf 0 = cpuid leaf 0) -> cpu_detect cpuid' = cpu_detect cpuid) /\
  (cpu_required_features_present (Some (cpu_detect cpuid)) = true <->
     has_leaf cpuid 1 /\ has_leaf cpuid 0x80000001 /\
     Z.testbit (edx (cpuid 1 0)) 4 = true /\ Z.testbit (edx (cpuid 1 0)) 5 = true /\ Z.testbit (edx (cpuid 1 0)) 6 = true /\
     Z.testbit (edx (cpuid 1 0)) 9 = true /\ Z.testbit (edx (cpuid 0x80000001 0)) 20 = true).
Proof.
  assert (forall leaf, 0 < leaf < 0x80000000 -> has_leaf cpuid leaf <-> leaf <= eax (cpuid 0 0)) as Hlow by (unfold has_leaf; lia).
  assert (forall leaf, 0x80000000 < leaf -> has_leaf cpuid leaf <-> leaf <= eax (cpuid 0x80000000 0)) as Hhigh by (unfold has_leaf; lia).
  split.
  - intros cpuid' H. unfold cpu_detect. rewrite (H 0) by (by left). rewrite (H 0x80000000) by (right; by left).
    destruct (Z.leb_spec 1 (eax (cpuid 0 0))), (Z.leb_spec 7 (eax (cpuid 0 0))), (Z.leb_spec 0x80000001 (eax (cpuid 0x80000000 0))), (Z.leb_spec 0x80000007 (eax (cpuid 0x80000000 0)));
      rewrite ?H by (first [apply Hlow; lia | apply Hhigh; lia]); done.
  - rewrite Hlow, Hhigh by done. unfold cpu_detect, cpu_required_features_present, cpu_features_decode. cbn [max_basic_leaf has_msr has_apic has_tsc has_pae has_nx].
    unfold CPUID_FEAT_EDX_MSR, CPUID_FEAT_EDX_APIC, CPUID_FEAT_EDX_TSC, CPUID_FEAT_EDX_PAE, CPUID_EXT_EDX_NX. rewrite !flag_bit by done.
    destruct (Z.leb_spec 1 (eax (cpuid 0 0))), (Z.leb_spec 0x80000001 (eax (cpuid 0x80000000 0))); cbn [andb no_leaf edx]; rewrite ?andb_true_iff, ?Z.bits_0; intuition (try lia; try discriminate).
Qed.
