(* ===== verification/Apic.v ===== *)
(** * Interrupt controllers (kernel/src/apic.c, apic_route.c, apic.h)

    The local APIC and the I/O APICs over the hardware of [Cpu].  Mapping the
    registers, [paging_map_mmio], is a parameter: it returns 0 for a null
    pointer.  The model is of one processor: a lock that is already taken never
    becomes free, which is [None]. *)

From stdpp Require Import base numbers list.
From Stdlib Require Import ZArith Lia.
From S2P Require Import Prelude Bytes Acpi Cpu.

#[local] Open Scope Z_scope.

(** ** apic.h *)

Inductive apic_status_t :=
| APIC_OK | APIC_BAD_ARGUMENT | APIC_UNAVAILABLE | APIC_UNSUPPORTED_MODE | APIC_MAP_FAILED
| APIC_BAD_IOAPIC | APIC_BAD_IRQ_FLAGS | APIC_ROUTE_NOT_FOUND | APIC_DELIVERY_TIMEOUT.

#[export] Instance apic_status_t_eq_dec : EqDecision apic_status_t.
Proof. solve_decision. Defined.

Record apic_summary_t := mk_summary { local_apic_physical : Z; local_apic_id : Z; summary_ioapic_count : Z }.

(** ** apic_route.c *)

(** The entry written to [entry_out]. *)
Definition apic_build_redirection (vector destination_apic_id acpi_flags : Z) (masked : bool) : option Z :=
  if (vector <? 32) || (vector =? 0xff) || (0xff <? destination_apic_id) then None
  else
    let polarity := Z.land acpi_flags 3 in
    let trigger := Z.land (Z.shiftr acpi_flags 2) 3 in
    if (polarity =? 2) || (trigger =? 2) then None
    else
      let active_low := polarity =? 3 in
      let level := trigger =? 3 in
      let entry := vector in
      let entry := if active_low then Z.lor entry (Z.shiftl 1 13) else entry in
      let entry := if level then Z.lor entry (Z.shiftl 1 15) else entry in
      let entry := if masked then Z.lor entry (Z.shiftl 1 16) else entry in
      Some (Z.lor entry (u64 (Z.shiftl destination_apic_id 56))).

(** ** apic.c *)

Definition IA32_APIC_BASE_MSR : Z := 0x1b.
Definition APIC_BASE_ENABLE : Z := Z.shiftl 1 11.
Definition APIC_BASE_X2APIC : Z := Z.shiftl 1 10.
Definition APIC_BASE_ADDRESS_MASK : Z := 0x000ffffffffff000.
Definition LAPIC_ID : Z := 0x020.
Definition LAPIC_TPR : Z := 0x080.
Definition LAPIC_EOI : Z := 0x0b0.
Definition LAPIC_SVR : Z := 0x0f0.
Definition LAPIC_ICR_LOW : Z := 0x300.
Definition LAPIC_ICR_HIGH : Z := 0x310.
Definition LAPIC_LVT_TIMER : Z := 0x320.
Definition LAPIC_LVT_LINT0 : Z := 0x350.
Definition LAPIC_LVT_LINT1 : Z := 0x360.
Definition LAPIC_LVT_ERROR : Z := 0x370.
Definition LAPIC_SVR_ENABLE : Z := Z.shiftl 1 8.
Definition LAPIC_LVT_MASKED : Z := Z.shiftl 1 16.
Definition LAPIC_ICR_DELIVERY_PENDING : Z := Z.shiftl 1 12.
Definition IOAPIC_REG_VERSION : Z := 0x01.
Definition IOAPIC_REG_REDIR_BASE : Z := 0x10.
Definition IOAPIC_MAX_RUNTIME : Z := ACPI_MAX_IOAPICS.
Definition APIC_WAIT_SPINS : Z := 1000000.

Record ioapic_runtime_t := mk_runtime { io_base : Z; io_gsi_base : Z; redirection_count : Z; lock : Z }.

Record apic_state := mk_apic {
  lapic_base : Z;
  lapic_physical : Z;
  lapic_id : Z;
  io_runtimes : list ioapic_runtime_t;
  io_count : Z;
  topology : acpi_platform_info_t;
  lapic_lock : Z;
  initialised : bool
}.

Definition set_lapic (s : apic_state) base phys id := mk_apic base phys id (io_runtimes s) (io_count s) (topology s) (lapic_lock s) (initialised s).
Definition set_runtimes (s : apic_state) l n := mk_apic (lapic_base s) (lapic_physical s) (lapic_id s) l n (topology s) (lapic_lock s) (initialised s).
Definition finish_init (s : apic_state) t := mk_apic (lapic_base s) (lapic_physical s) (lapic_id s) (io_runtimes s) (io_count s) t (lapic_lock s) true.

(** The runtime of index [i], or the position past them for a null pointer. *)
Fixpoint gsi_loop (n : nat) (l : list ioapic_runtime_t) (i gsi : Z) : option (option (Z * ioapic_runtime_t)) :=
  match n with
  | O => Some None
  | S n =>
      r ← rd l i;
      if (io_gsi_base r <=? gsi) && (gsi <? u64 (io_gsi_base r + redirection_count r)) then Some (Some (i, r))
      else gsi_loop n l (i + 1) gsi
  end.

Definition ioapic_for_gsi (s : apic_state) (gsi : Z) : option (option (Z * ioapic_runtime_t)) :=
  gsi_loop (Z.to_nat (io_count s)) (io_runtimes s) 0 gsi.

Section Apic.
Context {D : Type} `{!Hardware D} (paging_map_mmio : Z -> Z -> D -> Z * D).

Definition lapic_read (s : apic_state) (offset : Z) (d : D) : Z * D := readl (lapic_base s + 4 * (offset / 4)) d.
Definition lapic_write (s : apic_state) (offset value : Z) (d : D) : D :=
  let d := writel (lapic_base s + 4 * (offset / 4)) value d in snd (readl (lapic_base s + 4 * (LAPIC_ID / 4)) d).

Definition ioapic_read_unlocked (r : ioapic_runtime_t) (reg : Z) (d : D) : Z * D :=
  let d := writel (io_base r) reg d in readl (io_base r + 16) d.
Definition ioapic_write_unlocked (r : ioapic_runtime_t) (reg value : Z) (d : D) : D :=
  let d := writel (io_base r) reg d in writel (io_base r + 16) value d.

Definition disable_legacy_pic (d : D) : D := outb 0x23 0x01 (outb 0x22 0x70 (outb 0xa1 0xff (outb 0x21 0xff d))).

Fixpoint icr_loop (n : nat) (s : apic_state) (d : D) : bool * D :=
  match n with
  | O => (false, d)
  | S n =>
      let '(v, d) := lapic_read s LAPIC_ICR_LOW d in
      if Z.land v LAPIC_ICR_DELIVERY_PENDING =? 0 then (true, d) else icr_loop n s d
  end.
Definition wait_icr_idle (s : apic_state) (d : D) : bool * D := icr_loop (Z.to_nat APIC_WAIT_SPINS) s d.

Definition route_gsi (s : apic_state) (gsi redirection : Z) (d : D) : option (apic_status_t * D) :=
  found ← ioapic_for_gsi s gsi;
  match found with
  | None => Some (APIC_ROUTE_NOT_FOUND, d)
  | Some (_, ioapic) =>
      let pin := u32 (gsi - io_gsi_base ioapic) in
      if (redirection_count ioapic <=? pin) || (119 <? pin) then Some (APIC_ROUTE_NOT_FOUND, d)
      else
        let low_reg := u8 (IOAPIC_REG_REDIR_BASE + pin * 2) in
        let high_reg := u8 (low_reg + 1) in
        if negb (lock ioapic =? 0) then None
        else
          let d := ioapic_write_unlocked ioapic low_reg (Z.lor (u32 redirection) (Z.shiftl 1 16)) d in
          let d := ioapic_write_unlocked ioapic high_reg (u32 (Z.shiftr redirection 32)) d in
          let d := ioapic_write_unlocked ioapic low_reg (u32 redirection) d in
          Some (APIC_OK, d)
  end.

(** Masks the pins from [pin] on; [n] are left. *)
Fixpoint pins_loop (n : nat) (r : ioapic_runtime_t) (pin : Z) (d : D) : D :=
  match n with
  | O => d
  | S n =>
      let low := u8 (IOAPIC_REG_REDIR_BASE + pin * 2) in
      let d := ioapic_write_unlocked r (u8 (low + 1)) 0 d in
      let d := ioapic_write_unlocked r low (Z.shiftl 1 16) d in
      pins_loop n r (pin + 1) d
  end.

(** The I/O APICs of the platform from [i] on. *)
Fixpoint ioapics_loop (n : nat) (platform : acpi_platform_info_t) (i : Z) (s : apic_state) (d : D) : option (apic_status_t * apic_state * D) :=
  match n with
  | O => Some (APIC_OK, s, d)
  | S n =>
      info ← rd (ioapics platform) i;
      if negb (Z.land (physical_address info) 0xfff =? 0) then Some (APIC_BAD_IOAPIC, s, d)
      else
        let '(mapped, d) := paging_map_mmio (physical_address info) 4096 d in
        if mapped =? 0 then Some (APIC_MAP_FAILED, s, d)
        else
          old ← rd (io_runtimes s) (io_count s);
          let runtime := mk_runtime mapped (gsi_base info) (redirection_count old) 0 in
          let '(version, d) := ioapic_read_unlocked runtime IOAPIC_REG_VERSION d in
          let runtime := mk_runtime mapped (gsi_base info) (u32 (Z.land (Z.shiftr version 16) 0xff + 1)) 0 in
          l ← wr (io_runtimes s) (io_count s) runtime;
          if (redirection_count runtime =? 0) || (120 <? redirection_count runtime) then Some (APIC_BAD_IOAPIC, set_runtimes s l (io_count s), d)
          else
            let d := pins_loop (Z.to_nat (redirection_count runtime)) runtime 0 d in
            ioapics_loop n platform (i + 1) (set_runtimes s l (u32 (io_count s + 1))) d
  end.

Definition mask_lvt (s : apic_state) (reg : Z) (d : D) : D :=
  let '(v, d) := lapic_read s reg d in lapic_write s reg (Z.lor v LAPIC_LVT_MASKED) d.

Definition apic_init (s : apic_state) (platform : option acpi_platform_info_t) (cpu : option cpu_features_t) (d : D) :
  option (apic_status_t * apic_state * D) :=
  match platform, cpu with
  | Some platform, Some cpu =>
      if negb (has_msr cpu) || negb (has_apic cpu) || (local_apic_address platform =? 0) || (ioapic_count platform =? 0) then Some (APIC_UNAVAILABLE, s, d)
      else if (IOAPIC_MAX_RUNTIME <? ioapic_count platform) || negb (Z.land (local_apic_address platform) 0xfff =? 0) then Some (APIC_BAD_ARGUMENT, s, d)
      else
        let '(apic_base_msr, d) := cpu_read_msr IA32_APIC_BASE_MSR d in
        if negb (Z.land apic_base_msr APIC_BASE_X2APIC =? 0) then Some (APIC_UNSUPPORTED_MODE, s, d)
        else
          let wanted_base := Z.land (local_apic_address platform) APIC_BASE_ADDRESS_MASK in
          let apic_base_msr := Z.land apic_base_msr (not64 APIC_BASE_ADDRESS_MASK) in
          let apic_base_msr := Z.lor apic_base_msr (Z.lor wanted_base APIC_BASE_ENABLE) in
          let d := cpu_write_msr IA32_APIC_BASE_MSR apic_base_msr d in
          let '(base, d) := paging_map_mmio (local_apic_address platform) 4096 d in
          let s := set_lapic s base (lapic_physical s) (lapic_id s) in
          if base =? 0 then Some (APIC_MAP_FAILED, s, d)
          else
            let '(id, d) := lapic_read s LAPIC_ID d in
            let s := set_lapic s base (local_apic_address platform) (Z.shiftr id 24) in
            let s := set_runtimes s (io_runtimes s) 0 in
            '(status, s, d) ← ioapics_loop (Z.to_nat (ioapic_count platform)) platform 0 s d;
            if negb (bool_decide (status = APIC_OK)) then Some (status, s, d)
            else
              let d := disable_legacy_pic d in
              let d := lapic_write s LAPIC_TPR 0 d in
              let d := mask_lvt s LAPIC_LVT_TIMER d in
              let d := mask_lvt s LAPIC_LVT_LINT0 d in
              let d := mask_lvt s LAPIC_LVT_LINT1 d in
              let d := mask_lvt s LAPIC_LVT_ERROR d in
              let d := lapic_write s LAPIC_SVR (Z.lor LAPIC_SVR_ENABLE 0xff) d in
              Some (APIC_OK, finish_init s platform, d)
  | _, _ => Some (APIC_BAD_ARGUMENT, s, d)
  end.

Definition apic_route_isa_irq (s : apic_state) (irq vector : Z) (masked : bool) (d : D) : option (apic_status_t * D) :=
  if negb (initialised s) then Some (APIC_UNAVAILABLE, d)
  else
    '(found, gsi, flags) ← acpi_resolve_isa_irq (Some (topology s)) irq (Some 0) (Some 0);
    match found, gsi, flags with
    | true, Some gsi, Some flags =>
        match apic_build_redirection vector (lapic_id s) flags masked with
        | None => Some (APIC_BAD_IRQ_FLAGS, d)
        | Some redirection => route_gsi s gsi redirection d
        end
    | _, _, _ => Some (APIC_ROUTE_NOT_FOUND, d)
    end.

Definition apic_set_isa_irq_mask (s : apic_state) (irq : Z) (masked : bool) (d : D) : option (apic_status_t * D) :=
  if negb (initialised s) then Some (APIC_UNAVAILABLE, d)
  else
    '(found, gsi, flags) ← acpi_resolve_isa_irq (Some (topology s)) irq (Some 0) (Some 0);
    match found, gsi with
    | true, Some gsi =>
        found ← ioapic_for_gsi s gsi;
        match found with
        | None => Some (APIC_ROUTE_NOT_FOUND, d)
        | Some (_, ioapic) =>
            let pin := u32 (gsi - io_gsi_base ioapic) in
            let low_reg := u8 (IOAPIC_REG_REDIR_BASE + pin * 2) in
            if negb (lock ioapic =? 0) then None
            else
              let '(low, d) := ioapic_read_unlocked ioapic low_reg d in
              let low := if masked then Z.lor low (Z.shiftl 1 16) else Z.land low (u32 (Z.lnot (Z.shiftl 1 16))) in
              Some (APIC_OK, ioapic_write_unlocked ioapic low_reg low d)
        end
    | _, _ => Some (APIC_ROUTE_NOT_FOUND, d)
    end.

Definition apic_eoi (s : apic_state) (d : D) : D :=
  if initialised s && negb (lapic_base s =? 0) then lapic_write s LAPIC_EOI 0 d else d.

Definition UINT32_MAX : Z := 2 ^ 32 - 1.
Definition apic_local_id (s : apic_state) : Z := if initialised s then lapic_id s else UINT32_MAX.
Definition apic_summary (s : apic_state) : apic_summary_t := mk_summary (lapic_physical s) (if initialised s then lapic_id s else UINT32_MAX) (io_count s).

Definition apic_send_ipi (s : apic_state) (destination_apic_id vector : Z) (d : D) : option (apic_status_t * D) :=
  if negb (initialised s) then Some (APIC_UNAVAILABLE, d)
  else if (0xff <? destination_apic_id) || (vector <? 32) || (vector =? 0xff) then Some (APIC_BAD_ARGUMENT, d)
  else if negb (lapic_lock s =? 0) then None
  else
    let '(idle, d) := wait_icr_idle s d in
    if negb idle then Some (APIC_DELIVERY_TIMEOUT, d)
    else
      let d := lapic_write s LAPIC_ICR_HIGH (u32 (Z.shiftl destination_apic_id 24)) d in
      let d := lapic_write s LAPIC_ICR_LOW vector d in
      let '(complete, d) := wait_icr_idle s d in
      Some (if complete then APIC_OK else APIC_DELIVERY_TIMEOUT, d).

End Apic.

(** ** The controllers *)

(** The bits of a redirection register that hold what was written: delivery
    status and remote IRR are the controller's, the rest is reserved. *)
Definition writable (reg n : Z) : bool :=
  if reg <? IOAPIC_REG_REDIR_BASE then false
  else if Z.even reg then (0 <=? n) && (n <=? 16) && negb (n =? 12) && negb (n =? 14) else (24 <=? n) && (n <? 32).

(** The local registers that keep what is written to some of their bits. *)
Definition lapic_writable (reg n : Z) : bool :=
  if reg =? LAPIC_SVR then (0 <=? n) && (n <=? 8)
  else if bool_decide (reg ∈ [LAPIC_LVT_TIMER; LAPIC_LVT_LINT0; LAPIC_LVT_LINT1; LAPIC_LVT_ERROR]) then n =? 16 else false.

(** What the drivers rely on.  [page d b] is the physical page mapped at [b];
    [io_page] and [lapic_page] say which pages hold an I/O APIC and the local
    APIC.  An I/O APIC is reached through its select and data registers; other
    accesses leave it alone. *)
Class Controllers (D : Type) `{!Hardware D} (map_mmio : Z -> Z -> D -> Z * D) := {
  page : D -> Z -> option Z;
  io_page : Z -> Prop;
  lapic_page : Z -> Prop;
  ioregsel : D -> Z -> Z;
  ioreg : D -> Z -> Z -> Z;
  lapic_reg : D -> Z -> Z;
  io_select d b p v : page d b = Some p -> io_page p ->
    (forall b', page (writel b v d) b' = page d b') /\ ioregsel (writel b v d) p = u8 v /\
    (forall p' r, ioreg (writel b v d) p' r = ioreg d p' r) /\ (forall r, lapic_reg (writel b v d) r = lapic_reg d r);
  io_write d b p v : page d b = Some p -> io_page p ->
    (forall b', page (writel (b + 16) v d) b' = page d b') /\
    (forall n, writable (ioregsel d p) n = true -> Z.testbit (ioreg (writel (b + 16) v d) p (ioregsel d p)) n = Z.testbit v n) /\
    (forall p' r, ~ (p' = p /\ r = ioregsel d p) -> ioreg (writel (b + 16) v d) p' r = ioreg d p' r) /\
    (forall r, lapic_reg (writel (b + 16) v d) r = lapic_reg d r);
  io_read d b p : page d b = Some p -> io_page p ->
    fst (readl (b + 16) d) = ioreg d p (ioregsel d p) /\ (forall b', page (snd (readl (b + 16) d)) b' = page d b') /\
    (forall p' r, ioreg (snd (readl (b + 16) d)) p' r = ioreg d p' r) /\ (forall r, lapic_reg (snd (readl (b + 16) d)) r = lapic_reg d r);
  lapic_store d b p o v : page d b = Some p -> lapic_page p -> 0 <= o < 4096 ->
    (forall b', page (writel (b + o) v d) b' = page d b') /\ (forall p' r, ioreg (writel (b + o) v d) p' r = ioreg d p' r) /\
    (forall n, lapic_writable o n = true -> Z.testbit (lapic_reg (writel (b + o) v d) o) n = Z.testbit v n) /\
    (forall r n, r <> o -> lapic_writable r n = true -> Z.testbit (lapic_reg (writel (b + o) v d) r) n = Z.testbit (lapic_reg d r) n);
  lapic_load d b p o : page d b = Some p -> lapic_page p -> 0 <= o < 4096 ->
    (forall b', page (snd (readl (b + o) d)) b' = page d b') /\ (forall p' r, ioreg (snd (readl (b + o) d)) p' r = ioreg d p' r) /\
    (forall r n, lapic_writable r n = true -> Z.testbit (lapic_reg (snd (readl (b + o) d)) r) n = Z.testbit (lapic_reg d r) n);
  port_frame d port v : (forall b', page (outb port v d) b' = page d b') /\ (forall p' r, ioreg (outb port v d) p' r = ioreg d p' r) /\ (forall r, lapic_reg (outb port v d) r = lapic_reg d r);
  readl_range d a : 0 <= fst (readl a d) < 2 ^ 32;
  map_page d p : p mod 4096 = 0 -> let '(b, d') := map_mmio p 4096 d in
    b = 0 \/ (page d' b = Some p /\ (forall b', page d b' <> None -> page d' b' = page d b') /\
              (forall p' r, ioreg d' p' r = ioreg d p' r) /\ (forall r, lapic_reg d' r = lapic_reg d r))
}.

(** ** Redirection entries *)

(** What the bits of an entry mean. *)
Record redirection_fields := mk_fields { e_vector : Z; e_low : bool; e_level : bool; e_masked : bool; e_destination : Z }.

Definition entry_of (f : redirection_fields) : Z :=
  e_vector f + (if e_low f then 2 ^ 13 else 0) + (if e_level f then 2 ^ 15 else 0) + (if e_masked f then 2 ^ 16 else 0) + e_destination f * 2 ^ 56.

Lemma optional_bit (b : bool) x k : 0 <= x < 2 ^ k -> 0 <= k -> (if b then Z.lor x (Z.shiftl 1 k) else x) = x + (if b then 2 ^ k else 0).
Proof. intros Hx Hk. destruct b; [| lia]. rewrite Z.lor_comm, lor_shift_add by done. lia. Qed.

(** The polarity or trigger mode of the ACPI flags: bus default, active high or
    edge, reserved, active low or level. *)
Definition acpi_polarity (flags : Z) : Z := flags mod 4.
Definition acpi_trigger (flags : Z) : Z := flags / 4 mod 4.

Lemma build_redirection_spec vector dest flags masked :
  0 <= vector < 256 -> 0 <= dest -> 0 <= flags ->
  apic_build_redirection vector dest flags masked =
    if bool_decide (32 <= vector /\ vector <> 255 /\ dest < 256 /\ acpi_polarity flags <> 2 /\ acpi_trigger flags <> 2)
    then Some (entry_of (mk_fields vector (acpi_polarity flags =? 3) (acpi_trigger flags =? 3) masked dest)) else None.
Proof.
  intros Hv Hd Hf. unfold apic_build_redirection. change 3 with (Z.ones 2). rewrite !Z.land_ones, Z.shiftr_div_pow2 by done. change (2 ^ 2) with 4. change (Z.ones 2) with 3.
  fold (acpi_polarity flags) (acpi_trigger flags). destruct (Z.ltb_spec vector 32); [by rewrite bool_decide_false by lia |].
  destruct (Z.eqb_spec vector 0xff); [by rewrite bool_decide_false by lia |]. destruct (Z.ltb_spec 0xff dest); [by rewrite bool_decide_false by lia |].
  destruct (Z.eqb_spec (acpi_polarity flags) 2); [by rewrite bool_decide_false by lia |]. destruct (Z.eqb_spec (acpi_trigger flags) 2); [by rewrite bool_decide_false by lia |].
  rewrite bool_decide_true by lia. cbn [orb]. unfold entry_of. cbn [e_vector e_low e_level e_masked e_destination]. f_equal.
  assert (u64 (Z.shiftl dest 56) = Z.shiftl dest 56) as -> by (apply u64_small; rewrite Z.shiftl_mul_pow2 by done; lia).
  rewrite (optional_bit _ vector 13) by lia. rewrite (optional_bit _ _ 15) by (destruct (acpi_polarity flags =? 3); lia).
  rewrite (optional_bit _ _ 16) by (destruct (acpi_polarity flags =? 3), (acpi_trigger flags =? 3); lia).
  rewrite Z.lor_comm, lor_shift_add by (destruct (acpi_polarity flags =? 3), (acpi_trigger flags =? 3), masked; lia). lia.
Qed.

(** ** Routing *)

(** Where the platform says an ISA interrupt arrives, and its flags. *)
Definition isa_route (t : acpi_platform_info_t) (irq : Z) : Z * Z :=
  match filter (fun o => source_irq o = irq) (take (Z.to_nat (override_count t)) (overrides t)) with o :: _ => (gsi o, irq_flags o) | [] => (irq, 0) end.

Definition topology_typed (t : acpi_platform_info_t) : Prop :=
  info_ok t /\ Forall (fun o => 0 <= gsi o < 2 ^ 32 /\ 0 <= irq_flags o) (take (Z.to_nat (override_count t)) (overrides t)) /\
  Forall (fun io => 0 <= gsi_base io < 2 ^ 32) (ioapics t).

Lemma resolve_isa_spec t irq : info_ok t -> acpi_resolve_isa_irq (Some t) irq (Some 0) (Some 0) = Some (true, Some (fst (isa_route t irq)), Some (snd (isa_route t irq))).
Proof.
  intros Ht. rewrite (acpi_resolve_correct t (local_apic_address t) (madt_flags t) _ _ _ irq 0 0 (conj Ht (conj eq_refl (conj eq_refl (conj eq_refl (conj eq_refl eq_refl)))))).
  unfold isa_route. by destruct (filter _ _).
Qed.

Lemma isa_route_typed t irq : topology_typed t -> 0 <= irq < 2 ^ 32 -> 0 <= fst (isa_route t irq) < 2 ^ 32 /\ 0 <= snd (isa_route t irq).
Proof.
  intros (_ & Ho & _) Hirq. unfold isa_route. destruct (filter _ _) as [| o os] eqn:E; [done |]. rewrite Forall_forall in Ho. apply Ho.
  assert (o ∈ filter (fun o => source_irq o = irq) (take (Z.to_nat (override_count t)) (overrides t))) as Hin by (rewrite E; apply elem_of_cons; by left).
  by apply list_elem_of_filter in Hin as [_ ?].
Qed.

Definition covers (r : ioapic_runtime_t) (gsi : Z) : bool := (io_gsi_base r <=? gsi) && (gsi <? io_gsi_base r + redirection_count r).

Lemma gsi_loop_spec l n i g :
  0 <= i -> i + Z.of_nat n <= zlen l -> Forall (fun r => 0 <= io_gsi_base r < 2 ^ 32 /\ 0 <= redirection_count r <= 120) (take n (drop (Z.to_nat i) l)) ->
  exists found, gsi_loop n l i g = Some found /\
    match found with
    | Some (j, r) => i <= j < i + Z.of_nat n /\ rd l j = Some r /\ covers r g = true
    | None => Forall (fun r => covers r g = false) (take n (drop (Z.to_nat i) l))
    end.
Proof.
  revert i. induction n as [| n IH]; intros i Hi Hn Ht; [by exists None |]. cbn [gsi_loop]. destruct (rd_in_range l i) as [r Hr]; [lia |]. rewrite Hr. cbn [mbind option_bind].
  pose proof (proj2 (proj1 (rd_lookup _ _ _) Hr)) as Hl. rewrite (drop_S _ r) in * by done. cbn [take] in *. apply Forall_cons in Ht as [[Hb Hc] Ht].
  rewrite u64_small by lia. fold (covers r g). destruct (covers r g) eqn:Hcov.
  - exists (Some (i, r)). split; [done |]. split; [lia |]. done.
  - replace (S (Z.to_nat i)) with (Z.to_nat (i + 1)) in * by lia. destruct (IH (i + 1)) as (found & -> & Hf); [lia | lia | done |]. exists found. split; [done |].
    destruct found as [[j r'] |]; [destruct Hf as (Hj & ? & ?); split; [lia | done] | by apply Forall_cons].
Qed.

Section Routing.
Context {D : Type} `{!Hardware D} {map_mmio : Z -> Z -> D -> Z * D} `{!Controllers D map_mmio}.

Implicit Types (d : D) (s : apic_state).

Lemma io_set r reg v d p :
  page d (io_base r) = Some p -> io_page p -> 0 <= reg < 256 -> let d' := ioapic_write_unlocked r reg v d in
  (forall b, page d' b = page d b) /\ (forall n, writable reg n = true -> Z.testbit (ioreg d' p reg) n = Z.testbit v n) /\
  (forall p' r', ~ (p' = p /\ r' = reg) -> ioreg d' p' r' = ioreg d p' r') /\ (forall r', lapic_reg d' r' = lapic_reg d r').
Proof.
  intros Hp Hio Hreg d'. unfold d', ioapic_write_unlocked. destruct (io_select d (io_base r) p reg Hp Hio) as (P1 & S1 & R1 & L1). rewrite u8_small in S1 by done.
  destruct (io_write (writel (io_base r) reg d) (io_base r) p v) as (P2 & W2 & R2 & L2); [by rewrite P1 | done |]. rewrite S1 in *.
  split; [intros b; by rewrite P2, P1 |]. split; [exact W2 |]. split; [intros p' r' Hne; by rewrite R2, R1 |]. intros r'. by rewrite L2, L1.
Qed.

Lemma io_get r reg d p :
  page d (io_base r) = Some p -> io_page p -> 0 <= reg < 256 -> let '(v, d') := ioapic_read_unlocked r reg d in
  v = ioreg d p reg /\ (forall b, page d' b = page d b) /\ (forall p' r', ioreg d' p' r' = ioreg d p' r') /\ (forall r', lapic_reg d' r' = lapic_reg d r').
Proof.
  intros Hp Hio Hreg. unfold ioapic_read_unlocked. destruct (io_select d (io_base r) p reg Hp Hio) as (P1 & S1 & R1 & L1). rewrite u8_small in S1 by done.
  destruct (io_read (writel (io_base r) reg d) (io_base r) p) as (V & P2 & R2 & L2); [by rewrite P1 | done |]. destruct (readl _ _) as [v d'] eqn:E. cbn [fst snd] in *.
  split; [by rewrite V, S1, R1 |]. split; [intros b; by rewrite P2, P1 |]. split; [intros p' r'; by rewrite R2, R1 |]. intros r'. by rewrite L2, L1.
Qed.

Definition runtime_ok d (r : ioapic_runtime_t) : Prop :=
  lock r = 0 /\ 1 <= redirection_count r <= 120 /\ 0 <= io_gsi_base r < 2 ^ 32 /\ exists p, page d (io_base r) = Some p /\ io_page p.

(** The controllers are set up. *)
Definition apic_ok s d : Prop :=
  initialised s = true /\ 0 <= lapic_id s /\ topology_typed (topology s) /\ zlen (io_runtimes s) = IOAPIC_MAX_RUNTIME /\ 0 <= io_count s <= IOAPIC_MAX_RUNTIME /\
  Forall (runtime_ok d) (take (Z.to_nat (io_count s)) (io_runtimes s)) /\
  lapic_base s <> 0 /\ exists p, page d (lapic_base s) = Some p /\ lapic_page p.

Lemma apic_ok_pages s d d' : (forall b, page d' b = page d b) -> apic_ok s d -> apic_ok s d'.
Proof.
  intros H (Hi & Hid & Ht & Hl & Hc & Hr & Hb & Hp). do 5 (split; [done |]). split; [| split; [done |]].
  - apply (Forall_impl _ _ _ Hr). intros r (? & ? & ? & p & ? & ?). do 3 (split; [done |]). exists p. by rewrite H.
  - by rewrite H.
Qed.

Definition low_reg (pin : Z) : Z := 16 + 2 * pin.
Definition high_reg (pin : Z) : Z := 17 + 2 * pin.

(** The redirection entry of a pin holds [entry]. *)
Definition holds_entry d (p pin entry : Z) : Prop :=
  (forall n, writable (low_reg pin) n = true -> Z.testbit (ioreg d p (low_reg pin)) n = Z.testbit entry n) /\
  (forall n, writable (high_reg pin) n = true -> Z.testbit (ioreg d p (high_reg pin)) n = Z.testbit entry (n + 32)).

Definition is_masked d (p pin : Z) : Prop := Z.testbit (ioreg d p (low_reg pin)) 16 = true.

(** Every other register is as it was. *)
Definition other_pins_same d d' (p pin : Z) : Prop :=
  (forall b, page d' b = page d b) /\ (forall p' r, ~ (p' = p /\ (r = low_reg pin \/ r = high_reg pin)) -> ioreg d' p' r = ioreg d p' r) /\ (forall r, lapic_reg d' r = lapic_reg d r).

Lemma writable_low pin n : 0 <= pin -> writable (low_reg pin) n = true -> 0 <= n <= 16.
Proof.
  intros Hp. unfold writable, low_reg, IOAPIC_REG_REDIR_BASE. rewrite (proj2 (Z.ltb_ge (16 + 2 * pin) 0x10)) by lia. rewrite Z.even_add_mul_2. cbn [Z.even].
  destruct (Z.leb_spec 0 n), (Z.leb_spec n 16); cbn; lia || discriminate.
Qed.

Lemma writable_mask pin : 0 <= pin -> writable (low_reg pin) 16 = true.
Proof. intros Hp. unfold writable, low_reg, IOAPIC_REG_REDIR_BASE. rewrite (proj2 (Z.ltb_ge (16 + 2 * pin) 0x10)) by lia. by rewrite Z.even_add_mul_2. Qed.

Lemma writable_high pin n : 0 <= pin -> writable (high_reg pin) n = true -> 24 <= n < 32.
Proof.
  intros Hp. unfold writable, high_reg, IOAPIC_REG_REDIR_BASE. rewrite (proj2 (Z.ltb_ge (17 + 2 * pin) 0x10)) by lia. rewrite Z.even_add_mul_2. cbn [Z.even].
  destruct (Z.leb_spec 24 n), (Z.ltb_spec n 32); cbn; lia || discriminate.
Qed.

Lemma low_bits redirection n : 0 <= n <= 16 -> Z.testbit (u32 redirection) n = Z.testbit redirection n.
Proof. intros Hn. unfold u32. change 4294967296 with (2 ^ 32). apply Z.mod_pow2_bits_low. lia. Qed.

(** The three writes of [route_gsi]: the pin is masked from the first write to
    the last, which puts the complete entry in place. *)
Lemma route_writes r pin redirection d p :
  runtime_ok d r -> page d (io_base r) = Some p -> io_page p -> 0 <= pin < 120 ->
  let d1 := ioapic_write_unlocked r (low_reg pin) (Z.lor (u32 redirection) (Z.shiftl 1 16)) d in
  let d2 := ioapic_write_unlocked r (high_reg pin) (u32 (Z.shiftr redirection 32)) d1 in
  let d3 := ioapic_write_unlocked r (low_reg pin) (u32 redirection) d2 in
  (forall b, page d3 b = page d b) /\ is_masked d1 p pin /\ is_masked d2 p pin /\ holds_entry d3 p pin redirection /\ other_pins_same d d3 p pin.
Proof.
  intros Hr Hp Hio Hpin d1 d2 d3. assert (low_reg pin <> high_reg pin) as Hne by (unfold low_reg, high_reg; lia).
  destruct (io_set r (low_reg pin) (Z.lor (u32 redirection) (Z.shiftl 1 16)) d p) as (P1 & W1 & R1 & L1); [done | done | unfold low_reg; lia |]. fold d1 in P1, W1, R1, L1.
  destruct (io_set r (high_reg pin) (u32 (Z.shiftr redirection 32)) d1 p) as (P2 & W2 & R2 & L2); [by rewrite P1 | done | unfold high_reg; lia |]. fold d2 in P2, W2, R2, L2.
  destruct (io_set r (low_reg pin) (u32 redirection) d2 p) as (P3 & W3 & R3 & L3); [by rewrite P2, P1 | done | unfold low_reg; lia |]. fold d3 in P3, W3, R3, L3.
  assert (is_masked d1 p pin) as M1. { unfold is_masked. rewrite W1 by (apply writable_mask; lia). rewrite Z.lor_spec. apply orb_true_r. }
  split; [intros b; by rewrite P3, P2, P1 |]. split; [done |]. split; [| split; [split |]].
  - unfold is_masked. rewrite R2; [done | intros [_ E]; done].
  - intros n Hn. rewrite W3 by done. apply low_bits. apply (writable_low pin); [lia | done].
  - intros n Hn. pose proof (writable_high pin n ltac:(lia) Hn). rewrite R3 by (intros [_ E]; done). rewrite W2 by done.
    unfold u32. change 4294967296 with (2 ^ 32). rewrite Z.mod_pow2_bits_low, Z.shiftr_spec by lia. done.
  - split; [intros b; by rewrite P3, P2, P1 |]. split; [| intros r'; by rewrite L3, L2, L1]. intros p' r' Hne'. rewrite R3, R2, R1; [done | tauto..].
Qed.

(** The runtime and page that answer for an interrupt. *)
Definition answers s d (gsi : Z) (r : ioapic_runtime_t) (p : Z) : Prop :=
  (exists i, ioapic_for_gsi s gsi = Some (Some (i, r)) /\ rd (io_runtimes s) i = Some r) /\ covers r gsi = true /\ page d (io_base r) = Some p /\ io_page p.

Lemma ioapic_for_gsi_spec s d g :
  apic_ok s d -> exists found, ioapic_for_gsi s g = Some found /\
    match found with
    | Some (_, r) => runtime_ok d r /\ exists p, answers s d g r p
    | None => Forall (fun r => covers r g = false) (take (Z.to_nat (io_count s)) (io_runtimes s))
    end.
Proof.
  intros (Hi & Hid & Ht & Hl & Hc & Hr & Hb & Hp). unfold ioapic_for_gsi.
  destruct (gsi_loop_spec (io_runtimes s) (Z.to_nat (io_count s)) 0 g) as (found & E & Hf); [lia | lia | |].
  { apply (Forall_impl _ _ _ Hr). intros r (_ & ? & ? & _). lia. }
  exists found. split; [exact E |]. destruct found as [[j r] |]; [| done]. destruct Hf as (Hj & Hrd & Hcov). pose proof Hrd as Hrd0.
  assert (r ∈ take (Z.to_nat (io_count s)) (io_runtimes s)) as Hin.
  { apply rd_lookup in Hrd as [_ Hrd]. apply list_elem_of_lookup_2 with (Z.to_nat j). rewrite lookup_take_lt by lia. done. }
  rewrite Forall_forall in Hr. pose proof (Hr r Hin) as Hok. split; [done |]. destruct Hok as (_ & _ & _ & p & ? & ?). exists p. split; [by exists j | done].
Qed.

Lemma covers_pin r gsi : covers r gsi = true -> 0 <= gsi < 2 ^ 32 -> 0 <= io_gsi_base r -> u32 (gsi - io_gsi_base r) = gsi - io_gsi_base r /\ 0 <= gsi - io_gsi_base r < redirection_count r.
Proof. unfold covers. intros [H1 H2]%andb_true_iff Hg Hb. apply Z.leb_le in H1. apply Z.ltb_lt in H2. rewrite u32_small by lia. lia. Qed.

Lemma route_gsi_spec s d g redirection :
  apic_ok s d -> 0 <= g < 2 ^ 32 ->
  exists status d', route_gsi s g redirection d = Some (status, d') /\ apic_ok s d' /\
    match status with
    | APIC_OK => exists r p, answers s d g r p /\ let pin := g - io_gsi_base r in
        holds_entry d' p pin redirection /\ other_pins_same d d' p pin /\
        exists d1 d2, d1 = ioapic_write_unlocked r (low_reg pin) (Z.lor (u32 redirection) (Z.shiftl 1 16)) d /\
          d2 = ioapic_write_unlocked r (high_reg pin) (u32 (Z.shiftr redirection 32)) d1 /\
          d' = ioapic_write_unlocked r (low_reg pin) (u32 redirection) d2 /\ is_masked d1 p pin /\ is_masked d2 p pin
    | APIC_ROUTE_NOT_FOUND => d' = d /\ Forall (fun r => covers r g = false) (take (Z.to_nat (io_count s)) (io_runtimes s))
    | _ => False
    end.
Proof.
  intros Hok Hg. unfold route_gsi. destruct (ioapic_for_gsi_spec s d g Hok) as (found & -> & Hf). cbn [mbind option_bind]. destruct found as [[j r] |].
  2: { exists APIC_ROUTE_NOT_FOUND, d. done. }
  destruct Hf as [Hr [p Hans]]. pose proof Hans as (_ & Hcov & Hp & Hio). pose proof Hr as (Hlock & Hcnt & Hgb & _).
  destruct (covers_pin r g Hcov Hg ltac:(lia)) as [-> Hpin]. set (pin := g - io_gsi_base r) in *.
  rewrite (proj2 (Z.leb_gt (redirection_count r) pin)), (proj2 (Z.ltb_ge 119 pin)) by lia. cbn [orb]. rewrite Hlock. cbn [Z.eqb negb].
  assert (u8 (IOAPIC_REG_REDIR_BASE + pin * 2) = low_reg pin) as -> by (unfold IOAPIC_REG_REDIR_BASE, low_reg; rewrite u8_small; lia).
  assert (u8 (low_reg pin + 1) = high_reg pin) as -> by (unfold low_reg, high_reg; rewrite u8_small; lia).
  destruct (route_writes r pin redirection d p) as (P & M1 & M2 & Hh & Ho); [done | done | done | lia |].
  eexists APIC_OK, _. split; [reflexivity |]. split; [by eapply apic_ok_pages |]. exists r, p. split; [done |]. fold pin. split; [exact Hh |]. split; [exact Ho |].
  eexists _, _. split; [reflexivity |]. split; [reflexivity |]. split; [reflexivity |]. done.
Qed.

(** What routing an ISA interrupt does: the entry of its pin, and of no other,
    becomes the one built from the vector, the local APIC and the flags of the
    platform, and is masked until it is complete. *)
Definition routed s d d' (irq vector : Z) (masked : bool) (status : apic_status_t) : Prop :=
  let '(g, flags) := isa_route (topology s) irq in
  match status with
  | APIC_OK => exists r p, answers s d g r p /\ let pin := g - io_gsi_base r in
      let entry := entry_of (mk_fields vector (acpi_polarity flags =? 3) (acpi_trigger flags =? 3) masked (lapic_id s)) in
      32 <= vector < 255 /\ lapic_id s < 256 /\ holds_entry d' p pin entry /\ other_pins_same d d' p pin /\
      exists d1 d2, d1 = ioapic_write_unlocked r (low_reg pin) (Z.lor (u32 entry) (Z.shiftl 1 16)) d /\
        d2 = ioapic_write_unlocked r (high_reg pin) (u32 (Z.shiftr entry 32)) d1 /\
        d' = ioapic_write_unlocked r (low_reg pin) (u32 entry) d2 /\ is_masked d1 p pin /\ is_masked d2 p pin
  | APIC_ROUTE_NOT_FOUND => d' = d /\ Forall (fun r => covers r g = false) (take (Z.to_nat (io_count s)) (io_runtimes s))
  | APIC_BAD_IRQ_FLAGS => d' = d /\ ~ (32 <= vector < 255 /\ lapic_id s < 256 /\ acpi_polarity flags <> 2 /\ acpi_trigger flags <> 2)
  | _ => False
  end.

Lemma apic_route_spec s d irq vector masked :
  apic_ok s d -> 0 <= irq < 256 -> 0 <= vector < 256 ->
  exists status d', apic_route_isa_irq s irq vector masked d = Some (status, d') /\ apic_ok s d' /\ routed s d d' irq vector masked status.
Proof.
  intros Hok Hirq Hv. pose proof Hok as (Hi & Hid & Ht & _). unfold apic_route_isa_irq. rewrite Hi. cbn [negb]. rewrite resolve_isa_spec by apply Ht. cbn [mbind option_bind].
  destruct (isa_route_typed (topology s) irq Ht ltac:(lia)) as [Hg Hfl]. unfold routed. destruct (isa_route (topology s) irq) as [g flags]. cbn [fst snd] in *.
  rewrite build_redirection_spec by done. destruct (bool_decide_reflect (32 <= vector /\ vector <> 255 /\ lapic_id s < 256 /\ acpi_polarity flags <> 2 /\ acpi_trigger flags <> 2)) as [Hb | Hb].
  - set (entry := entry_of _). destruct (route_gsi_spec s d g entry Hok Hg) as (status & d' & E & Hok' & Hs). exists status, d'. split; [exact E |]. split; [done |].
    destruct status; try done. destruct Hs as (r & p & Hans & Hh & Ho & Hd). exists r, p. split; [done |]. split; [lia |]. split; [lia |]. done.
  - exists APIC_BAD_IRQ_FLAGS, d. split; [done |]. split; [done |]. split; [done |]. intros H. apply Hb. lia.
Qed.

(** Masking and unmasking: the mask bit of the pin, and nothing else, changes. *)
Definition mask_set s d d' (irq : Z) (masked : bool) (status : apic_status_t) : Prop :=
  let g := fst (isa_route (topology s) irq) in
  match status with
  | APIC_OK => exists r p, answers s d g r p /\ let pin := g - io_gsi_base r in
      other_pins_same d d' p pin /\ ioreg d' p (high_reg pin) = ioreg d p (high_reg pin) /\
      forall n, writable (low_reg pin) n = true -> Z.testbit (ioreg d' p (low_reg pin)) n = if n =? 16 then masked else Z.testbit (ioreg d p (low_reg pin)) n
  | APIC_ROUTE_NOT_FOUND => d' = d /\ Forall (fun r => covers r g = false) (take (Z.to_nat (io_count s)) (io_runtimes s))
  | _ => False
  end.

Lemma pin_mask_bits low (masked : bool) n : 0 <= n <= 16 ->
  Z.testbit (if masked then Z.lor low (Z.shiftl 1 16) else Z.land low (u32 (Z.lnot (Z.shiftl 1 16)))) n = if n =? 16 then masked else Z.testbit low n.
Proof.
  intros Hn. rewrite Z.shiftl_1_l. destruct masked.
  - rewrite Z.lor_spec, Z.pow2_bits_eqb by done. rewrite (Z.eqb_sym 16 n). destruct (n =? 16); [apply orb_true_r | apply orb_false_r].
  - rewrite Z.land_spec. unfold u32. change 4294967296 with (2 ^ 32). rewrite Z.mod_pow2_bits_low, Z.lnot_spec, Z.pow2_bits_eqb by lia. rewrite (Z.eqb_sym 16 n).
    destruct (n =? 16); [apply andb_false_r | apply andb_true_r].
Qed.

Lemma apic_mask_spec s d irq masked :
  apic_ok s d -> 0 <= irq < 256 ->
  exists status d', apic_set_isa_irq_mask s irq masked d = Some (status, d') /\ apic_ok s d' /\ mask_set s d d' irq masked status.
Proof.
  intros Hok Hirq. pose proof Hok as (Hi & Hid & Ht & _). unfold apic_set_isa_irq_mask. rewrite Hi. cbn [negb]. rewrite resolve_isa_spec by apply Ht. cbn [mbind option_bind].
  destruct (isa_route_typed (topology s) irq Ht ltac:(lia)) as [Hg _]. unfold mask_set. set (g := fst (isa_route (topology s) irq)) in *.
  destruct (ioapic_for_gsi_spec s d g Hok) as (found & -> & Hf). cbn [mbind option_bind]. destruct found as [[j r] |]; [| by exists APIC_ROUTE_NOT_FOUND, d].
  destruct Hf as [Hr [p Hans]]. pose proof Hans as (_ & Hcov & Hp & Hio). pose proof Hr as (Hlock & Hcnt & Hgb & _).
  destruct (covers_pin r g Hcov Hg ltac:(lia)) as [-> Hpin]. set (pin := g - io_gsi_base r) in *. rewrite Hlock. cbn [Z.eqb negb].
  assert (u8 (IOAPIC_REG_REDIR_BASE + pin * 2) = low_reg pin) as -> by (unfold IOAPIC_REG_REDIR_BASE, low_reg; rewrite u8_small; lia).
  pose proof (io_get r (low_reg pin) d p Hp Hio ltac:(unfold low_reg; lia)) as Hget. destruct (ioapic_read_unlocked r (low_reg pin) d) as [low d1]. destruct Hget as (-> & P1 & R1 & L1).
  set (v := if masked then _ else _). destruct (io_set r (low_reg pin) v d1 p) as (P2 & W2 & R2 & L2); [by rewrite P1 | done | unfold low_reg; lia |].
  eexists APIC_OK, _. split; [reflexivity |]. split; [eapply apic_ok_pages; [| exact Hok]; intros b; by rewrite P2, P1 |]. exists r, p. split; [done |]. fold pin.
  split; [split; [intros b; by rewrite P2, P1 | split] | split].
  - intros p' r' Hne. rewrite R2, R1; [done | tauto].
  - intros r'. by rewrite L2, L1.
  - rewrite R2, R1; [done |]. intros [_ E]. unfold low_reg, high_reg in E. lia.
  - intros n Hn. rewrite W2 by done. unfold v. by rewrite pin_mask_bits by (apply (writable_low pin); [lia | done]).
Qed.

(** ** Initialisation *)

(** One more pin is masked; what was masked stays so. *)
Lemma pins_loop_spec r p n pin d :
  page d (io_base r) = Some p -> io_page p -> 0 <= pin -> pin + Z.of_nat n <= 120 -> let d' := pins_loop n r pin d in
  (forall b, page d' b = page d b) /\ (forall r', lapic_reg d' r' = lapic_reg d r') /\
  (forall p' k, is_masked d p' k -> is_masked d' p' k) /\ (forall k, pin <= k < pin + Z.of_nat n -> is_masked d' p k).
Proof.
  revert pin d. induction n as [| n IH]; intros pin d Hp Hio Hpin Hn; [split; [done |]; split; [done |]; split; [done |]; intros; lia |]. cbn zeta. cbn [pins_loop].
  assert (u8 (IOAPIC_REG_REDIR_BASE + pin * 2) = low_reg pin) as -> by (unfold IOAPIC_REG_REDIR_BASE, low_reg; rewrite u8_small; lia).
  assert (u8 (low_reg pin + 1) = high_reg pin) as -> by (unfold low_reg, high_reg; rewrite u8_small; lia).
  destruct (io_set r (high_reg pin) 0 d p) as (P1 & W1 & R1 & L1); [done | done | unfold high_reg; lia |]. set (d1 := ioapic_write_unlocked r (high_reg pin) 0 d) in *.
  destruct (io_set r (low_reg pin) (Z.shiftl 1 16) d1 p) as (P2 & W2 & R2 & L2); [by rewrite P1 | done | unfold low_reg; lia |].
  set (d2 := ioapic_write_unlocked r (low_reg pin) (Z.shiftl 1 16) d1) in *. destruct (IH (pin + 1) d2) as (P3 & L3 & M3 & N3); [by rewrite P2, P1 | done | lia | lia |].
  assert (is_masked d2 p pin) as Hself by (unfold is_masked; by rewrite W2 by (by apply writable_mask)).
  split; [intros b; by rewrite P3, P2, P1 |]. split; [intros r'; by rewrite L3, L2, L1 |]. split.
  - intros p' k Hk. apply M3. destruct (decide (p' = p /\ low_reg k = low_reg pin)) as [[-> E] | Hne]; [unfold is_masked; by rewrite E |].
    unfold is_masked. rewrite R2, R1; [done | | done]. intros [_ E]. unfold low_reg, high_reg in E. lia.
  - intros k Hk. destruct (decide (k = pin)) as [-> |]; [by apply M3 | apply N3; lia].
Qed.

Definition pins_masked d (r : ioapic_runtime_t) : Prop := forall p pin, page d (io_base r) = Some p -> 0 <= pin < redirection_count r -> is_masked d p pin.

(** The I/O APICs found so far are described and silent. *)
Definition io_inv s d : Prop :=
  zlen (io_runtimes s) = IOAPIC_MAX_RUNTIME /\ 0 <= io_count s <= IOAPIC_MAX_RUNTIME /\
  Forall (fun r => runtime_ok d r /\ pins_masked d r) (take (Z.to_nat (io_count s)) (io_runtimes s)).

Lemma io_inv_step s d d' :
  (forall b, page d b <> None -> page d' b = page d b) -> (forall p k, is_masked d p k -> is_masked d' p k) -> io_inv s d -> io_inv s d'.
Proof.
  intros HP HM (Hl & Hc & Hr). split; [done |]. split; [done |]. apply (Forall_impl _ _ _ Hr). intros r [(? & ? & ? & p & Hp & ?) Hm].
  assert (page d' (io_base r) = Some p) as Hp' by (rewrite HP; [done | congruence]). split; [do 3 (split; [done |]); by exists p |].
  intros p' k Hp2 Hk. apply HM, Hm; [congruence | done].
Qed.

Lemma take_wr_snoc {A} (l l' : list A) i x : wr l i x = Some l' -> take (Z.to_nat (i + 1)) l' = take (Z.to_nat i) l ++ [x].
Proof.
  intros [Hi ->]%wr_Some. unfold zlen in Hi. replace (Z.to_nat (i + 1)) with (S (Z.to_nat i)) by lia. rewrite (take_S_r _ _ x) by (apply list_lookup_insert_eq; lia).
  by rewrite take_insert_ge by lia.
Qed.

Lemma io_inv_snoc s d l r :
  io_inv s d -> io_count s < IOAPIC_MAX_RUNTIME -> wr (io_runtimes s) (io_count s) r = Some l -> runtime_ok d r -> pins_masked d r -> io_inv (set_runtimes s l (u32 (io_count s + 1))) d.
Proof.
  intros (Hl & Hc & Hr) Hlt Hw Hok Hm. unfold IOAPIC_MAX_RUNTIME, ACPI_MAX_IOAPICS in *. unfold io_inv. cbn [set_runtimes io_runtimes io_count]. rewrite u32_small by lia.
  split; [by rewrite (zlen_wr _ _ _ _ Hw) |]. split; [unfold IOAPIC_MAX_RUNTIME, ACPI_MAX_IOAPICS; lia |]. rewrite (take_wr_snoc _ _ _ _ Hw). apply Forall_app. split; [done |]. by apply Forall_cons.
Qed.

Lemma page_aligned p : 0 <= p -> Z.land p 0xfff = 0 -> p mod 4096 = 0.
Proof. intros Hp. change 0xfff with (2 ^ 12 - 1). by rewrite land_low_mask. Qed.

(** The parts of the state the I/O APICs do not touch. *)
Definition same_lapic s s' : Prop :=
  lapic_base s' = lapic_base s /\ lapic_physical s' = lapic_physical s /\ lapic_id s' = lapic_id s /\ initialised s' = initialised s /\ lapic_lock s' = lapic_lock s.

Definition keeps_pages d d' : Prop := (forall b, page d b <> None -> page d' b = page d b) /\ (forall r, lapic_reg d' r = lapic_reg d r).

Lemma keeps_pages_trans d1 d2 d3 : keeps_pages d1 d2 -> keeps_pages d2 d3 -> keeps_pages d1 d3.
Proof.
  intros [P1 L1] [P2 L2]. split; [| intros r; by rewrite L2, L1]. intros b Hb. rewrite P2; [by apply P1 |]. by rewrite P1.
Qed.

(** A platform that describes the hardware. *)
Definition platform_ok (t : acpi_platform_info_t) : Prop :=
  topology_typed t /\ 0 <= local_apic_address t /\ lapic_page (local_apic_address t) /\
  Forall (fun io => 0 <= physical_address io /\ io_page (physical_address io)) (take (Z.to_nat (ioapic_count t)) (ioapics t)).

Lemma platform_ioapic t i : platform_ok t -> 0 <= i < ioapic_count t ->
  exists info, rd (ioapics t) i = Some info /\ 0 <= physical_address info /\ io_page (physical_address info) /\ 0 <= gsi_base info < 2 ^ 32.
Proof.
  intros (Ht & _ & _ & Hio) Hi. pose proof Ht as ((_ & (Hl & Hc) & _) & _ & Hg). destruct (rd_in_range (ioapics t) i) as [info E]; [lia |]. exists info. split; [done |].
  apply rd_lookup in E as [_ E]. rewrite Forall_forall in Hio, Hg. destruct (Hio info) as [? ?]; [apply list_elem_of_lookup_2 with (Z.to_nat i); by rewrite lookup_take_lt by lia |].
  split; [done |]. split; [done |]. apply Hg. by apply list_elem_of_lookup_2 with (Z.to_nat i).
Qed.

(** The rest of [platform], of which [n] are left. *)
Lemma ioapics_loop_spec t n i s d :
  platform_ok t -> 0 <= i -> i + Z.of_nat n = ioapic_count t -> io_count s = i -> io_inv s d ->
  exists st s' d', ioapics_loop map_mmio n t i s d = Some (st, s', d') /\ same_lapic s s' /\
    (st = APIC_OK -> io_inv s' d' /\ io_count s' = ioapic_count t /\ keeps_pages d d').
Proof.
  intros Ht. revert i s d. induction n as [| n IH]; intros i s d Hi Hn Hcnt Hinv.
  { exists APIC_OK, s, d. split; [done |]. split; [done |]. intros _. split; [done |]. split; [lia | done]. }
  pose proof Ht as (((_ & (Hl & Hc) & _) & _) & _). destruct (platform_ioapic t i Ht) as (info & Einfo & Hphys & Hio & Hgsi); [lia |].
  cbn [ioapics_loop]. rewrite Einfo. cbn [mbind option_bind]. destruct (Z.eqb_spec (Z.land (physical_address info) 0xfff) 0) as [Hal | _]; cbn [negb]; [| by exists APIC_BAD_IOAPIC, s, d].
  pose proof (map_page d (physical_address info) (page_aligned _ Hphys Hal)) as Hmap. destruct (map_mmio (physical_address info) 4096 d) as [mapped d1].
  destruct (Z.eqb_spec mapped 0) as [_ | Hnz]; [by exists APIC_MAP_FAILED, s, d1 |]. destruct Hmap as [-> | (Hp & HP & HR & HL)]; [done |].
  assert (io_inv s d1) as Hinv1. { apply (io_inv_step s d d1); [done | | done]. intros p k. unfold is_masked. by rewrite HR. }
  pose proof Hinv1 as (Hlen & _). unfold IOAPIC_MAX_RUNTIME, ACPI_MAX_IOAPICS in *. destruct (rd_in_range (io_runtimes s) (io_count s)) as [old ->]; [lia |]. cbn [mbind option_bind].
  set (r0 := mk_runtime mapped (gsi_base info) (redirection_count old) 0). pose proof (io_get r0 IOAPIC_REG_VERSION d1 _ Hp Hio ltac:(done)) as Hget.
  destruct (ioapic_read_unlocked r0 IOAPIC_REG_VERSION d1) as [version d2]. destruct Hget as (_ & P2 & R2 & L2). set (r := mk_runtime mapped (gsi_base info) (u32 _) 0).
  destruct (wr (io_runtimes s) (io_count s) r) as [l |] eqn:Hw; [| by rewrite wr_in_range in Hw by lia]. cbn [mbind option_bind].
  destruct (Z.eqb_spec (redirection_count r) 0) as [_ | Hr0]; [by eexists APIC_BAD_IOAPIC, _, d2 |]. destruct (Z.ltb_spec 120 (redirection_count r)) as [_ | Hr1]; [by eexists APIC_BAD_IOAPIC, _, d2 |]. cbn [orb].
  assert (0 <= redirection_count r) as Hr2 by apply u32_range.
  destruct (pins_loop_spec r (physical_address info) (Z.to_nat (redirection_count r)) 0 d2) as (P3 & L3 & M3 & N3); [by rewrite P2 | done | done | lia |].
  set (d3 := pins_loop _ r 0 d2) in *. rewrite Z2Nat.id in N3 by done. assert (io_inv (set_runtimes s l (u32 (io_count s + 1))) d3) as Hinv3.
  { apply io_inv_snoc with r; [| unfold IOAPIC_MAX_RUNTIME, ACPI_MAX_IOAPICS; lia | done | |].
    - apply (io_inv_step s d1 d3); [intros b _; by rewrite P3, P2 | | done]. intros p k Hk. apply M3. unfold is_masked. by rewrite R2.
    - split; [done |]. split; [lia |]. split; [done |]. exists (physical_address info). by rewrite P3, P2.
    - intros p k Hpk Hk. rewrite P3, P2 in Hpk. cbn [io_base r] in Hpk. rewrite Hp in Hpk. injection Hpk as <-. by apply N3. }
  destruct (IH (i + 1) (set_runtimes s l (u32 (io_count s + 1))) d3) as (st & s' & d' & E & Hsame & Hok); [lia | lia | cbn; rewrite u32_small; lia | done |].
  exists st, s', d'. split; [exact E |]. split; [exact Hsame |]. intros Hst. destruct (Hok Hst) as (? & ? & Hk). split; [done |]. split; [done |].
  apply (keeps_pages_trans d d3); [| done]. split; [intros b Hb; by rewrite P3, P2, HP |]. intros r'. by rewrite L3, L2, HL.
Qed.

Lemma lapic_write_spec s o v d p :
  page d (lapic_base s) = Some p -> lapic_page p -> 0 <= o < 4096 -> o mod 4 = 0 -> let d' := lapic_write s o v d in
  (forall b, page d' b = page d b) /\ (forall p' r, ioreg d' p' r = ioreg d p' r) /\
  (forall n, lapic_writable o n = true -> Z.testbit (lapic_reg d' o) n = Z.testbit v n) /\
  (forall r n, r <> o -> lapic_writable r n = true -> Z.testbit (lapic_reg d' r) n = Z.testbit (lapic_reg d r) n).
Proof.
  intros Hp Hl Ho Hal d'. unfold d', lapic_write. replace (4 * (o / 4)) with o by (pose proof (Z.div_mod o 4); lia). change (4 * (LAPIC_ID / 4)) with 32.
  destruct (lapic_store d (lapic_base s) p o v Hp Hl Ho) as (P1 & R1 & W1 & F1).
  destruct (lapic_load (writel (lapic_base s + o) v d) (lapic_base s) p 32) as (P2 & R2 & F2); [by rewrite P1 | done | done |].
  split; [intros b; by rewrite P2, P1 |]. split; [intros p' r; by rewrite R2, R1 |]. split; [intros n Hn; by rewrite F2, W1 |]. intros r n Hr Hn. by rewrite F2, F1.
Qed.

(** What the steps after the I/O APICs leave as it is, and the registers that
    are set so far. *)
Definition lapic_steps d d' (set_ : Z -> Prop) : Prop :=
  (forall b, page d' b = page d b) /\ (forall p r, ioreg d' p r = ioreg d p r) /\
  (forall r, set_ r -> Z.testbit (lapic_reg d' r) 16 = true).

Definition is_lvt (r : Z) : Prop := r ∈ [LAPIC_LVT_TIMER; LAPIC_LVT_LINT0; LAPIC_LVT_LINT1; LAPIC_LVT_ERROR].

Lemma lvt_writable r : is_lvt r -> 0 <= r < 4096 /\ r mod 4 = 0 /\ lapic_writable r 16 = true.
Proof. unfold is_lvt. rewrite !elem_of_cons, elem_of_nil. intros [-> | [-> | [-> | [-> | []]]]]; done. Qed.

Lemma mask_lvt_spec s r d d0 p set_ :
  page d0 (lapic_base s) = Some p -> lapic_page p -> is_lvt r -> (forall r', set_ r' -> is_lvt r') ->
  lapic_steps d0 d set_ -> lapic_steps d0 (mask_lvt s r d) (fun r' => r' = r \/ set_ r').
Proof.
  intros Hp Hl Hr Hset (P0 & R0 & S0). destruct (lvt_writable r Hr) as (Hrange & Hal & Hw). unfold mask_lvt, lapic_read. replace (4 * (r / 4)) with r by (pose proof (Z.div_mod r 4); lia).
  destruct (lapic_load d (lapic_base s) p r) as (P1 & R1 & F1); [by rewrite P0 | done | done |]. destruct (readl _ d) as [v d1]. cbn [snd] in *.
  destruct (lapic_write_spec s r (Z.lor v LAPIC_LVT_MASKED) d1 p) as (P2 & R2 & W2 & F2); [by rewrite P1, P0 | done | done | done |].
  split; [intros b; by rewrite P2, P1, P0 |]. split; [intros p' r'; by rewrite R2, R1, R0 |]. intros r' Hr'. destruct (decide (r' = r)) as [-> | Hne].
  - rewrite W2 by done. rewrite Z.lor_spec. apply orb_true_r.
  - destruct Hr' as [? | Hr']; [done |]. destruct (lvt_writable r' (Hset r' Hr')) as (_ & _ & Hw'). rewrite F2, F1 by done. by apply S0.
Qed.

Lemma lapic_steps_refl d : lapic_steps d d (fun _ => False).
Proof. by split; [| split]. Qed.

(** The end of [apic_init]. *)
Lemma lapic_setup s d p :
  page d (lapic_base s) = Some p -> lapic_page p ->
  let d1 := lapic_write s LAPIC_TPR 0 (disable_legacy_pic d) in
  let d2 := mask_lvt s LAPIC_LVT_ERROR (mask_lvt s LAPIC_LVT_LINT1 (mask_lvt s LAPIC_LVT_LINT0 (mask_lvt s LAPIC_LVT_TIMER d1))) in
  let d' := lapic_write s LAPIC_SVR (Z.lor LAPIC_SVR_ENABLE 0xff) d2 in
  lapic_steps d d' is_lvt /\ Z.testbit (lapic_reg d' LAPIC_SVR) 8 = true.
Proof.
  intros Hp Hl d1 d2 d'. assert (lapic_steps d d1 (fun _ => False)) as H1.
  { unfold d1, disable_legacy_pic. set (e := outb 0x23 _ _). assert ((forall b, page e b = page d b) /\ (forall p' r, ioreg e p' r = ioreg d p' r)) as [Pe Re].
    { unfold e. split; intros; repeat (first [rewrite (proj1 (port_frame _ _ _)) | rewrite (proj1 (proj2 (port_frame _ _ _)))]); done. }
    destruct (lapic_write_spec s LAPIC_TPR 0 e p) as (P & R & _); [by rewrite Pe | done | done | done |]. split; [intros b; by rewrite P, Pe |]. split; [intros p' r; by rewrite R, Re | done]. }
  assert (lapic_steps d d2 is_lvt) as (P2 & R2 & S2).
  { assert (forall r, is_lvt r -> is_lvt r) as Hid by done. unfold d2.
    eapply (mask_lvt_spec s LAPIC_LVT_TIMER _ d p) in H1; [| done | done | apply (bool_decide_unpack _); exact I | done].
    eapply (mask_lvt_spec s LAPIC_LVT_LINT0 _ d p) in H1; [| done | done | apply (bool_decide_unpack _); exact I | intros r [-> | []]; apply (bool_decide_unpack _); exact I].
    eapply (mask_lvt_spec s LAPIC_LVT_LINT1 _ d p) in H1; [| done | done | apply (bool_decide_unpack _); exact I | intros r [-> | [-> | []]]; apply (bool_decide_unpack _); exact I].
    eapply (mask_lvt_spec s LAPIC_LVT_ERROR _ d p) in H1; [| done | done | apply (bool_decide_unpack _); exact I | intros r [-> | [-> | [-> | []]]]; apply (bool_decide_unpack _); exact I].
    destruct H1 as (P & R & S). split; [done |]. split; [done |]. intros r Hr. apply S. unfold is_lvt in Hr. rewrite !elem_of_cons, elem_of_nil in Hr. tauto. }
  destruct (lapic_write_spec s LAPIC_SVR (Z.lor LAPIC_SVR_ENABLE 0xff) d2 p) as (P & R & W & F); [by rewrite P2 | done | done | done |]. fold d' in P, R, W, F.
  split; [split; [intros b; by rewrite P, P2 | split; [intros p' r; by rewrite R, R2 |]] | by rewrite W].
  intros r Hr. pose proof (lvt_writable r Hr) as (_ & _ & Hw). rewrite F; [by apply S2 | | done]. intros ->. unfold is_lvt in Hr. rewrite !elem_of_cons, elem_of_nil in Hr.
  destruct Hr as [E | [E | [E | [E | []]]]]; discriminate E.
Qed.

(** Initialisation always ends; when it reports success the controllers are set
    up as the platform describes them, every pin of every I/O APIC and every local
    source is masked and the local APIC is enabled; otherwise the controllers
    count as not initialised if they did before. *)
Lemma apic_init_spec s t cpu d :
  platform_ok t -> zlen (io_runtimes s) = IOAPIC_MAX_RUNTIME ->
  exists st s' d', apic_init map_mmio s (Some t) (Some cpu) d = Some (st, s', d') /\
    if bool_decide (st = APIC_OK)
    then apic_ok s' d' /\ topology s' = t /\ io_count s' = ioapic_count t /\
         Forall (pins_masked d') (take (Z.to_nat (io_count s')) (io_runtimes s')) /\
         (forall r, is_lvt r -> Z.testbit (lapic_reg d' r) 16 = true) /\ Z.testbit (lapic_reg d' LAPIC_SVR) 8 = true /\
         has_msr cpu = true /\ has_apic cpu = true
    else initialised s' = initialised s.
Proof.
  intros Ht Hlen. pose proof Ht as (Htyped & Hla & Hlp & _). unfold apic_init.
  destruct (has_msr cpu), (has_apic cpu), (local_apic_address t =? 0), (ioapic_count t =? 0); cbn [negb orb]; try by exists APIC_UNAVAILABLE, s, d.
  destruct (Z.ltb_spec IOAPIC_MAX_RUNTIME (ioapic_count t)) as [_ | Hmax]; cbn [orb]; [by exists APIC_BAD_ARGUMENT, s, d |].
  destruct (Z.eqb_spec (Z.land (local_apic_address t) 0xfff) 0) as [Hal | _]; cbn [negb]; [| by exists APIC_BAD_ARGUMENT, s, d].
  destruct (cpu_read_msr IA32_APIC_BASE_MSR d) as [msr d1]. destruct (Z.land msr APIC_BASE_X2APIC =? 0); cbn [negb]; [| by exists APIC_UNSUPPORTED_MODE, s, d1].
  set (d2 := cpu_write_msr _ _ d1). pose proof (map_page d2 (local_apic_address t) (page_aligned _ Hla Hal)) as Hmap.
  destruct (map_mmio (local_apic_address t) 4096 d2) as [base d3]. cbn zeta. destruct (Z.eqb_spec base 0) as [-> | Hnz]; [by eexists APIC_MAP_FAILED, _, d3 |]. destruct Hmap as [-> | (Hp & _)]; [done |].
  unfold lapic_read. cbn [set_lapic lapic_base]. change (4 * (LAPIC_ID / 4)) with 32. destruct (lapic_load d3 base (local_apic_address t) 32 Hp Hlp ltac:(done)) as (P4 & R4 & F4).
  pose proof (readl_range d3 (base + 32)) as Hid. destruct (readl (base + 32) d3) as [id d4]. cbn [fst snd] in *. set (s1 := set_runtimes _ _ 0).
  assert (io_inv s1 d4) as Hinv. { split; [exact Hlen |]. split; [unfold IOAPIC_MAX_RUNTIME, ACPI_MAX_IOAPICS; cbn; lia |]. cbn. constructor. }
  pose proof Htyped as ((_ & (_ & Hc) & _) & _). destruct (ioapics_loop_spec t (Z.to_nat (ioapic_count t)) 0 s1 d4) as (st & s2 & d5 & -> & (Sb & _ & Si & Sini & _) & Hok); [done | lia | lia | done | done |].
  cbn [mbind option_bind]. destruct (bool_decide_reflect (st = APIC_OK)) as [-> | Hst]; cbn [negb]; [| eexists st, s2, d5; split; [reflexivity |]; by rewrite bool_decide_false].
  destruct (Hok eq_refl) as ((Hl2 & Hc2 & Hr2) & Hcnt & [HP5 _]). assert (page d5 (lapic_base s2) = Some (local_apic_address t)) as Hp5 by (rewrite Sb; cbn; rewrite HP5, P4; [done | congruence]).
  destruct (lapic_setup s2 d5 (local_apic_address t) Hp5 Hlp) as [(P6 & R6 & S6) SVR]. eexists APIC_OK, _, _. split; [reflexivity |]. rewrite bool_decide_true by done.
  set (d6 := lapic_write s2 LAPIC_SVR _ _) in *. cbn [finish_init topology io_count io_runtimes].
  assert (forall p k, is_masked d5 p k -> is_masked d6 p k) as HM by (intros p k; unfold is_masked; by rewrite R6).
  destruct (io_inv_step s2 d5 d6 (fun b _ => P6 b) HM (conj Hl2 (conj Hc2 Hr2))) as (_ & _ & Hr6). apply Forall_and in Hr6 as [Hr6 Hm6].
  split; [| done]. unfold apic_ok. cbn [finish_init initialised lapic_id topology io_runtimes io_count lapic_base]. rewrite Si, Sb. cbn [s1 set_runtimes set_lapic lapic_id lapic_base].
  split; [done |]. split; [apply Z.shiftr_nonneg; lia |]. do 4 (split; [done |]). split; [done |]. exists (local_apic_address t). split; [| done]. rewrite P6, <- Hp5, Sb. done.
Qed.

End Routing.

(** Initialisation always ends with a status; when it reports success the
    controllers are set up as the platform describes them, every pin of every I/O
    APIC and every local source is masked and the local APIC is enabled; when it
    fails they are not taken for initialised. *)
Theorem apic_init_correct {D} `{!Hardware D} {map_mmio : Z -> Z -> D -> Z * D} `{!Controllers D map_mmio} s t cpu d :
  platform_ok t -> zlen (io_runtimes s) = IOAPIC_MAX_RUNTIME -> initialised s = false ->
  exists st s' d', apic_init map_mmio s (Some t) (Some cpu) d = Some (st, s', d') /\
    if bool_decide (st = APIC_OK)
    then apic_ok s' d' /\ topology s' = t /\ io_count s' = ioapic_count t /\
         Forall (pins_masked d') (take (Z.to_nat (io_count s')) (io_runtimes s')) /\
         (forall r, is_lvt r -> Z.testbit (lapic_reg d' r) 16 = true) /\ Z.testbit (lapic_reg d' LAPIC_SVR) 8 = true /\
         has_msr cpu = true /\ has_apic cpu = true
    else initialised s' = false.
Proof. intros Ht Hl Hi. destruct (apic_init_spec s t cpu d Ht Hl) as (st & s' & d' & E & H). exists st, s', d'. rewrite Hi in H. done. Qed.

(** C28. Routing an ISA interrupt puts the entry built from its vector, the local APIC
    and the flags of the platform into the pin of the interrupt, and no other
    register of any controller changes; the pin stays masked until the entry is
    complete.  Masking changes exactly the mask bit of the pin.  A failure changes
    nothing and has the cause its status names. *)
Theorem apic_routing_correct {D} `{!Hardware D} {map_mmio : Z -> Z -> D -> Z * D} `{!Controllers D map_mmio} s d irq :
  apic_ok s d -> 0 <= irq < 256 ->
  (forall vector masked, 0 <= vector < 256 ->
     exists status d', apic_route_isa_irq s irq vector masked d = Some (status, d') /\ apic_ok s d' /\ routed s d d' irq vector masked status) /\
  (forall masked, exists status d', apic_set_isa_irq_mask s irq masked d = Some (status, d') /\ apic_ok s d' /\ mask_set s d d' irq masked status).
Proof. intros Hok Hirq. split; intros; [by apply apic_route_spec | by apply apic_mask_spec]. Qed.

(** ** A board *)

(** One I/O APIC with 24 pins and a local APIC; window [i] is at
    [0x100000 + 4096 i]. *)
Record board := mk_board { mapped_pages : list Z; selected : Z; io_registers : Z -> Z; local_registers : Z -> Z }.

Definition board_io : Z := 0xfec00000.
Definition board_lapic : Z := 0xfee00000.
Definition board_page (d : board) (b : Z) : option Z := if (b - 0x100000) mod 4096 =? 0 then rd (mapped_pages d) ((b - 0x100000) / 4096) else None.
Definition set_fun (f : Z -> Z) (k v : Z) : Z -> Z := fun i => if i =? k then v else f i.

Definition board_writel (a v : Z) (d : board) : board :=
  let o := a mod 4096 in
  match board_page d (a - o) with
  | Some p =>
      if p =? board_io then
        if o =? 0 then mk_board (mapped_pages d) (u8 v) (io_registers d) (local_registers d)
        else if o =? 16 then mk_board (mapped_pages d) (selected d) (set_fun (io_registers d) (selected d) v) (local_registers d) else d
      else if p =? board_lapic then mk_board (mapped_pages d) (selected d) (io_registers d) (set_fun (local_registers d) o v)
      else d
  | None => d
  end.

Definition board_readl (a : Z) (d : board) : Z * board :=
  let o := a mod 4096 in
  match board_page d (a - o) with
  | Some p => (if p =? board_io then if o =? 16 then u32 (io_registers d (selected d)) else 0 else if p =? board_lapic then u32 (local_registers d o) else 0, d)
  | None => (0, d)
  end.

#[export] Instance board_hardware : Hardware board := {|
  readl := board_readl; writel := board_writel; inb := fun _ d => (0, d); outb := fun _ _ d => d; inl := fun _ d => (0, d); outl := fun _ _ d => d;
  rdmsr := fun _ d => ((0xfee00900, 0), d); wrmsr := fun _ _ _ d => d |}.

Definition board_map (p size : Z) (d : board) : Z * board :=
  (0x100000 + 4096 * zlen (mapped_pages d), mk_board (mapped_pages d ++ [p]) (selected d) (io_registers d) (local_registers d)).

Lemma board_window d b p o : board_page d b = Some p -> 0 <= o < 4096 -> (b + o) mod 4096 = o /\ board_page d (b + o - (b + o) mod 4096) = Some p.
Proof.
  intros Hp Ho. pose proof Hp as Hp'. unfold board_page in Hp. destruct (Z.eqb_spec ((b - 0x100000) mod 4096) 0) as [Hb |]; [| done].
  assert (b mod 4096 = 0) as Hb' by (rewrite Zminus_mod in Hb; rewrite Z.sub_0_r, Z.mod_mod in Hb by done; done).
  assert ((b + o) mod 4096 = o) as E by (rewrite Zplus_mod, Hb', Z.add_0_l, Z.mod_mod, Z.mod_small; done). split; [done |]. rewrite E. by replace (b + o - o) with b by lia.
Qed.

Lemma board_map_page d p : board_page (mk_board (mapped_pages d ++ [p]) (selected d) (io_registers d) (local_registers d)) (0x100000 + 4096 * zlen (mapped_pages d)) = Some p.
Proof.
  unfold board_page. replace (0x100000 + 4096 * zlen (mapped_pages d) - 0x100000) with (zlen (mapped_pages d) * 4096) by lia. rewrite Z.mod_mul, Z.div_mul by done. cbn [Z.eqb mapped_pages].
  unfold zlen. rewrite rd_of_nat. by rewrite lookup_app_r, Nat.sub_diag by lia.
Qed.

Lemma u32_testbit v n : n < 32 -> Z.testbit (u32 v) n = Z.testbit v n.
Proof. intros Hn. unfold u32. change 4294967296 with (2 ^ 32). by apply Z.mod_pow2_bits_low. Qed.

Lemma writable_32 reg n : writable reg n = true -> n < 32.
Proof.
  unfold writable. destruct (reg <? _); [done |]. destruct (Z.even reg); rewrite ?andb_true_iff, ?Z.leb_le, ?Z.ltb_lt; lia.
Qed.

Lemma lapic_writable_32 reg n : lapic_writable reg n = true -> n < 32.
Proof.
  unfold lapic_writable. destruct (reg =? _); [rewrite andb_true_iff, !Z.leb_le; lia |]. case_bool_decide; [rewrite Z.eqb_eq; lia | done].
Qed.

Lemma board_io_write d b p o v : board_page d b = Some p -> p = board_io -> 0 <= o < 4096 ->
  board_writel (b + o) v d = if o =? 0 then mk_board (mapped_pages d) (u8 v) (io_registers d) (local_registers d)
    else if o =? 16 then mk_board (mapped_pages d) (selected d) (set_fun (io_registers d) (selected d) v) (local_registers d) else d.
Proof. intros Hp -> Ho. destruct (board_window d b _ o Hp Ho) as [E Hp']. unfold board_writel. rewrite Hp', E. done. Qed.

Lemma board_lapic_write d b p o v : board_page d b = Some p -> p = board_lapic -> 0 <= o < 4096 ->
  board_writel (b + o) v d = mk_board (mapped_pages d) (selected d) (io_registers d) (set_fun (local_registers d) o v).
Proof. intros Hp -> Ho. destruct (board_window d b _ o Hp Ho) as [E Hp']. unfold board_writel. rewrite Hp', E. done. Qed.

Lemma board_read_same a d : snd (board_readl a d) = d.
Proof. unfold board_readl. by destruct (board_page _ _). Qed.

Lemma board_read_io d b p : board_page d b = Some p -> p = board_io -> fst (board_readl (b + 16) d) = u32 (io_registers d (selected d)).
Proof. intros Hp ->. destruct (board_window d b _ 16 Hp ltac:(done)) as [E Hp']. unfold board_readl. rewrite Hp', E. done. Qed.

#[export] Program Instance board_controllers : Controllers board board_map := {|
  page := board_page;
  io_page := fun p => p = board_io;
  lapic_page := fun p => p = board_lapic;
  ioregsel := fun d _ => selected d;
  ioreg := fun d p r => if p =? board_io then u32 (io_registers d r) else 0;
  lapic_reg := fun d r => u32 (local_registers d r)
|}.
Next Obligation.
  intros d b p v Hp Hio. cbn. replace b with (b + 0) by lia. rewrite (board_io_write d b p 0 v) by done. done.
Qed.
Next Obligation.
  intros d b p v Hp Hio. cbn. rewrite (board_io_write d b p 16 v) by done. cbn. rewrite Hio. cbn. split; [done |]. split; [| split; [| done]].
  - intros n Hn. unfold set_fun. rewrite Z.eqb_refl. apply u32_testbit. by apply writable_32 in Hn.
  - intros p' r Hne. unfold set_fun. destruct (Z.eqb_spec p' board_io); [| done]. destruct (Z.eqb_spec r (selected d)); [tauto | done].
Qed.
Next Obligation.
  intros d b p Hp Hio. cbn. rewrite board_read_same, (board_read_io d b p) by done. rewrite Hio. done.
Qed.
Next Obligation.
  intros d b p o v Hp Hl Ho. cbn. rewrite (board_lapic_write d b p o v) by done. cbn. split; [done |]. split; [done |]. split.
  - intros n Hn. unfold set_fun. rewrite Z.eqb_refl. apply u32_testbit. by apply lapic_writable_32 in Hn.
  - intros r n Hr Hn. unfold set_fun. by destruct (Z.eqb_spec r o).
Qed.
Next Obligation. intros d b p o Hp Hl Ho. cbn. by rewrite board_read_same. Qed.
Next Obligation. done. Qed.
Next Obligation.
  intros d a. cbn. unfold board_readl. destruct (board_page _ _); [| cbn; lia]. cbn [fst]. repeat case_match; first [apply u32_range | lia].
Qed.
Next Obligation.
  intros d p Hp. cbn. right. split; [apply board_map_page |]. split; [| done]. intros b Hb. unfold board_page in *. cbn [mapped_pages]. destruct (_ mod 4096 =? 0); [| done].
  destruct (rd (mapped_pages d) ((b - 0x100000) / 4096)) as [x |] eqn:E; [| done]. apply rd_lookup in E as [? E]. apply rd_lookup. split; [done |]. by apply lookup_app_l_Some.
Qed.

Definition board_platform : acpi_platform_info_t :=
  mk_platform board_lapic 1 (replicate 64 (mk_cpu_info 0 0 1 0)) 1 (mk_ioapic_info 0 board_io 0 :: replicate 7 (mk_ioapic_info 0 0 0)) 1
    (mk_override 0 2 0 :: replicate 15 (mk_override 0 0 0)) 1.
Definition board_cpu : cpu_features_t := mk_features 7 0x80000008 0 true true false true true true true true true.
Definition board_start : board := mk_board [] 0 (fun r => if r =? 1 then 0x00170011 else 0) (fun r => 0).
Definition apic_start : apic_state := mk_apic 0 0 0 (replicate 8 (mk_runtime 0 0 0 0)) 0 (mk_platform 0 0 [] 0 [] 0 [] 0) 0 false.

Lemma board_platform_ok : platform_ok (map_mmio := board_map) board_platform.
Proof.
  split; [split; [| split] |].
  - repeat split; vm_compute; done.
  - repeat constructor; vm_compute; done.
  - repeat constructor; vm_compute; done.
  - split; [done |]. split; [done |]. repeat constructor; vm_compute; done.
Qed.

Lemma apic_init_correct_witness :
  exists s' d', apic_init board_map apic_start (Some board_platform) (Some board_cpu) board_start = Some (APIC_OK, s', d') /\
    apic_ok (map_mmio := board_map) s' d' /\ Forall (pins_masked (map_mmio := board_map) d') (take 1 (io_runtimes s')).
Proof.
  destruct (apic_init_correct apic_start board_platform board_cpu board_start board_platform_ok eq_refl eq_refl) as (st & s' & d' & E & H).
  assert (fst (fst (st, s', d')) = APIC_OK) as Est.
  { assert ((fun r => fst (fst r)) <$> apic_init board_map apic_start (Some board_platform) (Some board_cpu) board_start = Some APIC_OK) as Hv by (vm_compute; reflexivity).
    rewrite E in Hv. by injection Hv. }
  cbn in Est. subst st. exists s', d'. split; [exact E |]. rewrite bool_decide_true in H by done. destruct H as (Hok & _ & Hc & Hm & _). split; [exact Hok |]. rewrite Hc in Hm. exact Hm.
Defined.

Lemma board_initialised : exists s d, apic_init board_map apic_start (Some board_platform) (Some board_cpu) board_start = Some (APIC_OK, s, d) /\ apic_ok (map_mmio := board_map) s d.
Proof.
  destruct (apic_init_spec apic_start board_platform board_cpu board_start board_platform_ok eq_refl) as (st & s & d & E & H).
  assert ((fun r => fst (fst r)) <$> apic_init board_map apic_start (Some board_platform) (Some board_cpu) board_start = Some APIC_OK) as Hv by (vm_compute; reflexivity).
  rewrite E in Hv. injection Hv as ->. exists s, d. split; [exact E |]. rewrite bool_decide_true in H by done. apply H.
Qed.

Lemma apic_routing_correct_witness :
  exists s d d', apic_init board_map apic_start (Some board_platform) (Some board_cpu) board_start = Some (APIC_OK, s, d) /\
    apic_route_isa_irq s 0 32 true d = Some (APIC_OK, d') /\ routed (map_mmio := board_map) s d d' 0 32 true APIC_OK.
Proof.
  destruct board_initialised as (s & d & E & Hok). destruct (apic_routing_correct (map_mmio := board_map) s d 0 Hok ltac:(lia)) as [H _]. destruct (H 32 true ltac:(lia)) as (st & d' & Er & _ & Hr).
  exists s, d, d'. assert ((fun r => fst <$> apic_route_isa_irq (snd (fst r)) 0 32 true (snd r)) <$> apic_init board_map apic_start (Some board_platform) (Some board_cpu) board_start = Some (Some APIC_OK)) as Hv
    by (vm_compute; reflexivity).
  rewrite E in Hv. cbn [fmap option_fmap option_map fst snd] in Hv. rewrite Er in Hv. cbn in Hv. injection Hv as ->. split; [exact E |]. split; [exact Er | exact Hr].
Defined.
