(* ===== verification/Keyboard.v ===== *)
(** * Keyboard (kernel/src/keyboard_decode.c, keyboard_decode.h, keyboard.c, keyboard.h)

    Decoding of scancodes, the interrupt handler that pushes events into the
    input queue, and the functions that talk to the PS/2 controller over the
    hardware of [Cpu].  Setting the keyboard up is in [Machine]. *)

From Stdlib Require Import ZArith Lia String List.
From stdpp Require Import base numbers list.
From S2P Require Import Prelude Bytes Interrupts Cpu Input.

#[local] Open Scope Z_scope.

(** ** keyboard_decode.c *)

Record keyboard_decode_state_t := mk_decode { held : Z; extended : bool }.

Definition normal : list Z :=
  [0; 27] ++ chars "1234567890-=" ++ [8; 9] ++ chars "qwertyuiop[]" ++ [10; 0] ++ chars "asdfghjkl;'`" ++ [0] ++ chars "\zxcvbnm,./" ++ [0] ++ chars "*" ++ [0] ++ chars " ".
Definition shifted_map : list Z :=
  [0; 27] ++ chars "!@#$%^&*()_+" ++ [8; 9] ++ chars "QWERTYUIOP{}" ++ [10; 0] ++ chars "ASDFGHJKL:" ++ [34] ++ chars "~" ++ [0] ++ chars "|ZXCVBNM<>?" ++ [0] ++ chars "*" ++ [0] ++ chars " ".

Definition translate (code : Z) (shift_active : bool) : option Z :=
  if 58 <=? code then Some 0 else if shift_active then rd shifted_map code else rd normal code.

Definition keyboard_decode_reset (state : option keyboard_decode_state_t) : option keyboard_decode_state_t :=
  match state with None => None | Some _ => Some (mk_decode 0 false) end.

(** One modifier key. *)
Definition set_modifier (mods bit : Z) (released : bool) : Z :=
  if released then Z.land mods (u16 (Z.lnot bit)) else Z.lor mods bit.

(** The event, if the scancode completes one, and the new state. *)
Definition keyboard_decode_scancode (state : keyboard_decode_state_t) (scancode : Z) : option (option input_event_t * keyboard_decode_state_t) :=
  if scancode =? 0xe0 then Some (None, mk_decode (held state) true)
  else if scancode =? 0xe1 then Some (None, mk_decode (held state) false)
  else
    let released := negb (Z.land scancode 0x80 =? 0) in
    let code := Z.land scancode 0x7f in
    let extended_bit := if extended state then 0x100 else 0 in
    let mods :=
      if (code =? 0x2a) || (code =? 0x36) then set_modifier (held state) INPUT_MOD_SHIFT released
      else if code =? 0x1d then set_modifier (held state) INPUT_MOD_CTRL released
      else if code =? 0x38 then set_modifier (held state) INPUT_MOD_ALT released
      else held state in
    c ← (if negb released && (extended_bit =? 0) then translate code (negb (Z.land mods INPUT_MOD_SHIFT =? 0)) else Some 0);
    Some (Some (mk_event INPUT_EVENT_KEY (Z.lor extended_bit code) mods 0 0 (if released then 0 else 1) c), mk_decode mods false).

(** ** keyboard.c *)

Definition PS2_DATA : Z := 0x60.
Definition PS2_STATUS_COMMAND : Z := 0x64.
Definition PS2_STATUS_OUTPUT_FULL : Z := 0x01.
Definition PS2_STATUS_INPUT_FULL : Z := 0x02.
Definition PS2_COMMAND_READ_CONFIG : Z := 0x20.
Definition PS2_COMMAND_WRITE_CONFIG : Z := 0x60.
Definition PS2_CONFIG_IRQ1 : Z := 0x01.
Definition PS2_CONFIG_DISABLE_KEYBOARD : Z := 0x10.
Definition PS2_CONFIG_TRANSLATION : Z := 0x40.
Definition KEYBOARD_VECTOR : Z := 33.
Definition PS2_WAIT_LIMIT : Z := 100000.

Inductive keyboard_status_t := KEYBOARD_OK | KEYBOARD_CONTROLLER_TIMEOUT | KEYBOARD_INTERRUPT_SETUP_FAILED | KEYBOARD_ROUTE_FAILED.

Record keyboard_state := mk_keyboard { decode_state : keyboard_decode_state_t; irq_count : Z }.

Section Keyboard.
Context {D : Type} `{!Hardware D}.

(** Polls the status port until the bit [mask] is [want]. *)
Fixpoint wait_loop (n : nat) (mask : Z) (want : bool) (d : D) : bool * D :=
  match n with
  | O => (false, d)
  | S n =>
      let '(status, d) := inb PS2_STATUS_COMMAND d in
      if Bool.eqb (negb (Z.land status mask =? 0)) want then (true, d) else wait_loop n mask want d
  end.

Definition wait_input_empty (d : D) : bool * D := wait_loop (Z.to_nat PS2_WAIT_LIMIT) PS2_STATUS_INPUT_FULL false d.
Definition wait_output_full (d : D) : bool * D := wait_loop (Z.to_nat PS2_WAIT_LIMIT) PS2_STATUS_OUTPUT_FULL true d.

Fixpoint drain_loop (n : nat) (d : D) : D :=
  match n with
  | O => d
  | S n =>
      let '(status, d) := inb PS2_STATUS_COMMAND d in
      if Z.land status PS2_STATUS_OUTPUT_FULL =? 0 then d else drain_loop n (snd (inb PS2_DATA d))
  end.
Definition drain_output (d : D) : D := drain_loop 32 d.

Definition keyboard_interrupt (k : keyboard_state) (q : input_state) (d : D) : option (keyboard_state * input_state * D) :=
  let '(status, d) := inb PS2_STATUS_COMMAND d in
  if Z.land status PS2_STATUS_OUTPUT_FULL =? 0 then Some (k, q, d)
  else
    let '(scancode, d) := inb PS2_DATA d in
    '(event, st) ← keyboard_decode_scancode (decode_state k) scancode;
    q ← match event with Some _ => snd <$> input_push_isr q event | None => Some q end;
    Some (mk_keyboard st (u64 (irq_count k + 1)), q, d).

(** The controller's part of [keyboard_init]: the new configuration byte is
    written, or a wait timed out. *)
Definition controller_setup (d : D) : bool * D :=
  let d := drain_output d in
  let '(ok, d) := wait_input_empty d in
  if negb ok then (false, d)
  else
    let d := outb PS2_STATUS_COMMAND PS2_COMMAND_READ_CONFIG d in
    let '(ok, d) := wait_output_full d in
    if negb ok then (false, d)
    else
      let '(config, d) := inb PS2_DATA d in
      let config := Z.lor config (Z.lor PS2_CONFIG_IRQ1 PS2_CONFIG_TRANSLATION) in
      let config := Z.land config (u8 (Z.lnot PS2_CONFIG_DISABLE_KEYBOARD)) in
      let '(ok, d) := wait_input_empty d in
      if negb ok then (false, d)
      else
        let d := outb PS2_STATUS_COMMAND PS2_COMMAND_WRITE_CONFIG d in
        let '(ok, d) := wait_input_empty d in
        if negb ok then (false, d) else (true, outb PS2_DATA config d).

End Keyboard.

Definition keyboard_interrupt_count (k : keyboard_state) : Z := irq_count k.

Definition blank_event : input_event_t := mk_event INPUT_EVENT_NONE 0 0 0 0 0 0.

(** [None] if [n] pops do not empty the queue. *)
Fixpoint poll_loop (n : nat) (q : input_state) : option (Z * input_state) :=
  '(ok, event, q) ← input_pop q (Some blank_event);
  match ok, event with
  | true, Some event =>
      if bool_decide (type event = INPUT_EVENT_KEY) && negb (pressed event =? 0) && negb (character event =? 0) then Some (character event, q)
      else match n with O => None | S n => poll_loop n q end
  | _, _ => Some (0, q)
  end.
Definition keyboard_poll (q : input_state) : option (Z * input_state) := poll_loop (Z.to_nat INPUT_QUEUE_CAPACITY) q.

Definition keyboard_status_string (status : keyboard_status_t) : string :=
  match status with
  | KEYBOARD_OK => "ok"
  | KEYBOARD_CONTROLLER_TIMEOUT => "PS2 controller timeout"
  | KEYBOARD_INTERRUPT_SETUP_FAILED => "keyboard interrupt setup failed"
  | KEYBOARD_ROUTE_FAILED => "keyboard IOAPIC route failed"
  end.

(** ** Typing *)

(** The keys of a US keyboard that give a character: the scancode of set 1, and
    the character without and with shift. *)
Definition us_keys : list (Z * Z * Z) :=
  zip_with (fun c k => (k, c, c - 32)) (chars "abcdefghijklmnopqrstuvwxyz")
    [0x1e; 0x30; 0x2e; 0x20; 0x12; 0x21; 0x22; 0x23; 0x17; 0x24; 0x25; 0x26; 0x32; 0x31; 0x18; 0x19; 0x10; 0x13; 0x1f; 0x14; 0x16; 0x2f; 0x11; 0x2d; 0x15; 0x2c] ++
  zip_with (fun '(c, C) k => (k, c, C)) (zip (chars "0123456789") (chars ")!@#$%^&*("))
    [0x0b; 0x02; 0x03; 0x04; 0x05; 0x06; 0x07; 0x08; 0x09; 0x0a] ++
  zip_with (fun '(c, C) k => (k, c, C)) (zip (chars "`-=[]\;',./") (chars "~_+{}|:" ++ [34] ++ chars "<>?"))
    [0x29; 0x0c; 0x0d; 0x1a; 0x1b; 0x2b; 0x27; 0x28; 0x33; 0x34; 0x35] ++
  [(0x01, 27, 27); (0x0e, 8, 8); (0x0f, 9, 9); (0x1c, 10, 10); (0x39, 32, 32); (0x37, 42, 42)].

(** The ways to type a character: the key is pressed and released, where the
    character needs it with one of the shift keys held, which is released before
    or after the key. *)
Definition keystrokes : list (Z * list Z) :=
  us_keys ≫= fun '(k, c, C) =>
    (c, [k; k + 0x80]) :: ([0x2a; 0x36] ≫= fun shift => [(C, [shift; k; k + 0x80; shift + 0x80]); (C, [shift; k; shift + 0x80; k + 0x80])]).

Definition types (c : Z) (codes : list Z) : Prop := (c, codes) ∈ keystrokes.

Definition visible (e : input_event_t) : bool := bool_decide (type e = INPUT_EVENT_KEY) && negb (pressed e =? 0) && negb (character e =? 0).

(** The characters [keyboard_poll] sees in a list of events. *)
Definition text_of (es : list input_event_t) : list Z := character <$> filter (fun e => visible e = true) es.

Fixpoint decode_all (st : keyboard_decode_state_t) (cs : list Z) : option (list input_event_t * keyboard_decode_state_t) :=
  match cs with
  | [] => Some ([], st)
  | c :: cs =>
      '(e, st) ← keyboard_decode_scancode st c;
      '(es, st) ← decode_all st cs;
      Some (option_list e ++ es, st)
  end.

Lemma decode_all_app st cs1 cs2 es1 st1 es2 st2 :
  decode_all st cs1 = Some (es1, st1) -> decode_all st1 cs2 = Some (es2, st2) -> decode_all st (cs1 ++ cs2) = Some (es1 ++ es2, st2).
Proof.
  revert st es1. induction cs1 as [| c cs1 IH]; intros st es1 H1 H2; [by injection H1 as <- <- |]. cbn [decode_all app] in *.
  destruct (keyboard_decode_scancode st c) as [[e st'] |]; [| done]. cbn [mbind option_bind] in *. destruct (decode_all st' cs1) as [[es st''] |] eqn:E; [| done].
  cbn [mbind option_bind] in H1. injection H1 as <- ->. rewrite (IH st' es E H2). cbn [mbind option_bind]. by rewrite app_assoc.
Qed.

Lemma text_of_app es1 es2 : text_of (es1 ++ es2) = text_of es1 ++ text_of es2.
Proof. unfold text_of. by rewrite filter_app, fmap_app. Qed.

Definition no_keys : keyboard_decode_state_t := mk_decode 0 false.

(** One keystroke yields its character once and leaves no key held. *)
Definition keystroke_ok (k : Z * list Z) : bool :=
  match decode_all no_keys (snd k) with
  | Some (es, st) => bool_decide (text_of es = [fst k]) && (held st =? 0) && negb (extended st) && forallb (fun e => bool_decide (type e = INPUT_EVENT_KEY)) es
  | None => false
  end.

Lemma keystroke_table : forallb keystroke_ok keystrokes = true.
Proof. vm_compute. reflexivity. Qed.

Definition key_events (es : list input_event_t) : Prop := Forall (fun e => type e = INPUT_EVENT_KEY) es.

Lemma keystroke_spec c codes : types c codes -> exists es, decode_all no_keys codes = Some (es, no_keys) /\ text_of es = [c] /\ key_events es.
Proof.
  intros Hin. pose proof keystroke_table as H. rewrite forallb_forall in H. specialize (H (c, codes)). rewrite <- list_elem_of_In in H. specialize (H Hin).
  unfold keystroke_ok in H. cbn [fst snd] in H. destruct (decode_all no_keys codes) as [[es st] |]; [| done].
  apply andb_true_iff in H as [H Hk]. apply andb_true_iff in H as [H Hx]. apply andb_true_iff in H as [Ht Hh]. exists es. split; [| split].
  - destruct st as [h x]. cbn in *. apply Z.eqb_eq in Hh as ->. by destruct x.
  - by apply bool_decide_eq_true in Ht.
  - apply Forall_forall. intros e He. rewrite forallb_forall in Hk. apply list_elem_of_In in He. by apply Hk, bool_decide_eq_true in He.
Qed.

Lemma typing_spec text typed : Forall2 types text typed -> exists es, decode_all no_keys (concat typed) = Some (es, no_keys) /\ text_of es = text /\ key_events es.
Proof.
  induction 1 as [| c codes text typed Hc _ (es2 & E2 & T2 & K2)]; [exists []; split; [done |]; split; [done | constructor] |].
  destruct (keystroke_spec c codes Hc) as (es1 & E1 & T1 & K1). exists (es1 ++ es2).
  split; [cbn [concat]; by eapply decode_all_app |]. split; [by rewrite text_of_app, T1, T2 |]. by apply Forall_app.
Qed.

Lemma decode_all_length st cs es st' : decode_all st cs = Some (es, st') -> zlen es <= zlen cs.
Proof.
  revert st es st'. induction cs as [| c cs IH]; intros st es st' H; [by injection H as <- _ |]. cbn [decode_all] in H.
  destruct (keyboard_decode_scancode st c) as [[e st1] |]; [| done]. cbn [mbind option_bind] in H. destruct (decode_all st1 cs) as [[es1 st2] |] eqn:E; [| done].
  cbn [mbind option_bind] in H. injection H as <- _. apply IH in E. rewrite zlen_app, zlen_cons. destruct e as [e |]; [change (zlen (option_list (Some e))) with 1 | change (zlen (option_list (A := input_event_t) None)) with 0]; lia.
Qed.

(** ** From the controller to the reader *)

Section Typing.
Context {D : Type} `{!Hardware D}.

(** At each of the next interrupts the controller has the next of these bytes. *)
Inductive sends : D -> list Z -> D -> Prop :=
| sends_nil d : sends d [] d
| sends_cons d status d1 c d2 cs d' :
    inb PS2_STATUS_COMMAND d = (status, d1) -> Z.land status PS2_STATUS_OUTPUT_FULL <> 0 -> inb PS2_DATA d1 = (c, d2) -> sends d2 cs d' -> sends d (c :: cs) d'.

(** [n] keyboard interrupts. *)
Fixpoint keyboard_interrupts (n : nat) (k : keyboard_state) (q : input_state) (d : D) : option (keyboard_state * input_state * D) :=
  match n with
  | O => Some (k, q, d)
  | S n => '(k, q, d) ← keyboard_interrupt k q d; keyboard_interrupts n k q d
  end.

Lemma event_push_spec q L e : holds q L -> type e = INPUT_EVENT_KEY -> zlen L < INPUT_QUEUE_MASK ->
  exists q', input_push_isr q (Some e) = Some (true, q') /\ holds q' (L ++ [e]) /\ dropped q' = dropped q.
Proof.
  intros Hq He Hroom. destruct (input_queue_refines q L e blank_event Hq) as [(ok & q' & E & Hok & _) _]; [by rewrite He |].
  destruct (Hok Hroom) as (-> & ? & ?). by exists q'.
Qed.

Lemma keyboard_interrupts_spec cs : forall d d' k q L es st',
  sends d cs d' -> decode_all (decode_state k) cs = Some (es, st') -> key_events es -> holds q L -> zlen L + zlen es <= INPUT_QUEUE_MASK ->
  exists k' q', keyboard_interrupts (length cs) k q d = Some (k', q', d') /\ decode_state k' = st' /\ holds q' (L ++ es) /\ dropped q' = dropped q.
Proof.
  induction cs as [| c cs IH]; intros d d' k q L es st' Hs Hd Hk Hq Hroom.
  { injection Hd as <- <-. inversion Hs; subst. exists k, q. by rewrite app_nil_r. }
  inversion Hs as [| d0 status d1 c0 d2 cs0 d3 Est Hst Ec Hrest]; subst. cbn [decode_all] in Hd. cbn [length keyboard_interrupts]. unfold keyboard_interrupt. rewrite Est.
  rewrite (proj2 (Z.eqb_neq _ _) Hst), Ec. destruct (keyboard_decode_scancode (decode_state k) c) as [[e st1] |]; [| done]. cbn [mbind option_bind] in *.
  destruct (decode_all st1 cs) as [[es1 st2] |] eqn:E; [| done]. cbn [mbind option_bind] in Hd. injection Hd as <- ->. apply Forall_app in Hk as [He Hk]. rewrite zlen_app in Hroom. pose proof (zlen_nonneg es1).
  destruct e as [e |]; [change (option_list (Some e)) with [e] in * | change (option_list (A := input_event_t) None) with (@nil input_event_t) in *; cbn [app] in *].
  - apply Forall_cons in He as [He _]. change (zlen [e]) with 1 in Hroom. destruct (event_push_spec q L e Hq He ltac:(lia)) as (q1 & -> & Hq1 & Hd1). cbn [fmap option_fmap option_map snd mbind option_bind].
    destruct (IH d2 d' (mk_keyboard st1 (u64 (irq_count k + 1))) q1 (L ++ [e]) es1 st') as (k' & q' & E' & ? & Hq' & Hd'); [done | done | done | done | rewrite zlen_app; change (zlen [e]) with 1; lia |].
    exists k', q'. split; [exact E' |]. split; [done |]. split; [by rewrite <- app_assoc in Hq' | congruence].
  - cbn [mbind option_bind]. change (zlen []) with 0 in Hroom.
    destruct (IH d2 d' (mk_keyboard st1 (u64 (irq_count k + 1))) q L es1 st') as (k' & q' & E' & ? & ? & ?); [done | done | done | done | lia |]. exists k', q'. done.
Qed.

End Typing.

(** One poll returns the first character waiting and discards what is before
    it, or returns 0 and leaves the queue empty. *)
Lemma poll_loop_spec n q L :
  holds q L -> (length L <= n)%nat ->
  exists c q', poll_loop n q = Some (c, q') /\ dropped q' = dropped q /\
    match text_of L with [] => c = 0 /\ holds q' [] | c0 :: rest => c = c0 /\ exists L', holds q' L' /\ text_of L' = rest /\ (length L' <= length L)%nat end.
Proof.
  revert q L. induction n as [| n IH]; intros q L Hq Hn;
    (destruct (input_queue_refines q L (mk_event INPUT_EVENT_KEY 0 0 0 0 0 0) blank_event Hq ltac:(done)) as [_ Hpop]; cbn [poll_loop]; destruct L as [| e L]; [rewrite Hpop; cbn; by eexists _, _ |]).
  { cbn in Hn. lia. }
  destruct Hpop as (q1 & -> & Hq1 & Hd1). cbn [mbind option_bind]. fold (visible e). unfold text_of. rewrite filter_cons. destruct (visible e) eqn:Hv.
  - rewrite decide_True by done. cbn [fmap list_fmap]. eexists _, _. split; [reflexivity |]. split; [done |]. split; [done |]. exists L. split; [done |]. split; [done | cbn; lia].
  - rewrite decide_False by done. cbn [length] in Hn. destruct (IH q1 L Hq1 ltac:(lia)) as (c & q' & E & Hd & Hm). exists c, q'. split; [exact E |]. split; [congruence |].
    fold (text_of L). destruct (text_of L) as [| c0 rest]; [done |]. destruct Hm as (-> & L' & ? & ? & ?). split; [done |]. exists L'. cbn. split; [done |]. split; [done | lia].
Qed.

(** The characters [n] polls return. *)
Fixpoint polls (n : nat) (q : input_state) : option (list Z * input_state) :=
  match n with
  | O => Some ([], q)
  | S n => '(c, q) ← keyboard_poll q; '(cs, q) ← polls n q; Some (c :: cs, q)
  end.

Lemma polls_spec n q L : holds q L -> exists q' L', polls n q = Some (take n (text_of L) ++ replicate (n - length (text_of L)) 0, q') /\ holds q' L' /\ text_of L' = drop n (text_of L).
Proof.
  revert q L. induction n as [| n IH]; intros q L Hq; [exists q, L; done |]. cbn [polls]. unfold keyboard_poll.
  assert ((length L <= Z.to_nat INPUT_QUEUE_CAPACITY)%nat) as Hn by (destruct Hq as (_ & _ & Hl & _); unfold zlen, INPUT_QUEUE_MASK, INPUT_QUEUE_CAPACITY in *; lia).
  destruct (poll_loop_spec _ q L Hq Hn) as (c & q1 & -> & _ & Hm). cbn [mbind option_bind]. destruct (text_of L) as [| c0 rest] eqn:Et.
  - destruct Hm as [-> Hq1]. destruct (IH q1 [] Hq1) as (q' & L' & -> & Hq' & Ht). cbn [mbind option_bind]. exists q', L'. cbn. rewrite take_nil, Nat.sub_0_r. split; [done |]. split; [done |].
    rewrite Ht. apply drop_nil.
  - destruct Hm as (-> & L1 & Hq1 & Ht1 & _). destruct (IH q1 L1 Hq1) as (q' & L' & -> & Hq' & Ht). rewrite Ht1 in *. cbn [mbind option_bind]. by exists q', L'.
Qed.

(** C29. What is typed on a US keyboard is what is read: when the controller
    delivers the scancodes of a text, each character typed in one of its ways, to
    the interrupt handler, with no key held before and room for its events in the
    queue, the next polls return exactly the text, in order, after what was
    waiting already, and then nothing; no event is lost and no key is held. *)
Theorem keyboard_typing_correct {D} `{!Hardware D} (text : list Z) (typed : list (list Z)) d d' k q L :
  Forall2 types text typed -> decode_state k = no_keys -> holds q L -> zlen L + zlen (concat typed) <= INPUT_QUEUE_MASK -> sends d (concat typed) d' ->
  exists k' q', keyboard_interrupts (length (concat typed)) k q d = Some (k', q', d') /\ decode_state k' = no_keys /\ dropped q' = dropped q /\
    forall n, exists q'', polls n q' = Some (take n (text_of L ++ text) ++ replicate (n - length (text_of L ++ text)) 0, q'').
Proof.
  intros Ht Hk Hq Hroom Hs. destruct (typing_spec text typed Ht) as (es & Ed & Et & Ke). assert (zlen es <= zlen (concat typed)) as Hle by exact (decode_all_length _ _ _ _ Ed).
  rewrite <- Hk in Ed at 1. destruct (keyboard_interrupts_spec _ d d' k q L es no_keys Hs Ed Ke Hq ltac:(lia)) as (k' & q' & E & Hk' & Hq' & Hd). exists k', q'.
  split; [exact E |]. split; [done |]. split; [done |]. intros n. destruct (polls_spec n q' _ Hq') as (q'' & L' & Ep & _). exists q''. by rewrite text_of_app, Et in Ep.
Qed.

(** A controller that holds the bytes to come. *)
#[local] Instance script_hardware : Hardware (list Z) := {|
  readl := fun _ d => (0, d); writel := fun _ _ d => d; outb := fun _ _ d => d; inl := fun _ d => (0, d); outl := fun _ _ d => d;
  inb := fun port d => if port =? PS2_DATA then (hd 0 d, tl d) else (match d with [] => 0 | _ => 1 end, d);
  rdmsr := fun _ d => ((0, 0), d); wrmsr := fun _ _ _ d => d |}.

Lemma script_sends cs : sends cs cs [].
Proof. induction cs as [| c cs IH]; [constructor |]. eapply (sends_cons _ 1 (c :: cs) c cs); [reflexivity | done | reflexivity | exact IH]. Qed.

Definition empty_queue : input_state := mk_input (replicate 128 blank_event) 0 0 0.

(** "Qw**2" and the return key, the first star typed on the key pad. *)
Lemma keyboard_typing_correct_witness :
  let typed := [[0x2a; 0x10; 0x90; 0xaa]; [0x11; 0x91]; [0x37; 0xb7]; [0x36; 0x09; 0xb6; 0x89]; [0x03; 0x83]; [0x1c; 0x9c]] in
  exists k' q' q'', keyboard_interrupts 16 (mk_keyboard no_keys 0) empty_queue (concat typed) = Some (k', q', []) /\
    polls 7 q' = Some (chars "Qw**2" ++ [10; 0], q'').
Proof.
  intros typed. assert (Forall2 types (chars "Qw**2" ++ [10]) typed) as Ht by (change (chars "Qw**2" ++ [10]) with [81; 119; 42; 42; 50; 10]; repeat (apply Forall2_cons_2; [unfold types; apply (bool_decide_unpack _); vm_compute; exact I |]); apply Forall2_nil_2).
  assert (holds empty_queue []) as Hq by (split; [done |]; split; [done |]; split; [done |]; split; [done |]; intros k Hk; change (zlen []) with 0 in Hk; lia).
  destruct (keyboard_typing_correct (chars "Qw**2" ++ [10]) typed (concat typed) [] (mk_keyboard no_keys 0) empty_queue [] Ht eq_refl Hq ltac:(apply (bool_decide_unpack _); vm_compute; exact I) (script_sends _)) as (k' & q' & E & _ & _ & Hp).
  destruct (Hp 7%nat) as (q'' & Ep). exists k', q', q''. split; [exact E | exact Ep].
Defined.
