(* ===== verification/Timer.v ===== *)
(** * Timer (kernel/src/timer.c, timer_math.c, timer.h)

    The arithmetic of the interval timer, the clock that counts its interrupts,
    and sleeping.  Setting the timer up is in [Machine].  [hlt] returns after an
    interrupt; how many ticks have passed by then is a parameter, one number for
    each time the processor wakes. *)

From stdpp Require Import base numbers list.
From Stdlib Require Import ZArith Lia.
From S2P Require Import Prelude.

#[local] Open Scope Z_scope.

Definition UINT64_MAX : Z := 2 ^ 64 - 1.

(** ** timer_math.c *)

Definition PIT_INPUT_HZ : Z := 1193182.

(** The divisor, the frequency and the length of a tick it gives. *)
Definition timer_calculate_pit (requested_hz : Z) : option (Z * Z * Z) :=
  if (requested_hz <? 19) || (10000 <? requested_hz) then None
  else
    let divisor := u64 (PIT_INPUT_HZ + requested_hz / 2) / requested_hz in
    if (divisor =? 0) || (65535 <? divisor) then None
    else
      let tick_ns := u64 (divisor * 1000000000) / PIT_INPUT_HZ in
      if tick_ns =? 0 then None else Some (u16 divisor, u32 (PIT_INPUT_HZ / divisor), tick_ns).

(** ** timer.c *)

Definition PIT_COMMAND : Z := 0x43.
Definition PIT_CHANNEL0 : Z := 0x40.
Definition PIT_RATE_GENERATOR : Z := 0x34.
Definition TIMER_VECTOR : Z := 32.

Inductive timer_status_t := TIMER_OK | TIMER_BAD_ARGUMENT | TIMER_INTERRUPT_SETUP_FAILED | TIMER_ROUTE_FAILED.

Record timer_state := mk_timer { tick_count : Z; nanoseconds_per_tick : Z; configured_hz : Z; timer_initialised : bool }.

Definition timer_interrupt (s : timer_state) : timer_state :=
  mk_timer (u64 (tick_count s + 1)) (nanoseconds_per_tick s) (configured_hz s) (timer_initialised s).

Definition timer_ticks (s : timer_state) : Z := tick_count s.
Definition timer_frequency_hz (s : timer_state) : Z := if timer_initialised s then configured_hz s else 0.

Definition timer_now_ns (s : timer_state) : Z :=
  let ticks := timer_ticks s in
  if negb (timer_initialised s) || (nanoseconds_per_tick s =? 0) then 0
  else if UINT64_MAX / nanoseconds_per_tick s <? ticks then UINT64_MAX
  else u64 (ticks * nanoseconds_per_tick s).

(** [wake] more timer interrupts. *)
Definition after_wake (s : timer_state) (wake : nat) : timer_state := Nat.iter wake timer_interrupt s.

(** [None] while it is still asleep after the last of [wakes]. *)
Fixpoint sleep_loop (wakes : list nat) (deadline : Z) (s : timer_state) : option timer_state :=
  if timer_now_ns s <? deadline then match wakes with [] => None | w :: wakes => sleep_loop wakes deadline (after_wake s w) end
  else Some s.

Definition timer_sleep_ms (s : timer_state) (interrupts_enabled : bool) (wakes : list nat) (milliseconds : Z) : option (bool * timer_state) :=
  if negb (timer_initialised s) || negb interrupts_enabled then Some (false, s)
  else if UINT64_MAX / 1000000 <? milliseconds then Some (false, s)
  else
    let duration := u64 (milliseconds * 1000000) in
    let start := timer_now_ns s in
    let deadline := if UINT64_MAX - start <? duration then UINT64_MAX else start + duration in
    s ← sleep_loop wakes deadline s;
    Some (true, s).

(** ** The divisor *)

Lemma pit_divisor hz : 19 <= hz <= 10000 -> let divisor := (PIT_INPUT_HZ + hz / 2) / hz in 119 <= divisor <= 62799.
Proof.
  intros H divisor. unfold divisor, PIT_INPUT_HZ. pose proof (Z.div_mod hz 2). pose proof (Z.mod_pos_bound hz 2). split.
  - apply Z.div_le_lower_bound; lia.
  - apply Z.lt_succ_r. apply Z.div_lt_upper_bound; lia.
Qed.

Lemma calculate_pit_spec hz : 19 <= hz <= 10000 ->
  let divisor := (PIT_INPUT_HZ + hz / 2) / hz in timer_calculate_pit hz = Some (divisor, PIT_INPUT_HZ / divisor, divisor * 1000000000 / PIT_INPUT_HZ).
Proof.
  intros H divisor. pose proof (pit_divisor hz H) as Hd. fold divisor in Hd. unfold timer_calculate_pit.
  rewrite (proj2 (Z.ltb_ge hz 19)), (proj2 (Z.ltb_ge 10000 hz)) by lia. cbn [orb]. unfold PIT_INPUT_HZ in *. assert (0 <= hz / 2 <= 5000) by (split; [apply Z.div_pos; lia | apply Z.div_le_upper_bound; lia]).
  rewrite u64_small by lia. fold divisor. rewrite (proj2 (Z.eqb_neq divisor 0)), (proj2 (Z.ltb_ge 65535 divisor)) by lia. cbn [orb]. rewrite u64_small by lia.
  assert (1 <= divisor * 1000000000 / 1193182) as Ht by (apply Z.div_le_lower_bound; lia). rewrite (proj2 (Z.eqb_neq _ 0)) by lia.
  assert (0 <= 1193182 / divisor <= 1193182) by (split; [apply Z.div_pos; lia | apply Z.div_le_upper_bound; nia]). rewrite u16_small, u32_small by lia. done.
Qed.

(** The timer accepts exactly the frequencies from 19 to 10000 Hz.  The divisor
    fits the counter and is the best one: no other divides the input clock closer
    to the requested frequency.  The recorded length of a tick is the true one
    rounded down, so the clock loses less than a nanosecond per tick. *)
Theorem timer_calculate_pit_correct hz :
  0 <= hz ->
  match timer_calculate_pit hz with
  | None => hz < 19 \/ 10000 < hz
  | Some (divisor, actual, tick) =>
      19 <= hz <= 10000 /\ 1 <= divisor <= 65535 /\ (forall k, Z.abs (divisor * hz - PIT_INPUT_HZ) <= Z.abs (k * hz - PIT_INPUT_HZ)) /\
      (actual * divisor <= PIT_INPUT_HZ < (actual + 1) * divisor) /\ 0 < tick /\ tick * PIT_INPUT_HZ <= divisor * 1000000000 < (tick + 1) * PIT_INPUT_HZ
  end.
Proof.
  intros H0. destruct (decide (19 <= hz <= 10000)) as [H | H].
  - rewrite calculate_pit_spec by done. pose proof (pit_divisor hz H) as Hd. cbn zeta in Hd |- *. set (divisor := (PIT_INPUT_HZ + hz / 2) / hz) in *. split; [done |]. split; [lia |].
    pose proof (Z.div_mod (PIT_INPUT_HZ + hz / 2) hz ltac:(lia)) as E. fold divisor in E. pose proof (Z.mod_pos_bound (PIT_INPUT_HZ + hz / 2) hz ltac:(lia)).
    pose proof (Z.div_mod hz 2 ltac:(done)). pose proof (Z.mod_pos_bound hz 2 ltac:(done)). split; [| split; [| split]].
    + intros k. assert (k <= divisor - 1 \/ k = divisor \/ divisor + 1 <= k) as [Hk | [-> | Hk]] by lia; [nia | lia | nia].
    + pose proof (Z.div_mod PIT_INPUT_HZ divisor ltac:(lia)). pose proof (Z.mod_pos_bound PIT_INPUT_HZ divisor ltac:(lia)). nia.
    + apply Z.div_str_pos. unfold PIT_INPUT_HZ. lia.
    + pose proof (Z.div_mod (divisor * 1000000000) PIT_INPUT_HZ ltac:(done)). pose proof (Z.mod_pos_bound (divisor * 1000000000) PIT_INPUT_HZ ltac:(done)). lia.
  - unfold timer_calculate_pit. destruct (Z.ltb_spec hz 19); [by left |]. destruct (Z.ltb_spec 10000 hz); [by right | lia].
Qed.

Lemma timer_calculate_pit_correct_witness :
  timer_calculate_pit 100 = Some (11932, 99, 10000150) /\ forall k, Z.abs (11932 * 100 - PIT_INPUT_HZ) <= Z.abs (k * 100 - PIT_INPUT_HZ).
Proof.
  assert (timer_calculate_pit 100 = Some (11932, 99, 10000150)) as E by reflexivity. split; [exact E |].
  pose proof (timer_calculate_pit_correct 100 ltac:(lia)) as H. rewrite E in H. destruct H as (_ & _ & H & _). exact H.
Defined.

(** ** The clock *)

Definition clock_ok (s : timer_state) : Prop :=
  timer_initialised s = true /\ 0 < nanoseconds_per_tick s < 2 ^ 64 /\ 0 <= tick_count s < 2 ^ 64.

(** Time is the ticks times the length of a tick, up to the largest number. *)
Lemma now_spec s : clock_ok s -> timer_now_ns s = Z.min (tick_count s * nanoseconds_per_tick s) UINT64_MAX.
Proof.
  intros (Hi & Hn & Ht). unfold timer_now_ns, timer_ticks. rewrite Hi, (proj2 (Z.eqb_neq _ 0)) by lia. cbn [negb orb].
  pose proof (Z.div_mod UINT64_MAX (nanoseconds_per_tick s) ltac:(lia)) as E. pose proof (Z.mod_pos_bound UINT64_MAX (nanoseconds_per_tick s) ltac:(lia)) as Hm. unfold UINT64_MAX in *.
  destruct (Z.ltb_spec ((2 ^ 64 - 1) / nanoseconds_per_tick s) (tick_count s)) as [H | H].
  - rewrite Z.min_r; [done |]. nia.
  - rewrite u64_small by nia. rewrite Z.min_l by nia. done.
Qed.

Lemma after_wake_spec s (w : nat) : clock_ok s -> tick_count s + Z.of_nat w < 2 ^ 64 ->
  clock_ok (after_wake s w) /\ tick_count (after_wake s w) = tick_count s + Z.of_nat w /\ nanoseconds_per_tick (after_wake s w) = nanoseconds_per_tick s.
Proof.
  intros H. induction w as [| w IH]; intros Hw; [split; [done |]; split; [cbn; lia | done] |]. destruct IH as ((Hi & Hn & Ht) & E & En); [lia |].
  change (after_wake s (S w)) with (timer_interrupt (after_wake s w)). unfold clock_ok, timer_interrupt. cbn [tick_count nanoseconds_per_tick timer_initialised]. rewrite u64_small by lia. rewrite E.
  split; [split; [done |]; split; [done | lia] |]. split; [lia | done].
Qed.

Definition total (wakes : list nat) : Z := foldr (fun w n => Z.of_nat w + n) 0 wakes.

Lemma total_nonneg wakes : 0 <= total wakes.
Proof. unfold total. induction wakes; cbn; lia. Qed.

Lemma sleep_loop_spec wakes deadline s :
  clock_ok s -> tick_count s + total wakes < 2 ^ 64 ->
  match sleep_loop wakes deadline s with
  | Some s' => deadline <= timer_now_ns s' /\ exists before after, wakes = before ++ after /\ s' = after_wake s (Z.to_nat (total before)) /\
      forall b w, before = b ++ [w] -> timer_now_ns (after_wake s (Z.to_nat (total b))) < deadline
  | None => timer_now_ns (after_wake s (Z.to_nat (total wakes))) < deadline
  end.
Proof.
  revert s. induction wakes as [| w wakes IH]; intros s Hs Ht; cbn [sleep_loop]; destruct (Z.ltb_spec (timer_now_ns s) deadline) as [Hd | Hd]; [done | | |].
  - split; [done |]. exists [], []. split; [done |]. split; [done |]. by intros [| ? ?] ? ?.
  - cbn [total foldr] in Ht. fold (total wakes) in Ht. pose proof (total_nonneg wakes). destruct (after_wake_spec s w Hs ltac:(lia)) as (Hs' & E & _). specialize (IH _ Hs' ltac:(lia)).
    assert (forall l, after_wake (after_wake s w) (Z.to_nat (total l)) = after_wake s (Z.to_nat (total (w :: l)))) as Hadd.
    { intros l. cbn [total foldr]. fold (total l). pose proof (total_nonneg l). replace (Z.to_nat (Z.of_nat w + total l)) with (Z.to_nat (total l) + w)%nat by lia. unfold after_wake. by rewrite Nat.iter_add. }
    destruct (sleep_loop wakes deadline (after_wake s w)) as [s' |]; [| by rewrite Hadd in IH]. destruct IH as (Hn & before & after & -> & -> & Hbef). split; [done |]. exists (w :: before), after.
    split; [done |]. split; [apply Hadd |]. intros [| b0 b] w' Eb; [done |]. injection Eb as <- Eb. rewrite <- Hadd. by eapply Hbef.
  - split; [done |]. exists [], (w :: wakes). split; [done |]. split; [done |]. by intros [| ? ?] ? ?.
Qed.

(** Sleeping ends at the first wake-up at which the requested time has passed on
    the clock, never before it, and not later; it goes on only while the clock is
    short of it.  A time the clock cannot reach counts as its largest value. *)
Theorem timer_sleep_correct s wakes milliseconds :
  clock_ok s -> tick_count s + total wakes < 2 ^ 64 -> 0 <= milliseconds <= UINT64_MAX / 1000000 ->
  let deadline := Z.min (timer_now_ns s + milliseconds * 1000000) UINT64_MAX in
  match timer_sleep_ms s true wakes milliseconds with
  | Some (ok, s') => ok = true /\ deadline <= timer_now_ns s' /\ exists before after, wakes = before ++ after /\ s' = after_wake s (Z.to_nat (total before)) /\
      forall b w, before = b ++ [w] -> timer_now_ns (after_wake s (Z.to_nat (total b))) < deadline
  | None => timer_now_ns (after_wake s (Z.to_nat (total wakes))) < deadline
  end.
Proof.
  intros Hs Ht Hms deadline. pose proof Hs as (Hi & Hn & Hc). unfold timer_sleep_ms. rewrite Hi. cbn [negb orb]. rewrite (proj2 (Z.ltb_ge (UINT64_MAX / 1000000) milliseconds)) by lia.
  assert (UINT64_MAX / 1000000 * 1000000 <= UINT64_MAX) as Hle by (vm_compute; discriminate). rewrite u64_small by (unfold UINT64_MAX in *; lia).
  assert (0 <= timer_now_ns s <= UINT64_MAX) as Hnow by (rewrite now_spec by done; unfold UINT64_MAX; nia).
  assert ((if UINT64_MAX - timer_now_ns s <? milliseconds * 1000000 then UINT64_MAX else timer_now_ns s + milliseconds * 1000000) = deadline) as ->.
  { unfold deadline. destruct (Z.ltb_spec (UINT64_MAX - timer_now_ns s) (milliseconds * 1000000)); lia. }
  pose proof (sleep_loop_spec wakes deadline s Hs Ht) as H. destruct (sleep_loop wakes deadline s); done.
Qed.

Lemma timer_sleep_correct_witness :
  let s := mk_timer 5 10000150 99 true in
  exists s', timer_sleep_ms s true [1%nat; 0%nat; 1%nat; 2%nat; 1%nat] 30 = Some (true, s') /\ 5 * 10000150 + 30000000 <= timer_now_ns s'.
Proof.
  intros s. pose proof (timer_sleep_correct s [1%nat; 0%nat; 1%nat; 2%nat; 1%nat] 30 ltac:(repeat split; cbn; lia) ltac:(cbn; lia) ltac:(split; vm_compute; discriminate)) as H.
  destruct (timer_sleep_ms s true [1%nat; 0%nat; 1%nat; 2%nat; 1%nat] 30) as [[ok s'] |] eqn:E; [| vm_compute in E; discriminate E].
  destruct H as (-> & Hd & _). exists s'. split; [reflexivity |]. exact Hd.
Defined.
