(* ===== verification/Smp.v ===== *)
(** * Processors (kernel/src/smp.c, smp_topology.c, smp.h)

    The table of processors, their stacks and the counting of inter-processor
    interrupts.  [smp_init], which also registers the interrupt handler, is in
    [Machine]. *)

From Stdlib Require Import ZArith Lia String.
From stdpp Require Import base numbers list gmap.
From S2P Require Import Prelude Bytes Acpi ByteMem Heap HeapList HeapSpec HeapSafe.

#[local] Open Scope Z_scope.

(** ** smp.h *)

Definition SMP_MAX_CPUS : Z := ACPI_MAX_CPUS.
Definition SMP_KERNEL_STACK_BYTES : Z := 32768.
Definition SMP_IPI_VECTOR : Z := 254.
Definition UINT32_MAX : Z := 2 ^ 32 - 1.

Inductive smp_cpu_state_t := SMP_CPU_DISCOVERED | SMP_CPU_BSP_ONLINE | SMP_CPU_STARTING | SMP_CPU_ONLINE | SMP_CPU_FAILED.

#[export] Instance smp_cpu_state_t_eq_dec : EqDecision smp_cpu_state_t.
Proof. solve_decision. Defined.

Record smp_cpu_info_t := mk_cpu_entry {
  logical_index : Z;
  cpu_apic_id : Z;
  cpu_acpi_id : Z;
  cpu_state : smp_cpu_state_t;
  stack_base : Z;
  stack_top : Z;
  ipi_count : Z
}.

Inductive smp_status_t :=
| SMP_OK | SMP_BAD_ARGUMENT | SMP_BSP_NOT_FOUND | SMP_TOO_MANY_CPUS | SMP_NO_MEMORY | SMP_INTERRUPT_SETUP_FAILED | SMP_IPI_FAILED | SMP_TIMEOUT.

#[export] Instance smp_status_t_eq_dec : EqDecision smp_status_t.
Proof. solve_decision. Defined.

(** ** smp_topology.c *)

(** Whether one of the entries from [j] on has the identifier; [n] are left. *)
Fixpoint id_used (n : nat) (table : list smp_cpu_info_t) (j id : Z) : option bool :=
  match n with
  | O => Some false
  | S n => c ← rd table j; if cpu_apic_id c =? id then Some true else id_used n table (j + 1) id
  end.

(** The processors from [i] on.  [None] inside is a return of 0; the table is
    then as far as it was filled. *)
Fixpoint topology_loop (n : nat) (sources : list acpi_cpu_info_t) (i bsp_apic_id bsp_index : Z) (table : list smp_cpu_info_t) : option (option Z * list smp_cpu_info_t) :=
  match n with
  | O => Some (Some bsp_index, table)
  | S n =>
      source ← rd sources i;
      used ← id_used (Z.to_nat i) table 0 (apic_id source);
      if (used : bool) then Some (None, table)
      else
        let is_bsp := apic_id source =? bsp_apic_id in
        table ← wr table i (mk_cpu_entry i (apic_id source) (acpi_processor_id source) (if is_bsp then SMP_CPU_BSP_ONLINE else SMP_CPU_DISCOVERED) 0 0 0);
        if is_bsp then if negb (bsp_index =? UINT32_MAX) then Some (None, table) else topology_loop n sources (i + 1) bsp_apic_id i table
        else topology_loop n sources (i + 1) bsp_apic_id bsp_index table
  end.

(** The values written to [count_out] and [bsp_index_out], and the table. *)
Definition smp_build_topology (platform : option acpi_platform_info_t) (bsp_apic_id : Z) (table : list smp_cpu_info_t) (capacity : Z) :
  option (option (Z * Z) * list smp_cpu_info_t) :=
  match platform with
  | None => Some (None, table)
  | Some p =>
      if (capacity =? 0) || (cpu_count p =? 0) || (capacity <? cpu_count p) || (SMP_MAX_CPUS <? cpu_count p) then Some (None, table)
      else
        '(r, table) ← topology_loop (Z.to_nat (cpu_count p)) (cpus p) 0 bsp_apic_id UINT32_MAX table;
        match r with
        | None => Some (None, table)
        | Some bsp_index => if bsp_index =? UINT32_MAX then Some (None, table) else Some (Some (cpu_count p, bsp_index), table)
        end
  end.

(** ** smp.c *)

Record smp_state := mk_smp { cpu_infos : list smp_cpu_info_t; smp_count : Z; bsp_index : Z; smp_initialised : bool }.

Definition count_ipi (c : smp_cpu_info_t) : smp_cpu_info_t :=
  mk_cpu_entry (logical_index c) (cpu_apic_id c) (cpu_acpi_id c) (cpu_state c) (stack_base c) (stack_top c) (u64 (ipi_count c + 1)).

Fixpoint ipi_loop (n : nat) (table : list smp_cpu_info_t) (i local_id : Z) : option (list smp_cpu_info_t) :=
  match n with
  | O => Some table
  | S n => c ← rd table i; if cpu_apic_id c =? local_id then wr table i (count_ipi c) else ipi_loop n table (i + 1) local_id
  end.

(** [local_id] is what [apic_local_id] returns on the processor. *)
Definition smp_ipi_interrupt (s : smp_state) (local_id : Z) : option smp_state :=
  table ← ipi_loop (Z.to_nat (smp_count s)) (cpu_infos s) 0 local_id;
  Some (mk_smp table (smp_count s) (bsp_index s) (smp_initialised s)).

Definition set_stack (c : smp_cpu_info_t) (stack : Z) : smp_cpu_info_t :=
  mk_cpu_entry (logical_index c) (cpu_apic_id c) (cpu_acpi_id c) (cpu_state c) stack (u64 (stack + SMP_KERNEL_STACK_BYTES)) (ipi_count c).

Section Stacks.
Context {G : Type}.

(** A stack for every processor from [i] on; [false] when the heap has no room. *)
Fixpoint stacks_loop (n : nat) (i : Z) (table : list smp_cpu_info_t) (w : kworld G) : option (bool * list smp_cpu_info_t * kworld G) :=
  match n with
  | O => Some (true, table, w)
  | S n =>
      '(stack, w) ← kmalloc w SMP_KERNEL_STACK_BYTES;
      if stack =? 0 then Some (false, table, w)
      else
        c ← rd table i;
        table ← wr table i (set_stack c stack);
        stacks_loop n (i + 1) table w
  end.

(** [smp_init] up to the registration of the handler. *)
Definition smp_prepare (s : smp_state) (platform : option acpi_platform_info_t) (bsp_apic_id : Z) (w : kworld G) : option (smp_status_t * smp_state * kworld G) :=
  let s := mk_smp (cpu_infos s) 0 UINT32_MAX false in
  match platform with
  | None => Some (SMP_BAD_ARGUMENT, s, w)
  | Some p =>
      if cpu_count p =? 0 then Some (SMP_BAD_ARGUMENT, s, w)
      else if SMP_MAX_CPUS <? cpu_count p then Some (SMP_TOO_MANY_CPUS, s, w)
      else
        '(r, table) ← smp_build_topology platform bsp_apic_id (cpu_infos s) SMP_MAX_CPUS;
        match r with
        | None => Some (SMP_BSP_NOT_FOUND, mk_smp table 0 UINT32_MAX false, w)
        | Some (count, bsp) =>
            '(ok, table, w) ← stacks_loop (Z.to_nat count) 0 table w;
            Some (if (ok : bool) then SMP_OK else SMP_NO_MEMORY, mk_smp table count bsp false, w)
        end
  end.

End Stacks.

Definition smp_cpu_count (s : smp_state) : Z := if smp_initialised s then smp_count s else 0.

Fixpoint online_loop (n : nat) (table : list smp_cpu_info_t) (i online : Z) : option Z :=
  match n with
  | O => Some online
  | S n => c ← rd table i; online_loop n table (i + 1) (if bool_decide (cpu_state c = SMP_CPU_BSP_ONLINE) || bool_decide (cpu_state c = SMP_CPU_ONLINE) then u32 (online + 1) else online)
  end.
Definition smp_online_cpu_count (s : smp_state) : option Z :=
  if negb (smp_initialised s) then Some 0 else online_loop (Z.to_nat (smp_count s)) (cpu_infos s) 0 0.

Definition smp_cpu (s : smp_state) (index : Z) : option (option smp_cpu_info_t) :=
  if negb (smp_initialised s) || (smp_count s <=? index) then Some None else c ← rd (cpu_infos s) index; Some (Some c).

Fixpoint current_loop (n : nat) (table : list smp_cpu_info_t) (i local_id : Z) : option (option smp_cpu_info_t) :=
  match n with
  | O => Some None
  | S n => c ← rd table i; if cpu_apic_id c =? local_id then Some (Some c) else current_loop n table (i + 1) local_id
  end.
Definition smp_current_cpu (s : smp_state) (local_id : Z) : option (option smp_cpu_info_t) :=
  if negb (smp_initialised s) then Some None else current_loop (Z.to_nat (smp_count s)) (cpu_infos s) 0 local_id.

Definition smp_status_string (status : smp_status_t) : string :=
  match status with
  | SMP_OK => "ok"
  | SMP_BAD_ARGUMENT => "bad argument"
  | SMP_BSP_NOT_FOUND => "BSP missing from ACPI topology"
  | SMP_TOO_MANY_CPUS => "CPU topology exceeds kernel limit"
  | SMP_NO_MEMORY => "per-CPU stack allocation failed"
  | SMP_INTERRUPT_SETUP_FAILED => "IPI interrupt setup failed"
  | SMP_IPI_FAILED => "IPI send failed"
  | SMP_TIMEOUT => "SMP operation timed out"
  end.

(** ** The table *)

(** The entry the topology makes for a processor. *)
Definition cpu_entry (bsp : Z) (i : nat) (c : acpi_cpu_info_t) : smp_cpu_info_t :=
  mk_cpu_entry (Z.of_nat i) (apic_id c) (acpi_processor_id c) (if apic_id c =? bsp then SMP_CPU_BSP_ONLINE else SMP_CPU_DISCOVERED) 0 0 0.

Definition entries (bsp : Z) (l : list acpi_cpu_info_t) : list smp_cpu_info_t := imap (cpu_entry bsp) l.

Lemma entries_length bsp l : length (entries bsp l) = length l.
Proof. apply length_imap. Qed.

Lemma entries_snoc bsp l c : entries bsp (l ++ [c]) = entries bsp l ++ [cpu_entry bsp (length l) c].
Proof. unfold entries. rewrite imap_app. cbn. by rewrite Nat.add_0_r. Qed.

Lemma rd_filled {A} (t xs : list A) j : 0 <= j < zlen xs -> rd (filled t xs) j = rd xs j.
Proof. intros Hj. unfold filled. apply rd_app_l. lia. Qed.

Lemma id_used_spec t bsp l n j id :
  0 <= j -> j + Z.of_nat n <= zlen l -> id_used n (filled t (entries bsp l)) j id = Some (bool_decide (id ∈ apic_id <$> take n (drop (Z.to_nat j) l))).
Proof.
  revert j. induction n as [| n IH]; intros j Hj Hn; [done |]. cbn [id_used].
  destruct (lookup_lt_is_Some_2 l (Z.to_nat j)) as [c Hc]; [unfold zlen in Hn; lia |].
  rewrite rd_filled by (unfold zlen in *; rewrite entries_length; lia).
  assert (rd (entries bsp l) j = Some (cpu_entry bsp (Z.to_nat j) c)) as -> by (apply rd_lookup; split; [done |]; unfold entries; by rewrite list_lookup_imap, Hc).
  cbn [mbind option_bind cpu_entry cpu_apic_id]. rewrite (drop_S _ c) by done. cbn [take fmap list_fmap]. destruct (Z.eqb_spec (apic_id c) id) as [<- | Hne].
  - f_equal. symmetry. apply bool_decide_eq_true. apply elem_of_cons. by left.
  - rewrite IH by lia. replace (Z.to_nat (j + 1)) with (S (Z.to_nat j)) by lia. f_equal. apply bool_decide_ext. rewrite elem_of_cons. split; [by right |]. intros [-> |]; done.
Qed.

(** The index of the boot processor among those seen. *)
Definition bsp_position (bsp : Z) (l : list acpi_cpu_info_t) (r : Z) : Prop :=
  (~ bsp ∈ apic_id <$> l /\ r = UINT32_MAX) \/ (0 <= r < zlen l /\ exists c, rd l r = Some c /\ apic_id c = bsp).

Lemma bsp_position_snoc_other bsp l c r : bsp_position bsp l r -> apic_id c <> bsp -> bsp_position bsp (l ++ [c]) r.
Proof.
  intros [[Hn ->] | (Hr & c0 & E & Hc)] Hne.
  - left. split; [| done]. rewrite fmap_app, elem_of_app. cbn. rewrite elem_of_cons, elem_of_nil. intros [? | [-> | []]]; done.
  - right. rewrite zlen_app. change (zlen [c]) with 1. split; [lia |]. exists c0. by rewrite rd_app_l by lia.
Qed.

Lemma topology_loop_spec t bsp extra n : forall done_ rest r,
  n = length rest -> zlen done_ + zlen rest <= zlen t -> zlen t < UINT32_MAX -> NoDup (apic_id <$> done_) -> bsp_position bsp done_ r ->
  exists res table, topology_loop n (done_ ++ rest ++ extra) (zlen done_) bsp r (filled t (entries bsp done_)) = Some (res, table) /\
    match res with
    | Some r' => NoDup (apic_id <$> done_ ++ rest) /\ bsp_position bsp (done_ ++ rest) r' /\ table = filled t (entries bsp (done_ ++ rest))
    | None => ~ NoDup (apic_id <$> done_ ++ rest) /\ zlen table = zlen t
    end.
Proof.
  induction n as [| n IH]; intros done_ rest r Hn Hroom Hmax Hnd Hr.
  { destruct rest; [| done]. eexists _, _. split; [reflexivity |]. by rewrite app_nil_r. }
  destruct rest as [| c rest]; [done |]. injection Hn as ->. rewrite zlen_cons in Hroom. pose proof (zlen_nonneg rest). cbn [topology_loop].
  assert (zlen (filled t (entries bsp done_)) = zlen t) as Hlen by (apply zlen_filled; unfold zlen in *; rewrite entries_length; lia).
  assert (rd (done_ ++ (c :: rest) ++ extra) (zlen done_) = Some c) as -> by (rewrite rd_app_r by lia; by rewrite Z.sub_diag). cbn [mbind option_bind].
  pose proof (zlen_nonneg done_) as Hd0. assert (Z.to_nat (zlen done_) = length done_) as Hdn by (unfold zlen; lia). rewrite id_used_spec, Hdn by lia. cbn [mbind option_bind]. change (Z.to_nat 0) with 0%nat. rewrite drop_0, firstn_all.
  case_bool_decide as Hin.
  { eexists None, _. split; [reflexivity |]. split; [| done]. rewrite fmap_app. cbn. rewrite NoDup_app. intros (_ & H1 & _). apply (H1 (apic_id c)); [done |]. apply elem_of_cons. by left. }
  assert (zlen (entries bsp done_) = zlen done_) as Hze by (unfold zlen; by rewrite entries_length).
  assert (mk_cpu_entry (zlen done_) (apic_id c) (acpi_processor_id c) (if apic_id c =? bsp then SMP_CPU_BSP_ONLINE else SMP_CPU_DISCOVERED) 0 0 0 = cpu_entry bsp (length done_) c) as -> by done.
  assert (forall x, wr (filled t (entries bsp done_)) (zlen done_) x = Some (filled t (entries bsp done_ ++ [x]))) as -> by (intros x; rewrite <- Hze; apply wr_filled; lia). cbn [mbind option_bind]. rewrite <- entries_snoc.
  assert (NoDup (apic_id <$> done_ ++ [c])) as Hnd'.
  { rewrite fmap_app. apply NoDup_app. split; [done |]. split; [| apply NoDup_singleton]. intros x Hx. cbn. rewrite elem_of_cons, elem_of_nil. intros [-> | []]. done. }
  assert (forall r', bsp_position bsp (done_ ++ [c]) r' -> exists res table,
    topology_loop (length rest) (done_ ++ (c :: rest) ++ extra) (zlen done_ + 1) bsp r' (filled t (entries bsp (done_ ++ [c]))) = Some (res, table) /\
    match res with
    | Some r'' => NoDup (apic_id <$> done_ ++ c :: rest) /\ bsp_position bsp (done_ ++ c :: rest) r'' /\ table = filled t (entries bsp (done_ ++ c :: rest))
    | None => ~ NoDup (apic_id <$> done_ ++ c :: rest) /\ zlen table = zlen t
    end) as Hnext.
  { intros r' Hr'. destruct (IH (done_ ++ [c]) rest r') as (res & table & E & Hres); [done | rewrite zlen_app; change (zlen [c]) with 1; lia | done | done | done |].
    rewrite zlen_app in E. change (zlen [c]) with 1 in E. rewrite <- app_assoc in E, Hres. cbn [app] in E, Hres. by exists res, table. }
  destruct (Z.eqb_spec (apic_id c) bsp) as [Hb | Hb]; [| apply Hnext; by apply bsp_position_snoc_other].
  destruct Hr as [[_ ->] | (Hr & c0 & E0 & Hc0)].
  - change (negb (UINT32_MAX =? UINT32_MAX)) with false. cbv iota. apply Hnext. right. rewrite zlen_app. change (zlen [c]) with 1. split; [pose proof (zlen_nonneg done_); lia |]. exists c. split; [| done].
    rewrite rd_app_r by lia. by rewrite Z.sub_diag.
  - exfalso. apply Hin. rewrite Hb, <- Hc0. apply list_elem_of_fmap. exists c0. split; [done |]. apply rd_lookup in E0 as [_ E0]. by eapply list_elem_of_lookup_2.
Qed.

(** ** The stacks *)

Definition same_cpu (c c' : smp_cpu_info_t) : Prop := exists stack, c' = c \/ c' = set_stack c stack.

Lemma same_cpu_fields c c' : same_cpu c c' -> logical_index c' = logical_index c /\ cpu_apic_id c' = cpu_apic_id c /\ cpu_acpi_id c' = cpu_acpi_id c /\ cpu_state c' = cpu_state c /\ ipi_count c' = ipi_count c.
Proof. by intros [stack [-> | ->]]. Qed.

Definition stack_bytes : list Z := replicate (Z.to_nat SMP_KERNEL_STACK_BYTES) 0xcd.

(** Processor [j] has a stack of its own in [live] that was not in [before]. *)
Definition has_stack (before live : gmap Z (list Z)) (table : list smp_cpu_info_t) (j : Z) : Prop :=
  exists c, rd table j = Some c /\ before !! stack_base c = None /\ live !! stack_base c = Some stack_bytes /\ stack_top c = stack_base c + SMP_KERNEL_STACK_BYTES.

Section StackProofs.
Context {G : Type} (grow : heap_grow_fn G) `{!HeapGrowth grow}.

Record stacks_result (n i : Z) (table : list smp_cpu_info_t) (live : gmap Z (list Z)) (ok : bool) (table' : list smp_cpu_info_t) (live' : gmap Z (list Z)) : Prop := {
  sr_live : live ⊆ live';
  sr_length : zlen table' = zlen table;
  sr_same j c : rd table j = Some c -> exists c', rd table' j = Some c' /\ same_cpu c c' /\ (j < i -> c' = c);
  sr_stacks j : ok = true -> i <= j < i + n -> has_stack live live' table' j;
  sr_apart j k c c' : ok = true -> i <= j < i + n -> i <= k < i + n -> j <> k -> rd table' j = Some c -> rd table' k = Some c' -> stack_base c <> stack_base c'
}.

Lemma stacks_loop_spec n : forall i table w live,
  heap_refines grow w live -> 0 <= i -> i + Z.of_nat n <= zlen table ->
  exists ok table' w' live', stacks_loop n i table w = Some (ok, table', w') /\ heap_refines grow w' live' /\ stacks_result (Z.of_nat n) i table live ok table' live'.
Proof.
  induction n as [| n IH]; intros i table w live Hw Hi Hn.
  { exists true, table, w, live. split; [done |]. split; [done |]. split; [done | done | | lia | lia]. intros j c Hj. exists c. split; [done |]. split; [exists 0; by left | done]. }
  cbn [stacks_loop]. destruct (kmalloc_refines grow w live SMP_KERNEL_STACK_BYTES Hw ltac:(done)) as (p & w1 & -> & Hp). cbn [mbind option_bind]. destruct Hp as [[-> Hw1] | (Hp & _ & Hnone & Hw1)].
  { exists false, table, w1, live. split; [done |]. split; [done |]. split; [done | done | | done | done]. intros j c Hj. exists c. split; [done |]. split; [exists 0; by left | done]. }
  rewrite (proj2 (Z.eqb_neq p 0) Hp). destruct (rd_in_range table i) as [c Hc]; [lia |]. rewrite Hc. cbn [mbind option_bind].
  destruct (wr table i (set_stack c p)) as [table1 |] eqn:Hwr; [| by rewrite wr_in_range in Hwr by lia]. cbn [mbind option_bind]. fold stack_bytes in Hw1.
  set (live1 := <[p := stack_bytes]> live) in *. pose proof (zlen_wr _ _ _ _ Hwr) as Hl1.
  destruct (IH (i + 1) table1 w1 live1 Hw1 ltac:(lia) ltac:(lia)) as (ok & table' & w' & live' & E & Hw' & [Hlive Hlen Hsame Hst Hap]). exists ok, table', w', live'. split; [exact E |]. split; [done |].
  assert (live ⊆ live1) as Hsub by (by apply insert_subseteq). assert (rd table' i = Some (set_stack c p)) as Hself.
  { destruct (Hsame i (set_stack c p)) as (c' & Hc' & _ & Heq); [exact (rd_wr_eq _ _ _ _ Hwr) |]. rewrite Hc'. f_equal. apply Heq. lia. }
  assert (forall j c', ok = true -> i + 1 <= j < i + 1 + Z.of_nat n -> rd table' j = Some c' -> stack_base c' <> p) as Hother.
  { intros j c' Hok Hj Hc'. destruct (Hst j Hok Hj) as (c2 & Hc2 & Hno & _). rewrite Hc' in Hc2. injection Hc2 as <-. intros Ep. rewrite Ep in Hno. unfold live1 in Hno. by rewrite lookup_insert_eq in Hno. }
  split; [by transitivity live1 | lia | | |].
  - intros j c0 Hj. destruct (decide (j = i)) as [-> | Hne].
    + rewrite Hc in Hj. injection Hj as <-. exists (set_stack c p). split; [done |]. split; [exists p; by right | lia].
    + destruct (Hsame j c0) as (c' & Hc' & Hs & Heq); [by rewrite (rd_wr_ne _ _ _ _ _ Hwr) by done |]. exists c'. split; [done |]. split; [done |]. intros Hlt. apply Heq. lia.
  - intros j Hok Hj. destruct (decide (j = i)) as [-> | Hne].
    + exists (set_stack c p). split; [done |]. split; [done |]. assert (live' !! p = Some stack_bytes) as Hlp by (apply (lookup_weaken live1); [apply lookup_insert_eq | done]).
      split; [exact Hlp |]. cbn [stack_top stack_base set_stack]. apply u64_small. destruct (refines_layout grow _ _ Hw') as [Hlay _]. destruct (Hlay p _ Hlp) as (_ & ? & _ & Hb & _).
      change (zlen stack_bytes) with (Z.of_nat (length stack_bytes)) in Hb. unfold stack_bytes in Hb. rewrite length_replicate in Hb. unfold SMP_KERNEL_STACK_BYTES in *. lia.
    + destruct (Hst j Hok ltac:(lia)) as (c' & Hc' & Hno & ?). exists c'. split; [done |]. split; [| done]. unfold live1 in Hno. apply lookup_insert_None in Hno. tauto.
  - intros j k c1 c2 Hok Hj Hk Hne H1 H2. destruct (decide (j = i)) as [-> | Hji], (decide (k = i)) as [-> | Hki].
    + done.
    + rewrite Hself in H1. injection H1 as <-. cbn. intros E'. by apply (Hother k c2 Hok ltac:(lia) H2).
    + rewrite Hself in H2. injection H2 as <-. cbn. by apply (Hother j c1 Hok ltac:(lia) H1).
    + apply (Hap j k); done || lia.
Qed.

(** Everything [smp_init] promises before it registers its handler. *)
Definition prepared (p : acpi_platform_info_t) (bsp : Z) (live : gmap Z (list Z)) (s' : smp_state) (live' : gmap Z (list Z)) : Prop :=
  let n := cpu_count p in
  smp_count s' = n /\ zlen (cpu_infos s') = SMP_MAX_CPUS /\ live ⊆ live' /\
  (forall j, 0 <= j < n -> exists c a, rd (cpu_infos s') j = Some c /\ rd (cpus p) j = Some a /\
     logical_index c = j /\ cpu_apic_id c = apic_id a /\ cpu_acpi_id c = acpi_processor_id a /\ ipi_count c = 0 /\ cpu_state c = (if j =? bsp_index s' then SMP_CPU_BSP_ONLINE else SMP_CPU_DISCOVERED) /\
     stack_base c mod 16 = 0 /\ has_stack live live' (cpu_infos s') j) /\
  (exists a, 0 <= bsp_index s' < n /\ rd (cpus p) (bsp_index s') = Some a /\ apic_id a = bsp) /\
  (forall j k c c', 0 <= j < n -> 0 <= k < n -> j <> k -> rd (cpu_infos s') j = Some c -> rd (cpu_infos s') k = Some c' ->
     cpu_apic_id c <> cpu_apic_id c' /\ (stack_top c <= stack_base c' \/ stack_top c' <= stack_base c)).

Lemma nodup_index (l : list acpi_cpu_info_t) j k a b : NoDup (apic_id <$> l) -> rd l j = Some a -> rd l k = Some b -> apic_id a = apic_id b -> j = k.
Proof.
  intros Hnd [Hj Ha]%rd_lookup [Hk Hb]%rd_lookup E. assert (Z.to_nat j = Z.to_nat k) as Ejk; [| lia].
  eapply NoDup_lookup; [exact Hnd | |]; rewrite list_lookup_fmap; [by rewrite Ha | by rewrite Hb; cbn; rewrite E].
Qed.

Lemma rd_take {A} (l : list A) n j : 0 <= j < n -> rd (take (Z.to_nat n) l) j = rd l j.
Proof. intros Hj. unfold rd. rewrite (proj2 (Z.leb_le 0 j)) by lia. by rewrite lookup_take_lt by lia. Qed.

Lemma prepared_ok p bsp r t table live table' live' w' :
  zlen t = SMP_MAX_CPUS -> 0 < cpu_count p <= SMP_MAX_CPUS -> zlen (cpus p) = ACPI_MAX_CPUS ->
  NoDup (apic_id <$> take (Z.to_nat (cpu_count p)) (cpus p)) -> bsp_position bsp (take (Z.to_nat (cpu_count p)) (cpus p)) r -> r <> UINT32_MAX ->
  table = filled t (entries bsp (take (Z.to_nat (cpu_count p)) (cpus p))) -> heap_refines grow w' live' -> stacks_result (cpu_count p) 0 table live true table' live' ->
  prepared p bsp live (mk_smp table' (cpu_count p) r false) live'.
Proof.
  intros Ht Hn Hlen Hnd Hr Hmax -> Hw' [Hlive Hl Hsame Hst Hap]. set (l := take (Z.to_nat (cpu_count p)) (cpus p)) in *. unfold SMP_MAX_CPUS, ACPI_MAX_CPUS in *.
  assert (zlen l = cpu_count p) as Hll by (unfold l, zlen in *; rewrite length_take; lia).
  destruct Hr as [[_ ?] | (Hr & a0 & Ea0 & Hb0)]; [done |]. rewrite Hll in Hr. unfold l in Ea0. rewrite rd_take in Ea0 by lia. fold l in Ea0.
  assert (forall j, 0 <= j < cpu_count p -> exists c c' a, rd table' j = Some c' /\ c = cpu_entry bsp (Z.to_nat j) a /\ rd (cpus p) j = Some a /\ same_cpu c c') as Hent.
  { intros j Hj. destruct (rd_in_range (cpus p) j) as [a Ha]; [lia |]. assert (rd (filled t (entries bsp l)) j = Some (cpu_entry bsp (Z.to_nat j) a)) as Hc.
    { rewrite rd_filled by (unfold zlen in *; rewrite entries_length; lia). apply rd_lookup. split; [lia |]. unfold entries. rewrite list_lookup_imap.
      rewrite <- (rd_take (cpus p) (cpu_count p) j) in Ha by lia. apply rd_lookup in Ha as [_ Ha]. fold l in Ha. by rewrite Ha. }
    destruct (Hsame j _ Hc) as (c' & Hc' & Hs & _). by exists (cpu_entry bsp (Z.to_nat j) a), c', a. }
  split; [done |]. split; [cbn; rewrite Hl; unfold SMP_MAX_CPUS, ACPI_MAX_CPUS; rewrite <- Ht; apply zlen_filled; unfold zlen in *; rewrite entries_length; lia |]. split; [done |]. split; [| split].
  - intros j Hj. destruct (Hent j Hj) as (c & c' & a & Hc' & -> & Ha & Hs). exists c', a. apply same_cpu_fields in Hs as (-> & -> & -> & -> & ->). cbn [cpu_entry logical_index cpu_apic_id cpu_acpi_id cpu_state ipi_count cpu_infos bsp_index].
    do 2 (split; [done |]). split; [lia |]. do 3 (split; [done |]). split; [| split].
    + destruct (Z.eqb_spec (apic_id a) bsp) as [E | E], (Z.eqb_spec j r) as [E' | E']; try done.
      * exfalso. apply E'. apply (nodup_index l j r a a0); [done | | | congruence]; unfold l; rewrite rd_take by lia; done.
      * subst j. congruence.
    + destruct (Hst j eq_refl ltac:(lia)) as (c2 & Hc2 & _ & Hlk & _). rewrite Hc' in Hc2. injection Hc2 as <-. apply (proj1 (refines_layout grow _ _ Hw') _ _ Hlk).
    + apply Hst; [done | lia].
  - exists a0. done.
  - cbn [cpu_infos]. intros j k c c' Hj Hk Hne Hc Hc'. destruct (Hent j Hj) as (e & e1 & a & E1 & -> & Ha & Hs). rewrite Hc in E1. injection E1 as <-.
    destruct (Hent k Hk) as (e' & e2 & b & E2 & -> & Hb & Hs'). rewrite Hc' in E2. injection E2 as <-. split.
    + apply same_cpu_fields in Hs as (_ & -> & _). apply same_cpu_fields in Hs' as (_ & -> & _). cbn. intros E. apply Hne. apply (nodup_index l j k a b); [done | | | done]; unfold l; rewrite rd_take by lia; done.
    + destruct (Hst j eq_refl ltac:(lia)) as (c2 & Hc2 & _ & Hlk & Htop). rewrite Hc in Hc2. injection Hc2 as <-. destruct (Hst k eq_refl ltac:(lia)) as (c3 & Hc3 & _ & Hlk' & Htop'). rewrite Hc' in Hc3. injection Hc3 as <-.
      pose proof (Hap j k c c' eq_refl ltac:(lia) ltac:(lia) Hne Hc Hc') as Hbase. destruct (refines_layout grow _ _ Hw') as [_ Hsep]. specialize (Hsep _ _ _ _ Hbase Hlk Hlk').
      assert (zlen stack_bytes = SMP_KERNEL_STACK_BYTES) as Hz by (unfold zlen, stack_bytes; rewrite length_replicate; done). lia.
Qed.

Lemma smp_prepare_spec s p bsp w live :
  heap_refines grow w live -> zlen (cpu_infos s) = SMP_MAX_CPUS -> zlen (cpus p) = ACPI_MAX_CPUS -> 0 <= cpu_count p ->
  let ids := apic_id <$> take (Z.to_nat (cpu_count p)) (cpus p) in
  exists st s' w' live', smp_prepare s (Some p) bsp w = Some (st, s', w') /\ heap_refines grow w' live' /\ live ⊆ live' /\ smp_initialised s' = false /\
    match st with
    | SMP_OK => NoDup ids /\ bsp ∈ ids /\ prepared p bsp live s' live'
    | SMP_BAD_ARGUMENT => cpu_count p = 0
    | SMP_TOO_MANY_CPUS => SMP_MAX_CPUS < cpu_count p
    | SMP_BSP_NOT_FOUND => ~ (NoDup ids /\ bsp ∈ ids)
    | SMP_NO_MEMORY => NoDup ids /\ bsp ∈ ids
    | _ => False
    end.
Proof.
  intros Hw Hs Hlen Hn ids. unfold smp_prepare. cbn [cpu_infos]. destruct (Z.eqb_spec (cpu_count p) 0) as [E0 | E0]; [eexists SMP_BAD_ARGUMENT, _, w, live; done |].
  destruct (Z.ltb_spec SMP_MAX_CPUS (cpu_count p)) as [E1 | E1]; [eexists SMP_TOO_MANY_CPUS, _, w, live; done |]. unfold smp_build_topology.
  rewrite (proj2 (Z.eqb_neq (cpu_count p) 0) E0), (proj2 (Z.ltb_ge SMP_MAX_CPUS (cpu_count p)) E1). change (SMP_MAX_CPUS =? 0) with false. cbn [orb]. unfold SMP_MAX_CPUS, ACPI_MAX_CPUS in *.
  set (l := take (Z.to_nat (cpu_count p)) (cpus p)) in *. assert (zlen l = cpu_count p) as Hll by (unfold l, zlen in *; rewrite length_take; lia).
  destruct (topology_loop_spec (cpu_infos s) bsp (drop (Z.to_nat (cpu_count p)) (cpus p)) (length l) [] l UINT32_MAX) as (res & table & E & Hres);
    [done | change (zlen []) with 0; lia | unfold UINT32_MAX; lia | apply NoDup_nil_2 | left; split; [by intros ?%elem_of_nil | done] |].
  cbn [app] in E, Hres. change (entries bsp []) with (@nil smp_cpu_info_t) in E. rewrite filled_nil in E. change (zlen []) with 0 in E. assert (Z.to_nat (cpu_count p) = length l) as Hn' by (unfold zlen in Hll; lia).
  unfold l in E at 2. rewrite take_drop in E. rewrite Hn', E. cbn [mbind option_bind]. destruct res as [r |]; [| eexists SMP_BSP_NOT_FOUND, _, w, live; destruct Hres as [Hd _]; split; [reflexivity |]; do 3 (split; [done |]); by intros [? _]].
  destruct Hres as (Hnd & Hr & Htab). destruct (Z.eqb_spec r UINT32_MAX) as [-> | Hmax].
  { eexists SMP_BSP_NOT_FOUND, _, w, live. split; [reflexivity |]. split; [done |]. split; [done |]. split; [done |]. intros [_ Hin]. destruct Hr as [[? _] | (Hr & _)]; [done |]. unfold UINT32_MAX in Hr. lia. }
  assert (bsp ∈ ids) as Hin.
  { destruct Hr as [[_ ?] | (_ & c & Ec & <-)]; [done |]. apply list_elem_of_fmap. exists c. split; [done |]. apply rd_lookup in Ec as [_ Ec]. by eapply list_elem_of_lookup_2. }
  assert (zlen table = 64) as Hlt by (rewrite Htab, zlen_filled; [done | unfold zlen in *; rewrite entries_length; lia]).
  cbn [mbind option_bind]. destruct (stacks_loop_spec (Z.to_nat (cpu_count p)) 0 table w live Hw ltac:(lia) ltac:(lia)) as (ok & table' & w' & live' & E' & Hw' & Hres). rewrite E'. cbn [mbind option_bind].
  rewrite Z2Nat.id in Hres by done. pose proof (sr_live _ _ _ _ _ _ _ Hres) as Hsub. destruct ok; [| eexists SMP_NO_MEMORY, _, w', live'; done].
  eexists SMP_OK, _, w', live'. split; [reflexivity |]. split; [done |]. split; [done |]. split; [done |]. split; [done |]. split; [done |].
  eapply (prepared_ok p bsp r (cpu_infos s) table live table' live' w'); try done. unfold SMP_MAX_CPUS, ACPI_MAX_CPUS. lia.
Qed.

End StackProofs.
