(* ===== verification/Machine.v ===== *)
(** * The interrupt-driven devices together (kernel/src/timer.c, keyboard.c, smp.c)

    The state the interrupt handlers share, the handlers as [Interrupts]
    dispatches them, and the functions that set the timer, the keyboard and the
    inter-processor interrupt up: they register a handler and have the
    interrupt controllers route to it.  A handler that would leave its tables
    makes the state [None]. *)

From Stdlib Require Import ZArith Lia String.
From stdpp Require Import base numbers list gmap.
From S2P Require Import Prelude Bytes Spinlock Interrupts Acpi Cpu Apic Input Keyboard Timer ByteMem Heap HeapSpec HeapSafe Smp.

#[local] Open Scope Z_scope.

Section Machine.
Context {D : Type} `{!Hardware D}.

Record machine := mk_machine {
  dev : D;
  apic : apic_state;
  timer : timer_state;
  keyboard : keyboard_state;
  events : input_state;
  smp : smp_state
}.

Definition set_dev (m : machine) d := mk_machine d (apic m) (timer m) (keyboard m) (events m) (smp m).
Definition set_timer (m : machine) t := mk_machine (dev m) (apic m) t (keyboard m) (events m) (smp m).
Definition set_keyboard (m : machine) k := mk_machine (dev m) (apic m) (timer m) k (events m) (smp m).
Definition set_events (m : machine) q := mk_machine (dev m) (apic m) (timer m) (keyboard m) q (smp m).
Definition set_smp (m : machine) s := mk_machine (dev m) (apic m) (timer m) (keyboard m) (events m) s.

(** ** The handlers *)

#[local] Abbreviation handler := (interrupt_handler_t (K := option machine)).
#[local] Abbreviation table := (interrupts (K := option machine)).

Definition eoi (k : option machine) : option machine := m ← k; Some (set_dev m (apic_eoi (apic m) (dev m))).

Definition timer_handler : handler := fun _ _ k => m ← k; Some (set_timer m (timer_interrupt (timer m))).

Definition keyboard_handler : handler := fun _ _ k =>
  m ← k; '(kb, q, d) ← keyboard_interrupt (keyboard m) (events m) (dev m); Some (set_dev (set_events (set_keyboard m kb) q) d).

Definition ipi_handler : handler := fun _ _ k => m ← k; s ← smp_ipi_interrupt (smp m) (apic_local_id (apic m)); Some (set_smp m s).

(** ** timer.c *)

Definition timer_init (i : table) (m : machine) (requested_hz : Z) : option (timer_status_t * table * machine) :=
  match timer_calculate_pit requested_hz with
  | None => Some (TIMER_BAD_ARGUMENT, i, m)
  | Some (divisor, actual_hz, tick_ns) =>
      '(ok, i) ← interrupts_register_handler i TIMER_VECTOR (Some timer_handler) 0;
      if negb ok then Some (TIMER_INTERRUPT_SETUP_FAILED, i, m)
      else
        '(route, d) ← apic_route_isa_irq (apic m) 0 TIMER_VECTOR true (dev m);
        let m := set_dev m d in
        if negb (bool_decide (route = APIC_OK)) then Some (TIMER_ROUTE_FAILED, i, m)
        else
          let m := set_timer m (mk_timer 0 tick_ns actual_hz (timer_initialised (timer m))) in
          let d := outb PIT_COMMAND PIT_RATE_GENERATOR (dev m) in
          let d := outb PIT_CHANNEL0 (u8 divisor) d in
          let d := outb PIT_CHANNEL0 (u8 (Z.shiftr divisor 8)) d in
          '(route, d) ← apic_set_isa_irq_mask (apic m) 0 false d;
          let m := set_dev m d in
          if negb (bool_decide (route = APIC_OK)) then Some (TIMER_ROUTE_FAILED, i, m)
          else Some (TIMER_OK, i, set_timer m (mk_timer (tick_count (timer m)) (nanoseconds_per_tick (timer m)) (configured_hz (timer m)) true))
  end.

(** ** keyboard.c *)

Definition keyboard_init (i : table) (m : machine) : option (keyboard_status_t * table * machine) :=
  let m := set_keyboard m (mk_keyboard (mk_decode 0 false) 0) in
  let '(ok, d) := controller_setup (dev m) in
  let m := set_dev m d in
  if negb ok then Some (KEYBOARD_CONTROLLER_TIMEOUT, i, m)
  else
    '(ok, i) ← interrupts_register_handler i KEYBOARD_VECTOR (Some keyboard_handler) 0;
    if negb ok then Some (KEYBOARD_INTERRUPT_SETUP_FAILED, i, m)
    else
      '(route, d) ← apic_route_isa_irq (apic m) 1 KEYBOARD_VECTOR false (dev m);
      let m := set_dev m d in
      Some (if bool_decide (route = APIC_OK) then KEYBOARD_OK else KEYBOARD_ROUTE_FAILED, i, m).

(** ** smp.c *)

Definition smp_init {G} (i : table) (m : machine) (w : kworld G) (platform : option acpi_platform_info_t) (bsp_apic_id : Z) :
  option (smp_status_t * table * machine * kworld G) :=
  '(status, s, w) ← smp_prepare (smp m) platform bsp_apic_id w;
  let m := set_smp m s in
  if negb (bool_decide (status = SMP_OK)) then Some (status, i, m, w)
  else
    '(ok, i) ← interrupts_register_handler i SMP_IPI_VECTOR (Some ipi_handler) 0;
    if negb ok then Some (SMP_INTERRUPT_SETUP_FAILED, i, m, w)
    else Some (SMP_OK, i, set_smp m (mk_smp (cpu_infos s) (smp_count s) (bsp_index s) true), w).

(** ** Interrupts arriving *)

(** [n] interrupts with the same vector. *)
Fixpoint dispatches (n : nat) (i : table) (vector : Z) (k : option machine) : option (table * option machine) :=
  match n with
  | O => Some (i, k)
  | S n => '(i, k) ← interrupt_dispatch eoi i vector k; dispatches n i vector k
  end.

Lemma register_spec (i : table) v h ctx :
  tables_ok i -> 32 <= v < 256 -> exists i', interrupts_register_handler i v (Some h) ctx = Some (true, i') /\ tables_ok i' /\ Interrupts.rflags i' = Interrupts.rflags i /\
    rd (handlers i') v = Some (Some h) /\ rd (handler_contexts i') v = Some ctx /\
    forall w, w <> v -> rd (handlers i') w = rd (handlers i) w /\ rd (handler_contexts i') w = rd (handler_contexts i) w.
Proof.
  intros Hi Hv. destruct (interrupt_delivery_spec (fun k => k) i Hi) as [_ H]. destruct (H v (Some h) ctx ltac:(lia)) as (ok & i' & E & Hok & Ht & Hself & Hother).
  rewrite (proj2 (Z.leb_le 32 v)) in Hok by lia. rewrite bool_decide_true in Hok by done. subst ok. destruct Ht as (Ht & Hf & _). destruct (Hself eq_refl). exists i'. done.
Qed.

Lemma dispatch_spec (i : table) v h ctx k :
  tables_ok i -> 32 <= v < 255 -> rd (handlers i) v = Some (Some h) -> rd (handler_contexts i) v = Some ctx -> interrupt_dispatch eoi i v k = Some (i, eoi (h v ctx k)).
Proof.
  intros Hi Hv Hh Hc. destruct (interrupt_delivery_spec eoi i Hi) as [H _]. destruct (H v k ltac:(lia)) as (r & E & Hr). rewrite (proj2 (Z.ltb_lt v IDT_ENTRIES)) in Hr by (unfold IDT_ENTRIES; lia).
  destruct Hr as (h' & ctx' & Hh' & Hc' & ->). rewrite Hh in Hh'. rewrite Hc in Hc'. injection Hh' as <-. injection Hc' as <-. rewrite E. unfold delivered.
  rewrite (proj2 (Z.leb_le 32 v)), (proj2 (Z.eqb_neq v 255)) by lia. done.
Qed.
(** ** The timer *)

Context {map_mmio : Z -> Z -> D -> Z * D} `{!Controllers D map_mmio}.

Lemma entry_mask_bit v lo lv dest n :
  0 <= v < 256 -> 0 <= dest -> 0 <= n ->
  Z.testbit (entry_of (mk_fields v lo lv false dest)) n = if n =? 16 then false else Z.testbit (entry_of (mk_fields v lo lv true dest)) n.
Proof.
  intros Hv Hd Hn. set (a := v + (if lo then 2 ^ 13 else 0) + (if lv then 2 ^ 15 else 0)). assert (0 <= a < 2 ^ 16) as Ha by (unfold a; destruct lo, lv; lia).
  assert (forall mk : bool, entry_of (mk_fields v lo lv mk dest) = Z.lor (Z.shiftl (2 * (dest * 2 ^ 39) + (if mk then 1 else 0)) 16) a) as E.
  { intros mk. rewrite lor_shift_add by lia. unfold entry_of. cbn [e_vector e_low e_level e_masked e_destination]. fold a. destruct mk; lia. }
  rewrite !E, !Z.lor_spec, !Z.shiftl_spec by done. destruct (Z.eqb_spec n 16) as [-> | Hne].
  - rewrite Z.sub_diag. rewrite Z.add_0_r, Z.testbit_even_0. apply (testbit_high a 16 16); lia.
  - f_equal. destruct (Z.ltb_spec n 16); [by rewrite !Z.testbit_neg_r by lia |]. replace (n - 16) with (Z.succ (n - 17)) by lia. rewrite Z.add_0_r.
    by rewrite Z.testbit_even_succ, Z.testbit_odd_succ by lia.
Qed.

(** Unmasking a pin that holds a masked entry leaves the entry unmasked. *)
Lemma unmask_entry d d' p pin v lo lv dest :
  0 <= pin -> 0 <= v < 256 -> 0 <= dest -> holds_entry d p pin (entry_of (mk_fields v lo lv true dest)) ->
  ioreg d' p (high_reg pin) = ioreg d p (high_reg pin) ->
  (forall n, writable (low_reg pin) n = true -> Z.testbit (ioreg d' p (low_reg pin)) n = if n =? 16 then false else Z.testbit (ioreg d p (low_reg pin)) n) ->
  holds_entry d' p pin (entry_of (mk_fields v lo lv false dest)).
Proof.
  intros Hpin Hv Hd [Hlow Hhigh] Eh El. split.
  - intros n Hn. pose proof (writable_low pin n Hpin Hn). rewrite El, entry_mask_bit by (done || lia). destruct (n =? 16); [done |]. by apply Hlow.
  - intros n Hn. pose proof (writable_high pin n Hpin Hn). rewrite Eh, entry_mask_bit by lia. rewrite (proj2 (Z.eqb_neq (n + 32) 16)) by lia. by apply Hhigh.
Qed.

(** Writing ports changes no register of the controllers. *)
Definition same_registers (d d' : D) : Prop := (forall b, page d' b = page d b) /\ (forall p r, ioreg d' p r = ioreg d p r).

Lemma pit_programming d a b c : same_registers d (outb PIT_CHANNEL0 c (outb PIT_CHANNEL0 b (outb PIT_COMMAND a d))).
Proof. split; intros; repeat (first [rewrite (proj1 (port_frame _ _ _)) | rewrite (proj1 (proj2 (port_frame _ _ _)))]); done. Qed.

Lemma answers_same s g d1 d2 r1 p1 r2 p2 : answers s d1 g r1 p1 -> answers s d2 g r2 p2 -> (forall b, page d2 b = page d1 b) -> r2 = r1 /\ p2 = p1.
Proof.
  intros ((i1 & E1 & _) & _ & P1 & _) ((i2 & E2 & _) & _ & P2 & _) HP. rewrite E1 in E2. injection E2 as _ <-. split; [done |]. rewrite HP in P2. congruence.
Qed.

(** The entry that routes ISA interrupt [irq] to [vector] on this processor is in
    place and enabled. *)
Definition enabled_route (s : apic_state) (d : D) (irq vector : Z) : Prop :=
  let '(g, flags) := isa_route (topology s) irq in
  exists r p, answers s d g r p /\ holds_entry d p (g - io_gsi_base r) (entry_of (mk_fields vector (acpi_polarity flags =? 3) (acpi_trigger flags =? 3) false (lapic_id s))).

Lemma route_then_unmask s d0 d1 d2 d3 irq vector :
  apic_ok s d0 -> 0 <= vector < 256 -> 0 <= irq < 256 -> routed s d0 d1 irq vector true APIC_OK -> same_registers d1 d2 -> mask_set s d2 d3 irq false APIC_OK -> enabled_route s d3 irq vector.
Proof.
  intros Hok Hv Hirq Hr [HP HR] Hm. unfold routed, mask_set, enabled_route in *. pose proof Hok as (_ & Hid & Ht & _). pose proof (isa_route_typed (topology s) irq Ht ltac:(lia)) as [Hg _].
  destruct (isa_route (topology s) irq) as [g flags]. cbn [fst] in *. destruct Hr as (r & p & Ha & _ & _ & Hh & (HP1 & _) & _). destruct Hm as (r2 & p2 & Ha2 & (HP2 & _) & Eh & El).
  destruct (answers_same s g d0 d2 r p r2 p2 Ha Ha2 ltac:(intros b; by rewrite HP, HP1)) as [-> ->]. exists r, p. pose proof Ha as (Hi & Hcov & Hp & Hio). split.
  - split; [done |]. split; [done |]. split; [by rewrite HP2, HP, HP1 | done].
  - assert (0 <= g - io_gsi_base r) as Hpin by (unfold covers in Hcov; apply andb_true_iff in Hcov as [H _]; apply Z.leb_le in H; lia).
    eapply (unmask_entry d1 d3); [done | done | done | exact Hh | by rewrite Eh, HR |]. intros n Hn. rewrite El by done. by rewrite HR.
Qed.

Lemma same_registers_ok s d d' : same_registers d d' -> apic_ok s d -> apic_ok s d'.
Proof. intros [HP _]. by apply apic_ok_pages. Qed.

Lemma timer_dispatches n : forall (i : interrupts) m,
  tables_ok i -> rd (handlers i) TIMER_VECTOR = Some (Some timer_handler) -> rd (handler_contexts i) TIMER_VECTOR = Some 0 -> 0 <= tick_count (timer m) -> tick_count (timer m) + Z.of_nat n < 2 ^ 64 ->
  exists m', dispatches n i TIMER_VECTOR (Some m) = Some (i, Some m') /\
    timer m' = mk_timer (tick_count (timer m) + Z.of_nat n) (nanoseconds_per_tick (timer m)) (configured_hz (timer m)) (timer_initialised (timer m)) /\
    apic m' = apic m /\ keyboard m' = keyboard m /\ events m' = events m /\ smp m' = smp m.
Proof.
  induction n as [| n IH]; intros i m Hi Hh Hc Ht Hn.
  { exists m. split; [done |]. split; [| done]. rewrite Z.add_0_r. by destruct (timer m). }
  cbn [dispatches]. rewrite (dispatch_spec i TIMER_VECTOR timer_handler 0) by done. cbn [mbind option_bind timer_handler eoi].
  set (m1 := set_dev _ _). destruct (IH i m1 Hi Hh Hc) as (m' & E & Et & ? & ? & ? & ?); cbn [m1 set_dev set_timer timer tick_count timer_interrupt]; [apply u64_range | rewrite u64_small; lia |].
  exists m'. split; [exact E |]. split; [| done]. rewrite Et. cbn [m1 set_dev set_timer timer tick_count nanoseconds_per_tick configured_hz timer_initialised timer_interrupt].
  rewrite u64_small by lia. f_equal. lia.
Qed.

Lemma timer_init_spec (i : interrupts) m hz :
  tables_ok i -> apic_ok (apic m) (dev m) ->
  exists st i' m', timer_init i m hz = Some (st, i', m') /\ tables_ok i' /\ apic m' = apic m /\ apic_ok (apic m') (dev m') /\
    match st with
    | TIMER_OK => exists divisor actual tick, timer_calculate_pit hz = Some (divisor, actual, tick) /\ timer m' = mk_timer 0 tick actual true /\
        enabled_route (apic m') (dev m') 0 TIMER_VECTOR /\ rd (handlers i') TIMER_VECTOR = Some (Some timer_handler) /\ rd (handler_contexts i') TIMER_VECTOR = Some 0
    | TIMER_BAD_ARGUMENT => timer_calculate_pit hz = None /\ i' = i /\ m' = m
    | TIMER_INTERRUPT_SETUP_FAILED => False
    | TIMER_ROUTE_FAILED => timer_initialised (timer m') = timer_initialised (timer m)
    end.
Proof.
  intros Hi Hok. unfold timer_init. destruct (timer_calculate_pit hz) as [[[divisor actual] tick] |] eqn:Epit; [| by exists TIMER_BAD_ARGUMENT, i, m].
  destruct (register_spec i TIMER_VECTOR timer_handler 0 Hi ltac:(done)) as (i' & -> & Hi' & _ & Hh & Hc & _). cbn [mbind option_bind negb].
  destruct (apic_route_spec (apic m) (dev m) 0 TIMER_VECTOR true Hok ltac:(done) ltac:(done)) as (st1 & d1 & -> & Hok1 & Hr1). cbn [mbind option_bind].
  destruct (bool_decide_reflect (st1 = APIC_OK)) as [-> | Hne]; cbn [negb]; [| eexists TIMER_ROUTE_FAILED, i', _; done]. cbn [set_dev set_timer dev apic].
  set (d2 := outb PIT_CHANNEL0 (u8 (Z.shiftr divisor 8)) _). pose proof (pit_programming d1 PIT_RATE_GENERATOR (u8 divisor) (u8 (Z.shiftr divisor 8))) as Hs2. fold d2 in Hs2.
  pose proof (same_registers_ok _ _ _ Hs2 Hok1) as Hok2. destruct (apic_mask_spec (apic m) d2 0 false Hok2 ltac:(done)) as (st2 & d3 & -> & Hok3 & Hm3). cbn [mbind option_bind].
  destruct (bool_decide_reflect (st2 = APIC_OK)) as [-> | Hne]; cbn [negb]; [| eexists TIMER_ROUTE_FAILED, i', _; done].
  eexists TIMER_OK, i', _. split; [reflexivity |]. split; [done |]. split; [done |]. split; [done |]. exists divisor, actual, tick. split; [done |]. split; [done |]. split; [| done].
  cbn [set_dev set_timer apic dev]. by eapply (route_then_unmask (apic m) (dev m) d1 d2 d3).
Qed.

(** C30. From the request to the clock: when [timer_init] reports success, the entry
    of interrupt 0 is in place and enabled, and from then on every interrupt of
    the timer's vector advances the clock by exactly one tick of the length that
    was computed, changes nothing else the kernel keeps, and time is the number
    of ticks times that length, up to the largest number. *)
Theorem timer_system_correct (i : interrupts) m hz i' m' :
  tables_ok i -> apic_ok (apic m) (dev m) -> timer_init i m hz = Some (TIMER_OK, i', m') ->
  enabled_route (apic m') (dev m') 0 TIMER_VECTOR /\
  exists divisor actual tick, timer_calculate_pit hz = Some (divisor, actual, tick) /\
  forall n : nat, Z.of_nat n < 2 ^ 64 -> exists m'', dispatches n i' TIMER_VECTOR (Some m') = Some (i', Some m'') /\
    timer_ticks (timer m'') = Z.of_nat n /\ timer_now_ns (timer m'') = Z.min (Z.of_nat n * tick) UINT64_MAX /\ timer_frequency_hz (timer m'') = actual /\
    keyboard m'' = keyboard m' /\ events m'' = events m' /\ smp m'' = smp m'.
Proof.
  intros Hi Hok E. destruct (timer_init_spec i m hz Hi Hok) as (st & i1 & m1 & E' & Hi' & _ & _ & Hst). rewrite E in E'. injection E' as <- <- <-.
  destruct Hst as (divisor & actual & tick & Epit & Et & Hroute & Hh & Hc). split; [done |]. exists divisor, actual, tick. split; [done |]. intros n Hn.
  destruct (timer_dispatches n i' m' Hi' Hh Hc) as (m'' & Ed & Et'' & _ & Hrest); [by rewrite Et | by rewrite Et |]. exists m''. split; [exact Ed |]. rewrite Et'', Et. cbn [tick_count nanoseconds_per_tick configured_hz timer_initialised].
  split; [done |]. split; [| done]. assert (19 <= hz <= 10000) as Hhz.
  { unfold timer_calculate_pit in Epit. destruct (Z.ltb_spec hz 19); [done |]. destruct (Z.ltb_spec 10000 hz); [done |]. lia. }
  rewrite calculate_pit_spec in Epit by done. injection Epit as _ _ <-. pose proof (pit_divisor hz Hhz) as Hd. cbn zeta in Hd. rewrite now_spec; [done |].
  split; [done |]. cbn [nanoseconds_per_tick tick_count]. unfold PIT_INPUT_HZ in *. split; [| lia]. set (k := (1193182 + hz / 2) / hz) in *. split; [apply Z.div_str_pos; lia |].
  apply Z.div_lt_upper_bound; lia.
Qed.

(** ** The processors *)

Lemma ipi_loop_spec (infos : list smp_cpu_info_t) n i j c local_id :
  0 <= i <= j -> j < i + Z.of_nat n -> rd infos j = Some c -> cpu_apic_id c = local_id ->
  (forall k c', i <= k < j -> rd infos k = Some c' -> cpu_apic_id c' <> local_id) -> ipi_loop n infos i local_id = wr infos j (count_ipi c).
Proof.
  revert i. induction n as [| n IH]; intros i Hij Hn Hc Hid Hlow; [lia |]. cbn [ipi_loop]. pose proof (rd_Some_lt _ _ _ Hc). destruct (decide (i = j)) as [-> | Hne].
  - rewrite Hc. cbn [mbind option_bind]. by rewrite Hid, Z.eqb_refl.
  - destruct (rd_in_range infos i) as [c0 Hc0]; [lia |]. rewrite Hc0. cbn [mbind option_bind]. rewrite (proj2 (Z.eqb_neq _ _)) by (apply (Hlow i); [lia | done]).
    apply IH; [lia | lia | done | done |]. intros k c' Hk. apply Hlow. lia.
Qed.

(** C31. [smp_init] on any heap and platform: it always ends, keeps the heap and
    every allocation in it, and each status has the cause it names.  On success
    the table lists the platform's processors in order with distinct identifiers,
    exactly the boot processor is online, and every processor has an aligned
    32 KiB stack of its own that overlaps no other allocation; an inter-processor
    interrupt then counts once for the processor it arrives on and for no other. *)
Theorem smp_init_correct {G} (grow : heap_grow_fn G) `{!HeapGrowth grow} (i : interrupts) m w live p bsp :
  tables_ok i -> heap_refines grow w live -> zlen (cpu_infos (smp m)) = SMP_MAX_CPUS -> zlen (cpus p) = ACPI_MAX_CPUS -> 0 <= cpu_count p ->
  let ids := apic_id <$> take (Z.to_nat (cpu_count p)) (cpus p) in
  exists st i' m' w' live', smp_init i m w (Some p) bsp = Some (st, i', m', w') /\ heap_refines grow w' live' /\ live ⊆ live' /\ smp_initialised (smp m') = bool_decide (st = SMP_OK) /\
    match st with
    | SMP_OK => NoDup ids /\ bsp ∈ ids /\ prepared p bsp live (smp m') live' /\ tables_ok i' /\
        forall j c, 0 <= j < cpu_count p -> rd (cpu_infos (smp m')) j = Some c -> cpu_apic_id c = apic_local_id (apic m') ->
          exists m'', interrupt_dispatch eoi i' SMP_IPI_VECTOR (Some m') = Some (i', Some m'') /\ rd (cpu_infos (smp m'')) j = Some (count_ipi c) /\
            forall k, k <> j -> rd (cpu_infos (smp m'')) k = rd (cpu_infos (smp m')) k
    | SMP_BAD_ARGUMENT => cpu_count p = 0
    | SMP_TOO_MANY_CPUS => SMP_MAX_CPUS < cpu_count p
    | SMP_BSP_NOT_FOUND => ~ (NoDup ids /\ bsp ∈ ids)
    | SMP_NO_MEMORY => NoDup ids /\ bsp ∈ ids
    | _ => False
    end.
Proof.
  intros Hi Hw Hl Hlen Hn ids. destruct (smp_prepare_spec grow (smp m) p bsp w live Hw Hl Hlen Hn) as (st & s' & w' & live' & E & Hw' & Hsub & Hini & Hst). unfold smp_init. rewrite E. cbn [mbind option_bind].
  destruct (bool_decide_reflect (st = SMP_OK)) as [-> | Hne]; cbn [negb].
  2: { eexists st, i, _, w', live'. split; [reflexivity |]. split; [done |]. split; [done |]. split; [by rewrite bool_decide_false |]. by destruct st. }
  destruct (register_spec i SMP_IPI_VECTOR ipi_handler 0 Hi ltac:(done)) as (i' & -> & Hi' & _ & Hh & Hc & _). cbn [mbind option_bind negb].
  eexists SMP_OK, i', _, w', live'. split; [reflexivity |]. split; [done |]. split; [done |]. split; [done |]. destruct Hst as (Hnd & Hin & Hp). split; [done |]. split; [done |].
  assert (prepared p bsp live (mk_smp (cpu_infos s') (smp_count s') (bsp_index s') true) live') as Hp' by exact Hp. split; [exact Hp' |]. split; [done |].
  cbn [set_smp smp apic cpu_infos]. intros j c Hj Hcj Hid. destruct Hp as (Hcnt & _ & _ & _ & _ & Hdist). rewrite (dispatch_spec i' SMP_IPI_VECTOR ipi_handler 0) by done.
  cbn [ipi_handler mbind option_bind set_smp smp apic]. unfold smp_ipi_interrupt. cbn [cpu_infos smp_count bsp_index smp_initialised].
  rewrite (ipi_loop_spec (cpu_infos s') _ 0 j c) by first [done | lia | intros k c' Hk Hck; rewrite <- Hid; apply (Hdist k j); done || lia].
  destruct (wr (cpu_infos s') j (count_ipi c)) as [infos |] eqn:Ewr; [| rewrite wr_in_range in Ewr by (by apply rd_Some_lt in Hcj); done]. cbn [mbind option_bind eoi].
  eexists. split; [reflexivity |]. cbn [set_dev set_smp smp cpu_infos]. split; [exact (rd_wr_eq _ _ _ _ Ewr) |]. intros k Hk. by apply (rd_wr_ne _ _ _ _ _ Ewr).
Qed.

End Machine.

(** ** The example board *)

Definition no_handlers {K} : interrupts (K := K) := mk_interrupts (replicate 256 (mk_gate 0 0 0 0 0 0 0)) (replicate 256 None) (replicate 256 0) 0 0x202.
Definition machine_start (d : board) (s : apic_state) : machine :=
  mk_machine d s (mk_timer 0 0 0 false) (mk_keyboard no_keys 0) empty_queue (mk_smp (replicate 64 (mk_cpu_entry 0 0 0 SMP_CPU_DISCOVERED 0 0 0)) 0 0 false).

Definition board_timer : option timer_status_t :=
  '(_, s, d) ← apic_init board_map apic_start (Some board_platform) (Some board_cpu) board_start;
  '(st, _, _) ← timer_init no_handlers (machine_start d s) 100;
  Some st.

Lemma board_timer_ok : board_timer = Some TIMER_OK.
Proof. vm_compute. reflexivity. Qed.

Lemma timer_system_correct_witness :
  exists s d i' m' m'', apic_init board_map apic_start (Some board_platform) (Some board_cpu) board_start = Some (APIC_OK, s, d) /\
    timer_init no_handlers (machine_start d s) 100 = Some (TIMER_OK, i', m') /\ dispatches 3 i' TIMER_VECTOR (Some m') = Some (i', Some m'') /\ timer_now_ns (timer m'') = 30000450.
Proof.
  destruct board_initialised as (s & d & E & Hok). pose proof board_timer_ok as Ht. unfold board_timer in Ht. rewrite E in Ht. cbn [mbind option_bind] in Ht.
  destruct (timer_init no_handlers (machine_start d s) 100) as [[[st i'] m'] |] eqn:Ei; [| discriminate Ht]. cbn [mbind option_bind] in Ht. injection Ht as ->.
  destruct (timer_system_correct (map_mmio := board_map) no_handlers (machine_start d s) 100 i' m' ltac:(repeat split) Hok Ei) as (_ & divisor & actual & tick & Epit & H).
  destruct (H 3%nat ltac:(lia)) as (m'' & Ed & _ & Hnow & _). exists s, d, i', m', m''. split; [exact E |]. split; [exact Ei |]. split; [exact Ed |]. rewrite Hnow.
  assert (timer_calculate_pit 100 = Some (11932, 99, 10000150)) as Ep by reflexivity. rewrite Ep in Epit. injection Epit as _ _ <-. reflexivity.
Defined.

Definition two_cpus : acpi_platform_info_t :=
  mk_platform board_lapic 1 (mk_cpu_info 0 0 1 0 :: mk_cpu_info 1 4 1 0 :: replicate 62 (mk_cpu_info 0 0 0 0)) 2 (ioapics board_platform) 1 (overrides board_platform) 1.

Lemma smp_init_correct_witness :
  exists i' m' w' live', smp_init no_handlers (machine_start board_start apic_start) example_heap (Some two_cpus) 4 = Some (SMP_OK, i', m', w') /\ prepared two_cpus 4 ∅ (smp m') live'.
Proof.
  destruct (smp_init_correct bump no_handlers (machine_start board_start apic_start) example_heap ∅ two_cpus 4 ltac:(repeat split) example_refines eq_refl eq_refl ltac:(discriminate)) as (st & i' & m' & w' & live' & E & _ & _ & _ & Hst).
  assert ((fun r => fst (fst (fst r))) <$> smp_init no_handlers (machine_start board_start apic_start) example_heap (Some two_cpus) 4 = Some SMP_OK) as Hv by (vm_compute; reflexivity).
  rewrite E in Hv. cbn in Hv. injection Hv as ->. exists i', m', w', live'. split; [exact E |]. apply Hst.
Defined.
