(* ===== verification/Pci.v ===== *)
(** * PCI (kernel/src/pci.c, pci.h)

    Configuration space through its two ports, the scan of the buses, base
    address registers and the command register, over the hardware of [Cpu]. *)

From Stdlib Require Import ZArith Lia String.
From stdpp Require Import base numbers list.
From S2P Require Import Prelude Bytes Cpu.

#[local] Open Scope Z_scope.

(** ** pci.h *)

Definition PCI_MAX_DEVICES : Z := 256.

Inductive pci_status_t := PCI_OK | PCI_BAD_ARGUMENT | PCI_NOT_FOUND | PCI_TABLE_FULL | PCI_UNSUPPORTED_BAR.

Record pci_device_t := mk_pci {
  bus : Z;
  device : Z;
  function : Z;
  vendor_id : Z;
  device_id : Z;
  class_code : Z;
  subclass : Z;
  prog_if : Z;
  revision : Z;
  header_type : Z;
  interrupt_line : Z;
  interrupt_pin : Z;
  bars : list Z
}.

Record pci_bar_t := mk_bar { base : Z; is_io : bool; is_64bit : bool; prefetchable : Z }.

(** ** pci.c *)

Definition PCI_CONFIG_ADDRESS : Z := 0xcf8.
Definition PCI_CONFIG_DATA : Z := 0xcfc.
Definition PCI_VENDOR_NONE : Z := 0xffff.
Definition PCI_HEADER_MULTIFUNCTION : Z := 0x80.
Definition PCI_HEADER_TYPE_MASK : Z := 0x7f.
Definition PCI_HEADER_NORMAL : Z := 0x00.
Definition PCI_COMMAND_MEMORY : Z := 0x0002.
Definition PCI_COMMAND_BUS_MASTER : Z := 0x0004.

Definition pci_config_address (bus device function offset : Z) : Z :=
  Z.lor (Z.lor (Z.lor (Z.lor 0x80000000 (u32 (Z.shiftl bus 16))) (u32 (Z.shiftl (Z.land device 0x1f) 11))) (u32 (Z.shiftl (Z.land function 0x07) 8))) (Z.land offset 0xfc).

Record pci_state := mk_pci_state { devices : list pci_device_t; device_count : Z }.

Section Pci.
Context {D : Type} `{!Hardware D}.

Definition pci_config_read32 (bus device function offset : Z) (d : D) : Z * D :=
  inl PCI_CONFIG_DATA (outl PCI_CONFIG_ADDRESS (pci_config_address bus device function offset) d).

Definition pci_config_read16 (bus device function offset : Z) (d : D) : Z * D :=
  let '(value, d) := pci_config_read32 bus device function offset d in
  let shift := Z.land offset 2 * 8 in
  (u16 (Z.shiftr value shift), d).

Definition pci_config_read8 (bus device function offset : Z) (d : D) : Z * D :=
  let '(value, d) := pci_config_read32 bus device function offset d in
  let shift := Z.land offset 3 * 8 in
  (u8 (Z.shiftr value shift), d).

Definition pci_config_write16 (bus device function offset value : Z) (d : D) : D :=
  let aligned := u8 (Z.land offset 0xfc) in
  let '(current, d) := pci_config_read32 bus device function aligned d in
  let shift := Z.land offset 2 * 8 in
  let current := Z.land current (u32 (Z.lnot (u32 (Z.shiftl 0xffff shift)))) in
  let current := Z.lor current (u32 (Z.shiftl value shift)) in
  let d := outl PCI_CONFIG_ADDRESS (pci_config_address bus device function aligned) d in
  outl PCI_CONFIG_DATA current d.

(** The registers from [i] on; [n] are left. *)
Fixpoint bars_loop (n : nat) (i bus slot function : Z) (d : D) : list Z * D :=
  match n with
  | O => ([], d)
  | S n =>
      let '(v, d) := pci_config_read32 bus slot function (u8 (0x10 + i * 4)) d in
      let '(vs, d) := bars_loop n (i + 1) bus slot function d in
      (v :: vs, d)
  end.

Definition read_bars (bus slot function header_type : Z) (d : D) : list Z * D :=
  if negb (Z.land header_type PCI_HEADER_TYPE_MASK =? PCI_HEADER_NORMAL) then (replicate 6 0, d) else bars_loop 6 0 bus slot function d.

Definition read_function (bus slot function : Z) (d : D) : option pci_device_t * D :=
  let '(id, d) := pci_config_read32 bus slot function 0x00 d in
  let vendor := u16 id in
  if vendor =? PCI_VENDOR_NONE then (None, d)
  else
    let '(class_revision, d) := pci_config_read32 bus slot function 0x08 d in
    let '(header, d) := pci_config_read32 bus slot function 0x0c d in
    let '(interrupt, d) := pci_config_read32 bus slot function 0x3c d in
    let header_type := u8 (Z.shiftr header 16) in
    let '(bars, d) := read_bars bus slot function header_type d in
    (Some (mk_pci bus slot function vendor (u16 (Z.shiftr id 16)) (u8 (Z.shiftr class_revision 24)) (u8 (Z.shiftr class_revision 16)) (u8 (Z.shiftr class_revision 8))
       (u8 class_revision) header_type (u8 interrupt) (u8 (Z.shiftr interrupt 8)) bars), d).

Definition append_device (s : pci_state) (dev : pci_device_t) : option pci_state :=
  if device_count s <? PCI_MAX_DEVICES then l ← wr (devices s) (device_count s) dev; Some (mk_pci_state l (u32 (device_count s + 1))) else Some s.

Fixpoint functions_loop (n : nat) (bus slot function : Z) (s : pci_state) (d : D) : option (pci_state * D) :=
  match n with
  | O => Some (s, d)
  | S n =>
      let '(found, d) := read_function bus slot function d in
      s ← match found with Some dev => append_device s dev | None => Some s end;
      functions_loop n bus slot (function + 1) s d
  end.
Definition scan_extra_functions (bus slot : Z) (s : pci_state) (d : D) : option (pci_state * D) := functions_loop 7 bus slot 1 s d.

Definition scan_slot (bus slot : Z) (s : pci_state) (d : D) : option (pci_state * D) :=
  let '(first, d) := read_function bus slot 0 d in
  match first with
  | None => Some (s, d)
  | Some first =>
      s ← append_device s first;
      if negb (Z.land (header_type first) PCI_HEADER_MULTIFUNCTION =? 0) then scan_extra_functions bus slot s d else Some (s, d)
  end.

Fixpoint slots_loop (n : nat) (bus slot : Z) (s : pci_state) (d : D) : option (pci_state * D) :=
  match n with
  | O => Some (s, d)
  | S n => '(s, d) ← scan_slot (u8 bus) slot s d; slots_loop n bus (slot + 1) s d
  end.

Fixpoint buses_loop (n : nat) (bus : Z) (s : pci_state) (d : D) : option (pci_state * D) :=
  match n with
  | O => Some (s, d)
  | S n => '(s, d) ← slots_loop 32 bus 0 s d; buses_loop n (bus + 1) s d
  end.

Definition pci_init (s : pci_state) (d : D) : option (pci_state * D) := buses_loop 256 0 (mk_pci_state (devices s) 0) d.

(** [None] for a null pointer. *)
Definition pci_enable_memory_busmaster (dev : option pci_device_t) (d : D) : pci_status_t * D :=
  match dev with
  | None => (PCI_BAD_ARGUMENT, d)
  | Some dev =>
      let '(command, d) := pci_config_read16 (bus dev) (device dev) (function dev) 0x04 d in
      let command := Z.lor command (Z.lor PCI_COMMAND_MEMORY PCI_COMMAND_BUS_MASTER) in
      let d := pci_config_write16 (bus dev) (device dev) (function dev) 0x04 command d in
      let '(verify, d) := pci_config_read16 (bus dev) (device dev) (function dev) 0x04 d in
      if negb (Z.land verify (Z.lor PCI_COMMAND_MEMORY PCI_COMMAND_BUS_MASTER) =? Z.lor PCI_COMMAND_MEMORY PCI_COMMAND_BUS_MASTER) then (PCI_NOT_FOUND, d) else (PCI_OK, d)
  end.

End Pci.

Definition pci_device_count (s : pci_state) : Z := device_count s.

Definition pci_device_at (s : pci_state) (index : Z) : option (option pci_device_t) :=
  if device_count s <=? index then Some None else dev ← rd (devices s) index; Some (Some dev).

Fixpoint find_device_loop (n : nat) (l : list pci_device_t) (i vendor dev : Z) : option (option pci_device_t) :=
  match n with
  | O => Some None
  | S n => x ← rd l i; if (vendor_id x =? vendor) && (device_id x =? dev) then Some (Some x) else find_device_loop n l (i + 1) vendor dev
  end.
Definition pci_find_device (s : pci_state) (vendor dev : Z) : option (option pci_device_t) := find_device_loop (Z.to_nat (device_count s)) (devices s) 0 vendor dev.

Fixpoint find_class_loop (n : nat) (l : list pci_device_t) (i class sub : Z) : option (option pci_device_t) :=
  match n with
  | O => Some None
  | S n => x ← rd l i; if (class_code x =? class) && (subclass x =? sub) then Some (Some x) else find_class_loop n l (i + 1) class sub
  end.
Definition pci_find_class (s : pci_state) (class sub start_index : Z) : option (option pci_device_t) :=
  find_class_loop (Z.to_nat (device_count s - start_index)) (devices s) start_index class sub.

(** The status and, where it is written, the decoded register. *)
Definition pci_decode_bar (dev : option pci_device_t) (index : Z) : option (pci_status_t * option pci_bar_t) :=
  match dev with
  | None => Some (PCI_BAD_ARGUMENT, None)
  | Some dev =>
      if 6 <=? index then Some (PCI_BAD_ARGUMENT, None)
      else
        low ← rd (bars dev) index;
        if (low =? 0) || (low =? 2 ^ 32 - 1) then Some (PCI_NOT_FOUND, None)
        else if negb (Z.land low 1 =? 0) then Some (PCI_OK, Some (mk_bar (Z.land low (u32 (Z.lnot 3))) true false 0))
        else
          let type := u8 (Z.land (Z.shiftr low 1) 3) in
          let prefetch := u8 (Z.land (Z.shiftr low 3) 1) in
          if type =? 0 then Some (PCI_OK, Some (mk_bar (Z.land low (u32 (Z.lnot 0x0f))) false false prefetch))
          else if type =? 2 then
            if 5 <=? index then Some (PCI_UNSUPPORTED_BAR, Some (mk_bar 0 false false prefetch))
            else
              high ← rd (bars dev) (index + 1);
              Some (PCI_OK, Some (mk_bar (Z.lor (Z.land low (u32 (Z.lnot 0x0f))) (u64 (Z.shiftl high 32))) false true prefetch))
          else Some (PCI_UNSUPPORTED_BAR, Some (mk_bar 0 false false prefetch))
  end.

Definition pci_status_string (status : pci_status_t) : string :=
  match status with
  | PCI_OK => "ok"
  | PCI_BAD_ARGUMENT => "invalid argument"
  | PCI_NOT_FOUND => "PCI resource not found"
  | PCI_TABLE_FULL => "PCI device table full"
  | PCI_UNSUPPORTED_BAR => "unsupported PCI BAR"
  end.

(** ** Configuration space *)

(** The writable bits of the command and status register that matter here: the
    memory and bus master bits hold what is written where the device supports
    them; the error bits of the status half are cleared by writing a one. *)
Definition status_error_bits : list Z := [24; 27; 28; 29; 30; 31].

(** [conf d a] is the register the address word [a] selects. *)
Class PciConfig (D : Type) `{!Hardware D} := {
  conf : D -> Z -> Z;
  latch : D -> Z;
  supports : Z -> Z -> bool;
  conf_range d a : 0 <= conf d a < 2 ^ 32;
  select_law d a : latch (outl PCI_CONFIG_ADDRESS a d) = a /\ forall b, conf (outl PCI_CONFIG_ADDRESS a d) b = conf d b;
  read_law d : fst (inl PCI_CONFIG_DATA d) = conf d (latch d) /\ forall b, conf (snd (inl PCI_CONFIG_DATA d)) b = conf d b;
  write_law d v : (forall b, b <> latch d -> conf (outl PCI_CONFIG_DATA v d) b = conf d b) /\
    (Z.land (latch d) 0xff = 4 ->
      (forall n, n = 1 \/ n = 2 -> Z.testbit (conf (outl PCI_CONFIG_DATA v d) (latch d)) n = Z.testbit v n && supports (latch d) n) /\
      (forall n, n ∈ status_error_bits -> Z.testbit (conf (outl PCI_CONFIG_DATA v d) (latch d)) n = Z.testbit (conf d (latch d)) n && negb (Z.testbit v n)))
}.

(** ** What a scan should find *)

Section Reference.
Context (c : Z -> Z).

Definition reg (b s f o : Z) : Z := c (pci_config_address b s f o).

Definition present (b s f : Z) : bool := negb (u16 (reg b s f 0) =? PCI_VENDOR_NONE).

Definition describe (b s f : Z) : pci_device_t :=
  let header := u8 (Z.shiftr (reg b s f 0x0c) 16) in
  mk_pci b s f (u16 (reg b s f 0)) (u16 (Z.shiftr (reg b s f 0) 16)) (u8 (Z.shiftr (reg b s f 8) 24)) (u8 (Z.shiftr (reg b s f 8) 16)) (u8 (Z.shiftr (reg b s f 8) 8)) (u8 (reg b s f 8))
    header (u8 (reg b s f 0x3c)) (u8 (Z.shiftr (reg b s f 0x3c) 8))
    (if header mod 128 =? 0 then (fun i => reg b s f (0x10 + 4 * i)) <$> seqZ 0 6 else replicate 6 0).

Definition functions_from (n : nat) (b s f : Z) : list pci_device_t := describe b s <$> filter (fun f => present b s f = true) (seqZ f (Z.of_nat n)).

Definition slot_devices (b s : Z) : list pci_device_t :=
  if present b s 0 then describe b s 0 :: (if 128 <=? header_type (describe b s 0) then functions_from 7 b s 1 else []) else [].

(** Every function of every slot of every bus, in order. *)
Definition all_devices : list pci_device_t := seqZ 0 256 ≫= fun b => seqZ 0 32 ≫= slot_devices b.

End Reference.

(** The table after the devices [l] were found. *)
Definition found_state (t l : list pci_device_t) : pci_state := mk_pci_state (filled t (take 256 l)) (zlen (take 256 l)).

Lemma append_device_spec t l x : zlen t = PCI_MAX_DEVICES -> append_device (found_state t l) x = Some (found_state t (l ++ [x])).
Proof.
  intros Ht. unfold append_device, found_state, PCI_MAX_DEVICES in *. cbn [devices device_count]. pose proof (zlen_nonneg (take 256 l)). destruct (Z.ltb_spec (zlen (take 256 l)) 256) as [H1 | H1].
  - assert (length l < 256)%nat as Hl by (unfold zlen in H1; rewrite length_take in H1; lia). rewrite !take_ge in * by (rewrite ?length_app; cbn; lia). rewrite wr_filled by lia. cbn [mbind option_bind].
    rewrite zlen_app. change (zlen [x]) with 1. by rewrite u32_small by (unfold zlen in *; lia).
  - assert (256 <= length l)%nat as Hl by (unfold zlen in H1; rewrite length_take in H1; lia). by rewrite take_app_le by lia.
Qed.

Section Scan.
Context {D : Type} `{!Hardware D, !PciConfig D}.

Definition same_conf (c : Z -> Z) (d : D) : Prop := forall a, conf d a = c a.

Lemma read32_spec c b s f o d : same_conf c d -> let '(v, d') := pci_config_read32 b s f o d in v = reg c b s f o /\ same_conf c d'.
Proof.
  intros Hc. unfold pci_config_read32. destruct (select_law d (pci_config_address b s f o)) as [Hl Hs]. destruct (read_law (outl PCI_CONFIG_ADDRESS (pci_config_address b s f o) d)) as [Hr Hk].
  destruct (inl PCI_CONFIG_DATA _) as [v d']. cbn [fst snd] in *. split; [by rewrite Hr, Hl, Hs, Hc |]. intros a. by rewrite Hk, Hs, Hc.
Qed.

Lemma bars_loop_spec c b s f n i d : same_conf c d -> 0 <= i -> i + Z.of_nat n <= 6 -> let '(vs, d') := bars_loop n i b s f d in vs = (fun i => reg c b s f (0x10 + 4 * i)) <$> seqZ i (Z.of_nat n) /\ same_conf c d'.
Proof.
  revert i d. induction n as [| n IH]; intros i d Hc Hi Hn; [done |]. cbn [bars_loop]. rewrite u8_small by lia. pose proof (read32_spec c b s f (0x10 + i * 4) d Hc) as H.
  destruct (pci_config_read32 _ _ _ _ d) as [v d1]. destruct H as [-> H1]. specialize (IH (i + 1) d1 H1 ltac:(lia) ltac:(lia)). destruct (bars_loop n (i + 1) b s f d1) as [vs d2]. destruct IH as [-> H2].
  split; [| done]. rewrite seqZ_S. cbn [fmap list_fmap]. f_equal. f_equal. lia.
Qed.

Lemma read_function_spec c b s f d : same_conf c d -> let '(r, d') := read_function b s f d in r = (if present c b s f then Some (describe c b s f) else None) /\ same_conf c d'.
Proof.
  intros Hc. unfold read_function, present. pose proof (read32_spec c b s f 0 d Hc) as H. destruct (pci_config_read32 b s f 0 d) as [id d1]. destruct H as [-> H1].
  destruct (u16 (reg c b s f 0) =? PCI_VENDOR_NONE); [done |]. cbn [negb]. pose proof (read32_spec c b s f 8 d1 H1) as H. destruct (pci_config_read32 b s f 8 d1) as [cr d2]. destruct H as [-> H2].
  pose proof (read32_spec c b s f 0x0c d2 H2) as H. destruct (pci_config_read32 b s f 0x0c d2) as [hd d3]. destruct H as [-> H3].
  pose proof (read32_spec c b s f 0x3c d3 H3) as H. destruct (pci_config_read32 b s f 0x3c d3) as [ir d4]. destruct H as [-> H4]. unfold read_bars, describe. set (header := u8 (Z.shiftr (reg c b s f 12) 16)).
  unfold PCI_HEADER_TYPE_MASK, PCI_HEADER_NORMAL. change 0x7f with (Z.ones 7). rewrite Z.land_ones by done. change (2 ^ 7) with 128. destruct (header mod 128 =? 0); cbn [negb].
  - pose proof (bars_loop_spec c b s f 6 0 d4 H4 ltac:(done) ltac:(done)) as H. destruct (bars_loop 6 0 b s f d4) as [vs d5]. destruct H as [-> H5]. done.
  - done.
Qed.

Lemma functions_loop_spec c t b s n f l d : zlen t = PCI_MAX_DEVICES -> same_conf c d ->
  exists d', functions_loop n b s f (found_state t l) d = Some (found_state t (l ++ functions_from c n b s f), d') /\ same_conf c d'.
Proof.
  intros Ht. revert f l d. induction n as [| n IH]; intros f l d Hc; [exists d; split; [by rewrite app_nil_r | done] |]. cbn [functions_loop]. pose proof (read_function_spec c b s f d Hc) as H.
  destruct (read_function b s f d) as [r d1]. destruct H as [-> H1]. unfold functions_from. rewrite seqZ_S, filter_cons. destruct (present c b s f).
  - rewrite append_device_spec by done. cbn [mbind option_bind]. rewrite decide_True by done. destruct (IH (f + 1) (l ++ [describe c b s f]) d1 H1) as (d' & E & H'). exists d'. split; [| done].
    rewrite E, <- app_assoc. done.
  - cbn [mbind option_bind]. rewrite decide_False by done. destruct (IH (f + 1) l d1 H1) as (d' & E & H'). exists d'. done.
Qed.

Lemma multifunction_bit h : 0 <= h < 256 -> negb (Z.land h PCI_HEADER_MULTIFUNCTION =? 0) = (128 <=? h).
Proof.
  intros Hh. unfold PCI_HEADER_MULTIFUNCTION. change (Z.land h 0x80) with (Z.land h (Z.shiftl 1 7)). fold (flag h (Z.shiftl 1 7)). rewrite flag_bit by done. rewrite Z.testbit_eqb by done. change (2 ^ 7) with 128.
  destruct (Z.leb_spec 128 h).
  - assert (h / 128 = 1) as -> by (symmetry; apply (Z.div_unique h 128 1 (h - 128)); lia). done.
  - by rewrite Z.div_small by lia.
Qed.

Lemma scan_slot_spec c t b s l d : zlen t = PCI_MAX_DEVICES -> same_conf c d ->
  exists d', scan_slot b s (found_state t l) d = Some (found_state t (l ++ slot_devices c b s), d') /\ same_conf c d'.
Proof.
  intros Ht Hc. unfold scan_slot, slot_devices. pose proof (read_function_spec c b s 0 d Hc) as H. destruct (read_function b s 0 d) as [r d1]. destruct H as [-> H1].
  destruct (present c b s 0); [| exists d1; by rewrite app_nil_r]. rewrite append_device_spec by done. cbn [mbind option_bind].
  rewrite multifunction_bit by (unfold describe; cbn [header_type]; apply u8_range). destruct (128 <=? header_type (describe c b s 0)); [| by exists d1].
  destruct (functions_loop_spec c t b s 7 1 (l ++ [describe c b s 0]) d1 Ht H1) as (d' & E & H'). exists d'. split; [| done]. unfold scan_extra_functions. rewrite E, <- app_assoc. done.
Qed.

Lemma slots_loop_spec c t b n s l d : zlen t = PCI_MAX_DEVICES -> 0 <= b < 256 -> same_conf c d ->
  exists d', slots_loop n b s (found_state t l) d = Some (found_state t (l ++ (seqZ s (Z.of_nat n) ≫= slot_devices c b)), d') /\ same_conf c d'.
Proof.
  intros Ht Hb. revert s l d. induction n as [| n IH]; intros s l d Hc; [exists d; by rewrite app_nil_r |]. cbn [slots_loop]. rewrite u8_small by done.
  destruct (scan_slot_spec c t b s l d Ht Hc) as (d1 & -> & H1). cbn [mbind option_bind]. destruct (IH (s + 1) (l ++ slot_devices c b s) d1 H1) as (d' & E & H'). exists d'. split; [| done].
  rewrite E, seqZ_S, bind_cons, <- app_assoc. done.
Qed.

Lemma buses_loop_spec c t n b l d : zlen t = PCI_MAX_DEVICES -> 0 <= b -> b + Z.of_nat n <= 256 -> same_conf c d ->
  exists d', buses_loop n b (found_state t l) d = Some (found_state t (l ++ (seqZ b (Z.of_nat n) ≫= fun b => seqZ 0 32 ≫= slot_devices c b)), d') /\ same_conf c d'.
Proof.
  intros Ht. revert b l d. induction n as [| n IH]; intros b l d Hb Hn Hc; [exists d; by rewrite app_nil_r |]. cbn [buses_loop].
  destruct (slots_loop_spec c t b 32 0 l d Ht ltac:(lia) Hc) as (d1 & -> & H1). cbn [mbind option_bind]. change (Z.of_nat 32) with 32. destruct (IH (b + 1) (l ++ (seqZ 0 32 ≫= slot_devices c b)) d1 ltac:(lia) ltac:(lia) H1) as (d' & E & H'). exists d'. split; [| done].
  rewrite E, (seqZ_S b), bind_cons, <- app_assoc. done.
Qed.

End Scan.

Lemma found_device_at t l i : zlen t = PCI_MAX_DEVICES -> 0 <= i -> pci_device_at (found_state t l) i = Some (take 256 l !! Z.to_nat i).
Proof.
  intros Ht Hi. unfold pci_device_at, found_state. cbn [devices device_count]. destruct (Z.leb_spec (zlen (take 256 l)) i) as [H | H].
  - rewrite lookup_ge_None_2; [done |]. unfold zlen in H. lia.
  - unfold filled. destruct (rd_in_range (take 256 l) i) as [x Hx]; [lia |]. rewrite rd_app_l, Hx by lia. cbn [mbind option_bind]. f_equal. symmetry. by apply rd_lookup in Hx as [_ Hx].
Qed.

Lemma find_device_loop_spec l t n i v dv : 0 <= i -> i + Z.of_nat n = zlen l ->
  find_device_loop n (l ++ t) i v dv = Some (head (filter (fun x => vendor_id x = v /\ device_id x = dv) (drop (Z.to_nat i) l))).
Proof.
  revert i. induction n as [| n IH]; intros i Hi Hn.
  { rewrite drop_ge by (unfold zlen in Hn; lia). done. }
  cbn [find_device_loop]. destruct (rd_in_range l i) as [x Hx]; [lia |]. rewrite rd_app_l, Hx by lia. cbn [mbind option_bind]. apply rd_lookup in Hx as [_ Hx]. rewrite (drop_S _ x) by done. rewrite filter_cons.
  destruct (Z.eqb_spec (vendor_id x) v), (Z.eqb_spec (device_id x) dv); cbn [andb]; [by rewrite decide_True | rewrite decide_False by tauto..];
    (rewrite IH by lia; by replace (Z.to_nat (i + 1)) with (S (Z.to_nat i)) by lia).
Qed.

(** C32. The scan finds exactly the functions that answer, in the order of their
    addresses: function 0 of every slot of every bus and, behind it, the other
    functions of a multi-function device, each described as its registers say; the
    first 256 of them are kept.  Reading changes no register, and searching the
    table returns the first device with the identifiers. *)
Theorem pci_init_correct {D} `{!Hardware D, !PciConfig D} (s : pci_state) (d : D) :
  zlen (devices s) = PCI_MAX_DEVICES ->
  let found := take 256 (all_devices (conf d)) in
  exists s' d', pci_init s d = Some (s', d') /\ (forall a, conf d' a = conf d a) /\ pci_device_count s' = zlen found /\
    (forall i, 0 <= i -> pci_device_at s' i = Some (found !! Z.to_nat i)) /\
    (forall v dv, pci_find_device s' v dv = Some (head (filter (fun x => vendor_id x = v /\ device_id x = dv) found))).
Proof.
  intros Hs found. unfold pci_init. destruct (buses_loop_spec (conf d) (devices s) 256 0 [] d Hs ltac:(done) ltac:(done) ltac:(done)) as (d' & E & Hd').
  change (found_state (devices s) []) with (mk_pci_state (devices s) 0) in E. eexists _, d'. split; [exact E |]. split; [exact Hd' |]. change (Z.of_nat 256) with 256. cbn [app].
  change (seqZ 0 256 ≫= fun b => seqZ 0 32 ≫= slot_devices (conf d) b) with (all_devices (conf d)). split; [done |]. split; [intros i Hi; by apply found_device_at |].
  intros v dv. unfold pci_find_device, found_state. cbn [devices device_count]. fold found. unfold filled.
  rewrite (find_device_loop_spec found) by (pose proof (zlen_nonneg found); lia). done.
Qed.

(** ** Addresses and the command register *)

Definition address_ok (b s f : Z) : Prop := 0 <= b < 256 /\ 0 <= s < 32 /\ 0 <= f < 8.

Lemma address_value b s f o : address_ok b s f -> 0 <= o < 256 -> o mod 4 = 0 -> pci_config_address b s f o = 0x80000000 + b * 2 ^ 16 + s * 2 ^ 11 + f * 2 ^ 8 + o.
Proof.
  intros (Hb & Hs & Hf) Ho Ho4. unfold pci_config_address.
  assert (Z.land s 0x1f = s) as -> by (change 0x1f with (Z.ones 5); rewrite Z.land_ones by done; by apply Z.mod_small).
  assert (Z.land f 0x07 = f) as -> by (change 0x07 with (Z.ones 3); rewrite Z.land_ones by done; by apply Z.mod_small).
  assert (Z.land o 0xfc = o) as ->.
  { assert (Forall (fun o => o mod 4 = 0 -> Z.land o 0xfc = o) (seqZ 0 256)) as H by (apply (bool_decide_unpack _); vm_compute; exact I). rewrite Forall_forall in H. apply H; [apply elem_of_seqZ; lia | done]. }
  rewrite !u32_small by (rewrite Z.shiftl_mul_pow2 by done; lia).
  rewrite <- !Z.lor_assoc. rewrite (lor_shift_add f o 8) by lia. rewrite (lor_shift_add s (f * 2 ^ 8 + o) 11) by lia. rewrite (lor_shift_add b _ 16) by lia.
  change 0x80000000 with (Z.shiftl 1 31) at 1. rewrite lor_shift_add by lia. lia.
Qed.

(** Different registers have different addresses. *)
Lemma address_injective b s f o b' s' f' o' :
  address_ok b s f -> address_ok b' s' f' -> 0 <= o < 256 -> o mod 4 = 0 -> 0 <= o' < 256 -> o' mod 4 = 0 ->
  pci_config_address b s f o = pci_config_address b' s' f' o' -> b = b' /\ s = s' /\ f = f' /\ o = o'.
Proof. intros H H' Ho Ho4 Ho' Ho4'. rewrite !address_value by done. destruct H as (? & ? & ?), H' as (? & ? & ?). lia. Qed.

Section Command.
Context {D : Type} `{!Hardware D, !PciConfig D}.

Lemma read16_command b s f (d : D) : let '(v, d') := pci_config_read16 b s f 0x04 d in v = u16 (conf d (pci_config_address b s f 4)) /\ same_conf (conf d) d'.
Proof.
  unfold pci_config_read16. pose proof (read32_spec (conf d) b s f 4 d ltac:(done)) as H. destruct (pci_config_read32 b s f 4 d) as [v d']. destruct H as [-> H].
  change (Z.land 4 2 * 8) with 0. by rewrite Z.shiftr_0_r.
Qed.

(** The word [pci_config_write16] writes for the command register. *)
Lemma command_word_bit old value n : 0 <= value < 65536 -> 0 <= n < 32 ->
  Z.testbit (Z.lor (Z.land old (u32 (Z.lnot (u32 (Z.shiftl 0xffff 0))))) (u32 (Z.shiftl value 0))) n = if n <? 16 then Z.testbit value n else Z.testbit old n.
Proof.
  intros Hv Hn. rewrite !Z.shiftl_0_r. rewrite (u32_small value) by lia. rewrite Z.lor_spec, Z.land_spec. change (u32 0xffff) with (Z.ones 16). unfold u32. change 4294967296 with (2 ^ 32).
  rewrite Z.mod_pow2_bits_low, Z.lnot_spec, Z.testbit_ones_nonneg by lia. destruct (Z.ltb_spec n 16).
  - by rewrite andb_false_r.
  - rewrite andb_true_r. assert (Z.testbit value n = false) as ->; [| apply orb_false_r]. destruct (decide (value = 0)) as [-> |]; [apply Z.bits_0 |]. apply Z.bits_above_log2; [lia |]. apply Z.log2_lt_pow2; [lia |].
    apply Z.lt_le_trans with (2 ^ 16); [lia |]. apply Z.pow_le_mono_r; lia.
Qed.

(** The command register after [pci_config_write16]. *)
Lemma write16_command b s f value (d : D) :
  address_ok b s f -> 0 <= value < 65536 -> let a := pci_config_address b s f 4 in let d' := pci_config_write16 b s f 0x04 value d in
  (forall a', a' <> a -> conf d' a' = conf d a') /\ (forall n, n = 1 \/ n = 2 -> Z.testbit (conf d' a) n = Z.testbit value n && supports a n) /\
  (forall n, n ∈ status_error_bits -> Z.testbit (conf d' a) n = false).
Proof.
  intros Ha Hv a d'. unfold d', pci_config_write16. change (u8 (Z.land 4 0xfc)) with 4. change (Z.land 4 2 * 8) with 0.
  pose proof (read32_spec (conf d) b s f 4 d ltac:(done)) as H. destruct (pci_config_read32 b s f 4 d) as [old d1]. destruct H as [-> H1]. fold a. unfold reg. fold a. set (v := Z.lor _ _).
  destruct (select_law d1 a) as [Hl Hs]. destruct (write_law (outl PCI_CONFIG_ADDRESS a d1) v) as [Hother Hself]. rewrite Hl in *.
  assert (Z.land a 0xff = 4) as Ha4 by (unfold a; rewrite address_value by done; change 0xff with (Z.ones 8); rewrite Z.land_ones by done; destruct Ha as (? & ? & ?); change (2 ^ 8) with 256; symmetry; apply (Z.mod_unique _ 256 (0x800000 + b * 2 ^ 8 + s * 2 ^ 3 + f)); lia).
  destruct (Hself Ha4) as [H12 Herr]. split; [intros a' Hne; by rewrite Hother, Hs, H1 |]. split.
  - intros n Hn. rewrite H12 by done. unfold v. rewrite command_word_bit by (done || lia). by rewrite (proj2 (Z.ltb_lt n 16)) by lia.
  - intros n Hn. rewrite Herr by done. unfold v. assert (24 <= n < 32) as Hr by (unfold status_error_bits in Hn; rewrite !elem_of_cons, elem_of_nil in Hn; lia).
    rewrite command_word_bit by (done || lia). rewrite (proj2 (Z.ltb_ge n 16)) by lia. rewrite Hs, H1. by destruct (Z.testbit (conf d a) n).
Qed.

Lemma u16_bit v n : 0 <= n < 16 -> Z.testbit (u16 v) n = Z.testbit v n.
Proof. intros Hn. unfold u16. change 65536 with (2 ^ 16). apply Z.mod_pow2_bits_low. lia. Qed.

Lemma land_6 v : (Z.land v 6 =? 6) = Z.testbit v 1 && Z.testbit v 2.
Proof.
  destruct (Z.eqb_spec (Z.land v 6) 6) as [H | H].
  - assert (forall n, Z.testbit (Z.land v 6) n = Z.testbit 6 n) as Hb by (by rewrite H). pose proof (Hb 1) as H1. pose proof (Hb 2) as H2. rewrite Z.land_spec in H1, H2.
    apply andb_true_iff in H1 as [-> _]. by apply andb_true_iff in H2 as [-> _].
  - destruct (Z.testbit v 1) eqn:E1, (Z.testbit v 2) eqn:E2; try done. exfalso. apply H. apply Z.bits_inj'. intros n Hn. rewrite Z.land_spec.
    destruct (decide (n = 1)) as [-> |]; [by rewrite E1 |]. destruct (decide (n = 2)) as [-> |]; [by rewrite E2 |].
    assert (Z.testbit 6 n = false) as ->; [| apply andb_false_r]. change 6 with (Z.lor (2 ^ 1) (2 ^ 2)). rewrite Z.lor_spec, !Z.pow2_bits_false by lia. done.
Qed.

(** Enabling a device sets its memory and bus master bits and changes no register
    of any other function; it reports success exactly when the device supports
    both.  The write also goes to the status half of the register, where writing
    the bits back as they were read clears every error the device had recorded. *)
Theorem pci_enable_clears_errors (dev : pci_device_t) (d : D) :
  address_ok (bus dev) (device dev) (function dev) ->
  let a := pci_config_address (bus dev) (device dev) (function dev) 4 in
  let '(st, d') := pci_enable_memory_busmaster (Some dev) d in
  st = (if supports a 1 && supports a 2 then PCI_OK else PCI_NOT_FOUND) /\
  (forall n, n = 1 \/ n = 2 -> Z.testbit (conf d' a) n = supports a n) /\
  (forall b s f o, address_ok b s f -> 0 <= o < 256 -> o mod 4 = 0 -> ~ (b = bus dev /\ s = device dev /\ f = function dev /\ o = 4) ->
     conf d' (pci_config_address b s f o) = conf d (pci_config_address b s f o)) /\
  (forall n, n ∈ status_error_bits -> Z.testbit (conf d' a) n = false).
Proof.
  intros Ha a. unfold pci_enable_memory_busmaster. pose proof (read16_command (bus dev) (device dev) (function dev) d) as H. destruct (pci_config_read16 _ _ _ 4 d) as [command d1]. destruct H as [-> H1].
  set (value := Z.lor _ _). assert (0 <= value < 65536) as Hv.
  { unfold value. pose proof (u16_range (conf d (pci_config_address (bus dev) (device dev) (function dev) 4))). split; [apply Z.lor_nonneg; split; [lia | done] |].
    apply (Z.log2_lt_cancel _ 65536). rewrite Z.log2_lor by (lia || done). apply Z.max_lub_lt; [| done]. change (Z.log2 65536) with 16. destruct (decide (u16 (conf d (pci_config_address (bus dev) (device dev) (function dev) 4)) = 0)) as [-> |]; [done |].
    apply Z.log2_lt_pow2; lia. }
  destruct (write16_command (bus dev) (device dev) (function dev) value d1 Ha Hv) as (Ho & H12 & He). fold a in Ho, H12, He. set (d2 := pci_config_write16 _ _ _ 4 value d1) in *.
  pose proof (read16_command (bus dev) (device dev) (function dev) d2) as H. destruct (pci_config_read16 _ _ _ 4 d2) as [verify d3]. destruct H as [-> H3]. fold a.
  assert (forall n, n = 1 \/ n = 2 -> Z.testbit (conf d2 a) n = supports a n) as Hbits.
  { intros n Hn. rewrite H12 by done. unfold value. rewrite Z.lor_spec. destruct Hn as [-> | ->]; rewrite orb_true_r; done. }
  assert ((if negb (Z.land (u16 (conf d2 a)) 6 =? 6) then PCI_NOT_FOUND else PCI_OK) = (if supports a 1 && supports a 2 then PCI_OK else PCI_NOT_FOUND)) as Hst.
  { rewrite <- (Hbits 1), <- (Hbits 2) by tauto. rewrite <- !(u16_bit (conf d2 a)) by lia. rewrite land_6. by destruct (Z.testbit (u16 (conf d2 a)) 1), (Z.testbit (u16 (conf d2 a)) 2). }
  change (Z.lor PCI_COMMAND_MEMORY PCI_COMMAND_BUS_MASTER) with 6. destruct (Z.land (u16 (conf d2 a)) 6 =? 6); cbn [negb] in *; (split; [done |]; split; [intros n Hn; rewrite H3; by apply Hbits |]; split; [| intros n Hn; rewrite H3; by apply He]);
    (intros b s f o Hb Ho' Ho4 Hne; rewrite H3, Ho, H1; [done |]; intros E; apply address_injective in E; done || tauto).
Qed.

End Command.

(** ** An example bus *)

Record pci_bus := mk_bus { bus_latch : Z; bus_registers : Z -> Z }.

Definition bus_write (v : Z) (d : pci_bus) : pci_bus :=
  if Z.land (bus_latch d) 0xff =? 4
  then let old := bus_registers d (bus_latch d) in
       mk_bus (bus_latch d) (fun a => if a =? bus_latch d then Z.lor (Z.land v 6) (Z.land (Z.land old (Z.lnot v)) 0xffff0000) else bus_registers d a)
  else d.

#[local] Instance bus_hardware : Hardware pci_bus := {|
  readl := fun _ d => (0, d); writel := fun _ _ d => d; inb := fun _ d => (0, d); outb := fun _ _ d => d;
  inl := fun p d => (if p =? PCI_CONFIG_DATA then u32 (bus_registers d (bus_latch d)) else 0, d);
  outl := fun p v d => if p =? PCI_CONFIG_ADDRESS then mk_bus v (bus_registers d) else if p =? PCI_CONFIG_DATA then bus_write v d else d;
  rdmsr := fun _ d => ((0, 0), d); wrmsr := fun _ _ _ d => d |}.

Lemma u32_bit v n : 0 <= n < 32 -> Z.testbit (u32 v) n = Z.testbit v n.
Proof. intros Hn. unfold u32. change 4294967296 with (2 ^ 32). apply Z.mod_pow2_bits_low. lia. Qed.

#[local] Program Instance bus_config : PciConfig pci_bus := {| conf := fun d a => u32 (bus_registers d a); latch := bus_latch; supports := fun _ _ => true |}.
Next Obligation. intros d a. apply u32_range. Qed.
Next Obligation. done. Qed.
Next Obligation. done. Qed.
Next Obligation.
  intros d v. cbn. unfold bus_write. destruct (Z.eqb_spec (Z.land (bus_latch d) 0xff) 4) as [E | E]; [| done]. cbn [bus_registers]. split; [intros b Hb; by rewrite (proj2 (Z.eqb_neq _ _) Hb) |].
  intros _. rewrite Z.eqb_refl. split.
  - intros n Hn. rewrite u32_bit by lia. rewrite !Z.lor_spec, !Z.land_spec. destruct Hn as [-> | ->]; cbn [Z.testbit Z.odd Pos.testbit]; rewrite ?andb_false_r, ?orb_false_r; done.
  - intros n Hn. unfold status_error_bits in Hn. assert (0 <= n < 32) by (rewrite !elem_of_cons, elem_of_nil in Hn; lia). rewrite !u32_bit by done. rewrite !Z.lor_spec, !Z.land_spec, Z.lnot_spec by lia.
    rewrite !elem_of_cons, elem_of_nil in Hn. destruct Hn as [-> | [-> | [-> | [-> | [-> | [-> | []]]]]]]; by rewrite andb_false_r, orb_false_l, andb_true_r.
Qed.

(** A network card in slot 3 of bus 0 that has recorded a master abort. *)
Definition nic_registers (a : Z) : Z :=
  if a =? pci_config_address 0 3 0 0 then 0x100e8086
  else if a =? pci_config_address 0 3 0 4 then 0x22300000
  else if a =? pci_config_address 0 3 0 8 then 0x02000003
  else if a =? pci_config_address 0 3 0 0x0c then 0
  else if a =? pci_config_address 0 3 0 0x10 then 0xfebc0000
  else if a =? pci_config_address 0 3 0 0x3c then 0x010b
  else if a <? 0x80001800 then 0xffffffff else if a <? 0x80001900 then 0 else 0xffffffff.

Definition nic_bus : pci_bus := mk_bus 0 nic_registers.
Definition nic : pci_device_t := mk_pci 0 3 0 0x8086 0x100e 2 0 0 3 0 0x0b 1 [0xfebc0000; 0; 0; 0; 0; 0].
Definition no_devices : pci_state := mk_pci_state (replicate 256 nic) 0.

Lemma pci_init_correct_witness : exists s' d', pci_init no_devices nic_bus = Some (s', d') /\ pci_find_device s' 0x8086 0x100e = Some (Some nic).
Proof.
  destruct (pci_init_correct no_devices nic_bus eq_refl) as (s' & d' & E & _ & _ & _ & H). exists s', d'. split; [exact E |]. rewrite H. vm_compute. reflexivity.
Defined.

Lemma pci_enable_clears_errors_witness :
  let '(st, d') := pci_enable_memory_busmaster (Some nic) nic_bus in
  st = PCI_OK /\ Z.testbit (conf nic_bus (pci_config_address 0 3 0 4)) 29 = true /\ Z.testbit (conf d' (pci_config_address 0 3 0 4)) 29 = false.
Proof.
  pose proof (pci_enable_clears_errors nic nic_bus ltac:(repeat split; cbn; lia)) as H. destruct (pci_enable_memory_busmaster (Some nic) nic_bus) as [st d']. destruct H as (-> & _ & _ & H).
  split; [reflexivity |]. split; [reflexivity |]. apply H. apply (bool_decide_unpack _). exact I.
Defined.
