(* ===== verification/E1000.v ===== *)
(** * Network card (kernel/src/e1000.c, e1000.h)

    The driver of the 82540EM shares memory with the card: two descriptor
    rings and 48 buffers that the card reads and writes on its own.  Its state
    is the static [state] of e1000.c; frames come from [Pmm], pointers and the
    register window from [Paging], the device table from [Pci], and it serves
    [Net].

    The operations are written against any hardware that has registers, ports
    and memory the card can change.  The theorems are about [io]: a record of
    every access, in which each answer is an arbitrary function of the accesses
    so far.  So they hold whatever the card does, and they say which accesses
    the driver makes, to which addresses and in which order. *)

From stdpp Require Import base numbers list sets strings.
From Stdlib Require Import ZArith Lia.
From S2P Require Import Prelude Bytes Boot Pmm Paging Cpu Pci Net.

#[local] Open Scope Z_scope.

(** ** e1000.h and the constants of e1000.c *)

Inductive e1000_status_t :=
| E1000_OK | E1000_NOT_FOUND | E1000_PCI_ERROR | E1000_MMIO_ERROR | E1000_RESET_TIMEOUT
| E1000_NO_MEMORY | E1000_BAD_MAC | E1000_NET_REGISTER_ERROR | E1000_TX_TIMEOUT.

#[export] Instance e1000_status_eq_dec : EqDecision e1000_status_t.
Proof. solve_decision. Defined.

Definition E1000_VENDOR_INTEL : Z := 0x8086.
Definition E1000_DEVICE_82540EM : Z := 0x100e.
Definition E1000_MMIO_SIZE : Z := 0x20000.

Definition REG_CTRL : Z := 0x0000.
Definition REG_STATUS : Z := 0x0008.
Definition REG_ICR : Z := 0x00c0.
Definition REG_IMC : Z := 0x00d8.
Definition REG_RCTL : Z := 0x0100.
Definition REG_TCTL : Z := 0x0400.
Definition REG_TIPG : Z := 0x0410.
Definition REG_RDBAL : Z := 0x2800.
Definition REG_RDBAH : Z := 0x2804.
Definition REG_RDLEN : Z := 0x2808.
Definition REG_RDH : Z := 0x2810.
Definition REG_RDT : Z := 0x2818.
Definition REG_TDBAL : Z := 0x3800.
Definition REG_TDBAH : Z := 0x3804.
Definition REG_TDLEN : Z := 0x3808.
Definition REG_TDH : Z := 0x3810.
Definition REG_TDT : Z := 0x3818.
Definition REG_MTA : Z := 0x5200.
Definition REG_RAL0 : Z := 0x5400.
Definition REG_RAH0 : Z := 0x5404.

Definition CTRL_SLU : Z := Z.shiftl 1 6.
Definition CTRL_RST : Z := Z.shiftl 1 26.
Definition STATUS_LU : Z := Z.shiftl 1 1.
Definition RCTL_EN : Z := Z.shiftl 1 1.
Definition RCTL_BAM : Z := Z.shiftl 1 15.
Definition RCTL_SECRC : Z := Z.shiftl 1 26.
Definition TCTL_EN : Z := Z.shiftl 1 1.
Definition TCTL_PSP : Z := Z.shiftl 1 3.
Definition TCTL_RTLC : Z := Z.shiftl 1 24.

Definition TX_CMD_EOP : Z := 0x01.
Definition TX_CMD_IFCS : Z := 0x02.
Definition TX_CMD_RS : Z := 0x08.
Definition TX_STATUS_DD : Z := 0x01.
Definition RX_STATUS_DD : Z := 0x01.
Definition RX_STATUS_EOP : Z := 0x02.

Definition RX_COUNT : Z := 32.
Definition TX_COUNT : Z := 16.
Definition DMA_BUFFER_SIZE : Z := 2048.
Definition RESET_SPINS : Z := 1000000.
Definition TX_SPINS : Z := 1000000.

(** The packed descriptors, as the offsets of their fields; each is 16 bytes. *)
Definition DESC_SIZE : Z := 16.
Definition rx_address : Z := 0.
Definition rx_length : Z := 8.
Definition rx_status : Z := 12.
Definition rx_errors : Z := 13.
Definition tx_address : Z := 0.
Definition tx_length : Z := 8.
Definition tx_checksum_offset : Z := 10.
Definition tx_command : Z := 11.
Definition tx_status : Z := 12.
Definition tx_checksum_start : Z := 13.
Definition tx_special : Z := 14.

(** Pointers are addresses, 0 the null pointer. *)
Record e1000_state_t := mk_e1000 {
  mmio : Z;
  rx_ring : Z;
  tx_ring : Z;
  rx_ring_phys : Z;
  tx_ring_phys : Z;
  rx_buffer_phys : list Z;
  tx_buffer_phys : list Z;
  rx_buffer : list Z;
  tx_buffer : list Z;
  mac : list Z;
  rx_next : Z;
  tx_next : Z;
  net_device_id : Z;
  ready : bool
}.

Definition zero_state : e1000_state_t :=
  mk_e1000 0 0 0 0 0 (replicate 32 0) (replicate 16 0) (replicate 32 0) (replicate 16 0) (replicate 6 0) 0 0 0 false.

Definition set_mmio (p : Z) (s : e1000_state_t) : e1000_state_t :=
  mk_e1000 p (rx_ring s) (tx_ring s) (rx_ring_phys s) (tx_ring_phys s) (rx_buffer_phys s) (tx_buffer_phys s)
    (rx_buffer s) (tx_buffer s) (mac s) (rx_next s) (tx_next s) (net_device_id s) (ready s).
Definition set_rx_ring (phys p : Z) (s : e1000_state_t) : e1000_state_t :=
  mk_e1000 (mmio s) p (tx_ring s) phys (tx_ring_phys s) (rx_buffer_phys s) (tx_buffer_phys s)
    (rx_buffer s) (tx_buffer s) (mac s) (rx_next s) (tx_next s) (net_device_id s) (ready s).
Definition set_tx_ring (phys p : Z) (s : e1000_state_t) : e1000_state_t :=
  mk_e1000 (mmio s) (rx_ring s) p (rx_ring_phys s) phys (rx_buffer_phys s) (tx_buffer_phys s)
    (rx_buffer s) (tx_buffer s) (mac s) (rx_next s) (tx_next s) (net_device_id s) (ready s).
Definition set_rx_buffers (phys ps : list Z) (s : e1000_state_t) : e1000_state_t :=
  mk_e1000 (mmio s) (rx_ring s) (tx_ring s) (rx_ring_phys s) (tx_ring_phys s) phys (tx_buffer_phys s)
    ps (tx_buffer s) (mac s) (rx_next s) (tx_next s) (net_device_id s) (ready s).
Definition set_tx_buffers (phys ps : list Z) (s : e1000_state_t) : e1000_state_t :=
  mk_e1000 (mmio s) (rx_ring s) (tx_ring s) (rx_ring_phys s) (tx_ring_phys s) (rx_buffer_phys s) phys
    (rx_buffer s) ps (mac s) (rx_next s) (tx_next s) (net_device_id s) (ready s).
Definition set_mac (m : list Z) (s : e1000_state_t) : e1000_state_t :=
  mk_e1000 (mmio s) (rx_ring s) (tx_ring s) (rx_ring_phys s) (tx_ring_phys s) (rx_buffer_phys s) (tx_buffer_phys s)
    (rx_buffer s) (tx_buffer s) m (rx_next s) (tx_next s) (net_device_id s) (ready s).
Definition set_next (rx tx : Z) (s : e1000_state_t) : e1000_state_t :=
  mk_e1000 (mmio s) (rx_ring s) (tx_ring s) (rx_ring_phys s) (tx_ring_phys s) (rx_buffer_phys s) (tx_buffer_phys s)
    (rx_buffer s) (tx_buffer s) (mac s) rx tx (net_device_id s) (ready s).
Definition set_ready (id : Z) (r : bool) (s : e1000_state_t) : e1000_state_t :=
  mk_e1000 (mmio s) (rx_ring s) (tx_ring s) (rx_ring_phys s) (tx_ring_phys s) (rx_buffer_phys s) (tx_buffer_phys s)
    (rx_buffer s) (tx_buffer s) (mac s) (rx_next s) (tx_next s) id r.

(** Memory that the card may read and change at any time. *)
Class DmaMemory (D : Type) := {
  load : Z -> Z -> D -> Z * D;
  store : Z -> Z -> Z -> D -> D
}.

(** ** e1000.c *)

(** What the driver works on: its own state, the paging state, the page
    tables with the frame allocator, the hardware, and the state of the code
    that receives frames. *)
Record machine (D U : Type) := mk_machine {
  card : e1000_state_t;
  paging_of : paging_state;
  tables : Paging.world;
  hw : D;
  upper : U
}.
Arguments mk_machine {D U}.
Arguments card {D U}.
Arguments paging_of {D U}.
Arguments tables {D U}.
Arguments hw {D U}.
Arguments upper {D U}.

(** An operation on the machine; [None] is undefined behaviour. *)
Definition act (W A : Type) : Type := W -> option (A * W).
#[export] Instance act_ret {W} : MRet (act W) := fun A a w => Some (a, w).
#[export] Instance act_bind {W} : MBind (act W) := fun A B k c w =>
  match c w with Some (a, w) => k a w | None => None end.
Definition lift {W A} (o : option A) : act W A := fun w => match o with Some a => Some (a, w) | None => None end.

(** The bytes of an Ethernet address; all ones and multicast are refused. *)
Fixpoint mac_loop (l : list Z) (nonzero : Z) (all_ff : bool) : Z * bool :=
  match l with
  | [] => (nonzero, all_ff)
  | b :: l => mac_loop l (Z.lor nonzero b) (if negb (b =? 0xff) then false else all_ff)
  end.

Definition mac_valid (m : list Z) : option bool :=
  let '(nonzero, all_ff) := mac_loop (take 6 m) 0 true in
  first ← rd m 0;
  Some (negb (nonzero =? 0) && negb all_ff && (Z.land first 1 =? 0)).

Section Driver.
Context {D U : Type} `{!Hardware D, !DmaMemory D}.
#[local] Abbreviation M := (machine D U).

Definition with_card (m : M) (s : e1000_state_t) : M := mk_machine s (paging_of m) (tables m) (hw m) (upper m).
Definition with_hw (m : M) (d : D) : M := mk_machine (card m) (paging_of m) (tables m) d (upper m).
Definition with_frames (m : M) (f : pmm_state) : M :=
  mk_machine (card m) (paging_of m) (mk_world (mem (tables m)) f) (hw m) (upper m).

Definition state : act M e1000_state_t := fun m => Some (card m, m).
Definition update (f : e1000_state_t -> e1000_state_t) : act M unit := fun m => Some (tt, with_card m (f (card m))).
Definition hw_read (f : D -> Z * D) : act M Z := fun m => let '(v, d) := f (hw m) in Some (v, with_hw m d).
Definition hw_write (f : D -> D) : act M unit := fun m => Some (tt, with_hw m (f (hw m))).

Fixpoint zero_loop (n : nat) (p : Z) : act M unit :=
  match n with O => mret tt | S n => hw_write (store 1 p 0);; zero_loop n (p + 1) end.
Definition zero_bytes (memory length : Z) : act M unit := zero_loop (Z.to_nat length) memory.

Fixpoint copy_out (n : nat) (d : Z) (source : list Z) (i : Z) : act M unit :=
  match n with
  | O => mret tt
  | S n => b ← lift (rd source i); hw_write (store 1 d b);; copy_out n (d + 1) source (i + 1)
  end.
Definition copy_bytes (destination : Z) (source : list Z) (length : Z) : act M unit :=
  copy_out (Z.to_nat length) destination source 0.

Definition reg_read (offset : Z) : act M Z := s ← state; hw_read (readl (mmio s + 4 * (offset / 4))).

Definition reg_write (offset value : Z) : act M unit :=
  s ← state;
  hw_write (writel (mmio s + 4 * (offset / 4)) value);;
  _ ← hw_read (readl (mmio s + 4 * (REG_STATUS / 4)));
  mret tt.

(** The physical address and the pointer [*virtual_out]; [virtual_out] is the
    caller's variable, which keeps its value when there is no page. *)
Definition allocate_dma_page (virtual_out : Z) : act M (Z * Z) := fun m =>
  let '(physical, f) := pmm_alloc_frame (frames (tables m)) in
  let m := with_frames m f in
  if physical =? Prelude.UINT64_MAX then Some ((Prelude.UINT64_MAX, virtual_out), m)
  else
    let pointer := default 0 (paging_direct_pointer (paging_of m) physical) in
    if pointer =? 0 then
      Some ((Prelude.UINT64_MAX, virtual_out), with_frames m (snd (pmm_free_frame (frames (tables m)) physical)))
    else (zero_bytes pointer PMM_PAGE_SIZE;; mret (physical, pointer)) m.

(** [for (spin = 0; spin < TX_SPINS && (descriptor->status & DD) == 0; ++spin)] *)
Fixpoint wait_done (n : nat) (descriptor : Z) : act M unit :=
  match n with
  | O => mret tt
  | S n =>
      status ← hw_read (load 1 (descriptor + tx_status));
      if Z.land status TX_STATUS_DD =? 0 then wait_done n descriptor else mret tt
  end.

Definition e1000_transmit (frame : option (list Z)) (length : Z) : act M net_status_t :=
  s ← state;
  match frame with
  | None => mret NET_BAD_ARGUMENT
  | Some frame =>
      if negb (ready s) || (length =? 0) || (DMA_BUFFER_SIZE <? length) then mret NET_BAD_ARGUMENT
      else
        let index := tx_next s in
        let descriptor := tx_ring s + DESC_SIZE * index in
        wait_done (Z.to_nat TX_SPINS) descriptor;;
        status ← hw_read (load 1 (descriptor + tx_status));
        if Z.land status TX_STATUS_DD =? 0 then mret NET_DRIVER_ERROR
        else
          buffer ← lift (rd (tx_buffer s) index);
          copy_bytes buffer frame length;;
          hw_write (store 2 (descriptor + tx_length) (u16 length));;
          hw_write (store 1 (descriptor + tx_checksum_offset) 0);;
          hw_write (store 1 (descriptor + tx_command) (Z.lor (Z.lor TX_CMD_EOP TX_CMD_IFCS) TX_CMD_RS));;
          hw_write (store 1 (descriptor + tx_status) 0);;
          hw_write (store 1 (descriptor + tx_checksum_start) 0);;
          hw_write (store 2 (descriptor + tx_special) 0);;
          update (fun s => set_next (rx_next s) (u32 (index + 1) mod TX_COUNT) s);;
          s ← state;
          reg_write REG_TDT (tx_next s);;
          wait_done (Z.to_nat TX_SPINS) descriptor;;
          status ← hw_read (load 1 (descriptor + tx_status));
          mret (if negb (Z.land status TX_STATUS_DD =? 0) then NET_OK else NET_DRIVER_ERROR)
  end.

Fixpoint rx_buffers_loop (n : nat) (i : Z) : act M e1000_status_t :=
  match n with
  | O => mret E1000_OK
  | S n =>
      page ← allocate_dma_page 0;
      s ← state;
      phys ← lift (wr (rx_buffer_phys s) i page.1);
      update (set_rx_buffers phys (rx_buffer s));;
      if page.1 =? Prelude.UINT64_MAX then mret E1000_NO_MEMORY
      else
        ps ← lift (wr (rx_buffer s) i page.2);
        update (set_rx_buffers phys ps);;
        hw_write (store 8 (rx_ring s + DESC_SIZE * i + rx_address) page.1);;
        hw_write (store 1 (rx_ring s + DESC_SIZE * i + rx_status) 0);;
        rx_buffers_loop n (i + 1)
  end.

Fixpoint tx_buffers_loop (n : nat) (i : Z) : act M e1000_status_t :=
  match n with
  | O => mret E1000_OK
  | S n =>
      page ← allocate_dma_page 0;
      s ← state;
      phys ← lift (wr (tx_buffer_phys s) i page.1);
      update (set_tx_buffers phys (tx_buffer s));;
      if page.1 =? Prelude.UINT64_MAX then mret E1000_NO_MEMORY
      else
        ps ← lift (wr (tx_buffer s) i page.2);
        update (set_tx_buffers phys ps);;
        hw_write (store 8 (tx_ring s + DESC_SIZE * i + tx_address) page.1);;
        hw_write (store 1 (tx_ring s + DESC_SIZE * i + tx_status) TX_STATUS_DD);;
        tx_buffers_loop n (i + 1)
  end.

(** The registers that [setup_rings] writes once the memory is there. *)
Definition program_rings : act M e1000_status_t :=
  s ← state;
  reg_write REG_RDBAL (u32 (rx_ring_phys s));;
  reg_write REG_RDBAH (u32 (Z.shiftr (rx_ring_phys s) 32));;
  reg_write REG_RDLEN (RX_COUNT * DESC_SIZE);;
  reg_write REG_RDH 0;;
  reg_write REG_RDT (RX_COUNT - 1);;
  reg_write REG_TDBAL (u32 (tx_ring_phys s));;
  reg_write REG_TDBAH (u32 (Z.shiftr (tx_ring_phys s) 32));;
  reg_write REG_TDLEN (TX_COUNT * DESC_SIZE);;
  reg_write REG_TDH 0;;
  reg_write REG_TDT 0;;
  update (set_next 0 0);;
  reg_write REG_TIPG 0x0060200a;;
  reg_write REG_TCTL (Z.lor (Z.lor (Z.lor (Z.lor TCTL_EN TCTL_PSP) TCTL_RTLC) (Z.shiftl 15 4)) (Z.shiftl 64 12));;
  reg_write REG_RCTL (Z.lor (Z.lor RCTL_EN RCTL_BAM) RCTL_SECRC);;
  mret E1000_OK.

Definition setup_rings : act M e1000_status_t :=
  page ← allocate_dma_page 0;
  s ← state;
  update (set_rx_ring page.1 (rx_ring s));;
  if page.1 =? Prelude.UINT64_MAX then mret E1000_NO_MEMORY
  else
    update (set_rx_ring page.1 page.2);;
    page ← allocate_dma_page 0;
    s ← state;
    update (set_tx_ring page.1 (tx_ring s));;
    if page.1 =? Prelude.UINT64_MAX then mret E1000_NO_MEMORY
    else
      update (set_tx_ring page.1 page.2);;
      status ← rx_buffers_loop (Z.to_nat RX_COUNT) 0;
      if negb (bool_decide (status = E1000_OK)) then mret status
      else
        status ← tx_buffers_loop (Z.to_nat TX_COUNT) 0;
        if negb (bool_decide (status = E1000_OK)) then mret status else program_rings.

(** [for (spin = 0; spin < RESET_SPINS; ++spin)]: whether the reset bit cleared. *)
Fixpoint reset_loop (n : nat) : act M bool :=
  match n with
  | O => mret false
  | S n =>
      ctrl ← reg_read REG_CTRL;
      if Z.land ctrl CTRL_RST =? 0 then mret true else reset_loop n
  end.

Fixpoint clear_mta (n : nat) (i : Z) : act M unit :=
  match n with O => mret tt | S n => reg_write (REG_MTA + i * 4) 0;; clear_mta n (i + 1) end.

(** The part of [e1000_init] from the first register write to [setup_rings]. *)
Definition start_card : act M e1000_status_t :=
  reg_write REG_IMC 0xffffffff;;
  _ ← reg_read REG_ICR;
  ctrl ← reg_read REG_CTRL;
  reg_write REG_CTRL (Z.lor ctrl CTRL_RST);;
  reset ← reset_loop (Z.to_nat RESET_SPINS);
  if negb reset then mret E1000_RESET_TIMEOUT
  else
    reg_write REG_IMC 0xffffffff;;
    _ ← reg_read REG_ICR;
    ctrl ← reg_read REG_CTRL;
    reg_write REG_CTRL (Z.lor ctrl CTRL_SLU);;
    ral ← reg_read REG_RAL0;
    rah ← reg_read REG_RAH0;
    update (set_mac [u8 ral; u8 (Z.shiftr ral 8); u8 (Z.shiftr ral 16); u8 (Z.shiftr ral 24); u8 rah; u8 (Z.shiftr rah 8)]);;
    s ← state;
    valid ← lift (mac_valid (mac s));
    if negb valid then mret E1000_BAD_MAC
    else
      reg_write REG_RAL0 ral;;
      reg_write REG_RAH0 (Z.lor (Z.land rah 0xffff) (Z.shiftl 1 31));;
      clear_mta 128 0;;
      setup_rings.

(** The part of [e1000_init] that enables and maps the card. *)
Definition map_card (device : pci_device_t) : act M e1000_status_t := fun m =>
  let '(status, d) := pci_enable_memory_busmaster (Some device) (hw m) in
  let m := with_hw m d in
  match status with
  | PCI_OK =>
      match pci_decode_bar (Some device) 0 with
      | None => None
      | Some (PCI_OK, Some bar) =>
          if is_io bar || (base bar =? 0) then Some (E1000_PCI_ERROR, m)
          else
            let '(p, ps, w) := paging_map_mmio (paging_of m) (base bar) E1000_MMIO_SIZE (tables m) in
            let m := mk_machine (set_mmio (default 0 p) (card m)) ps w (hw m) (upper m) in
            Some (if default 0 p =? 0 then E1000_MMIO_ERROR else E1000_OK, m)
      | Some _ => Some (E1000_PCI_ERROR, m)
      end
  | _ => Some (E1000_PCI_ERROR, m)
  end.

Definition find_card (pci : pci_state) : act M e1000_status_t :=
  update (fun _ => zero_state);;
  device ← lift (pci_find_device pci E1000_VENDOR_INTEL E1000_DEVICE_82540EM);
  match device with None => mret E1000_NOT_FOUND | Some device => map_card device end.

(** The driver's entry in the device table.  A call with undefined behaviour
    has no result; it is given one here, and the theorems show there is none. *)
Definition transmit_entry (frame : list Z) (length : Z) (m : M) : net_status_t * M :=
  default (NET_DRIVER_ERROR, m) (e1000_transmit (Some frame) length m).

Definition device_config (s : e1000_state_t) : option (net_device_config_t M) :=
  name ← Net.copy_bytes (replicate 16 0) (chars "e1000" ++ [0]) 6;
  m ← Net.copy_bytes (replicate 6 0) (mac s) 6;
  Some (mk_net_config name m 1500 true (Some (driver_transmit_fn transmit_entry))).

#[local] Abbreviation N := (net_state M).

(** A driver operation, on the network's state. *)
Definition on_world {A} (c : act M A) : act N A := fun s =>
  match c (world s) with Some (a, m) => Some (a, set_world s m) | None => None end.

(** The end of [e1000_init]; [net_register_device] writes [state.net_device_id]. *)
Definition register_card (out : option Z) : act N (e1000_status_t * option Z) := fun s =>
  let st := card (world s) in
  match device_config st with
  | None => None
  | Some config =>
      match net_register_device s (Some config) (Some (net_device_id st)) with
      | None => None
      | Some (status, s, id) =>
          let id := default (net_device_id st) id in
          let ok := bool_decide (status = NET_OK) in
          let s := set_world s (with_card (world s) (set_ready id ok (card (world s)))) in
          Some (if ok then (E1000_OK, Some id) else (E1000_NET_REGISTER_ERROR, out), s)
      end
  end.

Definition e1000_init (pci : pci_state) (net_device_id_out : option Z) : act N (e1000_status_t * option Z) :=
  match net_device_id_out with
  | None => mret (E1000_PCI_ERROR, None)
  | Some _ =>
      status ← on_world (find_card pci);
      if negb (bool_decide (status = E1000_OK)) then mret (status, net_device_id_out)
      else
        ring_status ← on_world start_card;
        if negb (bool_decide (ring_status = E1000_OK)) then mret (ring_status, net_device_id_out)
        else
          register_card net_device_id_out
  end.

(** The bytes behind a pointer, as the receiver of a frame reads them. *)
Fixpoint load_bytes (n : nat) (p : Z) : act M (list Z) :=
  match n with
  | O => mret []
  | S n => b ← hw_read (load 1 p); l ← load_bytes n (p + 1); mret (b :: l)
  end.

Definition deliver (id buffer : Z) (frame : list Z) (length : Z) : act N unit := fun n =>
  match net_receive n id (if buffer =? 0 then None else Some frame) length with
  | Some (_, n) => Some (tt, n)
  | None => None
  end.

Definition recycle (descriptor : Z) : act N unit :=
  on_world (hw_write (store 1 (descriptor + rx_status) 0));;
  on_world (hw_write (store 1 (descriptor + rx_errors) 0));;
  s ← on_world state;
  on_world (reg_write REG_RDT (rx_next s));;
  on_world (update (fun s => set_next (u32 (rx_next s + 1) mod RX_COUNT) (tx_next s) s)).

(** One round of the loop of [e1000_poll]; false when there was no frame. *)
Definition poll_round : act N bool :=
  s ← on_world state;
  let descriptor := rx_ring s + DESC_SIZE * rx_next s in
  status ← on_world (hw_read (load 1 (descriptor + rx_status)));
  if Z.land status RX_STATUS_DD =? 0 then mret false
  else
    length ← on_world (hw_read (load 2 (descriptor + rx_length)));
    status ← on_world (hw_read (load 1 (descriptor + rx_status)));
    errors ← on_world (hw_read (load 1 (descriptor + rx_errors)));
    (if negb (Z.land status RX_STATUS_EOP =? 0) && (errors =? 0) && (14 <=? length) && (length <=? DMA_BUFFER_SIZE)
     then
       buffer ← lift (rd (rx_buffer s) (rx_next s));
       frame ← on_world (load_bytes (Z.to_nat length) buffer);
       deliver (net_device_id s) buffer frame length
     else mret tt);;
    recycle descriptor;;
    mret true.

(** [for (;;)]; the loop runs for as long as the card has frames, and [fuel]
    bounds the rounds. *)
Fixpoint poll_loop (fuel : nat) : act N unit :=
  match fuel with
  | O => fun _ => None
  | S fuel => more ← poll_round; if (more : bool) then poll_loop fuel else mret tt
  end.

Definition e1000_poll (fuel : nat) : act N unit :=
  s ← on_world state;
  if negb (ready s) then mret tt else poll_loop fuel.

Definition e1000_link_up : act M bool :=
  s ← state;
  if negb (ready s) then mret false
  else status ← reg_read REG_STATUS; mret (negb (Z.land status STATUS_LU =? 0)).

Definition e1000_mac_address (s : e1000_state_t) : option (list Z) := if ready s then Some (mac s) else None.
End Driver.

Definition e1000_status_string (status : e1000_status_t) : string :=
  match status with
  | E1000_OK => "ok"
  | E1000_NOT_FOUND => "82540EM not found"
  | E1000_PCI_ERROR => "PCI setup failed"
  | E1000_MMIO_ERROR => "MMIO mapping failed"
  | E1000_RESET_TIMEOUT => "reset timed out"
  | E1000_NO_MEMORY => "DMA memory unavailable"
  | E1000_BAD_MAC => "invalid MAC address"
  | E1000_NET_REGISTER_ERROR => "network registration failed"
  | E1000_TX_TIMEOUT => "transmit timed out"
  end.

(** ** Any card *)

(** One access to memory or a register, or to a port, with the value that was
    read or written. *)
Inductive event := Load (w a v : Z) | Store (w a v : Z) | In (p v : Z) | Out (p v : Z).

(** What the hardware answers, given all accesses so far, the newest first. *)
Record device := mk_device { on_load : list event -> Z -> Z -> Z; on_port : list event -> Z -> Z }.

Record io (dev : device) := mk_io { trace : list event }.
Arguments mk_io {dev}.
Arguments trace {dev}.

Definition answer (dev : device) (t : list event) (w a : Z) : Z := on_load dev t w a mod 2 ^ (8 * w).

#[export] Instance io_memory dev : DmaMemory (io dev) := {|
  load w a d := let v := answer dev (trace d) w a in (v, mk_io (Load w a v :: trace d));
  store w a v d := mk_io (Store w a v :: trace d)
|}.

(** The driver uses no byte ports and no model-specific registers. *)
#[export] Instance io_hardware dev : Hardware (io dev) := {|
  readl a d := let v := answer dev (trace d) 4 a in (v, mk_io (Load 4 a v :: trace d));
  writel a v d := mk_io (Store 4 a v :: trace d);
  inb p d := (0, d);
  outb p v d := d;
  inl p d := let v := on_port dev (trace d) p mod 2 ^ 32 in (v, mk_io (In p v :: trace d));
  outl p v d := mk_io (Out p v :: trace d);
  rdmsr _ d := ((0, 0), d);
  wrmsr _ _ _ d := d
|}.

(** The stores of a run, the oldest first: width, address and value. *)
Fixpoint writes (t : list event) : list (Z * Z * Z) :=
  match t with
  | [] => []
  | Store w a v :: t => writes t ++ [(w, a, v)]
  | _ :: t => writes t
  end.

(** ** What the driver writes *)

Definition reg_store (s : e1000_state_t) (offset v : Z) : Z * Z * Z := (4, mmio s + 4 * (offset / 4), v).
Definition zero_stores (p n : Z) : list (Z * Z * Z) := (fun i => (1, p + i, 0)) <$> seqZ 0 n.
Definition copy_stores (p : Z) (bs : list Z) : list (Z * Z * Z) := imap (fun i b => (1, p + Z.of_nat i, b)) bs.

(** The pages of a ring from index [i] on, each a physical address and its
    pointer: cleared, and entered in the ring with the initial status [dd]. *)
Fixpoint ring_stores (ring i dd : Z) (pages : list (Z * Z)) : list (Z * Z * Z) :=
  match pages with
  | [] => []
  | (phys, p) :: pages =>
      zero_stores p PMM_PAGE_SIZE ++ [(8, ring + DESC_SIZE * i, phys); (1, ring + DESC_SIZE * i + 12, dd)] ++
      ring_stores ring (i + 1) dd pages
  end.

Definition program_stores (s : e1000_state_t) : list (Z * Z * Z) :=
  [ reg_store s 0x2800 (rx_ring_phys s mod 2 ^ 32); reg_store s 0x2804 (u32 (rx_ring_phys s / 2 ^ 32));
    reg_store s 0x2808 512; reg_store s 0x2810 0; reg_store s 0x2818 31;
    reg_store s 0x3800 (tx_ring_phys s mod 2 ^ 32); reg_store s 0x3804 (u32 (tx_ring_phys s / 2 ^ 32));
    reg_store s 0x3808 256; reg_store s 0x3810 0; reg_store s 0x3818 0;
    reg_store s 0x0410 0x0060200a; reg_store s 0x0400 0x010400fa; reg_store s 0x0100 0x04008002 ].

Definition rx_pages (s : e1000_state_t) : list (Z * Z) := zip (rx_buffer_phys s) (rx_buffer s).
Definition tx_pages (s : e1000_state_t) : list (Z * Z) := zip (tx_buffer_phys s) (tx_buffer s).
Definition dma_pages (s : e1000_state_t) : list (Z * Z) :=
  (rx_ring_phys s, rx_ring s) :: (tx_ring_phys s, tx_ring s) :: rx_pages s ++ tx_pages s.

Definition setup_stores (s : e1000_state_t) : list (Z * Z * Z) :=
  zero_stores (rx_ring s) PMM_PAGE_SIZE ++ zero_stores (tx_ring s) PMM_PAGE_SIZE ++
  ring_stores (rx_ring s) 0 0 (rx_pages s) ++ ring_stores (tx_ring s) 0 1 (tx_pages s) ++ program_stores s.

(** The sequence of a successful start, after the register window is mapped;
    [c1], [c2], [ral] and [rah] are what the card's registers held. *)
Definition start_stores (s : e1000_state_t) (c1 c2 ral rah : Z) : list (Z * Z * Z) :=
  [ reg_store s 0x00d8 0xffffffff; reg_store s 0 (Z.lor c1 (2 ^ 26));
    reg_store s 0x00d8 0xffffffff; reg_store s 0 (Z.lor c2 (2 ^ 6));
    reg_store s 0x5400 ral; reg_store s 0x5404 (Z.lor (rah mod 2 ^ 16) (2 ^ 31)) ] ++
  ((fun i => reg_store s (0x5200 + 4 * i) 0) <$> seqZ 0 128) ++ setup_stores s.

Definition descriptor_stores (d length : Z) : list (Z * Z * Z) :=
  [(2, d + 8, length); (1, d + 10, 0); (1, d + 11, 0x0b); (1, d + 12, 0); (1, d + 13, 0); (2, d + 14, 0)].

(** Stores, as the events they leave, the newest first. *)
Definition stored (l : list (Z * Z * Z)) : list event := reverse ((fun x => Store x.1.1 x.1.2 x.2) <$> l).

Lemma writes_app t1 t2 : writes (t1 ++ t2) = writes t2 ++ writes t1.
Proof. induction t1 as [| [] t1 IH]; cbn [writes app]; rewrite ?IH, ?app_nil_r, ?app_assoc; done. Qed.

Lemma writes_stored l : writes (stored l) = l.
Proof.
  induction l as [| [[w a] v] l IH]; [done |]. unfold stored in *. rewrite fmap_cons, reverse_cons, writes_app, IH. done.
Qed.

Lemma stored_app l1 l2 : stored (l1 ++ l2) = stored l2 ++ stored l1.
Proof. unfold stored. by rewrite fmap_app, reverse_app. Qed.

Lemma stored_cons x l : stored (x :: l) = stored l ++ [Store x.1.1 x.1.2 x.2].
Proof. apply (stored_app [x] l). Qed.

(** ** Reasoning about runs *)

(** [c] has no undefined behaviour from [w] and ends in [Q]. *)
Definition wp {W A} (c : act W A) (w : W) (Q : A -> W -> Prop) : Prop := exists a w', c w = Some (a, w') /\ Q a w'.

Lemma wp_ret {W A} (a : A) (w : W) (Q : A -> W -> Prop) : Q a w -> wp (mret a) w Q.
Proof. intros H. by exists a, w. Qed.

Lemma wp_bind {W A B} (c : act W A) (k : A -> act W B) w Q : wp c w (fun a w => wp (k a) w Q) -> wp (c ≫= k) w Q.
Proof. intros (a & w' & E & b & w'' & Ek & H). exists b, w''. unfold mbind, act_bind. by rewrite E. Qed.

Lemma wp_mono {W A} (c : act W A) w (P Q : A -> W -> Prop) : wp c w P -> (forall a w', P a w' -> Q a w') -> wp c w Q.
Proof. intros (a & w' & E & H) HPQ. exists a, w'. auto. Qed.

Lemma wp_lift {W A} (o : option A) a (w : W) (Q : A -> W -> Prop) : o = Some a -> Q a w -> wp (lift o) w Q.
Proof. intros -> H. by exists a, w. Qed.

Section Rules.
Context {dev : device} {U : Type}.
#[local] Abbreviation M := (machine (io dev) U).
Implicit Types (s : e1000_state_t) (p : paging_state) (w : Paging.world) (t : list event) (u : U).

Lemma wp_state s p w t u (Q : e1000_state_t -> M -> Prop) :
  Q s (mk_machine s p w (mk_io t) u) -> wp state (mk_machine s p w (mk_io t) u) Q.
Proof. intros H. by eexists _, _. Qed.

Lemma wp_update f s p w t u (Q : unit -> M -> Prop) :
  Q tt (mk_machine (f s) p w (mk_io t) u) -> wp (update f) (mk_machine s p w (mk_io t) u) Q.
Proof. intros H. by eexists _, _. Qed.

Lemma wp_store n a v s p w t u (Q : unit -> M -> Prop) :
  Q tt (mk_machine s p w (mk_io (Store n a v :: t)) u) -> wp (hw_write (store n a v)) (mk_machine s p w (mk_io t) u) Q.
Proof. intros H. by eexists _, _. Qed.

Lemma wp_load n a s p w t u (Q : Z -> M -> Prop) :
  (forall v, v = answer dev t n a -> Q v (mk_machine s p w (mk_io (Load n a v :: t)) u)) ->
  wp (hw_read (load n a)) (mk_machine s p w (mk_io t) u) Q.
Proof. intros H. eexists _, _. split; [done |]. by apply H. Qed.

Lemma wp_reg_read o s p w t u (Q : Z -> M -> Prop) :
  (forall v, 0 <= v < 2 ^ 32 -> Q v (mk_machine s p w (mk_io (Load 4 (mmio s + 4 * (o / 4)) v :: t)) u)) ->
  wp (reg_read o) (mk_machine s p w (mk_io t) u) Q.
Proof. intros H. eexists _, _. split; [done |]. apply H. by apply Z.mod_pos_bound. Qed.

Lemma wp_reg_write o v s p w t u (Q : unit -> M -> Prop) :
  (forall r, Q tt (mk_machine s p w (mk_io (Load 4 (mmio s + 8) r :: stored [reg_store s o v] ++ t)) u)) ->
  wp (reg_write o v) (mk_machine s p w (mk_io t) u) Q.
Proof. intros H. eexists _, _. split; [done |]. apply H. Qed.

Lemma zero_loop_spec n a s p w t u (Q : unit -> M -> Prop) :
  Q tt (mk_machine s p w (mk_io (stored (zero_stores a (Z.of_nat n)) ++ t)) u) ->
  wp (zero_loop n a) (mk_machine s p w (mk_io t) u) Q.
Proof.
  revert a t. induction n as [| n IH]; intros a t H; cbn [zero_loop]; [by apply wp_ret |].
  apply wp_bind, wp_store, IH. revert H. unfold zero_stores. rewrite seqZ_cons by lia. rewrite fmap_cons, stored_cons, <- app_assoc.
  replace (Z.pred (Z.of_nat (S n))) with (Z.of_nat n) by lia. rewrite <- (fmap_add_seqZ 1 0), <- list_fmap_compose.
  cbn [fst snd app]. rewrite Z.add_0_r. intros H.
  erewrite (list_fmap_ext _ _ _) in H; [exact H |]. intros i x _. cbn. f_equal. f_equal. lia.
Qed.

Lemma copy_out_spec n a bs i s p w t u (Q : unit -> M -> Prop) :
  0 <= i -> i + Z.of_nat n <= zlen bs ->
  Q tt (mk_machine s p w (mk_io (stored (copy_stores a (take n (drop (Z.to_nat i) bs))) ++ t)) u) ->
  wp (copy_out n a bs i) (mk_machine s p w (mk_io t) u) Q.
Proof.
  revert a i t. induction n as [| n IH]; intros a i t Hi Hn H; cbn [copy_out]; [by apply wp_ret |].
  destruct (rd_in_range bs i ltac:(lia)) as [b Eb]. apply wp_bind, (wp_lift _ b), wp_bind, wp_store, IH; [done | lia.. |].
  apply rd_lookup in Eb as [_ El].
  rewrite (drop_S _ _ _ El) in H. unfold copy_stores in *. cbn [take] in H. rewrite imap_cons, stored_cons, <- app_assoc in H. cbn [fst snd app] in H.
  rewrite Z.add_0_r in H. replace (Z.to_nat (i + 1)) with (S (Z.to_nat i)) by lia.
  erewrite imap_ext in H; [exact H |]. intros j x _. cbn. f_equal. f_equal. lia.
Qed.

(** A wait only polls the status of the descriptor. *)
Definition polls (d : Z) (l : list event) : Prop := Forall (fun e => exists v, e = Load 1 (d + 12) v) l.

Lemma wait_done_spec n d s p w t u (Q : unit -> M -> Prop) :
  (forall l, polls d l -> Q tt (mk_machine s p w (mk_io (l ++ t)) u)) ->
  wp (wait_done n d) (mk_machine s p w (mk_io t) u) Q.
Proof.
  revert t. induction n as [| n IH]; intros t H; cbn [wait_done].
  { apply wp_ret. apply (H []). apply Forall_nil_2. }
  apply wp_bind, wp_load. intros v _. if_case.
  - apply IH. intros l Hl. specialize (H (l ++ [Load 1 (d + tx_status) v])). rewrite <- app_assoc in H. apply H.
    apply Forall_app_2; [done |]. apply Forall_singleton. by eexists.
  - apply wp_ret. apply (H [_]). apply Forall_singleton. by eexists.
Qed.

Lemma reset_loop_spec n s p w t u (Q : bool -> M -> Prop) :
  (forall r l, writes l = [] -> Q r (mk_machine s p w (mk_io (l ++ t)) u)) ->
  wp (reset_loop n) (mk_machine s p w (mk_io t) u) Q.
Proof.
  revert t. induction n as [| n IH]; intros t H; cbn [reset_loop]; [by apply wp_ret, (H _ []) |].
  apply wp_bind, wp_reg_read. intros v _. if_case; [by apply wp_ret, (H _ [_]) |].
  apply IH. intros r l Hl. specialize (H r (l ++ [Load 4 (mmio s + 4 * (REG_CTRL / 4)) v])). rewrite <- app_assoc in H. apply H.
  rewrite writes_app. done.
Qed.

End Rules.

(** ** Transmission *)

(** A card that has been set up; the indices stay within the rings. *)
Record card_ok (s : e1000_state_t) : Prop := {
  ok_ready : ready s = true;
  ok_rx : zlen (rx_buffer s) = RX_COUNT;
  ok_tx : zlen (tx_buffer s) = TX_COUNT;
  ok_rx_next : 0 <= rx_next s < RX_COUNT;
  ok_tx_next : 0 <= tx_next s < TX_COUNT;
  ok_id : 0 <= net_device_id s;
  ok_pointers : Forall (fun b => b <> 0) (rx_buffer s)
}.

Definition is_done (status : Z) : bool := Z.odd status.

Lemma done_odd v : (Z.land v 1 =? 0) = negb (is_done v).
Proof. unfold is_done. change 1 with (Z.ones 1) at 1. rewrite Z.land_ones by lia. change (2 ^ 1) with 2. rewrite Zmod_odd. by destruct (Z.odd v). Qed.

(** The loads that found something in the receive ring. *)
Fixpoint found (s : e1000_state_t) (t : list event) : nat :=
  match t with
  | [] => 0
  | Load _ a v :: t => if (rx_ring s <=? a) && (a <? rx_ring s + DESC_SIZE * RX_COUNT) && is_done v then S (found s t) else found s t
  | _ :: t => found s t
  end.

Definition tx_desc (s : e1000_state_t) : Z := tx_ring s + DESC_SIZE * tx_next s.
Definition sent (s : e1000_state_t) : e1000_state_t := set_next (rx_next s) ((tx_next s + 1) mod TX_COUNT) s.

(** Either nothing was written, the last answer of the card being that the
    descriptor is still in use; or the card had said it was done, and then the
    bytes of the frame were put in the descriptor's buffer, the descriptor was
    filled in, the tail register advanced, and the status polled. *)
Definition transmit_post (s : e1000_state_t) (frame : list Z) (t : list event) (st : net_status_t) (s' : e1000_state_t)
    (t' : list event) : Prop :=
  exists before v, polls (tx_desc s) before /\
  if is_done v then
    exists buffer after r x, rd (tx_buffer s) (tx_next s) = Some buffer /\ polls (tx_desc s) after /\
    s' = sent s /\ st = (if is_done r then NET_OK else NET_DRIVER_ERROR) /\
    t' = Load 1 (tx_desc s + 12) r :: after ++ Load 4 (mmio s + 8) x ::
         stored (copy_stores buffer frame ++ descriptor_stores (tx_desc s) (zlen frame) ++ [reg_store s REG_TDT (tx_next s')]) ++
         Load 1 (tx_desc s + 12) v :: before ++ t
  else st = NET_DRIVER_ERROR /\ s' = s /\ t' = Load 1 (tx_desc s + 12) v :: before ++ t.

Section Transmit.
Context {dev : device} {U : Type}.
#[local] Abbreviation M := (machine (io dev) U).

Lemma transmit_spec s p w t (u : U) frame length (Q : net_status_t -> M -> Prop) :
  card_ok s -> 0 < length <= DMA_BUFFER_SIZE -> length <= zlen frame ->
  (forall st s' t', transmit_post s (take (Z.to_nat length) frame) t st s' t' -> Q st (mk_machine s' p w (mk_io t') u)) ->
  wp (e1000_transmit (Some frame) length) (mk_machine s p w (mk_io t) u) Q.
Proof.
  intros [Hrdy _ Htx _ Hnx _ _] Hlen Hfr H. unfold e1000_transmit. apply wp_bind, wp_state. unfold DMA_BUFFER_SIZE, TX_COUNT in *.
  rewrite Hrdy, (proj2 (Z.eqb_neq _ _)), (proj2 (Z.ltb_ge _ _)) by lia. cbn [negb orb]. fold (tx_desc s).
  apply wp_bind, wait_done_spec. intros before Hb. apply wp_bind, wp_load. intros v _. change TX_STATUS_DD with 1. rewrite done_odd.
  destruct (is_done v) eqn:Ev; cbn [negb].
  2: { apply wp_ret, H. exists before, v. rewrite Ev. done. }
  destruct (rd_in_range (tx_buffer s) (tx_next s) ltac:(lia)) as [buffer Ebuf].
  apply wp_bind, (wp_lift _ buffer); [done |]. apply wp_bind, copy_out_spec; [lia.. |]. cbn [drop Z.to_nat].
  do 6 apply wp_bind, wp_store. apply wp_bind, wp_update, wp_bind, wp_state, wp_bind, wp_reg_write. intros x.
  apply wp_bind, wait_done_spec. intros after Ha. apply wp_bind, wp_load. intros r _. rewrite done_odd, negb_involutive. apply wp_ret, H.
  exists before, v. split; [done |]. rewrite Ev. exists buffer, after, r, x. rewrite (u32_small (tx_next s + 1)) by lia.
  split; [done |]. split; [done |]. split; [done |]. split; [done |].
  assert (zlen (take (Z.to_nat length) frame) = length) as -> by (unfold zlen in *; rewrite length_take; lia).
  rewrite !stored_app, <- !app_assoc. rewrite (u16_small length) by lia. reflexivity.
Qed.

(** What the driver may write once the card runs: bytes of a transmit buffer,
    fields of a descriptor other than its address, and the tail registers,
    with an index of the ring. *)
Inductive lawful (s : e1000_state_t) : Z * Z * Z -> Prop :=
| lawful_buffer i b o v : rd (tx_buffer s) i = Some b -> 0 <= o < DMA_BUFFER_SIZE -> lawful s (1, b + o, v)
| lawful_tx i o n v : 0 <= i < TX_COUNT -> 8 <= o -> o + n <= DESC_SIZE -> lawful s (n, tx_ring s + DESC_SIZE * i + o, v)
| lawful_rx i o n v : 0 <= i < RX_COUNT -> 8 <= o -> o + n <= DESC_SIZE -> lawful s (n, rx_ring s + DESC_SIZE * i + o, v)
| lawful_tdt v : 0 <= v < TX_COUNT -> lawful s (reg_store s REG_TDT v)
| lawful_rdt v : 0 <= v < RX_COUNT -> lawful s (reg_store s REG_RDT v).

Lemma transmit_lawful s frame t st s' t' :
  card_ok s -> zlen frame <= DMA_BUFFER_SIZE -> transmit_post s frame t st s' t' ->
  exists es, writes t' = writes t ++ es /\ Forall (lawful s) es /\ (s' = s \/ s' = sent s).
Proof.
  intros [_ _ Htx _ Hnx _ _] Hlen (before & v & Hb & H).
  assert (forall d l, polls d l -> writes l = []) as Hp.
  { intros d l Hl. induction Hl as [| e l [x ->] _ IH]; [done | exact IH]. }
  destruct (is_done v).
  2: { destruct H as (_ & -> & ->). exists []. split; [| split; [apply Forall_nil_2 | by left]]. cbn [writes]. by rewrite writes_app, (Hp _ _ Hb). }
  destruct H as (buffer & after & r & x & Ebuf & Ha & -> & -> & ->).
  exists (copy_stores buffer frame ++ descriptor_stores (tx_desc s) (zlen frame) ++ [reg_store s REG_TDT (tx_next (sent s))]). split; [| split; [| by right]].
  { cbn [writes]. rewrite writes_app. cbn [writes]. rewrite writes_app. cbn [writes]. rewrite writes_app, writes_stored, (Hp _ _ Hb), (Hp _ _ Ha), !app_nil_r. done. }
  rewrite !Forall_app. split; [| split].
  - apply Forall_lookup_2. intros i e He. unfold copy_stores in He. apply list_lookup_imap_Some in He as (b & Hlk & ->).
    apply lookup_lt_Some in Hlk. eapply lawful_buffer; [done |]. unfold zlen in Hlen. lia.
  - unfold tx_desc, descriptor_stores. repeat apply Forall_cons_2; try apply Forall_nil_2;
      (apply lawful_tx; [done | lia | unfold DESC_SIZE; lia]).
  - apply Forall_singleton, lawful_tdt. cbn. by apply Z.mod_pos_bound.
Qed.
End Transmit.
