(* ===== verification/E1000Init.v ===== *)
(** * Starting the network card (kernel/src/e1000.c)

    The memory [setup_rings] takes and [e1000_init] from the device table to
    the registered network device: which stores reach the card's registers and
    which the memory shared with it, in every outcome. *)

From stdpp Require Import base numbers list sets strings.
From Stdlib Require Import ZArith Lia.
From S2P Require Import Prelude Bytes Boot Pmm Paging Cpu Pci Net E1000.

#[local] Open Scope Z_scope.

(** ** Memory for the card *)

Definition on_frame (f a : Z) : Prop := f <= a < f + PMM_PAGE_SIZE.

(** The frames [ps] were free in [f0] and have been taken, each once; [f] is
    what is left. *)
Record taken (f0 f : pmm_state) (ps : list Z) : Prop := {
  tk_inv : pmm_inv f;
  tk_managed : managed_ranges f = managed_ranges f0;
  tk_aligned : Forall (fun p => p mod PMM_PAGE_SIZE = 0) ps;
  tk_free : forall p a, p ∈ ps -> on_frame p a -> covers (free_ranges f0) a;
  tk_left : forall a, covers (free_ranges f) a <-> covers (free_ranges f0) a /\ forall p, p ∈ ps -> ~ on_frame p a;
  tk_once : NoDup ps
}.

Lemma taken_nil f : pmm_inv f -> taken f f [].
Proof.
  intros H. split; [done | done | apply Forall_nil_2 | by intros p a ?%not_elem_of_nil | | apply NoDup_nil_2].
  intros a. split; [| tauto]. intros Ha. split; [done |]. by intros p ?%not_elem_of_nil.
Qed.

Lemma alloc_taken f0 f ps p f' :
  taken f0 f ps -> pmm_alloc_frame f = (p, f') -> p <> Prelude.UINT64_MAX -> taken f0 f' (ps ++ [p]).
Proof.
  intros [Hinv Hman Hal Hfree Hleft Hone] E Hp. pose proof (alloc_frames_spec f 1 Hinv ltac:(lia)) as H. unfold pmm_alloc_frame in E. rewrite E in H.
  unfold alloc_post in H. change PMM_INVALID_FRAME with Prelude.UINT64_MAX in H. rewrite (proj2 (Z.eqb_neq _ _) Hp) in H.
  destruct H as (Hinv' & Hmod & _ & Hrun & Hcov & Hm' & _). assert (forall a, in_run p 1 a <-> on_frame p a) as Hr by (intros a; unfold in_run, on_frame; lia).
  split; [done | congruence | by apply Forall_app_2; [| apply Forall_singleton] | | |].
  - intros q a [Hq | ->%list_elem_of_singleton]%elem_of_app Ha; [by eapply Hfree |]. by apply Hleft, Hrun, Hr.
  - intros a. rewrite Hcov, Hleft, Hr. split.
    + intros [[Ha Hn] Hnp]. split; [done |]. intros q [Hq | ->%list_elem_of_singleton]%elem_of_app; auto.
    + intros [Ha Hn]. split; [split; [done |] |]; [intros q Hq |]; apply Hn; apply elem_of_app; [by left | right; by apply list_elem_of_singleton].
  - apply NoDup_app. split; [done |]. split; [| apply NoDup_singleton]. intros q Hq ->%list_elem_of_singleton.
    assert (on_frame p p) as Hpp by (unfold on_frame, PMM_PAGE_SIZE; lia). apply Hr, Hrun, Hleft in Hpp as [_ Hn]. apply (Hn p Hq). unfold on_frame, PMM_PAGE_SIZE. lia.
Qed.

(** Each page is a frame with the pointer of the direct map. *)
Definition pointed (p : paging_state) (pages : list (Z * Z)) : Prop :=
  Forall (fun x => paging_direct_pointer p x.1 = Some x.2 /\ x.2 <> 0) pages.

(** Stores in the register window or in one of the pages. *)
Definition in_window (s : e1000_state_t) (e : Z * Z * Z) : Prop := mmio s <= e.1.2 /\ e.1.2 + e.1.1 <= mmio s + E1000_MMIO_SIZE.
Definition in_page (x : Z * Z) (e : Z * Z * Z) : Prop := x.2 <= e.1.2 /\ e.1.2 + e.1.1 <= x.2 + PMM_PAGE_SIZE.
Definition confined (s : e1000_state_t) (pages : list (Z * Z)) (es : list (Z * Z * Z)) : Prop :=
  Forall (fun e => in_window s e \/ Exists (fun x => in_page x e) pages) es.

Lemma confined_app s pages es1 es2 : confined s pages (es1 ++ es2) <-> confined s pages es1 /\ confined s pages es2.
Proof. apply Forall_app. Qed.

Lemma zero_confined s pages x : x ∈ pages -> confined s pages (zero_stores x.2 PMM_PAGE_SIZE).
Proof.
  intros Hx. apply Forall_fmap, Forall_forall. intros i Hi%elem_of_seqZ. right. apply Exists_exists. exists x. split; [done |].
  unfold in_page. cbn. lia.
Qed.

Lemma ring_confined s pages ring i dd l :
  ring ∈ pages -> l ⊆ pages -> 0 <= i -> DESC_SIZE * (i + zlen l) <= PMM_PAGE_SIZE -> confined s pages (ring_stores ring.2 i dd l).
Proof.
  intros Hr. revert i. induction l as [| [phys q] l IH]; intros i Hl Hi Hlen; [apply Forall_nil_2 |]. cbn [ring_stores].
  rewrite zlen_cons in Hlen. pose proof (zlen_nonneg l). unfold DESC_SIZE, PMM_PAGE_SIZE in Hlen.
  apply confined_app. split; [apply (zero_confined s pages (phys, q)); set_solver |]. apply confined_app. split; [| apply IH; [set_solver | unfold DESC_SIZE, PMM_PAGE_SIZE; lia..]].
  repeat apply Forall_cons_2; try apply Forall_nil_2; right; apply Exists_exists; exists ring; (split; [done |]); unfold in_page, DESC_SIZE, PMM_PAGE_SIZE; cbn [fst snd]; lia.
Qed.

Definition reg_ok (o : Z) : Prop := 0 <= o /\ o + 4 <= E1000_MMIO_SIZE.

Lemma reg_confined s pages o v : reg_ok o -> confined s pages [reg_store s o v].
Proof.
  intros [H0 H1]. apply Forall_singleton. left. unfold in_window, reg_store. cbn [fst snd]. pose proof (Z.mul_div_le o 4 ltac:(lia)).
  pose proof (Z.div_pos o 4 H0 ltac:(lia)). lia.
Qed.

Section Setup.
Context {dev : device} {U : Type}.
#[local] Abbreviation M := (machine (io dev) U).

Lemma wp_reg o v s p w t u (Q : unit -> M -> Prop) :
  (forall t', writes t' = writes t ++ [reg_store s o v] -> Q tt (mk_machine s p w (mk_io t') u)) ->
  wp (reg_write o v) (mk_machine s p w (mk_io t) u) Q.
Proof. intros H. apply wp_reg_write. intros r. by apply H. Qed.

Lemma alloc_page_spec f0 pages s p w t u (Q : Z * Z -> M -> Prop) :
  taken f0 (frames w) pages.*1 -> pointed p pages ->
  (forall f, Q (Prelude.UINT64_MAX, 0) (mk_machine s p (mk_world (mem w) f) (mk_io t) u)) ->
  (forall phys q f, taken f0 f (pages ++ [(phys, q)]).*1 -> pointed p (pages ++ [(phys, q)]) -> phys <> Prelude.UINT64_MAX ->
     Q (phys, q) (mk_machine s p (mk_world (mem w) f) (mk_io (stored (zero_stores q PMM_PAGE_SIZE) ++ t)) u)) ->
  wp (allocate_dma_page 0) (mk_machine s p w (mk_io t) u) Q.
Proof.
  intros Ht Hp Hno Hyes. unfold wp, allocate_dma_page. cbn [tables]. destruct (pmm_alloc_frame (frames w)) as [phys f] eqn:E.
  destruct (Z.eqb_spec phys Prelude.UINT64_MAX) as [-> | Hne]; [eexists _, _; split; [done | apply Hno] |].
  cbn [paging_of with_frames]. destruct (Z.eqb_spec (default 0 (paging_direct_pointer p phys)) 0) as [| Hq]; [eexists _, _; split; [done | apply Hno] |].
  destruct (paging_direct_pointer p phys) as [q |] eqn:Eq; [| done]. cbn [default] in *. change (default 0 (Some q)) with q in *.
  fold (wp (zero_bytes q PMM_PAGE_SIZE;; mret (phys, q)) (mk_machine s p (mk_world (mem w) f) (mk_io t) u) Q).
  apply wp_bind, zero_loop_spec, wp_ret. apply (Hyes phys q f); [| | done].
  - rewrite fmap_app. by eapply alloc_taken.
  - apply Forall_app_2; [done |]. apply Forall_singleton. done.
Qed.

(** The pages [ys] that a loop adds, with the allocator at the end. *)
Definition loop_post (f0 : pmm_state) (p : paging_state) (pages ys : list (Z * Z)) (n : nat) (st : e1000_status_t) (f : pmm_state) : Prop :=
  pointed p (pages ++ ys) /\ (length ys <= n)%nat /\ (exists f1, taken f0 f1 (pages ++ ys).*1) /\
  (st = E1000_OK /\ length ys = n /\ taken f0 f (pages ++ ys).*1 \/ st = E1000_NO_MEMORY).

(** The two loops of [setup_rings] differ in the fields they fill. *)
Ltac ring_loop n pages xs w t :=
  revert pages xs w t; induction n as [| n IH]; intros pages xs w t Hl Hk Ht Hp H; cbn [rx_buffers_loop tx_buffers_loop];
  [ apply wp_ret; destruct w as [m f]; apply (H [] E1000_OK f); rewrite ?app_nil_r; [| done];
    unfold loop_post; rewrite app_nil_r; split; [done |]; split; [done |]; split; [by eexists | by left] |];
  assert (zlen xs.*1 = zlen xs) as E1 by (unfold zlen; by rewrite length_fmap);
  assert (zlen xs.*2 = zlen xs) as E2 by (unfold zlen; by rewrite length_fmap);
  apply wp_bind; eapply alloc_page_spec; [done | done | |];
  [ intros f; apply wp_bind, wp_state, wp_bind; eapply wp_lift; [cbn [rx_buffer_phys tx_buffer_phys rx_buffer tx_buffer set_rx_buffers set_tx_buffers fst snd]; rewrite <- E1; apply wr_filled; rewrite E1; unfold zlen; lia |];
    apply wp_bind, wp_update; cbn [fst]; rewrite Z.eqb_refl; apply wp_ret; apply (H [] E1000_NO_MEMORY); [| done];
    unfold loop_post; rewrite app_nil_r; split; [done |]; split; [apply Nat.le_0_l |]; split; [by eexists | by right]
  | intros phys q f Ht' Hp' Hne; apply wp_bind, wp_state, wp_bind; eapply wp_lift; [cbn [rx_buffer_phys tx_buffer_phys rx_buffer tx_buffer set_rx_buffers set_tx_buffers fst snd]; rewrite <- E1; apply wr_filled; rewrite E1; unfold zlen; lia |];
    apply wp_bind, wp_update; cbn [fst]; rewrite (proj2 (Z.eqb_neq _ _) Hne); apply wp_bind;
    eapply wp_lift; [cbn [rx_buffer_phys tx_buffer_phys rx_buffer tx_buffer set_rx_buffers set_tx_buffers fst snd]; rewrite <- E2; apply wr_filled; rewrite E2; unfold zlen; lia |];
    apply wp_bind, wp_update, wp_bind, wp_store, wp_bind, wp_store; cbn [snd]; unfold rx_address, tx_address; rewrite Z.add_0_r;
    rewrite <- (zlen_snoc xs (phys, q));
    change (xs.*1 ++ [phys]) with (xs.*1 ++ [(phys, q)].*1); change (xs.*2 ++ [q]) with (xs.*2 ++ [(phys, q)].*2); rewrite <- !fmap_app;
    eapply (IH (pages ++ [(phys, q)]) (xs ++ [(phys, q)])); [rewrite length_app; change (length [(phys, q)]) with 1%nat; lia | done | done | done |];
    intros ys st f' a b (Hq1 & Hq2 & Hq3 & Hq4) Hab; rewrite <- app_assoc in *; specialize (H ((phys, q) :: ys) st f' a b);
    cbn [ring_stores] in H; rewrite !stored_app, <- !app_assoc in H; rewrite zlen_snoc; apply H; [| done];
    split; [done |]; split; [cbn; lia |]; split; [done |]; destruct Hq4 as [(-> & Hn & Htk) | ->]; [left | by right];
    split; [done |]; split; [cbn; lia | done] ].

Lemma rx_buffers_spec n f0 pages xs l k s p w t u (Q : e1000_status_t -> M -> Prop) :
  (length xs + n = length l)%nat -> length k = length l -> taken f0 (frames w) pages.*1 -> pointed p pages ->
  (forall ys st f a b, loop_post f0 p pages ys n st f ->
     (st = E1000_OK -> a = filled l (xs ++ ys).*1 /\ b = filled k (xs ++ ys).*2) ->
     Q st (mk_machine (set_rx_buffers a b s) p (mk_world (mem w) f) (mk_io (stored (ring_stores (rx_ring s) (zlen xs) 0 ys) ++ t)) u)) ->
  wp (rx_buffers_loop n (zlen xs)) (mk_machine (set_rx_buffers (filled l xs.*1) (filled k xs.*2) s) p w (mk_io t) u) Q.
Proof. ring_loop n pages xs w t. Qed.

Lemma tx_buffers_spec n f0 pages xs l k s p w t u (Q : e1000_status_t -> M -> Prop) :
  (length xs + n = length l)%nat -> length k = length l -> taken f0 (frames w) pages.*1 -> pointed p pages ->
  (forall ys st f a b, loop_post f0 p pages ys n st f ->
     (st = E1000_OK -> a = filled l (xs ++ ys).*1 /\ b = filled k (xs ++ ys).*2) ->
     Q st (mk_machine (set_tx_buffers a b s) p (mk_world (mem w) f) (mk_io (stored (ring_stores (tx_ring s) (zlen xs) 1 ys) ++ t)) u)) ->
  wp (tx_buffers_loop n (zlen xs)) (mk_machine (set_tx_buffers (filled l xs.*1) (filled k xs.*2) s) p w (mk_io t) u) Q.
Proof. ring_loop n pages xs w t. Qed.

Ltac collect_writes :=
  repeat match goal with H : writes ?t = _ |- context [writes ?t] => rewrite H; clear H end; rewrite <- ?app_assoc.

Lemma program_rings_spec s p w t u (Q : e1000_status_t -> M -> Prop) :
  (forall t', writes t' = writes t ++ program_stores s -> Q E1000_OK (mk_machine (set_next 0 0 s) p w (mk_io t') u)) ->
  wp program_rings (mk_machine s p w (mk_io t) u) Q.
Proof.
  intros H. unfold program_rings. apply wp_bind, wp_state. do 10 (apply wp_bind, wp_reg; intros ? ?). apply wp_bind, wp_update.
  do 3 (apply wp_bind, wp_reg; intros ? ?). apply wp_ret, H. collect_writes. rewrite !Z.shiftr_div_pow2 by lia. reflexivity.
Qed.

(** The outcome of setting up the rings: the stores made, the pages used and,
    when it succeeds, that they are those of the card's state. *)
Definition setup_post (f0 : pmm_state) (p : paging_state) (s : e1000_state_t) (st : e1000_status_t) (s' : e1000_state_t)
    (f : pmm_state) (es : list (Z * Z * Z)) : Prop :=
  exists pages, pointed p pages /\ (exists f1, taken f0 f1 pages.*1) /\ confined s pages es /\
  mmio s' = mmio s /\ ready s' = ready s /\ mac s' = mac s /\ net_device_id s' = net_device_id s /\
  (st = E1000_OK /\ taken f0 f pages.*1 /\ pages = dma_pages s' /\ es = setup_stores s' /\
   zlen (rx_buffer_phys s') = RX_COUNT /\ zlen (rx_buffer s') = RX_COUNT /\
   zlen (tx_buffer_phys s') = TX_COUNT /\ zlen (tx_buffer s') = TX_COUNT /\ rx_next s' = 0 /\ tx_next s' = 0
   \/ st = E1000_NO_MEMORY).

Lemma filled_all (l xs : list Z) : length xs = length l -> filled l xs = xs.
Proof. intros H. unfold filled. by rewrite H, drop_all, app_nil_r. Qed.

Lemma program_confined s pages : confined s pages (program_stores s).
Proof.
  unfold program_stores, confined. repeat apply Forall_cons_2; try apply Forall_nil_2; left; unfold in_window, reg_store, E1000_MMIO_SIZE; cbn [fst snd];
    match goal with |- context [?a / 4] => let v := eval vm_compute in (a / 4) in change (a / 4) with v end; lia.
Qed.

Lemma rings_confined s r t rx tx :
  (length rx <= 32)%nat -> (length tx <= 16)%nat ->
  confined s (r :: t :: rx ++ tx) (zero_stores r.2 PMM_PAGE_SIZE ++ zero_stores t.2 PMM_PAGE_SIZE ++ ring_stores r.2 0 0 rx ++ ring_stores t.2 0 1 tx).
Proof.
  intros Hr Ht. rewrite !confined_app. split; [apply zero_confined; set_solver |]. split; [apply zero_confined; set_solver |].
  split; (apply ring_confined; [set_solver | set_solver | lia | unfold zlen, DESC_SIZE, PMM_PAGE_SIZE; lia]).
Qed.

Lemma setup_confined s s' pages : mmio s' = mmio s -> pages = dma_pages s' -> zlen (rx_pages s') = RX_COUNT -> zlen (tx_pages s') = TX_COUNT -> confined s pages (setup_stores s').
Proof.
  intros Hm -> Hr Ht. assert (confined s' (dma_pages s') (setup_stores s')) as H; [| unfold confined, in_window in *; by rewrite Hm in H].
  unfold setup_stores. rewrite !(app_assoc _ _ (program_stores s')), confined_app. split; [| apply program_confined].
  apply (rings_confined s' (rx_ring_phys s', rx_ring s') (tx_ring_phys s', tx_ring s')); unfold zlen, RX_COUNT, TX_COUNT in *; lia.
Qed.

Lemma rx_fill s : s = set_rx_buffers (filled (rx_buffer_phys s) []) (filled (rx_buffer s) []) s.
Proof. by destruct s. Qed.
Lemma tx_fill s : s = set_tx_buffers (filled (tx_buffer_phys s) []) (filled (tx_buffer s) []) s.
Proof. by destruct s. Qed.

Lemma setup_ok f0 p s rp rq tp tq rx tx f :
  let s' := set_next 0 0 (set_tx_buffers tx.*1 tx.*2 (set_rx_buffers rx.*1 rx.*2 (set_tx_ring tp tq (set_rx_ring rp rq s)))) in
  let pages := (rp, rq) :: (tp, tq) :: rx ++ tx in
  length rx = 32%nat -> length tx = 16%nat -> pointed p pages -> taken f0 f pages.*1 ->
  setup_post f0 p s E1000_OK s' f
    (zero_stores rq PMM_PAGE_SIZE ++ zero_stores tq PMM_PAGE_SIZE ++ ring_stores rq 0 0 rx ++ ring_stores tq 0 1 tx ++ program_stores s').
Proof.
  intros s' pages Lr Lt P T. assert (rx_pages s' = rx) as Er by apply zip_fst_snd. assert (tx_pages s' = tx) as Et by apply zip_fst_snd.
  assert (dma_pages s' = pages) as Ed by (unfold dma_pages; by rewrite Er, Et).
  assert (setup_stores s' = zero_stores rq PMM_PAGE_SIZE ++ zero_stores tq PMM_PAGE_SIZE ++ ring_stores rq 0 0 rx ++ ring_stores tq 0 1 tx ++ program_stores s') as <-
    by (unfold setup_stores; by rewrite Er, Et).
  exists pages. split; [exact P |]. split; [by eexists |].
  assert (zlen rx = 32) as Zr by (unfold zlen; lia). assert (zlen tx = 16) as Zt by (unfold zlen; lia).
  split; [apply setup_confined; [done | done | by rewrite Er | by rewrite Et] |]. repeat (split; [done |]).
  assert (forall A B (g : A -> B) l, zlen (g <$> l) = zlen l) as Zf by (intros; unfold zlen; by rewrite length_fmap).
  left. split; [done |]. split; [exact T |]. split; [done |]. split; [done |].
  split; [exact (eq_trans (Zf _ _ _ _) Zr) |]. split; [exact (eq_trans (Zf _ _ _ _) Zr) |]. split; [exact (eq_trans (Zf _ _ _ _) Zt) |]. split; [exact (eq_trans (Zf _ _ _ _) Zt) | done].
Qed.

Lemma setup_rings_spec s p w t u (Q : e1000_status_t -> M -> Prop) :
  pmm_inv (frames w) -> length (rx_buffer_phys s) = 32%nat -> length (rx_buffer s) = 32%nat ->
  length (tx_buffer_phys s) = 16%nat -> length (tx_buffer s) = 16%nat ->
  (forall st s' f t' es, setup_post (frames w) p s st s' f es -> writes t' = writes t ++ es ->
     Q st (mk_machine s' p (mk_world (mem w) f) (mk_io t') u)) ->
  wp setup_rings (mk_machine s p w (mk_io t) u) Q.
Proof.
  intros Hinv L1 L2 L3 L4 H. unfold setup_rings. apply wp_bind.
  apply (alloc_page_spec (frames w) []); [by apply taken_nil | apply Forall_nil_2 | |].
  { intros f. apply wp_bind, wp_state, wp_bind, wp_update, wp_ret. eapply H; [| symmetry; apply app_nil_r]. exists [].
    split; [apply Forall_nil_2 |]. split; [eexists; by apply taken_nil |]. split; [apply Forall_nil_2 |]. repeat (split; [done |]). by right. }
  intros rp rq f1 T1 P1 N1. apply wp_bind, wp_state, wp_bind, wp_update. cbn [fst snd]. rewrite (proj2 (Z.eqb_neq _ _) N1).
  apply wp_bind, wp_update, wp_bind. eapply alloc_page_spec; [exact T1 | exact P1 | |].
  { intros f. apply wp_bind, wp_state, wp_bind, wp_update, wp_ret. eapply H; [| by rewrite writes_app, writes_stored]. exists [(rp, rq)].
    split; [done |]. split; [by eexists |]. split; [apply (zero_confined _ _ (rp, rq)), elem_of_cons; by left |]. repeat (split; [done |]). by right. }
  intros tp tq f2 T2 P2 N2. apply wp_bind, wp_state, wp_bind, wp_update. cbn [fst snd]. rewrite (proj2 (Z.eqb_neq _ _) N2).
  apply wp_bind, wp_update, wp_bind. cbn [app] in T2, P2. set (s1 := set_tx_ring tp tq _). rewrite (rx_fill s1).
  eapply (rx_buffers_spec 32 (frames w) [(rp, rq); (tp, tq)] []); [cbn; lia | cbn; lia | exact T2 | exact P2 |].
  intros rx st f3 a b (P3 & Lr & (f3' & T3) & Hst) Hab. cbn [app zlen length] in *.
  destruct Hst as [(-> & Lr' & T3') | ->]; cbn [bool_decide decide negb].
  2: { apply wp_ret. eapply H; [| rewrite !writes_app, !writes_stored, <- !app_assoc; reflexivity]. eexists. split; [exact P3 |]. split; [by eexists |].
       split; [| repeat (split; [done |]); by right].
       pose proof (rings_confined s (rp, rq) (tp, tq) rx [] Lr (Nat.le_0_l _)) as C. cbn [ring_stores] in C. by rewrite !app_nil_r in C. }
  destruct (Hab eq_refl) as [-> ->]. apply wp_bind. set (s2 := set_rx_buffers _ _ s1). rewrite (tx_fill s2).
  eapply (tx_buffers_spec 16 (frames w) ((rp, rq) :: (tp, tq) :: rx) []); [cbn; lia | cbn; lia | exact T3' | exact P3 |].
  intros tx st f4 a b (P4 & Lt & (f4' & T4) & Hst) Hab'. cbn [app zlen length] in *.
  destruct Hst as [(-> & Lt' & T4') | ->]; cbn [bool_decide decide negb].
  2: { apply wp_ret. eapply H; [| rewrite !writes_app, !writes_stored, <- !app_assoc; reflexivity]. eexists. split; [exact P4 |]. split; [by eexists |].
       split; [| repeat (split; [done |]); by right].
       exact (rings_confined s (rp, rq) (tp, tq) rx tx Lr Lt). }
  destruct (Hab' eq_refl) as [-> ->].
  apply program_rings_spec. intros t' Ht'. eapply H; [| rewrite Ht', !writes_app, !writes_stored, <- !app_assoc; reflexivity].
  assert (filled (rx_buffer_phys s) rx.*1 = rx.*1) as F1 by (apply filled_all; rewrite length_fmap; lia).
  assert (filled (rx_buffer s) rx.*2 = rx.*2) as F2 by (apply filled_all; rewrite length_fmap; lia).
  assert (filled (tx_buffer_phys s) tx.*1 = tx.*1) as F3 by (apply filled_all; rewrite length_fmap; lia).
  assert (filled (tx_buffer s) tx.*2 = tx.*2) as F4 by (apply filled_all; rewrite length_fmap; lia).
  subst s2 s1. cbn [rx_buffer_phys rx_buffer tx_buffer_phys tx_buffer set_rx_buffers set_tx_buffers set_rx_ring set_tx_ring] in *. rewrite F1, F2, F3, F4.
  exact (setup_ok (frames w) p s rp rq tp tq rx tx f4 Lr' Lt' P4 T4').
Qed.
End Setup.

(** ** Initialisation *)

Definition mac_bytes (ral rah : Z) : list Z :=
  [u8 ral; u8 (Z.shiftr ral 8); u8 (Z.shiftr ral 16); u8 (Z.shiftr ral 24); u8 rah; u8 (Z.shiftr rah 8)].

(** The address of one station: not zero, not all ones, not a group's. *)
Definition unicast (m : list Z) : Prop :=
  Exists (fun b => b <> 0) m /\ Exists (fun b => b <> 0xff) m /\ exists b, head m = Some b /\ Z.even b = true.

Lemma mac_loop_spec l nonzero all_ff :
  let r := mac_loop l nonzero all_ff in
  (r.1 = 0 <-> nonzero = 0 /\ Forall (fun b => b = 0) l) /\ (r.2 = true <-> all_ff = true /\ Forall (fun b => b = 0xff) l).
Proof.
  revert nonzero all_ff. induction l as [| b l IH]; intros nz ff; cbn [mac_loop fst snd].
  { split; (split; [| tauto]); intros H; (split; [done | apply Forall_nil_2]). }
  destruct (IH (Z.lor nz b) (if negb (b =? 0xff) then false else ff)) as [IH1 IH2]. cbn zeta. rewrite IH1, IH2, !Forall_cons, Z.lor_eq_0_iff.
  split; [tauto |]. destruct (Z.eqb_spec b 0xff); cbn [negb]; intuition congruence.
Qed.

Lemma exists_other (c : Z) (m : list Z) : Exists (fun b => b <> c) m <-> ~ Forall (fun b => b = c) m.
Proof.
  induction m as [| b m IH]; [rewrite Exists_nil, Forall_nil; tauto |]. rewrite Exists_cons, Forall_cons, IH. destruct (decide (b = c)); tauto.
Qed.

Lemma mac_valid_spec m : length m = 6%nat -> exists v, mac_valid m = Some v /\ (v = true <-> unicast m).
Proof.
  intros Hl. unfold mac_valid. rewrite take_ge by lia. pose proof (mac_loop_spec m 0 true) as H. destruct (mac_loop m 0 true) as [nz ff]. cbn in H.
  destruct m as [| b m]; [done |]. cbn [rd]. eexists. split; [reflexivity |]. destruct H as [H1 H2]. unfold unicast.
  rewrite !exists_other, !andb_true_iff, !negb_true_iff, Z.eqb_neq. cbn [head].
  change 1 with (Z.ones 1). rewrite Z.land_ones by lia. change (2 ^ 1) with 2. rewrite Zmod_even. 
  assert (ff = false <-> ff <> true) as -> by (destruct ff; intuition congruence). rewrite H1, H2.
  assert (((if Z.even b then 0 else 1) =? 0) = true <-> exists b0, Some b = Some b0 /\ Z.even b0 = true) as ->.
  { destruct (Z.even b) eqn:E; cbn; split; [by exists b | done | done |]. intros (b0 & [= <-] & E0). congruence. }
  unfold not. cbn. intuition.
Qed.

(** The card's devices: six base address registers of 32 bits each. *)
Definition pci_table_ok (pci : pci_state) : Prop :=
  0 <= Pci.device_count pci <= zlen (Pci.devices pci) /\
  Forall (fun d => zlen (bars d) = 6 /\ Forall (fun b => 0 <= b < 2 ^ 32) (bars d)) (Pci.devices pci).

Lemma find_device_total n l i vendor d : 0 <= i -> i + Z.of_nat n <= zlen l ->
  exists r, find_device_loop n l i vendor d = Some r /\ (forall x, r = Some x -> x ∈ l).
Proof.
  revert i. induction n as [| n IH]; intros i Hi Hn; cbn [find_device_loop]; [by exists None |].
  destruct (rd_in_range l i ltac:(lia)) as [x Ex]. rewrite Ex. cbn. if_case; [| apply IH; lia].
  eexists. split; [done |]. intros ? [= <-]. apply rd_lookup in Ex as [_ Ex]. by eapply list_elem_of_lookup_2.
Qed.

Lemma lor_64 a b : 0 <= a < 2 ^ 64 -> 0 <= b < 2 ^ 64 -> 0 <= Z.lor a b < 2 ^ 64.
Proof.
  intros Ha Hb. assert (0 <= Z.lor a b) as H by (apply Z.lor_nonneg; lia). split; [done |].
  destruct (decide (Z.lor a b = 0)) as [-> | Hne]; [lia |]. apply Z.log2_lt_pow2; [lia |]. rewrite Z.log2_lor by lia.
  assert (forall x, 0 <= x < 2 ^ 64 -> Z.log2 x < 64) as Hl; [| pose proof (Hl a Ha); pose proof (Hl b Hb); lia].
  intros x Hx. destruct (decide (x = 0)) as [-> | ?]; [done |]. apply Z.log2_lt_pow2; lia.
Qed.

Lemma land_32 a m : 0 <= a < 2 ^ 32 -> 0 <= Z.land a m < 2 ^ 32.
Proof.
  intros Ha. rewrite <- (Z.mod_small a (2 ^ 32)) by lia. rewrite <- (Z.land_ones a 32) by lia. rewrite <- Z.land_assoc, (Z.land_comm _ m), Z.land_assoc, Z.land_ones by lia.
  by apply Z.mod_pos_bound.
Qed.

Lemma decode_bar0 d : zlen (bars d) = 6 -> Forall (fun b => 0 <= b < 2 ^ 32) (bars d) ->
  exists st bar, pci_decode_bar (Some d) 0 = Some (st, bar) /\ (forall x, bar = Some x -> 0 <= base x < 2 ^ 64).
Proof.
  intros Hl HF. unfold pci_decode_bar. change (6 <=? 0) with false. change (5 <=? 0) with false. cbv iota.
  destruct (rd_in_range (bars d) 0 ltac:(lia)) as [low El]. destruct (rd_in_range (bars d) (0 + 1) ltac:(lia)) as [high Eh]. rewrite El, Eh. cbn [mbind option_bind].
  assert (forall i x, rd (bars d) i = Some x -> 0 <= x < 2 ^ 32) as Hx.
  { intros i x [_ Ex]%rd_lookup. rewrite Forall_forall in HF. apply HF. by eapply list_elem_of_lookup_2. }
  pose proof (Hx _ _ El) as Hlow. pose proof (land_32 low (u32 (Z.lnot 3)) Hlow) as H1. pose proof (land_32 low (u32 (Z.lnot 0x0f)) Hlow) as H2.
  repeat if_case; eexists _, _; (split; [reflexivity |]); intros x Ex; inversion Ex; subst; cbn [base]; try lia.
  apply lor_64; [lia |]. unfold u64. by apply Z.mod_pos_bound.
Qed.

Lemma enable_writes {dev} d (h : io dev) :
  exists st h', pci_enable_memory_busmaster (Some d) h = (st, h') /\ writes (trace h') = writes (trace h).
Proof. unfold pci_enable_memory_busmaster. cbn. if_case; by eexists _, _. Qed.

Lemma running_taken boot p w f ps : running boot p w -> taken (frames w) f ps -> running boot p (mk_world (mem w) f).
Proof.
  intros [Hb [T HT] Hm Ht] Htk. split; [done | | done | done]. exists T. destruct HT as [H1 H2 H3 H4 H5 H6 [_ H7]].
  split; [done | done | | done | done | done |].
  - intros q g a Hq Ha Hc. apply (tk_left _ _ _ Htk) in Hc as [Hc _]. by eapply H3.
  - split; [apply Htk |]. cbn [frames]. by rewrite (tk_managed _ _ _ Htk).
Qed.

Lemma running_inv boot p w : running boot p w -> pmm_inv (frames w).
Proof. intros [_ [T HT] _ _]. apply HT. Qed.

Lemma mta_confined s pages i n : 0 <= i -> 0x5200 + 4 * (i + n) <= E1000_MMIO_SIZE -> confined s pages ((fun i => reg_store s (0x5200 + 4 * i) 0) <$> seqZ i n).
Proof.
  intros Hi Hn. apply Forall_fmap, Forall_forall. intros j Hj%elem_of_seqZ. unfold compose. left.
  pose proof (reg_confined s [] (0x5200 + 4 * j) 0 ltac:(unfold reg_ok; lia)) as H. unfold confined in H. rewrite Forall_singleton in H. destruct H as [H | H%Exists_nil]; done.
Qed.

Section Init.
Context {dev : device} {U : Type}.
#[local] Abbreviation M := (machine (io dev) U).

Lemma clear_mta_spec n i s p w t u (Q : unit -> M -> Prop) :
  (forall t', writes t' = writes t ++ ((fun i => reg_store s (0x5200 + 4 * i) 0) <$> seqZ i (Z.of_nat n)) -> Q tt (mk_machine s p w (mk_io t') u)) ->
  wp (clear_mta n i) (mk_machine s p w (mk_io t) u) Q.
Proof.
  revert i t. induction n as [| n IH]; intros i t H; cbn [clear_mta]; [apply wp_ret, H; by rewrite app_nil_r |].
  apply wp_bind, wp_reg. intros t1 E1. apply IH. intros t2 E2. apply H. rewrite E2, E1, <- app_assoc. rewrite (seqZ_cons i) by lia. rewrite fmap_cons.
  replace (Z.pred (Z.of_nat (S n))) with (Z.of_nat n) by lia. unfold REG_MTA. by rewrite (Z.mul_comm i 4).
Qed.

Definition start_post (f0 : pmm_state) (p : paging_state) (s : e1000_state_t) (st : e1000_status_t) (s' : e1000_state_t)
    (f : pmm_state) (es : list (Z * Z * Z)) : Prop :=
  exists pages, pointed p pages /\ (exists f1, taken f0 f1 pages.*1) /\ confined s pages es /\ mmio s' = mmio s /\ ready s' = ready s /\
  (st = E1000_OK -> taken f0 f pages.*1 /\ pages = dma_pages s' /\
   zlen (rx_buffer_phys s') = RX_COUNT /\ zlen (rx_buffer s') = RX_COUNT /\ zlen (tx_buffer_phys s') = TX_COUNT /\ zlen (tx_buffer s') = TX_COUNT /\ rx_next s' = 0 /\ tx_next s' = 0 /\
   exists c1 c2 ral rah, es = start_stores s' c1 c2 ral rah /\ mac s' = mac_bytes ral rah /\ unicast (mac s')).

Lemma start_card_spec p w t u b (Q : e1000_status_t -> M -> Prop) :
  let s := set_mmio b zero_state in
  pmm_inv (frames w) ->
  (forall st s' f t' es, start_post (frames w) p s st s' f es -> writes t' = writes t ++ es ->
     Q st (mk_machine s' p (mk_world (mem w) f) (mk_io t') u)) ->
  wp start_card (mk_machine s p w (mk_io t) u) Q.
Proof.
  intros s Hinv H. unfold start_card. apply wp_bind, wp_reg. intros t1 E1. apply wp_bind, wp_reg_read. intros icr1 _. apply wp_bind, wp_reg_read. intros c1 _.
  apply wp_bind, wp_reg. intros t2 E2. apply wp_bind, reset_loop_spec. intros r l Hl.
  assert (forall o v pages, reg_ok o -> in_window s (reg_store s o v) \/ Exists (fun x => in_page x (reg_store s o v)) pages) as Hreg.
  { intros o v pages Ho. pose proof (reg_confined s pages o v Ho) as Hc. unfold confined in Hc. by rewrite Forall_singleton in Hc. }
  assert (taken (frames w) (frames w) []) as T0 by (by apply taken_nil).
  assert (forall es, Forall (fun e => exists o v, reg_ok o /\ e = reg_store s o v) es -> forall pages, confined s pages es) as Hregs.
  { intros es Hes pages. eapply Forall_impl; [exact Hes |]. intros e (o & v & Ho & ->). by apply Hreg. }
  destruct r; cbn [negb].
  2: { apply wp_ret. destruct w as [m f]. eapply H; [| rewrite writes_app, Hl, app_nil_r, E2; cbn [writes]; rewrite E1, <- app_assoc; reflexivity].
       exists []. split; [apply Forall_nil_2 |]. split; [by eexists |]. split; [| done]. apply Hregs. repeat apply Forall_cons_2; try apply Forall_nil_2; eexists _, _; (split; [| reflexivity]); done. }
  apply wp_bind, wp_reg. intros t3 E3. apply wp_bind, wp_reg_read. intros icr2 _. apply wp_bind, wp_reg_read. intros c2 _.
  apply wp_bind, wp_reg. intros t4 E4. apply wp_bind, wp_reg_read. intros ral Hral. apply wp_bind, wp_reg_read. intros rah Hrah.
  apply wp_bind, wp_update, wp_bind, wp_state. fold (mac_bytes ral rah). destruct (mac_valid_spec (mac_bytes ral rah) eq_refl) as (v & Ev & Hv).
  apply wp_bind, (wp_lift _ v); [exact Ev |].
  assert (writes t4 = writes t ++ [reg_store s 0x00d8 0xffffffff; reg_store s 0 (Z.lor c1 (2 ^ 26)); reg_store s 0x00d8 0xffffffff; reg_store s 0 (Z.lor c2 (2 ^ 6))]) as E4'.
  { rewrite E4. cbn [writes]. rewrite E3, writes_app, Hl, app_nil_r, E2. cbn [writes]. rewrite E1, <- !app_assoc. reflexivity. }
  clear E4 E3 E2 E1. destruct v; cbn [negb].
  2: { apply wp_ret. destruct w as [m f]. eapply H; [| cbn [writes]; exact E4'].
       exists []. split; [apply Forall_nil_2 |]. split; [by eexists |]. split; [| done]. apply Hregs. repeat apply Forall_cons_2; try apply Forall_nil_2; eexists _, _; (split; [| reflexivity]); done. }
  apply wp_bind, wp_reg. intros t5 E5. apply wp_bind, wp_reg. intros t6 E6. apply wp_bind, clear_mta_spec. intros t7 E7.
  apply setup_rings_spec; [done.. |]. intros st s' f t' es (pages & Hp & Hf & Hc & Hm & Hr & Hmac & _ & Hst) Et'.
  eapply (H st s' f t'); [| rewrite Et', E7, E6, E5; cbn [writes]; rewrite E4', <- !app_assoc; reflexivity].
  exists pages. split; [done |]. split; [done |]. split; [| split; [done |]; split; [done |]].
  - rewrite !app_assoc. apply confined_app. split; [apply confined_app; split |].
    + apply Hregs. repeat apply Forall_cons_2; try apply Forall_nil_2; eexists _, _; (split; [| reflexivity]); done.
    + apply (mta_confined s); done.
    + exact Hc.
  - intros ->. destruct Hst as [(_ & T & -> & -> & L0 & L1 & L2' & L2 & N1 & N2) | ?]; [| done].
    do 8 (split; [done |]). exists c1, c2, ral, rah.
    split; [| split; [by rewrite Hmac | rewrite Hmac; by apply Hv]].
    unfold start_stores. change 0xffff with (Z.ones 16). rewrite Z.land_ones by lia.
    assert (forall o v, reg_store s' o v = reg_store s o v) as Heq by (intros o v; unfold reg_store; by rewrite Hm). rewrite !Heq. cbn [app]. do 6 f_equal. f_equal.
    apply list_fmap_ext. intros i x _. by rewrite Heq.
Qed.

Lemma find_card_spec boot pci s p w t u (Q : e1000_status_t -> M -> Prop) :
  0 <= physical_memory_offset boot -> running boot p w -> pci_table_ok pci ->
  (forall st b p' w' t', running boot p' w' -> writes t' = writes t -> Q st (mk_machine (set_mmio b zero_state) p' w' (mk_io t') u)) ->
  wp (find_card pci) (mk_machine s p w (mk_io t) u) Q.
Proof.
  intros Hoff Hrun [Hc HF] H. unfold find_card. apply wp_bind, wp_update.
  destruct (find_device_total (Z.to_nat (Pci.device_count pci)) (Pci.devices pci) 0 E1000_VENDOR_INTEL E1000_DEVICE_82540EM) as (r & Er & Hr); [lia.. |].
  apply wp_bind, (wp_lift _ r); [exact Er |]. destruct r as [d |]; [| by apply wp_ret, (H _ 0)].
  rewrite Forall_forall in HF. destruct (HF d (Hr d eq_refl)) as [Hl Hb]. destruct (decode_bar0 d Hl Hb) as (bst & bar & Ebar & Hbase).
  unfold wp, map_card. cbn [hw]. destruct (enable_writes d (mk_io (dev := dev) t)) as (st & [t'] & Est & Ht). rewrite Est, Ebar. cbn [trace] in Ht.
  destruct st; try (eexists _, _; split; [reflexivity |]; by apply (H _ 0)).
  destruct bst, bar as [bar |]; try (eexists _, _; split; [reflexivity |]; by apply (H _ 0)).
  if_case; [eexists _, _; split; [reflexivity |]; by apply (H _ 0) |]. specialize (Hbase _ eq_refl). cbn [paging_of tables with_hw].
  destruct (paging_map_mmio p (base bar) E1000_MMIO_SIZE w) as [[q ps] w'] eqn:Em.
  destruct (mmio_running boot Hoff p w (base bar) E1000_MMIO_SIZE q ps w' Hrun Hbase ltac:(done) Em) as [Hrun' _].
  eexists _, _. split; [reflexivity |]. by apply H.
Qed.

#[local] Abbreviation N := (net_state M).

Lemma wp_world {A} (c : act M A) (s : N) (Q : A -> N -> Prop) :
  wp c (world s) (fun a m => Q a (set_world s m)) -> wp (on_world c) s Q.
Proof. intros (a & m & E & H). exists a, (set_world s m). unfold on_world. by rewrite E. Qed.

(** What holds after a successful start: the card's memory consists of frames
    that were free in [w0], and [es] are the stores that were made. *)
Record card_up (boot : boot_context_t) (w0 : Paging.world) (s : N) (es : list (Z * Z * Z)) : Prop := {
  up_ok : card_ok (card (world s));
  up_running : running boot (paging_of (world s)) (tables (world s));
  up_taken : taken (frames w0) (frames (tables (world s))) (dma_pages (card (world s))).*1;
  up_buffers : length (tx_buffer_phys (card (world s))) = length (tx_buffer (card (world s)));
  up_pointed : pointed (paging_of (world s)) (dma_pages (card (world s)));
  up_stores : exists c1 c2 ral rah, es = start_stores (card (world s)) c1 c2 ral rah /\ mac (card (world s)) = mac_bytes ral rah;
  up_unicast : unicast (mac (card (world s)));
  up_device : exists d, rd (devices s) (net_device_id (card (world s))) = Some d /\ active d = true /\
    transmit (config d) = Some (driver_transmit_fn transmit_entry) /\ mtu (config d) = 1500
}.

Definition init_post (boot : boot_context_t) (s : N) (out : Z) (st : e1000_status_t) (out' : option Z) (s' : N) (es : list (Z * Z * Z)) : Prop :=
  exists w0 pages, running boot (paging_of (world s')) w0 /\ pointed (paging_of (world s')) pages /\
  (exists f, taken (frames w0) f pages.*1) /\ confined (card (world s')) pages es /\ net_inv s' /\ upper_receiver s' = upper_receiver s /\
  if bool_decide (st = E1000_OK) then card_up boot w0 s' es /\ out' = Some (net_device_id (card (world s')))
  else ready (card (world s')) = false /\ out' = Some out /\ devices s' = devices s.

Lemma pointed_rx p s : zlen (rx_buffer_phys s) = zlen (rx_buffer s) -> pointed p (dma_pages s) -> Forall (fun b => b <> 0) (rx_buffer s).
Proof.
  intros Hl H. unfold pointed, dma_pages in H. apply Forall_cons in H as [_ [_ [H _]%Forall_app]%Forall_cons].
  assert ((rx_pages s).*2 = rx_buffer s) as <- by (apply snd_zip; unfold zlen in Hl; lia). apply Forall_fmap. eapply Forall_impl; [exact H |]. by intros x [_ ?].
Qed.

Lemma confined_mmio s s' pages es : mmio s' = mmio s -> confined s pages es -> confined s' pages es.
Proof. unfold confined, in_window. by intros ->. Qed.

Lemma register_card_spec boot w0 b (s : N) out es (Q : e1000_status_t * option Z -> N -> Prop) :
  net_inv s -> running boot (paging_of (world s)) w0 -> mem (tables (world s)) = mem w0 ->
  start_post (frames w0) (paging_of (world s)) (set_mmio b zero_state) E1000_OK (card (world s)) (frames (tables (world s))) es ->
  (forall st out' s', hw (world s') = hw (world s) -> init_post boot s out st out' s' es -> Q (st, out') s') ->
  wp (register_card (Some out)) s Q.
Proof.
  intros Hinv Hrun Hmem (pages & Hp & Hf & Hc & Hm & Hrd & Hok) H.
  destruct (Hok eq_refl) as (T & -> & L0 & L1 & L2' & L2 & N1 & N2 & c1 & c2 & ral & rah & Hes & Hmac & Huni).
  unfold wp, register_card. set (st := card (world s)) in *.
  assert (exists name, device_config st = Some (mk_net_config name (mac st) 1500 true (Some (driver_transmit_fn (transmit_entry (U := U) (D := io dev))))) /\ zlen name = 16) as (name & Ec & Hn).
  { unfold device_config. rewrite Hmac. eexists. split; reflexivity. }
  rewrite Ec. destruct (net_register_spec s (mk_net_config name (mac st) 1500 true (Some (driver_transmit_fn transmit_entry))) (net_device_id st) Hinv)
    as (nst & s' & o' & Er & Hinv' & Hbad & Hfail & _ & Hgood).
  { split; [done |]. split; [cbn; by rewrite Hmac | cbn; lia]. }
  rewrite Er. eexists _, _. split; [reflexivity |]. destruct (decide (nst = NET_OK)) as [-> | Hne].
  - rewrite bool_decide_true by done. destruct (Hgood eq_refl) as (i & d & -> & Hi & _ & _ & _ & (d' & Ed' & Ha & Htr & Hmtu & _) & Hup & Ew & _).
    apply H; [cbn; by rewrite Ew |]. cbn [default]. change (default (net_device_id st) (Some i)) with i. exists w0, (dma_pages st).
    cbn [world set_world with_card card paging_of tables]. rewrite Ew. fold st. split; [done |]. split; [done |]. split; [done |].
    split; [by eapply confined_mmio |]. split; [exact Hinv' |]. split; [exact Hup |]. rewrite bool_decide_true by done. split; [| done].
    split; cbn [world set_world with_card card paging_of tables devices]; try done.
    + split; cbn; try done; try lia; [rewrite N1; done | rewrite N2; done |]. apply (pointed_rx (paging_of (world s))); [congruence | done].
    + pose proof (running_taken _ _ _ _ _ Hrun T) as Hr. rewrite <- Hmem in Hr. by destruct (tables (world s)).
    + unfold zlen in L2, L2'. cbn. fold st. lia.
    + exists c1, c2, ral, rah. done.
    + exists d'. split; [exact Ed' |]. done.
  - rewrite bool_decide_false by done. destruct (Hfail Hne) as [-> ->]. apply H; [done |]. exists w0, (dma_pages st).
    cbn [world set_world with_card card paging_of tables]. split; [done |]. split; [done |]. split; [done |].
    split; [by eapply confined_mmio |]. split; [exact Hinv |]. split; [done |]. rewrite bool_decide_false by done. done.
Qed.

Lemma init_spec boot (s : N) pci out :
  net_inv s -> 0 <= physical_memory_offset boot -> running boot (paging_of (world s)) (tables (world s)) -> pci_table_ok pci ->
  exists st out' s' es, e1000_init pci (Some out) s = Some (st, out', s') /\
    writes (trace (hw (world s'))) = writes (trace (hw (world s))) ++ es /\ init_post boot s out st out' s' es.
Proof.
  intros Hinv Hoff Hrun Hpci.
  assert (wp (e1000_init pci (Some out)) s (fun r s' => exists es, writes (trace (hw (world s'))) = writes (trace (hw (world s))) ++ es /\ init_post boot s out r.1 r.2 s' es)) as Hwp.
  2: { destruct Hwp as ([st out'] & s' & E & es & H1 & H2). by exists st, out', s', es. }
  destruct s as [ds ur sts lb [c p w [t] u]]. cbn [world paging_of tables hw trace] in *. unfold e1000_init.
  apply wp_bind, wp_world. cbn [world]. apply (find_card_spec boot); [done.. |]. intros st b p' w' t' Hrun' Ht'. case_bool_decide as Hst; cbn [negb].
  2: { apply wp_ret. exists []. cbn. split; [by rewrite app_nil_r |]. exists w', []. split; [done |]. split; [apply Forall_nil_2 |].
       split; [eexists; apply taken_nil; by eapply running_inv |]. split; [apply Forall_nil_2 |]. split; [exact Hinv |]. split; [done |]. by rewrite bool_decide_false. }
  apply wp_bind, wp_world. cbn [world set_world]. apply (start_card_spec); [by eapply running_inv |]. intros st2 s2 f t2 es Hpost Et2.
  case_bool_decide as Hst2; cbn [negb].
  2: { apply wp_ret. exists es. cbn. split; [by rewrite Et2, Ht' |]. destruct Hpost as (pages & Hp & Hf & Hc & Hm & Hrd & _).
       exists w', pages. split; [done |]. split; [done |]. split; [done |]. split; [by eapply confined_mmio |]. split; [exact Hinv |]. split; [done |]. by rewrite bool_decide_false. }
  subst st2. eapply (register_card_spec boot w' b); [exact Hinv | exact Hrun' | done | exact Hpost |].
  intros st3 out' s' Hhw Hq. exists es. rewrite Hhw. cbn. split; [by rewrite Et2, Ht' | exact Hq].
Qed.
End Init.

(** C34. Starting the card, whatever it answers.  The driver writes only to the
    register window and to pages that were free frames.  On success the card
    holds 50 such frames, none twice and none in use by the page tables, the
    stores are exactly those of [start_stores] (both rings and all buffers
    cleared, entered and announced before the card is enabled), the address is
    one station's, and the network device is registered.  In every other case
    the driver stays off and the device table is as it was. *)
Theorem e1000_init_correct {dev U} boot (s : net_state (machine (io dev) U)) pci out :
  net_inv s -> 0 <= physical_memory_offset boot -> running boot (paging_of (world s)) (tables (world s)) -> pci_table_ok pci ->
  exists st out' s' es, e1000_init pci (Some out) s = Some (st, out', s') /\
    writes (trace (hw (world s'))) = writes (trace (hw (world s))) ++ es /\ init_post boot s out st out' s' es.
Proof. exact (init_spec boot s pci out). Qed.

(** ** A machine with a card

    The memory of [Paging]'s example, with 128 usable frames.  The card resets
    at once, has an address, completes every transmission, and has [n] receive
    descriptors to report. *)

Definition nic_boot : boot_context_t :=
  mk_boot_context (mk_framebuffer 0xffff800000180000 1 1 4 32 8 16 8 8 8 0)
    ([example_region 0 0x9fc00 BOOT_MEMORY_USABLE;
      example_region 0x9fc00 0x60400 BOOT_MEMORY_RESERVED;
      example_region 0x100000 0x82000 BOOT_MEMORY_USABLE]
     ++ replicate 125 (example_region 0 0 BOOT_MEMORY_RESERVED))
    3 0 0xffff800000000000 0x100000000 0x180000 0x182000 0x104000 0x10a000
    0xffffffff80000000 0xffffffff80006000 0 0 [].

Definition nic_memory : Paging.world := mk_world (∅ : gmap.gmap Z Z) (snd (pmm_init (Some nic_boot))).
Definition nic_paged := paging_init example_layout (Some nic_boot) (Some 0) example_unset nic_memory.
Definition nic_paging : paging_state := mk_paging (Some nic_boot) 0x100000 0x200000 MMIO_BASE false.

Lemma nic_paging_init :
  paging_init example_layout (Some nic_boot) (Some 0) example_unset nic_memory = (PAGING_OK, Some 0x100000, nic_paging, nic_paged.2).
Proof.
  assert (nic_paged.1 = (PAGING_OK, Some 0x100000, nic_paging)) as H by (vm_compute; reflexivity). rewrite <- H. apply surjective_pairing.
Qed.

Lemma nic_boot_ok : boot_context_ok nic_boot.
Proof.
  split_and!; try (simpl; lia); [done |]. apply Forall_app. split.
  - repeat (constructor; [unfold region_ok; simpl; lia |]). constructor.
  - apply Forall_replicate. unfold region_ok. simpl. lia.
Qed.

Lemma nic_free_ok : free_ok nic_boot nic_memory.
Proof.
  split.
  - pose proof (pmm_init_spec nic_boot nic_boot_ok) as H. unfold nic_memory. cbn [frames].
    assert (pmm_init (Some nic_boot) = (PMM_OK, snd (pmm_init (Some nic_boot)))) as E by (vm_compute; reflexivity). rewrite E in H. apply H.
  - intros a. replace (managed_ranges (frames nic_memory)) with [mk_range 0x100000 0x104000; mk_range 0x10a000 0x180000] by (vm_compute; reflexivity).
    unfold covers, in_range. rewrite !Exists_cons, Exists_nil. cbn. lia.
Qed.

Lemma nic_running : running nic_boot nic_paging nic_paged.2.
Proof. by destruct (init_running _ _ _ _ _ _ _ _ nic_boot_ok example_layout_ok nic_free_ok nic_paging_init). Qed.

(** The address of the receive ring, which the card learns from the driver. *)
Definition nic_ring : Z := 0xffff800000110000.

Definition nic_device (n : nat) : device :=
  mk_device
    (fun t w a =>
       if w =? 4 then if a =? MMIO_BASE + 0x5400 then 0x12005452 else if a =? MMIO_BASE + 0x5404 then 0x5634 else 2
       else if w =? 2 then 60
       else if (nic_ring <=? a) && (a <? nic_ring + 512) && (a mod 16 =? 12)
       then if (found (set_rx_ring 0 nic_ring zero_state) t <? n)%nat then 3 else 0
       else if a mod 16 =? 12 then 1 else 0)
    (fun _ _ => 6).

Definition nic_table : pci_state := mk_pci_state (replicate 256 nic) 1.

Lemma nic_table_ok : pci_table_ok nic_table.
Proof. split; [done |]. apply Forall_replicate. split; [done |]. repeat apply Forall_cons_2; try apply Forall_nil_2; lia. Qed.

(** The frames received so far, the newest first. *)
Definition nic_receiver {n} : net_receive_fn (machine (io (nic_device n)) (list (list Z))) :=
  fun _ f _ m => mk_machine (card m) (paging_of m) (tables m) (hw m) (f :: upper m).

Definition nic_start (n : nat) : net_state (machine (io (nic_device n)) (list (list Z))) :=
  mk_net (replicate 8 zero_slot) (Some nic_receiver) zero_stats 0 (mk_machine zero_state nic_paging nic_paged.2 (mk_io []) []).

Lemma nic_start_inv n : net_inv (nic_start n).
Proof. split; [done |]. split; [| done]. apply Forall_replicate. done. Qed.

Lemma e1000_init_correct_witness :
  exists s' es, e1000_init nic_table (Some 7) (nic_start 2) = Some (E1000_OK, Some 0, s') /\ card_ok (card (world s')) /\
    rx_ring (card (world s')) = nic_ring /\ writes (trace (hw (world s'))) = es /\ init_post nic_boot (nic_start 2) 7 E1000_OK (Some 0) s' es.
Proof.
  destruct (e1000_init_correct nic_boot (nic_start 2) nic_table 7 (nic_start_inv 2) ltac:(done) nic_running nic_table_ok) as (st & out' & s' & es & E & Ew & H).
  assert ((fun r => (r.1, rx_ring (card (world r.2)))) <$> e1000_init nic_table (Some 7) (nic_start 2) = Some ((E1000_OK, Some 0), nic_ring)) as Hr by (vm_compute; reflexivity).
  rewrite E in Hr. cbn in Hr. injection Hr as -> -> Hring. exists s', es. split; [exact E |]. split; [| split; [exact Hring | split; [exact Ew | exact H]]].
  destruct H as (w0 & pages & _ & _ & _ & _ & _ & _ & H). rewrite bool_decide_true in H by done. apply (up_ok _ _ _ _ (proj1 H)).
Defined.
