(* ===== verification/E1000Run.v ===== *)
(** * A running network card (kernel/src/e1000.c)

    [e1000_poll] on any card, and what any sequence of transmissions and polls
    writes.  The card's memory is that of [E1000Init]. *)

From stdpp Require Import base numbers list sets strings.
From Stdlib Require Import ZArith Lia.
From S2P Require Import Prelude Bytes Boot Pmm Paging Cpu Pci Net E1000 E1000Init.

#[local] Open Scope Z_scope.

(** ** Reception *)

Definition rx_desc (s : e1000_state_t) (i : Z) : Z := rx_ring s + DESC_SIZE * i.

(** Giving descriptor [i] back to the card. *)
Definition recycle_stores (s : e1000_state_t) (i : Z) : list (Z * Z * Z) :=
  [(1, rx_desc s i + 12, 0); (1, rx_desc s i + 13, 0); reg_store s REG_RDT i].

(** The descriptors of [k] rounds that start at [i]. *)
Definition ring_indices (i : Z) (k : nat) : list Z := (fun j => j mod RX_COUNT) <$> seqZ i (Z.of_nat k).

Definition advanced (s : e1000_state_t) (k : nat) : e1000_state_t := set_next ((rx_next s + Z.of_nat k) mod RX_COUNT) (tx_next s) s.

(** What a descriptor must report for its frame to be passed on: the end of a
    packet, no error, and a length from 14 bytes to a buffer. *)
Definition acceptable (length status errors : Z) : Prop := Z.testbit status 1 = true /\ errors = 0 /\ 14 <= length <= DMA_BUFFER_SIZE.

#[export] Instance acceptable_dec length status errors : Decision (acceptable length status errors).
Proof. unfold acceptable. apply _. Defined.

(** The loads that read [f] from [b] on, the latest first. *)
Fixpoint byte_loads (b : Z) (f : list Z) : list event :=
  match f with [] => [] | x :: f => byte_loads (b + 1) f ++ [Load 1 b x] end.

(** The accesses of a round on descriptor [i], the latest first, and the frames
    it passes on.  The status [v] says that the card is done.  When what the
    descriptor reports is acceptable, the frame is the bytes read from the buffer
    of that descriptor, as many as it reports; otherwise the buffer is not read
    and there is no frame.  The only stores give the descriptor back. *)
Definition round (c : e1000_state_t) (i v : Z) (l : list event) (fs : list (list Z)) : Prop :=
  is_done v = true /\
  exists length status errors read given,
    l = given ++ read ++ [Load 1 (rx_desc c i + 13) errors; Load 1 (rx_desc c i + 12) status; Load 2 (rx_desc c i + 8) length; Load 1 (rx_desc c i + 12) v] /\
    writes given = recycle_stores c i /\
    if decide (acceptable length status errors)
    then exists b f, rd (rx_buffer c) i = Some b /\ zlen f = length /\ read = byte_loads b f /\ fs = [f]
    else read = [] /\ fs = [].

(** [k] rounds from descriptor [i] on. *)
Inductive rounds (c : e1000_state_t) : Z -> nat -> list event -> list (list Z) -> Prop :=
| rounds_nil i : rounds c i 0 [] []
| rounds_cons i v l fs k l' fs' : round c i v l fs -> rounds c ((i + 1) mod RX_COUNT) k l' fs' -> rounds c i (S k) (l' ++ l) (fs ++ fs').

(** A card that has received all it will receive: once [n] such loads were
    made it reports no frame. *)
Definition exhausted (dev : device) (s : e1000_state_t) (n : nat) : Prop :=
  forall t i, 0 <= i < RX_COUNT -> (n <= found s t)%nat -> is_done (answer dev t 1 (rx_desc s i + 12)) = false.

Lemma found_app s t1 t2 : found s (t1 ++ t2) = (found s t1 + found s t2)%nat.
Proof. induction t1 as [| [] t1 IH]; cbn [found app]; rewrite ?IH; try if_case; lia. Qed.

Lemma eop_bit status : (Z.land status RX_STATUS_EOP =? 0) = negb (Z.testbit status 1).
Proof.
  destruct (Z.testbit status 1) eqn:E; cbn.
  - apply Z.eqb_neq. intros H. apply (f_equal (fun z => Z.testbit z 1)) in H. rewrite Z.land_spec, E in H. done.
  - apply Z.eqb_eq, Z.bits_inj'. intros n Hn. rewrite Z.land_spec, Z.bits_0. change RX_STATUS_EOP with (2 ^ 1). rewrite Z.pow2_bits_eqb by done.
    destruct (Z.eqb_spec 1 n) as [<- |]; [by rewrite E | by rewrite andb_false_r].
Qed.

Lemma writes_byte_loads b f : writes (byte_loads b f) = [].
Proof. revert b. induction f as [| x f IH]; intros b; [done |]. cbn [byte_loads]. by rewrite writes_app, IH. Qed.

Lemma round_writes c i v l fs : round c i v l fs -> writes l = recycle_stores c i.
Proof.
  intros (_ & length & status & errors & read & given & -> & Hg & Hr). rewrite !writes_app, Hg.
  assert (writes read = []) as ->; [| done]. destruct (decide _); [destruct Hr as (b & f & _ & _ & -> & _); apply writes_byte_loads | by destruct Hr as [-> _]].
Qed.

Lemma round_found c i v l fs : 0 <= i < RX_COUNT -> round c i v l fs -> (0 < found c l)%nat.
Proof.
  intros Hi (Hv & length & status & errors & read & given & -> & _). rewrite !found_app. enough (0 < found c [Load 1 (rx_desc c i + 12) v])%nat as H.
  { change [Load 1 (rx_desc c i + 13) errors; Load 1 (rx_desc c i + 12) status; Load 2 (rx_desc c i + 8) length; Load 1 (rx_desc c i + 12) v]
      with ([Load 1 (rx_desc c i + 13) errors; Load 1 (rx_desc c i + 12) status; Load 2 (rx_desc c i + 8) length] ++ [Load 1 (rx_desc c i + 12) v]).
    rewrite found_app. lia. }
  cbn [found]. rewrite Hv, (proj2 (Z.leb_le _ _)), (proj2 (Z.ltb_lt _ _)) by (unfold rx_desc, DESC_SIZE, RX_COUNT in *; lia). cbn. lia.
Qed.

Lemma ring_indices_S i k : 0 <= i < RX_COUNT -> ring_indices i (S k) = i :: ring_indices ((i + 1) mod RX_COUNT) k.
Proof.
  intros Hi. unfold ring_indices. rewrite (seqZ_cons i) by lia. rewrite fmap_cons, Z.mod_small by done. f_equal.
  replace (Z.pred (Z.of_nat (S k))) with (Z.of_nat k) by lia. apply list_eq. intros j. rewrite !list_lookup_fmap.
  destruct (decide (j < k)%nat).
  - rewrite !lookup_seqZ_lt by lia. cbn. by rewrite Zplus_mod_idemp_l.
  - by rewrite !lookup_seqZ_ge by lia.
Qed.

Lemma rounds_writes c i k l fs : 0 <= i < RX_COUNT -> rounds c i k l fs -> writes l = (ring_indices i k ≫= recycle_stores c).
Proof.
  intros Hi H. induction H as [i | i v l fs k l' fs' Hr H IH]; [done |].
  rewrite writes_app, (round_writes _ _ _ _ _ Hr), IH by (by apply Z.mod_pos_bound). rewrite ring_indices_S by done. by rewrite bind_cons.
Qed.

Section Poll.
Context {dev : device} {U : Type}.
#[local] Abbreviation M := (machine (io dev) U).
#[local] Abbreviation N := (net_state M).

Definition with_upper (m : M) (u : U) : M := mk_machine (card m) (paging_of m) (tables m) (hw m) u.

(** The receiver of the frames works on its own state, as every receiver of the
    kernel does (net.c). *)
Definition receiver_ok (s : N) : Prop :=
  forall r, upper_receiver s = Some r -> exists g, forall id f n m, r id f n m = with_upper m (g id f n (upper m)).

(** What the network sees: everything but the driver and the hardware. *)
Definition net_view (s : N) := (devices s, upper_receiver s, stats s, loopback_device_id s, upper (world s)).

Definition handle (id : Z) (s : N) (f : list Z) : N :=
  match net_receive s id (Some f) (zlen f) with Some (_, s) => s | None => s end.

Lemma net_receive_total (s : N) id f n : net_inv s -> 0 <= id -> exists st s', net_receive s id (Some f) n = Some (st, s').
Proof.
  intros (Hl & _) Hid. unfold net_receive. if_case; [by eexists _, _ |]. if_case; [by eexists _, _ |]. bool_cases.
  destruct (rd_in_range (devices s) id ltac:(lia)) as [d ->]. cbn. repeat if_case; try by eexists _, _. by destruct (upper_receiver s); eexists _, _.
Qed.

Lemma handle_spec id (s : N) f : net_inv s -> 0 <= id -> receiver_ok s ->
  net_inv (handle id s f) /\ exists u, world (handle id s f) = with_upper (world s) u.
Proof.
  intros Hinv Hid Hr. unfold handle. destruct (net_receive s id (Some f) (zlen f)) as [[st s'] |] eqn:E.
  2: { split; [done |]. exists (upper (world s)). by destruct (world s). }
  assert (exists u, with_upper (world s) u = world s) as [u0 Hu] by (exists (upper (world s)); by destruct (world s)).
  revert E. unfold net_receive. repeat if_case; try (intros [= <- <-]; split; [done |]; by exists u0).
  destruct (rd (devices s) id) as [d |]; [cbn | done]. repeat if_case; try (intros [= <- <-]; split; [done |]; by exists u0).
  unfold set_stats at 1. cbn [upper_receiver]. destruct (upper_receiver s) as [r |] eqn:Er; intros [= <- <-]; (split; [exact Hinv |]); [| by exists u0].
  destruct (Hr r Er) as [g Hg]. cbn. eexists. apply Hg.
Qed.

Lemma handle_receiver id (s : N) f : upper_receiver (handle id s f) = upper_receiver s.
Proof.
  unfold handle, net_receive. repeat case_match; simplify_eq; try done.
  all: repeat (match goal with H : (_ ≫= _) = _ |- _ => apply bind_Some in H as (? & _ & H) end); repeat case_match; simplify_eq; done.
Qed.

Lemma handle_view id (s1 s2 : N) f : receiver_ok s1 -> net_view s1 = net_view s2 -> net_view (handle id s1 f) = net_view (handle id s2 f).
Proof.
  intros Hr Hv. destruct s1 as [ds ur st lb m1], s2 as [ds2 ur2 st2 lb2 m2]. unfold net_view in *. cbn in Hv. injection Hv as <- <- <- <- Hu.
  assert (net_view (mk_net ds ur st lb m1) = net_view (mk_net ds ur st lb m2)) as Hsame by (unfold net_view; cbn; by rewrite Hu).
  unfold handle, net_receive. cbn [devices upper_receiver stats]. do 2 (if_case; [exact Hsame |]). destruct (rd ds id) as [d |]; [cbn | exact Hsame].
  if_case; [exact Hsame |]. if_case; [cbn; by rewrite Hu |]. destruct ur as [r |]; cbn; [| by rewrite Hu]. destruct (Hr r eq_refl) as [g Hg]. by rewrite !Hg, Hu.
Qed.

Lemma load_bytes_spec n b s p w t u (Q : list Z -> M -> Prop) :
  (forall f, length f = n -> Q f (mk_machine s p w (mk_io (byte_loads b f ++ t)) u)) ->
  wp (load_bytes n b) (mk_machine s p w (mk_io t) u) Q.
Proof.
  revert b t Q. induction n as [| n IH]; intros b t Q H; cbn [load_bytes]; [by apply wp_ret, (H []) |].
  apply wp_bind, wp_load. intros v _. apply wp_bind, IH. intros f Hf. apply wp_ret.
  specialize (H (v :: f)). cbn [byte_loads length] in H. rewrite <- app_assoc in H. apply H. by f_equal.
Qed.

(** One round, and what the card answered at its start. *)
Definition round_post (s : N) (more : bool) (s' : N) : Prop :=
  let c := card (world s) in
  exists v, v = answer dev (trace (hw (world s))) 1 (rx_desc c (rx_next c) + 12) /\ more = is_done v /\ net_inv s' /\ upper_receiver s' = upper_receiver s /\
  paging_of (world s') = paging_of (world s) /\ tables (world s') = tables (world s) /\
  if more then
    exists l fs, trace (hw (world s')) = l ++ trace (hw (world s)) /\ card (world s') = advanced c 1 /\ round c (rx_next c) v l fs /\
      net_view s' = net_view (foldl (handle (net_device_id c)) s fs)
  else trace (hw (world s')) = Load 1 (rx_desc c (rx_next c) + 12) v :: trace (hw (world s)) /\ card (world s') = c /\ net_view s' = net_view s.

Ltac on_w := apply wp_bind, wp_world; cbn [world set_world devices upper_receiver stats loopback_device_id].

Lemma recycle_spec ds ur st lb c p w t u (Q : unit -> N -> Prop) :
  0 <= rx_next c < RX_COUNT ->
  (forall l, writes l = recycle_stores c (rx_next c) ->
     Q tt (mk_net ds ur st lb (mk_machine (advanced c 1) p w (mk_io (l ++ t)) u))) ->
  wp (recycle (rx_desc c (rx_next c))) (mk_net ds ur st lb (mk_machine c p w (mk_io t) u)) Q.
Proof.
  intros Hi H. unfold recycle. on_w. apply wp_store. on_w. apply wp_store. on_w. apply wp_state. on_w. apply wp_reg_write. intros r.
  apply wp_world. cbn [world]. apply wp_update. unfold RX_COUNT in Hi. rewrite (u32_small (rx_next c + 1)) by lia.
  apply (H [Load 4 (mmio c + 8) r; Store 4 (mmio c + 4 * (REG_RDT / 4)) (rx_next c); _; _]). reflexivity.
Qed.

Lemma poll_round_spec (s : N) (Q : bool -> N -> Prop) :
  card_ok (card (world s)) -> net_inv s -> receiver_ok s ->
  (forall more s', round_post s more s' -> Q more s') -> wp poll_round s Q.
Proof.
  intros [Hrdy Hlen _ Hi _ Hid Hptr] Hinv Hr H. destruct s as [ds ur st lb [c p w [t] u]]. cbn [world card] in *. unfold poll_round.
  on_w. apply wp_state. fold (rx_desc c (rx_next c)). on_w. apply wp_load. intros v Hv. change RX_STATUS_DD with 1. rewrite done_odd.
  destruct (is_done v) eqn:Ev; cbn [negb].
  2: { apply wp_ret, H. exists v. cbn. by rewrite Ev. }
  on_w. apply wp_load. intros length _. on_w. apply wp_load. intros status _. on_w. apply wp_load. intros errors _. apply wp_bind.
  pose (s0 := mk_net ds ur st lb (mk_machine c p w (mk_io (dev := dev) t) u)). set (t1 := Load _ _ errors :: _).
  assert (forall s1 read fs, net_inv s1 -> upper_receiver s1 = ur -> (exists u1, world s1 = mk_machine c p w (mk_io (read ++ t1)) u1) ->
    (if decide (acceptable length status errors) then exists b f, rd (rx_buffer c) (rx_next c) = Some b /\ zlen f = length /\ read = byte_loads b f /\ fs = [f] else read = [] /\ fs = []) ->
    net_view s1 = net_view (foldl (handle (net_device_id c)) s0 fs) ->
    wp (recycle (rx_desc c (rx_next c));; mret true) s1 Q) as Hend.
  { intros [ds1 ur1 st1 lb1 m1] read fs Hinv1 Hur [u1 Hm] Hread Hview. cbn in Hur, Hm. subst ur1 m1. apply wp_bind, recycle_spec; [done |]. intros l2 Hl2. apply wp_ret, H.
    exists v. rewrite Ev. cbn [world hw trace card paging_of tables upper_receiver]. do 2 (split; [done |]). split; [exact Hinv1 |]. do 3 (split; [done |]).
    eexists (l2 ++ read ++ [_; _; _; _]), fs. split; [rewrite <- !app_assoc; reflexivity |]. split; [done |]. split; [| exact Hview].
    split; [done |]. exists length, status, errors, read, l2. done. }
  assert ((negb (Z.land status RX_STATUS_EOP =? 0) && (errors =? 0) && (14 <=? length) && (length <=? DMA_BUFFER_SIZE)) = bool_decide (acceptable length status errors)) as ->.
  { rewrite eop_bit, negb_involutive. unfold acceptable. apply eq_bool_prop_intro. rewrite bool_decide_spec, <- Is_true_true, !andb_True, !Is_true_true, Z.eqb_eq, !Z.leb_le. tauto. }
  case_bool_decide as Hacc.
  2: { apply wp_ret. apply (Hend _ [] []); [done | done | by exists u | by rewrite decide_False | done]. }
  pose proof Hacc as (_ & _ & Hlength).
  destruct (rd_in_range (rx_buffer c) (rx_next c) ltac:(lia)) as [b Eb]. apply wp_bind, (wp_lift _ b); [exact Eb |].
  on_w. apply load_bytes_spec. intros f Hf. assert (zlen f = length) as Ez by (unfold zlen; lia).
  assert (b ∈ rx_buffer c) as Hb by (apply rd_lookup in Eb as [_ Eb]; by eapply list_elem_of_lookup_2).
  assert (b <> 0) as Hb0 by (rewrite Forall_forall in Hptr; by apply Hptr).
  unfold set_world; cbn [devices upper_receiver stats loopback_device_id]. set (s1 := mk_net ds ur st lb _).
  destruct (net_receive_total s1 (net_device_id c) f length Hinv Hid) as (nst & s2 & En).
  assert (handle (net_device_id c) s1 f = s2) as Eh by (unfold handle; by rewrite Ez, En).
  unfold deliver. exists tt, s2. rewrite (proj2 (Z.eqb_neq _ _) Hb0). cbv iota. rewrite En. split; [done |].
  destruct (handle_spec (net_device_id c) s1 f Hinv Hid Hr) as [Hinv2 [u2 Hu2]]. pose proof (handle_receiver (net_device_id c) s1 f) as Hur2. rewrite Eh in *.
  apply (Hend _ (byte_loads b f) [f]); [done | done | by exists u2 | rewrite decide_True by done; by exists b, f |].
  rewrite <- Eh. by apply handle_view.
Qed.

(** The whole loop: it ends once the card has nothing more. *)
Definition poll_post (s s' : N) : Prop :=
  let c := card (world s) in
  exists k l frames v, rounds c (rx_next c) k l frames /\
  trace (hw (world s')) = Load 1 (rx_desc c ((rx_next c + Z.of_nat k) mod RX_COUNT) + 12) v :: l ++ trace (hw (world s)) /\ is_done v = false /\
  card (world s') = advanced c k /\ writes l = (ring_indices (rx_next c) k ≫= recycle_stores c) /\
  net_view s' = net_view (foldl (handle (net_device_id c)) s frames) /\
  paging_of (world s') = paging_of (world s) /\ tables (world s') = tables (world s) /\ net_inv s'.

Lemma found_ring s1 s2 t : rx_ring s1 = rx_ring s2 -> found s1 t = found s2 t.
Proof. intros E. induction t as [| [] t IH]; cbn [found]; rewrite ?E, ?IH; done. Qed.

Lemma advanced_ok c k : card_ok c -> card_ok (advanced c k).
Proof. intros [H1 H2 H3 H4 H5 H6 H7]. split; try done. cbn. by apply Z.mod_pos_bound. Qed.

Lemma advanced_0 c : 0 <= rx_next c < RX_COUNT -> advanced c 0 = c.
Proof. intros H. unfold advanced. rewrite Z.add_0_r, Z.mod_small by done. by destruct c. Qed.

Lemma advanced_S c k : advanced (advanced c 1) k = advanced c (S k).
Proof.
  unfold advanced. cbn [rx_next tx_next set_next]. rewrite Zplus_mod_idemp_l. unfold set_next. cbn. do 2 f_equal. lia.
Qed.

Lemma foldl_view id fs (s1 s2 : N) : receiver_ok s1 -> net_view s1 = net_view s2 ->
  net_view (foldl (handle id) s1 fs) = net_view (foldl (handle id) s2 fs).
Proof.
  revert s1 s2. induction fs as [| f fs IH]; intros s1 s2 Hr Hv; cbn [foldl]; [done |]. apply IH; [| by apply handle_view].
  intros r Hr1. rewrite handle_receiver in Hr1. by apply Hr.
Qed.

Lemma rounds_advanced c i j k l fs : rounds (advanced c j) i k l fs -> rounds c i k l fs.
Proof. induction 1 as [| i v l fs k l' fs' Hr H IH]; [constructor |]. apply (rounds_cons c i v l fs k l' fs'); [exact Hr | exact IH]. Qed.

Lemma poll_step (s s1 s' : N) : card_ok (card (world s)) -> receiver_ok s -> round_post s true s1 -> poll_post s1 s' -> poll_post s s'.
Proof.
  intros Hok Hr (v & _ & _ & Hinv & Hur & Ep & Ew & l & fs & Et & Ec & Hround & Hview) (k & l' & fs' & v' & Hrounds & Et' & Hd & Ec' & _ & Hv' & Ep' & Ew' & Hinv').
  pose proof (ok_rx_next _ Hok) as Hi. set (c := card (world s)) in *. rewrite Ec in *. apply rounds_advanced in Hrounds.
  assert (receiver_ok s1) as Hr1 by (intros r Hr1; apply Hr; by rewrite <- Hur).
  assert (rounds c (rx_next c) (S k) (l' ++ l) (fs ++ fs')) as Hall by (by apply (rounds_cons _ _ v)).
  unfold poll_post. fold c. exists (S k), (l' ++ l), (fs ++ fs'), v'. split; [done |]. split.
  { rewrite Et', Et, <- !app_assoc. change (rx_desc (advanced c 1)) with (rx_desc c). change (rx_next (advanced c 1)) with ((rx_next c + 1) mod RX_COUNT).
    rewrite Zplus_mod_idemp_l. replace (rx_next c + 1 + Z.of_nat k) with (rx_next c + Z.of_nat (S k)) by lia. reflexivity. }
  split; [done |]. split; [by rewrite Ec', advanced_S |]. split; [by apply (rounds_writes _ _ _ _ (fs ++ fs')) |].
  split; [rewrite Hv', foldl_app; by apply foldl_view |]. split; [congruence |]. split; [congruence | done].
Qed.

Lemma poll_rounds_spec fuel n (s : N) :
  card_ok (card (world s)) -> net_inv s -> receiver_ok s -> exhausted dev (card (world s)) n ->
  (n - found (card (world s)) (trace (hw (world s))) < fuel)%nat -> wp (poll_loop fuel) s (fun _ s' => poll_post s s').
Proof.
  revert s. induction fuel as [| fuel IH]; intros s Hok Hinv Hr Hex Hf; [lia |]. cbn [poll_loop]. apply wp_bind, poll_round_spec; [done.. |].
  pose proof (ok_rx_next _ Hok) as Hi. intros [] s1 Hpost; pose proof Hpost as (v & Ev & Em & Hinv1 & Hur & Ep & Ew & Hrest).
  - destruct Hrest as (l & fs & Et & Ec & Hround & _). eapply wp_mono; [apply IH | intros [] s' H; by eapply poll_step].
    + rewrite Ec. by apply advanced_ok.
    + done.
    + intros r Hr1. apply Hr. by rewrite <- Hur.
    + intros t i Hi2 Hn. rewrite Ec in *. apply Hex; [done |]. by rewrite <- (found_ring (advanced (card (world s)) 1)).
    + rewrite Ec, (found_ring _ (card (world s))), Et, found_app by done. pose proof (round_found _ _ _ _ _ Hi Hround).
      set (t := trace (hw (world s))) in *. assert (found (card (world s)) t < n)%nat as Hlt; [| lia].
      destruct (Nat.lt_ge_cases (found (card (world s)) t) n) as [? | Hge]; [done |]. specialize (Hex t (rx_next (card (world s))) Hi Hge). congruence.
  - destruct Hrest as (Et & Ec & Hview). apply wp_ret. exists 0%nat, [], [], v.
    rewrite advanced_0, Z.add_0_r, Z.mod_small by done. split; [constructor |]. split; [exact Et |]. by split.
Qed.
End Poll.

(** ** Histories *)

Section History.
Context {dev : device} {U : Type}.
#[local] Abbreviation M := (machine (io dev) U).
#[local] Abbreviation N := (net_state M).

(** What the kernel does with a card that runs. *)
Inductive nic_step : N -> N -> Prop :=
| step_transmit s frame length st m :
    0 <= length <= zlen frame -> e1000_transmit (Some frame) length (world s) = Some (st, m) -> nic_step s (set_world s m)
| step_poll s fuel s' : e1000_poll fuel s = Some (tt, s') -> nic_step s s'
| step_link s up m : e1000_link_up (world s) = Some (up, m) -> nic_step s (set_world s m).

Lemma wp_run {W A} (c : act W A) w Q a w' : wp c w Q -> c w = Some (a, w') -> Q a w'.
Proof. intros (b & w2 & E & H) E'. congruence. Qed.

(** The state of a run that began in [c0] with the stores [ws]: only the two
    indices have changed, and every store since was lawful. *)
Definition in_run_of (c0 : e1000_state_t) (ws : list (Z * Z * Z)) (s : N) : Prop :=
  card_ok (card (world s)) /\ (exists rx tx, card (world s) = set_next rx tx c0) /\ net_inv s /\ receiver_ok s /\
  exists es, writes (trace (hw (world s))) = ws ++ es /\ Forall (lawful c0) es.

Lemma lawful_next c0 rx tx e : lawful (set_next rx tx c0) e -> lawful c0 e.
Proof. intros [i b o v H Ho | i o n v Hi Ho Hn | i o n v Hi Ho Hn | v Hv | v Hv]; [by eapply (lawful_buffer c0 i) | by apply (lawful_tx c0 i) | by apply (lawful_rx c0 i) | by apply (lawful_tdt c0) | by apply (lawful_rdt c0)]. Qed.

Lemma in_run_more c0 ws (s s' : N) es :
  in_run_of c0 ws s -> card_ok (card (world s')) -> (exists rx tx, card (world s') = set_next rx tx (card (world s))) -> net_inv s' ->
  upper_receiver s' = upper_receiver s -> writes (trace (hw (world s'))) = writes (trace (hw (world s))) ++ es ->
  Forall (lawful (card (world s))) es -> in_run_of c0 ws s'.
Proof.
  intros (_ & (rx & tx & Ec) & _ & Hr & es0 & Ew & Hes0) Hok (rx' & tx' & Ec') Hinv Hur Ew' Hes. split; [done |]. split; [exists rx', tx'; by rewrite Ec', Ec |].
  split; [done |]. split; [intros r Hr1; apply Hr; congruence |]. exists (es0 ++ es). split; [by rewrite Ew', Ew, app_assoc |].
  apply Forall_app_2; [done |]. rewrite Ec in Hes. eapply Forall_impl; [exact Hes |]. intros e. apply lawful_next.
Qed.

Lemma recycle_lawful c : card_ok c -> Forall (lawful c) (recycle_stores c (rx_next c)).
Proof.
  intros Hok. pose proof (ok_rx_next _ Hok) as Hi. unfold recycle_stores, rx_desc. repeat apply Forall_cons_2; [| | | apply Forall_nil_2].
  - apply lawful_rx; [done | lia | unfold DESC_SIZE; lia].
  - apply lawful_rx; [done | lia | unfold DESC_SIZE; lia].
  - by apply lawful_rdt.
Qed.

Lemma round_in_run c0 ws (s s' : N) more : in_run_of c0 ws s -> round_post s more s' -> in_run_of c0 ws s'.
Proof.
  intros H (v & _ & _ & Hinv & Hur & _ & _ & Hrest). pose proof (proj1 H) as Hok. destruct more.
  - destruct Hrest as (l & fs & Et & Ec & Hw%round_writes & _). eapply in_run_more; [exact H | | | done | done | | exact (recycle_lawful _ Hok)].
    + rewrite Ec. by apply advanced_ok.
    + rewrite Ec. by eexists _, _.
    + rewrite Et, writes_app, Hw. done.
  - destruct Hrest as (Et & Ec & _). eapply (in_run_more _ _ _ _ []); [exact H | by rewrite Ec | | done | done | | apply Forall_nil_2].
    + rewrite Ec. exists (rx_next (card (world s))), (tx_next (card (world s))). by destruct (card (world s)).
    + rewrite Et, app_nil_r. done.
Qed.

Lemma poll_in_run c0 ws fuel (s s' : N) : in_run_of c0 ws s -> poll_loop fuel s = Some (tt, s') -> in_run_of c0 ws s'.
Proof.
  revert s. induction fuel as [| fuel IH]; intros s H E; [done |]. cbn [poll_loop] in E. unfold mbind, act_bind in E.
  pose proof H as (Hok & _ & Hinv & Hr & _). assert (wp poll_round s (round_post s)) as Hwp by (apply poll_round_spec; auto).
  destruct (poll_round s) as [[more s1] |] eqn:E1; [| done]. pose proof (wp_run _ _ _ _ _ Hwp E1) as Hpost.
  pose proof (round_in_run _ _ _ _ _ H Hpost) as H1. destruct more; [by eapply IH |]. by injection E as <-.
Qed.

Lemma sent_ok c : card_ok c -> card_ok (sent c).
Proof. intros [H1 H2 H3 H4 H5 H6 H7]. split; try done. cbn. by apply Z.mod_pos_bound. Qed.

Lemma step_in_run c0 ws (s s' : N) : in_run_of c0 ws s -> nic_step s s' -> in_run_of c0 ws s'.
Proof.
  intros H Hstep. pose proof H as (Hok & _ & Hinv & Hr & _). destruct Hstep as [s frame length st m Hl E | s fuel s' E | s up m E].
  - destruct (decide (0 < length <= DMA_BUFFER_SIZE)) as [Hd | Hd].
    2: { assert (m = world s) as ->.
         { revert E. unfold e1000_transmit, mbind, act_bind, state. rewrite (ok_ready _ Hok). cbn [negb orb].
           assert ((length =? 0) || (DMA_BUFFER_SIZE <? length) = true) as -> by (apply orb_true_iff; rewrite Z.eqb_eq, Z.ltb_lt; lia). by intros [= _ <-]. }
         by destruct s. }
    destruct s as [ds ur sts lb [c p w [t] u]]. cbn [world card] in *.
    assert (wp (e1000_transmit (Some frame) length) (mk_machine c p w (mk_io (dev := dev) t) u) (fun st m => exists s' t', m = mk_machine s' p w (mk_io t') u /\
      transmit_post c (take (Z.to_nat length) frame) t st s' t')) as Hwp by (apply transmit_spec; [done | done | lia | by eauto]).
    destruct (wp_run _ _ _ _ _ Hwp E) as (c' & t' & -> & Hpost). apply transmit_lawful in Hpost as (es & Ew & Hes & Hc'); [| done | unfold zlen, DMA_BUFFER_SIZE in *; rewrite length_take; lia].
    eapply in_run_more; [exact H | | | exact Hinv | done | exact Ew | exact Hes]; cbn.
    + destruct Hc' as [-> | ->]; [done | by apply sent_ok].
    + destruct Hc' as [-> | ->]; [exists (rx_next c), (tx_next c); by destruct c | by eexists _, _].
  - revert E. unfold e1000_poll, mbind, act_bind, on_world, state. rewrite (ok_ready _ Hok). cbn [negb]. intros E.
    assert (set_world s (world s) = s) as Es by (by destruct s). rewrite Es in E. by eapply poll_in_run.
  - destruct s as [ds ur sts lb [c p w [t] u]]. cbn [world card] in *. revert E. unfold e1000_link_up, mbind, act_bind, state. cbn [card]. rewrite (ok_ready _ Hok). cbn. intros [= _ <-].
    eapply (in_run_more _ _ _ _ []); [exact H | done | | exact Hinv | done | cbn; by rewrite app_nil_r | apply Forall_nil_2].
    exists (rx_next c), (tx_next c). by destruct c.
Qed.
End History.

(** ** Where the card's memory lies *)

(** A store that touches no address field of a descriptor. *)
Definition keeps_addresses (s : e1000_state_t) (e : Z * Z * Z) : Prop :=
  (forall i, 0 <= i < RX_COUNT -> e.1.2 + e.1.1 <= rx_ring s + DESC_SIZE * i \/ rx_ring s + DESC_SIZE * i + 8 <= e.1.2) /\
  (forall i, 0 <= i < TX_COUNT -> e.1.2 + e.1.1 <= tx_ring s + DESC_SIZE * i \/ tx_ring s + DESC_SIZE * i + 8 <= e.1.2).

Definition apart (x y : Z * Z) : Prop := x.2 + PMM_PAGE_SIZE <= y.2 \/ y.2 + PMM_PAGE_SIZE <= x.2.

Lemma pages_apart boot p f0 f pages x y :
  active_boot p = Some boot -> 0 <= physical_memory_offset boot -> pmm_inv f0 -> taken f0 f pages.*1 -> pointed p pages ->
  x ∈ pages -> y ∈ pages -> x.1 <> y.1 -> apart x y.
Proof.
  intros Hb Hoff Hinv T P Hx Hy Hne. unfold pointed in P. rewrite Forall_forall in P. pose proof (tk_aligned _ _ _ T) as Ha. rewrite Forall_forall in Ha.
  assert (forall z, z ∈ pages -> z.2 = physical_memory_offset boot + z.1 /\ z.1 mod 4096 = 0) as Hz.
  { intros z Hz. assert (z.1 ∈ pages.*1) as Hz1 by (by apply list_elem_of_fmap_2). split; [| by apply Ha]. destruct (P z Hz) as [Ez _].
    assert (0 <= z.1) as H0.
    { assert (covers (free_ranges f0) z.1) as Hc by (apply (tk_free _ _ _ T z.1); [done | unfold on_frame, PMM_PAGE_SIZE; lia]).
      apply Exists_exists in Hc as (r & Hr & Hin). destruct Hinv as [(_ & HF & _) _ _ _ _ _]. rewrite Forall_forall in HF.
      destruct (HF r Hr) as [(_ & Hge & _) _]. unfold in_range, PMM_MIN_PHYSICAL in *. lia. }
    revert Ez. unfold paging_direct_pointer. rewrite Hb. if_case; [done |]. intros [= <-]. bool_cases. unfold Prelude.UINT64_MAX in *. rewrite u64_small by lia. done. }
  destruct (Hz x Hx) as [Ex Mx], (Hz y Hy) as [Ey My]. unfold apart, PMM_PAGE_SIZE. rewrite Ex, Ey.
  pose proof (Z.div_mod x.1 4096 ltac:(lia)). pose proof (Z.div_mod y.1 4096 ltac:(lia)). lia.
Qed.

(** A lawful store is one to a tail register, or within the card's memory and
    clear of the addresses the card follows. *)
Lemma lawful_kept boot p f0 f s e :
  active_boot p = Some boot -> 0 <= physical_memory_offset boot -> pmm_inv f0 -> taken f0 f (dma_pages s).*1 -> pointed p (dma_pages s) ->
  length (tx_buffer_phys s) = length (tx_buffer s) -> lawful s e ->
  (exists v, e = reg_store s REG_TDT v \/ e = reg_store s REG_RDT v) \/ Exists (fun x => in_page x e) (dma_pages s) /\ keeps_addresses s e.
Proof.
  intros Hb Hoff Hinv T P Hl He. set (rx := (rx_ring_phys s, rx_ring s)). set (tx := (tx_ring_phys s, tx_ring s)).
  pose proof (pages_apart boot p f0 f (dma_pages s)) as Hap. pose proof (tk_once _ _ _ T) as Hnd. unfold dma_pages in Hnd. rewrite !fmap_cons in Hnd. fold rx tx in Hnd.
  apply NoDup_cons in Hnd as [Hnr [Hnt _]%NoDup_cons].
  assert (rx ∈ dma_pages s) as Hrx by (apply elem_of_cons; by left). assert (tx ∈ dma_pages s) as Htx by (apply elem_of_cons; right; apply elem_of_cons; by left).
  assert (apart rx tx) as Hrt by (apply Hap; try done; intros E; apply Hnr, elem_of_cons; by left).
  unfold apart, PMM_PAGE_SIZE in Hrt. change rx.2 with (rx_ring s) in Hrt. change tx.2 with (tx_ring s) in Hrt.
  destruct He as [i b o v Hbuf Ho | i o n v Hi Ho Hn | i o n v Hi Ho Hn | v Hv | v Hv]; [right | right | right | left; exists v; by left | left; exists v; by right].
  - apply rd_lookup in Hbuf as [_ Hbuf]. assert (is_Some (tx_buffer_phys s !! Z.to_nat i)) as [q Hq] by (apply lookup_lt_is_Some; rewrite Hl; by eapply lookup_lt_Some).
    assert ((q, b) ∈ rx_pages s ++ tx_pages s) as Hin.
    { apply elem_of_app. right. apply (list_elem_of_lookup_2 _ (Z.to_nat i)). unfold tx_pages. apply lookup_zip_with_Some. eauto. }
    assert ((q, b) ∈ dma_pages s) as Hd by (do 2 (apply elem_of_cons; right); done).
    assert (q ∈ (rx_pages s ++ tx_pages s).*1) as Hq1 by (apply (list_elem_of_fmap_2 fst _ _ Hin)).
    assert (apart (q, b) rx) as H1 by (apply Hap; try done; intros E; apply Hnr, elem_of_cons; right; change rx.1 with (rx_ring_phys s); cbn in E; by rewrite <- E).
    assert (apart (q, b) tx) as H2 by (apply Hap; try done; intros E; apply Hnt; change tx.1 with (tx_ring_phys s); cbn in E; by rewrite <- E).
    unfold apart, PMM_PAGE_SIZE in H1, H2. cbn [fst snd rx tx] in H1, H2. subst rx tx. cbn [snd] in *. unfold DMA_BUFFER_SIZE in Ho.
    split; [apply Exists_exists; exists (q, b); split; [done |]; unfold in_page, PMM_PAGE_SIZE; cbn; lia |].
    unfold keeps_addresses, RX_COUNT, TX_COUNT, DESC_SIZE. cbn [fst snd]. split; intros j Hj; lia.
  - unfold TX_COUNT, DESC_SIZE in *. split; [apply Exists_exists; exists tx; split; [done |]; unfold in_page, PMM_PAGE_SIZE; cbn; lia |].
    unfold keeps_addresses, RX_COUNT, TX_COUNT, DESC_SIZE. cbn [fst snd]. split; intros j Hj; lia.
  - unfold RX_COUNT, DESC_SIZE in *. split; [apply Exists_exists; exists rx; split; [done |]; unfold in_page, PMM_PAGE_SIZE; cbn; lia |].
    unfold keeps_addresses, RX_COUNT, TX_COUNT, DESC_SIZE. cbn [fst snd]. split; intros j Hj; lia.
Qed.

(** ** The driver of a running card *)

(** A transmission that is refused at once. *)
Definition refused (s : e1000_state_t) (length : Z) : Prop := ready s = false \/ length = 0 \/ DMA_BUFFER_SIZE < length.

(** C35. Transmission, whatever the card answers.  A driver that is off, an empty
    frame or one larger than a buffer is refused without any access.  Otherwise
    the driver polls the descriptor at its index; unless the card has released
    it nothing is written.  When it has, exactly the bytes of the frame go to
    the buffer of that descriptor, then the descriptor is filled in, and only
    then the tail register moves to the next index; the result tells whether
    the last poll saw the descriptor done. *)
Theorem e1000_transmit_correct {dev U} s p w t (u : U) frame length :
  0 <= length <= zlen frame ->
  let m := mk_machine s p w (mk_io (dev := dev) t) u in
  (refused s length -> e1000_transmit (Some frame) length m = Some (NET_BAD_ARGUMENT, m)) /\
  (card_ok s -> 0 < length <= DMA_BUFFER_SIZE ->
   exists st s' t', e1000_transmit (Some frame) length m = Some (st, mk_machine s' p w (mk_io t') u) /\
     transmit_post s (take (Z.to_nat length) frame) t st s' t').
Proof.
  intros Hl m. split.
  - intros H. unfold refused in H. unfold e1000_transmit, mbind, act_bind, state. cbn [card m].
    assert (negb (ready s) || (length =? 0) || (DMA_BUFFER_SIZE <? length) = true) as ->; [| done].
    rewrite !orb_true_iff, negb_true_iff, Z.eqb_eq, Z.ltb_lt. tauto.
  - intros Hok Hd. destruct (transmit_spec (dev := dev) s p w t u frame length (fun st m => exists s' t', m = mk_machine s' p w (mk_io t') u /\
      transmit_post s (take (Z.to_nat length) frame) t st s' t') Hok Hd ltac:(lia)) as (st & m' & E & s' & t' & -> & H); [by eauto |].
    by exists st, s', t'.
Qed.

(** C36. Polling a card that stops receiving: the loop ends, with the index at the
    first descriptor that has no frame.  Every descriptor before it was read and
    handed back to the card once, in order.  For each of them in turn the network
    got a frame exactly when the status it reported has the end of a packet, its
    errors are zero and its length is 14 to 2048; that frame is the bytes loaded
    from the buffer of that descriptor, as many as it reported.  Nothing else was
    written. *)
Theorem e1000_poll_correct {dev U} (s : net_state (machine (io dev) U)) n fuel :
  card_ok (card (world s)) -> net_inv s -> receiver_ok s -> exhausted dev (card (world s)) n -> (n < fuel)%nat ->
  exists s', e1000_poll fuel s = Some (tt, s') /\ poll_post s s'.
Proof.
  intros Hok Hinv Hr Hex Hf. destruct (poll_rounds_spec fuel n s Hok Hinv Hr Hex ltac:(lia)) as ([] & s' & E & H).
  exists s'. split; [| done]. unfold e1000_poll, mbind, act_bind, on_world, state. rewrite (ok_ready _ Hok). cbn [negb].
  assert (set_world s (world s) = s) as -> by (by destruct s). exact E.
Qed.

(** C33. From a successful start on, whatever the card does and in whatever order
    frames are sent and received, each store of the driver is one to a tail
    register, or falls in the memory the card was given and leaves alone the
    buffer addresses in the rings.  So the card is never pointed at other
    memory, and both indices stay within their rings. *)
Theorem e1000_dma_confined {dev U} boot (s s0 s1 : net_state (machine (io dev) U)) pci out id :
  net_inv s -> 0 <= physical_memory_offset boot -> running boot (paging_of (world s)) (tables (world s)) -> pci_table_ok pci ->
  e1000_init pci (Some out) s = Some (E1000_OK, id, s0) -> receiver_ok s -> steps nic_step s0 s1 ->
  let c := card (world s0) in
  (exists rx tx, card (world s1) = set_next rx tx c /\ 0 <= rx < RX_COUNT /\ 0 <= tx < TX_COUNT) /\
  exists es, writes (trace (hw (world s1))) = writes (trace (hw (world s0))) ++ es /\
  Forall (fun e => (exists v, e = reg_store c REG_TDT v \/ e = reg_store c REG_RDT v) \/
                   Exists (fun x => in_page x e) (dma_pages c) /\ keeps_addresses c e) es.
Proof.
  intros Hinv Hoff Hrun Hpci E Hr Hsteps c. destruct (init_spec boot s pci out Hinv Hoff Hrun Hpci) as (st & out' & s' & es0 & E' & _ & H).
  rewrite E in E'. injection E' as <- <- <-. destruct H as (w0 & pages & Hrun0 & _ & _ & _ & Hinv0 & Hur & H). rewrite bool_decide_true in H by done. destruct H as [Hup _].
  assert (in_run_of c (writes (trace (hw (world s0)))) s1) as (Hok & (rx & tx & Ec) & _ & _ & es & Ew & Hes).
  { apply (steps_invariant nic_step _ s0); [| apply step_in_run | done]. split; [apply Hup |]. split; [exists (rx_next c), (tx_next c); unfold c; by destruct (card (world s0)) |].
    split; [done |]. split; [intros r Hr0; apply Hr; by rewrite <- Hur |]. exists []. split; [by rewrite app_nil_r | apply Forall_nil_2]. }
  split.
  - exists rx, tx. split; [done |]. pose proof (ok_rx_next _ Hok) as H1. pose proof (ok_tx_next _ Hok) as H2. rewrite Ec in H1, H2. done.
  - exists es. split; [done |]. eapply Forall_impl; [exact Hes |]. intros e He.
    apply (lawful_kept boot (paging_of (world s0)) (frames w0) (frames (tables (world s0)))); try done; try apply Hup; by eapply running_inv.
Qed.

(** ** A running machine *)

Definition ready_card : e1000_state_t :=
  mk_e1000 MMIO_BASE nic_ring 0xffff800000113000 0x112000 0x113000 (seqZ 1 32) (seqZ 1 16)
    ((fun i => 0xffff800000120000 + 4096 * i) <$> seqZ 0 32) ((fun i => 0xffff800000150000 + 4096 * i) <$> seqZ 0 16)
    [0x52; 0x54; 0; 0x12; 0x34; 0x56] 31 15 0 true.

Lemma ready_card_ok : card_ok ready_card.
Proof.
  split; [done.. |]. apply Forall_fmap, Forall_forall. intros i Hi%elem_of_seqZ. unfold compose. lia.
Qed.

Definition ready_slot {n} : net_device_slot_t (machine (io (nic_device n)) (list (list Z))) :=
  mk_slot true (mk_net_config (replicate 16 0) (replicate 6 0) 1500 true (Some (driver_transmit_fn transmit_entry))).

Definition ready_net (n : nat) : net_state (machine (io (nic_device n)) (list (list Z))) :=
  mk_net (ready_slot :: replicate 7 zero_slot) (Some nic_receiver) (mk_net_stats 1 0 0 0 0 0) 0
    (mk_machine ready_card nic_paging nic_paged.2 (mk_io []) []).

Lemma e1000_transmit_correct_witness :
  exists st m, e1000_transmit (Some [1; 2; 3]) 3 (world (ready_net 0)) = Some (st, m) /\ st = NET_OK /\ tx_next (card m) = 0 /\
    writes (trace (hw m)) = copy_stores 0xffff80000015f000 [1; 2; 3] ++ descriptor_stores 0xffff8000001130f0 3 ++ [reg_store ready_card REG_TDT 0].
Proof.
  destruct (e1000_transmit_correct (dev := nic_device 0) ready_card nic_paging nic_paged.2 [] ([] : list (list Z)) [1; 2; 3] 3 ltac:(done)) as [_ H].
  destruct (H ready_card_ok ltac:(done)) as (st & s' & t' & E & before & v & Hb & Hpost).
  assert ((fun r => (r.1, tx_next (card r.2), writes (trace (hw r.2)))) <$> e1000_transmit (Some [1; 2; 3]) 3 (world (ready_net 0)) =
    Some (NET_OK, 0, copy_stores 0xffff80000015f000 [1; 2; 3] ++ descriptor_stores 0xffff8000001130f0 3 ++ [reg_store ready_card REG_TDT 0])) as Hr by (vm_compute; reflexivity).
  eexists _, _. split; [exact E |]. cbn [world ready_net] in Hr. rewrite E in Hr. apply (inj Some), pair_equal_spec in Hr as [[H1 H2]%pair_equal_spec H3]. auto.
Defined.

Lemma nic_receiver_ok n (s : net_state (machine (io (nic_device n)) (list (list Z)))) : upper_receiver s = Some nic_receiver -> receiver_ok s.
Proof. intros E r Hr. rewrite E in Hr. injection Hr as <-. by exists (fun _ f _ u => f :: u). Qed.

Lemma ready_exhausted : exhausted (nic_device 2) ready_card 2.
Proof.
  intros t i Hi Hn. unfold answer, nic_device, on_load, rx_desc, DESC_SIZE, RX_COUNT in *. change (rx_ring ready_card) with nic_ring.
  rewrite (found_ring _ (set_rx_ring 0 nic_ring zero_state)) in Hn by done. cbn [Z.eqb]. change (1 =? 4) with false. change (1 =? 2) with false. cbv iota.
  rewrite (proj2 (Z.leb_le _ _)), (proj2 (Z.ltb_lt _ _)) by lia. replace ((nic_ring + 16 * i + 12) mod 16) with 12.
  2: { rewrite (Z.mul_comm 16 i). replace (nic_ring + i * 16 + 12) with (nic_ring + 12 + i * 16) by lia. by rewrite Z.mod_add. }
  cbn [andb]. change (12 =? 12) with true. cbv iota. by rewrite (proj2 (Nat.ltb_ge _ _) Hn).
Qed.

Definition polled {n} (s : net_state (machine (io (nic_device n)) (list (list Z)))) : Z * list Z * Z :=
  (rx_next (card (world s)), zlen <$> upper (world s), received_frames (stats s)).

Lemma e1000_poll_correct_witness :
  exists s', e1000_poll 3 (ready_net 2) = Some (tt, s') /\ polled s' = (0, [60], 1) /\ poll_post (ready_net 2) s'.
Proof.
  destruct (e1000_poll_correct (ready_net 2) 2 3 ready_card_ok) as (s' & E & H).
  - split; [done |]. split; [| done]. apply Forall_cons_2; [intros _; done | apply Forall_replicate; done].
  - by apply nic_receiver_ok.
  - apply ready_exhausted.
  - lia.
  - assert ((fun r => polled r.2) <$> e1000_poll 3 (ready_net 2) = Some (0, [60], 1)) as Hr by (vm_compute; reflexivity).
    rewrite E in Hr. apply (inj Some) in Hr. exists s'. auto.
Defined.

Lemma send_three {dev U} (s : net_state (machine (io dev) U)) : card_ok (card (world s)) -> exists s1, nic_step s s1.
Proof.
  intros Hok. destruct s as [ds ur sts lb [c p w [t] u]].
  destruct (transmit_spec (dev := dev) c p w t u [1; 2; 3] 3 (fun _ _ => True) Hok) as (st & m & Et & _); [done.. |].
  eexists. by apply (step_transmit _ [1; 2; 3] 3 st m).
Qed.

Lemma e1000_dma_confined_witness :
  exists s0 s1 es, e1000_init nic_table (Some 7) (nic_start 0) = Some (E1000_OK, Some 0, s0) /\ nic_step s0 s1 /\
    writes (trace (hw (world s1))) = writes (trace (hw (world s0))) ++ es /\
    Forall (fun e => (exists v, e = reg_store (card (world s0)) REG_TDT v \/ e = reg_store (card (world s0)) REG_RDT v) \/
                     Exists (fun x => in_page x e) (dma_pages (card (world s0))) /\ keeps_addresses (card (world s0)) e) es.
Proof.
  assert (0 <= physical_memory_offset nic_boot) as Hoff by (vm_compute; discriminate).
  destruct (init_spec nic_boot (nic_start 0) nic_table 7 (nic_start_inv 0) Hoff nic_running nic_table_ok) as (st & out' & s0 & es0 & E & _ & H).
  assert (fst <$> e1000_init nic_table (Some 7) (nic_start 0) = Some (E1000_OK, Some 0)) as Hr by (vm_compute; reflexivity).
  rewrite E in Hr. injection Hr as -> ->. destruct H as (w0 & pages & _ & _ & _ & _ & _ & _ & Hup & _).
  destruct (send_three s0 (up_ok _ _ _ _ Hup)) as [s1 Hstep].
  destruct (e1000_dma_confined nic_boot (nic_start 0) s0 s1 nic_table 7 (Some 0) (nic_start_inv 0) Hoff nic_running nic_table_ok E
    (nic_receiver_ok 0 (nic_start 0) eq_refl) (steps_one _ _ _ Hstep)) as (_ & es & Ew & Hes).
  exact (ex_intro _ s0 (ex_intro _ s1 (ex_intro _ es (conj E (conj Hstep (conj Ew Hes)))))).
Defined.
