(* ===== verification/Windows.v ===== *)
(** * Windows (compositor/window_model.c, window_model.h, josh_compositor.c)

    The geometry of windows, and the handlers of the compositor that decide it:
    moving and resizing with the pointer, snapping at the edges, maximising, full
    screen, the keyboard shortcuts, and the life of a view from its creation until
    it is freed.  wlroots is not part of the sources: its constants are the class
    [Wlroots], what it answers is a record [wlr] given to each handler, and the
    calls that ask it for something are the [request]s a handler returns, in order.
    Log messages are left out.  Coordinates of the pointer are rational numbers:
    the rounding of doubles is not modelled.  [None] is undefined behaviour: an
    [int] that overflows, or a view that has been freed. *)

From Stdlib Require Import ZArith Lia QArith String.
From stdpp Require Import base numbers list.
From S2P Require Import Prelude Bytes.

#[local] Open Scope Z_scope.

(** The conversion of a double to [int]. *)
Definition int_of (q : Q) : option Z := int (Z.quot (Qnum q) (QDen q)).

(** ** window_model.h *)

Inductive josh_snap_zone := JOSH_SNAP_NONE | JOSH_SNAP_MAXIMISE | JOSH_SNAP_LEFT | JOSH_SNAP_RIGHT.

#[export] Instance josh_snap_zone_eq_dec : EqDecision josh_snap_zone.
Proof. solve_decision. Defined.

Record josh_rect := mk_rect { x : Z; y : Z; width : Z; height : Z }.

Record josh_window_state := mk_window {
  geometry : josh_rect;
  previous_geometry : josh_rect;
  has_previous_geometry : bool;
  maximised : bool;
  minimised : bool
}.

(** ** window_model.c *)

Definition normalised_desktop (desktop : josh_rect) : josh_rect :=
  mk_rect (x desktop) (y desktop) (if width desktop <? 1 then 1 else width desktop) (if height desktop <? 1 then 1 else height desktop).

Definition josh_snap_zone_for (desktop : josh_rect) (pointer_x pointer_y : Q) (edge_threshold : Z) : option josh_snap_zone :=
  let b := normalised_desktop desktop in
  let edge_threshold := if edge_threshold <? 0 then 0 else edge_threshold in
  top ← int (y b + edge_threshold);
  if Qle_bool pointer_y (inject_Z top) then Some JOSH_SNAP_MAXIMISE
  else
    left_edge ← int (x b + edge_threshold);
    if Qle_bool pointer_x (inject_Z left_edge) then Some JOSH_SNAP_LEFT
    else
      right_end ← int (x b + width b);
      right_edge ← int (right_end - edge_threshold);
      if Qle_bool (inject_Z right_edge) pointer_x then Some JOSH_SNAP_RIGHT else Some JOSH_SNAP_NONE.

Definition josh_snap_geometry (desktop : josh_rect) (zone : josh_snap_zone) : option josh_rect :=
  let b := normalised_desktop desktop in
  match zone with
  | JOSH_SNAP_LEFT => let w := width b / 2 in Some (mk_rect (x b) (y b) (if w <? 1 then 1 else w) (height b))
  | JOSH_SNAP_RIGHT =>
      let left_width := width b / 2 in
      out_x ← int (x b + left_width);
      let w := width b - left_width in
      Some (mk_rect out_x (y b) (if w <? 1 then 1 else w) (height b))
  | JOSH_SNAP_MAXIMISE => Some b
  | JOSH_SNAP_NONE => Some (mk_rect (x b) (y b) 0 0)
  end.

Definition josh_window_toggle_maximise (window : josh_window_state) (desktop : josh_rect) : option josh_window_state :=
  if maximised window
  then Some (mk_window (if has_previous_geometry window then previous_geometry window else geometry window) (previous_geometry window) (has_previous_geometry window) false false)
  else g ← josh_snap_geometry desktop JOSH_SNAP_MAXIMISE; Some (mk_window g (geometry window) true true false).

Definition josh_window_apply_snap (window : josh_window_state) (desktop : josh_rect) (zone : josh_snap_zone) : option josh_window_state :=
  if bool_decide (zone = JOSH_SNAP_NONE) then Some window
  else
    let save := negb (has_previous_geometry window) || maximised window in
    g ← josh_snap_geometry desktop zone;
    Some (mk_window g (if save then geometry window else previous_geometry window) (if save then true else has_previous_geometry window) (bool_decide (zone = JOSH_SNAP_MAXIMISE)) false).

(** ** josh_compositor.c *)

Inductive josh_cursor_mode := JOSH_CURSOR_PASSTHROUGH | JOSH_CURSOR_MOVE | JOSH_CURSOR_RESIZE.

#[export] Instance josh_cursor_mode_eq_dec : EqDecision josh_cursor_mode.
Proof. solve_decision. Defined.

(** Constants of wlroots. *)
Class Wlroots := {
  WLR_EDGE_TOP : Z;
  WLR_EDGE_BOTTOM : Z;
  WLR_EDGE_LEFT : Z;
  WLR_EDGE_RIGHT : Z;
  WLR_MODIFIER_ALT : Z;
  WLR_MODIFIER_LOGO : Z
}.

(** A scene node: whether it is a buffer, the surface of the buffer, and the
    [data] of the node and of its parents up to the root. *)
Record scene_node := mk_node { is_buffer : bool; node_surface : option Z; node_data : list (option nat) }.

(** What wlroots answers while a handler runs: the box of the outputs, the
    surface with the keyboard focus, the view in a surface's toplevel, whether the
    seat has a keyboard, and the node under the pointer with the coordinates in it. *)
Record wlr := mk_wlr {
  layout_box : josh_rect;
  focused_surface : option Z;
  surface_view : Z -> option nat;
  seat_keyboard : bool;
  node_at : Q -> Q -> option (scene_node * Q * Q)
}.

(** [surface]: the surface of the view's toplevel. *)
Record josh_view := mk_view { surface : Z; state : josh_window_state; mapped : bool; fullscreen : bool }.

(** Views are numbered in the order of their creation; a freed one is [None]. *)
Record josh_server := mk_server {
  views : list (option josh_view);
  cursor_x : Q;
  cursor_y : Q;
  cursor_mode : josh_cursor_mode;
  grabbed_view : option nat;
  grab_x : Q;
  grab_y : Q;
  grab_geometry : josh_rect;
  resize_edges : Z;
  next_view_offset : Z
}.

(** The calls that ask wlroots, or a shell, to do something. *)
Inductive request :=
| SetPosition (view : nat) (px py : Z)
| SetSize (view : nat) (w h : Z)
| SetMaximized (view : nat) (b : bool)
| SetTiled (view : nat) (edges : Z)
| SetResizing (view : nat) (b : bool)
| SetFullscreen (view : nat) (b : bool)
| SetEnabled (view : nat) (b : bool)
| SetActivated (view : nat) (b : bool)
| SetCapabilities (view : nat)
| RaiseToTop (view : nat)
| SendClose (view : nat)
| DestroyNode (view : nat)
| KeyboardEnter (surface : Z)
| DefaultCursor
| PointerClearFocus
| PointerEnter (surface : Z) (sx sy : Q)
| PointerMotion (sx sy : Q)
| PointerButton (pressed : bool)
| PointerFrame
| SetKeyboard
| NotifyKey (keycode : Z) (pressed : bool)
| Spawn (command : string).

Definition outcome := option (josh_server * list request).

Definition set_state (v : josh_view) s : josh_view := mk_view (surface v) s (mapped v) (fullscreen v).
Definition set_mapped (v : josh_view) b : josh_view := mk_view (surface v) (state v) b (fullscreen v).
Definition set_geometry (w : josh_window_state) g : josh_window_state := mk_window g (previous_geometry w) (has_previous_geometry w) (maximised w) (minimised w).

Definition live (s : josh_server) (i : nat) : option josh_view := mjoin (views s !! i).

Definition set_views (s : josh_server) vs : josh_server :=
  mk_server vs (cursor_x s) (cursor_y s) (cursor_mode s) (grabbed_view s) (grab_x s) (grab_y s) (grab_geometry s) (resize_edges s) (next_view_offset s).
Definition set_view (s : josh_server) (i : nat) (v : josh_view) : josh_server := set_views s (<[i := Some v]> (views s)).
Definition set_cursor (s : josh_server) px py : josh_server :=
  mk_server (views s) px py (cursor_mode s) (grabbed_view s) (grab_x s) (grab_y s) (grab_geometry s) (resize_edges s) (next_view_offset s).
Definition set_grab (s : josh_server) mode v gx gy g edges : josh_server :=
  mk_server (views s) (cursor_x s) (cursor_y s) mode v gx gy g edges (next_view_offset s).

(** The state [run_server] starts from: a zeroed structure. *)
Definition server_start : josh_server := mk_server [] 0 0 JOSH_CURSOR_PASSTHROUGH None 0 0 (mk_rect 0 0 0 0) 0 0.

Definition server_desktop_bounds (e : wlr) : josh_rect :=
  let box := layout_box e in
  if (width box <? 1) || (height box <? 1) then mk_rect 0 0 1280 720 else mk_rect (x box) (y box) (width box) (height box).

Definition view_apply_geometry (i : nat) (v : josh_view) : list request :=
  let g := geometry (state v) in [SetPosition i (x g) (y g); SetSize i (width g) (height g)].

Fixpoint view_from_scene_node (data : list (option nat)) : option nat :=
  match data with [] => None | Some i :: _ => Some i | None :: data => view_from_scene_node data end.

(** The surface, the coordinates in it, and the view. *)
Definition desktop_surface_at (e : wlr) (lx ly : Q) : option (Z * Q * Q) * option nat :=
  match node_at e lx ly with
  | None => (None, None)
  | Some (node, sx, sy) =>
      if negb (is_buffer node) then (None, None)
      else match node_surface node with
           | None => (None, None)
           | Some surface => (Some (surface, sx, sy), view_from_scene_node (node_data node))
           end
  end.

Definition focus_view (s : josh_server) (e : wlr) (i : nat) (surface : Z) : option (list request) :=
  v ← live s i;
  if negb (mapped v) then Some []
  else if bool_decide (focused_surface e = Some surface) then Some []
  else
    let previous_view := previous ← focused_surface e; surface_view e previous in
    deactivated ← match previous_view with Some j => _ ← live s j; Some [SetActivated j false] | None => Some [] end;
    Some (deactivated ++ [RaiseToTop i; SetActivated i true] ++ (if seat_keyboard e then [KeyboardEnter surface] else [])).

(** The key symbols the shortcuts distinguish. *)
Inductive keysym :=
| XKB_KEY_XF86AudioRaiseVolume | XKB_KEY_XF86AudioLowerVolume | XKB_KEY_XF86AudioMute | XKB_KEY_XF86AudioMicMute
| XKB_KEY_F4 | XKB_KEY_Up | XKB_KEY_Down | XKB_KEY_Left | XKB_KEY_Right | other_keysym.

#[export] Instance keysym_eq_dec : EqDecision keysym.
Proof. solve_decision. Defined.

(** *** The pointer *)

Definition has_bit (v bit : Z) : bool := negb (Z.land v bit =? 0).

(** One axis of a resize: the position and the size after a drag by [delta]. *)
Definition resize_axis (low high : bool) (pos size delta : Z) : option (Z * Z) :=
  if low then pos' ← int (pos + delta); size' ← int (size - delta); Some (pos', size')
  else if high then size' ← int (size + delta); Some (pos, size')
  else Some (pos, size).

Section handlers.
Context `{Wlroots}.

(** The geometry while a resize is under way. *)
Definition resized (s : josh_server) : option josh_rect :=
  let g := grab_geometry s in
  dx ← int_of (cursor_x s - grab_x s)%Q;
  dy ← int_of (cursor_y s - grab_y s)%Q;
  '(px, w) ← resize_axis (has_bit (resize_edges s) WLR_EDGE_LEFT) (has_bit (resize_edges s) WLR_EDGE_RIGHT) (x g) (width g) dx;
  '(py, h) ← resize_axis (has_bit (resize_edges s) WLR_EDGE_TOP) (has_bit (resize_edges s) WLR_EDGE_BOTTOM) (y g) (height g) dy;
  Some (mk_rect px py (if w <? 100 then 100 else w) (if h <? 80 then 80 else h)).

Definition pointer_passthrough (s : josh_server) (e : wlr) : list request :=
  match fst (desktop_surface_at e (cursor_x s) (cursor_y s)) with
  | None => [DefaultCursor; PointerClearFocus]
  | Some (surface, sx, sy) => [PointerEnter surface sx sy; PointerMotion sx sy]
  end.

Definition process_cursor_motion (s : josh_server) (e : wlr) : outcome :=
  match cursor_mode s, grabbed_view s with
  | JOSH_CURSOR_MOVE, Some i =>
      v ← live s i;
      px ← int_of (cursor_x s - grab_x s)%Q;
      py ← int_of (cursor_y s - grab_y s)%Q;
      let g := geometry (state v) in
      Some (set_view s i (set_state v (set_geometry (state v) (mk_rect px py (width g) (height g)))), [SetPosition i px py])
  | JOSH_CURSOR_RESIZE, Some i =>
      v ← live s i;
      next ← resized s;
      let v := set_state v (set_geometry (state v) next) in
      Some (set_view s i v, view_apply_geometry i v)
  | _, _ => Some (s, pointer_passthrough s e)
  end.

(** Where a window was dropped decides how it snaps. *)
Definition drop_window (s : josh_server) (e : wlr) (i : nat) : outcome :=
  v ← live s i;
  let desktop := server_desktop_bounds e in
  zone ← josh_snap_zone_for desktop (cursor_x s) (cursor_y s) 24;
  if bool_decide (zone = JOSH_SNAP_NONE) then Some (s, [])
  else
    w ← josh_window_apply_snap (state v) desktop zone;
    let v := set_state v w in
    let tiled := Z.lor (Z.lor WLR_EDGE_TOP WLR_EDGE_BOTTOM) (if bool_decide (zone = JOSH_SNAP_LEFT) then WLR_EDGE_LEFT else WLR_EDGE_RIGHT) in
    Some (set_view s i v,
      view_apply_geometry i v ++
      (if bool_decide (zone = JOSH_SNAP_MAXIMISE) then [SetMaximized i true; SetTiled i 0] else [SetMaximized i false; SetTiled i tiled])).

Definition end_interactive (s : josh_server) (e : wlr) : outcome :=
  '(s, rs) ← match cursor_mode s, grabbed_view s with
             | JOSH_CURSOR_MOVE, Some i => drop_window s e i
             | JOSH_CURSOR_RESIZE, Some i => _ ← live s i; Some (s, [SetResizing i false])
             | _, _ => Some (s, [])
             end;
  Some (set_grab s JOSH_CURSOR_PASSTHROUGH None (grab_x s) (grab_y s) (grab_geometry s) 0, rs).

(** [serial_valid]: the answer of [wlr_seat_validate_pointer_grab_serial]. *)
Definition begin_interactive (s : josh_server) (e : wlr) (i : nat) (mode : josh_cursor_mode) (edges : Z) (serial_valid : bool) : option (bool * josh_server * list request) :=
  v ← live s i;
  if negb serial_valid then Some (false, s, [])
  else
    '(v, rs) ← (if maximised (state v) && bool_decide (mode = JOSH_CURSOR_MOVE)
                then w ← josh_window_toggle_maximise (state v) (server_desktop_bounds e);
                     let v := set_state v w in Some (v, SetMaximized i false :: view_apply_geometry i v)
                else Some (v, []));
    let s := set_view s i v in
    let g := geometry (state v) in
    if bool_decide (mode = JOSH_CURSOR_MOVE)
    then Some (true, set_grab s mode (Some i) (cursor_x s - inject_Z (x g))%Q (cursor_y s - inject_Z (y g))%Q g edges, rs)
    else Some (true, set_grab s mode (Some i) (cursor_x s) (cursor_y s) g edges, rs ++ [SetResizing i true]).

(** The pointer is now at ([px], [py]), after a relative or an absolute motion. *)
Definition handle_cursor_motion (s : josh_server) (e : wlr) (px py : Q) : outcome := process_cursor_motion (set_cursor s px py) e.
Definition handle_cursor_motion_absolute (s : josh_server) (e : wlr) (px py : Q) : outcome := process_cursor_motion (set_cursor s px py) e.

Definition handle_cursor_button (s : josh_server) (e : wlr) (pressed : bool) : outcome :=
  focus ← (if pressed
           then match desktop_surface_at e (cursor_x s) (cursor_y s) with
                | (Some (surface, _, _), Some i) => focus_view s e i surface
                | _ => Some []
                end
           else Some []);
  '(s, rs) ← (if pressed then Some (s, []) else end_interactive s e);
  Some (s, focus ++ [PointerButton pressed; PointerFrame] ++ rs).

(** *** The keyboard *)

Definition snap_key (s : josh_server) (desktop : josh_rect) (i : nat) (v : josh_view) (zone : josh_snap_zone) (edge : Z) : option (bool * josh_server * list request) :=
  w ← josh_window_apply_snap (state v) desktop zone;
  let v := set_state v w in
  Some (true, set_view s i v, [SetMaximized i false; SetTiled i (Z.lor (Z.lor edge WLR_EDGE_TOP) WLR_EDGE_BOTTOM)] ++ view_apply_geometry i v).

(** The shortcuts for the focused view. *)
Definition view_key (s : josh_server) (e : wlr) (i : nat) (sym : keysym) : option (bool * josh_server * list request) :=
  let desktop := server_desktop_bounds e in
  v ← live s i;
  match sym with
  | XKB_KEY_Up =>
      w ← (if negb (maximised (state v)) then josh_window_toggle_maximise (state v) desktop else Some (state v));
      let v := set_state v w in
      Some (true, set_view s i v, [SetMaximized i true; SetTiled i 0] ++ view_apply_geometry i v)
  | XKB_KEY_Down =>
      if maximised (state v)
      then w ← josh_window_toggle_maximise (state v) desktop;
           let v := set_state v w in Some (true, set_view s i v, SetMaximized i false :: view_apply_geometry i v)
      else Some (false, s, [])
  | XKB_KEY_Left => snap_key s desktop i v JOSH_SNAP_LEFT WLR_EDGE_LEFT
  | XKB_KEY_Right => snap_key s desktop i v JOSH_SNAP_RIGHT WLR_EDGE_RIGHT
  | _ => Some (false, s, [])
  end.

Definition handle_keybinding (s : josh_server) (e : wlr) (modifiers : Z) (sym : keysym) : option (bool * josh_server * list request) :=
  match sym with
  | XKB_KEY_XF86AudioRaiseVolume => Some (true, s, [Spawn "/usr/local/bin/josh-audio up"])
  | XKB_KEY_XF86AudioLowerVolume => Some (true, s, [Spawn "/usr/local/bin/josh-audio down"])
  | XKB_KEY_XF86AudioMute => Some (true, s, [Spawn "/usr/local/bin/josh-audio toggle"])
  | XKB_KEY_XF86AudioMicMute => Some (true, s, [Spawn "/usr/local/bin/josh-audio mic-toggle"])
  | _ =>
      let view := focused ← focused_surface e; surface_view e focused in
      if has_bit modifiers WLR_MODIFIER_ALT && bool_decide (sym = XKB_KEY_F4)
      then match view with None => Some (true, s, []) | Some i => _ ← live s i; Some (true, s, [SendClose i]) end
      else match view with
           | None => Some (false, s, [])
           | Some i => if negb (has_bit modifiers WLR_MODIFIER_LOGO) then Some (false, s, []) else view_key s e i sym
           end
  end.

Fixpoint keybindings (s : josh_server) (e : wlr) (modifiers : Z) (syms : list keysym) : option (bool * josh_server * list request) :=
  match syms with
  | [] => Some (false, s, [])
  | sym :: syms =>
      '(first, s, rs) ← handle_keybinding s e modifiers sym;
      '(rest, s, rs') ← keybindings s e modifiers syms;
      Some (first || rest, s, rs ++ rs')
  end.

(** [syms]: the symbols of the key in the state of the keyboard. *)
Definition handle_keyboard_key (s : josh_server) (e : wlr) (modifiers : Z) (syms : list keysym) (keycode : Z) (pressed : bool) : outcome :=
  '(handled, s, rs) ← (if pressed then keybindings s e modifiers syms else Some (false, s, []));
  Some (s, rs ++ if (handled : bool) then [] else [SetKeyboard; NotifyKey keycode pressed]).

(** *** Views *)

Definition handle_view_commit (s : josh_server) (i : nat) (initial_commit : bool) : outcome :=
  v ← live s i;
  if negb initial_commit then Some (s, [])
  else Some (s, [SetCapabilities i; SetSize i (width (geometry (state v))) (height (geometry (state v)))]).

(** [box]: the geometry the client's surface has. *)
Definition handle_view_map (s : josh_server) (e : wlr) (i : nat) (box : josh_rect) : outcome :=
  v ← live s i;
  let g := geometry (state v) in
  let g := if (0 <? width box) && (0 <? height box) then mk_rect (x g) (y g) (width box) (height box) else g in
  let s := set_view s i (set_mapped (set_state v (set_geometry (state v) g)) true) in
  focus ← focus_view s e i (surface v);
  Some (s, SetEnabled i true :: focus).

Definition handle_view_unmap (s : josh_server) (e : wlr) (i : nat) : outcome :=
  v ← live s i;
  let s := set_view s i (set_mapped v false) in
  '(s, rs) ← (if bool_decide (grabbed_view s = Some i) then end_interactive s e else Some (s, []));
  Some (s, SetEnabled i false :: rs).

Definition handle_view_destroy (s : josh_server) (i : nat) : outcome :=
  _ ← live s i; Some (set_views s (<[i := None]> (views s)), [DestroyNode i]).

Definition handle_request_move (s : josh_server) (e : wlr) (i : nat) (serial_valid : bool) : outcome :=
  '(_, s, rs) ← begin_interactive s e i JOSH_CURSOR_MOVE 0 serial_valid; Some (s, rs).

Definition handle_request_resize (s : josh_server) (e : wlr) (i : nat) (edges : Z) (serial_valid : bool) : outcome :=
  '(_, s, rs) ← begin_interactive s e i JOSH_CURSOR_RESIZE edges serial_valid; Some (s, rs).

Definition handle_request_maximize (s : josh_server) (e : wlr) (i : nat) (requested : bool) : outcome :=
  v ← live s i;
  if negb (Bool.eqb requested (maximised (state v)))
  then w ← josh_window_toggle_maximise (state v) (server_desktop_bounds e);
       let v := set_state v w in Some (set_view s i v, view_apply_geometry i v ++ [SetMaximized i requested])
  else Some (s, [SetMaximized i requested]).

Definition handle_request_fullscreen (s : josh_server) (e : wlr) (i : nat) (requested : bool) : outcome :=
  v ← live s i;
  let w := state v in
  if requested && negb (fullscreen v)
  then let v := mk_view (surface v) (mk_window (server_desktop_bounds e) (geometry w) true (maximised w) (minimised w)) (mapped v) true in
       Some (set_view s i v, view_apply_geometry i v ++ [SetFullscreen i requested])
  else if negb requested && fullscreen v
  then let g := if has_previous_geometry w then previous_geometry w else geometry w in
       let v := mk_view (surface v) (set_geometry w g) (mapped v) false in
       Some (set_view s i v, view_apply_geometry i v ++ [SetFullscreen i requested])
  else Some (s, [SetFullscreen i requested]).

Definition handle_request_minimize (s : josh_server) (i : nat) : outcome :=
  v ← live s i; Some (s, [SetSize i (width (geometry (state v))) (height (geometry (state v)))]).

(** [allocated]: whether the memory of the view and its scene tree could be had. *)
Definition handle_new_toplevel (s : josh_server) (surface : Z) (allocated : bool) : outcome :=
  if negb allocated then Some (s, [])
  else
    let i := List.length (views s) in
    let offset := 48 + u32 (next_view_offset s mod 8 * 28) in
    let v := mk_view surface (mk_window (mk_rect offset offset 900 650) (mk_rect 0 0 0 0) false false false) false false in
    let s := mk_server (views s ++ [Some v]) (cursor_x s) (cursor_y s) (cursor_mode s) (grabbed_view s) (grab_x s) (grab_y s) (grab_geometry s) (resize_edges s) (u32 (next_view_offset s + 1)) in
    Some (s, [SetPosition i offset offset; SetEnabled i false]).

End handlers.

(** ** Specification *)

(** A point of the plane lies in a rectangle. *)
Definition inside (r : josh_rect) (px py : Z) : Prop := x r <= px < x r + width r /\ y r <= py < y r + height r.

Definition visible (r : josh_rect) : Prop := 1 <= width r /\ 1 <= height r.

(** A window has an area, and so has what it goes back to. *)
Definition window_ok (w : josh_window_state) : Prop :=
  visible (geometry w) /\ (has_previous_geometry w = true -> visible (previous_geometry w)).

(** How much is known of the order of events ([orderly], below), and what then
    holds of the view that is grabbed: nothing, that it has not been freed, or
    that it is mapped as well. *)
Inductive discipline := AnyOrder | GrabOutlives | GrabMapped.

Definition grab_ok (o : discipline) (s : josh_server) (i : nat) : Prop :=
  match o with AnyOrder => True | GrabOutlives => is_Some (live s i) | GrabMapped => mapped <$> live s i = Some true end.

(** Every view is well formed, and a grab is on a view as above. *)
Record server_ok (o : discipline) (s : josh_server) : Prop := {
  ok_views i v : live s i = Some v -> window_ok (state v);
  ok_grab i : grabbed_view s = Some i -> grab_ok o s i;
  ok_mode : cursor_mode s = JOSH_CURSOR_PASSTHROUGH <-> grabbed_view s = None
}.

(** No size is asked of a client that is not one of a window. *)
Definition request_ok (r : request) : Prop := match r with SetSize _ w h => 1 <= w /\ 1 <= h | _ => True end.

(** Truncation does not depend on how a rational is written. *)
#[export] Instance int_of_proper : Proper (Qeq ==> eq) int_of.
Proof.
  intros p q E. unfold int_of. f_equal. unfold Qeq in E.
  rewrite <- (Z.quot_mul_cancel_r (Qnum p) (QDen p) (QDen q)), <- (Z.quot_mul_cancel_r (Qnum q) (QDen q) (QDen p)) by lia.
  rewrite E. f_equal. lia.
Qed.

Lemma int_of_inject v : - 2 ^ 31 <= v < 2 ^ 31 -> int_of (inject_Z v) = Some v.
Proof. intros. unfold int_of. cbn. rewrite Z.quot_1_r. by apply int_in. Qed.

Lemma normalised_visible d : visible (normalised_desktop d).
Proof. unfold visible, normalised_desktop; cbn. destruct (Z.ltb_spec (width d) 1), (Z.ltb_spec (height d) 1); lia. Qed.

Lemma bounds_visible e : visible (server_desktop_bounds e).
Proof. unfold visible, server_desktop_bounds. destruct (_ || _) eqn:E; cbn; [lia |]. apply orb_false_iff in E. lia. Qed.

Lemma snap_geometry_visible d z g : z <> JOSH_SNAP_NONE -> josh_snap_geometry d z = Some g -> visible g.
Proof.
  intros Hz. pose proof (normalised_visible d) as Hb. unfold josh_snap_geometry. revert Hb. generalize (normalised_desktop d) as b.
  intros b [? ?]. destruct z; [done | | |].
  - by intros [= <-].
  - intros [= <-]. unfold visible; cbn. destruct (Z.ltb_spec (width b / 2) 1); lia.
  - destruct (int _) as [px |]; cbn; [| done]. intros [= <-]. unfold visible; cbn.
    destruct (Z.ltb_spec (width b - width b / 2) 1); lia.
Qed.

Lemma toggle_ok w d w' : window_ok w -> josh_window_toggle_maximise w d = Some w' -> window_ok w'.
Proof.
  intros [Hg Hp]. unfold josh_window_toggle_maximise. destruct (maximised w).
  - intros [= <-]. split; [| done]. cbn. destruct (has_previous_geometry w); auto.
  - destruct (josh_snap_geometry _ _) as [g |] eqn:E; cbn [mbind option_bind]; [| done]. intros [= <-].
    split; [by eapply snap_geometry_visible; [| exact E] | done].
Qed.

Lemma snap_ok w d z w' : window_ok w -> josh_window_apply_snap w d z = Some w' -> window_ok w'.
Proof.
  intros [Hg Hp]. unfold josh_window_apply_snap. case_bool_decide as Hz; [by intros [= <-] |].
  destruct (josh_snap_geometry _ _) as [g |] eqn:E; cbn [mbind option_bind]; [| done]. intros [= <-].
  split; cbn; [by eapply snap_geometry_visible |]. by destruct (negb _ || _).
Qed.

Definition views_ok (s : josh_server) : Prop := forall i v, live s i = Some v -> window_ok (state v).

Lemma live_set_view s i v0 v j : live s i = Some v0 -> live (set_view s i v) j = if decide (j = i) then Some v else live s j.
Proof.
  unfold live, set_view, set_views; cbn. intros Hi.
  assert (i < Datatypes.length (views s))%nat as Hl by (apply lookup_lt_is_Some; destruct (views s !! i); [by eexists | done]).
  destruct (decide (j = i)) as [-> |]; [by rewrite list_lookup_insert_eq | by rewrite list_lookup_insert_ne].
Qed.

Lemma set_view_views s i v0 v : views_ok s -> live s i = Some v0 -> window_ok (state v) -> views_ok (set_view s i v).
Proof. intros Hs Hi Hv j w. rewrite (live_set_view s i v0) by done. case_decide; [by intros [= <-] | apply Hs]. Qed.

Lemma grab_ok_view o s i v0 v j : live s i = Some v0 -> (mapped v0 = true -> mapped v = true) -> grab_ok o s j -> grab_ok o (set_view s i v) j.
Proof.
  intros Hi Hm. unfold grab_ok. rewrite (live_set_view s i v0) by done. case_decide as Hj; [| done]. subst. rewrite Hi.
  destruct o; cbn; [done | by eauto |]. intros [= E]. f_equal. auto.
Qed.

Lemma set_view_ok o s i v0 v : server_ok o s -> live s i = Some v0 -> window_ok (state v) -> (mapped v0 = true -> mapped v = true) -> server_ok o (set_view s i v).
Proof. intros [Hs Hg Hm] Hi Hv Hmap. split; [by eapply set_view_views | | done]. intros j Hj. eapply grab_ok_view; [done | done |]. by apply Hg. Qed.

Lemma apply_geometry_ok i v : window_ok (state v) -> Forall request_ok (view_apply_geometry i v).
Proof. intros [? _]. repeat constructor; apply H. Qed.

Lemma set_geometry_ok w g : window_ok w -> visible g -> window_ok (set_geometry w g).
Proof. intros [? ?] ?. by split. Qed.

Lemma focus_requests_ok s e i sf rs : focus_view s e i sf = Some rs -> Forall request_ok rs.
Proof.
  unfold focus_view. destruct (live s i) as [v |]; cbn [mbind option_bind]; [| done].
  destruct (negb _); [intros [= <-]; constructor |]. case_bool_decide; [intros [= <-]; constructor |].
  destruct (mbind _ (focused_surface e)) as [j |]; [destruct (live s j); [| done] |]; intros [= <-]; destruct (seat_keyboard e); repeat constructor.
Qed.

(** The steps most handlers end with. *)
Lemma change_ok o s i v0 v rs : server_ok o s -> live s i = Some v0 -> window_ok (state v) -> (mapped v0 = true -> mapped v = true) ->
    Forall request_ok rs -> server_ok o (set_view s i v) /\ Forall request_ok rs.
Proof. intros. split; [by eapply set_view_ok | done]. Qed.

(** Splits the binds of a handler. *)
Ltac bind_cases H :=
  repeat match type of H with
  | (mbind _ ?o) = Some _ => let E := fresh "E" in destruct o as [?|] eqn:E; cbn [mbind option_bind] in H; [| discriminate H]
  | (let '(_, _) := ?p in _) = Some _ => destruct p
  end.

Section preservation.
Context `{Wlroots}.

Lemma resized_visible s g : resized s = Some g -> visible g.
Proof.
  unfold resized. intros E. bind_cases E. injection E as <-. unfold visible; cbn.
  repeat match goal with |- context[?a <? ?b] => destruct (Z.ltb_spec a b) end; lia.
Qed.

Lemma passthrough_requests_ok s e : Forall request_ok (pointer_passthrough s e).
Proof. unfold pointer_passthrough. destruct (fst _) as [[[] ] |]; repeat constructor. Qed.

Lemma motion_ok o s e s' rs : server_ok o s -> process_cursor_motion s e = Some (s', rs) -> server_ok o s' /\ Forall request_ok rs.
Proof.
  intros Hs. unfold process_cursor_motion. pose proof (conj Hs (passthrough_requests_ok s e)) as Hpass.
  destruct (cursor_mode s), (grabbed_view s) as [i |]; intros E; try (injection E as <- <-; exact Hpass); bind_cases E; injection E as <- <-.
  - eapply change_ok; [done | done | | done | by repeat constructor].
    eapply set_geometry_ok; [by eapply ok_views |]. eapply (ok_views _ _ Hs _ _ E0).
  - assert (window_ok (set_geometry (state j) j0)) by (eapply set_geometry_ok; [by eapply ok_views | by eapply resized_visible]).
    eapply change_ok; [done | done | done | done | by apply apply_geometry_ok].
Qed.

Lemma end_interactive_ok o s e s' rs : views_ok s -> end_interactive s e = Some (s', rs) -> server_ok o s' /\ Forall request_ok rs.
Proof.
  intros Hs. unfold end_interactive. intros E. bind_cases E. injection E as <- <-.
  assert (views_ok j /\ Forall request_ok l) as [Hv Hl].
  { destruct (cursor_mode s), (grabbed_view s) as [i |]; try (injection E0 as <- <-; by split; [| constructor]).
    - unfold drop_window in E0. bind_cases E0. case_bool_decide; [injection E0 as <- <-; by split; [| constructor] |]. bind_cases E0. injection E0 as <- <-.
      assert (window_ok j2) by (eapply snap_ok; [| done]; by eapply Hs). split; [by eapply set_view_views |].
      apply (Forall_app_2 _ (view_apply_geometry i (set_state j0 j2))); [by apply apply_geometry_ok |]. case_bool_decide; repeat constructor.
    - bind_cases E0. injection E0 as <- <-. split; [done | repeat constructor]. }
  split; [| done]. split; [exact Hv | by intros | done].
Qed.

Lemma begin_interactive_ok o s e i mode edges valid b s' rs : server_ok o s -> mode <> JOSH_CURSOR_PASSTHROUGH ->
    (o = GrabMapped -> valid = true -> mapped <$> live s i = Some true) ->
    begin_interactive s e i mode edges valid = Some (b, s', rs) -> server_ok o s' /\ Forall request_ok rs.
Proof.
  intros Hs Hmode Hvalid. unfold begin_interactive. intros E. bind_cases E.
  destruct valid; cbn [negb] in E; [| injection E as <- <- <-; by split; [| constructor]].
  assert (o = GrabMapped -> mapped j = true) as Hmap by (intros Ho; specialize (Hvalid Ho eq_refl); by injection Hvalid). clear Hvalid. bind_cases E.
  assert (window_ok (state j0) /\ mapped j0 = mapped j /\ Forall request_ok l) as (Hw & Hm & Hl).
  { pose proof (ok_views _ _ Hs _ _ E0) as Hj. destruct (_ && _); [| injection E1 as <- <-; exact (conj Hj (conj eq_refl (Forall_nil_2 _)))].
    bind_cases E1. injection E1 as <- <-. assert (window_ok j1) by (by eapply toggle_ok).
    split; [done |]. split; [done |]. constructor; [done |]. by apply (apply_geometry_ok i (set_state j j1)). }
  pose proof (set_view_ok o s i j j0 Hs E0 Hw ltac:(by rewrite Hm)) as Hs'.
  assert (forall gx gy g, server_ok o (set_grab (set_view s i j0) mode (Some i) gx gy g edges)) as Hg.
  { intros gx gy g. split; [exact (ok_views _ _ Hs') | | by split].
    intros k [= <-]. assert (live (set_grab (set_view s i j0) mode (Some i) gx gy g edges) i = Some j0) as E2
      by (change (live (set_view s i j0) i = Some j0); rewrite (live_set_view s i j) by done; by rewrite decide_True).
    unfold grab_ok. rewrite E2. destruct o; [done | by eexists |]. cbn. rewrite Hm. f_equal. by apply Hmap. }
  case_bool_decide; injection E as <- <- <-; (split; [apply Hg |]); [done |]. apply Forall_app_2; [done | repeat constructor].
Qed.

Lemma toggled_ok o s i v d w tail : server_ok o s -> live s i = Some v -> josh_window_toggle_maximise (state v) d = Some w -> Forall request_ok tail ->
    server_ok o (set_view s i (set_state v w)) /\ Forall request_ok (view_apply_geometry i (set_state v w) ++ tail).
Proof.
  intros Hs Hi Hw Ht. assert (window_ok w) by (eapply toggle_ok; [by eapply ok_views | done]).
  eapply change_ok; [done | done | done | done |]. apply Forall_app_2; [by apply apply_geometry_ok | done].
Qed.

Lemma snap_key_ok o s d i v z edge b s' rs : server_ok o s -> live s i = Some v -> snap_key s d i v z edge = Some (b, s', rs) -> server_ok o s' /\ Forall request_ok rs.
Proof.
  intros Hs Hi. unfold snap_key. intros E. bind_cases E. injection E as <- <- <-.
  assert (window_ok j) by (eapply snap_ok; [by eapply ok_views | done]).
  eapply change_ok; [done | done | done | done |]. do 2 (constructor; [done |]). by apply (apply_geometry_ok i (set_state v j)).
Qed.

Lemma view_key_ok o s e i sym b s' rs : server_ok o s -> view_key s e i sym = Some (b, s', rs) -> server_ok o s' /\ Forall request_ok rs.
Proof.
  intros Hs. unfold view_key. intros E. bind_cases E. pose proof (ok_views _ _ Hs _ _ E0) as Hj.
  destruct sym; try (injection E as <- <- <-; by split; [| constructor]); try by eapply snap_key_ok.
  - bind_cases E. injection E as <- <- <-.
    assert (window_ok j0) by (destruct (negb _); [by eapply toggle_ok | by simplify_eq]).
    eapply change_ok; [done | done | done | done |]. do 2 (constructor; [done |]). by apply (apply_geometry_ok i (set_state j j0)).
  - destruct (maximised (state j)); [| injection E as <- <- <-; by split; [| constructor]]. bind_cases E. injection E as <- <- <-.
    assert (window_ok j0) by (by eapply toggle_ok).
    eapply change_ok; [done | done | done | done |]. constructor; [done | by apply (apply_geometry_ok i (set_state j j0))].
Qed.

Lemma keybinding_ok o s e m sym b s' rs : server_ok o s -> handle_keybinding s e m sym = Some (b, s', rs) -> server_ok o s' /\ Forall request_ok rs.
Proof.
  intros Hs E. unfold handle_keybinding in E.
  destruct sym; try (injection E as <- <- <-; split; [done | repeat constructor]); cbn zeta in E;
    (destruct (has_bit m WLR_MODIFIER_ALT && _);
     [ destruct (mbind _ _) as [k |]; bind_cases E; injection E as <- <- <-; split; [done | repeat constructor | done | constructor]
     | destruct (mbind _ _) as [k |]; [| injection E as <- <- <-; by split; [| constructor]];
       destruct (negb _); [injection E as <- <- <-; by split; [| constructor] | by eapply view_key_ok] ]).
Qed.

Lemma keybindings_ok o syms s e m b s' rs : server_ok o s -> keybindings s e m syms = Some (b, s', rs) -> server_ok o s' /\ Forall request_ok rs.
Proof.
  revert s b s' rs. induction syms as [| sym syms IH]; intros s b s' rs Hs E; cbn [keybindings] in E.
  - injection E as <- <- <-. by split; [| constructor].
  - bind_cases E. injection E as <- <- <-.
    destruct (keybinding_ok _ _ _ _ _ _ _ _ Hs E0) as [Hs1 ?]. destruct (IH _ _ _ _ Hs1 E1). split; [done | by apply Forall_app_2].
Qed.

Lemma button_ok o s e pressed s' rs : server_ok o s -> handle_cursor_button s e pressed = Some (s', rs) -> server_ok o s' /\ Forall request_ok rs.
Proof.
  intros Hs. unfold handle_cursor_button. intros E. bind_cases E. injection E as <- <-.
  assert (Forall request_ok l) as Hl.
  { destruct pressed; [| injection E0 as <-; constructor].
    destruct (desktop_surface_at _ _ _) as [[[[] ] |] [k |]]; try (injection E0 as <-; constructor). by eapply focus_requests_ok. }
  assert (server_ok o j /\ Forall request_ok l0) as [? ?].
  { destruct pressed; [injection E1 as <- <-; exact (conj Hs (Forall_nil_2 _)) | eapply end_interactive_ok; [exact (ok_views _ _ Hs) | done]]. }
  split; [done |]. apply Forall_app_2; [done |]. by do 2 (constructor; [done |]).
Qed.

Lemma map_ok o s e i box s' rs : server_ok o s -> handle_view_map s e i box = Some (s', rs) -> server_ok o s' /\ Forall request_ok rs.
Proof.
  intros Hs. unfold handle_view_map. intros E. bind_cases E. injection E as <- <-. pose proof (ok_views _ _ Hs _ _ E0) as Hj.
  eapply change_ok; [done | done | | done | by constructor; [| eapply focus_requests_ok]].
  apply set_geometry_ok; [done |]. destruct (_ && _) eqn:Hb; [| apply Hj]. apply andb_true_iff in Hb. unfold visible; cbn. lia.
Qed.

Lemma unmap_ok o s e i s' rs : server_ok o s -> handle_view_unmap s e i = Some (s', rs) -> server_ok o s' /\ Forall request_ok rs.
Proof.
  intros Hs. unfold handle_view_unmap. intros E. bind_cases E. injection E as <- <-. pose proof (ok_views _ _ Hs _ _ E0) as Hj.
  assert (views_ok (set_view s i (set_mapped j false))) as Hv by (eapply set_view_views; [exact (ok_views _ _ Hs) | done | done]).
  case_bool_decide as Hg.
  - destruct (end_interactive_ok o _ _ _ _ Hv E1). by split; [| constructor].
  - injection E1 as <- <-. split; [| by constructor]. split; [done | | apply Hs].
    intros k Hk. pose proof (ok_grab _ _ Hs k Hk) as Hgk. assert (k <> i) as Hki by (intros ->; by apply Hg).
    unfold grab_ok in *. rewrite (live_set_view s i j) by done. by rewrite decide_False.
Qed.

(** What is known of an event in the state it comes in: that a view is freed only
    when it is not grabbed; or that an interactive request is granted only while
    the view is mapped and that a view is freed only after it was unmapped. *)
Definition destroy_orderly (o : discipline) (s : josh_server) (i : nat) : Prop :=
  match o with AnyOrder => True | GrabOutlives => grabbed_view s <> Some i | GrabMapped => mapped <$> live s i = Some false end.

Lemma destroy_ok o s i s' rs : server_ok o s -> destroy_orderly o s i -> handle_view_destroy s i = Some (s', rs) -> server_ok o s' /\ Forall request_ok rs.
Proof.
  intros Hs Hd. unfold handle_view_destroy. intros E. bind_cases E. injection E as <- <-.
  assert (forall k v, live (set_views s (<[i := None]> (views s))) k = Some v -> live s k = Some v) as Hsub.
  { intros k v. unfold live, set_views; cbn. rewrite list_lookup_insert. by case_decide. }
  assert (forall k, k <> i -> live (set_views s (<[i := None]> (views s))) k = live s k) as Hne.
  { intros k Hk. unfold live, set_views; cbn. by rewrite list_lookup_insert_ne. }
  split; [| by repeat constructor]. split; [| | apply Hs].
  - intros k v Hk. eapply (ok_views _ _ Hs). by apply Hsub.
  - intros k Hk. pose proof (ok_grab _ _ Hs k Hk) as Hgk. destruct o; [done | |]; cbn [grab_ok destroy_orderly] in *; (rewrite Hne; [done | intros ->]); [done | congruence].
Qed.

Lemma maximize_ok o s e i b s' rs : server_ok o s -> handle_request_maximize s e i b = Some (s', rs) -> server_ok o s' /\ Forall request_ok rs.
Proof.
  intros Hs. unfold handle_request_maximize. intros E. bind_cases E.
  destruct (negb _); [| injection E as <- <-; split; [done | repeat constructor]].
  bind_cases E. injection E as <- <-. eapply (toggled_ok o s i j _ j0 [SetMaximized i b]); [done | done | done | repeat constructor].
Qed.

Lemma fullscreen_ok o s e i b s' rs : server_ok o s -> handle_request_fullscreen s e i b = Some (s', rs) -> server_ok o s' /\ Forall request_ok rs.
Proof.
  intros Hs. unfold handle_request_fullscreen. intros E. bind_cases E. destruct (ok_views _ _ Hs _ _ E0) as [Hg Hp].
  assert (forall v, window_ok (state v) -> mapped v = mapped j ->
            server_ok o (set_view s i v) /\ Forall request_ok (view_apply_geometry i v ++ [SetFullscreen i b])) as Hc.
  { intros v Hv Hm. eapply change_ok; [done | done | done | congruence |]. apply Forall_app_2; [by apply apply_geometry_ok | repeat constructor]. }
  destruct (b && _); [| destruct (_ && _)]; injection E as <- <-.
  - apply Hc; [| done]. split; [apply bounds_visible | done].
  - apply Hc; [| done]. split; [| done]. cbn. destruct (has_previous_geometry (state j)); auto.
  - split; [done | repeat constructor].
Qed.

Lemma toplevel_ok o s sf b s' rs : server_ok o s -> handle_new_toplevel s sf b = Some (s', rs) -> server_ok o s' /\ Forall request_ok rs.
Proof.
  intros Hs. unfold handle_new_toplevel. destruct (negb b); intros E; injection E as <- <-; [by split; [| constructor] |].
  split; [| by repeat constructor]. split; [| | apply Hs]; unfold live; cbn.
  - intros k v Hk. destruct (views s !! k) as [w |] eqn:Ho.
    + rewrite (lookup_app_l_Some _ _ _ _ Ho) in Hk. eapply (ok_views _ _ Hs k). unfold live. by rewrite Ho.
    + rewrite lookup_app_r in Hk by (by apply lookup_ge_None). destruct (k - _)%nat; [| done]. injection Hk as <-. split; [split; cbn; lia | done].
  - intros k Hk. pose proof (ok_grab _ _ Hs k Hk) as Hgk. unfold grab_ok, live in *. cbn.
    destruct (views s !! k) as [w |] eqn:Ho; [by rewrite (lookup_app_l_Some _ _ _ _ Ho) |]. destruct o; [done | by destruct Hgk | done].
Qed.
End preservation.

(** ** Histories *)

Inductive event :=
| Motion (px py : Q)
| MotionAbsolute (px py : Q)
| Button (pressed : bool)
| Key (modifiers : Z) (syms : list keysym) (keycode : Z) (pressed : bool)
| Commit (i : nat) (initial : bool)
| Map (i : nat) (box : josh_rect)
| Unmap (i : nat)
| Destroy (i : nat)
| RequestMove (i : nat) (serial_valid : bool)
| RequestResize (i : nat) (edges : Z) (serial_valid : bool)
| RequestMaximize (i : nat) (requested : bool)
| RequestFullscreen (i : nat) (requested : bool)
| RequestMinimize (i : nat)
| NewToplevel (surface : Z) (allocated : bool).

Section histories.
Context `{Wlroots}.

Definition handle (s : josh_server) (e : wlr) (ev : event) : outcome :=
  match ev with
  | Motion px py => handle_cursor_motion s e px py
  | MotionAbsolute px py => handle_cursor_motion_absolute s e px py
  | Button pressed => handle_cursor_button s e pressed
  | Key modifiers syms keycode pressed => handle_keyboard_key s e modifiers syms keycode pressed
  | Commit i initial => handle_view_commit s i initial
  | Map i box => handle_view_map s e i box
  | Unmap i => handle_view_unmap s e i
  | Destroy i => handle_view_destroy s i
  | RequestMove i valid => handle_request_move s e i valid
  | RequestResize i edges valid => handle_request_resize s e i edges valid
  | RequestMaximize i b => handle_request_maximize s e i b
  | RequestFullscreen i b => handle_request_fullscreen s e i b
  | RequestMinimize i => handle_request_minimize s i
  | NewToplevel sf b => handle_new_toplevel s sf b
  end.

Definition orderly (o : discipline) (s : josh_server) (ev : event) : Prop :=
  match ev with
  | RequestMove i true | RequestResize i _ true => o = GrabMapped -> mapped <$> live s i = Some true
  | Destroy i => destroy_orderly o s i
  | _ => True
  end.

Definition step (o : discipline) (s s' : josh_server) : Prop := exists e ev rs, orderly o s ev /\ handle s e ev = Some (s', rs).

Lemma set_cursor_ok o s px py : server_ok o s -> server_ok o (set_cursor s px py).
Proof. intros Hs. split; apply Hs. Qed.

Lemma handle_ok o s e ev s' rs : server_ok o s -> orderly o s ev -> handle s e ev = Some (s', rs) -> server_ok o s' /\ Forall request_ok rs.
Proof.
  intros Hs Ha E. destruct ev; cbn [handle] in E.
  - eapply motion_ok; [by apply set_cursor_ok | exact E].
  - eapply motion_ok; [by apply set_cursor_ok | exact E].
  - by eapply button_ok.
  - unfold handle_keyboard_key in E. bind_cases E. injection E as <- <-.
    assert (server_ok o j /\ Forall request_ok l) as [? ?]
      by (destruct pressed; [by eapply keybindings_ok | injection E0 as <- <- <-; exact (conj Hs (Forall_nil_2 _))]).
    split; [done |]. apply Forall_app_2; [done | destruct b; repeat constructor].
  - unfold handle_view_commit in E. bind_cases E. destruct (ok_views _ _ Hs _ _ E0) as [[? ?] _].
    destruct (negb initial); injection E as <- <-; (split; [done |]); repeat constructor; done.
  - by eapply map_ok.
  - by eapply unmap_ok.
  - by eapply destroy_ok.
  - unfold handle_request_move in E. bind_cases E. injection E as <- <-.
    eapply begin_interactive_ok; [done | | | exact E0]; [done | intros Ho ->; by apply Ha].
  - unfold handle_request_resize in E. bind_cases E. injection E as <- <-.
    eapply begin_interactive_ok; [done | | | exact E0]; [done | intros Ho ->; by apply Ha].
  - by eapply maximize_ok.
  - by eapply fullscreen_ok.
  - unfold handle_request_minimize in E. bind_cases E. destruct (ok_views _ _ Hs _ _ E0) as [[? ?] _].
    injection E as <- <-. split; [done |]. by repeat constructor.
  - by eapply toplevel_ok.
Qed.

Lemma server_start_ok o : server_ok o server_start.
Proof. split; [by intros [] | done | done]. Qed.

Lemma history_ok o s : steps (step o) server_start s -> server_ok o s.
Proof. apply steps_invariant; [exact (server_start_ok o) |]. intros a b Ha (e & ev & rs & Hev & E). by eapply handle_ok. Qed.

Lemma server_ok_any o s : server_ok o s -> server_ok AnyOrder s.
Proof. intros [Hv _ Hm]. by split. Qed.

(** The positions a motion of the pointer stores fit an [int]. *)
Definition motion_in_range (s : josh_server) : Prop :=
  match cursor_mode s with
  | JOSH_CURSOR_PASSTHROUGH => True
  | JOSH_CURSOR_MOVE => is_Some (int_of (cursor_x s - grab_x s)%Q) /\ is_Some (int_of (cursor_y s - grab_y s)%Q)
  | JOSH_CURSOR_RESIZE => is_Some (resized s)
  end.

Lemma grab_live o s i : server_ok o s -> o <> AnyOrder -> grabbed_view s = Some i -> exists v, live s i = Some v /\ (o = GrabMapped -> mapped v = true).
Proof.
  intros Hs Ho G. pose proof (ok_grab _ _ Hs _ G) as Hg. unfold grab_ok in Hg. destruct (live s i) as [v |]; [| by destruct o; [| destruct Hg |]].
  exists v. split; [done |]. intros ->. by injection Hg.
Qed.

Lemma motion_defined o s e : server_ok o s -> o <> AnyOrder -> motion_in_range s -> is_Some (process_cursor_motion s e).
Proof.
  intros Hs Ho Hr. unfold process_cursor_motion, motion_in_range in *. destruct (cursor_mode s); [by eexists | |];
    (destruct (grabbed_view s) as [i |] eqn:G; [| by eexists]); destruct (grab_live o s i Hs Ho G) as (v & -> & _); cbn [mbind option_bind].
  - destruct Hr as [[px ->] [py ->]]. by eexists.
  - destruct Hr as [g ->]. by eexists.
Qed.

(** C37. Whatever the clients and the user do, in any order, every window keeps an
    area, so does the geometry it will go back to, and no client is ever asked for
    an empty size.  As long as no view is freed while it is grabbed, the view that
    is dragged has not been freed, and moving the pointer is defined whenever the
    new position fits an [int].  When in addition interactive requests are granted
    only on mapped views and views are freed only after they were unmapped, no view
    is freed while it is grabbed, and the view that is dragged is mapped. *)
Theorem windows_history_safe o s : steps (step o) server_start s ->
  (forall i v, live s i = Some v -> window_ok (state v)) /\
  (forall e ev s' rs, handle s e ev = Some (s', rs) -> Forall request_ok rs) /\
  (o <> AnyOrder ->
   (forall i, grabbed_view s = Some i -> exists v, live s i = Some v /\ (o = GrabMapped -> mapped v = true)) /\
   (forall e px py, motion_in_range (set_cursor s px py) -> is_Some (handle s e (Motion px py)))).
Proof.
  intros Hs%history_ok. split; [apply Hs |]. split.
  - intros e ev s' rs E. eapply handle_ok; [by eapply server_ok_any | | exact E]. by destruct ev as [| | | | | | | | ? [] | ? ? [] | | | |].
  - intros Ho. split; [intros i; by apply grab_live |]. intros e px py. apply (motion_defined o); [by apply set_cursor_ok | done].
Qed.

Lemma move_granted s e i v : live s i = Some v ->
  exists v1 gx gy g rs, handle_request_move s e i true = Some (set_grab (set_view s i v1) JOSH_CURSOR_MOVE (Some i) gx gy g 0, rs).
Proof.
  intros Hi. unfold handle_request_move, begin_interactive. rewrite Hi. cbn [mbind option_bind negb].
  unfold josh_window_toggle_maximise. destruct (maximised (state v)); by do 5 eexists.
Qed.

Lemma live_destroyed s i v : live s i = Some v -> live (set_views s (<[i := None]> (views s))) i = None.
Proof.
  intros Hi. unfold live, set_views in *; cbn. rewrite list_lookup_insert. case_decide as Hd; [done |]. destruct Hd. split; [done |].
  apply lookup_lt_is_Some. destruct (views s !! i); [by eexists | done].
Qed.

(** The compositor itself does not ensure that order: [begin_interactive] takes a
    view that is not mapped, and [handle_view_destroy] does not forget the view
    that is grabbed.  The next motion of the pointer and the release of the button
    then use a view that has been freed. *)
Theorem destroyed_grab_dangles s e i v : live s i = Some v ->
  exists s1 s2 r1 r2, handle s e (RequestMove i true) = Some (s1, r1) /\ handle s1 e (Destroy i) = Some (s2, r2) /\
    grabbed_view s2 = Some i /\ live s2 i = None /\
    forall e', (forall px py, handle s2 e' (Motion px py) = None) /\ handle s2 e' (Button false) = None.
Proof.
  intros Hi. cbn [handle]. destruct (move_granted s e i v Hi) as (v1 & gx & gy & g & r1 & ->). set (s1 := set_grab _ _ _ _ _ _ _).
  assert (live s1 i = Some v1) as Hl by (change (live (set_view s i v1) i = Some v1); rewrite (live_set_view s i v) by done; by rewrite decide_True).
  do 4 eexists. split; [done |]. unfold handle_view_destroy. rewrite Hl. cbn [mbind option_bind]. split; [done |]. split; [done |].
  pose proof (live_destroyed s1 i v1 Hl) as Hnone. split; [done |]. set (s2 := set_views s1 _) in *. intros e'. split.
  - intros px py. unfold handle_cursor_motion, process_cursor_motion. change (cursor_mode (set_cursor s2 px py)) with JOSH_CURSOR_MOVE.
    change (grabbed_view (set_cursor s2 px py)) with (Some i). cbv iota beta. change (live (set_cursor s2 px py) i) with (live s2 i). by rewrite Hnone.
  - unfold handle_cursor_button, end_interactive. change (cursor_mode s2) with JOSH_CURSOR_MOVE. change (grabbed_view s2) with (Some i).
    cbv iota beta. unfold drop_window. by rewrite Hnone.
Qed.
End histories.

(** ** What the operations do *)

Lemma normalised_id d : visible d -> normalised_desktop d = d.
Proof.
  destruct d as [dx dy dw dh]. intros [? ?]. cbn in *. unfold normalised_desktop; cbn.
  destruct (Z.ltb_spec dw 1), (Z.ltb_spec dh 1); (lia || done).
Qed.

(** Snapping to the left and to the right splits the desktop: every point of it
    lies in one of the two halves, no point lies in both and the halves do not
    reach outside; maximising takes the desktop as it is. *)
Theorem snap_tiles_desktop d : 2 <= width d -> 1 <= height d -> - 2 ^ 31 <= x d -> x d + width d < 2 ^ 31 ->
  exists l r, josh_snap_geometry d JOSH_SNAP_LEFT = Some l /\ josh_snap_geometry d JOSH_SNAP_RIGHT = Some r /\
    josh_snap_geometry d JOSH_SNAP_MAXIMISE = Some d /\
    forall px py, (inside d px py <-> inside l px py \/ inside r px py) /\ ~ (inside l px py /\ inside r px py).
Proof.
  intros Hw Hh Hx Hr. assert (1 <= width d / 2 < width d) by (split; [apply Z.div_le_lower_bound | apply Z.div_lt_upper_bound]; lia).
  unfold josh_snap_geometry. rewrite normalised_id by (split; lia). cbn zeta. rewrite (int_in (x d + width d / 2)) by lia. cbn [mbind option_bind].
  rewrite (proj2 (Z.ltb_ge (width d / 2) 1)), (proj2 (Z.ltb_ge (width d - width d / 2) 1)) by lia.
  do 2 eexists. split; [done |]. split; [done |]. split; [done |].
  intros px py. unfold inside; cbn. lia.
Qed.

(** Maximising a window that is not maximised and restoring it gives back its
    geometry, even when the desktop has changed in between. *)
Theorem maximise_restore w d d' : maximised w = false ->
  exists w1 w2, josh_window_toggle_maximise w d = Some w1 /\ maximised w1 = true /\ geometry w1 = normalised_desktop d /\
    josh_window_toggle_maximise w1 d' = Some w2 /\ maximised w2 = false /\ geometry w2 = geometry w.
Proof. intros Hm. unfold josh_window_toggle_maximise. rewrite Hm. cbn. by do 2 eexists. Qed.

(** A window maximised by dropping it at the top does not go back to where it
    was: when it has been maximised or snapped before, restoring it brings back
    the geometry it had then. *)
Theorem drop_restore_stale w d d' : maximised w = false -> has_previous_geometry w = true ->
  exists w1 w2, josh_window_apply_snap w d JOSH_SNAP_MAXIMISE = Some w1 /\ josh_window_toggle_maximise w1 d' = Some w2 /\
    geometry w2 = previous_geometry w.
Proof. intros Hm Hp. unfold josh_window_apply_snap, josh_window_toggle_maximise. rewrite Hm, Hp. cbn. by do 2 eexists. Qed.

Section operations.
Context `{Wlroots}.

Lemma live_set_same s i v0 v : live s i = Some v0 -> live (set_view s i v) i = Some v.
Proof. intros. rewrite (live_set_view s i v0) by done. by rewrite decide_True. Qed.

(** A maximised window that goes to full screen and back can no longer be
    restored: the geometry it had before it was maximised is lost, and taking it
    out of the maximised state leaves it as large as it was in it. *)
Theorem fullscreen_loses_geometry s e1 e2 e3 i v : live s i = Some v -> maximised (state v) = true -> fullscreen v = false ->
  exists s1 s2 s3 r1 r2 r3 v3,
    handle s e1 (RequestFullscreen i true) = Some (s1, r1) /\ handle s1 e2 (RequestFullscreen i false) = Some (s2, r2) /\
    handle s2 e3 (RequestMaximize i false) = Some (s3, r3) /\
    live s3 i = Some v3 /\ maximised (state v3) = false /\ geometry (state v3) = geometry (state v).
Proof.
  intros Hi Hm Hf. cbn [handle]. unfold handle_request_fullscreen at 1. rewrite Hi. cbn [mbind option_bind]. rewrite Hf. cbn [negb andb].
  do 7 eexists. split; [done |].
  unfold handle_request_fullscreen. erewrite live_set_same by done. cbn [mbind option_bind fullscreen negb andb]. split; [done |].
  unfold handle_request_maximize. erewrite live_set_same by (by erewrite live_set_same).
  cbn [mbind option_bind state maximised set_geometry]. rewrite Hm. cbn. split; [done |].
  erewrite live_set_same by (erewrite live_set_same; [done | by erewrite live_set_same]). done.
Qed.

Lemma resize_low_spec high pos size delta p q : resize_axis true high pos size delta = Some (p, q) -> p = pos + delta /\ q = size - delta.
Proof. unfold resize_axis. intros E. bind_cases E. apply int_some in E0 as [-> _], E1 as [-> _]. by injection E as <- <-. Qed.

(** Dragging the left edge past the smallest width pushes the window: the width
    stays at 100 while the right edge, which should not move, goes to the right. *)
Theorem resize_left_pushes s g dx : resized s = Some g -> has_bit (resize_edges s) WLR_EDGE_LEFT = true ->
  int_of (cursor_x s - grab_x s)%Q = Some dx -> width (grab_geometry s) - dx < 100 ->
  width g = 100 /\ x (grab_geometry s) + width (grab_geometry s) < x g + width g.
Proof.
  unfold resized. intros E Hl Hdx Hw. rewrite Hdx, Hl in E. cbn [mbind option_bind] in E. bind_cases E.
  apply resize_low_spec in E1 as [-> ->]. injection E as <-. cbn. destruct (Z.ltb_spec (width (grab_geometry s) - dx) 100); lia.
Qed.

(** Where a window goes when the pointer that holds it moves by [d]. *)
Lemma drag_position (c : Q) (a d : Z) : - 2 ^ 31 <= a + d < 2 ^ 31 -> int_of ((c + inject_Z d) - (c - inject_Z a))%Q = Some (a + d).
Proof. intros Hr. rewrite <- (int_of_inject (a + d)) by done. apply int_of_proper. rewrite inject_Z_plus. ring. Qed.

Lemma grab_spec s e i v : live s i = Some v -> maximised (state v) = false ->
  handle_request_move s e i true =
    Some (set_grab (set_view s i v) JOSH_CURSOR_MOVE (Some i) (cursor_x s - inject_Z (x (geometry (state v)))) (cursor_y s - inject_Z (y (geometry (state v)))) (geometry (state v)) 0, []).
Proof. intros Hi Hm. unfold handle_request_move, begin_interactive. rewrite Hi. cbn [mbind option_bind negb]. by rewrite Hm. Qed.

Lemma drag_spec s e i v px py : live s i = Some v -> cursor_mode s = JOSH_CURSOR_MOVE -> grabbed_view s = Some i ->
  int_of (cursor_x s - grab_x s)%Q = Some px -> int_of (cursor_y s - grab_y s)%Q = Some py ->
  process_cursor_motion s e =
    Some (set_view s i (set_state v (set_geometry (state v) (mk_rect px py (width (geometry (state v))) (height (geometry (state v)))))), [SetPosition i px py]).
Proof. intros Hi Hm Hg Hx Hy. unfold process_cursor_motion. rewrite Hm, Hg, Hi. cbn [mbind option_bind]. rewrite Hx. cbn [mbind option_bind]. by rewrite Hy. Qed.

Lemma release_spec s e i v : live s i = Some v -> cursor_mode s = JOSH_CURSOR_MOVE -> grabbed_view s = Some i ->
  josh_snap_zone_for (server_desktop_bounds e) (cursor_x s) (cursor_y s) 24 = Some JOSH_SNAP_NONE ->
  handle_cursor_button s e false =
    Some (set_grab s JOSH_CURSOR_PASSTHROUGH None (grab_x s) (grab_y s) (grab_geometry s) 0, [PointerButton false; PointerFrame]).
Proof.
  intros Hi Hm Hg Hz. unfold handle_cursor_button, end_interactive, drop_window. cbn [mbind option_bind]. rewrite Hm, Hg, Hi. cbn [mbind option_bind].
  by rewrite Hz.
Qed.

(** Taking hold of a window, moving the pointer by whole pixels and letting it go
    away from the edges moves the window by as much and leaves its size alone. *)
Theorem drag_moves_window s e1 e2 e3 i v dx dy : live s i = Some v -> maximised (state v) = false ->
  - 2 ^ 31 <= x (geometry (state v)) + dx < 2 ^ 31 -> - 2 ^ 31 <= y (geometry (state v)) + dy < 2 ^ 31 ->
  josh_snap_zone_for (server_desktop_bounds e3) (cursor_x s + inject_Z dx) (cursor_y s + inject_Z dy) 24 = Some JOSH_SNAP_NONE ->
  exists s1 s2 s3 r1 r2 r3 v3,
    handle s e1 (RequestMove i true) = Some (s1, r1) /\
    handle s1 e2 (Motion (cursor_x s + inject_Z dx) (cursor_y s + inject_Z dy)) = Some (s2, r2) /\
    handle s2 e3 (Button false) = Some (s3, r3) /\ grabbed_view s3 = None /\ cursor_mode s3 = JOSH_CURSOR_PASSTHROUGH /\
    live s3 i = Some v3 /\
    state v3 = set_geometry (state v) (mk_rect (x (geometry (state v)) + dx) (y (geometry (state v)) + dy) (width (geometry (state v))) (height (geometry (state v)))).
Proof.
  intros Hi Hm Hx Hy Hz. pose proof (live_set_same s i v v Hi) as Hi1. cbn [handle]. rewrite (grab_spec s e1 i v) by done.
  do 7 eexists. split; [done |]. unfold handle_cursor_motion.
  erewrite (drag_spec _ _ i v); [| exact Hi1 | done | done | by apply drag_position | by apply drag_position]. split; [done |].
  erewrite release_spec; [| by eapply live_set_same | done | done | exact Hz]. split; [done |]. split; [done |]. split; [done |].
  split; [by eapply (live_set_same _ i v) | done].
Qed.
End operations.

(** ** Examples *)

Definition example_wlroots : Wlroots := {|
  WLR_EDGE_TOP := 1; WLR_EDGE_BOTTOM := 2; WLR_EDGE_LEFT := 4; WLR_EDGE_RIGHT := 8;
  WLR_MODIFIER_ALT := 8; WLR_MODIFIER_LOGO := 64 |}.

Definition example_desktop : josh_rect := mk_rect 0 32 1920 1048.
Definition example_wlr : wlr := mk_wlr example_desktop None (fun _ => None) true (fun _ _ => None).
Definition example_window : josh_window_state := mk_window (mk_rect 240 180 900 650) (mk_rect 10 20 300 200) true false false.

(** A server with one mapped view, in the given window state. *)
Definition example_server (w : josh_window_state) : josh_server :=
  set_cursor (set_views server_start [Some (mk_view 7 w true false)]) (inject_Z 600) (inject_Z 200).

Definition example_history : list event := [NewToplevel 7 true; Map 0 (mk_rect 0 0 640 480); RequestMove 0 true].

Fixpoint play `{Wlroots} (s : josh_server) (evs : list event) : option josh_server :=
  match evs with [] => Some s | ev :: evs => '(s, _) ← handle s example_wlr ev; play s evs end.

Lemma snap_tiles_desktop_witness : exists l r,
  josh_snap_geometry example_desktop JOSH_SNAP_LEFT = Some l /\ josh_snap_geometry example_desktop JOSH_SNAP_RIGHT = Some r /\
  josh_snap_geometry example_desktop JOSH_SNAP_MAXIMISE = Some example_desktop /\
  forall px py, (inside example_desktop px py <-> inside l px py \/ inside r px py) /\ ~ (inside l px py /\ inside r px py).
Proof. apply (snap_tiles_desktop example_desktop); cbn; lia. Defined.

Lemma maximise_restore_witness : exists w1 w2,
  josh_window_toggle_maximise example_window example_desktop = Some w1 /\ maximised w1 = true /\ geometry w1 = normalised_desktop example_desktop /\
  josh_window_toggle_maximise w1 (mk_rect 0 0 800 600) = Some w2 /\ maximised w2 = false /\ geometry w2 = mk_rect 240 180 900 650.
Proof. apply (maximise_restore example_window example_desktop (mk_rect 0 0 800 600)). reflexivity. Defined.

Lemma drop_restore_stale_witness : exists w1 w2,
  josh_window_apply_snap example_window example_desktop JOSH_SNAP_MAXIMISE = Some w1 /\ josh_window_toggle_maximise w1 example_desktop = Some w2 /\
  geometry w2 = mk_rect 10 20 300 200.
Proof. apply (drop_restore_stale example_window example_desktop example_desktop); reflexivity. Defined.

Lemma fullscreen_loses_geometry_witness :
  let w := mk_window example_desktop (mk_rect 240 180 900 650) true true false in
  exists s1 s2 s3 r1 r2 r3 v3,
    @handle example_wlroots (example_server w) example_wlr (RequestFullscreen 0 true) = Some (s1, r1) /\
    @handle example_wlroots s1 example_wlr (RequestFullscreen 0 false) = Some (s2, r2) /\
    @handle example_wlroots s2 example_wlr (RequestMaximize 0 false) = Some (s3, r3) /\
    live s3 0 = Some v3 /\ maximised (state v3) = false /\ geometry (state v3) = example_desktop.
Proof.
  intros w. apply (@fullscreen_loses_geometry example_wlroots (example_server w) example_wlr example_wlr example_wlr 0 (mk_view 7 w true false)); reflexivity.
Defined.

Lemma resize_left_pushes_witness :
  let s := set_cursor (set_grab (example_server example_window) JOSH_CURSOR_RESIZE (Some 0%nat) (inject_Z 240) (inject_Z 200) (mk_rect 240 180 900 650) 4) (inject_Z 1140) (inject_Z 200) in
  exists g, @resized example_wlroots s = Some g /\ width g = 100 /\ 240 + 900 < x g + width g.
Proof.
  intros s. exists (mk_rect 1140 180 100 650). split; [reflexivity |].
  apply (@resize_left_pushes example_wlroots s (mk_rect 1140 180 100 650) 900); [reflexivity | reflexivity | reflexivity | cbn; lia].
Defined.

Lemma drag_moves_window_witness : exists s1 s2 s3 r1 r2 r3 v3,
    @handle example_wlroots (example_server example_window) example_wlr (RequestMove 0 true) = Some (s1, r1) /\
    @handle example_wlroots s1 example_wlr (Motion (inject_Z 600 + inject_Z 50) (inject_Z 200 + inject_Z 30)) = Some (s2, r2) /\
    @handle example_wlroots s2 example_wlr (Button false) = Some (s3, r3) /\ grabbed_view s3 = None /\ cursor_mode s3 = JOSH_CURSOR_PASSTHROUGH /\
    live s3 0 = Some v3 /\ state v3 = set_geometry example_window (mk_rect 290 210 900 650).
Proof.
  apply (@drag_moves_window example_wlroots (example_server example_window) example_wlr example_wlr example_wlr 0 (mk_view 7 example_window true false) 50 30);
    [reflexivity | reflexivity | cbn; lia | cbn; lia | reflexivity].
Defined.

Lemma windows_history_safe_witness : exists s, play (H := example_wlroots) server_start example_history = Some s /\
  grabbed_view s = Some 0%nat /\
  (forall i v, live s i = Some v -> window_ok (state v)) /\
  (forall i, grabbed_view s = Some i -> exists v, live s i = Some v /\ (GrabMapped = GrabMapped -> mapped v = true)).
Proof.
  eexists. split; [vm_compute; reflexivity |]. split; [reflexivity |].
  match goal with |- (forall i v, live ?s i = _ -> _) /\ _ =>
    edestruct (@windows_history_safe example_wlroots GrabMapped s) as (H1 & _ & H2); [| exact (conj H1 (proj1 (H2 ltac:(discriminate))))] end.
  eapply steps_snoc; [eapply steps_snoc; [eapply steps_snoc; [apply steps_refl |] |] |].
  - exists example_wlr, (NewToplevel 7 true). eexists. split; [exact I | vm_compute; reflexivity].
  - exists example_wlr, (Map 0 (mk_rect 0 0 640 480)). eexists. split; [exact I | vm_compute; reflexivity].
  - exists example_wlr, (RequestMove 0 true). eexists. split; [intros _; reflexivity | vm_compute; reflexivity].
Defined.
