(* ===== verification/Gfx.v ===== *)
(** * Drawing (kernel/src/gfx.c, gfx.h, font.c, font.h)

    The memory of the framebuffer the loader set up is the list of its 32-bit
    words, row after row with the pitch between them; a write outside it is
    [None], and so is an [int] that overflows.  A character is its value as a signed [char], a string the list
    of its characters with the terminating zero. *)

From Stdlib Require Import ZArith Lia.
From stdpp Require Import base numbers list.
From S2P Require Import Prelude Bytes Boot.

#[local] Open Scope Z_scope.

(** ** gfx.h *)

Record gfx_context_t := mk_gfx { g_fb : boot_framebuffer_t; g_width : Z; g_height : Z }.

(** The static context and the memory of the framebuffer. *)
Record screen := mk_screen { g : gfx_context_t; pixels : list Z }.

(** ** Loops and conversions *)

(** [for (i = first; n more times; ++i)]. *)
Fixpoint for_loop {S : Type} (n : nat) (i : Z) (body : Z -> S -> option S) (s : S) : option S :=
  match n with O => Some s | Datatypes.S n => s ← body i s; for_loop n (i + 1) body s end.

(** Conversion of a [uint64_t] to [int], as the compiler defines it. *)
Definition to_int (v : Z) : Z := (v + 2 ^ 31) mod 2 ^ 32 - 2 ^ 31.

(** The value of a signed 64-bit expression. *)
Definition int64 (v : Z) : option Z := if (- 2 ^ 63 <=? v) && (v <? 2 ^ 63) then Some v else None.

(** Conversion of a [uint64_t] to [int64_t]. *)
Definition to_int64 (v : Z) : Z := (v + 2 ^ 63) mod 2 ^ 64 - 2 ^ 63.

(** ** gfx.c *)

(** Shifting by the width of the type or more is undefined. *)
Definition channel (value size shift : Z) : option Z :=
  if size =? 0 then Some 0
  else if (64 <=? size) || (64 <=? shift) then None
  else let max := u64 (u64 (Z.shiftl 1 size) - 1) in Some (u32 (u64 (Z.shiftl (u64 (value * max) / 255) shift))).

Definition gfx_rgb (s : screen) (r gch b : Z) : option Z :=
  let fb := g_fb (g s) in
  cr ← channel r (red_mask_size fb) (red_mask_shift fb);
  cg ← channel gch (green_mask_size fb) (green_mask_shift fb);
  cb ← channel b (blue_mask_size fb) (blue_mask_shift fb);
  Some (Z.lor (Z.lor cr cg) cb).

Definition gfx_init (fb : option boot_framebuffer_t) (s : screen) : screen :=
  match fb with None => s | Some fb => mk_screen (mk_gfx fb (width fb) (height fb)) (pixels s) end.

Definition gfx_width (s : screen) : Z := g_width (g s).
Definition gfx_height (s : screen) : Z := g_height (g s).

Definition put_pixel (x y colour : Z) (s : screen) : option screen :=
  if (address (g_fb (g s)) =? 0) || (x <? 0) || (y <? 0) || (g_width (g s) <=? u64 x) || (g_height (g s) <=? u64 y) then Some s
  else p ← wr (pixels s) (u64 (u64 (u64 y * (pitch (g_fb (g s)) / 4)) + u64 x)) colour; Some (mk_screen (g s) p).

Definition gradient_colour (s : screen) (x y : Z) : option Z :=
  let w := g_width (g s) in
  let h := g_height (g s) in
  let vx := u32 (u64 (x * 255) / (if w =? 0 then 1 else w)) in
  let vy := u32 (u64 (y * 255) / (if h =? 0 then 1 else h)) in
  let r := u8 (u32 (u32 (8 + u32 (vy * 14) / 255) + u32 (vx * 7) / 255)) in
  let gr := u8 (u32 (u32 (14 + u32 (vy * 13) / 255) + u32 (vx * 10) / 255)) in
  let b := u8 (u32 (u32 (28 + u32 (vy * 24) / 255) + u32 (vx * 24) / 255)) in
  dx ← int64 (to_int64 x - to_int64 (u64 (w * 3) / 4));
  dy ← int64 (to_int64 y - to_int64 (h / 4));
  dx2 ← int64 (dx * dx);
  dy2 ← int64 (dy * dy);
  sum ← int64 (dx2 + dy2);
  let d2 := u64 sum in
  let reach := u64 (u64 (w * w) + u64 (h * h)) / 9 in
  if d2 <? reach
  then let glow := u32 (u64 (u64 (reach - d2) * 22) / (if reach =? 0 then 1 else reach)) in
       let b := u8 (if 255 <? u32 (b + glow) then 255 else u32 (b + glow)) in
       let gr := u8 (if 255 <? u32 (gr + glow / 3) then 255 else u32 (gr + glow / 3)) in
       gfx_rgb s r gr b
  else gfx_rgb s r gr b.

Definition gfx_clear_gradient (s : screen) : option screen :=
  if address (g_fb (g s)) =? 0 then Some s
  else for_loop (Z.to_nat (g_height (g s))) 0 (fun y =>
         for_loop (Z.to_nat (g_width (g s))) 0 (fun x s => c ← gradient_colour s x y; put_pixel (to_int x) (to_int y) c s)) s.

(** [put_pixel(x + xx, y + yy, colour)]. *)
Definition put_at (x y xx yy colour : Z) (s : screen) : option screen := px ← int (x + xx); py ← int (y + yy); put_pixel px py colour s.

Definition gfx_rect (x y w h colour : Z) (s : screen) : option screen :=
  if (w <=? 0) || (h <=? 0) then Some s
  else for_loop (Z.to_nat h) 0 (fun yy => for_loop (Z.to_nat w) 0 (fun xx => put_at x y xx yy colour)) s.

(** The nearest coordinate of the centre of a corner. *)
Definition corner (p size radius : Z) : option Z :=
  if p <? radius then Some radius
  else far ← int (size - radius); if far <=? p then int (far - 1) else Some p.

Definition in_rounded (px py w h radius : Z) : option bool :=
  if radius <=? 0 then Some true
  else
    cx ← corner px w radius;
    cy ← corner py h radius;
    dx ← int (px - cx);
    dy ← int (py - cy);
    dx2 ← int (dx * dx);
    dy2 ← int (dy * dy);
    sum ← int (dx2 + dy2);
    r2 ← int (radius * radius);
    Some (sum <=? r2).

Definition gfx_round_rect (x y w h radius colour : Z) (s : screen) : option screen :=
  if (w <=? 0) || (h <=? 0) then Some s
  else
    d ← int (radius * 2);
    let radius := if w <? d then w / 2 else radius in
    d ← int (radius * 2);
    let radius := if h <? d then h / 2 else radius in
    for_loop (Z.to_nat h) 0 (fun yy => for_loop (Z.to_nat w) 0 (fun xx s =>
      inside ← in_rounded xx yy w h radius; if (inside : bool) then put_at x y xx yy colour s else Some s)) s.

Definition gfx_panel (x y w h radius fill border : Z) (s : screen) : option screen :=
  x5 ← int (x + 5); y7 ← int (y + 7);
  shadow ← gfx_rgb s 4 7 15;
  s ← gfx_round_rect x5 y7 w h radius shadow s;
  s ← gfx_round_rect x y w h radius border s;
  x1 ← int (x + 1); y1 ← int (y + 1); w2 ← int (w - 2); h2 ← int (h - 2);
  gfx_round_rect x1 y1 w2 h2 (if 1 <? radius then radius - 1 else 0) fill s.

(** ** font.c *)

Definition blank : list Z := [0; 0; 0; 0; 0; 0; 0].
Definition unknown : list Z := [14; 17; 1; 2; 4; 0; 4].
Definition letters : list (list Z) := [
  [14; 17; 17; 31; 17; 17; 17]; [30; 17; 17; 30; 17; 17; 30]; [14; 17; 16; 16; 16; 17; 14];
  [30; 17; 17; 17; 17; 17; 30]; [31; 16; 16; 30; 16; 16; 31]; [31; 16; 16; 30; 16; 16; 16];
  [14; 17; 16; 23; 17; 17; 15]; [17; 17; 17; 31; 17; 17; 17]; [31; 4; 4; 4; 4; 4; 31];
  [7; 2; 2; 2; 18; 18; 12]; [17; 18; 20; 24; 20; 18; 17]; [16; 16; 16; 16; 16; 16; 31];
  [17; 27; 21; 21; 17; 17; 17]; [17; 25; 21; 19; 17; 17; 17]; [14; 17; 17; 17; 17; 17; 14];
  [30; 17; 17; 30; 16; 16; 16]; [14; 17; 17; 17; 21; 18; 13]; [30; 17; 17; 30; 20; 18; 17];
  [15; 16; 16; 14; 1; 1; 30]; [31; 4; 4; 4; 4; 4; 4]; [17; 17; 17; 17; 17; 17; 14];
  [17; 17; 17; 17; 17; 10; 4]; [17; 17; 17; 21; 21; 21; 10]; [17; 17; 10; 4; 10; 17; 17];
  [17; 17; 10; 4; 4; 4; 4]; [31; 1; 2; 4; 8; 16; 31]].
Definition digits : list (list Z) := [
  [14; 17; 19; 21; 25; 17; 14]; [4; 12; 4; 4; 4; 4; 14]; [14; 17; 1; 2; 4; 8; 31];
  [30; 1; 1; 14; 1; 1; 30]; [2; 6; 10; 18; 31; 2; 2]; [31; 16; 16; 30; 1; 1; 30];
  [14; 16; 16; 30; 17; 17; 14]; [31; 1; 2; 4; 8; 8; 8]; [14; 17; 17; 14; 17; 17; 14];
  [14; 17; 17; 15; 1; 1; 14]].

(** The glyphs of the characters of the [switch]. *)
Definition symbol_glyph (c : Z) : list Z :=
  if c =? 32 then blank
  else if c =? 45 then [0; 0; 0; 31; 0; 0; 0]
  else if c =? 46 then [0; 0; 0; 0; 0; 12; 12]
  else if c =? 58 then [0; 12; 12; 0; 12; 12; 0]
  else if c =? 47 then [1; 2; 2; 4; 8; 8; 16]
  else if c =? 62 then [16; 8; 4; 2; 4; 8; 16]
  else if c =? 60 then [1; 2; 4; 8; 4; 2; 1]
  else if c =? 33 then [4; 4; 4; 4; 4; 0; 4]
  else if c =? 95 then [0; 0; 0; 0; 0; 0; 31]
  else if c =? 43 then [0; 4; 4; 31; 4; 4; 0]
  else if c =? 61 then [0; 0; 31; 0; 31; 0; 0]
  else if c =? 64 then [14; 17; 23; 21; 23; 16; 14]
  else unknown.

Definition glyph (c : Z) : option (list Z) :=
  let c := if (97 <=? c) && (c <=? 122) then c - 97 + 65 else c in
  if (65 <=? c) && (c <=? 90) then rd letters (c - 65)
  else if (48 <=? c) && (c <=? 57) then rd digits (c - 48)
  else Some (symbol_glyph c).

Definition font_draw_char {S : Type} (pixel : Z -> Z -> Z -> S -> option S) (x y c scale colour : Z) (s : S) : option S :=
  rows ← glyph c;
  for_loop 7 0 (fun row => for_loop 5 0 (fun col s =>
    bits ← rd rows row;
    if Z.land bits (Z.shiftl 1 (4 - col)) =? 0 then Some s
    else for_loop (Z.to_nat scale) 0 (fun sy => for_loop (Z.to_nat scale) 0 (fun sx s =>
           cx ← int (col * scale); cx ← int (x + cx); px ← int (cx + sx);
           cy ← int (row * scale); cy ← int (y + cy); py ← int (cy + sy);
           pixel px py colour s)) s)) s.

Fixpoint text_loop (x pen y : Z) (text : list Z) (scale colour : Z) (s : screen) : option screen :=
  match text with
  | [] => None
  | c :: text =>
      if c =? 0 then Some s
      else if c =? 10 then step ← int (8 * scale); y ← int (y + step); text_loop x x y text scale colour s
      else
        s ← font_draw_char put_pixel pen y c scale colour s;
        step ← int (6 * scale); pen ← int (pen + step); text_loop x pen y text scale colour s
  end.

Definition gfx_text (x y : Z) (text : option (list Z)) (scale colour : Z) (s : screen) : option screen :=
  match text with None => Some s | Some text => if scale <? 1 then Some s else text_loop x x y text scale colour s end.

Fixpoint width_loop (text : list Z) (n : Z) : option Z :=
  match text with [] => None | c :: text => if c =? 0 then Some n else n ← int (n + 1); width_loop text n end.

Definition gfx_text_width (text : option (list Z)) (scale : Z) : option Z :=
  match text with
  | None => Some 0
  | Some text =>
      if scale <? 1 then Some 0
      else n ← width_loop text 0; if n =? 0 then Some 0 else a ← int (n * 6); a ← int (a * scale); int (a - scale)
  end.

(** ** What drawing means

    A layer says which pixels it covers, and with which colour. *)

Definition layer : Type := Z -> Z -> option Z.

Definition clear : layer := fun _ _ => None.

(** [b] lies over [a]. *)
Definition over (a b : layer) : layer := fun px py => match b px py with Some c => Some c | None => a px py end.

Definition stride (s : screen) : Z := pitch (g_fb (g s)) / 4.

(** The screen with a layer over it: visible pixels change, the rest of a row
    between its last pixel and the next row does not. *)
Definition paint_word (s : screen) (f : layer) (i : nat) (old : Z) : Z :=
  let px := Z.of_nat i mod stride s in
  if px <? g_width (g s) then default old (f px (Z.of_nat i / stride s)) else old.

Definition paint (s : screen) (f : layer) : screen := mk_screen (g s) (imap (paint_word s f) (pixels s)).

Definition dot_layer (x y colour : Z) : layer := fun px py => if (px =? x) && (py =? y) then Some colour else None.

Definition in_rect (x y w h px py : Z) : bool := (x <=? px) && (px <? x + w) && (y <=? py) && (py <? y + h).

Definition rect_layer (x y w h colour : Z) : layer := fun px py => if in_rect x y w h px py then Some colour else None.

(** The distance of a coordinate from the straight part of an edge. *)
Definition beyond (p size radius : Z) : Z := Z.max 0 (Z.max (radius - p) (p - (size - radius - 1))).

(** A corner is cut where the distance from its centre exceeds the radius. *)
Definition round_layer (x y w h radius colour : Z) : layer := fun px py =>
  let radius := Z.min radius (Z.min (w / 2) (h / 2)) in
  if in_rect x y w h px py &&
     ((radius <=? 0) || (beyond (px - x) w radius ^ 2 + beyond (py - y) h radius ^ 2 <=? radius ^ 2))
  then Some colour else None.

(** A character is a grid of five by seven squares. *)
Definition char_layer (x y c scale colour : Z) : layer := fun px py =>
  let col := (px - x) / scale in
  let row := (py - y) / scale in
  if in_rect 0 0 5 7 col row && Z.testbit (default 0 (glyph c ≫= fun rows => rd rows row)) (4 - col) then Some colour else None.

(** A text, from the place of its first character; [x] is where lines begin. *)
Fixpoint text_layer (x pen y : Z) (text : list Z) (scale colour : Z) : layer :=
  match text with
  | [] => clear
  | c :: text =>
      if c =? 0 then clear
      else if c =? 10 then text_layer x x (y + 8 * scale) text scale colour
      else over (char_layer pen y c scale colour) (text_layer x (pen + 6 * scale) y text scale colour)
  end.

(** What the boot adapters guarantee of a framebuffer, and sizes for which the
    arithmetic of the gradient fits. *)
Record screen_ok (s : screen) : Prop := {
  so_address : address (g_fb (g s)) <> 0;
  so_width : 0 < g_width (g s) <= 2 ^ 30;
  so_height : 0 < g_height (g s) <= 2 ^ 30;
  so_stride : g_width (g s) <= stride s < 2 ^ 32;
  so_pixels : zlen (pixels s) = stride s * g_height (g s);
  so_red : 0 <= red_mask_size (g_fb (g s)) <= 32 /\ 0 <= red_mask_shift (g_fb (g s)) <= 32;
  so_green : 0 <= green_mask_size (g_fb (g s)) <= 32 /\ 0 <= green_mask_shift (g_fb (g s)) <= 32;
  so_blue : 0 <= blue_mask_size (g_fb (g s)) <= 32 /\ 0 <= blue_mask_shift (g_fb (g s)) <= 32
}.

(** ** Painting *)

Lemma paint_g s f : g (paint s f) = g s.
Proof. done. Qed.

Lemma paint_ok s f : screen_ok s -> screen_ok (paint s f).
Proof. intros []. split; try done. unfold zlen, paint; cbn. by rewrite length_imap. Qed.

Lemma paint_lookup s f i : pixels (paint s f) !! i = paint_word s f i <$> pixels s !! i.
Proof. unfold paint; cbn. apply list_lookup_imap. Qed.

Lemma screen_eq s1 s2 : g s1 = g s2 -> (forall i, pixels s1 !! i = pixels s2 !! i) -> s1 = s2.
Proof. destruct s1, s2; cbn. intros -> H. f_equal. by apply list_eq. Qed.

Lemma paint_ext s f h : screen_ok s ->
  (forall px py, 0 <= px < g_width (g s) -> 0 <= py < g_height (g s) -> f px py = h px py) -> paint s f = paint s h.
Proof.
  intros Hs H. apply screen_eq; [done |]. intros i. rewrite !paint_lookup. destruct (pixels s !! i) as [old |] eqn:E; [| done]. cbn. f_equal.
  apply lookup_lt_Some in E. pose proof (so_pixels s Hs) as Hp. unfold zlen in Hp. pose proof (so_stride s Hs). pose proof (so_width s Hs).
  unfold paint_word. pose proof (Z.mod_pos_bound (Z.of_nat i) (stride s) ltac:(lia)). destruct (Z.ltb_spec (Z.of_nat i mod stride s) (g_width (g s))); [| done].
  rewrite H; [done | lia |]. split; [apply Z.div_pos; lia | apply Z.div_lt_upper_bound; lia].
Qed.

Lemma paint_clear s : paint s clear = s.
Proof.
  apply screen_eq; [done |]. intros i. rewrite paint_lookup. destruct (pixels s !! i); [| done]. cbn. f_equal.
  unfold paint_word, clear; cbn. by destruct (_ <? _).
Qed.

Lemma paint_paint s a b : paint (paint s a) b = paint s (over a b).
Proof.
  apply screen_eq; [done |]. intros i. rewrite !paint_lookup. destruct (pixels s !! i); [| done]. cbn. f_equal.
  unfold paint_word, over, stride; cbn. destruct (_ <? _); [| done]. by destruct (b _ _).
Qed.

Lemma index_unique st x y i : 0 <= x < st -> 0 <= y -> 0 <= i -> (i mod st =? x) && (i / st =? y) = (i =? y * st + x).
Proof.
  intros Hx Hy Hi. destruct (Z.eqb_spec i (y * st + x)) as [-> | Hne].
  - rewrite Z.add_comm, Z.mod_add, Z.mod_small, Z.div_add, Z.div_small by lia. rewrite Z.eqb_refl. apply Z.eqb_eq. lia.
  - apply andb_false_iff. destruct (Z.eqb_spec (i mod st) x), (Z.eqb_spec (i / st) y); auto. exfalso. apply Hne.
    pose proof (Z.div_mod i st ltac:(lia)). nia.
Qed.

Lemma put_pixel_spec s x y c : screen_ok s -> - 2 ^ 31 <= x < 2 ^ 31 -> - 2 ^ 31 <= y < 2 ^ 31 -> put_pixel x y c s = Some (paint s (dot_layer x y c)).
Proof.
  intros Hs Hx Hy. pose proof Hs as [Ha Hw Hh Hst Hp _ _ _]. unfold put_pixel.
  destruct ((address _ =? 0) || (x <? 0) || (y <? 0) || (g_width (g s) <=? u64 x) || (g_height (g s) <=? u64 y)) eqn:Hout.
  - rewrite (paint_ext s (dot_layer x y c) clear Hs); [by rewrite paint_clear |]. intros px py Hpx Hpy. unfold dot_layer, clear.
    destruct (Z.eqb_spec px x), (Z.eqb_spec py y); try done. subst. exfalso. rewrite !u64_small in Hout by lia.
    rewrite !orb_true_iff in Hout. destruct Hout as [[[[?%Z.eqb_eq | ?%Z.ltb_lt] | ?%Z.ltb_lt] | ?%Z.leb_le] | ?%Z.leb_le]; lia.
  - rewrite !orb_false_iff in Hout. destruct Hout as [[[[_ Hx0%Z.ltb_ge] Hy0%Z.ltb_ge] Hxw%Z.leb_gt] Hyh%Z.leb_gt].
    rewrite !u64_small in * by lia. fold (stride s). assert (0 <= y * stride s + x < zlen (pixels s)) by (rewrite Hp; nia).
    assert (zlen (pixels s) <= 2 ^ 62) by (rewrite Hp; nia). assert (0 <= y * stride s) by nia.
    rewrite (u64_small y), (u64_small x), (u64_small (y * stride s)), (u64_small (y * stride s + x)) by lia. rewrite wr_in_range by done. cbn [mbind option_bind]. f_equal.
    apply screen_eq; [done |]. intros i. rewrite paint_lookup. cbn [pixels]. rewrite list_lookup_insert.
    unfold paint_word, dot_layer. destruct (pixels s !! i) as [old |] eqn:E.
    + rewrite index_unique by lia. pose proof (Z.mod_pos_bound (Z.of_nat i) (stride s) ltac:(lia)).
      destruct (Z.eqb_spec (Z.of_nat i) (y * stride s + x)) as [Hi |].
      * rewrite decide_True by (apply lookup_lt_Some in E; lia). cbn. rewrite Hi, Z.add_comm, Z.mod_add, Z.mod_small by lia.
        by rewrite (proj2 (Z.ltb_lt _ _)) by lia.
      * rewrite decide_False by lia. cbn. by destruct (_ <? _).
    + cbn. rewrite decide_False; [done |]. apply lookup_ge_None in E. unfold zlen in *. lia.
Qed.

(** The layers of the rounds of a loop, the later ones over the earlier. *)
Fixpoint stack (n : nat) (i : Z) (F : Z -> layer) : layer :=
  match n with O => clear | S n => over (F i) (stack n (i + 1) F) end.

Lemma for_paint n i body F s : screen_ok s ->
  (forall j s', i <= j < i + Z.of_nat n -> screen_ok s' -> g s' = g s -> body j s' = Some (paint s' (F j))) ->
  for_loop n i body s = Some (paint s (stack n i F)).
Proof.
  revert i s. induction n as [| n IH]; intros i s Hs Hb; cbn [for_loop stack]; [by rewrite paint_clear |].
  rewrite Hb by (done || lia). cbn [mbind option_bind]. rewrite IH, paint_paint; [done | by apply paint_ok |].
  intros j s' Hj Hs' Hg. apply Hb; [lia | done | by rewrite Hg].
Qed.

Lemma for_ext {S} n i (a b : Z -> S -> option S) s : (forall j s', i <= j < i + Z.of_nat n -> a j s' = b j s') -> for_loop n i a s = for_loop n i b s.
Proof.
  revert i s. induction n as [| n IH]; intros i s H; cbn [for_loop]; [done |]. rewrite H by lia.
  destruct (b i s); cbn [mbind option_bind]; [| done]. apply IH. intros j s' Hj. apply H. lia.
Qed.

Lemma land_bit a k : 0 <= k -> (Z.land a (Z.shiftl 1 k) =? 0) = negb (Z.testbit a k).
Proof.
  intros Hk. rewrite Z.shiftl_1_l. destruct (Z.testbit a k) eqn:E; cbn [negb].
  - apply Z.eqb_neq. intros H. apply (f_equal (fun v => Z.testbit v k)) in H. rewrite Z.land_spec, Z.pow2_bits_true, E, Z.testbit_0_l in H by lia. done.
  - apply Z.eqb_eq. apply Z.bits_inj'. intros n Hn. rewrite Z.land_spec, Z.testbit_0_l. destruct (decide (n = k)) as [-> |]; [by rewrite E |].
    rewrite Z.pow2_bits_false by lia. apply andb_false_r.
Qed.

Lemma stack_miss n i F px py : (forall j, i <= j < i + Z.of_nat n -> F j px py = None) -> stack n i F px py = None.
Proof.
  revert i. induction n as [| n IH]; intros i H; cbn [stack]; [done |]. unfold over. rewrite IH by (intros; apply H; lia). apply H. lia.
Qed.

Lemma stack_hit n i F px py j c : i <= j < i + Z.of_nat n -> F j px py = Some c ->
  (forall k, i <= k < i + Z.of_nat n -> k <> j -> F k px py = None) -> stack n i F px py = Some c.
Proof.
  revert i. induction n as [| n IH]; intros i Hj HF Hn; [lia |]. cbn [stack]. unfold over. destruct (decide (j = i)) as [-> |].
  - rewrite stack_miss; [done |]. intros k Hk. apply Hn; lia.
  - rewrite IH; [done | lia | done |]. intros k Hk. apply Hn. lia.
Qed.

(** A loop over rows and columns paints a rectangle of pixels. *)
Lemma grid_stack x y w h (F : Z -> Z -> layer) (f : layer) px py : 0 <= w -> 0 <= h ->
  (forall xx yy, 0 <= xx < w -> 0 <= yy < h -> (px <> x + xx \/ py <> y + yy) -> F xx yy px py = None) ->
  (in_rect x y w h px py = true -> F (px - x) (py - y) px py = f px py) ->
  (in_rect x y w h px py = false -> f px py = None) ->
  stack (Z.to_nat h) 0 (fun yy => stack (Z.to_nat w) 0 (fun xx => F xx yy)) px py = f px py.
Proof.
  intros Hw Hh Hmiss Hin Hout. destruct (in_rect x y w h px py) eqn:E.
  - rewrite <- (Hin eq_refl). unfold in_rect in E. rewrite !andb_true_iff, !Z.leb_le, !Z.ltb_lt in E.
    assert (forall yy, 0 <= yy < h -> yy <> py - y -> stack (Z.to_nat w) 0 (fun xx => F xx yy) px py = None) as Hrow
      by (intros yy Hyy Hne; apply stack_miss; intros xx Hxx; apply Hmiss; lia).
    destruct (F (px - x) (py - y) px py) as [c |] eqn:EF.
    + apply (stack_hit _ _ _ _ _ (py - y)); [lia | | intros k Hk Hne; apply Hrow; lia].
      apply (stack_hit _ _ _ _ _ (px - x)); [lia | done | intros k Hk Hne; apply Hmiss; lia].
    + apply stack_miss. intros yy Hyy. apply stack_miss. intros xx Hxx.
      destruct (decide (xx = px - x)) as [-> |]; [destruct (decide (yy = py - y)) as [-> |]; [done |] |]; apply Hmiss; lia.
  - rewrite (Hout eq_refl). unfold in_rect in E. rewrite !andb_false_iff, !Z.leb_gt, !Z.ltb_ge in E.
    apply stack_miss. intros yy Hyy. apply stack_miss. intros xx Hxx. apply Hmiss; lia.
Qed.

Lemma put_at_spec s x y xx yy c : screen_ok s -> - 2 ^ 31 <= x + xx < 2 ^ 31 -> - 2 ^ 31 <= y + yy < 2 ^ 31 ->
  put_at x y xx yy c s = Some (paint s (dot_layer (x + xx) (y + yy) c)).
Proof. intros Hs Hx Hy. unfold put_at. rewrite (int_in (x + xx)), (int_in (y + yy)) by done. cbn [mbind option_bind]. by apply put_pixel_spec. Qed.

Lemma dot_miss x y c px py : px <> x \/ py <> y -> dot_layer x y c px py = None.
Proof. intros H. unfold dot_layer. destruct (Z.eqb_spec px x), (Z.eqb_spec py y); try done. lia. Qed.

Lemma dot_here x y c : dot_layer x y c x y = Some c.
Proof. unfold dot_layer. by rewrite !Z.eqb_refl. Qed.

(** The corners of a rectangle are coordinates of type [int]. *)
Definition rect_fits (x y w h : Z) : Prop := - 2 ^ 31 <= x /\ x + w <= 2 ^ 31 /\ - 2 ^ 31 <= y /\ y + h <= 2 ^ 31.

Lemma empty_rect x y w h px py : w <= 0 \/ h <= 0 -> in_rect x y w h px py = false.
Proof. intros H. unfold in_rect. rewrite !andb_false_iff, !Z.leb_gt, !Z.ltb_ge. lia. Qed.

Lemma gfx_rect_spec s x y w h c : screen_ok s -> rect_fits x y w h -> gfx_rect x y w h c s = Some (paint s (rect_layer x y w h c)).
Proof.
  intros Hs (? & ? & ? & ?). unfold gfx_rect. destruct ((w <=? 0) || (h <=? 0)) eqn:E.
  - rewrite orb_true_iff, !Z.leb_le in E. rewrite (paint_ext s _ clear Hs); [by rewrite paint_clear |]. intros. unfold rect_layer. by rewrite empty_rect.
  - rewrite orb_false_iff, !Z.leb_gt in E.
    rewrite (for_paint _ _ _ (fun yy => stack (Z.to_nat w) 0 (fun xx => dot_layer (x + xx) (y + yy) c)) s Hs).
    + f_equal. apply (paint_ext s _ _ Hs). intros px py _ _. apply (grid_stack x y w h (fun xx yy => dot_layer (x + xx) (y + yy) c)); [lia | lia | | |].
      * intros. apply dot_miss. lia.
      * intros Hin. unfold rect_layer. rewrite Hin. replace (x + (px - x)) with px by lia. replace (y + (py - y)) with py by lia. apply dot_here.
      * intros Hin. unfold rect_layer. by rewrite Hin.
    + intros yy s1 Hyy Hs1 Hg1. apply for_paint; [done |]. intros xx s2 Hxx Hs2 Hg2. apply put_at_spec; [done | lia | lia].
Qed.

Lemma corner_spec p size r : 0 <= p < size -> 0 < r -> 2 * r <= size -> size < 2 ^ 31 ->
  exists c, corner p size r = Some c /\ - r <= p - c <= r /\ (p - c) * (p - c) = beyond p size r ^ 2.
Proof.
  intros Hp Hr Hs Hb. unfold corner, beyond. rewrite (int_in (size - r)) by lia. cbn [mbind option_bind].
  destruct (Z.ltb_spec p r).
  - exists r. split; [done |]. split; [lia |]. rewrite Z.max_r, Z.max_l by lia. lia.
  - destruct (Z.leb_spec (size - r) p); [| exists p; split; [done |]; split; [lia |]; rewrite Z.max_l by lia; lia].
    rewrite (int_in (size - r - 1)) by lia. exists (size - r - 1). split; [done |]. split; [lia |]. rewrite !Z.max_r by lia. lia.
Qed.

Lemma square_bound d r : - r <= d <= r -> r <= 32767 -> 0 <= d * d <= 1073676289.
Proof. intros. nia. Qed.

Lemma in_rounded_spec px py w h r : 0 <= px < w -> 0 <= py < h -> w < 2 ^ 31 -> h < 2 ^ 31 -> 2 * r <= w -> 2 * r <= h -> r <= 32767 ->
  in_rounded px py w h r = Some ((r <=? 0) || (beyond px w r ^ 2 + beyond py h r ^ 2 <=? r ^ 2)).
Proof.
  intros Hx Hy Hw Hh Hrw Hrh Hr. unfold in_rounded. destruct (Z.leb_spec r 0); [done |]. cbn [orb].
  destruct (corner_spec px w r) as (cx & -> & Hdx & Hbx); [lia.. |]. destruct (corner_spec py h r) as (cy & -> & Hdy & Hby); [lia.. |].
  cbn [mbind option_bind]. rewrite (int_in (px - cx)), (int_in (py - cy)) by lia. cbn [mbind option_bind].
  pose proof (square_bound _ r Hdx Hr). pose proof (square_bound _ r Hdy Hr). pose proof (square_bound r r ltac:(lia) Hr).
  rewrite (int_in ((px - cx) * (px - cx))), (int_in ((py - cy) * (py - cy))) by lia. cbn [mbind option_bind].
  rewrite (int_in ((px - cx) * (px - cx) + (py - cy) * (py - cy))), (int_in (r * r)) by lia. cbn [mbind option_bind].
  rewrite Hbx, Hby. do 2 f_equal. lia.
Qed.

Lemma round_rect_spec s x y w h r c : screen_ok s -> rect_fits x y w h -> w < 2 ^ 31 -> h < 2 ^ 31 -> - 2 ^ 30 <= r <= 32767 ->
  gfx_round_rect x y w h r c s = Some (paint s (round_layer x y w h r c)).
Proof.
  intros Hs (? & ? & ? & ?) Hw Hh Hr. unfold gfx_round_rect. destruct ((w <=? 0) || (h <=? 0)) eqn:E.
  { rewrite orb_true_iff, !Z.leb_le in E. rewrite (paint_ext s _ clear Hs); [by rewrite paint_clear |]. intros. unfold round_layer. by rewrite empty_rect. }
  rewrite orb_false_iff, !Z.leb_gt in E. rewrite (int_in (r * 2)) by lia. cbn [mbind option_bind]. cbn zeta.
  pose proof (Z.div_mod w 2 ltac:(lia)). pose proof (Z.mod_pos_bound w 2 ltac:(lia)). pose proof (Z.div_mod h 2 ltac:(lia)). pose proof (Z.mod_pos_bound h 2 ltac:(lia)).
  set (r1 := if w <? r * 2 then w / 2 else r). assert (r1 = Z.min r (w / 2)) as Hr1 by (subst r1; destruct (Z.ltb_spec w (r * 2)); lia).
  rewrite (int_in (r1 * 2)) by lia. cbn [mbind option_bind]. set (r2 := if h <? r1 * 2 then h / 2 else r1).
  assert (r2 = Z.min r (Z.min (w / 2) (h / 2))) as Hr2 by (subst r2; destruct (Z.ltb_spec h (r1 * 2)); lia). clearbody r1 r2.
  set (cut := fun xx yy => (r2 <=? 0) || (beyond xx w r2 ^ 2 + beyond yy h r2 ^ 2 <=? r2 ^ 2)).
  set (F := fun xx yy => if cut xx yy then dot_layer (x + xx) (y + yy) c else clear).
  rewrite (for_paint _ _ _ (fun yy => stack (Z.to_nat w) 0 (fun xx => F xx yy)) s Hs).
  - f_equal. apply (paint_ext s _ _ Hs). intros px py _ _. apply (grid_stack x y w h F); [lia | lia | | |].
    + intros xx yy _ _ Hne. unfold F. destruct (cut xx yy); [apply dot_miss; lia | done].
    + intros Hin. unfold round_layer, F. rewrite Hin, <- Hr2. cbn [andb]. fold (cut (px - x) (py - y)). destruct (cut _ _); [| done].
      replace (x + (px - x)) with px by lia. replace (y + (py - y)) with py by lia. apply dot_here.
    + intros Hin. unfold round_layer. by rewrite Hin.
  - intros yy s1 Hyy Hs1 Hg1. apply for_paint; [done |]. intros xx s2 Hxx Hs2 Hg2. rewrite in_rounded_spec by lia. cbn [mbind option_bind].
    unfold F. fold (cut xx yy). destruct (cut xx yy); [apply put_at_spec; [done | lia | lia] | by rewrite paint_clear].
Qed.

Lemma glyph_rows c : exists rows, glyph c = Some rows /\ zlen rows = 7.
Proof.
  assert (forall (l : list (list Z)) i, Forall (fun g => zlen g = 7) l -> 0 <= i < zlen l -> exists rows, rd l i = Some rows /\ zlen rows = 7) as Htable.
  { intros l i Hl Hi. destruct (rd_in_range l i Hi) as [rows E]. exists rows. split; [done |].
    apply rd_lookup in E as [_ E]. by apply (Forall_lookup_1 _ _ _ _ Hl E). }
  unfold glyph. set (c' := if (97 <=? c) && (c <=? 122) then c - 97 + 65 else c). destruct ((65 <=? c') && (c' <=? 90)) eqn:E1; [| destruct ((48 <=? c') && (c' <=? 57)) eqn:E2].
  - rewrite andb_true_iff, !Z.leb_le in E1. apply Htable; [by repeat constructor | change (zlen letters) with 26; lia].
  - rewrite andb_true_iff, !Z.leb_le in E2. apply Htable; [by repeat constructor | change (zlen digits) with 10; lia].
  - exists (symbol_glyph c'). split; [done |]. unfold symbol_glyph. by repeat case_match.
Qed.

Lemma div_unique_range a i n : 0 < n -> i = a / n <-> i * n <= a < (i + 1) * n.
Proof.
  intros Hn. split; [intros ->; pose proof (Z.div_mod a n ltac:(lia)); pose proof (Z.mod_pos_bound a n Hn); lia |].
  intros H. apply (Z.div_unique a n i (a - i * n)); [left; lia | lia].
Qed.

(** The square of one bit of a character. *)
Definition cell_layer (x y scale colour row col : Z) : layer := rect_layer (x + col * scale) (y + row * scale) scale scale colour.

Lemma cell_covers x y scale c row col px py : 0 < scale ->
  cell_layer x y scale c row col px py = if (col =? (px - x) / scale) && (row =? (py - y) / scale) then Some c else None.
Proof.
  intros Hs. unfold cell_layer, rect_layer, in_rect. pose proof (div_unique_range (px - x) col scale Hs). pose proof (div_unique_range (py - y) row scale Hs).
  destruct (Z.eqb_spec col ((px - x) / scale)), (Z.eqb_spec row ((py - y) / scale)); cbn [andb];
  match goal with |- (if ?b then _ else _) = _ => destruct b eqn:E end; try done; exfalso;
  rewrite ?andb_true_iff, ?andb_false_iff, ?Z.leb_le, ?Z.ltb_lt, ?Z.leb_gt, ?Z.ltb_ge in E; lia.
Qed.

(** Room for a character of the given scale. *)
Definition char_fits (x y scale : Z) : Prop := 0 < scale /\ rect_fits x y (5 * scale) (7 * scale) /\ 8 * scale < 2 ^ 31.

Lemma draw_cell s x y scale c row col : screen_ok s -> char_fits x y scale -> 0 <= row < 7 -> 0 <= col < 5 ->
  for_loop (Z.to_nat scale) 0 (fun sy => for_loop (Z.to_nat scale) 0 (fun sx s =>
    cx ← int (col * scale); cx ← int (x + cx); px ← int (cx + sx);
    cy ← int (row * scale); cy ← int (y + cy); py ← int (cy + sy); put_pixel px py c s)) s = Some (paint s (cell_layer x y scale c row col)).
Proof.
  intros Hs (Hsc & (? & ? & ? & ?) & Hs8) Hrow Hcol.
  assert (0 <= col * scale <= 4 * scale) by nia. assert (0 <= row * scale <= 6 * scale) by nia.
  assert (rect_fits (x + col * scale) (y + row * scale) scale scale) as Hfit by (unfold rect_fits; lia).
  pose proof (gfx_rect_spec s _ _ _ _ c Hs Hfit) as Hrect. unfold gfx_rect in Hrect.
  rewrite (proj2 (Z.leb_gt scale 0)) in Hrect by lia. cbn [orb] in Hrect. unfold cell_layer. rewrite <- Hrect.
  apply for_ext. intros sy s1 Hsy. apply for_ext. intros sx s2 Hsx. unfold put_at.
  rewrite (int_in (col * scale)), (int_in (row * scale)) by lia. cbn [mbind option_bind].
  rewrite (int_in (x + col * scale)) by lia. cbn [mbind option_bind]. destruct (int (x + col * scale + sx)); cbn [mbind option_bind]; [| done].
  by rewrite (int_in (y + row * scale)) by lia.
Qed.

Lemma draw_char_spec s x y c scale colour : screen_ok s -> char_fits x y scale ->
  font_draw_char put_pixel x y c scale colour s = Some (paint s (char_layer x y c scale colour)).
Proof.
  intros Hs Hfit. pose proof Hfit as (Hsc & _). unfold font_draw_char. destruct (glyph_rows c) as (rows & Hg & Hl). rewrite Hg. cbn [mbind option_bind].
  set (ink := fun row col => Z.testbit (default 0 (rd rows row)) (4 - col)).
  set (F := fun row col => if ink row col then cell_layer x y scale colour row col else clear).
  rewrite (for_paint 7 0 _ (fun row => stack 5 0 (F row)) s Hs).
  - f_equal. apply (paint_ext s _ _ Hs). intros px py _ _. unfold char_layer. rewrite Hg. cbn [mbind option_bind]. cbn zeta.
    set (a := (px - x) / scale). set (b := (py - y) / scale). fold (ink b a).
    assert (forall row col, F row col px py = if (col =? a) && (row =? b) && ink b a then Some colour else None) as HF.
    { intros row col. unfold F. destruct (ink row col) eqn:Ei; unfold clear; rewrite ?cell_covers by done; fold a b;
        destruct (Z.eqb_spec col a), (Z.eqb_spec row b); cbn [andb]; try done; subst; by rewrite Ei. }
    destruct (in_rect 0 0 5 7 a b && ink b a) eqn:E.
    + apply andb_true_iff in E as [Hin Hi]. unfold in_rect in Hin. rewrite !andb_true_iff, !Z.leb_le, !Z.ltb_lt in Hin.
      apply (stack_hit _ _ _ _ _ b); [lia | apply (stack_hit _ _ _ _ _ a); [lia | |] |].
      * by rewrite HF, !Z.eqb_refl, Hi.
      * intros k _ Hk. rewrite HF. by rewrite (proj2 (Z.eqb_neq k a) Hk).
      * intros k _ Hk. apply stack_miss. intros j _. rewrite HF, (proj2 (Z.eqb_neq k b) Hk), andb_false_r. done.
    + apply stack_miss. intros row Hrow. apply stack_miss. intros col Hcol. rewrite HF.
      destruct (Z.eqb_spec col a), (Z.eqb_spec row b); cbn [andb]; try done. subst. destruct (ink b a) eqn:Ei; [| done]. exfalso.
      rewrite andb_true_r in E. unfold in_rect in E. rewrite !andb_false_iff, !Z.leb_gt, !Z.ltb_ge in E. lia.
  - intros row s1 Hrow Hs1 _. apply for_paint; [done |]. intros col s2 Hcol Hs2 _.
    destruct (rd_in_range rows row ltac:(lia)) as [bits Hb]. rewrite Hb. cbn [mbind option_bind]. unfold F, ink. rewrite Hb. change (default 0 (Some bits)) with bits.
    rewrite land_bit by lia. destruct (Z.testbit bits (4 - col)); cbn [negb]; [by apply draw_cell | by rewrite paint_clear].
Qed.

(** ** Text *)

(** [l] begins with the string [text], which ends at the first zero. *)
Definition cstring (l text : list Z) : Prop := Forall (fun c => c <> 0) text /\ exists rest, l = text ++ 0 :: rest.

(** Room for a text of [n] characters in as many lines. *)
Definition text_fits (x y n scale : Z) : Prop :=
  1 <= scale /\ - 2 ^ 31 <= x /\ - 2 ^ 31 <= y /\ 8 * scale < 2 ^ 31 /\ x + 6 * scale * n < 2 ^ 31 /\ y + 8 * scale * n < 2 ^ 31.

Lemma text_layer_cstring x pen y l text scale c px py : cstring l text ->
  text_layer x pen y l scale c px py = text_layer x pen y text scale c px py.
Proof.
  intros [Hnz [rest ->]]. revert pen y. induction text as [| ch text IH]; intros pen y; [done |].
  apply Forall_cons in Hnz as [Hch Hnz]. cbn [app text_layer]. rewrite (proj2 (Z.eqb_neq ch 0) Hch). destruct (ch =? 10); [by apply IH |].
  unfold over. by rewrite IH.
Qed.

Lemma text_loop_spec x pen y l text scale c s : screen_ok s -> cstring l text ->
  text_fits x y (zlen text) scale -> text_fits pen y (zlen text) scale ->
  text_loop x pen y l scale c s = Some (paint s (text_layer x pen y text scale c)).
Proof.
  intros Hs [Hnz [rest ->]]. revert pen y s Hs. induction text as [| ch text IH]; intros pen y s Hs Hx Hp; cbn [app text_loop text_layer].
  { by rewrite paint_clear. }
  apply Forall_cons in Hnz as [Hch Hnz]. rewrite (proj2 (Z.eqb_neq ch 0) Hch). unfold text_fits in Hx, Hp. rewrite zlen_cons in Hx, Hp.
  pose proof (zlen_nonneg text). assert (0 <= scale * zlen text) by nia.
  assert (text_fits x y (zlen text) scale) by (unfold text_fits; lia).
  destruct (ch =? 10).
  - rewrite (int_in (8 * scale)) by lia. cbn [mbind option_bind]. rewrite (int_in (y + 8 * scale)) by lia. cbn [mbind option_bind].
    apply IH; [done | done | unfold text_fits; lia | unfold text_fits; lia].
  - rewrite draw_char_spec; [| done | unfold char_fits, rect_fits; lia]. cbn [mbind option_bind].
    rewrite (int_in (6 * scale)) by lia. cbn [mbind option_bind]. rewrite (int_in (pen + 6 * scale)) by lia. cbn [mbind option_bind].
    rewrite IH, paint_paint; [done | done | by apply paint_ok | done | unfold text_fits; lia].
Qed.

Lemma gfx_text_spec x y l text scale c s : screen_ok s -> cstring l text -> text_fits x y (zlen text) scale ->
  gfx_text x y (Some l) scale c s = Some (paint s (text_layer x x y text scale c)).
Proof. intros Hs Hl Hf. unfold gfx_text. rewrite (proj2 (Z.ltb_ge scale 1)) by apply Hf. by apply text_loop_spec. Qed.

(** ** Colours and the background *)

Lemma channel_defined v size shift : 0 <= size <= 32 /\ 0 <= shift <= 32 -> is_Some (channel v size shift).
Proof.
  intros []. unfold channel. destruct (size =? 0); [by eexists |]. rewrite (proj2 (Z.leb_gt 64 size)), (proj2 (Z.leb_gt 64 shift)) by lia. by eexists.
Qed.

Lemma rgb_defined s r gr b : screen_ok s -> is_Some (gfx_rgb s r gr b).
Proof.
  intros Hs. unfold gfx_rgb. destruct (channel_defined r _ _ (so_red s Hs)) as [? ->]. destruct (channel_defined gr _ _ (so_green s Hs)) as [? ->].
  destruct (channel_defined b _ _ (so_blue s Hs)) as [? ->]. by eexists.
Qed.

Lemma int64_in v : - 2 ^ 63 <= v < 2 ^ 63 -> int64 v = Some v.
Proof. intros. unfold int64. rewrite (proj2 (Z.leb_le _ _)), (proj2 (Z.ltb_lt _ _)) by lia. done. Qed.

Lemma to_int64_small v : 0 <= v < 2 ^ 63 -> to_int64 v = v.
Proof. intros. unfold to_int64. rewrite Z.mod_small by lia. lia. Qed.

Lemma to_int_small v : 0 <= v < 2 ^ 31 -> to_int v = v.
Proof. intros. unfold to_int. rewrite Z.mod_small by lia. lia. Qed.

Lemma square_30 d : - 2 ^ 30 <= d <= 2 ^ 30 -> 0 <= d * d <= 2 ^ 60.
Proof. intros. nia. Qed.

Lemma gradient_defined s x y : screen_ok s -> 0 <= x < g_width (g s) -> 0 <= y < g_height (g s) -> is_Some (gradient_colour s x y).
Proof.
  intros Hs Hx Hy. pose proof (so_width s Hs). pose proof (so_height s Hs). unfold gradient_colour. cbn zeta.
  assert (0 <= u64 (g_width (g s) * 3) / 4 <= 2 ^ 30).
  { rewrite u64_small by lia. split; [apply Z.div_pos; lia |]. apply Z.div_le_upper_bound; lia. }
  assert (0 <= g_height (g s) / 4 <= 2 ^ 30) by (split; [apply Z.div_pos; lia | apply Z.div_le_upper_bound; lia]).
  rewrite !to_int64_small by lia. set (dx := x - u64 (g_width (g s) * 3) / 4). set (dy := y - g_height (g s) / 4).
  rewrite (int64_in dx), (int64_in dy) by lia. cbn [mbind option_bind]. pose proof (square_30 dx ltac:(lia)). pose proof (square_30 dy ltac:(lia)).
  rewrite (int64_in (dx * dx)), (int64_in (dy * dy)) by lia. cbn [mbind option_bind]. rewrite (int64_in (dx * dx + dy * dy)) by lia. cbn [mbind option_bind].
  destruct (_ <? _); by apply rgb_defined.
Qed.

Lemma gradient_spec s : screen_ok s -> gfx_clear_gradient s = Some (paint s (gradient_colour s)).
Proof.
  intros Hs. unfold gfx_clear_gradient. rewrite (proj2 (Z.eqb_neq _ _) (so_address s Hs)). pose proof (so_width s Hs). pose proof (so_height s Hs).
  set (F := fun xx yy => match gradient_colour s xx yy with Some c => dot_layer xx yy c | None => clear end).
  rewrite (for_paint _ _ _ (fun yy => stack (Z.to_nat (g_width (g s))) 0 (fun xx => F xx yy)) s Hs).
  - f_equal. apply (paint_ext s _ _ Hs). intros px py Hpx Hpy.
    rewrite (grid_stack 0 0 (g_width (g s)) (g_height (g s)) F (fun a b => if in_rect 0 0 (g_width (g s)) (g_height (g s)) a b then gradient_colour s a b else None));
      [| lia | lia | | |].
    + replace (in_rect _ _ _ _ px py) with true; [done |]. symmetry. unfold in_rect. rewrite !andb_true_iff, !Z.leb_le, !Z.ltb_lt. lia.
    + intros xx yy _ _ Hne. unfold F. destruct (gradient_colour s xx yy); [apply dot_miss; lia | done].
    + intros ->. rewrite !Z.sub_0_r. unfold F. destruct (gradient_colour s px py); [apply dot_here | done].
    + by intros ->.
  - intros yy s1 Hyy Hs1 Hg1. apply for_paint; [done |]. intros xx s2 Hxx Hs2 Hg2.
    assert (gradient_colour s2 xx yy = gradient_colour s xx yy) as -> by (unfold gradient_colour, gfx_rgb; by rewrite Hg2, Hg1).
    unfold F. destruct (gradient_defined s xx yy Hs) as [c ->]; [lia | lia |]. cbn [mbind option_bind]. rewrite !to_int_small by lia. apply put_pixel_spec; [done | lia | lia].
Qed.

(** ** Correctness *)

(** [s'] is [s] with a layer over it: word by word, only visible pixels that the
    layer covers have changed, and nothing between the rows has. *)
Definition drawn (s : screen) (f : layer) (s' : screen) : Prop :=
  g s' = g s /\ zlen (pixels s') = zlen (pixels s) /\
  forall px py, 0 <= px < stride s -> 0 <= py < g_height (g s) ->
    rd (pixels s') (py * stride s + px) =
    match f px py with
    | Some c => if px <? g_width (g s) then Some c else rd (pixels s) (py * stride s + px)
    | None => rd (pixels s) (py * stride s + px)
    end.

Lemma paint_drawn s f : screen_ok s -> drawn s f (paint s f).
Proof.
  intros Hs. split; [done |]. split; [unfold zlen, paint; cbn; by rewrite length_imap |]. intros px py Hx Hy.
  pose proof (so_pixels s Hs) as Hp. assert (0 <= py * stride s + px < zlen (pixels s)) as Hi by (rewrite Hp; nia).
  destruct (rd_in_range _ _ Hi) as [old Ho]. rewrite Ho. apply rd_lookup in Ho as [_ Ho].
  assert (pixels (paint s f) !! Z.to_nat (py * stride s + px) = Some (if px <? g_width (g s) then default old (f px py) else old)) as E.
  { rewrite paint_lookup, Ho. cbn. unfold paint_word. rewrite Z2Nat.id, Z.add_comm, Z.mod_add, Z.mod_small, Z.div_add, Z.div_small by lia. done. }
  replace (rd _ _) with (Some (if px <? g_width (g s) then default old (f px py) else old)).
  - destruct (f px py); cbn; by destruct (px <? g_width (g s)).
  - symmetry. apply rd_lookup. split; [lia | done].
Qed.

(** The layers of a panel: its shadow, its border and its inside. *)
Definition panel_layer (x y w h radius shadow fill border : Z) : layer :=
  over (round_layer (x + 5) (y + 7) w h radius shadow)
    (over (round_layer x y w h radius border)
      (round_layer (x + 1) (y + 1) (w - 2) (h - 2) (if 1 <? radius then radius - 1 else 0) fill)).

(** Room for a panel and its shadow. *)
Definition panel_fits (x y w h radius : Z) : Prop :=
  - 2 ^ 31 <= x /\ x + 5 < 2 ^ 31 /\ x + 5 + w <= 2 ^ 31 /\ - 2 ^ 31 <= y /\ y + 7 < 2 ^ 31 /\ y + 7 + h <= 2 ^ 31 /\
  - 2 ^ 30 <= w < 2 ^ 31 /\ - 2 ^ 30 <= h < 2 ^ 31 /\ - 2 ^ 30 <= radius <= 32767.

Lemma gfx_panel_spec x y w h radius fill border s : screen_ok s -> panel_fits x y w h radius ->
  exists shadow, gfx_rgb s 4 7 15 = Some shadow /\
    gfx_panel x y w h radius fill border s = Some (paint s (panel_layer x y w h radius shadow fill border)).
Proof.
  intros Hs (? & ? & ? & ? & ? & ? & ? & ? & ?). destruct (rgb_defined s 4 7 15 Hs) as [shadow E]. exists shadow. split; [done |].
  unfold gfx_panel. rewrite (int_in (x + 5)), (int_in (y + 7)) by lia. cbn [mbind option_bind]. rewrite E. cbn [mbind option_bind].
  rewrite round_rect_spec by (done || lia || (unfold rect_fits; lia)). cbn [mbind option_bind].
  rewrite round_rect_spec by (lia || (unfold rect_fits; lia) || by apply paint_ok). cbn [mbind option_bind].
  rewrite (int_in (x + 1)), (int_in (y + 1)), (int_in (w - 2)), (int_in (h - 2)) by lia. cbn [mbind option_bind].
  rewrite round_rect_spec by (lia || (unfold rect_fits; lia) || (by do 2 apply paint_ok) || (destruct (Z.ltb_spec 1 radius); lia)).
  by rewrite !paint_paint.
Qed.

(** C39. Every drawing operation is defined on a framebuffer the boot code accepts and
    paints exactly the pixels of its shape that are visible: rectangles, rectangles
    with corners cut by the distance from their centres, text as the squares of
    its glyphs, panels as their three layers and the background everywhere.  No
    other word of the framebuffer changes and none outside it is touched, wherever
    the shape lies. *)
Theorem drawing_correct s : screen_ok s ->
  (forall x y w h c, rect_fits x y w h -> exists s', gfx_rect x y w h c s = Some s' /\ drawn s (rect_layer x y w h c) s') /\
  (forall x y w h r c, rect_fits x y w h -> w < 2 ^ 31 -> h < 2 ^ 31 -> - 2 ^ 30 <= r <= 32767 ->
     exists s', gfx_round_rect x y w h r c s = Some s' /\ drawn s (round_layer x y w h r c) s') /\
  (forall x y l text scale c, cstring l text -> text_fits x y (zlen text) scale ->
     exists s', gfx_text x y (Some l) scale c s = Some s' /\ drawn s (text_layer x x y text scale c) s') /\
  (forall x y w h r fill border, panel_fits x y w h r ->
     exists shadow s', gfx_rgb s 4 7 15 = Some shadow /\ gfx_panel x y w h r fill border s = Some s' /\ drawn s (panel_layer x y w h r shadow fill border) s') /\
  (exists s', gfx_clear_gradient s = Some s' /\ drawn s (gradient_colour s) s' /\
     forall px py, 0 <= px < g_width (g s) -> 0 <= py < g_height (g s) -> is_Some (gradient_colour s px py)).
Proof.
  intros Hs. split; [| split; [| split; [| split]]].
  - intros. eexists. split; [by apply gfx_rect_spec | by apply paint_drawn].
  - intros. eexists. split; [by apply round_rect_spec | by apply paint_drawn].
  - intros. eexists. split; [by apply gfx_text_spec | by apply paint_drawn].
  - intros x y w h r fill border Hf. destruct (gfx_panel_spec x y w h r fill border s Hs Hf) as (shadow & E & ->).
    exists shadow. eexists. split; [done |]. split; [done | by apply paint_drawn].
  - eexists. split; [by apply gradient_spec |]. split; [by apply paint_drawn | intros; by apply gradient_defined].
Qed.

(** Eight by eight pixels with two words between the rows. *)
Definition example_framebuffer : boot_framebuffer_t := mk_framebuffer 0xfd000000 8 8 40 32 8 16 8 8 8 0.
Definition example_screen : screen := mk_screen (mk_gfx example_framebuffer 8 8) (replicate 80 0).

Lemma example_screen_ok : screen_ok example_screen.
Proof. split; cbn; try lia; by unfold stride; cbn. Qed.

Lemma drawing_correct_witness :
  (exists s', gfx_rect (-3) 6 20 20 7 example_screen = Some s' /\ drawn example_screen (rect_layer (-3) 6 20 20 7) s') /\
  (exists s', gfx_text 1 1 (Some [74; 0; 79]) 1 9 example_screen = Some s' /\ drawn example_screen (text_layer 1 1 1 [74] 1 9) s').
Proof.
  destruct (drawing_correct example_screen example_screen_ok) as (Hr & _ & Ht & _). split.
  - apply Hr. unfold rect_fits. lia.
  - apply (Ht 1 1 [74; 0; 79] [74] 1 9); [split; [apply Forall_cons_2; [discriminate | apply Forall_nil_2] | by exists [79]] | unfold text_fits; change (zlen [74]) with 1; lia].
Defined.
