(* ===== verification/Shell.v ===== *)
(** * The graphical shell (kernel/src/shell.c, shell.h)

    A terminal of eighteen lines, a line of input and six commands, drawn with
    [Gfx].  Arrays of characters are lists; local arrays start with zeros where C
    leaves them uninitialised, and nothing is read before it is written. *)

From Stdlib Require Import ZArith Lia String.
From stdpp Require Import base numbers list.
From S2P Require Import Prelude Bytes Boot Gfx.

#[local] Open Scope Z_scope.

Definition MAX_LINES : Z := 18.
Definition MAX_LINE : Z := 80.
Definition MAX_INPUT : Z := 48.

(** The static variables. *)
Record shell := mk_shell {
  lines : list (list Z);
  line_count : Z;
  input : list Z;
  input_len : Z;
  sx : Z;
  sy : Z;
  sw : Z;
  sh : Z;
  mem_mib : Z
}.

Definition set_lines (t : shell) ls n : shell := mk_shell ls n (input t) (input_len t) (sx t) (sy t) (sw t) (sh t) (mem_mib t).
Definition set_input (t : shell) i n : shell := mk_shell (lines t) (line_count t) i n (sx t) (sy t) (sw t) (sh t) (mem_mib t).

(** A literal as an array, with its terminating zero. *)
Definition lit (s : string) : list Z := chars s ++ [0].

Definition lower (c : Z) : Z := if (65 <=? c) && (c <=? 90) then c - 65 + 97 else c.

Fixpoint equals (a b : list Z) : option bool :=
  match a, b with
  | ca :: a, cb :: b =>
      if negb (ca =? 0) && negb (cb =? 0) then (if negb (lower ca =? lower cb) then Some false else equals a b)
      else Some ((ca =? 0) && (cb =? 0))
  | _, _ => None
  end.

Fixpoint starts_with (text prefix : list Z) {struct prefix} : option bool :=
  match prefix with
  | [] => None
  | p :: prefix =>
      if p =? 0 then Some true
      else match text with
           | [] => None
           | c :: text => if (c =? 0) || negb (lower c =? lower p) then Some false else starts_with text prefix
           end
  end.

(** [while (src[i] && n more times) dst[p++] = src[i++];] *)
Fixpoint append_loop (n : nat) (dst : list Z) (p : Z) (src : list Z) (i : Z) : option (list Z * Z) :=
  c ← rd src i;
  if c =? 0 then Some (dst, p)
  else match n with O => Some (dst, p) | S n => dst ← wr dst p c; append_loop n dst (p + 1) src (i + 1) end.

Definition copy (dst src : list Z) (max : Z) : option (list Z) :=
  '(dst, i) ← append_loop (Z.to_nat (max - 1)) dst 0 src 0; wr dst i 0.

(** The lines from [i] on move up by one. *)
Fixpoint scroll_loop (n : nat) (i : Z) (ls : list (list Z)) : option (list (list Z)) :=
  match n with
  | O => Some ls
  | S n =>
      dst ← rd ls (i - 1); src ← rd ls i; line ← copy dst src MAX_LINE; ls ← wr ls (i - 1) line;
      scroll_loop n (i + 1) ls
  end.

Definition push (text : list Z) (t : shell) : option shell :=
  '(ls, n) ← (if line_count t =? MAX_LINES then ls ← scroll_loop (Z.to_nat (MAX_LINES - 1)) 1 (lines t); Some (ls, line_count t - 1) else Some (lines t, line_count t));
  dst ← rd ls n;
  line ← copy dst text MAX_LINE;
  ls ← wr ls n line;
  Some (set_lines t ls (n + 1)).

(** The digits, the last one first; at most [n] fit. *)
Fixpoint digits_loop (n : nat) (value : Z) (temp : list Z) (k : Z) : option (list Z * Z) :=
  if value =? 0 then Some (temp, k)
  else match n with O => Some (temp, k) | S n => temp ← wr temp k (48 + value mod 10); digits_loop n (value / 10) temp (k + 1) end.

(** [while (n) out[i++] = temp[--n];] *)
Fixpoint reverse_loop (n : nat) (temp out : list Z) (i : Z) : option (list Z * Z) :=
  match n with O => Some (out, i) | S n => c ← rd temp (Z.of_nat n); out ← wr out i c; reverse_loop n temp out (i + 1) end.

Definition number (value : Z) (out : list Z) : option (list Z) :=
  let temp := replicate 24 0 in
  '(temp, n) ← (if value =? 0 then temp ← wr temp 0 48; Some (temp, 1) else Some (temp, 0));
  '(temp, n) ← digits_loop (Z.to_nat (24 - n)) value temp n;
  '(out, i) ← reverse_loop (Z.to_nat n) temp out 0;
  wr out i 0.

(** The lines from [i] on; the result is where the next one goes. *)
Fixpoint lines_loop (n : nat) (i y row_h scale dim : Z) (t : shell) (s : screen) : option (Z * screen) :=
  match n with
  | O => Some (y, s)
  | S n =>
      x ← int (sx t + 10); line ← rd (lines t) i; s ← gfx_text x y (Some line) scale dim s;
      y ← int (y + row_h); lines_loop n (i + 1) y row_h scale dim t s
  end.

Definition render (t : shell) (s : screen) : option screen :=
  bg ← gfx_rgb s 10 17 31;
  _ ← gfx_rgb s 218 230 246;
  dim ← gfx_rgb s 123 146 178;
  accent ← gfx_rgb s 91 218 255;
  s ← gfx_rect (sx t) (sy t) (sw t) (sh t) bg s;
  let scale := if (900 <=? sw t) && (420 <=? sh t) then 2 else 1 in
  let row_h := 10 * scale in
  room ← int (sh t - 30);
  let visible := Z.quot room row_h in
  let visible := if MAX_LINES <? visible then MAX_LINES else visible in
  first ← (if visible <? line_count t then int (line_count t - visible) else Some 0);
  y ← int (sy t + 10);
  '(y, s) ← lines_loop (Z.to_nat (line_count t - first)) first y row_h scale dim t s;
  let prompt := lit "JOSH@JOSHOS:~> " ++ replicate 64 0 in
  '(prompt, p) ← append_loop (Z.to_nat (MAX_LINE - 2 - 15)) prompt 15 (input t) 0;
  prompt ← wr prompt p 95;
  prompt ← wr prompt (p + 1) 0;
  next ← int (y + row_h);
  bottom ← int (sy t + sh t);
  x ← int (sx t + 10);
  if next <=? bottom then gfx_text x y (Some prompt) scale accent s
  else b ← int (bottom - row_h); b ← int (b - 4); gfx_text x b (Some prompt) scale accent s.

(** The line [execute] echoes. *)
Definition echo_line (t : shell) : option (list Z) :=
  echo ← copy (replicate 80 0) (lit "JOSH@JOSHOS:~> ") MAX_LINE;
  '(echo, p) ← append_loop (Z.to_nat (MAX_LINE - 1 - 15)) echo 15 (input t) 0;
  wr echo p 0.

(** The line of the command "mem". *)
Definition mem_line (t : shell) : option (list Z) :=
  value ← number (mem_mib t) (replicate 24 0);
  '(line, i) ← append_loop (Z.to_nat (MAX_LINE - 5 - 15)) (lit "USABLE MEMORY: " ++ replicate 64 0) 15 value 0;
  line ← wr line i 32; line ← wr line (i + 1) 77; line ← wr line (i + 2) 73; line ← wr line (i + 3) 66;
  wr line (i + 4) 0.

Fixpoint push_all (texts : list (list Z)) (t : shell) : option shell :=
  match texts with [] => Some t | text :: texts => t ← push text t; push_all texts t end.

Definition help_text : list string :=
  ["HELP   LIST COMMANDS"; "ABOUT  ABOUT JOSH OS"; "MEM    SHOW DETECTED MEMORY"; "CLEAR  CLEAR TERMINAL"; "ECHO   PRINT TEXT";
   "REBOOT RESTART COMPUTER"]%string.

Definition about_text : list string :=
  ["JOSH OS 0.1 PRE-ALPHA"; "A TINY INDEPENDENT X86-64 OPERATING SYSTEM."; "NO LINUX KERNEL UNDERNEATH."]%string.

(** Whether the kernel goes on, or [keyboard_reboot], which does not return, was
    called. *)
Inductive fate := Running | Rebooting.

(** The command in the line of input. *)
Definition run_command (t : shell) (s : screen) : option (fate * shell * screen) :=
  if input_len t =? 0 then Some (Running, t, s)
  else
    help ← equals (input t) (lit "help");
    if (help : bool) then t ← push_all (lit <$> help_text) t; Some (Running, t, s)
    else
      about ← equals (input t) (lit "about");
      if (about : bool) then t ← push_all (lit <$> about_text) t; Some (Running, t, s)
      else
        mem ← equals (input t) (lit "mem");
        if (mem : bool) then line ← mem_line t; t ← push line t; Some (Running, t, s)
        else
          clear ← equals (input t) (lit "clear");
          if (clear : bool) then Some (Running, set_lines t (lines t) 0, s)
          else
            reboot ← equals (input t) (lit "reboot");
            if (reboot : bool) then t ← push (lit "REBOOTING...") t; s ← render t s; Some (Rebooting, t, s)
            else
              echo ← starts_with (input t) (lit "echo ");
              if (echo : bool) then rest ← padd (input t) 5; t ← push rest t; Some (Running, t, s)
              else t ← push (lit "COMMAND NOT FOUND. TYPE HELP.") t; Some (Running, t, s).

Definition execute (t : shell) (s : screen) : option (fate * shell * screen) :=
  echo ← echo_line t;
  t ← push echo t;
  '(f, t, s) ← run_command t s;
  match f with
  | Rebooting => Some (Rebooting, t, s)
  | Running =>
      i ← wr (input t) 0 0;
      let t := set_input t i 0 in
      s ← render t s; Some (Running, t, s)
  end.

(** [t] is the state before, all of whose arrays keep their contents. *)
Definition shell_init (x y w h memory_mib : Z) (t : shell) (s : screen) : option (shell * screen) :=
  let t := mk_shell (lines t) 0 (input t) 0 x y w h memory_mib in
  t ← push (lit "JOSH OS GRAPHICAL SHELL") t;
  t ← push (lit "KERNEL ONLINE. TYPE HELP TO EXPLORE.") t;
  t ← push [0] t;
  s ← render t s; Some (t, s).

Definition shell_handle_key (key : Z) (t : shell) (s : screen) : option (fate * shell * screen) :=
  if key =? 0 then Some (Running, t, s)
  else if key =? 10 then execute t s
  else if key =? 8 then
    t ← (if 0 <? input_len t then i ← wr (input t) (input_len t - 1) 0; Some (set_input t i (input_len t - 1)) else Some t);
    s ← render t s; Some (Running, t, s)
  else if (32 <=? key) && (key <=? 126) && (input_len t <? MAX_INPUT - 1) then
    i ← wr (input t) (input_len t) key;
    i ← wr i (input_len t + 1) 0;
    let t := set_input t i (input_len t + 1) in
    s ← render t s; Some (Running, t, s)
  else Some (Running, t, s).

(** ** Strings *)

Lemma cstring_lit s : Forall (fun c => c <> 0) (chars s) -> cstring (lit s) (chars s).
Proof. intros H. split; [done | by exists []]. Qed.

Lemma cstring_app text more : Forall (fun c => c <> 0) text -> cstring (text ++ 0 :: more) text.
Proof. intros H. split; [done | by eexists]. Qed.

Lemma append_loop_spec n dst p pre text rest : Forall (fun c => c <> 0) text -> zlen text <= Z.of_nat n -> 0 <= p -> p + zlen text <= zlen dst ->
  append_loop n dst p (pre ++ text ++ 0 :: rest) (zlen pre) = Some (blit dst p text, p + zlen text).
Proof.
  revert n dst p pre. induction text as [| c text IH]; intros n dst p pre Hnz Hn Hp Hd.
  - assert (rd (pre ++ [] ++ 0 :: rest) (zlen pre) = Some 0) as E by (rewrite rd_app_r, Z.sub_diag by lia; done).
    destruct n; cbn [append_loop]; rewrite E; cbn [mbind option_bind]; by rewrite blit_nil, Z.add_0_r.
  - apply Forall_cons in Hnz as [Hc Hnz]. rewrite zlen_cons in Hn, Hd. pose proof (zlen_nonneg text). destruct n as [| n]; [lia |].
    cbn [append_loop]. rewrite rd_app_r, Z.sub_diag by lia. cbn [app]. change (rd (c :: text ++ 0 :: rest) 0) with (Some c). cbn [mbind option_bind].
    rewrite (proj2 (Z.eqb_neq c 0) Hc). rewrite wr_blit by lia. cbn [mbind option_bind].
    replace (pre ++ c :: text ++ 0 :: rest) with ((pre ++ [c]) ++ text ++ 0 :: rest) by (by rewrite <- app_assoc).
    replace (zlen pre + 1) with (zlen (pre ++ [c])) by (rewrite zlen_app; done).
    rewrite IH; [| done | lia | lia | rewrite zlen_blit; [lia | lia | rewrite zlen_cons, zlen_nil; lia]].
    rewrite (blit_blit dst p [c] text (p + 1)) by (rewrite ?zlen_cons, ?zlen_nil; lia). rewrite zlen_cons. do 2 f_equal. lia.
Qed.

Lemma copy_spec dst src text max : cstring src text -> zlen text < max <= zlen dst -> copy dst src max = Some (blit dst 0 (text ++ [0])).
Proof.
  intros [Hnz [rest ->]] Hm. pose proof (zlen_nonneg text). unfold copy. rewrite (append_loop_spec _ dst 0 [] text rest) by (done || lia).
  cbn [mbind option_bind]. rewrite Z.add_0_l, wr_blit by (rewrite zlen_blit; lia). f_equal.
  apply blit_blit; [lia | lia | rewrite zlen_cons, zlen_nil; lia].
Qed.

Lemma blit_cstring dst text : Forall (fun c => c <> 0) text -> cstring (blit dst 0 (text ++ [0])) text.
Proof. intros H. split; [done |]. unfold blit. cbn [Z.to_nat take app]. rewrite <- app_assoc. by eexists. Qed.

(** An array of eighty characters with a text in it. *)
Definition line_ok (l text : list Z) : Prop := zlen l = MAX_LINE /\ cstring l text /\ zlen text < MAX_LINE.

Lemma copy_line dst src text : zlen dst = MAX_LINE -> cstring src text -> zlen text < MAX_LINE ->
  exists l, copy dst src MAX_LINE = Some l /\ line_ok l text.
Proof.
  intros Hd Hs Ht. unfold MAX_LINE in *. pose proof (zlen_nonneg text). rewrite (copy_spec dst src text) by (done || lia). eexists. split; [done |].
  split; [| split; [apply blit_cstring, Hs | done]]. rewrite zlen_blit; [done | lia |]. rewrite zlen_app. change (zlen [0]) with 1. lia.
Qed.

(** ** The lines on the screen *)

(** The array holds the given lines, from the first entry on. *)
Record table (ls : list (list Z)) (shown : list (list Z)) : Prop := {
  tb_size : zlen ls = MAX_LINES;
  tb_arrays k l : rd ls k = Some l -> zlen l = MAX_LINE;
  tb_count : zlen shown <= MAX_LINES;
  tb_lines k text : rd shown k = Some text -> exists l, rd ls k = Some l /\ line_ok l text
}.

(** The text of every line from [i] on moves up by one. *)
Lemma scroll_loop_spec n i ls (T : Z -> list Z) : i + Z.of_nat n = MAX_LINES -> 1 <= i -> zlen ls = MAX_LINES ->
  (forall k l, rd ls k = Some l -> zlen l = MAX_LINE) ->
  (forall k, i <= k < MAX_LINES -> exists l, rd ls k = Some l /\ line_ok l (T k)) ->
  exists ls', scroll_loop n i ls = Some ls' /\ zlen ls' = MAX_LINES /\ (forall k l, rd ls' k = Some l -> zlen l = MAX_LINE) /\
    (forall k, k < i - 1 -> rd ls' k = rd ls k) /\
    (forall k, i - 1 <= k < MAX_LINES - 1 -> exists l, rd ls' k = Some l /\ line_ok l (T (k + 1))).
Proof.
  revert i ls. induction n as [| n IH]; intros i ls Hi H1 Hl H80 HT; cbn [scroll_loop].
  { exists ls. split; [done |]. split; [done |]. split; [done |]. split; [done |]. intros k Hk. lia. }
  destruct (rd_in_range ls (i - 1) ltac:(lia)) as [dst Hd]. destruct (HT i ltac:(lia)) as (src & Hsrc & _ & Hstr & Hlen).
  rewrite Hd. cbn [mbind option_bind]. rewrite Hsrc. cbn [mbind option_bind].
  destruct (copy_line dst src (T i) (H80 _ _ Hd) Hstr Hlen) as (l & -> & Hok). cbn [mbind option_bind].
  destruct (wr ls (i - 1) l) as [ls1 |] eqn:W; [| by rewrite wr_in_range in W by lia]. cbn [mbind option_bind].
  pose proof (zlen_wr _ _ _ _ W). pose proof (rd_wr_eq _ _ _ _ W) as Heq.
  assert (forall k, k <> i - 1 -> rd ls1 k = rd ls k) as Hne by (intros k Hk; by apply (rd_wr_ne _ _ _ _ _ W)).
  destruct (IH (i + 1) ls1) as (ls' & -> & Hl' & H80' & Hlow & Hhigh); [lia | lia | lia | | |].
  - intros k l0 Hk. destruct (decide (k = i - 1)) as [-> |]; [rewrite Heq in Hk; injection Hk as <-; apply Hok | rewrite Hne in Hk by done; by eapply H80].
  - intros k Hk. rewrite Hne by lia. apply HT. lia.
  - exists ls'. split; [done |]. split; [done |]. split; [done |]. split.
    + intros k Hk. rewrite Hlow, Hne by lia. done.
    + intros k Hk. destruct (decide (k = i - 1)) as [-> |]; [| apply Hhigh; lia].
      exists l. rewrite Hlow by lia. split; [done |]. by replace (i - 1 + 1) with i by lia.
Qed.

(** The lines that stay when one more is shown. *)
Definition scrolled (shown : list (list Z)) : list (list Z) := if zlen shown =? MAX_LINES then drop 1 shown else shown.

(** What a terminal shows after one more line. *)
Definition show (shown : list (list Z)) (text : list Z) : list (list Z) := scrolled shown ++ [text].

Definition shows (t : shell) (shown : list (list Z)) : Prop := table (lines t) shown /\ line_count t = zlen shown.

Lemma table_write ls shown text l ls' : table ls shown -> zlen shown < MAX_LINES -> line_ok l text -> wr ls (zlen shown) l = Some ls' -> table ls' (shown ++ [text]).
Proof.
  intros [Hs H80 Hc Hlines] Hlt Hok W. pose proof (rd_wr_eq _ _ _ _ W) as Heq.
  assert (forall k, k <> zlen shown -> rd ls' k = rd ls k) as Hne by (intros k Hk; by apply (rd_wr_ne _ _ _ _ _ W)).
  split; [rewrite (zlen_wr _ _ _ _ W); done | | rewrite zlen_snoc; lia |].
  - intros k l0 Hk. destruct (decide (k = zlen shown)) as [-> |]; [rewrite Heq in Hk; injection Hk as <-; apply Hok | rewrite Hne in Hk by done; by eapply H80].
  - intros k tx Hk. pose proof (rd_Some_lt _ _ _ Hk) as Hr. rewrite zlen_snoc in Hr. destruct (decide (k = zlen shown)) as [-> |].
    + rewrite rd_app_r, Z.sub_diag in Hk by lia. injection Hk as <-. by exists l.
    + rewrite rd_app_l in Hk by lia. rewrite Hne by done. by apply Hlines.
Qed.

Lemma scroll_table t shown : shows t shown ->
  exists ls, (if line_count t =? MAX_LINES then ls ← scroll_loop (Z.to_nat (MAX_LINES - 1)) 1 (lines t); Some (ls, line_count t - 1) else Some (lines t, line_count t))
    = Some (ls, zlen (scrolled shown)) /\ table ls (scrolled shown) /\ zlen (scrolled shown) < MAX_LINES.
Proof.
  intros [Ht Hc]. pose proof Ht as [Hs H80 Hcount Hlines]. rewrite Hc. unfold scrolled. destruct (Z.eqb_spec (zlen shown) MAX_LINES) as [E |].
  2: { exists (lines t). split; [done |]. split; [done | lia]. }
  assert (zlen (drop 1 shown) = zlen shown - 1) as Hdrop by (unfold zlen, MAX_LINES in *; rewrite length_drop; lia).
  destruct (scroll_loop_spec (Z.to_nat (MAX_LINES - 1)) 1 (lines t) (fun k => default [] (rd shown k))) as (ls & -> & Hl & Ha & _ & Hn); try done.
  { intros k Hk. destruct (rd_in_range shown k ltac:(lia)) as [tx Htx]. rewrite Htx. by apply Hlines. }
  exists ls. cbn [mbind option_bind]. rewrite Hdrop. split; [done |]. split; [| lia]. split; [done | done | lia |].
  intros k tx Hk. pose proof (rd_Some_lt _ _ _ Hk) as Hr. rewrite Hdrop in Hr. destruct (Hn k) as (l & Hl1 & Hok); [lia |]. exists l. split; [done |].
  change 1%nat with (Z.to_nat 1) in Hk. rewrite rd_drop in Hk by lia. rewrite (Z.add_comm k 1), Hk in Hok. done.
Qed.

Lemma push_line_spec t shown src text : shows t shown -> cstring src text -> zlen text < MAX_LINE ->
  exists ls, push src t = Some (set_lines t ls (zlen (show shown text))) /\ table ls (show shown text).
Proof.
  intros Hsh Hstr Hlen. destruct (scroll_table t shown Hsh) as (ls & E & Ht & Hlt). unfold push. rewrite E. cbn [mbind option_bind].
  pose proof (zlen_nonneg (scrolled shown)). destruct (rd_in_range ls (zlen (scrolled shown))) as [dst Hd]; [rewrite (tb_size _ _ Ht); lia |].
  rewrite Hd. cbn [mbind option_bind]. destruct (copy_line dst src text (tb_arrays _ _ Ht _ _ Hd) Hstr Hlen) as (l & -> & Hok). cbn [mbind option_bind].
  destruct (wr ls (zlen (scrolled shown)) l) as [ls' |] eqn:W; [| rewrite wr_in_range in W by (rewrite (tb_size _ _ Ht); lia); done].
  exists ls'. cbn [mbind option_bind]. unfold show. rewrite zlen_snoc. split; [done |]. by eapply table_write.
Qed.

(** ** Commands and numbers *)

Lemma equals_spec a b ta tb : cstring a ta -> cstring b tb -> equals a b = Some (bool_decide (lower <$> ta = lower <$> tb)).
Proof.
  intros [Ha [ra ->]] [Hb [rb ->]]. revert tb Hb. induction ta as [| ca ta IH]; intros [| cb tb] Hb; cbn [app equals].
  - done.
  - apply Forall_cons in Hb as [Hcb _]. cbn. by rewrite (proj2 (Z.eqb_neq cb 0) Hcb).
  - apply Forall_cons in Ha as [Hca _]. by rewrite (proj2 (Z.eqb_neq ca 0) Hca).
  - apply Forall_cons in Ha as [Hca Ha]. apply Forall_cons in Hb as [Hcb Hb]. rewrite (proj2 (Z.eqb_neq ca 0) Hca), (proj2 (Z.eqb_neq cb 0) Hcb). cbn [negb andb].
    destruct (Z.eqb_spec (lower ca) (lower cb)) as [E | E]; cbn [negb].
    + rewrite IH by done. f_equal. apply bool_decide_ext. rewrite !fmap_cons, E. split; [by intros -> | by intros [=]].
    + f_equal. symmetry. apply bool_decide_eq_false. rewrite !fmap_cons. by intros [= ? ?].
Qed.

Lemma starts_with_spec a p ta tp : cstring a ta -> cstring p tp ->
  starts_with a p = Some (bool_decide (lower <$> take (length tp) ta = lower <$> tp)).
Proof.
  intros [Ha [ra ->]] [Hp [rp ->]]. revert ta Ha. induction tp as [| c tp IH]; intros ta Ha; cbn [app starts_with].
  { by destruct ta. }
  apply Forall_cons in Hp as [Hc Hp]. rewrite (proj2 (Z.eqb_neq c 0) Hc). destruct ta as [| d ta]; cbn [app]; [done |].
  apply Forall_cons in Ha as [Hd Ha]. rewrite (proj2 (Z.eqb_neq d 0) Hd). cbn [orb length take]. destruct (Z.eqb_spec (lower d) (lower c)) as [E | E]; cbn [negb].
  - rewrite IH by done. f_equal. apply bool_decide_ext. rewrite !fmap_cons, E. split; [by intros -> | by intros [=]].
  - f_equal. symmetry. apply bool_decide_eq_false. rewrite !fmap_cons. by intros [= ? ?].
Qed.

(** The digits of a number, the last one first. *)
Fixpoint digits_rev (n : nat) (value : Z) : list Z :=
  match n with O => [] | S n => if value =? 0 then [] else (48 + value mod 10) :: digits_rev n (value / 10) end.

Definition decimal (value : Z) : list Z := if value =? 0 then [48] else reverse (digits_rev 24 value).

Lemma digits_rev_length n value : zlen (digits_rev n value) <= Z.of_nat n.
Proof. revert value. induction n as [| n IH]; intros value; cbn [digits_rev]; [done |]. destruct (value =? 0); [done |]. rewrite zlen_cons. specialize (IH (value / 10)). lia. Qed.

Lemma digits_rev_short (m : nat) n value : 0 <= value < 10 ^ Z.of_nat m -> zlen (digits_rev n value) <= Z.of_nat m.
Proof.
  revert m value. induction n as [| n IH]; intros m value Hv; cbn [digits_rev]; [unfold zlen; cbn; lia |].
  destruct (Z.eqb_spec value 0); [unfold zlen; cbn; lia |]. destruct m as [| m]; [cbn in Hv; lia |]. rewrite zlen_cons.
  rewrite Nat2Z.inj_succ, Z.pow_succ_r in Hv by lia. specialize (IH m (value / 10)). rewrite Nat2Z.inj_succ.
  assert (0 <= value / 10 < 10 ^ Z.of_nat m) by (split; [apply Z.div_pos; lia | apply Z.div_lt_upper_bound; lia]). lia.
Qed.

Lemma digits_rev_nonzero n value : Forall (fun c => 48 <= c <= 57) (digits_rev n value).
Proof.
  revert value. induction n as [| n IH]; intros value; cbn [digits_rev]; [constructor |]. destruct (value =? 0); constructor; [| apply IH].
  pose proof (Z.mod_pos_bound value 10 ltac:(lia)). lia.
Qed.

Lemma digits_loop_spec n value temp k : 0 <= k -> k + Z.of_nat n <= zlen temp ->
  digits_loop n value temp k = Some (blit temp k (digits_rev n value), k + zlen (digits_rev n value)).
Proof.
  revert value temp k. induction n as [| n IH]; intros value temp k Hk Ht; cbn [digits_loop digits_rev].
  { rewrite blit_nil, Z.add_0_r. by destruct (value =? 0). }
  destruct (value =? 0); [by rewrite blit_nil, Z.add_0_r |]. pose proof (digits_rev_length n (value / 10)).
  rewrite wr_blit by lia. cbn [mbind option_bind]. rewrite IH; [| lia | rewrite zlen_blit; [lia | lia | change (zlen [48 + value mod 10]) with 1; lia]].
  rewrite (blit_blit temp k [48 + value mod 10]) by (change (zlen [48 + value mod 10]) with 1; lia). rewrite zlen_cons. cbn [app]. do 2 f_equal. lia.
Qed.

Lemma reverse_loop_spec ds rest out i : 0 <= i -> i + zlen ds <= zlen out ->
  reverse_loop (length ds) (ds ++ rest) out i = Some (blit out i (reverse ds), i + zlen ds).
Proof.
  revert out i rest. induction ds as [| d ds IH] using rev_ind; intros out i rest Hi Ho; [by cbn; rewrite blit_nil, Z.add_0_r |].
  rewrite zlen_snoc in Ho. pose proof (zlen_nonneg ds). rewrite length_app, Nat.add_1_r. cbn [reverse_loop]. rewrite <- app_assoc.
  rewrite rd_app_r, Z.sub_diag by (unfold zlen; lia). change (rd ([d] ++ rest) 0) with (Some d). cbn [mbind option_bind]. rewrite wr_blit by lia. cbn [mbind option_bind].
  rewrite IH; [| lia | rewrite zlen_blit; [lia | lia | change (zlen [d]) with 1; lia]]. assert (zlen (reverse ds) = zlen ds) as Hr by (unfold zlen; by rewrite length_reverse).
  rewrite (blit_blit out i [d] (reverse ds)) by (change (zlen [d]) with 1; lia). rewrite reverse_snoc, zlen_snoc. cbn [app]. do 2 f_equal. lia.
Qed.

Lemma decimal_chars value : 0 <= value < 2 ^ 64 -> Forall (fun c => 48 <= c <= 57) (decimal value) /\ zlen (decimal value) <= 20.
Proof.
  intros Hv. unfold decimal. destruct (value =? 0); [split; [apply Forall_singleton; lia | done] |]. split; [apply Forall_reverse, digits_rev_nonzero |].
  pose proof (digits_rev_short 20 24 value ltac:(lia)). unfold zlen in *. rewrite length_reverse. lia.
Qed.

Lemma digits_nonzero l : Forall (fun c => 48 <= c <= 57) l -> Forall (fun c => c <> 0) l.
Proof. intros H. apply (Forall_impl _ _ _ H). intros. lia. Qed.

(** The number a string of decimal digits stands for. *)
Definition decimal_value (ds : list Z) : Z := foldl (fun v d => v * 10 + (d - 48)) 0 ds.

Lemma foldr_reverse_foldl (f : Z -> Z -> Z) a l : foldr (fun d v => f v d) a (reverse l) = foldl f a l.
Proof. revert a. induction l as [| d l IH]; intros a; [done |]. rewrite reverse_cons, foldr_app. cbn. apply IH. Qed.

Lemma digits_rev_value n value : 0 <= value < 10 ^ Z.of_nat n -> foldr (fun d v => v * 10 + (d - 48)) 0 (digits_rev n value) = value.
Proof.
  revert value. induction n as [| n IH]; intros value Hv; cbn [digits_rev]; [cbn in *; lia |].
  destruct (Z.eqb_spec value 0) as [-> |]; [done |]. cbn [foldr]. rewrite IH; [pose proof (Z.div_mod value 10 ltac:(lia)); lia |].
  rewrite Nat2Z.inj_succ, Z.pow_succ_r in Hv by lia. split; [apply Z.div_pos; lia | apply Z.div_lt_upper_bound; lia].
Qed.

Lemma decimal_correct value : 0 <= value < 2 ^ 64 -> decimal_value (decimal value) = value.
Proof.
  intros Hv. unfold decimal, decimal_value. destruct (Z.eqb_spec value 0) as [-> |]; [done |].
  rewrite <- foldr_reverse_foldl, reverse_involutive. apply digits_rev_value. lia.
Qed.

Lemma number_spec value out : 0 <= value < 2 ^ 64 -> zlen out = 24 -> exists out', number value out = Some out' /\ cstring out' (decimal value).
Proof.
  intros Hv Ho. destruct (decimal_chars value Hv) as [Hd Hl]. unfold number. cbn zeta.
  assert (forall ds rest, reverse ds = decimal value -> exists out', ('(out, i) ← reverse_loop (length ds) (ds ++ rest) out 0; wr out i 0) = Some out' /\ cstring out' (decimal value)) as Hrev.
  { intros ds rest Hds. assert (zlen ds = zlen (decimal value)) as Hz by (rewrite <- Hds; unfold zlen; by rewrite length_reverse).
    rewrite reverse_loop_spec by lia. cbn [mbind option_bind]. pose proof (zlen_nonneg ds). rewrite Hds, wr_blit by (rewrite zlen_blit; lia). eexists. split; [done |].
    rewrite (blit_blit out 0 (decimal value) [0]) by (change (zlen [0]) with 1; lia). apply blit_cstring. by apply digits_nonzero. }
  unfold decimal in Hrev. destruct (Z.eqb_spec value 0) as [-> |].
  - destruct (Hrev [48] (replicate 23 0) eq_refl) as (o & E & Hc). exists o. split; [exact E | exact Hc].
  - cbn [mbind option_bind]. change (Z.to_nat (24 - 0)) with 24%nat. rewrite digits_loop_spec by (done || (change (zlen (replicate 24 0)) with 24; lia)). cbn [mbind option_bind].
    pose proof (digits_rev_short 20 24 value ltac:(lia)). destruct (Hrev (digits_rev 24 value) (drop (length (digits_rev 24 value)) (replicate 24 0)) eq_refl) as (o & E & Hc).
    exists o. unfold decimal. rewrite (proj2 (Z.eqb_neq value 0)) by done. split; [| exact Hc].
    replace (Z.to_nat (0 + zlen (digits_rev 24 value))) with (length (digits_rev 24 value)) by (unfold zlen; lia). exact E.
Qed.

(** ** The terminal as its user sees it *)

Record terminal := mk_terminal { shown : list (list Z); typed : list Z }.

Definition prompt_text : list Z := chars "JOSH@JOSHOS:~> ".

Inductive reaction := Print (texts : list (list Z)) | Clear | Restart.

(** What a command does; case does not matter. *)
Definition respond (mem : Z) (typed : list Z) : reaction :=
  let word := lower <$> typed in
  if decide (typed = []) then Print []
  else if decide (word = chars "help") then Print (chars <$> help_text)
  else if decide (word = chars "about") then Print (chars <$> about_text)
  else if decide (word = chars "mem") then Print [chars "USABLE MEMORY: " ++ decimal mem ++ chars " MIB"]
  else if decide (word = chars "clear") then Clear
  else if decide (word = chars "reboot") then Restart
  else if decide (take 5 word = chars "echo ") then Print [drop 5 typed]
  else Print [chars "COMMAND NOT FOUND. TYPE HELP."].

Definition show_all (shown : list (list Z)) (texts : list (list Z)) : list (list Z) := foldl show shown texts.

Definition printable (c : Z) : Prop := 32 <= c <= 126.

Definition key_step (mem key : Z) (a : terminal) : fate * terminal :=
  if key =? 10 then
    let echoed := show (shown a) (prompt_text ++ typed a) in
    match respond mem (typed a) with
    | Print texts => (Running, mk_terminal (show_all echoed texts) [])
    | Clear => (Running, mk_terminal [] [])
    | Restart => (Rebooting, mk_terminal (show echoed (chars "REBOOTING...")) (typed a))
    end
  else if key =? 8 then (Running, mk_terminal (shown a) (take (pred (length (typed a))) (typed a)))
  else if (32 <=? key) && (key <=? 126) && (zlen (typed a) <? MAX_INPUT - 1) then (Running, mk_terminal (shown a) (typed a ++ [key]))
  else (Running, a).

(** The picture of a terminal: its background, the last lines that fit, and the
    prompt below them, or at the bottom when there is no room. *)
Fixpoint rows_layer (x y row_h scale c : Z) (rows : list (list Z)) : layer :=
  match rows with [] => clear | row :: rows => over (text_layer x x y row scale c) (rows_layer x (y + row_h) row_h scale c rows) end.

Definition picture (t : shell) (bg dim accent : Z) (a : terminal) : layer :=
  let scale := if (900 <=? sw t) && (420 <=? sh t) then 2 else 1 in
  let row_h := 10 * scale in
  let visible := Z.min MAX_LINES (Z.quot (sh t - 30) row_h) in
  let rows := drop (Z.to_nat (Z.max 0 (zlen (shown a) - visible))) (shown a) in
  let below := sy t + 10 + row_h * zlen rows in
  let y := if below + row_h <=? sy t + sh t then below else sy t + sh t - row_h - 4 in
  over (rect_layer (sx t) (sy t) (sw t) (sh t) bg)
    (over (rows_layer (sx t + 10) (sy t + 10) row_h scale dim rows) (text_layer (sx t + 10) (sx t + 10) y (prompt_text ++ typed a ++ [95]) scale accent)).

(** ** How the shell holds it *)

Record represents (t : shell) (a : terminal) : Prop := {
  rp_lines : shows t (shown a);
  rp_array : zlen (input t) = MAX_INPUT;
  rp_input : cstring (input t) (typed a);
  rp_len : input_len t = zlen (typed a);
  rp_room : zlen (typed a) < MAX_INPUT;
  rp_printable : Forall printable (typed a)
}.

(** Coordinates with which nothing overflows an [int]. *)
Definition box_ok (t : shell) : Prop := - 2 ^ 29 <= sx t <= 2 ^ 29 /\ - 2 ^ 29 <= sy t <= 2 ^ 29 /\ - 2 ^ 30 <= sw t <= 2 ^ 30 /\ - 2 ^ 30 <= sh t <= 2 ^ 30.

Lemma printable_nonzero l : Forall printable l -> Forall (fun c => c <> 0) l.
Proof. intros H. apply (Forall_impl _ _ _ H). unfold printable. intros. lia. Qed.

Lemma lines_loop_spec n i y row_h scale c t a s : represents t a -> box_ok t -> screen_ok s -> 1 <= scale <= 2 -> row_h = 10 * scale ->
  0 <= i -> i + Z.of_nat n = zlen (shown a) -> - 2 ^ 30 <= y <= 2 ^ 30 - row_h * Z.of_nat n ->
  lines_loop n i y row_h scale c t s =
    Some (y + row_h * Z.of_nat n, paint s (rows_layer (sx t + 10) y row_h scale c (drop (Z.to_nat i) (shown a)))).
Proof.
  intros Hr (? & ? & ? & ?). revert i y s. induction n as [| n IH]; intros i y s Hs Hsc Hrow Hi Hn Hy; cbn [lines_loop].
  { rewrite drop_ge by (unfold zlen in Hn; lia). cbn [rows_layer]. rewrite paint_clear. do 2 f_equal. lia. }
  destruct (rp_lines _ _ Hr) as [Ht Hc]. destruct (rd_in_range (shown a) i ltac:(lia)) as [text Htext].
  destruct (tb_lines _ _ Ht i text Htext) as (l & Hl & _ & Hstr & Hlen). rewrite (int_in (sx t + 10)) by lia. cbn [mbind option_bind]. rewrite Hl. cbn [mbind option_bind].
  pose proof (zlen_nonneg text). unfold MAX_LINE in Hlen.
  rewrite (gfx_text_spec _ _ l text) by (done || (unfold text_fits; nia)). cbn [mbind option_bind]. rewrite (int_in (y + row_h)) by nia. cbn [mbind option_bind].
  rewrite IH; [| by apply paint_ok | done | done | lia | lia | nia]. apply rd_lookup in Htext as [_ Htext].
  rewrite (drop_S _ text (Z.to_nat i)) by done. cbn [rows_layer]. rewrite paint_paint. replace (S (Z.to_nat i)) with (Z.to_nat (i + 1)) by lia.
  do 2 f_equal. nia.
Qed.

(** The screen shows the terminal, in the shell's three colours. *)
Definition displays (t : shell) (a : terminal) (s : screen) : Prop :=
  exists s0 bg dim accent, gfx_rgb s 10 17 31 = Some bg /\ gfx_rgb s 123 146 178 = Some dim /\ gfx_rgb s 91 218 255 = Some accent /\
    drawn s0 (picture t bg dim accent a) s.

(** The prompt line with the cursor. *)
Lemma prompt_spec t a : represents t a ->
  exists line p, append_loop (Z.to_nat (MAX_LINE - 2 - 15)) (lit "JOSH@JOSHOS:~> " ++ replicate 64 0) 15 (input t) 0 = Some (line, p) /\
    exists l1 l2, wr line p 95 = Some l1 /\ wr l1 (p + 1) 0 = Some l2 /\ cstring l2 (prompt_text ++ typed a ++ [95]).
Proof.
  intros Hr. destruct (rp_input _ _ Hr) as [Hnz [rest Hin]]. pose proof (rp_room _ _ Hr) as Hroom. unfold MAX_INPUT in Hroom. pose proof (zlen_nonneg (typed a)).
  rewrite Hin. set (d := lit _ ++ _). assert (zlen d = 80) as Hd by done.
  rewrite (append_loop_spec _ d 15 [] (typed a) rest) by (done || (unfold MAX_LINE; lia)). do 2 eexists. split; [done |].
  rewrite wr_blit by (rewrite zlen_blit; lia). do 2 eexists. split; [done |].
  rewrite (blit_blit d 15 (typed a) [95]) by (change (zlen [95]) with 1; lia).
  rewrite wr_blit by (rewrite zlen_blit; rewrite ?zlen_snoc; lia). split; [done |].
  rewrite (blit_blit d 15 (typed a ++ [95]) [0]) by (rewrite ?zlen_snoc; change (zlen [0]) with 1; lia).
  split.
  - rewrite !Forall_app. split; [by apply (bool_decide_unpack _) |]. split; [done |]. by apply Forall_singleton.
  - unfold blit. change (take (Z.to_nat 15) d) with prompt_text. eexists. by rewrite <- !app_assoc.
Qed.

Lemma Z_quot_bound a b m : 1 <= b -> - m <= a <= m -> - m <= Z.quot a b <= m.
Proof.
  intros Hb Ha. destruct (Z.le_gt_cases 0 a).
  - pose proof (Z.quot_pos a b ltac:(lia) ltac:(lia)). pose proof (Z.quot_le_upper_bound a b m ltac:(lia) ltac:(nia)). lia.
  - rewrite <- (Z.opp_involutive a), Z.quot_opp_l by lia. pose proof (Z.quot_pos (- a) b ltac:(lia) ltac:(lia)).
    pose proof (Z.quot_le_upper_bound (- a) b m ltac:(lia) ltac:(nia)). lia.
Qed.

Lemma render_spec t a s : represents t a -> box_ok t -> screen_ok s ->
  exists bg dim accent, gfx_rgb s 10 17 31 = Some bg /\ gfx_rgb s 123 146 178 = Some dim /\ gfx_rgb s 91 218 255 = Some accent /\
    render t s = Some (paint s (picture t bg dim accent a)).
Proof.
  intros Hr Hb Hs. pose proof Hb as (? & ? & ? & ?). destruct (rgb_defined s 10 17 31 Hs) as [bg E1]. destruct (rgb_defined s 218 230 246 Hs) as [fg E2].
  destruct (rgb_defined s 123 146 178 Hs) as [dim E3]. destruct (rgb_defined s 91 218 255 Hs) as [accent E4]. exists bg, dim, accent.
  split; [done |]. split; [done |]. split; [done |]. unfold render, picture. rewrite E1, E2, E3, E4. cbn [mbind option_bind].
  rewrite gfx_rect_spec by (done || (unfold rect_fits; lia)). cbn [mbind option_bind]. cbn zeta.
  set (scale := if (900 <=? sw t) && (420 <=? sh t) then 2 else 1). assert (1 <= scale <= 2) as Hsc by (subst scale; destruct (_ && _); lia). clearbody scale.
  rewrite (int_in (sh t - 30)) by lia. cbn [mbind option_bind]. set (q := Z.quot (sh t - 30) (10 * scale)).
  assert (- (2 ^ 30 + 30) <= q <= 2 ^ 30 + 30) as Hq by (subst q; apply Z_quot_bound; lia). clearbody q.
  destruct (rp_lines _ _ Hr) as [Ht Hc]. pose proof (tb_count _ _ Ht) as Hcount. pose proof (zlen_nonneg (shown a)).
  set (visible := if MAX_LINES <? q then MAX_LINES else q). assert (visible = Z.min MAX_LINES q) as Hv by (subst visible; destruct (Z.ltb_spec MAX_LINES q); lia). clearbody visible.
  rewrite Hc, <- Hv. set (first := Z.max 0 (zlen (shown a) - visible)). unfold MAX_LINES in *.
  assert ((if visible <? zlen (shown a) then int (zlen (shown a) - visible) else Some 0) = Some first) as ->.
  { subst first. destruct (Z.ltb_spec visible (zlen (shown a))); [rewrite int_in by lia |]; f_equal; lia. }
  cbn [mbind option_bind]. rewrite (int_in (sy t + 10)) by lia. cbn [mbind option_bind].
  assert (zlen (drop (Z.to_nat first) (shown a)) = Z.of_nat (Z.to_nat (zlen (shown a) - first))) as Hrows by (unfold zlen; rewrite length_drop; lia).
  set (n := Z.to_nat (zlen (shown a) - first)) in *. assert (0 <= Z.of_nat n <= 18) by lia.
  assert (lines_loop n first (sy t + 10) (10 * scale) scale dim t (paint s (rect_layer (sx t) (sy t) (sw t) (sh t) bg)) =
    Some (sy t + 10 + 10 * scale * Z.of_nat n, paint (paint s (rect_layer (sx t) (sy t) (sw t) (sh t) bg))
      (rows_layer (sx t + 10) (sy t + 10) (10 * scale) scale dim (drop (Z.to_nat first) (shown a))))) as ->.
  { destruct (decide (first <= zlen (shown a))); [apply lines_loop_spec; [done | done | by apply paint_ok | done | done | lia | lia | nia] |].
    assert (n = O) as -> by lia. rewrite drop_ge by (unfold zlen in *; lia). cbn. rewrite paint_clear. do 2 f_equal. lia. }
  cbn [mbind option_bind]. destruct (prompt_spec t a Hr) as (line & p & -> & l1 & l2 & W1 & W2 & Hstr). cbn [mbind option_bind]. rewrite W1. cbn [mbind option_bind]. rewrite W2. cbn [mbind option_bind].
  set (y := sy t + 10 + 10 * scale * Z.of_nat n). assert (- 2 ^ 30 <= y <= 2 ^ 30) by (subst y; nia). rewrite Hrows. fold y.
  rewrite (int_in (y + 10 * scale)), (int_in (sy t + sh t)), (int_in (sx t + 10)) by lia. cbn [mbind option_bind].
  assert (zlen (prompt_text ++ typed a ++ [95]) <= 80) as Hlen
    by (pose proof (rp_room _ _ Hr) as Hroom; unfold MAX_INPUT in Hroom; rewrite zlen_app, zlen_snoc; change (zlen prompt_text) with 15; lia).
  pose proof (zlen_nonneg (prompt_text ++ typed a ++ [95])).
  destruct (y + 10 * scale <=? sy t + sh t).
  - rewrite (gfx_text_spec _ _ l2 (prompt_text ++ typed a ++ [95])) by (done || (by do 2 apply paint_ok) || (unfold text_fits; nia)). by rewrite !paint_paint.
  - rewrite (int_in (sy t + sh t - 10 * scale)) by lia. cbn [mbind option_bind]. rewrite (int_in (sy t + sh t - 10 * scale - 4)) by lia. cbn [mbind option_bind].
    rewrite (gfx_text_spec _ _ l2 (prompt_text ++ typed a ++ [95])) by (done || (by do 2 apply paint_ok) || (unfold text_fits; nia)). by rewrite !paint_paint.
Qed.

(** ** Keys *)

(** The parts of the state no key changes. *)
Definition same_box (t t' : shell) : Prop := sx t' = sx t /\ sy t' = sy t /\ sw t' = sw t /\ sh t' = sh t /\ mem_mib t' = mem_mib t.

Lemma same_box_trans t1 t2 t3 : same_box t1 t2 -> same_box t2 t3 -> same_box t1 t3.
Proof. unfold same_box. intros (? & ? & ? & ? & ?) (? & ? & ? & ? & ?). repeat split; congruence. Qed.

Lemma same_box_ok t t' : same_box t t' -> box_ok t -> box_ok t'.
Proof. unfold same_box, box_ok. intros (-> & -> & -> & -> & _). done. Qed.

Lemma push_repr t a src text : represents t a -> cstring src text -> zlen text < MAX_LINE ->
  exists t', push src t = Some t' /\ represents t' (mk_terminal (show (shown a) text) (typed a)) /\ same_box t t' /\ input t' = input t /\ input_len t' = input_len t.
Proof.
  intros Hr Hs Hl. destruct (push_line_spec t (shown a) src text (rp_lines _ _ Hr) Hs Hl) as (ls & -> & Ht). eexists. split; [done |].
  split; [| done]. destruct Hr as [_ ? ? ? ? ?]. by split.
Qed.

(** A literal of the program: short, and without zeros in it. *)
Definition short_text (l : list Z) : Prop := Forall (fun c => c <> 0) l /\ zlen l < MAX_LINE.

Lemma push_lit t a s : represents t a -> short_text (chars s) ->
  exists t', push (lit s) t = Some t' /\ represents t' (mk_terminal (show (shown a) (chars s)) (typed a)) /\ same_box t t' /\ input t' = input t /\ input_len t' = input_len t.
Proof. intros Hr [Hnz Hl]. apply push_repr; [done | by apply cstring_lit | done]. Qed.

Lemma push_all_repr ss t a : represents t a -> Forall (fun s => short_text (chars s)) ss ->
  exists t', push_all (lit <$> ss) t = Some t' /\ represents t' (mk_terminal (show_all (shown a) (chars <$> ss)) (typed a)) /\ same_box t t' /\ input t' = input t.
Proof.
  revert t a. induction ss as [| s ss IH]; intros t a Hr Hss; [exists t; by destruct a |]. apply Forall_cons in Hss as [Hs Hss].
  cbn [fmap list_fmap push_all]. destruct (push_lit t a s Hr Hs) as (t1 & -> & Hr1 & Hb1 & Hi1 & _). cbn [mbind option_bind].
  destruct (IH _ _ Hr1 Hss) as (t2 & -> & Hr2 & Hb2 & Hi2). exists t2. split; [done |]. split; [exact Hr2 |]. split; [by eapply same_box_trans | congruence].
Qed.

Lemma echo_line_spec t a : represents t a -> exists l, echo_line t = Some l /\ cstring l (prompt_text ++ typed a).
Proof.
  intros Hr. destruct (rp_input _ _ Hr) as [Hnz [rest Hin]]. pose proof (rp_room _ _ Hr) as Hroom. unfold MAX_INPUT in Hroom. pose proof (zlen_nonneg (typed a)).
  unfold echo_line. assert (copy (replicate 80 0) (lit "JOSH@JOSHOS:~> ") MAX_LINE = Some (prompt_text ++ replicate 65 0)) as -> by reflexivity.
  cbn [mbind option_bind]. set (d := prompt_text ++ replicate 65 0). assert (zlen d = 80) as Hd by done. rewrite Hin.
  rewrite (append_loop_spec _ d 15 [] (typed a) rest) by (done || (unfold MAX_LINE; lia)). cbn [mbind option_bind].
  rewrite wr_blit by (rewrite zlen_blit; lia). rewrite (blit_blit d 15 (typed a) [0]) by (change (zlen [0]) with 1; lia). eexists. split; [done |]. split.
  - apply Forall_app. split; [by apply (bool_decide_unpack _) | done].
  - unfold blit. change (take (Z.to_nat 15) d) with prompt_text. eexists. by rewrite <- !app_assoc.
Qed.

Lemma mem_line_spec t : 0 <= mem_mib t < 2 ^ 64 ->
  exists l, mem_line t = Some l /\ cstring l (chars "USABLE MEMORY: " ++ decimal (mem_mib t) ++ chars " MIB").
Proof.
  intros Hm. destruct (decimal_chars _ Hm) as [Hd Hl]. destruct (number_spec (mem_mib t) (replicate 24 0) Hm eq_refl) as (v & E & Hnz & rest & ->).
  unfold mem_line. rewrite E. cbn [mbind option_bind]. set (d := lit _ ++ _). assert (zlen d = 80) as H80 by done. pose proof (zlen_nonneg (decimal (mem_mib t))).
  rewrite (append_loop_spec _ d 15 [] (decimal (mem_mib t)) rest) by (done || (unfold MAX_LINE; lia)). cbn [mbind option_bind].
  set (ds := decimal (mem_mib t)) in *.
  assert (forall bs c i, i = 15 + zlen bs -> zlen bs < 30 -> wr (blit d 15 bs) i c = Some (blit d 15 (bs ++ [c]))) as Hw.
  { intros bs c i -> Hbs. pose proof (zlen_nonneg bs). rewrite wr_blit by (rewrite zlen_blit; lia). f_equal. apply blit_blit; [lia | lia | change (zlen [c]) with 1; lia]. }
  do 5 (rewrite Hw by (rewrite ?zlen_snoc; lia); cbn [mbind option_bind]). eexists. split; [done |]. split.
  - rewrite !Forall_app. split; [by apply (bool_decide_unpack _) |]. split; [done | by apply (bool_decide_unpack _)].
  - unfold blit. change (take (Z.to_nat 15) d) with (chars "USABLE MEMORY: "). eexists. by rewrite <- !app_assoc.
Qed.

(** What a reaction makes of the terminal. *)
Definition react (r : reaction) (a : terminal) : terminal :=
  match r with
  | Print texts => mk_terminal (show_all (shown a) texts) (typed a)
  | Clear => mk_terminal [] (typed a)
  | Restart => mk_terminal (show (shown a) (chars "REBOOTING...")) (typed a)
  end.

Lemma displays_render t a s : represents t a -> box_ok t -> screen_ok s -> exists s', render t s = Some s' /\ screen_ok s' /\ displays t a s'.
Proof.
  intros Hr Hb Hs. destruct (render_spec t a s Hr Hb Hs) as (bg & dim & accent & E1 & E2 & E3 & ->). eexists. split; [done |]. split; [by apply paint_ok |].
  exists s, bg, dim, accent. by repeat (split; [done |]); apply paint_drawn.
Qed.

Lemma drop_cstring l text n : cstring l text -> (n <= length text)%nat -> cstring (drop n l) (drop n text).
Proof.
  intros [Hnz [rest ->]] Hn. split; [by apply Forall_drop |]. exists rest. rewrite drop_app_le by done. done.
Qed.

Lemma clear_repr t a : represents t a -> represents (set_lines t (lines t) 0) (mk_terminal [] (typed a)).
Proof. intros [[[? ? ? ?] ?] ? ? ? ? ?]. split; try done. split; [| done]. split; try done. intros k text Hk. by destruct k. Qed.

(** What the command in the line of input leads to. *)
Definition commanded (t : shell) (a : terminal) (s : screen) (r : reaction) (o : option (fate * shell * screen)) : Prop :=
  exists f t' s', o = Some (f, t', s') /\ same_box t t' /\ represents t' (react r a) /\ input t' = input t /\
    match r with Restart => f = Rebooting /\ screen_ok s' /\ displays t' (react r a) s' | _ => f = Running /\ s' = s end.

Lemma word_spec t a w : represents t a -> bool_decide (Forall (fun c => c <> 0) (chars w)) = true -> lower <$> chars w = chars w ->
  equals (input t) (lit w) = Some (bool_decide (lower <$> typed a = chars w)).
Proof. intros Hr Hw%bool_decide_eq_true Hl. rewrite <- Hl. apply equals_spec; [by apply rp_input | by apply cstring_lit]. Qed.

(** The comparison with the next command word, in the code and in [respond]. *)
Ltac compare_word Hr w :=
  rewrite (word_spec _ _ w Hr eq_refl eq_refl); cbn [mbind option_bind]; destruct (decide (lower <$> _ = chars w));
  [rewrite bool_decide_true by done | rewrite bool_decide_false by done].

Lemma commanded_run t a s r t' : same_box t t' -> represents t' (react r a) -> input t' = input t -> r <> Restart -> commanded t a s r (Some (Running, t', s)).
Proof. intros. exists Running, t', s. split; [done |]. split; [done |]. split; [done |]. split; [done |]. by destruct r. Qed.

Lemma mem_command t a s : represents t a -> 0 <= mem_mib t < 2 ^ 64 ->
  commanded t a s (Print [chars "USABLE MEMORY: " ++ decimal (mem_mib t) ++ chars " MIB"]) (line ← mem_line t; t ← push line t; Some (Running, t, s)).
Proof.
  intros Hr Hm. destruct (mem_line_spec t Hm) as (l & -> & Hl). cbn [mbind option_bind]. destruct (decimal_chars _ Hm) as [_ Hd].
  destruct (push_repr t a l _ Hr Hl) as (t' & -> & Hr' & Hb' & Hi' & _); [| by apply commanded_run].
  rewrite !zlen_app. change (zlen (chars "USABLE MEMORY: ")) with 15. change (zlen (chars " MIB")) with 4. unfold MAX_LINE. lia.
Qed.

Lemma reboot_command t a s : represents t a -> box_ok t -> screen_ok s ->
  commanded t a s Restart (t ← push (lit "REBOOTING...") t; s ← render t s; Some (Rebooting, t, s)).
Proof.
  intros Hr Hb Hs. destruct (push_lit t a "REBOOTING..." Hr) as (t' & -> & Hr' & Hb' & Hi' & _); [by apply (bool_decide_unpack _) |]. cbn [mbind option_bind].
  destruct (displays_render t' _ s Hr' (same_box_ok _ _ Hb' Hb) Hs) as (s' & -> & Hs' & Hd'). exists Rebooting, t', s'.
  split; [done |]. split; [done |]. split; [done |]. by split.
Qed.

Lemma echo_command t a s : represents t a -> (5 <= length (typed a))%nat ->
  commanded t a s (Print [drop 5 (typed a)]) (rest ← padd (input t) 5; t ← push rest t; Some (Running, t, s)).
Proof.
  intros Hr H5. rewrite padd_Some by (rewrite (rp_array _ _ Hr); done). cbn [mbind option_bind].
  destruct (push_repr t a (drop 5 (input t)) (drop 5 (typed a)) Hr (drop_cstring _ _ _ (rp_input _ _ Hr) H5)) as (t' & Hp & Hr' & Hb' & Hi' & _).
  { pose proof (rp_room _ _ Hr). unfold zlen, MAX_LINE, MAX_INPUT in *. rewrite length_drop. lia. }
  change (Z.to_nat 5) with 5%nat. rewrite Hp. by apply commanded_run.
Qed.

Lemma texts_command ss t a s : represents t a -> Forall (fun s => short_text (chars s)) ss ->
  commanded t a s (Print (chars <$> ss)) (t ← push_all (lit <$> ss) t; Some (Running, t, s)).
Proof. intros Hr Hss. destruct (push_all_repr ss t a Hr Hss) as (t' & -> & Hr' & Hb' & Hi'). by apply commanded_run. Qed.

Lemma run_command_spec t a s : represents t a -> box_ok t -> screen_ok s -> 0 <= mem_mib t < 2 ^ 64 ->
  commanded t a s (respond (mem_mib t) (typed a)) (run_command t s).
Proof.
  intros Hr Hb Hs Hm. unfold run_command, respond. rewrite (rp_len _ _ Hr). cbn zeta. destruct (decide (typed a = [])) as [E0 | E0].
  { rewrite E0. apply commanded_run; [done | | done | done]. by destruct a. }
  assert ((zlen (typed a) =? 0) = false) as -> by (apply Z.eqb_neq; destruct (typed a); [done | rewrite zlen_cons; pose proof (zlen_nonneg l); lia]).
  compare_word Hr "help"%string; [apply texts_command; [done | by apply (bool_decide_unpack _)] |].
  compare_word Hr "about"%string; [apply texts_command; [done | by apply (bool_decide_unpack _)] |].
  compare_word Hr "mem"%string; [by apply mem_command |].
  compare_word Hr "clear"%string; [apply commanded_run; [done | by apply clear_repr | done | done] |].
  compare_word Hr "reboot"%string; [by apply reboot_command |].
  rewrite (starts_with_spec (input t) (lit "echo ") (typed a) (chars "echo ") (rp_input _ _ Hr)) by (apply cstring_lit; by apply (bool_decide_unpack _)).
  change (lower <$> chars "echo ") with (chars "echo "). change (length (chars "echo ")) with 5%nat. rewrite fmap_take. cbn [mbind option_bind].
  destruct (decide (take 5 _ = _)) as [E | E]; [rewrite bool_decide_true by done | rewrite bool_decide_false by done].
  - apply echo_command; [done |]. apply (f_equal length) in E. rewrite length_take, length_fmap in E. change (length (chars "echo ")) with 5%nat in E. lia.
  - destruct (push_lit t a "COMMAND NOT FOUND. TYPE HELP." Hr) as (t' & -> & Hr' & Hb' & Hi' & _); [by apply (bool_decide_unpack _) | by apply commanded_run].
Qed.

Lemma clear_input t a : represents t a -> exists i, wr (input t) 0 0 = Some i /\ represents (set_input t i 0) (mk_terminal (shown a) []).
Proof.
  intros [Hl Ha Hi Hn Hroom Hp]. rewrite wr_blit by (rewrite Ha; done). eexists. split; [done |].
  split; cbn [shown typed]; [done | cbn; rewrite zlen_blit; [done | lia | rewrite Ha; done] | | done | done | constructor].
  apply (blit_cstring (input t) []). constructor.
Qed.

(** The state of a session: the shell holds a terminal and the screen shows it. *)
Definition session (t : shell) (s : screen) (a : terminal) : Prop :=
  represents t a /\ box_ok t /\ screen_ok s /\ displays t a s /\ 0 <= mem_mib t < 2 ^ 64.

Lemma rendered t t' a s : represents t' a -> same_box t t' -> box_ok t -> screen_ok s -> 0 <= mem_mib t < 2 ^ 64 ->
  exists s', render t' s = Some s' /\ session t' s' a.
Proof.
  intros Hr Hsame Hb Hs Hm. pose proof (same_box_ok _ _ Hsame Hb) as Hb'. destruct (displays_render t' a s Hr Hb' Hs) as (s' & E & Hs' & Hd).
  exists s'. split; [done |]. split; [done |]. split; [done |]. split; [done |]. split; [done |]. by destruct Hsame as (_ & _ & _ & _ & ->).
Qed.

Lemma execute_spec t a s : session t s a -> exists f t' s', execute t s = Some (f, t', s') /\ same_box t t' /\
  f = fst (key_step (mem_mib t) 10 a) /\ session t' s' (snd (key_step (mem_mib t) 10 a)).
Proof.
  intros (Hr & Hb & Hs & Hd & Hm). unfold execute. destruct (echo_line_spec t a Hr) as (l & -> & Hl). cbn [mbind option_bind].
  destruct (push_repr t a l _ Hr Hl) as (t1 & -> & Hr1 & Hb1 & Hi1 & Hn1).
  { pose proof (rp_room _ _ Hr). rewrite zlen_app. change (zlen prompt_text) with 15. unfold MAX_INPUT, MAX_LINE in *. lia. }
  cbn [mbind option_bind]. assert (mem_mib t1 = mem_mib t) as Hm1 by apply Hb1.
  destruct (run_command_spec t1 _ s Hr1 (same_box_ok _ _ Hb1 Hb) Hs ltac:(by rewrite Hm1)) as (f & t2 & s2 & -> & Hb2 & Hr2 & Hi2 & Hf).
  cbn [mbind option_bind typed] in *. rewrite Hm1 in *. pose proof (same_box_trans _ _ _ Hb1 Hb2) as Hb12. unfold key_step. rewrite Z.eqb_refl. cbn [typed] in *.
  destruct (clear_input t2 _ Hr2) as (i & Ew & Hr3).
  assert (exists s3, render (set_input t2 i 0) s = Some s3 /\ session (set_input t2 i 0) s3 (mk_terminal (shown (react (respond (mem_mib t) (typed a)) (mk_terminal (show (shown a) (prompt_text ++ typed a)) (typed a)))) [])) as (s3 & Er & Hses)
    by (by apply (rendered t)).
  destruct (respond (mem_mib t) (typed a)) as [texts | |].
  - destruct Hf as [-> ->]. cbn [mbind option_bind]. rewrite Ew. cbn [mbind option_bind]. rewrite Er. cbn [mbind option_bind]. by exists Running, (set_input t2 i 0), s3.
  - destruct Hf as [-> ->]. cbn [mbind option_bind]. rewrite Ew. cbn [mbind option_bind]. rewrite Er. cbn [mbind option_bind]. by exists Running, (set_input t2 i 0), s3.
  - destruct Hf as (-> & Hs2 & Hd2). exists Rebooting, t2, s2. split; [done |]. split; [done |]. split; [done |].
    split; [done |]. split; [by eapply same_box_ok |]. split; [done |]. split; [done |]. by destruct Hb12 as (_ & _ & _ & _ & ->).
Qed.

Lemma backspace_repr t a : represents t a ->
  exists t', (if 0 <? input_len t then i ← wr (input t) (input_len t - 1) 0; Some (set_input t i (input_len t - 1)) else Some t) = Some t' /\
    same_box t t' /\ represents t' (mk_terminal (shown a) (take (pred (length (typed a))) (typed a))).
Proof.
  intros Hr. pose proof Hr as [Hl Ha [Hnz [rest Hin]] Hn Hroom Hp]. rewrite Hn. destruct (typed a) as [| c ty] eqn:E using rev_ind; [| clear IHty].
  { exists t. split; [done |]. split; [done |]. destruct a as [sh ty]; cbn in *. by subst. }
  rewrite zlen_snoc in *. pose proof (zlen_nonneg ty). destruct (Z.ltb_spec 0 (zlen ty + 1)); [| lia].
  assert (wr (input t) (zlen ty + 1 - 1) 0 = Some (ty ++ 0 :: 0 :: rest)) as ->.
  { rewrite Hin, <- app_assoc. cbn [app]. rewrite wr_in_range by (rewrite zlen_app, !zlen_cons; pose proof (zlen_nonneg rest); lia). f_equal.
    replace (Z.to_nat (zlen ty + 1 - 1)) with (length ty + 0)%nat by (unfold zlen; lia). by rewrite insert_app_r. }
  cbn [mbind option_bind]. eexists. split; [done |]. split; [done |]. rewrite length_app, Nat.add_1_r. cbn [pred]. rewrite take_app_length.
  apply Forall_app in Hnz as [Hnz _]. apply Forall_app in Hp as [Hp _].
  split; cbn [shown typed]; [done | | split; [done | by eexists] | cbn; lia | lia | done].
  cbn. rewrite <- Ha, Hin. unfold zlen. rewrite !length_app. cbn. rewrite ?length_app. cbn. lia.
Qed.

Lemma typing_repr t a key : represents t a -> printable key -> zlen (typed a) < MAX_INPUT - 1 ->
  exists i1 i2, wr (input t) (input_len t) key = Some i1 /\ wr i1 (input_len t + 1) 0 = Some i2 /\
    represents (set_input t i2 (input_len t + 1)) (mk_terminal (shown a) (typed a ++ [key])).
Proof.
  intros [Hl Ha [Hnz [rest Hin]] Hn Hroom Hp] Hk Hlt. rewrite Hn. pose proof (zlen_nonneg (typed a)). set (ty := typed a) in *. unfold MAX_INPUT in *.
  assert (wr (input t) (zlen ty) key = Some (ty ++ key :: rest)) as ->.
  { rewrite wr_in_range by lia. f_equal. rewrite Hin. replace (Z.to_nat (zlen ty)) with (length ty + 0)%nat by (unfold zlen; lia). by rewrite insert_app_r. }
  destruct rest as [| r rest]; [exfalso; rewrite Hin, zlen_snoc in Ha; lia |].
  assert (wr (ty ++ key :: r :: rest) (zlen ty + 1) 0 = Some (ty ++ key :: 0 :: rest)) as E.
  { rewrite wr_in_range by (rewrite zlen_app, !zlen_cons; pose proof (zlen_nonneg rest); lia). f_equal.
    replace (Z.to_nat (zlen ty + 1)) with (length ty + 1)%nat by (unfold zlen; lia). by rewrite insert_app_r. }
  do 2 eexists. split; [done |]. split; [exact E |]. split; cbn [shown typed]; [done | | | | |].
  - cbn. unfold MAX_INPUT. rewrite <- Ha, Hin. unfold zlen. by rewrite !length_app.
  - split; [apply Forall_app; split; [done |]; apply Forall_singleton; unfold printable in Hk; lia |]. exists rest. by rewrite <- app_assoc.
  - cbn. rewrite zlen_snoc. lia.
  - rewrite zlen_snoc. unfold MAX_INPUT. lia.
  - apply Forall_app. split; [done | by apply Forall_singleton].
Qed.

Lemma handle_key_spec t a s key : session t s a -> exists f t' s', shell_handle_key key t s = Some (f, t', s') /\ same_box t t' /\
  f = fst (key_step (mem_mib t) key a) /\ session t' s' (snd (key_step (mem_mib t) key a)).
Proof.
  intros Hses. pose proof Hses as (Hr & Hb & Hs & Hd & Hm). unfold shell_handle_key, key_step. destruct (Z.eqb_spec key 0) as [-> |]; [by exists Running, t, s |].
  destruct (Z.eqb_spec key 10) as [-> |].
  { pose proof (execute_spec t a s Hses) as He. unfold key_step in He. by rewrite Z.eqb_refl in He. }
  destruct (Z.eqb_spec key 8) as [-> |].
  { destruct (backspace_repr t a Hr) as (t' & -> & Hb' & Hr'). cbn [mbind option_bind].
    destruct (rendered t t' _ s Hr' Hb' Hb Hs Hm) as (s' & -> & Hs'). by exists Running, t', s'. }
  rewrite (rp_len _ _ Hr). destruct ((32 <=? key) && (key <=? 126) && (zlen (typed a) <? MAX_INPUT - 1)) eqn:E; [| by exists Running, t, s].
  rewrite !andb_true_iff, !Z.leb_le, Z.ltb_lt in E. destruct (typing_repr t a key Hr) as (i1 & i2 & W1 & W2 & Hr'); [unfold printable; lia | lia |].
  rewrite (rp_len _ _ Hr) in *. rewrite W1. cbn [mbind option_bind]. rewrite W2. cbn [mbind option_bind].
  destruct (rendered t _ _ s Hr' ltac:(done) Hb Hs Hm) as (s' & -> & Hs'). by eexists Running, _, s'.
Qed.

(** The keys until the computer restarts, in the code and for the user. *)
Fixpoint run_keys (keys : list Z) (t : shell) (s : screen) : option (fate * shell * screen) :=
  match keys with
  | [] => Some (Running, t, s)
  | key :: keys => '(f, t, s) ← shell_handle_key key t s; match f with Running => run_keys keys t s | Rebooting => Some (Rebooting, t, s) end
  end.

Fixpoint key_steps (mem : Z) (keys : list Z) (a : terminal) : fate * terminal :=
  match keys with
  | [] => (Running, a)
  | key :: keys => let '(f, a) := key_step mem key a in match f with Running => key_steps mem keys a | Rebooting => (Rebooting, a) end
  end.

Lemma run_keys_spec keys t a s : session t s a -> exists f t' s', run_keys keys t s = Some (f, t', s') /\ same_box t t' /\
  f = fst (key_steps (mem_mib t) keys a) /\ session t' s' (snd (key_steps (mem_mib t) keys a)).
Proof.
  revert t a s. induction keys as [| key keys IH]; intros t a s Hses; cbn [run_keys key_steps]; [by exists Running, t, s |].
  destruct (handle_key_spec t a s key Hses) as (f & t1 & s1 & -> & Hb & Hf & Hs1). cbn [mbind option_bind]. destruct (key_step (mem_mib t) key a) as [f' a']. cbn [fst snd] in *. subst f'.
  destruct f; [| by exists Rebooting, t1, s1]. destruct (IH t1 a' s1 Hs1) as (f2 & t2 & s2 & -> & Hb2 & -> & Hs2).
  assert (mem_mib t1 = mem_mib t) as Hm by apply Hb. rewrite Hm in *. exists (fst (key_steps (mem_mib t) keys a')), t2, s2. split; [done |]. split; [by eapply same_box_trans | done].
Qed.

(** The terminal the shell starts with. *)
Definition welcome : terminal := mk_terminal [chars "JOSH OS GRAPHICAL SHELL"; chars "KERNEL ONLINE. TYPE HELP TO EXPLORE."; []] [].

(** The static arrays as the kernel finds them. *)
Definition shell_arrays (t : shell) : Prop :=
  zlen (lines t) = MAX_LINES /\ (forall k l, rd (lines t) k = Some l -> zlen l = MAX_LINE) /\ zlen (input t) = MAX_INPUT /\ rd (input t) 0 = Some 0.

Definition fresh_box (x y w h : Z) : Prop := - 2 ^ 29 <= x <= 2 ^ 29 /\ - 2 ^ 29 <= y <= 2 ^ 29 /\ - 2 ^ 30 <= w <= 2 ^ 30 /\ - 2 ^ 30 <= h <= 2 ^ 30.

Lemma shell_init_spec x y w h mem t s : shell_arrays t -> fresh_box x y w h -> screen_ok s -> 0 <= mem < 2 ^ 64 ->
  exists t' s', shell_init x y w h mem t s = Some (t', s') /\ session t' s' welcome /\
    same_box (mk_shell (lines t) 0 (input t) 0 x y w h mem) t'.
Proof.
  intros (Hl & Ha & Hi & H0) Hbox Hs Hm. unfold shell_init. cbn zeta. set (t0 := mk_shell _ _ _ _ _ _ _ _ _).
  assert (represents t0 (mk_terminal [] [])) as Hr0.
  { split; cbn [shown typed]; [| done | | done | done | constructor].
    - split; [| done]. split; [done | done | done |]. intros k text Hk. by destruct k.
    - split; [constructor |]. destruct (input t) as [| c rest] eqn:E; [done |]. injection H0 as ->. by exists rest. }
  destruct (push_lit t0 _ "JOSH OS GRAPHICAL SHELL" Hr0) as (t1 & -> & Hr1 & Hb1 & _); [by apply (bool_decide_unpack _) |]. cbn [mbind option_bind].
  destruct (push_lit t1 _ "KERNEL ONLINE. TYPE HELP TO EXPLORE." Hr1) as (t2 & -> & Hr2 & Hb2 & _); [by apply (bool_decide_unpack _) |]. cbn [mbind option_bind].
  destruct (push_repr t2 _ [0] [] Hr2) as (t3 & -> & Hr3 & Hb3 & _); [split; [constructor | by exists []] | done |]. cbn [mbind option_bind].
  pose proof (same_box_trans _ _ _ (same_box_trans _ _ _ Hb1 Hb2) Hb3) as Hb. destruct (rendered t0 t3 _ s Hr3 Hb Hbox Hs Hm) as (s' & -> & Hses).
  exists t3, s'. split; [done |]. split; [exact Hses | exact Hb].
Qed.

(** C38. Whatever is typed, the shell never leaves its arrays and is the terminal its
    user sees: it echoes lines, answers commands in any case, keeps the last
    eighteen lines, edits a line of at most forty-seven characters, and after
    every key the screen shows the picture of that terminal.  Numbers it prints are
    the decimal representation of their values. *)
Theorem shell_refines_terminal x y w h mem t0 s0 keys : shell_arrays t0 -> fresh_box x y w h -> screen_ok s0 -> 0 <= mem < 2 ^ 64 ->
  decimal_value (decimal mem) = mem /\
  exists t1 s1 f t s, shell_init x y w h mem t0 s0 = Some (t1, s1) /\ run_keys keys t1 s1 = Some (f, t, s) /\
    let '(f', a) := key_steps mem keys welcome in f = f' /\ represents t a /\ displays t a s.
Proof.
  intros Ht Hb Hs Hm. split; [by apply decimal_correct |]. destruct (shell_init_spec x y w h mem t0 s0 Ht Hb Hs Hm) as (t1 & s1 & E1 & Hses & (_ & _ & _ & _ & Hmem)).
  cbn in Hmem.
  destruct (run_keys_spec keys t1 welcome s1 Hses) as (f & t & s & E2 & _ & Hf & Hses2). rewrite Hmem in *. exists t1, s1, f, t, s.
  split; [done |]. split; [done |]. destruct (key_steps mem keys welcome) as [f' a]. split; [done |]. by split; [apply Hses2 | destruct Hses2 as (_ & _ & _ & ? & _)].
Qed.

Definition blank_shell : shell := mk_shell (replicate 18 (replicate 80 0)) 0 (replicate 48 0) 0 0 0 0 0 0.

(** Typing "echo hi" and the return key. *)
Lemma shell_refines_terminal_witness :
  decimal_value (decimal 512) = 512 /\
  exists t1 s1 f t s, shell_init 0 0 8 8 512 blank_shell example_screen = Some (t1, s1) /\ run_keys (chars "echo hi" ++ [10]) t1 s1 = Some (f, t, s) /\
    represents t (mk_terminal [chars "JOSH OS GRAPHICAL SHELL"; chars "KERNEL ONLINE. TYPE HELP TO EXPLORE."; []; chars "JOSH@JOSHOS:~> echo hi"; chars "hi"] []).
Proof.
  destruct (shell_refines_terminal 0 0 8 8 512 blank_shell example_screen (chars "echo hi" ++ [10])) as (Hd & t1 & s1 & f & t & s & E1 & E2 & H).
  - split; [done |]. split; [| done]. intros k l Hk. apply rd_lookup in Hk as [_ Hk]. apply lookup_replicate in Hk as [-> _]. done.
  - unfold fresh_box. lia.
  - exact example_screen_ok.
  - lia.
  - split; [exact Hd |]. exists t1, s1, f, t, s. split; [exact E1 |]. split; [exact E2 |]. vm_compute (key_steps _ _ _) in H. exact (proj1 (proj2 H)).
Defined.
