(* ===== verification/Desktop.v ===== *)
(** * The desktop (kernel/src/desktop.c, desktop.h, main.c)

    The picture behind the shell, where it puts the terminal, and what main.c
    does with both: it draws the desktop, starts the shell in the terminal and
    hands it the characters of the keys that are pressed. *)

From Stdlib Require Import ZArith Lia String.
From stdpp Require Import base numbers list.
From S2P Require Import BootJosh Prelude Bytes Boot Input Gfx Shell.

#[local] Open Scope Z_scope.

Record desktop_layout_t := mk_layout { terminal_x : Z; terminal_y : Z; terminal_w : Z; terminal_h : Z }.

Definition dot (x y colour : Z) (s : screen) : option screen := gfx_round_rect x y 10 10 5 colour s.

Definition dock_icon (x y letter fill text : Z) (s : screen) : option screen :=
  s ← gfx_round_rect x y 42 42 11 fill s;
  tx ← int (x + 15); ty ← int (y + 13);
  gfx_text tx ty (Some [letter; 0]) 2 text s.

(** A literal at an offset from ([x], [y]). *)
Definition text_at (x y dx dy : Z) (text : string) (scale colour : Z) (s : screen) : option screen :=
  tx ← int (x + dx); ty ← int (y + dy); gfx_text tx ty (Some (lit text)) scale colour s.

(** A dot, and an icon of the dock, at an offset. *)
Definition dot_at (x y dx dy colour : Z) (s : screen) : option screen := px ← int (x + dx); py ← int (y + dy); dot px py colour s.
Definition icon_at (x y dx dy letter fill text : Z) (s : screen) : option screen := px ← int (x + dx); py ← int (y + dy); dock_icon px py letter fill text s.

(** The top bar and the greeting. *)
Definition draw_header (sw margin white muted cyan : Z) (s : screen) : option screen :=
  bar ← gfx_rgb s 8 13 25;
  s ← gfx_rect 0 0 sw 42 bar s;
  s ← gfx_text 22 14 (Some (lit "JOSH OS")) 2 white s;
  s ← text_at sw 16 (-152) 0 "PRE-ALPHA 0.1" 1 muted s;
  s ← gfx_text margin 76 (Some (lit "WELCOME TO JOSH OS")) (if 1200 <=? sw then 3 else 2) white s;
  text_at margin 76 0 (if 1200 <=? sw then 30 else 22) "SIMPLE. OPEN. UNDERSTANDABLE." 1 cyan s.

(** The panel at the side of a wide screen. *)
Definition draw_side (margin win_y side_w side_h panel panel2 border white muted cyan violet : Z) (s : screen) : option screen :=
  s ← gfx_panel margin win_y side_w side_h 18 panel border s;
  s ← text_at margin win_y 20 22 "SYSTEM" 2 white s;
  s ← text_at margin win_y 20 52 "KERNEL" 1 muted s;
  s ← text_at margin win_y 20 69 "JOSH KERNEL 0.1" 1 cyan s;
  s ← text_at margin win_y 20 99 "BOOT" 1 muted s;
  s ← text_at margin win_y 20 116 "LIMINE 12.9" 1 cyan s;
  s ← text_at margin win_y 20 146 "DISPLAY" 1 muted s;
  s ← text_at margin win_y 20 163 "FRAMEBUFFER" 1 cyan s;
  card_y ← int (win_y + side_h); card_y ← int (card_y - 126);
  card_x ← int (margin + 14); card_w ← int (side_w - 28);
  s ← gfx_round_rect card_x card_y card_w 104 14 panel2 s;
  s ← text_at margin card_y 28 18 "PRINCIPLE 01" 1 violet s;
  s ← text_at margin card_y 28 40 "THE SYSTEM" 1 white s;
  s ← text_at margin card_y 28 56 "SHOULD BECOME" 1 white s;
  s ← text_at margin card_y 28 72 "CLEARER AS YOU" 1 white s;
  text_at margin card_y 28 88 "UNDERSTAND IT." 1 white s.

(** The window of the terminal. *)
Definition draw_window (win_x win_y win_w win_h panel border muted : Z) (s : screen) : option screen :=
  s ← gfx_panel win_x win_y win_w win_h 18 panel border s;
  rx ← int (win_x + 1); ry ← int (win_y + 42); rw ← int (win_w - 2);
  s ← gfx_rect rx ry rw 1 border s;
  red ← gfx_rgb s 255 105 112; s ← dot_at win_x win_y 18 16 red s;
  yellow ← gfx_rgb s 255 201 92; s ← dot_at win_x win_y 36 16 yellow s;
  green ← gfx_rgb s 94 220 146; s ← dot_at win_x win_y 54 16 green s;
  text_at win_x win_y 82 16 "TERMINAL" 1 muted s.

Definition draw_dock (sw sh border white : Z) (s : screen) : option screen :=
  free ← int (sw - 246);
  let dock_x := Z.quot free 2 in
  dock_y ← int (sh - 68);
  fill ← gfx_rgb s 13 21 38; s ← gfx_panel dock_x dock_y 246 54 18 fill border s;
  c ← gfx_rgb s 37 60 91; s ← icon_at dock_x dock_y 12 6 84 c white s;
  c ← gfx_rgb s 42 91 117; s ← icon_at dock_x dock_y 60 6 70 c white s;
  c ← gfx_rgb s 84 66 133; s ← icon_at dock_x dock_y 108 6 78 c white s;
  c ← gfx_rgb s 50 75 103; s ← icon_at dock_x dock_y 156 6 83 c white s;
  c ← gfx_rgb s 41 127 151; icon_at dock_x dock_y 204 6 74 c white s.

(** Lines 38 to 66: the side of the screen, and the place and the width of the
    window beside it. *)
Definition place_window (sw margin win_y win_h panel panel2 border white muted cyan violet : Z) (s : screen) : option (Z * Z * screen) :=
  let side_w := if 900 <=? sw then Z.quot sw 4 else 0 in
  let gap := if negb (side_w =? 0) then 22 else 0 in
  win_x ← int (margin + side_w); win_x ← int (win_x + gap);
  win_w ← int (sw - win_x); win_w ← int (win_w - margin);
  if negb (side_w =? 0)
  then s ← draw_side margin win_y side_w win_h panel panel2 border white muted cyan violet s; Some (win_x, win_w, s)
  else double ← int (margin * 2); w ← int (sw - double); Some (margin, w, s).

Definition desktop_draw (s : screen) : option (desktop_layout_t * screen) :=
  let sw := to_int (gfx_width s) in
  let sh := to_int (gfx_height s) in
  white ← gfx_rgb s 235 243 255;
  muted ← gfx_rgb s 154 173 204;
  panel ← gfx_rgb s 16 25 45;
  panel2 ← gfx_rgb s 20 31 54;
  border ← gfx_rgb s 43 61 91;
  cyan ← gfx_rgb s 86 211 255;
  violet ← gfx_rgb s 158 116 255;
  s ← gfx_clear_gradient s;
  let margin := Z.quot sw 14 in
  let margin := if margin <? 34 then 34 else margin in
  s ← draw_header sw margin white muted cyan s;
  let win_y := 76 + 62 in
  win_h ← int (sh - win_y); win_h ← int (win_h - 108);
  '(win_x, win_w, s) ← place_window sw margin win_y win_h panel panel2 border white muted cyan violet s;
  s ← draw_window win_x win_y win_w win_h panel border muted s;
  s ← draw_dock sw sh border white s;
  tx ← int (win_x + 18); ty ← int (win_y + 56); tw ← int (win_w - 36); th ← int (win_h - 72);
  Some (mk_layout tx ty tw th, s).

(** ** main.c *)

(** Lines 151 to 154 of [kernel_after_paging]. *)
Definition start_desktop (boot : boot_context_t) (t : shell) (s : screen) : option (shell * screen) :=
  let s := gfx_init (Some (framebuffer boot)) s in
  '(layout, s) ← desktop_draw s;
  shell_init (terminal_x layout) (terminal_y layout) (terminal_w layout) (terminal_h layout) (usable_memory_mib boot) t s.

(** The loop over the input queue, lines 187 to 200; the message on the serial
    line is left out.  [event] is the local variable. *)
Fixpoint events_loop (n : nat) (q : input_state) (event : input_event_t) (t : shell) (s : screen) : option (fate * input_state * shell * screen) :=
  match n with
  | O => None
  | S n =>
      '(more, event, q) ← input_pop q (Some event);
      if negb more then Some (Running, q, t, s)
      else
        event ← event;
        if bool_decide (type event = INPUT_EVENT_KEY) && negb (pressed event =? 0) && negb (character event =? 0)
        then '(f, t, s) ← shell_handle_key (character event) t s;
             match f with Running => events_loop n q event t s | Rebooting => Some (Rebooting, q, t, s) end
        else events_loop n q event t s
  end.

(** ** Drawing the desktop *)

(** A drawing step succeeds and leaves a screen of the same kind. *)
Definition keeps (s : screen) (o : option screen) : Prop := exists s', o = Some s' /\ screen_ok s' /\ g s' = g s.

Lemma keeps_paint s s1 f : screen_ok s1 -> g s1 = g s -> keeps s (Some (paint s1 f)).
Proof. intros Hs Hg. eexists. split; [done |]. split; [by apply paint_ok | done]. Qed.

Lemma keeps_bind s o k : keeps s o -> (forall s', screen_ok s' -> g s' = g s -> keeps s (k s')) -> keeps s (o ≫= k).
Proof. intros (s' & -> & Hs & Hg) Hk. by apply Hk. Qed.

Lemma keeps_int s v k : - 2 ^ 31 <= v < 2 ^ 31 -> keeps s (k v) -> keeps s (int v ≫= k).
Proof. intros Hv Hk. by rewrite int_in by done. Qed.

Lemma keeps_rgb s s1 r gr b k : screen_ok s1 -> (forall c, keeps s (k c)) -> keeps s (gfx_rgb s1 r gr b ≫= k).
Proof. intros Hs Hk. destruct (rgb_defined s1 r gr b Hs) as [c ->]. apply Hk. Qed.

(** Coordinates and sizes of everything on the desktop. *)
Definition small (v : Z) : Prop := - 2 ^ 30 <= v <= 2 ^ 30 + 2 ^ 12.

(** A place and a size along one axis. *)
Definition placed (v size : Z) : Prop := small v /\ small size /\ v + size <= 2 ^ 31 - 16.

Lemma keeps_rect s s1 x y w h c : screen_ok s1 -> g s1 = g s -> placed x w -> placed y h -> keeps s (gfx_rect x y w h c s1).
Proof. unfold placed, small. intros. rewrite gfx_rect_spec by (done || (unfold rect_fits; lia)). by apply keeps_paint. Qed.

Lemma keeps_round s s1 x y w h r c : screen_ok s1 -> g s1 = g s -> placed x w -> placed y h -> 0 <= r <= 100 -> keeps s (gfx_round_rect x y w h r c s1).
Proof. unfold placed, small. intros. rewrite round_rect_spec by (done || lia || (unfold rect_fits; lia)). by apply keeps_paint. Qed.

Lemma keeps_panel s s1 x y w h r f b : screen_ok s1 -> g s1 = g s -> placed x w -> placed y h -> 0 <= r <= 100 -> keeps s (gfx_panel x y w h r f b s1).
Proof.
  unfold placed, small. intros. destruct (gfx_panel_spec x y w h r f b s1) as (? & _ & ->); [done | unfold panel_fits; lia |]. by apply keeps_paint.
Qed.

Lemma keeps_text s s1 x y w scale c : screen_ok s1 -> g s1 = g s -> small x -> small y -> bool_decide (short_text (chars w)) = true -> 1 <= scale <= 3 ->
  keeps s (gfx_text x y (Some (lit w)) scale c s1).
Proof.
  unfold small. intros Hs Hg Hx Hy [Hnz Hl]%bool_decide_eq_true Hsc. unfold MAX_LINE in Hl. pose proof (zlen_nonneg (chars w)).
  rewrite (gfx_text_spec x y (lit w) (chars w)); [by apply keeps_paint | done | by apply cstring_lit | unfold text_fits; nia].
Qed.

Lemma keeps_text_at s s1 x y dx dy w scale c : screen_ok s1 -> g s1 = g s -> small (x + dx) -> small (y + dy) -> bool_decide (short_text (chars w)) = true -> 1 <= scale <= 3 ->
  keeps s (text_at x y dx dy w scale c s1).
Proof. intros. unfold text_at. unfold small in *. do 2 (apply keeps_int; [lia |]). by apply keeps_text. Qed.

Lemma keeps_dot s s1 x y dx dy c : screen_ok s1 -> g s1 = g s -> small (x + dx) -> small (y + dy) -> keeps s (dot_at x y dx dy c s1).
Proof. intros. unfold dot_at, dot. do 2 (apply keeps_int; [unfold small in *; lia |]). apply keeps_round; unfold placed, small in *; (done || lia). Qed.

Lemma keeps_icon s s1 x y dx dy letter fill c : screen_ok s1 -> g s1 = g s -> small (x + dx + 15) -> small (y + dy + 13) -> small (x + dx) -> small (y + dy) -> letter <> 0 ->
  keeps s (icon_at x y dx dy letter fill c s1).
Proof.
  intros Hs Hg Hx Hy ? ? Hl. unfold icon_at, dock_icon. do 2 (apply keeps_int; [unfold small in *; lia |]).
  apply keeps_bind; [apply keeps_round; (done || unfold placed, small in *; lia) |]. intros s2 Hs2 Hg2. do 2 (apply keeps_int; [unfold small in *; lia |]).
  rewrite (gfx_text_spec _ _ [letter; 0] [letter]); [by apply keeps_paint | done | | unfold text_fits, small in *; change (zlen [letter]) with 1; lia].
  split; [by apply Forall_singleton | by exists []].
Qed.

(** One step of a drawing function. *)
Ltac draw_step :=
  match goal with
  | |- keeps _ (int _ ≫= _) => apply keeps_int; [unfold small in *; lia |]
  | |- keeps _ (gfx_rgb _ _ _ _ ≫= _) => apply keeps_rgb; [done | intros ?]
  | |- keeps _ (gfx_rect _ _ _ _ _ _) => apply keeps_rect; [done | congruence | unfold placed, small in *; lia ..]
  | |- keeps _ (gfx_round_rect _ _ _ _ _ _ _) => apply keeps_round; [done | congruence | unfold placed, small in *; lia ..]
  | |- keeps _ (gfx_panel _ _ _ _ _ _ _ _) => apply keeps_panel; [done | congruence | unfold placed, small in *; lia ..]
  | |- keeps _ (gfx_text _ _ (Some (lit _)) _ _ _) => apply keeps_text; [done | congruence | unfold small in *; lia | unfold small in *; lia | reflexivity | try lia]
  | |- keeps _ (text_at _ _ _ _ _ _ _ _) => apply keeps_text_at; [done | congruence | unfold small in *; lia | unfold small in *; lia | reflexivity | try lia]
  | |- keeps _ (dot_at _ _ _ _ _ _) => apply keeps_dot; [done | congruence | unfold small in *; lia ..]
  | |- keeps _ (icon_at _ _ _ _ _ _ _ _) => apply keeps_icon; [done | congruence | unfold small in *; lia ..]
  | |- keeps _ (_ ≫= _) => apply keeps_bind; [| intros ? ? ?]
  end.

Lemma header_keeps s sw margin white muted cyan : screen_ok s -> 0 <= sw <= 2 ^ 30 -> 0 <= margin <= 2 ^ 28 -> keeps s (draw_header sw margin white muted cyan s).
Proof. intros Hs Hsw Hm. unfold draw_header. destruct (1200 <=? sw); repeat draw_step. Qed.

Lemma side_keeps s margin y w h panel panel2 border white muted cyan violet : screen_ok s -> 0 <= margin <= 2 ^ 28 -> 0 <= y <= 2 ^ 10 -> - 2 ^ 28 <= w <= 2 ^ 28 -> - 2 ^ 29 <= h <= 2 ^ 30 ->
  keeps s (draw_side margin y w h panel panel2 border white muted cyan violet s).
Proof. intros. unfold draw_side. repeat draw_step. Qed.

Lemma window_keeps s x y w h panel border muted : screen_ok s -> 0 <= x <= 2 ^ 29 -> 0 <= y <= 2 ^ 10 -> - 2 ^ 29 - 2 ^ 10 <= w <= 2 ^ 30 -> - 2 ^ 29 <= h <= 2 ^ 30 ->
  keeps s (draw_window x y w h panel border muted s).
Proof. intros. unfold draw_window. repeat draw_step. Qed.

Lemma dock_keeps s sw sh border white : screen_ok s -> 0 <= sw <= 2 ^ 30 -> 0 <= sh <= 2 ^ 30 -> keeps s (draw_dock sw sh border white s).
Proof.
  intros Hs Hw Hh. unfold draw_dock. draw_step. cbn zeta. pose proof (Z_quot_bound (sw - 246) 2 (2 ^ 30) ltac:(lia) ltac:(lia)). set (dock_x := Z.quot (sw - 246) 2) in *. clearbody dock_x.
  repeat draw_step.
Qed.

(** Where the terminal goes on a screen of the given size. *)
Definition layout_for (sw sh : Z) : desktop_layout_t :=
  let margin := Z.max 34 (sw / 14) in
  let x := if 900 <=? sw then margin + sw / 4 + 22 else margin in
  mk_layout (x + 18) 194 (sw - x - margin - 36) (sh - 318).

(** The place of the window's left edge. *)
Definition window_x (sw margin : Z) : Z := if 900 <=? sw then margin + sw / 4 + 22 else margin.

Lemma place_window_spec s sw margin y h panel panel2 border white muted cyan violet :
  screen_ok s -> 0 <= sw <= 2 ^ 30 -> 34 <= margin <= 2 ^ 28 -> 0 <= y <= 2 ^ 10 -> - 2 ^ 29 <= h <= 2 ^ 30 ->
  exists s', place_window sw margin y h panel panel2 border white muted cyan violet s = Some (window_x sw margin, sw - window_x sw margin - margin, s') /\
    screen_ok s' /\ g s' = g s.
Proof.
  intros Hs Hsw Hm Hy Hh. unfold place_window, window_x. rewrite (Z.quot_div_nonneg sw) by lia. cbn zeta.
  assert (0 <= sw / 4 <= 2 ^ 28) by (split; [apply Z.div_pos; lia | apply Z.div_le_upper_bound; lia]). destruct (Z.leb_spec 900 sw).
  - assert (1 <= sw / 4) by (apply Z.div_le_lower_bound; lia). rewrite (proj2 (Z.eqb_neq (sw / 4) 0)) by lia. cbn [negb].
    rewrite (int_in (margin + sw / 4)) by lia. cbn [mbind option_bind]. rewrite (int_in (margin + sw / 4 + 22)) by lia. cbn [mbind option_bind].
    rewrite (int_in (sw - (margin + sw / 4 + 22))) by lia. cbn [mbind option_bind]. rewrite (int_in (sw - (margin + sw / 4 + 22) - margin)) by lia. cbn [mbind option_bind].
    edestruct (side_keeps s margin y (sw / 4) h) as (s' & -> & Hs' & Hg'); [done | lia | lia | lia | lia |]. by exists s'.
  - cbn [negb Z.eqb]. rewrite (int_in (margin + 0)) by lia. cbn [mbind option_bind]. rewrite (int_in (margin + 0 + 0)) by lia. cbn [mbind option_bind].
    rewrite (int_in (sw - (margin + 0 + 0))) by lia. cbn [mbind option_bind]. rewrite (int_in (sw - (margin + 0 + 0) - margin)), (int_in (margin * 2)) by lia. cbn [mbind option_bind].
    rewrite (int_in (sw - margin * 2)) by lia. exists s. split; [cbn [mbind option_bind]; do 3 f_equal; lia | done].
Qed.

Lemma desktop_draw_spec s : screen_ok s ->
  exists s', desktop_draw s = Some (layout_for (g_width (g s)) (g_height (g s)), s') /\ screen_ok s' /\ g s' = g s.
Proof.
  intros Hs. pose proof (so_width s Hs). pose proof (so_height s Hs). unfold desktop_draw, gfx_width, gfx_height. rewrite !to_int_small by lia. cbn zeta.
  set (sw := g_width (g s)) in *. set (sh := g_height (g s)) in *.
  do 7 match goal with |- context[gfx_rgb s ?a ?b ?c] => destruct (rgb_defined s a b c Hs) as [? ->]; cbn [mbind option_bind] end.
  rewrite (gradient_spec s Hs). cbn [mbind option_bind]. set (s1 := paint s (gradient_colour s)). assert (screen_ok s1) as Hs1 by (by apply paint_ok).
  rewrite (Z.quot_div_nonneg sw) by lia. assert (0 <= sw / 14 <= 2 ^ 27) by (split; [apply Z.div_pos; lia | apply Z.div_le_upper_bound; lia]).
  replace (if sw / 14 <? 34 then 34 else sw / 14) with (Z.max 34 (sw / 14)) by (destruct (Z.ltb_spec (sw / 14) 34); lia).
  unfold layout_for. set (margin := Z.max 34 (sw / 14)) in *. assert (34 <= margin <= 2 ^ 27) by lia. clearbody margin.
  edestruct (header_keeps s1 sw margin) as (s2 & -> & Hs2 & Hg2); [done | lia | lia |]. cbn [mbind option_bind].
  rewrite (int_in (sh - (76 + 62))) by lia. cbn [mbind option_bind]. rewrite (int_in (sh - (76 + 62) - 108)) by lia. cbn [mbind option_bind].
  edestruct (place_window_spec s2 sw margin (76 + 62) (sh - (76 + 62) - 108)) as (s3 & -> & Hs3 & Hg3); [done | lia | lia | lia | lia |]. cbn [mbind option_bind].
  assert (0 <= sw / 4 <= 2 ^ 28) by (split; [apply Z.div_pos; lia | apply Z.div_le_upper_bound; lia]). fold (window_x sw margin).
  set (win_x := window_x sw margin). assert (0 <= win_x <= 2 ^ 28 + 2 ^ 27 + 22) by (subst win_x; unfold window_x; destruct (900 <=? sw); lia). clearbody win_x.
  edestruct (window_keeps s3 win_x (76 + 62) (sw - win_x - margin) (sh - (76 + 62) - 108)) as (s4 & -> & Hs4 & Hg4); [done | lia | lia | lia | lia |]. cbn [mbind option_bind].
  edestruct (dock_keeps s4 sw sh) as (s5 & -> & Hs5 & Hg5); [done | lia | lia |]. cbn [mbind option_bind].
  rewrite (int_in (win_x + 18)), (int_in (76 + 62 + 56)), (int_in (sw - win_x - margin - 36)), (int_in (sh - (76 + 62) - 108 - 72)) by lia. cbn [mbind option_bind].
  exists s5. split; [do 3 f_equal; lia |]. split; [done |]. by rewrite Hg5, Hg4, Hg3, Hg2.
Qed.

(** ** From the input queue to the terminal *)

(** The character an event gives the shell, if any. *)
Definition takes_key (e : input_event_t) : bool := bool_decide (type e = INPUT_EVENT_KEY) && negb (pressed e =? 0) && negb (character e =? 0).

Definition event_key (e : input_event_t) : option Z := if takes_key e then Some (character e) else None.

Definition keys_of (L : list input_event_t) : list Z := omap event_key L.

Lemma keys_of_cons e L : keys_of (e :: L) = match event_key e with Some k => k :: keys_of L | None => keys_of L end.
Proof. done. Qed.

Lemma pop_next q e L event : holds q (e :: L) -> exists q', input_pop q (Some event) = Some (true, Some e, q') /\ holds q' L.
Proof.
  intros H. unfold input_pop. rewrite (proj2 (Z.eqb_neq _ _)) by (by intros ?%(holds_empty _ _ H)). destruct (holds_pop _ _ _ H) as [-> H']. eexists. by split.
Qed.

Lemma pop_empty q event : holds q [] -> input_pop q (Some event) = Some (false, Some event, q).
Proof. intros H. unfold input_pop. rewrite (proj2 (Z.eqb_eq _ _)); [done |]. by apply (holds_empty _ _ H). Qed.

Lemma events_loop_spec L n q event t s a : (length L < n)%nat -> holds q L -> session t s a ->
  exists f q' t' s', events_loop n q event t s = Some (f, q', t', s') /\ f = fst (key_steps (mem_mib t) (keys_of L) a) /\
    session t' s' (snd (key_steps (mem_mib t) (keys_of L) a)) /\ (f = Running -> holds q' []).
Proof.
  revert n q event t s a. induction L as [| e L IH]; intros n q event t s a Hn Hq Hses; (destruct n as [| n]; [lia |]); cbn [events_loop].
  { rewrite pop_empty by done. by exists Running, q, t, s. }
  destruct (pop_next q e L event Hq) as (q1 & -> & Hq1). cbn [mbind option_bind negb]. cbn [length] in Hn. rewrite keys_of_cons. fold (takes_key e).
  unfold event_key. fold (takes_key e). destruct (takes_key e); [| apply IH; [lia | done | done]].
  destruct (handle_key_spec t a s (character e) Hses) as (f & t1 & s1 & -> & Hb & Hf & Hs1). cbn [mbind option_bind key_steps].
  destruct (key_step (mem_mib t) (character e) a) as [f' a']. cbn [fst snd] in *. subst f'. destruct f; [| by exists Rebooting, q1, t1, s1].
  destruct (IH n q1 e t1 s1 a' ltac:(lia) Hq1 Hs1) as (f2 & q2 & t2 & s2 & E & Hf2 & Hs2 & Hq2). assert (mem_mib t1 = mem_mib t) as Hm by apply Hb. rewrite Hm in *.
  by exists f2, q2, t2, s2.
Qed.

(** What the loader gives: a framebuffer in memory, at most 2^30 pixels wide and
    high ([screen_ok]), and a number of megabytes. *)
Definition boot_screen (boot : boot_context_t) (s : screen) : Prop :=
  screen_ok (gfx_init (Some (framebuffer boot)) s) /\ 0 <= usable_memory_mib boot < 2 ^ 64.

(** Every framebuffer that the adapter of Josh's own boot protocol accepts is one
    (boot_josh.c); the adapter of the other protocol bounds only products of the
    sizes. *)
Lemma josh_boot_screen c info usable_bytes s :
  let fb := info_framebuffer info in
  framebuffer_ok fb -> 0 <= fb_red_mask_shift fb -> 0 <= fb_green_mask_shift fb -> 0 <= fb_blue_mask_shift fb -> 0 <= usable_bytes < 2 ^ 64 ->
  zlen (pixels s) = fb_pitch fb / 4 * fb_height fb -> boot_screen (josh_context c info usable_bytes) s.
Proof.
  intros fb [Ha _ [Hw Hh] [Hp Hp4] He Hr Hg Hb] Hrs Hgs Hbs Hu Hz. unfold mask_ok, FOUR_GIB in *.
  pose proof (Z.div_mod (fb_pitch fb) 4 ltac:(lia)) as Hd. assert (4 * fb_height fb <= fb_pitch fb * fb_height fb) by nia. assert (fb_pitch fb <= fb_pitch fb * fb_height fb) by nia.
  split.
  - split; cbn -[Z.pow]; fold fb; unfold stride; cbn -[Z.pow]; fold fb; rewrite ?u8_small by lia; first [done | lia].
  - cbn. split; [apply Z.div_pos; lia | apply Z.div_lt_upper_bound; lia].
Qed.

Lemma layout_fresh sw sh : 0 < sw <= 2 ^ 30 -> 0 < sh <= 2 ^ 30 ->
  let l := layout_for sw sh in fresh_box (terminal_x l) (terminal_y l) (terminal_w l) (terminal_h l).
Proof.
  intros Hw Hh. unfold layout_for, fresh_box. cbn. assert (0 <= sw / 14 <= 2 ^ 27) by (split; [apply Z.div_pos; lia | apply Z.div_le_upper_bound; lia]).
  assert (0 <= sw / 4 <= 2 ^ 28) by (split; [apply Z.div_pos; lia | apply Z.div_le_upper_bound; lia]). destruct (900 <=? sw); lia.
Qed.

(** The terminal lies on the screen, below the top bar and above the dock. *)
Definition terminal_inside (sw sh : Z) (l : desktop_layout_t) : Prop :=
  0 < terminal_x l /\ 0 < terminal_w l /\ terminal_x l + terminal_w l < sw /\ 42 < terminal_y l /\ 0 < terminal_h l /\ terminal_y l + terminal_h l < sh - 68.

Lemma layout_inside sw sh : terminal_inside sw sh (layout_for sw sh) <-> 105 <= sw /\ 319 <= sh.
Proof.
  unfold terminal_inside, layout_for. cbn. pose proof (Z.div_mod sw 14 ltac:(lia)). pose proof (Z.mod_pos_bound sw 14 ltac:(lia)).
  pose proof (Z.div_mod sw 4 ltac:(lia)). pose proof (Z.mod_pos_bound sw 4 ltac:(lia)). destruct (Z.leb_spec 900 sw); lia.
Qed.

(** C40. From the boot loader's framebuffer to the user: drawing the desktop and
    starting the shell in it is always defined, on every screen up to 2^30 pixels
    wide and high; the terminal lies on the screen, below the top bar and above
    the dock, exactly when the screen is at least 105 pixels wide and 319 high; and
    the events in the input queue, in their order, bring the shell to the terminal
    their characters describe, which is what the screen then shows. *)
Theorem desktop_session_correct boot t0 s0 q L event : boot_screen boot s0 -> shell_arrays t0 -> holds q L ->
  let layout := layout_for (width (framebuffer boot)) (height (framebuffer boot)) in
  (terminal_inside (width (framebuffer boot)) (height (framebuffer boot)) layout <-> 105 <= width (framebuffer boot) /\ 319 <= height (framebuffer boot)) /\
  exists t1 s1 f q' t s, start_desktop boot t0 s0 = Some (t1, s1) /\
    mk_layout (sx t1) (sy t1) (sw t1) (sh t1) = layout /\
    events_loop (S (length L)) q event t1 s1 = Some (f, q', t, s) /\
    let '(f', a) := key_steps (usable_memory_mib boot) (keys_of L) welcome in f = f' /\ represents t a /\ displays t a s /\ (f = Running -> holds q' []).
Proof.
  intros (Hs & Hm) Ht Hq layout. split; [apply layout_inside |]. unfold start_desktop. cbn zeta.
  destruct (desktop_draw_spec _ Hs) as (s1 & -> & Hs1 & _). cbn [mbind option_bind]. cbn [g gfx_init g_width g_height]. fold layout.
  pose proof (so_width _ Hs) as Hw0. pose proof (so_height _ Hs) as Hh0. cbn [g gfx_init g_width g_height] in Hw0, Hh0.
  destruct (shell_init_spec _ _ _ _ (usable_memory_mib boot) t0 s1 Ht (layout_fresh _ _ Hw0 Hh0) Hs1 Hm) as (t1 & s2 & E & Hses & Hb).
  fold layout in E, Hb. rewrite E. destruct Hb as (Hx & Hy & Hbw & Hbh & Hmem). cbn in Hx, Hy, Hbw, Hbh, Hmem.
  destruct (events_loop_spec L (S (length L)) q event t1 s2 welcome ltac:(lia) Hq Hses) as (f & q' & t & s & El & Hf & Hses2 & Hq').
  rewrite Hmem in *. exists t1, s2, f, q', t, s. split; [done |]. split; [rewrite Hx, Hy, Hbw, Hbh; reflexivity |]. split; [done |].
  destruct (key_steps _ _ _) as [f' a]. split; [done |]. split; [apply Hses2 |]. split; [by destruct Hses2 as (_ & _ & _ & ? & _) | done].
Qed.

(** A screen of two hundred by four hundred pixels, and a key in the queue. *)
Definition example_boot : boot_context_t := mk_boot_context (mk_framebuffer 0xfd000000 200 400 800 32 8 16 8 8 8 0) [] 0 512 0 0 0 0 0 0 0 0 0 0 [].
Definition example_memory : screen := mk_screen (mk_gfx example_framebuffer 0 0) (replicate (Z.to_nat 80000) 0).
Definition example_key : input_event_t := mk_event INPUT_EVENT_KEY 30 0 0 0 1 97.
Definition example_queue : input_state := mk_input (replicate 128 example_key) 1 0 0.

Lemma example_boot_screen : boot_screen example_boot example_memory.
Proof.
  split; [| done]. split; [done | done | done | done | | done | done | done].
  unfold gfx_init, example_memory. cbn [pixels]. unfold zlen. rewrite length_replicate, Z2Nat.id by lia. reflexivity.
Qed.

Lemma desktop_session_correct_witness : exists t1 s1 q' t s, start_desktop example_boot blank_shell example_memory = Some (t1, s1) /\
  mk_layout (sx t1) (sy t1) (sw t1) (sh t1) = mk_layout 52 194 96 82 /\
  events_loop 2 example_queue example_key t1 s1 = Some (Running, q', t, s) /\ represents t (mk_terminal (shown welcome) [97]).
Proof.
  assert (holds example_queue [example_key]) as Hq.
  { split; [done |]. split; [cbn; unfold INPUT_QUEUE_CAPACITY; lia |]. split; [done |]. split; [done |]. intros k Hk. change (zlen [example_key]) with 1 in Hk. by replace k with 0 by lia. }
  destruct (desktop_session_correct example_boot blank_shell example_memory example_queue [example_key] example_key) as (_ & t1 & s1 & f & q' & t & s & E1 & El & E2 & H).
  - exact example_boot_screen.
  - split; [done |]. split; [| done]. intros k l Hk. apply rd_lookup in Hk as [_ Hk]. apply lookup_replicate in Hk as [-> _]. done.
  - exact Hq.
  - vm_compute (key_steps _ _ _) in H. destruct H as (-> & Hr & _). exists t1, s1, q', t, s. split; [exact E1 |]. split; [rewrite El; reflexivity |]. split; [exact E2 | exact Hr].
Defined.
